(* ===== verification/_CoqProject ===== *)
-Q . S2P
Prelude.v
Store.v
Truth.v
Schema.v
Result.v
Program.v
Batch.v
Predicate.v
Simd.v
FactIndex.v
Evidence.v
Executor.v
PolicyIndex.v
PolicyBuild.v
Templates.v
Finalize.v
Execute.v
ResultRows.v
Range.v
Shard.v
Lease.v
Admission.v
Liveness.v
Schedule.v
ScheduleMeaning.v
SymbolTable.v
Interner.v
Frozen.v
SymbolCheck.v
Ast.v
Traversal.v
Diagnostic.v
Validate.v
GraphWalk.v
GraphOk.v
ValidateOk.v
Constants.v
ConstantsMeaning.v
Normalize.v
Compact.v
DocMeaning.v
WalkEnd.v
NormalizeOk.v
WalkOk.v
WalkMeaning.v
CompactOk.v
NodeMapOk.v
LowerMeaning.v
IndexLower.v
IndexMeaning.v
FactLower.v
IndexOk.v
LowerRows.v
Semantics.v
SemanticsOk.v
Decision.v
Compile.v
ValidateAccepts.v
Validated.v
Builder.v
BuilderSession.v
Sample.v
SampleBuild.v
SampleLower.v
SampleIndex.v
SampleCompile.v
