(* ===== verification/Prelude.v ===== *)
(** * NornRune: a verification library of the policy engine

    NornRune compiles policy documents into an immutable columnar [Program] and
    evaluates batches of requests against it.  This library models the Go code of
    the compiler and of the evaluation core (src/internal), from the validation of a
    document and the bitmap algebra up to the sharded scheduler, and proves that a
    batch evaluation computes, row by row, the decision the document states.

    ** The program and the files that model it

    - [Prelude], [Store]: Go's effects.  [go A] is a value, a sentinel error or a
      panic; [at_], [slice_], [put_] are the run-time bounds checks; machine
      integers are [Z] with the wrap-around written out ([u32], [u64]); a slab of
      words shared by several slices is one [store], so aliased destinations are
      modelled as the code has them.
    - [Truth]: truth/planes.go, truth/reason.go, truth/scalar.go.  Four-valued
      logic on pairs of bit planes and reason masks.
    - [Schema]: schema/field.go, schema/schema.go, schema/value.go.
    - [Result]: result/outcome.go, result/remediation.go, result/resolution.go:
      outcome precedence and the resolution of unknown values.
    - [Program]: program/program.go, program/instruction.go and the index and
      explanation tables a program embeds.
    - [Batch]: eval/batch.go, eval/evidence.go: column-major request facts.
    - [Predicate], [Simd], [FactIndex]: the three backends of a comparison leaf
      (eval/predicate.go, eval/scalar.go; eval/simd.go, simdops/; eval/batch_index.go,
      index/batch.go).  The assembly kernels are outside the repository's Go code:
      they are the class [SimdOps] with laws [SimdLaws]; the portable kernels of
      simdops/purego.go are an instance.
    - [Evidence]: eval/evidence_eval.go.
    - [Executor]: the schedule loop and the slot windows of eval/executor.go.
    - [PolicyIndex], [PolicyBuild]: index/policy.go, index/query.go, index/schema.go:
      querying the applicability index, and what its construction produces.
    - [Templates]: result/templates.go, result/explanation_table.go: the fragment
      and explanation tables and their validation.
    - [Finalize]: clause resolution, provenance and the result columns
      (eval/executor.go, result/batch.go).
    - [Execute]: validation, binding and the entry points [Execute] and
      [ExecuteRange] as transitions of the executor's state.
    - [ResultRows], [Range]: what a caller reads back from a result batch, and row
      ranges of a batch.
    - [Shard]: scheduler/shard.go, scheduler/worker.go and the sequential core of
      [Scheduler.Execute].
    - [Lease]: scheduler/arena.go, scheduler/context.go.  Every atomic access of
      [Borrow], [Return], [ClaimOutput] and [Release] is one step of a thread.
    - [Admission]: scheduler/scheduler.go, scheduler/worker.go.  Every channel
      operation and [select] branch of [Scheduler.Execute], the workers and
      [CloseContext] is one step; the contexts of [Lease] are counted here.
    - [Liveness]: compile/liveness.go, the planning of truth and reason slots.
    - [Schedule], [ScheduleMeaning]: compile/schedule.go, the topological sort into
      opcode runs and the permutation of the instruction columns, and what they
      preserve.
    - [SymbolTable], [Interner]: arena/bytes.go and schema/symbols.go.  FNV-1a, the
      open-addressing tables all symbol lookups share, and the growing interner;
      [SymbolSpace] is what a symbol namespace promises to its clients.
    - [Frozen], [SymbolCheck]: the symbols of a program: interning and freezing
      (compile/normalize.go), [Program.LookupSymbol] and the builder's validation
      of the frozen columns (eval/builder.go).
    - [Ast]: the columns and accessors of a policy document (ast/document.go,
      ast/value.go, ast/kind.go, ast/source.go, ast/semantic.go).
    - [Diagnostic], [Validate]: compile/diagnostic.go, compile/validate.go and
      compile/validate_explanation.go, every check in the order of the code.
      [Traversal] is the measure of an iterative depth-first search, shared by the
      cycle check and the instruction walk; [GraphWalk] and [GraphOk] prove the cycle
      check, [ValidateOk] that validation never panics, [ValidateAccepts] what an
      empty list of diagnostics says about a document.
    - [Constants], [ConstantsMeaning]: the constant stage of compile/lower.go with
      compile/normalize.go: canonical symbols and values, field schema, names.
    - [Normalize], [Compact]: the instruction stage (compile/normalize_instructions.go
      and [lowerInstructions]): the depth-first walk, flattening and sharing of
      candidates, liveness, compaction and the node map.  [DocMeaning] gives every
      node of a document its value; [WalkEnd], [NormalizeOk], [WalkOk],
      [WalkMeaning], [CompactOk], [NodeMapOk] and [LowerMeaning] relate the two.
    - [IndexLower], [FactLower]: compile/index.go, the selectors of a requirement and
      the fact plan.  [IndexMeaning] and [IndexOk] relate them to the instructions.
    - [LowerRows], [Semantics]: compile/lower_semantics.go, compile/lower_explanation.go,
      program/freeze.go and [Program.ValidateResultTables]: outcome, requirement, clause,
      evidence, resolution, remediation and explanation tables.  [SemanticsOk] shows
      that they hold the document's rows.
    - [Decision], [Compile], [Validated]: the decision a document states for a request,
      the composition of the stages, and [Lower] as the entry point calls it, with
      validation first.
    - [Builder], [BuilderSession]: eval/builder.go, the reusable builder that fills
      and seals request batches, and sequences of its calls.
    - [Sample], [SampleBuild], [SampleLower], [SampleIndex], [SampleCompile]: a concrete
      policy document and program, batches and builds, executable checks, and the
      instances of the properties.

    ** What the theorems show

    - The whole pipeline.  [compiled_policy_decides]: a document that [Lower] accepts
      compiles to a program whose execution gives every request row the outcome the
      document states, read off the expression nodes, clauses and resolutions of
      the document alone.  [invalid_documents_rejected]: a document with a diagnostic
      yields an error and no program.  [graph_diagnostics_exact]: the graph check reports
      a cycle exactly when some node reaches itself, and exactly the nodes no clause
      reaches as unreachable.
    - Reference semantics.  [denote] gives every instruction a value in
      four-valued logic with reasons; [rowOutcome], [rowRequirements], [rowVerdicts]
      give every request row its decision.  [schedule_computes_denotation] and the
      [execute_*] theorems show that the slot-reusing, bit-parallel executor
      computes exactly that; [executor_sessions] shows it for an executor reused
      over any sequence of programs, batches and failures.
    - Backends.  [leaf_backends_agree], [simd_groups_rowwise] and
      [execution_modes_agree]: scalar, SIMD and index evaluation give the same rows.
    - Ranges and shards.  [range_rows_are_source_rows], [partition_tiles_batch],
      [merge_concatenates_rows], [sharded_execution_is_serial].
    - Indexes.  [built_index_exact], [fact_index_exact]: against set specifications;
      [indexes_never_change_decisions]: the selectors the compiler derives are necessary
      conditions, so the index skips only requirements that do not apply.
    - Compiler front half.  [nodeValue] is the value of an expression node.
      [lowered_constants_round_trip]: canonical values decode to the literals they
      stand for; [walk_terminates]: the traversal ends on every document;
      [lowering_preserves_meaning]: flattened, shared and compacted instructions
      combine to the values of the nodes; [compiled_policy_computes_document]: from
      the document to the executed slots.
    - Compiler back end.  [scheduling_preserves_meaning], [scheduled_opcode_runs]: the
      scheduled program denotes the same values in maximal opcode runs;
      [assigned_slots_safe], [assigned_programs_execute]: slot planning never lets
      two live values share a slot, so planned programs run;
      [backend_preserves_meaning]: schedule, plan and execute together.
    - Symbols and batches.  [interner_sessions]: the interner refines a list of
      distinct spellings; [validated_symbols_exact]: what the builder accepts is looked
      up exactly (and [lowered_symbols_round_trip], that compiled tables are accepted); [request_symbols_extend_program]: request symbols extend
      the program's namespace; [built_batch_reads_back], [built_batches_execute]: a
      sealed batch reads back what was set and satisfies the executor's demands.
    - Bounds.  [execute_offsets]: no 32-bit offset wraps.  [explanation_bound_missed]: the
      explanation table's bound on rendered bytes is only tested where an uncertainty
      template is added, so a row without any can exceed it.
    - Concurrency.  [contexts_owned_once]: all interleavings of the lease calls refine
      an ownership protocol and never panic; [held_lease_survives] and
      [claimed_output_survives] state what a holder can rely on, and
      [stale_return_evicts_holder] and [stale_claim_undo_ends_claim] are the two
      interleavings in which copies of a lease break it.  [scheduler_resources]:
      tokens, batch states and contexts are conserved; [every_call_returns] and
      [closed_scheduler_is_drained]: calls and shutdown complete.

    ** Bounds and fuel

    Loops over slices are structural ([fold_go], [for_range]); binary search,
    free-slot scanning, release chains and the loops of the scheduler's topological
    sort take the slice length as fuel, which the lemmas about them show to be enough.
    Probe loops take the table length, the outer loop of [Intern] two rounds and
    [slotSize] 64 doublings; each is shown to be enough.  The iterative depth-first
    searches take one iteration per node and per edge ([walkFuel], [graphFuel],
    [selectorFuel]); the first two are enough by the measure of [Traversal], the
    third by the edges still to be visited ([IndexMeaning]).
    [nodeValue] takes the number of nodes, which bounds the depth of an acyclic
    document.  [int] is 64 bits wide.  Slice capacities are not observable and not
    modelled; a nil slice is the empty list.

    ** What is not modelled

    The text rendering of explanations (result/explain.go) and the debug trace
    (eval/debug.go), the document builders, policy comparison, the wire
    adapters, persistence, command line and terminal interfaces, and the front ends
    for other policy languages: they produce or print the columns this library starts
    from and ends with.  What compilation relies on beyond a clean validation is
    [policy_fits]: columns hold values of their Go types, tables fit the 32-bit
    identifiers, and the few shapes validation does not ask for (groups of at least two
    children, evidence reachable from a clause).  Hypotheses about a compiled
    program ([program_wf]) are the checks of the executor plus slot planning, which
    [Liveness] discharges, and the leaf operand kinds the compiler emits. *)

From stdpp Require Export base tactics numbers list list_numbers option strings sorting sets gmap.
From Stdlib Require Export ZArith Lia.

#[global] Set Default Goal Selector "!".
Open Scope Z_scope.

#[global] Arguments Nat.div : simpl never.
#[global] Arguments Nat.modulo : simpl never.
#[global] Arguments Nat.mul : simpl never.
#[global] Arguments Z.mul : simpl never.
#[global] Arguments Z.add : simpl never.
#[global] Arguments Z.sub : simpl never.
#[global] Arguments Z.of_nat : simpl never.
#[global] Arguments Z.to_nat : simpl never.
#[global] Arguments Z.pow : simpl never.
#[global] Arguments Z.shiftl : simpl never.
#[global] Arguments Z.shiftr : simpl never.
#[global] Arguments Z.land : simpl never.
#[global] Arguments Z.lor : simpl never.

(** ** Errors, panics and the effect type

    A Go function of the repository either returns a value, returns one of the
    package's sentinel errors, or panics (an explicit [panic] call, or the run
    time's index and slice checks).  [go A] keeps the three apart. *)

Inductive error :=
  (* arena *)   | ErrTooLarge
  (* schema *)  | ErrDuplicateField | ErrInvalidValueKind | ErrInvalidFieldGroup | ErrInvalidSymbol
  (* index *)   | ErrInvalidSchema | ErrInvalidPolicy | ErrInvalidQuery | ErrInvalidFactIndex | ErrIndexTooLarge
  (* result *)  | ErrInvalidOutcomeTable | ErrInvalidRemediationTable | ErrInvalidResolutionTable
                | ErrInvalidOutcomeReference | ErrInvalidRemediationReference
                | ErrInvalidTemplateTable | ErrInvalidExplanationTable | ErrInvalidEvidenceIssueTable
                | ErrInvalidTemplateReference | ErrInvalidExplanationReference | ErrResultBatchTooLarge
  (* program *) | ErrInvalidRegistry | ErrPolicyNotFound
  (* eval *)    | ErrInvalidProgram | ErrBatchTooLarge | ErrInvalidEvidenceProgram | ErrInvalidBuilder | ErrInvalidRow
                | ErrInvalidField | ErrValueKind | ErrInvalidValue | ErrInvalidEvidence | ErrIncompleteBatch
  (* compile *) | ErrInvalidDocument | ErrInvalidSymbols | ErrEmptyPolicy | ErrProgramTooLarge | ErrInvalidGeneratedProgram
  (* scheduler *) | ErrInvalidShardResult | ErrInvalidArena | ErrInvalidCapacity | ErrInvalidContext | ErrInvalidLease | ErrLeaseExpired
                | ErrDoubleReturn | ErrOutputClaimed | ErrOutputNotClaimed | ErrOutputEscaped | ErrInvalidScheduler | ErrSchedulerClosed
  (* context *) | ErrContextDone.

#[global] Instance error_eq_dec : EqDecision error.
Proof. solve_decision. Defined.

Inductive go (A : Type) : Type :=
  | Ok (a : A)
  | Err (e : error)
  | Panic (msg : string).
Arguments Ok {A} a.
Arguments Err {A} e.
Arguments Panic {A} msg.

#[global] Instance go_ret : MRet go := λ A a, Ok a.
#[global] Instance go_bind : MBind go := λ A B f c,
  match c with Ok a => f a | Err e => Err e | Panic s => Panic s end.
#[global] Instance go_fmap : FMap go := λ A B f c,
  match c with Ok a => Ok (f a) | Err e => Err e | Panic s => Panic s end.

(** [require b msg] panics unless [b]; [check b e] returns the error [e] unless [b]. *)
Definition require (b : bool) (msg : string) : go unit := if b then Ok tt else Panic msg.
Definition check (b : bool) (e : error) : go unit := if b then Ok tt else Err e.

(** A lookup that reports [ok = false] as the error [e]. *)
Definition orErr {A} (o : option A) (e : error) : go A := match o with Some x => Ok x | None => Err e end.

Declare Scope go_scope.
Delimit Scope go_scope with go.
Notation "c ;; k" := (mbind (λ _ : unit, k) c) (at level 100, k at level 200, right associativity) : go_scope.
Open Scope go_scope.

Lemma go_bind_Ok {A B} (a : A) (f : A → go B) : (Ok a ≫= f) = f a.
Proof. done. Qed.

Lemma go_bind_inv {A B} (c : go A) (f : A → go B) b :
  c ≫= f = Ok b → ∃ a, c = Ok a ∧ f a = Ok b.
Proof. destruct c; naive_solver. Qed.

Lemma check_inv b e u : check b e = Ok u → b = true.
Proof. by destruct b. Qed.

Lemma require_inv b s u : require b s = Ok u → b = true.
Proof. by destruct b. Qed.

(** Go's bounds-checked element read. *)
Definition at_ {A} (l : list A) (i : Z) : go A :=
  if i <? 0 then Panic "index out of range"
  else match l !! Z.to_nat i with Some x => Ok x | None => Panic "index out of range" end.

(** Go's bounds-checked slice expression [l[s:e]]. *)
Definition slice_ {A} (l : list A) (s e : Z) : go (list A) :=
  if (0 <=? s) && (s <=? e) && (e <=? Z.of_nat (length l))
  then Ok (take (Z.to_nat (e - s)) (drop (Z.to_nat s) l))
  else Panic "slice bounds out of range".

Abbreviation zlen l := (Z.of_nat (length l)).

(** Go's [make([]T, n)]: [n] zero values. *)
Definition make_ (n : Z) : list Z := replicate (Z.to_nat n) 0.

Lemma at_Ok {A} (l : list A) i x : at_ l i = Ok x ↔ 0 ≤ i ∧ l !! Z.to_nat i = Some x.
Proof.
  unfold at_. destruct (Z.ltb_spec i 0); split; try naive_solver lia.
  - destruct (l !! Z.to_nat i); naive_solver.
  - by intros [_ ->].
Qed.

Lemma at_nat {A} (l : list A) (i : nat) x : l !! i = Some x → at_ l (Z.of_nat i) = Ok x.
Proof. intros H. apply at_Ok. rewrite Nat2Z.id. split; [lia|done]. Qed.

Lemma at_total `{Inhabited A} (l : list A) i :
  0 ≤ i < zlen l → at_ l i = Ok (l !!! Z.to_nat i).
Proof. intros Hi. apply at_Ok. split; [lia|]. apply list_lookup_lookup_total_lt. lia. Qed.

Lemma slice_Ok {A} (l : list A) s e r :
  slice_ l s e = Ok r ↔
    0 ≤ s ≤ e ∧ e ≤ zlen l ∧ r = take (Z.to_nat (e - s)) (drop (Z.to_nat s) l).
Proof.
  unfold slice_.
  destruct (Z.leb_spec 0 s), (Z.leb_spec s e), (Z.leb_spec e (zlen l)); simpl; naive_solver lia.
Qed.

(** [l[i] = x] with the run-time index check. *)
Definition put_ {A} (l : list A) (i : Z) (x : A) : go (list A) :=
  if (0 <=? i) && (i <? zlen l) then Ok (<[Z.to_nat i := x]> l) else Panic "index out of range".

Lemma put_Ok {A} (l : list A) i x : 0 ≤ i < zlen l → put_ l i x = Ok (<[Z.to_nat i := x]> l).
Proof. intros Hi. unfold put_. by rewrite (proj2 (Z.leb_le 0 i)), (proj2 (Z.ltb_lt i (zlen l))) by lia. Qed.

(** The CSR range [l[s : s+c]]. *)
Definition csr {A} (l : list A) (s c : Z) : list A := take (Z.to_nat c) (drop (Z.to_nat s) l).

Lemma slice_csr {A} (l : list A) s c :
  0 ≤ s → 0 ≤ c → s + c ≤ zlen l → slice_ l s (s + c) = Ok (csr l s c).
Proof. intros. apply slice_Ok. split_and!; try lia. unfold csr. do 2 f_equal. lia. Qed.

Lemma csr_lookup {A} (l : list A) s c i :
  (i < Z.to_nat c)%nat → csr l s c !! i = l !! (Z.to_nat s + i)%nat.
Proof. intros. unfold csr. by rewrite lookup_take_lt, lookup_drop. Qed.

Lemma csr_lookup_total `{Inhabited A} (l : list A) s c i :
  (i < Z.to_nat c)%nat → csr l s c !!! i = l !!! (Z.to_nat s + i)%nat.
Proof. intros. by rewrite !list_lookup_total_alt, csr_lookup. Qed.

(** A fixed-width sum of counts. *)
Definition total (l : list Z) : Z := foldr Z.add 0 l.

Lemma total_app l k : total (l ++ k) = total l + total k.
Proof. unfold total. induction l as [|x l IH]; simpl; lia. Qed.

Lemma length_csr {A} (l : list A) s c : 0 ≤ s → 0 ≤ c → s + c ≤ zlen l → length (csr l s c) = Z.to_nat c.
Proof. intros. unfold csr. rewrite length_take, length_drop. lia. Qed.

Lemma csr_elem {A} (l : list A) s c x : x ∈ csr l s c → x ∈ l.
Proof.
  unfold csr. intros (i & Hi & _)%elem_of_take. rewrite lookup_drop in Hi. by eapply list_elem_of_lookup_2.
Qed.

Lemma slice_range {A} (l : list A) s e : 0 ≤ s → s ≤ e → e ≤ zlen l → slice_ l s e = Ok (csr l s (e - s)).
Proof. intros. replace e with (s + (e - s)) at 1 by lia. apply slice_csr; lia. Qed.

(** ** Loops *)

Section loops.
Context {A S : Type}.

(** [for _, x := range l] over a loop state, stopping at the first error or panic. *)
Fixpoint fold_go (body : A → S → go S) (l : list A) (s : S) : go S :=
  match l with
  | [] => Ok s
  | x :: l => s ← body x s; fold_go body l s
  end.

Lemma fold_go_app body l k s :
  fold_go body (l ++ k) s = (s ← fold_go body l s; fold_go body k s).
Proof.
  revert s. induction l as [|x l IH]; intros s; [done|].
  simpl. destruct (body x s); [apply IH|done|done].
Qed.

(** Partial-correctness rule: an invariant on the processed prefix. *)
Lemma fold_go_ind (P : list A → S → Prop) body l s s' :
  P [] s →
  (∀ pre x post t t', l = pre ++ x :: post → P pre t → body x t = Ok t' → P (pre ++ [x]) t') →
  fold_go body l s = Ok s' → P l s'.
Proof.
  intros H0 Hstep.
  assert (∀ post pre t, l = pre ++ post → P pre t → fold_go body post t = Ok s' → P l s') as Hgen.
  { induction post as [|x post IH]; intros pre t -> Ht; simpl.
    - intros [= <-]. by rewrite app_nil_r.
    - intros (t' & Hb & Hrest)%go_bind_inv.
      apply (IH (pre ++ [x]) t'); [by rewrite <-app_assoc| |done].
      by eapply Hstep. }
  by apply (Hgen l []).
Qed.

(** Total-correctness rule: every iteration succeeds and keeps the invariant. *)
Lemma fold_go_total (P : list A → S → Prop) body l s :
  P [] s →
  (∀ pre x post t, l = pre ++ x :: post → P pre t → ∃ t', body x t = Ok t' ∧ P (pre ++ [x]) t') →
  ∃ s', fold_go body l s = Ok s' ∧ P l s'.
Proof.
  intros H0 Hstep.
  assert (∀ post pre t, l = pre ++ post → P pre t → ∃ s', fold_go body post t = Ok s' ∧ P l s') as Hgen.
  { induction post as [|x post IH]; intros pre t -> Ht; simpl.
    - exists t. by rewrite app_nil_r in *.
    - destruct (Hstep pre x post t) as (t' & -> & Ht'); [done..|].
      simpl. apply (IH (pre ++ [x])); [by rewrite <-app_assoc|done]. }
  by apply (Hgen l []).
Qed.
End loops.

(** [for i := 0; i < n; i++]. *)
Definition for_range {S} (n : nat) (body : nat → S → go S) (s : S) : go S :=
  fold_go body (seq 0 n) s.

Lemma for_range_S {S} n (body : nat → S → go S) s :
  for_range (Datatypes.S n) body s = (t ← for_range n body s; body n t).
Proof.
  unfold for_range. rewrite seq_S, fold_go_app. simpl.
  destruct (fold_go body (seq 0 n) s) as [t| |]; simpl; [|done|done].
  by destruct (body n t).
Qed.

Lemma for_range_ind {S} (P : nat → S → Prop) n body (s s' : S) :
  P 0%nat s →
  (∀ i t t', (i < n)%nat → P i t → body i t = Ok t' → P (Datatypes.S i) t') →
  for_range n body s = Ok s' → P n s'.
Proof.
  intros H0. revert s'. induction n as [|n IH]; intros s' Hstep; [by intros [= <-]|].
  rewrite for_range_S. intros (t & Ht & Hb)%go_bind_inv.
  eapply Hstep; [lia| |done]. apply IH; [|done]. intros i ????. apply Hstep; [lia|done].
Qed.

Lemma for_range_total {S} (P : nat → S → Prop) n body (s : S) :
  P 0%nat s →
  (∀ i t, (i < n)%nat → P i t → ∃ t', body i t = Ok t' ∧ P (Datatypes.S i) t') →
  ∃ s', for_range n body s = Ok s' ∧ P n s'.
Proof.
  intros H0. induction n as [|n IH]; intros Hstep; [by exists s|].
  destruct IH as (t & Ht & HP); [intros i ??; apply Hstep; lia|].
  destruct (Hstep n t) as (t' & Hb & HP'); [lia|done|].
  exists t'. by rewrite for_range_S, Ht.
Qed.

(** Total correctness of the loop in the goal, with the invariant [P]. *)
Tactic Notation "for_loop" uconstr(P) "as" simple_intropattern(pat) :=
  match goal with |- context [for_range ?n ?b ?s] => destruct (for_range_total P n b s) as pat end.
Tactic Notation "fold_loop" uconstr(P) "as" simple_intropattern(pat) :=
  match goal with |- context [fold_go ?b ?l ?s] => destruct (fold_go_total P b l s) as pat end.

(** A loop that fills entry [i] of fresh columns from index [i] only. *)
Fixpoint map_go {A B} (f : A → go B) (l : list A) : go (list B) :=
  match l with
  | [] => Ok []
  | x :: l => y ← f x; ys ← map_go f l; Ok (y :: ys)
  end.

Lemma map_go_Ok {A B} (f : A → go B) (g : A → B) l :
  (∀ x, x ∈ l → f x = Ok (g x)) → map_go f l = Ok (map g l).
Proof.
  induction l as [|x l IH]; intros Hf; [done|]. simpl.
  rewrite Hf by set_solver. simpl. rewrite IH by set_solver. done.
Qed.

Lemma map_go_inv {A B} (f : A → go B) l ys :
  map_go f l = Ok ys → Forall2 (λ x y, f x = Ok y) l ys.
Proof.
  revert ys. induction l as [|x l IH]; intros ys; simpl; [by intros [= <-]|].
  intros (y & Hy & (zs & Hzs & [= <-])%go_bind_inv)%go_bind_inv. constructor; auto.
Qed.

Lemma forallb_lookup_total {A} `{Inhabited A} (f : A → bool) l i :
  forallb f l = true → (i < length l)%nat → f (l !!! i) = true.
Proof.
  intros Hf Hi. rewrite forallb_forall in Hf. apply Hf, list_elem_of_In.
  by apply list_elem_of_lookup_total_2.
Qed.

Lemma forallb_seq (f : nat → bool) n i : forallb f (seq 0 n) = true → (i < n)%nat → f i = true.
Proof. intros Hf Hi. rewrite forallb_forall in Hf. apply Hf, in_seq. lia. Qed.

Lemma map_seq_lookup {B} (g : nat → B) n i : (i < n)%nat → map g (seq 0 n) !! i = Some (g i).
Proof. intros. rewrite list_lookup_fmap, lookup_seq_lt by done. done. Qed.

Lemma map_seq_lookup_total `{Inhabited B} (g : nat → B) n i :
  (i < n)%nat → map g (seq 0 n) !!! i = g i.
Proof. intros. apply list_lookup_total_correct. by apply map_seq_lookup. Qed.

Lemma csr_map_seq `{Inhabited A} (l : list A) s c :
  0 ≤ s → 0 ≤ c → s + c ≤ zlen l →
  csr l s c = map (λ i, l !!! (Z.to_nat s + i)%nat) (seq 0 (Z.to_nat c)).
Proof.
  intros. apply list_eq_same_length with (Z.to_nat c).
  - by rewrite length_map, length_seq.
  - by apply length_csr.
  - intros i x y Hi Hx Hy. rewrite map_seq_lookup in Hy by done. rewrite csr_lookup in Hx by done.
    simplify_eq. symmetry. by apply list_lookup_total_correct.
Qed.

(** Sums over row indices that differ in one row. *)
Lemma sum_update (f g : nat → nat) n i : (i < n)%nat → (∀ j, (j < n)%nat → j ≠ i → f j = g j) →
  (foldr (λ j m, f j + m) 0 (seq 0 n) + g i = foldr (λ j m, g j + m) 0 (seq 0 n) + f i)%nat.
Proof.
  assert (∀ (h : nat → nat) l a, foldr (λ j m, h j + m)%nat a l = (foldr (λ j m, h j + m) 0 l + a)%nat) as Hacc.
  { intros h l a. induction l as [|x l IH]; simpl; lia. }
  assert (∀ (h : nat → nat) m, foldr (λ j m, h j + m)%nat 0%nat (seq 0 (S m)) = (foldr (λ j m, h j + m) 0 (seq 0 m) + h m)%nat) as HS.
  { intros h m. rewrite seq_S, foldr_app. simpl. rewrite Hacc. lia. }
  induction n as [|n IH]; intros Hi H; [lia|]. rewrite !HS. destruct (decide (i = n)) as [->|Hne].
  - assert (∀ m, (m ≤ n)%nat → foldr (λ j m, f j + m)%nat 0%nat (seq 0 m) = foldr (λ j m, g j + m)%nat 0%nat (seq 0 m)) as E.
    { induction m as [|m IHm]; intros Hm; [done|]. rewrite !HS, IHm, H by lia. done. }
    rewrite (E n) by lia. lia.
  - rewrite (H n) by lia. assert (foldr (λ j m, f j + m) 0 (seq 0 n) + g i = foldr (λ j m, g j + m) 0 (seq 0 n) + f i)%nat; [|lia].
    apply IH; [lia|]. intros j Hj Hji. apply H; lia.
Qed.

(** ** Machine integers

    A w-bit unsigned integer is a [Z] in [0, 2^w); wrap-around is written with
    [u32]/[u64].  [int] is 64 bits wide. *)

Definition MaxUint16 : Z := 65535.
Definition MaxUint32 : Z := 4294967295.
Definition MaxUint64 : Z := 18446744073709551615.
Definition MaxInt32 : Z := 2147483647.
Definition MaxInt : Z := 9223372036854775807.

Definition u32 (x : Z) : Z := x mod 2 ^ 32.
Definition u64 (x : Z) : Z := x mod 2 ^ 64.

Definition is_u32 (x : Z) : Prop := 0 ≤ x < 2 ^ 32.
Definition is_u64 (x : Z) : Prop := 0 ≤ x < 2 ^ 64.

(** Go's unary [^w] on uint64, and [uint64(1) << k]. *)
Definition not64 (w : Z) : Z := Z.ldiff (Z.ones 64) w.
Definition bit64 (k : Z) : Z := Z.shiftl 1 k.

Lemma u64_small x : is_u64 x → u64 x = x.
Proof. apply Z.mod_small. Qed.

Lemma u32_small x : is_u32 x → u32 x = x.
Proof. apply Z.mod_small. Qed.

Lemma testbit_not64 w i : 0 ≤ i < 64 → Z.testbit (not64 w) i = negb (Z.testbit w i).
Proof. intros. unfold not64. by rewrite Z.ldiff_spec, Z.ones_spec_low by lia. Qed.

Lemma testbit_ones64 i : 0 ≤ i < 64 → Z.testbit MaxUint64 i = true.
Proof. intros. change MaxUint64 with (Z.ones 64). by apply Z.ones_spec_low. Qed.

Lemma testbit_bit64 k i : 0 ≤ k → Z.testbit (bit64 k) i = bool_decide (i = k).
Proof.
  intros. unfold bit64. rewrite Z.shiftl_1_l. case_bool_decide; subst.
  - by apply Z.pow2_bits_true.
  - by apply Z.pow2_bits_false.
Qed.

(** [x & (1 << k) != 0] is the test of bit [k]. *)
Lemma land_bit64_ne0 x k :
  0 ≤ k → negb (Z.land x (bit64 k) =? 0) = Z.testbit x k.
Proof.
  intros Hk. destruct (Z.testbit x k) eqn:E.
  - destruct (Z.eqb_spec (Z.land x (bit64 k)) 0) as [H0|]; [|done].
    assert (Z.testbit (Z.land x (bit64 k)) k = false) as Hb by by rewrite H0, Z.testbit_0_l.
    rewrite Z.land_spec, E, testbit_bit64, bool_decide_eq_true_2 in Hb by done. done.
  - assert (Z.land x (bit64 k) = 0) as ->; [|done].
    apply Z.bits_inj'. intros n Hn. rewrite Z.land_spec, testbit_bit64, Z.testbit_0_l by done.
    case_bool_decide; subst; [by rewrite E|by rewrite andb_false_r].
Qed.

(** [(1 << k) - 1] has exactly the low [k] bits set. *)
Lemma testbit_lowmask k i :
  0 ≤ k → 0 ≤ i → Z.testbit (bit64 k - 1) i = (i <? k).
Proof.
  intros Hk Hi. unfold bit64. rewrite Z.shiftl_1_l.
  replace (2 ^ k - 1) with (Z.ones k) by (rewrite Z.ones_equiv; lia).
  destruct (Z.ltb_spec i k); [apply Z.ones_spec_low|apply Z.ones_spec_high]; lia.
Qed.

Lemma is_u64_bits x :
  is_u64 x ↔ 0 ≤ x ∧ ∀ i, 64 ≤ i → Z.testbit x i = false.
Proof.
  unfold is_u64. split.
  - intros Hx. split; [lia|]. intros i Hi.
    rewrite <-(Z.mod_small x (2 ^ 64)) by lia. by apply Z.mod_pow2_bits_high.
  - intros [H0 Hb]. split; [done|].
    assert (x mod 2 ^ 64 = x) as <-; [|apply Z.mod_pos_bound; lia].
    apply Z.bits_inj'. intros i Hi. destruct (decide (i < 64)).
    + by rewrite Z.mod_pow2_bits_low.
    + rewrite Z.mod_pow2_bits_high by lia. symmetry. apply Hb. lia.
Qed.

Lemma is_u64_land x y : is_u64 x → 0 ≤ y → is_u64 (Z.land x y).
Proof.
  rewrite !is_u64_bits. intros [? Hx] ?. split; [apply Z.land_nonneg; lia|].
  intros i Hi. by rewrite Z.land_spec, Hx.
Qed.

Lemma is_u64_lor x y : is_u64 x → is_u64 y → is_u64 (Z.lor x y).
Proof.
  rewrite !is_u64_bits. intros [? Hx] [? Hy]. split; [apply Z.lor_nonneg; lia|].
  intros i Hi. by rewrite Z.lor_spec, Hx, Hy.
Qed.

Lemma is_u64_ldiff x y : is_u64 x → is_u64 (Z.ldiff x y).
Proof.
  rewrite !is_u64_bits. intros [? Hx]. split; [apply Z.ldiff_nonneg; lia|].
  intros i Hi. by rewrite Z.ldiff_spec, Hx.
Qed.

Lemma is_u64_not64 x : is_u64 (not64 x).
Proof. apply is_u64_ldiff. by unfold is_u64. Qed.

Lemma is_u64_bit64 k : 0 ≤ k < 64 → is_u64 (bit64 k).
Proof.
  intros. rewrite is_u64_bits. unfold bit64. split; [by apply Z.shiftl_nonneg|].
  intros i Hi. fold (bit64 k). rewrite testbit_bit64 by lia. case_bool_decide; [lia|done].
Qed.

Lemma is_u64_lowmask k : 0 ≤ k < 64 → is_u64 (bit64 k - 1).
Proof.
  intros. unfold is_u64, bit64. rewrite Z.shiftl_1_l.
  assert (0 < 2 ^ k) by (apply Z.pow_pos_nonneg; lia).
  assert (2 ^ k ≤ 2 ^ 64) by (apply Z.pow_le_mono_r; lia). lia.
Qed.

Lemma is_u64_0 : is_u64 0.
Proof. by unfold is_u64. Qed.

Lemma is_u64_max : is_u64 MaxUint64.
Proof. by unfold is_u64. Qed.

(** Hint database of word-range facts, and of bit equations. *)
Create HintDb word.
#[export] Hint Resolve is_u64_land is_u64_lor is_u64_ldiff is_u64_not64 is_u64_bit64
  is_u64_lowmask is_u64_0 is_u64_max : word.
#[export] Hint Extern 2 (_ ≤ _ < _) => lia : word.
#[export] Hint Extern 2 (0 ≤ _) => lia : word.

#[global] Hint Rewrite Z.land_spec Z.lor_spec Z.ldiff_spec Z.lxor_spec Z.testbit_0_l : bits.
#[global] Hint Rewrite testbit_not64 testbit_ones64 testbit_bit64 testbit_lowmask using lia : bits.

(** Word-extensionality on 64-bit words. *)
Lemma word_ext x y :
  is_u64 x → is_u64 y → (∀ i, 0 ≤ i < 64 → Z.testbit x i = Z.testbit y i) → x = y.
Proof.
  rewrite !is_u64_bits. intros [_ Hx] [_ Hy] Heq. apply Z.bits_inj'. intros i Hi.
  destruct (decide (i < 64)); [apply Heq; lia|]. rewrite Hx, Hy; lia || done.
Qed.

(** ** Row bitmaps

    Row [r] of a bitmap slab is bit [r & 63] of word [r >> 6]. *)

Definition rowBit (l : list Z) (r : nat) : bool :=
  Z.testbit (l !!! (r `div` 64)%nat) (Z.of_nat (r `mod` 64)).

Definition row_split (r : nat) : (r = 64 * (r `div` 64) + r `mod` 64)%nat ∧ (r `mod` 64 < 64)%nat.
Proof. split; [apply Nat.div_mod_eq|apply Nat.mod_upper_bound; lia]. Qed.

Lemma row_of_word w j : (j < 64)%nat → ((64 * w + j) `div` 64 = w ∧ (64 * w + j) `mod` 64 = j)%nat.
Proof.
  intros. split.
  - symmetry. apply (Nat.div_unique _ 64 _ j); lia.
  - symmetry. apply (Nat.mod_unique _ 64 w j); lia.
Qed.

Lemma rowBit_map_seq (f : nat → Z) n r :
  (r < 64 * n)%nat → rowBit (map f (seq 0 n)) r = Z.testbit (f (r `div` 64)%nat) (Z.of_nat (r `mod` 64)).
Proof.
  intros Hr. unfold rowBit. rewrite map_seq_lookup_total; [done|].
  apply Nat.Div0.div_lt_upper_bound. lia.
Qed.

Lemma rowBit_replicate0 n r : (r < 64 * n)%nat → rowBit (replicate n 0) r = false.
Proof.
  intros Hr. unfold rowBit. rewrite lookup_total_replicate_2; [apply Z.testbit_0_l|].
  apply Nat.Div0.div_lt_upper_bound. lia.
Qed.

(** [dst[r>>6] |= uint64(1) << (r&63)]. *)
Definition setRow (l : list Z) (r : nat) : list Z :=
  alter (λ w, Z.lor w (bit64 (Z.of_nat (r `mod` 64)))) (r `div` 64)%nat l.

(** The word and bit of a row given as an unsigned integer. *)
Lemma land_63 rows : Z.land rows 63 = rows mod 64.
Proof. change 63 with (Z.ones 6). by rewrite Z.land_ones. Qed.

Lemma row_bit r : 0 ≤ r → Z.land r 63 = Z.of_nat (Z.to_nat r `mod` 64).
Proof. intros. rewrite land_63, Nat2Z.inj_mod. f_equal. lia. Qed.

Lemma row_word r : 0 ≤ r → Z.shiftr r 6 = Z.of_nat (Z.to_nat r `div` 64).
Proof. intros. rewrite Z.shiftr_div_pow2 by lia. change (2 ^ 6) with 64. rewrite Nat2Z.inj_div. f_equal. lia. Qed.

Lemma setRow_insert (l : list Z) r :
  (r `div` 64 < length l)%nat → <[(r `div` 64)%nat := Z.lor (l !!! (r `div` 64)%nat) (bit64 (Z.of_nat (r `mod` 64)))]> l = setRow l r.
Proof.
  intros Hr. unfold setRow. apply list_eq. intros k. destruct (decide (k = r `div` 64)%nat) as [->|].
  - rewrite list_lookup_insert_eq, list_lookup_alter_eq by done. by rewrite (list_lookup_lookup_total_lt l) by done.
  - by rewrite list_lookup_insert_ne, list_lookup_alter_ne by done.
Qed.

Lemma length_setRow l r : length (setRow l r) = length l.
Proof. apply length_alter. Qed.

Lemma rowBit_setRow l r k :
  (r `div` 64 < length l)%nat → rowBit (setRow l r) k = rowBit l k || bool_decide (k = r).
Proof.
  intros Hr. unfold rowBit, setRow.
  pose proof (row_split r) as [Er Hr']. pose proof (row_split k) as [Ek Hk'].
  destruct (decide (k `div` 64 = r `div` 64)%nat) as [Hdiv|Hdiv].
  - rewrite Hdiv, !list_lookup_total_alt, list_lookup_alter_eq.
    destruct (lookup_lt_is_Some_2 l (r `div` 64)%nat) as [w Hw]; [done|]. rewrite Hw. simpl.
    rewrite Z.lor_spec, testbit_bit64 by lia. f_equal. apply bool_decide_ext.  lia.
  - rewrite !list_lookup_total_alt, list_lookup_alter_ne by done.
    rewrite bool_decide_eq_false_2 by congruence. by rewrite orb_false_r.
Qed.

(** The loop [for r, x := range ... { if c r { dst[r>>6] |= ... } }]. *)
Definition setRows (c : nat → bool) (n : nat) (l : list Z) : list Z :=
  foldl (λ l r, if c r then setRow l r else l) l (seq 0 n).

Lemma setRows_S c n l :
  setRows c (S n) l = (if c n then setRow (setRows c n l) n else setRows c n l).
Proof. unfold setRows. by rewrite seq_S, foldl_app. Qed.

Lemma length_setRows c n l : length (setRows c n l) = length l.
Proof.
  induction n as [|n IH]; [done|]. rewrite setRows_S. destruct (c n); rewrite ?length_setRow; done.
Qed.

Lemma rowBit_setRows c n l k :
  (n ≤ 64 * length l)%nat →
  rowBit (setRows c n l) k = rowBit l k || (bool_decide (k < n)%nat && c k).
Proof.
  induction n as [|n IH]; intros Hn.
  - simpl. by rewrite orb_false_r.
  - rewrite setRows_S. destruct (c n) eqn:Hc.
    + rewrite rowBit_setRow, IH.
      * destruct (decide (k = n)) as [->|Hne].
        -- rewrite Hc, (bool_decide_eq_true_2 (n = n)), orb_true_r by done.
           rewrite bool_decide_eq_true_2 by lia. by rewrite orb_true_r.
        -- rewrite (bool_decide_eq_false_2 (k = n)), orb_false_r by done.
           f_equal. f_equal. apply bool_decide_ext. lia.
      * lia.
      * apply Nat.Div0.div_lt_upper_bound. rewrite ?length_setRows; lia.
    + rewrite IH by lia. f_equal. destruct (decide (k = n)) as [->|Hne].
      * by rewrite Hc, !andb_false_r.
      * f_equal. apply bool_decide_ext. lia.
Qed.

(** The loop that gathers one word: [for r := start; r < end; r++ { if c r
    { matches |= 1 << (r & 63) } }] with [start] a multiple of 64. *)
Definition gatherWord (c : nat → bool) (start count : nat) : Z :=
  foldl (λ m r, if c r then Z.lor m (bit64 (Z.of_nat (r `mod` 64))) else m) 0 (seq start count).

Lemma testbit_gatherWord c w n j :
  (n ≤ 64)%nat → (j < 64)%nat →
  Z.testbit (gatherWord c (64 * w) n) (Z.of_nat j) = bool_decide (j < n)%nat && c (64 * w + j)%nat.
Proof.
  intros Hn Hj. unfold gatherWord. induction n as [|n IH].
  - simpl. by rewrite Z.testbit_0_l.
  - rewrite seq_S, foldl_app. simpl. specialize (IH ltac:(lia)).
    destruct (row_of_word w n) as [_ Hmod]; [lia|]. rewrite Hmod.
    destruct (c (64 * w + n)%nat) eqn:Hc.
    + rewrite Z.lor_spec, IH, testbit_bit64 by lia.
      destruct (decide (j = n)) as [->|Hne].
      * rewrite Hc, (bool_decide_eq_true_2 (Z.of_nat n = Z.of_nat n)) by done.
        rewrite orb_true_r, bool_decide_eq_true_2 by lia. done.
      * rewrite (bool_decide_eq_false_2 (Z.of_nat j = _)), orb_false_r by lia.
        f_equal. apply bool_decide_ext. lia.
    + rewrite IH. destruct (decide (j = n)) as [->|Hne].
      * by rewrite Hc, !andb_false_r.
      * f_equal. apply bool_decide_ext. lia.
Qed.

Lemma is_u64_gatherWord c w n : is_u64 (gatherWord c w n).
Proof.
  unfold gatherWord. generalize is_u64_0. generalize 0 as m.
  induction (seq w n) as [|r l IH]; intros m Hm; [done|]. simpl. apply IH.
  destruct (c r); [|done]. pose proof (row_split r) as [_ ?]. auto with word.
Qed.

(** ** Slabs of equally sized bit planes *)

Lemma rowBit_insert (l : list Z) k w r :
  (k < length l)%nat →
  rowBit (<[k := w]> l) r = if bool_decide (r `div` 64 = k)%nat then Z.testbit w (Z.of_nat (r `mod` 64)) else rowBit l r.
Proof.
  intros Hk. unfold rowBit. destruct (decide (r `div` 64 = k)%nat) as [->|].
  - rewrite bool_decide_eq_true_2 by done. by rewrite list_lookup_total_insert_eq.
  - rewrite bool_decide_eq_false_2 by done. by rewrite list_lookup_total_insert_ne.
Qed.

Lemma plane_word_inj (words v a p b : nat) :
  (a < words)%nat → (b < words)%nat → (v * words + a = p * words + b)%nat → v = p ∧ a = b.
Proof.
  intros Ha Hb E. assert (v = p) as ->; [|lia].
  rewrite (Nat.div_unique (v * words + a) words v a), (Nat.div_unique (p * words + b) words p b) by lia.
  by rewrite E.
Qed.

Lemma plane_index (words v r : nat) :
  ((64 * (v * words) + r) `div` 64 = v * words + r `div` 64 ∧ (64 * (v * words) + r) `mod` 64 = r `mod` 64)%nat.
Proof.
  pose proof (row_split r) as [Er ?].
  replace (64 * (v * words) + r)%nat with (64 * (v * words + r `div` 64) + r `mod` 64)%nat by lia.
  by apply row_of_word.
Qed.

(** Setting bit [i] of plane [p] in a slab of planes of [words] words. *)
Lemma rowBit_setPlane (t : list Z) (words p i v r : nat) :
  (i < 64 * words)%nat → (r < 64 * words)%nat → (p * words + i `div` 64 < length t)%nat →
  let k := (p * words + i `div` 64)%nat in
  rowBit (<[k := Z.lor (t !!! k) (bit64 (Z.of_nat (i `mod` 64)))]> t) (64 * (v * words) + r) =
  rowBit t (64 * (v * words) + r) || (bool_decide (v = p) && bool_decide (r = i)).
Proof.
  intros Hi Hr Hk k. rewrite rowBit_insert by done. unfold rowBit. destruct (plane_index words v r) as [-> ->].
  pose proof (row_split r) as [Er ?]. pose proof (row_split i) as [Ei ?].
  destruct (bool_decide_reflect (v * words + r `div` 64 = k)%nat) as [Ek|Ek].
  - apply plane_word_inj in Ek as [-> Ed]; [|lia..].
    rewrite (bool_decide_eq_true_2 (p = p)), Z.lor_spec, testbit_bit64, Ed by lia. simpl.
    fold k. f_equal. apply bool_decide_ext. lia.
  - destruct (bool_decide_reflect (v = p)) as [->|]; [|by rewrite orb_false_r].
    rewrite (bool_decide_eq_false_2 (r = i)), orb_false_r; [done|]. intros ->. done.
Qed.

(** Clearing bit [i] of plane [p]. *)
Lemma rowBit_clearPlane (t : list Z) (words p i v r : nat) :
  (i < 64 * words)%nat → (r < 64 * words)%nat → (p * words + i `div` 64 < length t)%nat →
  let k := (p * words + i `div` 64)%nat in
  rowBit (<[k := Z.ldiff (t !!! k) (bit64 (Z.of_nat (i `mod` 64)))]> t) (64 * (v * words) + r) =
  rowBit t (64 * (v * words) + r) && negb (bool_decide (v = p) && bool_decide (r = i)).
Proof.
  intros Hi Hr Hk k. rewrite rowBit_insert by done. unfold rowBit. destruct (plane_index words v r) as [-> ->].
  pose proof (row_split r) as [Er ?]. pose proof (row_split i) as [Ei ?].
  destruct (bool_decide_reflect (v * words + r `div` 64 = k)%nat) as [Ek|Ek].
  - apply plane_word_inj in Ek as [-> Ed]; [|lia..].
    rewrite (bool_decide_eq_true_2 (p = p)), Z.ldiff_spec, testbit_bit64, Ed by lia. simpl.
    fold k. do 2 f_equal. apply bool_decide_ext. lia.
  - destruct (bool_decide_reflect (v = p)) as [->|]; [|by rewrite andb_true_r].
    rewrite (bool_decide_eq_false_2 (r = i)), andb_true_r; [done|]. intros ->. done.
Qed.

