(* ===== verification/Store.v ===== *)
(** * Word stores and the slices that view them

    The evaluator keeps its bitplanes in flat [[]uint64] slabs and hands out
    sub-slices of them.  A slab is a list of words; a slice is an offset and a
    length into it; several slices may name the same words.  Loads and stores
    carry Go's bounds checks. *)

From S2P Require Import Prelude.

Abbreviation store := (list Z).

Record slice := Slice { off : nat; len : nat }.

#[global] Instance slice_eq_dec : EqDecision slice.
Proof. solve_decision. Defined.

(** [s[i]] and [s[i] = w] on a slice of the store [m]. *)
Definition load (m : store) (s : slice) (i : nat) : go Z :=
  if bool_decide (i < len s)%nat then
    match m !! (off s + i)%nat with Some w => Ok w | None => Panic "index out of range" end
  else Panic "index out of range".

Definition save (s : slice) (i : nat) (w : Z) (m : store) : go store :=
  if bool_decide (i < len s ∧ off s + i < length m)%nat
  then Ok (<[(off s + i)%nat := w]> m) else Panic "index out of range".

(** The words a slice denotes. *)
Definition view (m : store) (s : slice) : list Z := take (len s) (drop (off s) m).

(** [clear(s)] and [copy(s, src)] for sources outside the slab. *)
Definition blit (s : slice) (src : list Z) (m : store) : store :=
  let n := Nat.min (len s) (length src) in
  take (off s) m ++ take n src ++ drop (off s + n) m.

Definition in_bounds (m : store) (s : slice) : Prop := (off s + len s ≤ length m)%nat.
Definition disjoint_slices (s t : slice) : Prop :=
  (off s + len s ≤ off t ∨ off t + len t ≤ off s)%nat.
Definition inside (s : slice) (k : nat) : Prop := (off s ≤ k < off s + len s)%nat.

Lemma load_Ok m s i : in_bounds m s → (i < len s)%nat → load m s i = Ok (m !!! (off s + i)%nat).
Proof.
  unfold load, in_bounds. intros Hb Hi. rewrite bool_decide_eq_true_2 by done.
  by rewrite (list_lookup_lookup_total_lt m) by lia.
Qed.

Lemma save_Ok m s i w :
  in_bounds m s → (i < len s)%nat → save s i w m = Ok (<[(off s + i)%nat := w]> m).
Proof.
  unfold save, in_bounds. intros. rewrite bool_decide_eq_true_2; [done|lia].
Qed.

Lemma lookup_total_insert_eq (m : store) k w : (k < length m)%nat → <[k := w]> m !!! k = w.
Proof. intros. by apply list_lookup_total_insert_eq. Qed.

Lemma lookup_total_insert_ne (m : store) k j w : k ≠ j → <[k := w]> m !!! j = m !!! j.
Proof. intros. by apply list_lookup_total_insert_ne. Qed.

Lemma length_view m s : in_bounds m s → length (view m s) = len s.
Proof. unfold view, in_bounds. rewrite length_take, length_drop. lia. Qed.

Lemma view_lookup m s i : (i < len s)%nat → view m s !! i = m !! (off s + i)%nat.
Proof. intros. unfold view. by rewrite lookup_take_lt, lookup_drop. Qed.

Lemma view_lookup_total m s i : (i < len s)%nat → view m s !!! i = m !!! (off s + i)%nat.
Proof. intros. by rewrite !list_lookup_total_alt, view_lookup. Qed.

Lemma length_blit s src m :
  in_bounds m s → length (blit s src m) = length m.
Proof.
  unfold blit, in_bounds. intros. rewrite !length_app, !length_take, length_drop. lia.
Qed.

Lemma blit_outside s src m k :
  in_bounds m s → ¬ inside s k → blit s src m !!! k = m !!! k.
Proof.
  unfold blit, in_bounds, inside. intros Hb Hk. rewrite !list_lookup_total_alt. f_equal.
  destruct (decide (k < off s)%nat) as [Hlt|Hge].
  - rewrite lookup_app_l by (rewrite length_take; lia). by rewrite lookup_take_lt.
  - rewrite lookup_app_r by (rewrite length_take; lia).
    rewrite lookup_app_r by (rewrite !length_take; lia).
    rewrite lookup_drop, !length_take. f_equal. lia.
Qed.

Lemma blit_inside s src m i :
  in_bounds m s → length src = len s → (i < len s)%nat → blit s src m !!! (off s + i)%nat = src !!! i.
Proof.
  unfold blit, in_bounds. intros Hb Hl Hi. rewrite !list_lookup_total_alt. f_equal.
  rewrite lookup_app_r by (rewrite length_take; lia).
  rewrite lookup_app_l by (rewrite !length_take; lia).
  rewrite lookup_take_lt by (rewrite length_take; lia). f_equal. rewrite length_take. lia.
Qed.

Lemma blit_Forall (P : Z → Prop) s src m : Forall P m → Forall P src → Forall P (blit s src m).
Proof.
  intros Hm Hs. unfold blit. repeat apply Forall_app_2; by (apply Forall_take || apply Forall_drop || idtac).
Qed.

(** ** Pointwise loops

    [for i := 0; i < n; i++ { v := f(i); d[i] = v }] where iteration [i] reads
    only words that no earlier iteration wrote.  The reads see the initial
    store, so the loop is a parallel assignment. *)

Definition pointwise (d : slice) (f : nat → store → go Z) (n : nat) : store → go store :=
  for_range n (λ i m, v ← f i m; save d i v m).

Definition unwritten (d : slice) (i k : nat) : Prop := ¬ (off d ≤ k < off d + i)%nat.

Lemma pointwise_spec d f g n m :
  in_bounds m d → (n ≤ len d)%nat →
  (∀ i t, (i < n)%nat → length t = length m →
     (∀ k, unwritten d i k → t !!! k = m !!! k) → f i t = Ok (g i)) →
  ∃ m', pointwise d f n m = Ok m' ∧ length m' = length m ∧
    (∀ i, (i < n)%nat → m' !!! (off d + i)%nat = g i) ∧
    (∀ k, unwritten d n k → m' !!! k = m !!! k).
Proof.
  intros Hb Hn Hf.
  destruct (for_range_total (λ i t, length t = length m ∧
    (∀ j, (j < i)%nat → t !!! (off d + j)%nat = g j) ∧
    (∀ k, unwritten d i k → t !!! k = m !!! k)) n (λ i m, v ← f i m; save d i v m) m)
    as (m' & Hm' & HP).
  - split_and!; [done|lia|done].
  - intros i t Hi (Hl & Hw & Hu). rewrite (Hf i t) by done. simpl.
    unfold in_bounds in *. rewrite save_Ok by (unfold in_bounds; lia).
    eexists; split; [done|]. rewrite length_insert. split_and!; [done| |].
    + intros j Hj. destruct (decide (j = i)) as [->|].
      * apply lookup_total_insert_eq. lia.
      * rewrite lookup_total_insert_ne by lia. apply Hw. lia.
    + unfold unwritten in *. intros k Hk. rewrite lookup_total_insert_ne by lia. apply Hu. lia.
  - exists m'. naive_solver.
Qed.

(** Two destinations written in step: [d1[i], d2[i] = f(i)]. *)
Definition pointwise2 (d1 d2 : slice) (f : nat → store → go (Z * Z)) (n : nat) : store → go store :=
  for_range n (λ i m, '(v1, v2) ← f i m; m ← save d1 i v1 m; save d2 i v2 m).

Lemma pointwise2_spec d1 d2 f g n m :
  in_bounds m d1 → in_bounds m d2 → disjoint_slices d1 d2 → n = len d1 → n = len d2 →
  (∀ i t, (i < n)%nat → length t = length m →
     (∀ k, unwritten d1 i k → unwritten d2 i k → t !!! k = m !!! k) → f i t = Ok (g i)) →
  ∃ m', pointwise2 d1 d2 f n m = Ok m' ∧ length m' = length m ∧
    (∀ i, (i < n)%nat → m' !!! (off d1 + i)%nat = (g i).1 ∧ m' !!! (off d2 + i)%nat = (g i).2) ∧
    (∀ k, unwritten d1 n k → unwritten d2 n k → m' !!! k = m !!! k).
Proof.
  unfold in_bounds, disjoint_slices. intros Hb1 Hb2 Hd Hn1 Hn2 Hf.
  destruct (for_range_total (λ i t, length t = length m ∧
    (∀ j, (j < i)%nat → t !!! (off d1 + j)%nat = (g j).1 ∧ t !!! (off d2 + j)%nat = (g j).2) ∧
    (∀ k, unwritten d1 i k → unwritten d2 i k → t !!! k = m !!! k)) n
    (λ i m, '(v1, v2) ← f i m; m ← save d1 i v1 m; save d2 i v2 m) m) as (m' & Hm' & HP).
  - split_and!; [done|lia|done].
  - intros i t Hi (Hl & Hw & Hu). rewrite (Hf i t) by done. simpl.
    destruct (g i) as [v1 v2] eqn:Hg.
    rewrite save_Ok by (unfold in_bounds; lia). simpl.
    rewrite save_Ok by (unfold in_bounds; rewrite ?length_insert; lia).
    eexists; split; [done|]. rewrite !length_insert. split_and!; [done| |].
    + intros j Hj. destruct (decide (j = i)) as [->|].
      * rewrite Hg, lookup_total_insert_eq by (rewrite ?length_insert; lia).
        rewrite lookup_total_insert_ne, lookup_total_insert_eq by lia. done.
      * destruct (Hw j) as [Hw1 Hw2]; [lia|]. rewrite !lookup_total_insert_ne by lia. done.
    + unfold unwritten in *. intros k Hk1 Hk2.
      rewrite !lookup_total_insert_ne by lia. apply Hu; lia.
  - exists m'. naive_solver.
Qed.
