(* ===== verification/Truth.v ===== *)
(** * Package [internal/truth]: reason masks and four-valued bitplanes

    A truth value per row is a pair of bits, one in the positive and one in the
    negative plane; the operations work word by word on planes that view a
    shared slab ([Store]).  The theorems relate each batch operation to the
    row-wise connective and bound what it writes. *)

From S2P Require Import Prelude Store.

(** ** Reasons (reason.go) *)

Module Reason.

Definition ReasonCount : Z := 9.

Definition ReasonMissing : Z := 1.
Definition ReasonStale : Z := 2.
Definition ReasonUnclear : Z := 3.
Definition ReasonUnverifiable : Z := 4.
Definition ReasonWrongScope : Z := 5.
Definition ReasonWrongSubject : Z := 6.
Definition ReasonWrongTiming : Z := 7.
Definition ReasonInvalid : Z := 8.
Definition ReasonConflict : Z := 9.

(** The loop range [for reason := ReasonMissing; reason <= ReasonConflict; reason++]. *)
Definition allReasons : list Z := [1; 2; 3; 4; 5; 6; 7; 8; 9].

Definition AllReasonsMask : Z := bit64 ReasonCount - 1.

Definition ReasonBit (reason : Z) : Z :=
  if (reason <? ReasonMissing) || (ReasonConflict <? reason) then 0 else bit64 (reason - 1).

Definition With (mask reason : Z) : Z := Z.lor mask (ReasonBit reason).

Definition Has (mask reason : Z) : bool :=
  let bit := ReasonBit reason in negb (bit =? 0) && negb (Z.land mask bit =? 0).

Definition Valid (mask : Z) : bool := Z.ldiff mask AllReasonsMask =? 0.

Definition validReason (reason : Z) : Prop := 1 ≤ reason ≤ 9.

Lemma ReasonBit_valid reason : validReason reason → ReasonBit reason = bit64 (reason - 1).
Proof.
  unfold validReason, ReasonBit, ReasonMissing, ReasonConflict. intros.
  destruct (Z.ltb_spec reason 1), (Z.ltb_spec 9 reason); simpl; lia || done.
Qed.

Lemma ReasonBit_invalid reason : ¬ validReason reason → ReasonBit reason = 0.
Proof.
  unfold validReason, ReasonBit, ReasonMissing, ReasonConflict. intros.
  destruct (Z.ltb_spec reason 1), (Z.ltb_spec 9 reason); simpl; lia || done.
Qed.

Lemma Has_testbit mask reason : validReason reason → Has mask reason = Z.testbit mask (reason - 1).
Proof.
  intros Hr. unfold Has. rewrite ReasonBit_valid by done. unfold validReason in Hr.
  rewrite land_bit64_ne0 by lia. unfold bit64. rewrite Z.shiftl_1_l.
  destruct (Z.eqb_spec (2 ^ (reason - 1)) 0) as [E|]; [|done].
  assert (0 < 2 ^ (reason - 1)) by (apply Z.pow_pos_nonneg; lia). lia.
Qed.

Lemma Has_invalid mask reason : ¬ validReason reason → Has mask reason = false.
Proof. intros. unfold Has. by rewrite ReasonBit_invalid. Qed.

Lemma testbit_ReasonBit reason i :
  validReason reason → Z.testbit (ReasonBit reason) i = bool_decide (i = reason - 1).
Proof. intros Hr. rewrite ReasonBit_valid by done. apply testbit_bit64. unfold validReason in Hr. lia. Qed.

Lemma Has_With mask r s :
  Has (With mask r) s = Has mask s || (bool_decide (validReason s) && bool_decide (s = r)).
Proof.
  destruct (decide (validReason s)) as [Hs|Hs].
  - rewrite (bool_decide_eq_true_2 (validReason s)), !Has_testbit by done.
    unfold With. rewrite Z.lor_spec. f_equal.
    destruct (decide (validReason r)) as [Hr|Hr].
    + rewrite testbit_ReasonBit by done. simpl. apply bool_decide_ext. lia.
    + rewrite ReasonBit_invalid, Z.testbit_0_l by done.
      rewrite bool_decide_eq_false_2; [done|]. by intros ->.
  - rewrite (bool_decide_eq_false_2 (validReason s)), !Has_invalid by done. done.
Qed.

Lemma Has_lor a b s : Has (Z.lor a b) s = Has a s || Has b s.
Proof.
  destruct (decide (validReason s)); [|by rewrite !Has_invalid].
  by rewrite !Has_testbit, Z.lor_spec.
Qed.

Lemma Valid_spec mask : 0 ≤ mask → Valid mask = true ↔ mask < 2 ^ ReasonCount.
Proof.
  intros Hm. unfold Valid, AllReasonsMask, ReasonCount. rewrite Z.eqb_eq.
  replace (bit64 9 - 1) with (Z.ones 9) by done.
  rewrite Z.ldiff_ones_r, Z.shiftl_mul_pow2, Z.shiftr_div_pow2 by lia.
  assert (0 ≤ mask / 2 ^ 9) by (apply Z.div_pos; lia). split; intros Hlt.
  - destruct (decide (mask < 2 ^ 9)); [done|].
    assert (0 < mask / 2 ^ 9) by (apply Z.div_str_pos; lia). lia.
  - by rewrite Z.div_small.
Qed.

Lemma ReasonBit_valid_mask reason : Valid (ReasonBit reason) = true.
Proof.
  destruct (decide (validReason reason)) as [Hr|]; [|by rewrite ReasonBit_invalid].
  assert (reason = 1 ∨ reason = 2 ∨ reason = 3 ∨ reason = 4 ∨ reason = 5 ∨ reason = 6 ∨ reason = 7 ∨
    reason = 8 ∨ reason = 9) as Hc by (unfold validReason in Hr; lia).
  by destruct_or! Hc; subst.
Qed.

Lemma Valid_lor a b : Valid a = true → Valid b = true → Valid (Z.lor a b) = true.
Proof.
  unfold Valid. rewrite !Z.eqb_eq. intros Ha Hb. apply Z.bits_inj'. intros i Hi.
  rewrite Z.testbit_0_l, Z.ldiff_spec, Z.lor_spec, andb_orb_distrib_l, <-!Z.ldiff_spec, Ha, Hb.
  by rewrite Z.testbit_0_l.
Qed.

Lemma mask_ext a b :
  0 ≤ a → 0 ≤ b → Valid a = true → Valid b = true →
  (∀ r, validReason r → Has a r = Has b r) → a = b.
Proof.
  intros Ha Hb Va Vb Heq. rewrite Valid_spec in Va, Vb by done. apply Z.bits_inj'. intros i Hi.
  destruct (decide (i < 9)).
  - specialize (Heq (i + 1)). unfold validReason in Heq.
    rewrite !Has_testbit, Z.add_simpl_r in Heq by (unfold validReason; lia). apply Heq. lia.
  - rewrite <-(Z.mod_small a (2 ^ 9)), <-(Z.mod_small b (2 ^ 9)) by done.
    by rewrite !Z.mod_pow2_bits_high by lia.
Qed.

(** A reason mask is a set of reasons: adding a reason and uniting masks are
    the set operations, out-of-range reasons are never members, valid masks are
    exactly the nine-bit ones, and two valid masks with the same members are equal. *)
Theorem reason_mask_is_a_set (a b r s : Z) :
  Has (With a r) s = Has a s || (bool_decide (validReason s) && bool_decide (s = r)) ∧
  Has (Z.lor a b) s = Has a s || Has b s ∧
  (¬ validReason s → Has a s = false) ∧
  (0 ≤ a → (Valid a = true ↔ a < 2 ^ ReasonCount)) ∧
  (0 ≤ a → 0 ≤ b → Valid a = true → Valid b = true → (∀ t, validReason t → Has a t = Has b t) → a = b).
Proof.
  split; [apply Has_With|]. split; [apply Has_lor|]. split; [apply Has_invalid|].
  split; [apply Valid_spec|]. intros. by apply mask_ext.
Qed.
End Reason.

(** ** Four-valued truth (scalar.go) *)

(** [(positive, negative)]: true is [(true,false)], false [(false,true)],
    unknown [(false,false)], conflict [(true,true)]. *)
Definition tv : Type := bool * bool.

Definition tv_not (a : tv) : tv := (a.2, a.1).
Definition tv_and (a b : tv) : tv := (a.1 && b.1, a.2 || b.2).
Definition tv_or (a b : tv) : tv := (a.1 || b.1, a.2 && b.2).

Lemma tv_and_assoc a b c : tv_and a (tv_and b c) = tv_and (tv_and a b) c.
Proof. destruct a, b, c; unfold tv_and; simpl; f_equal; [apply andb_assoc|apply orb_assoc]. Qed.
Lemma tv_or_assoc a b c : tv_or a (tv_or b c) = tv_or (tv_or a b) c.
Proof. destruct a, b, c; unfold tv_or; simpl; f_equal; [apply orb_assoc|apply andb_assoc]. Qed.
Lemma tv_and_comm a b : tv_and a b = tv_and b a.
Proof. destruct a, b; unfold tv_and; simpl; f_equal; [apply andb_comm|apply orb_comm]. Qed.
Lemma tv_or_comm a b : tv_or a b = tv_or b a.
Proof. destruct a, b; unfold tv_or; simpl; f_equal; [apply orb_comm|apply andb_comm]. Qed.
Lemma tv_and_idemp a : tv_and a a = a.
Proof. by destruct a as [[] []]. Qed.
Lemma tv_or_idemp a : tv_or a a = a.
Proof. by destruct a as [[] []]. Qed.

Definition notWord (positive negative : Z) : Z * Z := (negative, positive).
Definition andWord (lPositive lNegative rPositive rNegative : Z) : Z * Z :=
  (Z.land lPositive rPositive, Z.lor lNegative rNegative).
Definition orWord (lPositive lNegative rPositive rNegative : Z) : Z * Z :=
  (Z.lor lPositive rPositive, Z.land lNegative rNegative).

(** ** Bitplanes (planes.go) *)

Record Planes := { Positive : slice; Negative : slice }.

#[global] Instance Planes_eq_dec : EqDecision Planes.
Proof. solve_decision. Defined.

Definition WordCount (rows : Z) : Z := Z.shiftr (u64 (rows + 63)) 6.

Definition requireShape (planes : Planes) (words : Z) : go unit :=
  require ((Z.of_nat (len (Positive planes)) =? words) && (Z.of_nat (len (Negative planes)) =? words))
    "truth: plane length does not match row count".

Definition maskTail (dst : Planes) (rows : Z) (m : store) : go store :=
  let remaining := Z.land rows 63 in
  if remaining =? 0 then Ok m else
  let last := (len (Positive dst) - 1)%nat in
  let mask := bit64 remaining - 1 in
  p ← load m (Positive dst) last;
  m ← save (Positive dst) last (Z.land p mask) m;
  n ← load m (Negative dst) last;
  save (Negative dst) last (Z.land n mask) m.

Definition Set_ (dst : Planes) (value : bool) (rows : Z) (m : store) : go store :=
  let words := WordCount rows in
  requireShape dst words ;;
  let '(positive, negative) := if value then (MaxUint64, 0) else (0, MaxUint64) in
  m ← pointwise2 (Positive dst) (Negative dst) (λ _ _, Ok (positive, negative)) (Z.to_nat words) m;
  maskTail dst rows m.

Definition Not (dst src : Planes) (rows : Z) (m : store) : go store :=
  let words := WordCount rows in
  requireShape dst words ;;
  requireShape src words ;;
  m ← pointwise2 (Positive dst) (Negative dst) (λ i m,
        p ← load m (Positive src) i; n ← load m (Negative src) i;
        Ok (notWord p n)) (Z.to_nat words) m;
  maskTail dst rows m.

Definition And (dst left right : Planes) (rows : Z) (m : store) : go store :=
  let words := WordCount rows in
  requireShape dst words ;;
  requireShape left words ;;
  requireShape right words ;;
  m ← pointwise2 (Positive dst) (Negative dst) (λ i m,
        lp ← load m (Positive left) i; ln ← load m (Negative left) i;
        rp ← load m (Positive right) i; rn ← load m (Negative right) i;
        Ok (andWord lp ln rp rn)) (Z.to_nat words) m;
  maskTail dst rows m.

Definition Or (dst left right : Planes) (rows : Z) (m : store) : go store :=
  let words := WordCount rows in
  requireShape dst words ;;
  requireShape left words ;;
  requireShape right words ;;
  m ← pointwise2 (Positive dst) (Negative dst) (λ i m,
        lp ← load m (Positive left) i; ln ← load m (Negative left) i;
        rp ← load m (Positive right) i; rn ← load m (Negative right) i;
        Ok (orWord lp ln rp rn)) (Z.to_nat words) m;
  maskTail dst rows m.

(** ** Row-wise specification *)

(** Row [r] of a plane and of a pair of planes in the store. *)
Definition planeRow (m : store) (s : slice) (r : nat) : bool :=
  Z.testbit (m !!! (off s + r `div` 64)%nat) (Z.of_nat (r `mod` 64)).
Definition planesRow (m : store) (p : Planes) (r : nat) : tv :=
  (planeRow m (Positive p) r, planeRow m (Negative p) r).

Abbreviation nwords rows := (Z.to_nat (WordCount rows)).

(** Both planes of [p] have the shape of [rows], lie in the slab and do not overlap. *)
Definition planes_wf (m : store) (p : Planes) (rows : Z) : Prop :=
  len (Positive p) = nwords rows ∧ len (Negative p) = nwords rows ∧
  in_bounds m (Positive p) ∧ in_bounds m (Negative p) ∧
  disjoint_slices (Positive p) (Negative p).

Definition disjoint_planes (p q : Planes) : Prop :=
  disjoint_slices (Positive p) (Positive q) ∧ disjoint_slices (Positive p) (Negative q) ∧
  disjoint_slices (Negative p) (Positive q) ∧ disjoint_slices (Negative p) (Negative q).

(** The aliasing the package supports: whole-value aliases, or no sharing. *)
Definition alias_ok (dst src : Planes) : Prop := dst = src ∨ disjoint_planes dst src.

(** [m'] is [m] with the rows of [dst] replaced by [g], unused tail bits cleared
    and every other word unchanged. *)
Definition planes_rows (m m' : store) (dst : Planes) (rows : Z) (g : nat → tv) : Prop :=
  length m' = length m ∧
  (∀ k, ¬ inside (Positive dst) k → ¬ inside (Negative dst) k → m' !!! k = m !!! k) ∧
  (∀ r, (r < 64 * nwords rows)%nat →
     planesRow m' dst r = if bool_decide (Z.of_nat r < rows) then g r else (false, false)).

(** The same, and every word still a uint64. *)
Definition planes_written (m m' : store) (dst : Planes) (rows : Z) (g : nat → tv) : Prop :=
  length m' = length m ∧
  (∀ k, ¬ inside (Positive dst) k → ¬ inside (Negative dst) k → m' !!! k = m !!! k) ∧
  (∀ r, (r < 64 * nwords rows)%nat →
     planesRow m' dst r = if bool_decide (Z.of_nat r < rows) then g r else (false, false)) ∧
  (Forall is_u64 m → Forall is_u64 m').

Lemma planes_written_rows m m' dst rows g : planes_written m m' dst rows g → planes_rows m m' dst rows g.
Proof. intros (? & ? & ? & _). done. Qed.

Lemma WordCount_eq rows : is_u32 rows → WordCount rows = (rows + 63) / 64.
Proof.
  unfold is_u32, WordCount. intros. rewrite u64_small by (unfold is_u64; lia).
  by rewrite Z.shiftr_div_pow2.
Qed.

Lemma WordCount_bounds rows :
  is_u32 rows →
  0 ≤ WordCount rows ∧ rows ≤ 64 * WordCount rows ∧ 64 * WordCount rows < rows + 64.
Proof.
  intros Hr. rewrite WordCount_eq by done. unfold is_u32 in Hr.
  pose proof (Z.div_mod (rows + 63) 64) as Hd. pose proof (Z.mod_pos_bound (rows + 63) 64).
  split; [apply Z.div_pos; lia|lia].
Qed.

Definition tailKeep (rows : Z) (r : nat) : bool := bool_decide (Z.of_nat r < rows).

(** The tail mask of the final word, as a row condition. *)
Lemma tail_row rows (r : nat) :
  is_u32 rows → rows mod 64 ≠ 0 → S (r `div` 64) = nwords rows →
  (Z.of_nat (r `mod` 64) <? rows mod 64) = tailKeep rows r.
Proof.
  intros Hr Hne Hlast. pose proof (WordCount_bounds rows Hr) as (? & ? & ?).
  pose proof (row_split r) as [Er ?].
  pose proof (Z.div_mod rows 64). pose proof (Z.mod_pos_bound rows 64).
  assert (rows / 64 = Z.of_nat (r `div` 64)%nat) by
    (symmetry; apply (Z.div_unique rows 64 _ (rows mod 64)); lia).
  unfold tailKeep. apply Bool.eq_iff_eq_true. rewrite Z.ltb_lt, bool_decide_eq_true. lia.
Qed.

Lemma full_row rows (r : nat) :
  is_u32 rows → (S (r `div` 64) < nwords rows)%nat ∨ rows mod 64 = 0 ∧ (r `div` 64 < nwords rows)%nat →
  tailKeep rows r = true.
Proof.
  intros Hr Hc. pose proof (WordCount_bounds rows Hr) as (? & ? & ?).
  pose proof (row_split r) as [Er ?]. apply bool_decide_eq_true.
  destruct Hc as [?|[? ?]]; [lia|]. pose proof (Z.div_mod rows 64). lia.
Qed.

Lemma maskTail_spec dst rows m :
  is_u32 rows → planes_wf m dst rows →
  ∃ m', maskTail dst rows m = Ok m' ∧ length m' = length m ∧
    (∀ k, ¬ inside (Positive dst) k → ¬ inside (Negative dst) k → m' !!! k = m !!! k) ∧
    (∀ r, (r < 64 * nwords rows)%nat →
       planeRow m' (Positive dst) r = planeRow m (Positive dst) r && tailKeep rows r ∧
       planeRow m' (Negative dst) r = planeRow m (Negative dst) r && tailKeep rows r) ∧
    (Forall is_u64 m → Forall is_u64 m').
Proof.
  intros Hr (HlP & HlN & HbP & HbN & Hd). unfold maskTail. rewrite land_63.
  pose proof (WordCount_bounds rows Hr) as (? & ? & ?).
  destruct (Z.eqb_spec (rows mod 64) 0) as [Hz|Hz].
  - exists m. split_and!; [done..| |done]. intros r Hrr. pose proof (row_split r) as [Er ?].
    rewrite full_row by (done || lia). by rewrite !andb_true_r.
  - pose proof (Z.mod_pos_bound rows 64). pose proof (Z.div_mod rows 64).
    assert (0 < nwords rows)%nat as Hw. { unfold is_u32 in Hr. lia. }
    unfold in_bounds, disjoint_slices, inside in *.
    rewrite load_Ok by (unfold in_bounds; lia). simpl.
    rewrite save_Ok by (unfold in_bounds; lia). simpl.
    rewrite load_Ok by (unfold in_bounds; rewrite ?length_insert; lia). simpl.
    rewrite save_Ok by (unfold in_bounds; rewrite ?length_insert; lia).
    eexists; split; [done|]. rewrite !length_insert. split_and!; [done| | |].
    + intros k HkP HkN. rewrite !lookup_total_insert_ne by lia. done.
    + intros r Hrr. pose proof (row_split r) as [Er Hj]. unfold planeRow.
      destruct (decide (S (r `div` 64) = nwords rows)%nat) as [Hlast|Hlast].
      * assert (r `div` 64 = len (Positive dst) - 1)%nat as HrP by lia.
        rewrite <-!HrP.
        rewrite (lookup_total_insert_ne _ _ (off (Positive dst) + r `div` 64)%nat) by lia.
        rewrite !lookup_total_insert_eq by (rewrite ?length_insert; lia).
        rewrite (lookup_total_insert_ne _ _ (off (Negative dst) + r `div` 64)%nat) by lia.
        rewrite !Z.land_spec, !testbit_lowmask by lia.
        by rewrite !tail_row by (done || lia).
      * rewrite !lookup_total_insert_ne by lia.
        rewrite full_row by (done || lia). by rewrite !andb_true_r.
    + intros Hall. pose proof (λ k, Forall_lookup_total_1 is_u64 m k Hall) as Hall'.
      assert (0 ≤ bit64 (rows mod 64) - 1) by (apply is_u64_lowmask; lia).
      rewrite lookup_total_insert_ne by lia.
      repeat apply Forall_insert; [done|..]; apply is_u64_land; (apply Hall'; lia) || lia.
Qed.

(** A pointwise loop over [dst] followed by [maskTail]. *)
Lemma masked_loop dst f g G rows m :
  is_u32 rows → planes_wf m dst rows →
  (∀ i t, (i < nwords rows)%nat → length t = length m →
     (∀ k, unwritten (Positive dst) i k → unwritten (Negative dst) i k → t !!! k = m !!! k) →
     f i t = Ok (g i)) →
  (∀ i j, (i < nwords rows)%nat → (j < 64)%nat →
     (Z.testbit (g i).1 (Z.of_nat j), Z.testbit (g i).2 (Z.of_nat j)) = G (64 * i + j)%nat) →
  (Forall is_u64 m → ∀ i, (i < nwords rows)%nat → is_u64 (g i).1 ∧ is_u64 (g i).2) →
  ∃ m', (t ← pointwise2 (Positive dst) (Negative dst) f (nwords rows) m; maskTail dst rows t) = Ok m' ∧
    planes_written m m' dst rows G.
Proof.
  intros Hr (HlP & HlN & HbP & HbN & Hd) Hf Hbits Hu.
  destruct (pointwise2_spec (Positive dst) (Negative dst) f g (nwords rows) m)
    as (t & Ht & Hlen & Hin & Hout); [by auto..|].
  rewrite Ht. simpl.
  destruct (maskTail_spec dst rows t) as (m' & Hm' & Hlen' & Hout' & Hrows & Hu'); [done| |].
  { unfold planes_wf, in_bounds in *. by rewrite Hlen. }
  exists m'. split; [done|]. unfold planes_written, inside, unwritten in *. split_and!.
  - congruence.
  - intros k HkP HkN. rewrite Hout' by done. apply Hout; lia.
  - intros r Hrr. pose proof (row_split r) as [Er Hj].
    assert (r `div` 64 < nwords rows)%nat as Hi by lia.
    destruct (Hrows r Hrr) as [HP HN], (Hin _ Hi) as [EP EN].
    unfold planesRow. rewrite HP, HN. unfold planeRow. rewrite EP, EN.
    specialize (Hbits _ _ Hi Hj). rewrite <-Er in Hbits. rewrite <-Hbits. unfold tailKeep.
    destruct (bool_decide _); by rewrite ?andb_true_r, ?andb_false_r.
  - intros Hall. apply Hu'. apply Forall_lookup_2. intros k w Hk.
    apply list_lookup_total_correct in Hk as Hkt. apply lookup_lt_Some in Hk.
    destruct (decide (off (Positive dst) ≤ k < off (Positive dst) + nwords rows)%nat) as [Hc|Hc].
    { rewrite <-Hkt. replace k with (off (Positive dst) + (k - off (Positive dst)))%nat by lia.
      destruct (Hin (k - off (Positive dst))%nat) as [EP EN]; [lia|].
      rewrite EP. apply Hu; [done|lia]. }
    destruct (decide (off (Negative dst) ≤ k < off (Negative dst) + nwords rows)%nat) as [Hc'|Hc'].
    { rewrite <-Hkt. replace k with (off (Negative dst) + (k - off (Negative dst)))%nat by lia.
      destruct (Hin (k - off (Negative dst))%nat) as [EP EN]; [lia|].
      rewrite EN. apply Hu; [done|lia]. }
    rewrite <-Hkt, Hout by done. apply Forall_lookup_total_1; [done|lia].
Qed.

Lemma requireShape_Ok m p rows :
  is_u32 rows → planes_wf m p rows → requireShape p (WordCount rows) = Ok tt.
Proof.
  intros Hr (HP & HN & _). pose proof (WordCount_bounds rows Hr) as (? & _).
  unfold requireShape. rewrite HP, HN, Z2Nat.id, Z.eqb_refl by done. done.
Qed.

(** Loads of iteration [i] see the initial words of any alias or disjoint source. *)
Lemma load_source m t dst src rows i :
  planes_wf m dst rows → planes_wf m src rows → alias_ok dst src → (i < nwords rows)%nat →
  length t = length m →
  (∀ k, unwritten (Positive dst) i k → unwritten (Negative dst) i k → t !!! k = m !!! k) →
  load t (Positive src) i = Ok (m !!! (off (Positive src) + i)%nat) ∧
  load t (Negative src) i = Ok (m !!! (off (Negative src) + i)%nat).
Proof.
  intros (HlP & HlN & HbP & HbN & Hd) (HsP & HsN & HcP & HcN & He) Ha Hi Hlen Hu.
  unfold in_bounds, disjoint_slices, unwritten in *.
  rewrite !load_Ok by (unfold in_bounds; lia).
  rewrite !Hu; [done| | | |].
  all: destruct Ha as [->|(?&?&?&?)]; unfold disjoint_slices in *; lia.
Qed.

(** What a mapped word [i] of a plane is, bit by bit. *)
Lemma planesRow_word m p i j :
  (j < 64)%nat →
  planesRow m p (64 * i + j) =
    (Z.testbit (m !!! (off (Positive p) + i)%nat) (Z.of_nat j),
     Z.testbit (m !!! (off (Negative p) + i)%nat) (Z.of_nat j)).
Proof.
  intros Hj. unfold planesRow, planeRow. by destruct (row_of_word i j) as [-> ->].
Qed.

Lemma planes_wf_u64 m p rows i :
  Forall is_u64 m → planes_wf m p rows → (i < nwords rows)%nat →
  is_u64 (m !!! (off (Positive p) + i)%nat) ∧ is_u64 (m !!! (off (Negative p) + i)%nat).
Proof.
  intros Hall (HlP & HlN & HbP & HbN & _) Hi. unfold in_bounds in *.
  split; (apply Forall_lookup_total_1; [done|lia]).
Qed.

Section row_specs.
Context (rows : Z) (m : store) (dst : Planes).
Context (Hrows : is_u32 rows) (Hdst : planes_wf m dst rows).

Lemma Set_written value :
  ∃ m', Set_ dst value rows m = Ok m' ∧ planes_written m m' dst rows (λ _, (value, negb value)).
Proof.
  unfold Set_. rewrite (requireShape_Ok m) by done. rewrite go_bind_Ok.
  destruct value; eapply masked_loop; try done; intros; simpl;
    rewrite ?testbit_ones64, ?Z.testbit_0_l by lia; eauto with word.
Qed.

Lemma Not_written src :
  planes_wf m src rows → alias_ok dst src →
  ∃ m', Not dst src rows m = Ok m' ∧ planes_written m m' dst rows (λ r, tv_not (planesRow m src r)).
Proof.
  intros Hs Ha. unfold Not. rewrite !(requireShape_Ok m) by done. rewrite !go_bind_Ok.
  eapply (masked_loop _ _ (λ i, notWord (m !!! (off (Positive src) + i)%nat) (m !!! (off (Negative src) + i)%nat)));
    [done|done| | |].
  - intros i t Hi Hlen Hu.
    by destruct (load_source m t dst src rows i) as [-> ->].
  - intros i j Hi Hj. by rewrite planesRow_word.
  - intros Hall i Hi. destruct (planes_wf_u64 m src rows i); auto.
Qed.

Section binary.
Context (left right : Planes).
Context (Hl : planes_wf m left rows) (Hr : planes_wf m right rows).
Context (Hal : alias_ok dst left) (Har : alias_ok dst right).

Lemma And_written :
  ∃ m', And dst left right rows m = Ok m' ∧
    planes_written m m' dst rows (λ r, tv_and (planesRow m left r) (planesRow m right r)).
Proof.
  unfold And. rewrite !(requireShape_Ok m) by done. rewrite !go_bind_Ok.
  eapply (masked_loop _ _ (λ i, andWord
    (m !!! (off (Positive left) + i)%nat) (m !!! (off (Negative left) + i)%nat)
    (m !!! (off (Positive right) + i)%nat) (m !!! (off (Negative right) + i)%nat))); [done|done| | |].
  - intros i t Hi Hlen Hu.
    destruct (load_source m t dst left rows i) as [-> ->]; [done..|].
    by destruct (load_source m t dst right rows i) as [-> ->].
  - intros i j Hi Hj. rewrite !planesRow_word by done. simpl. by rewrite Z.land_spec, Z.lor_spec.
  - intros Hall i Hi. destruct (planes_wf_u64 m left rows i), (planes_wf_u64 m right rows i); auto.
    simpl. split; [apply is_u64_land|apply is_u64_lor]; unfold is_u64 in *; lia.
Qed.

Lemma Or_written :
  ∃ m', Or dst left right rows m = Ok m' ∧
    planes_written m m' dst rows (λ r, tv_or (planesRow m left r) (planesRow m right r)).
Proof.
  unfold Or. rewrite !(requireShape_Ok m) by done. rewrite !go_bind_Ok.
  eapply (masked_loop _ _ (λ i, orWord
    (m !!! (off (Positive left) + i)%nat) (m !!! (off (Negative left) + i)%nat)
    (m !!! (off (Positive right) + i)%nat) (m !!! (off (Negative right) + i)%nat))); [done|done| | |].
  - intros i t Hi Hlen Hu.
    destruct (load_source m t dst left rows i) as [-> ->]; [done..|].
    by destruct (load_source m t dst right rows i) as [-> ->].
  - intros i j Hi Hj. rewrite !planesRow_word by done. simpl. by rewrite Z.land_spec, Z.lor_spec.
  - intros Hall i Hi. destruct (planes_wf_u64 m left rows i), (planes_wf_u64 m right rows i); auto.
    simpl. split; [apply is_u64_lor|apply is_u64_land]; unfold is_u64 in *; lia.
Qed.
End binary.
End row_specs.

(** ** Properties *)

(** C31: over any row count, [Set], [Not], [And] and [Or] succeed on planes of the
    right shape, also when the destination is one of the operands; each row of
    the destination becomes the four-valued connective of the operand rows, the
    unused tail bits are cleared, and no other word of the slab changes. *)
Theorem connectives_rowwise (rows : Z) (m : store) (dst left right : Planes) :
  is_u32 rows → planes_wf m dst rows → planes_wf m left rows → planes_wf m right rows →
  alias_ok dst left → alias_ok dst right →
  (∃ m', And dst left right rows m = Ok m' ∧
     planes_written m m' dst rows (λ r, tv_and (planesRow m left r) (planesRow m right r))) ∧
  (∃ m', Or dst left right rows m = Ok m' ∧
     planes_written m m' dst rows (λ r, tv_or (planesRow m left r) (planesRow m right r))) ∧
  (∃ m', Not dst left rows m = Ok m' ∧ planes_written m m' dst rows (λ r, tv_not (planesRow m left r))) ∧
  (∀ value, ∃ m', Set_ dst value rows m = Ok m' ∧ planes_written m m' dst rows (λ _, (value, negb value))).
Proof.
  intros. split; [by apply And_written|]. split; [by apply Or_written|]. split; [by apply Not_written|].
  intros value. by apply Set_written.
Qed.

