(* ===== verification/Schema.v ===== *)
(** * Package [internal/schema]: value kinds, field groups and the field table

    value.go, field.go and schema.go.  IDs are one-based; zero is invalid. *)

From S2P Require Import Prelude.

(** ** Kinds and groups *)

Definition ValueKindInvalid : Z := 0.
Definition ValueKindSymbol : Z := 1.
Definition ValueKindInteger : Z := 2.
Definition ValueKindBoolean : Z := 3.
Definition ValueKindTimestamp : Z := 4.
Definition ValueKindPresence : Z := 5.

Definition KindValid (k : Z) : bool := (ValueKindSymbol <=? k) && (k <=? ValueKindPresence).

Definition FieldGroupSubject : Z := 1.
Definition FieldGroupContext : Z := 5.

Definition GroupValid (g : Z) : bool := (FieldGroupSubject <=? g) && (g <=? FieldGroupContext).

Definition valueKindNames : list string :=
  ["invalid"; "symbol"; "integer"; "boolean"; "timestamp"; "presence"].

Definition KindString (k : Z) : string :=
  if k <? Z.of_nat (length valueKindNames)
  then default "invalid" (valueKindNames !! Z.to_nat k) else "invalid".

(** ** Field table *)

Record FieldTable := { names : list Z; kinds : list Z; groups : list Z }.

Module Fields.

(** The scan [for i, n := range names { if n == name { return i+1, true } }]. *)
Fixpoint scan (name : Z) (ns : list Z) (i : Z) : option Z :=
  match ns with
  | [] => None
  | n :: ns => if n =? name then Some (i + 1) else scan name ns (i + 1)
  end.

Definition Lookup (t : FieldTable) (name : Z) : option Z := scan name (names t) 0.

Definition column (l : list Z) (f : Z) : option Z :=
  let i := f - 1 in
  if (i <? 0) || (zlen l <=? i) then None else Some (l !!! Z.to_nat i).

Definition Name (t : FieldTable) (f : Z) : option Z := column (names t) f.
Definition KindOf (t : FieldTable) (f : Z) : option Z := column (kinds t) f.
Definition GroupOf (t : FieldTable) (f : Z) : option Z := column (groups t) f.

Definition NewBuilder : FieldTable := {| names := []; kinds := []; groups := [] |}.

(** The builder columns are the table columns; a failed call leaves them as they were. *)
Definition AddField (b : FieldTable) (name kind group : Z) : go (Z * FieldTable) :=
  check (negb (name =? 0)) ErrInvalidSymbol ;;
  check (KindValid kind) ErrInvalidValueKind ;;
  check (GroupValid group) ErrInvalidFieldGroup ;;
  check (negb (existsb (λ n, n =? name) (names b))) ErrDuplicateField ;;
  Ok (zlen (names b) + 1,
      {| names := names b ++ [name]; kinds := kinds b ++ [kind]; groups := groups b ++ [group] |}).

Definition Reset (b : FieldTable) : FieldTable := NewBuilder.
Definition Finish (b : FieldTable) : FieldTable := b.

(** *** Invariant *)

Record table_ok (t : FieldTable) : Prop := {
  tk_kinds : length (kinds t) = length (names t);
  tk_groups : length (groups t) = length (names t);
  tk_nodup : NoDup (names t);
  tk_names : Forall (λ n, n ≠ 0) (names t);
  tk_valid : Forall (λ k, KindValid k = true) (kinds t) ∧ Forall (λ g, GroupValid g = true) (groups t)
}.

Lemma NewBuilder_ok : table_ok NewBuilder.
Proof. split; simpl; auto using NoDup_nil_2. Qed.

Lemma AddField_inv b name kind group id b' :
  AddField b name kind group = Ok (id, b') →
  name ≠ 0 ∧ KindValid kind = true ∧ GroupValid group = true ∧ name ∉ names b ∧
  id = zlen (names b) + 1 ∧
  b' = {| names := names b ++ [name]; kinds := kinds b ++ [kind]; groups := groups b ++ [group] |}.
Proof.
  unfold AddField. intros Ha.
  apply go_bind_inv in Ha as ([] & Hn%check_inv & Ha).
  apply go_bind_inv in Ha as ([] & Hk%check_inv & Ha).
  apply go_bind_inv in Ha as ([] & Hg%check_inv & Ha).
  apply go_bind_inv in Ha as ([] & Hd%check_inv & Ha). simplify_eq.
  rewrite negb_true_iff, Z.eqb_neq in Hn. split_and!; try done.
  intros Hin. rewrite negb_true_iff in Hd.
  assert (existsb (λ n, n =? name) (names b) = true) as Ht; [|congruence].
  apply existsb_exists. exists name. split; [by apply list_elem_of_In|apply Z.eqb_refl].
Qed.

Lemma AddField_ok b name kind group id b' :
  table_ok b → AddField b name kind group = Ok (id, b') → table_ok b'.
Proof.
  intros [Hk Hg Hnd Hnz [Hkv Hgv]] (?&?&?&?&->&->)%AddField_inv.
  split; simpl.
  - rewrite !length_app. simpl. lia.
  - rewrite !length_app. simpl. lia.
  - apply NoDup_app. split_and!; [done|set_solver|apply NoDup_singleton].
  - by apply Forall_app_2, Forall_singleton.
  - split; by apply Forall_app_2, Forall_singleton.
Qed.

Lemma scan_Some name ns i f :
  scan name ns i = Some f → ∃ j, ns !! j = Some name ∧ f = i + Z.of_nat j + 1.
Proof.
  revert i. induction ns as [|n ns IH]; intros i; simpl; [done|].
  destruct (Z.eqb_spec n name) as [->|].
  - intros [= <-]. exists 0%nat. split; [done|lia].
  - intros (j & ? & ->)%IH. exists (S j). split; [done|lia].
Qed.

Lemma scan_None name ns i : scan name ns i = None ↔ name ∉ ns.
Proof.
  revert i. induction ns as [|n ns IH]; intros i; simpl; [set_solver|].
  destruct (Z.eqb_spec n name) as [->|]; [set_solver|]. rewrite IH. set_solver.
Qed.

Lemma scan_first name ns i j :
  NoDup ns → ns !! j = Some name → scan name ns i = Some (i + Z.of_nat j + 1).
Proof.
  intros Hnd Hj. destruct (scan name ns i) as [f|] eqn:E.
  - apply scan_Some in E as (k & Hk & ->). by rewrite (NoDup_lookup ns j k name) by done.
  - apply scan_None in E. exfalso. apply E. by eapply list_elem_of_lookup_2.
Qed.

Lemma column_Some l f x : column l f = Some x ↔ 1 ≤ f ∧ l !! Z.to_nat (f - 1) = Some x.
Proof.
  unfold column. destruct (Z.ltb_spec (f - 1) 0); simpl; [naive_solver lia|].
  destruct (Z.leb_spec (zlen l) (f - 1)).
  - rewrite lookup_ge_None_2 by lia. naive_solver lia.
  - destruct (lookup_lt_is_Some_2 l (Z.to_nat (f - 1))) as [y Hy]; [lia|].
    rewrite (list_lookup_total_correct _ _ _ Hy), Hy. naive_solver lia.
Qed.

(** ** Properties *)

Lemma column_app_old l x f : 1 ≤ f ≤ zlen l → column (l ++ [x]) f = column l f.
Proof.
  intros Hf. unfold column. rewrite length_app. simpl.
  rewrite !(proj2 (Z.ltb_ge _ _)), !(proj2 (Z.leb_gt _ _)) by lia. simpl. f_equal.
  by rewrite list_lookup_total_alt, lookup_app_l, <-list_lookup_total_alt by lia.
Qed.

Lemma column_app_new l x : column (l ++ [x]) (zlen l + 1) = Some x.
Proof.
  apply column_Some. split; [lia|]. replace (Z.to_nat (zlen l + 1 - 1)) with (length l) by lia.
  by rewrite lookup_app_r, Nat.sub_diag.
Qed.

(** [AddField] keeps the table well formed, gives the new field the next ID,
    under which its name, kind and group are found and to which its name
    resolves, and leaves every earlier field as it was. *)
Theorem AddField_extends (b b' : FieldTable) (name kind group id : Z) :
  table_ok b → AddField b name kind group = Ok (id, b') →
  table_ok b' ∧ id = zlen (names b) + 1 ∧
  Lookup b' name = Some id ∧ Name b' id = Some name ∧ KindOf b' id = Some kind ∧ GroupOf b' id = Some group ∧
  (∀ f, 1 ≤ f ≤ zlen (names b) → Name b' f = Name b f ∧ KindOf b' f = KindOf b f ∧ GroupOf b' f = GroupOf b f) ∧
  (∀ n, n ≠ name → Lookup b' n = Lookup b n).
Proof.
  intros Hok Hadd. pose proof (AddField_ok _ _ _ _ _ _ Hok Hadd) as Hok'.
  apply AddField_inv in Hadd as (Hn & Hk & Hg & Hnew & -> & ->).
  assert (zlen (kinds b) = zlen (names b) ∧ zlen (groups b) = zlen (names b)) as [Ek Eg] by (split; f_equal; apply Hok).
  split; [done|]. split; [done|]. split.
  { unfold Lookup. rewrite (scan_first _ _ _ (length (names b))); [f_equal; lia|apply Hok'|].
    simpl. by rewrite lookup_app_r, Nat.sub_diag. }
  split; [apply column_app_new|]. split; [unfold KindOf; rewrite <-Ek; apply column_app_new|].
  split; [unfold GroupOf; rewrite <-Eg; apply column_app_new|]. split.
  - intros f Hf. unfold Name, KindOf, GroupOf. simpl. by rewrite !column_app_old by lia.
  - intros n Hne. unfold Lookup. simpl. clear -Hne. generalize 0. induction (names b) as [|x l IH]; intros i; simpl.
    + by rewrite (proj2 (Z.eqb_neq name n)) by congruence.
    + destruct (x =? n); [done|]. apply IH.
Qed.

End Fields.
