(* ===== verification/Result.v ===== *)
(** * Package [internal/result]: outcome, remediation and resolution tables

    outcome.go, remediation.go and resolution.go.  Tables are parallel columns
    addressed by one-based IDs; [Prefer] is the precedence join on outcomes and
    [Resolve] the decision for a set of uncertainty reasons. *)

From S2P Require Import Prelude Store Truth.
Import Reason.

(** ** Outcomes (outcome.go) *)

Record OutcomeTable := {
  Names : list Z;
  Precedence : list Z;
  Terminal : list bool
}.

Record Outcome := { oName : Z; oPrecedence : Z; oTerminal : bool }.

Module Outcomes.

Definition index (t : OutcomeTable) (id : Z) : option Z :=
  if id =? 0 then None else
  let i := id - 1 in
  if (i <? 0) || (zlen (Names t) <=? i) || (zlen (Precedence t) <=? i) || (zlen (Terminal t) <=? i)
  then None else Some i.

Definition Lookup (t : OutcomeTable) (id : Z) : option Outcome :=
  idx ← index t id;
  Some {| oName := Names t !!! Z.to_nat idx; oPrecedence := Precedence t !!! Z.to_nat idx;
          oTerminal := Terminal t !!! Z.to_nat idx |}.

Definition preferKnown (t : OutcomeTable) (current candidate : Z) : go Z :=
  if current =? 0 then Ok candidate else
  if candidate =? 0 then Ok current else
  cur ← at_ (Precedence t) (current - 1);
  cand ← at_ (Precedence t) (candidate - 1);
  Ok (if (cur <? cand) || ((cand =? cur) && (candidate <? current)) then candidate else current).

(** [ok=false] is [None]. *)
Definition Prefer (t : OutcomeTable) (current candidate : Z) : go (option Z) :=
  if current =? 0 then
    if candidate =? 0 then Ok (Some 0) else
    match index t candidate with None => Ok None | Some _ => Ok (Some candidate) end
  else
    match index t current with
    | None => Ok None
    | Some _ =>
      if candidate =? 0 then Ok (Some current) else
      match index t candidate with
      | None => Ok None
      | Some _ => w ← preferKnown t current candidate; Ok (Some w)
      end
    end.

Definition valid (t : OutcomeTable) : bool :=
  let n := zlen (Names t) in
  negb (n =? 0) && (zlen (Precedence t) =? n) && (zlen (Terminal t) =? n) &&
  forallb (λ name, negb (name =? 0)) (Names t).

(** *** The precedence order *)

(** [id] names a row of every column. *)
Definition known (t : OutcomeTable) (id : Z) : Prop :=
  1 ≤ id ∧ id ≤ zlen (Names t) ∧ id ≤ zlen (Precedence t) ∧ id ≤ zlen (Terminal t).

Definition prec (t : OutcomeTable) (id : Z) : Z := Precedence t !!! Z.to_nat (id - 1).

(** [a] wins over [b]: higher precedence, or the same and the lower ID. *)
Definition wins (t : OutcomeTable) (a b : Z) : Prop :=
  prec t b < prec t a ∨ prec t a = prec t b ∧ a < b.

(** The join on absent-or-known outcomes. *)
Definition best (t : OutcomeTable) (a b : Z) : Z :=
  if a =? 0 then b else if b =? 0 then a else
  if (prec t a <? prec t b) || ((prec t b =? prec t a) && (b <? a)) then b else a.

Definition known0 (t : OutcomeTable) (id : Z) : Prop := id = 0 ∨ known t id.

Lemma index_known t id i : index t id = Some i ↔ known t id ∧ i = id - 1.
Proof.
  unfold index, known.
  destruct (Z.eqb_spec id 0), (Z.ltb_spec (id - 1) 0), (Z.leb_spec (zlen (Names t)) (id - 1)),
    (Z.leb_spec (zlen (Precedence t)) (id - 1)), (Z.leb_spec (zlen (Terminal t)) (id - 1));
    simpl; (split; [intros [= <-]; lia|intros [? ->]; done || lia]).
Qed.

Lemma index_None t id : index t id = None ↔ ¬ known t id.
Proof.
  destruct (index t id) as [i|] eqn:E.
  - apply index_known in E. naive_solver.
  - split; [|done]. intros _ Hk. assert (index t id = Some (id - 1)) by by apply index_known. congruence.
Qed.

Lemma Lookup_known t id : is_Some (Lookup t id) ↔ known t id.
Proof.
  unfold Lookup. destruct (index t id) as [i|] eqn:E; simpl.
  - apply index_known in E. split; [naive_solver|]. by eexists.
  - apply index_None in E. split; [by intros [? ?]|done].
Qed.

Lemma Lookup_Some t id o :
  Lookup t id = Some o → known t id ∧ oPrecedence o = prec t id ∧
    oTerminal o = Terminal t !!! Z.to_nat (id - 1).
Proof.
  unfold Lookup. destruct (index t id) as [i|] eqn:E; simpl; [|done].
  apply index_known in E as [? ->]. by intros [= <-].
Qed.

Lemma preferKnown_best t a b : known0 t a → known0 t b → preferKnown t a b = Ok (best t a b).
Proof.
  unfold preferKnown, best, known0. intros Ha Hb.
  destruct (Z.eqb_spec a 0); [done|]. destruct (Z.eqb_spec b 0); [done|].
  destruct Ha as [?|Ha]; [done|]. destruct Hb as [?|Hb]; [done|]. unfold known in *.
  rewrite !at_total by lia. simpl. fold (prec t a) (prec t b). done.
Qed.

Lemma Prefer_best t a b : known0 t a → known0 t b → Prefer t a b = Ok (Some (best t a b)).
Proof.
  unfold Prefer, known0. intros Ha Hb.
  assert (∀ x, x ≠ 0 → x = 0 ∨ known t x → ∃ i, index t x = Some i) as Hidx.
  { intros x ? [?|?]; [done|]. exists (x - 1). by apply index_known. }
  destruct (Z.eqb_spec a 0) as [->|Ha0].
  - destruct (Z.eqb_spec b 0) as [->|Hb0]; [done|].
    destruct (Hidx b) as [? ->]; done.
  - destruct (Hidx a) as [? ->]; [done..|].
    destruct (Z.eqb_spec b 0) as [->|Hb0].
    + unfold best. by rewrite (proj2 (Z.eqb_neq a 0)).
    + destruct (Hidx b) as [? ->]; [done..|]. by rewrite preferKnown_best.
Qed.

Lemma Prefer_unknown t a b : ¬ (known0 t a ∧ known0 t b) → Prefer t a b = Ok None.
Proof.
  unfold Prefer, known0. intros Hn.
  destruct (Z.eqb_spec a 0) as [->|Ha0], (Z.eqb_spec b 0) as [->|Hb0]; try naive_solver.
  - destruct (index t b) eqn:E; [|done]. apply index_known in E. naive_solver.
  - destruct (index t a) eqn:E; [|done]. apply index_known in E. naive_solver.
  - destruct (index t a) eqn:E; [|done]. destruct (index t b) eqn:E'; [|done].
    apply index_known in E, E'. naive_solver.
Qed.

(** Decide the comparisons of [best]. *)
Ltac best_cases :=
  unfold best;
  repeat (match goal with
    | |- context [if ?c then _ else _] =>
      lazymatch c with context [if _ then _ else _] => fail | _ => destruct c eqn:? end
    end; try lia).

Lemma best_known0 t a b : known0 t a → known0 t b → known0 t (best t a b).
Proof. intros. by best_cases. Qed.

Lemma best_comm t a b : best t a b = best t b a.
Proof. best_cases. Qed.

Lemma best_assoc t a b c : best t a (best t b c) = best t (best t a b) c.
Proof. best_cases. Qed.

Lemma best_idemp t a : best t a a = a.
Proof. best_cases. Qed.

Lemma best_either t a b : best t a b = a ∨ best t a b = b.
Proof. best_cases; auto. Qed.

Lemma best_zero t a b : best t a b = 0 ↔ a = 0 ∧ b = 0.
Proof. best_cases. Qed.

Lemma best_upper t a b : a ≠ 0 → best t a b = a ∨ wins t (best t a b) a.
Proof. intros. unfold wins. best_cases. Qed.

(** On absent-or-known outcomes [Prefer] is the join of the precedence order:
    it is commutative, associative and idempotent with the absent outcome as unit,
    it returns one of its arguments, and the result wins over every argument it
    did not choose; an unknown ID yields the not-found result, never a panic. *)
Theorem Prefer_is_join (t : OutcomeTable) (a b c : Z) :
  (known0 t a → known0 t b → known0 t c →
     Prefer t a b = Prefer t b a ∧
     (∃ ab bc, Prefer t a b = Ok (Some ab) ∧ Prefer t b c = Ok (Some bc) ∧ Prefer t ab c = Prefer t a bc ∧
        (ab = a ∨ ab = b) ∧ (a ≠ 0 → ab = a ∨ wins t ab a) ∧ (b ≠ 0 → ab = b ∨ wins t ab b)) ∧
     Prefer t a a = Ok (Some a) ∧ Prefer t a 0 = Ok (Some a)) ∧
  (¬ (known0 t a ∧ known0 t b) → Prefer t a b = Ok None).
Proof.
  split; [|apply Prefer_unknown]. intros Ha Hb Hc. assert (known0 t 0) as H0 by (by left).
  pose proof (best_known0 t a b Ha Hb) as Hab. pose proof (best_known0 t b c Hb Hc) as Hbc.
  split; [by rewrite !Prefer_best, best_comm by done|]. split.
  - exists (best t a b), (best t b c). rewrite !Prefer_best by done. split; [done|]. split; [done|].
    split; [by rewrite best_assoc|]. split; [apply best_either|].
    split; [by apply best_upper|]. rewrite best_comm. by apply best_upper.
  - rewrite !Prefer_best by done. rewrite best_idemp. split; [done|]. do 2 f_equal.
    rewrite best_comm. unfold best. done.
Qed.

End Outcomes.

(** ** Remediations (remediation.go) *)

Definition RemediationSetField : Z := 1.
Definition RemediationAddEvidence : Z := 2.

Record RemediationTable := {
  Kinds : list Z;
  rFields : list Z;
  rValues : list Z;
  rEvidenceKinds : list Z
}.

Record Remediation := { Kind : Z; rField : Z; rValue : Z; rEvidenceKind : Z }.

Module Remediations.

Definition index (t : RemediationTable) (id : Z) : option Z :=
  if id =? 0 then None else
  let i := id - 1 in
  if (i <? 0) || (zlen (Kinds t) <=? i) || (zlen (rFields t) <=? i) || (zlen (rValues t) <=? i)
     || (zlen (rEvidenceKinds t) <=? i)
  then None else Some i.

Definition Lookup (t : RemediationTable) (id : Z) : option Remediation :=
  idx ← index t id;
  Some {| Kind := Kinds t !!! Z.to_nat idx; rField := rFields t !!! Z.to_nat idx;
          rValue := rValues t !!! Z.to_nat idx; rEvidenceKind := rEvidenceKinds t !!! Z.to_nat idx |}.

Definition validRow (t : RemediationTable) (i : nat) : bool :=
  let k := Kinds t !!! i in
  if k =? RemediationSetField then
    negb ((rFields t !!! i =? 0) || (rValues t !!! i =? 0) || negb (rEvidenceKinds t !!! i =? 0))
  else if k =? RemediationAddEvidence then
    negb (negb (rFields t !!! i =? 0) || negb (rValues t !!! i =? 0) || (rEvidenceKinds t !!! i =? 0))
  else false.

Definition valid (t : RemediationTable) : bool :=
  let n := zlen (Kinds t) in
  (zlen (rFields t) =? n) && (zlen (rValues t) =? n) && (zlen (rEvidenceKinds t) =? n) &&
  forallb (validRow t) (seq 0 (length (Kinds t))).

End Remediations.

(** ** Resolution (resolution.go) *)

Record ResolutionTable := {
  OutcomeIDs : list Z;
  ExplanationIDs : list Z;
  RemediationStarts : list Z;
  RemediationCounts : list Z;
  RemediationIDs : list Z
}.

Record Resolver := {
  outcomes : OutcomeTable;
  remediations : RemediationTable;
  rules : ResolutionTable
}.

Record Resolution := {
  Remediations_ : list Z;
  Outcome_ : Z;
  Explanation_ : Z;
  Reason_ : Z;
  Terminal_ : bool
}.

Module Resolve.
Import Outcomes.

Definition NewResolver (outs : OutcomeTable) (rems : RemediationTable) (rs : ResolutionTable) : go Resolver :=
  check (valid outs) ErrInvalidOutcomeTable ;;
  check (Remediations.valid rems) ErrInvalidRemediationTable ;;
  let n := zlen (OutcomeIDs rs) in
  check (negb ((n =? 0) || negb (zlen (ExplanationIDs rs) =? n) || negb (zlen (RemediationStarts rs) =? n)
               || negb (zlen (RemediationCounts rs) =? n))) ErrInvalidResolutionTable ;;
  check (n mod ReasonCount =? 0) ErrInvalidResolutionTable ;;
  check (forallb (λ id, bool_decide (is_Some (Lookup outs id))) (OutcomeIDs rs)) ErrInvalidOutcomeReference ;;
  check (forallb (λ id, negb (id =? 0)) (ExplanationIDs rs)) ErrInvalidExplanationReference ;;
  let edgeLen := zlen (RemediationIDs rs) in
  check (forallb (λ i, negb (edgeLen <? u64 (RemediationStarts rs !!! i + RemediationCounts rs !!! i)))
           (seq 0 (length (OutcomeIDs rs)))) ErrInvalidResolutionTable ;;
  check (forallb (λ id, bool_decide (is_Some (Remediations.Lookup rems id))) (RemediationIDs rs))
    ErrInvalidRemediationReference ;;
  Ok {| outcomes := outs; remediations := rems; rules := rs |}.

(** One iteration of the scan over reason offsets; the state is
    [(current, reason, winRow)]. *)
Definition scan (r : Resolver) (reasons base : Z) (off : nat) (st : Z * Z * Z) : go (Z * Z * Z) :=
  let '(current, reason, winRow) := st in
  if Z.land reasons (bit64 (Z.of_nat off)) =? 0 then Ok st else
  let row := base + Z.of_nat off in
  candidate ← at_ (OutcomeIDs (rules r)) row;
  winner ← preferKnown (outcomes r) current candidate;
  Ok (if winner =? current then st else (winner, Z.of_nat off + 1, row)).

Definition Resolve (r : Resolver) (ruleSet reasons : Z) : go (option Resolution) :=
  require (Valid reasons) "result: invalid reason mask" ;;
  let blocks := zlen (OutcomeIDs (rules r)) / ReasonCount in
  require (negb ((ruleSet =? 0) || (blocks <? ruleSet))) "result: invalid rule set" ;;
  if reasons =? 0 then Ok None else
  let base := (ruleSet - 1) * ReasonCount in
  '(current, reason, winRow) ← for_range 9 (scan r reasons base) (0, 0, base);
  start ← at_ (RemediationStarts (rules r)) winRow;
  count ← at_ (RemediationCounts (rules r)) winRow;
  explanation ← at_ (ExplanationIDs (rules r)) winRow;
  terminal ← at_ (Terminal (outcomes r)) (current - 1);
  edges ← slice_ (RemediationIDs (rules r)) start (start + count);
  Ok (Some {| Remediations_ := edges; Outcome_ := current; Explanation_ := explanation;
              Reason_ := reason; Terminal_ := terminal |}).

(** *** The contract of accepted tables *)

Record resolver_ok (r : Resolver) : Prop := {
  rk_len : zlen (ExplanationIDs (rules r)) = zlen (OutcomeIDs (rules r)) ∧
           zlen (RemediationStarts (rules r)) = zlen (OutcomeIDs (rules r)) ∧
           zlen (RemediationCounts (rules r)) = zlen (OutcomeIDs (rules r));
  rk_blocks : zlen (OutcomeIDs (rules r)) mod ReasonCount = 0;
  rk_outcome i : (i < length (OutcomeIDs (rules r)))%nat → known (outcomes r) (OutcomeIDs (rules r) !!! i);
  rk_explanation i : (i < length (OutcomeIDs (rules r)))%nat → ExplanationIDs (rules r) !!! i ≠ 0;
  rk_edges i : (i < length (OutcomeIDs (rules r)))%nat →
    RemediationStarts (rules r) !!! i + RemediationCounts (rules r) !!! i ≤ zlen (RemediationIDs (rules r));
  rk_remediation id : id ∈ RemediationIDs (rules r) → is_Some (Remediations.Lookup (remediations r) id)
}.

(** The columns hold uint32 and uint16 values. *)
Definition resolver_typed (r : Resolver) : Prop :=
  Forall is_u32 (RemediationStarts (rules r)) ∧ Forall (λ c, 0 ≤ c ≤ MaxUint16) (RemediationCounts (rules r)).

Lemma NewResolver_ok outs rems rs r :
  NewResolver outs rems rs = Ok r →
  Forall is_u32 (RemediationStarts rs) → Forall (λ c, 0 ≤ c ≤ MaxUint16) (RemediationCounts rs) →
  resolver_ok r.
Proof.
  unfold NewResolver. intros Hn Hst Hct.
  apply go_bind_inv in Hn as ([] & _ & Hn). apply go_bind_inv in Hn as ([] & _ & Hn).
  apply go_bind_inv in Hn as ([] & Hlen%check_inv & Hn).
  apply go_bind_inv in Hn as ([] & Hmod%check_inv & Hn).
  apply go_bind_inv in Hn as ([] & Hout%check_inv & Hn).
  apply go_bind_inv in Hn as ([] & Hexp%check_inv & Hn).
  apply go_bind_inv in Hn as ([] & Hedge%check_inv & Hn).
  apply go_bind_inv in Hn as ([] & Hrem%check_inv & Hn). simplify_eq.
  rewrite !negb_true_iff, !orb_false_iff, !negb_false_iff, !Z.eqb_eq in Hlen.
  destruct Hlen as [[[_ ?] ?] ?]. rewrite Z.eqb_eq in Hmod. split; simpl.
  - done.
  - done.
  - intros i Hi. apply Lookup_known.
    pose proof (forallb_lookup_total _ _ i Hout Hi) as Hl. by apply bool_decide_eq_true in Hl.
  - intros i Hi. pose proof (forallb_lookup_total _ _ i Hexp) as Hl.
    rewrite negb_true_iff, Z.eqb_neq in Hl. apply Hl. lia.
  - intros i Hi. pose proof (forallb_seq _ _ i Hedge Hi) as Hl. simpl in Hl.
    rewrite negb_true_iff, Z.ltb_ge in Hl.
    assert (is_u32 (RemediationStarts rs !!! i)) by (apply Forall_lookup_total_1; [done|lia]).
    assert (0 ≤ RemediationCounts rs !!! i ≤ MaxUint16)
      by (apply (Forall_lookup_total_1 (λ c, 0 ≤ c ≤ MaxUint16)); [done|lia]).
    rewrite u64_small in Hl; [done|]. unfold is_u64, is_u32, MaxUint16 in *. lia.
  - intros id Hid. rewrite forallb_forall in Hrem.
    specialize (Hrem id). apply list_elem_of_In in Hid. apply Hrem in Hid. by apply bool_decide_eq_true in Hid.
Qed.

(** What a scanned prefix of [k] reason offsets has selected. *)
Definition scanned (r : Resolver) (reasons base : Z) (k : nat) (st : Z * Z * Z) : Prop :=
  let '(current, reason, winRow) := st in
  let oc o := OutcomeIDs (rules r) !!! Z.to_nat (base + Z.of_nat o) in
  let on o := Z.testbit reasons (Z.of_nat o) = true in
  (current = 0 ∧ reason = 0 ∧ winRow = base ∧ ∀ o, (o < k)%nat → ¬ on o) ∨
  ∃ o, (o < k)%nat ∧ on o ∧ current = oc o ∧ reason = Z.of_nat o + 1 ∧ winRow = base + Z.of_nat o ∧
    current ≠ 0 ∧
    (∀ o', (o' < o)%nat → on o' → oc o' ≠ current) ∧
    (∀ o', (o' < k)%nat → on o' → oc o' = current ∨ wins (outcomes r) current (oc o')).

Lemma wins_trans t a b c : wins t a b → wins t b c → wins t a c.
Proof. unfold wins. lia. Qed.

Lemma scan_step r reasons base k st :
  resolver_ok r → 0 ≤ base → (Z.to_nat base + k < length (OutcomeIDs (rules r)))%nat →
  scanned r reasons base k st →
  ∃ st', scan r reasons base k st = Ok st' ∧ scanned r reasons base (S k) st'.
Proof.
  intros Hok Hb Hk. destruct st as [[current reason] winRow]. unfold scan.
  pose proof (land_bit64_ne0 reasons (Z.of_nat k)) as Hbit. specialize (Hbit ltac:(lia)).
  set (oc o := OutcomeIDs (rules r) !!! Z.to_nat (base + Z.of_nat o)).
  intros Hs. destruct (Z.eqb_spec (Z.land reasons (bit64 (Z.of_nat k))) 0) as [_|_]; simpl in Hbit.
  { eexists; split; [done|]. destruct Hs as [(->&->&->&Hno)|(o&Ho&Hon&->&->&->&Hne&Hfirst&Hall)].
    - left. split_and!; [done..|]. intros o Ho. destruct (decide (o = k)) as [->|]; [congruence|apply Hno; lia].
    - right. exists o. split_and!; try done; [lia|].
      intros o' Ho' Hon'. destruct (decide (o' = k)) as [->|]; [congruence|apply Hall; [lia|done]]. }
  assert (known (outcomes r) (oc k)) as Hkn by (apply (rk_outcome _ Hok); lia).
  rewrite at_total by lia. simpl. fold (oc k).
  assert (known0 (outcomes r) current) as Hc.
  { destruct Hs as [(->&_)|(o&Ho&_&->&_)]; [by left|right]. apply (rk_outcome _ Hok). lia. }
  rewrite preferKnown_best; [|done|by right]. simpl.
  assert (oc k ≠ 0) as Hk0 by (unfold known in Hkn; lia).
  eexists; split; [done|].
  destruct Hs as [(->&->&->&Hno)|(o&Ho&Hon&->&->&->&Hne&Hfirst&Hall)].
  - change (best (outcomes r) 0 (oc k)) with (oc k).
    rewrite (proj2 (Z.eqb_neq _ _) Hk0). right. exists k.
    split_and!; try done; [lia|intros ? ? ?; exfalso; naive_solver|].
    intros o' Ho' Hon'. destruct (decide (o' = k)) as [->|]; [by left|]. exfalso. apply (Hno o'); [lia|done].
  - fold (oc o) in Hne, Hfirst, Hall |- *.
    destruct (Z.eqb_spec (best (outcomes r) (oc o) (oc k)) (oc o)) as [He|He].
    + right. exists o. split_and!; try done; [lia|].
      intros o' Ho' Hon'. destruct (decide (o' = k)) as [->|]; [|apply Hall; [lia|done]].
      destruct (best_upper (outcomes r) (oc k) (oc o) Hk0) as [Hb'|Hb']; rewrite best_comm, He in Hb'; auto.
    + destruct (best_either (outcomes r) (oc o) (oc k)) as [?|Hbe]; [done|].
      assert (wins (outcomes r) (oc k) (oc o)) as Hw.
      { destruct (best_upper (outcomes r) (oc o) (oc k) Hne) as [?|Hw]; congruence. }
      rewrite Hbe in *. right. exists k. split_and!; try done; [lia| |].
      * intros o' Ho' Hon' Heq. destruct (Hall o') as [Hx|Hx]; [lia|done|fold (oc o') in *; congruence|].
        fold (oc o') in Hx, Heq. rewrite Heq in Hx. unfold wins in *. lia.
      * intros o' Ho' Hon'. destruct (decide (o' = k)) as [->|]; [by left|].
        fold (oc o'). destruct (Hall o') as [Hx|Hx]; [lia|done| |];
          fold (oc o') in Hx; [rewrite Hx; by right|right; by eapply wins_trans].
Qed.

(** The resolution row of [reason] in the block of [ruleSet]. *)
Definition ruleRow (ruleSet reason : Z) : nat := Z.to_nat ((ruleSet - 1) * ReasonCount + (reason - 1)).
Definition ruleOutcome (r : Resolver) (ruleSet reason : Z) : Z :=
  OutcomeIDs (rules r) !!! ruleRow ruleSet reason.

(** [reason] is the decisive reason of a mask: its outcome wins over the outcome
    of every other reason present, and no earlier reason present has it. *)
Definition decisive (r : Resolver) (ruleSet reasons reason : Z) : Prop :=
  validReason reason ∧ Has reasons reason = true ∧
  (∀ s, validReason s → Has reasons s = true →
     ruleOutcome r ruleSet s = ruleOutcome r ruleSet reason ∨
     wins (outcomes r) (ruleOutcome r ruleSet reason) (ruleOutcome r ruleSet s)) ∧
  (∀ s, validReason s → s < reason → Has reasons s = true →
     ruleOutcome r ruleSet s ≠ ruleOutcome r ruleSet reason).

(** The row a resolution reports. *)
Definition resolution_of (r : Resolver) (ruleSet reason : Z) : Resolution :=
  let row := ruleRow ruleSet reason in
  {| Remediations_ :=
       csr (RemediationIDs (rules r)) (RemediationStarts (rules r) !!! row) (RemediationCounts (rules r) !!! row);
     Outcome_ := ruleOutcome r ruleSet reason;
     Explanation_ := ExplanationIDs (rules r) !!! row;
     Reason_ := reason;
     Terminal_ := Terminal (outcomes r) !!! Z.to_nat (ruleOutcome r ruleSet reason - 1) |}.

Definition inBlocks (r : Resolver) (ruleSet : Z) : Prop :=
  1 ≤ ruleSet ≤ zlen (OutcomeIDs (rules r)) / ReasonCount.

Lemma scanned_all r reasons base :
  resolver_ok r → 0 ≤ base → (Z.to_nat base + 9 ≤ length (OutcomeIDs (rules r)))%nat →
  ∃ st, for_range 9 (scan r reasons base) (0, 0, base) = Ok st ∧ scanned r reasons base 9 st.
Proof.
  intros Hok Hb Hl. apply (for_range_total (scanned r reasons base)).
  - left. split_and!; [done..|lia].
  - intros i st Hi Hs. apply scan_step; [done|done|lia|done].
Qed.

Lemma testbit_nonzero_mask reasons :
  0 < reasons → Valid reasons = true → ∃ o, (o < 9)%nat ∧ Z.testbit reasons (Z.of_nat o) = true.
Proof.
  intros Hpos Hv. rewrite Valid_spec in Hv by lia. unfold ReasonCount in Hv.
  exists (Z.to_nat (Z.log2 reasons)). pose proof (Z.log2_nonneg reasons).
  assert (Z.log2 reasons < 9) by (apply Z.log2_lt_pow2; lia).
  rewrite Z2Nat.id by lia. split; [lia|]. by apply Z.bit_log2.
Qed.

Lemma Resolve_decides r ruleSet reasons :
  resolver_ok r → resolver_typed r → inBlocks r ruleSet → Valid reasons = true → 0 < reasons →
  ∃ reason, decisive r ruleSet reasons reason ∧
    Resolve r ruleSet reasons = Ok (Some (resolution_of r ruleSet reason)).
Proof.
  intros Hok [Hst Hct] Hin Hv Hpos. unfold inBlocks, ReasonCount in Hin.
  pose proof (Z.div_mod (zlen (OutcomeIDs (rules r))) 9).
  pose proof (rk_blocks _ Hok) as Hmod. unfold ReasonCount in Hmod.
  destruct (rk_len _ Hok) as (Hl1 & Hl2 & Hl3).
  destruct (scanned_all r reasons ((ruleSet - 1) * 9) Hok) as (st & Hfor & Hs); [lia|lia|].
  destruct st as [[current reason] winRow].
  destruct Hs as [(_&_&_&Hno)|(o&Ho&Hon&Hcur&->&->&Hne&Hfirst&Hall)].
  { destruct (testbit_nonzero_mask reasons) as (o & ? & ?); [done..|]. exfalso. by eapply Hno. }
  assert (∀ o, ruleRow ruleSet (Z.of_nat o + 1) = Z.to_nat ((ruleSet - 1) * 9 + Z.of_nat o)) as Hrow.
  { intros. unfold ruleRow, ReasonCount. f_equal. lia. }
  assert (∀ s, validReason s → ∃ o', (o' < 9)%nat ∧ s = Z.of_nat o' + 1) as Hvr.
  { unfold validReason. intros s Hs. exists (Z.to_nat (s - 1)). lia. }
  assert (∀ o', (o' < 9)%nat → Has reasons (Z.of_nat o' + 1) = Z.testbit reasons (Z.of_nat o')) as Hhas.
  { intros. rewrite Has_testbit by (unfold validReason; lia). f_equal. lia. }
  exists (Z.of_nat o + 1). split.
  - unfold decisive, ruleOutcome. rewrite Hrow, <-Hcur. split_and!.
    + unfold validReason. lia.
    + by rewrite Hhas.
    + intros s (o' & Ho' & ->)%Hvr Hhs. rewrite Hhas in Hhs by done. rewrite Hrow.
      destruct (Hall o' Ho' Hhs) as [->| ]; auto.
    + intros s (o' & Ho' & ->)%Hvr Hlt Hhs. rewrite Hhas in Hhs by done. rewrite Hrow.
      apply Hfirst; [lia|done].
  - unfold Resolve. rewrite Hv. simpl. unfold ReasonCount.
    rewrite (proj2 (Z.eqb_neq ruleSet 0)), (proj2 (Z.ltb_ge _ ruleSet)) by lia. simpl.
    rewrite (proj2 (Z.eqb_neq reasons 0)) by lia. rewrite Hfor. simpl.
    assert (known (outcomes r) current) as Hk. { rewrite Hcur. apply (rk_outcome _ Hok). lia. }
    unfold known in Hk. rewrite !at_total by lia. simpl.
    set (row := Z.to_nat ((ruleSet - 1) * 9 + Z.of_nat o)) in *.
    assert (is_u32 (RemediationStarts (rules r) !!! row)) by (apply Forall_lookup_total_1; [done|lia]).
    assert (0 ≤ RemediationCounts (rules r) !!! row ≤ MaxUint16)
      by (apply (Forall_lookup_total_1 (λ c, 0 ≤ c ≤ MaxUint16)); [done|lia]).
    pose proof (rk_edges _ Hok row) as Hedge. unfold is_u32 in *.
    rewrite slice_csr by (lia || (apply Hedge; lia)). simpl.
    unfold resolution_of, ruleOutcome. rewrite Hrow. fold row. by rewrite <-Hcur.
Qed.

Lemma Resolve_empty r ruleSet : inBlocks r ruleSet → Resolve r ruleSet 0 = Ok None.
Proof.
  unfold inBlocks, Resolve. intros Hin. simpl.
  by rewrite (proj2 (Z.eqb_neq ruleSet 0)), (proj2 (Z.ltb_ge _ ruleSet)) by lia.
Qed.

(** A resolver that [NewResolver] accepts answers every query on its rule sets:
    an empty mask resolves to nothing, and a non-empty valid mask to the row of its
    decisive reason, whose outcome wins over those of the other reasons present. *)
Theorem Resolve_decisive_row outs rems rs r (ruleSet reasons : Z) :
  NewResolver outs rems rs = Ok r →
  Forall is_u32 (RemediationStarts rs) → Forall (λ c, 0 ≤ c ≤ MaxUint16) (RemediationCounts rs) →
  1 ≤ ruleSet ≤ zlen (OutcomeIDs rs) / ReasonCount → 0 ≤ reasons → Valid reasons = true →
  Resolve r ruleSet 0 = Ok None ∧
  (reasons ≠ 0 → ∃ reason, decisive r ruleSet reasons reason ∧
     Resolve r ruleSet reasons = Ok (Some (resolution_of r ruleSet reason))).
Proof.
  intros Hnew Hs Hc Hin H0 Hv. pose proof (NewResolver_ok _ _ _ _ Hnew Hs Hc) as Hok.
  assert (rules r = rs) as Er.
  { unfold NewResolver, check in Hnew. by repeat case_match; simplify_eq/=. }
  assert (inBlocks r ruleSet) by (unfold inBlocks; by rewrite Er).
  split; [by apply Resolve_empty|]. intros Hne. apply Resolve_decides; try done; [|lia].
  unfold resolver_typed. by rewrite Er.
Qed.

End Resolve.
