(* ===== verification/Program.v ===== *)
(** * Packages [internal/program] and [internal/index]: the compiled policy

    The frozen struct-of-arrays Program (program.go, instruction.go), grouped by
    the column families of the source, and the index tables it carries
    (index/schema.go, index/policy.go, index/batch.go). *)

From S2P Require Import Prelude Store Truth Schema Result.

(** ** Opcodes and root flags (instruction.go) *)

Definition OpcodeInvalid : Z := 0.
Definition OpcodeEqual : Z := 1.
Definition OpcodeNotEqual : Z := 2.
Definition OpcodeIn : Z := 3.
Definition OpcodeExists : Z := 4.
Definition OpcodeLess : Z := 5.
Definition OpcodeLessEqual : Z := 6.
Definition OpcodeGreater : Z := 7.
Definition OpcodeGreaterEqual : Z := 8.
Definition OpcodeEvidence : Z := 9.
Definition OpcodeAll : Z := 10.
Definition OpcodeAny : Z := 11.
Definition OpcodeNot : Z := 12.
Definition OpcodeBoolean : Z := 13.
Definition OpcodeDefined : Z := 14.

Definition OpcodeValid (op : Z) : bool := (OpcodeEqual <=? op) && (op <=? OpcodeDefined).
Definition IsGroup (op : Z) : bool := (op =? OpcodeAll) || (op =? OpcodeAny).

Definition RootApplicability : Z := 1.
Definition RootAssertion : Z := 2.
Definition RootEvidence : Z := 4.
Definition RootHas (f flag : Z) : bool := Z.land f flag =? flag.

(** ** Index tables *)

(** index.Schema: kind and kind-local column of each field, and column counts per kind. *)
Record IndexSchema := { sKinds : list Z; sColumns : list Z; sCounts : list Z }.

(** index.Policy: sorted selector values with candidate masks. *)
Record Policy := {
  pFieldIDs : list Z;
  FieldValueStarts : list Z;
  FieldValueCounts : list Z;
  WildcardMasks : list Z;
  pValues : list Z;
  ValueMasks : list Z;
  AllMask : list Z;
  RequirementCount : Z;
  pWordCount : Z
}.

(** index.FactSpec: reused symbol fields and their sorted values. *)
Record FactSpec := {
  fFieldIDs : list Z;
  fColumns : list Z;
  ValueStarts : list Z;
  ValueCounts : list Z;
  UseCounts : list Z;
  fValues : list Z
}.

(** Schema.Lookup: kind and zero-based column of a field. *)
Definition SchemaLookup (s : IndexSchema) (field : Z) : option (Z * Z) :=
  if field =? 0 then None else
  let row := field - 1 in
  if (zlen (sKinds s) <=? row) || (zlen (sColumns s) <=? row) then None
  else Some (sKinds s !!! Z.to_nat row, sColumns s !!! Z.to_nat row).

(** ** The Program record (program.go) *)

Record InstructionColumns := {
  Opcodes : list Z;
  Fields : list Z;
  Values : list Z;
  ListStarts : list Z;
  ListCounts : list Z;
  OperandStarts : list Z;
  OperandCounts : list Z;
  EvidenceKinds : list Z;
  EvidenceStates : list Z;
  EvidenceSubjects : list Z;
  EvidenceScopes : list Z;
  EvidenceTimings : list Z;
  RootFlags : list Z;
  InstructionNodes : list Z;
  InstructionSourceStarts : list Z;
  InstructionSourceEnds : list Z;
  ListValues : list Z;
  Operands : list Z;
  NodeInstructionStarts : list Z;
  NodeInstructionCounts : list Z;
  NodeInstructionIDs : list Z;
  OpcodeRunOpcodes : list Z;
  OpcodeRunStarts : list Z;
  OpcodeRunCounts : list Z
}.

Record SlotColumns := {
  TruthSlots : list Z;
  ReasonSlots : list Z;
  TruthSlotCount : Z;
  ReasonSlotCount : Z
}.

Record SymbolColumns := {
  SymbolBytes : list Z;
  SymbolStarts : list Z;
  SymbolLengths : list Z;
  SymbolHashes : list Z;
  SymbolIDs : list Z;
  ProgramSymbolCount : Z
}.

Record ValueColumns := {
  ValueKinds : list Z;
  ValueRefs : list Z;
  IntegerValues : list Z;
  BooleanValues : list Z;
  TimestampValues : list Z
}.

Record ExplanationTable := {
  RationaleTemplateIDs : list Z;
  UncertaintyStarts : list Z;
  UncertaintyCounts : list Z;
  UncertaintyTemplateIDs : list Z;
  AssumptionTemplateIDs : list Z
}.

Record SemanticColumns := {
  EvidenceKindNames : list Z;
  EvidenceStateNames : list Z;
  RequirementIDs : list Z;
  RequirementRoots : list Z;
  RequirementSourceNodeIDs : list Z;
  RequirementClauseStarts : list Z;
  RequirementClauseCounts : list Z;
  RequirementClauseIDs : list Z;
  ClauseAssertionRoots : list Z;
  ClauseAssertionSourceNodeIDs : list Z;
  ClauseEvidenceStarts : list Z;
  ClauseEvidenceCounts : list Z;
  ClauseEvidenceIDs : list Z;
  ClauseEvidenceSourceNodeIDs : list Z;
  ClauseOnSatisfied : list Z;
  ClauseOnFalse : list Z;
  ClauseExplanationIDs : list Z;
  ClauseRemediationStarts : list Z;
  ClauseRemediationCounts : list Z;
  ClauseRemediationIDs : list Z
}.

Record Program := {
  instr :> InstructionColumns;
  slots :> SlotColumns;
  symbols :> SymbolColumns;
  values :> ValueColumns;
  semantics :> SemanticColumns;
  Explanations : ExplanationTable;
  Outcomes_ : OutcomeTable;
  RemediationRows : RemediationTable;
  Resolutions : ResolutionTable;
  resolver : Resolver;
  ApplicabilityIndex : Policy;
  FactIndexSpec : FactSpec;
  FieldIndex : IndexSchema;
  FieldKinds : list Z
}.

Definition InstructionCount (p : Program) : Z := zlen (Opcodes p).

(** ** Symbols *)

Definition bytes_eqb (a b : list Z) : bool := bool_decide (a = b).

(** Program.Symbol: the frozen bytes of a symbol, [None] for an invalid ID or range. *)
Definition Symbol (p : SymbolColumns) (id : Z) : option (list Z) :=
  if id =? 0 then None else
  let i := id - 1 in
  if (zlen (SymbolStarts p) <=? i) || (zlen (SymbolLengths p) <=? i) then None else
  let start := SymbolStarts p !!! Z.to_nat i in
  let length_ := SymbolLengths p !!! Z.to_nat i in
  if zlen (SymbolBytes p) <? u64 (start + length_) then None
  else Some (csr (SymbolBytes p) start length_).

Definition ValueKindOf (p : ValueColumns) (id : Z) : option Z :=
  if id =? 0 then None else
  let i := id - 1 in
  if (zlen (ValueKinds p) <=? i) || (zlen (ValueRefs p) <=? i) then None
  else Some (ValueKinds p !!! Z.to_nat i).

(** ** Explanations (result/explanation_table.go) *)

Definition MaxUncertaintyTemplates : Z := 8.

Definition ExplanationLookup (t : ExplanationTable) (id : Z) : option (list Z * Z) :=
  if id =? 0 then None else
  let row := id - 1 in
  if (zlen (RationaleTemplateIDs t) <=? row) || (zlen (UncertaintyStarts t) <=? row)
     || (zlen (UncertaintyCounts t) <=? row) then None else
  let rationale := RationaleTemplateIDs t !!! Z.to_nat row in
  let start := UncertaintyStarts t !!! Z.to_nat row in
  let count := UncertaintyCounts t !!! Z.to_nat row in
  let end_ := u64 (start + count) in
  if (rationale =? 0) || (MaxUncertaintyTemplates <? count) || (zlen (UncertaintyTemplateIDs t) <? end_) then None else
  if existsb (λ x, x =? 0) (csr (UncertaintyTemplateIDs t) start count) then None
  else Some (csr (UncertaintyTemplateIDs t) start count, rationale).
