(* ===== verification/Batch.v ===== *)
(** * Package [internal/eval]: request batches

    batch.go and evidence.go: the column-major request facts with their
    presence bitmaps, the CSR evidence references, and the bounds-checked
    accessors.  A batch may be a 64-aligned row range of a larger source
    ([rowBase]/[rowStride]). *)

From S2P Require Import Prelude Store Truth Schema.

Record EvidenceBatch := {
  eIDs : list Z; eKinds : list Z; eStates : list Z; eSubjects : list Z;
  eScopes : list Z; eReviewers : list Z; eTimings : list Z; eTimestamps : list Z
}.

Record Batch := {
  SymbolValues : list Z;
  bIntegerValues : list Z;
  bTimestampValues : list Z;
  bBooleanValues : list Z;
  PresenceMasks : list Z;
  RequestIDs : list Z;
  EvidenceOffsets : list Z;
  EvidenceRefs : list Z;
  Evidence : EvidenceBatch;
  Rows : Z;
  rowBase : Z;
  rowStride : Z
}.

Definition sourceRows (b : Batch) : Z := if rowStride b =? 0 then Rows b else rowStride b.
Definition sourceWords (b : Batch) : Z := u32 (Z.shiftr (u64 (sourceRows b + 63)) 6).
Definition wordBase (b : Batch) : Z := Z.shiftr (rowBase b) 6.
Definition BatchWordCount (b : Batch) : Z := u32 (Z.shiftr (u64 (Rows b + 63)) 6).

Definition validPhysicalRange (b : Batch) : bool :=
  if negb (Z.land (rowBase b) 63 =? 0) || ((rowStride b =? 0) && negb (rowBase b =? 0)) then false
  else u64 (rowBase b + Rows b) <=? sourceRows b.

Definition batchRowColumn {A} (b : Batch) (vs : list A) (column : Z) : go (list A) :=
  let start := u64 (column * sourceRows b + rowBase b) in
  let end_ := u64 (start + Rows b) in
  require (negb ((end_ <? start) || (zlen vs <? end_))) "eval: invalid batch row column" ;;
  slice_ vs start end_.

Definition batchWordColumn (b : Batch) (vs : list Z) (column : Z) : go (list Z) :=
  let start := u64 (column * sourceWords b + wordBase b) in
  let end_ := u64 (start + BatchWordCount b) in
  require (negb ((end_ <? start) || (zlen vs <? end_))) "eval: invalid batch word column" ;;
  slice_ vs start end_.

Definition wordBit (vs : list Z) (word row : Z) : bool :=
  if zlen vs <=? word then false
  else negb (Z.land (vs !!! Z.to_nat word) (bit64 (Z.land row 63)) =? 0).

Definition Present (b : Batch) (field row : Z) : bool :=
  if (field =? 0) || (Rows b <=? row) || negb (validPhysicalRange b) then false
  else wordBit (PresenceMasks b)
         (u64 ((field - 1) * sourceWords b + wordBase b + Z.shiftr row 6)) row.

Definition rowValue (b : Batch) (vs : list Z) (column row : Z) : option Z :=
  if (Rows b <=? row) || negb (validPhysicalRange b) then None else
  let index := u64 (column * sourceRows b + rowBase b + row) in
  if zlen vs <=? index then None else Some (vs !!! Z.to_nat index).

Definition SymbolAt (b : Batch) : Z → Z → option Z := rowValue b (SymbolValues b).
Definition IntegerAt (b : Batch) : Z → Z → option Z := rowValue b (bIntegerValues b).
Definition TimestampAt (b : Batch) : Z → Z → option Z := rowValue b (bTimestampValues b).

Definition BooleanAt (b : Batch) (column row : Z) : bool :=
  if (Rows b <=? row) || negb (validPhysicalRange b) then false
  else wordBit (bBooleanValues b) (u64 (column * sourceWords b + wordBase b + Z.shiftr row 6)) row.

Definition EvidenceRange (b : Batch) (row : Z) : option (Z * Z) :=
  if (Rows b <=? row) || (zlen (EvidenceOffsets b) <=? u64 (row + 1)) then None else
  let start := EvidenceOffsets b !!! Z.to_nat row in
  let end_ := EvidenceOffsets b !!! Z.to_nat (row + 1) in
  if (end_ <? start) || (zlen (EvidenceRefs b) <? end_) then None else Some (start, end_).

(** ** Typing and shape *)

(** The scalar columns are uint32 values and the slabs are addressable. *)
Record batch_typed (b : Batch) : Prop := {
  bt_rows : is_u32 (Rows b);
  bt_base : is_u32 (rowBase b);
  bt_stride : is_u32 (rowStride b)
}.

Definition rowsN (b : Batch) : nat := Z.to_nat (Rows b).

Lemma sourceRows_u32 b : batch_typed b → is_u32 (sourceRows b).
Proof. intros []. unfold sourceRows. by destruct (_ =? _). Qed.

Lemma words_u32 n : is_u32 n → u32 (Z.shiftr (u64 (n + 63)) 6) = WordCount n.
Proof.
  intros Hn. unfold WordCount. apply u32_small.
  pose proof (WordCount_bounds n Hn) as (? & ? & ?). unfold WordCount, is_u32 in *. lia.
Qed.

Lemma sourceWords_eq b : batch_typed b → sourceWords b = WordCount (sourceRows b).
Proof. intros. by apply words_u32, sourceRows_u32. Qed.

Lemma BatchWordCount_eq b : batch_typed b → BatchWordCount b = WordCount (Rows b).
Proof. intros []. by apply words_u32. Qed.

Lemma validPhysicalRange_inv b :
  batch_typed b → validPhysicalRange b = true →
  rowBase b mod 64 = 0 ∧ (rowStride b = 0 → rowBase b = 0) ∧ rowBase b + Rows b ≤ sourceRows b.
Proof.
  intros [Hr Hb Hs]. unfold validPhysicalRange. rewrite land_63.
  destruct (Z.eqb_spec (rowBase b mod 64) 0), (Z.eqb_spec (rowStride b) 0), (Z.eqb_spec (rowBase b) 0);
    simpl; try done; rewrite Z.leb_le, u64_small by (unfold is_u32, is_u64 in *; lia); lia.
Qed.

(** The word window of a valid range lies inside the source's words. *)
Lemma word_window b :
  batch_typed b → validPhysicalRange b = true →
  0 ≤ wordBase b ∧ rowBase b = 64 * wordBase b ∧ wordBase b + WordCount (Rows b) ≤ WordCount (sourceRows b).
Proof.
  intros Hbt Hv. destruct (validPhysicalRange_inv b Hbt Hv) as (Hm & _ & Hle).
  pose proof (sourceRows_u32 b Hbt) as Hs. destruct Hbt as [Hr Hb _].
  unfold wordBase. rewrite Z.shiftr_div_pow2 by lia. change (2 ^ 6) with 64.
  pose proof (Z.div_mod (rowBase b) 64).
  rewrite !WordCount_eq by done. unfold is_u32 in *.
  assert (0 ≤ rowBase b / 64) by (apply Z.div_pos; lia).
  split; [done|]. split; [lia|].
  replace ((rowBase b) / 64 + (Rows b + 63) / 64) with ((rowBase b + Rows b + 63) / 64).
  - apply Z.div_le_mono; lia.
  - replace (rowBase b + Rows b + 63) with ((rowBase b / 64) * 64 + (Rows b + 63)) by lia.
    by rewrite Z.div_add_l.
Qed.

Lemma batchRowColumn_Ok {A} b (vs : list A) column columns :
  batch_typed b → validPhysicalRange b = true →
  0 ≤ column < columns → columns < 2 ^ 32 → zlen vs = columns * sourceRows b →
  batchRowColumn b vs column = Ok (csr vs (column * sourceRows b + rowBase b) (Rows b)).
Proof.
  intros Hbt Hv Hc Hcs Hlen. destruct (validPhysicalRange_inv b Hbt Hv) as (_ & _ & Hle).
  pose proof (sourceRows_u32 b Hbt) as Hs. destruct Hbt as [Hr Hb _].
  unfold is_u32 in *. unfold batchRowColumn.
  assert (column * sourceRows b + sourceRows b ≤ columns * sourceRows b) by nia.
  assert (0 ≤ column * sourceRows b) by nia.
  assert (columns * sourceRows b ≤ (2 ^ 32 - 1) * (2 ^ 32 - 1)) by nia.
  rewrite !u64_small by (unfold is_u64; rewrite ?u64_small by (unfold is_u64; lia); lia).
  rewrite (proj2 (Z.ltb_ge _ _)), (proj2 (Z.ltb_ge _ _)) by lia. simpl.
  apply slice_csr; lia.
Qed.

Lemma batchWordColumn_Ok b vs column columns :
  batch_typed b → validPhysicalRange b = true →
  0 ≤ column < columns → columns < 2 ^ 32 → zlen vs = columns * sourceWords b →
  batchWordColumn b vs column = Ok (csr vs (column * sourceWords b + wordBase b) (WordCount (Rows b))).
Proof.
  intros Hbt Hv Hc Hcs Hlen. destruct (word_window b Hbt Hv) as (H0 & _ & Hle).
  unfold batchWordColumn. rewrite BatchWordCount_eq by done.
  rewrite <-sourceWords_eq in Hle by done.
  assert (is_u32 (sourceWords b)) as Hs by (apply Z.mod_pos_bound; lia).
  destruct (WordCount_bounds (Rows b)) as (? & _); [by destruct Hbt|].
  unfold is_u32 in *.
  assert (column * sourceWords b + sourceWords b ≤ columns * sourceWords b) by nia.
  assert (0 ≤ column * sourceWords b) by nia.
  assert (columns * sourceWords b ≤ (2 ^ 32 - 1) * (2 ^ 32 - 1)) by nia.
  rewrite !u64_small by (unfold is_u64; rewrite ?u64_small by (unfold is_u64; lia); lia).
  rewrite (proj2 (Z.ltb_ge _ _)), (proj2 (Z.ltb_ge _ _)) by lia. simpl.
  apply slice_csr; lia.
Qed.
