(* ===== verification/Predicate.v ===== *)
(** * Package [internal/eval]: scalar predicate leaves

    scalar.go and predicate.go.  A leaf resets its destination planes and fills
    them from batch columns only, so it is modelled as computing the words it
    leaves in the destination ([LeafOut]); the destination slices are arguments
    for the shape check.  [predicateRow] is the row-wise reference. *)

From S2P Require Import Prelude Store Truth Schema Result Program Batch.
Import Reason.

(** ** Leaf outputs (scalar.go) *)

(** The words a leaf leaves in its positive, negative and reason planes. *)
Record LeafOut := { lPositive : list Z; lNegative : list Z; lReasons : list Z }.

Definition resetLeafOutputs (dst : Planes) (reasons : slice) (rows : Z) : go Z :=
  let words := WordCount rows in
  require ((Z.of_nat (len (Positive dst)) =? words) && (Z.of_nat (len (Negative dst)) =? words)
           && (Z.of_nat (len reasons) =? ReasonCount * words)) "eval: invalid leaf output shape" ;;
  Ok words.

Definition leafWordMask (word words rows : Z) : Z :=
  if negb (word + 1 =? words) || (Z.land rows 63 =? 0) then MaxUint64
  else bit64 (Z.land rows 63) - 1.

(** [p.Words[(reason-1)*words : reason*words]]. *)
Definition reasonPlane (reasonWords : list Z) (reason words : Z) : list Z :=
  csr reasonWords ((reason - 1) * words) words.

(** ** Literal values (predicate.go) *)

Record predicateValue := { integer : Z; timestamp : Z; symbol : Z; boolean : bool }.
Definition zeroValue : predicateValue := {| integer := 0; timestamp := 0; symbol := 0; boolean := false |}.

Definition programPredicateValue (p : Program) (id want : Z) : go predicateValue :=
  require (negb (id =? 0)) "eval: invalid predicate value" ;;
  let row := id - 1 in
  require (negb ((zlen (ValueKinds p) <=? row) || (zlen (ValueRefs p) <=? row)
                 || negb (ValueKinds p !!! Z.to_nat row =? want))) "eval: invalid predicate value" ;;
  ref ← at_ (ValueRefs p) row;
  require (negb (ref =? 0)) "eval: invalid predicate value" ;;
  if want =? ValueKindSymbol then
    require (negb (ProgramSymbolCount p <? ref)) "eval: invalid predicate value" ;;
    match Symbol p ref with
    | None => Panic "eval: invalid predicate value"
    | Some _ => Ok {| integer := 0; timestamp := 0; symbol := ref; boolean := false |}
    end
  else if want =? ValueKindInteger then
    require (negb (zlen (IntegerValues p) <=? ref - 1)) "eval: invalid predicate value" ;;
    v ← at_ (IntegerValues p) (ref - 1);
    Ok {| integer := v; timestamp := 0; symbol := 0; boolean := false |}
  else if want =? ValueKindBoolean then
    require (negb ((zlen (BooleanValues p) <=? ref - 1) || (1 <? BooleanValues p !!! Z.to_nat (ref - 1))))
      "eval: invalid predicate value" ;;
    v ← at_ (BooleanValues p) (ref - 1);
    Ok {| integer := 0; timestamp := 0; symbol := 0; boolean := negb (v =? 0) |}
  else if want =? ValueKindTimestamp then
    require (negb (zlen (TimestampValues p) <=? ref - 1)) "eval: invalid predicate value" ;;
    v ← at_ (TimestampValues p) (ref - 1);
    Ok {| integer := 0; timestamp := v; symbol := 0; boolean := false |}
  else Panic "eval: invalid predicate value kind".

Definition requireColumnLength (length_ columns width : Z) : go unit :=
  require (length_ =? u64 (columns * width)) "eval: invalid batch column".

Definition orderedPredicate (opcode : Z) : bool := (OpcodeLess <=? opcode) && (opcode <=? OpcodeGreaterEqual).

Definition compareInt64 (opcode left right : Z) : go bool :=
  if opcode =? OpcodeEqual then Ok (left =? right)
  else if opcode =? OpcodeNotEqual then Ok (negb (left =? right))
  else if opcode =? OpcodeLess then Ok (left <? right)
  else if opcode =? OpcodeLessEqual then Ok (left <=? right)
  else if opcode =? OpcodeGreater then Ok (right <? left)
  else if opcode =? OpcodeGreaterEqual then Ok (right <=? left)
  else Panic "eval: invalid ordered predicate".

(** [compareInt64] where it returns; its callers pass only the six comparisons. *)
Definition compareHolds (opcode left right : Z) : bool :=
  match compareInt64 opcode left right with Ok b => b | _ => false end.

(** [fillInMatches]: one pass over the column per literal, OR-ing matching rows into [dst]. *)
Definition fillInMatches (dst : list Z) (batch : Batch) (p : Program) (kind column start count : Z) : go (list Z) :=
  fold_go (λ i dst,
    vid ← at_ (ListValues p) (start + Z.of_nat i);
    value ← programPredicateValue p vid kind;
    if kind =? ValueKindSymbol then
      vs ← batchRowColumn batch (SymbolValues batch) column;
      Ok (setRows (λ request, vs !!! request =? symbol value) (length vs) dst)
    else if kind =? ValueKindInteger then
      vs ← batchRowColumn batch (bIntegerValues batch) column;
      Ok (setRows (λ request, vs !!! request =? integer value) (length vs) dst)
    else if kind =? ValueKindBoolean then
      vs ← batchWordColumn batch (bBooleanValues batch) column;
      Ok (zip_with (λ d got, Z.lor d (if boolean value then got else not64 got)) dst vs)
    else if kind =? ValueKindTimestamp then
      vs ← batchRowColumn batch (bTimestampValues batch) column;
      Ok (setRows (λ request, vs !!! request =? timestamp value) (length vs) dst)
    else Panic "eval: invalid in predicate kind")
  (seq 0 (Z.to_nat count)) dst.

(** The rows [start .. min(start+64, Rows)) of one word, gathered by a comparison. *)
Definition gatherRows (batch : Batch) (word : nat) (c : nat → bool) : Z :=
  let start := 64 * Z.of_nat word in
  let end_ := Z.min (start + 64) (Rows batch) in
  gatherWord c (Z.to_nat start) (Z.to_nat (end_ - start)).

(** The [matches] word of a non-[In] comparison. *)
Definition matchWord (batch : Batch) (opcode kind column : Z) (value : predicateValue) (word : nat) : go Z :=
  if kind =? ValueKindSymbol then
    vs ← batchRowColumn batch (SymbolValues batch) column;
    Ok (gatherRows batch word (λ r, Bool.eqb (vs !!! r =? symbol value) (opcode =? OpcodeEqual)))
  else if kind =? ValueKindInteger then
    vs ← batchRowColumn batch (bIntegerValues batch) column;
    Ok (gatherRows batch word (λ r, compareHolds opcode (vs !!! r) (integer value)))
  else if kind =? ValueKindBoolean then
    vs ← batchWordColumn batch (bBooleanValues batch) column;
    w ← at_ vs (Z.of_nat word);
    let w := if boolean value then w else not64 w in
    Ok (if opcode =? OpcodeNotEqual then not64 w else w)
  else if kind =? ValueKindTimestamp then
    vs ← batchRowColumn batch (bTimestampValues batch) column;
    Ok (gatherRows batch word (λ r, compareHolds opcode (vs !!! r) (timestamp value)))
  else Ok 0.

(** One iteration of the word loop: [(positive, negative, missing)]. *)
Definition predicateWord (batch : Batch) (opcode kind column : Z) (value : predicateValue)
    (presence inMatches : list Z) (words : Z) (word : nat) : go (Z * Z * Z) :=
  let valid := leafWordMask (Z.of_nat word) words (Rows batch) in
  pw ← at_ presence (Z.of_nat word);
  let present := Z.land pw valid in
  if opcode =? OpcodeDefined then Ok (present, Z.ldiff valid present, 0) else
  let missing := Z.ldiff valid present in
  if opcode =? OpcodeExists then Ok (present, 0, missing) else
  matches ← (if opcode =? OpcodeIn then at_ inMatches (Z.of_nat word)
             else matchWord batch opcode kind column value word);
  Ok (Z.land present matches, Z.ldiff present matches, missing).

(** The planes left by a leaf that writes only the [ReasonMissing] plane. *)
Definition leafOutOf (words : Z) (ws : list (Z * Z * Z)) : LeafOut :=
  {| lPositive := map (λ w, w.1.1) ws; lNegative := map (λ w, w.1.2) ws;
     lReasons := map snd ws ++ make_ ((ReasonCount - 1) * words) |}.

(** The literal operands: [(value, listStart, listCount)], decoded and checked. *)
Definition predicateOperands (p : Program) (opcode kind row : Z) : go (predicateValue * Z * Z) :=
  if (opcode =? OpcodeExists) || (opcode =? OpcodeDefined) then
    vid ← at_ (Values p) row;
    require (vid =? 0) "eval: invalid value-free predicate value" ;;
    Ok (zeroValue, 0, 0)
  else if opcode =? OpcodeIn then
    vid ← at_ (Values p) row;
    require (negb (negb (vid =? 0) || (zlen (ListStarts p) <=? row) || (zlen (ListCounts p) <=? row)))
      "eval: invalid in predicate" ;;
    listStart ← at_ (ListStarts p) row;
    listCount ← at_ (ListCounts p) row;
    require (negb (zlen (ListValues p) <? u64 (listStart + listCount))) "eval: invalid in predicate" ;;
    _ ← map_go (λ i, vid ← at_ (ListValues p) (listStart + Z.of_nat i); programPredicateValue p vid kind)
          (seq 0 (Z.to_nat listCount));
    Ok (zeroValue, listStart, listCount)
  else
    vid ← at_ (Values p) row;
    value ← programPredicateValue p vid kind;
    Ok (value, 0, 0).

(** The batch column a comparison reads has the width its kind requires. *)
Definition requireKindColumn (p : Program) (batch : Batch) (kind : Z) : go unit :=
  count ← at_ (sCounts (FieldIndex p)) kind;
  if kind =? ValueKindSymbol then requireColumnLength (zlen (SymbolValues batch)) count (sourceRows batch)
  else if kind =? ValueKindInteger then requireColumnLength (zlen (bIntegerValues batch)) count (sourceRows batch)
  else if kind =? ValueKindBoolean then requireColumnLength (zlen (bBooleanValues batch)) count (sourceWords batch)
  else if kind =? ValueKindTimestamp then requireColumnLength (zlen (bTimestampValues batch)) count (sourceRows batch)
  else Ok tt.

(** The field of a predicate: kind and column, both checked. *)
Definition predicateField (p : Program) (field : Z) : go (Z * Z) :=
  match SchemaLookup (FieldIndex p) field with
  | None => Panic "eval: invalid predicate field"
  | Some (kind, column) =>
    require (KindValid kind) "eval: invalid predicate field" ;;
    count ← at_ (sCounts (FieldIndex p)) kind;
    require (column <? count) "eval: invalid predicate column" ;;
    Ok (kind, column)
  end.

Definition evalPredicate (dst : Planes) (reasons : slice) (batch : Batch) (p : Program) (instruction : Z) : go LeafOut :=
  require (negb (instruction =? 0)) "eval: invalid predicate instruction" ;;
  let row := instruction - 1 in
  require (negb ((zlen (Opcodes p) <=? row) || (zlen (Fields p) <=? row) || (zlen (Values p) <=? row)))
    "eval: invalid predicate instruction" ;;
  opcode ← at_ (Opcodes p) row;
  require (negb (((opcode <? OpcodeEqual) || (OpcodeGreaterEqual <? opcode)) && negb (opcode =? OpcodeDefined)))
    "eval: unsupported predicate opcode" ;;
  field ← at_ (Fields p) row;
  '(kind, column) ← predicateField p field;
  let words := WordCount (Rows batch) in
  requireColumnLength (zlen (PresenceMasks batch)) (u32 (zlen (sKinds (FieldIndex p)))) (sourceWords batch) ;;
  '(value, listStart, listCount) ← predicateOperands p opcode kind row;
  require (negb ((kind =? ValueKindPresence) && negb (opcode =? OpcodeExists) && negb (opcode =? OpcodeDefined)))
    "eval: presence field requires exists or defined" ;;
  require (negb (orderedPredicate opcode && negb (kind =? ValueKindInteger) && negb (kind =? ValueKindTimestamp)))
    "eval: ordered predicate requires numeric field" ;;
  (if negb (opcode =? OpcodeDefined) then requireKindColumn p batch kind else Ok tt) ;;
  _ ← resetLeafOutputs dst reasons (Rows batch);
  presence ← batchWordColumn batch (PresenceMasks batch) (u32 (field - 1));
  inMatches ← (if opcode =? OpcodeIn then fillInMatches (make_ words) batch p kind column listStart listCount
               else Ok (make_ words));
  ws ← map_go (predicateWord batch opcode kind column value presence inMatches words) (seq 0 (Z.to_nat words));
  Ok (leafOutOf words ws).

(** ** Batch shape (executor.go) *)

Definition validExecutionColumnLength (length_ columns stride : Z) : bool :=
  ((columns =? 0) || (stride <=? MaxUint64 / columns)) && (length_ =? u64 (columns * stride)).

Definition validExecutionBatchColumns (p : Program) (batch : Batch) : bool :=
  if negb (validPhysicalRange batch) then false else
  let words := sourceWords batch in
  let rows := sourceRows batch in
  let counts := sCounts (FieldIndex p) in
  validExecutionColumnLength (zlen (PresenceMasks batch)) (zlen (sKinds (FieldIndex p))) words &&
  validExecutionColumnLength (zlen (SymbolValues batch)) (counts !!! 1%nat) rows &&
  validExecutionColumnLength (zlen (bIntegerValues batch)) (counts !!! 2%nat) rows &&
  validExecutionColumnLength (zlen (bTimestampValues batch)) (counts !!! 4%nat) rows &&
  validExecutionColumnLength (zlen (bBooleanValues batch)) (counts !!! 3%nat) words.

(** ** Row-wise reference *)

Definition valueOf (p : Program) (vid kind : Z) : predicateValue :=
  match programPredicateValue p vid kind with Ok v => v | _ => zeroValue end.

(** The value and the bit of one logical row of a kind-local column. *)
Definition colValue (b : Batch) (vs : list Z) (column : Z) (r : nat) : Z :=
  vs !!! Z.to_nat (column * sourceRows b + rowBase b + Z.of_nat r).
Definition colBit (b : Batch) (vs : list Z) (column : Z) (r : nat) : bool :=
  Z.testbit (vs !!! Z.to_nat (column * sourceWords b + wordBase b + Z.of_nat (r `div` 64))) (Z.of_nat (r `mod` 64)).

(** Row [r] of the column equals the literal. *)
Definition literalMatches (b : Batch) (kind column : Z) (value : predicateValue) (r : nat) : bool :=
  if kind =? ValueKindSymbol then colValue b (SymbolValues b) column r =? symbol value
  else if kind =? ValueKindInteger then colValue b (bIntegerValues b) column r =? integer value
  else if kind =? ValueKindBoolean then Bool.eqb (colBit b (bBooleanValues b) column r) (boolean value)
  else if kind =? ValueKindTimestamp then colValue b (bTimestampValues b) column r =? timestamp value
  else false.

(** Row [r] of the column stands in the comparison to the literal. *)
Definition comparisonMatches (b : Batch) (opcode kind column : Z) (value : predicateValue) (r : nat) : bool :=
  if kind =? ValueKindInteger then compareHolds opcode (colValue b (bIntegerValues b) column r) (integer value)
  else if kind =? ValueKindTimestamp then compareHolds opcode (colValue b (bTimestampValues b) column r) (timestamp value)
  else if opcode =? OpcodeNotEqual then negb (literalMatches b kind column value r)
  else literalMatches b kind column value r.

Definition inLiterals (p : Program) (row : nat) : list Z :=
  csr (ListValues p) (ListStarts p !!! row) (ListCounts p !!! row).

Definition predicateMatches (p : Program) (b : Batch) (opcode kind column : Z) (row r : nat) : bool :=
  if opcode =? OpcodeIn
  then existsb (λ vid, literalMatches b kind column (valueOf p vid kind) r) (inLiterals p row)
  else comparisonMatches b opcode kind column (valueOf p (Values p !!! row) kind) r.

(** Truth value and reason mask of one predicate at one request row. *)
Definition predicateRow (p : Program) (b : Batch) (row r : nat) : tv * Z :=
  let opcode := Opcodes p !!! row in
  let field := Fields p !!! row in
  let '(kind, column) := default (0, 0) (SchemaLookup (FieldIndex p) field) in
  let present := colBit b (PresenceMasks b) (field - 1) r in
  let missing := if present then 0 else ReasonBit ReasonMissing in
  if opcode =? OpcodeDefined then ((present, negb present), 0)
  else if opcode =? OpcodeExists then ((present, false), missing)
  else let m := predicateMatches p b opcode kind column row r in
       ((present && m, present && negb m), missing).

Definition decodable (p : Program) (kind vid : Z) : bool :=
  match programPredicateValue p vid kind with Ok _ => true | _ => false end.

(** The instruction at [row] is a well-formed predicate of [p]. *)
Definition predicateOk (p : Program) (row : nat) : bool :=
  let opcode := Opcodes p !!! row in
  let field := Fields p !!! row in
  bool_decide (row < length (Opcodes p) ∧ row < length (Fields p) ∧ row < length (Values p) ∧
    row < length (ListStarts p) ∧ row < length (ListCounts p))%nat &&
  (((OpcodeEqual <=? opcode) && (opcode <=? OpcodeGreaterEqual)) || (opcode =? OpcodeDefined)) &&
  match SchemaLookup (FieldIndex p) field with
  | None => false
  | Some (kind, column) =>
    (1 <=? field) && KindValid kind && (0 <=? column) && (column <? sCounts (FieldIndex p) !!! Z.to_nat kind) &&
    (if (opcode =? OpcodeExists) || (opcode =? OpcodeDefined) then Values p !!! row =? 0
     else if opcode =? OpcodeIn then
       (Values p !!! row =? 0) && (0 <=? ListStarts p !!! row) && (0 <=? ListCounts p !!! row) &&
       (ListStarts p !!! row + ListCounts p !!! row <=? zlen (ListValues p)) &&
       (zlen (ListValues p) <=? MaxUint32) &&
       forallb (decodable p kind) (inLiterals p row)
     else decodable p kind (Values p !!! row)) &&
    negb ((kind =? ValueKindPresence) && negb (opcode =? OpcodeExists) && negb (opcode =? OpcodeDefined)) &&
    negb (orderedPredicate opcode && negb (kind =? ValueKindInteger) && negb (kind =? ValueKindTimestamp))
  end.

(** Column counts of the field schema are the widths the batch columns use. *)
Record schema_typed (s : IndexSchema) : Prop := {
  st_counts : length (sCounts s) = 6%nat;
  st_u32 : Forall is_u32 (sCounts s);
  st_fields : zlen (sKinds s) < 2 ^ 32
}.

(** A leaf output whose row [r] is [g r], with unused tail bits clear. *)
Record leaf_spec (rows : Z) (out : LeafOut) (g : nat → tv * Z) : Prop := {
  ls_pos : length (lPositive out) = nwords rows;
  ls_neg : length (lNegative out) = nwords rows;
  ls_reasons : length (lReasons out) = (9 * nwords rows)%nat;
  ls_truth r : (r < 64 * nwords rows)%nat →
    (rowBit (lPositive out) r, rowBit (lNegative out) r) = if tailKeep rows r then (g r).1 else (false, false);
  ls_mask r reason : (r < 64 * nwords rows)%nat → validReason reason →
    rowBit (reasonPlane (lReasons out) reason (WordCount rows)) r = tailKeep rows r && Has (g r).2 reason
}.

Definition leaf_shape (dst : Planes) (reasons : slice) (rows : Z) : Prop :=
  len (Positive dst) = nwords rows ∧ len (Negative dst) = nwords rows ∧ len reasons = (9 * nwords rows)%nat.

(** ** Proofs: words to rows *)

Lemma testbit_leafWordMask rows w j :
  is_u32 rows → (w < nwords rows)%nat → (j < 64)%nat →
  Z.testbit (leafWordMask (Z.of_nat w) (WordCount rows) rows) (Z.of_nat j) = tailKeep rows (64 * w + j)%nat.
Proof.
  intros Hr Hw Hj. pose proof (WordCount_bounds rows Hr) as (? & ? & ?).
  destruct (row_of_word w j Hj) as [Hd Hm]. unfold leafWordMask. rewrite land_63.
  pose proof (Z.mod_pos_bound rows 64).
  destruct (Z.eqb_spec (Z.of_nat w + 1) (WordCount rows)) as [Hlast|Hlast]; simpl.
  - destruct (Z.eqb_spec (rows mod 64) 0) as [Hz|Hz].
    + rewrite testbit_ones64 by lia. symmetry. apply full_row; [done|]. rewrite Hd. right. lia.
    + rewrite testbit_lowmask by lia. rewrite <-(tail_row rows (64 * w + j)%nat); rewrite ?Hd, ?Hm; done || lia.
  - rewrite testbit_ones64 by lia. symmetry. apply full_row; [done|]. rewrite Hd. left. lia.
Qed.

(** A leaf given by its two truth planes and the [ReasonMissing] plane. *)
Lemma leaf_intro rows (pos neg missing : list Z) (g : nat → tv * Z) :
  is_u32 rows → length pos = nwords rows → length neg = nwords rows → length missing = nwords rows →
  (∀ r, (r < 64 * nwords rows)%nat →
     rowBit pos r = tailKeep rows r && (g r).1.1 ∧
     rowBit neg r = tailKeep rows r && (g r).1.2 ∧
     rowBit missing r = tailKeep rows r && Has (g r).2 ReasonMissing) →
  (∀ r reason, validReason reason → reason ≠ ReasonMissing → Has (g r).2 reason = false) →
  leaf_spec rows {| lPositive := pos; lNegative := neg;
                    lReasons := missing ++ make_ ((ReasonCount - 1) * WordCount rows) |} g.
Proof.
  intros Hr Hp Hn Hm Hbits Hother. pose proof (WordCount_bounds rows Hr) as (? & ? & ?).
  split; simpl; try done.
  - rewrite length_app. unfold make_, ReasonCount. rewrite length_replicate. lia.
  - intros r Hrr. destruct (Hbits r Hrr) as (-> & -> & _). destruct (tailKeep rows r); [|done]. simpl. by destruct (g r).1.
  - intros r reason Hrr Hv. pose proof (row_split r) as [Er Hj]. unfold reasonPlane.
    destruct (decide (reason = ReasonMissing)) as [->|Hne].
    + destruct (Hbits r Hrr) as (_ & _ & <-).
      unfold rowBit, csr, ReasonMissing. simpl. change ((1 - 1) * WordCount rows) with 0.
      rewrite drop_0, list_lookup_total_alt, lookup_take_lt by lia.
      by rewrite lookup_app_l, <-list_lookup_total_alt by lia.
    + rewrite Hother, andb_false_r by done. unfold rowBit.
      unfold validReason, ReasonMissing in *. rewrite csr_lookup_total by lia.
      rewrite list_lookup_total_alt, lookup_app_r by (rewrite Hm; nia).
      unfold make_, ReasonCount. rewrite Hm, lookup_replicate_2 by nia.
      simpl. apply Z.testbit_0_l.
Qed.

Lemma leafOutOf_spec rows (h : nat → Z * Z * Z) (g : nat → tv * Z) :
  is_u32 rows →
  (∀ w j, (w < nwords rows)%nat → (j < 64)%nat → let r := (64 * w + j)%nat in
     Z.testbit (h w).1.1 (Z.of_nat j) = tailKeep rows r && (g r).1.1 ∧
     Z.testbit (h w).1.2 (Z.of_nat j) = tailKeep rows r && (g r).1.2 ∧
     Z.testbit (h w).2 (Z.of_nat j) = tailKeep rows r && Has (g r).2 ReasonMissing) →
  (∀ r reason, validReason reason → reason ≠ ReasonMissing → Has (g r).2 reason = false) →
  leaf_spec rows (leafOutOf (WordCount rows) (map h (seq 0 (nwords rows)))) g.
Proof.
  intros Hr Hh Hother.
  assert (∀ f : Z * Z * Z → Z, map f (map h (seq 0 (nwords rows))) = map (λ w, f (h w)) (seq 0 (nwords rows))) as Hmm.
  { intros. apply map_map. }
  unfold leafOutOf. apply leaf_intro; rewrite ?Hmm, ?length_map, ?length_seq; try done.
  intros r Hrr. rewrite !rowBit_map_seq by done. pose proof (row_split r) as [Er Hj].
  destruct (Hh (r `div` 64)%nat (r `mod` 64)%nat) as (-> & -> & ->); [lia|done|]. by rewrite <-Er.
Qed.

(** One word of a batch bitmap column, bit by bit. *)
Lemma colBit_word b vs column w j :
  batch_typed b → validPhysicalRange b = true → 0 ≤ column →
  (w < nwords (Rows b))%nat → (j < 64)%nat →
  Z.testbit (csr vs (column * sourceWords b + wordBase b) (WordCount (Rows b)) !!! w) (Z.of_nat j)
  = colBit b vs column (64 * w + j).
Proof.
  intros Hb Hv Hc Hw Hj. unfold colBit. destruct (row_of_word w j Hj) as [-> ->].
  rewrite csr_lookup_total by done. do 2 f_equal.
  destruct (word_window b Hb Hv) as (? & _).
  assert (is_u32 (sourceWords b)) by (apply Z.mod_pos_bound; lia). unfold is_u32 in *.
  rewrite <-(Nat2Z.id w) at 1. rewrite <-Z2Nat.inj_add by nia. done.
Qed.

Lemma colBit_row b vs column r :
  batch_typed b → validPhysicalRange b = true → 0 ≤ column → (r < 64 * nwords (Rows b))%nat →
  rowBit (csr vs (column * sourceWords b + wordBase b) (WordCount (Rows b))) r = colBit b vs column r.
Proof.
  intros Hb Hv Hc Hr. pose proof (row_split r) as [Er Hj]. rewrite Er at 2.
  rewrite <-colBit_word by (done || lia). done.
Qed.

Lemma colValue_row b vs column r :
  batch_typed b → validPhysicalRange b = true → 0 ≤ column → (r < Z.to_nat (Rows b))%nat →
  csr vs (column * sourceRows b + rowBase b) (Rows b) !!! r = colValue b vs column r.
Proof.
  intros Hb Hv Hc Hr. unfold colValue. rewrite csr_lookup_total by done. f_equal.
  pose proof (sourceRows_u32 b Hb). destruct Hb as [_ Hb _]. unfold is_u32 in *.
  rewrite <-(Nat2Z.id r) at 1. rewrite <-Z2Nat.inj_add by nia. done.
Qed.

Lemma gatherRows_bits b w j (c : nat → bool) :
  is_u32 (Rows b) → (w < nwords (Rows b))%nat → (j < 64)%nat → tailKeep (Rows b) (64 * w + j)%nat = true →
  Z.testbit (gatherRows b w c) (Z.of_nat j) = c (64 * w + j)%nat.
Proof.
  intros Hr Hw Hj Hk. unfold gatherRows. unfold tailKeep in Hk. rewrite bool_decide_eq_true in Hk.
  replace (Z.to_nat (64 * Z.of_nat w)) with (64 * w)%nat by lia.
  rewrite testbit_gatherWord by lia. rewrite bool_decide_eq_true_2; [done|lia].
Qed.

(** What the shape check gives the readers. *)
Record columns_ok (p : Program) (b : Batch) : Prop := {
  co_batch : batch_typed b;
  co_schema : schema_typed (FieldIndex p);
  co_range : validPhysicalRange b = true;
  co_presence : zlen (PresenceMasks b) = zlen (sKinds (FieldIndex p)) * sourceWords b;
  co_symbol : zlen (SymbolValues b) = sCounts (FieldIndex p) !!! 1%nat * sourceRows b;
  co_integer : zlen (bIntegerValues b) = sCounts (FieldIndex p) !!! 2%nat * sourceRows b;
  co_timestamp : zlen (bTimestampValues b) = sCounts (FieldIndex p) !!! 4%nat * sourceRows b;
  co_boolean : zlen (bBooleanValues b) = sCounts (FieldIndex p) !!! 3%nat * sourceWords b
}.

Lemma validExecutionColumnLength_inv n columns stride :
  0 ≤ columns → 0 ≤ stride → validExecutionColumnLength n columns stride = true → n = columns * stride.
Proof.
  unfold validExecutionColumnLength. intros Hc Hs. rewrite andb_true_iff, orb_true_iff, Z.eqb_eq, Z.leb_le, Z.eqb_eq.
  intros [Hor ->]. apply u64_small. unfold is_u64. split; [nia|].
  destruct Hor as [->|Hle]; [lia|].
  assert (0 < columns ∨ columns = 0) as [Hpos| ->] by lia; [|lia].
  pose proof (Z.mul_div_le MaxUint64 columns Hpos). unfold MaxUint64 in *. nia.
Qed.

Lemma columns_ok_intro p b :
  batch_typed b → schema_typed (FieldIndex p) → validExecutionBatchColumns p b = true → columns_ok p b.
Proof.
  intros Hb Hs. unfold validExecutionBatchColumns.
  destruct (validPhysicalRange b) eqn:Hv; simpl; [|done].
  rewrite !andb_true_iff. intros [[[[Hp Hy] Hi] Ht] Hbo].
  pose proof (sourceRows_u32 b Hb) as Hr.
  assert (is_u32 (sourceWords b)) as Hw by (apply Z.mod_pos_bound; lia).
  assert (∀ k, (k < 6)%nat → is_u32 (sCounts (FieldIndex p) !!! k)) as Hc.
  { intros k Hk. destruct Hs. apply Forall_lookup_total_1; [done|lia]. }
  unfold is_u32 in *.
  split; try done; by apply validExecutionColumnLength_inv;
    first [lia | apply (Hc 1%nat); lia | apply (Hc 2%nat); lia | apply (Hc 3%nat); lia | apply (Hc 4%nat); lia | done].
Qed.

Section leaf_words.
Context (p : Program) (b : Batch) (Hco : columns_ok p b).
Context (kind column : Z).
Context (Hkind : KindValid kind = true).
Context (Hcolumn : 0 ≤ column < sCounts (FieldIndex p) !!! Z.to_nat kind).

Lemma kind_count : sCounts (FieldIndex p) !!! Z.to_nat kind < 2 ^ 32.
Proof.
  destruct Hco as [_ [Hl Hu _] _ _ _ _ _ _]. unfold KindValid, ValueKindSymbol, ValueKindPresence in Hkind.
  assert (is_u32 (sCounts (FieldIndex p) !!! Z.to_nat kind)); [|unfold is_u32 in *; lia].
  apply Forall_lookup_total_1; [done|lia].
Qed.

Lemma read_symbols : kind = ValueKindSymbol → batchRowColumn b (SymbolValues b) column =
  Ok (csr (SymbolValues b) (column * sourceRows b + rowBase b) (Rows b)).
Proof.
  intros E. pose proof kind_count. destruct Hco. rewrite E in *.
  by eapply batchRowColumn_Ok.
Qed.

Lemma read_integers : kind = ValueKindInteger → batchRowColumn b (bIntegerValues b) column =
  Ok (csr (bIntegerValues b) (column * sourceRows b + rowBase b) (Rows b)).
Proof.
  intros E. pose proof kind_count. destruct Hco. rewrite E in *.
  by eapply batchRowColumn_Ok.
Qed.

Lemma read_timestamps : kind = ValueKindTimestamp → batchRowColumn b (bTimestampValues b) column =
  Ok (csr (bTimestampValues b) (column * sourceRows b + rowBase b) (Rows b)).
Proof.
  intros E. pose proof kind_count. destruct Hco. rewrite E in *.
  by eapply batchRowColumn_Ok.
Qed.

Lemma read_booleans : kind = ValueKindBoolean → batchWordColumn b (bBooleanValues b) column =
  Ok (csr (bBooleanValues b) (column * sourceWords b + wordBase b) (WordCount (Rows b))).
Proof.
  intros E. pose proof kind_count. destruct Hco. rewrite E in *.
  by eapply batchWordColumn_Ok.
Qed.

Lemma kind_cases : kind ≠ ValueKindPresence →
  kind = ValueKindSymbol ∨ kind = ValueKindInteger ∨ kind = ValueKindBoolean ∨ kind = ValueKindTimestamp.
Proof.
  unfold KindValid, ValueKindSymbol, ValueKindInteger, ValueKindBoolean, ValueKindTimestamp, ValueKindPresence in *. lia.
Qed.

Lemma row_lt_rows r : tailKeep (Rows b) r = true → (r < Z.to_nat (Rows b))%nat.
Proof. unfold tailKeep. rewrite bool_decide_eq_true. lia. Qed.

Lemma length_booleans :
  kind = ValueKindBoolean →
  length (csr (bBooleanValues b) (column * sourceWords b + wordBase b) (WordCount (Rows b))) = nwords (Rows b).
Proof.
  intros E. destruct Hco as [Hb _ Hv _ _ _ _ Hlen].
  destruct (word_window b Hb Hv) as (? & _ & ?). rewrite <-sourceWords_eq in * by done.
  destruct (WordCount_bounds (Rows b)) as (? & _); [by destruct Hb|].
  assert (is_u32 (sourceWords b)) by (apply Z.mod_pos_bound; lia). unfold is_u32 in *.
  rewrite E in Hcolumn. change (Z.to_nat ValueKindBoolean) with 3%nat in Hcolumn. apply length_csr; nia.
Qed.

Lemma matchWord_bits opcode value w :
  kind ≠ ValueKindPresence →
  (orderedPredicate opcode = true → kind = ValueKindInteger ∨ kind = ValueKindTimestamp) →
  OpcodeEqual ≤ opcode ≤ OpcodeGreaterEqual → opcode ≠ OpcodeIn → opcode ≠ OpcodeExists →
  (w < nwords (Rows b))%nat →
  ∃ m, matchWord b opcode kind column value w = Ok m ∧
    ∀ j, (j < 64)%nat → tailKeep (Rows b) (64 * w + j)%nat = true →
      Z.testbit m (Z.of_nat j) = comparisonMatches b opcode kind column value (64 * w + j).
Proof.
  intros Hp Hord Hop Hni Hne Hw. pose proof (co_batch _ _ Hco) as Hb. pose proof (co_range _ _ Hco) as Hv.
  assert (kind ≠ ValueKindInteger → kind ≠ ValueKindTimestamp → opcode = OpcodeEqual ∨ opcode = OpcodeNotEqual) as Heq.
  { intros. unfold orderedPredicate, OpcodeEqual, OpcodeNotEqual, OpcodeIn, OpcodeExists, OpcodeLess, OpcodeGreaterEqual in *.
    destruct (decide (5 ≤ opcode)); [|lia]. exfalso. destruct Hord; [lia|done|done]. }
  unfold matchWord, comparisonMatches, literalMatches.
  destruct (kind_cases Hp) as [E|[E|[E|E]]]; rewrite E; simpl.
  - rewrite read_symbols by done. simpl. eexists; split; [done|]. intros j Hj Hk.
    rewrite gatherRows_bits by (done || apply Hb). rewrite colValue_row by (done || lia || by apply row_lt_rows).
    destruct Heq as [-> | ->]; [by rewrite E..| |]; simpl; by destruct (_ =? symbol value).
  - rewrite read_integers by done. simpl. eexists; split; [done|]. intros j Hj Hk.
    rewrite gatherRows_bits by (done || apply Hb). by rewrite colValue_row by (done || lia || by apply row_lt_rows).
  - rewrite read_booleans by done. simpl.
    rewrite at_total by (rewrite length_booleans by done; lia). simpl.
    eexists; split; [done|]. intros j Hj Hk. rewrite Nat2Z.id.
    rewrite <-colBit_word by (done || lia).
    destruct Heq as [-> | ->]; [by rewrite E..| |]; simpl;
      destruct (boolean value); rewrite ?testbit_not64 by lia; by destruct (Z.testbit _ _).
  - rewrite read_timestamps by done. simpl. eexists; split; [done|]. intros j Hj Hk.
    rewrite gatherRows_bits by (done || apply Hb). by rewrite colValue_row by (done || lia || by apply row_lt_rows).
Qed.

Lemma rowBit_zip_or (d vs : list Z) (f : Z → Z) r :
  length d = nwords (Rows b) → length vs = nwords (Rows b) → (r < 64 * nwords (Rows b))%nat →
  rowBit (zip_with (λ x y, Z.lor x (f y)) d vs) r =
    rowBit d r || Z.testbit (f (vs !!! (r `div` 64)%nat)) (Z.of_nat (r `mod` 64)).
Proof.
  intros Hd Hvs Hr. unfold rowBit.
  assert (r `div` 64 < nwords (Rows b))%nat by (apply Nat.Div0.div_lt_upper_bound; lia).
  rewrite (list_lookup_total_alt (zip_with _ _ _)), lookup_zip_with.
  rewrite (list_lookup_lookup_total_lt d), (list_lookup_lookup_total_lt vs) by lia. simpl.
  by rewrite Z.lor_spec.
Qed.

(** One literal of an [In] list, OR-ed into the match words. *)
Lemma literal_pass value (d : list Z) :
  kind ≠ ValueKindPresence → length d = nwords (Rows b) →
  ∃ d',
    (if kind =? ValueKindSymbol then
       vs ← batchRowColumn b (SymbolValues b) column;
       Ok (setRows (λ request, vs !!! request =? symbol value) (length vs) d)
     else if kind =? ValueKindInteger then
       vs ← batchRowColumn b (bIntegerValues b) column;
       Ok (setRows (λ request, vs !!! request =? integer value) (length vs) d)
     else if kind =? ValueKindBoolean then
       vs ← batchWordColumn b (bBooleanValues b) column;
       Ok (zip_with (λ d got, Z.lor d (if boolean value then got else not64 got)) d vs)
     else if kind =? ValueKindTimestamp then
       vs ← batchRowColumn b (bTimestampValues b) column;
       Ok (setRows (λ request, vs !!! request =? timestamp value) (length vs) d)
     else Panic "eval: invalid in predicate kind") = Ok d' ∧
    length d' = nwords (Rows b) ∧
    ∀ r, tailKeep (Rows b) r = true → rowBit d' r = rowBit d r || literalMatches b kind column value r.
Proof.
  intros Hp Hd. pose proof (co_batch _ _ Hco) as Hb. pose proof (co_range _ _ Hco) as Hv.
  destruct (WordCount_bounds (Rows b)) as (? & Hge & _); [by destruct Hb|].
  destruct (validPhysicalRange_inv b Hb Hv) as (_ & _ & Hle). pose proof (sourceRows_u32 b Hb).
  assert (is_u32 (Rows b) ∧ is_u32 (rowBase b)) as [? ?] by (by destruct Hb). unfold is_u32 in *.
  assert (∀ vs v, zlen vs = sCounts (FieldIndex p) !!! Z.to_nat kind * sourceRows b →
    let c := csr vs (column * sourceRows b + rowBase b) (Rows b) in
    length (setRows (λ request, c !!! request =? v) (length c) d) = nwords (Rows b) ∧
    ∀ r, tailKeep (Rows b) r = true →
      rowBit (setRows (λ request, c !!! request =? v) (length c) d) r = rowBit d r || (colValue b vs column r =? v)) as Hset.
  { intros vs v Hlen. simpl. rewrite length_setRows. split; [done|]. intros r Hr%row_lt_rows.
    rewrite length_csr by nia. rewrite rowBit_setRows by lia.
    rewrite bool_decide_eq_true_2 by done. simpl. by rewrite colValue_row by (done || lia). }
  unfold literalMatches. destruct (kind_cases Hp) as [E|[E|[E|E]]]; rewrite E in Hset |- *; simpl in Hset |- *.
  - rewrite read_symbols by done. simpl. eexists; split; [done|]. apply Hset, Hco.
  - rewrite read_integers by done. simpl. eexists; split; [done|]. apply Hset, Hco.
  - rewrite read_booleans by done. simpl. eexists; split; [done|].
    rewrite length_zip_with, length_booleans by done. split; [lia|].
    intros r Hr%row_lt_rows. rewrite rowBit_zip_or by (try apply length_booleans; done || lia).
    f_equal. pose proof (row_split r) as [Er Hj].
    rewrite <-(colBit_row b _ column r) by (done || lia).
    destruct (boolean value); unfold rowBit; rewrite ?testbit_not64 by lia; by destruct (Z.testbit _ _).
  - rewrite read_timestamps by done. simpl. eexists; split; [done|]. apply Hset, Hco.
Qed.
End leaf_words.

Lemma existsb_map {A B} (f : B → bool) (g : A → B) l : existsb f (map g l) = existsb (λ x, f (g x)) l.
Proof. induction l as [|x l IH]; [done|]. simpl. by rewrite IH. Qed.

Lemma decodable_Ok p kind vid : decodable p kind vid = true → programPredicateValue p vid kind = Ok (valueOf p vid kind).
Proof. unfold decodable, valueOf. by destruct (programPredicateValue p vid kind). Qed.

Lemma fillInMatches_spec p b kind column start count :
  columns_ok p b → KindValid kind = true → kind ≠ ValueKindPresence →
  0 ≤ column < sCounts (FieldIndex p) !!! Z.to_nat kind →
  0 ≤ start → 0 ≤ count → start + count ≤ zlen (ListValues p) →
  forallb (decodable p kind) (csr (ListValues p) start count) = true →
  ∃ d, fillInMatches (make_ (WordCount (Rows b))) b p kind column start count = Ok d ∧
    length d = nwords (Rows b) ∧
    ∀ r, tailKeep (Rows b) r = true →
      rowBit d r = existsb (λ vid, literalMatches b kind column (valueOf p vid kind) r)
                     (csr (ListValues p) start count).
Proof.
  intros Hco Hk Hnp Hc Hs Hn Hle Hdec. set (lits := csr (ListValues p) start count) in *.
  assert (∀ i, (i < Z.to_nat count)%nat → at_ (ListValues p) (start + Z.of_nat i) = Ok (lits !!! i) ∧
    programPredicateValue p (lits !!! i) kind = Ok (valueOf p (lits !!! i) kind)) as Hlit.
  { intros i Hi. split.
    - rewrite at_total by lia. unfold lits. rewrite csr_lookup_total by done. do 2 f_equal. lia.
    - apply decodable_Ok. apply forallb_lookup_total; [done|]. unfold lits. rewrite length_csr; lia. }
  unfold fillInMatches.
  destruct (fold_go_total (λ pre d, length d = nwords (Rows b) ∧ ∀ r, tailKeep (Rows b) r = true →
      rowBit d r = existsb (λ i, literalMatches b kind column (valueOf p (lits !!! i) kind) r) pre)
    (λ i dst,
       vid ← at_ (ListValues p) (start + Z.of_nat i);
       value ← programPredicateValue p vid kind;
       if kind =? ValueKindSymbol then
         vs ← batchRowColumn b (SymbolValues b) column;
         Ok (setRows (λ request, vs !!! request =? symbol value) (length vs) dst)
       else if kind =? ValueKindInteger then
         vs ← batchRowColumn b (bIntegerValues b) column;
         Ok (setRows (λ request, vs !!! request =? integer value) (length vs) dst)
       else if kind =? ValueKindBoolean then
         vs ← batchWordColumn b (bBooleanValues b) column;
         Ok (zip_with (λ d got, Z.lor d (if boolean value then got else not64 got)) dst vs)
       else if kind =? ValueKindTimestamp then
         vs ← batchRowColumn b (bTimestampValues b) column;
         Ok (setRows (λ request, vs !!! request =? timestamp value) (length vs) dst)
       else Panic "eval: invalid in predicate kind")
    (seq 0 (Z.to_nat count)) (make_ (WordCount (Rows b)))) as (d & Hd & Hlen & Hrows).
  - unfold make_. rewrite length_replicate. split; [done|]. intros r Hr. simpl.
    apply rowBit_replicate0. apply row_lt_rows in Hr.
    destruct (WordCount_bounds (Rows b)) as (? & ? & _); [by destruct Hco as [[]]|]. lia.
  - intros pre i post d Hseq [Hlen Hrows].
    assert (i < Z.to_nat count)%nat as Hi.
    { assert (i ∈ seq 0 (Z.to_nat count)) as Hin by (rewrite Hseq; set_solver). apply elem_of_seq in Hin. lia. }
    destruct (Hlit i Hi) as [-> Hv]. simpl. rewrite Hv. simpl.
    destruct (literal_pass p b Hco kind column Hk Hc (valueOf p (lits !!! i) kind) d Hnp Hlen) as (d' & Hd' & Hl' & Hr').
    exists d'. split; [exact Hd'|]. split; [done|]. intros r Hr.
    rewrite Hr', Hrows, existsb_app by done. simpl. by rewrite orb_false_r.
  - exists d. split; [exact Hd|]. split; [done|]. intros r Hr. rewrite Hrows by done.
    unfold lits. rewrite (csr_map_seq (ListValues p)), existsb_map by lia.
    clear -Hn. generalize (Z.to_nat count) as n. intros n.
    assert (∀ k, existsb (λ i, literalMatches b kind column (valueOf p (map (λ i0, ListValues p !!! (Z.to_nat start + i0)%nat) (seq 0 (k + n)) !!! i) kind) r) (seq k n)
      = existsb (λ x, literalMatches b kind column (valueOf p (ListValues p !!! (Z.to_nat start + x)%nat) kind) r) (seq k n)) as Hgen.
    { intros k. assert (∀ x, x ∈ seq k n → (x < k + n)%nat) as Hx by (intros x Hx%elem_of_seq; lia).
      revert Hx. generalize (seq k n) as l. induction l as [|x l IH]; intros Hx; [done|].
      simpl. rewrite map_seq_lookup_total by (apply Hx; set_solver). f_equal. apply IH. set_solver. }
    apply (Hgen 0%nat).
Qed.

Lemma resetLeafOutputs_ok dst reasons rows :
  is_u32 rows → leaf_shape dst reasons rows → resetLeafOutputs dst reasons rows = Ok (WordCount rows).
Proof.
  intros Hr (? & ? & ?). destruct (WordCount_bounds rows Hr) as (? & _). unfold resetLeafOutputs.
  rewrite !(proj2 (Z.eqb_eq _ _)) by (unfold ReasonCount; lia). done.
Qed.

Lemma predicateOk_inv p row :
  predicateOk p row = true →
  ∃ kind column, SchemaLookup (FieldIndex p) (Fields p !!! row) = Some (kind, column) ∧
    (row < length (Opcodes p) ∧ row < length (Fields p) ∧ row < length (Values p) ∧
     row < length (ListStarts p) ∧ row < length (ListCounts p))%nat ∧
    (OpcodeEqual ≤ Opcodes p !!! row ≤ OpcodeGreaterEqual ∨ Opcodes p !!! row = OpcodeDefined) ∧
    1 ≤ Fields p !!! row ∧ KindValid kind = true ∧ 0 ≤ column < sCounts (FieldIndex p) !!! Z.to_nat kind ∧
    (if (Opcodes p !!! row =? OpcodeExists) || (Opcodes p !!! row =? OpcodeDefined) then Values p !!! row = 0
     else if Opcodes p !!! row =? OpcodeIn then
       Values p !!! row = 0 ∧ 0 ≤ ListStarts p !!! row ∧ 0 ≤ ListCounts p !!! row ∧
       ListStarts p !!! row + ListCounts p !!! row ≤ zlen (ListValues p) ∧ zlen (ListValues p) ≤ MaxUint32 ∧
       forallb (decodable p kind) (inLiterals p row) = true
     else decodable p kind (Values p !!! row) = true) ∧
    (kind = ValueKindPresence → Opcodes p !!! row = OpcodeExists ∨ Opcodes p !!! row = OpcodeDefined) ∧
    (orderedPredicate (Opcodes p !!! row) = true → kind = ValueKindInteger ∨ kind = ValueKindTimestamp).
Proof.
  unfold predicateOk. destruct (SchemaLookup _ _) as [[kind column]|]; [|by rewrite andb_false_r].
  rewrite !andb_true_iff, orb_true_iff, !negb_true_iff, !andb_false_iff, !negb_false_iff, !bool_decide_eq_true,
    andb_true_iff, !Z.leb_le, !Z.ltb_lt, !Z.eqb_eq, !Z.eqb_neq.
  intros ([Hlen Hop] & ((((((Hf & Hk) & Hc0) & Hc) & Hops) & Hpres) & Hord)).
  exists kind, column. do 6 (split; [done|]). split; [|split].
  - destruct (_ || _); [by apply Z.eqb_eq|]. destruct (_ =? _); [|done].
    rewrite !andb_true_iff, !Z.leb_le, Z.eqb_eq in Hops. naive_solver.
  - naive_solver.
  - intros Ho. rewrite Ho in Hord. naive_solver.
Qed.

(** ** The leaf against its reference *)

Section scalar_leaf.
Context (p : Program) (b : Batch) (row : nat) (kind column : Z).
Context (Hco : columns_ok p b).
Context (Hok : predicateOk p row = true).
Context (Hlookup : SchemaLookup (FieldIndex p) (Fields p !!! row) = Some (kind, column)).

Local Abbreviation opcode := (Opcodes p !!! row).

Lemma predicateOk_facts :
  (row < length (Opcodes p) ∧ row < length (Fields p) ∧ row < length (Values p) ∧
   row < length (ListStarts p) ∧ row < length (ListCounts p))%nat ∧
  (OpcodeEqual ≤ opcode ≤ OpcodeGreaterEqual ∨ opcode = OpcodeDefined) ∧
  1 ≤ Fields p !!! row ∧ KindValid kind = true ∧ 0 ≤ column < sCounts (FieldIndex p) !!! Z.to_nat kind ∧
  (if (opcode =? OpcodeExists) || (opcode =? OpcodeDefined) then Values p !!! row = 0
   else if opcode =? OpcodeIn then
     Values p !!! row = 0 ∧ 0 ≤ ListStarts p !!! row ∧ 0 ≤ ListCounts p !!! row ∧
     ListStarts p !!! row + ListCounts p !!! row ≤ zlen (ListValues p) ∧ zlen (ListValues p) ≤ MaxUint32 ∧
     forallb (decodable p kind) (inLiterals p row) = true
   else decodable p kind (Values p !!! row) = true) ∧
  (kind = ValueKindPresence → opcode = OpcodeExists ∨ opcode = OpcodeDefined) ∧
  (orderedPredicate opcode = true → kind = ValueKindInteger ∨ kind = ValueKindTimestamp).
Proof.
  destruct (predicateOk_inv p row Hok) as (k & c & Hl & Hrest). rewrite Hlookup in Hl. by simplify_eq.
Qed.

Lemma predicateOperands_ok :
  ∃ value start count, predicateOperands p opcode kind (Z.of_nat row) = Ok (value, start, count) ∧
    (opcode = OpcodeIn → start = ListStarts p !!! row ∧ count = ListCounts p !!! row) ∧
    (opcode ≠ OpcodeIn → opcode ≠ OpcodeExists → opcode ≠ OpcodeDefined → value = valueOf p (Values p !!! row) kind).
Proof.
  destruct predicateOk_facts as ((Ho & Hf & Hv & Hs & Hc) & _ & _ & _ & _ & Hops & _).
  unfold predicateOperands. rewrite !at_total by lia. rewrite Nat2Z.id.
  destruct (Z.eqb_spec opcode OpcodeExists), (Z.eqb_spec opcode OpcodeDefined); simpl in *;
    try (rewrite Hops; simpl; eexists _, _, _; split; [done|]; split; [intros Ein; by rewrite Ein in *|done]).
  destruct (Z.eqb_spec opcode OpcodeIn) as [Ein|]; simpl in *.
  - destruct Hops as (-> & H0 & H1 & Hle & Hmax & Hdec).
    rewrite (proj2 (Z.leb_gt _ _)), (proj2 (Z.leb_gt _ _)) by lia. simpl.
    rewrite u64_small by (unfold is_u64, MaxUint32 in *; lia).
    rewrite (proj2 (Z.ltb_ge _ _)) by lia. simpl.
    rewrite (map_go_Ok _ (λ i, valueOf p (ListValues p !!! (Z.to_nat (ListStarts p !!! row) + i)%nat) kind)).
    + simpl. eexists _, _, _; split; [done|]. done.
    + intros i Hi%elem_of_seq. rewrite at_total by lia. simpl.
      replace (Z.to_nat (ListStarts p !!! row + Z.of_nat i)) with (Z.to_nat (ListStarts p !!! row) + i)%nat by lia.
      apply decodable_Ok. rewrite <-(csr_lookup_total _ _ (ListCounts p !!! row)) by lia.
      apply forallb_lookup_total; [done|]. rewrite length_csr; lia.
  - rewrite decodable_Ok by done. simpl. eexists _, _, _; split; [done|]. done.
Qed.

Lemma requireKindColumn_ok : requireKindColumn p b kind = Ok tt.
Proof.
  destruct predicateOk_facts as (_ & _ & _ & Hk & Hc & _).
  destruct Hco as [Hb [Hl6 Hu _] Hv _ Hy Hi Ht Hbo].
  assert (0 < kind < 6) as Hk6 by (unfold KindValid, ValueKindSymbol, ValueKindPresence in Hk; lia).
  unfold requireKindColumn, requireColumnLength. rewrite at_total by lia. simpl.
  assert (is_u32 (sCounts (FieldIndex p) !!! Z.to_nat kind)) as Hcu by (apply Forall_lookup_total_1; [done|lia]).
  pose proof (sourceRows_u32 b Hb) as Hr. assert (is_u32 (sourceWords b)) as Hw by (apply Z.mod_pos_bound; lia).
  unfold is_u32 in *.
  rewrite !u64_small by (unfold is_u64; nia).
  repeat case_match; rewrite ?Z.eqb_eq in *; simplify_eq; unfold require; rewrite ?(proj2 (Z.eqb_eq _ _)) by done; done.
Qed.

Lemma presence_column :
  batchWordColumn b (PresenceMasks b) (u32 (Fields p !!! row - 1)) =
  Ok (csr (PresenceMasks b) ((Fields p !!! row - 1) * sourceWords b + wordBase b) (WordCount (Rows b))) ∧
  requireColumnLength (zlen (PresenceMasks b)) (u32 (zlen (sKinds (FieldIndex p)))) (sourceWords b) = Ok tt ∧
  length (csr (PresenceMasks b) ((Fields p !!! row - 1) * sourceWords b + wordBase b) (WordCount (Rows b)))
    = nwords (Rows b).
Proof.
  destruct predicateOk_facts as (_ & _ & Hf & _).
  assert (Fields p !!! row ≤ zlen (sKinds (FieldIndex p))) as Hfl.
  { unfold SchemaLookup in Hlookup. destruct (_ =? 0); [done|]. destruct (_ <=? _) eqn:E; [done|]. lia. }
  destruct Hco as [Hb [_ _ Hf32] Hv Hp _ _ _ _]. pose proof (word_window b Hb Hv) as (Hw0 & _ & Hwle).
  rewrite <-sourceWords_eq in Hwle by done.
  assert (is_u32 (sourceWords b)) as Hw by (apply Z.mod_pos_bound; lia).
  destruct (WordCount_bounds (Rows b)) as (? & _); [by destruct Hb|].
  unfold is_u32 in Hw. rewrite !u32_small by (unfold is_u32; lia). split_and!.
  - eapply batchWordColumn_Ok; try done; lia.
  - unfold requireColumnLength. rewrite u64_small by (unfold is_u64; nia). by rewrite Hp, Z.eqb_refl.
  - apply length_csr; nia.
Qed.

(** The words of one predicate, as a function of its match words. *)
Lemma predicateWord_bits value (presence inMatches : list Z) w :
  presence = csr (PresenceMasks b) ((Fields p !!! row - 1) * sourceWords b + wordBase b) (WordCount (Rows b)) →
  length inMatches = nwords (Rows b) →
  (opcode = OpcodeIn → ∀ r, tailKeep (Rows b) r = true →
     rowBit inMatches r = predicateMatches p b opcode kind column row r) →
  (opcode ≠ OpcodeIn → opcode ≠ OpcodeExists → opcode ≠ OpcodeDefined → value = valueOf p (Values p !!! row) kind) →
  (w < nwords (Rows b))%nat →
  ∃ out, predicateWord b opcode kind column value presence inMatches (WordCount (Rows b)) w = Ok out ∧
    ∀ j, (j < 64)%nat → let r := (64 * w + j)%nat in
      Z.testbit out.1.1 (Z.of_nat j) = tailKeep (Rows b) r && (predicateRow p b row r).1.1 ∧
      Z.testbit out.1.2 (Z.of_nat j) = tailKeep (Rows b) r && (predicateRow p b row r).1.2 ∧
      Z.testbit out.2 (Z.of_nat j) = tailKeep (Rows b) r && Has (predicateRow p b row r).2 ReasonMissing.
Proof.
  intros Hpres Hlin Hin Hval Hw.
  destruct predicateOk_facts as (_ & Hop & Hf & Hk & Hc & _ & Hpk & Hord).
  destruct presence_column as (_ & _ & Hplen). rewrite <-Hpres in Hplen.
  pose proof (co_batch _ _ Hco) as Hb. pose proof (co_range _ _ Hco) as Hv.
  assert (is_u32 (Rows b)) as Hr by (by destruct Hb).
  assert (∀ j, (j < 64)%nat → Z.testbit (presence !!! w) (Z.of_nat j) =
    colBit b (PresenceMasks b) (Fields p !!! row - 1) (64 * w + j)) as Hpb.
  { intros j Hj. rewrite Hpres. apply colBit_word; done || lia. }
  unfold predicateWord. rewrite (at_total presence) by lia. rewrite Nat2Z.id. simpl.
  unfold predicateRow. rewrite Hlookup. simpl.
  destruct (Z.eqb_spec opcode OpcodeDefined) as [Ed|Ed].
  { eexists; split; [done|]. intros j Hj. simpl.
    rewrite Z.ldiff_spec, Z.land_spec, Z.testbit_0_l, testbit_leafWordMask, Hpb by done.
    destruct (tailKeep _ _), (colBit _ _ _ _); done. }
  destruct (Z.eqb_spec opcode OpcodeExists) as [Ee|Ee].
  { eexists; split; [done|]. intros j Hj. simpl.
    rewrite Z.ldiff_spec, Z.land_spec, Z.testbit_0_l, testbit_leafWordMask, Hpb by done.
    destruct (tailKeep _ _), (colBit _ _ _ _); done. }
  assert (∃ m, (if opcode =? OpcodeIn then at_ inMatches (Z.of_nat w)
                else matchWord b opcode kind column value w) = Ok m ∧
    ∀ j, (j < 64)%nat → tailKeep (Rows b) (64 * w + j)%nat = true →
      Z.testbit m (Z.of_nat j) = predicateMatches p b opcode kind column row (64 * w + j)) as (m & -> & Hm).
  { destruct (Z.eqb_spec opcode OpcodeIn) as [Ei|Ei].
    - rewrite at_total by lia. rewrite Nat2Z.id. eexists; split; [done|]. intros j Hj Ht.
      rewrite <-Hin by done. unfold rowBit. by destruct (row_of_word w j Hj) as [-> ->].
    - rewrite Hval by done. unfold predicateMatches. rewrite (proj2 (Z.eqb_neq _ _)) by done.
      eapply matchWord_bits; try done; [|tauto]. intros E. by destruct (Hpk E). }
  simpl. eexists; split; [done|]. intros j Hj. simpl.
  rewrite !Z.ldiff_spec, !Z.land_spec, testbit_leafWordMask, Hpb by done.
  destruct (tailKeep _ _) eqn:Et; [rewrite (Hm j Hj Et)|]; destruct (colBit _ _ _ _); simpl; try done;
    rewrite ?andb_false_r, ?andb_true_r; done.
Qed.

Lemma predicateRow_missing_only r reason :
  validReason reason → reason ≠ ReasonMissing → Has (predicateRow p b row r).2 reason = false.
Proof.
  intros Hv Hne. unfold predicateRow. rewrite Hlookup. simpl.
  assert (Has 0 reason = false) by (unfold Has; by destruct (ReasonBit reason =? 0)).
  assert (Has (ReasonBit ReasonMissing) reason = false) as Hm.
  { unfold validReason, ReasonMissing in *. assert (reason ∈ [2;3;4;5;6;7;8;9]) as Hin by (set_unfold; lia).
    clear -Hin. set_unfold. naive_solver. }
  repeat case_match; simpl; done.
Qed.

Lemma evalPredicate_spec dst reasons :
  leaf_shape dst reasons (Rows b) →
  ∃ out, evalPredicate dst reasons b p (Z.of_nat row + 1) = Ok out ∧
    leaf_spec (Rows b) out (predicateRow p b row).
Proof.
  intros Hshape. destruct predicateOk_facts as ((Ho & Hf & Hv & Hs & Hc) & Hop & Hf1 & Hk & Hcol & Hops & Hpk & Hord).
  destruct predicateOperands_ok as (value & start & count & Hopnd & Hst & Hval).
  destruct presence_column as (Hpres & Hpl & _). pose proof (co_batch _ _ Hco) as Hb.
  assert (is_u32 (Rows b)) as Hr by (by destruct Hb).
  destruct (WordCount_bounds (Rows b) Hr) as (Hwc & _ & _).
  assert (length (sCounts (FieldIndex p)) = 6%nat) as Hl6 by apply Hco.
  assert (0 < kind < 6) as Hk6 by (unfold KindValid, ValueKindSymbol, ValueKindPresence in Hk; lia).
  unfold evalPredicate. rewrite (proj2 (Z.eqb_neq _ _)) by lia. simpl.
  replace (Z.of_nat row + 1 - 1) with (Z.of_nat row) by lia.
  rewrite !(proj2 (Z.leb_gt _ _)) by lia. simpl. rewrite !at_total by lia. rewrite !Nat2Z.id. simpl.
  replace (negb (((opcode <? OpcodeEqual) || (OpcodeGreaterEqual <? opcode)) && negb (opcode =? OpcodeDefined))) with true.
  2: { unfold OpcodeEqual, OpcodeGreaterEqual, OpcodeDefined in *. lia. }
  simpl. unfold predicateField. rewrite Hlookup, Hk. simpl. rewrite at_total by lia. simpl.
  rewrite (proj2 (Z.ltb_lt _ _)) by lia. simpl. rewrite Hpl. simpl. rewrite Hopnd. simpl.
  replace (negb ((kind =? ValueKindPresence) && negb (opcode =? OpcodeExists) && negb (opcode =? OpcodeDefined))) with true.
  2: { destruct (Z.eqb_spec kind ValueKindPresence) as [E|]; [|done]. by destruct (Hpk E) as [-> | ->]. }
  replace (negb (orderedPredicate opcode && negb (kind =? ValueKindInteger) && negb (kind =? ValueKindTimestamp))) with true.
  2: { destruct (orderedPredicate opcode) eqn:E; [|done]. by destruct (Hord eq_refl) as [-> | ->]. }
  simpl. replace (if negb (opcode =? OpcodeDefined) then requireKindColumn p b kind else Ok tt) with (@Ok unit tt).
  2: { rewrite requireKindColumn_ok. by destruct (negb _). }
  simpl. rewrite resetLeafOutputs_ok by done. simpl. rewrite Hpres. simpl.
  assert (∃ im, (if opcode =? OpcodeIn then fillInMatches (make_ (WordCount (Rows b))) b p kind column start count
                 else Ok (make_ (WordCount (Rows b)))) = Ok im ∧ length im = nwords (Rows b) ∧
    (opcode = OpcodeIn → ∀ r, tailKeep (Rows b) r = true →
       rowBit im r = predicateMatches p b opcode kind column row r)) as (im & -> & Hlim & Him).
  { destruct (Z.eqb_spec opcode OpcodeIn) as [Ei|Ei].
    - destruct (Hst Ei) as [-> ->]. rewrite Ei in Hops, Hpk. simpl in Hops.
      destruct Hops as (_ & ? & ? & ? & _ & Hdec).
      assert (kind ≠ ValueKindPresence) by (intros E; by destruct (Hpk E)).
      destruct (fillInMatches_spec p b kind column (ListStarts p !!! row) (ListCounts p !!! row))
        as (im & Him & Hlen & Hrows); try done.
      exists im. split; [exact Him|]. split; [done|]. intros _ r Ht. rewrite Hrows by done.
      unfold predicateMatches. by rewrite Ei.
    - eexists; split; [done|]. split; [|done]. unfold make_. rewrite length_replicate. lia. }
  simpl. set (presence := csr (PresenceMasks b) _ _).
  pose (g := λ w, match predicateWord b opcode kind column value presence im (WordCount (Rows b)) w with
                  | Ok o => o | _ => (0, 0, 0) end).
  assert (∀ w, (w < nwords (Rows b))%nat → ∃ out, predicateWord b opcode kind column value presence im (WordCount (Rows b)) w = Ok out ∧ _) as Hwords
    by (intros w Hw; exact (predicateWord_bits value presence im w eq_refl Hlim Him Hval Hw)).
  rewrite (map_go_Ok _ g).
  2: { intros w Hw%elem_of_seq. unfold g. destruct (Hwords w) as (out & -> & _); [lia|done]. }
  simpl. eexists; split; [done|]. apply leafOutOf_spec; [done| |].
  - intros w j Hw Hj. destruct (Hwords w Hw) as (out & E & Hbits). unfold g. rewrite E. by apply Hbits.
  - intros r reason. apply predicateRow_missing_only.
Qed.
End scalar_leaf.
