(* ===== verification/Simd.v ===== *)
(** * Package [internal/simdops] and the SIMD leaves of [internal/eval]

    ops.go, purego.go (the portable kernels) and eval/simd.go.  The default
    build replaces the portable kernels by an external SIMD library, so the
    evaluator is written against the class [SimdOps] and verified under
    [SimdLaws], the documented element-wise behaviour; the portable build is
    an instance that satisfies the laws. *)

From S2P Require Import Prelude Store Truth Schema Result Program Batch Predicate.
Import Reason.

Module Simdops.

(** ** ops.go *)

Definition Equal : Z := 1.
Definition NotEqual : Z := 2.
Definition Less : Z := 3.
Definition LessEqual : Z := 4.
Definition Greater : Z := 5.
Definition GreaterEqual : Z := 6.

Definition ComparisonValid (comparison : Z) : bool := (Equal <=? comparison) && (comparison <=? GreaterEqual).

Definition maskWordCount (rows : Z) : Z :=
  let words := rows / 64 in
  if negb (Z.land rows 63 =? 0) then words + 1 else words.

Definition packMaskPortable (dst : list Z) (src : list bool) : go (list Z) :=
  let words := maskWordCount (zlen src) in
  require (negb (zlen dst <? words)) "simdops: mask destination too short" ;;
  Ok (setRows (λ row, src !!! row) (length src) (make_ words ++ drop (Z.to_nat words) dst)).

(** ** purego.go *)

(** The comparison each loop body performs. *)
Definition compareScalar (comparison left right : Z) : bool :=
  if comparison =? Equal then left =? right
  else if comparison =? NotEqual then negb (left =? right)
  else if comparison =? Less then left <? right
  else if comparison =? LessEqual then left <=? right
  else if comparison =? Greater then right <? left
  else right <=? left.

(** [CompareU32] and [CompareI64] share this text. *)
Definition compareColumn (dst : list bool) (src : list Z) (value comparison : Z) : go (list bool) :=
  require (ComparisonValid comparison) "simdops: invalid comparison" ;;
  let n := Nat.min (length dst) (length src) in
  Ok (map (λ i, compareScalar comparison (src !!! i) value) (seq 0 n) ++ drop n dst).

Definition CompareU32 : list bool → list Z → Z → Z → go (list bool) := compareColumn.
Definition CompareI64 : list bool → list Z → Z → Z → go (list bool) := compareColumn.

(** [for i := range min(len(dst), len(a), len(b)) { dst[i] = f(a[i], b[i]) }]. *)
Definition zipInto {A} `{Inhabited A} (f : A → A → A) (dst a b : list A) : list A :=
  let n := Nat.min (length dst) (Nat.min (length a) (length b)) in
  map (λ i, f (a !!! i) (b !!! i)) (seq 0 n) ++ drop n dst.

Definition AndWords : list Z → list Z → list Z → list Z := zipInto Z.land.
Definition OrWords : list Z → list Z → list Z → list Z := zipInto Z.lor.
Definition XorWords : list Z → list Z → list Z → list Z := zipInto Z.lxor.
Definition AndNotWords : list Z → list Z → list Z → list Z := zipInto Z.ldiff.
Definition AndMask : list bool → list bool → list bool → list bool := zipInto andb.
Definition OrMask : list bool → list bool → list bool → list bool := zipInto orb.
Definition XorMask : list bool → list bool → list bool → list bool := zipInto xorb.
Definition NotMask (dst src : list bool) : list bool := zipInto (λ x _, negb x) dst src src.
Definition PackMask : list Z → list bool → go (list Z) := packMaskPortable.

(** [CompressU32]: the written prefix of [dst] and the count. *)
Definition CompressU32 (dst src : list Z) (mask : list bool) : list Z * nat :=
  let n := Nat.min (length src) (length mask) in
  foldl (λ (st : list Z * nat) (i : nat), let (dst, written) := st in
    if negb (mask !!! i) then (dst, written)
    else if bool_decide (written = length dst) then (dst, written)
    else (<[written := src !!! i]> dst, S written)) (dst, 0%nat) (seq 0 n).

End Simdops.

(** ** The backend interface *)

Record RuntimeInfo := { Tier : string; PureGo : bool; WordBitwise : Z }.

Class SimdOps := {
  simdCompareU32 : list bool → list Z → Z → Z → go (list bool);
  simdCompareI64 : list bool → list Z → Z → Z → go (list bool);
  simdAndWords : list Z → list Z → list Z → list Z;
  simdOrWords : list Z → list Z → list Z → list Z;
  simdAndNotWords : list Z → list Z → list Z → list Z;
  simdPackMask : list Z → list bool → go (list Z);
  evaluatorSIMD : RuntimeInfo
}.

(** Element-wise behaviour on operands of equal length. *)
Class SimdLaws (ops : SimdOps) : Prop := {
  law_CompareU32 dst src value comparison :
    Simdops.ComparisonValid comparison = true → length dst = length src →
    simdCompareU32 dst src value comparison =
      Ok (map (λ x, Simdops.compareScalar comparison x value) src);
  law_CompareI64 dst src value comparison :
    Simdops.ComparisonValid comparison = true → length dst = length src →
    simdCompareI64 dst src value comparison =
      Ok (map (λ x, Simdops.compareScalar comparison x value) src);
  law_AndWords dst a b : length a = length dst → length b = length dst →
    simdAndWords dst a b = zip_with Z.land a b;
  law_OrWords dst a b : length a = length dst → length b = length dst →
    simdOrWords dst a b = zip_with Z.lor a b;
  law_AndNotWords dst a b : length a = length dst → length b = length dst →
    simdAndNotWords dst a b = zip_with Z.ldiff a b;
  law_PackMask dst src : zlen dst = Simdops.maskWordCount (zlen src) →
    ∃ d, simdPackMask dst src = Ok d ∧ length d = length dst ∧
      ∀ r, (r < 64 * length dst)%nat → rowBit d r = default false (src !! r)
}.

(** The portable build; its runtime always reports [PureGo]. *)
Definition purego_ops : SimdOps := {|
  simdCompareU32 := Simdops.CompareU32;
  simdCompareI64 := Simdops.CompareI64;
  simdAndWords := Simdops.AndWords;
  simdOrWords := Simdops.OrWords;
  simdAndNotWords := Simdops.AndNotWords;
  simdPackMask := Simdops.PackMask;
  evaluatorSIMD := {| Tier := "scalar"; PureGo := true; WordBitwise := 0 |}
|}.

Lemma map_seq_total {A B} `{Inhabited A} (f : A → B) (l : list A) : map (λ i, f (l !!! i)) (seq 0 (length l)) = map f l.
Proof.
  apply list_eq_same_length with (length l); [by rewrite length_map|by rewrite length_map, length_seq|].
  intros i x y Hi Hx Hy. rewrite map_seq_lookup in Hx by done.
  rewrite list_lookup_fmap in Hy. rewrite (list_lookup_lookup_total_lt l) in Hy by done. simpl in Hy. congruence.
Qed.

Lemma zipInto_eq {A} `{Inhabited A} (f : A → A → A) dst a b :
  length a = length dst → length b = length dst → Simdops.zipInto f dst a b = zip_with f a b.
Proof.
  intros Ha Hb. unfold Simdops.zipInto. rewrite Ha, Hb, !Nat.min_id, drop_all, app_nil_r.
  apply list_eq_same_length with (length dst); [rewrite length_zip_with; lia|by rewrite length_map, length_seq|].
  intros i x y Hi Hx Hy. rewrite map_seq_lookup in Hx by done.
  rewrite lookup_zip_with, !list_lookup_lookup_total_lt in Hy by lia. simpl in Hy. congruence.
Qed.

Lemma maskWordCount_bounds n :
  0 ≤ n → 0 ≤ Simdops.maskWordCount n ∧ n ≤ 64 * Simdops.maskWordCount n ∧ 64 * Simdops.maskWordCount n < n + 64.
Proof.
  intros Hn. unfold Simdops.maskWordCount. rewrite land_63.
  pose proof (Z.div_mod n 64). pose proof (Z.mod_pos_bound n 64). pose proof (Z.div_pos n 64).
  destruct (Z.eqb_spec (n mod 64) 0); simpl; lia.
Qed.

Lemma maskWordCount_WordCount rows : is_u32 rows → Simdops.maskWordCount rows = WordCount rows.
Proof.
  intros Hr. pose proof (WordCount_bounds rows Hr). pose proof (maskWordCount_bounds rows).
  unfold is_u32 in Hr. lia.
Qed.

#[export] Instance purego_laws : SimdLaws purego_ops.
Proof.
  assert (∀ dst src value comparison, Simdops.ComparisonValid comparison = true → length dst = length src →
    Simdops.compareColumn dst src value comparison = Ok (map (λ x, Simdops.compareScalar comparison x value) src)) as Hcmp.
  { intros dst src value comparison Hv Hl. unfold Simdops.compareColumn. rewrite Hv. simpl.
    rewrite Hl, Nat.min_id. rewrite <-Hl at 2. rewrite drop_all, app_nil_r.
    by rewrite (map_seq_total (λ x, Simdops.compareScalar comparison x value)). }
  split; try done; try (intros; by apply zipInto_eq).
  intros dst src Hl. simpl. unfold Simdops.PackMask, Simdops.packMaskPortable. rewrite <-Hl.
  rewrite Z.ltb_irrefl. simpl. eexists; split; [done|].
  rewrite Nat2Z.id, drop_all, app_nil_r, length_setRows. unfold make_. rewrite length_replicate, Nat2Z.id.
  split; [done|]. intros r Hr. pose proof (maskWordCount_bounds (zlen src)).
  rewrite rowBit_setRows by (rewrite length_replicate; lia). rewrite rowBit_replicate0 by done. simpl.
  destruct (decide (r < length src)%nat).
  - rewrite bool_decide_eq_true_2 by done. simpl. by rewrite (list_lookup_lookup_total_lt src) by done.
  - rewrite bool_decide_eq_false_2 by done. simpl. by rewrite lookup_ge_None_2 by lia.
Qed.

(** ** Execution modes (simd.go) *)

Inductive executionMode := executionAuto | executionScalar | executionSIMD | executionIndex.

Definition simdComparisonMinRows : Z := 64.
Definition simdWordMinWords : Z := 8.

(** [resizeExecutorScratch]: [l] is the backing array up to its capacity. *)
Definition resizeExecutorScratch {A} (zero : A) (l : list A) (n : Z) : list A :=
  if zlen l <? n then replicate (Z.to_nat n) zero else take (Z.to_nat n) l.

Definition simdComparison (opcode : Z) : option Z :=
  if opcode =? OpcodeEqual then Some Simdops.Equal
  else if opcode =? OpcodeNotEqual then Some Simdops.NotEqual
  else if opcode =? OpcodeLess then Some Simdops.Less
  else if opcode =? OpcodeLessEqual then Some Simdops.LessEqual
  else if opcode =? OpcodeGreater then Some Simdops.Greater
  else if opcode =? OpcodeGreaterEqual then Some Simdops.GreaterEqual
  else None.

Definition maskSIMDTruthTail (dst : list Z * list Z) (rows : Z) : go (list Z * list Z) :=
  let remaining := Z.land rows 63 in
  if remaining =? 0 then Ok dst else
  let mask := bit64 remaining - 1 in
  let last := zlen dst.1 - 1 in
  p ← at_ dst.1 last;
  n ← at_ dst.2 last;
  Ok (<[Z.to_nat last := Z.land p mask]> dst.1, <[Z.to_nat last := Z.land n mask]> dst.2).

Section backend.
Context {ops : SimdOps}.

Definition useSIMDRows (mode : executionMode) (rows threshold : Z) : bool :=
  match mode with
  | executionSIMD => true
  | executionScalar | executionIndex => false
  | executionAuto =>
    negb (PureGo evaluatorSIMD) && negb (String.eqb (Tier evaluatorSIMD) "scalar") && (threshold <=? rows)
  end.

Definition useSIMDWords (mode : executionMode) (words : Z) : bool :=
  useSIMDRows mode (u32 words) (Z.max simdWordMinWords (WordBitwise evaluatorSIMD)).

(** The word kernels of a boolean column: [(positive, negative)]. *)
Definition simdBooleanPlanes (dst : list Z * list Z) (presence vs : list Z) (matchesSetBits : bool) : list Z * list Z :=
  if matchesSetBits then (simdAndWords dst.1 presence vs, simdAndNotWords dst.2 presence vs)
  else (simdAndNotWords dst.1 presence vs, simdAndWords dst.2 presence vs).

(** The column kernels of a row-valued kind: the comparison mask. *)
Definition simdCompareMask (compareMask : list bool) (batch : Batch) (kind column : Z) (value : predicateValue)
    (comparison : Z) : go (list bool) :=
  if kind =? ValueKindSymbol then
    vs ← batchRowColumn batch (SymbolValues batch) column;
    simdCompareU32 compareMask vs (symbol value) comparison
  else if kind =? ValueKindInteger then
    vs ← batchRowColumn batch (bIntegerValues batch) column;
    simdCompareI64 compareMask vs (integer value) comparison
  else if kind =? ValueKindTimestamp then
    vs ← batchRowColumn batch (bTimestampValues batch) column;
    simdCompareI64 compareMask vs (timestamp value) comparison
  else Ok compareMask.

(** [evalPredicateSIMD]: [None] when it declines; the second component is the
    executor's [compareMask] scratch afterwards. *)
Definition evalPredicateSIMD (compareMask : list bool) (dst : Planes) (reasons : slice) (batch : Batch) (p : Program)
    (instruction : Z) (mode : executionMode) : go (option LeafOut * list bool) :=
  let row := instruction - 1 in
  opcode ← at_ (Opcodes p) row;
  match simdComparison opcode with
  | None => Ok (None, compareMask)
  | Some comparison =>
    field ← at_ (Fields p) row;
    '(kind, column) ← predicateField p field;
    require (negb (orderedPredicate opcode && negb (kind =? ValueKindInteger) && negb (kind =? ValueKindTimestamp)))
      "eval: ordered predicate requires numeric field" ;;
    if negb (kind =? ValueKindSymbol) && negb (kind =? ValueKindInteger) &&
       negb (kind =? ValueKindTimestamp) && negb (kind =? ValueKindBoolean) then Ok (None, compareMask) else
    if (if kind =? ValueKindBoolean then negb (useSIMDWords mode (WordCount (Rows batch)))
        else negb (useSIMDRows mode (Rows batch) simdComparisonMinRows)) then Ok (None, compareMask) else
    vid ← at_ (Values p) row;
    value ← programPredicateValue p vid kind;
    words ← resetLeafOutputs dst reasons (Rows batch);
    presence ← batchWordColumn batch (PresenceMasks batch) (u32 (field - 1));
    missing ← map_go (λ word, pw ← at_ presence (Z.of_nat word);
                Ok (Z.ldiff (leafWordMask (Z.of_nat word) words (Rows batch)) pw)) (seq 0 (Z.to_nat words));
    let reasons := missing ++ make_ ((ReasonCount - 1) * words) in
    let zero := make_ words in
    if kind =? ValueKindBoolean then
      vs ← batchWordColumn batch (bBooleanValues batch) column;
      let planes := simdBooleanPlanes (zero, zero) presence vs (Bool.eqb (boolean value) (opcode =? OpcodeEqual)) in
      '(pos, neg) ← maskSIMDTruthTail planes (Rows batch);
      Ok (Some {| lPositive := pos; lNegative := neg; lReasons := reasons |}, compareMask)
    else
      let compareMask := resizeExecutorScratch false compareMask (Rows batch) in
      compareMask ← simdCompareMask compareMask batch kind column value comparison;
      pos ← simdPackMask zero compareMask;
      let pos := simdAndWords pos pos presence in
      let neg := simdAndNotWords zero presence pos in
      '(pos, neg) ← maskSIMDTruthTail (pos, neg) (Rows batch);
      Ok (Some {| lPositive := pos; lNegative := neg; lReasons := reasons |}, compareMask)
  end.

(** ** Slab operations: kernels on slices of the executor's truth slab *)

Definition simdTruthAnd (dst left right : Planes) (rows : Z) (m : store) : go store :=
  let m := blit (Positive dst) (simdAndWords (view m (Positive dst)) (view m (Positive left)) (view m (Positive right))) m in
  let m := blit (Negative dst) (simdOrWords (view m (Negative dst)) (view m (Negative left)) (view m (Negative right))) m in
  '(p, n) ← maskSIMDTruthTail (view m (Positive dst), view m (Negative dst)) rows;
  Ok (blit (Negative dst) n (blit (Positive dst) p m)).

Definition simdTruthOr (dst left right : Planes) (rows : Z) (m : store) : go store :=
  let m := blit (Positive dst) (simdOrWords (view m (Positive dst)) (view m (Positive left)) (view m (Positive right))) m in
  let m := blit (Negative dst) (simdAndWords (view m (Negative dst)) (view m (Negative left)) (view m (Negative right))) m in
  '(p, n) ← maskSIMDTruthTail (view m (Positive dst), view m (Negative dst)) rows;
  Ok (blit (Negative dst) n (blit (Positive dst) p m)).

Definition simdReasonOr (dst left right : slice) (m : store) : store :=
  blit dst (simdOrWords (view m dst) (view m left) (view m right)) m.
End backend.

(** ** The SIMD leaf against the row-wise reference *)

Lemma maskSIMDTruthTail_spec (pos neg : list Z) rows :
  is_u32 rows → length pos = nwords rows → length neg = nwords rows →
  ∃ p n, maskSIMDTruthTail (pos, neg) rows = Ok (p, n) ∧ length p = nwords rows ∧ length n = nwords rows ∧
    ∀ r, (r < 64 * nwords rows)%nat →
      rowBit p r = rowBit pos r && tailKeep rows r ∧ rowBit n r = rowBit neg r && tailKeep rows r.
Proof.
  intros Hr Hp Hn. pose proof (WordCount_bounds rows Hr) as (? & ? & ?).
  unfold maskSIMDTruthTail. rewrite land_63. simpl.
  destruct (Z.eqb_spec (rows mod 64) 0) as [Hz|Hz].
  - exists pos, neg. split_and!; try done. intros r Hrr. pose proof (row_split r).
    rewrite full_row by (done || lia). by rewrite !andb_true_r.
  - pose proof (Z.mod_pos_bound rows 64). pose proof (Z.div_mod rows 64).
    assert (0 < nwords rows)%nat as Hw by (unfold is_u32 in Hr; lia).
    rewrite !at_total by lia. simpl. eexists _, _; split; [done|]. rewrite !length_insert.
    split_and!; [done..|]. intros r Hrr. rewrite !rowBit_insert by lia. unfold rowBit.
    pose proof (row_split r) as [Er ?]. destruct (decide (r `div` 64 = Z.to_nat (zlen pos - 1))%nat) as [Hl|Hl].
    + rewrite bool_decide_eq_true_2 by done. rewrite <-!Hl, !Z.land_spec, !testbit_lowmask by lia.
      by rewrite !tail_row by (done || lia).
    + rewrite bool_decide_eq_false_2 by done. rewrite full_row by (done || lia). by rewrite !andb_true_r.
Qed.

Lemma rowBit_zip_with (f : Z → Z → Z) (c : bool → bool → bool) (a b : list Z) r :
  (∀ x y i, Z.testbit (f x y) i = c (Z.testbit x i) (Z.testbit y i)) →
  length a = length b → (r < 64 * length a)%nat →
  rowBit (zip_with f a b) r = c (rowBit a r) (rowBit b r).
Proof.
  intros Hf Hl Hr. unfold rowBit. pose proof (row_split r) as [Er ?].
  rewrite (list_lookup_total_alt (zip_with _ _ _)), lookup_zip_with.
  rewrite (list_lookup_lookup_total_lt a), (list_lookup_lookup_total_lt b) by lia. simpl. by rewrite Hf.
Qed.

Lemma length_resizeExecutorScratch {A} (zero : A) l n : 0 ≤ n → zlen (resizeExecutorScratch zero l n) = n.
Proof.
  intros Hn. unfold resizeExecutorScratch.
  destruct (Z.ltb_spec (zlen l) n); rewrite ?length_replicate, ?length_take; lia.
Qed.

Lemma simdComparison_holds opcode comparison a c :
  simdComparison opcode = Some comparison →
  Simdops.ComparisonValid comparison = true ∧
  Simdops.compareScalar comparison a c = compareHolds opcode a c.
Proof.
  unfold simdComparison, compareHolds, compareInt64. intros E.
  repeat case_match; simplify_eq; done.
Qed.

Lemma simdComparison_cases opcode comparison :
  simdComparison opcode = Some comparison →
  (opcode = OpcodeEqual ∨ opcode = OpcodeNotEqual ∨ orderedPredicate opcode = true) ∧
  (opcode =? OpcodeIn) = false ∧ (opcode =? OpcodeExists) = false ∧ (opcode =? OpcodeDefined) = false.
Proof.
  unfold simdComparison, orderedPredicate, OpcodeEqual, OpcodeNotEqual, OpcodeLess, OpcodeLessEqual, OpcodeGreater,
    OpcodeGreaterEqual, OpcodeIn, OpcodeExists, OpcodeDefined.
  intros. repeat case_match; simplify_eq; lia.
Qed.

Section simd_leaf.
Context {ops : SimdOps} {laws : SimdLaws ops}.
Context (p : Program) (b : Batch) (row : nat) (kind column : Z).
Context (Hco : columns_ok p b).
Context (Hok : predicateOk p row = true).
Context (Hlookup : SchemaLookup (FieldIndex p) (Fields p !!! row) = Some (kind, column)).

Local Abbreviation opcode := (Opcodes p !!! row).
Local Abbreviation value := (valueOf p (Values p !!! row) kind).

(** A compared row column is the mask of the reference comparison. *)
Lemma simd_mask_of (vs : list Z) (v comparison : Z) r :
  simdComparison opcode = Some comparison → zlen vs = sCounts (FieldIndex p) !!! Z.to_nat kind * sourceRows b →
  0 ≤ column < sCounts (FieldIndex p) !!! Z.to_nat kind →
  (r < Z.to_nat (Rows b))%nat →
  map (λ x, Simdops.compareScalar comparison x v) (csr vs (column * sourceRows b + rowBase b) (Rows b)) !! r
    = Some (compareHolds opcode (colValue b vs column r) v) ∧
  length (csr vs (column * sourceRows b + rowBase b) (Rows b)) = Z.to_nat (Rows b).
Proof.
  intros Hcmp Hlen Hcol Hr. destruct Hco as [Hb _ Hv _ _ _ _ _].
  destruct (validPhysicalRange_inv b Hb Hv) as (_ & _ & Hle). pose proof (sourceRows_u32 b Hb) as Hs.
  assert (is_u32 (Rows b) ∧ is_u32 (rowBase b)) as [? ?] by (by destruct Hb). unfold is_u32 in *.
  assert (length (csr vs (column * sourceRows b + rowBase b) (Rows b)) = Z.to_nat (Rows b)) as Hl by (apply length_csr; nia).
  split; [|done]. rewrite list_lookup_fmap, (list_lookup_lookup_total_lt (csr _ _ _)) by lia. simpl.
  rewrite colValue_row by (done || lia). f_equal. by apply simdComparison_holds.
Qed.

Lemma simdCompareMask_ok mask comparison :
  simdComparison opcode = Some comparison → zlen mask = Rows b →
  kind = ValueKindSymbol ∨ kind = ValueKindInteger ∨ kind = ValueKindTimestamp →
  ∃ m, simdCompareMask mask b kind column value comparison = Ok m ∧ zlen m = Rows b ∧
    ∀ r, (r < Z.to_nat (Rows b))%nat → m !! r = Some (comparisonMatches b opcode kind column value r).
Proof.
  intros Hcmp Hmask Hkinds.
  destruct (predicateOk_facts p row kind column Hok Hlookup) as (_ & _ & _ & Hk & Hcol & _ & _ & Hord).
  pose proof (simdComparison_holds opcode comparison 0 0 Hcmp) as [Hvalid _].
  assert (∀ vs : list Z, zlen vs = sCounts (FieldIndex p) !!! Z.to_nat kind * sourceRows b →
    length mask = length (csr vs (column * sourceRows b + rowBase b) (Rows b))) as Hl.
  { intros vs Hvs. destruct Hco as [Hb _ Hv _ _ _ _ _].
    destruct (validPhysicalRange_inv b Hb Hv) as (_ & _ & Hle). pose proof (sourceRows_u32 b Hb) as Hs.
    assert (is_u32 (Rows b) ∧ is_u32 (rowBase b)) as [? ?] by (by destruct Hb). unfold is_u32 in *.
    rewrite length_csr by nia. lia. }
  assert (∀ (vs : list Z) v, zlen vs = sCounts (FieldIndex p) !!! Z.to_nat kind * sourceRows b →
    zlen (map (λ x, Simdops.compareScalar comparison x v) (csr vs (column * sourceRows b + rowBase b) (Rows b))) = Rows b) as Hl'.
  { intros vs v Hvs. rewrite length_map. rewrite <-(Hl vs Hvs). done. }
  unfold simdCompareMask, comparisonMatches, literalMatches.
  destruct Hkinds as [E|[E|E]]; rewrite E; simpl.
  - rewrite (read_symbols p b Hco kind column Hk Hcol E). simpl.
    assert (zlen (SymbolValues b) = sCounts (FieldIndex p) !!! Z.to_nat kind * sourceRows b) as Hz by (rewrite E; apply Hco).
    rewrite law_CompareU32 by (try apply Hl; done). eexists; split; [done|]. split; [by apply Hl'|].
    intros r Hr. destruct (simd_mask_of (SymbolValues b) (symbol (valueOf p (Values p !!! row) 1)) comparison r) as [Hm _]; try done.
    unfold ValueKindSymbol. rewrite Hm. f_equal. unfold compareHolds, compareInt64.
    destruct (simdComparison_cases _ _ Hcmp) as ([-> |[-> |Ho']] & _); [done..|].
    rewrite E in Hord. by destruct (Hord Ho').
  - rewrite (read_integers p b Hco kind column Hk Hcol E). simpl.
    assert (zlen (bIntegerValues b) = sCounts (FieldIndex p) !!! Z.to_nat kind * sourceRows b) as Hz by (rewrite E; apply Hco).
    rewrite law_CompareI64 by (try apply Hl; done). eexists; split; [done|]. split; [by apply Hl'|].
    intros r Hr. by apply simd_mask_of.
  - rewrite (read_timestamps p b Hco kind column Hk Hcol E). simpl.
    assert (zlen (bTimestampValues b) = sCounts (FieldIndex p) !!! Z.to_nat kind * sourceRows b) as Hz by (rewrite E; apply Hco).
    rewrite law_CompareI64 by (try apply Hl; done). eexists; split; [done|]. split; [by apply Hl'|].
    intros r Hr. by apply simd_mask_of.
Qed.

Local Abbreviation presence :=
  (csr (PresenceMasks b) ((Fields p !!! row - 1) * sourceWords b + wordBase b) (WordCount (Rows b))).
Local Abbreviation presentAt := (colBit b (PresenceMasks b) (Fields p !!! row - 1)).
Local Abbreviation matchAt := (comparisonMatches b opcode kind column value).

Lemma simd_presence :
  length presence = nwords (Rows b) ∧
  ∀ r, (r < 64 * nwords (Rows b))%nat → rowBit presence r = presentAt r.
Proof.
  destruct (presence_column p b row kind column Hco Hok Hlookup) as (_ & _ & Hl). split; [done|].
  destruct (predicateOk_facts p row kind column Hok Hlookup) as (_ & _ & Hf & _).
  intros r Hr. apply colBit_row; try done; [apply Hco..|lia].
Qed.

(** Pack, mask by presence and trim: the planes of a row-valued kind. *)
Lemma simd_row_planes (mask : list bool) :
  zlen mask = Rows b →
  (∀ r, (r < Z.to_nat (Rows b))%nat → mask !! r = Some (matchAt r)) →
  let zero := make_ (WordCount (Rows b)) in
  ∃ packed pos neg, simdPackMask zero mask = Ok packed ∧
    maskSIMDTruthTail (simdAndWords packed packed presence,
      simdAndNotWords zero presence (simdAndWords packed packed presence)) (Rows b) = Ok (pos, neg) ∧
    length pos = nwords (Rows b) ∧ length neg = nwords (Rows b) ∧
    ∀ r, (r < 64 * nwords (Rows b))%nat →
      rowBit pos r = tailKeep (Rows b) r && (presentAt r && matchAt r) ∧
      rowBit neg r = tailKeep (Rows b) r && (presentAt r && negb (matchAt r)).
Proof.
  intros Hlen Hm zero. assert (is_u32 (Rows b)) as Hr by (destruct Hco as [[] _ _ _ _ _ _ _]; done).
  destruct (WordCount_bounds (Rows b) Hr) as (Hw & _ & _).
  assert (length zero = nwords (Rows b)) as Hz by (unfold zero, make_; by rewrite length_replicate).
  destruct simd_presence as [Hpl Hpb].
  destruct (law_PackMask zero mask) as (packed & Hpack & Hlp & Hbits).
  { rewrite Hlen, maskWordCount_WordCount by done. lia. }
  exists packed. rewrite (law_AndWords packed) by lia.
  rewrite law_AndNotWords by (rewrite ?length_zip_with; lia).
  destruct (maskSIMDTruthTail_spec (zip_with Z.land packed presence)
    (zip_with Z.ldiff presence (zip_with Z.land packed presence)) (Rows b)) as (pos & neg & Hmask & Hl1 & Hl2 & Htail);
    [done|rewrite ?length_zip_with; lia..|].
  exists pos, neg. split_and!; try done. intros r Hrr. destruct (Htail r Hrr) as [-> ->].
  rewrite (rowBit_zip_with Z.ldiff (λ x y, x && negb y)), !(rowBit_zip_with Z.land andb), Hpb, Hbits
    by (rewrite ?length_zip_with; (intros; apply Z.ldiff_spec || apply Z.land_spec) || lia).
  unfold tailKeep. destruct (bool_decide_reflect (Z.of_nat r < Rows b)) as [Hlt|].
  - rewrite Hm by lia. simpl. rewrite !andb_true_r. by destruct (matchAt r), (presentAt r).
  - by rewrite !andb_false_r.
Qed.

(** The planes of a boolean column. *)
Lemma simd_boolean_planes :
  kind = ValueKindBoolean → opcode = OpcodeEqual ∨ opcode = OpcodeNotEqual →
  let zero := make_ (WordCount (Rows b)) in
  let vs := csr (bBooleanValues b) (column * sourceWords b + wordBase b) (WordCount (Rows b)) in
  ∃ pos neg, maskSIMDTruthTail (simdBooleanPlanes (zero, zero) presence vs
      (Bool.eqb (boolean value) (opcode =? OpcodeEqual))) (Rows b) = Ok (pos, neg) ∧
    length pos = nwords (Rows b) ∧ length neg = nwords (Rows b) ∧
    ∀ r, (r < 64 * nwords (Rows b))%nat →
      rowBit pos r = tailKeep (Rows b) r && (presentAt r && matchAt r) ∧
      rowBit neg r = tailKeep (Rows b) r && (presentAt r && negb (matchAt r)).
Proof.
  intros Ek Eop zero vs. assert (is_u32 (Rows b)) as Hr by (destruct Hco as [[] _ _ _ _ _ _ _]; done).
  destruct (predicateOk_facts p row kind column Hok Hlookup) as (_ & _ & _ & Hk & Hcol & _).
  assert (length zero = nwords (Rows b)) as Hz by (unfold zero, make_; by rewrite length_replicate).
  assert (length vs = nwords (Rows b)) as Hlv by (by eapply length_booleans).
  assert (∀ r, (r < 64 * nwords (Rows b))%nat → rowBit vs r = colBit b (bBooleanValues b) column r) as Hvb.
  { intros r Hrr. apply colBit_row; try done; [apply Hco..|lia]. }
  destruct simd_presence as [Hpl Hpb].
  unfold simdBooleanPlanes. simpl. rewrite law_AndWords, law_AndNotWords by lia.
  set (both := zip_with Z.land presence vs). set (only := zip_with Z.ldiff presence vs).
  assert (length both = nwords (Rows b) ∧ length only = nwords (Rows b)) as [Hlb Hlo]
    by (unfold both, only; rewrite !length_zip_with; lia).
  assert (∀ r, (r < 64 * nwords (Rows b))%nat →
    rowBit both r = presentAt r && colBit b (bBooleanValues b) column r ∧
    rowBit only r = presentAt r && negb (colBit b (bBooleanValues b) column r)) as Hbits.
  { intros r Hrr. unfold both, only.
    rewrite (rowBit_zip_with Z.land andb), (rowBit_zip_with Z.ldiff (λ x y, x && negb y)), Hpb, Hvb
      by ((intros; apply Z.ldiff_spec || apply Z.land_spec) || lia). done. }
  assert (∀ r, matchAt r = if Bool.eqb (boolean value) (opcode =? OpcodeEqual)
    then colBit b (bBooleanValues b) column r else negb (colBit b (bBooleanValues b) column r)) as Hmatch.
  { intros r. unfold comparisonMatches, literalMatches. rewrite Ek. simpl.
    destruct Eop as [-> | ->]; simpl; destruct (boolean _), (colBit _ _ _ _); done. }
  destruct (Bool.eqb (boolean value) (opcode =? OpcodeEqual)).
  - destruct (maskSIMDTruthTail_spec both only (Rows b)) as (pos & neg & Hmask & Hl1 & Hl2 & Htail); [done..|].
    exists pos, neg. split_and!; try done. intros r Hrr. destruct (Htail r Hrr) as [-> ->], (Hbits r Hrr) as [-> ->].
    rewrite Hmatch. by destruct (tailKeep _ _); rewrite ?andb_true_r, ?andb_false_r.
  - destruct (maskSIMDTruthTail_spec only both (Rows b)) as (pos & neg & Hmask & Hl1 & Hl2 & Htail); [done..|].
    exists pos, neg. split_and!; try done. intros r Hrr. destruct (Htail r Hrr) as [-> ->], (Hbits r Hrr) as [-> ->].
    rewrite Hmatch, negb_involutive. by destruct (tailKeep _ _); rewrite ?andb_true_r, ?andb_false_r.
Qed.

Lemma simd_predicateRow r comparison :
  simdComparison opcode = Some comparison →
  predicateRow p b row r =
    ((presentAt r && matchAt r, presentAt r && negb (matchAt r)),
     if presentAt r then 0 else ReasonBit ReasonMissing).
Proof.
  intros Hcmp. unfold predicateRow, predicateMatches. rewrite Hlookup. simpl.
  by destruct (simdComparison_cases _ _ Hcmp) as (_ & -> & -> & ->).
Qed.

Lemma evalPredicateSIMD_spec mask dst reasons mode :
  leaf_shape dst reasons (Rows b) →
  ∃ r mask', evalPredicateSIMD mask dst reasons b p (Z.of_nat row + 1) mode = Ok (r, mask') ∧
    match r with None => True | Some out => leaf_spec (Rows b) out (predicateRow p b row) end.
Proof.
  intros Hshape. assert (is_u32 (Rows b)) as Hr by (destruct Hco as [[] _ _ _ _ _ _ _]; done).
  destruct (predicateOk_facts p row kind column Hok Hlookup)
    as ((Ho & Hf & Hv & _ & _) & Hop & Hf1 & Hk & Hcol & Hops & Hpk & Hord).
  destruct (presence_column p b row kind column Hco Hok Hlookup) as (Hpres & _ & Hpl).
  assert (length (sCounts (FieldIndex p)) = 6%nat) as Hl6 by apply Hco.
  assert (0 < kind < 6) as Hk6 by (unfold KindValid, ValueKindSymbol, ValueKindPresence in Hk; lia).
  unfold evalPredicateSIMD. replace (Z.of_nat row + 1 - 1) with (Z.of_nat row) by lia.
  rewrite (at_total (Opcodes p)) by lia. rewrite Nat2Z.id. simpl.
  destruct (simdComparison opcode) as [comparison|] eqn:Hcmp; [|by eexists _, _].
  rewrite !at_total by lia. rewrite !Nat2Z.id. simpl.
  unfold predicateField. rewrite Hlookup, Hk. simpl. rewrite at_total by lia. simpl.
  rewrite (proj2 (Z.ltb_lt _ _)) by lia. simpl.
  replace (negb (orderedPredicate opcode && negb (kind =? ValueKindInteger) && negb (kind =? ValueKindTimestamp))) with true.
  2: { destruct (orderedPredicate opcode) eqn:E; [|done]. by destruct (Hord eq_refl) as [-> | ->]. }
  simpl. destruct (_ && _ && _ && _) eqn:Hkinds; [by eexists _, _|].
  destruct (if kind =? ValueKindBoolean then _ else _); [by eexists _, _|].
  rewrite decodable_Ok. 2: { by destruct (simdComparison_cases _ _ Hcmp) as (_ & Ei & Ee & Ed); rewrite Ei, Ee, Ed in Hops. }
  simpl. rewrite resetLeafOutputs_ok by done. simpl. rewrite Hpres. simpl.
  pose (miss := λ w, Z.ldiff (leafWordMask (Z.of_nat w) (WordCount (Rows b)) (Rows b)) (presence !!! w)).
  rewrite (map_go_Ok _ miss).
  2: { intros w Hw%elem_of_seq. rewrite at_total by lia. by rewrite Nat2Z.id. }
  simpl. destruct simd_presence as [_ Hpb].
  assert (∀ r, (r < 64 * nwords (Rows b))%nat → rowBit (map miss (seq 0 (nwords (Rows b)))) r =
    tailKeep (Rows b) r && Has (predicateRow p b row r).2 ReasonMissing) as Hmiss.
  { intros r Hrr. rewrite rowBit_map_seq by done. pose proof (row_split r) as [Er Hj]. unfold miss.
    rewrite Z.ldiff_spec, testbit_leafWordMask by (done || lia). rewrite <-Er.
    change (Z.testbit (presence !!! (r `div` 64)%nat) (Z.of_nat (r `mod` 64))) with (rowBit presence r).
    rewrite Hpb by done. rewrite (simd_predicateRow r comparison Hcmp). by destruct (presentAt r). }
  assert (∀ pos neg, length pos = nwords (Rows b) → length neg = nwords (Rows b) →
    (∀ r, (r < 64 * nwords (Rows b))%nat →
      rowBit pos r = tailKeep (Rows b) r && (presentAt r && matchAt r) ∧
      rowBit neg r = tailKeep (Rows b) r && (presentAt r && negb (matchAt r))) →
    leaf_spec (Rows b) {| lPositive := pos; lNegative := neg;
      lReasons := map miss (seq 0 (nwords (Rows b))) ++ make_ ((ReasonCount - 1) * WordCount (Rows b)) |}
      (predicateRow p b row)) as Hfinish.
  { intros pos neg Hlp Hln Hbits. apply leaf_intro; try done; [by rewrite length_map, length_seq| |].
    - intros r Hrr. rewrite Hmiss by done. destruct (Hbits r Hrr) as [-> ->].
      by rewrite (simd_predicateRow r comparison Hcmp).
    - intros r reason. by eapply predicateRow_missing_only. }
  destruct (Z.eqb_spec kind ValueKindBoolean) as [Ek|Ek].
  - rewrite (read_booleans p b Hco kind column Hk Hcol Ek). simpl.
    destruct simd_boolean_planes as (pos & neg & -> & Hlp & Hln & Hbits); [done| |].
    { destruct (simdComparison_cases _ _ Hcmp) as ([?|[?|Ho']] & _); [by left|by right|].
      rewrite Ek in Hord. by destruct (Hord Ho'). }
    simpl. eexists _, _; split; [done|]. by apply Hfinish.
  - destruct (simdCompareMask_ok (resizeExecutorScratch false mask (Rows b)) comparison)
      as (m & -> & Hlm & Hm); [done| | |].
    { apply length_resizeExecutorScratch. apply Hr. }
    { lia. }
    simpl. destruct (simd_row_planes m Hlm Hm) as (packed & pos & neg & -> & Hmask & Hlp & Hln & Hbits). simpl.
    rewrite Hmask. simpl. eexists _, _; split; [done|]. by apply Hfinish.
Qed.
End simd_leaf.

(** ** The slab kernels against the scalar connectives *)

Lemma planeRow_view m s r : (r < 64 * len s)%nat → planeRow m s r = rowBit (view m s) r.
Proof.
  intros Hr. unfold planeRow, rowBit. pose proof (row_split r). by rewrite view_lookup_total by lia.
Qed.

Lemma planeRow_blit s src m r :
  in_bounds m s → length src = len s → (r < 64 * len s)%nat → planeRow (blit s src m) s r = rowBit src r.
Proof.
  intros Hb Hl Hr. unfold planeRow, rowBit. pose proof (row_split r). by rewrite blit_inside by (done || lia).
Qed.

Lemma planeRow_blit_other s t src m r :
  in_bounds m s → disjoint_slices s t → (r < 64 * len t)%nat → planeRow (blit s src m) t r = planeRow m t r.
Proof.
  intros Hb Hd Hr. unfold planeRow. pose proof (row_split r). rewrite blit_outside; [done|done|].
  unfold inside, disjoint_slices in *. lia.
Qed.

Lemma in_bounds_blit s src m t : in_bounds m s → in_bounds m t → in_bounds (blit s src m) t.
Proof. intros Hs Ht. unfold in_bounds. by rewrite length_blit. Qed.

Ltac slab := first [done | lia | apply in_bounds_blit; slab].

(** Two kernels and a tail mask write exactly the rows of [dst]. *)
Lemma kernel_pair_written (pos neg : list Z) dst rows m (G : nat → tv) :
  is_u32 rows → planes_wf m dst rows → length pos = nwords rows → length neg = nwords rows →
  (∀ r, (r < 64 * nwords rows)%nat → (rowBit pos r, rowBit neg r) = G r) →
  let m2 := blit (Negative dst) neg (blit (Positive dst) pos m) in
  ∃ m', ('(p, n) ← maskSIMDTruthTail (view m2 (Positive dst), view m2 (Negative dst)) rows;
         Ok (blit (Negative dst) n (blit (Positive dst) p m2))) = Ok m' ∧
    planes_rows m m' dst rows G.
Proof.
  intros Hr (HlP & HlN & HbP & HbN & Hd) Hlp Hln HG m2.
  assert (in_bounds m2 (Positive dst) ∧ in_bounds m2 (Negative dst)) as [Hm2P Hm2N]
    by (unfold m2; split; slab).
  assert (length m2 = length m) as Hlm2 by (unfold m2; rewrite !length_blit by slab; done).
  destruct (maskSIMDTruthTail_spec (view m2 (Positive dst)) (view m2 (Negative dst)) rows)
    as (p & n & -> & Hp & Hn & Htail); [done|rewrite length_view by done; lia..|].
  simpl. eexists; split; [done|]. split_and!.
  - rewrite !length_blit by slab. done.
  - intros k Hk1 Hk2. rewrite !blit_outside by slab. unfold m2.
    by rewrite !blit_outside by slab.
  - intros r Hrr. unfold planesRow.
    assert (disjoint_slices (Negative dst) (Positive dst)) by (unfold disjoint_slices in *; lia).
    rewrite planeRow_blit_other, !planeRow_blit by slab.
    destruct (Htail r Hrr) as [-> ->]. rewrite <-!planeRow_view by lia. unfold m2.
    rewrite planeRow_blit_other, !planeRow_blit by slab.
    rewrite <-HG by done. unfold tailKeep. destruct (bool_decide _); by rewrite ?andb_true_r, ?andb_false_r.
Qed.

Lemma view_blit_other s t src m : in_bounds m s → disjoint_slices s t → in_bounds m t → view (blit s src m) t = view m t.
Proof.
  intros Hs Hd Ht. apply list_eq_same_length with (len t); [by rewrite length_view|rewrite length_view; slab|].
  intros i x y Hi Hx Hy. rewrite view_lookup in Hx, Hy by done. unfold in_bounds in *.
  apply list_lookup_total_correct in Hx, Hy. rewrite <-Hx, <-Hy.
  apply blit_outside; [done|]. unfold inside, disjoint_slices in *. lia.
Qed.

Section slab_kernels.
Context {ops : SimdOps} {laws : SimdLaws ops}.
Context (rows : Z) (m : store) (dst left right : Planes).
Context (Hrows : is_u32 rows) (Hdst : planes_wf m dst rows).
Context (Hl : planes_wf m left rows) (Hr : planes_wf m right rows).
Context (Hal : alias_ok dst left) (Har : alias_ok dst right).

(** The second kernel still reads the initial words of its operands. *)
Lemma second_kernel_view src pos :
  planes_wf m src rows → alias_ok dst src →
  view (blit (Positive dst) pos m) (Negative src) = view m (Negative src).
Proof.
  intros (_ & _ & _ & HbN & Hd) Ha. destruct Hdst as (_ & _ & HbP & _ & Hdd).
  apply view_blit_other; [done| |done]. by destruct Ha as [->|(_ & ? & _)].
Qed.

Lemma length_operand src : planes_wf m src rows →
  length (view m (Positive src)) = nwords rows ∧ length (view m (Negative src)) = nwords rows.
Proof. intros (HlP & HlN & HbP & HbN & _). by rewrite !length_view. Qed.

Lemma simdTruthAnd_rows :
  ∃ m', simdTruthAnd dst left right rows m = Ok m' ∧
    planes_rows m m' dst rows (λ r, tv_and (planesRow m left r) (planesRow m right r)).
Proof.
  destruct (length_operand dst Hdst), (length_operand left Hl), (length_operand right Hr).
  unfold simdTruthAnd. rewrite !second_kernel_view by (done || by left).
  rewrite law_AndWords, law_OrWords by congruence.
  eapply kernel_pair_written; [done|done|rewrite length_zip_with; lia..|].
  intros r Hrr. destruct Hl as (HlP & HlN & _), Hr as (HrP & HrN & _).
  rewrite (rowBit_zip_with Z.land andb), (rowBit_zip_with Z.lor orb)
    by ((intros; apply Z.lor_spec || apply Z.land_spec) || lia).
  unfold tv_and, planesRow. simpl. by rewrite !planeRow_view by lia.
Qed.

Lemma simdTruthOr_rows :
  ∃ m', simdTruthOr dst left right rows m = Ok m' ∧
    planes_rows m m' dst rows (λ r, tv_or (planesRow m left r) (planesRow m right r)).
Proof.
  destruct (length_operand dst Hdst), (length_operand left Hl), (length_operand right Hr).
  unfold simdTruthOr. rewrite !second_kernel_view by (done || by left).
  rewrite law_AndWords, law_OrWords by congruence.
  eapply kernel_pair_written; [done|done|rewrite length_zip_with; lia..|].
  intros r Hrr. destruct Hl as (HlP & HlN & _), Hr as (HrP & HrN & _).
  rewrite (rowBit_zip_with Z.land andb), (rowBit_zip_with Z.lor orb)
    by ((intros; apply Z.lor_spec || apply Z.land_spec) || lia).
  unfold tv_or, planesRow. simpl. by rewrite !planeRow_view by lia.
Qed.
End slab_kernels.

(** [CompressU32] keeps the selected values in order, up to the destination's length. *)
Lemma CompressU32_fold (src : list Z) (mask : list bool) (dst : list Z) n :
  (n ≤ Nat.min (length src) (length mask))%nat →
  let sel := omap (λ i : nat, if (mask !!! i : bool) then Some (src !!! i : Z) else None) (seq 0 n) in
  foldl (λ (st : list Z * nat) (i : nat), let (dst, written) := st in
    if negb (mask !!! i) then (dst, written)
    else if bool_decide (written = length dst) then (dst, written)
    else (<[written := src !!! i]> dst, S written)) (dst, 0%nat) (seq 0 n) =
  (take (length dst) sel ++ drop (length sel) dst, Nat.min (length sel) (length dst)).
Proof.
  induction n as [|n IH]; intros Hn; [simpl; by rewrite take_nil|]. cbv zeta.
  rewrite seq_S, foldl_app, IH by lia. clear IH. simpl. rewrite omap_app.
  set (sel := omap (λ i : nat, if (mask !!! i : bool) then Some (src !!! i : Z) else None) (seq 0 n)). simpl. destruct (mask !!! n); simpl; [|by rewrite app_nil_r].
  assert (length (take (length dst) sel ++ drop (length sel) dst) = length dst) as Hl.
  { rewrite length_app, length_take, length_drop. lia. }
  rewrite Hl, length_app. simpl.
  destruct (decide (length dst ≤ length sel)%nat) as [Hle|Hgt].
  - rewrite bool_decide_eq_true_2 by lia. rewrite take_app_le, !drop_ge by lia. f_equal. lia.
  - rewrite bool_decide_eq_false_2 by lia. rewrite Nat.min_l by lia. f_equal; [|lia].
    rewrite !take_ge by (rewrite ?length_app; simpl; lia).
    rewrite insert_app_r_alt, Nat.sub_diag, <-app_assoc by lia. f_equal. simpl.
    destruct (drop (length sel) dst) as [|x rest] eqn:E.
    { apply (f_equal length) in E. rewrite length_drop in E. simpl in E. lia. }
    simpl. f_equal. rewrite <-drop_drop, E. done.
Qed.

(** ** Properties *)

(** [CompressU32] writes the values its mask selects, in order and without
    passing the end of the destination, returns how many it wrote and leaves the
    rest of the destination alone; [PackMask] sets bit [r] exactly for [src[r]]. *)
Theorem purego_mask_kernels (dst src words : list Z) (mask : list bool) :
  zlen words = Simdops.maskWordCount (zlen mask) →
  (let sel := omap (λ i : nat, if (mask !!! i : bool) then Some (src !!! i : Z) else None)
                (seq 0 (Nat.min (length src) (length mask))) in
   Simdops.CompressU32 dst src mask =
     (take (length dst) sel ++ drop (length sel) dst, Nat.min (length sel) (length dst))) ∧
  ∃ out, Simdops.PackMask words mask = Ok out ∧ length out = length words ∧
    ∀ r, (r < 64 * length words)%nat → rowBit out r = default false (mask !! r).
Proof.
  intros Hl. split; [by apply CompressU32_fold|]. by apply (law_PackMask (SimdLaws := purego_laws)).
Qed.

(** For every lawful SIMD backend, the slab kernels used by groups write the
    same rows as the scalar connectives, with aliased destinations and cleared tails. *)
Theorem simd_groups_rowwise {ops : SimdOps} {laws : SimdLaws ops} (rows : Z) (m m1 m2 : store) (dst left right : Planes) (r : nat) :
  is_u32 rows → planes_wf m dst rows → planes_wf m left rows → planes_wf m right rows →
  alias_ok dst left → alias_ok dst right → (r < 64 * nwords rows)%nat →
  (simdTruthAnd dst left right rows m = Ok m1 → And dst left right rows m = Ok m2 → planesRow m1 dst r = planesRow m2 dst r) ∧
  (simdTruthOr dst left right rows m = Ok m1 → Or dst left right rows m = Ok m2 → planesRow m1 dst r = planesRow m2 dst r).
Proof.
  intros Hr Hd Hl Hrt Hal Har Hrr. split; intros H1 H2.
  - destruct (simdTruthAnd_rows rows m dst left right Hr Hd Hl Hrt Hal Har) as (m1' & E1 & _ & _ & B1).
    destruct (And_written rows m dst Hr Hd left right Hl Hrt Hal Har) as (m2' & E2 & _ & _ & B2 & _).
    rewrite E1 in H1. rewrite E2 in H2. injection H1 as <-. injection H2 as <-. by rewrite B1, B2.
  - destruct (simdTruthOr_rows rows m dst left right Hr Hd Hl Hrt Hal Har) as (m1' & E1 & _ & _ & B1).
    destruct (Or_written rows m dst Hr Hd left right Hl Hrt Hal Har) as (m2' & E2 & _ & _ & B2 & _).
    rewrite E1 in H1. rewrite E2 in H2. injection H1 as <-. injection H2 as <-. by rewrite B1, B2.
Qed.
