(* ===== verification/FactIndex.v ===== *)
(** * Fact bitmaps: [internal/index/batch.go] and [internal/eval/batch_index.go]

    Symbol columns queried by several predicates are scanned once into one row
    mask per queried value ([Build]); equality and membership leaves then read
    masks instead of the column ([evalPredicateIndex]).  The theorems relate
    the masks to the column and the indexed leaf to [predicateRow]. *)

From S2P Require Import Prelude Store Truth Schema Result Program Batch Predicate Simd.
Import Reason.

(** ** [slices.BinarySearch] *)

Fixpoint searchLoop (fuel : nat) (l : list Z) (target : Z) (i j : nat) : nat :=
  match fuel with
  | O => i
  | S fuel =>
    if bool_decide (i < j)%nat then
      let h := ((i + j) `div` 2)%nat in
      if l !!! h <? target then searchLoop fuel l target (S h) j else searchLoop fuel l target i h
    else i
  end.

(** The insertion point and whether the target is there. *)
Definition BinarySearch (l : list Z) (target : Z) : nat * bool :=
  let i := searchLoop (length l) l target 0 (length l) in
  (i, bool_decide (i < length l)%nat && (l !!! i =? target)).

Definition increasing (l : list Z) : Prop :=
  ∀ i j, (i < j)%nat → (j < length l)%nat → l !!! i < l !!! j.

Lemma adjacent_increasing l : (∀ i, (S i < length l)%nat → l !!! i < l !!! S i) → increasing l.
Proof.
  intros Hl i j Hij Hj. induction j as [|j IH]; [lia|].
  destruct (decide (i = j)) as [->|]; [by apply Hl|].
  specialize (Hl j Hj). assert (l !!! i < l !!! j) by (apply IH; lia). lia.
Qed.

Lemma searchLoop_spec l target fuel i j :
  increasing l → (j - i ≤ fuel)%nat → (i ≤ j ≤ length l)%nat →
  (∀ k, (k < i)%nat → l !!! k < target) → (∀ k, (j ≤ k < length l)%nat → target ≤ l !!! k) →
  let r := searchLoop fuel l target i j in
  (i ≤ r ≤ j)%nat ∧ (∀ k, (k < r)%nat → l !!! k < target) ∧ (∀ k, (r ≤ k < length l)%nat → target ≤ l !!! k).
Proof.
  intros Hl. revert i j. induction fuel as [|fuel IH]; intros i j Hf Hij Hlow Hhigh; simpl.
  - assert (i = j) by lia. subst. split_and!; [lia..|done|done].
  - destruct (bool_decide_reflect (i < j)%nat) as [Hlt|]; [|assert (i = j) by lia; subst; split_and!; [lia..|done|done]].
    set (h := ((i + j) `div` 2)%nat).
    assert (i ≤ h < j)%nat as Hh.
    { unfold h. pose proof (Nat.div_mod_eq (i + j) 2). pose proof (Nat.mod_upper_bound (i + j) 2). lia. }
    destruct (Z.ltb_spec (l !!! h) target) as [Hc|Hc].
    + destruct (IH (S h) j) as (? & ? & ?); [lia|lia| |done|split_and!; [lia..|done|done]].
      intros k Hk. destruct (decide (k = h)) as [->|]; [done|].
      pose proof (Hl k h). lia.
    + destruct (IH i h) as (? & ? & ?); [lia|lia|done| |split_and!; [lia..|done|done]].
      intros k Hk. destruct (decide (k = h)) as [->|]; [done|]. pose proof (Hl h k). lia.
Qed.

Lemma BinarySearch_found l target i :
  BinarySearch l target = (i, true) → (i < length l)%nat ∧ l !!! i = target.
Proof. unfold BinarySearch. intros [= <- E]. rewrite andb_true_iff, bool_decide_eq_true, Z.eqb_eq in E. done. Qed.

Lemma BinarySearch_missing l target i :
  increasing l → BinarySearch l target = (i, false) → target ∉ l.
Proof.
  intros Hl [= Hi E] Hin. apply list_elem_of_lookup in Hin as [k Hk].
  apply lookup_lt_Some in Hk as Hlen. apply list_lookup_total_correct in Hk.
  destruct (searchLoop_spec l target (length l) 0 (length l)) as (? & Hlow & Hhigh); [done|lia..|lia| |].
  { intros; lia. }
  rewrite Hi in *. rewrite andb_false_iff, bool_decide_eq_false, Z.eqb_neq in E.
  destruct (decide (k < i)%nat) as [Hki|Hki]; [specialize (Hlow k Hki); lia|].
  destruct E as [E|E]; [lia|]. assert (i < length l)%nat as Hil by lia.
  specialize (Hhigh i). destruct (decide (k = i)) as [->|]; [lia|]. pose proof (Hl i k). lia.
Qed.

Lemma increasing_inj l i j : increasing l → (i < length l)%nat → (j < length l)%nat → l !!! i = l !!! j → i = j.
Proof.
  intros Hl Hi Hj E. destruct (decide (i < j)%nat) as [?|?]; [pose proof (Hl i j); lia|].
  destruct (decide (j < i)%nat) as [?|?]; [pose proof (Hl j i); lia|]. lia.
Qed.

Lemma BinarySearch_index l i : increasing l → (i < length l)%nat → BinarySearch l (l !!! i) = (i, true).
Proof.
  intros Hl Hi. destruct (BinarySearch l (l !!! i)) as [k []] eqn:E.
  - apply BinarySearch_found in E as [Hk E]. f_equal. by apply (increasing_inj l).
  - apply BinarySearch_missing in E; [|done]. exfalso. apply E. by apply list_elem_of_lookup_total_2.
Qed.

#[global] Opaque BinarySearch.

(** ** Specifications (index/batch.go) *)

Module FactIndex.

(** [SymbolColumns]: a borrowed column-major symbol batch. *)
Record Columns := {
  cValues : list Z; cRows : Z; cCount : Z; cProgramSymbolCount : Z; cRowOffset : Z; cRowStride : Z
}.

Record Index := { ixSpec : option FactSpec; ixValueMasks : list Z; ixRows : Z; ixWordCount : Z }.

Definition factWordCount (rows : Z) : Z := Z.shiftr (u64 (rows + 63)) 6.

Definition factMaskLen (rows valueCount : Z) : option Z :=
  if valueCount <? 0 then None else
  let words := factWordCount rows in
  if negb (words =? 0) && (MaxUint64 / words <? valueCount) then None else
  let elements := u64 (valueCount * words) in
  if MaxInt / 8 <? elements then None else Some elements.

Definition factColumnLen (rows columns : Z) : option Z :=
  let elements := u64 (rows * columns) in
  if MaxInt / 4 <? elements then None else Some elements.

(** The CSR range of the values of one field row. *)
Definition fieldValues (spec : FactSpec) (fieldRow : nat) : list Z :=
  csr (fValues spec) (ValueStarts spec !!! fieldRow) (ValueCounts spec !!! fieldRow).

(** One iteration of the field loop of [validFactSpecShape]. *)
Definition validField (spec : FactSpec) (symbolColumns programSymbolCount : Z) (fieldRow : nat) : bool :=
  let field := fFieldIDs spec !!! fieldRow in
  let column := fColumns spec !!! fieldRow in
  let prev := (fieldRow - 1)%nat in
  let start := ValueStarts spec !!! fieldRow in
  let count := ValueCounts spec !!! fieldRow in
  negb ((field =? 0) || (symbolColumns <=? column) || (UseCounts spec !!! fieldRow =? 0) ||
        (negb (bool_decide (fieldRow = 0%nat)) &&
         ((field <=? fFieldIDs spec !!! prev) || (column <=? fColumns spec !!! prev)))) &&
  negb ((count =? 0) || (u64 (start + count) <? start) || (zlen (fValues spec) <? u64 (start + count)) ||
        (bool_decide (fieldRow = 0%nat) && negb (start =? 0)) ||
        (negb (bool_decide (fieldRow = 0%nat)) &&
         negb (start =? u64 (ValueStarts spec !!! prev + ValueCounts spec !!! prev)))) &&
  let vs := fieldValues spec fieldRow in
  forallb (λ valueRow,
    let value := vs !!! valueRow in
    negb ((value =? 0) || (programSymbolCount <? value) ||
          (negb (bool_decide (valueRow = 0%nat)) && (value <=? vs !!! (valueRow - 1)%nat)))) (seq 0 (length vs)).

Definition validFactSpecShape (spec : FactSpec) (symbolColumns programSymbolCount : Z) : bool :=
  let n := length (fFieldIDs spec) in
  if negb (bool_decide (length (fColumns spec) = n ∧ length (ValueStarts spec) = n ∧
                        length (ValueCounts spec) = n ∧ length (UseCounts spec) = n)) ||
     (MaxUint32 <? Z.of_nat n) || (MaxUint32 <? zlen (fValues spec)) then false
  else if bool_decide (n = 0%nat) then zlen (fValues spec) =? 0
  else forallb (validField spec symbolColumns programSymbolCount) (seq 0 n) &&
       (u64 (ValueStarts spec !!! (n - 1)%nat + ValueCounts spec !!! (n - 1)%nat) =? zlen (fValues spec)).

(** [FactSpec.Valid]. *)
Definition Valid (spec : FactSpec) (fields : IndexSchema) (programSymbolCount : Z) : bool :=
  bool_decide (length (sKinds fields) = length (sColumns fields)) &&
  validFactSpecShape spec (sCounts fields !!! Z.to_nat ValueKindSymbol) programSymbolCount &&
  forallb (λ row,
    match SchemaLookup fields (fFieldIDs spec !!! row) with
    | Some (kind, column) => (kind =? ValueKindSymbol) && (column =? fColumns spec !!! row)
    | None => false
    end) (seq 0 (length (fFieldIDs spec))).

(** [FactIndex.Reset]. *)
Definition Reset : Index := {| ixSpec := None; ixValueMasks := []; ixRows := 0; ixWordCount := 0 |}.

(** ** Build *)

(** [builder.valueRows[spec.Values[valueRow]] = uint32(valueRow + 1)] over the field's range. *)
Definition markValues (spec : FactSpec) (start count : nat) (valueRows : list Z) : go (list Z) :=
  for_range count (λ i valueRows,
    let valueRow := (start + i)%nat in
    v ← at_ (fValues spec) (Z.of_nat valueRow);
    _ ← at_ valueRows v;
    Ok (<[Z.to_nat v := u32 (Z.of_nat valueRow + 1)]> valueRows)) valueRows.

(** [dst.ValueMasks[maskStart+(row>>6)] |= 1 << (row & 63)] for the rows whose value is marked. *)
Definition scanColumn (valueRows vs : list Z) (words : Z) (masks : list Z) : go (list Z) :=
  for_range (length vs) (λ row masks,
    let value := vs !!! row in
    if zlen valueRows <=? value then Ok masks else
    valueRow ← at_ valueRows value;
    if valueRow =? 0 then Ok masks else
    let i := (valueRow - 1) * words + Z.of_nat (row `div` 64) in
    w ← at_ masks i;
    Ok (<[Z.to_nat i := Z.lor w (bit64 (Z.of_nat (row `mod` 64)))]> masks)) masks.

(** [builder.valueRows[value] = 0] over the field's values. *)
Definition clearValues (vs : list Z) (valueRows : list Z) : go (list Z) :=
  for_range (length vs) (λ i valueRows,
    let v := vs !!! i in
    _ ← at_ valueRows v;
    Ok (<[Z.to_nat v := 0]> valueRows)) valueRows.

(** One iteration of the field loop. *)
Definition buildField (spec : FactSpec) (columns : Columns) (stride words : Z) (fieldRow : nat)
    (st : list Z * list Z) : go (list Z * list Z) :=
  let '(valueRows, masks) := st in
  column ← at_ (fColumns spec) (Z.of_nat fieldRow);
  valueStart ← at_ (ValueStarts spec) (Z.of_nat fieldRow);
  valueCount ← at_ (ValueCounts spec) (Z.of_nat fieldRow);
  valueRows ← markValues spec (Z.to_nat valueStart) (Z.to_nat valueCount) valueRows;
  let columnStart := column * stride + cRowOffset columns in
  vs ← slice_ (cValues columns) columnStart (columnStart + cRows columns);
  masks ← scanColumn valueRows vs words masks;
  fv ← slice_ (fValues spec) valueStart (valueStart + valueCount);
  valueRows ← clearValues fv valueRows;
  Ok (valueRows, masks).

(** [FactBuilder.Build]; [valueRows] is the builder's backing array up to its
    capacity, returned with the index. *)
Definition Build (valueRows : list Z) (spec : FactSpec) (columns : Columns) : go (list Z * Index) :=
  check (negb ((cRowStride columns =? 0) && negb (cRowOffset columns =? 0))) ErrInvalidFactIndex ;;
  let stride := if cRowStride columns =? 0 then cRows columns else cRowStride columns in
  check (negb (stride <? u64 (cRowOffset columns + cRows columns))) ErrInvalidFactIndex ;;
  match factColumnLen stride (cCount columns) with
  | None => Err ErrIndexTooLarge
  | Some columnLen =>
    check ((zlen (cValues columns) =? columnLen) &&
           validFactSpecShape spec (cCount columns) (cProgramSymbolCount columns)) ErrInvalidFactIndex ;;
    match factMaskLen (cRows columns) (zlen (fValues spec)) with
    | None => Err ErrIndexTooLarge
    | Some maskLen =>
      check (negb (MaxInt / 4 <? u64 (cProgramSymbolCount columns + 1))) ErrIndexTooLarge ;;
      let valueRowLen := cProgramSymbolCount columns + 1 in
      let fresh := zlen valueRows <? valueRowLen in
      let active := if fresh then make_ valueRowLen else take (Z.to_nat valueRowLen) valueRows in
      let rest := if fresh then [] else drop (Z.to_nat valueRowLen) valueRows in
      let words := factWordCount (cRows columns) in
      '(active, masks) ← for_range (length (fColumns spec)) (buildField spec columns stride words)
                           (active, make_ maskLen);
      Ok (active ++ rest, {| ixSpec := Some spec; ixValueMasks := masks; ixRows := cRows columns; ixWordCount := u32 words |})
    end
  end.

(** [FactIndex.Lookup]: [None] when the field is not indexed; the mask is [None]
    (Go [nil]) for a value the field's specification lacks. *)
Definition Lookup (index : Index) (field value : Z) : go (option (option (list Z))) :=
  match ixSpec index with
  | None => Ok None
  | Some spec =>
    let '(fieldRow, found) := BinarySearch (fFieldIDs spec) field in
    if negb found then Ok None else
    valueStart ← at_ (ValueStarts spec) (Z.of_nat fieldRow);
    valueCount ← at_ (ValueCounts spec) (Z.of_nat fieldRow);
    vs ← slice_ (fValues spec) valueStart (valueStart + valueCount);
    let '(relative, found) := BinarySearch vs value in
    if negb found then Ok (Some None) else
    let valueRow := valueStart + Z.of_nat relative in
    let words := ixWordCount index in
    mask ← slice_ (ixValueMasks index) (valueRow * words) (valueRow * words + words);
    Ok (Some (Some mask))
  end.

(** ** What a valid specification provides *)

Record spec_typed (spec : FactSpec) : Prop := {
  sp_starts : Forall is_u32 (ValueStarts spec);
  sp_counts : Forall is_u32 (ValueCounts spec);
  sp_columns : Forall is_u32 (fColumns spec);
  sp_values : Forall is_u32 (fValues spec);
  sp_fields : Forall is_u32 (fFieldIDs spec)
}.

Abbreviation startOf spec f := (ValueStarts spec !!! f).
Abbreviation endOf spec f := (ValueStarts spec !!! f + ValueCounts spec !!! f).

Record spec_ok (spec : FactSpec) (cols syms : Z) : Prop := {
  so_columns : length (fColumns spec) = length (fFieldIDs spec);
  so_starts : length (ValueStarts spec) = length (fFieldIDs spec);
  so_counts : length (ValueCounts spec) = length (fFieldIDs spec);
  so_size : zlen (fValues spec) ≤ MaxUint32;
  so_fields : increasing (fFieldIDs spec);
  so_column f : (f < length (fFieldIDs spec))%nat → 0 ≤ fColumns spec !!! f < cols;
  so_range f : (f < length (fFieldIDs spec))%nat →
    0 ≤ startOf spec f ∧ 0 < ValueCounts spec !!! f ∧ endOf spec f ≤ zlen (fValues spec);
  so_first : (0 < length (fFieldIDs spec))%nat → startOf spec 0%nat = 0;
  so_next f : (S f < length (fFieldIDs spec))%nat → startOf spec (S f) = endOf spec f;
  so_values f : (f < length (fFieldIDs spec))%nat → increasing (fieldValues spec f);
  so_symbols f v : (f < length (fFieldIDs spec))%nat → v ∈ fieldValues spec f → 0 < v ≤ syms
}.

Lemma length_fieldValues spec f :
  0 ≤ startOf spec f → 0 ≤ ValueCounts spec !!! f → endOf spec f ≤ zlen (fValues spec) →
  length (fieldValues spec f) = Z.to_nat (ValueCounts spec !!! f).
Proof. intros. by apply length_csr. Qed.

Lemma validField_inv spec cols syms f :
  spec_typed spec → (f < length (ValueStarts spec))%nat → (f < length (ValueCounts spec))%nat →
  (f < length (fColumns spec))%nat → length (fFieldIDs spec) = length (ValueStarts spec) →
  length (fFieldIDs spec) = length (ValueCounts spec) →
  validField spec cols syms f = true →
  0 ≤ fColumns spec !!! f < cols ∧
  (0 ≤ startOf spec f ∧ 0 < ValueCounts spec !!! f ∧ endOf spec f ≤ zlen (fValues spec)) ∧
  (f = 0%nat → startOf spec f = 0) ∧
  (f ≠ 0%nat → fFieldIDs spec !!! (f - 1)%nat < fFieldIDs spec !!! f ∧ startOf spec f = endOf spec (f - 1)%nat) ∧
  increasing (fieldValues spec f) ∧ (∀ v, v ∈ fieldValues spec f → 0 < v ≤ syms).
Proof.
  intros [Hts Htc Htl Htv Htf] Hs Hc Hl Hn1 Hn2. unfold validField.
  assert (∀ k, (k < length (ValueStarts spec))%nat → is_u32 (startOf spec k)) as Hus by (intros; by apply Forall_lookup_total_1).
  assert (∀ k, (k < length (ValueCounts spec))%nat → is_u32 (ValueCounts spec !!! k)) as Huc by (intros; by apply Forall_lookup_total_1).
  assert (is_u32 (fColumns spec !!! f)) as Hul by (by apply Forall_lookup_total_1).
  pose proof (Hus f Hs). pose proof (Huc f Hc). unfold is_u32 in *.
  assert (∀ k, (k < length (ValueStarts spec))%nat → u64 (endOf spec k) = endOf spec k) as Hue.
  { intros k Hk. pose proof (Hus k Hk). pose proof (Huc k). apply u64_small. unfold is_u64. lia. }
  rewrite !andb_true_iff, !negb_true_iff, !orb_false_iff, !andb_false_iff, !negb_false_iff.
  rewrite (Hue f Hs), (Hue (f - 1)%nat) by lia.
  rewrite !bool_decide_eq_true, !bool_decide_eq_false, !orb_false_iff, !Z.leb_gt, !Z.ltb_ge, !Z.eqb_neq, !Z.eqb_eq.
  intros [[(((Hf0 & Hcol) & Huse) & Hprev) ((((Hcnt & _) & Hend) & Hzero) & Hnext)] Hvals].
  assert (length (fieldValues spec f) = Z.to_nat (ValueCounts spec !!! f)) as Hlen by (apply length_fieldValues; lia).
  rewrite forallb_forall in Hvals.
  assert (∀ i, (i < length (fieldValues spec f))%nat →
    fieldValues spec f !!! i ≠ 0 ∧ fieldValues spec f !!! i ≤ syms ∧
    (i = 0%nat ∨ fieldValues spec f !!! (i - 1)%nat < fieldValues spec f !!! i)) as Hv.
  { intros i Hi. specialize (Hvals i). rewrite in_seq in Hvals. specialize (Hvals ltac:(lia)).
    rewrite negb_true_iff, !orb_false_iff, andb_false_iff, negb_false_iff, bool_decide_eq_true,
      Z.eqb_neq, Z.ltb_ge, Z.leb_gt in Hvals. tauto. }
  split; [lia|]. split; [lia|]. split; [intros E; destruct Hzero as [?|?]; done|].
  split; [intros Hne; destruct Hprev as [?|[? ?]]; [done|]; destruct Hnext as [?|?]; [done|]; lia|]. split.
  - apply adjacent_increasing. intros i Hi. destruct (Hv (S i) Hi) as (_ & _ & [?|Hlt]); [done|].
    by replace (S i - 1)%nat with i in Hlt by lia.
  - intros v Hin. apply list_elem_of_lookup in Hin as [i Hi]. apply lookup_lt_Some in Hi as Hlt.
    apply list_lookup_total_correct in Hi as Ht. destruct (Hv i Hlt) as (? & ? & _).
    assert (v ∈ fValues spec) as Hin.
    { unfold fieldValues, csr in Hi. apply lookup_take_Some in Hi as [Hi _]. rewrite lookup_drop in Hi.
      by eapply list_elem_of_lookup_2. }
    rewrite Forall_forall in Htv. specialize (Htv v Hin). lia.
Qed.

Lemma validFactSpecShape_ok spec cols syms :
  spec_typed spec → validFactSpecShape spec cols syms = true → spec_ok spec cols syms.
Proof.
  intros Ht. unfold validFactSpecShape.
  destruct (negb _ || _ || _) eqn:Hshape; [done|]. rewrite !orb_false_iff, negb_false_iff, bool_decide_eq_true in Hshape.
  destruct Hshape as [[(Hc & Hs & Hk & Hu) Hn] Hsz]. apply Z.ltb_ge in Hsz.
  destruct (bool_decide_reflect (length (fFieldIDs spec) = 0%nat)) as [Hz|Hz].
  { intros _. split; try done; try (intros; lia). intros i j ? ?. lia. }
  rewrite andb_true_iff, forallb_forall. intros [Hall _].
  assert (∀ f, (f < length (fFieldIDs spec))%nat → validField spec cols syms f = true) as Hf.
  { intros f Hf. apply Hall. apply in_seq. lia. }
  assert (∀ f, (f < length (fFieldIDs spec))%nat → _) as Hinv
    by (intros f Hlt; exact (validField_inv spec cols syms f Ht ltac:(lia) ltac:(lia) ltac:(lia) ltac:(lia) ltac:(lia) (Hf f Hlt))).
  split; try done.
  - apply adjacent_increasing. intros i Hi. destruct (Hinv (S i) Hi) as (_ & _ & _ & Hp & _).
    destruct Hp as [Hlt _]; [done|]. by replace (S i - 1)%nat with i in Hlt by lia.
  - intros f Hlt. apply (Hinv f Hlt).
  - intros f Hlt. apply (Hinv f Hlt).
  - intros Hlt. by apply (Hinv 0%nat Hlt).
  - intros f Hlt. destruct (Hinv (S f) Hlt) as (_ & _ & _ & Hp & _). destruct Hp as [_ E]; [done|].
    by replace (S f - 1)%nat with f in E by lia.
  - intros f Hlt. apply (Hinv f Hlt).
  - intros f v Hlt. apply (Hinv f Hlt).
Qed.

(** ** Build scans each column into its masks *)

Section build_field.
Context (spec : FactSpec) (cols syms : Z) (Hok : spec_ok spec cols syms).
Context (f : nat) (Hf : (f < length (fFieldIDs spec))%nat).

Local Abbreviation vals := (fieldValues spec f).
Local Abbreviation start := (Z.to_nat (startOf spec f)).
Local Abbreviation L := (Z.to_nat (syms + 1)).

Lemma vals_length : length vals = Z.to_nat (ValueCounts spec !!! f).
Proof. destruct (so_range _ _ _ Hok f Hf) as (? & ? & ?). apply length_fieldValues; lia. Qed.

Lemma vals_at j : (j < length vals)%nat →
  fValues spec !!! (start + j)%nat = vals !!! j ∧ (start + j < length (fValues spec))%nat.
Proof.
  destruct (so_range _ _ _ Hok f Hf) as (? & ? & ?). pose proof vals_length as Hl. intros Hj.
  unfold fieldValues. rewrite csr_lookup_total by lia. split; [done|lia].
Qed.

Lemma vals_sym j : (j < length vals)%nat → 0 < vals !!! j ≤ syms.
Proof. intros. eapply so_symbols; [done..|]. by apply list_elem_of_lookup_total_2. Qed.

(** [vr] marks exactly the values [0 .. n) of the field. *)
Definition marked (n : nat) (vr : list Z) : Prop :=
  length vr = L ∧
  (∀ j, (j < n)%nat → vr !!! Z.to_nat (vals !!! j) = startOf spec f + Z.of_nat j + 1) ∧
  (∀ x, (x < L)%nat → (∀ j, (j < n)%nat → Z.to_nat (vals !!! j) ≠ x) → vr !!! x = 0).

Lemma markValues_marked vr :
  length vr = L → (∀ x, (x < L)%nat → vr !!! x = 0) →
  ∃ vr', markValues spec start (Z.to_nat (ValueCounts spec !!! f)) vr = Ok vr' ∧ marked (length vals) vr'.
Proof.
  intros Hl Hz. rewrite <-vals_length. unfold markValues.
  destruct (so_range _ _ _ Hok f Hf) as (Hs0 & Hc0 & Hend). pose proof (so_size _ _ _ Hok) as Hsz.
  pose proof vals_length as Hvl.
  apply for_range_total.
  - split_and!; [done|lia|auto].
  - intros i t Hi (Hlt & Hm & Hrest). destruct (vals_at i Hi) as [Ev Hlen].
    pose proof (vals_sym i Hi) as Hsym.
    rewrite at_total by lia. rewrite Nat2Z.id, Ev. simpl. rewrite at_total by lia. simpl.
    eexists; split; [done|]. unfold marked. rewrite length_insert. split_and!; [done| |].
    + intros j Hj. destruct (decide (j = i)) as [->|Hne].
      * rewrite lookup_total_insert_eq by lia. unfold MaxUint32 in *. rewrite u32_small by (unfold is_u32; lia). lia.
      * rewrite lookup_total_insert_ne; [apply Hm; lia|]. intros E. apply Hne.
        pose proof (vals_sym j ltac:(lia)). apply (increasing_inj vals); [by eapply so_values|lia|lia|lia].
    + intros x Hx Hne. rewrite lookup_total_insert_ne by (apply Hne; lia). apply Hrest; [done|].
      intros j Hj. apply Hne. lia.
Qed.

Lemma clearValues_zero vr :
  marked (length vals) vr →
  ∃ vr', clearValues vals vr = Ok vr' ∧ length vr' = L ∧ ∀ x, (x < L)%nat → vr' !!! x = 0.
Proof.
  intros (Hl & Hm & Hrest). unfold clearValues.
  destruct (for_range_total (λ i t, length t = L ∧ ∀ x, (x < L)%nat →
      (∀ j, (i ≤ j < length vals)%nat → Z.to_nat (vals !!! j) ≠ x) → t !!! x = 0) (length vals)
    (λ i valueRows, let v := vals !!! i in _ ← at_ valueRows v; Ok (<[Z.to_nat v := 0]> valueRows)) vr)
    as (vr' & Hvr' & Hl' & Hz).
  - split; [done|]. intros x Hx Hne. apply Hrest; [done|]. intros j Hj. apply Hne. lia.
  - intros i t Hi (Hlt & Hz). pose proof (vals_sym i Hi). cbv zeta. rewrite at_total by lia. simpl.
    eexists; split; [done|]. rewrite length_insert. split; [done|]. intros x Hx Hne.
    destruct (decide (Z.to_nat (vals !!! i) = x)) as [->|Hxne]; [by rewrite lookup_total_insert_eq by lia|].
    rewrite lookup_total_insert_ne by done. apply Hz; [done|]. intros j Hj.
    destruct (decide (j = i)) as [->|]; [done|]. apply Hne. lia.
  - exists vr'. split; [exact Hvr'|]. split; [done|]. intros x Hx. apply Hz; [done|]. lia.
Qed.

(** The scan sets bit [r] of plane [v] exactly when row [r] holds value [v]. *)
Lemma scanColumn_bits vr (vs masks : list Z) (words : nat) :
  marked (length vals) vr → (length vs ≤ 64 * words)%nat → Forall (λ v, 0 ≤ v) vs →
  (Z.to_nat (endOf spec f) * words ≤ length masks)%nat →
  ∃ masks', scanColumn vr vs (Z.of_nat words) masks = Ok masks' ∧ length masks' = length masks ∧
    ∀ v r, (r < 64 * words)%nat →
      rowBit masks' (64 * (v * words) + r) = rowBit masks (64 * (v * words) + r) ||
        (bool_decide (start ≤ v < Z.to_nat (endOf spec f))%nat && bool_decide (r < length vs)%nat &&
         (vs !!! r =? fValues spec !!! v)).
Proof.
  intros (Hl & Hm & Hrest) Hrows Hpos Hmasks.
  destruct (so_range _ _ _ Hok f Hf) as (Hs0 & Hc0 & Hend). pose proof vals_length as Hvl.
  unfold scanColumn.
  destruct (for_range_total (λ i t, length t = length masks ∧ ∀ v r, (r < 64 * words)%nat →
      rowBit t (64 * (v * words) + r) = rowBit masks (64 * (v * words) + r) ||
        (bool_decide (start ≤ v < Z.to_nat (endOf spec f))%nat && bool_decide (r < i)%nat &&
         (vs !!! r =? fValues spec !!! v))) (length vs)
    (λ row masks,
      let value := vs !!! row in
      if zlen vr <=? value then Ok masks else
      valueRow ← at_ vr value;
      if valueRow =? 0 then Ok masks else
      let i := (valueRow - 1) * Z.of_nat words + Z.of_nat (row `div` 64) in
      w ← at_ masks i;
      Ok (<[Z.to_nat i := Z.lor w (bit64 (Z.of_nat (row `mod` 64)))]> masks)) masks)
    as (masks' & Hm' & Hl' & Hbits).
  - split; [done|]. intros v r Hr. rewrite (bool_decide_eq_false_2 (r < 0)%nat) by lia.
    by rewrite andb_false_r, orb_false_r.
  - intros i t Hi (Hlt & Hbits).
    assert (0 ≤ vs !!! i) as Hvi by (rewrite Forall_forall in Hpos; apply Hpos; by apply list_elem_of_lookup_total_2).
    (* a row whose value the field does not list leaves the masks unchanged *)
    assert (∀ j : nat, (j < length vals)%nat → vals !!! j = fValues spec !!! (start + j)%nat) as Hvals
      by (intros j Hj; by destruct (vals_at j Hj)).
    assert ((∀ j, (j < length vals)%nat → vals !!! j ≠ vs !!! i) →
      ∀ v r, (r < 64 * words)%nat →
      rowBit t (64 * (v * words) + r) = rowBit masks (64 * (v * words) + r) ||
        (bool_decide (start ≤ v < Z.to_nat (endOf spec f))%nat && bool_decide (r < S i)%nat &&
         (vs !!! r =? fValues spec !!! v))) as Hskip.
    { intros Hno v r Hr. rewrite Hbits by done. f_equal.
      destruct (bool_decide_reflect (start ≤ v < Z.to_nat (endOf spec f))%nat) as [Hv|]; [|done]. simpl.
      destruct (decide (r = i)) as [->|Hne].
      - rewrite bool_decide_eq_false_2, bool_decide_eq_true_2 by lia. simpl. symmetry. apply Z.eqb_neq.
        specialize (Hno (v - start)%nat). rewrite Hvals in Hno by lia.
        replace (start + (v - start))%nat with v in Hno by lia. intros E. apply Hno; [lia|done].
      - f_equal. apply bool_decide_ext. lia. }
    cbv zeta. destruct (Z.leb_spec (zlen vr) (vs !!! i)) as [Hbig|Hsmall].
    + exists t. split; [done|]. split; [done|]. apply Hskip. intros j Hj. pose proof (vals_sym j Hj). lia.
    + rewrite at_total by lia. simpl.
      destruct (Z.eqb_spec (vr !!! Z.to_nat (vs !!! i)) 0) as [Hz|Hnz].
      * exists t. split; [done|]. split; [done|]. apply Hskip. intros j Hj E. rewrite <-E, Hm in Hz by done. lia.
      * destruct (decide (vs !!! i ∈ vals)) as [Hin|Hnin].
        2: { exfalso. apply Hnz, Hrest; [lia|]. intros j Hj E. apply Hnin.
             pose proof (vals_sym j Hj). replace (vs !!! i) with (vals !!! j) by lia. by apply list_elem_of_lookup_total_2. }
        apply list_elem_of_lookup in Hin as [j Hj]. apply lookup_lt_Some in Hj as Hjl.
        apply list_lookup_total_correct in Hj. rewrite <-Hj, Hm by done.
        pose proof (row_split i) as [Ei Hi64].
        replace ((startOf spec f + Z.of_nat j + 1 - 1) * Z.of_nat words + Z.of_nat (i `div` 64))
          with (Z.of_nat ((start + j) * words + i `div` 64)) by nia.
        assert ((start + j) * words + i `div` 64 < length t)%nat as Hk.
        { rewrite Hlt. apply Nat.lt_le_trans with (Z.to_nat (endOf spec f) * words)%nat; [|done].
          apply Nat.lt_le_trans with ((start + j + 1) * words)%nat; [nia|]. apply Nat.mul_le_mono_r. lia. }
        rewrite at_total by (split; [apply Nat2Z.is_nonneg|by apply inj_lt]). simpl. rewrite Nat2Z.id. eexists; split; [done|].
        rewrite length_insert. split; [done|]. intros v r Hr.
        rewrite rowBit_setPlane, Hbits, <-orb_assoc by (done || lia). f_equal.
        destruct (decide (r = i)) as [->|Hne].
        -- rewrite (bool_decide_eq_true_2 (i = i)), (bool_decide_eq_false_2 (i < i)%nat), (bool_decide_eq_true_2 (i < S i)%nat) by lia.
           rewrite andb_false_r, !andb_true_r. simpl. rewrite <-Hj. apply Bool.eq_iff_eq_true.
           rewrite andb_true_iff, !bool_decide_eq_true, Z.eqb_eq. split.
           ++ intros ->. split; [lia|]. by apply Hvals.
           ++ intros [Hv E]. assert (j = v - start)%nat; [|lia].
              apply (increasing_inj vals); [by eapply so_values|lia|lia|].
              rewrite E, Hvals by lia. f_equal. lia.
        -- rewrite (bool_decide_eq_false_2 (r = i)), andb_false_r, orb_false_r by done. do 2 f_equal.
           apply bool_decide_ext. lia.
  - exists masks'. split; [exact Hm'|]. done.
Qed.
End build_field.

Lemma ranges_ordered spec cols syms f g :
  spec_ok spec cols syms → (f < g)%nat → (g < length (fFieldIDs spec))%nat → endOf spec f ≤ startOf spec g.
Proof.
  intros Hok Hfg Hg. induction g as [|g IH]; [lia|].
  rewrite (so_next _ _ _ Hok g Hg). destruct (decide (f = g)) as [->|]; [lia|].
  destruct (so_range _ _ _ Hok g) as (? & ? & ?); [lia|]. specialize (IH ltac:(lia) ltac:(lia)). lia.
Qed.

Definition strideOf (c : Columns) : Z := if cRowStride c =? 0 then cRows c else cRowStride c.

(** Row [r] of the column behind field row [f]. *)
Definition columnAt (spec : FactSpec) (c : Columns) (f r : nat) : Z :=
  cValues c !!! Z.to_nat (fColumns spec !!! f * strideOf c + cRowOffset c + Z.of_nat r).

Record columns_typed (c : Columns) : Prop := {
  ct_rows : is_u32 (cRows c); ct_count : is_u32 (cCount c); ct_syms : is_u32 (cProgramSymbolCount c);
  ct_off : is_u32 (cRowOffset c); ct_stride : is_u32 (cRowStride c); ct_values : Forall is_u32 (cValues c)
}.

(** The planes built so far: one per value of the first [n] field rows. *)
Definition planes_ok (spec : FactSpec) (c : Columns) (n : nat) (masks : list Z) : Prop :=
  length masks = (length (fValues spec) * nwords (cRows c))%nat ∧
  (∀ f v r, (f < n)%nat → (Z.to_nat (startOf spec f) ≤ v < Z.to_nat (endOf spec f))%nat → (r < 64 * nwords (cRows c))%nat →
     rowBit masks (64 * (v * nwords (cRows c)) + r) =
       bool_decide (Z.of_nat r < cRows c) && (columnAt spec c f r =? fValues spec !!! v)) ∧
  (∀ v r, (∀ f, (f < n)%nat → ¬ (Z.to_nat (startOf spec f) ≤ v < Z.to_nat (endOf spec f))%nat) →
     (v < length (fValues spec))%nat → (r < 64 * nwords (cRows c))%nat → rowBit masks (64 * (v * nwords (cRows c)) + r) = false).

Section build.
Context (spec : FactSpec) (c : Columns).
Context (Htyped : columns_typed c).
Context (Hok : spec_ok spec (cCount c) (cProgramSymbolCount c)).
Context (Hrange : cRowOffset c + cRows c ≤ strideOf c).
Context (Hlen : zlen (cValues c) = strideOf c * cCount c).

Local Abbreviation L := (Z.to_nat (cProgramSymbolCount c + 1)).

Lemma column_slice f :
  (f < length (fFieldIDs spec))%nat →
  let s := fColumns spec !!! f * strideOf c + cRowOffset c in
  slice_ (cValues c) s (s + cRows c) = Ok (csr (cValues c) s (cRows c)) ∧
  length (csr (cValues c) s (cRows c)) = Z.to_nat (cRows c) ∧
  Forall (λ v, 0 ≤ v) (csr (cValues c) s (cRows c)) ∧
  ∀ r, (r < Z.to_nat (cRows c))%nat → csr (cValues c) s (cRows c) !!! r = columnAt spec c f r.
Proof.
  intros Hf s. pose proof (so_column _ _ _ Hok f Hf) as Hcol. destruct Htyped as [Hr Hct Hs Ho Hst Hv]. unfold is_u32 in *.
  assert (0 ≤ strideOf c) by (unfold strideOf; destruct (_ =? _); lia).
  assert (0 ≤ s ∧ s + cRows c ≤ zlen (cValues c)) as [Hs0 Hs1] by (unfold s; nia).
  split_and!.
  - apply slice_csr; lia.
  - apply length_csr; lia.
  - unfold csr. apply Forall_take, Forall_drop. eapply Forall_impl; [done|]. unfold is_u32. intros x. lia.
  - intros r Hrr. rewrite csr_lookup_total by lia. unfold columnAt. fold s. f_equal. lia.
Qed.

Lemma buildField_step f vr masks :
  (f < length (fFieldIDs spec))%nat →
  length vr = L → (∀ x, (x < L)%nat → vr !!! x = 0) → planes_ok spec c f masks →
  ∃ vr' masks', buildField spec c (strideOf c) (WordCount (cRows c)) f (vr, masks) = Ok (vr', masks') ∧
    length vr' = L ∧ (∀ x, (x < L)%nat → vr' !!! x = 0) ∧ planes_ok spec c (S f) masks'.
Proof.
  intros Hf Hl Hz (Hml & Hdone & Hrest). unfold buildField.
  rewrite !at_total by (destruct Hok; lia). rewrite !Nat2Z.id. simpl.
  destruct (so_range _ _ _ Hok f Hf) as (Hs0 & Hc0 & Hend).
  destruct (markValues_marked spec _ _ Hok f Hf vr Hl Hz) as (vr1 & -> & Hmarked). simpl.
  destruct (column_slice f Hf) as (-> & Hvl & Hvp & Hvs). simpl.
  destruct (WordCount_bounds (cRows c)) as (Hw0 & Hw1 & _); [by destruct Htyped|].
  destruct (scanColumn_bits spec _ _ Hok f Hf vr1 (csr (cValues c) (fColumns spec !!! f * strideOf c + cRowOffset c) (cRows c))
    masks (nwords (cRows c))) as (masks' & Hscan & Hml' & Hbits); [done|lia|done|rewrite Hml; apply Nat.mul_le_mono_r; lia|].
  rewrite Z2Nat.id in Hscan by done. rewrite Hscan. simpl.
  rewrite slice_csr by lia. simpl.
  destruct (clearValues_zero spec _ _ Hok f Hf vr1 Hmarked) as (vr2 & Hclear & Hl2 & Hz2).
  unfold fieldValues in Hclear. rewrite Hclear. simpl.
  eexists _, _; split; [done|]. do 2 (split; [done|]). split; [congruence|]. split.
  - intros g v r Hg Hv Hr. rewrite Hbits by done. destruct (decide (g = f)) as [->|Hne].
    + rewrite Hrest; [|intros h Hh; pose proof (ranges_ordered _ _ _ h f Hok); lia|lia|done].
      rewrite (bool_decide_eq_true_2 (_ ≤ v < _)%nat) by done. simpl. rewrite Hvl.
      destruct (bool_decide_reflect (Z.of_nat r < cRows c)).
      * rewrite bool_decide_eq_true_2, Hvs by lia. done.
      * rewrite bool_decide_eq_false_2 by lia. done.
    + rewrite (Hdone g) by (done || lia). pose proof (ranges_ordered _ _ _ g f Hok).
      rewrite (bool_decide_eq_false_2 (_ ≤ v < _)%nat) by lia. by rewrite orb_false_r.
  - intros v r Hno Hv Hr. rewrite Hbits by done. rewrite Hrest; [|intros h Hh; apply Hno; lia|done|done].
    rewrite (bool_decide_eq_false_2 (_ ≤ v < _)%nat); [done|]. apply Hno. lia.
Qed.

Lemma build_loop vr maskLen :
  length vr = L → (∀ x, (x < L)%nat → vr !!! x = 0) → maskLen = zlen (fValues spec) * WordCount (cRows c) →
  ∃ vr' masks, for_range (length (fColumns spec)) (buildField spec c (strideOf c) (WordCount (cRows c))) (vr, make_ maskLen)
      = Ok (vr', masks) ∧
    length vr' = L ∧ (∀ x, (x < L)%nat → vr' !!! x = 0) ∧ planes_ok spec c (length (fFieldIDs spec)) masks.
Proof.
  intros Hl Hz ->. rewrite (so_columns _ _ _ Hok).
  destruct (WordCount_bounds (cRows c)) as (Hw0 & Hw1 & _); [by destruct Htyped|].
  destruct (for_range_total (λ i st, length st.1 = L ∧ (∀ x, (x < L)%nat → st.1 !!! x = 0) ∧ planes_ok spec c i st.2)
    (length (fFieldIDs spec)) (buildField spec c (strideOf c) (WordCount (cRows c)))
    (vr, make_ (zlen (fValues spec) * WordCount (cRows c)))) as ([vr' masks] & Hloop & Hr).
  - simpl. do 2 (split; [done|]). unfold make_. split; [rewrite length_replicate; lia|]. split; [lia|].
    intros v r _ Hv Hr. apply rowBit_replicate0. nia.
  - intros f [vr1 masks1] Hf (Hl1 & Hz1 & Hp1). simpl in Hl1, Hz1, Hp1.
    destruct (buildField_step f vr1 masks1) as (vr2 & masks2 & -> & Hrest); try done. by exists (vr2, masks2).
  - exists vr', masks. split; [exact Hloop|exact Hr].
Qed.
End build.

(** The index a successful build publishes. *)
Record index_ok (spec : FactSpec) (c : Columns) (ix : Index) : Prop := {
  io_spec : ixSpec ix = Some spec;
  io_shape : spec_ok spec (cCount c) (cProgramSymbolCount c);
  io_words : ixWordCount ix = WordCount (cRows c);
  io_planes : planes_ok spec c (length (fFieldIDs spec)) (ixValueMasks ix)
}.

Definition all_zero (l : list Z) : Prop := ∀ x, (x < length l)%nat → l !!! x = 0.

Lemma factMaskLen_Some rows n m :
  is_u32 rows → 0 ≤ n → factMaskLen rows n = Some m → m = n * WordCount rows.
Proof.
  intros Hr Hn. unfold factMaskLen. change (factWordCount rows) with (WordCount rows).
  destruct (WordCount_bounds rows Hr) as (Hw & _).
  destruct (n <? 0); [done|]. destruct (_ && _) eqn:Hov; [done|]. cbv zeta. destruct (_ <? u64 _); [done|]. intros [= <-].
  apply u64_small. rewrite andb_false_iff, negb_false_iff, Z.eqb_eq, Z.ltb_ge in Hov. unfold is_u64.
  destruct Hov as [->|Hov]; [lia|]. split; [nia|].
  destruct (decide (WordCount rows = 0)) as [->|]; [lia|].
  pose proof (Z.mul_div_le MaxUint64 (WordCount rows)). unfold MaxUint64 in *. nia.
Qed.

(** The inputs [Build] must accept: a window inside the columns, addressable
    columns of the right length, and a valid specification of uint32 size. *)
Record accepted (spec : FactSpec) (c : Columns) : Prop := {
  ac_window : cRowOffset c + cRows c ≤ strideOf c;
  ac_offset : cRowStride c = 0 → cRowOffset c = 0;
  ac_length : zlen (cValues c) = strideOf c * cCount c ∧ zlen (cValues c) ≤ MaxInt / 4;
  ac_shape : validFactSpecShape spec (cCount c) (cProgramSymbolCount c) = true
}.

Lemma factMaskLen_total rows n : is_u32 rows → 0 ≤ n ≤ MaxUint32 → is_Some (factMaskLen rows n).
Proof.
  intros Hr Hn. unfold factMaskLen. change (factWordCount rows) with (WordCount rows).
  destruct (WordCount_bounds rows Hr) as (Hw0 & _ & Hw2). unfold is_u32, MaxUint32 in *.
  assert (0 ≤ n * WordCount rows ≤ 4294967295 * 67108864) as Hmul by nia.
  rewrite (proj2 (Z.ltb_ge n 0)) by lia.
  assert (negb (WordCount rows =? 0) && (MaxUint64 / WordCount rows <? n) = false) as ->.
  { destruct (Z.eqb_spec (WordCount rows) 0) as [|Hne]; [done|]. simpl. apply Z.ltb_ge, Z.div_le_lower_bound; unfold MaxUint64; lia. }
  rewrite u64_small by (unfold is_u64; lia). rewrite (proj2 (Z.ltb_ge (MaxInt / 8) (n * WordCount rows))) by (change (MaxInt / 8) with 1152921504606846975; lia). by eexists.
Qed.

(** Build never panics, rejects malformed input with an error, and otherwise
    publishes an index whose planes are the rows of the columns; the scratch
    rows are all zero again. *)
Lemma Build_spec vr spec c :
  spec_typed spec → columns_typed c → all_zero vr →
  match Build vr spec c with
  | Ok (vr', ix) => all_zero vr' ∧ index_ok spec c ix ∧ cRowOffset c + cRows c ≤ strideOf c
  | Err e => (e = ErrInvalidFactIndex ∨ e = ErrIndexTooLarge) ∧ ¬ accepted spec c
  | Panic _ => False
  end.
Proof.
  intros Hsp Hct Hz. unfold Build, check.
  destruct (negb (_ && _)) eqn:Hoff; simpl.
  2: { split; [by left|]. intros Ha. rewrite negb_false_iff, andb_true_iff, negb_true_iff, Z.eqb_eq, Z.eqb_neq in Hoff.
       destruct Hoff as [Hs Hne]. apply Hne, (ac_offset _ _ Ha Hs). }
  fold (strideOf c).
  assert (is_u32 (strideOf c)) as Hst by (unfold strideOf; destruct (_ =? _); apply Hct).
  assert (is_u32 (cRows c) ∧ is_u32 (cCount c) ∧ is_u32 (cRowOffset c) ∧ is_u32 (cProgramSymbolCount c)) as (Hr & Hc & Ho & Hs)
    by (by destruct Hct).
  unfold is_u32 in *. rewrite (u64_small (cRowOffset c + cRows c)) by (unfold is_u64; lia).
  destruct (Z.ltb_spec (strideOf c) (cRowOffset c + cRows c)) as [|Hrange]; simpl.
  { split; [by left|]. intros Ha. pose proof (ac_window _ _ Ha). lia. }
  unfold factColumnLen. rewrite (u64_small (strideOf c * cCount c)) by (unfold is_u64; nia).
  destruct (Z.ltb_spec (MaxInt / 4) (strideOf c * cCount c)).
  { split; [by right|]. intros Ha. pose proof (ac_length _ _ Ha). lia. }
  destruct ((zlen (cValues c) =? strideOf c * cCount c) && _) eqn:Hg; simpl.
  2: { split; [by left|]. intros Ha. destruct (ac_length _ _ Ha) as [Hl _]. by rewrite Hl, Z.eqb_refl, (ac_shape _ _ Ha) in Hg. }
  rewrite andb_true_iff, Z.eqb_eq in Hg. destruct Hg as [Hlen Hshape].
  apply validFactSpecShape_ok in Hshape as Hok; [|done].
  destruct (factMaskLen_total (cRows c) (zlen (fValues spec))) as [maskLen Hml]; [done|pose proof (so_size _ _ _ Hok); lia|].
  rewrite Hml. apply factMaskLen_Some in Hml; [|done|lia].
  rewrite (u64_small (cProgramSymbolCount c + 1)) by (unfold is_u64; lia).
  rewrite (proj2 (Z.ltb_ge (MaxInt / 4) (cProgramSymbolCount c + 1))) by (change (MaxInt / 4) with 2305843009213693951; lia). simpl.
  set (active := if zlen vr <? cProgramSymbolCount c + 1 then make_ (cProgramSymbolCount c + 1)
                 else take (Z.to_nat (cProgramSymbolCount c + 1)) vr).
  assert (length active = Z.to_nat (cProgramSymbolCount c + 1) ∧ all_zero active) as [Hal Haz].
  { unfold active, all_zero, make_. destruct (Z.ltb_spec (zlen vr) (cProgramSymbolCount c + 1)).
    - rewrite length_replicate. split; [done|]. intros x Hx. by apply lookup_total_replicate_2.
    - rewrite length_take. split; [lia|]. intros x Hx. rewrite lookup_total_take, decide_True by lia. apply Hz. lia. }
  change (factWordCount (cRows c)) with (WordCount (cRows c)).
  destruct (build_loop spec c Hct Hok Hrange Hlen active maskLen) as (vr' & masks & -> & Hl' & Hz' & Hp); [done| |done|].
  { intros x Hx. apply Haz. lia. }
  simpl. split_and!; [|split; try done|done].
  - intros x Hx. rewrite length_app in Hx. destruct (decide (x < length vr')%nat).
    + rewrite lookup_total_app_l by done. apply Hz'. lia.
    + rewrite lookup_total_app_r by lia. destruct (Z.ltb_spec (zlen vr) (cProgramSymbolCount c + 1)); simpl in *; [lia|].
      rewrite lookup_total_drop. apply Hz. rewrite length_drop in Hx. lia.
  - simpl. destruct (WordCount_bounds (cRows c)) as (? & ? & ?); [done|]. apply u32_small. unfold is_u32. lia.
Qed.

End FactIndex.

(** ** Indexed leaves (eval/batch_index.go) *)

Definition factIndexMinRows : Z := 64.

Definition factIndexQuerySymbol (p : Program) (id : Z) : option Z :=
  if id =? 0 then None else
  let row := id - 1 in
  if (zlen (ValueKinds p) <=? row) || (zlen (ValueRefs p) <=? row)
     || negb (ValueKinds p !!! Z.to_nat row =? ValueKindSymbol) then None else
  let s := ValueRefs p !!! Z.to_nat row in
  if (s =? 0) || (ProgramSymbolCount p <? s) then None else
  match Symbol p s with Some _ => Some s | None => None end.

(** The closure [contains] of [validFactIndexQueries]. *)
Definition queryContains (p : Program) (vs : list Z) (id : Z) : bool :=
  match factIndexQuerySymbol p id with
  | None => false
  | Some s => (BinarySearch vs s).2
  end.

(** The queries of one instruction are answered by the specification. *)
Definition validFactIndexQuery (p : Program) (row : nat) : go bool :=
  let spec := FactIndexSpec p in
  opcode ← at_ (Opcodes p) (Z.of_nat row);
  field ← at_ (Fields p) (Z.of_nat row);
  let '(fieldRow, selected) := BinarySearch (fFieldIDs spec) field in
  if negb selected then Ok true else
  start ← at_ (ValueStarts spec) (Z.of_nat fieldRow);
  count ← at_ (ValueCounts spec) (Z.of_nat fieldRow);
  vs ← slice_ (fValues spec) start (start + count);
  if (opcode =? OpcodeEqual) || (opcode =? OpcodeNotEqual) then
    id ← at_ (Values p) (Z.of_nat row);
    Ok (queryContains p vs id)
  else if opcode =? OpcodeIn then
    id ← at_ (Values p) (Z.of_nat row);
    if negb (id =? 0) then Ok false else
    listStart ← at_ (ListStarts p) (Z.of_nat row);
    listCount ← at_ (ListCounts p) (Z.of_nat row);
    ids ← slice_ (ListValues p) listStart (listStart + listCount);
    Ok (forallb (queryContains p vs) ids)
  else Ok true.

Definition validFactIndexQueries (p : Program) : go bool :=
  let spec := FactIndexSpec p in
  if bool_decide (length (fFieldIDs spec) = 0%nat) then Ok true else
  if negb (forallb (λ s, match Symbol p s with Some _ => true | None => false end) (fValues spec)) then Ok false else
  for_range (length (Opcodes p)) (λ row (ok : bool), if ok then validFactIndexQuery p row else Ok false) true.

Definition useFactIndex (mode : executionMode) (rows : Z) : bool :=
  match mode with
  | executionScalar | executionSIMD => false
  | executionIndex => true
  | executionAuto => factIndexMinRows <=? rows
  end.

Definition symbolColumns (p : Program) (batch : Batch) : FactIndex.Columns := {|
  FactIndex.cValues := SymbolValues batch;
  FactIndex.cRows := Rows batch;
  FactIndex.cCount := sCounts (FieldIndex p) !!! Z.to_nat ValueKindSymbol;
  FactIndex.cProgramSymbolCount := ProgramSymbolCount p;
  FactIndex.cRowOffset := rowBase batch;
  FactIndex.cRowStride := sourceRows batch
|}.

Definition buildFactIndex (valueRows : list Z) (p : Program) (batch : Batch) (mode : executionMode)
    : go (list Z * FactIndex.Index) :=
  if negb (useFactIndex mode (Rows batch)) || bool_decide (length (fFieldIDs (FactIndexSpec p)) = 0%nat)
  then Ok (valueRows, FactIndex.Reset)
  else match FactIndex.Build valueRows (FactIndexSpec p) (symbolColumns p batch) with
       | Ok r => Ok r
       | Err e => Err (if decide (e = ErrIndexTooLarge) then ErrBatchTooLarge else ErrInvalidProgram)
       | Panic s => Panic s
       end.

Section indexed_leaf.
Context {ops : SimdOps}.

(** OR one literal's mask into the positive plane. *)
Definition orMask (mode : executionMode) (words : Z) (pos : list Z) (mask : option (list Z)) : go (list Z) :=
  let mask := default [] mask in
  if bool_decide (length mask = 0%nat) then Ok pos
  else if useSIMDWords mode words then Ok (simdOrWords pos pos mask)
  else require (bool_decide (length mask ≤ length pos)%nat) "index out of range" ;;
       Ok (zip_with Z.lor pos mask ++ drop (length mask) pos).

(** The masks of a membership list, OR-ed. *)
Definition indexListMatches (index : FactIndex.Index) (p : Program) (field kind listStart listCount words : Z)
    (mode : executionMode) : go (list Z) :=
  for_range (Z.to_nat listCount) (λ i pos,
    vid ← at_ (ListValues p) (listStart + Z.of_nat i);
    value ← programPredicateValue p vid kind;
    found ← FactIndex.Lookup index field (symbol value);
    orMask mode words pos (default None found)) (make_ words).

(** One word of the leaf: [(positive, negative, missing)]. *)
Definition indexWord (batch : Batch) (opcode : Z) (presence pos : list Z) (equalMask : option (list Z)) (words : Z)
    (word : nat) : go (Z * Z * Z) :=
  let valid := leafWordMask (Z.of_nat word) words (Rows batch) in
  pw ← at_ presence (Z.of_nat word);
  let present := Z.land pw valid in
  matches ← (if opcode =? OpcodeIn then at_ pos (Z.of_nat word)
             else m ← match equalMask with None => Ok 0 | Some mask => at_ mask (Z.of_nat word) end;
                  Ok (if opcode =? OpcodeNotEqual then not64 m else m));
  Ok (Z.land present matches, Z.ldiff present matches, Z.ldiff valid present).

Definition evalPredicateIndex (index : FactIndex.Index) (dst : Planes) (reasons : slice) (batch : Batch) (p : Program)
    (instruction : Z) (mode : executionMode) : go (option LeafOut) :=
  if negb (useFactIndex mode (Rows batch)) then Ok None else
  let row := instruction - 1 in
  opcode ← at_ (Opcodes p) row;
  if negb ((opcode =? OpcodeEqual) || (opcode =? OpcodeNotEqual) || (opcode =? OpcodeIn)) then Ok None else
  field ← at_ (Fields p) row;
  '(kind, column) ← predicateField p field;
  if negb (kind =? ValueKindSymbol) then Ok None else
  indexed ← FactIndex.Lookup index field 0;
  match indexed with
  | None => Ok None
  | Some _ =>
    '(equalMask, listStart, listCount) ← (
      if opcode =? OpcodeIn then
        vid ← at_ (Values p) row;
        require (vid =? 0) "eval: invalid in predicate" ;;
        listStart ← at_ (ListStarts p) row;
        listCount ← at_ (ListCounts p) row;
        require (negb (zlen (ListValues p) <? u64 (listStart + listCount))) "eval: invalid in predicate" ;;
        _ ← map_go (λ i, vid ← at_ (ListValues p) (listStart + Z.of_nat i); programPredicateValue p vid kind)
              (seq 0 (Z.to_nat listCount));
        Ok (None, listStart, listCount)
      else
        vid ← at_ (Values p) row;
        value ← programPredicateValue p vid kind;
        found ← FactIndex.Lookup index field (symbol value);
        Ok (default None found, 0, 0));
    words ← resetLeafOutputs dst reasons (Rows batch);
    pos ← (if opcode =? OpcodeIn then indexListMatches index p field kind listStart listCount words mode
           else Ok (make_ words));
    presence ← batchWordColumn batch (PresenceMasks batch) (u32 (field - 1));
    ws ← map_go (indexWord batch opcode presence pos equalMask words) (seq 0 (Z.to_nat words));
    Ok (Some (leafOutOf words ws))
  end.
End indexed_leaf.

(** ** Lookup returns the rows of the column *)

Lemma Lookup_rows spec c ix field f :
  FactIndex.columns_typed c → FactIndex.index_ok spec c ix → BinarySearch (fFieldIDs spec) field = (f, true) →
  ∀ value, ∃ mask, FactIndex.Lookup ix field value = Ok (Some mask) ∧
    (value ∈ FactIndex.fieldValues spec f → ∃ m, mask = Some m ∧ length m = nwords (FactIndex.cRows c) ∧
      ∀ r, (r < 64 * nwords (FactIndex.cRows c))%nat →
        rowBit m r = bool_decide (Z.of_nat r < FactIndex.cRows c) && (FactIndex.columnAt spec c f r =? value)).
Proof.
  intros Hct [Hspec Hok Hw (Hml & Hplanes & _)] Hf value. apply BinarySearch_found in Hf as Hf'. destruct Hf' as [Hlt Hfield].
  destruct (FactIndex.so_range _ _ _ Hok f Hlt) as (Hs0 & Hc0 & Hend).
  destruct (WordCount_bounds (FactIndex.cRows c)) as (Hw0 & _); [by destruct Hct|].
  unfold FactIndex.Lookup. rewrite Hspec, Hf. simpl.
  rewrite !at_total by (destruct Hok; lia). rewrite !Nat2Z.id. simpl.
  rewrite slice_csr by lia. simpl. fold (FactIndex.fieldValues spec f).
  pose proof (FactIndex.so_values _ _ _ Hok f Hlt) as Hinc.
  destruct (BinarySearch (FactIndex.fieldValues spec f) value) as [j []] eqn:E; simpl.
  - apply BinarySearch_found in E as [Hj Ev].
    rewrite FactIndex.length_fieldValues in Hj by lia.
    set (w := WordCount (FactIndex.cRows c)) in *.
    assert (0 ≤ (ValueStarts spec !!! f + Z.of_nat j) * w) as Hm0 by (apply Z.mul_nonneg_nonneg; lia).
    assert ((ValueStarts spec !!! f + Z.of_nat j) * w + w ≤ zlen (FactIndex.ixValueMasks ix)) as Hm1.
    { transitivity (zlen (fValues spec) * w); [|lia].
      rewrite <-(Z.mul_1_l w) at 2. rewrite <-Z.mul_add_distr_r. apply Z.mul_le_mono_nonneg_r; lia. }
    rewrite Hw. rewrite slice_csr; [simpl|done..]. eexists; split; [done|]. intros _. eexists; split; [done|].
    split; [by apply length_csr|]. intros r Hr. unfold rowBit. pose proof (row_split r).
    rewrite csr_lookup_total by lia.
    set (v := (Z.to_nat (ValueStarts spec !!! f) + j)%nat).
    replace (Z.to_nat ((ValueStarts spec !!! f + Z.of_nat j) * w)) with (v * Z.to_nat w)%nat
      by (unfold v; rewrite Z2Nat.inj_mul, Z2Nat.inj_add, Nat2Z.id by lia; done).
    rewrite <-Ev. assert (FactIndex.fieldValues spec f !!! j = fValues spec !!! v) as ->.
    { unfold FactIndex.fieldValues. rewrite csr_lookup_total by lia. done. }
    rewrite <-(Hplanes f v r) by (done || unfold v; lia). unfold rowBit.
    by destruct (plane_index (Z.to_nat w) v r) as [-> ->].
  - eexists; split; [done|]. intros Hin. by apply BinarySearch_missing in E.
Qed.

Lemma factIndexQuerySymbol_valueOf p id s :
  factIndexQuerySymbol p id = Some s → decodable p ValueKindSymbol id = true →
  symbol (valueOf p id ValueKindSymbol) = s.
Proof.
  intros Hq Hdec. apply decodable_Ok in Hdec. unfold factIndexQuerySymbol in Hq. unfold programPredicateValue in Hdec.
  repeat case_match; simplify_eq.
  apply go_bind_inv in Hdec as (? & _ & Hdec). apply go_bind_inv in Hdec as (? & _ & Hdec).
  apply go_bind_inv in Hdec as (ref & Href & Hdec). apply at_Ok in Href as [Hge Href].
  apply list_lookup_total_correct in Href.
  apply go_bind_inv in Hdec as (? & _ & Hdec). apply go_bind_inv in Hdec as (? & _ & Hdec).
  destruct (Symbol p ref); [|done]. simplify_eq. simpl in *.  by inversion Hdec.
Qed.

Lemma validFactIndexQueries_row p row :
  validFactIndexQueries p = Ok true → length (fFieldIDs (FactIndexSpec p)) ≠ 0%nat → (row < length (Opcodes p))%nat →
  validFactIndexQuery p row = Ok true.
Proof.
  unfold validFactIndexQueries. intros Hv Hne Hrow. rewrite bool_decide_eq_false_2 in Hv by done.
  destruct (negb _); [done|].
  refine (for_range_ind (λ i ok, ok = true → ∀ row, (row < i)%nat → validFactIndexQuery p row = Ok true)
    _ _ _ _ _ _ Hv eq_refl row Hrow).
  - intros _ r Hr. lia.
  - intros i t t' Hi Ht Hbody E r Hr. destruct t; [|by simplify_eq].
    destruct (decide (r = i)) as [->|]; [congruence|]. apply Ht; [done|lia].
Qed.

(** The facts an indexed execution relies on. *)
Definition fact_ok (p : Program) (b : Batch) (ix : FactIndex.Index) : Prop :=
  FactIndex.ixSpec ix = None ∨ FactIndex.index_ok (FactIndexSpec p) (symbolColumns p b) ix.

Record facts_typed (p : Program) (b : Batch) : Prop := {
  ft_spec : FactIndex.spec_typed (FactIndexSpec p);
  ft_symbols : is_u32 (ProgramSymbolCount p);
  ft_values : Forall is_u32 (SymbolValues b)
}.

Lemma symbolColumns_typed p b :
  columns_ok p b → facts_typed p b →
  FactIndex.columns_typed (symbolColumns p b) ∧ FactIndex.strideOf (symbolColumns p b) = sourceRows b.
Proof.
  intros Hco [_ Hs Hv]. pose proof (co_batch _ _ Hco) as Hb. pose proof (co_range _ _ Hco) as Hr.
  split; [split|]; simpl; try done; try (by destruct Hb).
  - destruct Hco as [_ [Hl Hu _] _ _ _ _ _ _]. apply Forall_lookup_total_1; [done|]. unfold ValueKindSymbol. lia.
  - by apply sourceRows_u32.
  - unfold FactIndex.strideOf. simpl. destruct (Z.eqb_spec (sourceRows b) 0) as [E|]; [|done].
    destruct (validPhysicalRange_inv b Hb Hr) as (_ & _ & Hle). destruct Hb as [Hrb Hbb _]. unfold is_u32 in *. lia.
Qed.

Lemma columnAt_colValue p b f r column :
  columns_ok p b → facts_typed p b → fColumns (FactIndexSpec p) !!! f = column →
  FactIndex.columnAt (FactIndexSpec p) (symbolColumns p b) f r = colValue b (SymbolValues b) column r.
Proof.
  intros Hco Hft <-. unfold FactIndex.columnAt, colValue. by destruct (symbolColumns_typed p b Hco Hft) as [_ ->].
Qed.

(** The built index is the one the leaves need, in every mode. *)
Lemma buildFactIndex_ok vr p b mode :
  columns_ok p b → facts_typed p b → FactIndex.all_zero vr →
  match buildFactIndex vr p b mode with
  | Ok (vr', ix) => FactIndex.all_zero vr' ∧ fact_ok p b ix
  | Err e => (e = ErrBatchTooLarge ∨ e = ErrInvalidProgram) ∧ ¬ FactIndex.accepted (FactIndexSpec p) (symbolColumns p b)
  | Panic _ => False
  end.
Proof.
  intros Hco Hft Hz. unfold buildFactIndex. destruct (_ || _); [split; [done|by left]|].
  destruct (symbolColumns_typed p b Hco Hft) as [Hct _].
  pose proof (FactIndex.Build_spec vr (FactIndexSpec p) (symbolColumns p b) (ft_spec _ _ Hft) Hct Hz) as Hb.
  destruct (FactIndex.Build _ _ _) as [[vr' ix]|e|]; [|destruct Hb; split; [destruct (decide _); [by left|by right]|done]|done].
  destruct Hb as (? & ? & _). split; [done|by right].
Qed.

Section indexed_rows.
Context {ops : SimdOps} {laws : SimdLaws ops}.
Context (p : Program) (b : Batch) (ix : FactIndex.Index) (row : nat) (column : Z) (f : nat).
Context (Hco : columns_ok p b) (Hft : facts_typed p b).
Context (Hok : predicateOk p row = true).
Context (Hlookup : SchemaLookup (FieldIndex p) (Fields p !!! row) = Some (ValueKindSymbol, column)).
Context (Hix : FactIndex.index_ok (FactIndexSpec p) (symbolColumns p b) ix).
Context (Hfield : BinarySearch (fFieldIDs (FactIndexSpec p)) (Fields p !!! row) = (f, true)).
Context (Hcolumn : fColumns (FactIndexSpec p) !!! f = column).

Local Abbreviation opcode := (Opcodes p !!! row).
Local Abbreviation vs := (FactIndex.fieldValues (FactIndexSpec p) f).

Lemma fact_vs : increasing vs ∧ slice_ (fValues (FactIndexSpec p)) (ValueStarts (FactIndexSpec p) !!! f)
    (ValueStarts (FactIndexSpec p) !!! f + ValueCounts (FactIndexSpec p) !!! f) = Ok vs.
Proof.
  destruct Hix as [_ Hsp _ _]. apply BinarySearch_found in Hfield as [Hf _].
  destruct (FactIndex.so_range _ _ _ Hsp f Hf) as (? & ? & ?). split; [by eapply FactIndex.so_values|].
  apply slice_csr; lia.
Qed.

Lemma queryContains_in id :
  queryContains p vs id = true → decodable p ValueKindSymbol id = true → symbol (valueOf p id ValueKindSymbol) ∈ vs.
Proof.
  unfold queryContains. intros Hq Hdec. destruct (factIndexQuerySymbol p id) as [s|] eqn:E; [|done].
  rewrite (factIndexQuerySymbol_valueOf p id s) by done.
  destruct (BinarySearch vs s) as [i []] eqn:Es; [|done]. apply BinarySearch_found in Es as [Hi <-].
  by apply list_elem_of_lookup_total_2.
Qed.

(** A queried literal's mask is the set of rows holding it. *)
Lemma literal_mask id :
  queryContains p vs id = true → decodable p ValueKindSymbol id = true →
  ∃ m, FactIndex.Lookup ix (Fields p !!! row) (symbol (valueOf p id ValueKindSymbol)) = Ok (Some (Some m)) ∧
    length m = nwords (Rows b) ∧
    ∀ r, (r < 64 * nwords (Rows b))%nat →
      rowBit m r = tailKeep (Rows b) r && literalMatches b ValueKindSymbol column (valueOf p id ValueKindSymbol) r.
Proof.
  intros Hq Hdec. destruct (symbolColumns_typed p b Hco Hft) as [Hct _].
  destruct (Lookup_rows _ _ _ _ _ Hct Hix Hfield (symbol (valueOf p id ValueKindSymbol))) as (mask & -> & Hm).
  destruct Hm as (m & -> & Hl & Hbits); [by apply queryContains_in|]. exists m. split; [done|]. split; [done|].
  intros r Hr. rewrite Hbits by done. by rewrite (columnAt_colValue _ _ _ _ column) by done.
Qed.

Lemma orMask_ok mode (pos m : list Z) :
  length pos = nwords (Rows b) → length m = nwords (Rows b) →
  ∃ pos', orMask mode (WordCount (Rows b)) pos (Some m) = Ok pos' ∧ length pos' = nwords (Rows b) ∧
    ∀ r, (r < 64 * nwords (Rows b))%nat → rowBit pos' r = rowBit pos r || rowBit m r.
Proof.
  intros Hp Hm. unfold orMask. simpl.
  destruct (bool_decide_reflect (length m = 0%nat)) as [Hz|Hz].
  { exists pos. split; [done|]. split; [done|]. intros r Hr. lia. }
  assert (∀ r, (r < 64 * nwords (Rows b))%nat → rowBit (zip_with Z.lor pos m) r = rowBit pos r || rowBit m r) as Hb.
  { intros r Hr. apply rowBit_zip_with; [intros; apply Z.lor_spec|lia..]. }
  destruct (useSIMDWords mode _).
  - eexists; split; [done|]. rewrite law_OrWords by lia. rewrite length_zip_with. split; [lia|done].
  - rewrite bool_decide_eq_true_2 by lia. simpl. eexists; split; [done|].
    rewrite drop_ge, app_nil_r, length_zip_with by lia. split; [lia|done].
Qed.

Lemma indexListMatches_ok mode start count :
  0 ≤ start → 0 ≤ count → start + count ≤ zlen (ListValues p) →
  let ids := csr (ListValues p) start count in
  forallb (decodable p ValueKindSymbol) ids = true → forallb (queryContains p vs) ids = true →
  ∃ pos, indexListMatches ix p (Fields p !!! row) ValueKindSymbol start count (WordCount (Rows b)) mode = Ok pos ∧
    length pos = nwords (Rows b) ∧
    ∀ r, tailKeep (Rows b) r = true → rowBit pos r =
      existsb (λ vid, literalMatches b ValueKindSymbol column (valueOf p vid ValueKindSymbol) r) ids.
Proof.
  intros Hs Hc Hle ids Hdec Hq. unfold indexListMatches.
  assert (length ids = Z.to_nat count) as Hlids by (apply length_csr; lia).
  assert (is_u32 (Rows b)) as Hr by (destruct Hco as [[] _ _ _ _ _ _ _]; done).
  destruct (WordCount_bounds (Rows b) Hr) as (Hw & Hge & _).
  destruct (for_range_total (λ i pos, length pos = nwords (Rows b) ∧ ∀ r, tailKeep (Rows b) r = true → rowBit pos r =
      existsb (λ vid, literalMatches b ValueKindSymbol column (valueOf p vid ValueKindSymbol) r) (take i ids))
    (Z.to_nat count) (λ i pos,
      vid ← at_ (ListValues p) (start + Z.of_nat i);
      value ← programPredicateValue p vid ValueKindSymbol;
      found ← FactIndex.Lookup ix (Fields p !!! row) (symbol value);
      orMask mode (WordCount (Rows b)) pos (default None found)) (make_ (WordCount (Rows b)))) as (pos & Hpos & Hl & Hbits).
  - unfold make_. rewrite length_replicate. split; [done|]. intros r Ht. simpl. apply rowBit_replicate0.
    apply row_lt_rows in Ht. lia.
  - intros i t Hi (Hlt & Hbits). rewrite at_total by lia. simpl.
    replace (ListValues p !!! Z.to_nat (start + Z.of_nat i)) with (ids !!! i).
    2: { unfold ids. rewrite csr_lookup_total by lia. f_equal. lia. }
    assert (decodable p ValueKindSymbol (ids !!! i) = true) as Hd by (apply forallb_lookup_total; [done|lia]).
    rewrite decodable_Ok by done. simpl.
    destruct (literal_mask (ids !!! i)) as (m & -> & Hlm & Hm); [apply forallb_lookup_total; [done|lia]|done|]. simpl.
    destruct (orMask_ok mode t m Hlt Hlm) as (t' & -> & Hlt' & Ht'). exists t'. split; [done|]. split; [done|].
    intros r Ht. rewrite Ht', Hbits, Hm, Ht by (try done; apply row_lt_rows in Ht; lia). simpl.
    rewrite (take_S_r ids i (ids !!! i)) by (apply list_lookup_lookup_total_lt; lia).
    rewrite existsb_app. simpl. by rewrite orb_false_r.
  - exists pos. split; [exact Hpos|]. split; [done|]. intros r Ht. rewrite Hbits by done. by rewrite take_ge by lia.
Qed.
End indexed_rows.

Lemma Valid_column spec fields syms f :
  FactIndex.Valid spec fields syms = true → (f < length (fFieldIDs spec))%nat →
  SchemaLookup fields (fFieldIDs spec !!! f) = Some (ValueKindSymbol, fColumns spec !!! f).
Proof.
  unfold FactIndex.Valid. rewrite !andb_true_iff, forallb_forall. intros [_ Hall] Hf.
  specialize (Hall f). rewrite in_seq in Hall. specialize (Hall ltac:(lia)).
  destruct (SchemaLookup _ _) as [[kind column]|]; [|done]. rewrite andb_true_iff, !Z.eqb_eq in Hall.
  destruct Hall as [-> ->]. done.
Qed.

(** What the query check gives one indexed instruction. *)
Lemma query_literals p row f :
  predicateOk p row = true → validFactIndexQuery p row = Ok true →
  BinarySearch (fFieldIDs (FactIndexSpec p)) (Fields p !!! row) = (f, true) →
  slice_ (fValues (FactIndexSpec p)) (ValueStarts (FactIndexSpec p) !!! f)
    (ValueStarts (FactIndexSpec p) !!! f + ValueCounts (FactIndexSpec p) !!! f)
    = Ok (FactIndex.fieldValues (FactIndexSpec p) f) →
  let vs := FactIndex.fieldValues (FactIndexSpec p) f in
  (Opcodes p !!! row = OpcodeEqual ∨ Opcodes p !!! row = OpcodeNotEqual → queryContains p vs (Values p !!! row) = true) ∧
  (Opcodes p !!! row = OpcodeIn → forallb (queryContains p vs) (inLiterals p row) = true).
Proof.
  intros Hok Hq Hf Hs vs. destruct (predicateOk_inv p row Hok) as (kind & column & _ & (Ho & Hfl & Hv & Hls & Hlc) & _ & _ & _ & _ & Hops & _).
  unfold validFactIndexQuery in Hq. rewrite !at_total in Hq by lia. rewrite !Nat2Z.id in Hq. simpl in Hq.
  rewrite Hf in Hq. simpl in Hq.
  apply go_bind_inv in Hq as (start & E1 & Hq). apply at_Ok in E1 as [_ E1]. rewrite Nat2Z.id in E1. apply list_lookup_total_correct in E1.
  apply go_bind_inv in Hq as (count & E2 & Hq). apply at_Ok in E2 as [_ E2]. rewrite Nat2Z.id in E2. apply list_lookup_total_correct in E2.
  rewrite <-E1, <-E2, Hs in Hq. simpl in Hq. split.
  - intros Hop. replace ((Opcodes p !!! row =? OpcodeEqual) || (Opcodes p !!! row =? OpcodeNotEqual)) with true in Hq
      by (symmetry; apply orb_true_iff; rewrite !Z.eqb_eq; tauto).
    by inversion Hq.
  - intros Hop. rewrite Hop in Hq, Hops. simpl in Hq, Hops. destruct Hops as (Hz & ? & ? & ? & _ & _).
    rewrite Hz in Hq. simpl in Hq. rewrite slice_csr in Hq by lia. simpl in Hq. by inversion Hq.
Qed.

Section index_leaf.
Context {ops : SimdOps} {laws : SimdLaws ops}.
Context (p : Program) (b : Batch) (ix : FactIndex.Index) (row : nat).
Context (Hco : columns_ok p b) (Hft : facts_typed p b).
Context (Hok : predicateOk p row = true).
Context (Hix : fact_ok p b ix).
Context (Hvalid : FactIndex.Valid (FactIndexSpec p) (FieldIndex p) (ProgramSymbolCount p) = true).
Context (Hqueries : validFactIndexQueries p = Ok true).

Local Abbreviation opcode := (Opcodes p !!! row).

(** One word of the indexed leaf, given its match rows. *)
Lemma indexWord_bits (presence pos : list Z) equalMask w column :
  SchemaLookup (FieldIndex p) (Fields p !!! row) = Some (ValueKindSymbol, column) →
  opcode = OpcodeEqual ∨ opcode = OpcodeNotEqual ∨ opcode = OpcodeIn →
  presence = csr (PresenceMasks b) ((Fields p !!! row - 1) * sourceWords b + wordBase b) (WordCount (Rows b)) →
  length pos = nwords (Rows b) →
  (opcode = OpcodeIn → ∀ r, tailKeep (Rows b) r = true →
     rowBit pos r = predicateMatches p b opcode ValueKindSymbol column row r) →
  (opcode ≠ OpcodeIn → ∃ m, equalMask = Some m ∧ length m = nwords (Rows b) ∧ ∀ r, tailKeep (Rows b) r = true →
     rowBit m r = literalMatches b ValueKindSymbol column (valueOf p (Values p !!! row) ValueKindSymbol) r) →
  (w < nwords (Rows b))%nat →
  ∃ out, indexWord b opcode presence pos equalMask (WordCount (Rows b)) w = Ok out ∧
    ∀ j, (j < 64)%nat → let r := (64 * w + j)%nat in
      Z.testbit out.1.1 (Z.of_nat j) = tailKeep (Rows b) r && (predicateRow p b row r).1.1 ∧
      Z.testbit out.1.2 (Z.of_nat j) = tailKeep (Rows b) r && (predicateRow p b row r).1.2 ∧
      Z.testbit out.2 (Z.of_nat j) = tailKeep (Rows b) r && Has (predicateRow p b row r).2 ReasonMissing.
Proof.
  intros Hlookup Hop Hpres Hlp Hin Heq Hw.
  destruct (predicateOk_facts p row _ _ Hok Hlookup) as (_ & _ & Hf & _).
  destruct (presence_column p b row _ _ Hco Hok Hlookup) as (_ & _ & Hplen). rewrite <-Hpres in Hplen.
  pose proof (co_batch _ _ Hco) as Hb. pose proof (co_range _ _ Hco) as Hv.
  assert (is_u32 (Rows b)) as Hr by (by destruct Hb).
  assert (∀ j, (j < 64)%nat → Z.testbit (presence !!! w) (Z.of_nat j) =
    colBit b (PresenceMasks b) (Fields p !!! row - 1) (64 * w + j)) as Hpb.
  { intros j Hj. rewrite Hpres. apply colBit_word; done || lia. }
  assert (∃ m, (if opcode =? OpcodeIn then at_ pos (Z.of_nat w)
             else m ← match equalMask with None => Ok 0 | Some mask => at_ mask (Z.of_nat w) end;
                  Ok (if opcode =? OpcodeNotEqual then not64 m else m)) = Ok m ∧
    ∀ j, (j < 64)%nat → tailKeep (Rows b) (64 * w + j)%nat = true →
      Z.testbit m (Z.of_nat j) = predicateMatches p b opcode ValueKindSymbol column row (64 * w + j)) as (m & Em & Hm).
  { destruct (Z.eqb_spec opcode OpcodeIn) as [Ei|Ei].
    - rewrite at_total by lia. rewrite Nat2Z.id. eexists; split; [done|]. intros j Hj Ht.
      rewrite <-Hin by done. unfold rowBit. by destruct (row_of_word w j Hj) as [-> ->].
    - destruct (Heq Ei) as (m & -> & Hlm & Hm). rewrite at_total by lia. simpl. rewrite Nat2Z.id.
      eexists; split; [done|]. intros j Hj Ht. unfold predicateMatches, comparisonMatches. rewrite <-Hm by done. simpl.
      unfold rowBit. destruct (row_of_word w j Hj) as [-> ->].
      destruct Hop as [E|[E|E]]; rewrite E; [done| |done]. simpl. by rewrite testbit_not64 by lia. }
  unfold indexWord. rewrite (at_total presence) by lia. rewrite Nat2Z.id. simpl. rewrite Em. simpl.
  eexists; split; [done|]. intros j Hj. simpl. unfold predicateRow. rewrite Hlookup. simpl.
  replace (opcode =? OpcodeDefined) with false by (by destruct Hop as [-> |[-> | ->]]).
  replace (opcode =? OpcodeExists) with false by (by destruct Hop as [-> |[-> | ->]]). simpl.
  rewrite !Z.ldiff_spec, !Z.land_spec, testbit_leafWordMask, Hpb by done.
  destruct (tailKeep _ _) eqn:Et; [rewrite (Hm j Hj Et)|]; destruct (colBit _ _ _ _); simpl; try done;
    rewrite ?andb_false_r, ?andb_true_r; done.
Qed.

Lemma evalPredicateIndex_spec dst reasons mode :
  leaf_shape dst reasons (Rows b) →
  ∃ r, evalPredicateIndex ix dst reasons b p (Z.of_nat row + 1) mode = Ok r ∧
    match r with None => True | Some out => leaf_spec (Rows b) out (predicateRow p b row) end.
Proof.
  intros Hshape. assert (is_u32 (Rows b)) as Hr by (destruct Hco as [[] _ _ _ _ _ _ _]; done).
  destruct (WordCount_bounds (Rows b) Hr) as (Hwc & _ & _).
  destruct (predicateOk_inv p row Hok) as (kind & column & Hlookup & (Ho & Hfl & Hv & Hls & Hlc) & _ & Hf1 & Hk & Hcol & Hops & _).
  assert (length (sCounts (FieldIndex p)) = 6%nat) as Hl6 by apply Hco.
  assert (0 < kind < 6) as Hk6 by (unfold KindValid, ValueKindSymbol, ValueKindPresence in Hk; lia).
  unfold evalPredicateIndex. destruct (negb (useFactIndex mode _)); [by eexists|].
  replace (Z.of_nat row + 1 - 1) with (Z.of_nat row) by lia.
  rewrite (at_total (Opcodes p)) by lia. rewrite Nat2Z.id. simpl.
  destruct (negb _) eqn:Hop; [by eexists|]. rewrite negb_false_iff, !orb_true_iff, !Z.eqb_eq in Hop.
  rewrite (at_total (Fields p)) by lia. rewrite Nat2Z.id. simpl.
  unfold predicateField. rewrite Hlookup, Hk. simpl. rewrite (at_total (sCounts _)) by lia. simpl.
  rewrite (proj2 (Z.ltb_lt _ _)) by lia. simpl.
  destruct (Z.eqb_spec kind ValueKindSymbol) as [->|]; simpl; [|by eexists].
  destruct Hix as [Hnone|Hind]; [unfold FactIndex.Lookup; rewrite Hnone; by eexists|].
  destruct (symbolColumns_typed p b Hco Hft) as [Hct _].
  destruct (BinarySearch (fFieldIDs (FactIndexSpec p)) (Fields p !!! row)) as [f []] eqn:Hf.
  2: { unfold FactIndex.Lookup. rewrite (FactIndex.io_spec _ _ _ Hind), Hf. by eexists. }
  destruct (Lookup_rows _ _ _ _ _ Hct Hind Hf 0) as (mask0 & -> & _). simpl.
  apply BinarySearch_found in Hf as Hf'. destruct Hf' as [Hflt Hfe].
  assert (fColumns (FactIndexSpec p) !!! f = column) as Hcolumn.
  { pose proof (Valid_column _ _ _ f Hvalid Hflt) as E. rewrite Hfe, Hlookup in E. by simplify_eq. }
  destruct (fact_vs p b ix row f Hind Hf) as [_ Hslice].
  destruct (query_literals p row f Hok (validFactIndexQueries_row p row Hqueries ltac:(lia) ltac:(lia)) Hf Hslice) as [Hqe Hqi].
  destruct (presence_column p b row _ _ Hco Hok Hlookup) as (Hpres & _ & _).
  rewrite (at_total (Values p)), (at_total (ListStarts p)), (at_total (ListCounts p)) by lia. rewrite !Nat2Z.id. simpl.
  assert (∃ em ls lc pos,
    (if opcode =? OpcodeIn
     then require (Values p !!! row =? 0) "eval: invalid in predicate" ;;
          require (negb (zlen (ListValues p) <? u64 (ListStarts p !!! row + ListCounts p !!! row))) "eval: invalid in predicate" ;;
          _ ← map_go (λ i, vid ← at_ (ListValues p) (ListStarts p !!! row + Z.of_nat i); programPredicateValue p vid ValueKindSymbol)
                (seq 0 (Z.to_nat (ListCounts p !!! row)));
          Ok (None, ListStarts p !!! row, ListCounts p !!! row)
     else value ← programPredicateValue p (Values p !!! row) ValueKindSymbol;
          found ← FactIndex.Lookup ix (Fields p !!! row) (symbol value);
          Ok (default None found, 0, 0)) = Ok (em, ls, lc) ∧
    (if opcode =? OpcodeIn then indexListMatches ix p (Fields p !!! row) ValueKindSymbol ls lc (WordCount (Rows b)) mode
     else Ok (make_ (WordCount (Rows b)))) = Ok pos ∧ length pos = nwords (Rows b) ∧
    (opcode = OpcodeIn → ∀ r, tailKeep (Rows b) r = true →
       rowBit pos r = predicateMatches p b opcode ValueKindSymbol column row r) ∧
    (opcode ≠ OpcodeIn → ∃ m, em = Some m ∧ length m = nwords (Rows b) ∧ ∀ r, tailKeep (Rows b) r = true →
       rowBit m r = literalMatches b ValueKindSymbol column (valueOf p (Values p !!! row) ValueKindSymbol) r))
    as (em & ls & lc & pos & E1 & E2 & Hlp & Hin & Heq).
  { destruct (Z.eqb_spec opcode OpcodeIn) as [Ei|Ei].
    - rewrite Ei in Hops. simpl in Hops. destruct Hops as (-> & Hs0 & Hc0 & Hle & Hmax & Hdec). simpl.
      rewrite u64_small by (unfold is_u64, MaxUint32 in *; lia). rewrite (proj2 (Z.ltb_ge _ _)) by lia. simpl.
      rewrite (map_go_Ok _ (λ i, valueOf p (inLiterals p row !!! i) ValueKindSymbol)).
      2: { intros i Hi%elem_of_seq. rewrite at_total by lia. simpl. unfold inLiterals. rewrite csr_lookup_total by lia.
           replace (Z.to_nat (ListStarts p !!! row + Z.of_nat i)) with (Z.to_nat (ListStarts p !!! row) + i)%nat by lia.
           apply decodable_Ok. rewrite <-(csr_lookup_total _ _ (ListCounts p !!! row)) by lia.
           apply forallb_lookup_total; [done|]. rewrite length_csr; lia. }
      simpl. destruct (indexListMatches_ok p b ix row column f Hco Hft Hind Hf Hcolumn mode
        (ListStarts p !!! row) (ListCounts p !!! row)) as (pos & Hpos & Hlp & Hb); [lia..|done|by apply Hqi|].
      eexists _, _, _, pos. split; [done|]. split; [exact Hpos|]. split; [done|]. split; [|done].
      intros _ r Ht. rewrite Hb by done. unfold predicateMatches. by rewrite Ei.
    - assert (opcode = OpcodeEqual ∨ opcode = OpcodeNotEqual) as Hop2 by tauto.
      assert (decodable p ValueKindSymbol (Values p !!! row) = true) as Hdec by (by destruct Hop2 as [E|E]; rewrite E in Hops).
      rewrite decodable_Ok by done. simpl.
      destruct (literal_mask p b ix row column f Hco Hft Hind Hf Hcolumn (Values p !!! row)) as (m & -> & Hlm & Hm); [by apply Hqe|done|].
      simpl. eexists _, _, _, _. split; [done|]. split; [done|].
      split; [unfold make_; rewrite length_replicate; lia|]. split; [done|]. intros _. exists m. split; [done|]. split; [done|].
      intros r Ht. rewrite Hm by (apply row_lt_rows in Ht; destruct (WordCount_bounds (Rows b) Hr); lia). by rewrite Ht. }
  rewrite E1. simpl. rewrite resetLeafOutputs_ok by done. simpl. rewrite E2. simpl. rewrite Hpres. simpl.
  set (presence := csr (PresenceMasks b) _ _).
  pose (g := λ w, match indexWord b opcode presence pos em (WordCount (Rows b)) w with Ok o => o | _ => (0, 0, 0) end).
  assert (∀ w, (w < nwords (Rows b))%nat → ∃ out, indexWord b opcode presence pos em (WordCount (Rows b)) w = Ok out ∧ _) as Hwords
    by (intros w Hw; exact (indexWord_bits presence pos em w column Hlookup ltac:(tauto) eq_refl Hlp Hin Heq Hw)).
  rewrite (map_go_Ok _ g).
  2: { intros w Hw%elem_of_seq. unfold g. destruct (Hwords w) as (out & -> & _); [lia|done]. }
  simpl. eexists; split; [done|]. simpl. apply leafOutOf_spec; [done| |].
  - intros w j Hw Hj. destruct (Hwords w Hw) as (out & E & Hbits). unfold g. rewrite E. by apply Hbits.
  - intros r reason. by eapply predicateRow_missing_only.
Qed.
End index_leaf.

(** ** Properties *)

(** C25: on a validated program and batch the three leaf back ends agree: the scalar
    leaf always answers, and whenever the SIMD or the indexed leaf answers, all
    three outputs give every request row the same truth value and reasons, those
    of the row-wise reference. *)
Theorem leaf_backends_agree {ops : SimdOps} {laws : SimdLaws ops} (p : Program) (b : Batch) (ix : FactIndex.Index)
    (row : nat) (dst : Planes) (reasons : slice) (mask : list bool) (mode : executionMode) :
  columns_ok p b → facts_typed p b → predicateOk p row = true → fact_ok p b ix →
  FactIndex.Valid (FactIndexSpec p) (FieldIndex p) (ProgramSymbolCount p) = true → validFactIndexQueries p = Ok true →
  leaf_shape dst reasons (Rows b) →
  ∃ scalar simd mask' indexed,
    evalPredicate dst reasons b p (Z.of_nat row + 1) = Ok scalar ∧
    evalPredicateSIMD mask dst reasons b p (Z.of_nat row + 1) mode = Ok (simd, mask') ∧
    evalPredicateIndex ix dst reasons b p (Z.of_nat row + 1) mode = Ok indexed ∧
    leaf_spec (Rows b) scalar (predicateRow p b row) ∧
    (∀ out, simd = Some out → leaf_spec (Rows b) out (predicateRow p b row)) ∧
    (∀ out, indexed = Some out → leaf_spec (Rows b) out (predicateRow p b row)).
Proof.
  intros Hco Hft Hok Hix Hv Hq Hshape. destruct (predicateOk_inv p row Hok) as (kind & column & Hlk & _).
  destruct (evalPredicate_spec p b row kind column Hco Hok Hlk dst reasons Hshape) as (scalar & E1 & S1).
  destruct (evalPredicateSIMD_spec p b row kind column Hco Hok Hlk mask dst reasons mode Hshape) as (simd & mask' & E2 & S2).
  destruct (evalPredicateIndex_spec p b ix row Hco Hft Hok Hix Hv Hq dst reasons mode Hshape) as (indexed & E3 & S3).
  exists scalar, simd, mask', indexed. split_and!; try done; intros out ->; done.
Qed.

(** C29: [FactBuilder.Build] never panics on typed inputs. It returns an index in
    which the mask looked up for a queried value is exactly the set of rows of the
    field's column holding that value, and it leaves its reused scratch all zero;
    when it refuses, the specification and columns do not meet its checks. *)
Theorem fact_index_exact (valueRows : list Z) (spec : FactSpec) (c : FactIndex.Columns) :
  FactIndex.spec_typed spec → FactIndex.columns_typed c → FactIndex.all_zero valueRows →
  match FactIndex.Build valueRows spec c with
  | Ok (valueRows', ix) => FactIndex.all_zero valueRows' ∧
      ∀ f value, (f < length (fFieldIDs spec))%nat → value ∈ FactIndex.fieldValues spec f →
        ∃ m, FactIndex.Lookup ix (fFieldIDs spec !!! f) value = Ok (Some (Some m)) ∧
          length m = nwords (FactIndex.cRows c) ∧
          ∀ r, (r < 64 * nwords (FactIndex.cRows c))%nat →
            rowBit m r = bool_decide (Z.of_nat r < FactIndex.cRows c) && (FactIndex.columnAt spec c f r =? value)
  | Err e => (e = ErrInvalidFactIndex ∨ e = ErrIndexTooLarge) ∧ ¬ FactIndex.accepted spec c
  | Panic _ => False
  end.
Proof.
  intros Hs Hc Hz. pose proof (FactIndex.Build_spec valueRows spec c Hs Hc Hz) as HB.
  destruct (FactIndex.Build valueRows spec c) as [[vr ix]|e|]; [|done|done].
  destruct HB as (Hz' & Hix & _). split; [done|]. intros f value Hf Hv.
  pose proof (FactIndex.so_fields _ _ _ (FactIndex.io_shape _ _ _ Hix)) as Hinc.
  destruct (Lookup_rows spec c ix (fFieldIDs spec !!! f) f Hc Hix (BinarySearch_index _ f Hinc Hf) value) as (mask & HL & Hm).
  destruct (Hm Hv) as (m & -> & Hl & Hbits). by exists m.
Qed.
