(* ===== verification/Evidence.v ===== *)
(** * Evidence leaves: [internal/eval/evidence_eval.go]

    Evidence records are classified against one predicate: matching state and
    qualifiers support it, an ordinary other state opposes it, and the named
    defect states and wrong qualifiers only leave reasons.  A row's value is
    the join over its records of the requested kind. *)

From S2P Require Import Prelude Store Truth Schema Result Program Batch Predicate Simd.
From Stdlib Require Ascii String.
Import Reason.

(** Bytes of a name literal. *)
Definition bytes (s : string) : list Z := map (λ a, Z.of_N (Ascii.N_of_ascii a)) (String.list_ascii_of_string s).

Definition evidenceStateStale : list Z := bytes "stale".
Definition evidenceStateUnclear : list Z := bytes "unclear".
Definition evidenceStateUnverifiable : list Z := bytes "unverifiable".
Definition evidenceStateInvalid : list Z := bytes "invalid".
Definition evidenceStateConflict : list Z := bytes "conflict".
Definition evidenceStateConflicting : list Z := bytes "conflicting".

(** The evidence-state index: the address of the bound Program and one reason per state. *)
Record EvidenceStateIndex := { boundProgram : option Z; stateReasons : list Z }.

Record EvidencePredicate := { epKind : Z; epState : Z; epSubject : Z; epScope : Z; epTiming : Z }.

Record evidenceRecordClassification := { creasons : Z; cpositive : bool; cnegative : bool }.

(** [truth.ReasonMask] of a reason, indexed by reason ID. *)
Definition evidenceReasonMasks : list Z := 0 :: map (λ r, bit64 (Z.of_nat r)) (seq 0 9).

(** The reason a state name stands for; zero for an ordinary state. *)
Definition stateReason (name : list Z) : Z :=
  if bytes_eqb name evidenceStateStale then ReasonStale
  else if bytes_eqb name evidenceStateUnclear then ReasonUnclear
  else if bytes_eqb name evidenceStateUnverifiable then ReasonUnverifiable
  else if bytes_eqb name evidenceStateInvalid then ReasonInvalid
  else if bytes_eqb name evidenceStateConflict || bytes_eqb name evidenceStateConflicting then ReasonConflict
  else 0.

(** [Bind]; [addr] identifies the immutable Program [p]. *)
Definition Bind (i : EvidenceStateIndex) (addr : Z) (p : Program) : go EvidenceStateIndex :=
  if bool_decide (boundProgram i = Some addr) then Ok i else
  check (forallb (λ nameID, match Symbol p nameID with Some _ => true | None => false end) (EvidenceStateNames p))
    ErrInvalidEvidenceProgram ;;
  Ok {| boundProgram := Some addr;
        stateReasons := map (λ nameID, stateReason (default [] (Symbol p nameID))) (EvidenceStateNames p) |}.

Definition validEvidenceBatch (batch : Batch) (p : Program) : bool :=
  let e := Evidence batch in
  let rows := length (eIDs e) in
  (zlen (RequestIDs batch) =? Rows batch) &&
  (zlen (EvidenceOffsets batch) =? u64 (Rows batch + 1)) &&
  negb (bool_decide (length (EvidenceOffsets batch) = 0%nat)) &&
  (EvidenceOffsets batch !!! 0%nat =? 0) &&
  (EvidenceOffsets batch !!! (length (EvidenceOffsets batch) - 1)%nat =? zlen (EvidenceRefs batch)) &&
  bool_decide (length (eKinds e) = rows ∧ length (eStates e) = rows ∧ length (eSubjects e) = rows ∧
    length (eScopes e) = rows ∧ length (eReviewers e) = rows ∧ length (eTimings e) = rows ∧ length (eTimestamps e) = rows) &&
  forallb (λ i, let offset := EvidenceOffsets batch !!! S i in
    negb ((offset <? (if bool_decide (i = 0%nat) then 0 else EvidenceOffsets batch !!! i)) ||
          (zlen (EvidenceRefs batch) <? offset))) (seq 0 (length (EvidenceOffsets batch) - 1)) &&
  forallb (λ ref, negb (Z.of_nat rows <=? ref)) (EvidenceRefs batch) &&
  forallb (λ row,
    negb ((eIDs e !!! row =? 0) || (eKinds e !!! row =? 0) || (zlen (EvidenceKindNames p) <? eKinds e !!! row) ||
          (eStates e !!! row =? 0) || (zlen (EvidenceStateNames p) <? eStates e !!! row))) (seq 0 rows).

Definition requireEvidencePredicate (addr : Z) (p : Program) (states : EvidenceStateIndex) (predicate : EvidencePredicate) : go unit :=
  require (bool_decide (boundProgram states = Some addr) &&
           bool_decide (length (stateReasons states) = length (EvidenceStateNames p)) &&
           negb ((epKind predicate =? 0) || (zlen (EvidenceKindNames p) <? epKind predicate) ||
                 (epState predicate =? 0) || (zlen (EvidenceStateNames p) <? epState predicate)))
    "eval: invalid evidence predicate".

Definition classifyEvidenceRecord (state expectedState stateReason subject expectedSubject scope expectedScope
    timing expectedTiming : Z) : go evidenceRecordClassification :=
  let stateMatches := state =? expectedState in
  let stateReason := if stateMatches then 0 else stateReason in
  let q := 0 in
  let q := if negb (expectedSubject =? 0) && negb (subject =? expectedSubject) then Z.lor q (bit64 (ReasonWrongSubject - 1)) else q in
  let q := if negb (expectedScope =? 0) && negb (scope =? expectedScope) then Z.lor q (bit64 (ReasonWrongScope - 1)) else q in
  let q := if negb (expectedTiming =? 0) && negb (timing =? expectedTiming) then Z.lor q (bit64 (ReasonWrongTiming - 1)) else q in
  r ← at_ evidenceReasonMasks stateReason;
  Ok {| creasons := Z.lor r q;
        cpositive := (stateMatches && (q =? 0)) || (stateReason =? ReasonConflict);
        cnegative := negb stateMatches && ((stateReason =? 0) || (stateReason =? ReasonConflict)) |}.

(** The classification of record [evidenceRow] against [predicate]. *)
Definition classifyRow (e : EvidenceBatch) (reasons : list Z) (predicate : EvidencePredicate) (evidenceRow : Z)
    : go evidenceRecordClassification :=
  state ← at_ (eStates e) evidenceRow;
  stateReason ← at_ reasons (state - 1);
  subject ← at_ (eSubjects e) evidenceRow;
  scope ← at_ (eScopes e) evidenceRow;
  timing ← at_ (eTimings e) evidenceRow;
  classifyEvidenceRecord state (epState predicate) stateReason subject (epSubject predicate)
    scope (epScope predicate) timing (epTiming predicate).

(** The edge loop of one request row: [(foundKind, positive, negative, reasonMask)]. *)
Definition evidenceEdges (batch : Batch) (reasons : list Z) (predicate : EvidencePredicate) (start end_ : Z)
    : go (bool * bool * bool * Z) :=
  let e := Evidence batch in
  for_range (Z.to_nat (end_ - start)) (λ i st,
    evidenceRow ← at_ (EvidenceRefs batch) (start + Z.of_nat i);
    kind ← at_ (eKinds e) evidenceRow;
    if negb (kind =? epKind predicate) then Ok st else
    let '(_, positive, negative, mask) := st in
    c ← classifyRow e reasons predicate evidenceRow;
    Ok (true, positive || cpositive c, negative || cnegative c, Z.lor mask (creasons c))) (false, false, false, 0).

(** [reasons.plane(reason, words)[word] |= bit] for every reason in the mask. *)
Definition setReasons (mask : Z) (words row : nat) (reasonWords : list Z) : list Z :=
  foldl (λ l reason,
    if Has mask (Z.of_nat reason) then
      let k := ((reason - 1) * words + row `div` 64)%nat in
      <[k := Z.lor (l !!! k) (bit64 (Z.of_nat (row `mod` 64)))]> l
    else l) reasonWords (seq 1 9).

Definition evalEvidenceRow (batch : Batch) (reasons : list Z) (predicate : EvidencePredicate) (words : Z) (row : nat)
    (out : LeafOut) : go LeafOut :=
  start ← at_ (EvidenceOffsets batch) (Z.of_nat row);
  end_ ← at_ (EvidenceOffsets batch) (Z.of_nat row + 1);
  '(foundKind, positive, negative, mask) ← evidenceEdges batch reasons predicate start end_;
  let mask := if negb foundKind then With mask ReasonMissing else mask in
  let mask := if positive && negative then With mask ReasonConflict else mask in
  Ok {| lPositive := if (positive : bool) then setRow (lPositive out) row else lPositive out;
        lNegative := if (negative : bool) then setRow (lNegative out) row else lNegative out;
        lReasons := setReasons mask (Z.to_nat words) row (lReasons out) |}.

Definition evalEvidenceUnchecked (dst : Planes) (reasonPlanes : slice) (batch : Batch) (states : EvidenceStateIndex)
    (predicate : EvidencePredicate) : go LeafOut :=
  words ← resetLeafOutputs dst reasonPlanes (Rows batch);
  for_range (Z.to_nat (Rows batch)) (evalEvidenceRow batch (stateReasons states) predicate words)
    {| lPositive := make_ words; lNegative := make_ words; lReasons := make_ (ReasonCount * words) |}.

Definition evalEvidenceValidated (dst : Planes) (reasonPlanes : slice) (batch : Batch) (addr : Z) (p : Program)
    (states : EvidenceStateIndex) (predicate : EvidencePredicate) : go LeafOut :=
  requireEvidencePredicate addr p states predicate ;;
  evalEvidenceUnchecked dst reasonPlanes batch states predicate.

(** ** Row-wise reference *)

Definition zeroClass : evidenceRecordClassification := {| creasons := 0; cpositive := false; cnegative := false |}.
Definition recordClass (e : EvidenceBatch) (reasons : list Z) (predicate : EvidencePredicate) (ref : Z) : evidenceRecordClassification :=
  match classifyRow e reasons predicate ref with Ok c => c | _ => zeroClass end.

(** The records of the requested kind attached to row [r]. *)
Definition rowRecords (b : Batch) (predicate : EvidencePredicate) (r : nat) : list Z :=
  List.filter (λ ref, eKinds (Evidence b) !!! Z.to_nat ref =? epKind predicate)
    (csr (EvidenceRefs b) (EvidenceOffsets b !!! r) (EvidenceOffsets b !!! S r - EvidenceOffsets b !!! r)).

Definition evidenceRow (b : Batch) (reasons : list Z) (predicate : EvidencePredicate) (r : nat) : tv * Z :=
  let cs := map (recordClass (Evidence b) reasons predicate) (rowRecords b predicate r) in
  let positive := existsb cpositive cs in
  let negative := existsb cnegative cs in
  let mask := foldl (λ m c, Z.lor m (creasons c)) 0 cs in
  let mask := if bool_decide (cs = []) then With mask ReasonMissing else mask in
  ((positive, negative), if positive && negative then With mask ReasonConflict else mask).

(** ** Shape facts *)

(** A validated evidence batch over non-negative references and offsets. *)
Record evidence_ok (b : Batch) (p : Program) : Prop := {
  eo_offsets : zlen (EvidenceOffsets b) = Rows b + 1;
  eo_range r : (r < Z.to_nat (Rows b))%nat →
    0 ≤ EvidenceOffsets b !!! r ≤ EvidenceOffsets b !!! S r ∧ EvidenceOffsets b !!! S r ≤ zlen (EvidenceRefs b);
  eo_cols : length (eKinds (Evidence b)) = length (eIDs (Evidence b)) ∧
    length (eStates (Evidence b)) = length (eIDs (Evidence b)) ∧
    length (eSubjects (Evidence b)) = length (eIDs (Evidence b)) ∧
    length (eScopes (Evidence b)) = length (eIDs (Evidence b)) ∧
    length (eTimings (Evidence b)) = length (eIDs (Evidence b));
  eo_refs ref : ref ∈ EvidenceRefs b → 0 ≤ ref < zlen (eIDs (Evidence b));
  eo_states i : (i < length (eIDs (Evidence b)))%nat → 1 ≤ eStates (Evidence b) !!! i ≤ zlen (EvidenceStateNames p);
  eo_ids i : (i < length (eIDs (Evidence b)))%nat → eIDs (Evidence b) !!! i ≠ 0;
  eo_ends : EvidenceOffsets b !!! 0%nat = 0 ∧ EvidenceOffsets b !!! Z.to_nat (Rows b) = zlen (EvidenceRefs b)
}.

Record evidence_typed (b : Batch) : Prop := {
  et_rows : is_u32 (Rows b);
  et_refs : Forall is_u32 (EvidenceRefs b);
  et_states : Forall is_u32 (eStates (Evidence b))
}.

Lemma validEvidenceBatch_ok b p :
  evidence_typed b → validEvidenceBatch b p = true → evidence_ok b p.
Proof.
  intros [Hr Hrefs Hst]. unfold validEvidenceBatch.
  rewrite !andb_true_iff, !Z.eqb_eq, negb_true_iff, bool_decide_eq_false, bool_decide_eq_true, !forallb_forall.
  intros ((((((((Hreq & Hoff) & Hne) & H0) & Hlast) & Hcols) & Hmono) & Href) & Hrec).
  unfold is_u32 in Hr. rewrite u64_small in Hoff by (unfold is_u64; lia).
  assert (∀ i, (i < length (EvidenceOffsets b) - 1)%nat →
    (if bool_decide (i = 0%nat) then 0 else EvidenceOffsets b !!! i) ≤ EvidenceOffsets b !!! S i ≤ zlen (EvidenceRefs b)) as Hm.
  { intros i Hi. specialize (Hmono i). rewrite in_seq in Hmono. specialize (Hmono ltac:(lia)).
    rewrite negb_true_iff, orb_false_iff, !Z.ltb_ge in Hmono. done. }
  assert (∀ i, (i < length (EvidenceOffsets b) - 1)%nat → 0 ≤ EvidenceOffsets b !!! i ∧ EvidenceOffsets b !!! i ≤ EvidenceOffsets b !!! S i) as Hm'.
  { induction i as [|i IH]; intros Hi; pose proof (Hm _ Hi) as Hmi; simpl in Hmi; [lia|].
    pose proof (Hm i ltac:(lia)). destruct IH; [lia|]. lia. }
  split; try done.
  - intros r Hrr. destruct (Hm' r) as [? ?]; [lia|]. specialize (Hm r ltac:(lia)). lia.
  - tauto.
  - intros ref Hin. specialize (Href ref). rewrite <-list_elem_of_In in Href. specialize (Href Hin).
    rewrite Forall_forall in Hrefs. specialize (Hrefs ref Hin). unfold is_u32 in Hrefs. rewrite negb_true_iff in Href. lia.
  - intros i Hi. specialize (Hrec i). rewrite in_seq in Hrec. specialize (Hrec ltac:(lia)).
    rewrite negb_true_iff, !orb_false_iff, !Z.eqb_neq, !Z.ltb_ge in Hrec.
    assert (is_u32 (eStates (Evidence b) !!! i)) as Hu by (apply Forall_lookup_total_1; [done|lia]). unfold is_u32 in Hu. lia.
  - intros i Hi. specialize (Hrec i). rewrite in_seq in Hrec. specialize (Hrec ltac:(lia)).
    rewrite negb_true_iff, !orb_false_iff, !Z.eqb_neq in Hrec. tauto.
  - split; [done|]. rewrite <-Hlast. f_equal. lia.
Qed.

(** State reasons are reasons or zero, so every classification is defined. *)
Definition reasons_ok (p : Program) (reasons : list Z) : Prop :=
  length reasons = length (EvidenceStateNames p) ∧ Forall (λ r, 0 ≤ r ≤ 9) reasons.

Lemma stateReason_range name : 0 ≤ stateReason name ≤ 9.
Proof. unfold stateReason, ReasonStale, ReasonUnclear, ReasonUnverifiable, ReasonInvalid, ReasonConflict. repeat case_match; lia. Qed.

Lemma Bind_ok i addr p i' :
  (boundProgram i = Some addr → reasons_ok p (stateReasons i)) →
  Bind i addr p = Ok i' → boundProgram i' = Some addr ∧ reasons_ok p (stateReasons i').
Proof.
  intros Hi. unfold Bind. destruct (bool_decide_reflect (boundProgram i = Some addr)) as [E|E].
  - intros [= <-]. auto.
  - intros (? & _ & [= <-])%go_bind_inv. simpl. split; [done|]. split; [by rewrite length_map|].
    rewrite Forall_map. apply Forall_true. intros ?. apply stateReason_range.
Qed.

(** ** Classification of one record *)

Lemma evidenceReasonMasks_at sr m :
  0 ≤ sr ≤ 9 → at_ evidenceReasonMasks sr = Ok m → m = if sr =? 0 then 0 else ReasonBit sr.
Proof.
  intros Hsr Hm. apply at_Ok in Hm as [_ Hm].
  assert (sr ∈ [0;1;2;3;4;5;6;7;8;9]) as Hin by (set_unfold; lia). clear Hsr.
  set_unfold. destruct_or! Hin; subst; vm_compute in Hm; simplify_eq; done.
Qed.

(** A record that neither supports nor opposes the predicate leaves a reason. *)
Lemma classify_reason state es sr su esu sc esc ti eti c :
  0 ≤ sr ≤ 9 → classifyEvidenceRecord state es sr su esu sc esc ti eti = Ok c →
  cpositive c = false → cnegative c = false → creasons c ≠ 0.
Proof.
  intros Hsr. unfold classifyEvidenceRecord. cbv zeta.
  set (q := if negb (eti =? 0) && negb (ti =? eti) then _ else _).
  intros (m & Hm & [= <-])%go_bind_inv. simpl. rewrite Z.lor_eq_0_iff.
  apply evidenceReasonMasks_at in Hm; [|destruct (state =? es); lia].
  destruct (state =? es); simpl.
  - rewrite orb_false_iff, Z.eqb_neq. tauto.
  - rewrite orb_false_iff. intros _ [Hs0 Hs9] [Hm0 _]. rewrite Hs0 in Hm. rewrite Hm in Hm0.
    assert (Has (ReasonBit sr) sr = true) as Hh.
    { apply Z.eqb_neq in Hs0. rewrite Has_testbit, testbit_ReasonBit by (unfold validReason; lia). by apply bool_decide_eq_true_2. }
    unfold Has in Hh. by rewrite Hm0 in Hh.
Qed.

(** The reasons of a record are among the nine. *)
Lemma classify_valid state es sr su esu sc esc ti eti c :
  0 ≤ sr ≤ 9 → classifyEvidenceRecord state es sr su esu sc esc ti eti = Ok c → Valid (creasons c) = true.
Proof.
  intros Hsr. unfold classifyEvidenceRecord. intros (m & Hm & [= <-])%go_bind_inv. simpl.
  apply evidenceReasonMasks_at in Hm; [|destruct (state =? es); lia].
  assert (Valid m = true) as Hvm by (rewrite Hm; destruct (_ =? 0); [done|apply ReasonBit_valid_mask]).
  repeat (apply Valid_lor || case_match); try done.
Qed.

Section evidence_leaf.
Context (b : Batch) (p : Program) (reasons : list Z) (predicate : EvidencePredicate).
Context (Hok : evidence_ok b p) (Hre : reasons_ok p reasons).

Local Abbreviation e := (Evidence b).
Local Abbreviation classOf := (recordClass e reasons predicate).

Lemma classifyRow_ok ref : ref ∈ EvidenceRefs b → classifyRow e reasons predicate ref = Ok (classOf ref).
Proof.
  intros Hin. destruct (eo_refs _ _ Hok ref Hin) as [H0 H1]. destruct (eo_cols _ _ Hok) as (_ & Hs & Hsu & Hsc & Hti).
  destruct (eo_states _ _ Hok (Z.to_nat ref)) as [Hs1 Hs2]; [lia|]. destruct Hre as [Hlr Hall].
  assert (∃ c, classifyRow e reasons predicate ref = Ok c) as [c Hc].
  { unfold classifyRow. rewrite (at_total (eStates e)) by lia. simpl.
    rewrite !at_total by lia. simpl. unfold classifyEvidenceRecord.
    assert (0 ≤ reasons !!! Z.to_nat (eStates e !!! Z.to_nat ref - 1) ≤ 9) by (apply (Forall_lookup_total_1 (λ r, 0 ≤ r ≤ 9)); [done|lia]).
    assert (length evidenceReasonMasks = 10%nat) as Hl10 by done.
    rewrite at_total by (destruct (eStates e !!! Z.to_nat ref =? epState predicate); lia). simpl. eauto. }
  unfold recordClass. by rewrite Hc.
Qed.

(** The running state of the edge loop after a prefix of the references. *)
Definition edgeState (refs : list Z) : bool * bool * bool * Z :=
  let recs := List.filter (λ ref, eKinds e !!! Z.to_nat ref =? epKind predicate) refs in
  let cs := map classOf recs in
  (negb (bool_decide (recs = [])), existsb cpositive cs, existsb cnegative cs, foldl (λ m c, Z.lor m (creasons c)) 0 cs).

Lemma evidenceEdges_ok r :
  (r < Z.to_nat (Rows b))%nat →
  evidenceEdges b reasons predicate (EvidenceOffsets b !!! r) (EvidenceOffsets b !!! S r) =
    Ok (edgeState (csr (EvidenceRefs b) (EvidenceOffsets b !!! r) (EvidenceOffsets b !!! S r - EvidenceOffsets b !!! r))).
Proof.
  intros Hr. destruct (eo_range _ _ Hok r Hr) as [Ho1 Ho2].
  set (start := EvidenceOffsets b !!! r) in *. set (end_ := EvidenceOffsets b !!! S r) in *.
  set (refs := csr (EvidenceRefs b) start (end_ - start)).
  assert (length refs = Z.to_nat (end_ - start)) as Hl by (apply length_csr; lia).
  destruct (eo_cols _ _ Hok) as (Hk & _).
  unfold evidenceEdges. rewrite <-Hl.
  edestruct (for_range_total (λ i st, st = edgeState (take i refs)) (length refs)) as (st & Hst & Hfin).
  3: { rewrite Hst. rewrite Hfin, take_ge by lia. done. }
  - done.
  - intros i st Hi ->. assert (EvidenceRefs b !!! Z.to_nat (start + Z.of_nat i) = refs !!! i) as Eref.
    { unfold refs. rewrite csr_lookup_total by lia. f_equal. lia. }
    assert (refs !!! i ∈ EvidenceRefs b) as Hin.
    { rewrite <-Eref. apply list_elem_of_lookup_total_2. lia. }
    destruct (eo_refs _ _ Hok _ Hin). rewrite at_total by lia. simpl. rewrite Eref, at_total by lia. simpl.
    rewrite (take_S_r refs i (refs !!! i)) by (apply list_lookup_lookup_total_lt; lia).
    unfold edgeState. rewrite List.filter_app. simpl.
    destruct (eKinds e !!! Z.to_nat (refs !!! i) =? epKind predicate); simpl.
    + rewrite classifyRow_ok by done. simpl. eexists; split; [done|].
      rewrite bool_decide_eq_false_2 by (intros E; by apply app_eq_nil in E as [_ ?]).
      rewrite !map_app, !existsb_app, foldl_app. simpl. by rewrite !orb_false_r.
    + eexists; split; [done|]. by rewrite app_nil_r.
Qed.

Lemma length_setReasons mask words row l : length (setReasons mask words row l) = length l.
Proof.
  unfold setReasons. revert l. induction (seq 1 9) as [|k ks IH]; intros l; [done|]. simpl.
  destruct (Has mask _); rewrite IH; [apply length_insert|done].
Qed.

Lemma setReasons_bits mask (words row : nat) (l : list Z) reason r :
  (row < 64 * words)%nat → (r < 64 * words)%nat → (9 * words ≤ length l)%nat → (1 ≤ reason ≤ 9)%nat →
  rowBit (setReasons mask words row l) (64 * ((reason - 1) * words) + r) =
    rowBit l (64 * ((reason - 1) * words) + r) || (bool_decide (r = row) && Has mask (Z.of_nat reason)).
Proof.
  intros Hrow Hr Hl Hre9. unfold setReasons.
  assert (∀ ks (l : list Z), Forall (λ k, 1 ≤ k ≤ 9)%nat ks → (9 * words ≤ length l)%nat →
    rowBit (foldl (λ l reason, if Has mask (Z.of_nat reason) then
      let k := ((reason - 1) * words + row `div` 64)%nat in
      <[k := Z.lor (l !!! k) (bit64 (Z.of_nat (row `mod` 64)))]> l else l) l ks) (64 * ((reason - 1) * words) + r) =
    rowBit l (64 * ((reason - 1) * words) + r) ||
      (bool_decide (reason ∈ ks) && bool_decide (r = row) && Has mask (Z.of_nat reason))) as Hgen.
  { induction ks as [|k ks IH]; intros l0 Hks Hl0; simpl.
    { by rewrite orb_false_r. }
    apply Forall_cons in Hks as [Hk Hks]. pose proof (row_split row) as [Erow ?].
    assert ((k - 1) * words + row `div` 64 < length l0)%nat as Hkl by nia.
    destruct (Has mask (Z.of_nat k)) eqn:Hh; rewrite IH by (try done; rewrite ?length_insert; done).
    - rewrite rowBit_setPlane by done. rewrite <-orb_assoc. f_equal.
      destruct (decide (reason = k)) as [->|Hne].
      + rewrite (bool_decide_eq_true_2 (k - 1 = k - 1)%nat), (bool_decide_eq_true_2 (k ∈ k :: ks)), Hh by set_solver.
        simpl. rewrite !andb_true_r. by destruct (bool_decide (r = row)), (bool_decide (k ∈ ks)).
      + rewrite (bool_decide_eq_false_2 (reason - 1 = k - 1)%nat) by lia. simpl. do 2 f_equal.
        apply bool_decide_ext. set_solver.
    - f_equal. destruct (decide (reason = k)) as [->|Hne]; [by rewrite Hh, !andb_false_r|].
      do 2 f_equal. apply bool_decide_ext. set_solver. }
  rewrite Hgen by (try done; repeat constructor; lia). f_equal. rewrite bool_decide_eq_true_2; [done|].
  apply elem_of_seq. lia.
Qed.

Lemma evalEvidenceRow_ok (words : Z) r out :
  (r < Z.to_nat (Rows b))%nat →
  evalEvidenceRow b reasons predicate words r out =
    let '((positive, negative), mask) := evidenceRow b reasons predicate r in
    Ok {| lPositive := if positive then setRow (lPositive out) r else lPositive out;
          lNegative := if negative then setRow (lNegative out) r else lNegative out;
          lReasons := setReasons mask (Z.to_nat words) r (lReasons out) |}.
Proof.
  intros Hr. pose proof (eo_offsets _ _ Hok). unfold evalEvidenceRow. rewrite !at_total by lia.
  replace (Z.to_nat (Z.of_nat r + 1)) with (S r) by lia. rewrite Nat2Z.id. simpl.
  rewrite evidenceEdges_ok by done. simpl. unfold evidenceRow, rowRecords. fold (rowRecords b predicate r).
  rewrite negb_involutive. do 3 f_equal.
  replace (bool_decide (map classOf (rowRecords b predicate r) = [])) with (bool_decide (rowRecords b predicate r = [])); [done|].
  apply bool_decide_ext. destruct (rowRecords b predicate r); split; done.
Qed.

(** Reason planes of a leaf, read by row. *)
Lemma reasonPlane_row (l : list Z) words reason r :
  0 ≤ words → (r < 64 * Z.to_nat words)%nat → (1 ≤ reason)%nat →
  rowBit (reasonPlane l (Z.of_nat reason) words) r = rowBit l (64 * ((reason - 1) * Z.to_nat words) + r).
Proof.
  intros Hw Hr H1. unfold reasonPlane, rowBit. pose proof (row_split r).
  destruct (plane_index (Z.to_nat words) (reason - 1) r) as [-> ->]. rewrite csr_lookup_total by lia.
  replace (Z.to_nat ((Z.of_nat reason - 1) * words)) with ((reason - 1) * Z.to_nat words)%nat; [done|].
  rewrite Z2Nat.inj_mul by lia. f_equal. lia.
Qed.

Lemma evalEvidenceUnchecked_spec dst reasonPlanes states :
  is_u32 (Rows b) → leaf_shape dst reasonPlanes (Rows b) → stateReasons states = reasons →
  ∃ out, evalEvidenceUnchecked dst reasonPlanes b states predicate = Ok out ∧
    leaf_spec (Rows b) out (evidenceRow b reasons predicate).
Proof.
  intros Hr Hshape Hst. destruct (WordCount_bounds (Rows b) Hr) as (Hw & Hge & _).
  unfold evalEvidenceUnchecked. rewrite resetLeafOutputs_ok, Hst by done. simpl.
  set (g := evidenceRow b reasons predicate). set (n := nwords (Rows b)) in *.
  edestruct (for_range_total (λ i out,
      length (lPositive out) = n ∧ length (lNegative out) = n ∧ length (lReasons out) = (9 * n)%nat ∧
      ∀ r, (r < 64 * n)%nat →
        rowBit (lPositive out) r = bool_decide (r < i)%nat && (g r).1.1 ∧
        rowBit (lNegative out) r = bool_decide (r < i)%nat && (g r).1.2 ∧
        ∀ reason, (1 ≤ reason ≤ 9)%nat →
          rowBit (lReasons out) (64 * ((reason - 1) * n) + r) = bool_decide (r < i)%nat && Has (g r).2 (Z.of_nat reason))
    (Z.to_nat (Rows b))) as (out & Hout & Hl1 & Hl2 & Hl3 & Hbits).
  3: { exists out. split; [exact Hout|]. split; try done.
    - intros r Hrr. destruct (Hbits r Hrr) as (-> & -> & _). unfold tailKeep.
      replace (bool_decide (Z.of_nat r < Rows b)) with (bool_decide (r < Z.to_nat (Rows b))%nat) by (apply bool_decide_ext; lia).
      destruct (bool_decide _); simpl; [by destruct (g r) as [[] ?]|done].
    - intros r reason Hrr Hv. destruct (Hbits r Hrr) as (_ & _ & Hm). unfold validReason in Hv.
      replace reason with (Z.of_nat (Z.to_nat reason)) by lia. rewrite reasonPlane_row by lia.
      fold n. rewrite Hm by lia. f_equal. unfold tailKeep. apply bool_decide_ext. lia. }
  - simpl. unfold make_. rewrite !length_replicate. split; [done|]. split; [done|].
    split; [unfold ReasonCount; lia|]. intros r Hrr. rewrite !rowBit_replicate0 by lia. split; [done|]. split; [done|].
    intros reason Hre9. rewrite rowBit_replicate0; [done|]. unfold ReasonCount.
    replace (Z.to_nat (9 * WordCount (Rows b))) with (9 * n)%nat by lia. nia.
  - intros i t Hi (Ht1 & Ht2 & Ht3 & Ht). rewrite evalEvidenceRow_ok by done.
    destruct (evidenceRow b reasons predicate i) as [[pos neg] mask] eqn:Eg.
    eexists; split; [done|]. simpl. fold n.
    assert (i `div` 64 < n)%nat as Hid by (pose proof (row_split i); lia).
    split; [destruct pos; rewrite ?length_setRow; done|]. split; [destruct neg; rewrite ?length_setRow; done|].
    split; [by rewrite length_setReasons|]. intros r Hrr. destruct (Ht r Hrr) as (HtP & HtN & HtR).
    assert (∀ q (c : bool), c = q i → (bool_decide (r < i)%nat && q r) || (bool_decide (r = i) && c) = bool_decide (r < S i)%nat && q r) as Hstep.
    { intros q c ->. destruct (decide (r = i)) as [->|].
      - rewrite (bool_decide_eq_false_2 (i < i)%nat), !bool_decide_eq_true_2 by lia. done.
      - rewrite (bool_decide_eq_false_2 (r = i)), orb_false_r by done. f_equal. apply bool_decide_ext. lia. }
    split_and!.
    + etransitivity; [|apply (Hstep (λ r, (g r).1.1) pos); unfold g; by rewrite Eg].
      destruct pos; [rewrite rowBit_setRow by lia|]; rewrite HtP, ?andb_true_r, ?andb_false_r, ?orb_false_r; done.
    + etransitivity; [|apply (Hstep (λ r, (g r).1.2) neg); unfold g; by rewrite Eg].
      destruct neg; [rewrite rowBit_setRow by lia|]; rewrite HtN, ?andb_true_r, ?andb_false_r, ?orb_false_r; done.
    + intros reason Hre9. rewrite setReasons_bits, HtR by lia.
      apply (Hstep (λ r, Has (g r).2 (Z.of_nat reason)) (Has mask (Z.of_nat reason))). unfold g. by rewrite Eg.
Qed.

(** ** Unknown and conflicting rows carry a reason *)

Lemma With_nonzero mask reason : validReason reason → With mask reason ≠ 0.
Proof.
  intros Hv E. assert (Has (With mask reason) reason = false) as Hf by (rewrite E; unfold Has; by destruct (negb _)).
  rewrite Has_With, !bool_decide_eq_true_2, orb_true_r in Hf by done. done.
Qed.

Lemma class_of ref : ref ∈ EvidenceRefs b →
  ∃ state sr su sc ti, 0 ≤ sr ≤ 9 ∧
    classifyEvidenceRecord state (epState predicate) sr su (epSubject predicate) sc (epScope predicate) ti (epTiming predicate)
      = Ok (classOf ref).
Proof.
  intros Hin. pose proof (classifyRow_ok ref Hin) as Hc. unfold classifyRow in Hc.
  apply go_bind_inv in Hc as (state & _ & Hc). apply go_bind_inv in Hc as (sr & Hsr & Hc).
  apply go_bind_inv in Hc as (su & _ & Hc). apply go_bind_inv in Hc as (sc & _ & Hc). apply go_bind_inv in Hc as (ti & _ & Hc).
  apply at_Ok in Hsr as [_ Hsr]. destruct Hre as [_ Hall]. rewrite Forall_forall in Hall.
  exists state, sr, su, sc, ti. split; [|done]. apply Hall. by eapply list_elem_of_lookup_2.
Qed.
End evidence_leaf.

Section evidence_reasons.
Context (b : Batch) (p : Program) (reasons : list Z) (predicate : EvidencePredicate).
Context (Hok : evidence_ok b p) (Hre : reasons_ok p reasons).

Local Abbreviation classOf := (recordClass (Evidence b) reasons predicate).

Lemma rowRecords_in r ref : ref ∈ rowRecords b predicate r → ref ∈ EvidenceRefs b.
Proof.
  unfold rowRecords, csr. rewrite !list_elem_of_In, filter_In, <-list_elem_of_In. intros [Hin _].
  apply elem_of_take in Hin as (i & Hi & _). rewrite lookup_drop in Hi. rewrite <-list_elem_of_In.
  by eapply list_elem_of_lookup_2.
Qed.

Lemma fold_reasons (cs : list evidenceRecordClassification) m :
  foldl (λ m c, Z.lor m (creasons c)) m cs = 0 → m = 0 ∧ Forall (λ c, creasons c = 0) cs.
Proof.
  revert m. induction cs as [|c cs IH]; intros m; simpl; [done|].
  intros (Hm & Hcs)%IH. apply Z.lor_eq_0_iff in Hm as [-> Hc]. auto.
Qed.

Lemma fold_valid (cs : list evidenceRecordClassification) m :
  Valid m = true → Forall (λ c, Valid (creasons c) = true) cs → Valid (foldl (λ m c, Z.lor m (creasons c)) m cs) = true.
Proof.
  revert m. induction cs as [|c cs IH]; intros m Hm Hcs; simpl; [done|].
  apply Forall_cons in Hcs as [Hc Hcs]. apply IH; [by apply Valid_lor|done].
Qed.

Lemma Valid_With mask reason : Valid mask = true → Valid (With mask reason) = true.
Proof. intros. unfold With. apply Valid_lor; [done|apply ReasonBit_valid_mask]. Qed.

Lemma evidenceRow_valid r : Valid (evidenceRow b reasons predicate r).2 = true.
Proof.
  unfold evidenceRow. simpl.
  assert (Valid (foldl (λ m c, Z.lor m (creasons c)) 0 (map classOf (rowRecords b predicate r))) = true) as Hv.
  { apply fold_valid; [done|]. apply Forall_map, Forall_forall. intros ref Hin%rowRecords_in.
    destruct (class_of b p reasons predicate Hok Hre ref Hin) as (? & ? & ? & ? & ? & ? & Hc). by eapply classify_valid. }
  repeat case_match; auto using Valid_With.
Qed.

(** A row that is neither plainly true nor plainly false has a reason. *)
Lemma evidenceRow_reason r :
  let '((positive, negative), mask) := evidenceRow b reasons predicate r in
  positive = negative → mask ≠ 0.
Proof.
  unfold evidenceRow. set (cs := map classOf (rowRecords b predicate r)).
  destruct (existsb cpositive cs) eqn:Hp, (existsb cnegative cs) eqn:Hn; simpl; try done.
  { intros _. by apply With_nonzero. }
  intros _. destruct (bool_decide_reflect (cs = [])) as [|Hne]; [by apply With_nonzero|].
  intros (_ & Hz)%fold_reasons. destruct (rowRecords b predicate r) as [|ref refs] eqn:Er; [done|].
  unfold cs in *. simpl in *. rewrite orb_false_iff in Hp, Hn. apply Forall_cons in Hz as [Hz _].
  assert (ref ∈ EvidenceRefs b) as Hin by (eapply (rowRecords_in r); rewrite Er; set_solver).
  destruct (class_of b p reasons predicate Hok Hre ref Hin) as (? & ? & ? & ? & ? & ? & Hc).
  by eapply classify_reason; [|done|apply Hp|apply Hn|].
Qed.
End evidence_reasons.

(** ** Properties *)

(** C32: on an evidence batch that [validEvidenceBatch] accepts, with the state index
    bound to the program, the evidence leaf never panics and gives every row the
    reference value: support or opposition by some record of the requested kind,
    and the union of the records' reasons with absence and conflict added. *)
Theorem evidence_leaf_rows (i states : EvidenceStateIndex) (addr : Z) (p : Program) (b : Batch) (dst : Planes) (reasonPlanes : slice)
    (predicate : EvidencePredicate) :
  evidence_typed b → validEvidenceBatch b p = true → leaf_shape dst reasonPlanes (Rows b) →
  boundProgram i ≠ Some addr → Bind i addr p = Ok states →
  1 ≤ epKind predicate ≤ zlen (EvidenceKindNames p) → 1 ≤ epState predicate ≤ zlen (EvidenceStateNames p) →
  ∃ out, evalEvidenceValidated dst reasonPlanes b addr p states predicate = Ok out ∧
    leaf_spec (Rows b) out (evidenceRow b (stateReasons states) predicate).
Proof.
  intros Ht Hv Hshape Hne HB Hk Hst. pose proof (validEvidenceBatch_ok b p Ht Hv) as Hok.
  destruct (Bind_ok i addr p states ltac:(done) HB) as [Hb Hre].
  unfold evalEvidenceValidated, requireEvidencePredicate, require. destruct Hre as [Hl Hre].
  rewrite !bool_decide_eq_true_2, !(proj2 (Z.eqb_neq _ _)), !(proj2 (Z.ltb_ge _ _)) by (done || lia). simpl.
  apply (evalEvidenceUnchecked_spec b p (stateReasons states) predicate Hok (conj Hl Hre)); [apply Ht|done|done].
Qed.

(** An evidence row whose truth value is unknown or conflicting always carries
    at least one reason, all its reasons are valid, and a row without a record of the
    requested kind is unknown with absence as its only reason. *)
Theorem evidence_row_explained (p : Program) (b : Batch) (reasons : list Z) (predicate : EvidencePredicate) (r : nat) :
  evidence_ok b p → reasons_ok p reasons →
  let '((positive, negative), mask) := evidenceRow b reasons predicate r in
  (positive = negative → mask ≠ 0) ∧ Valid mask = true ∧
  (rowRecords b predicate r = [] → positive = false ∧ negative = false ∧ mask = ReasonBit ReasonMissing).
Proof.
  intros Hok Hre. pose proof (evidenceRow_reason b p reasons predicate Hok Hre r) as H1.
  pose proof (evidenceRow_valid b p reasons predicate Hok Hre r) as H2.
  assert (rowRecords b predicate r = [] → evidenceRow b reasons predicate r = ((false, false), ReasonBit ReasonMissing)) as H3.
  { intros E. unfold evidenceRow. by rewrite E. }
  destruct (evidenceRow b reasons predicate r) as [[positive negative] mask]. split; [done|]. split; [done|].
  intros E. specialize (H3 E). by injection H3 as -> -> ->.
Qed.
