(* ===== verification/Executor.v ===== *)
(** * The schedule executor: [internal/eval/executor.go], first half

    Instructions run in order; each writes one truth slot and one reason slot
    of two flat slabs, and slots are reused once their value is dead.  The
    file models the slot windows, every instruction handler with its three
    leaf back ends, and the schedule loop, and proves that the loop computes
    the row-wise denotation [denote] of the instruction DAG whenever no live
    slot is overwritten. *)

From S2P Require Import Prelude Store Truth Schema Result Program Batch Predicate Simd FactIndex Evidence.
Import Reason.

(** ** Scratch sizing *)

Definition executorScratchLen (a b c : Z) : option Z :=
  if negb (a =? 0) && (MaxUint64 / a <? b) then None else
  let n := u64 (a * b) in
  if negb (n =? 0) && (MaxUint64 / n <? c) then None else
  let n := u64 (n * c) in
  if MaxInt / 8 <? n then None else Some n.

Definition executorResultLen (rows perRow elementBytes : Z) : option Z :=
  if negb (rows =? 0) && (MaxUint64 / rows <? perRow) then None else
  let n := u64 (rows * perRow) in
  if (MaxUint32 <? n) || (MaxInt / elementBytes <? n) then None else Some n.

(** ** Schedule validation *)

Definition executorRootFlags : Z := Z.lor RootApplicability (Z.lor RootAssertion RootEvidence).

Definition optionalExecutionColumn (length_ rows : nat) : bool := bool_decide (length_ = 0%nat) || bool_decide (length_ = rows).

(** The operands of an instruction row. *)
Definition operandsOf (p : Program) (row : nat) : list Z := csr (Operands p) (OperandStarts p !!! row) (OperandCounts p !!! row).

(** One iteration of the row loop of [validExecutionSchedule]. *)
Definition validExecutionRow (p : Program) (row : nat) : bool :=
  let opcode := Opcodes p !!! row in
  let start := OperandStarts p !!! row in
  let count := OperandCounts p !!! row in
  negb (negb (OpcodeValid opcode) || negb (Z.ldiff (RootFlags p !!! row) executorRootFlags =? 0) ||
        (TruthSlots p !!! row =? 0) || (TruthSlotCount p <? TruthSlots p !!! row) ||
        (ReasonSlots p !!! row =? 0) || (ReasonSlotCount p <? ReasonSlots p !!! row) ||
        (InstructionNodes p !!! row =? 0) || (InstructionSourceEnds p !!! row <? InstructionSourceStarts p !!! row)) &&
  negb ((u64 (start + count) <? start) || (zlen (Operands p) <? u64 (start + count))) &&
  (if IsGroup opcode then 2 <=? count else if opcode =? OpcodeNot then count =? 1 else count =? 0) &&
  forallb (λ operand, negb ((operand =? 0) || (Z.of_nat row + 1 <=? operand))) (operandsOf p row).

Definition validExecutionSchedule (p : Program) : bool :=
  let n := length (Opcodes p) in
  negb (bool_decide (n = 0%nat)) && (zlen (Opcodes p) <=? MaxUint32) &&
  bool_decide (length (Fields p) = n ∧ length (Values p) = n ∧ length (ListStarts p) = n ∧ length (ListCounts p) = n ∧
    length (OperandStarts p) = n ∧ length (OperandCounts p) = n ∧ length (EvidenceKinds p) = n ∧ length (EvidenceStates p) = n) &&
  optionalExecutionColumn (length (EvidenceSubjects p)) n && optionalExecutionColumn (length (EvidenceScopes p)) n &&
  optionalExecutionColumn (length (EvidenceTimings p)) n &&
  bool_decide (length (RootFlags p) = n ∧ length (TruthSlots p) = n ∧ length (ReasonSlots p) = n ∧
    length (InstructionNodes p) = n ∧ length (InstructionSourceStarts p) = n ∧ length (InstructionSourceEnds p) = n) &&
  negb (TruthSlotCount p =? 0) && negb (ReasonSlotCount p =? 0) &&
  forallb (validExecutionRow p) (seq 0 n).

Definition evidenceQualifier (column : list Z) (row : Z) : go Z :=
  if bool_decide (length column = 0%nat) then Ok 0 else at_ column row.

(** ** Slot windows *)

Definition truthSlot (p : Program) (truthWords : store) (slot rows : Z) : go Planes :=
  let words := WordCount rows in
  require (negb ((slot =? 0) || (TruthSlotCount p <? slot))) "eval: invalid truth slot" ;;
  let start := u64 (u64 ((slot - 1) * 2) * words) in
  let middle := start + words in
  let end_ := middle + words in
  require (negb (zlen truthWords <? end_)) "eval: invalid truth scratch" ;;
  Ok {| Positive := Slice (Z.to_nat start) (Z.to_nat words); Negative := Slice (Z.to_nat middle) (Z.to_nat words) |}.

Definition reasonSlot (p : Program) (reasonWords : store) (slot rows : Z) : go slice :=
  let words := WordCount rows in
  require (negb ((slot =? 0) || (ReasonSlotCount p <? slot))) "eval: invalid reason slot" ;;
  let start := u64 (u64 ((slot - 1) * ReasonCount) * words) in
  let end_ := start + ReasonCount * words in
  require (negb (zlen reasonWords <? end_)) "eval: invalid reason scratch" ;;
  Ok (Slice (Z.to_nat start) (Z.to_nat (ReasonCount * words))).

(** ** Instruction handlers *)

(** The mutable part of the Executor during a schedule. *)
Record ExecState := { truthWords : store; reasonWords : store; compareMask : list bool }.

(** What stays fixed during a schedule: the bound state index and the fact index. *)
Record ExecEnv := { programAddr : Z; states : EvidenceStateIndex; factIndex : FactIndex.Index }.

(** A leaf's planes stored into its slot windows. *)
Definition storeLeaf (dstTruth : Planes) (dstReasons : slice) (out : LeafOut) (st : ExecState) (mask : list bool) : ExecState :=
  {| truthWords := blit (Negative dstTruth) (lNegative out) (blit (Positive dstTruth) (lPositive out) (truthWords st));
     reasonWords := blit dstReasons (lReasons out) (reasonWords st);
     compareMask := mask |}.

(** The first operand whose slot is the destination's: [driver]. *)
Fixpoint findDriver (slots operands : list Z) (dstSlot : Z) (i : nat) : go (option nat) :=
  match operands with
  | [] => Ok None
  | operand :: rest =>
    slot ← at_ slots (operand - 1);
    if slot =? dstSlot then Ok (Some i) else findDriver slots rest dstSlot (S i)
  end.

Section handlers.
Context {ops : SimdOps}.

Definition reduceTruthStep (p : Program) (dst : Planes) (opcode rows : Z) (mode : executionMode) (operand : Z) (m : store) : go store :=
  slot ← at_ (TruthSlots p) (operand - 1);
  src ← truthSlot p m slot rows;
  if opcode =? OpcodeAll then
    if useSIMDWords mode (Z.of_nat (len (Positive dst))) then simdTruthAnd dst dst src rows m else And dst dst src rows m
  else
    if useSIMDWords mode (Z.of_nat (len (Positive dst))) then simdTruthOr dst dst src rows m else Or dst dst src rows m.

Definition reduceTruthGroup (dst : Planes) (p : Program) (row opcode rows : Z) (mode : executionMode) (m : store) : go store :=
  start ← at_ (OperandStarts p) row;
  count ← at_ (OperandCounts p) row;
  operands ← slice_ (Operands p) start (start + count);
  dstSlot ← at_ (TruthSlots p) row;
  found ← findDriver (TruthSlots p) operands dstSlot 0;
  m ← match found with
      | Some _ => Ok m
      | None =>
        operand ← at_ operands 0;
        slot ← at_ (TruthSlots p) (operand - 1);
        src ← truthSlot p m slot rows;
        let m := blit (Positive dst) (view m (Positive src)) m in
        Ok (blit (Negative dst) (view m (Negative src)) m)
      end;
  let driver := default 0%nat found in
  for_range (length operands) (λ i m,
    if bool_decide (i = driver) then Ok m
    else reduceTruthStep p dst opcode rows mode (operands !!! i) m) m.

Definition reduceReasonStep (p : Program) (dst : slice) (rows : Z) (mode : executionMode) (operand : Z) (m : store) : go store :=
  slot ← at_ (ReasonSlots p) (operand - 1);
  src ← reasonSlot p m slot rows;
  if useSIMDWords mode (Z.of_nat (len dst)) then Ok (simdReasonOr dst dst src m)
  else pointwise dst (λ word m, d ← load m dst word; s ← load m src word; Ok (Z.lor d s)) (len dst) m.

Definition reduceReasonGroup (dst : slice) (p : Program) (row rows : Z) (mode : executionMode) (m : store) : go store :=
  start ← at_ (OperandStarts p) row;
  count ← at_ (OperandCounts p) row;
  operands ← slice_ (Operands p) start (start + count);
  dstSlot ← at_ (ReasonSlots p) row;
  found ← findDriver (ReasonSlots p) operands dstSlot 0;
  m ← match found with
      | Some _ => Ok m
      | None =>
        operand ← at_ operands 0;
        slot ← at_ (ReasonSlots p) (operand - 1);
        src ← reasonSlot p m slot rows;
        Ok (blit dst (view m src) m)
      end;
  let driver := default 0%nat found in
  for_range (length operands) (λ i m,
    if bool_decide (i = driver) then Ok m
    else reduceReasonStep p dst rows mode (operands !!! i) m) m.

(** The evidence query of an instruction row. *)
Definition instructionPredicate (p : Program) (row : Z) : go EvidencePredicate :=
  kind ← at_ (EvidenceKinds p) row;
  state ← at_ (EvidenceStates p) row;
  subject ← evidenceQualifier (EvidenceSubjects p) row;
  scope ← evidenceQualifier (EvidenceScopes p) row;
  timing ← evidenceQualifier (EvidenceTimings p) row;
  Ok {| epKind := kind; epState := state; epSubject := subject; epScope := scope; epTiming := timing |}.

(** The indexed leaf, else the SIMD leaf, else the scalar leaf. *)
Definition evalPredicateMode (env : ExecEnv) (dstTruth : Planes) (dstReasons : slice) (batch : Batch) (p : Program)
    (instruction : Z) (mode : executionMode) (mask : list bool) : go (LeafOut * list bool) :=
  r ← evalPredicateIndex (factIndex env) dstTruth dstReasons batch p instruction mode;
  match r with
  | Some out => Ok (out, mask)
  | None =>
    '(r, mask) ← evalPredicateSIMD mask dstTruth dstReasons batch p instruction mode;
    match r with
    | Some out => Ok (out, mask)
    | None => out ← evalPredicate dstTruth dstReasons batch p instruction; Ok (out, mask)
    end
  end.

Definition executeInstructionMode (env : ExecEnv) (p : Program) (batch : Batch) (mode : executionMode) (row : nat)
    (st : ExecState) : go ExecState :=
  let zrow := Z.of_nat row in
  opcode ← at_ (Opcodes p) zrow;
  let instruction := zrow + 1 in
  tslot ← at_ (TruthSlots p) zrow;
  dstTruth ← truthSlot p (truthWords st) tslot (Rows batch);
  rslot ← at_ (ReasonSlots p) zrow;
  dstReasons ← reasonSlot p (reasonWords st) rslot (Rows batch);
  if opcode =? OpcodeBoolean then
    vid ← at_ (Values p) zrow;
    value ← programPredicateValue p vid ValueKindBoolean;
    tw ← Set_ dstTruth (boolean value) (Rows batch) (truthWords st);
    Ok {| truthWords := tw; reasonWords := blit dstReasons (make_ (Z.of_nat (len dstReasons))) (reasonWords st);
          compareMask := compareMask st |}
  else if opcode =? OpcodeDefined then
    out ← evalPredicate dstTruth dstReasons batch p instruction;
    Ok (storeLeaf dstTruth dstReasons out st (compareMask st))
  else if (OpcodeEqual <=? opcode) && (opcode <=? OpcodeGreaterEqual) then
    '(out, mask) ← evalPredicateMode env dstTruth dstReasons batch p instruction mode (compareMask st);
    Ok (storeLeaf dstTruth dstReasons out st mask)
  else if opcode =? OpcodeEvidence then
    predicate ← instructionPredicate p zrow;
    out ← evalEvidenceValidated dstTruth dstReasons batch (programAddr env) p (states env) predicate;
    Ok (storeLeaf dstTruth dstReasons out st (compareMask st))
  else if IsGroup opcode then
    tw ← reduceTruthGroup dstTruth p zrow opcode (Rows batch) mode (truthWords st);
    rw ← reduceReasonGroup dstReasons p zrow (Rows batch) mode (reasonWords st);
    Ok {| truthWords := tw; reasonWords := rw; compareMask := compareMask st |}
  else if opcode =? OpcodeNot then
    start ← at_ (OperandStarts p) zrow;
    operand ← at_ (Operands p) start;
    oslot ← at_ (TruthSlots p) (operand - 1);
    src ← truthSlot p (truthWords st) oslot (Rows batch);
    tw ← Not dstTruth src (Rows batch) (truthWords st);
    orslot ← at_ (ReasonSlots p) (operand - 1);
    srcReasons ← reasonSlot p (reasonWords st) orslot (Rows batch);
    let rw := if negb (rslot =? orslot) then blit dstReasons (view (reasonWords st) srcReasons) (reasonWords st)
              else reasonWords st in
    Ok {| truthWords := tw; reasonWords := rw; compareMask := compareMask st |}
  else Panic "eval: invalid execution opcode".

Definition executeScheduleMode (env : ExecEnv) (p : Program) (batch : Batch) (mode : executionMode) (st : ExecState) : go ExecState :=
  for_range (length (Opcodes p)) (executeInstructionMode env p batch mode) st.
End handlers.

(** ** Row-wise denotation of the instruction DAG *)

Definition predicateAt (p : Program) (row : nat) : EvidencePredicate :=
  match instructionPredicate p (Z.of_nat row) with
  | Ok q => q
  | _ => {| epKind := 0; epState := 0; epSubject := 0; epScope := 0; epTiming := 0 |}
  end.

Definition tv_true : tv := (true, false).
Definition tv_false : tv := (false, true).

(** Truth value and reasons of instruction [row] at request row [r], from the
    values [vs] of the instructions before it. *)
Definition instrValue (p : Program) (b : Batch) (reasons : list Z) (vs : list (tv * Z)) (row r : nat) : tv * Z :=
  let opcode := Opcodes p !!! row in
  let args := map (λ o, vs !!! Z.to_nat (o - 1)) (operandsOf p row) in
  if opcode =? OpcodeBoolean then
    let v := boolean (valueOf p (Values p !!! row) ValueKindBoolean) in ((v, negb v), 0)
  else if opcode =? OpcodeEvidence then evidenceRow b reasons (predicateAt p row) r
  else if opcode =? OpcodeAll then (foldr tv_and tv_true (map fst args), foldr Z.lor 0 (map snd args))
  else if opcode =? OpcodeAny then (foldr tv_or tv_false (map fst args), foldr Z.lor 0 (map snd args))
  else if opcode =? OpcodeNot then (tv_not (args !!! 0%nat).1, (args !!! 0%nat).2)
  else predicateRow p b row r.

Fixpoint denoteAll (p : Program) (b : Batch) (reasons : list Z) (n r : nat) : list (tv * Z) :=
  match n with
  | O => []
  | S n => let vs := denoteAll p b reasons n r in vs ++ [instrValue p b reasons vs n r]
  end.

Definition denote (p : Program) (b : Batch) (reasons : list Z) (i r : nat) : tv * Z :=
  instrValue p b reasons (denoteAll p b reasons i r) i r.

Lemma length_denoteAll p b reasons n r : length (denoteAll p b reasons n r) = n.
Proof. induction n as [|n IH]; [done|]. simpl. rewrite length_app, IH. simpl. lia. Qed.

Lemma denoteAll_lookup p b reasons n r i :
  (i < n)%nat → denoteAll p b reasons n r !!! i = denote p b reasons i r.
Proof.
  induction n as [|n IH]; [lia|]. intros Hi. simpl. pose proof (length_denoteAll p b reasons n r) as Hl.
  destruct (decide (i = n)) as [->|].
  - rewrite list_lookup_total_alt, lookup_app_r, Hl, Nat.sub_diag by lia. done.
  - rewrite list_lookup_total_alt, lookup_app_l, <-list_lookup_total_alt by lia. apply IH. lia.
Qed.

(** ** Group reductions

    A group folds its operands' slots into the destination slot.  The loop is
    verified once for any semilattice of slot contents; truth planes and
    reason planes are its two instances. *)

Section semilattice.
Context {V : Type} (op : V → V → V) (e : V).
Context (op_assoc : ∀ a b c, op a (op b c) = op (op a b) c) (op_comm : ∀ a b, op a b = op b a).
Context (op_idemp : ∀ a, op a a = a) (op_unit : ∀ a, op a e = a).

Lemma fold_snoc l y : foldr op e (l ++ [y]) = op (foldr op e l) y.
Proof.
  induction l as [|x l IH]; simpl; [by rewrite op_unit, op_comm, op_unit|]. by rewrite IH, op_assoc.
Qed.

Lemma fold_absorb l y : y ∈ l → op (foldr op e l) y = foldr op e l.
Proof.
  induction l as [|x l IH]; [by intros ?%not_elem_of_nil|]. intros [->|Hin]%elem_of_cons; simpl.
  - by rewrite (op_comm x), <-op_assoc, op_idemp.
  - by rewrite <-op_assoc, IH.
Qed.

Lemma fold_cons_in l y : y ∈ l → foldr op e (y :: l) = foldr op e l.
Proof. intros Hin. simpl. by rewrite op_comm, fold_absorb. Qed.

Context {I : Type} (ok : I → Prop).
Context (read : store → Z → I → V) (good : store → Prop) (inRange : Z → Prop).
Context (slotOf : Z → Z) (dst : Z) (operands : list Z).
Context (step : Z → store → go store).
Context (Hslots : ∀ o, o ∈ operands → inRange (slotOf o)).
Context (Hstep : ∀ o m, o ∈ operands → good m → ∃ m', step o m = Ok m' ∧ good m' ∧
  (∀ i, ok i → read m' dst i = op (read m dst i) (read m (slotOf o) i)) ∧
  (∀ s i, s ≠ dst → inRange s → ok i → read m' s i = read m s i)).

(** [m1] is [m0] with the driver operand in the destination slot. *)
Lemma group_loop m0 m1 driver :
  good m1 → (driver < length operands)%nat →
  (∀ i, ok i → read m1 dst i = read m0 (slotOf (operands !!! driver)) i) →
  (∀ s i, s ≠ dst → inRange s → ok i → read m1 s i = read m0 s i) →
  (slotOf (operands !!! driver) = dst ∨ ∀ o, o ∈ operands → slotOf o ≠ dst) →
  ∃ m', for_range (length operands) (λ i m, if bool_decide (i = driver) then Ok m else step (operands !!! i) m) m1 = Ok m' ∧
    good m' ∧
    (∀ i, ok i → read m' dst i = foldr op e (map (λ o, read m0 (slotOf o) i) operands)) ∧
    (∀ s i, s ≠ dst → inRange s → ok i → read m' s i = read m0 s i).
Proof.
  intros Hg Hd Hdst Hother Hdrv. set (x := λ i, read m0 (slotOf (operands !!! driver)) i).
  destruct (for_range_total (λ k m, good m ∧
    (∀ i, ok i → read m dst i = foldr op e (x i :: map (λ o, read m0 (slotOf o) i) (take k operands))) ∧
    (∀ s i, s ≠ dst → inRange s → ok i → read m s i = read m0 s i))
    (length operands) (λ i m, if bool_decide (i = driver) then Ok m else step (operands !!! i) m) m1) as (m' & Hm' & Hg' & Hr & Ho).
  - split; [done|]. split; [|done]. intros i Hi. simpl. rewrite op_unit. by apply Hdst.
  - intros k m Hk (Hgm & Hrm & Hom).
    assert (operands !!! k ∈ operands) as Hin by (by apply list_elem_of_lookup_total_2).
    rewrite (take_S_r operands k (operands !!! k)) by (apply list_lookup_lookup_total_lt; lia).
    assert (∀ i, foldr op e (x i :: map (λ o, read m0 (slotOf o) i) (take k operands ++ [operands !!! k])) =
      op (foldr op e (x i :: map (λ o, read m0 (slotOf o) i) (take k operands))) (read m0 (slotOf (operands !!! k)) i)) as Hsn.
    { intros i. rewrite map_app. apply (fold_snoc (x i :: _)). }
    destruct (bool_decide_reflect (k = driver)) as [->|Hne].
    + exists m. split; [done|]. split; [done|]. split; [|done]. intros i Hi. rewrite Hsn, Hrm by done.
      symmetry. apply fold_absorb. left.
    + destruct (Hstep (operands !!! k) m Hin Hgm) as (m' & -> & Hg' & Hr' & Ho'). exists m'. split; [done|]. split; [done|].
      split; [|intros s i Hs Hrg Hi; rewrite Ho' by done; by apply Hom].
      intros i Hi. rewrite Hsn, Hr' by done. destruct (decide (slotOf (operands !!! k) = dst)) as [E|E].
      * destruct Hdrv as [Hdrv|Hno]; [|by destruct (Hno _ Hin)].
        rewrite E, op_idemp, Hrm by done. symmetry. replace (read m0 dst i) with (x i) by (unfold x; by rewrite Hdrv). apply fold_absorb. left.
      * rewrite (Hom _ i E) by auto. by rewrite Hrm.
  - exists m'. split; [exact Hm'|]. split; [done|]. split; [|done].
    intros i Hi. rewrite Hr, take_ge by (done || lia). apply fold_cons_in.
    unfold x. apply list_elem_of_In, in_map_iff. exists (operands !!! driver). split; [done|].
    by apply list_elem_of_In, list_elem_of_lookup_total_2.
Qed.
End semilattice.

Lemma findDriver_ok slots operands dst k :
  (∀ o, o ∈ operands → 1 ≤ o ≤ zlen slots) →
  (∃ i, findDriver slots operands dst k = Ok (Some (k + i)%nat) ∧ (i < length operands)%nat ∧
     slots !!! Z.to_nat (operands !!! i - 1) = dst) ∨
  (findDriver slots operands dst k = Ok None ∧ ∀ o, o ∈ operands → slots !!! Z.to_nat (o - 1) ≠ dst).
Proof.
  revert k. induction operands as [|o operands IH]; intros k Hr; simpl.
  - right. split; [done|]. by intros o ?%not_elem_of_nil.
  - rewrite at_total by (specialize (Hr o); set_unfold; lia). simpl.
    destruct (Z.eqb_spec (slots !!! Z.to_nat (o - 1)) dst) as [E|E].
    + left. exists 0%nat. rewrite Nat.add_0_r. split; [done|]. simpl. split; [lia|done].
    + destruct (IH (S k)) as [(i & -> & Hi & Ei)|[-> Hno]]; [set_solver| |].
      * left. exists (S i). rewrite Nat.add_succ_comm. split; [done|]. simpl. split; [lia|done].
      * right. split; [done|]. intros o' [->|Hin]%elem_of_cons; auto.
Qed.

(** ** Slot windows are disjoint *)

Definition tplanes (w slot : Z) : Planes :=
  {| Positive := Slice (Z.to_nat ((slot - 1) * 2 * w)) (Z.to_nat w);
     Negative := Slice (Z.to_nat ((slot - 1) * 2 * w + w)) (Z.to_nat w) |}.

Definition rslice (w slot : Z) : slice := Slice (Z.to_nat ((slot - 1) * 9 * w)) (Z.to_nat (9 * w)).

(** Bit of one reason plane of a reason slot. *)
Definition reasonAt (m : store) (s : slice) (w : nat) (reason : Z) (r : nat) : bool :=
  Z.testbit (m !!! (off s + Z.to_nat (reason - 1) * w + r `div` 64)%nat) (Z.of_nat (r `mod` 64)).

Section windows.
Context (p : Program) (rows : Z).
Context (Hrows : is_u32 rows).
Context (Hcounts : is_u32 (TruthSlotCount p) ∧ is_u32 (ReasonSlotCount p)).

Local Abbreviation w := (WordCount rows).

Definition truthRange (slot : Z) : Prop := 1 ≤ slot ≤ TruthSlotCount p.
Definition reasonRange (slot : Z) : Prop := 1 ≤ slot ≤ ReasonSlotCount p.
Definition truthGood (m : store) : Prop := zlen m = TruthSlotCount p * 2 * w ∧ zlen m ≤ MaxInt.
Definition reasonGood (m : store) : Prop := zlen m = ReasonSlotCount p * 9 * w ∧ zlen m ≤ MaxInt.

Lemma window_bounds c k slot : 0 ≤ k → 1 ≤ slot ≤ c →
  0 ≤ (slot - 1) * k * w ∧ (slot - 1) * k * w + k * w ≤ c * k * w.
Proof.
  intros Hk Hs. destruct (WordCount_bounds rows Hrows) as (Hw & _).
  split; [apply Z.mul_nonneg_nonneg; [apply Z.mul_nonneg_nonneg; lia|done]|].
  replace ((slot - 1) * k * w + k * w) with (slot * (k * w)) by ring. rewrite <-Z.mul_assoc.
  apply Z.mul_le_mono_nonneg_r; [apply Z.mul_nonneg_nonneg; lia|lia].
Qed.

Lemma truthSlot_ok m slot :
  truthGood m → truthRange slot → truthSlot p m slot rows = Ok (tplanes w slot) ∧ planes_wf m (tplanes w slot) rows.
Proof.
  intros [Hm Hmax] Hs. destruct (WordCount_bounds rows Hrows) as (Hw & _).
  destruct (window_bounds (TruthSlotCount p) 2 slot) as [Hb0 Hb1]; [lia|done|]. unfold truthRange in Hs.
  unfold MaxInt in *. split.
  - unfold truthSlot. rewrite (proj2 (Z.eqb_neq slot 0)), (proj2 (Z.ltb_ge (TruthSlotCount p) slot)) by lia. simpl.
    unfold is_u32 in Hcounts. rewrite (u64_small ((slot - 1) * 2)) by (unfold is_u64; lia).
    rewrite u64_small by (unfold is_u64; lia). rewrite (proj2 (Z.ltb_ge _ _)) by lia. done.
  - unfold planes_wf, in_bounds, disjoint_slices, tplanes. simpl. lia.
Qed.

Lemma reasonSlot_ok m slot :
  reasonGood m → reasonRange slot →
  reasonSlot p m slot rows = Ok (rslice w slot) ∧ in_bounds m (rslice w slot) ∧ len (rslice w slot) = (9 * nwords rows)%nat.
Proof.
  intros [Hm Hmax] Hs. destruct (WordCount_bounds rows Hrows) as (Hw & _).
  destruct (window_bounds (ReasonSlotCount p) 9 slot) as [Hb0 Hb1]; [lia|done|]. unfold reasonRange in Hs.
  unfold MaxInt in *. split.
  - unfold reasonSlot, ReasonCount. rewrite (proj2 (Z.eqb_neq slot 0)), (proj2 (Z.ltb_ge (ReasonSlotCount p) slot)) by lia. simpl.
    unfold is_u32 in Hcounts. rewrite (u64_small ((slot - 1) * 9)) by (unfold is_u64; lia).
    rewrite u64_small by (unfold is_u64; lia). rewrite (proj2 (Z.ltb_ge _ _)) by lia. done.
  - unfold in_bounds, rslice. simpl. lia.
Qed.

Lemma slot_gap k s t : 0 ≤ k → 1 ≤ s → s < t → (s - 1) * k * w + k * w ≤ (t - 1) * k * w ∧ 0 ≤ (s - 1) * k * w.
Proof.
  intros Hk Hs Hst. destruct (window_bounds (t - 1) k s) as [? ?]; [done|lia|]. lia.
Qed.

Lemma tplanes_disjoint s t : truthRange s → truthRange t → s ≠ t → disjoint_planes (tplanes w s) (tplanes w t).
Proof.
  unfold truthRange. intros Hs Ht Hne. destruct (WordCount_bounds rows Hrows) as (Hw & _).
  unfold disjoint_planes, disjoint_slices, tplanes. simpl.
  destruct (decide (s < t)); [destruct (slot_gap 2 s t)|destruct (slot_gap 2 t s)]; lia.
Qed.

Lemma tplanes_alias s t : truthRange s → truthRange t → alias_ok (tplanes w s) (tplanes w t).
Proof.
  intros Hs Ht. destruct (decide (s = t)) as [->|]; [by left|right]. by apply tplanes_disjoint.
Qed.

Lemma rslice_disjoint s t : reasonRange s → reasonRange t → s ≠ t → disjoint_slices (rslice w s) (rslice w t).
Proof.
  unfold reasonRange. intros Hs Ht Hne. destruct (WordCount_bounds rows Hrows) as (Hw & _).
  unfold disjoint_slices, rslice. simpl.
  destruct (decide (s < t)); [destruct (slot_gap 9 s t)|destruct (slot_gap 9 t s)]; lia.
Qed.

(** Reading a slot: truth rows and reason rows. *)
Definition readTruth (m : store) (slot : Z) (r : nat) : tv := planesRow m (tplanes w slot) r.
Definition readReason (m : store) (slot : Z) (i : Z * nat) : bool := reasonAt m (rslice w slot) (nwords rows) i.1 i.2.
Definition rowOk (r : nat) : Prop := Z.of_nat r < rows.
Definition bitOk (i : Z * nat) : Prop := validReason i.1 ∧ Z.of_nat i.2 < rows.

Lemma rowOk_words r : rowOk r → (r < 64 * nwords rows)%nat.
Proof. unfold rowOk. destruct (WordCount_bounds rows Hrows) as (? & ? & _). lia. Qed.

(** Writing the rows of one truth slot leaves the others alone. *)
Lemma planes_rows_slot m m' s g :
  truthGood m → truthRange s → planes_rows m m' (tplanes w s) rows g →
  truthGood m' ∧ (∀ r, rowOk r → readTruth m' s r = g r) ∧
  (∀ t r, t ≠ s → truthRange t → rowOk r → readTruth m' t r = readTruth m t r).
Proof.
  intros Hg Hs (Hl & Hout & Hin). split; [unfold truthGood in *; by rewrite Hl|]. split.
  - intros r Hr. unfold readTruth. rewrite Hin by (by apply rowOk_words). by rewrite bool_decide_eq_true_2.
  - intros t r Hne Ht Hr. unfold readTruth, planesRow, planeRow. pose proof (row_split r). apply rowOk_words in Hr.
    destruct (tplanes_disjoint s t Hs Ht) as (H1 & H2 & H3 & H4); [done|].
    unfold disjoint_slices in *. simpl in H1, H2, H3, H4.
    rewrite !Hout; [done|unfold inside; simpl; lia..].
Qed.

(** Position of a reason bit inside its slot. *)
Lemma reason_pos i : bitOk i → (Z.to_nat (i.1 - 1) * nwords rows + i.2 `div` 64 < 9 * nwords rows)%nat.
Proof.
  intros [Hv Hr]. unfold validReason in Hv. pose proof (row_split i.2). apply rowOk_words in Hr.
  assert (S (Z.to_nat (i.1 - 1)) * nwords rows ≤ 9 * nwords rows)%nat by (apply Nat.mul_le_mono_r; lia). lia.
Qed.

(** Writing words of one reason slot. *)
Lemma reason_write m m' s (g : Z * nat → bool) :
  reasonGood m → reasonRange s → length m' = length m →
  (∀ k, ¬ inside (rslice w s) k → m' !!! k = m !!! k) → (∀ i, bitOk i → readReason m' s i = g i) →
  reasonGood m' ∧ (∀ i, bitOk i → readReason m' s i = g i) ∧
  (∀ t i, t ≠ s → reasonRange t → bitOk i → readReason m' t i = readReason m t i).
Proof.
  intros Hg Hs Hl Hout Hin. split; [unfold reasonGood in *; by rewrite Hl|]. split; [done|].
  intros t i Hne Ht Hi. pose proof (reason_pos i Hi) as Hpos. unfold readReason, reasonAt.
  rewrite <-!Nat.add_assoc. revert Hpos. generalize (Z.to_nat (i.1 - 1) * nwords rows + i.2 `div` 64)%nat as k. intros k Hpos.
  pose proof (rslice_disjoint s t Hs Ht ltac:(done)) as Hd. unfold disjoint_slices in Hd. simpl in Hd.
  rewrite Hout; [done|]. unfold inside. simpl. lia.
Qed.

Lemma readReason_blit m s src i :
  reasonGood m → reasonRange s → length src = (9 * nwords rows)%nat → bitOk i →
  readReason (blit (rslice w s) src m) s i = rowBit src (64 * (Z.to_nat (i.1 - 1) * nwords rows) + i.2).
Proof.
  intros Hg Hs Hl Hi. destruct (reasonSlot_ok m s Hg Hs) as (_ & Hb & Hlen). pose proof (reason_pos i Hi).
  unfold readReason, reasonAt, rowBit. destruct (plane_index (nwords rows) (Z.to_nat (i.1 - 1)) i.2) as [-> ->].
  rewrite <-Nat.add_assoc, blit_inside by (done || lia). done.
Qed.

(** [copy] of one slot's planes into another's. *)
Lemma copyTruth_ok m d s :
  truthGood m → truthRange d → truthRange s → d ≠ s →
  let dst := tplanes w d in let src := tplanes w s in
  let m1 := blit (Positive dst) (view m (Positive src)) m in
  let m2 := blit (Negative dst) (view m1 (Negative src)) m1 in
  truthGood m2 ∧ (∀ r, rowOk r → readTruth m2 d r = readTruth m s r) ∧
  (∀ t r, t ≠ d → truthRange t → rowOk r → readTruth m2 t r = readTruth m t r).
Proof.
  intros Hg Hd Hs Hne dst src m1 m2.
  destruct (truthSlot_ok m s Hg Hs) as [_ (HsP & HsN & HbP & HbN & _)], (truthSlot_ok m d Hg Hd) as [_ (HdP & HdN & HcP & HcN & Hdd)].
  fold dst in HdP, HdN, HcP, HcN, Hdd. fold src in HsP, HsN, HbP, HbN.
  assert (disjoint_planes dst src) as (D1 & D2 & D3 & D4) by (by apply tplanes_disjoint).
  assert (m2 = blit (Negative dst) (view m (Negative src)) (blit (Positive dst) (view m (Positive src)) m)) as ->.
  { unfold m2, m1. by rewrite view_blit_other. }
  split_and!.
  - unfold truthGood in *. rewrite !length_blit by slab. done.
  - intros r Hr%rowOk_words. unfold readTruth, planesRow. fold dst src.
    assert (disjoint_slices (Negative dst) (Positive dst)) by (unfold disjoint_slices in *; lia).
    rewrite planeRow_blit_other, !planeRow_blit by (first [done | lia | apply in_bounds_blit; done | rewrite length_view by done; lia]).
    by rewrite <-!planeRow_view by lia.
  - intros t r Hnt Ht Hr%rowOk_words. unfold readTruth, planesRow.
    destruct (tplanes_disjoint d t Hd Ht) as (E1 & E2 & E3 & E4); [done|]. fold dst in E1, E2, E3, E4.
    assert (len (Positive (tplanes w t)) = nwords rows ∧ len (Negative (tplanes w t)) = nwords rows) as [? ?] by done.
    by rewrite !planeRow_blit_other by (first [done | lia | apply in_bounds_blit; done]).
Qed.

Lemma copyReason_ok m d s :
  reasonGood m → reasonRange d → reasonRange s →
  let m' := blit (rslice w d) (view m (rslice w s)) m in
  reasonGood m' ∧ (∀ i, bitOk i → readReason m' d i = readReason m s i) ∧
  (∀ t i, t ≠ d → reasonRange t → bitOk i → readReason m' t i = readReason m t i).
Proof.
  intros Hg Hd Hs m'. destruct (reasonSlot_ok m s Hg Hs) as (_ & Hbs & Hls), (reasonSlot_ok m d Hg Hd) as (_ & Hbd & Hld).
  apply reason_write; try done.
  - by apply length_blit.
  - intros k Hk. by apply blit_outside.
  - intros i Hi. pose proof (reason_pos i Hi). unfold readReason, reasonAt. rewrite <-!Nat.add_assoc.
    unfold m'. rewrite blit_inside by (rewrite ?length_view by done; done || lia).
    by rewrite view_lookup_total by lia.
Qed.
End windows.

(** ** Group handlers fold their operands' slots *)

Lemma tv_and_unit a : tv_and a tv_true = a.
Proof. by destruct a as [[] []]. Qed.
Lemma tv_or_unit a : tv_or a tv_false = a.
Proof. by destruct a as [[] []]. Qed.

Section groups.
Context {ops : SimdOps} {laws : SimdLaws ops}.
Context (p : Program) (rows : Z) (mode : executionMode) (row : nat).
Context (Hrows : is_u32 rows).
Context (Hcounts : is_u32 (TruthSlotCount p) ∧ is_u32 (ReasonSlotCount p)).
Context (Hrow : (row < length (OperandStarts p))%nat ∧ (row < length (OperandCounts p))%nat ∧
  (row < length (TruthSlots p))%nat ∧ (row < length (ReasonSlots p))%nat).
Context (Hops : 0 ≤ OperandStarts p !!! row ∧ 2 ≤ OperandCounts p !!! row ∧
  OperandStarts p !!! row + OperandCounts p !!! row ≤ zlen (Operands p)).
Context (Hoperands : ∀ o, o ∈ operandsOf p row → 1 ≤ o ≤ zlen (TruthSlots p) ∧ o ≤ zlen (ReasonSlots p) ∧
  truthRange p (TruthSlots p !!! Z.to_nat (o - 1)) ∧ reasonRange p (ReasonSlots p !!! Z.to_nat (o - 1))).
Context (Hdst : truthRange p (TruthSlots p !!! row) ∧ reasonRange p (ReasonSlots p !!! row)).

Local Abbreviation w := (WordCount rows).
Local Abbreviation tslot o := (TruthSlots p !!! Z.to_nat (o - 1)).
Local Abbreviation rslot o := (ReasonSlots p !!! Z.to_nat (o - 1)).
Local Abbreviation dstT := (TruthSlots p !!! row).
Local Abbreviation dstR := (ReasonSlots p !!! row).

Lemma operands_nonempty : (2 ≤ length (operandsOf p row))%nat.
Proof. unfold operandsOf. rewrite length_csr; lia. Qed.

Definition groupOp (opcode : Z) : tv → tv → tv := if opcode =? OpcodeAll then tv_and else tv_or.
Definition groupUnit (opcode : Z) : tv := if opcode =? OpcodeAll then tv_true else tv_false.

Lemma reduceTruthStep_ok opcode o m :
  o ∈ operandsOf p row → truthGood p rows m →
  ∃ m', reduceTruthStep p (tplanes w dstT) opcode rows mode o m = Ok m' ∧ truthGood p rows m' ∧
    (∀ r, rowOk rows r → readTruth rows m' dstT r = groupOp opcode (readTruth rows m dstT r) (readTruth rows m (tslot o) r)) ∧
    (∀ s r, s ≠ dstT → truthRange p s → rowOk rows r → readTruth rows m' s r = readTruth rows m s r).
Proof.
  intros Ho Hg. destruct (Hoperands o Ho) as (Ho1 & _ & Hs & _). destruct Hdst as [Hd _].
  unfold reduceTruthStep. rewrite at_total by lia. simpl.
  destruct (truthSlot_ok p rows Hrows Hcounts m (tslot o) Hg Hs) as [-> Hwf]. simpl.
  destruct (truthSlot_ok p rows Hrows Hcounts m dstT Hg Hd) as [_ Hwd].
  assert (alias_ok (tplanes w dstT) (tplanes w dstT)) as Ha1 by (by left).
  assert (alias_ok (tplanes w dstT) (tplanes w (tslot o))) as Ha2 by (by eapply tplanes_alias).
  assert (∃ m', (if opcode =? OpcodeAll
    then if useSIMDWords mode (Z.of_nat (Z.to_nat w)) then simdTruthAnd (tplanes w dstT) (tplanes w dstT) (tplanes w (tslot o)) rows m
         else And (tplanes w dstT) (tplanes w dstT) (tplanes w (tslot o)) rows m
    else if useSIMDWords mode (Z.of_nat (Z.to_nat w)) then simdTruthOr (tplanes w dstT) (tplanes w dstT) (tplanes w (tslot o)) rows m
         else Or (tplanes w dstT) (tplanes w dstT) (tplanes w (tslot o)) rows m) = Ok m' ∧
    planes_rows m m' (tplanes w dstT) rows (λ r, groupOp opcode (readTruth rows m dstT r) (readTruth rows m (tslot o) r)))
    as (m' & Hm' & Hw').
  { unfold groupOp. destruct (opcode =? OpcodeAll), (useSIMDWords mode _).
    - by apply simdTruthAnd_rows.
    - destruct (And_written rows m (tplanes w dstT) Hrows Hwd (tplanes w dstT) (tplanes w (tslot o))) as (m' & ? & ?); try done.
      exists m'. split; [done|]. by apply planes_written_rows.
    - by apply simdTruthOr_rows.
    - destruct (Or_written rows m (tplanes w dstT) Hrows Hwd (tplanes w dstT) (tplanes w (tslot o))) as (m' & ? & ?); try done.
      exists m'. split; [done|]. by apply planes_written_rows. }
  exists m'. split; [exact Hm'|]. by apply planes_rows_slot.
Qed.

Lemma reduceReasonStep_ok o m :
  o ∈ operandsOf p row → reasonGood p rows m →
  ∃ m', reduceReasonStep p (rslice w dstR) rows mode o m = Ok m' ∧ reasonGood p rows m' ∧
    (∀ i, bitOk rows i → readReason rows m' dstR i = readReason rows m dstR i || readReason rows m (rslot o) i) ∧
    (∀ s i, s ≠ dstR → reasonRange p s → bitOk rows i → readReason rows m' s i = readReason rows m s i).
Proof.
  intros Ho Hg. destruct (Hoperands o Ho) as (Ho1 & Ho2 & _ & Hs). destruct Hdst as [_ Hd].
  unfold reduceReasonStep. rewrite at_total by lia. simpl.
  destruct (reasonSlot_ok p rows Hrows Hcounts m (rslot o) Hg Hs) as (-> & Hbs & Hls). simpl.
  destruct (reasonSlot_ok p rows Hrows Hcounts m dstR Hg Hd) as (_ & Hbd & Hld).
  set (dst := rslice w dstR) in *. set (src := rslice w (rslot o)) in *.
  assert (src = dst ∨ disjoint_slices src dst) as Hsd.
  { destruct (decide (rslot o = dstR)) as [E|E]; [left; unfold src, dst; by rewrite E|right]. by eapply rslice_disjoint. }
  assert (∃ m', (if useSIMDWords mode (Z.of_nat (len dst)) then Ok (simdReasonOr dst dst src m)
    else pointwise dst (λ word m, d ← load m dst word; s ← load m src word; Ok (Z.lor d s)) (len dst) m) = Ok m' ∧
    length m' = length m ∧ (∀ k, ¬ inside dst k → m' !!! k = m !!! k) ∧
    (∀ k, (k < len dst)%nat → m' !!! (off dst + k)%nat = Z.lor (m !!! (off dst + k)%nat) (m !!! (off src + k)%nat)))
    as (m' & Hm' & Hlm & Hout & Hin).
  { destruct (useSIMDWords mode _).
    - eexists; split; [done|]. unfold simdReasonOr.
      rewrite law_OrWords by (rewrite !length_view by done; congruence).
      split; [by apply length_blit|]. split; [intros k Hk; by apply blit_outside|].
      intros k Hk. rewrite blit_inside by (try done; rewrite length_zip_with, !length_view by done; lia).
      assert (k < length (view m dst) ∧ k < length (view m src))%nat as [Hk1 Hk2] by (rewrite !length_view by done; lia).
      rewrite (list_lookup_total_alt (zip_with _ _ _)), lookup_zip_with, (list_lookup_lookup_total_lt _ _ Hk1),
        (list_lookup_lookup_total_lt _ _ Hk2). simpl. rewrite !view_lookup_total by lia. done.
    - destruct (pointwise_spec dst (λ word m, d ← load m dst word; s ← load m src word; Ok (Z.lor d s))
        (λ k, Z.lor (m !!! (off dst + k)%nat) (m !!! (off src + k)%nat)) (len dst) m) as (m' & Hm' & Hl & Hin & Hout).
      + done.
      + done.
      + intros k t Hk Hlt Hu. clearbody dst src. unfold in_bounds in *. rewrite load_Ok by (unfold in_bounds; lia). simpl.
        rewrite load_Ok by (unfold in_bounds; lia). simpl.
        rewrite (Hu (off dst + k)%nat) by (unfold unwritten; lia). rewrite (Hu (off src + k)%nat); [done|].
        unfold unwritten. destruct Hsd as [->|Hdis]; [lia|]. unfold disjoint_slices in Hdis. lia.
      + exists m'. split; [done|]. split; [done|]. split; [|done]. intros k Hk. apply Hout. exact Hk. }
  exists m'. split; [exact Hm'|].
  eapply (reason_write p rows Hrows); try done. intros i Hi. pose proof (reason_pos rows Hrows i Hi) as Hpos.
  unfold readReason, reasonAt. fold dst src. rewrite <-!Nat.add_assoc. rewrite Hin by lia. apply Z.lor_spec.
Qed.

Lemma reduceTruthGroup_ok opcode m :
  opcode = OpcodeAll ∨ opcode = OpcodeAny → truthGood p rows m →
  ∃ m', reduceTruthGroup (tplanes w dstT) p (Z.of_nat row) opcode rows mode m = Ok m' ∧ truthGood p rows m' ∧
    (∀ r, rowOk rows r → readTruth rows m' dstT r =
       foldr (groupOp opcode) (groupUnit opcode) (map (λ o, readTruth rows m (tslot o) r) (operandsOf p row))) ∧
    (∀ s r, s ≠ dstT → truthRange p s → rowOk rows r → readTruth rows m' s r = readTruth rows m s r).
Proof.
  intros Hopc Hg. pose proof operands_nonempty as Hlen. destruct Hdst as [Hd _].
  unfold reduceTruthGroup. rewrite !at_total by lia. rewrite !Nat2Z.id. simpl. rewrite slice_csr by lia. simpl.
  fold (operandsOf p row).
  assert (∀ a b c, groupOp opcode a (groupOp opcode b c) = groupOp opcode (groupOp opcode a b) c) as L1
    by (unfold groupOp; destruct (_ =? _); auto using tv_and_assoc, tv_or_assoc).
  assert (∀ a b, groupOp opcode a b = groupOp opcode b a) as L2
    by (unfold groupOp; destruct (_ =? _); auto using tv_and_comm, tv_or_comm).
  assert (∀ a, groupOp opcode a a = a) as L3 by (unfold groupOp; destruct (_ =? _); auto using tv_and_idemp, tv_or_idemp).
  assert (∀ a, groupOp opcode a (groupUnit opcode) = a) as L4
    by (unfold groupOp, groupUnit; destruct (_ =? _); auto using tv_and_unit, tv_or_unit).
  assert (∀ o, o ∈ operandsOf p row → truthRange p (tslot o)) as Hsl by (intros o Ho; apply (Hoperands o Ho)).
  pose proof (group_loop (groupOp opcode) (groupUnit opcode) L1 L2 L3 L4 (rowOk rows) (readTruth rows) (truthGood p rows)
    (truthRange p) (λ o, tslot o) dstT (operandsOf p row)
    (λ o m, reduceTruthStep p (tplanes w dstT) opcode rows mode o m) Hsl (reduceTruthStep_ok opcode)) as Hloop.
  destruct (findDriver_ok (TruthSlots p) (operandsOf p row) dstT 0) as [(i & -> & Hi & Ei)|[-> Hno]].
  { intros o Ho. apply (Hoperands o Ho). }
  - simpl. apply Hloop; try done; [|by left]. intros r Hr. by rewrite Ei.
  - simpl. rewrite at_total by lia. simpl. change (Z.to_nat 0) with 0%nat.
    assert (operandsOf p row !!! 0%nat ∈ operandsOf p row) as Hin0 by (apply list_elem_of_lookup_total_2; lia).
    destruct (Hoperands _ Hin0) as (? & _ & Hs0 & _). rewrite at_total by lia. simpl.
    destruct (truthSlot_ok p rows Hrows Hcounts m (tslot (operandsOf p row !!! 0%nat)) Hg Hs0) as [-> Hwf]. simpl.
    destruct (copyTruth_ok p rows Hrows Hcounts m dstT (tslot (operandsOf p row !!! 0%nat)) Hg Hd Hs0) as (Hg1 & Hr1 & Ho1);
      [by apply not_eq_sym, Hno|].
    apply Hloop; try done; [lia|by right].
Qed.

Lemma reduceReasonGroup_ok m :
  reasonGood p rows m →
  ∃ m', reduceReasonGroup (rslice w dstR) p (Z.of_nat row) rows mode m = Ok m' ∧ reasonGood p rows m' ∧
    (∀ i, bitOk rows i → readReason rows m' dstR i =
       foldr orb false (map (λ o, readReason rows m (rslot o) i) (operandsOf p row))) ∧
    (∀ s i, s ≠ dstR → reasonRange p s → bitOk rows i → readReason rows m' s i = readReason rows m s i).
Proof.
  intros Hg. pose proof operands_nonempty as Hlen. destruct Hdst as [_ Hd].
  unfold reduceReasonGroup. rewrite !at_total by lia. rewrite !Nat2Z.id. simpl. rewrite slice_csr by lia. simpl.
  fold (operandsOf p row).
  assert (∀ o, o ∈ operandsOf p row → reasonRange p (rslot o)) as Hsl by (intros o Ho; apply (Hoperands o Ho)).
  pose proof (group_loop orb false orb_assoc orb_comm orb_diag orb_false_r (bitOk rows) (readReason rows) (reasonGood p rows)
    (reasonRange p) (λ o, rslot o) dstR (operandsOf p row)
    (λ o m, reduceReasonStep p (rslice w dstR) rows mode o m) Hsl reduceReasonStep_ok) as Hloop.
  destruct (findDriver_ok (ReasonSlots p) (operandsOf p row) dstR 0) as [(i & -> & Hi & Ei)|[-> Hno]].
  { intros o Ho. destruct (Hoperands o Ho) as (? & ? & _). lia. }
  - simpl. apply Hloop; try done; [|by left]. intros j Hj. by rewrite Ei.
  - simpl. rewrite at_total by lia. simpl. change (Z.to_nat 0) with 0%nat.
    assert (operandsOf p row !!! 0%nat ∈ operandsOf p row) as Hin0 by (apply list_elem_of_lookup_total_2; lia).
    destruct (Hoperands _ Hin0) as (? & ? & _ & Hs0). rewrite at_total by lia. simpl.
    destruct (reasonSlot_ok p rows Hrows Hcounts m (rslot (operandsOf p row !!! 0%nat)) Hg Hs0) as [-> _]. simpl.
    destruct (copyReason_ok p rows Hrows Hcounts m dstR (rslot (operandsOf p row !!! 0%nat)) Hg Hd Hs0) as (Hg1 & Hr1 & Ho1).
    apply Hloop; try done; [lia|by right].
Qed.
End groups.

(** ** The schedule computes the denotation *)

(** Validated columns of a schedule, as the checks and the Go types give them. *)
Record sched_ok (p : Program) : Prop := {
  sk_counts : is_u32 (TruthSlotCount p) ∧ is_u32 (ReasonSlotCount p);
  sk_lens : length (TruthSlots p) = length (Opcodes p) ∧ length (ReasonSlots p) = length (Opcodes p) ∧
    length (OperandStarts p) = length (Opcodes p) ∧ length (OperandCounts p) = length (Opcodes p) ∧
    length (Values p) = length (Opcodes p) ∧ length (EvidenceKinds p) = length (Opcodes p) ∧
    length (EvidenceStates p) = length (Opcodes p) ∧
    (length (EvidenceSubjects p) = 0%nat ∨ length (EvidenceSubjects p) = length (Opcodes p)) ∧
    (length (EvidenceScopes p) = 0%nat ∨ length (EvidenceScopes p) = length (Opcodes p)) ∧
    (length (EvidenceTimings p) = 0%nat ∨ length (EvidenceTimings p) = length (Opcodes p));
  sk_opcode row : (row < length (Opcodes p))%nat → OpcodeValid (Opcodes p !!! row) = true;
  sk_slots row : (row < length (Opcodes p))%nat →
    truthRange p (TruthSlots p !!! row) ∧ reasonRange p (ReasonSlots p !!! row);
  sk_operands row : (row < length (Opcodes p))%nat →
    0 ≤ OperandStarts p !!! row ∧ 0 ≤ OperandCounts p !!! row ∧
    OperandStarts p !!! row + OperandCounts p !!! row ≤ zlen (Operands p) ∧
    (IsGroup (Opcodes p !!! row) = true → 2 ≤ OperandCounts p !!! row) ∧
    (Opcodes p !!! row = OpcodeNot → OperandCounts p !!! row = 1);
  sk_earlier row o : (row < length (Opcodes p))%nat → o ∈ operandsOf p row → 1 ≤ o ≤ Z.of_nat row
}.

(** The unsigned columns hold values of their Go types. *)
Record sched_typed (p : Program) : Prop := {
  st_tslots : Forall is_u32 (TruthSlots p); st_rslots : Forall is_u32 (ReasonSlots p);
  st_starts : Forall is_u32 (OperandStarts p); st_ocounts : Forall is_u32 (OperandCounts p);
  st_operands : Forall is_u32 (Operands p);
  st_tcount : is_u32 (TruthSlotCount p); st_rcount : is_u32 (ReasonSlotCount p)
}.

Lemma validExecutionRow_inv p row :
  sched_typed p → (row < length (TruthSlots p))%nat → (row < length (ReasonSlots p))%nat →
  (row < length (OperandStarts p))%nat → (row < length (OperandCounts p))%nat →
  validExecutionRow p row = true →
  OpcodeValid (Opcodes p !!! row) = true ∧
  (truthRange p (TruthSlots p !!! row) ∧ reasonRange p (ReasonSlots p !!! row)) ∧
  (0 ≤ OperandStarts p !!! row ∧ 0 ≤ OperandCounts p !!! row ∧
    OperandStarts p !!! row + OperandCounts p !!! row ≤ zlen (Operands p) ∧
    (IsGroup (Opcodes p !!! row) = true → 2 ≤ OperandCounts p !!! row) ∧
    (Opcodes p !!! row = OpcodeNot → OperandCounts p !!! row = 1)) ∧
  (∀ o, o ∈ operandsOf p row → 1 ≤ o ≤ Z.of_nat row).
Proof.
  intros [Hts Hrs Hst Hct Hop _ _] H1 H2 H3 H4. unfold validExecutionRow.
  assert (is_u32 (TruthSlots p !!! row) ∧ is_u32 (ReasonSlots p !!! row) ∧ is_u32 (OperandStarts p !!! row) ∧ is_u32 (OperandCounts p !!! row))
    as (U1 & U2 & U3 & U4) by (split_and!; by apply Forall_lookup_total_1).
  unfold is_u32 in U1, U2, U3, U4. rewrite u64_small by (unfold is_u64; lia).
  rewrite !andb_true_iff, !negb_true_iff, !orb_false_iff, !negb_false_iff, !Z.eqb_neq, !Z.ltb_ge, forallb_forall.
  intros [[[[[[[[[[Hv _] Ht0] Ht] Hr0] Hr] _] _] [_ Hend]] Hcnt] Hall].
  unfold truthRange, reasonRange. split; [done|]. split; [lia|]. split.
  - do 3 (split; [lia|]). split.
    + intros Hg. rewrite Hg in Hcnt. lia.
    + intros Hn. rewrite Hn in Hcnt. simpl in Hcnt. lia.
  - intros o Hin. specialize (Hall o). rewrite <-list_elem_of_In in Hall. specialize (Hall Hin).
    assert (is_u32 o) as Hu.
    { rewrite Forall_forall in Hop. apply Hop. unfold operandsOf, csr in Hin.
      apply elem_of_take in Hin as (i & Hi & _). rewrite lookup_drop in Hi. by eapply list_elem_of_lookup_2. }
    rewrite negb_true_iff, orb_false_iff, Z.eqb_neq, Z.leb_gt in Hall. unfold is_u32 in Hu. lia.
Qed.

Lemma validExecutionSchedule_ok p : sched_typed p → validExecutionSchedule p = true → sched_ok p.
Proof.
  intros Hty. unfold validExecutionSchedule, optionalExecutionColumn.
  rewrite !andb_true_iff, !orb_true_iff, !bool_decide_eq_true, forallb_forall.
  intros (((((((((_ & _) & Hl1) & Hs1) & Hs2) & Hs3) & Hl2) & _) & _) & Hall).
  assert (∀ row, (row < length (Opcodes p))%nat → _) as Hrow
    by (intros row Hlt; exact (validExecutionRow_inv p row Hty ltac:(lia) ltac:(lia) ltac:(lia) ltac:(lia)
          (Hall row ltac:(apply in_seq; lia)))).
  split.
  - by destruct Hty.
  - tauto.
  - intros row Hlt. apply (Hrow row Hlt).
  - intros row Hlt. apply (Hrow row Hlt).
  - intros row Hlt. apply (Hrow row Hlt).
  - intros row o Hlt. apply (Hrow row Hlt).
Qed.

(** A well-formed instruction: its literals, field and evidence names decode. *)
Definition instructionOk (p : Program) (row : nat) : bool :=
  let opcode := Opcodes p !!! row in
  if opcode =? OpcodeBoolean then decodable p ValueKindBoolean (Values p !!! row)
  else if opcode =? OpcodeEvidence then
    negb ((EvidenceKinds p !!! row =? 0) || (zlen (EvidenceKindNames p) <? EvidenceKinds p !!! row) ||
          (EvidenceStates p !!! row =? 0) || (zlen (EvidenceStateNames p) <? EvidenceStates p !!! row))
  else if IsGroup opcode || (opcode =? OpcodeNot) then true
  else predicateOk p row.

Definition usesEvidence (p : Program) : bool := existsb (λ opcode, opcode =? OpcodeEvidence) (Opcodes p).

Lemma usesEvidence_at (p : Program) i : (i < length (Opcodes p))%nat → Opcodes p !!! i = OpcodeEvidence → usesEvidence p = true.
Proof.
  intros Hi E. unfold usesEvidence. apply existsb_exists. exists (Opcodes p !!! i). split; [|by rewrite E].
  apply list_elem_of_In. by apply list_elem_of_lookup_total_2.
Qed.

Record exec_ok (p : Program) (b : Batch) (env : ExecEnv) : Prop := {
  xo_sched : sched_ok p;
  xo_columns : columns_ok p b;
  xo_facts : facts_typed p b;
  xo_index : fact_ok p b (factIndex env);
  xo_spec : FactIndex.Valid (FactIndexSpec p) (FieldIndex p) (ProgramSymbolCount p) = true;
  xo_queries : validFactIndexQueries p = Ok true;
  xo_states : boundProgram (states env) = Some (programAddr env) ∧ reasons_ok p (stateReasons (states env));
  xo_evidence : usesEvidence p = true → evidence_ok b p;
  xo_instructions row : (row < length (Opcodes p))%nat → instructionOk p row = true
}.

Lemma Has_0 reason : Has 0 reason = false.
Proof. unfold Has. by destruct (negb _). Qed.

Lemma Has_fold_lor l reason : Has (foldr Z.lor 0 l) reason = foldr orb false (map (λ m, Has m reason) l).
Proof. induction l as [|m l IH]; simpl; [apply Has_0|]. by rewrite Has_lor, IH. Qed.

(** No instruction strictly between [i] and [m] writes the slot of [i]. *)
Definition keeps (slots : list Z) (i m : nat) : Prop := ∀ k, (i < k)%nat → (k < m)%nat → slots !!! k ≠ slots !!! i.

(** Every operand is still in its slots when its consumer runs. *)
Definition noninterfering (p : Program) : Prop :=
  ∀ j o, (j < length (Opcodes p))%nat → o ∈ operandsOf p j →
    keeps (TruthSlots p) (Z.to_nat (o - 1)) j ∧ keeps (ReasonSlots p) (Z.to_nat (o - 1)) j.

Section schedule.
Context {ops : SimdOps} {laws : SimdLaws ops}.
Context (p : Program) (b : Batch) (env : ExecEnv) (mode : executionMode).
Context (Hx : exec_ok p b env).

Local Abbreviation rows := (Rows b).
Local Abbreviation w := (WordCount (Rows b)).
Local Abbreviation reasons := (stateReasons (states env)).
Local Abbreviation n := (length (Opcodes p)).

Definition stGood (st : ExecState) : Prop := truthGood p rows (truthWords st) ∧ reasonGood p rows (reasonWords st).

(** [st'] is [st] with instruction [row]'s two slots holding [g]. *)
Definition instr_written (st st' : ExecState) (row : nat) (g : nat → tv * Z) : Prop :=
  stGood st' ∧
  (∀ r, rowOk rows r → readTruth rows (truthWords st') (TruthSlots p !!! row) r = (g r).1) ∧
  (∀ i, bitOk rows i → readReason rows (reasonWords st') (ReasonSlots p !!! row) i = Has (g i.2).2 i.1) ∧
  (∀ s r, s ≠ TruthSlots p !!! row → truthRange p s → rowOk rows r →
     readTruth rows (truthWords st') s r = readTruth rows (truthWords st) s r) ∧
  (∀ s i, s ≠ ReasonSlots p !!! row → reasonRange p s → bitOk rows i →
     readReason rows (reasonWords st') s i = readReason rows (reasonWords st) s i).

Lemma rows_u32 : is_u32 rows.
Proof. destruct Hx as [_ [[] _ _ _ _ _ _ _] _ _ _ _ _ _ _]. done. Qed.

Lemma storeLeaf_written row out st mask g :
  (row < n)%nat → stGood st → leaf_spec rows out g →
  instr_written st (storeLeaf (tplanes w (TruthSlots p !!! row)) (rslice w (ReasonSlots p !!! row)) out st mask) row g.
Proof.
  intros Hrow [Hgt Hgr] [Hlp Hln Hlr Htruth Hmask]. pose proof rows_u32 as Hr.
  destruct (sk_slots _ (xo_sched _ _ _ Hx) row Hrow) as [Ht Hre]. pose proof (sk_counts _ (xo_sched _ _ _ Hx)) as Hc.
  set (dst := tplanes w (TruthSlots p !!! row)).
  destruct (truthSlot_ok p rows Hr Hc _ _ Hgt Ht) as [_ Hwf]. fold dst in Hwf. pose proof Hwf as (HdP & HdN & HcP & HcN & Hdd).
  assert (planes_rows (truthWords st) (blit (Negative dst) (lNegative out) (blit (Positive dst) (lPositive out) (truthWords st)))
    dst rows (λ r, (g r).1)) as Hpr.
  { split_and!.
    - rewrite !length_blit by slab. done.
    - intros k Hk1 Hk2. by rewrite !blit_outside by slab.
    - intros r Hrr. unfold planesRow. assert (disjoint_slices (Negative dst) (Positive dst)) by (unfold disjoint_slices in *; lia).
      rewrite planeRow_blit_other, !planeRow_blit by (first [done | lia | apply in_bounds_blit; done]). by apply Htruth. }
  destruct (planes_rows_slot p rows Hr _ _ _ _ Hgt Ht Hpr) as (Hg1 & Hrd & Hfr).
  destruct (reasonSlot_ok p rows Hr Hc _ _ Hgr Hre) as (_ & Hb & Hl).
  destruct (reason_write p rows Hr (reasonWords st) (blit (rslice w (ReasonSlots p !!! row)) (lReasons out) (reasonWords st))
    (ReasonSlots p !!! row) (λ i, Has (g i.2).2 i.1)) as (Hg2 & Hrd2 & Hfr2); try done.
  - by apply length_blit.
  - intros k Hk. by apply blit_outside.
  - intros i Hi. destruct (WordCount_bounds rows Hr) as (? & _). destruct Hi as [Hv Hir]. pose proof Hir as Hir'.
    apply (rowOk_words rows Hr) in Hir'.
    rewrite (readReason_blit p) by (done || lia). specialize (Hmask i.2 i.1 Hir' Hv).
    rewrite <-(Z2Nat.id i.1) in Hmask at 1 by (unfold validReason in Hv; lia).
    rewrite reasonPlane_row in Hmask by (unfold validReason in Hv; lia).
    replace (Z.to_nat (i.1 - 1)) with (Z.to_nat i.1 - 1)%nat by (unfold validReason in Hv; lia).
    rewrite Hmask. unfold tailKeep. by rewrite bool_decide_eq_true_2.
Qed.

Lemma evalPredicateMode_ok dst rs row mask :
  predicateOk p row = true → leaf_shape dst rs rows →
  ∃ out mask', evalPredicateMode env dst rs b p (Z.of_nat row + 1) mode mask = Ok (out, mask') ∧
    leaf_spec rows out (predicateRow p b row).
Proof.
  intros Hok Hshape. destruct Hx as [_ Hco Hft Hix Hsp Hq _ _ _].
  destruct (predicateOk_inv p row Hok) as (kind & column & Hl & _).
  unfold evalPredicateMode.
  destruct (evalPredicateIndex_spec p b (factIndex env) row Hco Hft Hok Hix Hsp Hq dst rs mode Hshape) as ([out|] & -> & Hout); simpl.
  { by eexists _, _. }
  destruct (evalPredicateSIMD_spec p b row kind column Hco Hok Hl mask dst rs mode Hshape) as ([out|] & mask' & -> & Hout2); simpl.
  { by eexists _, _. }
  destruct (evalPredicate_spec p b row kind column Hco Hok Hl dst rs Hshape) as (out & -> & Hout3); simpl. by eexists _, _.
Qed.

Lemma instructionPredicate_ok row : (row < n)%nat →
  instructionPredicate p (Z.of_nat row) = Ok (predicateAt p row) ∧
  epKind (predicateAt p row) = EvidenceKinds p !!! row ∧ epState (predicateAt p row) = EvidenceStates p !!! row.
Proof.
  intros Hrow. destruct (sk_lens _ (xo_sched _ _ _ Hx)) as (_ & _ & _ & _ & _ & Hk & Hs & H1 & H2 & H3).
  assert (∀ col, length col = 0%nat ∨ length col = n → ∃ v, evidenceQualifier col (Z.of_nat row) = Ok v) as Hq.
  { intros col Hc. unfold evidenceQualifier. destruct (bool_decide_reflect (length col = 0%nat)); [by eexists|].
    rewrite at_total by lia. by eexists. }
  destruct (Hq _ H1) as [a Ea], (Hq _ H2) as [c Ec], (Hq _ H3) as [d Ed].
  unfold predicateAt, instructionPredicate. rewrite Ea, Ec, Ed, !at_total by lia. rewrite Nat2Z.id. done.
Qed.

(** The operands of [row] hold the values [vs] of earlier instructions. *)
Definition operands_hold (st : ExecState) (row : nat) (vs : nat → list (tv * Z)) : Prop :=
  ∀ o, o ∈ operandsOf p row →
    (∀ r, rowOk rows r → readTruth rows (truthWords st) (TruthSlots p !!! Z.to_nat (o - 1)) r = (vs r !!! Z.to_nat (o - 1)).1) ∧
    (∀ i, bitOk rows i → readReason rows (reasonWords st) (ReasonSlots p !!! Z.to_nat (o - 1)) i =
       Has (vs i.2 !!! Z.to_nat (o - 1)).2 i.1).

Lemma operand_facts row o : (row < n)%nat → o ∈ operandsOf p row →
  1 ≤ o ≤ zlen (TruthSlots p) ∧ o ≤ zlen (ReasonSlots p) ∧
  truthRange p (TruthSlots p !!! Z.to_nat (o - 1)) ∧ reasonRange p (ReasonSlots p !!! Z.to_nat (o - 1)).
Proof.
  intros Hrow Ho. destruct Hx as [Hs _ _ _ _ _ _ _ _]. pose proof (sk_earlier _ Hs row o Hrow Ho).
  destruct (sk_lens _ Hs) as (? & ? & _). destruct (sk_slots _ Hs (Z.to_nat (o - 1))) as [? ?]; [lia|]. split_and!; done || lia.
Qed.

Lemma group_written row st vs :
  (row < n)%nat → IsGroup (Opcodes p !!! row) = true → stGood st → operands_hold st row vs →
  ∃ tw rw, reduceTruthGroup (tplanes w (TruthSlots p !!! row)) p (Z.of_nat row) (Opcodes p !!! row) rows mode (truthWords st) = Ok tw ∧
    reduceReasonGroup (rslice w (ReasonSlots p !!! row)) p (Z.of_nat row) rows mode (reasonWords st) = Ok rw ∧
    instr_written st {| truthWords := tw; reasonWords := rw; compareMask := compareMask st |} row
      (λ r, instrValue p b reasons (vs r) row r).
Proof.
  intros Hrow Hg [Hgt Hgr] Hvs. pose proof rows_u32 as Hr. pose proof (xo_sched _ _ _ Hx) as Hs.
  destruct (sk_lens _ Hs) as (Hl1 & Hl2 & Hl3 & Hl4 & _). destruct (sk_operands _ Hs row Hrow) as (Ho1 & Ho2 & Ho3 & Ho4 & _).
  assert (Opcodes p !!! row = OpcodeAll ∨ Opcodes p !!! row = OpcodeAny) as Hop.
  { unfold IsGroup in Hg. rewrite orb_true_iff, !Z.eqb_eq in Hg. done. }
  assert ((row < length (OperandStarts p))%nat ∧ (row < length (OperandCounts p))%nat ∧
    (row < length (TruthSlots p))%nat ∧ (row < length (ReasonSlots p))%nat) as Hlens by lia.
  assert (0 ≤ OperandStarts p !!! row ∧ 2 ≤ OperandCounts p !!! row ∧
    OperandStarts p !!! row + OperandCounts p !!! row ≤ zlen (Operands p)) as Hops by (specialize (Ho4 Hg); lia).
  pose proof (λ o Ho, operand_facts row o Hrow Ho) as Hof. pose proof (sk_slots _ Hs row Hrow) as Hsl.
  destruct (reduceTruthGroup_ok p rows mode row Hr (sk_counts _ Hs) Hlens Hops Hof Hsl _ (truthWords st) Hop Hgt)
    as (tw & -> & Hgt' & Htr & Htf).
  destruct (reduceReasonGroup_ok p rows mode row Hr (sk_counts _ Hs) Hlens Hops Hof Hsl (reasonWords st) Hgr)
    as (rw & -> & Hgr' & Hrr & Hrf).
  eexists tw, rw. split; [done|]. split; [done|]. split; [by split|]. split_and!; try done; simpl.
  - intros r Hok. rewrite Htr by done. unfold instrValue.
    assert (map (λ o, readTruth rows (truthWords st) (TruthSlots p !!! Z.to_nat (o - 1)) r) (operandsOf p row) =
      map fst (map (λ o, vs r !!! Z.to_nat (o - 1)) (operandsOf p row))) as ->.
    { rewrite map_map. apply map_ext_in. intros o Ho. rewrite <-list_elem_of_In in Ho. by apply (Hvs o Ho). }
    unfold groupOp, groupUnit. by destruct Hop as [-> | ->].
  - intros i Hok. rewrite Hrr by done. unfold instrValue.
    assert (map (λ o, readReason rows (reasonWords st) (ReasonSlots p !!! Z.to_nat (o - 1)) i) (operandsOf p row) =
      map (λ m, Has m i.1) (map snd (map (λ o, vs i.2 !!! Z.to_nat (o - 1)) (operandsOf p row)))) as ->.
    { rewrite !map_map. apply map_ext_in. intros o Ho. rewrite <-list_elem_of_In in Ho. by apply (Hvs o Ho). }
    rewrite <-Has_fold_lor. by destruct Hop as [-> | ->].
Qed.

Lemma not_written row st vs :
  (row < n)%nat → Opcodes p !!! row = OpcodeNot → stGood st → operands_hold st row vs →
  let o := Operands p !!! Z.to_nat (OperandStarts p !!! row) in
  ∃ tw, Not (tplanes w (TruthSlots p !!! row)) (tplanes w (TruthSlots p !!! Z.to_nat (o - 1))) rows (truthWords st) = Ok tw ∧
    instr_written st {| truthWords := tw;
      reasonWords := if negb (ReasonSlots p !!! row =? ReasonSlots p !!! Z.to_nat (o - 1))
        then blit (rslice w (ReasonSlots p !!! row)) (view (reasonWords st) (rslice w (ReasonSlots p !!! Z.to_nat (o - 1)))) (reasonWords st)
        else reasonWords st;
      compareMask := compareMask st |} row (λ r, instrValue p b reasons (vs r) row r).
Proof.
  intros Hrow Hop [Hgt Hgr] Hvs o. pose proof rows_u32 as Hr. pose proof (xo_sched _ _ _ Hx) as Hs.
  destruct (sk_operands _ Hs row Hrow) as (Ho1 & Ho2 & Ho3 & _ & Ho5). specialize (Ho5 Hop).
  assert (operandsOf p row = [o]) as Hone.
  { unfold operandsOf, csr. rewrite Ho5. change (Z.to_nat 1) with 1%nat. apply list_eq_same_length with 1%nat; [done| |].
    - rewrite length_take, length_drop. lia.
    - intros i x y Hi Hxx Hyy. assert (i = 0%nat) as -> by lia. rewrite lookup_take_lt, lookup_drop, Nat.add_0_r in Hxx by lia.
      apply list_lookup_total_correct in Hxx. simpl in Hyy. by simplify_eq. }
  assert (o ∈ operandsOf p row) as Hin by (rewrite Hone; set_solver).
  destruct (operand_facts row o Hrow Hin) as (_ & _ & Hot & Hor). destruct (Hvs o Hin) as [Hvt Hvr].
  destruct (sk_slots _ Hs row Hrow) as [Ht Hre]. pose proof (sk_counts _ Hs) as Hc.
  destruct (truthSlot_ok p rows Hr Hc _ _ Hgt Ht) as [_ Hwd], (truthSlot_ok p rows Hr Hc _ _ Hgt Hot) as [_ Hws].
  destruct (Not_written rows (truthWords st) (tplanes w (TruthSlots p !!! row)) Hr Hwd
    (tplanes w (TruthSlots p !!! Z.to_nat (o - 1))) Hws) as (tw & -> & Hpw); [by eapply tplanes_alias|].
  apply planes_written_rows in Hpw. destruct (planes_rows_slot p rows Hr _ _ _ _ Hgt Ht Hpw) as (Hg1 & Hrd & Hfr).
  exists tw. split; [done|]. set (rw := if negb _ then _ else _).
  assert (reasonGood p rows rw ∧
    (∀ i, bitOk rows i → readReason rows rw (ReasonSlots p !!! row) i = readReason rows (reasonWords st) (ReasonSlots p !!! Z.to_nat (o - 1)) i) ∧
    (∀ s i, s ≠ ReasonSlots p !!! row → reasonRange p s → bitOk rows i → readReason rows rw s i = readReason rows (reasonWords st) s i))
    as (Hg2 & Hrd2 & Hfr2).
  { unfold rw. destruct (Z.eqb_spec (ReasonSlots p !!! row) (ReasonSlots p !!! Z.to_nat (o - 1))) as [E|E]; simpl.
    - by rewrite E.
    - by apply copyReason_ok. }
  split; [by split|]. simpl. split_and!; try done.
  - intros r Hok. rewrite Hrd by done. unfold instrValue. rewrite Hop, Hone. simpl.
    by rewrite <-Hvt.
  - intros i Hok. rewrite Hrd2, Hvr by done. unfold instrValue. rewrite Hop, Hone. done.
Qed.

Lemma executeInstruction_ok row st vs :
  (row < n)%nat → stGood st → operands_hold st row vs →
  ∃ st', executeInstructionMode env p b mode row st = Ok st' ∧
    instr_written st st' row (λ r, instrValue p b reasons (vs r) row r).
Proof.
  intros Hrow Hg Hvs. pose proof rows_u32 as Hr. pose proof (xo_sched _ _ _ Hx) as Hs. pose proof Hg as [Hgt Hgr].
  destruct (sk_lens _ Hs) as (Hl1 & Hl2 & Hl3 & Hl4 & Hl5 & _). pose proof (sk_counts _ Hs) as Hc.
  destruct (sk_slots _ Hs row Hrow) as [Ht Hre].
  unfold executeInstructionMode. rewrite !at_total by lia. rewrite !Nat2Z.id. simpl.
  destruct (truthSlot_ok p rows Hr Hc _ _ Hgt Ht) as [-> Hwf]. simpl.
  destruct (reasonSlot_ok p rows Hr Hc _ _ Hgr Hre) as (-> & Hb & Hl). simpl.
  assert (leaf_shape (tplanes w (TruthSlots p !!! row)) (rslice w (ReasonSlots p !!! row)) rows) as Hshape
    by (destruct Hwf as (? & ? & _); done).
  pose proof (xo_instructions _ _ _ Hx row Hrow) as Hinstr. unfold instructionOk in Hinstr.
  pose proof (sk_opcode _ Hs row Hrow) as Hval.
  destruct (Z.eqb_spec (Opcodes p !!! row) OpcodeBoolean) as [E|E1].
  { rewrite decodable_Ok by done. simpl.
    destruct (Set_written rows (truthWords st) (tplanes w (TruthSlots p !!! row)) Hr Hwf
      (boolean (valueOf p (Values p !!! row) ValueKindBoolean))) as (tw & -> & Hpw). simpl.
    apply planes_written_rows in Hpw. destruct (planes_rows_slot p rows Hr _ _ _ _ Hgt Ht Hpw) as (Hg1 & Hrd & Hfr).
    eexists; split; [done|]. set (zero := make_ _).
    assert (length zero = (9 * nwords rows)%nat) as Hzl by (unfold zero, make_; rewrite length_replicate; simpl in *; lia).
    destruct (reason_write p rows Hr (reasonWords st) (blit (rslice w (ReasonSlots p !!! row)) zero (reasonWords st))
      (ReasonSlots p !!! row) (λ _, false)) as (Hg2 & Hrd2 & Hfr2); try done.
    - by apply length_blit.
    - intros k Hk. by apply blit_outside.
    - intros i Hi. rewrite (readReason_blit p) by done. unfold zero, make_. rewrite Nat2Z.id in *.
      pose proof (reason_pos rows Hr i Hi). apply rowBit_replicate0. simpl in *. pose proof (row_split i.2). lia.
    - split; [by split|]. simpl. split_and!; try done; unfold instrValue; rewrite E; simpl; [done|].
      intros i Hi. rewrite Hrd2 by done. symmetry. apply Has_0. }
  assert (∀ c : Z * Z, c.1 ≤ Opcodes p !!! row ≤ c.2 → c.2 ≤ 8 ∨ c.1 = 14 → 1 ≤ c.1 → ∀ r, instrValue p b reasons (vs r) row r = predicateRow p b row r) as Hpv.
  { intros c H1 H2 H3 r. unfold instrValue, OpcodeBoolean, OpcodeEvidence, OpcodeAll, OpcodeAny, OpcodeNot in *.
    rewrite !(proj2 (Z.eqb_neq _ _)) by lia. done. }
  destruct (Z.eqb_spec (Opcodes p !!! row) OpcodeDefined) as [E|E2].
  { rewrite E in Hinstr. simpl in Hinstr. destruct (predicateOk_inv p row Hinstr) as (kind & column & Hlk & _).
    destruct (evalPredicate_spec p b row kind column (xo_columns _ _ _ Hx) Hinstr Hlk _ _ Hshape) as (out & -> & Hout). simpl.
    eexists; split; [done|]. destruct (storeLeaf_written row out st (compareMask st) _ Hrow Hg Hout) as (A1 & A2 & A3 & A4 & A5).
    split; [done|]. split_and!; try done.
    - intros r Hok. rewrite (Hpv (14, 14)) by (rewrite ?E; done || (simpl; lia)). by apply A2.
    - intros i Hok. rewrite (Hpv (14, 14)) by (rewrite ?E; done || (simpl; lia)). by apply A3. }
  destruct ((OpcodeEqual <=? Opcodes p !!! row) && (Opcodes p !!! row <=? OpcodeGreaterEqual)) eqn:E3.
  { assert (predicateOk p row = true) as Hpk.
    { unfold IsGroup, OpcodeEqual, OpcodeGreaterEqual, OpcodeEvidence, OpcodeAll, OpcodeAny, OpcodeNot in *.
      rewrite !(proj2 (Z.eqb_neq _ _)) in Hinstr by lia. done. }
    destruct (evalPredicateMode_ok (tplanes w (TruthSlots p !!! row)) (rslice w (ReasonSlots p !!! row)) row (compareMask st) Hpk Hshape)
      as (out & mask' & -> & Hout). simpl.
    eexists; split; [done|]. destruct (storeLeaf_written row out st mask' _ Hrow Hg Hout) as (A1 & A2 & A3 & A4 & A5).
    unfold OpcodeEqual, OpcodeGreaterEqual in E3.
    split; [done|]. split_and!; try done.
    - intros r Hok. rewrite (Hpv (1, 8)) by (simpl; lia). by apply A2.
    - intros i Hok. rewrite (Hpv (1, 8)) by (simpl; lia). by apply A3. }
  destruct (Z.eqb_spec (Opcodes p !!! row) OpcodeEvidence) as [E|E4].
  { destruct (instructionPredicate_ok row Hrow) as (-> & Hek & Hes). simpl.
    unfold evalEvidenceValidated, requireEvidencePredicate. destruct (xo_states _ _ _ Hx) as [Hbound Hreasons].
    rewrite (bool_decide_eq_true_2 (boundProgram _ = _)), (bool_decide_eq_true_2 (length _ = _)), Hek, Hes, Hinstr by (done || apply Hreasons).
    simpl. assert (evidence_ok b p) as Hev.
    { apply (xo_evidence _ _ _ Hx). unfold usesEvidence. apply existsb_exists. exists (Opcodes p !!! row).
      split; [|by rewrite E]. apply list_elem_of_In. by apply list_elem_of_lookup_total_2. }
    destruct (evalEvidenceUnchecked_spec b p reasons (predicateAt p row) Hev Hreasons _ _ (states env) Hr Hshape eq_refl)
      as (out & -> & Hout). simpl.
    eexists; split; [done|]. destruct (storeLeaf_written row out st (compareMask st) _ Hrow Hg Hout) as (A1 & A2 & A3 & A4 & A5).
    split; [done|]. unfold instrValue. rewrite E. simpl. split_and!; done. }
  destruct (IsGroup (Opcodes p !!! row)) eqn:E5.
  { destruct (group_written row st vs Hrow E5 Hg Hvs) as (tw & rw & -> & Hrw & Hw). simpl. rewrite Hrw. simpl. by eexists. }
  destruct (Z.eqb_spec (Opcodes p !!! row) OpcodeNot) as [E|E6].
  { destruct (sk_operands _ Hs row Hrow) as (Ho1 & Ho2 & Ho3 & _ & Ho5). specialize (Ho5 E).
    destruct (not_written row st vs Hrow E Hg Hvs) as (tw & Hnot & Hw).
    rewrite (at_total (Operands p)) by lia. simpl.
    set (o := Operands p !!! Z.to_nat (OperandStarts p !!! row)) in *.
    assert (o ∈ operandsOf p row) as Hin.
    { unfold operandsOf, csr. apply elem_of_take. exists 0%nat. split; [|lia]. rewrite lookup_drop, Nat.add_0_r.
      apply list_lookup_lookup_total_lt. lia. }
    destruct (operand_facts row o Hrow Hin) as (? & ? & Hot & Hor). rewrite !at_total by lia. simpl.
    destruct (truthSlot_ok p rows Hr Hc _ _ Hgt Hot) as [-> _]. simpl. rewrite Hnot. simpl.
    destruct (reasonSlot_ok p rows Hr Hc _ _ Hgr Hor) as (-> & _). simpl. by eexists. }
  exfalso. unfold OpcodeValid, IsGroup, OpcodeEqual, OpcodeGreaterEqual, OpcodeBoolean, OpcodeDefined, OpcodeEvidence, OpcodeAll, OpcodeAny, OpcodeNot in *. lia.
Qed.

(** After [m] instructions every unoverwritten slot holds its denotation. *)
Definition schedule_inv (m : nat) (st : ExecState) : Prop :=
  stGood st ∧
  (∀ i, (i < m)%nat → keeps (TruthSlots p) i m → ∀ r, rowOk rows r →
     readTruth rows (truthWords st) (TruthSlots p !!! i) r = (denote p b reasons i r).1) ∧
  (∀ i, (i < m)%nat → keeps (ReasonSlots p) i m → ∀ k, bitOk rows k →
     readReason rows (reasonWords st) (ReasonSlots p !!! i) k = Has (denote p b reasons i k.2).2 k.1).

Lemma schedule_inv_step m st :
  noninterfering p → (m < n)%nat → schedule_inv m st →
  ∃ st', executeInstructionMode env p b mode m st = Ok st' ∧ schedule_inv (S m) st'.
Proof.
  intros Hni Hm (Hg & Hit & Hir). pose proof (xo_sched _ _ _ Hx) as Hs.
  destruct (executeInstruction_ok m st (λ r, denoteAll p b reasons m r) Hm Hg) as (st' & Hst & Hg' & Ht & Hr & Hft & Hfr).
  { intros o Ho. pose proof (sk_earlier _ Hs m o Hm Ho). destruct (Hni m o Hm Ho) as [Hk1 Hk2]. split.
    - intros r Hok. rewrite denoteAll_lookup by lia. apply Hit; [lia|done|done].
    - intros i Hok. rewrite denoteAll_lookup by lia. apply Hir; [lia|done|done]. }
  exists st'. split; [exact Hst|]. split; [done|]. split.
  - intros i Hi Hk r Hok. destruct (decide (i = m)) as [->|Hne]; [by apply Ht|].
    rewrite Hft; [|apply not_eq_sym, Hk; lia|apply (sk_slots _ Hs i); lia|done]. apply Hit; [lia| |done].
    intros k Hk1 Hk2. apply Hk; lia.
  - intros i Hi Hk r Hok. destruct (decide (i = m)) as [->|Hne]; [by apply Hr|].
    rewrite Hfr; [|apply not_eq_sym, Hk; lia|apply (sk_slots _ Hs i); lia|done]. apply Hir; [lia| |done].
    intros k Hk1 Hk2. apply Hk; lia.
Qed.

Lemma executeSchedule_inv st :
  noninterfering p → stGood st → ∃ st', executeScheduleMode env p b mode st = Ok st' ∧ schedule_inv n st'.
Proof.
  intros Hni Hg. apply for_range_total.
  - split; [done|]. split; intros i Hi; lia.
  - intros m t Hm Ht. by apply schedule_inv_step.
Qed.
End schedule.

(** ** Unknown and conflicting values carry a reason *)

(** The property that keeps result resolution total. *)
Definition reasoned (v : tv * Z) : Prop := v.1.1 = v.1.2 → v.2 ≠ 0.

Lemma lor_fold_zero l : foldr Z.lor 0 l = 0 → Forall (λ m, m = 0) l.
Proof. induction l as [|m l IH]; simpl; [done|]. intros [-> Hl]%Z.lor_eq_0_iff. auto. Qed.

Lemma fold_and_pos l : (foldr tv_and tv_true l).1 = forallb fst l ∧ (foldr tv_and tv_true l).2 = existsb snd l.
Proof. induction l as [|[a c] l [IH1 IH2]]; [done|]. simpl. by rewrite IH1, IH2. Qed.

Lemma fold_or_pos l : (foldr tv_or tv_false l).1 = existsb fst l ∧ (foldr tv_or tv_false l).2 = forallb snd l.
Proof. induction l as [|[a c] l [IH1 IH2]]; [done|]. simpl. by rewrite IH1, IH2. Qed.

(** Some component decides both projections when the fold is indefinite. *)
Lemma indefinite_all (l : list tv) :
  forallb fst l = existsb snd l → l = [] ∨ ∃ v, v ∈ l ∧ v.1 = v.2.
Proof.
  intros E. destruct l as [|v0 l0] eqn:El; [by left|right]. rewrite <-El in *. destruct (forallb fst l) eqn:Hf.
  - symmetry in E. apply existsb_exists in E as (v & Hin & Hv). rewrite forallb_forall in Hf. exists v.
    split; [by apply list_elem_of_In|]. by rewrite (Hf v Hin), Hv.
  - assert (∃ v, In v l ∧ v.1 = false) as (v & Hin & Hv).
    { clear -Hf. induction l as [|a l IH]; [done|]. simpl in Hf. destruct a.1 eqn:Ea.
      - destruct IH as (v & ? & ?); [done|]. exists v. simpl. auto.
      - exists a. simpl. auto. }
    exists v. split; [by apply list_elem_of_In|]. rewrite Hv. destruct v.2 eqn:Hv2; [|done].
    symmetry in E. assert (existsb snd l = true) by (apply existsb_exists; by exists v). congruence.
Qed.

Lemma indefinite_any (l : list tv) :
  existsb fst l = forallb snd l → l = [] ∨ ∃ v, v ∈ l ∧ v.1 = v.2.
Proof.
  intros E. destruct (indefinite_all (map tv_not l)) as [Hl|(v & Hin & Hv)].
  - assert (forallb fst (map tv_not l) = forallb snd l ∧ existsb snd (map tv_not l) = existsb fst l) as [-> ->]; [|done].
    clear. induction l as [|a l [IH1 IH2]]; [done|]. simpl. by rewrite IH1, IH2.
  - left. by destruct l.
  - right. apply list_elem_of_In, in_map_iff in Hin as (u & <- & Hu). exists u. split; [by apply list_elem_of_In|]. done.
Qed.

Lemma reasoned_fold (args : list (tv * Z)) :
  args ≠ [] → Forall reasoned args →
  reasoned (foldr tv_and tv_true (map fst args), foldr Z.lor 0 (map snd args)) ∧
  reasoned (foldr tv_or tv_false (map fst args), foldr Z.lor 0 (map snd args)).
Proof.
  intros Hne Hall. unfold reasoned. simpl.
  destruct (fold_and_pos (map fst args)) as [-> ->], (fold_or_pos (map fst args)) as [-> ->].
  assert (∀ v, v ∈ map fst args → v.1 = v.2 → foldr Z.lor 0 (map snd args) ≠ 0) as Hpick.
  { intros v Hin Hv Hz. apply list_elem_of_In, in_map_iff in Hin as (a & <- & Ha). rewrite <-list_elem_of_In in Ha.
    rewrite Forall_forall in Hall. apply lor_fold_zero in Hz. rewrite Forall_forall in Hz.
    apply (Hall a Ha Hv), Hz. apply list_elem_of_In, in_map_iff. exists a. split; [done|]. by apply list_elem_of_In. }
  split.
  - intros [Hl|(v & Hin & Hv)]%indefinite_all; [by destruct args|by eapply Hpick].
  - intros [Hl|(v & Hin & Hv)]%indefinite_any; [by destruct args|by eapply Hpick].
Qed.

Section reasoned.
Context (p : Program) (b : Batch) (reasons : list Z).
Context (Hs : sched_ok p) (Hre : reasons_ok p reasons) (Hev : usesEvidence p = true → evidence_ok b p).

Lemma predicateRow_reasoned row r : reasoned (predicateRow p b row r).
Proof.
  unfold reasoned, predicateRow. destruct (default (0, 0) _) as [kind column].
  destruct (colBit b _ _ r), (Opcodes p !!! row =? OpcodeDefined), (Opcodes p !!! row =? OpcodeExists); simpl; try done.
  by destruct (predicateMatches _ _ _ _ _ _ _).
Qed.

Lemma denote_reasoned i r : (i < length (Opcodes p))%nat → reasoned (denote p b reasons i r).
Proof.
  induction i as [i IH] using lt_wf_ind. intros Hi. unfold denote, instrValue.
  set (args := map _ (operandsOf p i)).
  assert (Forall reasoned args) as Hargs.
  { apply Forall_map, Forall_forall. intros o Ho. pose proof (sk_earlier _ Hs i o Hi Ho).
    rewrite denoteAll_lookup by lia. apply IH; lia. }
  destruct (sk_operands _ Hs i Hi) as (Ho1 & Ho2 & Ho3 & Hgrp & Hnot).
  assert (length args = Z.to_nat (OperandCounts p !!! i)) as Hla.
  { unfold args. rewrite length_map. unfold operandsOf. apply length_csr; lia. }
  unfold IsGroup in Hgrp.
  destruct (_ =? OpcodeBoolean); [unfold reasoned; simpl; by destruct (boolean _)|].
  destruct (Z.eqb_spec (Opcodes p !!! i) OpcodeEvidence) as [E|_].
  { pose proof (usesEvidence_at p i Hi E) as Hu.
    pose proof (evidenceRow_reason b p reasons (predicateAt p i) (Hev Hu) Hre r) as Hr.
    unfold reasoned. destruct (evidenceRow _ _ _ _) as [[pos neg] mask]. exact Hr. }
  destruct (_ =? OpcodeAll); [apply reasoned_fold; [|done]; intros Ea; rewrite Ea in Hla; simpl in Hla; specialize (Hgrp eq_refl); lia|].
  destruct (_ =? OpcodeAny); [apply reasoned_fold; [|done]; intros Ea; rewrite Ea in Hla; simpl in Hla; specialize (Hgrp eq_refl); lia|].
  destruct (Z.eqb_spec (Opcodes p !!! i) OpcodeNot) as [E|_]; [|apply predicateRow_reasoned].
  assert (reasoned (args !!! 0%nat)) as Ha by (apply Forall_lookup_total_1; [done|specialize (Hnot E); lia]).
  unfold reasoned in *. simpl. intros E'. by apply Ha.
Qed.
End reasoned.

(** ** Properties *)

(** In scratch slabs of the sizes the executor reserves, every slot number in
    range names a window inside its slab, windows of different slots share no word,
    and a slot number out of range panics instead of reading a foreign window. *)
Theorem slot_windows_disjoint (p : Program) (rows : Z) (tw rw : store) (s t : Z) :
  is_u32 rows → is_u32 (TruthSlotCount p) → is_u32 (ReasonSlotCount p) → 0 ≤ s →
  truthGood p rows tw → reasonGood p rows rw →
  (truthRange p s → ∃ planes, truthSlot p tw s rows = Ok planes ∧ planes_wf tw planes rows ∧
     (truthRange p t → t ≠ s → ∃ other, truthSlot p tw t rows = Ok other ∧ disjoint_planes planes other)) ∧
  (reasonRange p s → ∃ window, reasonSlot p rw s rows = Ok window ∧ in_bounds rw window ∧ len window = (9 * nwords rows)%nat ∧
     (reasonRange p t → t ≠ s → ∃ other, reasonSlot p rw t rows = Ok other ∧ disjoint_slices window other)) ∧
  (¬ truthRange p s → truthSlot p tw s rows = Panic "eval: invalid truth slot") ∧
  (¬ reasonRange p s → reasonSlot p rw s rows = Panic "eval: invalid reason slot").
Proof.
  intros Hr Ht Hre Hs0 Hgt Hgr. pose proof (conj Ht Hre) as Hc. split_and!.
  - intros Hs. destruct (truthSlot_ok p rows Hr Hc tw s Hgt Hs) as [-> Hwf]. eexists; split; [done|]. split; [done|].
    intros Hst Hne. destruct (truthSlot_ok p rows Hr Hc tw t Hgt Hst) as [-> _]. eexists; split; [done|].
    by apply (tplanes_disjoint p).
  - intros Hs. destruct (reasonSlot_ok p rows Hr Hc rw s Hgr Hs) as (-> & Hb & Hl). eexists; split; [done|]. split; [done|]. split; [done|].
    intros Hst Hne. destruct (reasonSlot_ok p rows Hr Hc rw t Hgr Hst) as [-> _]. eexists; split; [done|].
    by apply (rslice_disjoint p).
  - unfold truthRange, truthSlot. intros Hs. destruct (Z.eqb_spec s 0) as [->|]; [done|]. by rewrite (proj2 (Z.ltb_lt (TruthSlotCount p) s)) by lia.
  - unfold reasonRange, reasonSlot. intros Hs. destruct (Z.eqb_spec s 0) as [->|]; [done|]. by rewrite (proj2 (Z.ltb_lt (ReasonSlotCount p) s)) by lia.
Qed.

(** C4: when every operand is still in its slot as its consumer runs, the schedule
    loop of any mode and SIMD backend runs to the end without a panic, and each
    instruction whose slots are not reused afterwards holds, on every request row,
    the truth value and the reasons of the instruction graph's denotation. *)
Theorem schedule_computes_denotation {ops : SimdOps} {laws : SimdLaws ops} (p : Program) (b : Batch) (env : ExecEnv)
    (mode : executionMode) (st : ExecState) :
  exec_ok p b env → noninterfering p → truthGood p (Rows b) (truthWords st) → reasonGood p (Rows b) (reasonWords st) →
  ∃ st', executeScheduleMode env p b mode st = Ok st' ∧
    ∀ i r, (i < length (Opcodes p))%nat → Z.of_nat r < Rows b →
      let v := denote p b (stateReasons (states env)) i r in
      (keeps (TruthSlots p) i (length (Opcodes p)) → readTruth (Rows b) (truthWords st') (TruthSlots p !!! i) r = v.1) ∧
      (keeps (ReasonSlots p) i (length (Opcodes p)) → ∀ reason, validReason reason →
         readReason (Rows b) (reasonWords st') (ReasonSlots p !!! i) (reason, r) = Has v.2 reason).
Proof.
  intros Hx Hni Ht Hr. destruct (executeSchedule_inv p b env mode Hx st Hni (conj Ht Hr)) as (st' & HE & _ & Hit & Hir).
  exists st'. split; [done|]. intros i r Hi Hrow v. split.
  - intros Hk. by apply Hit.
  - intros Hk reason Hv. by apply (Hir i Hi Hk (reason, r)).
Qed.

(** On a valid schedule an instruction value that is neither plainly true nor
    plainly false carries a reason, so finalization always has one to resolve. *)
Theorem indefinite_values_have_reasons (p : Program) (b : Batch) (reasons : list Z) (i r : nat) :
  sched_typed p → validExecutionSchedule p = true → reasons_ok p reasons → (usesEvidence p = true → evidence_ok b p) →
  (i < length (Opcodes p))%nat →
  (denote p b reasons i r).1 = (true, true) ∨ (denote p b reasons i r).1 = (false, false) → (denote p b reasons i r).2 ≠ 0.
Proof.
  intros Ht Hv Hre Hev Hi Hind. apply (denote_reasoned p b reasons (validExecutionSchedule_ok p Ht Hv) Hre Hev i r Hi).
  by destruct Hind as [-> | ->].
Qed.
