(* ===== verification/PolicyIndex.v ===== *)
(** * Applicability index: [internal/index/policy.go], [query.go], [schema.go]

    Positive symbol restrictions on requirements become, per selector field, a
    sorted value list with one requirement bitmap per value and one wildcard
    bitmap.  [Build] constructs the bitmaps, [Bind] validates them and
    [Candidates] intersects the bitmaps of the present selectors.  The theorems
    characterise the candidate set exactly: a requirement stays a candidate
    when each of its restrictions on a present field lists the field's value. *)

From stdpp Require Import sorting.
From S2P Require Import Prelude Store Truth Schema Program Simd FactIndex.
#[local] Open Scope Z_scope.

(** ** Field schema (schema.go) *)

(** [BuildSchema]: kind-local columns in FieldID order. *)
Definition BuildSchema (kinds : list Z) : go IndexSchema :=
  check (zlen kinds <=? MaxUint32) ErrIndexTooLarge ;;
  counts ← fold_go (λ kind counts,
    check (KindValid kind) ErrInvalidSchema ;;
    c ← at_ counts kind;
    Ok (<[Z.to_nat kind := u32 (c + 1)]> counts)) kinds (make_ 6);
  '(columns, _) ← fold_go (λ kind st,
    let '(columns, next) := st in
    c ← at_ next kind;
    Ok (columns ++ [c], <[Z.to_nat kind := u32 (c + 1)]> next)) kinds ([], make_ 6);
  Ok {| sKinds := kinds; sColumns := columns; sCounts := counts |}.

Definition ColumnCount (s : IndexSchema) (kind : Z) : option Z :=
  if KindValid kind then Some (sCounts s !!! Z.to_nat kind) else None.

(** ** Constraints and their canonical form (policy.go) *)

Record Constraints := {
  cnRows : list Z; cnFields : list Z; cnValueStarts : list Z; cnValueCounts : list Z; cnValues : list Z
}.

Definition validConstraint (requirementCount : Z) (c : Constraints) (row : nat) : bool :=
  negb ((requirementCount <=? cnRows c !!! row) || (cnFields c !!! row =? 0) || (cnValueCounts c !!! row =? 0)) &&
  let start := cnValueStarts c !!! row in
  let end_ := u64 (start + cnValueCounts c !!! row) in
  negb (zlen (cnValues c) <? end_) &&
  forallb (λ value, negb (value =? 0)) (csr (cnValues c) start (end_ - start)).

Definition validateConstraints (requirementCount : Z) (c : Constraints) : go unit :=
  let n := length (cnRows c) in
  check (bool_decide (length (cnFields c) = n ∧ length (cnValueStarts c) = n ∧ length (cnValueCounts c) = n)) ErrInvalidPolicy ;;
  check (negb ((MaxUint32 <? Z.of_nat n) || (MaxUint32 <? zlen (cnValues c)) || (MaxInt <? requirementCount))) ErrIndexTooLarge ;;
  check (forallb (validConstraint requirementCount c) (seq 0 n)) ErrInvalidPolicy.

(** [compactFields] and [compactSymbols]: drop adjacent duplicates. *)
Definition compact (l : list Z) : list Z :=
  match l with
  | [] => []
  | x :: rest => foldl (λ out y, if bool_decide (last out = Some y) then out else out ++ [y]) [x] rest
  end.

Definition policyWordCount (requirementCount : Z) : Z := Z.shiftr (u64 (requirementCount + 63)) 6.

(** [slices.Sort]. *)
Definition sortZ (l : list Z) : list Z := merge_sort Z.le l.

(** The values of one constraint. *)
Definition constraintValues (c : Constraints) (k : nat) : list Z := csr (cnValues c) (cnValueStarts c !!! k) (cnValueCounts c !!! k).

(** Each requirement constrains a field at most once. *)
Definition checkField (requirementCount : Z) (c : Constraints) (field : Z) : go unit :=
  _ ← for_range (length (cnFields c)) (λ row marks,
        f ← at_ (cnFields c) (Z.of_nat row);
        if negb (f =? field) then Ok marks else
        q ← at_ (cnRows c) (Z.of_nat row);
        mark ← at_ marks q;
        check (mark =? 0) ErrInvalidPolicy ;;
        Ok (<[Z.to_nat q := 1]> marks)) (make_ requirementCount);
  Ok tt.

(** The values of one field appended to the scratch prefix [acc]: [copy] stops
    at the scratch's length, then the field's segment is sorted and compacted. *)
Definition collectField (c : Constraints) (field : Z) (acc : list Z) : go (list Z * Z * Z) :=
  let start := length acc in
  acc ← for_range (length (cnFields c)) (λ k acc,
          f ← at_ (cnFields c) (Z.of_nat k);
          if negb (f =? field) then Ok acc else
          valueStart ← at_ (cnValueStarts c) (Z.of_nat k);
          valueCount ← at_ (cnValueCounts c) (Z.of_nat k);
          vs ← slice_ (cnValues c) valueStart (valueStart + valueCount);
          Ok (acc ++ take (length (cnValues c) - length acc) vs)) acc;
  let fieldValues := compact (sortZ (drop start acc)) in
  Ok (take start acc ++ fieldValues, Z.of_nat start, zlen fieldValues).

Definition allMaskOf (requirementCount wordCount : Z) : go (list Z) :=
  let all := replicate (Z.to_nat wordCount) MaxUint64 in
  let remainder := Z.land requirementCount 63 in
  if remainder =? 0 then Ok all else
  _ ← at_ all (wordCount - 1);
  Ok (<[Z.to_nat (wordCount - 1) := bit64 remainder - 1]> all).

(** One constraint applied to the wildcard and value masks. *)
Definition applyConstraint (c : Constraints) (fieldIDs starts counts vals : list Z) (wordCount : Z) (k : nat)
    (st : list Z * list Z) : go (list Z * list Z) :=
  let '(wild, masks) := st in
  field ← at_ (cnFields c) (Z.of_nat k);
  let '(fieldRow, found) := BinarySearch fieldIDs field in
  require found "index: canonical field disappeared" ;;
  q ← at_ (cnRows c) (Z.of_nat k);
  let word := Z.shiftr q 6 in
  let bit := bit64 (Z.land q 63) in
  let wi := Z.of_nat fieldRow * wordCount + word in
  ww ← at_ wild wi;
  let wild := <[Z.to_nat wi := Z.ldiff ww bit]> wild in
  fieldStart ← at_ starts (Z.of_nat fieldRow);
  fieldCount ← at_ counts (Z.of_nat fieldRow);
  valueStart ← at_ (cnValueStarts c) (Z.of_nat k);
  valueCount ← at_ (cnValueCounts c) (Z.of_nat k);
  vs ← slice_ (cnValues c) valueStart (valueStart + valueCount);
  masks ← fold_go (λ value masks,
    segment ← slice_ vals fieldStart (fieldStart + fieldCount);
    let '(relative, found) := BinarySearch segment value in
    require found "index: canonical value disappeared" ;;
    let mi := (fieldStart + Z.of_nat relative) * wordCount + word in
    w ← at_ masks mi;
    Ok (<[Z.to_nat mi := Z.lor w bit]> masks)) vs masks;
  Ok (wild, masks).

(** Wildcard requirements are candidates for every value of the field. *)
Definition mergeWildcards (starts counts : list Z) (wordCount : nat) (wild : list Z) (fieldRow : nat) (masks : list Z) : go (list Z) :=
  valueStart ← at_ starts (Z.of_nat fieldRow);
  valueCount ← at_ counts (Z.of_nat fieldRow);
  Ok (foldl (λ masks i,
        let s := Slice ((Z.to_nat valueStart + i) * wordCount) wordCount in
        blit s (zip_with Z.lor (view masks s) (view wild (Slice (fieldRow * wordCount) wordCount))) masks)
      masks (seq 0 (Z.to_nat valueCount))).

(** [PolicyBuilder.Build]. *)
Definition Build (requirementCount : Z) (c : Constraints) : go Policy :=
  validateConstraints requirementCount c ;;
  let n := length (cnFields c) in
  let fields := compact (sortZ (cnFields c)) in
  let words := policyWordCount requirementCount in
  check (negb ((MaxInt <? u64 (zlen fields * words)) || (MaxInt <? u64 (zlen (cnValues c) * words)))) ErrIndexTooLarge ;;
  _ ← map_go (checkField requirementCount c) fields;
  '(vals, starts, counts) ← fold_go (λ field st,
      let '(acc, starts, counts) := st in
      '(acc, start, count) ← collectField c field acc;
      Ok (acc, starts ++ [u32 start], counts ++ [u32 count])) fields ([], [], []);
  all ← allMaskOf requirementCount words;
  '(wild, masks) ← for_range n (applyConstraint c fields starts counts vals words)
      (concat (replicate (length fields) all), make_ (zlen vals * words));
  masks ← for_range (length fields) (mergeWildcards starts counts (Z.to_nat words) wild) masks;
  Ok {| pFieldIDs := fields; FieldValueStarts := starts; FieldValueCounts := counts; WildcardMasks := wild;
        pValues := vals; ValueMasks := masks; AllMask := all; RequirementCount := requirementCount; pWordCount := u32 words |}.

(** ** Queries (query.go) *)

Definition validBoundField (p : Policy) (i : nat) : bool :=
  let start := FieldValueStarts p !!! i in
  let count := FieldValueCounts p !!! i in
  let prev := (i - 1)%nat in
  negb ((pFieldIDs p !!! i =? 0) || (negb (bool_decide (i = 0%nat)) && (pFieldIDs p !!! i <=? pFieldIDs p !!! prev))) &&
  negb ((count =? 0) || (u64 (start + count) <? start) || (zlen (pValues p) <? u64 (start + count)) ||
        (bool_decide (i = 0%nat) && negb (start =? 0)) ||
        (negb (bool_decide (i = 0%nat)) && negb (start =? u64 (FieldValueStarts p !!! prev + FieldValueCounts p !!! prev)))) &&
  let vs := csr (pValues p) start count in
  forallb (λ r, negb ((vs !!! r =? 0) || (negb (bool_decide (r = 0%nat)) && (vs !!! r <=? vs !!! (r - 1)%nat)))) (seq 0 (length vs)).

Definition validBoundPolicy (p : Policy) : bool :=
  let words := pWordCount p in
  let nf := length (pFieldIDs p) in
  (words =? u32 (policyWordCount (RequirementCount p))) && (zlen (AllMask p) =? words) &&
  bool_decide (length (FieldValueStarts p) = nf ∧ length (FieldValueCounts p) = nf) &&
  negb ((negb (Z.of_nat nf =? 0) && (MaxUint64 / Z.of_nat nf <? words)) ||
        (negb (zlen (pValues p) =? 0) && (MaxUint64 / zlen (pValues p) <? words)) ||
        negb (zlen (WildcardMasks p) =? u64 (Z.of_nat nf * words)) || negb (zlen (ValueMasks p) =? u64 (zlen (pValues p) * words))) &&
  forallb (λ word,
    AllMask p !!! word =?
      (if bool_decide (S word = length (AllMask p)) && negb (Z.land (RequirementCount p) 63 =? 0)
       then bit64 (Z.land (RequirementCount p) 63) - 1 else MaxUint64)) (seq 0 (length (AllMask p))) &&
  forallb (validBoundField p) (seq 0 nf) &&
  (if bool_decide (nf = 0%nat) then zlen (pValues p) =? 0
   else u64 (FieldValueStarts p !!! (nf - 1)%nat + FieldValueCounts p !!! (nf - 1)%nat) =? zlen (pValues p)) &&
  forallb (λ word,
    forallb (λ f, Z.ldiff (WildcardMasks p !!! (f * Z.to_nat words + word)%nat) (AllMask p !!! word) =? 0) (seq 0 nf) &&
    forallb (λ v, Z.ldiff (ValueMasks p !!! (v * Z.to_nat words + word)%nat) (AllMask p !!! word) =? 0)
      (seq 0 (length (pValues p)))) (seq 0 (length (AllMask p))).

(** [Query.Bind]: [bound] is the address of the policy bound before. *)
Definition QueryBind (bound : option Z) (addr : Z) (p : Policy) : go (option Z) :=
  if bool_decide (bound = Some addr) then Ok bound else
  check (validBoundPolicy p) ErrInvalidPolicy ;;
  Ok (Some addr).

(** The mask one present selector contributes. *)
Definition selectorMask (p : Policy) (fieldRow : nat) (value : Z) : go (list Z) :=
  valueStart ← at_ (FieldValueStarts p) (Z.of_nat fieldRow);
  valueCount ← at_ (FieldValueCounts p) (Z.of_nat fieldRow);
  vs ← slice_ (pValues p) valueStart (valueStart + valueCount);
  let '(relative, found) := BinarySearch vs value in
  let words := pWordCount p in
  if found : bool then slice_ (ValueMasks p) ((valueStart + Z.of_nat relative) * words) ((valueStart + Z.of_nat relative + 1) * words)
  else slice_ (WildcardMasks p) (Z.of_nat fieldRow * words) ((Z.of_nat fieldRow + 1) * words).

(** [Query.Candidates] on the bound policy; the boolean of the loop state
    records the early return on an empty candidate set. *)
Definition Candidates (p : Policy) (dst values present : list Z) : go (list Z) :=
  check ((zlen dst =? pWordCount p) && bool_decide (length values = length (pFieldIDs p)) &&
         bool_decide (length present = length (pFieldIDs p))) ErrInvalidQuery ;;
  let n := Nat.min (length dst) (length (AllMask p)) in
  '(dst, _) ← for_range (length (pFieldIDs p)) (λ fieldRow st,
      let '(dst, stop) := st in
      if stop : bool then Ok st else
      pr ← at_ present (Z.of_nat fieldRow);
      if pr =? 0 then Ok st else
      value ← at_ values (Z.of_nat fieldRow);
      mask ← selectorMask p fieldRow value;
      let dst := zip_with Z.land dst mask in
      Ok (dst, forallb (λ w, w =? 0) dst)) (take n (AllMask p) ++ drop n dst, false);
  Ok dst.

(** ** A bound policy answers every query *)

Record policy_typed (p : Policy) : Prop := {
  pt_count : is_u32 (RequirementCount p); pt_words : is_u32 (pWordCount p);
  pt_starts : Forall is_u32 (FieldValueStarts p); pt_counts : Forall is_u32 (FieldValueCounts p);
  pt_fields : zlen (pFieldIDs p) < 2 ^ 32; pt_values : zlen (pValues p) < 2 ^ 32
}.

(** The sorted values of a field row. *)
Definition policyValues (p : Policy) (f : nat) : list Z := csr (pValues p) (FieldValueStarts p !!! f) (FieldValueCounts p !!! f).

Record bound_ok (p : Policy) : Prop := {
  bo_words : pWordCount p = WordCount (RequirementCount p);
  bo_all : length (AllMask p) = nwords (RequirementCount p) ∧
    ∀ q, (q < 64 * nwords (RequirementCount p))%nat → rowBit (AllMask p) q = tailKeep (RequirementCount p) q;
  bo_lens : length (FieldValueStarts p) = length (pFieldIDs p) ∧ length (FieldValueCounts p) = length (pFieldIDs p);
  bo_wild : length (WildcardMasks p) = (length (pFieldIDs p) * nwords (RequirementCount p))%nat;
  bo_masks : length (ValueMasks p) = (length (pValues p) * nwords (RequirementCount p))%nat;
  bo_range f : (f < length (pFieldIDs p))%nat →
    0 ≤ FieldValueStarts p !!! f ∧ 0 < FieldValueCounts p !!! f ∧
    FieldValueStarts p !!! f + FieldValueCounts p !!! f ≤ zlen (pValues p);
  bo_values f : (f < length (pFieldIDs p))%nat → increasing (policyValues p f)
}.

Lemma policyWordCount_eq n : policyWordCount n = WordCount n.
Proof. done. Qed.

Lemma AllMask_bits (all : list Z) n :
  is_u32 n → length all = nwords n →
  (∀ word, (word < length all)%nat → all !!! word =
     if bool_decide (S word = length all) && negb (Z.land n 63 =? 0) then bit64 (Z.land n 63) - 1 else MaxUint64) →
  ∀ q, (q < 64 * nwords n)%nat → rowBit all q = tailKeep n q.
Proof.
  intros Hn Hl Hw q Hq. pose proof (row_split q) as [Eq Hj]. unfold rowBit. rewrite Hw by lia. rewrite land_63.
  destruct (bool_decide_reflect (S (q `div` 64) = length all)%nat) as [Hlast|Hlast], (Z.eqb_spec (n mod 64) 0) as [Hz|Hz]; simpl.
  - rewrite testbit_ones64 by lia. symmetry. apply full_row; [done|]. right. lia.
  - pose proof (Z.mod_pos_bound n 64). rewrite testbit_lowmask by lia. apply tail_row; [done|done|lia].
  - rewrite testbit_ones64 by lia. symmetry. apply full_row; [done|]. left. lia.
  - rewrite testbit_ones64 by lia. symmetry. apply full_row; [done|]. left. lia.
Qed.

Lemma validBoundField_inv p i :
  Forall is_u32 (FieldValueStarts p) → Forall is_u32 (FieldValueCounts p) →
  (i < length (FieldValueStarts p))%nat → (i < length (FieldValueCounts p))%nat → validBoundField p i = true →
  (0 ≤ FieldValueStarts p !!! i ∧ 0 < FieldValueCounts p !!! i ∧
   FieldValueStarts p !!! i + FieldValueCounts p !!! i ≤ zlen (pValues p)) ∧ increasing (policyValues p i).
Proof.
  intros Hs Hc Hi1 Hi2. unfold validBoundField.
  assert (is_u32 (FieldValueStarts p !!! i) ∧ is_u32 (FieldValueCounts p !!! i)) as [U1 U2] by (split; by apply Forall_lookup_total_1).
  unfold is_u32 in *. rewrite u64_small by (unfold is_u64; lia).
  rewrite !andb_true_iff, !negb_true_iff, !orb_false_iff, Z.eqb_neq, Z.ltb_ge, !Z.eqb_neq, Z.ltb_ge, forallb_forall.
  intros [[_ ((((Hc0 & _) & Hend) & _) & _)] Hv].
  fold (policyValues p i) in Hv.
  assert (length (policyValues p i) = Z.to_nat (FieldValueCounts p !!! i)) as Hl by (apply length_csr; lia).
  split; [lia|]. apply adjacent_increasing. intros k Hk. specialize (Hv (S k)). rewrite in_seq in Hv. specialize (Hv ltac:(lia)).
  rewrite negb_true_iff, orb_false_iff, andb_false_iff, negb_false_iff, bool_decide_eq_true, Z.leb_gt in Hv.
  destruct Hv as [_ [?|Hv]]; [done|]. by replace (S k - 1)%nat with k in Hv by lia.
Qed.

Lemma no_wrap n words : 0 ≤ n → 0 ≤ words →
  negb (n =? 0) && (MaxUint64 / n <? words) = false → u64 (n * words) = n * words.
Proof.
  intros Hn Hw. rewrite andb_false_iff, negb_false_iff, Z.eqb_eq, Z.ltb_ge. intros Hov. apply u64_small. unfold is_u64.
  destruct Hov as [->|Hov]; [lia|]. split; [nia|].
  destruct (decide (n = 0)) as [->|]; [lia|]. pose proof (Z.mul_div_le MaxUint64 n). unfold MaxUint64 in *. nia.
Qed.

Lemma validBoundPolicy_ok p : policy_typed p → validBoundPolicy p = true → bound_ok p.
Proof.
  intros [Hn Hwd Hs Hc Hf Hv]. unfold validBoundPolicy. rewrite !andb_true_iff.
  intros [[[[[[[Hw Hal] Hlens] Hsz] Hall] Hfields] _] _].
  apply Z.eqb_eq in Hw, Hal. apply bool_decide_eq_true in Hlens as [Hl1 Hl2].
  destruct (WordCount_bounds _ Hn) as (Hw0 & _ & Hw2). rewrite policyWordCount_eq, u32_small in Hw by (unfold is_u32 in *; lia).
  rewrite negb_true_iff, !orb_false_iff, !negb_false_iff, !Z.eqb_eq in Hsz. destruct Hsz as [[[Ho1 Ho2] Hwl] Hml].
  rewrite no_wrap in Hwl, Hml by (done || lia). rewrite forallb_forall in Hall, Hfields.
  assert (∀ f, (f < length (pFieldIDs p))%nat → _) as Hfi
    by (intros f Hlt; exact (validBoundField_inv p f Hs Hc ltac:(lia) ltac:(lia) (Hfields f ltac:(apply in_seq; lia)))).
  split.
  - done.
  - split; [lia|]. apply AllMask_bits; [done|lia|]. intros word Hlt. specialize (Hall word). rewrite in_seq in Hall.
    apply Z.eqb_eq, Hall. lia.
  - done.
  - apply Nat2Z.inj. rewrite Hwl, Hw, Nat2Z.inj_mul, Z2Nat.id; done.
  - apply Nat2Z.inj. rewrite Hml, Hw, Nat2Z.inj_mul, Z2Nat.id; done.
  - intros f Hlt. apply (Hfi f Hlt).
  - intros f Hlt. apply (Hfi f Hlt).
Qed.

(** Requirement [q] passes selector field row [f] at [value]. *)
Definition selects (p : Policy) (f : nat) (value : Z) (q : nat) : bool :=
  let words := nwords (RequirementCount p) in
  let '(relative, found) := BinarySearch (policyValues p f) value in
  if found : bool then rowBit (ValueMasks p) (64 * ((Z.to_nat (FieldValueStarts p !!! f) + relative) * words) + q)
  else rowBit (WildcardMasks p) (64 * (f * words) + q).

Definition candidate (p : Policy) (values present : list Z) (q : nat) : bool :=
  tailKeep (RequirementCount p) q &&
  forallb (λ f, (present !!! f =? 0) || selects p f (values !!! f) q) (seq 0 (length (pFieldIDs p))).

Lemma csr_plane (l : list Z) (words v : nat) q (k : Z) :
  k = Z.of_nat (v * words) → (q < 64 * words)%nat →
  rowBit (csr l k (Z.of_nat words)) q = rowBit l (64 * (v * words) + q).
Proof.
  intros -> Hq. unfold rowBit. pose proof (row_split q). destruct (plane_index words v q) as [-> ->].
  rewrite csr_lookup_total by lia. by rewrite Nat2Z.id.
Qed.

Section query.
Context (p : Policy) (Hp : policy_typed p) (Hok : bound_ok p).

Local Abbreviation words := (nwords (RequirementCount p)).

Lemma words_Z : pWordCount p = Z.of_nat words.
Proof. destruct (WordCount_bounds _ (pt_count _ Hp)). rewrite (bo_words _ Hok). lia. Qed.

Lemma selectorMask_ok f value : (f < length (pFieldIDs p))%nat →
  ∃ mask, selectorMask p f value = Ok mask ∧ length mask = words ∧
    ∀ q, (q < 64 * words)%nat → rowBit mask q = selects p f value q.
Proof.
  intros Hf. destruct (bo_lens _ Hok) as [Hl1 Hl2]. destruct (bo_range _ Hok f Hf) as (Hs & Hc & Hend).
  unfold selectorMask, selects. rewrite !at_total by lia. rewrite !Nat2Z.id. simpl. rewrite slice_csr by lia. simpl.
  fold (policyValues p f). pose proof (bo_masks _ Hok) as Hm. pose proof (bo_wild _ Hok) as Hw.
  destruct (BinarySearch (policyValues p f) value) as [rel []] eqn:E.
  - apply BinarySearch_found in E as [Hrel _]. unfold policyValues in Hrel. rewrite length_csr in Hrel by lia.
    set (v := (Z.to_nat (FieldValueStarts p !!! f) + rel)%nat).
    assert ((FieldValueStarts p !!! f + Z.of_nat rel) * pWordCount p = Z.of_nat (v * words)) as E1 by (rewrite words_Z; unfold v; nia).
    assert ((FieldValueStarts p !!! f + Z.of_nat rel + 1) * pWordCount p = Z.of_nat (v * words) + Z.of_nat words) as E2
      by (rewrite words_Z; unfold v; nia).
    rewrite E1, E2. assert (v * words + words ≤ length (ValueMasks p))%nat as Hb.
    { rewrite Hm. transitivity (S v * words)%nat; [lia|]. apply Nat.mul_le_mono_r. unfold v. lia. }
    rewrite slice_csr by lia. eexists; split; [done|]. split; [rewrite length_csr; lia|].
    intros q Hq. by apply csr_plane.
  - rewrite words_Z. replace ((Z.of_nat f + 1) * Z.of_nat words) with (Z.of_nat f * Z.of_nat words + Z.of_nat words) by ring.
    assert (f * words + words ≤ length (WildcardMasks p))%nat as Hb.
    { rewrite Hw. transitivity (S f * words)%nat; [lia|]. apply Nat.mul_le_mono_r. lia. }
    rewrite <-Nat2Z.inj_mul. rewrite slice_csr by lia. eexists; split; [done|]. split; [rewrite length_csr; lia|].
    intros q Hq. by apply csr_plane.
Qed.

Lemma zero_mask (l : list Z) : forallb (λ w, w =? 0) l = true → ∀ q, (q < 64 * length l)%nat → rowBit l q = false.
Proof.
  intros Hz q Hq. unfold rowBit. pose proof (row_split q).
  rewrite forallb_forall in Hz. specialize (Hz (l !!! (q `div` 64)%nat)).
  rewrite (proj1 (Z.eqb_eq _ _) (Hz ltac:(apply list_elem_of_In, list_elem_of_lookup_total_2; lia))). apply Z.testbit_0_l.
Qed.

Lemma Candidates_bits dst values present :
  length dst = words → length values = length (pFieldIDs p) → length present = length (pFieldIDs p) →
  ∃ out, Candidates p dst values present = Ok out ∧ length out = words ∧
    ∀ q, (q < 64 * words)%nat → rowBit out q = candidate p values present q.
Proof.
  intros Hd Hv Hpr. destruct (bo_all _ Hok) as [Hla Hall]. unfold Candidates.
  rewrite words_Z, !bool_decide_eq_true_2, (proj2 (Z.eqb_eq _ _)) by (done || lia). simpl.
  rewrite Hd, Hla, Nat.min_id, take_ge, drop_ge, app_nil_r by lia.
  edestruct (for_range_total (λ i (st : list Z * bool), length st.1 = words ∧
    (∀ q, (q < 64 * words)%nat → rowBit st.1 q = tailKeep (RequirementCount p) q &&
       forallb (λ f, (present !!! f =? 0) || selects p f (values !!! f) q) (seq 0 i)) ∧
    (st.2 = true → ∀ q, (q < 64 * words)%nat → rowBit st.1 q = false)) (length (pFieldIDs p)))
    as ([out stop] & Hout & Hl & Hbits & _).
  3: { rewrite Hout. simpl. exists out. split; [done|]. split; [done|]. done. }
  - simpl. split; [done|]. split; [|done]. intros q Hq. rewrite andb_true_r. by apply Hall.
  - intros i [cur stop] Hi (Hl & Hbits & Hstop). simpl in Hl, Hbits, Hstop.
    assert (∀ q, forallb (λ f, (present !!! f =? 0) || selects p f (values !!! f) q) (seq 0 (S i)) =
      forallb (λ f, (present !!! f =? 0) || selects p f (values !!! f) q) (seq 0 i) && ((present !!! i =? 0) || selects p i (values !!! i) q)) as Hseq.
    { intros q. rewrite seq_S, forallb_app. simpl. by rewrite andb_true_r. }
    destruct stop.
    + eexists; split; [done|]. split; [done|]. split; [|done]. intros q Hq. rewrite Hseq, andb_assoc, <-Hbits by done.
      simpl. by rewrite (Hstop eq_refl q Hq).
    + rewrite (at_total present) by lia. rewrite go_bind_Ok, Nat2Z.id. destruct (present !!! i =? 0) eqn:Ep.
      * eexists; split; [done|]. split; [done|]. split; [|done]. intros q Hq. rewrite Hseq, ?Ep. simpl. rewrite andb_true_r. by apply Hbits.
      * rewrite at_total by lia. rewrite go_bind_Ok, Nat2Z.id.
        destruct (selectorMask_ok i (values !!! i) Hi) as (mask & -> & Hlm & Hm). rewrite go_bind_Ok.
        eexists; split; [done|]. cbn [fst snd]. rewrite length_zip_with. split; [lia|]. split.
        -- intros q Hq. rewrite (rowBit_zip_with Z.land andb) by ((intros; apply Z.land_spec) || lia).
           rewrite Hbits, Hm, Hseq, ?Ep, andb_assoc by done. done.
        -- intros Hz q Hq. apply zero_mask; [done|]. rewrite length_zip_with. lia.
Qed.
End query.

(** ** Properties *)

(** On a policy index that binding accepts, a query of the right shape never
    fails and returns exactly the candidate set: requirement [q] is kept when, for
    every selector field present in the request, the mask of the request's value
    (or the wildcard mask for an unlisted value) contains it; bits beyond the
    requirement count are never set. *)
Theorem candidates_exact (p : Policy) (dst values present : list Z) :
  policy_typed p → validBoundPolicy p = true →
  length dst = nwords (RequirementCount p) → length values = length (pFieldIDs p) → length present = length (pFieldIDs p) →
  ∃ out, Candidates p dst values present = Ok out ∧ length out = length dst ∧
    ∀ q, (q < 64 * nwords (RequirementCount p))%nat → rowBit out q = candidate p values present q.
Proof.
  intros Hp Hv Hd Hvs Hpr. rewrite Hd. apply Candidates_bits; try done. by apply validBoundPolicy_ok.
Qed.

