(* ===== verification/PolicyBuild.v ===== *)
(** * What [PolicyBuilder.Build] constructs
    The constraints of index/policy.go in bitmap form.  Every constraint restricts
    one requirement to a list of symbols of one field.  The theorem about [Build]
    states that the bitmaps answer queries exactly as the constraints do: a
    requirement stays a candidate when every constraint it has on a present field
    lists the field's value.  The values of different constraints must not overlap,
    since the builder's scratch holds only as many values as are supplied. *)

From stdpp Require Import sorting.
From S2P Require Import Prelude Store Truth Schema Program Simd FactIndex PolicyIndex.
#[local] Open Scope Z_scope.

(** ** Sorted lists without duplicates *)

Lemma increasing_snoc l y : increasing l → (∀ x, x ∈ l → x < y) → increasing (l ++ [y]).
Proof.
  intros Hl Hy i j Hij Hj. rewrite length_app in Hj. simpl in Hj. rewrite (lookup_total_app_l _ _ i) by lia.
  destruct (decide (j < length l)%nat) as [Hlt|].
  - rewrite lookup_total_app_l by done. by apply Hl.
  - replace j with (length l) by lia. rewrite lookup_total_app_r by lia. rewrite Nat.sub_diag. simpl.
    apply Hy. apply list_elem_of_lookup_total_2. lia.
Qed.

(** The loop of [compact]: [z] is the last entry written. *)
Lemma compact_loop rest out z :
  Sorted Z.le (z :: rest) → increasing out → last out = Some z → (∀ x, x ∈ out → x ≤ z) →
  let out' := foldl (λ out y, if bool_decide (last out = Some y) then out else out ++ [y]) out rest in
  increasing out' ∧ (∀ x, x ∈ out' ↔ x ∈ out ∨ x ∈ rest) ∧ (length out' ≤ length out + length rest)%nat.
Proof.
  revert out z. induction rest as [|y rest IH]; intros out z Hs Hi Hlast Hle; simpl.
  { split; [done|]. split; [set_solver|lia]. }
  apply Sorted_inv in Hs as [Hs Hzy%HdRel_inv].
  destruct (bool_decide_reflect (last out = Some y)) as [E|E].
  - rewrite Hlast in E. simplify_eq. destruct (IH out y Hs Hi Hlast Hle) as (H1 & H2 & H3). split; [done|].
    split; [|simpl in *; lia]. intros x. rewrite H2. assert (y ∈ out) by (by apply last_Some_elem_of). set_solver.
  - assert (z < y) by (assert (z ≠ y) by congruence; lia).
    destruct (IH (out ++ [y]) y Hs) as (H1 & H2 & H3).
    + apply increasing_snoc; [done|]. intros x Hx%Hle. lia.
    + by rewrite last_snoc.
    + intros x [Hx%Hle|Hx%list_elem_of_singleton]%elem_of_app; lia.
    + split; [done|]. split; [intros x; rewrite H2; set_solver|]. rewrite length_app in H3. simpl in *. lia.
Qed.

Lemma compact_sorted l :
  Sorted Z.le l → increasing (compact l) ∧ (∀ x, x ∈ compact l ↔ x ∈ l) ∧ (length (compact l) ≤ length l)%nat.
Proof.
  destruct l as [|z rest]; intros Hs; simpl.
  { split; [intros i j _ Hj; simpl in Hj; lia|]. split; [set_solver|lia]. }
  destruct (compact_loop rest [z] z Hs) as (H1 & H2 & H3).
  - intros i j ? Hj. simpl in Hj. lia.
  - done.
  - intros x Hx%list_elem_of_singleton. lia.
  - split; [done|]. split; [intros x; rewrite H2; set_solver|simpl in *; lia].
Qed.

(** The distinct entries of a list in ascending order. *)
Lemma distinct_sorted l :
  let k := compact (sortZ l) in increasing k ∧ (∀ x, x ∈ k ↔ x ∈ l) ∧ (length k ≤ length l)%nat.
Proof.
  unfold sortZ. destruct (compact_sorted (merge_sort Z.le l)) as (H1 & H2 & H3); [apply Sorted_merge_sort, _|].
  pose proof (merge_sort_Permutation Z.le l) as Hp. split; [done|]. split; [intros x; by rewrite H2, Hp|by rewrite <-Hp at 2].
Qed.

Lemma increasing_NoDup l : increasing l → NoDup l.
Proof.
  intros Hi. apply NoDup_alt. intros i j x Hx Hy. pose proof (lookup_lt_Some _ _ _ Hx). pose proof (lookup_lt_Some _ _ _ Hy).
  apply (increasing_inj l); [done..|]. by rewrite (list_lookup_total_correct _ _ _ Hx), (list_lookup_total_correct _ _ _ Hy).
Qed.

(** ** Planes of a bitmap slab *)

(** Overwriting plane [p]. *)
Lemma rowBit_blitPlane (t src : list Z) (words p v r : nat) :
  length src = words → (p * words + words ≤ length t)%nat → (r < 64 * words)%nat →
  rowBit (blit (Slice (p * words) words) src t) (64 * (v * words) + r) =
  if bool_decide (v = p) then rowBit src r else rowBit t (64 * (v * words) + r).
Proof.
  intros Hs Hb Hr. unfold rowBit. destruct (plane_index words v r) as [-> ->]. pose proof (row_split r) as [Er ?].
  destruct (bool_decide_reflect (v = p)) as [->|Hne].
  - f_equal. apply (blit_inside (Slice (p * words) words) src t); simpl; [done|done|lia].
  - f_equal. apply blit_outside; [done|]. unfold inside. simpl. intros [H1 H2]. destruct (decide (v < p)%nat); nia.
Qed.

Lemma rowBit_plane (t : list Z) (words p r : nat) :
  (r < 64 * words)%nat → rowBit (view t (Slice (p * words) words)) r = rowBit t (64 * (p * words) + r).
Proof.
  intros Hr. unfold rowBit. destruct (plane_index words p r) as [-> ->]. f_equal. pose proof (row_split r) as [Er ?].
  apply (view_lookup_total t (Slice (p * words) words)). simpl. lia.
Qed.

Lemma rowBit_zip_lor (a b : list Z) r :
  length a = length b → (r `div` 64 < length a)%nat → rowBit (zip_with Z.lor a b) r = rowBit a r || rowBit b r.
Proof.
  intros Hl Hr. unfold rowBit. rewrite !list_lookup_total_alt, lookup_zip_with.
  rewrite (list_lookup_lookup_total_lt a), (list_lookup_lookup_total_lt b) by lia. simpl. by rewrite Z.lor_spec.
Qed.

Lemma ldiff_subset a b : is_u64 a → (∀ j, 0 ≤ j < 64 → Z.testbit a j = true → Z.testbit b j = true) → Z.ldiff a b = 0.
Proof.
  rewrite is_u64_bits. intros [_ Ha] Hab. apply Z.bits_inj'. intros j Hj. rewrite Z.ldiff_spec, Z.testbit_0_l.
  destruct (decide (j < 64)); [|by rewrite Ha by lia].
  destruct (Z.testbit a j) eqn:E; [|done]. by rewrite Hab by (done || lia).
Qed.

(** ** Lists gathered by key *)

Section keyed.
Context (key : nat → Z → bool) (vals : nat → list Z).

(** The lists of the rows below [m] that have key [f], in row order. *)
Definition keyed (f : Z) (m : nat) : list Z := concat (map (λ k, if key k f then vals k else []) (seq 0 m)).

Lemma keyed_S f m : keyed f (S m) = keyed f m ++ (if key m f then vals m else []).
Proof. unfold keyed. rewrite seq_S, map_app, concat_app. simpl. by rewrite app_nil_r. Qed.

Lemma keyed_in f m v : v ∈ keyed f m ↔ ∃ k, (k < m)%nat ∧ key k f = true ∧ v ∈ vals k.
Proof.
  induction m as [|m IH].
  { split; [unfold keyed; simpl; set_solver|]. intros (k & ? & _). lia. }
  rewrite keyed_S, elem_of_app, IH. split.
  - intros [(k & ? & ? & ?)|Hin]; [exists k; split; [lia|done]|]. destruct (key m f) eqn:E; [|set_solver]. exists m. split; [lia|done].
  - intros (k & Hk & Ef & Hin). destruct (decide (k = m)) as [->|]; [right; by rewrite Ef|]. left. exists k. split; [lia|done].
Qed.

(** A row contributes to one key only. *)
Lemma keyed_sum fs m : (∀ k f g, key k f = true → key k g = true → f = g) → NoDup fs →
  (list_sum (map (λ f, length (keyed f m)) fs) ≤ list_sum (map (λ k, length (vals k)) (seq 0 m)))%nat.
Proof.
  intros Hkey Hnd. induction m as [|m IH].
  { induction fs as [|f fs IHf]; simpl; [lia|]. apply NoDup_cons in Hnd as [_ Hnd]. specialize (IHf Hnd). simpl in IHf. lia. }
  rewrite seq_S, map_app, list_sum_app. simpl.
  enough (list_sum (map (λ f, length (keyed f (S m))) fs) ≤ list_sum (map (λ f, length (keyed f m)) fs) + length (vals m))%nat by lia.
  clear IH. induction fs as [|f fs IHf]; simpl; [lia|]. apply NoDup_cons in Hnd as [Hf Hnd]. specialize (IHf Hnd).
  rewrite keyed_S, length_app. destruct (key m f) eqn:E; simpl; [|lia].
  enough (list_sum (map (λ f, length (keyed f (S m))) fs) = list_sum (map (λ f, length (keyed f m)) fs)) by lia.
  f_equal. apply map_ext_in. intros g Hin. rewrite keyed_S. destruct (key m g) eqn:E'; [|by rewrite app_nil_r].
  exfalso. apply Hf. rewrite (Hkey m f g E E'). by apply list_elem_of_In.
Qed.
End keyed.

(** ** Segments laid out one after the other *)

Section segments.
Context (segment : Z → list Z).

Definition layout (fs : list Z) : list Z := concat (map segment fs).
Definition startsOf (fs : list Z) : list Z := map (λ i, zlen (layout (take i fs))) (seq 0 (length fs)).
Definition countsOf (fs : list Z) : list Z := map (λ f, zlen (segment f)) fs.

Lemma layout_app fs fs' : layout (fs ++ fs') = layout fs ++ layout fs'.
Proof. unfold layout. by rewrite map_app, concat_app. Qed.

Context {fields : list Z}.

Lemma start_at f : (f < length fields)%nat → startsOf fields !!! f = zlen (layout (take f fields)).
Proof. intros. unfold startsOf. by rewrite map_seq_lookup_total. Qed.
Lemma count_at f : (f < length fields)%nat → countsOf fields !!! f = zlen (segment (fields !!! f)).
Proof. intros. unfold countsOf. apply list_lookup_total_correct. by rewrite list_lookup_fmap, (list_lookup_lookup_total_lt fields). Qed.

Lemma layout_split f : (f < length fields)%nat →
  layout fields = layout (take f fields) ++ segment (fields !!! f) ++ layout (drop (S f) fields).
Proof.
  intros Hf. rewrite <-(take_drop_middle fields f (fields !!! f)) at 1 by (by apply list_lookup_lookup_total_lt).
  rewrite layout_app. done.
Qed.

(** The values of row [f] are its segment. *)
Lemma segment_at f : (f < length fields)%nat → csr (layout fields) (startsOf fields !!! f) (countsOf fields !!! f) = segment (fields !!! f).
Proof.
  intros Hf. rewrite start_at, count_at by done. unfold csr. rewrite !Nat2Z.id, (layout_split f) by done.
  rewrite drop_app_length. by rewrite take_app_length.
Qed.

(** The position of an entry of a segment. *)
Definition valueRow (f rel : nat) : nat := (length (layout (take f fields)) + rel)%nat.

Lemma valueRow_lt f rel : (f < length fields)%nat → (rel < length (segment (fields !!! f)))%nat → (valueRow f rel < length (layout fields))%nat.
Proof. intros Hf Hr. rewrite (layout_split f) by done. rewrite !length_app. unfold valueRow. lia. Qed.

Lemma layout_next f g : (f < g)%nat → (g ≤ length fields)%nat →
  (length (layout (take f fields)) + length (segment (fields !!! f)) ≤ length (layout (take g fields)))%nat.
Proof.
  intros Hfg Hg. rewrite <-(take_drop (S f) (take g fields)), take_take, Nat.min_l, layout_app, length_app by lia.
  rewrite (take_S_r _ _ (fields !!! f)) by (apply list_lookup_lookup_total_lt; lia). rewrite layout_app, length_app.
  assert (layout [fields !!! f] = segment (fields !!! f)) as -> by (unfold layout; simpl; by rewrite app_nil_r). lia.
Qed.

Lemma valueRow_inj f rel g rel' :
  (f < length fields)%nat → (g < length fields)%nat → (rel < length (segment (fields !!! f)))%nat → (rel' < length (segment (fields !!! g)))%nat →
  valueRow f rel = valueRow g rel' → f = g ∧ rel = rel'.
Proof.
  unfold valueRow. intros Hf Hg Hr Hr' E. destruct (lt_eq_lt_dec f g) as [[Hlt| ->]|Hgt]; [|lia|].
  - pose proof (layout_next f g Hlt ltac:(lia)). lia.
  - pose proof (layout_next g f Hgt ltac:(lia)). lia.
Qed.

(** Every position belongs to a segment. *)
Lemma valueRow_of v : (v < length (layout fields))%nat → ∃ f rel, (f < length fields)%nat ∧ (rel < length (segment (fields !!! f)))%nat ∧ v = valueRow f rel.
Proof.
  assert (∀ m, (m ≤ length fields)%nat → (v < length (layout (take m fields)))%nat →
    ∃ f rel, (f < m)%nat ∧ (rel < length (segment (fields !!! f)))%nat ∧ v = valueRow f rel) as H.
  { induction m as [|m IH]; intros Hm Hlt; [simpl in Hlt; lia|].
    destruct (decide (v < length (layout (take m fields)))%nat) as [Hlo|Hhi].
    { destruct (IH ltac:(lia) Hlo) as (f & rel & ? & ? & ?). exists f, rel. split; [lia|done]. }
    rewrite (take_S_r _ _ (fields !!! m)) in Hlt by (apply list_lookup_lookup_total_lt; lia). rewrite layout_app, length_app in Hlt.
    assert (layout [fields !!! m] = segment (fields !!! m)) as E by (unfold layout; simpl; by rewrite app_nil_r). rewrite E in Hlt.
    exists m, (v - length (layout (take m fields)))%nat. unfold valueRow. split; [lia|]. lia. }
  intros Hlt. destruct (H (length fields) ltac:(lia)) as (f & rel & ? & ? & ?); [by rewrite take_ge by lia|]. by exists f, rel.
Qed.
End segments.
Arguments layout_split {segment fields} f.
Arguments layout_next {segment fields} f g.
Arguments valueRow_lt {segment fields} f rel.
Arguments valueRow_of {segment fields} v.
Arguments valueRow_inj {segment fields} f rel g rel'.
Arguments layout_app {segment} fs fs'.
Arguments start_at {segment fields} f.
Arguments count_at {segment fields} f.
Arguments segment_at {segment fields} f.

(** ** Constraints *)

Section build.
Context (n : Z) (c : Constraints).

Local Abbreviation total := (length (cnRows c)).
Local Abbreviation words := (nwords n).

(** The Go types of the columns. *)
Record constraints_typed : Prop := {
  ct_count : is_u32 n;
  ct_rows : Forall is_u32 (cnRows c);
  ct_fields : Forall is_u32 (cnFields c);
  ct_starts : Forall is_u32 (cnValueStarts c);
  ct_counts : Forall is_u32 (cnValueCounts c);
  ct_values : Forall is_u32 (cnValues c)
}.

(** No requirement has two constraints on one field, and the constraints do not
    share values. *)
Record constraints_apart : Prop := {
  ca_once i j : (i < total)%nat → (j < total)%nat → cnFields c !!! i = cnFields c !!! j → cnRows c !!! i = cnRows c !!! j → i = j;
  ca_values : (list_sum (map (λ k, length (constraintValues c k)) (seq 0 total)) ≤ length (cnValues c))%nat
}.

(** What validation checks. *)
Record constraints_valid : Prop := {
  cv_lens : length (cnFields c) = total ∧ length (cnValueStarts c) = total ∧ length (cnValueCounts c) = total;
  cv_size : Z.of_nat total ≤ MaxUint32 ∧ zlen (cnValues c) ≤ MaxUint32;
  cv_row k : (k < total)%nat → 0 ≤ cnRows c !!! k < n ∧ 0 < cnFields c !!! k < 2 ^ 32 ∧
    0 ≤ cnValueStarts c !!! k ∧ 0 < cnValueCounts c !!! k ∧ cnValueStarts c !!! k + cnValueCounts c !!! k ≤ zlen (cnValues c);
  cv_values k v : (k < total)%nat → v ∈ constraintValues c k → 0 < v < 2 ^ 32
}.

Lemma validateConstraints_ok : constraints_typed → validateConstraints n c = Ok tt → constraints_valid.
Proof.
  intros [Hn Hr Hf Hs Hc Hv]. unfold validateConstraints. intros ([] & Hl%check_inv & ([] & Hs2%check_inv & Hall%check_inv)%go_bind_inv)%go_bind_inv.
  apply bool_decide_eq_true in Hl. rewrite negb_true_iff, !orb_false_iff, !Z.ltb_ge in Hs2. destruct Hs2 as [[Hs2 Hs3] _].
  assert (∀ (l : list Z) k, Forall is_u32 l → (k < length l)%nat → is_u32 (l !!! k)) as Hu.
  { intros l k Hall' Hk. rewrite Forall_forall in Hall'. by apply Hall', list_elem_of_lookup_total_2. }
  assert (∀ k, (k < total)%nat → validConstraint n c k = true) as Hrow by (intros k Hk; by apply (forallb_seq _ _ _ Hall)).
  assert (∀ k, (k < total)%nat → 0 ≤ cnRows c !!! k < n ∧ 0 < cnFields c !!! k < 2 ^ 32 ∧
    0 ≤ cnValueStarts c !!! k ∧ 0 < cnValueCounts c !!! k ∧ cnValueStarts c !!! k + cnValueCounts c !!! k ≤ zlen (cnValues c)) as Hbounds.
  { intros k Hk. specialize (Hrow k Hk). unfold validConstraint in Hrow. rewrite !andb_true_iff, !negb_true_iff, !orb_false_iff in Hrow.
    rewrite Z.leb_gt, !Z.eqb_neq, Z.ltb_ge in Hrow. destruct Hrow as [((H1 & H2) & H3) [H4 _]].
    pose proof (Hu _ k Hr Hk). pose proof (Hu _ k Hf ltac:(lia)). pose proof (Hu _ k Hs ltac:(lia)). pose proof (Hu _ k Hc ltac:(lia)).
    unfold is_u32 in *. rewrite u64_small in H4 by (unfold is_u64; lia). lia. }
  split; [done|done|done|]. intros k v Hk Hin. specialize (Hrow k Hk). destruct (Hbounds k Hk) as (_ & _ & H1 & H2 & H3).
  unfold validConstraint in Hrow. rewrite !andb_true_iff in Hrow. destruct Hrow as [_ [_ Hnz]].
  pose proof (Hu _ k Hs ltac:(lia)). pose proof (Hu _ k Hc ltac:(lia)). unfold is_u32 in *.
  rewrite u64_small in Hnz by (unfold is_u64; lia). replace (_ + _ - _) with (cnValueCounts c !!! k) in Hnz by lia.
  rewrite forallb_forall in Hnz. specialize (Hnz v ltac:(by apply list_elem_of_In)). apply negb_true_iff, Z.eqb_neq in Hnz.
  assert (v ∈ cnValues c) as Hin'.
  { unfold constraintValues, csr in Hin. apply elem_of_take in Hin as (i & Hi & _). rewrite lookup_drop in Hi. by eapply list_elem_of_lookup_2. }
  rewrite Forall_forall in Hv. specialize (Hv v Hin'). unfold is_u32 in *. lia.
Qed.

Context (Hn : is_u32 n) (Hv : constraints_valid) (Ha : constraints_apart).

Definition fields : list Z := compact (sortZ (cnFields c)).

Lemma fields_ok : increasing fields ∧ (∀ x, x ∈ fields ↔ x ∈ cnFields c) ∧ (length fields ≤ total)%nat.
Proof. destruct (distinct_sorted (cnFields c)) as (H1 & H2 & H3). destruct (cv_lens Hv) as [<- _]. done. Qed.

Lemma field_row k : (k < total)%nat → ∃ f, (f < length fields)%nat ∧ fields !!! f = cnFields c !!! k ∧ BinarySearch fields (cnFields c !!! k) = (f, true).
Proof.
  intros Hk. destruct fields_ok as (Hi & Hin & _). destruct (cv_lens Hv) as (Hl & _).
  assert (cnFields c !!! k ∈ fields) as (f & Hf)%list_elem_of_lookup_1 by (apply Hin, list_elem_of_lookup_total_2; lia).
  pose proof (lookup_lt_Some _ _ _ Hf). apply list_lookup_total_correct in Hf. exists f. split; [done|]. split; [done|].
  rewrite <-Hf. by apply BinarySearch_index.
Qed.

(** The marks loop finds no field constrained twice by a requirement. *)
Lemma checkField_ok field : checkField n c field = Ok tt.
Proof.
  unfold checkField. destruct (cv_lens Hv) as (Hl & _). unfold is_u32 in Hn.
  for_loop (λ k marks, zlen marks = n ∧
    ∀ q, (q < length marks)%nat → marks !!! q ≠ 0 → ∃ i, (i < k)%nat ∧ cnFields c !!! i = field ∧ cnRows c !!! i = Z.of_nat q) as (marks & -> & _); [| |done].
  - unfold make_. rewrite length_replicate. split; [lia|]. intros q Hq. by rewrite lookup_total_replicate_2.
  - intros k marks Hk [Hlen Hm]. rewrite (at_total (cnFields c)) by lia. rewrite go_bind_Ok, Nat2Z.id.
    destruct (Z.eqb_spec (cnFields c !!! k) field) as [Ef|Ef]; simpl.
    2:{ eexists; split; [done|]. split; [done|]. intros q Hq Hne. destruct (Hm q Hq Hne) as (i & ? & ? & ?). exists i. split; [lia|done]. }
    destruct (cv_row Hv k ltac:(lia)) as (Hr & _). rewrite (at_total (cnRows c)) by lia. rewrite go_bind_Ok, Nat2Z.id.
    rewrite (at_total marks) by lia. rewrite go_bind_Ok.
    destruct (Z.eqb_spec (marks !!! Z.to_nat (cnRows c !!! k)) 0) as [E0|E0]; simpl.
    + eexists; split; [done|]. rewrite length_insert. split; [done|]. intros q Hq Hne.
      destruct (decide (q = Z.to_nat (cnRows c !!! k))) as [->|Hneq].
      * exists k. split; [lia|]. split; [done|lia].
      * rewrite list_lookup_total_insert_ne in Hne by done. destruct (Hm q Hq Hne) as (i & ? & ? & ?). exists i. split; [lia|done].
    + exfalso. destruct (Hm (Z.to_nat (cnRows c !!! k)) ltac:(lia) E0) as (i & Hi & Ei & Er).
      assert (i = k); [|lia]. apply (ca_once Ha); [lia|lia|congruence|lia].
Qed.

(** ** The values of a field *)

(** What the constraints list for [field], the first [m] of them. *)
Definition collected : Z → nat → list Z := keyed (λ k field, cnFields c !!! k =? field) (constraintValues c).

Lemma collected_S field m : collected field (S m) = collected field m ++ (if cnFields c !!! m =? field then constraintValues c m else []).
Proof. apply keyed_S. Qed.

Lemma collected_in field m v : v ∈ collected field m ↔ ∃ k, (k < m)%nat ∧ cnFields c !!! k = field ∧ v ∈ constraintValues c k.
Proof. unfold collected. rewrite keyed_in. split; intros (k & ? & Hk & ?); exists k; split_and!; try done; by apply Z.eqb_eq. Qed.

(** The fields' values are taken from different constraints. *)
Lemma collected_sum fs m : NoDup fs →
  (list_sum (map (λ f, length (collected f m)) fs) ≤ list_sum (map (λ k, length (constraintValues c k)) (seq 0 m)))%nat.
Proof. apply keyed_sum. by intros k f g ->%Z.eqb_eq ->%Z.eqb_eq. Qed.

Definition segment (field : Z) : list Z := compact (sortZ (collected field total)).

Lemma segment_ok field :
  increasing (segment field) ∧ (∀ v, v ∈ segment field ↔ ∃ k, (k < total)%nat ∧ cnFields c !!! k = field ∧ v ∈ constraintValues c k) ∧
  (length (segment field) ≤ length (collected field total))%nat.
Proof.
  destruct (distinct_sorted (collected field total)) as (H1 & H2 & H3). split; [done|]. split; [|done]. intros v. by rewrite H2, collected_in.
Qed.

Lemma collectField_ok field acc : (length acc + length (collected field total) ≤ length (cnValues c))%nat →
  collectField c field acc = Ok (acc ++ segment field, zlen acc, zlen (segment field)).
Proof.
  intros Hfit. unfold collectField. destruct (cv_lens Hv) as (Hl & Hl2 & Hl3). rewrite Hl.
  for_loop (λ k t, t = acc ++ collected field k) as (t & -> & ->).
  - unfold collected. simpl. by rewrite app_nil_r.
  - intros k t Hk ->. rewrite (at_total (cnFields c)) by lia. rewrite go_bind_Ok, Nat2Z.id, collected_S, app_assoc.
    destruct (Z.eqb_spec (cnFields c !!! k) field) as [Ef|Ef]; simpl; [|by rewrite app_nil_r; eexists].
    destruct (cv_row Hv k Hk) as (_ & _ & H1 & H2 & H3). rewrite (at_total (cnValueStarts c)), (at_total (cnValueCounts c)) by lia.
    rewrite !go_bind_Ok, !Nat2Z.id, slice_csr by lia. rewrite go_bind_Ok. eexists; split; [done|]. do 2 f_equal. apply take_ge.
    assert (length (collected field k) + length (constraintValues c k) ≤ length (collected field total))%nat; [|unfold constraintValues in *; rewrite length_app; lia].
    clear -Hk Ef. induction total as [|m IH]; [lia|]. rewrite collected_S, length_app.
    destruct (decide (k = m)) as [->|]; [|specialize (IH ltac:(lia)); lia].
    rewrite (proj2 (Z.eqb_eq _ _) Ef). lia.
  - rewrite go_bind_Ok, drop_app_length, take_app_length. done.
Qed.

(** ** The layout of the values *)

Local Abbreviation layout := (layout segment).
Local Abbreviation startsOf := (startsOf segment).
Local Abbreviation countsOf := (countsOf segment).
Local Abbreviation valueRow := (@valueRow segment fields).

Lemma layout_length fs : NoDup fs → (length (layout fs) ≤ length (cnValues c))%nat ∧
  ∀ f, f ∉ fs → (length (layout fs) + length (collected f total) ≤ length (cnValues c))%nat.
Proof.
  assert (∀ fs, length (layout fs) ≤ list_sum (map (λ f, length (collected f total)) fs))%nat as Hle.
  { intros l. induction l as [|f l IH]; [done|]. unfold layout in *. simpl. rewrite length_app. destruct (segment_ok f) as (_ & _ & ?). lia. }
  intros Hnd. pose proof (ca_values Ha). split.
  - pose proof (collected_sum fs total Hnd). pose proof (Hle fs). lia.
  - intros f Hf. pose proof (collected_sum (f :: fs) total ltac:(by constructor)) as Hs. simpl in Hs. pose proof (Hle fs). lia.
Qed.

Lemma collect_all :
  fold_go (λ field st,
      let '(acc, starts, counts) := st in
      '(acc, start, count) ← collectField c field acc;
      Ok (acc, starts ++ [u32 start], counts ++ [u32 count])) fields ([], [], []) =
  Ok (layout fields, startsOf fields, countsOf fields).
Proof.
  destruct fields_ok as (Hi & _). pose proof (increasing_NoDup _ Hi) as Hnd. destruct (cv_size Hv) as [_ Hsz]. unfold MaxUint32 in Hsz.
  fold_loop (λ pre st, st = (layout pre, startsOf pre, countsOf pre)) as (st & -> & ->); [done| |done].
  intros pre f post st Hsplit ->. rewrite Hsplit in Hnd. apply NoDup_app in Hnd as (Hnd & Hdis & _).
  destruct (layout_length pre Hnd) as [Hlen Hfit]. specialize (Hfit f ltac:(intros Hin; apply (Hdis f Hin); set_solver)).
  rewrite collectField_ok by lia. rewrite go_bind_Ok. destruct (segment_ok f) as (_ & _ & Hseg).
  rewrite !u32_small by (unfold is_u32; lia). eexists; split; [done|]. rewrite layout_app. f_equal; [f_equal|].
  - unfold layout. simpl. by rewrite app_nil_r.
  - unfold startsOf. rewrite length_app, seq_app, map_app. simpl. f_equal.
    + apply map_ext_in. intros i Hin%in_seq. rewrite take_app_le by lia. done.
    + rewrite take_app_length. done.
  - unfold countsOf. by rewrite map_app.
Qed.

(** ** The bitmaps *)

(** The first [m] constraints restrict requirement [q] on [field]; they list [value]. *)
Definition constrained (m : nat) (field : Z) (q : nat) : bool :=
  existsb (λ k, (cnFields c !!! k =? field) && (cnRows c !!! k =? Z.of_nat q)) (seq 0 m).
Definition listed (m : nat) (field value : Z) (q : nat) : bool :=
  existsb (λ k, (cnFields c !!! k =? field) && (cnRows c !!! k =? Z.of_nat q) && bool_decide (value ∈ constraintValues c k)) (seq 0 m).

Lemma constrained_S m field q : constrained (S m) field q = constrained m field q || ((cnFields c !!! m =? field) && (cnRows c !!! m =? Z.of_nat q)).
Proof. unfold constrained. rewrite seq_S, existsb_app. simpl. by rewrite orb_false_r. Qed.
Lemma listed_S m field value q :
  listed (S m) field value q = listed m field value q || ((cnFields c !!! m =? field) && (cnRows c !!! m =? Z.of_nat q) && bool_decide (value ∈ constraintValues c m)).
Proof. unfold listed. rewrite seq_S, existsb_app. simpl. by rewrite orb_false_r. Qed.

Lemma words_bound : WordCount n = Z.of_nat words ∧ (∀ q, 0 ≤ q < n → (Z.to_nat q < 64 * words)%nat) ∧ WordCount n ≤ 2 ^ 26 ∧ 0 ≤ WordCount n.
Proof.
  destruct (WordCount_bounds n Hn) as (H0 & H1 & H2). unfold is_u32 in Hn. split; [lia|]. split; [intros; lia|lia].
Qed.

Record allMask_ok (all : list Z) : Prop := {
  am_length : length all = words;
  am_words : Forall is_u64 all;
  am_word word : (word < length all)%nat → all !!! word =
    if bool_decide (S word = length all) && negb (Z.land n 63 =? 0) then bit64 (Z.land n 63) - 1 else MaxUint64
}.

Lemma allMaskOf_ok : ∃ all, allMaskOf n (policyWordCount n) = Ok all ∧ allMask_ok all.
Proof.
  rewrite policyWordCount_eq. unfold allMaskOf. destruct words_bound as (Hw & Hq & _ & Hw0). set (ones := replicate _ _).
  assert (length ones = words) as Hl by (unfold ones; by rewrite length_replicate).
  assert (Forall is_u64 ones) as Hu by (apply Forall_replicate; auto with word).
  assert (∀ w, (w < words)%nat → ones !!! w = MaxUint64) as Hones by (intros w ?; unfold ones; by rewrite lookup_total_replicate_2).
  destruct (Z.eqb_spec (Z.land n 63) 0) as [E|E]; simpl.
  { eexists; split; [done|]. split; [done|done|]. intros w Hlt. rewrite E, andb_false_r. apply Hones. lia. }
  pose proof (land_63 n) as El. pose proof (Z.mod_pos_bound n 64 ltac:(lia)). unfold is_u32 in Hn.
  assert (0 < WordCount n) by (specialize (Hq 0); destruct (decide (n = 0)) as [->|]; [by rewrite El in E|lia]).
  rewrite (at_total ones) by lia. rewrite go_bind_Ok. eexists; split; [done|]. split.
  - by rewrite length_insert.
  - apply Forall_insert; [done|]. apply is_u64_lowmask. lia.
  - intros w Hlt. rewrite length_insert in Hlt |- *. rewrite Hl in Hlt |- *. rewrite (proj2 (Z.eqb_neq _ _) E), andb_true_r.
    destruct (bool_decide_reflect (S w = words)) as [Ew|Ew].
    + replace (Z.to_nat (WordCount n - 1)) with w by lia. apply list_lookup_total_insert_eq. lia.
    + rewrite list_lookup_total_insert_ne by lia. by apply Hones.
Qed.

Context (all : list Z) (Hall : allMask_ok all).

Record masksInv (m : nat) (wild masks : list Z) : Prop := {
  mi_lens : length wild = (length fields * words)%nat ∧ length masks = (length (layout fields) * words)%nat;
  mi_words : Forall is_u64 wild ∧ Forall is_u64 masks;
  mi_wild f q : (f < length fields)%nat → (q < 64 * words)%nat →
    rowBit wild (64 * (f * words) + q) = tailKeep n q && negb (constrained m (fields !!! f) q);
  mi_masks f rel q : (f < length fields)%nat → (rel < length (segment (fields !!! f)))%nat → (q < 64 * words)%nat →
    rowBit masks (64 * (valueRow f rel * words) + q) = listed m (fields !!! f) (segment (fields !!! f) !!! rel) q
}.

Lemma concat_planes (k f i : nat) : (f < k)%nat → (i < words)%nat → concat (replicate k all) !!! (f * words + i)%nat = all !!! i.
Proof.
  intros Hf Hi. pose proof (am_length _ Hall) as Hl. revert f Hf. induction k as [|k IH]; intros f Hf; [lia|]. simpl.
  destruct f as [|f].
  - rewrite lookup_total_app_l by lia. done.
  - rewrite lookup_total_app_r by lia. replace (S f * words + i - length all)%nat with (f * words + i)%nat by lia. apply IH. lia.
Qed.

Lemma masksInv_0 : masksInv 0 (concat (replicate (length fields) all)) (make_ (zlen (layout fields) * policyWordCount n)).
Proof.
  rewrite policyWordCount_eq. destruct words_bound as (Hw & _). pose proof (am_length _ Hall) as Hl. unfold make_.
  assert (Z.to_nat (zlen (layout fields) * WordCount n) = (length (layout fields) * words)%nat) as -> by lia.
  split.
  - rewrite length_replicate. split; [|done]. generalize (length fields) as k. induction k as [|k IH]; [done|]. simpl. rewrite length_app, IH. lia.
  - split; [|apply Forall_replicate; auto with word]. apply Forall_concat, Forall_replicate, (am_words _ Hall).
  - intros f q Hf Hq. unfold constrained. simpl. rewrite andb_true_r. unfold rowBit. destruct (plane_index words f q) as [-> ->].
    pose proof (row_split q) as [? ?]. rewrite concat_planes by lia. apply (AllMask_bits all n); [done|done|apply Hall|done].
  - intros f rel q Hf Hr Hq. unfold listed. simpl. apply rowBit_replicate0. pose proof (valueRow_lt f rel Hf Hr). nia.
Qed.

(** The field and the requirement of a constraint, as indices. *)
Lemma same_field f g k : (f < length fields)%nat → (g < length fields)%nat → fields !!! f = cnFields c !!! k →
  bool_decide (g = f) = (cnFields c !!! k =? fields !!! g).
Proof.
  intros Hf Hg <-. destruct (bool_decide_reflect (g = f)) as [->|Hne]; symmetry; [by apply Z.eqb_eq|].
  apply Z.eqb_neq. intros E. apply Hne. symmetry. apply (increasing_inj fields); [apply fields_ok|done..].
Qed.
Lemma same_row q k : 0 ≤ cnRows c !!! k → bool_decide (q = Z.to_nat (cnRows c !!! k)) = (cnRows c !!! k =? Z.of_nat q).
Proof. intros. destruct (bool_decide_reflect (q = Z.to_nat (cnRows c !!! k))); symmetry; [apply Z.eqb_eq|apply Z.eqb_neq]; lia. Qed.

(** The value loop of one constraint on field row [f] for requirement [i]. *)
Lemma applyValues_ok f i vs masks :
  (f < length fields)%nat → (i < 64 * words)%nat → (∀ v, v ∈ vs → v ∈ segment (fields !!! f)) →
  length masks = (length (layout fields) * words)%nat → Forall is_u64 masks →
  ∃ t, fold_go (λ value masks,
      segment ← slice_ (layout fields) (startsOf fields !!! f) (startsOf fields !!! f + countsOf fields !!! f);
      let '(relative, found) := BinarySearch segment value in
      require found "index: canonical value disappeared" ;;
      let mi := (startsOf fields !!! f + Z.of_nat relative) * Z.of_nat words + Z.of_nat (i `div` 64) in
      w ← at_ masks mi;
      Ok (<[Z.to_nat mi := Z.lor w (bit64 (Z.of_nat (i `mod` 64)))]> masks)) vs masks = Ok t ∧
    length t = length masks ∧ Forall is_u64 t ∧
    ∀ g rel q, (g < length fields)%nat → (rel < length (segment (fields !!! g)))%nat → (q < 64 * words)%nat →
      rowBit t (64 * (valueRow g rel * words) + q) = rowBit masks (64 * (valueRow g rel * words) + q) ||
        (bool_decide (g = f) && bool_decide (q = i) && bool_decide (segment (fields !!! g) !!! rel ∈ vs)).
Proof.
  intros Hf Hi Hvs Hlm Hum. pose proof (row_split i) as [Ei ?].
  assert (slice_ (layout fields) (startsOf fields !!! f) (startsOf fields !!! f + countsOf fields !!! f) = Ok (segment (fields !!! f))) as Hslice.
  { rewrite slice_csr; [by rewrite segment_at|..]; rewrite ?start_at, ?count_at by done; [lia..|].
    rewrite (layout_split (fields := fields) f) by done. rewrite !length_app. lia. }
  fold_loop (λ pre t, length t = length masks ∧ Forall is_u64 t ∧ ∀ g rel q, (g < length fields)%nat → (rel < length (segment (fields !!! g)))%nat →
    (q < 64 * words)%nat → rowBit t (64 * (valueRow g rel * words) + q) =
      rowBit masks (64 * (valueRow g rel * words) + q) ||
      (bool_decide (g = f) && bool_decide (q = i) && bool_decide (segment (fields !!! g) !!! rel ∈ pre))) as (t & -> & Ht); [| |by eexists].
  { split; [done|]. split; [done|]. intros g rel q _ _ _. rewrite (bool_decide_eq_false_2 (_ ∈ [])) by set_solver. by rewrite andb_false_r, orb_false_r. }
  intros pre v post t Hsplit (Htl & Htu & Ht). rewrite Hslice, go_bind_Ok.
  destruct (list_elem_of_lookup_1 _ _ (Hvs v ltac:(rewrite Hsplit; set_solver))) as (rel & Hrel).
  pose proof (lookup_lt_Some _ _ _ Hrel) as Hrl. apply list_lookup_total_correct in Hrel.
  rewrite <-Hrel, BinarySearch_index by (done || apply segment_ok). cbn [require]. rewrite go_bind_Ok, start_at by done.
  replace ((zlen (layout (take f fields)) + Z.of_nat rel) * Z.of_nat words + Z.of_nat (i `div` 64))
    with (Z.of_nat (valueRow f rel * words + i `div` 64)) by (unfold valueRow; lia).
  pose proof (valueRow_lt f rel Hf Hrl). assert (valueRow f rel * words + i `div` 64 < length t)%nat by nia.
  rewrite (at_total t) by lia. rewrite go_bind_Ok, Nat2Z.id. eexists; split; [done|]. rewrite length_insert. split; [done|]. split.
  { apply Forall_insert; [done|]. apply is_u64_lor; [|auto with word]. rewrite Forall_forall in Htu. by apply Htu, list_elem_of_lookup_total_2. }
  intros g rel' q Hg Hr' Hq. rewrite rowBit_setPlane, Ht by done. rewrite <-orb_assoc. f_equal.
  destruct (bool_decide_reflect (g = f)) as [->|Hne]; simpl.
  2:{ rewrite bool_decide_eq_false_2; [done|]. intros [? ?]%valueRow_inj; done. }
  destruct (bool_decide_reflect (q = i)) as [->|]; simpl; [|by rewrite andb_false_r]. rewrite andb_true_r, <-bool_decide_or.
  apply bool_decide_ext. rewrite elem_of_app, list_elem_of_singleton. split; (intros [?|E]; [by left|right]).
  - apply valueRow_inj in E as [_ ->]; done.
  - f_equal. apply (increasing_inj (segment (fields !!! f))); [apply segment_ok|done..].
Qed.

Lemma applyConstraint_ok k wild masks : (k < total)%nat → masksInv k wild masks →
  ∃ wild' masks', applyConstraint c fields (startsOf fields) (countsOf fields) (layout fields) (policyWordCount n) k (wild, masks) = Ok (wild', masks') ∧
    masksInv (S k) wild' masks'.
Proof.
  intros Hk [[Hlw Hlm] [Huw Hum] Hwild Hmasks]. rewrite policyWordCount_eq. destruct words_bound as (Hw & Hqb & _).
  destruct (cv_lens Hv) as (Hl1 & Hl2 & Hl3). destruct (cv_row Hv k Hk) as (Hrow & Hfield & Hs & Hc & Hend).
  destruct (field_row k Hk) as (f & Hf & Ef & HB). unfold applyConstraint.
  rewrite (at_total (cnFields c)) by lia. rewrite go_bind_Ok, Nat2Z.id, HB. cbn [require]. rewrite go_bind_Ok.
  rewrite (at_total (cnRows c)) by lia. rewrite go_bind_Ok, Nat2Z.id.
  rewrite (row_word (cnRows c !!! k)), (row_bit (cnRows c !!! k)), Hw by lia. pose proof (Hqb _ Hrow) as Hi.
  pose proof (row_split (Z.to_nat (cnRows c !!! k))) as [Ei ?].
  replace (Z.of_nat f * Z.of_nat words + Z.of_nat (Z.to_nat (cnRows c !!! k) `div` 64)) with (Z.of_nat (f * words + Z.to_nat (cnRows c !!! k) `div` 64)) by lia.
  assert (f * words + Z.to_nat (cnRows c !!! k) `div` 64 < length wild)%nat as Hwi by nia.
  rewrite (at_total wild) by lia. rewrite go_bind_Ok, Nat2Z.id.
  assert (length (startsOf fields) = length fields) as Hls by (unfold startsOf; by rewrite length_map, length_seq).
  assert (length (countsOf fields) = length fields) as Hlc by (unfold countsOf; by rewrite length_map).
  rewrite (at_total (startsOf fields)), (at_total (countsOf fields)) by lia. rewrite !go_bind_Ok, !Nat2Z.id.
  rewrite (at_total (cnValueStarts c)), (at_total (cnValueCounts c)) by lia. rewrite !go_bind_Ok, !Nat2Z.id.
  rewrite (slice_csr (cnValues c)) by lia. rewrite go_bind_Ok.
  destruct (applyValues_ok f (Z.to_nat (cnRows c !!! k)) (constraintValues c k) masks Hf Hi) as (t & Hrun & Htl & Htu & Ht); [|done..|].
  { intros v Hin. apply segment_ok. by exists k. }
  unfold constraintValues in Hrun. rewrite Hrun, go_bind_Ok. eexists _, _; split; [done|]. split.
  - by rewrite length_insert, Htl.
  - split; [|done]. apply Forall_insert; [done|]. apply is_u64_ldiff. rewrite Forall_forall in Huw. by apply Huw, list_elem_of_lookup_total_2.
  - intros g q Hg Hq. rewrite rowBit_clearPlane, Hwild, constrained_S by done. rewrite negb_orb, andb_assoc. do 2 f_equal.
    by rewrite (same_field f g k), same_row by (done || lia).
  - intros g rel q Hg Hr Hq. rewrite Ht, Hmasks, listed_S by done. by rewrite (same_field f g k), same_row by (done || lia).
Qed.

(** One value row: the wildcard requirements of its field are added. *)
Lemma mergeStep_ok wild t f rel :
  (f < length fields)%nat → (rel < length (segment (fields !!! f)))%nat →
  length wild = (length fields * words)%nat → length t = (length (layout fields) * words)%nat → Forall is_u64 wild → Forall is_u64 t →
  let s := Slice (valueRow f rel * words) words in
  let t' := blit s (zip_with Z.lor (view t s) (view wild (Slice (f * words) words))) t in
  length t' = length t ∧ Forall is_u64 t' ∧
  ∀ g rel' q, (g < length fields)%nat → (rel' < length (segment (fields !!! g)))%nat → (q < 64 * words)%nat →
    rowBit t' (64 * (valueRow g rel' * words) + q) = rowBit t (64 * (valueRow g rel' * words) + q) ||
      (bool_decide (g = f ∧ rel' = rel) && rowBit wild (64 * (f * words) + q)).
Proof.
  intros Hf Hr Hlw Hlt Huw Hut s t'. pose proof (valueRow_lt f rel Hf Hr).
  assert (in_bounds t s) as Hb by (unfold in_bounds, s; simpl; nia).
  assert (in_bounds wild (Slice (f * words) words)) as Hbw by (unfold in_bounds; simpl; nia).
  assert (length (view t s) = words ∧ length (view wild (Slice (f * words) words)) = words) as [L1 L2] by (rewrite !length_view by done; done).
  split; [by apply length_blit|]. split.
  - apply blit_Forall; [done|]. apply Forall_zip_with_fst with is_u64.
    + unfold view. by apply Forall_take, Forall_drop.
    + eapply Forall_impl; [unfold view; apply Forall_take, Forall_drop, Huw|]. intros y Hy x Hx. by apply is_u64_lor.
  - intros g rel' q Hg Hr' Hq. pose proof (row_split q) as [? ?]. unfold t', s in *.
    rewrite rowBit_blitPlane; [|rewrite length_zip_with, L1, L2; lia|nia|done].
    destruct (bool_decide_reflect (valueRow g rel' = valueRow f rel)) as [E|E].
    + apply valueRow_inj in E as [-> ->]; [|done..]. rewrite bool_decide_eq_true_2 by done. simpl.
      rewrite rowBit_zip_lor by (rewrite L1, ?L2; lia). by rewrite !rowBit_plane by done.
    + rewrite bool_decide_eq_false_2; [by rewrite orb_false_r|]. by intros [-> ->].
Qed.

Lemma mergeWildcards_ok wild t f :
  (f < length fields)%nat →
  length wild = (length fields * words)%nat → length t = (length (layout fields) * words)%nat → Forall is_u64 wild → Forall is_u64 t →
  ∃ t', mergeWildcards (startsOf fields) (countsOf fields) words wild f t = Ok t' ∧ length t' = length t ∧ Forall is_u64 t' ∧
  ∀ g rel q, (g < length fields)%nat → (rel < length (segment (fields !!! g)))%nat → (q < 64 * words)%nat →
    rowBit t' (64 * (valueRow g rel * words) + q) = rowBit t (64 * (valueRow g rel * words) + q) ||
      (bool_decide (g = f) && rowBit wild (64 * (f * words) + q)).
Proof.
  intros Hf Hlw Hlt Huw Hut. unfold mergeWildcards.
  assert (length (startsOf fields) = length fields) as Hls by (unfold startsOf; by rewrite length_map, length_seq).
  assert (length (countsOf fields) = length fields) as Hlc by (unfold countsOf; by rewrite length_map).
  rewrite (at_total (startsOf fields)), (at_total (countsOf fields)) by lia. rewrite !go_bind_Ok, !Nat2Z.id, start_at, count_at, !Nat2Z.id by done.
  eexists; split; [done|]. set (step := λ (masks : list Z) (i : nat), _).
  assert (∀ m, (m ≤ length (segment (fields !!! f)))%nat → let t' := foldl step t (seq 0 m) in length t' = length t ∧ Forall is_u64 t' ∧
    ∀ g rel q, (g < length fields)%nat → (rel < length (segment (fields !!! g)))%nat → (q < 64 * words)%nat →
      rowBit t' (64 * (valueRow g rel * words) + q) = rowBit t (64 * (valueRow g rel * words) + q) ||
        (bool_decide (g = f ∧ (rel < m)%nat) && rowBit wild (64 * (f * words) + q))) as H.
  { induction m as [|m IH]; intros Hm t'.
    { split; [done|]. split; [done|]. intros g rel q _ _ _. rewrite bool_decide_eq_false_2 by lia. by rewrite orb_false_r. }
    unfold t'. rewrite seq_S, foldl_app. destruct (IH ltac:(lia)) as (L & U & B).
    destruct (mergeStep_ok wild (foldl step t (seq 0 m)) f m Hf ltac:(lia) Hlw ltac:(lia) Huw U) as (L' & U' & B').
    split; [etrans; [exact L'|done]|]. split; [exact U'|]. intros g rel q Hg Hr Hq.
    etrans; [exact (B' g rel q Hg Hr Hq)|]. rewrite B, <-orb_assoc, <-andb_orb_distrib_l, <-bool_decide_or by done. do 2 f_equal. apply bool_decide_ext. lia. }
  destruct (H (length (segment (fields !!! f))) ltac:(lia)) as (L & U & B). split; [done|]. split; [done|]. intros g rel q Hg Hr Hq.
  rewrite B by done. do 2 f_equal. apply bool_decide_ext. split; [by intros [-> _]|]. intros ->. done.
Qed.

(** ** The built policy *)

Record built (p : Policy) : Prop := {
  bl_fields : pFieldIDs p = fields;
  bl_starts : FieldValueStarts p = startsOf fields;
  bl_counts : FieldValueCounts p = countsOf fields;
  bl_values : pValues p = layout fields;
  bl_all : AllMask p = all;
  bl_size : RequirementCount p = n ∧ pWordCount p = WordCount n;
  bl_lens : length (WildcardMasks p) = (length fields * words)%nat ∧ length (ValueMasks p) = (length (layout fields) * words)%nat;
  bl_words : Forall is_u64 (WildcardMasks p) ∧ Forall is_u64 (ValueMasks p);
  bl_wild f q : (f < length fields)%nat → (q < 64 * words)%nat →
    rowBit (WildcardMasks p) (64 * (f * words) + q) = tailKeep n q && negb (constrained total (fields !!! f) q);
  bl_masks f rel q : (f < length fields)%nat → (rel < length (segment (fields !!! f)))%nat → (q < 64 * words)%nat →
    rowBit (ValueMasks p) (64 * (valueRow f rel * words) + q) =
      listed total (fields !!! f) (segment (fields !!! f) !!! rel) q || (tailKeep n q && negb (constrained total (fields !!! f) q))
}.

Lemma Build_ok : validateConstraints n c = Ok tt → allMaskOf n (policyWordCount n) = Ok all → ∃ p, Build n c = Ok p ∧ built p.
Proof.
  intros Hvalid Hmask. unfold Build. rewrite Hvalid, go_bind_Ok. fold fields. destruct words_bound as (Hw & _ & Hw26 & Hw0).
  destruct fields_ok as (Hi & _ & Hlen). destruct (cv_size Hv) as [Hs1 Hs2]. destruct (cv_lens Hv) as (Hl & _). unfold MaxUint32 in *.
  rewrite policyWordCount_eq, !u64_small by (unfold is_u64; nia).
  assert ((MaxInt <? zlen fields * WordCount n) || (MaxInt <? zlen (cnValues c) * WordCount n) = false) as ->.
  { apply orb_false_iff. split; apply Z.ltb_ge; unfold MaxInt; nia. }
  simpl. rewrite (map_go_Ok _ (λ _, tt)) by (intros; apply checkField_ok). rewrite go_bind_Ok, collect_all, go_bind_Ok.
  rewrite <-policyWordCount_eq, Hmask, go_bind_Ok.
  for_loop (λ k st, masksInv k st.1 st.2) as ([wild masks] & -> & Hinv).
  { apply masksInv_0. }
  { intros k [wild masks] Hk Hst. destruct (applyConstraint_ok k wild masks ltac:(lia) Hst) as (w' & m' & -> & ?). by exists (w', m'). }
  rewrite Hl in Hinv. destruct Hinv as [[Hlw Hlm] [Huw Hum] Hwild Hmasks]. simpl in *. rewrite policyWordCount_eq.
  for_loop (λ k t, length t = length masks ∧ Forall is_u64 t ∧ ∀ g rel q, (g < length fields)%nat → (rel < length (segment (fields !!! g)))%nat →
    (q < 64 * words)%nat → rowBit t (64 * (valueRow g rel * words) + q) =
      rowBit masks (64 * (valueRow g rel * words) + q) || (bool_decide (g < k)%nat && rowBit wild (64 * (g * words) + q))) as (t & -> & Htl & Htu & Ht).
  { split; [done|]. split; [done|]. intros g rel q _ _ _. rewrite bool_decide_eq_false_2 by lia. by rewrite orb_false_r. }
  { intros k t Hk (Htl & Htu & Ht). destruct (mergeWildcards_ok wild t k Hk Hlw ltac:(lia) Huw Htu) as (t' & -> & L & U & B).
    eexists; split; [done|]. split; [lia|]. split; [done|]. intros g rel q Hg Hr Hq. rewrite B, Ht, <-orb_assoc by done. f_equal.
    destruct (bool_decide_reflect (g = k)) as [->|].
    - rewrite (bool_decide_eq_false_2 (k < k)%nat), (bool_decide_eq_true_2 (k < S k)%nat) by lia. done.
    - rewrite orb_false_r. f_equal. apply bool_decide_ext. lia. }
  rewrite go_bind_Ok. eexists; split; [done|]. split; simpl; try done.
  - rewrite u32_small; [done|]. unfold is_u32. lia.
  - by rewrite Htl.
  - intros f rel q Hf Hr Hq. rewrite Ht, Hmasks, Hwild, bool_decide_eq_true_2 by done. done.
Qed.

Section result.
Context (p : Policy) (Hb : built p).

Lemma built_policy_typed : policy_typed p.
Proof.
  destruct Hb as [Ef Es Ec Ev _ [En Ew] _ _ _ _]. destruct words_bound as (Hw & _ & Hw26 & Hw0).
  destruct fields_ok as (Hi & _ & Hlen). destruct (cv_size Hv) as [Hs1 Hs2]. unfold MaxUint32 in *.
  pose proof (layout_length fields (increasing_NoDup _ Hi)) as [Hll _].
  split; rewrite ?Ef, ?Es, ?Ec, ?Ev, ?En, ?Ew; try done; unfold is_u32; try lia.
  - unfold startsOf. apply Forall_map, Forall_forall. intros i Hin. simpl. rewrite list_elem_of_In, in_seq in Hin.
    assert (length (layout (take i fields)) ≤ length (layout fields))%nat; [|lia].
    rewrite <-(take_drop i fields) at 2. rewrite layout_app, length_app. lia.
  - unfold countsOf. apply Forall_map, Forall_forall. intros f (i & Hf)%list_elem_of_lookup_1. simpl. pose proof (lookup_lt_Some _ _ _ Hf).
    assert (length (segment f) ≤ length (layout fields))%nat; [|lia].
    rewrite (layout_split (fields := fields) i), (list_lookup_total_correct _ _ _ Hf), !length_app by done. lia.
Qed.

Lemma segment_nonempty f : (f < length fields)%nat → segment (fields !!! f) ≠ [].
Proof.
  intros Hf. destruct fields_ok as (_ & Hin & _). destruct (cv_lens Hv) as (Hl & _).
  destruct (list_elem_of_lookup_1 _ _ (proj1 (Hin _) (list_elem_of_lookup_total_2 fields f Hf))) as (k & Hk).
  pose proof (lookup_lt_Some _ _ _ Hk). apply list_lookup_total_correct in Hk. destruct (cv_row Hv k ltac:(lia)) as (_ & _ & H1 & H2 & H3).
  assert (length (constraintValues c k) = Z.to_nat (cnValueCounts c !!! k)) as Hlen by (unfold constraintValues; by rewrite length_csr by lia).
  intros E. assert (constraintValues c k !!! 0%nat ∈ segment (fields !!! f)) as Hbad; [|rewrite E in Hbad; set_solver].
  apply segment_ok. exists k. split; [lia|]. split; [done|]. apply list_elem_of_lookup_total_2. lia.
Qed.

Lemma built_field f : (f < length fields)%nat → validBoundField p f = true.
Proof.
  intros Hf. destruct Hb as [Ef Es Ec Ev _ _ _ _ _ _]. destruct built_policy_typed as [_ _ Hts Htc _ Htv].
  destruct fields_ok as (Hi & Hin & _). destruct (segment_ok (fields !!! f)) as (Hsi & Hsin & _).
  assert (0 < fields !!! f) as Hpos.
  { destruct (list_elem_of_lookup_1 _ _ (proj1 (Hin _) (list_elem_of_lookup_total_2 fields f Hf))) as (k & Hk).
    pose proof (lookup_lt_Some _ _ _ Hk). apply list_lookup_total_correct in Hk as <-. destruct (cv_lens Hv). apply (cv_row Hv). lia. }
  assert (∀ g, (g < length fields)%nat → (length (layout (take g fields)) + length (segment (fields !!! g)) ≤ length (layout fields))%nat) as Hle.
  { intros g Hg. rewrite (layout_split (fields := fields) g), !length_app by done. lia. }
  pose proof (segment_nonempty f Hf) as Hne. pose proof (Hle f Hf). rewrite Ev in Htv.
  assert (length (segment (fields !!! f)) ≠ 0%nat) by (by intros ?%length_zero_iff_nil).
  unfold validBoundField. rewrite Ef, Es, Ec, Ev, segment_at, start_at, count_at by done.
  rewrite (u64_small (_ + _)) by (unfold is_u64; lia). rewrite !andb_true_iff, !negb_true_iff, !orb_false_iff. repeat split.
  all: try (first [apply Z.eqb_neq|apply Z.ltb_ge]; lia).
  - destruct (bool_decide_reflect (f = 0%nat)); [done|]. simpl. apply Z.leb_gt, Hi; lia.
  - destruct (bool_decide_reflect (f = 0%nat)) as [->|]; done.
  - destruct (bool_decide_reflect (f = 0%nat)) as [|Hf0]; [done|]. simpl. apply negb_false_iff, Z.eqb_eq.
    rewrite start_at, count_at by lia. pose proof (Hle (f - 1)%nat ltac:(lia)). rewrite u64_small by (unfold is_u64; lia).
    replace f with (S (f - 1)) at 1 by lia. rewrite (take_S_r _ _ (fields !!! (f - 1)%nat)) by (apply list_lookup_lookup_total_lt; lia).
    rewrite layout_app, length_app. unfold layout at 2. simpl. rewrite app_nil_r. lia.
  - apply forallb_forall. intros r Hr%in_seq. apply negb_true_iff, orb_false_iff.
    assert (segment (fields !!! f) !!! r ∈ segment (fields !!! f)) as (k & Hk & _ & Hval)%Hsin by (apply list_elem_of_lookup_total_2; lia).
    pose proof (cv_values Hv k _ Hk Hval). split; [apply Z.eqb_neq; lia|].
    destruct (bool_decide_reflect (r = 0%nat)); [done|]. simpl. apply Z.leb_gt, Hsi; lia.
Qed.

(** A plane whose rows are requirement rows stays inside the mask of all
    requirements. *)
Lemma plane_inside l (v k w : nat) : Forall is_u64 l → length l = (k * words)%nat → (v < k)%nat → (w < words)%nat →
  (∀ q, (q < 64 * words)%nat → rowBit l (64 * (v * words) + q) = true → tailKeep n q = true) →
  Z.ldiff (l !!! (v * words + w)%nat) (all !!! w) = 0.
Proof.
  intros Hu Hl Hvk Hw Hsub. apply ldiff_subset.
  { rewrite Forall_forall in Hu. apply Hu, list_elem_of_lookup_total_2. nia. }
  intros j Hj. pose proof (Hsub (64 * w + Z.to_nat j)%nat ltac:(lia)) as Hs.
  pose proof (AllMask_bits all n Hn (am_length _ Hall) (am_word _ Hall) (64 * w + Z.to_nat j)%nat ltac:(lia)) as Hb2.
  unfold rowBit in *. destruct (plane_index words v (64 * w + Z.to_nat j)) as [E1 E2]. rewrite E1, E2 in Hs.
  destruct (row_of_word w (Z.to_nat j) ltac:(lia)) as [E3 E4]. rewrite E3, E4, Z2Nat.id in * by lia. intros H. by rewrite Hb2, Hs.
Qed.

Lemma listed_in_range field value q : listed total field value q = true → tailKeep n q = true.
Proof.
  unfold listed. rewrite existsb_exists. intros (k & Hk%in_seq & ((_ & Hq%Z.eqb_eq)%andb_true_iff & _)%andb_true_iff).
  pose proof (cv_row Hv k ltac:(lia)) as [? _]. unfold tailKeep. apply bool_decide_eq_true. lia.
Qed.

Lemma no_overflow k : 0 ≤ k ≤ MaxUint32 → negb (k =? 0) && (MaxUint64 / k <? WordCount n) = false.
Proof.
  intros Hk. destruct words_bound as (_ & _ & Hw & Hw0). destruct (Z.eqb_spec k 0); [done|]. simpl. apply Z.ltb_ge.
  apply Z.div_le_lower_bound; unfold MaxUint32, MaxUint64 in *; nia.
Qed.

Lemma built_bound : validBoundPolicy p = true.
Proof.
  destruct Hb as [Ef Es Ec Ev Eall [En Ew] [Lw Lm] [Uw Um] Hwild Hmasks]. destruct words_bound as (Hw & _ & Hw26 & Hw0).
  destruct fields_ok as (Hi & _ & Hlen). destruct (cv_size Hv) as [Hs1 Hs2]. pose proof (layout_length fields (increasing_NoDup _ Hi)) as [Hll _].
  pose proof (am_length _ Hall) as Hal. unfold validBoundPolicy. rewrite Ef, Es, Ec, Ev, Eall, En, Ew. rewrite (policyWordCount_eq n).
  assert (is_u32 (WordCount n)) by (unfold is_u32; lia). rewrite u32_small by done. rewrite !no_overflow by (unfold MaxUint32 in *; lia).
  rewrite (u64_small (zlen fields * _)), (u64_small (zlen (layout fields) * _)) by (unfold is_u64, MaxUint32 in *; nia). rewrite !andb_true_iff. repeat split.
  - by apply Z.eqb_eq.
  - apply Z.eqb_eq. lia.
  - apply bool_decide_eq_true. unfold startsOf, countsOf. by rewrite !length_map, length_seq.
  - rewrite negb_true_iff, !orb_false_iff, !negb_false_iff, !Z.eqb_eq. split; [split; [done|]|]; lia.
  - apply forallb_forall. intros w Hin%in_seq. apply Z.eqb_eq, Hall. lia.
  - apply forallb_forall. intros f Hf%in_seq. apply built_field. lia.
  - destruct (bool_decide_reflect (length fields = 0%nat)) as [E|E].
    { apply length_zero_iff_nil in E. rewrite E. done. }
    rewrite start_at, count_at by lia. apply Z.eqb_eq. pose proof (layout_split (segment := segment) (fields := fields) (length fields - 1) ltac:(lia)) as Hsp.
    rewrite (drop_ge fields) in Hsp by lia. unfold layout at 3 in Hsp. simpl in Hsp. rewrite app_nil_r in Hsp. rewrite Hsp, length_app in *.
    rewrite u64_small; [lia|]. unfold is_u64, MaxUint32 in *. lia.
  - apply forallb_forall. intros w Hin%in_seq. rewrite Hw, Nat2Z.id. apply andb_true_iff. split; apply forallb_forall.
    + intros f Hf%in_seq. apply Z.eqb_eq, (plane_inside _ _ (length fields)); [done|done|lia|lia|]. intros q Hq.
      rewrite Hwild by (done || lia). by intros [? _]%andb_true_iff.
    + intros v Hv'%in_seq. destruct (valueRow_of (segment := segment) (fields := fields) v ltac:(lia)) as (f & rel & Hf & Hr & ->).
      apply Z.eqb_eq, (plane_inside _ _ (length (layout fields))); [done|done|lia|lia|]. intros q Hq.
      rewrite Hmasks by done. intros [?%listed_in_range|[? _]%andb_true_iff]%orb_true_iff; done.
Qed.

(** A requirement passes a field when each constraint it has there lists the value. *)
Lemma built_selects f value q : (f < length fields)%nat → (q < 64 * words)%nat → tailKeep n q = true →
  selects p f value q = true ↔
  ∀ k, (k < total)%nat → cnFields c !!! k = fields !!! f → cnRows c !!! k = Z.of_nat q → value ∈ constraintValues c k.
Proof.
  intros Hf Hq Htail. destruct Hb as [Ef Es Ec Ev _ [En Ew] _ _ Hwild Hmasks]. destruct (segment_ok (fields !!! f)) as (Hsi & Hsin & _).
  assert (constrained total (fields !!! f) q = false ↔ ∀ k, (k < total)%nat → cnFields c !!! k = fields !!! f → cnRows c !!! k ≠ Z.of_nat q) as Hcon.
  { unfold constrained. rewrite <-not_true_iff_false, existsb_exists. split.
    - intros Hno k Hk E1 E2. apply Hno. exists k. rewrite in_seq, andb_true_iff, !Z.eqb_eq. split; [lia|done].
    - intros Hno (k & Hk%in_seq & (E1%Z.eqb_eq & E2%Z.eqb_eq)%andb_true_iff). by apply (Hno k); [lia|..]. }
  assert (∀ k, (k < total)%nat → cnFields c !!! k = fields !!! f → value ∈ constraintValues c k → value ∈ segment (fields !!! f)) as Hlist
    by (intros k ???; apply Hsin; by exists k).
  unfold selects, policyValues. rewrite Es, Ec, Ev, En, segment_at, start_at, Nat2Z.id by done.
  destruct (BinarySearch (segment (fields !!! f)) value) as [rel [|]] eqn:HB.
  - apply BinarySearch_found in HB as [Hr <-]. change (length (layout (take f fields)) + rel)%nat with (valueRow f rel).
    rewrite Hmasks, Htail by done. simpl. rewrite orb_true_iff, negb_true_iff, Hcon. unfold listed. rewrite existsb_exists. split.
    + intros [(k & Hk%in_seq & ((E1%Z.eqb_eq & E2%Z.eqb_eq)%andb_true_iff & E3%bool_decide_eq_true)%andb_true_iff)|Hno] k' Hk' F1 F2; [|by destruct (Hno k' Hk' F1)].
      by rewrite <-(ca_once Ha k k') by (lia || congruence).
    + intros Hk. destruct (constrained total (fields !!! f) q) eqn:Ecn; [left|right; by apply Hcon].
      unfold constrained in Ecn. apply existsb_exists in Ecn as (k & Hin & (E1%Z.eqb_eq & E2%Z.eqb_eq)%andb_true_iff).
      exists k. split; [done|]. rewrite E1, E2, !Z.eqb_refl. simpl. apply bool_decide_eq_true, Hk; [apply in_seq in Hin; lia|done..].
  - apply BinarySearch_missing in HB; [|done]. rewrite Hwild, Htail by done. simpl. rewrite negb_true_iff, Hcon. split.
    + intros Hno k Hk E1 E2. by destruct (Hno k Hk E1).
    + intros Hk k Hlt E1 E2. apply HB, (Hlist k); [done|done|]. by apply Hk.
Qed.

Lemma built_candidate values present q : Z.of_nat q < n →
  candidate p values present q = true ↔
  ∀ k f, (k < total)%nat → cnRows c !!! k = Z.of_nat q → fields !! f = Some (cnFields c !!! k) → present !!! f ≠ 0 → values !!! f ∈ constraintValues c k.
Proof.
  intros Hq. destruct words_bound as (_ & Hqb & _). pose proof (Hqb (Z.of_nat q) ltac:(lia)) as Hq64. rewrite Nat2Z.id in Hq64.
  assert (tailKeep n q = true) as Htail by (unfold tailKeep; by apply bool_decide_eq_true).
  unfold candidate. rewrite (proj1 (bl_size _ Hb)), Htail, (bl_fields _ Hb), andb_true_l, forallb_forall. split.
  - intros Hsel k f Hk Er Hf Hp. pose proof (lookup_lt_Some _ _ _ Hf) as Hlt. specialize (Hsel f ltac:(apply in_seq; lia)).
    apply orb_true_iff in Hsel as [E%Z.eqb_eq|Hsel]; [done|]. apply list_lookup_total_correct in Hf.
    by apply (proj1 (built_selects f (values !!! f) q Hlt Hq64 Htail) Hsel).
  - intros Hk f Hf%in_seq. destruct (Z.eqb_spec (present !!! f) 0); [done|]. simpl. apply built_selects; [lia|done|done|].
    intros k Hlt E1 E2. apply (Hk k f); [done|done| |done]. rewrite E1. apply list_lookup_lookup_total_lt. lia.
Qed.
End result.
End build.

(** What the built index promises of its constraints. *)
Record exactIndex (n : Z) (c : Constraints) (p : Policy) : Prop := {
  ei_typed : policy_typed p;
  ei_bound : validBoundPolicy p = true;
  ei_count : RequirementCount p = n;
  ei_fields : increasing (pFieldIDs p) ∧ ∀ field, field ∈ pFieldIDs p ↔ field ∈ cnFields c;
  ei_candidate values present q : Z.of_nat q < n →
    candidate p values present q = true ↔
    ∀ k f, (k < length (cnRows c))%nat → cnRows c !!! k = Z.of_nat q → pFieldIDs p !! f = Some (cnFields c !!! k) →
      present !!! f ≠ 0 → values !!! f ∈ constraintValues c k
}.

Lemma Build_exact n c : constraints_typed n c → validateConstraints n c = Ok tt → constraints_apart c → ∃ p, Build n c = Ok p ∧ exactIndex n c p.
Proof.
  intros Ht Hval Ha. pose proof (validateConstraints_ok n c Ht Hval) as Hv. pose proof (ct_count _ _ Ht) as Hn.
  destruct (allMaskOf_ok n Hn) as (all & Hmask & Hall). destruct (Build_ok n c Hn Hv Ha all Hall Hval Hmask) as (p & HB & Hb).
  pose proof (fields_ok n c Hv) as (Hi & Hin & _). exists p. split; [done|]. split; [by eapply built_policy_typed|by eapply built_bound|apply Hb| |];
    rewrite (bl_fields _ _ _ _ Hb); [done|]. intros. by eapply built_candidate.
Qed.

(** ** Properties *)

(** C30: the index builder is exact.  On typed constraints that its validation
    accepts, with at most one constraint per requirement and field and values that
    do not overlap, [Build] returns an index that binding accepts, over the
    constrained fields in ascending order; a requirement stays a candidate of a
    query if and only if every constraint it has on a present field lists the
    field's value. *)
Theorem built_index_exact (n : Z) (c : Constraints) :
  constraints_typed n c → validateConstraints n c = Ok tt → constraints_apart c →
  ∃ p, Build n c = Ok p ∧ policy_typed p ∧ validBoundPolicy p = true ∧ RequirementCount p = n ∧
    increasing (pFieldIDs p) ∧ (∀ field, field ∈ pFieldIDs p ↔ field ∈ cnFields c) ∧
    ∀ values present q, Z.of_nat q < n →
      candidate p values present q = true ↔
      ∀ k f, (k < length (cnRows c))%nat → cnRows c !!! k = Z.of_nat q → pFieldIDs p !! f = Some (cnFields c !!! k) →
        present !!! f ≠ 0 → values !!! f ∈ constraintValues c k.
Proof. intros Ht Hval Ha. destruct (Build_exact n c Ht Hval Ha) as (p & HB & [? ? ? [? ?] ?]). by exists p. Qed.
