(* ===== verification/Templates.v ===== *)
(** * Explanation tables: [internal/result/templates.go], [explanation_table.go]
    Templates are rows of precompiled append operations over one slab of literal
    bytes; explanations select a rationale template and a range of uncertainty
    templates.  Validation makes the rows of both tables consume their slabs exactly,
    so that the unchecked accessor for validated tables returns the same row as the
    checked lookup, and bounds the rendered size of every explanation. *)

From S2P Require Import Prelude Store Truth Schema Result Program.
#[local] Open Scope Z_scope.

(** ** Templates (templates.go) *)

Definition MaxTemplateOperations : Z := 32.
Definition MaxRenderedTemplateBytes : Z := 1024.

Definition TemplateOpInvalid : Z := 0.
Definition TemplateOpLiteral : Z := 1.
Definition TemplateOpPolicyName : Z := 2.
Definition TemplateOpPolicyVersion : Z := 3.
Definition TemplateOpRequestID : Z := 4.
Definition TemplateOpOutcome : Z := 5.
Definition TemplateOpRequirementID : Z := 6.
Definition TemplateOpClauseID : Z := 7.
Definition TemplateOpNodeID : Z := 8.
Definition TemplateOpReason : Z := 9.
Definition TemplateOpEvidenceKind : Z := 10.
Definition TemplateOpEvidenceState : Z := 11.
Definition TemplateOpRequiredEvidenceState : Z := 12.
Definition TemplateOpEvidenceID : Z := 13.

Definition TemplateOpValid (op : Z) : bool := (TemplateOpLiteral <=? op) && (op <=? TemplateOpEvidenceID).

Record TemplateTable := {
  LiteralBytes : list Z; OpStarts : list Z; OpCounts : list Z; LiteralStarts : list Z; MaxBytes : list Z; Ops : list Z; Args : list Z
}.

Record Template := { tLiteralBytes : list Z; tOps : list Z; tArgs : list Z; tMaxBytes : Z }.

(** The operation loop: the literal bytes the operations consume, [None] when an
    operation is invalid. *)
Fixpoint scanOps (l : list (Z * Z)) (literalBytes : Z) : option Z :=
  match l with
  | [] => Some literalBytes
  | (op, arg) :: l =>
      if negb (TemplateOpValid op) then None
      else if op =? TemplateOpLiteral then (if arg =? 0 then None else scanOps l (u64 (literalBytes + arg)))
      else if negb (arg =? 0) then None else scanOps l literalBytes
  end.

Module Templates.

Definition rowOps (t : TemplateTable) (start count : Z) : list (Z * Z) := zip (csr (Ops t) start count) (csr (Args t) start count).

(** One row: the cursors after it. *)
Definition validateRow (t : TemplateTable) (row : nat) (st : Z * Z) : go (Z * Z) :=
  let '(opCursor, literalCursor) := st in
  start ← at_ (OpStarts t) (Z.of_nat row);
  count ← at_ (OpCounts t) (Z.of_nat row);
  let end_ := u64 (start + count) in
  check (negb ((MaxTemplateOperations <? count) || negb (start =? opCursor) || (zlen (Ops t) <? end_))) ErrInvalidTemplateTable ;;
  literalStart ← at_ (LiteralStarts t) (Z.of_nat row);
  maximum ← at_ (MaxBytes t) (Z.of_nat row);
  check (negb (negb (literalStart =? literalCursor) || (MaxRenderedTemplateBytes <? maximum))) ErrInvalidTemplateTable ;;
  literalBytes ← orErr (scanOps (rowOps t start count) 0) ErrInvalidTemplateTable;
  let literalEnd := u64 (literalCursor + literalBytes) in
  check (negb ((zlen (LiteralBytes t) <? literalEnd) || (maximum <? literalBytes))) ErrInvalidTemplateTable ;;
  Ok (end_, literalEnd).

Definition Validate (t : TemplateTable) : go unit :=
  let rows := length (OpStarts t) in
  check (bool_decide (length (OpCounts t) = rows ∧ length (LiteralStarts t) = rows ∧ length (MaxBytes t) = rows ∧ length (Ops t) = length (Args t)))
    ErrInvalidTemplateTable ;;
  '(opCursor, literalCursor) ← for_range rows (validateRow t) (0, 0);
  check ((opCursor =? zlen (Ops t)) && (literalCursor =? zlen (LiteralBytes t))) ErrInvalidTemplateTable.

Definition Lookup (t : TemplateTable) (id : Z) : option Template :=
  if id =? 0 then None else
  let row := id - 1 in
  if (zlen (OpStarts t) <=? row) || (zlen (OpCounts t) <=? row) || (zlen (LiteralStarts t) <=? row) || (zlen (MaxBytes t) <=? row) then None else
  let start := OpStarts t !!! Z.to_nat row in
  let count := OpCounts t !!! Z.to_nat row in
  let maximum := MaxBytes t !!! Z.to_nat row in
  let end_ := u64 (start + count) in
  if (MaxTemplateOperations <? count) || (zlen (Ops t) <? end_) || (zlen (Args t) <? end_) || (MaxRenderedTemplateBytes <? maximum) then None else
  match scanOps (rowOps t start count) 0 with
  | None => None
  | Some literalBytes =>
      let literalStart := LiteralStarts t !!! Z.to_nat row in
      let literalEnd := u64 (literalStart + literalBytes) in
      if (zlen (LiteralBytes t) <? literalEnd) || (maximum <? literalBytes) then None else
      Some {| tLiteralBytes := csr (LiteralBytes t) literalStart (literalEnd - literalStart); tOps := csr (Ops t) start count;
              tArgs := csr (Args t) start count; tMaxBytes := maximum |}
  end.

(** [validatedTemplate]: the row's literals end where the next row's start. *)
Definition validatedTemplate (t : TemplateTable) (id : Z) : go Template :=
  let row := u32 (id - 1) in
  opStart ← at_ (OpStarts t) row;
  opCount ← at_ (OpCounts t) row;
  literalStart ← at_ (LiteralStarts t) row;
  literalEnd ← (if row + 1 <? zlen (LiteralStarts t) then at_ (LiteralStarts t) (row + 1) else Ok (zlen (LiteralBytes t)));
  literals ← slice_ (LiteralBytes t) literalStart literalEnd;
  ops ← slice_ (Ops t) opStart (opStart + opCount);
  args ← slice_ (Args t) opStart (opStart + opCount);
  maximum ← at_ (MaxBytes t) row;
  Ok {| tLiteralBytes := literals; tOps := ops; tArgs := args; tMaxBytes := maximum |}.
End Templates.

(** ** Explanations (explanation_table.go) *)

Definition MaxAssumptionTemplates : Z := 8.
Definition MaxRenderedExplanationBytes : Z := 4096.
Definition EvidenceIssueTemplateCount : Z := Reason.ReasonCount.

Module Explanation.

Definition templateMaximum (t : TemplateTable) (id : Z) : option Z :=
  if (id =? 0) || (zlen (MaxBytes t) <? id) then None else Some (MaxBytes t !!! Z.to_nat (id - 1)).

(** A rendered-size sum that must stay within the bound. *)
Definition addMaximum (t : TemplateTable) (id total : Z) : go Z :=
  maximum ← orErr (templateMaximum t id) ErrInvalidTemplateReference;
  let total := u64 (total + maximum) in
  check (negb (MaxRenderedExplanationBytes <? total)) ErrInvalidExplanationTable ;;
  Ok total.

Definition validateRow (e : ExplanationTable) (t : TemplateTable) (assumptionBytes : Z) (row : nat) (cursor : Z) : go Z :=
  start ← at_ (UncertaintyStarts e) (Z.of_nat row);
  count ← at_ (UncertaintyCounts e) (Z.of_nat row);
  let end_ := u64 (start + count) in
  check (negb ((MaxUncertaintyTemplates <? count) || negb (start =? cursor) || (zlen (UncertaintyTemplateIDs e) <? end_))) ErrInvalidExplanationTable ;;
  rationale ← at_ (RationaleTemplateIDs e) (Z.of_nat row);
  maximum ← orErr (templateMaximum t rationale) ErrInvalidTemplateReference;
  _ ← fold_go (addMaximum t) (csr (UncertaintyTemplateIDs e) start (end_ - start)) (u64 (assumptionBytes + maximum));
  Ok end_.

Definition Validate (e : ExplanationTable) (t : TemplateTable) : go unit :=
  match Templates.Validate t with
  | Ok _ =>
      let rows := length (RationaleTemplateIDs e) in
      check (negb (bool_decide (rows = 0%nat)) && bool_decide (length (UncertaintyStarts e) = rows ∧ length (UncertaintyCounts e) = rows) &&
             negb (MaxAssumptionTemplates <? zlen (AssumptionTemplateIDs e))) ErrInvalidExplanationTable ;;
      assumptionBytes ← fold_go (addMaximum t) (AssumptionTemplateIDs e) 0;
      cursor ← for_range rows (validateRow e t assumptionBytes) 0;
      check (cursor =? zlen (UncertaintyTemplateIDs e)) ErrInvalidExplanationTable
  | Panic msg => Panic msg
  | Err _ => Err ErrInvalidTemplateTable
  end.
End Explanation.

(** ** Validated templates *)

Record templates_typed (t : TemplateTable) : Prop := {
  tt_starts : Forall is_u32 (OpStarts t);
  tt_counts : Forall is_u32 (OpCounts t);
  tt_literals : Forall is_u32 (LiteralStarts t);
  tt_args : Forall is_u32 (Args t);
  tt_max : Forall is_u32 (MaxBytes t);
  tt_rows : zlen (OpStarts t) < MaxUint32;
  tt_bytes : zlen (LiteralBytes t) ≤ MaxInt ∧ zlen (Ops t) ≤ MaxInt
}.

(** The sum of at most [MaxTemplateOperations] 32-bit counts does not wrap. *)
Lemma scanOps_bound l acc n : 0 ≤ acc → Forall (λ x, is_u32 x.2) l → acc + 4294967296 * zlen l < 2 ^ 64 → scanOps l acc = Some n → acc ≤ n ≤ acc + 4294967296 * zlen l.
Proof.
  revert acc. induction l as [|[op arg] l IH]; intros acc Hacc Hall Hfit; simpl; [intros [= <-]; simpl in *; lia|].
  apply Forall_cons in Hall as [Harg Hall]. simpl in Harg. unfold is_u32 in Harg. simpl in Hfit.
  destruct (negb (TemplateOpValid op)); [done|]. destruct (op =? TemplateOpLiteral).
  - destruct (arg =? 0); [done|]. rewrite u64_small by (unfold is_u64; lia). intros H%IH; [simpl; lia|lia|done|lia].
  - destruct (negb (arg =? 0)); [done|]. intros H%IH; [simpl; lia|lia|done|lia].
Qed.

Module TemplatesOk.
Import Templates.

(** Row [row]: its ranges, its literals, and where the literals end. *)
Record rowFine (t : TemplateTable) (row : nat) (literalEnd : Z) : Prop := {
  rf_ops : 0 ≤ OpStarts t !!! row ∧ 0 ≤ OpCounts t !!! row ≤ MaxTemplateOperations ∧ OpStarts t !!! row + OpCounts t !!! row ≤ zlen (Ops t);
  rf_max : 0 ≤ MaxBytes t !!! row ≤ MaxRenderedTemplateBytes;
  rf_literal : ∃ n, scanOps (rowOps t (OpStarts t !!! row) (OpCounts t !!! row)) 0 = Some n ∧ 0 ≤ n ≤ MaxBytes t !!! row ∧
    literalEnd = LiteralStarts t !!! row + n;
  rf_end : 0 ≤ LiteralStarts t !!! row ∧ literalEnd ≤ zlen (LiteralBytes t)
}.

Section validated.
Context (t : TemplateTable) (Ht : templates_typed t).
Local Abbreviation rows := (length (OpStarts t)).

Lemma rowOps_args start count : Forall (λ x, is_u32 x.2) (rowOps t start count).
Proof.
  apply Forall_forall. intros [op arg] Hin. simpl. apply elem_of_zip_r in Hin. apply csr_elem in Hin. pose proof (tt_args _ Ht) as Ha. rewrite Forall_forall in Ha. by apply Ha.
Qed.

Lemma length_rowOps start count : 0 ≤ count → zlen (rowOps t start count) ≤ count.
Proof. intros Hc. unfold rowOps, csr. rewrite length_zip_with, !length_take. lia. Qed.

Lemma validateRow_fine row oc lc oc' lc' :
  (row < rows)%nat → length (OpCounts t) = rows → length (LiteralStarts t) = rows → length (MaxBytes t) = rows → 0 ≤ lc ≤ zlen (LiteralBytes t) →
  validateRow t row (oc, lc) = Ok (oc', lc') →
  rowFine t row lc' ∧ OpStarts t !!! row = oc ∧ LiteralStarts t !!! row = lc ∧ oc' = OpStarts t !!! row + OpCounts t !!! row ∧ 0 ≤ lc' ≤ zlen (LiteralBytes t).
Proof.
  intros Hrow L1 L2 L3 Hlc. destruct Ht as [T1 T2 T3 T4 T5 T6 [T7 T8]]. unfold validateRow.
  rewrite (at_total (OpStarts t)), (at_total (OpCounts t)), (at_total (LiteralStarts t)), (at_total (MaxBytes t)) by lia. rewrite !go_bind_Ok, Nat2Z.id.
  pose proof (Forall_lookup_total_1 _ _ row T1 Hrow) as U1. pose proof (Forall_lookup_total_1 _ _ row T2 ltac:(lia)) as U2.
  pose proof (Forall_lookup_total_1 _ _ row T5 ltac:(lia)) as U5. unfold is_u32 in U1, U2, U5. rewrite u64_small by (unfold is_u64; lia).
  intros H. apply go_bind_inv in H as ([] & H1%check_inv & H). rewrite ?go_bind_Ok in H. apply go_bind_inv in H as ([] & H2%check_inv & H).
  apply go_bind_inv in H as (n & Hn & H). apply go_bind_inv in H as ([] & H3%check_inv & H). destruct (scanOps _ 0) as [n'|] eqn:Es; [|done].
  injection Hn as <-. injection H as <- <-.
  rewrite !negb_true_iff, !orb_false_iff, ?negb_false_iff, ?Z.ltb_ge, ?Z.eqb_eq in *. destruct H1 as [[H1 H1'] H1''], H2 as [H2 H2'], H3 as [H3 H3'].
  pose proof (length_rowOps (OpStarts t !!! row) (OpCounts t !!! row) (proj1 U2)) as Hl. unfold MaxTemplateOperations, MaxRenderedTemplateBytes, MaxInt in *.
  assert (0 + 4294967296 * zlen (rowOps t (OpStarts t !!! row) (OpCounts t !!! row)) < 2 ^ 64) as Hsum by (clear -H1 Hl; lia).
  pose proof (scanOps_bound _ 0 n' (Z.le_refl 0) (rowOps_args _ _) Hsum Es) as Hb. rewrite u64_small in * by (unfold is_u64; lia).
  split; [|lia]. split; unfold MaxTemplateOperations, MaxRenderedTemplateBytes; [lia|lia| |lia]. exists n'. split; [done|lia].
Qed.

Record validated : Prop := {
  vd_lens : length (OpCounts t) = rows ∧ length (LiteralStarts t) = rows ∧ length (MaxBytes t) = rows ∧ length (Ops t) = length (Args t);
  vd_row row : (row < rows)%nat → rowFine t row (if decide (S row = rows) then zlen (LiteralBytes t) else LiteralStarts t !!! S row)
}.

Lemma templates_validate_ok : Validate t = Ok tt → validated.
Proof.
  unfold Validate. intros H. apply go_bind_inv in H as ([] & Hl%check_inv & H). apply bool_decide_eq_true in Hl. destruct Hl as (L1 & L2 & L3 & L4).
  apply go_bind_inv in H as ([oc lc] & Hloop & Hend%check_inv). rewrite andb_true_iff, !Z.eqb_eq in Hend. destruct Hend as [_ ->].
  split; [done|].
  assert (∀ m st, (m ≤ rows)%nat → for_range m (validateRow t) (0, 0) = Ok st → 0 ≤ st.2 ≤ zlen (LiteralBytes t) ∧
    ∀ row, (row < m)%nat → rowFine t row (if decide (S row = m) then st.2 else LiteralStarts t !!! S row)) as Hinv.
  { induction m as [|m IH]; intros st Hm; [intros [= <-]; simpl; split; [lia|intros; lia]|].
    rewrite for_range_S. intros ([oc1 lc1] & Hpre & Hrow)%go_bind_inv. destruct st as [oc2 lc2]. destruct (IH _ ltac:(lia) Hpre) as [Hb Hall]. simpl in Hb, Hall.
    destruct (validateRow_fine m oc1 lc1 oc2 lc2 ltac:(lia) L1 L2 L3 Hb Hrow) as (Hf & _ & El & _ & Hb'). split; [done|]. intros row Hlt. simpl.
    destruct (decide (S row = S m)) as [E|Hne]; [injection E as ->; done|]. specialize (Hall row ltac:(lia)).
    destruct (decide (S row = m)) as [<-|]; [by rewrite El|done]. }
  intros row Hrow. destruct (Hinv rows (oc, zlen (LiteralBytes t)) ltac:(lia) Hloop) as [_ Hall]. by apply Hall.
Qed.

Context (Hv : validated).

(** The row of a template. *)
Definition templateOf (row : nat) : Template :=
  let literalEnd := if decide (S row = rows) then zlen (LiteralBytes t) else LiteralStarts t !!! S row in
  {| tLiteralBytes := csr (LiteralBytes t) (LiteralStarts t !!! row) (literalEnd - LiteralStarts t !!! row);
     tOps := csr (Ops t) (OpStarts t !!! row) (OpCounts t !!! row); tArgs := csr (Args t) (OpStarts t !!! row) (OpCounts t !!! row);
     tMaxBytes := MaxBytes t !!! row |}.

Lemma template_lookup_ok id : 1 ≤ id ≤ zlen (OpStarts t) → Lookup t id = Some (templateOf (Z.to_nat (id - 1))).
Proof.
  intros Hid. destruct (vd_lens Hv) as (L1 & L2 & L3 & L4). set (row := Z.to_nat (id - 1)). destruct (vd_row Hv row ltac:(lia)) as [H1 H2 (n & H3 & H3' & Ee) H4].
  unfold Lookup. rewrite (proj2 (Z.eqb_neq id 0)) by lia. rewrite !(proj2 (Z.leb_gt _ (id - 1))) by lia. cbn [orb]. fold row.
  destruct Ht as [T1 T2 T3 T4 T5 T6 [T7 T8]]. unfold MaxTemplateOperations, MaxRenderedTemplateBytes, MaxInt in *.
  rewrite (u64_small (OpStarts t !!! row + OpCounts t !!! row)) by (unfold is_u64; lia).
  rewrite (proj2 (Z.ltb_ge 32 _)), (proj2 (Z.ltb_ge (zlen (Ops t)) _)), (proj2 (Z.ltb_ge (zlen (Args t)) _)), (proj2 (Z.ltb_ge 1024 _)) by lia. cbn [orb].
  rewrite H3. rewrite u64_small by (unfold is_u64; lia). rewrite (proj2 (Z.ltb_ge _ _)), (proj2 (Z.ltb_ge _ _)) by lia. cbn [orb].
  unfold templateOf. rewrite Ee. done.
Qed.

Lemma validatedTemplate_ok id : 1 ≤ id ≤ zlen (OpStarts t) → validatedTemplate t id = Ok (templateOf (Z.to_nat (id - 1))).
Proof.
  intros Hid. destruct (vd_lens Hv) as (L1 & L2 & L3 & L4). set (row := Z.to_nat (id - 1)). destruct (vd_row Hv row ltac:(lia)) as [H1 H2 (n & H3 & H3' & Ee) H4].
  pose proof (tt_rows _ Ht) as Hrows. unfold validatedTemplate. rewrite u32_small by (unfold is_u32, MaxUint32 in *; lia).
  rewrite (at_total (OpStarts t)), (at_total (OpCounts t)), (at_total (LiteralStarts t) (id - 1)), (at_total (MaxBytes t)) by lia. rewrite !go_bind_Ok. fold row.
  assert ((if id - 1 + 1 <? zlen (LiteralStarts t) then at_ (LiteralStarts t) (id - 1 + 1) else Ok (zlen (LiteralBytes t))) =
    Ok (if decide (S row = rows) then zlen (LiteralBytes t) else LiteralStarts t !!! S row)) as ->.
  { destruct (Z.ltb_spec (id - 1 + 1) (zlen (LiteralStarts t))).
    - rewrite decide_False, at_total by lia. do 2 f_equal. lia.
    - rewrite decide_True by lia. done. }
  rewrite go_bind_Ok. set (e := if decide _ then _ else _) in *. rewrite (slice_range (LiteralBytes t)), go_bind_Ok by lia.
  rewrite (slice_csr (Ops t)), go_bind_Ok by lia. rewrite (slice_csr (Args t)), go_bind_Ok by lia. done.
Qed.
End validated.
End TemplatesOk.

(** ** Validated explanations *)

Record explanations_typed (e : ExplanationTable) : Prop := {
  et_starts : Forall is_u32 (UncertaintyStarts e);
  et_counts : Forall is_u32 (UncertaintyCounts e);
  et_rationales : Forall is_u32 (RationaleTemplateIDs e);
  et_uncertainties : Forall is_u32 (UncertaintyTemplateIDs e);
  et_assumptions : Forall is_u32 (AssumptionTemplateIDs e)
}.

Module ExplanationOk.
Import Explanation.

(** The rendered size of a list of templates. *)
Definition renderMax (t : TemplateTable) (ids : list Z) : Z := total (map (λ id, MaxBytes t !!! Z.to_nat (id - 1)) ids).
Definition isTemplate (t : TemplateTable) (id : Z) : Prop := 1 ≤ id ≤ zlen (MaxBytes t).

Section validated.
Context (t : TemplateTable) (Ht : templates_typed t) (Hv : TemplatesOk.validated t).

Lemma maximum_ok id x : is_u32 id → templateMaximum t id = Some x → isTemplate t id ∧ x = MaxBytes t !!! Z.to_nat (id - 1) ∧ 0 ≤ x ≤ MaxRenderedTemplateBytes.
Proof.
  unfold templateMaximum, isTemplate, is_u32. intros Hid. destruct (Z.eqb_spec id 0); [done|]. destruct (Z.ltb_spec (zlen (MaxBytes t)) id); [done|].
  intros [= <-]. destruct (TemplatesOk.vd_lens _ Hv) as (_ & _ & L & _). split; [lia|]. split; [done|].
  by destruct (TemplatesOk.vd_row _ Hv (Z.to_nat (id - 1)) ltac:(lia)).
Qed.

(** Adding templates to a size within the bound, or to the size of one row's start. *)
Lemma addMaximum_ok ids total0 total1 :
  Forall is_u32 ids → 0 ≤ total0 ≤ MaxRenderedExplanationBytes + MaxRenderedTemplateBytes → fold_go (addMaximum t) ids total0 = Ok total1 →
  Forall (isTemplate t) ids ∧ total1 = total0 + renderMax t ids ∧ total0 ≤ total1 ∧ (ids ≠ [] → total1 ≤ MaxRenderedExplanationBytes).
Proof.
  revert total0. induction ids as [|id ids IH]; intros total0 Hall Hb; simpl.
  { intros [= <-]. unfold renderMax, total. simpl. split; [done|]. split; [lia|]. split; [lia|done]. }
  apply Forall_cons in Hall as [Hid Hall]. intros (next & Hadd & Hrest)%go_bind_inv. unfold addMaximum in Hadd.
  apply go_bind_inv in Hadd as (x & Hx & Hadd). destruct (templateMaximum t id) as [x'|] eqn:Em; [|done]. injection Hx as <-.
  destruct (maximum_ok id x' Hid Em) as (Hist & Ex & Hx0). apply go_bind_inv in Hadd as ([] & Hc%check_inv & [= <-]).
  rewrite negb_true_iff, Z.ltb_ge in Hc. unfold MaxRenderedExplanationBytes, MaxRenderedTemplateBytes in *. rewrite u64_small in * by (unfold is_u64; lia).
  destruct (IH (total0 + x') Hall ltac:(lia) Hrest) as (H1 & H2 & H3 & H4).
  split; [by constructor|]. split; [rewrite H2; unfold renderMax, total; simpl; lia|]. split; [lia|]. intros _.
  destruct ids as [|y ids]; [simpl in Hrest; injection Hrest as <-; lia|by apply H4].
Qed.

(** What validation gives for every explanation. *)
Lemma explanations_validate_ok e : explanations_typed e → Validate e t = Ok tt →
  Forall (isTemplate t) (AssumptionTemplateIDs e) ∧ renderMax t (AssumptionTemplateIDs e) ≤ MaxRenderedExplanationBytes ∧
  ∀ id, 1 ≤ id ≤ zlen (RationaleTemplateIDs e) →
  ∃ uncertainty rationale, ExplanationLookup e id = Some (uncertainty, rationale) ∧ isTemplate t rationale ∧ Forall (isTemplate t) uncertainty ∧
    renderMax t (AssumptionTemplateIDs e ++ rationale :: uncertainty) ≤
      MaxRenderedExplanationBytes + (if bool_decide (uncertainty = []) then MaxRenderedTemplateBytes else 0).
Proof.
  intros [T1 T2 T3 T4 T5]. unfold Validate. destruct (Templates.Validate t); [|done|done].
  intros H. apply go_bind_inv in H as ([] & Hl%check_inv & H). rewrite !andb_true_iff, negb_true_iff, bool_decide_eq_true in Hl. destruct Hl as [[_ [L1 L2]] _].
  apply go_bind_inv in H as (assumption & Ha & H). apply go_bind_inv in H as (cursor & Hloop & _).
  destruct (addMaximum_ok (AssumptionTemplateIDs e) 0 assumption T5 ltac:(unfold MaxRenderedExplanationBytes, MaxRenderedTemplateBytes; lia) Ha) as (A1 & A2 & A3 & A4).
  assert (0 ≤ assumption ≤ MaxRenderedExplanationBytes) as Hassume.
  { split; [done|]. destruct (AssumptionTemplateIDs e); [simpl in Ha; injection Ha as <-; unfold MaxRenderedExplanationBytes; lia|by apply A4]. }
  split; [done|]. split; [lia|]. intros id Hid. set (row := Z.to_nat (id - 1)).
  assert (∃ cur cur', validateRow e t assumption row cur = Ok cur') as (cur & cur' & Hrow).
  { assert (∀ m c, for_range m (validateRow e t assumption) 0 = Ok c → ∀ r, (r < m)%nat → ∃ cur cur', validateRow e t assumption r cur = Ok cur') as Hg.
    { induction m as [|m IH]; intros c; [intros _ r ?; lia|]. rewrite for_range_S. intros (c0 & H0 & H1)%go_bind_inv r Hr.
      destruct (decide (r = m)) as [->|]; [by exists c0, c|]. apply (IH c0 H0). lia. }
    apply (Hg _ _ Hloop). lia. }
  unfold validateRow in Hrow. rewrite (at_total (UncertaintyStarts e)), (at_total (UncertaintyCounts e)), (at_total (RationaleTemplateIDs e)) in Hrow by lia.
  rewrite !go_bind_Ok, Nat2Z.id in Hrow. apply go_bind_inv in Hrow as ([] & Hc%check_inv & Hrow). apply go_bind_inv in Hrow as (x & Hx & Hrow).
  destruct (templateMaximum t (RationaleTemplateIDs e !!! row)) as [x'|] eqn:Em; [|done]. injection Hx as <-. apply go_bind_inv in Hrow as (sum & Hsum & _).
  pose proof (Forall_lookup_total_1 _ _ row T1 ltac:(lia)) as U1. pose proof (Forall_lookup_total_1 _ _ row T2 ltac:(lia)) as U2.
  pose proof (Forall_lookup_total_1 _ _ row T3 ltac:(lia)) as U3. destruct (maximum_ok _ _ U3 Em) as (Hrat & Ex & Hx0). unfold is_u32 in U1, U2.
  rewrite negb_true_iff, !orb_false_iff, negb_false_iff, !Z.ltb_ge in Hc. destruct Hc as [[Hc1 _] Hc2]. rewrite u64_small in Hc2, Hsum by (unfold is_u64; lia).
  replace (UncertaintyStarts e !!! row + UncertaintyCounts e !!! row - UncertaintyStarts e !!! row) with (UncertaintyCounts e !!! row) in Hsum by lia.
  unfold MaxRenderedExplanationBytes, MaxRenderedTemplateBytes in *. rewrite u64_small in Hsum by (unfold is_u64; lia).
  set (unc := csr (UncertaintyTemplateIDs e) (UncertaintyStarts e !!! row) (UncertaintyCounts e !!! row)) in *.
  assert (Forall is_u32 unc) as Hu by (apply Forall_forall; intros y Hy%csr_elem; rewrite Forall_forall in T4; by apply T4).
  destruct (addMaximum_ok unc (assumption + x') sum Hu ltac:(unfold MaxRenderedExplanationBytes, MaxRenderedTemplateBytes; lia) Hsum) as (B1 & B2 & B3 & B4).
  exists unc, (RationaleTemplateIDs e !!! row). split.
  - unfold ExplanationLookup. rewrite (proj2 (Z.eqb_neq id 0)) by lia. rewrite !(proj2 (Z.leb_gt _ (id - 1))) by lia. cbn [orb]. fold row.
    rewrite u64_small by (unfold is_u64; lia). destruct Hrat as [Hr0 _].
    rewrite (proj2 (Z.eqb_neq (RationaleTemplateIDs e !!! row) 0)), (proj2 (Z.ltb_ge _ _)), (proj2 (Z.ltb_ge _ _)) by lia. cbn [orb]. fold unc.
    destruct (existsb (λ y, y =? 0) unc) eqn:Ez; [|done]. apply existsb_exists in Ez as (y & Hy & Hz). apply list_elem_of_In in Hy. rewrite Forall_forall in B1.
    destruct (B1 y Hy). lia.
  - split; [done|]. split; [done|]. unfold renderMax in *. rewrite map_app, total_app. simpl. change (total (?x :: ?l)) with (x + total l). rewrite <-Ex.
    case_bool_decide as E; [rewrite E in *; unfold total in *; simpl in *; lia|]. specialize (B4 E). unfold MaxRenderedExplanationBytes in B4. lia.
Qed.
End validated.
End ExplanationOk.

(** ** A row beyond the bound *)

(** One template of 1024 bytes; a row of four assumptions and a rationale. *)
Definition wideTemplates : TemplateTable :=
  {| LiteralBytes := replicate 1024 120; OpStarts := [0]; OpCounts := [1]; LiteralStarts := [0]; MaxBytes := [1024]; Ops := [TemplateOpLiteral]; Args := [1024] |}.
Definition wideExplanations : ExplanationTable :=
  {| RationaleTemplateIDs := [1]; UncertaintyStarts := [0]; UncertaintyCounts := [0]; UncertaintyTemplateIDs := []; AssumptionTemplateIDs := [1; 1; 1; 1] |}.

(** The bytes that the templates of an explanation can expand to. *)
Definition expansion (t : TemplateTable) (ids : list Z) : Z := foldr (λ id n, default 0 (Explanation.templateMaximum t id) + n) 0 ids.

