(* ===== verification/Finalize.v ===== *)
(** * Result finalization: [internal/eval/executor.go], second half, and
    [internal/result/batch.go]

    After the schedule, each request row selects its candidate requirements,
    resolves every clause of the applicable ones to an outcome and keeps the
    preferred outcome with its provenance.  The reference [rowOutcomes] lists
    the outcomes from the denotation; the theorems show that finalization
    never panics, stores the join of that list, names the first candidate that
    attains it as driver, and leaves well-formed CSR offsets. *)

From S2P Require Import Prelude Store Truth Schema Result Program Batch Predicate Simd FactIndex Evidence Executor PolicyIndex.
Import Reason.

Definition clauseExplanationBranchCount : Z := 7.
Definition clauseSatisfiedExplanation : Z := 0.
Definition clauseFalseExplanation : Z := 1.

(** ** Result batches (result/batch.go) *)

Record ResultBatch := {
  rbOutcomeIDs : list Z;
  rbRequirementOffsets : list Z; rbRequirementIDs : list Z;
  rbDriverOffsets : list Z; rbDriverRequirements : list Z; rbDriverClauses : list Z; rbDriverNodes : list Z;
  rbDriverReasons : list Z; rbDriverExplanations : list Z;
  rbEvidenceOffsets : list Z; rbEvidenceIDs : list Z;
  rbReasonOffsets : list Z; rbReasonIDs : list Z; rbReasonNodes : list Z; rbReasonEvidenceIDs : list Z; rbReasonEvidenceStates : list Z;
  rbRemediationOffsets : list Z; rbRemediationIDs : list Z;
  rbRows : Z
}.

(** [Batch.Reset]; capacity is not observable. *)
Definition Reset (rows : Z) : go ResultBatch :=
  check (negb (MaxInt <? u64 (rows + 1))) ErrResultBatchTooLarge ;;
  let offsets := make_ (rows + 1) in
  Ok {| rbOutcomeIDs := make_ rows;
        rbRequirementOffsets := offsets; rbRequirementIDs := [];
        rbDriverOffsets := offsets; rbDriverRequirements := []; rbDriverClauses := []; rbDriverNodes := [];
        rbDriverReasons := []; rbDriverExplanations := [];
        rbEvidenceOffsets := offsets; rbEvidenceIDs := [];
        rbReasonOffsets := offsets; rbReasonIDs := []; rbReasonNodes := []; rbReasonEvidenceIDs := []; rbReasonEvidenceStates := [];
        rbRemediationOffsets := offsets; rbRemediationIDs := [];
        rbRows := rows |}.

(** ** Reading roots *)

Definition instructionTruth (p : Program) (tw : store) (instruction : Z) (row : nat) (rows : Z) : go tv :=
  slot ← at_ (TruthSlots p) (instruction - 1);
  planes ← truthSlot p tw slot rows;
  pw ← load tw (Positive planes) (row `div` 64);
  nw ← load tw (Negative planes) (row `div` 64);
  let bit := bit64 (Z.of_nat (row `mod` 64)) in
  Ok (negb (Z.land pw bit =? 0), negb (Z.land nw bit =? 0)).

Definition instructionReasons (p : Program) (rw : store) (instruction : Z) (row : nat) (rows : Z) : go Z :=
  slot ← at_ (ReasonSlots p) (instruction - 1);
  planes ← reasonSlot p rw slot rows;
  let words := nwords rows in
  let bit := bit64 (Z.of_nat (row `mod` 64)) in
  fold_go (λ reason mask,
    w ← load rw (Slice (off planes + Z.to_nat (reason - 1) * words) words) (row `div` 64);
    Ok (if negb (Z.land w bit =? 0) then With mask reason else mask)) allReasons 0.

(** ** Candidate outcomes *)

Record outcomeCandidate := {
  ocRemediations : list Z; ocOutcome : Z; ocExplanation : Z; ocRequirement : Z; ocClause : Z; ocNode : Z;
  ocReasons : Z; ocDriverReason : Z; ocApplicability : bool
}.

Definition noCandidate : outcomeCandidate :=
  {| ocRemediations := []; ocOutcome := 0; ocExplanation := 0; ocRequirement := 0; ocClause := 0; ocNode := 0;
     ocReasons := 0; ocDriverReason := 0; ocApplicability := false |}.

Definition executionResolutionRemediations (resolution : Resolution) : list Z :=
  if Terminal_ resolution then [] else Remediations_ resolution.

Definition executionClauseRemediations (p : Program) (clauseRow outcomeID : Z) : go (list Z) :=
  match Outcomes.Lookup (Outcomes_ p) outcomeID with
  | None => Panic "eval: invalid clause outcome"
  | Some outcome =>
    if oTerminal outcome then Ok [] else
    start ← at_ (ClauseRemediationStarts p) clauseRow;
    count ← at_ (ClauseRemediationCounts p) clauseRow;
    slice_ (ClauseRemediationIDs p) start (start + count)
  end.

Definition maxExecutionRemediations (p : Program) : Z :=
  foldl Z.max (foldl Z.max 0 (ClauseRemediationCounts p)) (RemediationCounts (Resolutions p)).

(** The evidence roots of a clause with their source nodes. *)
Definition clauseEvidence (p : Program) (clauseRow : Z) : go (list Z * Z) :=
  start ← at_ (ClauseEvidenceStarts p) clauseRow;
  count ← at_ (ClauseEvidenceCounts p) clauseRow;
  roots ← slice_ (ClauseEvidenceIDs p) start (start + count);
  Ok (roots, start).

Section finalize.
Context (env : ExecEnv) (p : Program) (batch : Batch) (tw rw : store).

Definition resolveApplicability (requirementID clauseID root sourceNode : Z) (row : nat) : go outcomeCandidate :=
  reasons ← instructionReasons p rw root row (Rows batch);
  resolved ← Resolve.Resolve (resolver p) clauseID reasons;
  match resolved with
  | None => Panic "eval: unresolved applicability has no reason"
  | Some resolution =>
    Ok {| ocRemediations := executionResolutionRemediations resolution; ocOutcome := Outcome_ resolution;
          ocExplanation := Explanation_ resolution; ocRequirement := requirementID; ocClause := clauseID;
          ocNode := sourceNode; ocReasons := reasons; ocDriverReason := Reason_ resolution; ocApplicability := true |}
  end.

(** The loop over evidence edges looking for the first root with property [test]. *)
Fixpoint firstEdge {A} (test : Z → go (option A)) (roots : list Z) (edge : Z) (msg : string) : go (A * Z) :=
  match roots with
  | [] => Panic msg
  | root :: rest =>
    found ← test root;
    match found with Some a => Ok (a, edge) | None => firstEdge test rest (edge + 1) msg end
  end.

Definition firstNegativeNode (clauseRow : Z) (row : nat) : go Z :=
  assertion ← at_ (ClauseAssertionRoots p) clauseRow;
  '(_, negative) ← instructionTruth p tw assertion row (Rows batch);
  if negative : bool then at_ (ClauseAssertionSourceNodeIDs p) clauseRow else
  '(roots, start) ← clauseEvidence p clauseRow;
  '(_, edge) ← firstEdge (λ evidence,
      '(_, negative) ← instructionTruth p tw evidence row (Rows batch);
      Ok (if negative : bool then Some tt else None)) roots start "eval: false clause has no negative driver";
  at_ (ClauseEvidenceSourceNodeIDs p) edge.

Definition firstReasonNode (clauseRow : Z) (row : nat) (reason : Z) : go Z :=
  assertion ← at_ (ClauseAssertionRoots p) clauseRow;
  reasons ← instructionReasons p rw assertion row (Rows batch);
  if Has reasons reason then at_ (ClauseAssertionSourceNodeIDs p) clauseRow else
  '(roots, start) ← clauseEvidence p clauseRow;
  '(_, edge) ← firstEdge (λ evidence,
      reasons ← instructionReasons p rw evidence row (Rows batch);
      Ok (if Has reasons reason then Some tt else None)) roots start "eval: unresolved clause has no reason driver";
  at_ (ClauseEvidenceSourceNodeIDs p) edge.

(** Assertion and evidence combined: [(positive, negative, reasons)]. *)
Definition clauseTruth (assertion : Z) (roots : list Z) (row : nat) : go (bool * bool * Z) :=
  '(positive, negative) ← instructionTruth p tw assertion row (Rows batch);
  reasons ← instructionReasons p rw assertion row (Rows batch);
  fold_go (λ evidence st,
    let '(positive, negative, reasons) := st in
    '(evidencePositive, evidenceNegative) ← instructionTruth p tw evidence row (Rows batch);
    er ← instructionReasons p rw evidence row (Rows batch);
    Ok (positive && evidencePositive, negative || evidenceNegative, Z.lor reasons er)) roots (positive, negative, reasons).

Definition resolveActiveClause (requirementID clauseID : Z) (row : nat) : go outcomeCandidate :=
  let clauseRow := clauseID - 1 in
  assertion ← at_ (ClauseAssertionRoots p) clauseRow;
  '(roots, _) ← clauseEvidence p clauseRow;
  '(positive, negative, reasons) ← clauseTruth assertion roots row;
  if positive && negb negative then
    outcome ← at_ (ClauseOnSatisfied p) clauseRow;
    explanation ← at_ (ClauseExplanationIDs p) (clauseRow * clauseExplanationBranchCount + clauseSatisfiedExplanation);
    node ← at_ (ClauseAssertionSourceNodeIDs p) clauseRow;
    rem ← executionClauseRemediations p clauseRow outcome;
    Ok {| ocRemediations := rem; ocOutcome := outcome; ocExplanation := explanation; ocRequirement := requirementID;
          ocClause := clauseID; ocNode := node; ocReasons := 0; ocDriverReason := 0; ocApplicability := false |}
  else if negb positive && negative then
    outcome ← at_ (ClauseOnFalse p) clauseRow;
    explanation ← at_ (ClauseExplanationIDs p) (clauseRow * clauseExplanationBranchCount + clauseFalseExplanation);
    node ← firstNegativeNode clauseRow row;
    rem ← executionClauseRemediations p clauseRow outcome;
    Ok {| ocRemediations := rem; ocOutcome := outcome; ocExplanation := explanation; ocRequirement := requirementID;
          ocClause := clauseID; ocNode := node; ocReasons := 0; ocDriverReason := 0; ocApplicability := false |}
  else
    resolved ← Resolve.Resolve (resolver p) clauseID reasons;
    match resolved with
    | None => Panic "eval: unresolved clause has no reason"
    | Some resolution =>
      node ← firstReasonNode clauseRow row (Reason_ resolution);
      Ok {| ocRemediations := executionResolutionRemediations resolution; ocOutcome := Outcome_ resolution;
            ocExplanation := Explanation_ resolution; ocRequirement := requirementID; ocClause := clauseID;
            ocNode := node; ocReasons := reasons; ocDriverReason := Reason_ resolution; ocApplicability := false |}
    end.

Definition preferExecutionCandidate (best candidate : outcomeCandidate) : go outcomeCandidate :=
  winner ← Outcomes.Prefer (Outcomes_ p) (ocOutcome best) (ocOutcome candidate);
  match winner with
  | None => Panic "eval: invalid outcome candidate"
  | Some winner => Ok (if (ocOutcome best =? 0) || negb (winner =? ocOutcome best) then candidate else best)
  end.

(** ** Provenance of a reason *)

(** The record loop: stop at a record with the reason; for a conflict,
    remember the first participant [(participantID, participantState)]. *)
Fixpoint causalRecord (predicate : EvidencePredicate) (reason : Z) (refs : list Z) (participant : Z * Z) : go (Z * Z) :=
  let e := Evidence batch in
  match refs with
  | [] =>
    if (reason =? ReasonConflict) && negb (participant.1 =? 0) then Ok participant
    else Panic "eval: evidence reason has no causal record"
  | evidenceRow :: rest =>
    kind ← at_ (eKinds e) evidenceRow;
    if negb (kind =? epKind predicate) then causalRecord predicate reason rest participant else
    id ← at_ (eIDs e) evidenceRow;
    state ← at_ (eStates e) evidenceRow;
    c ← classifyRow e (stateReasons (states env)) predicate evidenceRow;
    if Has (creasons c) reason then Ok (id, state)
    else if reason =? ReasonConflict then
      causalRecord predicate reason rest
        (if (participant.1 =? 0) && (cpositive c || cnegative c) then (id, state) else participant)
    else causalRecord predicate reason rest participant
  end.

Definition firstEvidenceReasonRecord (instruction : Z) (row : nat) (reason : Z) : go (Z * Z) :=
  if reason =? ReasonMissing then Ok (0, 0) else
  predicate ← instructionPredicate p (instruction - 1);
  start ← at_ (EvidenceOffsets batch) (Z.of_nat row);
  end_ ← at_ (EvidenceOffsets batch) (Z.of_nat row + 1);
  refs ← slice_ (EvidenceRefs batch) start end_;
  causalRecord predicate reason refs (0, 0).

Definition reasonProvenance (candidate : outcomeCandidate) (row : nat) (reason : Z) : go (Z * Z * Z) :=
  if ocApplicability candidate then Ok (ocNode candidate, 0, 0) else
  let clauseRow := ocClause candidate - 1 in
  assertion ← at_ (ClauseAssertionRoots p) clauseRow;
  reasons ← instructionReasons p rw assertion row (Rows batch);
  if Has reasons reason then node ← at_ (ClauseAssertionSourceNodeIDs p) clauseRow; Ok (node, 0, 0) else
  '(roots, start) ← clauseEvidence p clauseRow;
  '(record, edge) ← firstEdge (λ evidence,
      reasons ← instructionReasons p rw evidence row (Rows batch);
      if negb (Has reasons reason) then Ok None else
      record ← firstEvidenceReasonRecord evidence row reason; Ok (Some record))
    roots start "eval: unresolved clause has no reason provenance";
  node ← at_ (ClauseEvidenceSourceNodeIDs p) edge;
  Ok (node, record.1, record.2).

(** ** One request row *)

(** Selector facts of a row in [ApplicabilityIndex.FieldIDs] order. *)
Definition selectorFacts (row : nat) : go (list Z * list Z) :=
  facts ← map_go (λ field,
    let '(_, column) := default (0, 0) (SchemaLookup (FieldIndex p) field) in
    presence ← batchWordColumn batch (PresenceMasks batch) (u32 (field - 1));
    pw ← at_ presence (Z.of_nat (row `div` 64));
    if negb (Z.land pw (bit64 (Z.of_nat (row `mod` 64))) =? 0) then
      vs ← batchRowColumn batch (SymbolValues batch) column;
      v ← at_ vs (Z.of_nat row);
      Ok (v, 1)
    else Ok (0, 0)) (pFieldIDs (ApplicabilityIndex p));
  Ok (map fst facts, map snd facts).

(** [query] is the policy bound to the executor's query. *)
Definition selectRequirementCandidates (query : Policy) (row : nat) : go (list Z) :=
  '(selectorValues, selectorPresent) ← selectorFacts row;
  match Candidates query (make_ (pWordCount (ApplicabilityIndex p))) selectorValues selectorPresent with
  | Err _ => Panic "eval: invalid bound applicability query"
  | r => r
  end.

(** One requirement: the appended requirement IDs and the best candidate so far. *)
Definition finalizeRequirement (candidateWords : list Z) (row requirementRow : nat) (st : list Z * outcomeCandidate)
    : go (list Z * outcomeCandidate) :=
  let '(ids, best) := st in
  cw ← at_ candidateWords (Z.of_nat (requirementRow `div` 64));
  if Z.land cw (bit64 (Z.of_nat (requirementRow `mod` 64))) =? 0 then Ok st else
  requirementID ← at_ (RequirementIDs p) (Z.of_nat requirementRow);
  root ← at_ (RequirementRoots p) (Z.of_nat requirementRow);
  '(positive, negative) ← instructionTruth p tw root row (Rows batch);
  if negb positive && negative then Ok st else
  start ← at_ (RequirementClauseStarts p) (Z.of_nat requirementRow);
  count ← at_ (RequirementClauseCounts p) (Z.of_nat requirementRow);
  clauses ← slice_ (RequirementClauseIDs p) start (start + count);
  best ← fold_go (λ clauseID best,
    candidate ← (if positive && negb negative then resolveActiveClause requirementID clauseID row
                 else node ← at_ (RequirementSourceNodeIDs p) (Z.of_nat requirementRow);
                      resolveApplicability requirementID clauseID root node row);
    preferExecutionCandidate best candidate) clauses best;
  Ok (ids ++ [requirementID], best).

(** The evidence IDs a row reports. *)
Definition rowEvidence (usesEvidence : bool) (row : nat) : go (list Z) :=
  if usesEvidence then
    start ← at_ (EvidenceOffsets batch) (Z.of_nat row);
    end_ ← at_ (EvidenceOffsets batch) (Z.of_nat row + 1);
    refs ← slice_ (EvidenceRefs batch) start end_;
    map_go (λ ref, at_ (eIDs (Evidence batch)) ref) refs
  else Ok [].

(** The appends and stores of one row: [ids] are the requirement IDs so far. *)
Definition emitRow (row : nat) (ids : list Z) (best : outcomeCandidate) (reasonRows : list (Z * Z * Z * Z))
    (evidence : list Z) (dst : ResultBatch) : ResultBatch :=
  let decided := negb (ocOutcome best =? 0) in
  let add (l : list Z) (x : Z) := if decided then l ++ [x] else l in
  let drivers := add (rbDriverNodes dst) (ocNode best) in
  let evidenceIDs := rbEvidenceIDs dst ++ evidence in
  let reasonIDs := rbReasonIDs dst ++ map (λ t, t.1.1.1) reasonRows in
  let remediationIDs := if decided then rbRemediationIDs dst ++ ocRemediations best else rbRemediationIDs dst in
  {| rbOutcomeIDs := if decided then <[row := ocOutcome best]> (rbOutcomeIDs dst) else rbOutcomeIDs dst;
     rbRequirementOffsets := <[S row := u32 (zlen ids)]> (rbRequirementOffsets dst); rbRequirementIDs := ids;
     rbDriverOffsets := <[S row := u32 (zlen drivers)]> (rbDriverOffsets dst);
     rbDriverRequirements := add (rbDriverRequirements dst) (ocRequirement best);
     rbDriverClauses := add (rbDriverClauses dst) (ocClause best);
     rbDriverNodes := drivers;
     rbDriverReasons := add (rbDriverReasons dst) (ocDriverReason best);
     rbDriverExplanations := add (rbDriverExplanations dst) (ocExplanation best);
     rbEvidenceOffsets := <[S row := u32 (zlen evidenceIDs)]> (rbEvidenceOffsets dst); rbEvidenceIDs := evidenceIDs;
     rbReasonOffsets := <[S row := u32 (zlen reasonIDs)]> (rbReasonOffsets dst); rbReasonIDs := reasonIDs;
     rbReasonNodes := rbReasonNodes dst ++ map (λ t, t.1.1.2) reasonRows;
     rbReasonEvidenceIDs := rbReasonEvidenceIDs dst ++ map (λ t, t.1.2) reasonRows;
     rbReasonEvidenceStates := rbReasonEvidenceStates dst ++ map snd reasonRows;
     rbRemediationOffsets := <[S row := u32 (zlen remediationIDs)]> (rbRemediationOffsets dst);
     rbRemediationIDs := remediationIDs; rbRows := rbRows dst |}.

Definition finalizeRow (query : Policy) (usesEvidence : bool) (row : nat) (dst : ResultBatch) : go ResultBatch :=
  candidateWords ← selectRequirementCandidates query row;
  '(ids, best) ← for_range (length (RequirementIDs p)) (finalizeRequirement candidateWords row)
                   (rbRequirementIDs dst, noCandidate);
  reasonRows ← (if negb (ocOutcome best =? 0) then
    map_go (λ reason, '(node, evidenceID, state) ← reasonProvenance best row reason; Ok (reason, node, evidenceID, state))
      (List.filter (Has (ocReasons best)) allReasons) else Ok []);
  evidence ← rowEvidence usesEvidence row;
  Ok (emitRow row ids best reasonRows evidence dst).

Definition finalizeResults (query : Policy) (usesEvidence : bool) (dst : ResultBatch) : go ResultBatch :=
  for_range (Z.to_nat (Rows batch)) (finalizeRow query usesEvidence) dst.
End finalize.

(** ** Roots read back the denotation *)

Lemma Valid_nonneg mask : Valid mask = true → 0 ≤ mask.
Proof.
  unfold Valid. rewrite Z.eqb_eq. intros E.
  assert (0 ≤ Z.ldiff mask AllReasonsMask) as Hn by (rewrite E; done).
  apply Z.ldiff_nonneg in Hn as [Hn|Hn]; [done|]. by vm_compute in Hn.
Qed.

Lemma allReasons_valid q : q ∈ allReasons ↔ validReason q.
Proof. unfold allReasons, validReason. rewrite !elem_of_cons, elem_of_nil. lia. Qed.

Lemma fold_lor_valid l : Forall (λ m, Valid m = true) l → Valid (foldr Z.lor 0 l) = true.
Proof. induction 1; simpl; [done|]. by apply Valid_lor. Qed.

(** The value of a root at a request row. *)
Definition rootValue (p : Program) (b : Batch) (reasons : list Z) (root : Z) (r : nat) : tv * Z :=
  denote p b reasons (Z.to_nat (root - 1)) r.

Section roots.
Context (p : Program) (b : Batch) (env : ExecEnv) (Hx : exec_ok p b env).

Local Abbreviation reasons := (stateReasons (states env)).

(** A root instruction whose slots survive to the end of the schedule. *)
Definition readable (root : Z) : Prop :=
  1 ≤ root ≤ zlen (Opcodes p) ∧
  keeps (TruthSlots p) (Z.to_nat (root - 1)) (length (Opcodes p)) ∧
  keeps (ReasonSlots p) (Z.to_nat (root - 1)) (length (Opcodes p)).

Lemma denote_valid i r : (i < length (Opcodes p))%nat → Valid (denote p b reasons i r).2 = true.
Proof.
  pose proof (xo_sched _ _ _ Hx) as Hs.
  induction i as [i IH] using lt_wf_ind. intros Hi. unfold denote, instrValue.
  set (args := map _ (operandsOf p i)).
  assert (Forall (λ v, Valid v.2 = true) args) as Hargs.
  { apply Forall_map, Forall_forall. intros o Ho. pose proof (sk_earlier _ Hs i o Hi Ho).
    rewrite denoteAll_lookup by lia. apply IH; lia. }
  assert (Valid (foldr Z.lor 0 (map snd args)) = true) as Hfold by (apply fold_lor_valid; by apply Forall_map).
  destruct (_ =? OpcodeBoolean); [done|].
  destruct (Z.eqb_spec (Opcodes p !!! i) OpcodeEvidence) as [E|_].
  { pose proof (usesEvidence_at p i Hi E) as Hu.
    apply (evidenceRow_valid b p); [by apply (xo_evidence _ _ _ Hx)|apply (xo_states _ _ _ Hx)]. }
  destruct (_ =? OpcodeAll); [done|]. destruct (_ =? OpcodeAny); [done|].
  destruct (Z.eqb_spec (Opcodes p !!! i) OpcodeNot) as [E|_].
  - destruct (sk_operands _ Hs i Hi) as (Ho1 & Ho2 & Ho3 & _ & Hnot). simpl.
    apply (Forall_lookup_total_1 (λ v : tv * Z, Valid v.2 = true)); [done|].
    unfold args. rewrite length_map. unfold operandsOf. rewrite length_csr; specialize (Hnot E); lia.
  - unfold predicateRow. repeat case_match; done.
Qed.

Context (st : ExecState) (Hinv : schedule_inv p b env (length (Opcodes p)) st).

Lemma instructionTruth_ok root r :
  readable root → Z.of_nat r < Rows b →
  instructionTruth p (truthWords st) root r (Rows b) = Ok (rootValue p b reasons root r).1.
Proof.
  intros (Hroot & Hkt & _) Hr. pose proof (xo_sched _ _ _ Hx) as Hs. destruct Hinv as ((Hg & _) & Hit & _).
  destruct (sk_lens _ Hs) as (Hl & _). pose proof (rows_u32 p b env Hx) as Hu.
  set (i := Z.to_nat (root - 1)) in *. assert (i < length (Opcodes p))%nat as Hi by lia.
  unfold instructionTruth. rewrite at_total by lia. fold i. simpl.
  destruct (truthSlot_ok p (Rows b) Hu (sk_counts _ Hs) _ _ Hg (proj1 (sk_slots _ Hs i Hi))) as [-> (Hl1 & Hl2 & Hb1 & Hb2 & _)].
  rewrite go_bind_Ok. pose proof (rowOk_words (Rows b) Hu r Hr) as Hw. pose proof (row_split r).
  rewrite !load_Ok by (done || (rewrite ?Hl1, ?Hl2; lia)). simpl. rewrite !land_bit64_ne0 by lia. f_equal.
  unfold rootValue. fold i. rewrite <-(Hit i Hi Hkt r Hr). done.
Qed.

Lemma instructionReasons_ok root r :
  readable root → Z.of_nat r < Rows b →
  instructionReasons p (reasonWords st) root r (Rows b) = Ok (rootValue p b reasons root r).2.
Proof.
  intros (Hroot & _ & Hkr) Hr. pose proof (xo_sched _ _ _ Hx) as Hs. destruct Hinv as ((_ & Hg) & _ & Hir).
  destruct (sk_lens _ Hs) as (_ & Hl & _). pose proof (rows_u32 p b env Hx) as Hu.
  unfold rootValue. set (i := Z.to_nat (root - 1)) in *. assert (i < length (Opcodes p))%nat as Hi by lia.
  unfold instructionReasons. rewrite at_total by lia. fold i. simpl.
  destruct (reasonSlot_ok p (Rows b) Hu (sk_counts _ Hs) _ _ Hg (proj2 (sk_slots _ Hs i Hi))) as (-> & Hb & Hlen).
  rewrite go_bind_Ok. pose proof (rowOk_words (Rows b) Hu r Hr) as Hw. pose proof (row_split r).
  set (s := rslice _ _) in *.
  destruct (fold_go_total (λ pre mask, Valid mask = true ∧
      ∀ q, validReason q → Has mask q = bool_decide (q ∈ pre) && Has (denote p b reasons i r).2 q)
    (λ reason mask,
      w ← load (reasonWords st) (Slice (off s + Z.to_nat (reason - 1) * nwords (Rows b)) (nwords (Rows b))) (r `div` 64);
      Ok (if negb (Z.land w (bit64 (Z.of_nat (r `mod` 64))) =? 0) then With mask reason else mask)) allReasons 0)
    as (mask & Hmask & Hv & Hhas).
  { split; [done|]. intros q _. by rewrite Has_0. }
  { intros pre q post mask Hall [Hv Hhas].
    assert (q ∈ allReasons) as Hq by (rewrite Hall; set_solver). assert (validReason q) as Hvq.
    { by apply allReasons_valid. }
    assert (Z.to_nat (q - 1) * nwords (Rows b) + nwords (Rows b) ≤ 9 * nwords (Rows b))%nat as Hwin.
    { transitivity (S (Z.to_nat (q - 1)) * nwords (Rows b))%nat; [lia|]. apply Nat.mul_le_mono_r. unfold validReason in Hvq. lia. }
    unfold in_bounds in Hb. rewrite load_Ok by (unfold in_bounds; cbn [off len]; lia). rewrite go_bind_Ok. cbn [off].
    eexists; split; [done|]. rewrite land_bit64_ne0 by lia.
    pose proof (Hir i Hi Hkr (q, r) (conj Hvq Hr)) as Hbit. unfold readReason, reasonAt in Hbit. cbn [fst snd] in Hbit.
    fold s in Hbit. rewrite Hbit. split.
    - destruct (Has _ q); [by apply Valid_With|done].
    - intros t Ht. destruct (Has (denote p b reasons i r).2 q) eqn:Hd.
      + rewrite Has_With, Hhas, (bool_decide_eq_true_2 (validReason t)) by done. simpl.
        destruct (decide (t = q)) as [->|Hne].
        * rewrite (bool_decide_eq_true_2 (q = q)), (bool_decide_eq_true_2 (q ∈ pre ++ [q])), Hd by set_solver. by rewrite orb_true_r.
        * rewrite (bool_decide_eq_false_2 (t = q)), orb_false_r by done. f_equal. apply bool_decide_ext. set_solver.
      + rewrite Hhas by done. destruct (decide (t = q)) as [->|Hne]; [by rewrite Hd, !andb_false_r|].
        f_equal. apply bool_decide_ext. set_solver. }
  etransitivity; [exact Hmask|]. f_equal. pose proof (denote_valid i r Hi) as Hvd.
  apply mask_ext; auto using Valid_nonneg. intros q Hq. rewrite Hhas by done.
  by rewrite bool_decide_eq_true_2 by (by apply allReasons_valid).
Qed.
End roots.

(** ** Semantic columns *)

(** A root ID names an instruction with a root flag. *)
Definition isRoot (p : Program) (root : Z) : Prop :=
  1 ≤ root ≤ zlen (Opcodes p) ∧ RootFlags p !!! Z.to_nat (root - 1) ≠ 0.

(** The validated semantic columns of a program. *)
Record sem_ok (p : Program) : Prop := {
  so_req_lens : length (RequirementRoots p) = length (RequirementIDs p) ∧
    length (RequirementSourceNodeIDs p) = length (RequirementIDs p) ∧
    length (RequirementClauseStarts p) = length (RequirementIDs p) ∧
    length (RequirementClauseCounts p) = length (RequirementIDs p);
  so_index : RequirementCount (ApplicabilityIndex p) = zlen (RequirementIDs p);
  so_clause_lens : length (ClauseEvidenceStarts p) = length (ClauseAssertionRoots p) ∧
    length (ClauseEvidenceCounts p) = length (ClauseAssertionRoots p) ∧
    length (ClauseOnSatisfied p) = length (ClauseAssertionRoots p) ∧
    length (ClauseOnFalse p) = length (ClauseAssertionRoots p) ∧
    length (ClauseAssertionSourceNodeIDs p) = length (ClauseAssertionRoots p) ∧
    length (ClauseEvidenceSourceNodeIDs p) = length (ClauseEvidenceIDs p) ∧
    zlen (ClauseExplanationIDs p) = zlen (ClauseAssertionRoots p) * clauseExplanationBranchCount ∧
    length (ClauseRemediationStarts p) = length (ClauseAssertionRoots p) ∧
    length (ClauseRemediationCounts p) = length (ClauseAssertionRoots p);
  so_blocks : zlen (OutcomeIDs (Resolutions p)) = zlen (ClauseAssertionRoots p) * ReasonCount;
  so_fields f : f ∈ pFieldIDs (ApplicabilityIndex p) → ∃ column,
    SchemaLookup (FieldIndex p) f = Some (ValueKindSymbol, column) ∧ 1 ≤ f ≤ zlen (sKinds (FieldIndex p)) ∧
    0 ≤ column < sCounts (FieldIndex p) !!! Z.to_nat ValueKindSymbol;
  so_flagged_root q : (q < length (RequirementIDs p))%nat → isRoot p (RequirementRoots p !!! q);
  so_clauses q : (q < length (RequirementIDs p))%nat →
    0 ≤ RequirementClauseStarts p !!! q ∧ 0 ≤ RequirementClauseCounts p !!! q ∧
    RequirementClauseStarts p !!! q + RequirementClauseCounts p !!! q ≤ zlen (RequirementClauseIDs p);
  so_clause_id q c : (q < length (RequirementIDs p))%nat →
    c ∈ csr (RequirementClauseIDs p) (RequirementClauseStarts p !!! q) (RequirementClauseCounts p !!! q) →
    1 ≤ c ≤ zlen (ClauseAssertionRoots p);
  so_flagged_assertion c : (c < length (ClauseAssertionRoots p))%nat → isRoot p (ClauseAssertionRoots p !!! c);
  so_evidence c : (c < length (ClauseAssertionRoots p))%nat →
    0 ≤ ClauseEvidenceStarts p !!! c ∧ 0 ≤ ClauseEvidenceCounts p !!! c ∧
    ClauseEvidenceStarts p !!! c + ClauseEvidenceCounts p !!! c ≤ zlen (ClauseEvidenceIDs p);
  so_flagged_evidence c e : (c < length (ClauseAssertionRoots p))%nat →
    e ∈ csr (ClauseEvidenceIDs p) (ClauseEvidenceStarts p !!! c) (ClauseEvidenceCounts p !!! c) → isRoot p e;
  so_outcomes c : (c < length (ClauseAssertionRoots p))%nat →
    Outcomes.known (Outcomes_ p) (ClauseOnSatisfied p !!! c) ∧ Outcomes.known (Outcomes_ p) (ClauseOnFalse p !!! c);
  so_remediations c : (c < length (ClauseAssertionRoots p))%nat →
    0 ≤ ClauseRemediationStarts p !!! c ∧ 0 ≤ ClauseRemediationCounts p !!! c ∧
    ClauseRemediationStarts p !!! c + ClauseRemediationCounts p !!! c ≤ zlen (ClauseRemediationIDs p)
}.

Lemma so_root p : sem_ok p → ∀ q, (q < length (RequirementIDs p))%nat → 1 ≤ RequirementRoots p !!! q ≤ zlen (Opcodes p).
Proof. intros Hs q Hq. apply (so_flagged_root _ Hs q Hq). Qed.

Lemma so_assertion p : sem_ok p → ∀ c, (c < length (ClauseAssertionRoots p))%nat → 1 ≤ ClauseAssertionRoots p !!! c ≤ zlen (Opcodes p).
Proof. intros Hs c Hc. apply (so_flagged_assertion _ Hs c Hc). Qed.

Lemma so_evidence_root p : sem_ok p → ∀ c e, (c < length (ClauseAssertionRoots p))%nat →
  e ∈ csr (ClauseEvidenceIDs p) (ClauseEvidenceStarts p !!! c) (ClauseEvidenceCounts p !!! c) → 1 ≤ e ≤ zlen (Opcodes p).
Proof. intros Hs c e Hc He. apply (so_flagged_evidence _ Hs c e Hc He). Qed.

(** What the compiler guarantees beyond the executor's checks: root slots are
    never reused, evidence roots are evidence instructions, and the resolver
    was built from the program's own tables. *)
Record roots_ok (p : Program) : Prop := {
  ro_kept root : isRoot p root →
    keeps (TruthSlots p) (Z.to_nat (root - 1)) (length (Opcodes p)) ∧
    keeps (ReasonSlots p) (Z.to_nat (root - 1)) (length (Opcodes p));
  ro_evidence root : root ∈ ClauseEvidenceIDs p → 1 ≤ root ≤ zlen (Opcodes p) → Opcodes p !!! Z.to_nat (root - 1) = OpcodeEvidence;
  ro_tables : outcomes (resolver p) = Outcomes_ p ∧ rules (resolver p) = Resolutions p;
  ro_resolver : Resolve.resolver_ok (resolver p);
  ro_typed : Resolve.resolver_typed (resolver p)
}.

Lemma foldl_max_ge (l : list Z) a x : x ≤ a ∨ x ∈ l → x ≤ foldl Z.max a l.
Proof.
  revert a. induction l as [|y l IH]; intros a Hx; simpl; [set_solver|]. apply IH.
  destruct Hx as [Hx|[->|Hx]%elem_of_cons]; [left; lia|left; lia|by right].
Qed.

(** ** The first edge with a property *)

Lemma firstEdge_ok {A} (test : Z → go (option A)) (f : Z → option A) roots edge msg :
  (∀ x, x ∈ roots → test x = Ok (f x)) → (∃ x, x ∈ roots ∧ is_Some (f x)) →
  ∃ k x a, roots !! k = Some x ∧ f x = Some a ∧ (∀ j y, (j < k)%nat → roots !! j = Some y → f y = None) ∧
    firstEdge test roots edge msg = Ok (a, edge + Z.of_nat k).
Proof.
  revert edge. induction roots as [|x roots IH]; intros edge Ht (y & Hy & Hsome); [set_solver|].
  simpl. rewrite Ht by set_solver. simpl. destruct (f x) as [a|] eqn:Hfx.
  - exists 0%nat, x, a. split_and!; [done|done|intros; lia|]. by rewrite Z.add_0_r.
  - destruct (IH (edge + 1)) as (k & z & a & Hk & Ha & Hno & ->).
    + intros z Hz. apply Ht. set_solver.
    + exists y. split; [|done]. apply elem_of_cons in Hy as [->|]; [|done]. rewrite Hfx in Hsome. by destruct Hsome.
    + exists (S k), z, a. split_and!; [done|done| |f_equal; f_equal; lia].
      intros [|j] w Hj Hw; [by simplify_eq/=|]. eapply Hno; [|done]. lia.
Qed.

(** ** Causal evidence records *)

Section causal.
Context (env : ExecEnv) (p : Program) (b : Batch) (predicate : EvidencePredicate).
Context (Hok : evidence_ok b p) (Hre : reasons_ok p (stateReasons (states env))).

Local Abbreviation classOf := (recordClass (Evidence b) (stateReasons (states env)) predicate).

Definition ofKind (ref : Z) : bool := eKinds (Evidence b) !!! Z.to_nat ref =? epKind predicate.

(** Some record of [refs] explains [reason]. *)
Definition explains (reason : Z) (refs : list Z) (participant : Z) : Prop :=
  (∃ ref, ref ∈ refs ∧ ofKind ref = true ∧ Has (creasons (classOf ref)) reason = true) ∨
  (reason = ReasonConflict ∧ (participant ≠ 0 ∨
     ∃ ref, ref ∈ refs ∧ ofKind ref = true ∧ cpositive (classOf ref) || cnegative (classOf ref) = true)).

Lemma causalRecord_ok reason refs participant :
  (∀ ref, ref ∈ refs → ref ∈ EvidenceRefs b) → explains reason refs participant.1 →
  ∃ record, causalRecord env b predicate reason refs participant = Ok record.
Proof.
  revert participant. induction refs as [|ref refs IH]; intros participant Hin Hex.
  - simpl. destruct Hex as [(? & ? & _)|(-> & [Hne|(? & ? & _)])]; [set_solver| |set_solver].
    rewrite Z.eqb_refl, (proj2 (Z.eqb_neq _ _)) by done. by eexists.
  - pose proof (Hin ref ltac:(set_solver)) as Href. pose proof (eo_refs _ _ Hok ref Href) as Hr.
    destruct (eo_cols _ _ Hok) as (Hl1 & Hl2 & _). cbn [causalRecord]. cbv zeta.
    rewrite (at_total (eKinds (Evidence b))) by lia. rewrite go_bind_Ok. fold (ofKind ref).
    assert (∀ q, q ∈ refs → q ∈ EvidenceRefs b) as Hin' by set_solver.
    destruct (ofKind ref) eqn:Hk; simpl.
    2: { apply IH; [done|]. destruct Hex as [(x & Hx & Hkx & Hhx)|(-> & [Hne|(x & Hx & Hkx & Hpx)])].
         - left. exists x. split_and!; [|done..]. apply elem_of_cons in Hx as [->|]; [congruence|done].
         - right. auto.
         - right. split; [done|]. right. exists x. split_and!; [|done..]. apply elem_of_cons in Hx as [->|]; [congruence|done]. }
    rewrite (at_total (eIDs (Evidence b))), (at_total (eStates (Evidence b))) by lia. simpl.
    rewrite (classifyRow_ok b p _ predicate Hok Hre ref Href). simpl.
    destruct (Has (creasons (classOf ref)) reason) eqn:Hh; [by eexists|].
    destruct (Z.eqb_spec reason ReasonConflict) as [->|Hnc].
    + apply IH; [done|]. pose proof (eo_ids _ _ Hok (Z.to_nat ref) ltac:(lia)) as Hid.
      destruct Hex as [(x & Hx & Hkx & Hhx)|(_ & [Hne|(x & Hx & Hkx & Hpx)])].
      * left. exists x. split_and!; [|done..]. apply elem_of_cons in Hx as [->|]; [congruence|done].
      * right. split; [done|]. left. by rewrite (proj2 (Z.eqb_neq participant.1 0)).
      * right. split; [done|]. apply elem_of_cons in Hx as [->|Hx].
        -- left. rewrite Hpx, andb_true_r. destruct (Z.eqb_spec participant.1 0); done.
        -- right. by exists x.
    + apply IH; [done|]. left. destruct Hex as [(x & Hx & Hkx & Hhx)|(-> & _)]; [|done].
      exists x. split_and!; [|done..]. apply elem_of_cons in Hx as [->|]; [congruence|done].
Qed.

Lemma Has_fold_reasons (cs : list evidenceRecordClassification) m reason :
  Has (foldl (λ m c, Z.lor m (creasons c)) m cs) reason = true →
  Has m reason = true ∨ ∃ c, c ∈ cs ∧ Has (creasons c) reason = true.
Proof.
  revert m. induction cs as [|c cs IH]; intros m; simpl; [auto|]. intros [Hm|(x & Hx & ?)]%IH.
  - rewrite Has_lor, orb_true_iff in Hm. destruct Hm; [auto|]. right. exists c. set_solver.
  - right. exists x. set_solver.
Qed.

(** Every reason of an evidence row except absence has such a record. *)
Lemma evidenceRow_explains r reason :
  validReason reason → reason ≠ ReasonMissing →
  Has (evidenceRow b (stateReasons (states env)) predicate r).2 reason = true →
  explains reason (csr (EvidenceRefs b) (EvidenceOffsets b !!! r) (EvidenceOffsets b !!! S r - EvidenceOffsets b !!! r)) 0.
Proof.
  intros Hv Hnm. unfold evidenceRow. simpl. set (refs := csr _ _ _). unfold rowRecords. fold refs.
  change (List.filter _ refs) with (List.filter ofKind refs). set (cs := map _ _).
  assert (∀ c, c ∈ cs → ∃ ref, ref ∈ refs ∧ ofKind ref = true ∧ c = classOf ref) as Hcs.
  { intros c Hc. unfold cs in Hc. apply list_elem_of_In, in_map_iff in Hc as (ref & <- & Hf). apply filter_In in Hf as [Hin Hk].
    exists ref. by rewrite list_elem_of_In. }
  set (m0 := foldl _ 0 cs).
  assert (Has (if bool_decide (cs = []) then With m0 ReasonMissing else m0) reason = Has m0 reason) as Hmiss.
  { destruct (bool_decide (cs = [])); [|done]. rewrite Has_With, (bool_decide_eq_false_2 (reason = _)) by done.
    by rewrite andb_false_r, orb_false_r. }
  assert (Has m0 reason = true → explains reason refs 0) as Hm0.
  { intros [Hz|(c & Hc & Hh)]%Has_fold_reasons; [by rewrite Has_0 in Hz|].
    destruct (Hcs c Hc) as (ref & Hin & Hk & ->). left. by exists ref. }
  destruct (existsb cpositive cs && existsb cnegative cs) eqn:Hpn; [|rewrite Hmiss; exact Hm0].
  rewrite Has_With, Hmiss, orb_true_iff, andb_true_iff, !bool_decide_eq_true. intros [?|[_ ->]]; [auto|].
  apply andb_true_iff in Hpn as [Hp _]. apply existsb_exists in Hp as (c & Hc & Hcp). rewrite <-list_elem_of_In in Hc.
  destruct (Hcs c Hc) as (ref & Hin & Hk & ->). right. split; [done|]. right. exists ref. by rewrite Hcp.
Qed.
End causal.

(** ** Reference verdicts *)

(** The join of the outcomes a reason mask selects in one rule set. *)
Definition ruleJoin (r : Resolver) (ruleSet mask : Z) : Z :=
  foldl (Outcomes.best (outcomes r)) 0 (map (Resolve.ruleOutcome r ruleSet) (List.filter (Has mask) allReasons)).

Lemma foldl_best_absorb t (l : list Z) (a x : Z) :
  x ≠ 0 → (a = 0 ∨ a = x ∨ Outcomes.wins t x a) → (∀ y, y ∈ l → y = x ∨ Outcomes.wins t x y) → (x ∈ l ∨ a = x) →
  foldl (Outcomes.best t) a l = x.
Proof.
  intros Hx. revert a. induction l as [|y l IH]; intros a Ha Hl Hin; simpl.
  - destruct Hin; [set_solver|done].
  - assert (∀ z, z = 0 ∨ z = x ∨ Outcomes.wins t x z → Outcomes.best t z x = x ∧ Outcomes.best t x z = x) as Hbest.
    { intros z Hz. rewrite (Outcomes.best_comm t x z). unfold Outcomes.wins in Hz. split; Outcomes.best_cases. }
    destruct (decide (y = x)) as [->|Hne].
    + apply IH; [|set_solver|by right; apply Hbest]. right. left. by apply Hbest.
    + assert (Outcomes.wins t x y) as Hy by (destruct (Hl y); [set_solver|done|done]).
      apply IH; [|set_solver|].
      * destruct Ha as [->|[->|Ha]].
        -- destruct (Outcomes.best_either t 0 y) as [->| ->]; auto.
        -- right. left. apply Hbest. auto.
        -- destruct (Outcomes.best_either t a y) as [->| ->]; auto.
      * destruct Hin as [Hin| ->]; [left; set_solver|]. right. apply Hbest. auto.
Qed.

Lemma foldl_best_shift t (l : list Z) a z : Outcomes.best t (foldl (Outcomes.best t) a l) z = foldl (Outcomes.best t) (Outcomes.best t a z) l.
Proof.
  revert a. induction l as [|x l IH]; intros a; simpl; [done|]. rewrite IH. f_equal.
  rewrite <-!Outcomes.best_assoc. f_equal. apply Outcomes.best_comm.
Qed.

(** The join absorbs every listed outcome. *)
Lemma foldl_best_in t (l : list Z) a y :
  y ∈ l → Outcomes.best t (foldl (Outcomes.best t) a l) y = foldl (Outcomes.best t) a l.
Proof.
  revert a. induction l as [|x l IH]; intros a Hy; [set_solver|]. simpl. apply elem_of_cons in Hy as [->|Hy]; [|by apply IH].
  rewrite foldl_best_shift, <-Outcomes.best_assoc. by rewrite Outcomes.best_idemp.
Qed.

Lemma decisive_join r ruleSet mask reason :
  Resolve.resolver_ok r → Resolve.inBlocks r ruleSet → Resolve.decisive r ruleSet mask reason →
  Resolve.ruleOutcome r ruleSet reason = ruleJoin r ruleSet mask.
Proof.
  intros Hok Hin (Hv & Hh & Hall & _). symmetry. apply foldl_best_absorb.
  - assert (Outcomes.known (outcomes r) (Resolve.ruleOutcome r ruleSet reason)) as Hk; [|unfold Outcomes.known in Hk; lia].
    apply (Resolve.rk_outcome _ Hok). unfold Resolve.inBlocks, ReasonCount, Resolve.ruleRow, validReason in *.
    pose proof (Z.mul_div_le (zlen (OutcomeIDs (rules r))) 9). unfold ReasonCount. lia.
  - by left.
  - intros y (s & <- & Hs)%list_elem_of_In%in_map_iff. apply filter_In in Hs as [Hs Hhs].
    rewrite <-list_elem_of_In, allReasons_valid in Hs. destruct (Hall s Hs Hhs); auto.
  - left. apply list_elem_of_In, in_map_iff. exists reason. split; [done|]. apply filter_In.
    by rewrite <-list_elem_of_In, allReasons_valid.
Qed.

(** What finalization reports of one clause of one requirement. *)
Record verdict := { vRequirement : Z; vClause : Z; vOutcome : Z; vReasons : Z }.

Definition verdictOf (c : outcomeCandidate) : verdict :=
  {| vRequirement := ocRequirement c; vClause := ocClause c; vOutcome := ocOutcome c; vReasons := ocReasons c |}.

Section reference.
Context (p : Program) (b : Batch) (reasons : list Z).

Local Abbreviation value := (rootValue p b reasons).

Definition clauseRoots (c : nat) : list Z :=
  csr (ClauseEvidenceIDs p) (ClauseEvidenceStarts p !!! c) (ClauseEvidenceCounts p !!! c).

(** Assertion and evidence conjoined, with the union of their reasons. *)
Definition conj (v w : tv * Z) : tv * Z := (tv_and v.1 w.1, Z.lor v.2 w.2).
Definition clauseValue (c r : nat) : tv * Z :=
  foldl (λ v e, conj v (value e r)) (value (ClauseAssertionRoots p !!! c) r) (clauseRoots c).

Definition activeVerdict (requirement clause : Z) (r : nat) : verdict :=
  let c := Z.to_nat (clause - 1) in
  let '((positive, negative), mask) := clauseValue c r in
  {| vRequirement := requirement; vClause := clause;
     vOutcome := if positive && negb negative then ClauseOnSatisfied p !!! c
                 else if negb positive && negative then ClauseOnFalse p !!! c else ruleJoin (resolver p) clause mask;
     vReasons := if Bool.eqb positive negative then mask else 0 |}.

Definition unresolvedVerdict (requirement clause root : Z) (r : nat) : verdict :=
  let mask := (value root r).2 in
  {| vRequirement := requirement; vClause := clause; vOutcome := ruleJoin (resolver p) clause mask; vReasons := mask |}.

Definition requirementClauses (q : nat) : list Z :=
  csr (RequirementClauseIDs p) (RequirementClauseStarts p !!! q) (RequirementClauseCounts p !!! q).

Definition selectorValue (field : Z) (r : nat) : Z * Z :=
  let '(_, column) := default (0, 0) (SchemaLookup (FieldIndex p) field) in
  if colBit b (PresenceMasks b) (field - 1) r then (colValue b (SymbolValues b) column r, 1) else (0, 0).

Definition selected (q r : nat) : bool :=
  let facts := map (λ f, selectorValue f r) (pFieldIDs (ApplicabilityIndex p)) in
  candidate (ApplicabilityIndex p) (map fst facts) (map snd facts) q.

(** A requirement counts unless it is not selected or definitely inapplicable. *)
Definition counts (q r : nat) : bool :=
  let '(positive, negative) := (value (RequirementRoots p !!! q) r).1 in
  selected q r && negb (negb positive && negative).

Definition requirementVerdicts (q r : nat) : list verdict :=
  let root := RequirementRoots p !!! q in
  let '(positive, negative) := (value root r).1 in
  map (λ clause, if positive && negb negative then activeVerdict (RequirementIDs p !!! q) clause r
                 else unresolvedVerdict (RequirementIDs p !!! q) clause root r) (requirementClauses q).

Definition countedTo (n r : nat) : list nat := List.filter (λ q, counts q r) (seq 0 n).
Definition rowRequirements (r : nat) : list Z :=
  map (λ q, RequirementIDs p !!! q) (countedTo (length (RequirementIDs p)) r).
Definition rowVerdicts (r : nat) : list verdict :=
  flat_map (λ q, requirementVerdicts q r) (countedTo (length (RequirementIDs p)) r).

(** The preferred outcome of a row; 0 when no requirement applies. *)
Definition rowOutcome (r : nat) : Z := foldl (Outcomes.best (Outcomes_ p)) 0 (map vOutcome (rowVerdicts r)).
End reference.

Lemma reasoned_conj v w : reasoned v → reasoned w → reasoned (conj v w).
Proof.
  unfold reasoned, conj, tv_and. destruct v as [[p1 n1] m1], w as [[p2 n2] m2]; simpl. intros H1 H2 E [Hm1 Hm2]%Z.lor_eq_0_iff.
  destruct p1, n1, p2, n2; simpl in *; first [done | by apply H1 | by apply H2].
Qed.

(** ** Finalization computes the verdicts *)

Section clauses.
Context (p : Program) (b : Batch) (env : ExecEnv) (Hx : exec_ok p b env).
Context (st : ExecState) (Hinv : schedule_inv p b env (length (Opcodes p)) st).
Context (Hsem : sem_ok p) (Hro : roots_ok p).

Local Abbreviation reasons := (stateReasons (states env)).
Local Abbreviation value := (rootValue p b reasons).
Local Abbreviation clauses := (length (ClauseAssertionRoots p)).
Local Abbreviation tw := (truthWords st).
Local Abbreviation rw := (reasonWords st).

Lemma value_ok root r : 1 ≤ root ≤ zlen (Opcodes p) → reasoned (value root r) ∧ Valid (value root r).2 = true.
Proof.
  intros Hr. split.
  - apply denote_reasoned; [apply (xo_sched _ _ _ Hx)|apply (xo_states _ _ _ Hx)|apply (xo_evidence _ _ _ Hx)|lia].
  - apply (denote_valid p b env Hx). lia.
Qed.

Lemma read_root root r :
  isRoot p root → Z.of_nat r < Rows b →
  instructionTruth p tw root r (Rows b) = Ok (value root r).1 ∧ instructionReasons p rw root r (Rows b) = Ok (value root r).2.
Proof.
  intros Hroot Hr. assert (readable p root) as Hread by (split; [apply Hroot|by apply (ro_kept _ Hro)]).
  split; [by apply (instructionTruth_ok p b env Hx)|by apply (instructionReasons_ok p b env Hx)].
Qed.

Lemma read_requirement q r : (q < length (RequirementIDs p))%nat → Z.of_nat r < Rows b →
  let root := RequirementRoots p !!! q in
  instructionTruth p tw root r (Rows b) = Ok (value root r).1 ∧ instructionReasons p rw root r (Rows b) = Ok (value root r).2.
Proof.
  intros Hq Hr. apply read_root; [by apply (so_flagged_root _ Hsem)|done].
Qed.

Lemma read_assertion c r : (c < clauses)%nat → Z.of_nat r < Rows b →
  let root := ClauseAssertionRoots p !!! c in
  instructionTruth p tw root r (Rows b) = Ok (value root r).1 ∧ instructionReasons p rw root r (Rows b) = Ok (value root r).2.
Proof.
  intros Hc Hr. apply read_root; [by apply (so_flagged_assertion _ Hsem)|done].
Qed.

Lemma read_evidence c e r : (c < clauses)%nat → e ∈ clauseRoots p c → Z.of_nat r < Rows b →
  instructionTruth p tw e r (Rows b) = Ok (value e r).1 ∧ instructionReasons p rw e r (Rows b) = Ok (value e r).2.
Proof.
  intros Hc He Hr. apply read_root; [by apply (so_flagged_evidence _ Hsem c)|done].
Qed.

Lemma clauseEvidence_ok c : (c < clauses)%nat →
  clauseEvidence p (Z.of_nat c) = Ok (clauseRoots p c, ClauseEvidenceStarts p !!! c) ∧
  length (clauseRoots p c) = Z.to_nat (ClauseEvidenceCounts p !!! c).
Proof.
  intros Hc. destruct (so_clause_lens _ Hsem) as (Hl1 & Hl2 & _). destruct (so_evidence _ Hsem c Hc) as (H1 & H2 & H3).
  unfold clauseEvidence. rewrite !at_total by lia. rewrite !Nat2Z.id. simpl. rewrite slice_csr by lia.
  split; [done|]. by apply length_csr.
Qed.

Lemma clauseValue_ok c r : (c < clauses)%nat → reasoned (clauseValue p b reasons c r) ∧ Valid (clauseValue p b reasons c r).2 = true.
Proof.
  intros Hc. unfold clauseValue.
  assert (∀ l v, (∀ e, e ∈ l → 1 ≤ e ≤ zlen (Opcodes p)) → reasoned v ∧ Valid v.2 = true →
    reasoned (foldl (λ v e, conj v (value e r)) v l) ∧ Valid (foldl (λ v e, conj v (value e r)) v l).2 = true) as Hf.
  { induction l as [|e l IH]; intros v Hl [Hv1 Hv2]; [done|]. simpl. apply IH; [set_solver|].
    destruct (value_ok e r) as [He1 He2]; [apply Hl; set_solver|]. split; [by apply reasoned_conj|by apply Valid_lor]. }
  apply Hf; [intros e He; by apply (so_evidence_root _ Hsem c)|]. by apply value_ok, (so_assertion _ Hsem).
Qed.

Lemma clauseTruth_ok c r : (c < clauses)%nat → Z.of_nat r < Rows b →
  clauseTruth p b tw rw (ClauseAssertionRoots p !!! c) (clauseRoots p c) r =
  Ok ((clauseValue p b reasons c r).1.1, (clauseValue p b reasons c r).1.2, (clauseValue p b reasons c r).2).
Proof.
  intros Hc Hr. unfold clauseTruth, clauseValue. destruct (read_assertion c r Hc Hr) as [-> ->].
  destruct (value (ClauseAssertionRoots p !!! c) r) as [[pos neg] mask]. simpl.
  assert (∀ l v, (∀ e, e ∈ l → e ∈ clauseRoots p c) →
    fold_go (λ evidence st,
      let '(positive, negative, reasons) := st in
      '(evidencePositive, evidenceNegative) ← instructionTruth p tw evidence r (Rows b);
      er ← instructionReasons p rw evidence r (Rows b);
      Ok (positive && evidencePositive, negative || evidenceNegative, Z.lor reasons er)) l (v.1.1, v.1.2, v.2) =
    let v' := foldl (λ v e, conj v (value e r)) v l in Ok (v'.1.1, v'.1.2, v'.2)) as Hf.
  { induction l as [|e l IH]; intros v Hl; [done|]. simpl.
    destruct (read_evidence c e r Hc ltac:(apply Hl; set_solver) Hr) as [-> ->].
    specialize (IH (conj v (value e r)) ltac:(set_solver)). cbv zeta in IH. rewrite <-IH.
    destruct (value e r) as [[? ?] ?]. done. }
  by rewrite (Hf _ (pos, neg, mask)).
Qed.

Lemma edge_node c k e : (c < clauses)%nat → clauseRoots p c !! k = Some e →
  ∃ node, at_ (ClauseEvidenceSourceNodeIDs p) (ClauseEvidenceStarts p !!! c + Z.of_nat k) = Ok node.
Proof.
  intros Hc Hk. destruct (so_clause_lens _ Hsem) as (_ & _ & _ & _ & _ & Hl & _). apply lookup_lt_Some in Hk.
  destruct (clauseEvidence_ok c Hc) as [_ Hlen]. destruct (so_evidence _ Hsem c Hc) as (H1 & H2 & H3).
  rewrite at_total by lia. by eexists.
Qed.

(** A clause is negative, or has a reason, only through one of its roots. *)
Lemma clauseValue_roots c r (P : tv * Z → bool) :
  (∀ v w, P (conj v w) = true → P v = true ∨ P w = true) → P (clauseValue p b reasons c r) = true →
  P (value (ClauseAssertionRoots p !!! c) r) = true ∨ ∃ e, e ∈ clauseRoots p c ∧ P (value e r) = true.
Proof.
  intros HP. unfold clauseValue. generalize (value (ClauseAssertionRoots p !!! c) r).
  induction (clauseRoots p c) as [|e l IH]; intros v; simpl; [auto|].
  intros [[Hv|Hv]%HP|(e' & He & Hv)]%IH; [auto|right; exists e; set_solver|right; exists e'; set_solver].
Qed.

Lemma conj_negative v w : (conj v w).1.2 = true → v.1.2 = true ∨ w.1.2 = true.
Proof. simpl. by rewrite orb_true_iff. Qed.

Lemma conj_has q v w : Has (conj v w).2 q = true → Has v.2 q = true ∨ Has w.2 q = true.
Proof. simpl. by rewrite Has_lor, orb_true_iff. Qed.

Lemma firstNegativeNode_ok c r : (c < clauses)%nat → Z.of_nat r < Rows b → (clauseValue p b reasons c r).1.2 = true →
  ∃ node, firstNegativeNode p b tw (Z.of_nat c) r = Ok node.
Proof.
  intros Hc Hr Hneg. destruct (so_clause_lens _ Hsem) as (_ & _ & _ & _ & Hl & _).
  unfold firstNegativeNode. rewrite (at_total (ClauseAssertionRoots p)) by lia. rewrite Nat2Z.id, go_bind_Ok.
  destruct (read_assertion c r Hc Hr) as [-> _]. rewrite go_bind_Ok.
  destruct (value (ClauseAssertionRoots p !!! c) r).1 as [pos neg] eqn:Ev. simpl. destruct neg.
  - rewrite at_total by lia. by eexists.
  - destruct (clauseEvidence_ok c Hc) as [-> _]. simpl.
    destruct (clauseValue_roots c r (λ v, v.1.2) conj_negative Hneg) as [Ha|(e & He & Hn)]; [by rewrite Ev in Ha|].
    edestruct (firstEdge_ok (λ evidence, '(_, negative) ← instructionTruth p tw evidence r (Rows b);
        Ok (if negative : bool then Some tt else None)) (λ e, if (value e r).1.2 then Some tt else None)
        (clauseRoots p c) (ClauseEvidenceStarts p !!! c)) as (k & x & a & Hk & _ & _ & ->).
    + intros x Hin. destruct (read_evidence c x r Hc Hin Hr) as [-> _]. simpl. by destruct (value x r).1 as [? ?].
    + exists e. split; [done|]. rewrite Hn. by eexists.
    + simpl. by apply (edge_node c k x).
Qed.

Lemma firstReasonNode_ok c r reason : (c < clauses)%nat → Z.of_nat r < Rows b → Has (clauseValue p b reasons c r).2 reason = true →
  ∃ node, firstReasonNode p b rw (Z.of_nat c) r reason = Ok node.
Proof.
  intros Hc Hr Hhas. destruct (so_clause_lens _ Hsem) as (_ & _ & _ & _ & Hl & _).
  unfold firstReasonNode. rewrite (at_total (ClauseAssertionRoots p)) by lia. rewrite Nat2Z.id, go_bind_Ok.
  destruct (read_assertion c r Hc Hr) as [_ ->]. rewrite go_bind_Ok.
  destruct (Has (value (ClauseAssertionRoots p !!! c) r).2 reason) eqn:Ev.
  - rewrite at_total by lia. by eexists.
  - destruct (clauseEvidence_ok c Hc) as [-> _]. simpl.
    destruct (clauseValue_roots c r (λ v, Has v.2 reason) (conj_has reason) Hhas) as [Ha|(e & He & Hn)]; [congruence|].
    edestruct (firstEdge_ok (λ evidence, reasons ← instructionReasons p rw evidence r (Rows b);
        Ok (if Has reasons reason then Some tt else None)) (λ e, if Has (value e r).2 reason then Some tt else None)
        (clauseRoots p c) (ClauseEvidenceStarts p !!! c)) as (k & x & a & Hk & _ & _ & ->).
    + intros x Hin. by destruct (read_evidence c x r Hc Hin Hr) as [_ ->].
    + exists e. split; [done|]. rewrite Hn. by eexists.
    + simpl. by apply (edge_node c k x).
Qed.

(** Evidence roots record at least one causal record per reason. *)
Lemma firstEvidenceReasonRecord_ok c e r reason :
  (c < clauses)%nat → e ∈ clauseRoots p c → Z.of_nat r < Rows b → validReason reason → Has (value e r).2 reason = true →
  ∃ record, firstEvidenceReasonRecord env p b e r reason = Ok record.
Proof.
  intros Hc He Hr Hv Hh. unfold firstEvidenceReasonRecord.
  destruct (Z.eqb_spec reason ReasonMissing) as [->|Hnm]; [by eexists|].
  pose proof (so_evidence_root _ Hsem c e Hc He) as Hroot.
  pose proof (ro_evidence _ Hro e (csr_elem _ _ _ _ He) Hroot) as Hop.
  set (i := Z.to_nat (e - 1)) in *. assert (i < length (Opcodes p))%nat as Hi by lia.
  pose proof (usesEvidence_at p i Hi Hop) as Hu.
  pose proof (xo_evidence _ _ _ Hx Hu) as Hev.
  assert (instructionPredicate p (e - 1) = Ok (predicateAt p i)) as ->.
  { replace (e - 1) with (Z.of_nat i) by lia. apply (instructionPredicate_ok p b env Hx i Hi). }
  simpl. pose proof (eo_offsets _ _ Hev) as Hoff. destruct (eo_range _ _ Hev r ltac:(lia)) as [Hlo Hhi].
  rewrite !at_total by lia. rewrite go_bind_Ok, go_bind_Ok, Nat2Z.id.
  replace (Z.to_nat (Z.of_nat r + 1)) with (S r) by lia.
  rewrite slice_range by lia. rewrite go_bind_Ok.
  apply (causalRecord_ok env p b _ Hev (proj2 (xo_states _ _ _ Hx))); [intros; by eapply csr_elem|].
  apply (evidenceRow_explains env p b _ Hev (proj2 (xo_states _ _ _ Hx))); [done|done|].
  assert (value e r = evidenceRow b (stateReasons (states env)) (predicateAt p i) r) as <-; [|done].
  unfold rootValue, denote, instrValue. fold i. by rewrite Hop.
Qed.

Lemma reasonProvenance_ok cand r reason :
  (ocApplicability cand = false → (Z.to_nat (ocClause cand - 1) < clauses)%nat ∧ 1 ≤ ocClause cand ∧
     Has (clauseValue p b reasons (Z.to_nat (ocClause cand - 1)) r).2 reason = true) →
  Z.of_nat r < Rows b → validReason reason →
  ∃ x, reasonProvenance env p b rw cand r reason = Ok x.
Proof.
  intros Hcl Hr Hv. unfold reasonProvenance. destruct (ocApplicability cand); [by eexists|].
  destruct (Hcl eq_refl) as (Hc & H1 & Hhas). set (c := Z.to_nat (ocClause cand - 1)) in *.
  replace (ocClause cand - 1) with (Z.of_nat c) by lia. destruct (so_clause_lens _ Hsem) as (_ & _ & _ & _ & Hl & _).
  cbv zeta. rewrite (at_total (ClauseAssertionRoots p)) by lia. rewrite Nat2Z.id, go_bind_Ok.
  destruct (read_assertion c r Hc Hr) as [_ ->]. rewrite go_bind_Ok.
  destruct (Has (value (ClauseAssertionRoots p !!! c) r).2 reason) eqn:Ev.
  - rewrite at_total by lia. by eexists.
  - destruct (clauseEvidence_ok c Hc) as [-> _]. simpl.
    destruct (clauseValue_roots c r (λ v, Has v.2 reason) (conj_has reason) Hhas) as [Ha|(e & He & Hn)]; [congruence|].
    edestruct (firstEdge_ok (λ evidence, reasons ← instructionReasons p rw evidence r (Rows b);
        if negb (Has reasons reason) then Ok None else
        record ← firstEvidenceReasonRecord env p b evidence r reason; Ok (Some record))
        (λ e, if Has (value e r).2 reason
              then match firstEvidenceReasonRecord env p b e r reason with Ok x => Some x | _ => None end else None)
        (clauseRoots p c) (ClauseEvidenceStarts p !!! c)) as (k & x & a & Hk & _ & _ & ->).
    + intros x Hin. destruct (read_evidence c x r Hc Hin Hr) as [_ ->]. simpl.
      destruct (Has (value x r).2 reason) eqn:Hhx; [|done]. simpl.
      by destruct (firstEvidenceReasonRecord_ok c x r reason Hc Hin Hr Hv Hhx) as [rec ->].
    + exists e. split; [done|]. rewrite Hn.
      destruct (firstEvidenceReasonRecord_ok c e r reason Hc He Hr Hv Hn) as [rec ->]. by eexists.
    + simpl. destruct (edge_node c k x Hc Hk) as [node ->]. by eexists.
Qed.

(** A candidate reports the verdict [v], can be traced, and names its decisive reason. *)
Record candidateOk (cand : outcomeCandidate) (v : verdict) (r : nat) : Prop := {
  ck_verdict : verdictOf cand = v;
  ck_known : Outcomes.known (Outcomes_ p) (ocOutcome cand);
  ck_trace reason : validReason reason → Has (ocReasons cand) reason = true →
    ∃ x, reasonProvenance env p b rw cand r reason = Ok x;
  ck_reason : (ocReasons cand = 0 ∧ ocDriverReason cand = 0) ∨
    Resolve.decisive (resolver p) (ocClause cand) (ocReasons cand) (ocDriverReason cand);
  ck_remediations : zlen (ocRemediations cand) ≤ maxExecutionRemediations p;
  ck_terminal outcome : Outcomes.Lookup (Outcomes_ p) (ocOutcome cand) = Some outcome → oTerminal outcome = true →
    ocRemediations cand = []
}.

Lemma clause_block clause : 1 ≤ clause ≤ zlen (ClauseAssertionRoots p) → Resolve.inBlocks (resolver p) clause.
Proof.
  intros Hc. unfold Resolve.inBlocks. destruct (ro_tables _ Hro) as [_ ->]. rewrite (so_blocks _ Hsem).
  rewrite Z.div_mul by done. done.
Qed.

Lemma Resolve_join clause mask :
  1 ≤ clause ≤ zlen (ClauseAssertionRoots p) → Valid mask = true → mask ≠ 0 →
  ∃ reason, Resolve.decisive (resolver p) clause mask reason ∧
    Resolve.Resolve (resolver p) clause mask = Ok (Some (Resolve.resolution_of (resolver p) clause reason)) ∧
    Resolve.ruleOutcome (resolver p) clause reason = ruleJoin (resolver p) clause mask ∧
    Outcomes.known (Outcomes_ p) (Resolve.ruleOutcome (resolver p) clause reason) ∧
    zlen (executionResolutionRemediations (Resolve.resolution_of (resolver p) clause reason)) ≤ maxExecutionRemediations p.
Proof.
  intros Hc Hv Hm. pose proof (clause_block clause Hc) as Hb. pose proof (Valid_nonneg mask Hv).
  destruct (Resolve.Resolve_decides (resolver p) clause mask (ro_resolver _ Hro) (ro_typed _ Hro) Hb Hv ltac:(lia)) as (reason & Hd & HR).
  exists reason. split; [done|]. split; [done|]. split; [apply (decisive_join _ _ _ _ (ro_resolver _ Hro) Hb Hd)|].
  destruct Hd as (Hvr & _). assert (Resolve.ruleRow clause reason < length (OutcomeIDs (rules (resolver p))))%nat as Hrow.
  { unfold Resolve.ruleRow, Resolve.inBlocks, validReason, ReasonCount in *.
    pose proof (Z.mul_div_le (zlen (OutcomeIDs (rules (resolver p)))) 9). lia. }
  destruct (ro_tables _ Hro) as [Et Er]. rewrite <-Et. split; [by apply (Resolve.rk_outcome _ (ro_resolver _ Hro))|].
  destruct (Resolve.rk_len _ (ro_resolver _ Hro)) as (_ & _ & Hlc). destruct (ro_typed _ Hro) as [_ Hty].
  unfold executionResolutionRemediations, Resolve.resolution_of. cbv zeta. cbn [Terminal_ Remediations_].
  set (row := Resolve.ruleRow clause reason) in *.
  assert (0 ≤ RemediationCounts (rules (resolver p)) !!! row ≤ maxExecutionRemediations p) as Hmax.
  { split; [apply (Forall_lookup_total_1 (λ c, 0 ≤ c ≤ MaxUint16) _ row Hty); lia|]. apply foldl_max_ge. right. rewrite <-Er.
    apply list_elem_of_lookup_total_2. lia. }
  destruct (Terminal _ !!! _); [simpl; lia|]. unfold csr. rewrite length_take. lia.
Qed.

Lemma clauseRemediations_ok c outcome : (c < clauses)%nat → Outcomes.known (Outcomes_ p) outcome →
  ∃ rem, executionClauseRemediations p (Z.of_nat c) outcome = Ok rem ∧ zlen rem ≤ maxExecutionRemediations p ∧
    (∀ o, Outcomes.Lookup (Outcomes_ p) outcome = Some o → oTerminal o = true → rem = []).
Proof.
  intros Hc Hk. apply Outcomes.Lookup_known in Hk as [o Ho]. unfold executionClauseRemediations. rewrite Ho.
  destruct (so_clause_lens _ Hsem) as (_ & _ & _ & _ & _ & _ & _ & Hl1 & Hl2). destruct (so_remediations _ Hsem c Hc) as (H1 & H2 & H3).
  assert (ClauseRemediationCounts p !!! c ≤ maxExecutionRemediations p) as Hmax.
  { apply foldl_max_ge. left. apply foldl_max_ge. right. apply list_elem_of_lookup_total_2. lia. }
  destruct (oTerminal o) eqn:Eo.
  - exists []. split; [done|]. split; [simpl; lia|done].
  - rewrite !at_total by lia. rewrite !Nat2Z.id. simpl. rewrite slice_csr by lia. eexists; split; [done|].
    rewrite length_csr by lia. split; [lia|]. intros o' [= <-]. congruence.
Qed.

Lemma resolution_terminal clause reason outcome :
  Outcomes.Lookup (Outcomes_ p) (Resolve.ruleOutcome (resolver p) clause reason) = Some outcome → oTerminal outcome = true →
  executionResolutionRemediations (Resolve.resolution_of (resolver p) clause reason) = [].
Proof.
  intros Ho Ht. apply Outcomes.Lookup_Some in Ho as (_ & _ & Ho). rewrite Ho in Ht. destruct (ro_tables _ Hro) as [Et _].
  unfold executionResolutionRemediations, Resolve.resolution_of. cbv zeta. cbn [Terminal_]. by rewrite Et, Ht.
Qed.

Lemma resolveApplicability_ok q clause r :
  (q < length (RequirementIDs p))%nat → Z.of_nat r < Rows b → 1 ≤ clause ≤ zlen (ClauseAssertionRoots p) →
  let root := RequirementRoots p !!! q in
  (value root r).1.1 = (value root r).1.2 →
  ∃ cand, resolveApplicability p b rw (RequirementIDs p !!! q) clause root (RequirementSourceNodeIDs p !!! q) r = Ok cand ∧
    candidateOk cand (unresolvedVerdict p b reasons (RequirementIDs p !!! q) clause root r) r.
Proof.
  intros Hq Hr Hc root Hind. unfold resolveApplicability. destruct (read_requirement q r Hq Hr) as [_ E]. fold root in E. rewrite E.
  rewrite go_bind_Ok. destruct (value_ok root r (so_root _ Hsem q Hq)) as [Hrs Hvd]. unfold reasoned in Hrs.
  destruct (Resolve_join clause (value root r).2 Hc Hvd (Hrs Hind)) as (reason & Hd & -> & Hj & Hk & Hm). rewrite go_bind_Ok.
  eexists; split; [done|]. split; simpl.
  - unfold verdictOf, unresolvedVerdict. simpl. by rewrite Hj.
  - done.
  - intros s Hs Hh. by apply reasonProvenance_ok.
  - by right.
  - done.
  - apply resolution_terminal.
Qed.

Lemma resolveActiveClause_ok requirement clause r :
  Z.of_nat r < Rows b → 1 ≤ clause ≤ zlen (ClauseAssertionRoots p) →
  ∃ cand, resolveActiveClause p b tw rw requirement clause r = Ok cand ∧
    candidateOk cand (activeVerdict p b reasons requirement clause r) r.
Proof.
  intros Hr Hc. unfold resolveActiveClause, activeVerdict. set (c := Z.to_nat (clause - 1)) in *.
  assert (c < clauses)%nat as Hlt by lia. replace (clause - 1) with (Z.of_nat c) by lia. cbv zeta.
  destruct (so_clause_lens _ Hsem) as (_ & _ & Hs1 & Hs2 & Hs3 & _ & Hs4 & _).
  destruct (so_outcomes _ Hsem c Hlt) as [Hk1 Hk2]. unfold clauseExplanationBranchCount in *.
  rewrite (at_total (ClauseAssertionRoots p)) by lia. rewrite Nat2Z.id, go_bind_Ok.
  destruct (clauseEvidence_ok c Hlt) as [-> _]. rewrite go_bind_Ok. rewrite (clauseTruth_ok c r Hlt Hr), go_bind_Ok.
  destruct (clauseValue_ok c r Hlt) as [Hrs Hvd].
  pose proof (firstNegativeNode_ok c r Hlt Hr) as Hneg. pose proof (λ q, firstReasonNode_ok c r q Hlt Hr) as Hrn.
  assert (∀ cand q, ocApplicability cand = false → ocClause cand = clause → Has (clauseValue p b reasons c r).2 q = true → validReason q →
    ∃ x, reasonProvenance env p b rw cand r q = Ok x) as Htr.
  { intros cand q Ha Hcl Hh Hv. apply reasonProvenance_ok; [|done|done]. rewrite Hcl. fold c. intros _. split_and!; [done|lia|done]. }
  unfold reasoned in Hrs. destruct (clauseValue p b reasons c r) as [[pos neg] mask]. cbn [fst snd] in *.
  destruct (pos && negb neg) eqn:E1; [|destruct (negb pos && neg) eqn:E2].
  - rewrite !at_total by (unfold clauseSatisfiedExplanation; lia). rewrite !Nat2Z.id. rewrite go_bind_Ok, go_bind_Ok, go_bind_Ok.
    destruct (clauseRemediations_ok c _ Hlt Hk1) as (rem & -> & Hrem & Hterm). rewrite go_bind_Ok. eexists; split; [done|].
    destruct pos, neg; try done. split; simpl; auto. intros s Hs Hh. by rewrite Has_0 in Hh.
  - rewrite !at_total by (unfold clauseFalseExplanation; lia). rewrite !Nat2Z.id. rewrite go_bind_Ok, go_bind_Ok.
    destruct pos, neg; try done. destruct (Hneg eq_refl) as [node ->]. rewrite go_bind_Ok.
    destruct (clauseRemediations_ok c _ Hlt Hk2) as (rem & -> & Hrem & Hterm). rewrite go_bind_Ok. eexists; split; [done|].
    split; simpl; auto. intros s Hs Hh. by rewrite Has_0 in Hh.
  - assert (pos = neg) as -> by (by destruct pos, neg). rewrite Bool.eqb_reflx.
    destruct (Resolve_join clause mask Hc Hvd (Hrs eq_refl)) as (reason & Hd & -> & Hj & Hk & Hm). rewrite go_bind_Ok.
    cbn [Reason_ Resolve.resolution_of]. destruct (Hrn reason) as [node ->]; [apply Hd|]. rewrite go_bind_Ok.
    eexists; split; [done|]. split; simpl; auto.
    + unfold verdictOf. simpl. by rewrite Hj.
    + apply resolution_terminal.
Qed.

(** ** The preferred candidate of a list of verdicts *)

Local Abbreviation join := (foldl (Outcomes.best (Outcomes_ p)) 0).

(** [best] is the first candidate that attains the join of [vs]. *)
Definition bestOf (best : outcomeCandidate) (vs : list verdict) (r : nat) : Prop :=
  (vs = [] ∧ best = noCandidate) ∨
  (∃ k v, vs !! k = Some v ∧ candidateOk best v r ∧ vOutcome v = join (map vOutcome vs) ∧
     ∀ j w, (j < k)%nat → vs !! j = Some w → vOutcome w ≠ vOutcome v).

Lemma bestOf_outcome best vs r : bestOf best vs r →
  ocOutcome best = join (map vOutcome vs) ∧ (vs = [] → ocOutcome best = 0) ∧
  (vs ≠ [] → Outcomes.known (Outcomes_ p) (ocOutcome best)).
Proof.
  intros [[-> ->]|(k & v & Hk & Hc & Hj & _)]; [done|]. pose proof (ck_verdict _ _ _ Hc) as Hv. rewrite <-Hv in Hj.
  split; [done|]. split; [intros ->; done|]. intros _. apply (ck_known _ _ _ Hc).
Qed.

Lemma prefer_step best vs cand v r :
  bestOf best vs r → candidateOk cand v r →
  ∃ best', preferExecutionCandidate p best cand = Ok best' ∧ bestOf best' (vs ++ [v]) r.
Proof.
  intros Hb Hc. destruct (bestOf_outcome _ _ _ Hb) as (Hbo & Hempty & Hfull).
  pose proof (ck_known _ _ _ Hc) as Hk. pose proof (ck_verdict _ _ _ Hc) as Hv.
  assert (ocOutcome cand = vOutcome v) as Hcv by (by rewrite <-Hv). rewrite Hcv in Hk.
  assert (Outcomes.known0 (Outcomes_ p) (ocOutcome best)) as Hk0.
  { unfold Outcomes.known0. destruct vs; [left; by apply Hempty|right; by apply Hfull]. }
  unfold preferExecutionCandidate. rewrite Outcomes.Prefer_best by (rewrite ?Hcv; first [done | by right]). rewrite go_bind_Ok.
  eexists; split; [done|]. rewrite Hcv, Hbo in *.
  assert (join (map vOutcome (vs ++ [v])) = Outcomes.best (Outcomes_ p) (join (map vOutcome vs)) (vOutcome v)) as Hjoin
    by (by rewrite map_app, foldl_app).
  right. destruct Hb as [[-> ->]|(k & u & Hku & Hcu & Hju & Hfirst)].
  - exists 0%nat, v. simpl. split_and!; [done|done| |intros; lia].
    symmetry. Outcomes.best_cases.
  - assert (join (map vOutcome vs) ≠ 0) as Hne.
    { destruct vs as [|v0 vs']; [done|]. specialize (Hfull ltac:(done)). unfold Outcomes.known in Hfull. lia. }
    rewrite (proj2 (Z.eqb_neq _ _) Hne). simpl. set (J := join (map vOutcome vs)) in *.
    destruct (Z.eqb_spec (Outcomes.best (Outcomes_ p) J (vOutcome v)) J) as [E|E]; simpl.
    + exists k, u. split; [by apply lookup_app_l_Some|]. split; [done|]. split; [by rewrite Hjoin, E|].
      intros j w Hj Hw. apply lookup_lt_Some in Hku. rewrite lookup_app_l in Hw by lia. by eapply Hfirst.
    + exists (length vs), v. split; [by rewrite lookup_app_r, Nat.sub_diag|]. split; [done|].
      destruct (Outcomes.best_either (Outcomes_ p) J (vOutcome v)) as [E'|E']; [done|]. split; [by rewrite Hjoin, E'|].
      intros j w Hj Hw Heq. rewrite lookup_app_l in Hw by lia. apply E. rewrite <-Heq. apply foldl_best_in.
      apply list_elem_of_In, in_map. rewrite <-list_elem_of_In. by eapply list_elem_of_lookup_2.
Qed.

(** ** Requirements of a row *)

Context (Hpt : policy_typed (ApplicabilityIndex p)) (Hbo : bound_ok (ApplicabilityIndex p)).

Lemma presence_length column : 0 ≤ column < zlen (sKinds (FieldIndex p)) →
  length (csr (PresenceMasks b) (column * sourceWords b + wordBase b) (WordCount (Rows b))) = nwords (Rows b).
Proof.
  intros Hc. pose proof (xo_columns _ _ _ Hx) as Hco. pose proof (co_batch _ _ Hco) as Hb.
  destruct (word_window b Hb (co_range _ _ Hco)) as (Hw0 & _ & Hwle). rewrite <-sourceWords_eq in Hwle by done.
  destruct (WordCount_bounds (Rows b) (bt_rows _ Hb)) as (? & _). pose proof (co_presence _ _ Hco) as Hp.
  assert (0 ≤ column * sourceWords b ∧ column * sourceWords b + sourceWords b ≤ zlen (sKinds (FieldIndex p)) * sourceWords b) by nia.
  apply length_csr; lia.
Qed.

Lemma symbols_length column : 0 ≤ column < sCounts (FieldIndex p) !!! Z.to_nat ValueKindSymbol →
  length (csr (SymbolValues b) (column * sourceRows b + rowBase b) (Rows b)) = Z.to_nat (Rows b).
Proof.
  intros Hc. pose proof (xo_columns _ _ _ Hx) as Hco. pose proof (co_batch _ _ Hco) as Hb.
  destruct (validPhysicalRange_inv b Hb (co_range _ _ Hco)) as (_ & _ & Hle). pose proof (co_symbol _ _ Hco) as Hs.
  pose proof (sourceRows_u32 b Hb) as Hsr. destruct Hb as [Hr Hbb _]. unfold is_u32 in *.
  change (Z.to_nat ValueKindSymbol) with 1%nat in Hc.
  assert (0 ≤ column * sourceRows b ∧ column * sourceRows b + sourceRows b ≤ sCounts (FieldIndex p) !!! 1%nat * sourceRows b) by nia.
  apply length_csr; lia.
Qed.

Lemma selectorFacts_ok r : Z.of_nat r < Rows b →
  let facts := map (λ f, selectorValue p b f r) (pFieldIDs (ApplicabilityIndex p)) in
  selectorFacts p b r = Ok (map fst facts, map snd facts).
Proof.
  intros Hr facts. unfold selectorFacts. rewrite (map_go_Ok _ (λ f, selectorValue p b f r)); [done|].
  intros f Hf. destruct (so_fields _ Hsem f Hf) as (column & Hlk & Hfb & Hcol). unfold selectorValue. rewrite Hlk. simpl.
  pose proof (xo_columns _ _ _ Hx) as Hco. pose proof (co_batch _ _ Hco) as Hb. pose proof (co_range _ _ Hco) as Hv.
  destruct (WordCount_bounds (Rows b) (bt_rows _ Hb)) as (Hw0 & Hw1 & _).
  pose proof (row_split r). pose proof (st_fields _ (co_schema _ _ Hco)) as Hfields.
  rewrite (u32_small (f - 1)) by (unfold is_u32; lia).
  rewrite (batchWordColumn_Ok b _ _ (zlen (sKinds (FieldIndex p)))); [|done|done|lia|lia|apply (co_presence _ _ Hco)].
  rewrite go_bind_Ok. pose proof (presence_length (f - 1) ltac:(lia)) as Hl. rewrite at_total by lia. rewrite go_bind_Ok, Nat2Z.id.
  rewrite land_bit64_ne0 by lia. pose proof (colBit_row b (PresenceMasks b) (f - 1) r Hb Hv ltac:(lia) ltac:(lia)) as Hbit.
  unfold rowBit in Hbit. rewrite Hbit. destruct (colBit b (PresenceMasks b) (f - 1) r); [|done].
  rewrite (read_symbols p b Hco ValueKindSymbol column) by done. rewrite go_bind_Ok.
  pose proof (symbols_length column ltac:(done)). rewrite at_total by lia. rewrite go_bind_Ok, Nat2Z.id.
  f_equal. f_equal. unfold colValue. rewrite csr_lookup_total by lia. f_equal.
  pose proof (sourceRows_u32 b Hb) as Hsr. pose proof (bt_base _ Hb) as Hbb. unfold is_u32 in *. 
  assert (0 ≤ column * sourceRows b) by nia. lia.
Qed.

Lemma selectCandidates_ok r : Z.of_nat r < Rows b →
  ∃ cw, selectRequirementCandidates p b (ApplicabilityIndex p) r = Ok cw ∧
    ∀ q, (q < length (RequirementIDs p))%nat → (q `div` 64 < length cw)%nat ∧ rowBit cw q = selected p b q r.
Proof.
  intros Hr. unfold selectRequirementCandidates. rewrite (selectorFacts_ok r Hr). rewrite go_bind_Ok. unfold selected.
  set (facts := map (λ f, selectorValue p b f r) _).
  destruct (Candidates_bits (ApplicabilityIndex p) Hpt Hbo (make_ (pWordCount (ApplicabilityIndex p))) (map fst facts) (map snd facts))
    as (out & -> & Hl & Hbits).
  - unfold make_. rewrite length_replicate. by rewrite (bo_words _ Hbo).
  - unfold facts. by rewrite !length_map.
  - unfold facts. by rewrite !length_map.
  - exists out. split; [done|]. intros q Hq. pose proof (row_split q).
    destruct (WordCount_bounds (RequirementCount (ApplicabilityIndex p)) (pt_count _ Hpt)) as (? & ? & _).
    rewrite (so_index _ Hsem) in *. split; [lia|]. apply Hbits. lia.
Qed.

Lemma countedTo_S n r : countedTo p b reasons (S n) r = countedTo p b reasons n r ++ (if counts p b reasons n r then [n] else []).
Proof. unfold countedTo. rewrite seq_S, List.filter_app. simpl. by destruct (counts p b reasons n r). Qed.

Lemma counts_range q r : counts p b reasons q r = true →
  selected p b q r = true ∧ (negb (value (RequirementRoots p !!! q) r).1.1 && (value (RequirementRoots p !!! q) r).1.2) = false.
Proof. unfold counts. destruct (value _ r).1 as [pos neg]. rewrite andb_true_iff, negb_true_iff. done. Qed.

Lemma requirementClauses_ok q best vs r :
  (q < length (RequirementIDs p))%nat → Z.of_nat r < Rows b → bestOf best vs r →
  let root := RequirementRoots p !!! q in
  let '(positive, negative) := (value root r).1 in
  (negb positive && negative) = false →
  ∃ best', fold_go (λ clauseID best,
    candidate ← (if positive && negb negative then resolveActiveClause p b tw rw (RequirementIDs p !!! q) clauseID r
                 else node ← at_ (RequirementSourceNodeIDs p) (Z.of_nat q);
                      resolveApplicability p b rw (RequirementIDs p !!! q) clauseID root node r);
    preferExecutionCandidate p best candidate) (requirementClauses p q) best = Ok best' ∧
    bestOf best' (vs ++ requirementVerdicts p b reasons q r) r.
Proof.
  intros Hq Hr Hbest root. unfold requirementVerdicts. fold root. destruct (value root r).1 as [pos neg] eqn:Ev. intros Hnf.
  destruct (so_req_lens _ Hsem) as (_ & Hl & _).
  pose proof (so_clause_id _ Hsem q) as Hid. fold (requirementClauses p q) in Hid.
  destruct (fold_go_total (λ pre best, bestOf best (vs ++ map (λ clause, if pos && negb neg
      then activeVerdict p b reasons (RequirementIDs p !!! q) clause r
      else unresolvedVerdict p b reasons (RequirementIDs p !!! q) clause root r) pre) r)
    (λ clauseID best,
    candidate ← (if pos && negb neg then resolveActiveClause p b tw rw (RequirementIDs p !!! q) clauseID r
                 else node ← at_ (RequirementSourceNodeIDs p) (Z.of_nat q);
                      resolveApplicability p b rw (RequirementIDs p !!! q) clauseID root node r);
    preferExecutionCandidate p best candidate) (requirementClauses p q) best) as (best' & HE & HP).
  - by rewrite app_nil_r.
  - intros pre clause post t Hsplit Ht. rewrite map_app, app_assoc. simpl.
    assert (1 ≤ clause ≤ zlen (ClauseAssertionRoots p)) as Hc by (apply Hid; [done|rewrite Hsplit; set_solver]).
    destruct (pos && negb neg) eqn:Epn.
    + destruct (resolveActiveClause_ok (RequirementIDs p !!! q) clause r Hr Hc) as (cand & -> & Hcand). rewrite go_bind_Ok.
      by apply prefer_step.
    + rewrite at_total by lia. rewrite go_bind_Ok, Nat2Z.id.
      destruct (resolveApplicability_ok q clause r Hq Hr Hc) as (cand & HE & Hcand).
      { fold root. rewrite Ev. by destruct pos, neg. }
      fold root in HE, Hcand. rewrite HE, go_bind_Ok. by apply prefer_step.
  - exists best'. split; [exact HE|exact HP].
Qed.

Lemma finalizeRequirement_ok cw q best r :
  (q < length (RequirementIDs p))%nat → Z.of_nat r < Rows b →
  (q `div` 64 < length cw)%nat → rowBit cw q = selected p b q r →
  bestOf best (flat_map (λ q, requirementVerdicts p b reasons q r) (countedTo p b reasons q r)) r →
  ∃ best', (∀ ids0, finalizeRequirement p b tw rw cw r q (ids0 ++ map (λ q, RequirementIDs p !!! q) (countedTo p b reasons q r), best) =
    Ok (ids0 ++ map (λ q, RequirementIDs p !!! q) (countedTo p b reasons (S q) r), best')) ∧
    bestOf best' (flat_map (λ q, requirementVerdicts p b reasons q r) (countedTo p b reasons (S q) r)) r.
Proof.
  intros Hq Hr Hlw Hbit Hbest. destruct (so_req_lens _ Hsem) as (Hl1 & Hl2 & Hl3 & Hl4). rewrite countedTo_S.
  assert (at_ cw (Z.of_nat (q `div` 64)) = Ok (cw !!! (q `div` 64)%nat)) as Hcw by (rewrite at_total by lia; by rewrite Nat2Z.id).
  pose proof (row_split q). pose proof (land_bit64_ne0 (cw !!! (q `div` 64)%nat) (Z.of_nat (q `mod` 64)) ltac:(lia)) as Hb64.
  unfold rowBit in Hbit. rewrite Hbit in Hb64. unfold counts. destruct (selected p b q r) eqn:Hsel.
  2: { exists best. split; [|destruct (value _ r).1; simpl; by rewrite app_nil_r].
       intros ids0. unfold finalizeRequirement. rewrite Hcw, go_bind_Ok. apply negb_false_iff in Hb64. rewrite Hb64.
       destruct (value _ r).1. simpl. by rewrite app_nil_r. }
  apply negb_true_iff in Hb64. destruct (read_requirement q r Hq Hr) as [Hread _].
  pose proof (requirementClauses_ok q best _ r Hq Hr Hbest) as Hloop. cbv zeta in Hloop.
  assert (∀ st, finalizeRequirement p b tw rw cw r q st =
    ('(positive, negative) ← instructionTruth p tw (RequirementRoots p !!! q) r (Rows b);
     if negb positive && negative then Ok st else
     best ← fold_go (λ clauseID best,
       candidate ← (if positive && negb negative then resolveActiveClause p b tw rw (RequirementIDs p !!! q) clauseID r
                    else node ← at_ (RequirementSourceNodeIDs p) (Z.of_nat q);
                         resolveApplicability p b rw (RequirementIDs p !!! q) clauseID (RequirementRoots p !!! q) node r);
       preferExecutionCandidate p best candidate) (requirementClauses p q) st.2;
     Ok (st.1 ++ [RequirementIDs p !!! q], best))) as Hfr.
  { intros [ids c]. unfold finalizeRequirement. rewrite Hcw, go_bind_Ok, Hb64.
    rewrite (at_total (RequirementIDs p)), (at_total (RequirementRoots p)) by lia. rewrite !Nat2Z.id, !go_bind_Ok.
    destruct (so_clauses _ Hsem q Hq) as (Hs1 & Hs2 & Hs3).
    destruct (instructionTruth p tw (RequirementRoots p !!! q) r (Rows b)) as [[pos neg]| |]; [|done|done]. rewrite !go_bind_Ok.
    destruct (negb pos && neg); [done|].
    rewrite (at_total (RequirementClauseStarts p)), (at_total (RequirementClauseCounts p)) by lia. rewrite !Nat2Z.id, !go_bind_Ok.
    by rewrite slice_csr by lia. }
  rewrite Hread in Hfr.
  destruct (value (RequirementRoots p !!! q) r).1 as [pos neg]. cbn [andb].
  destruct (negb pos && neg) eqn:Eneg; cbn [negb].
  { exists best. split; [|by rewrite app_nil_r]. intros ids0. rewrite Hfr, go_bind_Ok, Eneg. by rewrite app_nil_r. }
  destruct (Hloop eq_refl) as (best' & HE & Hbest'). exists best'. rewrite flat_map_app. cbn [flat_map]. rewrite app_nil_r.
  split; [|done]. intros ids0. rewrite Hfr, go_bind_Ok, Eneg. cbn [fst snd]. rewrite HE, go_bind_Ok, map_app. by rewrite <-app_assoc.
Qed.

Lemma finalizeRequirements_ok cw r :
  Z.of_nat r < Rows b →
  (∀ q, (q < length (RequirementIDs p))%nat → (q `div` 64 < length cw)%nat ∧ rowBit cw q = selected p b q r) →
  ∃ best, (∀ ids0, for_range (length (RequirementIDs p)) (finalizeRequirement p b tw rw cw r) (ids0, noCandidate) =
    Ok (ids0 ++ rowRequirements p b reasons r, best)) ∧ bestOf best (rowVerdicts p b reasons r) r.
Proof.
  intros Hr Hcw. unfold rowRequirements, rowVerdicts.
  assert (∀ q, (q ≤ length (RequirementIDs p))%nat → ∃ best,
    (∀ ids0, for_range q (finalizeRequirement p b tw rw cw r) (ids0, noCandidate) =
       Ok (ids0 ++ map (λ q, RequirementIDs p !!! q) (countedTo p b reasons q r), best)) ∧
    bestOf best (flat_map (λ q, requirementVerdicts p b reasons q r) (countedTo p b reasons q r)) r) as Hall; [|by apply Hall].
  induction q as [|q IH]; intros Hq.
  - exists noCandidate. split; [|by left]. intros ids0. by rewrite app_nil_r.
  - destruct IH as (best & Hbest & Hof); [lia|]. destruct (Hcw q ltac:(lia)) as [Hc1 Hc2].
    destruct (finalizeRequirement_ok cw q best r ltac:(lia) Hr Hc1 Hc2 Hof) as (best' & Hstep & Hof').
    exists best'. split; [|done]. intros ids0. by rewrite for_range_S, Hbest, go_bind_Ok.
Qed.

(** ** Rows and the whole batch *)

(** The evidence IDs attached to a row. *)
Definition evidenceOf (r : nat) : list Z :=
  if usesEvidence p then
    map (λ ref, eIDs (Evidence b) !!! Z.to_nat ref)
      (csr (EvidenceRefs b) (EvidenceOffsets b !!! r) (EvidenceOffsets b !!! S r - EvidenceOffsets b !!! r))
  else [].

Lemma rowEvidence_ok r : Z.of_nat r < Rows b → rowEvidence b (usesEvidence p) r = Ok (evidenceOf r).
Proof.
  intros Hr. unfold rowEvidence, evidenceOf. destruct (usesEvidence p) eqn:Hu; [|done].
  pose proof (xo_evidence _ _ _ Hx Hu) as Hev. pose proof (eo_offsets _ _ Hev) as Hoff.
  destruct (eo_range _ _ Hev r ltac:(lia)) as [Hlo Hhi].
  rewrite !(at_total (EvidenceOffsets b)) by lia. rewrite !go_bind_Ok, Nat2Z.id.
  replace (Z.to_nat (Z.of_nat r + 1)) with (S r) by lia. rewrite slice_range by lia. rewrite go_bind_Ok.
  apply map_go_Ok. intros ref Hin%csr_elem. pose proof (eo_refs _ _ Hev ref Hin). by rewrite at_total.
Qed.

(** What one row contributes to the result columns. *)
Record rowOut := { roIDs : list Z; roBest : outcomeCandidate; roReasons : list (Z * Z * Z * Z); roEvidence : list Z }.

Record rowSpec (r : nat) (o : rowOut) : Prop := {
  rs_ids : roIDs o = rowRequirements p b reasons r;
  rs_best : bestOf (roBest o) (rowVerdicts p b reasons r) r;
  rs_reasons : map (λ t, t.1.1.1) (roReasons o) = List.filter (Has (ocReasons (roBest o))) allReasons;
  rs_evidence : roEvidence o = evidenceOf r
}.

Lemma finalizeRow_ok r : Z.of_nat r < Rows b →
  ∃ o, rowSpec r o ∧ ∀ dst, finalizeRow env p b tw rw (ApplicabilityIndex p) (usesEvidence p) r dst =
    Ok (emitRow r (rbRequirementIDs dst ++ roIDs o) (roBest o) (roReasons o) (roEvidence o) dst).
Proof.
  intros Hr. destruct (selectCandidates_ok r Hr) as (cw & Hcw & Hbits).
  destruct (finalizeRequirements_ok cw r Hr Hbits) as (best & Hreq & Hbest).
  assert (∃ rows, (if negb (ocOutcome best =? 0) then map_go (λ reason, '(node, evidenceID, state) ← reasonProvenance env p b rw best r reason;
      Ok (reason, node, evidenceID, state)) (List.filter (Has (ocReasons best)) allReasons) else Ok []) = Ok rows ∧
      map (λ t : Z * Z * Z * Z, t.1.1.1) rows = List.filter (Has (ocReasons best)) allReasons) as (rows & Hrows & Hmap).
  { destruct Hbest as [[_ ->]|(k & v & _ & Hc & _)]; [by exists []|].
    pose proof (ck_known _ _ _ Hc) as Hk. unfold Outcomes.known in Hk. rewrite (proj2 (Z.eqb_neq _ _)) by lia. simpl negb. cbv iota.
    set (g := λ reason, match reasonProvenance env p b rw best r reason with Ok (n, e, s) => (reason, n, e, s) | _ => (reason, 0, 0, 0) end).
    exists (map g (List.filter (Has (ocReasons best)) allReasons)). split.
    - apply map_go_Ok. intros q Hq. apply list_elem_of_In, filter_In in Hq as [Hin Hh]. rewrite <-list_elem_of_In, allReasons_valid in Hin.
      destruct (ck_trace _ _ _ Hc q Hin Hh) as [[[n e] s] E]. unfold g. by rewrite E.
    - rewrite map_map. rewrite <-(map_id (List.filter _ _)) at 2. apply map_ext. intros q. unfold g. by repeat case_match. }
  exists {| roIDs := rowRequirements p b reasons r; roBest := best; roReasons := rows; roEvidence := evidenceOf r |}.
  split; [by split|]. intros dst. unfold finalizeRow. rewrite Hcw, go_bind_Ok.
  rewrite Hreq, go_bind_Ok. cbn [roBest roReasons roEvidence roIDs].
  rewrite Hrows, go_bind_Ok, (rowEvidence_ok r Hr). done.
Qed.
End clauses.

(** ** CSR encoding of per-row lists *)

(** [ids] concatenates [parts] and [offsets] holds the running lengths. *)
Record csrOf (rows : nat) (offsets ids : list Z) (parts : list (list Z)) : Prop := {
  cs_len : length offsets = S rows;
  cs_ids : ids = concat parts;
  cs_offsets k : (k ≤ length parts)%nat → offsets !!! k = u32 (zlen (concat (take k parts)))
}.

Lemma csrOf_empty rows : csrOf rows (make_ (Z.of_nat rows + 1)) [] [].
Proof.
  split; [|done|].
  - unfold make_. rewrite length_replicate. lia.
  - intros k Hk. simpl in Hk. replace k with 0%nat by lia. unfold make_. by rewrite lookup_total_replicate_2 by lia.
Qed.

Lemma csrOf_snoc rows offsets ids parts x :
  csrOf rows offsets ids parts → (length parts < rows)%nat →
  csrOf rows (<[S (length parts) := u32 (zlen (ids ++ x))]> offsets) (ids ++ x) (parts ++ [x]).
Proof.
  intros [Hl -> Ho] Hr. assert (concat (parts ++ [x]) = concat parts ++ x) as Hc by (rewrite concat_app; simpl; by rewrite app_nil_r).
  split; [by rewrite length_insert|by rewrite Hc|]. rewrite length_app. simpl. intros k Hk.
  destruct (decide (k = S (length parts))) as [->|Hne].
  - rewrite list_lookup_total_insert_eq by lia. by rewrite take_ge, Hc by (rewrite length_app; simpl; lia).
  - rewrite list_lookup_total_insert_ne by done. rewrite take_app_le by lia. apply Ho. lia.
Qed.

#[global] Instance rowOut_inhabited : Inhabited rowOut :=
  populate {| roIDs := []; roBest := noCandidate; roReasons := []; roEvidence := [] |}.

Section encoding.
Context (rows : nat).

Definition driverPart (f : outcomeCandidate → Z) (o : rowOut) : list Z :=
  if ocOutcome (roBest o) =? 0 then [] else [f (roBest o)].
Definition remediationPart (o : rowOut) : list Z :=
  if ocOutcome (roBest o) =? 0 then [] else ocRemediations (roBest o).
Definition reasonPart (f : Z * Z * Z * Z → Z) (o : rowOut) : list Z := map f (roReasons o).

(** The result columns encode the rows [outs], in order. *)
Record encodes (outs : list rowOut) (dst : ResultBatch) : Prop := {
  en_outcomes : length (rbOutcomeIDs dst) = rows ∧
    ∀ r, (r < rows)%nat → rbOutcomeIDs dst !!! r = if decide (r < length outs)%nat then ocOutcome (roBest (outs !!! r)) else 0;
  en_requirements : csrOf rows (rbRequirementOffsets dst) (rbRequirementIDs dst) (map roIDs outs);
  en_driver_requirements : rbDriverRequirements dst = concat (map (driverPart ocRequirement) outs);
  en_driver_clauses : rbDriverClauses dst = concat (map (driverPart ocClause) outs);
  en_drivers : csrOf rows (rbDriverOffsets dst) (rbDriverNodes dst) (map (driverPart ocNode) outs);
  en_driver_reasons : rbDriverReasons dst = concat (map (driverPart ocDriverReason) outs);
  en_driver_explanations : rbDriverExplanations dst = concat (map (driverPart ocExplanation) outs);
  en_evidence : csrOf rows (rbEvidenceOffsets dst) (rbEvidenceIDs dst) (map roEvidence outs);
  en_reasons : csrOf rows (rbReasonOffsets dst) (rbReasonIDs dst) (map (reasonPart (λ t, t.1.1.1)) outs);
  en_reason_nodes : rbReasonNodes dst = concat (map (reasonPart (λ t, t.1.1.2)) outs);
  en_reason_evidence : rbReasonEvidenceIDs dst = concat (map (reasonPart (λ t, t.1.2)) outs);
  en_reason_states : rbReasonEvidenceStates dst = concat (map (reasonPart snd) outs);
  en_remediations : csrOf rows (rbRemediationOffsets dst) (rbRemediationIDs dst) (map remediationPart outs);
  en_rows : rbRows dst = Z.of_nat rows
}.

Lemma Reset_encodes dst : Reset (Z.of_nat rows) = Ok dst → encodes [] dst.
Proof.
  unfold Reset. intros ([] & _ & [= <-])%go_bind_inv. split; simpl; try done; try apply csrOf_empty.
  unfold make_. rewrite Nat2Z.id, length_replicate. split; [done|]. intros r Hr. by rewrite lookup_total_replicate_2.
Qed.

Lemma encodes_snoc outs dst o :
  encodes outs dst → (length outs < rows)%nat →
  encodes (outs ++ [o]) (emitRow (length outs) (rbRequirementIDs dst ++ roIDs o) (roBest o) (roReasons o) (roEvidence o) dst).
Proof.
  intros [[Hlo Ho] Hreq Hdr Hdc Hdn Hdre Hde Hev Hre Hrn Hrev Hrs Hrem Hrows] Hlt.
  assert (∀ f : rowOut → list Z, concat (map f (outs ++ [o])) = concat (map f outs) ++ f o) as Hcat
    by (intros f; rewrite map_app, concat_app; simpl; by rewrite app_nil_r).
  assert (∀ f l, (if negb (ocOutcome (roBest o) =? 0) then l ++ [f (roBest o)] else l) = l ++ driverPart f o) as Hadd
    by (intros f l; unfold driverPart; destruct (_ =? 0); simpl; by rewrite ?app_nil_r).
  assert ((if negb (ocOutcome (roBest o) =? 0) then rbRemediationIDs dst ++ ocRemediations (roBest o) else rbRemediationIDs dst)
    = rbRemediationIDs dst ++ remediationPart o) as Hrm by (unfold remediationPart; destruct (_ =? 0); simpl; by rewrite ?app_nil_r).
  unfold emitRow. rewrite !Hadd, Hrm.
  assert (∀ offs ids (f : rowOut → list Z), csrOf rows offs ids (map f outs) →
    csrOf rows (<[S (length outs) := u32 (zlen (ids ++ f o))]> offs) (ids ++ f o) (map f (outs ++ [o]))) as Hsnoc.
  { intros offs ids f Hc. rewrite map_app. simpl. pose proof (csrOf_snoc _ _ _ _ (f o) Hc) as Hs. rewrite length_map in Hs. by apply Hs. }
  split; cbn [rbOutcomeIDs rbRequirementOffsets rbRequirementIDs rbDriverRequirements rbDriverClauses rbDriverOffsets rbDriverNodes
    rbDriverReasons rbDriverExplanations rbEvidenceOffsets rbEvidenceIDs rbReasonOffsets rbReasonIDs rbReasonNodes rbReasonEvidenceIDs
    rbReasonEvidenceStates rbRemediationOffsets rbRemediationIDs rbRows]; rewrite ?Hcat; try (by apply Hsnoc); try (by f_equal); try done.
  2: { by apply (Hsnoc _ _ (reasonPart (λ t, t.1.1.1))). }
  rewrite length_app. simpl. split; [destruct (_ =? 0); simpl; by rewrite ?length_insert|]. intros r Hr.
  destruct (decide (r = length outs)) as [->|Hne].
  - rewrite decide_True by lia. rewrite lookup_total_app_r, Nat.sub_diag by lia. simpl.
    destruct (Z.eqb_spec (ocOutcome (roBest o)) 0) as [->|]; simpl; [rewrite Ho, decide_False by lia; done|].
    by rewrite list_lookup_total_insert_eq by lia.
  - assert ((if negb (ocOutcome (roBest o) =? 0) then <[length outs := ocOutcome (roBest o)]> (rbOutcomeIDs dst) else rbOutcomeIDs dst) !!! r
      = rbOutcomeIDs dst !!! r) as -> by (destruct (_ =? 0); simpl; [done|by rewrite list_lookup_total_insert_ne]).
    rewrite Ho by done. destruct (decide (r < length outs)%nat).
    + rewrite decide_True by lia. by rewrite lookup_total_app_l.
    + by rewrite decide_False by lia.
Qed.
End encoding.

(** Finalizing a reset batch encodes one specified row after another. *)
Lemma finalizeResults_ok p b env st :
  exec_ok p b env → schedule_inv p b env (length (Opcodes p)) st → sem_ok p → roots_ok p →
  policy_typed (ApplicabilityIndex p) → bound_ok (ApplicabilityIndex p) →
  ∀ dst, Reset (Rows b) = Ok dst →
  ∃ outs out, finalizeResults env p b (truthWords st) (reasonWords st) (ApplicabilityIndex p) (usesEvidence p) dst = Ok out ∧
    length outs = Z.to_nat (Rows b) ∧ encodes (Z.to_nat (Rows b)) outs out ∧
    ∀ r, (r < Z.to_nat (Rows b))%nat → rowSpec p b env st r (outs !!! r).
Proof.
  intros Hx Hinv Hsem Hro Hpt Hbo dst Hdst. unfold finalizeResults.
  assert (Rows b = Z.of_nat (Z.to_nat (Rows b))) as Hn by (pose proof (rows_u32 p b env Hx) as Hu; unfold is_u32 in Hu; lia).
  rewrite Hn in Hdst. apply Reset_encodes in Hdst.
  destruct (for_range_total (λ k d, ∃ outs, length outs = k ∧ encodes (Z.to_nat (Rows b)) outs d ∧
      ∀ r, (r < k)%nat → rowSpec p b env st r (outs !!! r)) (Z.to_nat (Rows b))
    (finalizeRow env p b (truthWords st) (reasonWords st) (ApplicabilityIndex p) (usesEvidence p)) dst) as (out & Hout & outs & Hl & Henc & Hspec).
  - exists []. split; [done|]. split; [done|]. intros r Hr. lia.
  - intros k d Hk (outs & Hl & Henc & Hspec).
    destruct (finalizeRow_ok p b env Hx st Hinv Hsem Hro Hpt Hbo k ltac:(lia)) as (o & Ho & ->). eexists; split; [done|].
    exists (outs ++ [o]). split; [rewrite length_app; simpl; lia|]. split.
    + rewrite <-Hl. apply encodes_snoc; [done|lia].
    + intros r Hr. destruct (decide (r = k)) as [->|].
      * by rewrite lookup_total_app_r, Hl, Nat.sub_diag by lia.
      * rewrite lookup_total_app_l by lia. apply Hspec. lia.
  - by exists outs, out.
Qed.
