(* ===== verification/Execute.v ===== *)
(** * Executor entry points: [internal/eval/executor.go], preparation and execution

    One [Executor] is reused for many programs and batches.  Its program, its
    bound policy query and its bound evidence states are pointers, modelled as
    addresses into an immutable [programs] store; binding happens in steps, so
    the file models the executor as explicit state that error returns keep.
    The theorems show that every return, errors included, leaves the bindings
    consistent, that an accepted batch produces the reference rows, and that a
    64-aligned range of a batch is evaluated as those rows of the batch. *)

From S2P Require Import Prelude Store Truth Schema Result Program Batch Predicate Simd FactIndex Evidence Executor PolicyIndex Finalize.
Import Reason.

(** ** Semantic validation *)

Definition validExecutionRoot (p : Program) (root flag : Z) : bool :=
  negb (root =? 0) && (root <=? zlen (Opcodes p)) && RootHas (RootFlags p !!! Z.to_nat (root - 1)) flag.

Definition explained (p : Program) (id : Z) : bool :=
  match ExplanationLookup (Explanations p) id with Some _ => true | None => false end.

(** [start+count] does not wrap and ends inside a column of [n] rows. *)
Definition edgeRange (start count n : Z) : bool :=
  negb ((u64 (start + count) <? start) || (n <? u64 (start + count))).

Definition validRequirementRow (p : Program) (row : nat) : bool :=
  let start := RequirementClauseStarts p !!! row in
  let count := RequirementClauseCounts p !!! row in
  negb ((RequirementIDs p !!! row =? 0) || (RequirementSourceNodeIDs p !!! row =? 0) ||
        negb (validExecutionRoot p (RequirementRoots p !!! row) RootApplicability)) &&
  negb (count =? 0) && edgeRange start count (zlen (RequirementClauseIDs p)) &&
  forallb (λ clauseID, negb ((clauseID =? 0) || (zlen (ClauseAssertionRoots p) <? clauseID)))
    (csr (RequirementClauseIDs p) start count).

Definition validClauseRow (p : Program) (row : nat) : bool :=
  let start := ClauseEvidenceStarts p !!! row in
  let count := ClauseEvidenceCounts p !!! row in
  let roots := csr (ClauseEvidenceIDs p) start count in
  negb ((ClauseAssertionSourceNodeIDs p !!! row =? 0) || negb (validExecutionRoot p (ClauseAssertionRoots p !!! row) RootAssertion)) &&
  edgeRange start count (zlen (ClauseEvidenceIDs p)) &&
  forallb (λ edge, negb ((ClauseEvidenceSourceNodeIDs p !!! (Z.to_nat start + edge)%nat =? 0) ||
                         negb (validExecutionRoot p (roots !!! edge) RootEvidence))) (seq 0 (length roots)) &&
  forallb (explained p) (csr (ClauseExplanationIDs p) (Z.of_nat row * clauseExplanationBranchCount) clauseExplanationBranchCount) &&
  bool_decide (is_Some (Outcomes.Lookup (Outcomes_ p) (ClauseOnSatisfied p !!! row))) &&
  bool_decide (is_Some (Outcomes.Lookup (Outcomes_ p) (ClauseOnFalse p !!! row))) &&
  edgeRange (ClauseRemediationStarts p !!! row) (ClauseRemediationCounts p !!! row) (zlen (ClauseRemediationIDs p)).

(** The shape conditions of [validExecutionSemantics]. *)
Definition validSemanticShape (p : Program) : bool :=
  let requirements := length (RequirementIDs p) in
  let clauses := length (ClauseAssertionRoots p) in
  let resolutionRows := u64 (Z.of_nat clauses * ReasonCount) in
  negb (bool_decide (requirements = 0%nat) || bool_decide (clauses = 0%nat) || (MaxUint32 <? Z.of_nat requirements) ||
        (MaxUint32 <? Z.of_nat clauses) || negb (RequirementCount (ApplicabilityIndex p) =? u32 (Z.of_nat requirements))) &&
  bool_decide (length (RequirementRoots p) = requirements ∧ length (RequirementSourceNodeIDs p) = requirements ∧
    length (RequirementClauseStarts p) = requirements ∧ length (RequirementClauseCounts p) = requirements ∧
    length (ClauseEvidenceStarts p) = clauses ∧ length (ClauseEvidenceCounts p) = clauses ∧
    length (ClauseOnSatisfied p) = clauses ∧ length (ClauseOnFalse p) = clauses ∧
    length (ClauseAssertionSourceNodeIDs p) = clauses ∧
    length (ClauseEvidenceSourceNodeIDs p) = length (ClauseEvidenceIDs p)) &&
  (zlen (ClauseExplanationIDs p) =? u64 (Z.of_nat clauses * clauseExplanationBranchCount)) &&
  (zlen (OutcomeIDs (Resolutions p)) =? resolutionRows) && (zlen (ExplanationIDs (Resolutions p)) =? resolutionRows) &&
  bool_decide (length (ClauseRemediationStarts p) = clauses ∧ length (ClauseRemediationCounts p) = clauses).

Definition validSelectorField (p : Program) (field : Z) : bool :=
  match SchemaLookup (FieldIndex p) field with
  | Some (kind, column) => (kind =? ValueKindSymbol) && negb (sCounts (FieldIndex p) !!! Z.to_nat ValueKindSymbol <=? column)
  | None => false
  end.

Definition validExecutionSemantics (p : Program) : go bool :=
  if negb (validExecutionSchedule p) || negb (FactIndex.Valid (FactIndexSpec p) (FieldIndex p) (ProgramSymbolCount p)) then Ok false else
  queries ← validFactIndexQueries p;
  Ok (queries && validSemanticShape p && forallb (explained p) (ExplanationIDs (Resolutions p)) &&
      forallb (λ name, bool_decide (is_Some (Symbol p name))) (EvidenceStateNames p) &&
      forallb (validSelectorField p) (pFieldIDs (ApplicabilityIndex p)) &&
      forallb (validRequirementRow p) (seq 0 (length (RequirementIDs p))) &&
      forallb (validClauseRow p) (seq 0 (length (ClauseAssertionRoots p)))).

(** ** The executor state *)

Record Executor := {
  exQuery : option Z;        (** the program whose applicability index is bound *)
  exProgram : option Z;
  exStates : EvidenceStateIndex;
  exValueRows : list Z;      (** scratch of [factBuilder] *)
  exTruthWords : store;
  exReasonWords : store;
  exCompareMask : list bool;
  exFactIndex : FactIndex.Index
}.

Definition zeroExecutor : Executor :=
  {| exQuery := None; exProgram := None; exStates := {| boundProgram := None; stateReasons := [] |}; exValueRows := [];
     exTruthWords := []; exReasonWords := []; exCompareMask := []; exFactIndex := FactIndex.Reset |}.

(** Methods of the executor: a result and the state left behind, also by errors. *)
Definition ex (A : Type) : Type := Executor → go A * Executor.
Definition ex_ret {A} (a : A) : ex A := λ e, (Ok a, e).
Definition ex_bind {A B} (c : ex A) (k : A → ex B) : ex B := λ e,
  match c e with
  | (Ok a, e') => k a e'
  | (Err x, e') => (Err x, e')
  | (Panic s, e') => (Panic s, e')
  end.
Definition lift {A} (c : go A) : ex A := λ e, (c, e).
Definition get : ex Executor := λ e, (Ok e, e).
Definition put (e' : Executor) : ex unit := λ _, (Ok tt, e').

Declare Scope ex_scope.
Delimit Scope ex_scope with ex.
Notation "x ⇐ c ; k" := (ex_bind c (λ x, k)) (at level 20, c at level 100, k at level 200, right associativity) : ex_scope.
Notation "c ;;; k" := (ex_bind c (λ _, k)) (at level 100, k at level 200, right associativity) : ex_scope.

(** [if err := c; err != nil { return e }]. *)
Definition orElse {A} (c : go A) (e : error) : go A := match c with Err _ => Err e | r => r end.
Definition ofOption {A} (o : option A) (e : error) : go A := match o with Some a => Ok a | None => Err e end.

Section execute.
Context {ops : SimdOps}.
(** The immutable programs by address. *)
Context (programs : Z → Program).
Local Open Scope ex_scope.

Definition bindProgram (addr : Z) : ex unit :=
  e ⇐ get;
  query ⇐ lift (orElse (QueryBind (exQuery e) addr (ApplicabilityIndex (programs addr))) ErrInvalidProgram);
  put {| exQuery := query; exProgram := exProgram e; exStates := exStates e; exValueRows := exValueRows e; exTruthWords := exTruthWords e;
         exReasonWords := exReasonWords e; exCompareMask := exCompareMask e; exFactIndex := exFactIndex e |} ;;;
  states ⇐ lift (orElse (Bind (exStates e) addr (programs addr)) ErrInvalidProgram);
  put {| exQuery := query; exProgram := exProgram e; exStates := states; exValueRows := exValueRows e; exTruthWords := exTruthWords e;
         exReasonWords := exReasonWords e; exCompareMask := exCompareMask e; exFactIndex := exFactIndex e |}.

(** [buildFactIndex], the scratch and [prepareValidated]. *)
Definition prepareScratch (addr : Z) (batch : Batch) (mode : executionMode) (truthLen reasonLen : Z) : ex unit :=
  e ⇐ get;
  built ⇐ lift (buildFactIndex (exValueRows e) (programs addr) batch mode);
  put {| exQuery := exQuery e; exProgram := Some addr; exStates := exStates e; exValueRows := built.1;
         exTruthWords := resizeExecutorScratch 0 (exTruthWords e) truthLen;
         exReasonWords := resizeExecutorScratch 0 (exReasonWords e) reasonLen;
         exCompareMask := exCompareMask e; exFactIndex := built.2 |}.

(** The scratch and result sizes [prepareExecution] reserves, in order. *)
Definition executionSizes (p : Program) (batch : Batch) : go (Z * Z) :=
  truthLen ← ofOption (executorScratchLen (TruthSlotCount p) 2 (WordCount (Rows batch))) ErrBatchTooLarge;
  reasonLen ← ofOption (executorScratchLen (ReasonSlotCount p) ReasonCount (WordCount (Rows batch))) ErrBatchTooLarge;
  _ ← ofOption (executorResultLen (Rows batch) (zlen (RequirementIDs p)) 4) ErrBatchTooLarge;
  _ ← ofOption (executorResultLen (Rows batch) 1 4) ErrBatchTooLarge;
  _ ← ofOption (executorResultLen (Rows batch) ReasonCount 4) ErrBatchTooLarge;
  _ ← ofOption (executorResultLen (Rows batch) (maxExecutionRemediations p) 4) ErrBatchTooLarge;
  _ ← (if usesEvidence p then ofOption (executorResultLen 1 (zlen (EvidenceRefs batch)) 4) ErrBatchTooLarge else Ok 0);
  Ok (truthLen, reasonLen).

Definition prepareExecution (addr : Z) (batch : Batch) (mode : executionMode) : ex (bool * ResultBatch) :=
  let p := programs addr in
  e ⇐ get;
  let rebind := negb (bool_decide (exProgram e = Some addr)) in
  valid ⇐ lift (if rebind then validExecutionSemantics p else Ok true);
  lift (check valid ErrInvalidProgram) ;;;
  lift (check ((zlen (RequestIDs batch) =? Rows batch) && validExecutionBatchColumns p batch) ErrInvalidProgram) ;;;
  lift (check (negb (usesEvidence p) || validEvidenceBatch batch p) ErrInvalidProgram) ;;;
  sizes ⇐ lift (executionSizes p batch);
  (if rebind then bindProgram addr else ex_ret tt) ;;;
  prepareScratch addr batch mode sizes.1 sizes.2 ;;;
  dst ⇐ lift (orElse (Reset (Rows batch)) ErrBatchTooLarge);
  ex_ret (usesEvidence p, dst).

(** The program pointer's environment for the instruction handlers. *)
Definition envOf (addr : Z) (e : Executor) : ExecEnv :=
  {| programAddr := addr; states := exStates e; factIndex := exFactIndex e |}.

Definition executeMode (addr : Z) (batch : Batch) (mode : executionMode) : ex ResultBatch :=
  let p := programs addr in
  prepared ⇐ prepareExecution addr batch mode;
  e ⇐ get;
  st ⇐ lift (executeScheduleMode (envOf addr e) p batch mode
              {| truthWords := exTruthWords e; reasonWords := exReasonWords e; compareMask := exCompareMask e |});
  put {| exQuery := exQuery e; exProgram := exProgram e; exStates := exStates e; exValueRows := exValueRows e;
         exTruthWords := truthWords st; exReasonWords := reasonWords st; exCompareMask := compareMask st; exFactIndex := exFactIndex e |} ;;;
  (* a nil query makes [Candidates] fail, which [selectRequirementCandidates] turns into a panic *)
  query ⇐ lift (match exQuery e with Some a => Ok (ApplicabilityIndex (programs a)) | None => Panic "eval: invalid bound applicability query" end);
  lift (finalizeResults (envOf addr e) p batch (truthWords st) (reasonWords st) query prepared.1 prepared.2).

(** The evidence columns of a range, with offsets rebased to its first record. *)
Definition rangeEvidence (p : Program) (batch : Batch) (start end_ : Z) (evidenceOffsets : list Z) : go (list Z * list Z) :=
  if usesEvidence p then
    check (zlen (EvidenceOffsets batch) =? Rows batch + 1) ErrInvalidProgram ;;
    base ← at_ (EvidenceOffsets batch) start;
    limit ← at_ (EvidenceOffsets batch) end_;
    check (negb ((limit <? base) || (zlen (EvidenceRefs batch) <? limit))) ErrInvalidProgram ;;
    '(offsets, _) ← for_range (length evidenceOffsets) (λ row st,
        let '(offsets, previous) := st in
        offset ← at_ (EvidenceOffsets batch) (start + Z.of_nat row);
        check (negb ((offset <? previous) || (limit <? offset))) ErrInvalidProgram ;;
        Ok (<[row := offset - base]> offsets, offset)) (evidenceOffsets, base);
    refs ← slice_ (EvidenceRefs batch) base limit;
    Ok (offsets, refs)
  else Ok (make_ (zlen evidenceOffsets), []).

(** The view of rows [start, end_) of a source batch. *)
Definition rangeView (p : Program) (batch : Batch) (start end_ : Z) (evidenceOffsets : list Z) : go Batch :=
  check ((rowStride batch =? 0) && (rowBase batch =? 0) && (start <=? end_) && (end_ <=? Rows batch) &&
         (Z.land start 63 =? 0) && ((Z.land end_ 63 =? 0) || (end_ =? Rows batch))) ErrInvalidProgram ;;
  let rows := end_ - start in
  check ((rows + 1 <=? MaxInt) && (zlen evidenceOffsets =? rows + 1) && (zlen (RequestIDs batch) =? Rows batch)) ErrInvalidProgram ;;
  requests ← slice_ (RequestIDs batch) start end_;
  '(offsets, refs) ← rangeEvidence p batch start end_ evidenceOffsets;
  Ok {| SymbolValues := SymbolValues batch; bIntegerValues := bIntegerValues batch; bTimestampValues := bTimestampValues batch;
        bBooleanValues := bBooleanValues batch; PresenceMasks := PresenceMasks batch; RequestIDs := requests;
        EvidenceOffsets := offsets; EvidenceRefs := refs; Evidence := Evidence batch;
        Rows := rows; rowBase := start; rowStride := Rows batch |}.

Definition executeRangeMode (addr : Z) (batch : Batch) (start end_ : Z) (evidenceOffsets : list Z) (mode : executionMode)
    : ex ResultBatch :=
  view ⇐ lift (rangeView (programs addr) batch start end_ evidenceOffsets);
  executeMode addr view mode.

Definition Execute (addr : Z) (batch : Batch) : ex ResultBatch := executeMode addr batch executionAuto.
Definition ExecuteRange (addr : Z) (batch : Batch) (start end_ : Z) (evidenceOffsets : list Z) : ex ResultBatch :=
  executeRangeMode addr batch start end_ evidenceOffsets executionAuto.
End execute.

(** A program whose schedule is invalid is refused before the executor changes. *)
Lemma invalid_schedule_refused {ops : SimdOps} (programs : Z → Program) addr b mode e :
  exProgram e ≠ Some addr → validExecutionSchedule (programs addr) = false → executeMode programs addr b mode e = (Err ErrInvalidProgram, e).
Proof.
  intros He Hv. unfold executeMode, prepareExecution, ex_bind, get, lift. rewrite bool_decide_eq_false_2 by done.
  unfold validExecutionSemantics. by rewrite Hv.
Qed.

(** ** Validated programs *)

(** The unsigned semantic columns hold values of their Go types. *)
Record sem_typed (p : Program) : Prop := {
  sy_roots : Forall is_u32 (RequirementRoots p); sy_cstarts : Forall is_u32 (RequirementClauseStarts p);
  sy_ccounts : Forall is_u32 (RequirementClauseCounts p); sy_clauses : Forall is_u32 (RequirementClauseIDs p);
  sy_assertions : Forall is_u32 (ClauseAssertionRoots p); sy_estarts : Forall is_u32 (ClauseEvidenceStarts p);
  sy_ecounts : Forall is_u32 (ClauseEvidenceCounts p); sy_evidence : Forall is_u32 (ClauseEvidenceIDs p);
  sy_rstarts : Forall is_u32 (ClauseRemediationStarts p); sy_rcounts : Forall is_u32 (ClauseRemediationCounts p);
  sy_columns : Forall is_u32 (sColumns (FieldIndex p)); sy_selectors : Forall is_u32 (pFieldIDs (ApplicabilityIndex p))
}.

Lemma edgeRange_ok start count n : is_u32 start → is_u32 count → edgeRange start count n = true → 0 ≤ start ∧ 0 ≤ count ∧ start + count ≤ n.
Proof.
  unfold edgeRange, is_u32. intros Hs Hc. rewrite u64_small by (unfold is_u64; lia).
  rewrite negb_true_iff, orb_false_iff, !Z.ltb_ge. lia.
Qed.

Lemma validExecutionRoot_ok p root flag : flag ≠ 0 → is_u32 root → validExecutionRoot p root flag = true → isRoot p root.
Proof.
  unfold validExecutionRoot, is_u32, isRoot, RootHas. rewrite !andb_true_iff, negb_true_iff, Z.eqb_neq, Z.leb_le, Z.eqb_eq.
  intros Hf Hr [[Hne Hle] Hflag]. split; [lia|]. intros E. rewrite E, Z.land_0_l in Hflag. congruence.
Qed.

Lemma validRequirementRow_ok p row :
  sem_typed p → (row < length (RequirementRoots p))%nat → (row < length (RequirementClauseStarts p))%nat →
  (row < length (RequirementClauseCounts p))%nat → validRequirementRow p row = true →
  isRoot p (RequirementRoots p !!! row) ∧
  (0 ≤ RequirementClauseStarts p !!! row ∧ 0 ≤ RequirementClauseCounts p !!! row ∧
   RequirementClauseStarts p !!! row + RequirementClauseCounts p !!! row ≤ zlen (RequirementClauseIDs p)) ∧
  (∀ c, c ∈ csr (RequirementClauseIDs p) (RequirementClauseStarts p !!! row) (RequirementClauseCounts p !!! row) →
     1 ≤ c ≤ zlen (ClauseAssertionRoots p)).
Proof.
  intros Hty H1 H2 H3. unfold validRequirementRow. cbv zeta.
  rewrite !andb_true_iff, !negb_true_iff, !orb_false_iff, negb_false_iff, forallb_forall. intros [[[[_ Hroot] _] Hedge] Hall].
  split; [eapply validExecutionRoot_ok; [| |done]; [done|]; by apply Forall_lookup_total_1, H1; apply Hty|].
  split; [apply edgeRange_ok; [| |done]; apply Forall_lookup_total_1; try done; apply Hty|].
  intros c Hc. pose proof (csr_elem _ _ _ _ Hc) as Hin. rewrite list_elem_of_In in Hc. specialize (Hall c Hc).
  rewrite negb_true_iff, orb_false_iff, Z.eqb_neq, Z.ltb_ge in Hall.
  pose proof (sy_clauses _ Hty) as Hu. rewrite Forall_forall in Hu. specialize (Hu c Hin). unfold is_u32 in Hu. lia.
Qed.

Lemma validClauseRow_ok p row :
  sem_typed p → (row < length (ClauseAssertionRoots p))%nat →
  length (ClauseEvidenceStarts p) = length (ClauseAssertionRoots p) → length (ClauseEvidenceCounts p) = length (ClauseAssertionRoots p) →
  length (ClauseRemediationStarts p) = length (ClauseAssertionRoots p) → length (ClauseRemediationCounts p) = length (ClauseAssertionRoots p) →
  validClauseRow p row = true →
  isRoot p (ClauseAssertionRoots p !!! row) ∧
  (0 ≤ ClauseEvidenceStarts p !!! row ∧ 0 ≤ ClauseEvidenceCounts p !!! row ∧
   ClauseEvidenceStarts p !!! row + ClauseEvidenceCounts p !!! row ≤ zlen (ClauseEvidenceIDs p)) ∧
  (∀ e, e ∈ csr (ClauseEvidenceIDs p) (ClauseEvidenceStarts p !!! row) (ClauseEvidenceCounts p !!! row) → isRoot p e) ∧
  (Outcomes.known (Outcomes_ p) (ClauseOnSatisfied p !!! row) ∧ Outcomes.known (Outcomes_ p) (ClauseOnFalse p !!! row)) ∧
  (0 ≤ ClauseRemediationStarts p !!! row ∧ 0 ≤ ClauseRemediationCounts p !!! row ∧
   ClauseRemediationStarts p !!! row + ClauseRemediationCounts p !!! row ≤ zlen (ClauseRemediationIDs p)).
Proof.
  intros Hty H1 H2 H3 H4 H5. unfold validClauseRow. cbv zeta.
  rewrite !andb_true_iff, !bool_decide_eq_true, !Outcomes.Lookup_known, !negb_true_iff, !orb_false_iff, negb_false_iff, forallb_forall.
  intros [[[[[[[_ Hroot] Hedge] Hev] _] Hs] Hf] Hrem].
  assert (∀ l, Forall is_u32 l → length l = length (ClauseAssertionRoots p) → is_u32 (l !!! row)) as Hu
    by (intros l Hl El; apply Forall_lookup_total_1; [done|lia]).
  split; [eapply validExecutionRoot_ok; [| |done]; [done|]; apply Hu; [apply Hty|done]|].
  split; [apply edgeRange_ok; [apply Hu; [apply Hty|done]|apply Hu; [apply Hty|done]|done]|].
  split; [|split; [done|apply edgeRange_ok; [apply Hu; [apply Hty|done]|apply Hu; [apply Hty|done]|done]]].
  intros e He. pose proof (csr_elem _ _ _ _ He) as Hin. apply list_elem_of_lookup in He as [k Hk]. specialize (Hev k).
  rewrite in_seq in Hev. pose proof (lookup_lt_Some _ _ _ Hk). specialize (Hev ltac:(lia)).
  rewrite negb_true_iff, orb_false_iff, negb_false_iff in Hev. destruct Hev as [_ Hev].
  rewrite (list_lookup_total_correct _ _ _ Hk) in Hev. eapply (validExecutionRoot_ok _ _ RootEvidence); [done| |done].
  pose proof (sy_evidence _ Hty) as Hue. rewrite Forall_forall in Hue. by apply Hue.
Qed.

Lemma validSemanticShape_ok p : validSemanticShape p = true →
  RequirementCount (ApplicabilityIndex p) = zlen (RequirementIDs p) ∧
  (length (RequirementRoots p) = length (RequirementIDs p) ∧ length (RequirementSourceNodeIDs p) = length (RequirementIDs p) ∧
   length (RequirementClauseStarts p) = length (RequirementIDs p) ∧ length (RequirementClauseCounts p) = length (RequirementIDs p)) ∧
  (length (ClauseEvidenceStarts p) = length (ClauseAssertionRoots p) ∧ length (ClauseEvidenceCounts p) = length (ClauseAssertionRoots p) ∧
   length (ClauseOnSatisfied p) = length (ClauseAssertionRoots p) ∧ length (ClauseOnFalse p) = length (ClauseAssertionRoots p) ∧
   length (ClauseAssertionSourceNodeIDs p) = length (ClauseAssertionRoots p) ∧
   length (ClauseEvidenceSourceNodeIDs p) = length (ClauseEvidenceIDs p) ∧
   zlen (ClauseExplanationIDs p) = zlen (ClauseAssertionRoots p) * clauseExplanationBranchCount ∧
   length (ClauseRemediationStarts p) = length (ClauseAssertionRoots p) ∧
   length (ClauseRemediationCounts p) = length (ClauseAssertionRoots p)) ∧
  zlen (OutcomeIDs (Resolutions p)) = zlen (ClauseAssertionRoots p) * ReasonCount.
Proof.
  unfold validSemanticShape. cbv zeta. unfold clauseExplanationBranchCount, ReasonCount.
  rewrite !andb_true_iff, !bool_decide_eq_true, negb_true_iff, !orb_false_iff, negb_false_iff, !Z.ltb_ge, !Z.eqb_eq.
  intros [[[[[Hc Hl] He] Ho] _] Hr]. destruct Hc as [[[_ Hreq] Hcl] Hcount]. unfold MaxUint32 in *.
  rewrite u64_small in He, Ho by (unfold is_u64; lia). rewrite u32_small in Hcount by (unfold is_u32; lia). tauto.
Qed.

Lemma SchemaLookup_inv s field kind column :
  SchemaLookup s field = Some (kind, column) →
  field ≠ 0 ∧ field ≤ zlen (sKinds s) ∧ field ≤ zlen (sColumns s) ∧ column = sColumns s !!! Z.to_nat (field - 1).
Proof.
  unfold SchemaLookup. destruct (Z.eqb_spec field 0); [done|]. cbv zeta.
  destruct (Z.leb_spec (zlen (sKinds s)) (field - 1)); [done|]. destruct (Z.leb_spec (zlen (sColumns s)) (field - 1)); [done|].
  simpl. intros [= <- <-]. lia.
Qed.

Lemma validExecutionSemantics_ok p :
  sched_typed p → sem_typed p → validExecutionSemantics p = Ok true →
  sched_ok p ∧ sem_ok p ∧ FactIndex.Valid (FactIndexSpec p) (FieldIndex p) (ProgramSymbolCount p) = true ∧
  validFactIndexQueries p = Ok true ∧ forallb (λ name, bool_decide (is_Some (Symbol p name))) (EvidenceStateNames p) = true.
Proof.
  intros Hst Hty. unfold validExecutionSemantics. destruct (validExecutionSchedule p) eqn:Hsched; simpl; [|done].
  destruct (FactIndex.Valid _ _ _) eqn:Hv; simpl; [|done]. intros (queries & Hq & Hall)%go_bind_inv.
  injection Hall as Hall. rewrite !andb_true_iff in Hall. destruct Hall as [[[[[[-> Hshape] _] Hnames] Hsel] Hreq] Hcl].
  split; [by apply validExecutionSchedule_ok|]. split; [|done].
  apply validSemanticShape_ok in Hshape as (Hcount & Hl1 & Hl2 & Hblocks).
  assert (∀ q, (q < length (RequirementIDs p))%nat → _) as HR
    by (intros q Hlt; exact (validRequirementRow_ok p q Hty ltac:(lia) ltac:(lia) ltac:(lia) (forallb_seq _ _ q Hreq Hlt))).
  assert (∀ c, (c < length (ClauseAssertionRoots p))%nat → _) as HC
    by (intros c Hlt; exact (validClauseRow_ok p c Hty Hlt ltac:(tauto) ltac:(tauto) ltac:(tauto) ltac:(tauto) (forallb_seq _ _ c Hcl Hlt))).
  split; try done.
  - intros f Hf. rewrite forallb_forall in Hsel. specialize (Hsel f). rewrite <-list_elem_of_In in Hsel. specialize (Hsel Hf).
    unfold validSelectorField in Hsel. destruct (SchemaLookup (FieldIndex p) f) as [[kind column]|] eqn:Hlk; [|done].
    rewrite andb_true_iff, Z.eqb_eq, negb_true_iff, Z.leb_gt in Hsel. destruct Hsel as [-> Hcol]. exists column. split; [done|].
    pose proof (sy_selectors _ Hty) as Hus. rewrite Forall_forall in Hus. specialize (Hus f Hf).
    destruct (SchemaLookup_inv _ _ _ _ Hlk) as (Hf0 & Hf1 & Hf2 & ->). unfold is_u32 in Hus. split; [lia|]. split; [|done].
    apply (Forall_lookup_total_1 is_u32); [apply Hty|lia].
  - intros q Hlt. exact (proj1 (HR q Hlt)).
  - intros q Hlt. exact (proj1 (proj2 (HR q Hlt))).
  - intros q c Hlt. exact (proj2 (proj2 (HR q Hlt)) c).
  - intros c Hlt. exact (proj1 (HC c Hlt)).
  - intros c Hlt. exact (proj1 (proj2 (HC c Hlt))).
  - intros c e Hlt. exact (proj1 (proj2 (proj2 (HC c Hlt))) e).
  - intros c Hlt. exact (proj1 (proj2 (proj2 (proj2 (HC c Hlt))))).
  - intros c Hlt. exact (proj2 (proj2 (proj2 (proj2 (HC c Hlt))))).
Qed.

(** Field, type and slot facts a compiled program comes with. *)
Record program_typed (p : Program) : Prop := {
  pg_sched : sched_typed p;
  pg_sem : sem_typed p;
  pg_policy : policy_typed (ApplicabilityIndex p);
  pg_spec : FactIndex.spec_typed (FactIndexSpec p);
  pg_symbols : is_u32 (ProgramSymbolCount p);
  pg_schema : schema_typed (FieldIndex p)
}.

(** What compilation guarantees of a program beyond the executor's checks. *)
Record program_wf (p : Program) : Prop := {
  pw_typed : program_typed p;
  pw_instructions row : (row < length (Opcodes p))%nat → instructionOk p row = true;
  pw_slots : noninterfering p;
  pw_roots : roots_ok p
}.

(** The Go types of an input batch; a slice of 4-byte symbols has at most
    [MaxInt / 4] elements. *)
Record input_typed (b : Batch) : Prop := {
  it_batch : batch_typed b;
  it_symbols : Forall is_u32 (SymbolValues b);
  it_length : zlen (SymbolValues b) ≤ MaxInt / 4;
  it_evidence : evidence_typed b
}.

(** ** Validation does not panic *)

Lemma validFactIndexQuery_total p row :
  FactIndex.spec_typed (FactIndexSpec p) → FactIndex.Valid (FactIndexSpec p) (FieldIndex p) (ProgramSymbolCount p) = true →
  validExecutionSchedule p = true → (row < length (Opcodes p))%nat → instructionOk p row = true →
  ∃ ok, validFactIndexQuery p row = Ok ok.
Proof.
  intros Hty Hv Hs Hrow Hi. unfold validExecutionSchedule in Hs. rewrite !andb_true_iff, !bool_decide_eq_true in Hs.
  destruct Hs as (((((((((_ & _) & Hl) & _) & _) & _) & _) & _) & _) & _). destruct Hl as (Hl1 & Hl2 & Hl3 & Hl4 & _).
  unfold FactIndex.Valid in Hv. rewrite !andb_true_iff in Hv. destruct Hv as [[_ Hshape] _].
  apply FactIndex.validFactSpecShape_ok in Hshape as Hok; [|done].
  unfold validFactIndexQuery. rewrite (at_total (Opcodes p)), (at_total (Fields p)) by lia. rewrite !go_bind_Ok, Nat2Z.id.
  destruct (BinarySearch _ _) as [f sel] eqn:HB. destruct sel; simpl; [|by eexists].
  apply BinarySearch_found in HB as [Hf _]. destruct (FactIndex.so_range _ _ _ Hok f Hf) as (H0 & Hc & Hend).
  pose proof (FactIndex.so_starts _ _ _ Hok). pose proof (FactIndex.so_counts _ _ _ Hok).
  rewrite (at_total (ValueStarts _)), (at_total (ValueCounts _)) by lia. rewrite !go_bind_Ok, Nat2Z.id.
  rewrite slice_csr by lia. rewrite go_bind_Ok.
  destruct (_ || _); [rewrite (at_total (Values p)) by lia; by eexists|].
  destruct (Z.eqb_spec (Opcodes p !!! row) OpcodeIn) as [Eop|]; [|by eexists].
  rewrite (at_total (Values p)) by lia. rewrite go_bind_Ok. destruct (negb _); [by eexists|].
  rewrite (at_total (ListStarts p)), (at_total (ListCounts p)) by lia. rewrite !go_bind_Ok, Nat2Z.id.
  assert (predicateOk p row = true) as Hp by (unfold instructionOk in Hi; by rewrite Eop in Hi).
  destruct (predicateOk_inv p row Hp) as (kind & column & _ & _ & _ & _ & _ & _ & Hin & _). rewrite Eop in Hin. simpl in Hin.
  rewrite slice_csr by lia. by eexists.
Qed.

Lemma validExecutionSemantics_total p :
  FactIndex.spec_typed (FactIndexSpec p) → (∀ row, (row < length (Opcodes p))%nat → instructionOk p row = true) →
  ∃ ok, validExecutionSemantics p = Ok ok.
Proof.
  intros Hty Hi. unfold validExecutionSemantics. destruct (validExecutionSchedule p) eqn:Hs; simpl; [|by eexists].
  destruct (FactIndex.Valid _ _ _) eqn:Hv; simpl; [|by eexists].
  assert (∃ ok, validFactIndexQueries p = Ok ok) as [ok ->]; [|by eexists].
  unfold validFactIndexQueries. destruct (bool_decide _); [by eexists|]. destruct (negb _); [by eexists|].
  destruct (for_range_total (λ _ (_ : bool), True) (length (Opcodes p))
    (λ row (ok : bool), if ok then validFactIndexQuery p row else Ok false) true) as (ok & -> & _); [done| |by eexists].
  intros row [] Hrow _; [|by eexists].
  destruct (validFactIndexQuery_total p row Hty Hv Hs Hrow (Hi row Hrow)) as [ok ->]. by eexists.
Qed.

Lemma buildFactIndex_total vr p b mode :
  columns_ok p b → facts_typed p b → FactIndex.all_zero vr → zlen (SymbolValues b) ≤ MaxInt / 4 →
  FactIndex.Valid (FactIndexSpec p) (FieldIndex p) (ProgramSymbolCount p) = true →
  ∃ built, buildFactIndex vr p b mode = Ok built ∧ FactIndex.all_zero built.1 ∧ fact_ok p b built.2.
Proof.
  intros Hco Hft Hz Hlen Hv. pose proof (buildFactIndex_ok vr p b mode Hco Hft Hz) as Hb.
  destruct (buildFactIndex vr p b mode) as [[vr' ix]|e|] eqn:HE; [by exists (vr', ix)| |done]. destruct Hb as [_ []].
  destruct (symbolColumns_typed p b Hco Hft) as [_ Hst]. pose proof (co_batch _ _ Hco) as Hbt.
  destruct (validPhysicalRange_inv b Hbt (co_range _ _ Hco)) as (_ & _ & Hle). destruct Hbt as [Hr Hbb _].
  unfold FactIndex.Valid in Hv. rewrite !andb_true_iff in Hv. unfold is_u32 in *.
  split; rewrite ?Hst; simpl; [done|lia| |apply Hv].
  split; [|done]. rewrite (co_symbol _ _ Hco). change (Z.to_nat ValueKindSymbol) with 1%nat. ring.
Qed.

(** ** Scratch sizes *)

Lemma executorScratchLen_Some a b c n :
  0 ≤ a → 0 ≤ b → 0 ≤ c → executorScratchLen a b c = Some n → n = a * b * c ∧ 0 ≤ n ≤ MaxInt.
Proof.
  intros Ha Hb Hc. unfold executorScratchLen. destruct (_ && _) eqn:E1; [done|]. cbv zeta.
  rewrite (no_wrap a b) by done. destruct (negb (a * b =? 0) && _) eqn:E2; [done|].
  rewrite (no_wrap (a * b) c) by (done || nia). destruct (Z.ltb_spec (MaxInt / 8) (a * b * c)) as [|Hle]; [done|].
  intros [= <-]. split; [done|]. assert (MaxInt / 8 ≤ MaxInt) by done. assert (0 ≤ a * b) by nia. nia.
Qed.

Lemma executorResultLen_Some rows n bytes m :
  0 ≤ rows → 0 ≤ n → executorResultLen rows n bytes = Some m → m = rows * n ∧ m ≤ MaxUint32.
Proof.
  intros Hr Hn. unfold executorResultLen. destruct (_ && _) eqn:E1; [done|]. cbv zeta. rewrite (no_wrap rows n) by done.
  destruct (Z.ltb_spec MaxUint32 (rows * n)) as [|Hle]; [done|]. destruct (Z.ltb_spec (MaxInt / bytes) (rows * n)); [done|]. simpl. intros [= <-]. lia.
Qed.

(** Every reserved result column fits uint32 offsets. *)
Record sizes_ok (p : Program) (b : Batch) : Prop := {
  sz_requirements : Rows b * zlen (RequirementIDs p) ≤ MaxUint32;
  sz_reasons : Rows b * ReasonCount ≤ MaxUint32;
  sz_remediations : Rows b * maxExecutionRemediations p ≤ MaxUint32;
  sz_evidence : usesEvidence p = true → zlen (EvidenceRefs b) ≤ MaxUint32
}.

Lemma maxExecutionRemediations_nonneg p : 0 ≤ maxExecutionRemediations p.
Proof. apply foldl_max_ge. left. apply foldl_max_ge. by left. Qed.

Lemma executionSizes_ok p b :
  sched_typed p → is_u32 (Rows b) →
  match executionSizes p b with
  | Ok (t, r) => (t = TruthSlotCount p * 2 * WordCount (Rows b) ∧ 0 ≤ t ≤ MaxInt) ∧
      (r = ReasonSlotCount p * 9 * WordCount (Rows b) ∧ 0 ≤ r ≤ MaxInt) ∧ sizes_ok p b
  | Err e => e = ErrBatchTooLarge
  | Panic _ => False
  end.
Proof.
  intros Hty Hr. destruct (WordCount_bounds _ Hr) as (Hw & _). unfold executionSizes, ofOption, ReasonCount, is_u32 in *.
  pose proof (maxExecutionRemediations_nonneg p) as Hm.
  pose proof (st_tcount _ Hty) as Ht. pose proof (st_rcount _ Hty) as Hrc. unfold is_u32 in Ht, Hrc.
  destruct (executorScratchLen (TruthSlotCount p) _ _) as [t|] eqn:E1; [|done]. apply executorScratchLen_Some in E1; [|lia..].
  destruct (executorScratchLen (ReasonSlotCount p) _ _) as [r|] eqn:E2; [|done]. apply executorScratchLen_Some in E2; [|lia..].
  destruct (executorResultLen (Rows b) (zlen _) 4) as [m1|] eqn:E3; [|done]. apply executorResultLen_Some in E3; [|lia..].
  destruct (executorResultLen (Rows b) 1 4) as [m2|] eqn:E4; [|done].
  destruct (executorResultLen (Rows b) 9 4) as [m3|] eqn:E5; [|done]. apply executorResultLen_Some in E5; [|lia..].
  destruct (executorResultLen (Rows b) (maxExecutionRemediations p) 4) as [m4|] eqn:E6; [|done].
  apply executorResultLen_Some in E6; [|lia..]. simpl.
  assert (sizes_ok p b ∨ usesEvidence p = true) as Hsz.
  { destruct (usesEvidence p) eqn:Hu; [by right|left]. split; unfold ReasonCount; try lia. congruence. }
  destruct (usesEvidence p) eqn:Hu.
  - destruct (executorResultLen 1 _ 4) as [m5|] eqn:E7; [|done]. apply executorResultLen_Some in E7; [|lia..]. simpl.
    split; [done|]. split; [done|]. split; unfold ReasonCount; lia.
  - simpl. destruct Hsz; [|done]. done.
Qed.

Lemma length_resize {A} (zero : A) l n : 0 ≤ n → zlen (resizeExecutorScratch zero l n) = n.
Proof.
  intros Hn. unfold resizeExecutorScratch. destruct (Z.ltb_spec (zlen l) n); rewrite ?length_replicate, ?length_take; lia.
Qed.

(** ** Executor consistency *)

Lemma QueryBind_cases bound addr policy :
  (bound = Some addr → validBoundPolicy policy = true) →
  (QueryBind bound addr policy = Ok (Some addr) ∧ validBoundPolicy policy = true) ∨
  (QueryBind bound addr policy = Err ErrInvalidPolicy ∧ validBoundPolicy policy = false).
Proof.
  intros Hb. unfold QueryBind, check. destruct (bool_decide_reflect (bound = Some addr)) as [->|]; [left; auto|].
  destruct (validBoundPolicy policy); [by left|by right].
Qed.

(** The reasons of the program's evidence states. *)
Definition programReasons (p : Program) : list Z :=
  map (λ nameID, stateReason (default [] (Symbol p nameID))) (EvidenceStateNames p).

Lemma programReasons_ok p : reasons_ok p (programReasons p).
Proof.
  unfold reasons_ok, programReasons. rewrite length_map. split; [done|]. rewrite Forall_map. apply Forall_true.
  intros ?. apply stateReason_range.
Qed.

Lemma Bind_program i addr p i' :
  (boundProgram i = Some addr → stateReasons i = programReasons p) →
  Bind i addr p = Ok i' → boundProgram i' = Some addr ∧ stateReasons i' = programReasons p.
Proof.
  intros Hi. unfold Bind. destruct (bool_decide_reflect (boundProgram i = Some addr)) as [E|E]; [intros [= <-]; auto|].
  by intros (? & _ & [= <-])%go_bind_inv.
Qed.

Lemma Bind_total i addr (p : Program) :
  forallb (λ name, bool_decide (is_Some (Symbol p name))) (EvidenceStateNames p) = true → ∃ i', Bind i addr p = Ok i'.
Proof.
  intros Hnames. unfold Bind, check. destruct (bool_decide (boundProgram i = Some addr)); [by eexists|].
  assert (forallb (λ nameID, match Symbol p nameID with Some _ => true | None => false end) (EvidenceStateNames p) = true) as ->; [|by eexists].
  rewrite forallb_forall in Hnames |- *. intros x Hx. specialize (Hnames x Hx). apply bool_decide_eq_true in Hnames as [? ->]. done.
Qed.

Section execute_ok.
Context {ops : SimdOps} {laws : SimdLaws ops}.
Context (programs : Z → Program).

(** Program, query and evidence states are bound to the same validated
    program, and the index builder's scratch is clean. *)
Record executor_ok (e : Executor) : Prop := {
  ek_program addr : exProgram e = Some addr → validExecutionSemantics (programs addr) = Ok true ∧
    exQuery e = Some addr ∧ boundProgram (exStates e) = Some addr;
  ek_query addr : exQuery e = Some addr → validBoundPolicy (ApplicabilityIndex (programs addr)) = true;
  ek_states addr : boundProgram (exStates e) = Some addr → stateReasons (exStates e) = programReasons (programs addr);
  ek_scratch : FactIndex.all_zero (exValueRows e)
}.

Lemma zeroExecutor_ok : executor_ok zeroExecutor.
Proof. split; simpl; try done. intros x Hx. simpl in Hx. lia. Qed.

(** Binding a validated program to a consistent executor: on success query and
    states name the program; on error the executor is still consistent. *)
Lemma bindProgram_ok e addr :
  executor_ok e → forallb (λ name, bool_decide (is_Some (Symbol (programs addr) name))) (EvidenceStateNames (programs addr)) = true →
  match bindProgram programs addr e with
  | (Ok _, e') => exQuery e' = Some addr ∧ boundProgram (exStates e') = Some addr ∧
      validBoundPolicy (ApplicabilityIndex (programs addr)) = true ∧ stateReasons (exStates e') = programReasons (programs addr) ∧
      exValueRows e' = exValueRows e ∧ exTruthWords e' = exTruthWords e ∧ exReasonWords e' = exReasonWords e
  | (Err x, e') => e' = e ∧ x = ErrInvalidProgram ∧ validBoundPolicy (ApplicabilityIndex (programs addr)) = false
  | (Panic _, _) => False
  end.
Proof.
  intros He Hnames. unfold bindProgram, ex_bind, get, lift, put.
  destruct (QueryBind_cases (exQuery e) addr (ApplicabilityIndex (programs addr)) (ek_query _ He addr)) as [[-> Hvb]|[-> Hvb]]; [|done].
  destruct (Bind_total (exStates e) addr _ Hnames) as [i HB]. rewrite HB. simpl.
  destruct (Bind_program _ _ _ _ (ek_states _ He addr) HB) as [Hb1 Hb2]. auto 10.
Qed.

(** What preparation establishes for the schedule. *)
Record prepared (addr : Z) (b : Batch) (e : Executor) : Prop := {
  pr_executor : executor_ok e;
  pr_program : exProgram e = Some addr;
  pr_columns : columns_ok (programs addr) b;
  pr_evidence : usesEvidence (programs addr) = true → evidence_ok b (programs addr);
  pr_index : fact_ok (programs addr) b (exFactIndex e);
  pr_truth : zlen (exTruthWords e) = TruthSlotCount (programs addr) * 2 * WordCount (Rows b) ∧ zlen (exTruthWords e) ≤ MaxInt;
  pr_reason : zlen (exReasonWords e) = ReasonSlotCount (programs addr) * 9 * WordCount (Rows b) ∧ zlen (exReasonWords e) ≤ MaxInt;
  pr_sizes : sizes_ok (programs addr) b
}.

(** The checks on program and batch, in order. *)
Definition accepts (p : Program) (b : Batch) : Prop :=
  (zlen (RequestIDs b) =? Rows b) && validExecutionBatchColumns p b = true ∧
  negb (usesEvidence p) || validEvidenceBatch b p = true ∧ (∃ sizes, executionSizes p b = Ok sizes).

Lemma Reset_total rows : is_u32 rows → ∃ dst, Reset rows = Ok dst.
Proof.
  intros Hr. unfold Reset, is_u32, check in *. rewrite u64_small by (unfold is_u64; lia).
  rewrite (proj2 (Z.ltb_ge MaxInt (rows + 1))) by (unfold MaxInt; lia). by eexists.
Qed.

(** Query and evidence states are bound to [addr]; the program pointer may
    still name the previous program. *)
Record bound_to (addr : Z) (e : Executor) : Prop := {
  bd_query : exQuery e = Some addr;
  bd_policy : validBoundPolicy (ApplicabilityIndex (programs addr)) = true;
  bd_states : boundProgram (exStates e) = Some addr;
  bd_reasons : stateReasons (exStates e) = programReasons (programs addr);
  bd_scratch : FactIndex.all_zero (exValueRows e)
}.

Lemma prepareScratch_ok e addr b mode t r :
  let p := programs addr in
  columns_ok p b → facts_typed p b → zlen (SymbolValues b) ≤ MaxInt / 4 → bound_to addr e →
  program_typed p → validExecutionSemantics p = Ok true →
  (usesEvidence p = true → evidence_ok b p) →
  (t = TruthSlotCount p * 2 * WordCount (Rows b) ∧ 0 ≤ t ≤ MaxInt) →
  (r = ReasonSlotCount p * 9 * WordCount (Rows b) ∧ 0 ≤ r ≤ MaxInt) → sizes_ok p b →
  ∃ e', prepareScratch programs addr b mode t r e = (Ok tt, e') ∧ prepared addr b e'.
Proof.
  intros p Hco Hft Hlen [Hq Hvb Hs Hre Hz0] Hpt Hsem Hev Ht Hr Hsz. unfold prepareScratch, ex_bind, get, lift, put.
  destruct (validExecutionSemantics_ok p (pg_sched _ Hpt) (pg_sem _ Hpt) Hsem) as (_ & _ & Hv & _ & _).
  destruct (buildFactIndex_total (exValueRows e) p b mode Hco Hft Hz0 Hlen Hv) as (built & HB & Hz & Hix).
  fold p. rewrite HB. eexists; split; [done|].
  split; simpl; try done.
  - split; simpl; try done; intros a Ha; by simplify_eq.
  - unfold p in *. rewrite length_resize by lia. lia.
  - unfold p in *. rewrite length_resize by lia. lia.
Qed.

Lemma prepareExecution_ok e addr b mode :
  let p := programs addr in
  executor_ok e → program_wf p → input_typed b →
  match prepareExecution programs addr b mode e with
  | (Ok (ue, dst), e') => prepared addr b e' ∧ ue = usesEvidence p ∧ Reset (Rows b) = Ok dst
  | (Err x, e') => executor_ok e' ∧ (x = ErrInvalidProgram ∨ x = ErrBatchTooLarge) ∧
      ¬ (validExecutionSemantics p = Ok true ∧ validBoundPolicy (ApplicabilityIndex p) = true ∧ accepts p b)
  | (Panic _, _) => False
  end.
Proof.
  intros p He Hwf Hin. pose proof (pw_typed _ Hwf) as Hpt. destruct Hin as [Hbt Hsyms Hlen Het].
  unfold prepareExecution. fold p. unfold ex_bind at 1, get. set (rebind := negb (bool_decide (exProgram e = Some addr))).
  assert (∃ ok, (if rebind then validExecutionSemantics p else Ok true) = Ok ok ∧ (ok = true ↔ validExecutionSemantics p = Ok true))
    as (ok & Hok & Hokv).
  { unfold rebind. destruct (bool_decide_reflect (exProgram e = Some addr)) as [Hp|]; simpl.
    - exists true. split; [done|]. split; [|done]. intros _. by destruct (ek_program _ He addr Hp).
    - destruct (validExecutionSemantics_total p (pg_spec _ Hpt) (pw_instructions _ Hwf)) as [ok ->]. exists ok.
      split; [done|]. split; congruence. }
  unfold ex_bind at 1, lift at 1. rewrite Hok. unfold ex_bind at 1, lift at 1, check at 1. destruct ok.
  2: { split; [done|]. split; [by left|]. intros (Hv & _). by apply Hokv in Hv. }
  pose proof (proj1 Hokv eq_refl) as Hsem.
  destruct (validExecutionSemantics_ok p (pg_sched _ Hpt) (pg_sem _ Hpt) Hsem) as (Hsched & _ & Hv & _ & Hnames).
  unfold ex_bind at 1, lift at 1, check at 1. destruct ((zlen (RequestIDs b) =? Rows b) && _) eqn:Hcols.
  2: { split; [done|]. split; [by left|]. intros (_ & _ & Hc & _). congruence. }
  apply andb_true_iff in Hcols as [Hreq Hcols].
  unfold ex_bind at 1, lift at 1, check at 1. destruct (negb (usesEvidence p) || _) eqn:Hevb.
  2: { split; [done|]. split; [by left|]. intros (_ & _ & _ & Hc & _). congruence. }
  assert (usesEvidence p = true → evidence_ok b p) as Hev.
  { intros Hu. rewrite Hu in Hevb. by apply validEvidenceBatch_ok. }
  pose proof (columns_ok_intro p b Hbt (pg_schema _ Hpt) Hcols) as Hco.
  assert (facts_typed p b) as Hft by (split; [apply Hpt|apply Hpt|done]).
  unfold ex_bind at 1, lift at 1. pose proof (executionSizes_ok p b (pg_sched _ Hpt) (bt_rows _ Hbt)) as Hsizes.
  destruct (executionSizes p b) as [[t r]|x|] eqn:HE; [|subst x|done].
  2: { split; [done|]. split; [by right|]. intros (_ & _ & _ & _ & [sizes Hc]). congruence. }
  destruct Hsizes as (Ht & Hr & Hsz). cbn [fst snd].
  assert (match (if rebind then bindProgram programs addr else ex_ret ()) e with
    | (Ok _, e') => bound_to addr e'
    | (Err x, e') => e' = e ∧ x = ErrInvalidProgram ∧ validBoundPolicy (ApplicabilityIndex p) = false
    | (Panic _, _) => False end) as Hbind.
  { unfold rebind. destruct (bool_decide_reflect (exProgram e = Some addr)) as [Hp|]; simpl.
    - destruct (ek_program _ He addr Hp) as (_ & Hq & Hs).
      split; [done|by apply (ek_query _ He)|done|by apply (ek_states _ He)|apply (ek_scratch _ He)].
    - pose proof (bindProgram_ok e addr He Hnames) as Hb. destruct (bindProgram programs addr e) as [[u|x|] e1]; [|exact Hb|done].
      destruct Hb as (Hq & Hs & Hvb & Hre & Hz & _). split; try done. rewrite Hz. apply (ek_scratch _ He). }
  unfold ex_bind at 1. destruct ((if rebind then bindProgram programs addr else ex_ret ()) e) as [[u|x|] e1]; [| |done].
  2: { destruct Hbind as (-> & -> & Hvb). split; [done|]. split; [by left|]. intros (_ & Hc & _). congruence. }
  unfold ex_bind at 1.
  destruct (prepareScratch_ok e1 addr b mode t r Hco Hft Hlen Hbind Hpt Hsem Hev Ht Hr Hsz) as (e2 & -> & Hprep).
  destruct (Reset_total (Rows b) (bt_rows _ Hbt)) as [dst HR]. unfold ex_bind, lift, ex_ret. by rewrite HR.
Qed.

Lemma prepared_exec_ok addr b e : program_wf (programs addr) → input_typed b → prepared addr b e →
  exec_ok (programs addr) b (envOf addr e) ∧ sem_ok (programs addr) ∧ bound_ok (ApplicabilityIndex (programs addr)) ∧
  exQuery e = Some addr ∧ stateReasons (exStates e) = programReasons (programs addr).
Proof.
  intros Hwf Hin [He Hp Hco Hev Hix _ _ _]. pose proof (pw_typed _ Hwf) as Hpt.
  destruct (ek_program _ He addr Hp) as (Hsem & Hq & Hs).
  destruct (validExecutionSemantics_ok _ (pg_sched _ Hpt) (pg_sem _ Hpt) Hsem) as (Hsched & Hso & Hv & Hqs & _).
  pose proof (ek_states _ He addr Hs) as Hr. split; [|split; [done|split; [|done]]].
  - split; try done; [split; [apply Hpt|apply Hpt|apply Hin]| |apply (pw_instructions _ Hwf)].
    simpl. split; [done|]. rewrite Hr. apply programReasons_ok.
  - apply validBoundPolicy_ok; [apply Hpt|]. by apply (ek_query _ He).
Qed.

(** Executing never panics, keeps the executor consistent on every path, and
    when it returns a batch, that batch encodes the reference rows. *)
Lemma executeMode_ok e addr b mode :
  let p := programs addr in
  executor_ok e → program_wf p → input_typed b →
  match executeMode programs addr b mode e with
  | (Ok out, e') => executor_ok e' ∧ exProgram e' = Some addr ∧ sizes_ok p b ∧ columns_ok p b ∧
      (usesEvidence p = true → evidence_ok b p) ∧
      ∃ outs st, length outs = Z.to_nat (Rows b) ∧ encodes (Z.to_nat (Rows b)) outs out ∧
        stateReasons (states (envOf addr e')) = programReasons p ∧
        ∀ r, (r < Z.to_nat (Rows b))%nat → rowSpec p b (envOf addr e') st r (outs !!! r)
  | (Err x, e') => executor_ok e' ∧ (x = ErrInvalidProgram ∨ x = ErrBatchTooLarge) ∧
      ¬ (validExecutionSemantics p = Ok true ∧ validBoundPolicy (ApplicabilityIndex p) = true ∧ accepts p b)
  | (Panic _, _) => False
  end.
Proof.
  intros p He Hwf Hin. unfold executeMode. fold p. unfold ex_bind at 1.
  pose proof (prepareExecution_ok e addr b mode He Hwf Hin) as Hprep. cbv zeta in Hprep. fold p in Hprep.
  destruct (prepareExecution programs addr b mode e) as [[[ue dst]|x|] e1]; [|exact Hprep|done].
  destruct Hprep as (Hpre & -> & Hreset). destruct (prepared_exec_ok addr b e1 Hwf Hin Hpre) as (Hx & Hsem & Hbo & Hq & Hre).
  fold p in Hx, Hsem, Hbo. destruct Hpre as [He1 Hp1 Hco Hev Hix Ht Hr Hsz].
  unfold ex_bind at 1, get. unfold ex_bind at 1, lift at 1.
  destruct (executeSchedule_inv (ops := ops) p b (envOf addr e1) mode Hx
    {| truthWords := exTruthWords e1; reasonWords := exReasonWords e1; compareMask := exCompareMask e1 |}) as (st & -> & Hinv);
    [apply Hwf|done|].
  unfold ex_bind, put, lift. rewrite Hq. fold p. cbn [fst snd].
  destruct (finalizeResults_ok p b (envOf addr e1) st Hx Hinv Hsem (pw_roots _ Hwf) (pg_policy _ (pw_typed _ Hwf)) Hbo dst Hreset)
    as (outs & out & -> & Hl & Henc & Hspec).
  split.
  - destruct He1 as [E1 E2 E3 E4]. rewrite Hq in E1, E2. split; [exact E1|exact E2|exact E3|exact E4].
  - do 4 (split; [done|]). exists outs, st. done.
Qed.
End execute_ok.
