(* ===== verification/ResultRows.v ===== *)
(** * Reading a result batch

    The columns [Execute] returns, read back row by row the way callers do:
    outcome, requirement IDs, driver, reasons, evidence and remediations of
    row [r] through the CSR offsets.  The theorems state what each of them is
    in terms of the reference evaluation, that no uint32 offset wraps, and
    that execution mode, SIMD backend and executor history do not matter. *)

From S2P Require Import Prelude Store Truth Schema Result Program Batch Predicate Simd FactIndex Evidence Executor PolicyIndex Finalize Execute.
Import Reason.

(** ** CSR rows *)

(** [ids[offsets[r]:offsets[r+1]]]. *)
Definition csrRow (offsets ids : list Z) (r : nat) : list Z :=
  csr ids (offsets !!! r) (offsets !!! S r - offsets !!! r).

Lemma zlen_concat_take (parts : list (list Z)) k :
  (k < length parts)%nat → zlen (concat (take (S k) parts)) = zlen (concat (take k parts)) + zlen (parts !!! k).
Proof.
  intros Hk. rewrite (take_S_r parts k (parts !!! k)) by (apply list_lookup_lookup_total_lt; lia).
  rewrite concat_app, length_app. simpl. rewrite app_nil_r. lia.
Qed.

Lemma zlen_concat_mono (parts : list (list Z)) k : zlen (concat (take k parts)) ≤ zlen (concat parts).
Proof.
  assert (concat parts = concat (take k parts) ++ concat (drop k parts)) as -> by (by rewrite <-concat_app, take_drop).
  rewrite length_app. lia.
Qed.

Lemma concat_csr (parts : list (list Z)) k :
  (k < length parts)%nat → csr (concat parts) (zlen (concat (take k parts))) (zlen (parts !!! k)) = parts !!! k.
Proof.
  intros Hk. unfold csr. rewrite !Nat2Z.id.
  assert (concat parts = concat (take k parts) ++ concat (drop k parts)) as -> by (by rewrite <-concat_app, take_drop).
  rewrite drop_app_length.
  rewrite (drop_S parts (parts !!! k)) by (apply list_lookup_lookup_total_lt; lia). simpl. by rewrite take_app_length.
Qed.

(** Row [r] of an unwrapped CSR encoding is part [r]; the offsets grow from zero to the total. *)
Lemma csrOf_row rows offsets ids parts r :
  csrOf rows offsets ids parts → length parts = rows → zlen (concat parts) ≤ MaxUint32 → (r < rows)%nat →
  csrRow offsets ids r = parts !!! r ∧ 0 ≤ offsets !!! r ≤ offsets !!! S r ∧ offsets !!! S r ≤ zlen ids.
Proof.
  intros [Hl -> Ho] Hp Hmax Hr. unfold csrRow.
  pose proof (zlen_concat_mono parts r). pose proof (zlen_concat_mono parts (S r)). pose proof (zlen_concat_take parts r ltac:(lia)) as Ht.
  rewrite !Ho, !u32_small by (unfold is_u32, MaxUint32 in *; lia). split; [|lia].
  replace (zlen (concat (take (S r) parts)) - zlen (concat (take r parts))) with (zlen (parts !!! r)) by lia. by apply concat_csr; lia.
Qed.

(** Columns that share offsets have parts of the same lengths. *)
Lemma csrOf_same rows offsets ids ids' parts parts' :
  csrOf rows offsets ids parts → ids' = concat parts' → map length parts' = map length parts → csrOf rows offsets ids' parts'.
Proof.
  intros [Hl -> Ho] -> Hlens.
  assert (length parts' = length parts) as Hlp by (by rewrite <-(length_map length), Hlens, length_map).
  split; [done|done|]. intros k Hk. rewrite Ho by lia. do 2 f_equal.
  assert (∀ k (a c : list (list Z)), map length a = map length c → length (concat (take k a)) = length (concat (take k c))) as Hgen.
  { induction k0 as [|k0 IH]; intros [|x a] [|y c] E; simpl in *; try done. injection E as E1 E2. rewrite !length_app. by rewrite E1, (IH a c E2). }
  symmetry. by apply Hgen.
Qed.

Lemma concat_bound (parts : list (list Z)) m : 0 ≤ m → Forall (λ l, zlen l ≤ m) parts → zlen (concat parts) ≤ zlen parts * m.
Proof.
  intros Hm. induction parts as [|l parts IH]; intros Hall; simpl; [lia|].
  apply Forall_cons in Hall as [Hl Hall]. rewrite length_app. specialize (IH Hall). lia.
Qed.

(** ** The reference row *)

Section reference_row.
Context (p : Program) (b : Batch) (reasons : list Z).

(** The first verdict that attains the row's outcome. *)
Definition rowDriver (r : nat) : option verdict :=
  List.find (λ v, vOutcome v =? rowOutcome p b reasons r) (rowVerdicts p b reasons r).

Definition driverReasons (r : nat) : list Z :=
  match rowDriver r with Some v => List.filter (Has (vReasons v)) allReasons | None => [] end.
End reference_row.

Lemma find_first {A} (f : A → bool) l k x :
  l !! k = Some x → f x = true → (∀ j y, (j < k)%nat → l !! j = Some y → f y = false) → List.find f l = Some x.
Proof.
  revert k. induction l as [|a l IH]; intros [|k] Hk Hf Hfirst; simplify_eq/=; [by rewrite Hf|].
  rewrite (Hfirst 0%nat a) by (done || lia). apply (IH k); [done|done|]. intros j y Hj Hy. apply (Hfirst (S j) y); [lia|done].
Qed.

Section rows.
Context (p : Program) (b : Batch) (reasons : list Z) (r : nat).

(** What a row's contribution to the result columns is, by the reference evaluation. *)
Record rowRef (o : rowOut) : Prop := {
  rr_outcome : ocOutcome (roBest o) = rowOutcome p b reasons r;
  rr_ids : roIDs o = rowRequirements p b reasons r;
  rr_driver : match rowDriver p b reasons r with
              | Some v => verdictOf (roBest o) = v ∧ ocOutcome (roBest o) ≠ 0
              | None => roBest o = noCandidate ∧ rowVerdicts p b reasons r = []
              end;
  rr_reasons : map (λ t, t.1.1.1) (roReasons o) = driverReasons p b reasons r;
  rr_evidence : roEvidence o = evidenceOf p b r;
  rr_remediations : zlen (remediationPart o) ≤ maxExecutionRemediations p;
  rr_terminal outcome : Outcomes.Lookup (Outcomes_ p) (ocOutcome (roBest o)) = Some outcome → oTerminal outcome = true →
    remediationPart o = []
}.

Lemma row_driver_part o f (g : verdict → Z) : rowRef o → (∀ c, f c = g (verdictOf c)) →
  driverPart f o = match rowDriver p b reasons r with Some v => [g v] | None => [] end.
Proof.
  intros Ho Hfg. unfold driverPart. pose proof (rr_driver o Ho) as Hd. destruct (rowDriver p b reasons r) as [v|].
  - destruct Hd as (<- & Hne). rewrite (proj2 (Z.eqb_neq _ _)) by done. by rewrite Hfg.
  - by destruct Hd as [-> _].
Qed.
End rows.

Section spec_ref.
Context (p : Program) (b : Batch) (env : ExecEnv) (st : ExecState) (r : nat) (o : rowOut).
Context (Ho : rowSpec p b env st r o).
Local Abbreviation reasons := (stateReasons (states env)).

(** The stored candidate is absent exactly when no requirement applies. *)
Lemma row_candidate :
  match rowDriver p b reasons r with
  | Some v => verdictOf (roBest o) = v ∧ ocOutcome (roBest o) ≠ 0 ∧ candidateOk p b env st (roBest o) v r
  | None => roBest o = noCandidate ∧ rowVerdicts p b reasons r = []
  end.
Proof.
  destruct (rs_best _ _ _ _ _ _ Ho) as [[Hv ->]|(k & v & Hk & Hc & Hj & Hfirst)].
  - unfold rowDriver. by rewrite Hv.
  - unfold rowDriver. rewrite (find_first _ _ k v Hk).
    + pose proof (ck_known _ _ _ _ _ _ _ Hc) as Hkn. split; [apply (ck_verdict _ _ _ _ _ _ _ Hc)|]. split; [|done].
      unfold Outcomes.known in Hkn. lia.
    + apply Z.eqb_eq. done.
    + intros j w Hlt Hw. apply Z.eqb_neq. unfold rowOutcome. rewrite <-Hj. by eapply Hfirst.
Qed.

Lemma rowSpec_ref : rowRef p b reasons r o.
Proof.
  pose proof row_candidate as Hd. pose proof (maxExecutionRemediations_nonneg p) as Hm. split.
  - destruct Ho as [_ Hb _ _]. by destruct (bestOf_outcome _ _ _ _ _ _ _ Hb) as [? _].
  - apply Ho.
  - destruct (rowDriver p b reasons r); [|done]. by destruct Hd as (? & ? & _).
  - rewrite (rs_reasons _ _ _ _ _ _ Ho). unfold driverReasons.
    destruct (rowDriver p b reasons r) as [v|]; [|by destruct Hd as [-> _]]. by destruct Hd as (<- & _).
  - apply Ho.
  - unfold remediationPart. destruct (_ =? 0) eqn:E; [simpl; lia|]. destruct (rowDriver p b reasons r) as [v|].
    + destruct Hd as (_ & _ & Hc). apply (ck_remediations _ _ _ _ _ _ _ Hc).
    + destruct Hd as [Hb _]. by rewrite Hb in E.
  - intros outcome Hlk Ht. unfold remediationPart. destruct (_ =? 0) eqn:E; [done|]. destruct (rowDriver p b reasons r) as [v|].
    + destruct Hd as (_ & _ & Hc). by apply (ck_terminal _ _ _ _ _ _ _ Hc outcome).
    + destruct Hd as [Hb _]. by rewrite Hb in E.
Qed.
End spec_ref.

(** ** No offset wraps *)

Section totals.
Context (p : Program) (b : Batch) (reasons : list Z) (outs : list rowOut).
Local Abbreviation n := (Z.to_nat (Rows b)).
Context (Hrows : is_u32 (Rows b)) (Hsz : sizes_ok p b) (Hl : length outs = n).
Context (Hspec : ∀ r, (r < n)%nat → rowRef p b reasons r (outs !!! r)).
Context (Hev : usesEvidence p = true → evidence_ok b p).

(** A bound per row bounds the column. *)
Lemma total_bound (f : rowOut → list Z) m :
  0 ≤ m → Rows b * m ≤ MaxUint32 → (∀ r o, rowRef p b reasons r o → zlen (f o) ≤ m) → zlen (concat (map f outs)) ≤ MaxUint32.
Proof.
  intros Hm Hmax Hf. transitivity (zlen (map f outs) * m).
  - apply concat_bound; [done|]. apply Forall_map, Forall_forall. intros o (r & Ho)%list_elem_of_lookup.
    pose proof (lookup_lt_Some _ _ _ Ho) as Hr. apply list_lookup_total_correct in Ho. subst o. apply (Hf r), Hspec. lia.
  - rewrite length_map, Hl. unfold is_u32 in Hrows. rewrite Z2Nat.id by lia. done.
Qed.

Lemma total_requirements : zlen (concat (map roIDs outs)) ≤ MaxUint32.
Proof.
  apply (total_bound _ (zlen (RequirementIDs p))); [lia|apply Hsz|]. intros r o Ho. rewrite (rr_ids _ _ _ _ _ Ho).
  unfold rowRequirements, countedTo. rewrite length_map. pose proof (filter_length_le (λ q, counts p b reasons q r) (seq 0 (length (RequirementIDs p)))) as Hf.
  rewrite length_seq in Hf. lia.
Qed.

Lemma rows_bound : Rows b * 1 ≤ MaxUint32.
Proof. pose proof (sz_reasons _ _ Hsz). unfold ReasonCount, is_u32 in *. lia. Qed.

Lemma total_drivers f : zlen (concat (map (driverPart f) outs)) ≤ MaxUint32.
Proof.
  apply (total_bound _ 1); [lia|apply rows_bound|]. intros r o _. unfold driverPart. by destruct (_ =? 0).
Qed.

Lemma driverReasons_length r : zlen (driverReasons p b reasons r) ≤ ReasonCount.
Proof.
  unfold driverReasons. destruct (rowDriver p b reasons r) as [v|]; [|done].
  pose proof (filter_length_le (Has (vReasons v)) allReasons) as Hf. unfold ReasonCount. change (length allReasons) with 9%nat in Hf. lia.
Qed.

Lemma total_reasons f : zlen (concat (map (reasonPart f) outs)) ≤ MaxUint32.
Proof.
  apply (total_bound _ ReasonCount); [done|apply Hsz|]. intros r o Ho. unfold reasonPart. rewrite length_map.
  rewrite <-(length_map (λ t, t.1.1.1)), (rr_reasons _ _ _ _ _ Ho). apply driverReasons_length.
Qed.

Lemma total_remediations : zlen (concat (map remediationPart outs)) ≤ MaxUint32.
Proof.
  apply (total_bound _ (maxExecutionRemediations p)); [apply maxExecutionRemediations_nonneg|apply Hsz|]. intros r o Ho. apply Ho.
Qed.

Lemma total_evidence : zlen (concat (map roEvidence outs)) ≤ MaxUint32.
Proof.
  destruct (usesEvidence p) eqn:Hu.
  2: { apply (total_bound _ 0); [lia|unfold MaxUint32; lia|]. intros r o Ho. rewrite (rr_evidence _ _ _ _ _ Ho). unfold evidenceOf. by rewrite Hu. }
  pose proof (Hev eq_refl) as He. pose proof (sz_evidence _ _ Hsz Hu).
  assert (∀ k, (k ≤ n)%nat → zlen (concat (take k (map roEvidence outs))) ≤ EvidenceOffsets b !!! k - EvidenceOffsets b !!! 0%nat) as Hk.
  { induction k as [|k IH]; intros Hkn; [simpl; lia|]. rewrite zlen_concat_take by (rewrite length_map; lia).
    specialize (IH ltac:(lia)). rewrite (list_lookup_total_fmap roEvidence outs) by lia.
    rewrite (rr_evidence _ _ _ _ _ (Hspec k ltac:(lia))). unfold evidenceOf. rewrite Hu, length_map.
    destruct (eo_range _ _ He k ltac:(lia)) as [? ?]. rewrite length_csr by lia. lia. }
  specialize (Hk n ltac:(lia)). rewrite take_ge in Hk by (rewrite length_map; lia).
  destruct (decide (n = 0%nat)) as [E|E].
  { destruct outs; [simpl; unfold MaxUint32; lia|simpl in Hl; lia]. }
  destruct (eo_range _ _ He 0%nat ltac:(lia)) as [? ?]. destruct (eo_range _ _ He (n - 1)%nat ltac:(lia)) as [? Hlast].
  replace (S (n - 1)) with n in Hlast by lia. lia.
Qed.
End totals.

(** ** What callers read *)

(** A CSR column that starts at zero, never decreases and ends at its edge count. *)
Record offsetsOk (rows : nat) (offsets ids : list Z) : Prop := {
  of_length : length offsets = S rows;
  of_first : offsets !!! 0%nat = 0;
  of_mono r : (r < rows)%nat → offsets !!! r ≤ offsets !!! S r;
  of_last : offsets !!! rows = zlen ids
}.

Lemma csrOf_offsets rows offsets ids parts :
  csrOf rows offsets ids parts → length parts = rows → zlen (concat parts) ≤ MaxUint32 → offsetsOk rows offsets ids.
Proof.
  intros Hc Hl Hmax. split; [apply Hc|by rewrite (cs_offsets _ _ _ _ Hc) by lia| |].
  - intros r Hr. by apply (csrOf_row rows offsets ids parts r Hc Hl Hmax Hr).
  - rewrite (cs_offsets _ _ _ _ Hc) by lia. rewrite take_ge, u32_small by (unfold is_u32, MaxUint32 in *; lia). by rewrite (cs_ids _ _ _ _ Hc).
Qed.

(** The driver columns share their offsets. *)
Lemma encodes_drivers n outs out f ids : encodes n outs out → ids = concat (map (driverPart f) outs) →
  csrOf n (rbDriverOffsets out) ids (map (driverPart f) outs).
Proof.
  intros Henc Hids. apply (csrOf_same _ _ _ _ _ _ (en_drivers _ _ _ Henc) Hids). rewrite !map_map. apply map_ext.
  intros o. unfold driverPart. by destruct (_ =? 0).
Qed.

(** A result batch that holds the reference rows of [b]. *)
Record referenceResult (p : Program) (b : Batch) (outs : list rowOut) (out : ResultBatch) : Prop := {
  rf_length : length outs = Z.to_nat (Rows b);
  rf_encodes : encodes (Z.to_nat (Rows b)) outs out;
  rf_sizes : sizes_ok p b;
  rf_evidence : usesEvidence p = true → evidence_ok b p;
  rf_rows r : (r < Z.to_nat (Rows b))%nat → rowRef p b (programReasons p) r (outs !!! r)
}.

Section reference.
Context (p : Program) (b : Batch) (outs : list rowOut) (out : ResultBatch).
Context (Hu : is_u32 (Rows b)) (Href : referenceResult p b outs out).
Local Abbreviation n := (Z.to_nat (Rows b)).
Local Abbreviation reasons := (programReasons p).

(** A column whose parts are a function of the row. *)
Lemma column_row offsets ids (f : rowOut → list Z) (g : nat → list Z) r :
  csrOf n offsets ids (map f outs) → zlen (concat (map f outs)) ≤ MaxUint32 →
  (∀ k, (k < n)%nat → f (outs !!! k) = g k) → (r < n)%nat → csrRow offsets ids r = g r.
Proof.
  intros Hc Hmax Hfg Hr. pose proof (rf_length _ _ _ _ Href) as Hl.
  destruct (csrOf_row n offsets ids (map f outs) r Hc) as [-> _]; [by rewrite length_map|done|done|].
  rewrite (list_lookup_total_fmap f outs) by lia. by apply Hfg.
Qed.

Lemma reference_row r : (r < n)%nat →
  rbOutcomeIDs out !!! r = rowOutcome p b reasons r ∧
  csrRow (rbRequirementOffsets out) (rbRequirementIDs out) r = rowRequirements p b reasons r ∧
  csrRow (rbDriverOffsets out) (rbDriverRequirements out) r = match rowDriver p b reasons r with Some v => [vRequirement v] | None => [] end ∧
  csrRow (rbDriverOffsets out) (rbDriverClauses out) r = match rowDriver p b reasons r with Some v => [vClause v] | None => [] end ∧
  csrRow (rbReasonOffsets out) (rbReasonIDs out) r = driverReasons p b reasons r ∧
  csrRow (rbEvidenceOffsets out) (rbEvidenceIDs out) r = evidenceOf p b r.
Proof.
  destruct Href as [Hl Henc Hsz Hev Hspec]. intros Hr.
  assert (∀ f g, (∀ c, f c = g (verdictOf c)) → ∀ ids, ids = concat (map (driverPart f) outs) →
    csrRow (rbDriverOffsets out) ids r = match rowDriver p b reasons r with Some v => [g v] | None => [] end) as Hdrv.
  { intros f g Hfg ids Hids. apply (column_row _ _ (driverPart f) (λ r, match rowDriver p b reasons r with Some v => [g v] | None => [] end));
      [by apply encodes_drivers|by apply (total_drivers p b reasons)| |done].
    intros k Hk. by apply row_driver_part, Hfg; apply Hspec. }
  split_and!.
  - destruct (en_outcomes _ _ _ Henc) as [_ ->]; [|done]. rewrite decide_True by lia. apply (Hspec r Hr).
  - apply (column_row _ _ roIDs _); [apply Henc|by apply (total_requirements p b reasons)| |done].
    intros k Hk. apply (Hspec k Hk).
  - apply (Hdrv ocRequirement vRequirement); [done|apply Henc].
  - apply (Hdrv ocClause vClause); [done|apply Henc].
  - apply (column_row _ _ (reasonPart (λ t, t.1.1.1)) _); [apply Henc|by apply (total_reasons p b reasons)| |done].
    intros k Hk. apply (Hspec k Hk).
  - apply (column_row _ _ roEvidence _); [apply Henc|by apply (total_evidence p b reasons)| |done].
    intros k Hk. apply (Hspec k Hk).
Qed.

(** The first and last offsets, the order and the lengths of every column. *)
Lemma reference_offsets :
  length (rbOutcomeIDs out) = n ∧ rbRows out = Rows b ∧
  offsetsOk n (rbRequirementOffsets out) (rbRequirementIDs out) ∧ offsetsOk n (rbDriverOffsets out) (rbDriverNodes out) ∧
  offsetsOk n (rbReasonOffsets out) (rbReasonIDs out) ∧ offsetsOk n (rbEvidenceOffsets out) (rbEvidenceIDs out) ∧
  offsetsOk n (rbRemediationOffsets out) (rbRemediationIDs out).
Proof.
  destruct Href as [Hl Henc Hsz Hev Hspec].
  split; [apply Henc|]. split; [rewrite (en_rows _ _ _ Henc); unfold is_u32 in Hu; lia|].
  split_and!; eapply csrOf_offsets; try apply Henc; rewrite ?length_map; try done.
  - by apply (total_requirements p b reasons).
  - by apply (total_drivers p b reasons).
  - by apply (total_reasons p b reasons).
  - by apply (total_evidence p b reasons).
  - by apply (total_remediations p b reasons).
Qed.

Lemma reference_remediations r outcome : (r < n)%nat →
  Outcomes.Lookup (Outcomes_ p) (rbOutcomeIDs out !!! r) = Some outcome → oTerminal outcome = true →
  csrRow (rbRemediationOffsets out) (rbRemediationIDs out) r = [].
Proof.
  destruct Href as [Hl Henc Hsz Hev Hspec]. intros Hr Hlk Ht.
  destruct (csrOf_row n _ _ _ r (en_remediations _ _ _ Henc)) as [-> _]; [by rewrite length_map|by apply (total_remediations p b reasons)|done|].
  rewrite (list_lookup_total_fmap remediationPart outs) by lia.
  destruct (en_outcomes _ _ _ Henc) as [_ Ho]. rewrite Ho, decide_True in Hlk by lia. by apply (rr_terminal _ _ _ _ _ (Hspec r Hr) outcome).
Qed.
End reference.

(** ** Two results with the same rows *)

(** Identical outcome, requirement, driver, reason and evidence columns. *)
Record sameDecisions (out1 out2 : ResultBatch) : Prop := {
  sd_outcomes : rbOutcomeIDs out1 = rbOutcomeIDs out2;
  sd_requirements : rbRequirementOffsets out1 = rbRequirementOffsets out2 ∧ rbRequirementIDs out1 = rbRequirementIDs out2;
  sd_drivers : rbDriverOffsets out1 = rbDriverOffsets out2 ∧ rbDriverRequirements out1 = rbDriverRequirements out2 ∧
    rbDriverClauses out1 = rbDriverClauses out2;
  sd_reasons : rbReasonOffsets out1 = rbReasonOffsets out2 ∧ rbReasonIDs out1 = rbReasonIDs out2;
  sd_evidence : rbEvidenceOffsets out1 = rbEvidenceOffsets out2 ∧ rbEvidenceIDs out1 = rbEvidenceIDs out2;
  sd_rows : rbRows out1 = rbRows out2
}.

#[global] Instance sameDecisions_equiv : Equivalence sameDecisions.
Proof.
  split.
  - intros out. by split.
  - intros o1 o2 []. destruct_and?. split; split_and?; by symmetry.
  - intros o1 o2 o3 [] []. destruct_and?. split; split_and?; by etrans.
Qed.

Lemma csrOf_unique rows o1 o2 i1 i2 parts : csrOf rows o1 i1 parts → csrOf rows o2 i2 parts → length parts = rows → o1 = o2 ∧ i1 = i2.
Proof.
  intros [L1 -> O1] [L2 -> O2] Hl. split; [|done]. apply list_eq_same_length with (S rows); [done|done|].
  intros i x y Hi Hx%list_lookup_total_correct Hy%list_lookup_total_correct. rewrite <-Hx, <-Hy, O1, O2 by lia. done.
Qed.

Lemma map_ext_total {A} `{Inhabited A} {B} (f : A → B) (l k : list A) (g : nat → B) n :
  length l = n → length k = n → (∀ i, (i < n)%nat → f (l !!! i) = g i) → (∀ i, (i < n)%nat → f (k !!! i) = g i) → map f l = map f k.
Proof.
  intros Hl Hk H1 H2. apply list_eq_same_length with n; [by rewrite length_map|by rewrite length_map|].
  intros i x y Hi Hx Hy. rewrite list_lookup_fmap, list_lookup_lookup_total_lt in Hx by lia.
  rewrite list_lookup_fmap, list_lookup_lookup_total_lt in Hy by lia. simpl in *. simplify_eq. by rewrite H1, H2.
Qed.

Lemma reference_unique p b outs1 outs2 out1 out2 :
  referenceResult p b outs1 out1 → referenceResult p b outs2 out2 → sameDecisions out1 out2.
Proof.
  intros [L1 N1 _ _ S1] [L2 N2 _ _ S2]. set (n := Z.to_nat (Rows b)) in *. set (reasons := programReasons p) in *.
  assert (∀ (f : rowOut → list Z) g, (∀ r o, rowRef p b reasons r o → f o = g r) → map f outs1 = map f outs2) as Hcols.
  { intros f g Hfg. apply (map_ext_total f outs1 outs2 g n); [done|done|intros i Hi; by apply Hfg, S1|intros i Hi; by apply Hfg, S2]. }
  assert (∀ f g i1 i2, (∀ c, f c = g (verdictOf c)) → i1 = concat (map (driverPart f) outs1) → i2 = concat (map (driverPart f) outs2) →
    rbDriverOffsets out1 = rbDriverOffsets out2 ∧ i1 = i2) as Hdrv.
  { intros f g i1 i2 Hfg E1 E2. assert (map (driverPart f) outs1 = map (driverPart f) outs2) as E.
    { apply (Hcols _ (λ r, match rowDriver p b reasons r with Some v => [g v] | None => [] end)). intros r o Ho. by apply row_driver_part. }
    pose proof (encodes_drivers n outs1 out1 f i1 N1 E1) as D1. rewrite E in D1.
    eapply csrOf_unique; [exact D1|by apply (encodes_drivers n outs2 out2 f i2)|by rewrite length_map]. }
  assert (∀ f g o1 o2 i1 i2, csrOf n o1 i1 (map f outs1) → csrOf n o2 i2 (map f outs2) → (∀ r o, rowRef p b reasons r o → f o = g r) →
    o1 = o2 ∧ i1 = i2) as Hcol.
  { intros f g o1 o2 i1 i2 C1 C2 Hfg. rewrite (Hcols f g Hfg) in C1. eapply csrOf_unique; [exact C1|exact C2|by rewrite length_map]. }
  destruct (Hdrv ocRequirement vRequirement _ _ (λ c, eq_refl) (en_driver_requirements _ _ _ N1) (en_driver_requirements _ _ _ N2)) as [? ?].
  destruct (Hdrv ocClause vClause _ _ (λ c, eq_refl) (en_driver_clauses _ _ _ N1) (en_driver_clauses _ _ _ N2)) as [_ ?].
  split.
  - destruct (en_outcomes _ _ _ N1) as [LO1 O1]. destruct (en_outcomes _ _ _ N2) as [LO2 O2].
    apply list_eq_same_length with n; [done|done|]. intros i x y Hi Hx%list_lookup_total_correct Hy%list_lookup_total_correct.
    rewrite <-Hx, <-Hy, O1, O2, !decide_True by lia. by rewrite (rr_outcome _ _ _ _ _ (S1 i Hi)), (rr_outcome _ _ _ _ _ (S2 i Hi)).
  - apply (Hcol roIDs (rowRequirements p b reasons)); [apply N1|apply N2|]. intros r o Ho. apply Ho.
  - done.
  - apply (Hcol (reasonPart (λ t, t.1.1.1)) (driverReasons p b reasons)); [apply N1|apply N2|]. intros r o Ho. apply Ho.
  - apply (Hcol roEvidence (evidenceOf p b)); [apply N1|apply N2|]. intros r o Ho. apply Ho.
  - by rewrite (en_rows _ _ _ N1), (en_rows _ _ _ N2).
Qed.

(** ** Executions *)

(** Every successful execution returns the reference rows. *)
Lemma executed {ops : SimdOps} {laws : SimdLaws ops} (programs : Z → Program) e e' addr b mode out :
  executor_ok programs e → program_wf (programs addr) → input_typed b →
  executeMode programs addr b mode e = (Ok out, e') → ∃ outs, referenceResult (programs addr) b outs out.
Proof.
  intros He Hwf Hin Hrun. pose proof (executeMode_ok programs e addr b mode He Hwf Hin) as Hok. cbv zeta in Hok. rewrite Hrun in Hok.
  destruct Hok as (_ & _ & Hsz & _ & Hev & outs & st & Hl & Henc & Hre & Hspec). exists outs. split; [done|done|done|done|].
  intros r Hr. rewrite <-Hre. by apply rowSpec_ref with st, Hspec.
Qed.

(** On an accepted batch execution succeeds. *)
Lemma executes {ops : SimdOps} {laws : SimdLaws ops} (programs : Z → Program) e addr b mode :
  let p := programs addr in
  executor_ok programs e → program_wf p → input_typed b → validExecutionSemantics p = Ok true →
  validBoundPolicy (ApplicabilityIndex p) = true → accepts p b →
  ∃ out e' outs, executeMode programs addr b mode e = (Ok out, e') ∧ executor_ok programs e' ∧ referenceResult p b outs out.
Proof.
  intros p He Hwf Hin Hv Hvb Hacc. pose proof (executeMode_ok programs e addr b mode He Hwf Hin) as Hok. cbv zeta in Hok. fold p in Hok.
  destruct (executeMode programs addr b mode e) as [[out|x|s] e'] eqn:Hrun; [|by destruct Hok as (_ & _ & Hn); destruct Hn|done].
  destruct (executed programs e e' addr b mode out He Hwf Hin Hrun) as [outs Href]. exists out, e', outs. split; [done|]. split; [apply Hok|done].
Qed.

(** ** Sessions: one executor, many calls *)

(** A caller's sequence of executions on one executor. *)
Record call := { clProgram : Z; clBatch : Batch; clMode : executionMode }.

Section session.
Context {ops : SimdOps} (programs : Z → Program).

Fixpoint session (calls : list call) (e : Executor) : list (go ResultBatch) * Executor :=
  match calls with
  | [] => ([], e)
  | c :: calls =>
    let '(result, e) := executeMode programs (clProgram c) (clBatch c) (clMode c) e in
    let '(results, e) := session calls e in
    (result :: results, e)
  end.

(** The program and batch pass every check of [Execute]. *)
Definition accepted_call (c : call) : Prop :=
  let p := programs (clProgram c) in
  validExecutionSemantics p = Ok true ∧ validBoundPolicy (ApplicabilityIndex p) = true ∧ accepts p (clBatch c).

(** What one call may return, whatever ran before it. *)
Definition call_result (c : call) (result : go ResultBatch) : Prop :=
  let p := programs (clProgram c) in
  match result with
  | Ok out => ∀ r, (r < Z.to_nat (Rows (clBatch c)))%nat →
      rbOutcomeIDs out !!! r = rowOutcome p (clBatch c) (programReasons p) r
  | Err x => (x = ErrInvalidProgram ∨ x = ErrBatchTooLarge) ∧ ¬ accepted_call c
  | Panic _ => False
  end.
End session.

Lemma session_ok {ops : SimdOps} {laws : SimdLaws ops} (programs : Z → Program) calls e :
  executor_ok programs e →
  Forall (λ c, program_wf (programs (clProgram c)) ∧ input_typed (clBatch c)) calls →
  Forall2 (call_result programs) calls (session programs calls e).1 ∧ executor_ok programs (session programs calls e).2.
Proof.
  revert e. induction calls as [|c calls IH]; intros e He Hall; [done|].
  apply Forall_cons in Hall as [[Hwf Hin] Hall]. simpl.
  pose proof (executeMode_ok programs e (clProgram c) (clBatch c) (clMode c) He Hwf Hin) as Hok. cbv zeta in Hok.
  destruct (executeMode programs (clProgram c) (clBatch c) (clMode c) e) as [result e1] eqn:Hrun.
  assert (executor_ok programs e1) as He1 by (by destruct result; destruct_and?).
  destruct (IH e1 He1 Hall) as [IH1 IH2]. destruct (session programs calls e1) as [results e2]. simpl in *. split; [|done].
  constructor; [|done]. unfold call_result. destruct result as [out|x|s]; [|by destruct Hok as (_ & ? & ?)|done].
  destruct (executed programs e e1 (clProgram c) (clBatch c) (clMode c) out He Hwf Hin Hrun) as [outs Href].
  intros r Hr. by apply (reference_row _ _ outs out (bt_rows _ (it_batch _ Hin)) Href r Hr).
Qed.

(** ** Properties *)

(** C2: a successful [Execute] stores for every request row the join, by outcome
    precedence, of the outcomes of all clauses of all counting requirements, and
    lists exactly those requirements in requirement order. *)
Theorem execute_outcomes {ops : SimdOps} {laws : SimdLaws ops} (programs : Z → Program) (e e' : Executor) (addr : Z) (b : Batch)
    (mode : executionMode) (out : ResultBatch) (r : nat) :
  executor_ok programs e → program_wf (programs addr) → input_typed b →
  executeMode programs addr b mode e = (Ok out, e') → (r < Z.to_nat (Rows b))%nat →
  let p := programs addr in
  rbOutcomeIDs out !!! r = rowOutcome p b (programReasons p) r ∧
  csrRow (rbRequirementOffsets out) (rbRequirementIDs out) r = rowRequirements p b (programReasons p) r.
Proof.
  intros He Hwf Hin Hrun Hr p. destruct (executed programs e e' addr b mode out He Hwf Hin Hrun) as [outs Href].
  by destruct (reference_row _ _ outs out (bt_rows _ (it_batch _ Hin)) Href r Hr) as (? & ? & _).
Qed.

(** C27: the driver reported for a row is the first clause, in requirement and clause
    order, whose outcome attains the row's outcome; the reasons reported are that
    clause's reasons in ascending order; a row without applicable requirement has
    no driver, no reason and outcome zero; the evidence IDs are the row's own. *)
Theorem execute_drivers {ops : SimdOps} {laws : SimdLaws ops} (programs : Z → Program) (e e' : Executor) (addr : Z) (b : Batch)
    (mode : executionMode) (out : ResultBatch) (r : nat) :
  executor_ok programs e → program_wf (programs addr) → input_typed b →
  executeMode programs addr b mode e = (Ok out, e') → (r < Z.to_nat (Rows b))%nat →
  let p := programs addr in
  csrRow (rbEvidenceOffsets out) (rbEvidenceIDs out) r = evidenceOf p b r ∧
  match List.find (λ v, vOutcome v =? rowOutcome p b (programReasons p) r) (rowVerdicts p b (programReasons p) r) with
  | Some v => csrRow (rbDriverOffsets out) (rbDriverRequirements out) r = [vRequirement v] ∧
      csrRow (rbDriverOffsets out) (rbDriverClauses out) r = [vClause v] ∧
      csrRow (rbReasonOffsets out) (rbReasonIDs out) r = List.filter (Has (vReasons v)) allReasons
  | None => rbOutcomeIDs out !!! r = 0 ∧ csrRow (rbDriverOffsets out) (rbDriverRequirements out) r = [] ∧
      csrRow (rbReasonOffsets out) (rbReasonIDs out) r = []
  end.
Proof.
  intros He Hwf Hin Hrun Hr p. destruct (executed programs e e' addr b mode out He Hwf Hin Hrun) as [outs Href].
  destruct (reference_row _ _ outs out (bt_rows _ (it_batch _ Hin)) Href r Hr) as (Ho & _ & H1 & H2 & H3 & H4).
  pose proof (rr_driver _ _ _ _ _ (rf_rows _ _ _ _ Href r Hr)) as Hd. fold p in Ho, H1, H2, H3, H4, Hd.
  split; [done|]. unfold driverReasons in H3. fold (rowDriver p b (programReasons p) r).
  destruct (rowDriver p b (programReasons p) r) as [v|]; [done|]. destruct Hd as [_ Hv]. split; [|done].
  rewrite Ho. unfold rowOutcome. by rewrite Hv.
Qed.

(** C33: every CSR offset column of a successful result has one entry per row plus
    one, starts at zero, never decreases and ends at the number of its edges: the
    32-bit offsets never wrap, because the sizes checked before execution bound them. *)
Theorem execute_offsets {ops : SimdOps} {laws : SimdLaws ops} (programs : Z → Program) (e e' : Executor) (addr : Z) (b : Batch)
    (mode : executionMode) (out : ResultBatch) :
  executor_ok programs e → program_wf (programs addr) → input_typed b → executeMode programs addr b mode e = (Ok out, e') →
  let n := Z.to_nat (Rows b) in
  length (rbOutcomeIDs out) = n ∧ rbRows out = Rows b ∧
  offsetsOk n (rbRequirementOffsets out) (rbRequirementIDs out) ∧ offsetsOk n (rbDriverOffsets out) (rbDriverNodes out) ∧
  offsetsOk n (rbReasonOffsets out) (rbReasonIDs out) ∧ offsetsOk n (rbEvidenceOffsets out) (rbEvidenceIDs out) ∧
  offsetsOk n (rbRemediationOffsets out) (rbRemediationIDs out).
Proof.
  intros He Hwf Hin Hrun n. destruct (executed programs e e' addr b mode out He Hwf Hin Hrun) as [outs Href].
  apply (reference_offsets _ _ outs out (bt_rows _ (it_batch _ Hin)) Href).
Qed.

(** A row whose outcome is terminal reports no remediation. *)
Theorem terminal_outcomes_have_no_remediation {ops : SimdOps} {laws : SimdLaws ops} (programs : Z → Program) (e e' : Executor)
    (addr : Z) (b : Batch) (mode : executionMode) (out : ResultBatch) (r : nat) (outcome : Outcome) :
  executor_ok programs e → program_wf (programs addr) → input_typed b → executeMode programs addr b mode e = (Ok out, e') →
  (r < Z.to_nat (Rows b))%nat → Outcomes.Lookup (Outcomes_ (programs addr)) (rbOutcomeIDs out !!! r) = Some outcome →
  oTerminal outcome = true → csrRow (rbRemediationOffsets out) (rbRemediationIDs out) r = [].
Proof.
  intros He Hwf Hin Hrun Hr Hlk Ht. destruct (executed programs e e' addr b mode out He Hwf Hin Hrun) as [outs Href].
  by apply (reference_remediations _ _ outs out (bt_rows _ (it_batch _ Hin)) Href r outcome).
Qed.

(** C3: one executor survives any sequence of calls with any mixture of programs,
    batches and modes, failed calls included: no call panics, each accepted call
    returns the reference outcomes whatever ran before it, each refused call
    returns one of the two documented errors, and the executor's bindings stay
    consistent. *)
Theorem executor_sessions {ops : SimdOps} {laws : SimdLaws ops} (programs : Z → Program) (calls : list call) :
  Forall (λ c, program_wf (programs (clProgram c)) ∧ input_typed (clBatch c)) calls →
  Forall2 (call_result programs) calls (session programs calls zeroExecutor).1 ∧
  executor_ok programs (session programs calls zeroExecutor).2.
Proof. intros Hall. by apply session_ok; [apply zeroExecutor_ok|]. Qed.

(** C26: two executions of the same program and batch, on any two consistent
    executors, in any two modes and with any two lawful SIMD backends, return
    identical outcome, requirement, driver, reason and evidence columns. *)
Theorem execution_modes_agree {ops1 ops2 : SimdOps} {laws1 : SimdLaws ops1} {laws2 : SimdLaws ops2} (programs : Z → Program)
    (e1 e2 e1' e2' : Executor) (addr : Z) (b : Batch) (mode1 mode2 : executionMode) (out1 out2 : ResultBatch) :
  executor_ok programs e1 → executor_ok programs e2 → program_wf (programs addr) → input_typed b →
  executeMode (ops := ops1) programs addr b mode1 e1 = (Ok out1, e1') → executeMode (ops := ops2) programs addr b mode2 e2 = (Ok out2, e2') →
  sameDecisions out1 out2.
Proof.
  intros He1 He2 Hwf Hin R1 R2. destruct (executed programs e1 e1' addr b mode1 out1 He1 Hwf Hin R1) as [outs1 H1].
  destruct (executed programs e2 e2' addr b mode2 out2 He2 Hwf Hin R2) as [outs2 H2]. by eapply reference_unique.
Qed.
