(* ===== verification/Range.v ===== *)
(** * Row ranges: [ExecuteRange] evaluates the rows of its source batch

    [rangeView] is the zero-copy view of rows [start, end_) that
    [executeRangeMode] builds.  Every reference function of a row of the view
    equals the function of the corresponding row of the source, so ranges are
    evaluated as the whole batch would be. *)

From S2P Require Import Prelude Store Truth Schema Result Program Batch Predicate Simd FactIndex Evidence Executor PolicyIndex Finalize Execute ResultRows.
Import Reason.

Lemma csr_csr {A} (l : list A) s n t c :
  0 ≤ s → 0 ≤ t → 0 ≤ c → t + c ≤ n → csr (csr l s n) t c = csr l (s + t) c.
Proof.
  intros Hs Ht Hc Hn. unfold csr. rewrite skipn_firstn_comm, take_take, drop_drop. f_equal; [lia|]. f_equal. lia.
Qed.

(** ** What an accepted range is *)

Record range_of (p : Program) (b : Batch) (start end_ : Z) (v : Batch) : Prop := {
  rg_source : rowStride b = 0 ∧ rowBase b = 0;
  rg_bounds : 0 ≤ start ≤ end_ ∧ end_ ≤ Rows b;
  rg_aligned : start mod 64 = 0 ∧ (end_ mod 64 = 0 ∨ end_ = Rows b);
  rg_columns : SymbolValues v = SymbolValues b ∧ bIntegerValues v = bIntegerValues b ∧ bTimestampValues v = bTimestampValues b ∧
    bBooleanValues v = bBooleanValues b ∧ PresenceMasks v = PresenceMasks b ∧ Evidence v = Evidence b;
  rg_shape : Rows v = end_ - start ∧ rowBase v = start ∧ rowStride v = Rows b;
  rg_requests : zlen (RequestIDs v) = Rows v;
  rg_no_evidence : usesEvidence p = false → EvidenceRefs v = [];
  rg_evidence : usesEvidence p = true →
    let base := EvidenceOffsets b !!! Z.to_nat start in
    let limit := EvidenceOffsets b !!! Z.to_nat end_ in
    zlen (EvidenceOffsets b) = Rows b + 1 ∧ base ≤ limit ∧ limit ≤ zlen (EvidenceRefs b) ∧
    EvidenceRefs v = csr (EvidenceRefs b) base (limit - base) ∧ length (EvidenceOffsets v) = S (Z.to_nat (Rows v)) ∧
    ∀ r, (r ≤ Z.to_nat (Rows v))%nat → EvidenceOffsets v !!! r = EvidenceOffsets b !!! (Z.to_nat start + r)%nat - base
}.

Lemma rangeEvidence_ok p b start end_ offs res :
  0 ≤ start ≤ end_ → end_ ≤ Rows b → zlen offs = end_ - start + 1 →
  rangeEvidence p b start end_ offs = Ok res → usesEvidence p = true →
  let base := EvidenceOffsets b !!! Z.to_nat start in
  let limit := EvidenceOffsets b !!! Z.to_nat end_ in
  zlen (EvidenceOffsets b) = Rows b + 1 ∧ base ≤ limit ∧ limit ≤ zlen (EvidenceRefs b) ∧
  res.2 = csr (EvidenceRefs b) base (limit - base) ∧ length res.1 = length offs ∧
  ∀ r, (r < length offs)%nat → res.1 !!! r = EvidenceOffsets b !!! (Z.to_nat start + r)%nat - base.
Proof.
  intros Hs He Hl Hres Hu base limit. unfold rangeEvidence in Hres. rewrite Hu in Hres.
  apply go_bind_inv in Hres as ([] & Hlen%check_inv & Hres). apply Z.eqb_eq in Hlen.
  rewrite !(at_total (EvidenceOffsets b)) in Hres by lia. rewrite !go_bind_Ok in Hres. fold base limit in Hres.
  apply go_bind_inv in Hres as ([] & Hb%check_inv & Hres). rewrite negb_true_iff, orb_false_iff, !Z.ltb_ge in Hb.
  apply go_bind_inv in Hres as ([offs' prev] & Hloop & Hres).
  apply go_bind_inv in Hres as (refs & Hrefs & [= <-]).
  apply slice_Ok in Hrefs as Hsl.
  assert (length offs' = length offs ∧ ∀ r, (r < length offs)%nat →
    offs' !!! r = EvidenceOffsets b !!! (Z.to_nat start + r)%nat - base) as [Hlo Hoff].
  { refine (for_range_ind (λ i st, length st.1 = length offs ∧ ∀ r, (r < i)%nat →
      st.1 !!! r = EvidenceOffsets b !!! (Z.to_nat start + r)%nat - base) _ _ _ _ _ _ Hloop).
    - split; [done|]. intros; lia.
    - intros i [o pv] [o' pv'] Hi [Ho1 Ho2] Hbody. simpl in *.
      rewrite at_total in Hbody by lia. rewrite go_bind_Ok in Hbody. apply go_bind_inv in Hbody as ([] & _ & [= <- <-]).
      rewrite length_insert. split; [done|]. intros r Hr. destruct (decide (r = i)) as [->|].
      + rewrite list_lookup_total_insert_eq by lia. f_equal. f_equal. lia.
      + rewrite list_lookup_total_insert_ne by done. apply Ho2. lia. }
  split; [done|]. split; [lia|]. split; [lia|]. split; [|done]. simpl. by destruct Hsl as (_ & _ & ->).
Qed.

Lemma rangeView_ok p b start end_ offs v :
  0 ≤ start → rangeView p b start end_ offs = Ok v → range_of p b start end_ v.
Proof.
  intros Hs0 Hv. unfold rangeView in Hv. apply go_bind_inv in Hv as ([] & Hg%check_inv & Hv).
  apply go_bind_inv in Hv as ([] & Hg2%check_inv & Hv).
  rewrite !andb_true_iff, orb_true_iff, !Z.eqb_eq, !Z.leb_le, !land_63 in Hg. rewrite !andb_true_iff, !Z.eqb_eq, Z.leb_le in Hg2.
  apply go_bind_inv in Hv as (requests & Hreq & Hv). apply slice_Ok in Hreq as (Hq1 & Hq2 & ->).
  apply go_bind_inv in Hv as ([offs' refs] & Hev & [= <-]).
  destruct Hg as [[[[[Hg1 Hg3] Hg4] Hg5] Hg6] Hg7]. split; simpl; try done; try lia.
  - rewrite length_take, length_drop. lia.
  - intros Hu. unfold rangeEvidence in Hev. rewrite Hu in Hev. by injection Hev as _ <-.
  - intros Hu. destruct (rangeEvidence_ok p b start end_ offs _ ltac:(lia) ltac:(lia) ltac:(lia) Hev Hu)
      as (H1 & H2 & H3 & H4 & H5 & H6). simpl in *.
    do 3 (split; [done|]). split; [done|]. split; [lia|]. intros r Hr. apply H6. lia.
Qed.

(** ** Rows of a range are rows of the source *)

Lemma evidence_mono b p : evidence_ok b p → ∀ i j, (i ≤ j)%nat → (j ≤ Z.to_nat (Rows b))%nat →
  EvidenceOffsets b !!! i ≤ EvidenceOffsets b !!! j.
Proof.
  intros Hev i j Hij Hj. induction Hij as [|j Hij IH]; [lia|]. destruct (eo_range _ _ Hev j ltac:(lia)) as [[_ Hle] _].
  specialize (IH ltac:(lia)). lia.
Qed.

Section range.
Context (p : Program) (b v : Batch) (start end_ : Z) (reasons : list Z).
Context (Hb : is_u32 (Rows b)) (Hrg : range_of p b start end_ v).

Local Abbreviation shift r := ((Z.to_nat start + r)%nat).

Lemma range_words r : Z.of_nat r < Rows v →
  sourceRows v = sourceRows b ∧ sourceWords v = sourceWords b ∧
  wordBase v + Z.of_nat (r `div` 64) = wordBase b + Z.of_nat (shift r `div` 64) ∧ (r `mod` 64 = shift r `mod` 64)%nat.
Proof.
  intros Hr. destruct Hrg as [[Hs1 Hs2] Hbd [Hal _] _ (Hrows & Hbase & Hstride) _ _ _].
  assert (sourceRows v = sourceRows b) as Hsr.
  { unfold sourceRows. rewrite Hstride, Hs1. simpl. destruct (Z.eqb_spec (Rows b) 0); lia. }
  split; [done|]. split; [unfold sourceWords; by rewrite Hsr|].
  unfold wordBase. rewrite Hbase, Hs2, !Z.shiftr_div_pow2 by lia. change (2 ^ 6) with 64.
  pose proof (Z.div_mod start 64 ltac:(done)). pose proof (Z.div_pos start 64 ltac:(lia) ltac:(lia)).
  set (k := Z.to_nat (start / 64)). assert (Z.to_nat start = 64 * k)%nat as Hk by lia.
  assert (start / 64 = Z.of_nat k) as -> by lia.
  rewrite Hk.
  rewrite (Nat.mul_comm 64 k), Nat.div_add_l, (Nat.add_comm (k * 64)), Nat.Div0.mod_add by lia. split; [|done]. rewrite Z.div_0_l by done. lia.
Qed.

Lemma colBit_range vs column r : Z.of_nat r < Rows v → colBit v vs column r = colBit b vs column (shift r).
Proof.
  intros Hr. destruct (range_words r Hr) as (_ & Hw & Hwb & Hm). unfold colBit. rewrite Hw, Hm. do 3 f_equal. lia.
Qed.

Lemma colValue_range vs column r : Z.of_nat r < Rows v → colValue v vs column r = colValue b vs column (shift r).
Proof.
  intros Hr. destruct (range_words r Hr) as (Hsr & _). destruct Hrg as [[Hs1 Hs2] Hbd _ _ (_ & Hbase & _) _ _ _].
  unfold colValue. rewrite Hsr, Hbase, Hs2. f_equal. f_equal. lia.
Qed.

Lemma literalMatches_range kind column value r : Z.of_nat r < Rows v →
  literalMatches v kind column value r = literalMatches b kind column value (shift r).
Proof.
  intros Hr. unfold literalMatches. destruct (rg_columns _ _ _ _ _ Hrg) as (-> & -> & -> & -> & _).
  by rewrite !colValue_range, colBit_range.
Qed.

Lemma predicateRow_range row r : Z.of_nat r < Rows v → predicateRow p v row r = predicateRow p b row (shift r).
Proof.
  intros Hr. unfold predicateRow. destruct (default (0, 0) _) as [kind column].
  destruct (rg_columns _ _ _ _ _ Hrg) as (_ & Hi & Ht & _ & -> & _). rewrite colBit_range by done.
  assert (predicateMatches p v (Opcodes p !!! row) kind column row r = predicateMatches p b (Opcodes p !!! row) kind column row (shift r)) as ->; [|done].
  unfold predicateMatches. destruct (_ =? OpcodeIn).
  - induction (inLiterals p row) as [|vid l IH]; simpl; [done|]. by rewrite literalMatches_range, IH.
  - unfold comparisonMatches. by rewrite ?Hi, ?Ht, !literalMatches_range, ?colValue_range.
Qed.

Lemma evidenceRow_range predicate r : usesEvidence p = true → evidence_ok b p → Z.of_nat r < Rows v →
  evidenceRow v reasons predicate r = evidenceRow b reasons predicate (shift r).
Proof.
  intros Hu Hev Hr. unfold evidenceRow.
  destruct (rg_columns _ _ _ _ _ Hrg) as (_ & _ & _ & _ & _ & He).
  assert (rowRecords v predicate r = rowRecords b predicate (shift r)) as ->; [|by rewrite He].
  unfold rowRecords. rewrite He. f_equal.
  destruct (rg_evidence _ _ _ _ _ Hrg Hu) as (Hlen & Hbl & Hlim & -> & Hlo & Hoff).
  destruct Hrg as [_ Hbd _ _ (Hrows & _) _ _ _]. rewrite (Hoff r), (Hoff (S r)) by lia.
  pose proof (evidence_mono b p Hev) as Hmono. destruct (eo_range _ _ Hev (Z.to_nat start)) as [[Hb0 _] _]; [lia|].
  pose proof (Hmono (Z.to_nat start) (shift r) ltac:(lia) ltac:(lia)) as M1.
  pose proof (Hmono (shift r) (S (shift r)) ltac:(lia) ltac:(lia)) as M2.
  pose proof (Hmono (S (shift r)) (Z.to_nat end_) ltac:(lia) ltac:(lia)) as M3.
  replace (Z.to_nat start + S r)%nat with (S (shift r)) by lia.
  rewrite csr_csr by lia. f_equal; lia.
Qed.

Context (Hev : usesEvidence p = true → evidence_ok b p).

Lemma instrValue_range vs i r : (i < length (Opcodes p))%nat → Z.of_nat r < Rows v →
  instrValue p v reasons vs i r = instrValue p b reasons vs i (shift r).
Proof.
  intros Hi Hr. unfold instrValue. rewrite predicateRow_range by done.
  destruct (Z.eqb_spec (Opcodes p !!! i) OpcodeEvidence) as [E|]; [|done].
  pose proof (usesEvidence_at p i Hi E) as Hu. by rewrite evidenceRow_range by auto.
Qed.

Lemma denote_range i r : (i < length (Opcodes p))%nat → Z.of_nat r < Rows v →
  denote p v reasons i r = denote p b reasons i (shift r).
Proof.
  intros Hi Hr. unfold denote.
  assert (∀ n, (n ≤ length (Opcodes p))%nat → denoteAll p v reasons n r = denoteAll p b reasons n (shift r)) as Hall.
  { induction n as [|n IH]; intros Hn; [done|]. simpl. by rewrite IH, instrValue_range by lia. }
  by rewrite Hall, instrValue_range by lia.
Qed.

Context (Hsem : sem_ok p).

Lemma rootValue_range root r : 1 ≤ root ≤ zlen (Opcodes p) → Z.of_nat r < Rows v →
  rootValue p v reasons root r = rootValue p b reasons root (shift r).
Proof. intros Hroot Hr. apply denote_range; [lia|done]. Qed.

Lemma clauseValue_range c r : (c < length (ClauseAssertionRoots p))%nat → Z.of_nat r < Rows v →
  clauseValue p v reasons c r = clauseValue p b reasons c (shift r).
Proof.
  intros Hc Hr. unfold clauseValue. rewrite rootValue_range by (done || by apply (so_assertion _ Hsem)).
  pose proof (so_evidence_root _ Hsem c) as Hroots. fold (clauseRoots p c) in Hroots.
  generalize (rootValue p b reasons (ClauseAssertionRoots p !!! c) (shift r)).
  assert (∀ e, e ∈ clauseRoots p c → 1 ≤ e ≤ zlen (Opcodes p)) as Hl by auto. clear Hroots.
  induction (clauseRoots p c) as [|e l IH]; intros x; [done|]. simpl.
  rewrite rootValue_range by (done || (apply Hl; set_solver)). apply IH. set_solver.
Qed.

Lemma selected_range q r : Z.of_nat r < Rows v → selected p v q r = selected p b q (shift r).
Proof.
  intros Hr. unfold selected.
  assert (map (λ f, selectorValue p v f r) (pFieldIDs (ApplicabilityIndex p)) =
    map (λ f, selectorValue p b f (shift r)) (pFieldIDs (ApplicabilityIndex p))) as ->; [|done].
  apply map_ext. intros f. unfold selectorValue. destruct (default (0, 0) _) as [kind column].
  destruct (rg_columns _ _ _ _ _ Hrg) as (-> & _ & _ & _ & -> & _). by rewrite colBit_range, colValue_range.
Qed.

Lemma counts_range_view q r : (q < length (RequirementIDs p))%nat → Z.of_nat r < Rows v →
  counts p v reasons q r = counts p b reasons q (shift r).
Proof.
  intros Hq Hr. unfold counts. by rewrite selected_range, rootValue_range by (done || by apply (so_root _ Hsem)).
Qed.

Lemma countedTo_range r : Z.of_nat r < Rows v →
  countedTo p v reasons (length (RequirementIDs p)) r = countedTo p b reasons (length (RequirementIDs p)) (shift r).
Proof.
  intros Hr. unfold countedTo. assert (∀ q, q ∈ seq 0 (length (RequirementIDs p)) → counts p v reasons q r = counts p b reasons q (shift r)) as Hc.
  { intros q Hq. apply elem_of_seq in Hq. apply counts_range_view; [lia|done]. }
  induction (seq 0 _) as [|q l IH]; [done|]. simpl. rewrite Hc by set_solver. rewrite IH by set_solver. done.
Qed.

Lemma requirementVerdicts_range q r : (q < length (RequirementIDs p))%nat → Z.of_nat r < Rows v →
  requirementVerdicts p v reasons q r = requirementVerdicts p b reasons q (shift r).
Proof.
  intros Hq Hr. unfold requirementVerdicts, unresolvedVerdict. rewrite rootValue_range by (done || by apply (so_root _ Hsem)).
  destruct (rootValue p b reasons (RequirementRoots p !!! q) (shift r)).1 as [pos neg].
  pose proof (so_clause_id _ Hsem q) as Hid. fold (requirementClauses p q) in Hid.
  apply map_ext_in. intros c Hc. rewrite <-list_elem_of_In in Hc. specialize (Hid c Hq Hc).
  unfold activeVerdict. by rewrite clauseValue_range by lia.
Qed.

(** Requirements, verdicts and preferred outcome of a view's row are those of the source's row. *)
Lemma rows_range r : Z.of_nat r < Rows v →
  rowRequirements p v reasons r = rowRequirements p b reasons (shift r) ∧
  rowVerdicts p v reasons r = rowVerdicts p b reasons (shift r) ∧
  rowOutcome p v reasons r = rowOutcome p b reasons (shift r).
Proof.
  intros Hr. unfold rowRequirements, rowOutcome, rowVerdicts. rewrite countedTo_range by done. split; [done|].
  assert (∀ q, q ∈ countedTo p b reasons (length (RequirementIDs p)) (shift r) → (q < length (RequirementIDs p))%nat) as Hq.
  { intros q Hin. unfold countedTo in Hin. apply list_elem_of_In, filter_In in Hin as [Hin _]. apply in_seq in Hin. lia. }
  assert (flat_map (λ q, requirementVerdicts p v reasons q r) (countedTo p b reasons (length (RequirementIDs p)) (shift r)) =
    flat_map (λ q, requirementVerdicts p b reasons q (shift r)) (countedTo p b reasons (length (RequirementIDs p)) (shift r))) as ->; [|done].
  induction (countedTo _ _ _ _ _) as [|q l IH]; [done|]. simpl.
  rewrite requirementVerdicts_range by (done || (apply Hq; set_solver)). rewrite IH by set_solver. done.
Qed.

Lemma evidenceOf_range r : Z.of_nat r < Rows v → evidenceOf p v r = evidenceOf p b (shift r).
Proof.
  intros Hr. unfold evidenceOf. destruct (usesEvidence p) eqn:Hu; [|done]. specialize (Hev eq_refl).
  destruct (rg_columns _ _ _ _ _ Hrg) as (_ & _ & _ & _ & _ & ->). destruct (rg_shape _ _ _ _ _ Hrg) as (Hrows & _ & _).
  destruct (rg_evidence _ _ _ _ _ Hrg Hu) as (_ & Hle & Hlim & -> & _ & Hoff). destruct (rg_bounds _ _ _ _ _ Hrg) as (Hse & He).
  rewrite !Hoff by lia. replace (shift (S r)) with (S (shift r)) by lia.
  pose proof (evidence_mono b p Hev (Z.to_nat start) (shift r) ltac:(lia) ltac:(lia)).
  pose proof (evidence_mono b p Hev (S (shift r)) (Z.to_nat end_) ltac:(lia) ltac:(lia)).
  pose proof (evidence_mono b p Hev (shift r) (S (shift r)) ltac:(lia) ltac:(lia)).
  pose proof (evidence_mono b p Hev 0%nat (Z.to_nat start) ltac:(lia) ltac:(lia)). destruct (eo_ends _ _ Hev) as [Hfirst _].
  rewrite csr_csr by lia. do 2 f_equal; lia.
Qed.

Lemma rowRef_range r o : Z.of_nat r < Rows v → rowRef p v reasons r o → rowRef p b reasons (shift r) o.
Proof.
  intros Hr [H1 H2 H3 H4 H5 H6 H7]. destruct (rows_range r Hr) as (R1 & R2 & R3). pose proof (evidenceOf_range r Hr) as R4.
  unfold driverReasons, rowDriver in *. rewrite R2, R3 in H3, H4. split; try congruence; done.
Qed.
End range.

(** ** An accepted batch has accepted ranges *)

Lemma executorScratchLen_iff a b c :
  0 ≤ a → 0 ≤ b → 0 ≤ c → (is_Some (executorScratchLen a b c) ↔ a * b * c ≤ MaxInt / 8 ∧ a * b ≤ MaxUint64).
Proof.
  intros Ha Hb Hc. unfold executorScratchLen.
  assert (∀ x y, 0 ≤ x → 0 ≤ y → (negb (x =? 0) && (MaxUint64 / x <? y) = false ↔ x * y ≤ MaxUint64)) as Hiff.
  { intros x y Hx Hy. rewrite andb_false_iff, negb_false_iff, Z.eqb_eq, Z.ltb_ge. split.
    - intros [->|Hle]; [done|]. destruct (decide (x = 0)) as [->|]; [done|]. pose proof (Z.mul_div_le MaxUint64 x). nia.
    - intros Hle. destruct (decide (x = 0)); [by left|right]. apply Z.div_le_lower_bound; lia. }
  assert (MaxInt / 8 ≤ MaxUint64) as Hmax by done.
  destruct (negb (a =? 0) && _) eqn:E1.
  { split; [by intros []|]. intros [_ Hab%Hiff]; [congruence|done|done]. }
  cbv zeta. rewrite (no_wrap a b) by done. apply Hiff in E1; [|done|done]. assert (0 ≤ a * b) by nia.
  destruct (negb (a * b =? 0) && _) eqn:E2.
  { split; [by intros []|]. intros [Habc _]. assert (a * b * c ≤ MaxUint64) as Hle by lia. apply Hiff in Hle; [congruence|done|done]. }
  rewrite (no_wrap (a * b) c) by done. destruct (Z.ltb_spec (MaxInt / 8) (a * b * c)) as [Hlt|Hle].
  - split; [by intros []|]. lia.
  - split; [done|]. intros _. by eexists.
Qed.

Lemma executorResultLen_iff rows n :
  0 ≤ rows → 0 ≤ n → (is_Some (executorResultLen rows n 4) ↔ rows * n ≤ MaxUint32).
Proof.
  intros Hr Hn. split.
  - intros [m Hm]. apply executorResultLen_Some in Hm; [|done|done]. lia.
  - intros Hle. unfold executorResultLen. assert (negb (rows =? 0) && (MaxUint64 / rows <? n) = false) as E.
    { destruct (Z.eqb_spec rows 0); [done|]. simpl. apply Z.ltb_ge, Z.div_le_lower_bound; unfold MaxUint64, MaxUint32 in *; lia. }
    rewrite E. cbv zeta. rewrite no_wrap by done. rewrite (proj2 (Z.ltb_ge MaxUint32 (rows * n))) by done.
    rewrite (proj2 (Z.ltb_ge (MaxInt / 4) (rows * n))) by (change (MaxInt / 4) with 2305843009213693951; unfold MaxUint32 in *; lia). by eexists.
Qed.

Lemma WordCount_mono a b : is_u32 b → 0 ≤ a ≤ b → WordCount a ≤ WordCount b.
Proof.
  intros Hb Ha. rewrite !WordCount_eq by (unfold is_u32 in *; lia). apply Z.div_le_mono; lia.
Qed.

(** Fewer rows and fewer evidence references need no more room. *)
Lemma executionSizes_mono p b v :
  sched_typed p → is_u32 (Rows b) → 0 ≤ Rows v ≤ Rows b → (usesEvidence p = true → zlen (EvidenceRefs v) ≤ zlen (EvidenceRefs b)) →
  (∃ s, executionSizes p b = Ok s) → ∃ s, executionSizes p v = Ok s.
Proof.
  intros Hty Hb Hv Href [s Hs]. pose proof (st_tcount _ Hty) as Ht. pose proof (st_rcount _ Hty) as Hr.
  pose proof (maxExecutionRemediations_nonneg p) as Hm. pose proof (WordCount_mono _ _ Hb Hv) as Hw.
  destruct (WordCount_bounds (Rows v)) as (Hw0 & _); [unfold is_u32 in *; lia|]. unfold is_u32 in *.
  assert (∀ a k, 0 ≤ a → 0 ≤ k → is_Some (executorScratchLen a k (WordCount (Rows b))) → is_Some (executorScratchLen a k (WordCount (Rows v)))) as Hsc.
  { intros a k Ha Hk. rewrite !executorScratchLen_iff by lia. assert (0 ≤ a * k) by nia. intros [? ?]. split; [nia|done]. }
  assert (∀ n, 0 ≤ n → is_Some (executorResultLen (Rows b) n 4) → is_Some (executorResultLen (Rows v) n 4)) as Hrs.
  { intros n Hn. rewrite !executorResultLen_iff by lia. nia. }
  unfold executionSizes, ofOption, ReasonCount in *.
  destruct (executorScratchLen (TruthSlotCount p) 2 (WordCount (Rows b))) eqn:E1; [|done].
  destruct (Hsc (TruthSlotCount p) 2) as [? ->]; [lia|lia|by rewrite E1|].
  destruct (executorScratchLen (ReasonSlotCount p) 9 (WordCount (Rows b))) eqn:E2; [|done].
  destruct (Hsc (ReasonSlotCount p) 9) as [? ->]; [lia|lia|by rewrite E2|].
  destruct (executorResultLen (Rows b) (zlen (RequirementIDs p)) 4) eqn:E3; [|done].
  destruct (Hrs (zlen (RequirementIDs p))) as [? ->]; [lia|by rewrite E3|].
  destruct (executorResultLen (Rows b) 1 4) eqn:E4; [|done]. destruct (Hrs 1) as [? ->]; [lia|by rewrite E4|].
  destruct (executorResultLen (Rows b) 9 4) eqn:E5; [|done]. destruct (Hrs 9) as [? ->]; [lia|by rewrite E5|].
  destruct (executorResultLen (Rows b) (maxExecutionRemediations p) 4) eqn:E6; [|done].
  destruct (Hrs (maxExecutionRemediations p)) as [? ->]; [lia|by rewrite E6|]. simpl in *.
  destruct (usesEvidence p); [|by eexists].
  destruct (executorResultLen 1 (zlen (EvidenceRefs b)) 4) eqn:E7; [|done].
  destruct (proj2 (executorResultLen_iff 1 (zlen (EvidenceRefs v)) ltac:(lia) ltac:(lia))) as [? ->]; [|by eexists].
  pose proof (proj1 (executorResultLen_iff 1 (zlen (EvidenceRefs b)) ltac:(lia) ltac:(lia)) ltac:(by rewrite E7)). specialize (Href eq_refl). lia.
Qed.

Lemma validEvidenceBatch_range p b start end_ v :
  usesEvidence p = true → evidence_typed b → is_u32 (Rows b) → range_of p b start end_ v →
  validEvidenceBatch b p = true → validEvidenceBatch v p = true.
Proof.
  intros Hu Hty Hb Hrg Hv. pose proof (validEvidenceBatch_ok b p Hty Hv) as Hev.
  destruct (rg_evidence _ _ _ _ _ Hrg Hu) as (Hlen & Hbl & Hlim & Hrefs & Hlo & Hoff).
  destruct Hrg as [_ Hbd _ (_ & _ & _ & _ & _ & He) (Hrows & _) Hreq _ _]. unfold is_u32 in *.
  pose proof (evidence_mono b p Hev) as Hmono.
  unfold validEvidenceBatch in *. rewrite !andb_true_iff, !Z.eqb_eq in Hv. rewrite !He.
  destruct Hv as [[[[[[[[_ _] _] H0] Hlast] Hcols] _] Href] Hrec]. rewrite Hcols, Hrec, Hrefs.
  set (base := EvidenceOffsets b !!! Z.to_nat start) in *. set (limit := EvidenceOffsets b !!! Z.to_nat end_) in *.
  assert (0 ≤ base) as Hb0 by (pose proof (Hmono 0%nat (Z.to_nat start)); unfold base; lia).
  assert (zlen (csr (EvidenceRefs b) base (limit - base)) = limit - base) as Hlr by (rewrite length_csr; lia).
  assert (EvidenceOffsets v !!! (length (EvidenceOffsets v) - 1)%nat = limit - base) as Hend.
  { rewrite Hlo. replace (S (Z.to_nat (Rows v)) - 1)%nat with (Z.to_nat (Rows v)) by lia. rewrite Hoff by lia.
    unfold limit. do 2 f_equal. lia. }
  rewrite Hlr, Hend, Hreq, Z.eqb_refl, u64_small, !andb_true_r by (unfold is_u64; lia).
  rewrite !andb_true_iff, !Z.eqb_eq, negb_true_iff, bool_decide_eq_false, !forallb_forall. split_and!; try done; try lia.
  - rewrite Hoff by lia. unfold base. rewrite Nat.add_0_r. lia.
  - intros i Hi. apply in_seq in Hi. rewrite negb_true_iff, orb_false_iff, !Z.ltb_ge.
    rewrite (Hoff (S i)) by lia. pose proof (Hmono (Z.to_nat start + S i)%nat (Z.to_nat end_) ltac:(lia) ltac:(lia)) as M. fold limit in M.
    split; [|lia]. destruct (bool_decide_reflect (i = 0%nat)) as [->|Hi0].
    + pose proof (Hmono (Z.to_nat start) (Z.to_nat start + 1)%nat). unfold base. lia.
    + rewrite Hoff by lia. pose proof (Hmono (Z.to_nat start + i)%nat (Z.to_nat start + S i)%nat). lia.
  - intros ref Hin. rewrite forallb_forall in Href. apply Href. rewrite <-list_elem_of_In in Hin |- *. by eapply csr_elem.
Qed.

Lemma validExecutionBatchColumns_range p b start end_ v :
  batch_typed b → schema_typed (FieldIndex p) → range_of p b start end_ v →
  validExecutionBatchColumns p b = true → validExecutionBatchColumns p v = true.
Proof.
  intros [Hb _ _] Hs [[Hs1 Hs2] Hbd [Hal _] (E1 & E2 & E3 & E4 & E5 & _) (Hrows & Hbase & Hstride) _ _ _].
  unfold validExecutionBatchColumns. destruct (validPhysicalRange b); simpl; [|done].
  assert (sourceRows v = sourceRows b) as Hsr.
  { unfold sourceRows. rewrite Hstride, Hs1. simpl. destruct (Z.eqb_spec (Rows b) 0); lia. }
  assert (validPhysicalRange v = true) as ->.
  { unfold validPhysicalRange. rewrite land_63, Hbase, Hal, Hstride, Hsr, Hrows. unfold sourceRows, is_u32 in *. rewrite Hs1. simpl.
    rewrite u64_small by (unfold is_u64; lia).
    destruct (Z.eqb_spec (Rows b) 0), (Z.eqb_spec start 0); simpl; try lia; apply Z.leb_le; lia. }
  simpl. unfold sourceWords. by rewrite Hsr, E1, E2, E3, E4, E5.
Qed.

Lemma range_accepted p b start end_ v :
  program_typed p → input_typed b → range_of p b start end_ v → accepts p b → accepts p v ∧ input_typed v.
Proof.
  intros Hpt [Hbt Hsy Hlen Hety] Hrg (Hcols & Hev & Hsz). apply andb_true_iff in Hcols as [_ Hcols].
  pose proof (bt_rows _ Hbt) as Hb. pose proof (rg_bounds _ _ _ _ _ Hrg) as Hbd.
  destruct (rg_shape _ _ _ _ _ Hrg) as (Hrows & Hbase & Hstride). destruct (rg_columns _ _ _ _ _ Hrg) as (E1 & _ & _ & _ & _ & E6).
  assert (usesEvidence p = true → ∀ ref, ref ∈ EvidenceRefs v → ref ∈ EvidenceRefs b) as Hrefs.
  { intros Hu ref. destruct (rg_evidence _ _ _ _ _ Hrg Hu) as (_ & _ & _ & -> & _). apply csr_elem. }
  split; [split_and!|].
  - rewrite (rg_requests _ _ _ _ _ Hrg), Z.eqb_refl. by eapply validExecutionBatchColumns_range; [|apply Hpt| |].
  - destruct (usesEvidence p) eqn:Hu; [|done]. simpl in *. by eapply validEvidenceBatch_range.
  - eapply executionSizes_mono; [apply Hpt|done|lia| |done]. intros Hu.
    destruct (rg_evidence _ _ _ _ _ Hrg Hu) as (_ & _ & _ & -> & _). unfold csr. rewrite length_take, length_drop. lia.
  - unfold is_u32 in *. split; [split; unfold is_u32; lia|by rewrite E1|by rewrite E1|]. split; [unfold is_u32; lia| |by rewrite E6; apply Hety].
    destruct (usesEvidence p) eqn:Hu.
    + apply Forall_forall. intros ref Hin. pose proof (et_refs _ Hety) as Hf. rewrite Forall_forall in Hf. by apply Hf, Hrefs.
    + rewrite (rg_no_evidence _ _ _ _ _ Hrg Hu). done.
Qed.

(** ** Aligned ranges of an accepted batch always run *)

Lemma rangeEvidence_total p b start end_ offs :
  (usesEvidence p = true → evidence_ok b p) → 0 ≤ start ≤ end_ → end_ ≤ Rows b → zlen offs = end_ - start + 1 →
  ∃ res, rangeEvidence p b start end_ offs = Ok res.
Proof.
  intros Hev Hse He Hl. unfold rangeEvidence. destruct (usesEvidence p) eqn:Hu; [|by eexists].
  specialize (Hev eq_refl). pose proof (eo_offsets _ _ Hev) as Hoff. pose proof (evidence_mono b p Hev) as Hmono.
  destruct (eo_ends _ _ Hev) as [Hfirst Hlast]. rewrite (proj2 (Z.eqb_eq _ _) Hoff). simpl.
  rewrite !(at_total (EvidenceOffsets b)) by lia. rewrite !go_bind_Ok.
  pose proof (Hmono (Z.to_nat start) (Z.to_nat end_) ltac:(lia) ltac:(lia)) as Hle.
  pose proof (Hmono 0%nat (Z.to_nat start) ltac:(lia) ltac:(lia)). pose proof (Hmono (Z.to_nat end_) (Z.to_nat (Rows b)) ltac:(lia) ltac:(lia)).
  set (base := EvidenceOffsets b !!! Z.to_nat start) in *. set (limit := EvidenceOffsets b !!! Z.to_nat end_) in *.
  rewrite (proj2 (Z.ltb_ge limit base)), (proj2 (Z.ltb_ge (zlen (EvidenceRefs b)) limit)) by lia. simpl.
  edestruct (for_range_total (λ i (st : list Z * Z), base ≤ st.2 ∧ ∀ k, (i ≤ k)%nat → (k < length offs)%nat →
      st.2 ≤ EvidenceOffsets b !!! (Z.to_nat start + k)%nat) (length offs)) as ([o prev] & -> & _).
  - simpl. split; [lia|]. intros k _ Hk. apply Hmono; lia.
  - intros i [o prev] Hi [Hb Hprev]. simpl in *. rewrite at_total by lia. rewrite go_bind_Ok.
    replace (Z.to_nat (start + Z.of_nat i)) with (Z.to_nat start + i)%nat by lia.
    set (offset := EvidenceOffsets b !!! (Z.to_nat start + i)%nat) in *.
    assert (offset ≤ limit) by (apply Hmono; lia). assert (prev ≤ offset) by (apply Hprev; lia).
    rewrite (proj2 (Z.ltb_ge offset prev)), (proj2 (Z.ltb_ge limit offset)) by lia. simpl.
    eexists; split; [done|]. simpl. split; [lia|]. intros k Hk Hk'. apply Hmono; lia.
  - rewrite go_bind_Ok. rewrite slice_range by lia. by eexists.
Qed.

Lemma rangeView_total p b start end_ offs :
  (usesEvidence p = true → evidence_ok b p) → rowStride b = 0 → rowBase b = 0 → is_u32 (Rows b) → zlen (RequestIDs b) = Rows b →
  0 ≤ start ≤ end_ → end_ ≤ Rows b → start mod 64 = 0 → end_ mod 64 = 0 ∨ end_ = Rows b → zlen offs = end_ - start + 1 →
  ∃ v, rangeView p b start end_ offs = Ok v.
Proof.
  intros Hev Hs Hb Hu Hreq Hse He Ha Hae Hl. unfold rangeView. rewrite Hs, Hb, !land_63, Ha. unfold is_u32 in Hu.
  assert ((end_ mod 64 =? 0) || (end_ =? Rows b) = true) as -> by (rewrite orb_true_iff, !Z.eqb_eq; done).
  rewrite !(proj2 (Z.leb_le _ _)), !(proj2 (Z.eqb_eq _ _)) by (unfold MaxInt; lia). simpl.
  rewrite slice_range by lia. rewrite go_bind_Ok.
  destruct (rangeEvidence_total p b start end_ offs Hev Hse He Hl) as [[o refs] ->]. rewrite go_bind_Ok. by eexists.
Qed.

(** The rows [start, start + n) of [b], as a result batch of [n] rows. *)
Record rowsFrom (p : Program) (b : Batch) (start n : nat) (outs : list rowOut) (out : ResultBatch) : Prop := {
  rw_length : length outs = n;
  rw_encodes : encodes n outs out;
  rw_rows r : (r < n)%nat → rowRef p b (programReasons p) (start + r) (outs !!! r)
}.

Lemma executeRange_rows {ops : SimdOps} {laws : SimdLaws ops} (programs : Z → Program) e addr b start end_ offs mode :
  let p := programs addr in
  executor_ok programs e → program_wf p → input_typed b →
  validExecutionSemantics p = Ok true → validBoundPolicy (ApplicabilityIndex p) = true → accepts p b →
  rowStride b = 0 → rowBase b = 0 → 0 ≤ start ≤ end_ → end_ ≤ Rows b → start mod 64 = 0 → end_ mod 64 = 0 ∨ end_ = Rows b →
  zlen offs = end_ - start + 1 →
  ∃ v out e' outs, executeRangeMode programs addr b start end_ offs mode e = (Ok out, e') ∧ executor_ok programs e' ∧
    referenceResult p v outs out ∧ range_of p b start end_ v ∧ input_typed v ∧
    rowsFrom p b (Z.to_nat start) (Z.to_nat (end_ - start)) outs out.
Proof.
  intros p He Hwf Hin Hv Hvb Hacc Hs Hb Hse Hend Ha Hae Hl. pose proof (bt_rows _ (it_batch _ Hin)) as Hu. pose proof (pw_typed _ Hwf) as Hpt.
  assert (usesEvidence p = true → evidence_ok b p) as Hev.
  { intros Hue. destruct Hacc as (_ & Hevb & _). rewrite Hue in Hevb. apply validEvidenceBatch_ok; [apply Hin|done]. }
  destruct (rangeView_total p b start end_ offs) as [v Hview]; try done.
  { destruct Hacc as (Hc & _). apply andb_true_iff in Hc as [Hc _]. by apply Z.eqb_eq. }
  pose proof (rangeView_ok p b start end_ offs v ltac:(lia) Hview) as Hrg.
  destruct (range_accepted p b start end_ v Hpt Hin Hrg Hacc) as [Hacc' Hin'].
  destruct (executes programs e addr v mode He Hwf Hin' Hv Hvb Hacc') as (out & e' & outs & Hrun & He' & Href).
  exists v, out, e', outs. unfold executeRangeMode, ex_bind, lift. fold p. rewrite Hview. split_and!; try done.
  destruct (rg_shape _ _ _ _ _ Hrg) as (Hrows & _ & _). rewrite <-Hrows. split; [apply Href|apply Href|].
  pose proof (validExecutionSemantics_ok p (pg_sched _ Hpt) (pg_sem _ Hpt) Hv) as (_ & Hsem & _).
  intros r Hr. apply (rowRef_range p b v start end_ (programReasons p) Hu Hrg Hev Hsem r); [lia|]. by apply Href.
Qed.

(** ** Properties *)

(** C6: on a batch the executor accepts, executing an aligned row range succeeds and
    returns, row by row, what executing the whole batch returns for the rows of the
    range: outcome, requirements, driver, reasons and evidence references resolve
    to the reference evaluation of source row [start + r]. *)
Theorem range_rows_are_source_rows {ops : SimdOps} {laws : SimdLaws ops} (programs : Z → Program) (e : Executor) (addr : Z) (b : Batch)
    (start end_ : Z) (offs : list Z) (mode : executionMode) :
  let p := programs addr in
  executor_ok programs e → program_wf p → input_typed b →
  validExecutionSemantics p = Ok true → validBoundPolicy (ApplicabilityIndex p) = true → accepts p b →
  rowStride b = 0 → rowBase b = 0 → 0 ≤ start ≤ end_ → end_ ≤ Rows b → start mod 64 = 0 → end_ mod 64 = 0 ∨ end_ = Rows b →
  zlen offs = end_ - start + 1 →
  ∃ out e' outs, executeRangeMode programs addr b start end_ offs mode e = (Ok out, e') ∧ executor_ok programs e' ∧
    rbRows out = end_ - start ∧ rowsFrom p b (Z.to_nat start) (Z.to_nat (end_ - start)) outs out ∧
    ∀ r, (r < Z.to_nat (end_ - start))%nat → let r' := (Z.to_nat start + r)%nat in
      rbOutcomeIDs out !!! r = rowOutcome p b (programReasons p) r' ∧
      csrRow (rbRequirementOffsets out) (rbRequirementIDs out) r = rowRequirements p b (programReasons p) r' ∧
      csrRow (rbDriverOffsets out) (rbDriverClauses out) r =
        match rowDriver p b (programReasons p) r' with Some v => [vClause v] | None => [] end ∧
      csrRow (rbReasonOffsets out) (rbReasonIDs out) r = driverReasons p b (programReasons p) r' ∧
      csrRow (rbEvidenceOffsets out) (rbEvidenceIDs out) r = evidenceOf p b r'.
Proof.
  intros p He Hwf Hin Hv Hvb Hacc Hs Hb Hse Hend Ha Hae Hl.
  destruct (executeRange_rows programs e addr b start end_ offs mode) as (v & out & e' & outs & Hrun & He' & Href & Hrg & Hin' & Hrows); try done.
  exists out, e', outs. destruct (rg_shape _ _ _ _ _ Hrg) as (Hn & _ & _). pose proof (bt_rows _ (it_batch _ Hin')) as Hu.
  pose proof (reference_offsets _ _ _ _ Hu Href) as (_ & Hr & _). split_and!; [done|done|by rewrite Hr|done|].
  intros r Hrr r'. destruct (reference_row _ _ _ _ Hu Href r ltac:(by rewrite Hn)) as (E1 & E2 & _ & E3 & E4 & E5).
  pose proof (rw_rows _ _ _ _ _ _ Hrows r Hrr) as [R1 R2 R3 R4 R5 _ _]. rewrite <-Hn in Hrr. pose proof (rf_rows _ _ _ _ Href r Hrr) as [T1 T2 T3 T4 T5 _ _].
  fold r' in R1, R2, R3, R4, R5. fold p in E1, E2, E3, E4, E5, R1, R2, R3, R4, R5, T1, T2, T3, T4, T5.
  split_and!; [congruence|congruence| |congruence|congruence]. rewrite E3.
  destruct (rowDriver p v (programReasons p) r) as [v1|], (rowDriver p b (programReasons p) r') as [v2|]; destruct_and?; try congruence.
  - exfalso. match goal with H : roBest _ = noCandidate, K : ocOutcome _ ≠ 0 |- _ => by rewrite H in K end.
  - exfalso. match goal with H : roBest _ = noCandidate, K : ocOutcome _ ≠ 0 |- _ => by rewrite H in K end.
Qed.
