(* ===== verification/Shard.v ===== *)
(** * Sharded execution: [internal/scheduler]

    shard.go, worker.go and the core of [Scheduler.Execute]: a batch is cut
    into word-aligned row ranges, each range runs on its own executor, and the
    shard results are concatenated with rebased offsets.  The theorems show
    that the ranges tile the batch, that merging is a homomorphism on encoded
    rows, and that the merged result is the result of the whole batch. *)

From S2P Require Import Prelude Store Truth Schema Result Program Batch Predicate Simd FactIndex Evidence Executor PolicyIndex Finalize Execute ResultRows Range.
Import Reason.

(** ** Partition (shard.go) *)

Record rowRange := { rrStart : Z; rrEnd : Z }.

(** One iteration of the loop over [ranges]; the state is [(ranges, wordStart)]. *)
Definition partitionStep (rows wordsPerShard extraWords : Z) (shard : nat) (st : list rowRange * Z) : list rowRange * Z :=
  let '(ranges, wordStart) := st in
  let wordCount := if Z.of_nat shard <? extraWords then wordsPerShard + 1 else wordsPerShard in
  let start := Z.shiftl wordStart 6 in
  let wordStart := wordStart + wordCount in
  let end_ := Z.shiftl wordStart 6 in
  let end_ := if rows <? end_ then rows else end_ in
  (ranges ++ [{| rrStart := u32 start; rrEnd := u32 end_ |}], wordStart).

(** The number of ranges for a destination of [dstLen] rows. *)
Definition partitionCount (dstLen : nat) (rows shards : Z) : Z :=
  let count := if shards <? 1 then 1 else shards in
  let count := if Z.of_nat dstLen <? count then Z.of_nat dstLen else count in
  let words := Z.shiftr (u64 (rows + 63)) 6 in
  if words =? 0 then 1 else if words <? count then words else count.

Definition partitionRows (dstLen : nat) (rows shards : Z) : list rowRange :=
  if bool_decide (dstLen = 0%nat) then [] else
  let count := partitionCount dstLen rows shards in
  let words := Z.shiftr (u64 (rows + 63)) 6 in
  (foldl (λ st shard, partitionStep rows (words / count) (words mod count) shard st) ([], 0) (seq 0 (Z.to_nat count))).1.

(** ** Merging (shard.go) *)

Definition validShardCSR (offsets : list Z) (edgeCount rows : Z) : option Z :=
  let offsetCount := rows + 1 in
  if (MaxInt <? offsetCount) || negb (zlen offsets =? offsetCount) || bool_decide (length offsets = 0%nat) || negb (offsets !!! 0%nat =? 0)
  then None else
  match foldl (λ previous offset, match previous with
               | None => None
               | Some previous => if offset <? previous then None else Some offset
               end) (Some 0) (drop 1 offsets) with
  | None => None
  | Some previous => if previous =? edgeCount then Some previous else None
  end.

Definition mergeEdgeLimit : Z := if MaxUint32 <? MaxInt then MaxUint32 else MaxInt.

Definition addMergeEdges (total count : Z) : option Z :=
  if (mergeEdgeLimit <? total) || (mergeEdgeLimit - total <? count) then None else Some (total + count).

Record mergeTotals := { mtRequirements : Z; mtDrivers : Z; mtEvidence : Z; mtReasons : Z; mtRemediations : Z }.

Definition zeroTotals : mergeTotals := {| mtRequirements := 0; mtDrivers := 0; mtEvidence := 0; mtReasons := 0; mtRemediations := 0 |}.

(** The checks on one shard: the state is [(totals, covered)]. *)
Definition checkShard (rows : Z) (s : rowRange * ResultBatch) (st : mergeTotals * Z) : go (mergeTotals * Z) :=
  let '(range, shard) := s in
  let '(totals, covered) := st in
  check (negb (negb (rrStart range =? covered) || (rrEnd range <? rrStart range) || (rows <? rrEnd range) ||
               negb (u64 (rrEnd range - rrStart range) =? rbRows shard) || negb (zlen (rbOutcomeIDs shard) =? rbRows shard)))
    ErrInvalidShardResult ;;
  requirements ← ofOption (validShardCSR (rbRequirementOffsets shard) (zlen (rbRequirementIDs shard)) (rbRows shard)) ErrInvalidShardResult;
  drivers ← ofOption (validShardCSR (rbDriverOffsets shard) (zlen (rbDriverRequirements shard)) (rbRows shard)) ErrInvalidShardResult;
  check ((zlen (rbDriverClauses shard) =? drivers) && (zlen (rbDriverNodes shard) =? drivers) &&
         (zlen (rbDriverReasons shard) =? drivers) && (zlen (rbDriverExplanations shard) =? drivers)) ErrInvalidShardResult ;;
  evidence ← ofOption (validShardCSR (rbEvidenceOffsets shard) (zlen (rbEvidenceIDs shard)) (rbRows shard)) ErrInvalidShardResult;
  reasons ← ofOption (validShardCSR (rbReasonOffsets shard) (zlen (rbReasonIDs shard)) (rbRows shard)) ErrInvalidShardResult;
  check ((zlen (rbReasonNodes shard) =? reasons) && (zlen (rbReasonEvidenceIDs shard) =? reasons) &&
         (zlen (rbReasonEvidenceStates shard) =? reasons)) ErrInvalidShardResult ;;
  remediations ← ofOption (validShardCSR (rbRemediationOffsets shard) (zlen (rbRemediationIDs shard)) (rbRows shard)) ErrInvalidShardResult;
  requirements ← ofOption (addMergeEdges (mtRequirements totals) requirements) ErrInvalidShardResult;
  drivers ← ofOption (addMergeEdges (mtDrivers totals) drivers) ErrInvalidShardResult;
  evidence ← ofOption (addMergeEdges (mtEvidence totals) evidence) ErrInvalidShardResult;
  reasons ← ofOption (addMergeEdges (mtReasons totals) reasons) ErrInvalidShardResult;
  remediations ← ofOption (addMergeEdges (mtRemediations totals) remediations) ErrInvalidShardResult;
  Ok ({| mtRequirements := requirements; mtDrivers := drivers; mtEvidence := evidence; mtReasons := reasons; mtRemediations := remediations |},
      rrEnd range).

Definition rebaseShardOffsets (dst : list Z) (rowStart : Z) (source : list Z) (base : Z) : go (list Z) :=
  for_range (length source) (λ row dst, put_ dst (rowStart + Z.of_nat row) (u32 (base + source !!! row))) dst.

(** [copy(dst[start:end], src)]. *)
Definition copyRows (dst : list Z) (start end_ : Z) (src : list Z) : go (list Z) :=
  window ← slice_ dst start end_;
  let n := Nat.min (length window) (length src) in
  Ok (take (Z.to_nat start) dst ++ take n src ++ drop (Z.to_nat start + n) dst).

(** One iteration of the copying loop. *)
Definition mergeShard (s : rowRange * ResultBatch) (dst : ResultBatch) : go ResultBatch :=
  let '(range, shard) := s in
  let rowStart := rrStart range in
  outcomes ← copyRows (rbOutcomeIDs dst) rowStart (rrEnd range) (rbOutcomeIDs shard);
  requirementOffsets ← rebaseShardOffsets (rbRequirementOffsets dst) rowStart (rbRequirementOffsets shard) (u32 (zlen (rbRequirementIDs dst)));
  driverOffsets ← rebaseShardOffsets (rbDriverOffsets dst) rowStart (rbDriverOffsets shard) (u32 (zlen (rbDriverRequirements dst)));
  evidenceOffsets ← rebaseShardOffsets (rbEvidenceOffsets dst) rowStart (rbEvidenceOffsets shard) (u32 (zlen (rbEvidenceIDs dst)));
  reasonOffsets ← rebaseShardOffsets (rbReasonOffsets dst) rowStart (rbReasonOffsets shard) (u32 (zlen (rbReasonIDs dst)));
  remediationOffsets ← rebaseShardOffsets (rbRemediationOffsets dst) rowStart (rbRemediationOffsets shard) (u32 (zlen (rbRemediationIDs dst)));
  Ok {| rbOutcomeIDs := outcomes;
        rbRequirementOffsets := requirementOffsets; rbRequirementIDs := rbRequirementIDs dst ++ rbRequirementIDs shard;
        rbDriverOffsets := driverOffsets; rbDriverRequirements := rbDriverRequirements dst ++ rbDriverRequirements shard;
        rbDriverClauses := rbDriverClauses dst ++ rbDriverClauses shard; rbDriverNodes := rbDriverNodes dst ++ rbDriverNodes shard;
        rbDriverReasons := rbDriverReasons dst ++ rbDriverReasons shard;
        rbDriverExplanations := rbDriverExplanations dst ++ rbDriverExplanations shard;
        rbEvidenceOffsets := evidenceOffsets; rbEvidenceIDs := rbEvidenceIDs dst ++ rbEvidenceIDs shard;
        rbReasonOffsets := reasonOffsets; rbReasonIDs := rbReasonIDs dst ++ rbReasonIDs shard; rbReasonNodes := rbReasonNodes dst ++ rbReasonNodes shard;
        rbReasonEvidenceIDs := rbReasonEvidenceIDs dst ++ rbReasonEvidenceIDs shard;
        rbReasonEvidenceStates := rbReasonEvidenceStates dst ++ rbReasonEvidenceStates shard;
        rbRemediationOffsets := remediationOffsets; rbRemediationIDs := rbRemediationIDs dst ++ rbRemediationIDs shard;
        rbRows := rbRows dst |}.

(** [mergeResults] into a non-nil destination. *)
Definition mergeResults (shards : list ResultBatch) (ranges : list rowRange) (rows : Z) : go ResultBatch :=
  check (negb (bool_decide (length shards = 0%nat) || negb (bool_decide (length shards = length ranges)))) ErrInvalidShardResult ;;
  '(_, covered) ← fold_go (checkShard rows) (zip ranges shards) (zeroTotals, 0);
  check (covered =? rows) ErrInvalidShardResult ;;
  dst ← Reset rows;
  fold_go mergeShard (zip ranges shards) dst.

(** ** Scheduling (worker.go, scheduler.go) *)

Definition DefaultParallelRows : Z := 256.

(** [desiredShards] of a scheduler with [workers] workers. *)
Definition desiredShards (parallelRows workers rows : Z) : Z :=
  let threshold := if parallelRows =? 0 then DefaultParallelRows else parallelRows in
  if (rows =? 0) || (threshold =? 0) || (rows <? threshold) then 1 else
  let words := Z.shiftr (u64 (rows + 63)) 6 in
  if words <? workers then words else workers.

Section scheduler.
Context {ops : SimdOps} (programs : Z → Program).

(** The evaluation of one shard on a leased executor; [scratch] is the lease's
    evidence-offset buffer, cut to one entry per row plus one. *)
Definition executeShard (addr : Z) (batch : Batch) (range : rowRange) (scratch : list Z) : ex ResultBatch :=
  if (rrStart range =? 0) && (rrEnd range =? Rows batch) then Execute programs addr batch
  else ExecuteRange programs addr batch (rrStart range) (rrEnd range) (take (Z.to_nat (rrEnd range - rrStart range + 1)) scratch).

(** Shards write disjoint result slots; the first failed shard decides the error. *)
Fixpoint runShards (addr : Z) (batch : Batch) (ranges : list rowRange) (leases : list (Executor * list Z)) : go (list ResultBatch) :=
  match ranges, leases with
  | range :: ranges, (e, scratch) :: leases =>
    out ← (executeShard addr batch range scratch e).1;
    outs ← runShards addr batch ranges leases;
    Ok (out :: outs)
  | _, _ => Ok []
  end.

(** An admitted [Scheduler.Execute] that acquired [acquired] work tokens. *)
Definition schedulerExecute (addr : Z) (batch : Batch) (workers : nat) (acquired : Z) (leases : list (Executor * list Z)) : go ResultBatch :=
  let ranges := partitionRows workers (Rows batch) acquired in
  results ← runShards addr batch ranges leases;
  mergeResults results ranges (Rows batch).
End scheduler.

(** ** The ranges tile the batch *)

(** [ranges] continue at [c], are word aligned and end at [rows]. *)
Fixpoint tiles (c : Z) (ranges : list rowRange) (rows : Z) : Prop :=
  match ranges with
  | [] => c = rows
  | range :: rest =>
    rrStart range = c ∧ c ≤ rrEnd range ≤ rows ∧ c mod 64 = 0 ∧ (rrEnd range mod 64 = 0 ∨ rrEnd range = rows) ∧ tiles (rrEnd range) rest rows
  end.

Section partition.
Context (rows count : Z) (Hrows : is_u32 rows).
Local Abbreviation words := (WordCount rows).
Context (Hcount : 1 ≤ count ∧ (count ≤ words ∨ words = 0 ∧ count = 1)).

(** The first word of shard [k]. *)
Definition shardWord (k : Z) : Z := k * (words / count) + Z.min k (words mod count).
Definition shardEnd (k : Z) : Z := Z.min rows (64 * shardWord k).
Definition shardRange (k : nat) : rowRange := {| rrStart := shardEnd (Z.of_nat k); rrEnd := shardEnd (Z.of_nat k + 1) |}.

Lemma shardWord_bounds k : 0 ≤ k ≤ count → 0 ≤ shardWord k ≤ words ∧ (k < count → shardWord k < words ∨ words = 0) ∧
  shardWord k ≤ shardWord (k + 1) ∧ shardWord count = words.
Proof.
  intros Hk. destruct (WordCount_bounds rows Hrows) as (Hw & _). unfold shardWord.
  pose proof (Z.div_mod words count ltac:(lia)) as Hdm. pose proof (Z.mod_pos_bound words count ltac:(lia)) as Hm.
  pose proof (Z.div_pos words count ltac:(lia) ltac:(lia)) as Hq. set (q := words / count) in *. set (m := words mod count) in *.
  assert (k * q ≤ count * q) by nia. assert ((k + 1) * q = k * q + q) by ring.
  split; [nia|]. split; [|split; [lia|nia]].
  intros Hlt. destruct (decide (words = 0)) as [|Hne]; [by right|left]. assert (count ≤ words) by lia.
  assert (k * q + q ≤ count * q) by nia. assert (1 ≤ q) by (apply Z.div_le_lower_bound; lia). lia.
Qed.

Lemma shardEnd_inner k : 0 ≤ k < count → shardEnd k = 64 * shardWord k.
Proof.
  intros Hk. unfold shardEnd. destruct (WordCount_bounds rows Hrows) as (Hw & Hge & Hlt). destruct (shardWord_bounds k ltac:(lia)) as (Hb & Hs & _).
  destruct (Hs ltac:(lia)) as [?|E]; [lia|]. unfold is_u32 in Hrows. lia.
Qed.

Lemma shardEnd_last : shardEnd count = rows.
Proof.
  unfold shardEnd. destruct (WordCount_bounds rows Hrows) as (Hw & Hge & Hlt). destruct (shardWord_bounds count ltac:(lia)) as (_ & _ & _ & ->). lia.
Qed.

Lemma partition_fold k : (k ≤ Z.to_nat count)%nat →
  foldl (λ st shard, partitionStep rows (words / count) (words mod count) shard st) ([], 0) (seq 0 k) =
    (map shardRange (seq 0 k), shardWord (Z.of_nat k)).
Proof.
  induction k as [|k IH]; intros Hk.
  { unfold shardWord. pose proof (Z.mod_pos_bound words count ltac:(lia)). simpl. f_equal. lia. }
  rewrite seq_S, foldl_app, IH, map_app by lia. simpl.
  assert (shardWord (Z.of_nat k) + (if Z.of_nat k <? words mod count then words / count + 1 else words / count) = shardWord (Z.of_nat k + 1)) as Hstep.
  { unfold shardWord. destruct (Z.ltb_spec (Z.of_nat k) (words mod count)); lia. }
  rewrite Hstep. replace (Z.of_nat (S k)) with (Z.of_nat k + 1) by lia. do 4 f_equal.
  destruct (shardWord_bounds (Z.of_nat k) ltac:(lia)) as (Hb & _). destruct (shardWord_bounds (Z.of_nat k + 1) ltac:(lia)) as (Hb' & _).
  destruct (WordCount_bounds rows Hrows) as (Hw & Hge & Hlt). unfold is_u32 in Hrows.
  unfold shardRange. rewrite !Z.shiftl_mul_pow2 by lia. change (2 ^ 6) with 64. f_equal.
  - rewrite shardEnd_inner by lia. rewrite u32_small; [lia|]. unfold is_u32. pose proof (shardEnd_inner (Z.of_nat k) ltac:(lia)).
    unfold shardEnd in *. lia.
  - unfold shardEnd. destruct (Z.ltb_spec rows (shardWord (Z.of_nat k + 1) * 64)); rewrite u32_small by (unfold is_u32; lia); lia.
Qed.

Lemma shardRanges_tile m k : (k + m = Z.to_nat count)%nat → tiles (shardEnd (Z.of_nat k)) (map shardRange (seq k m)) rows.
Proof.
  revert k. induction m as [|m IH]; intros k Hk; simpl.
  { replace (Z.of_nat k) with count by lia. apply shardEnd_last. }
  replace (Z.of_nat k + 1) with (Z.of_nat (S k)) by lia.
  destruct (shardWord_bounds (Z.of_nat k) ltac:(lia)) as (_ & _ & Hle & _). replace (Z.of_nat k + 1) with (Z.of_nat (S k)) in Hle by lia.
  split; [done|]. split; [unfold shardEnd; lia|]. split; [rewrite shardEnd_inner by lia; rewrite Z.mul_comm; apply Z.mod_mul; lia|]. split.
  - destruct (decide (Z.of_nat (S k) < count)).
    + left. rewrite shardEnd_inner by lia. rewrite Z.mul_comm. apply Z.mod_mul. lia.
    + right. replace (Z.of_nat (S k)) with count by lia. apply shardEnd_last.
  - apply IH. lia.
Qed.
End partition.

Lemma partitionCount_ok dstLen rows shards : is_u32 rows → dstLen ≠ 0%nat →
  let count := partitionCount dstLen rows shards in
  (1 ≤ count ∧ (count ≤ WordCount rows ∨ WordCount rows = 0 ∧ count = 1)) ∧ count ≤ Z.of_nat dstLen ∧
  (1 ≤ shards ≤ Z.of_nat dstLen → shards ≤ Z.max 1 (WordCount rows) → count = shards).
Proof.
  intros Hr Hd. unfold partitionCount. change (Z.shiftr (u64 (rows + 63)) 6) with (WordCount rows).
  destruct (WordCount_bounds rows Hr) as (Hw & _).
  set (c := if shards <? 1 then 1 else shards). assert (1 ≤ c ∧ (1 ≤ shards → c = shards)) as Hc by (unfold c; destruct (Z.ltb_spec shards 1); lia).
  set (d := if Z.of_nat dstLen <? c then Z.of_nat dstLen else c).
  assert (1 ≤ d ≤ Z.of_nat dstLen ∧ (c ≤ Z.of_nat dstLen → d = c)) as Hdd by (unfold d; destruct (Z.ltb_spec (Z.of_nat dstLen) c); lia).
  clearbody c d. destruct (Z.eqb_spec (WordCount rows) 0); [lia|]. destruct (Z.ltb_spec (WordCount rows) d); lia.
Qed.

Lemma partitionRows_ok dstLen rows shards : is_u32 rows → dstLen ≠ 0%nat →
  let ranges := partitionRows dstLen rows shards in
  tiles 0 ranges rows ∧ length ranges = Z.to_nat (partitionCount dstLen rows shards).
Proof.
  intros Hr Hd. destruct (partitionCount_ok dstLen rows shards Hr Hd) as [Hc _]. unfold partitionRows. rewrite bool_decide_eq_false_2 by done.
  change (Z.shiftr (u64 (rows + 63)) 6) with (WordCount rows). cbv zeta. rewrite (partition_fold rows _ Hr Hc) by lia. simpl.
  rewrite length_map, length_seq. split; [|done].
  pose proof (shardRanges_tile rows _ Hr Hc (Z.to_nat (partitionCount dstLen rows shards)) 0 ltac:(lia)) as Ht.
  replace (shardEnd rows (partitionCount dstLen rows shards) (Z.of_nat 0)) with 0 in Ht; [done|].
  rewrite shardEnd_inner by (done || lia). unfold shardWord. pose proof (Z.mod_pos_bound (WordCount rows) (partitionCount dstLen rows shards) ltac:(lia)). lia.
Qed.

Lemma desiredShards_pos parallelRows workers rows : is_u32 rows → 1 ≤ workers → 1 ≤ desiredShards parallelRows workers rows.
Proof.
  intros Hu Hw. unfold desiredShards. destruct (Z.eqb_spec rows 0); simpl; [lia|]. destruct (_ || _); [lia|].
  change (Z.shiftr (u64 (rows + 63)) 6) with (WordCount rows). destruct (WordCount_bounds rows Hu) as (? & ? & ?). unfold is_u32 in Hu.
  destruct (Z.ltb_spec (WordCount rows) workers); lia.
Qed.

Lemma desiredShards_le parallelRows workers rows : 1 ≤ workers → desiredShards parallelRows workers rows ≤ workers.
Proof. intros Hw. unfold desiredShards. destruct (_ || _); [done|]. destruct (Z.ltb_spec (Z.shiftr (u64 (rows + 63)) 6) workers); lia. Qed.

(** One range per acquired token. *)
Lemma acquired_ranges workers rows acquired parallelRows :
  is_u32 rows → workers ≠ 0%nat → 1 ≤ acquired ≤ desiredShards parallelRows (Z.of_nat workers) rows →
  zlen (partitionRows workers rows acquired) = acquired.
Proof.
  intros Hu Hw Ha. destruct (partitionRows_ok workers rows acquired Hu Hw) as [_ Hl].
  destruct (partitionCount_ok workers rows acquired Hu Hw) as (Hc & Hle & Heq). rewrite Hl. rewrite Heq; [lia| |].
  - unfold desiredShards in Ha. destruct (_ || _); [lia|]. destruct (Z.ltb_spec (Z.shiftr (u64 (rows + 63)) 6) (Z.of_nat workers)); lia.
  - unfold desiredShards in Ha. change (Z.shiftr (u64 (rows + 63)) 6) with (WordCount rows) in Ha.
    destruct (_ || _); [lia|]. destruct (Z.ltb_spec (WordCount rows) (Z.of_nat workers)); lia.
Qed.

(** ** Merging appends the encoded rows *)

Lemma validShardCSR_ok n offsets ids : offsetsOk n offsets ids → (Z.of_nat n ≤ MaxUint32) →
  validShardCSR offsets (zlen ids) (Z.of_nat n) = Some (zlen ids).
Proof.
  intros [Hl Hf Hm He] Hn. unfold validShardCSR, MaxUint32, MaxInt in *.
  rewrite (proj2 (Z.ltb_ge 9223372036854775807 _)), (proj2 (Z.eqb_eq (zlen offsets) _)), Hf by lia.
  rewrite bool_decide_eq_false_2 by lia. simpl negb. cbn [orb].
  assert (∀ k, (k ≤ n)%nat → foldl (λ previous offset, match previous with
               | None => None
               | Some previous => if offset <? previous then None else Some offset
               end) (Some 0) (take k (drop 1 offsets)) = Some (offsets !!! k)) as Hk.
  { induction k as [|k IH]; intros Hk; [by rewrite Hf|].
    rewrite (take_S_r _ _ (offsets !!! S k)), foldl_app, IH by (lia || (rewrite lookup_drop; apply list_lookup_lookup_total_lt; lia)).
    simpl. rewrite (proj2 (Z.ltb_ge (offsets !!! S k) (offsets !!! k))) by (apply Hm; lia). done. }
  specialize (Hk n ltac:(lia)). rewrite take_ge in Hk by (rewrite length_drop; lia). rewrite Hk, He. by rewrite Z.eqb_refl.
Qed.

Lemma rebaseShardOffsets_ok dst start source base :
  0 ≤ start → start + zlen source ≤ zlen dst →
  ∃ dst', rebaseShardOffsets dst start source base = Ok dst' ∧ length dst' = length dst ∧
    ∀ i, dst' !!! i = if bool_decide (Z.to_nat start ≤ i < Z.to_nat start + length source)%nat
                      then u32 (base + source !!! (i - Z.to_nat start)%nat) else dst !!! i.
Proof.
  intros Hs Hl. unfold rebaseShardOffsets.
  pose (P := λ (k : nat) (d : list Z), length d = length dst ∧ ∀ i, d !!! i =
    if bool_decide (Z.to_nat start ≤ i < Z.to_nat start + k)%nat then u32 (base + source !!! (i - Z.to_nat start)%nat) else dst !!! i).
  apply (for_range_total P).
  - split; [done|]. intros i. rewrite bool_decide_eq_false_2 by lia. done.
  - intros k d Hk [Hd Hi]. rewrite put_Ok by lia. eexists; split; [done|]. unfold P. rewrite length_insert. split; [done|]. intros i.
    replace (Z.to_nat (start + Z.of_nat k)) with (Z.to_nat start + k)%nat by lia. destruct (decide (i = Z.to_nat start + k)%nat) as [->|Hne].
    + rewrite list_lookup_total_insert_eq by lia. rewrite bool_decide_eq_true_2 by lia. do 3 f_equal. lia.
    + rewrite list_lookup_total_insert_ne by done. rewrite Hi. destruct (decide (Z.to_nat start ≤ i < Z.to_nat start + k)%nat).
      * rewrite !bool_decide_eq_true_2 by lia. done.
      * rewrite !bool_decide_eq_false_2 by lia. done.
Qed.

Lemma u32_add_u32 a b : u32 (u32 a + u32 b) = u32 (a + b).
Proof. unfold u32. symmetry. apply Z.add_mod. lia. Qed.

(** Appending a shard's column: its offsets are rebased by the edges merged so far. *)
Lemma csrOf_append rows n offs ids parts offs' ids' parts' m :
  csrOf rows offs ids parts → csrOf n offs' ids' parts' → length parts' = n → (length parts + n ≤ rows)%nat → m = length ids →
  ∃ out, rebaseShardOffsets offs (zlen parts) offs' (u32 (Z.of_nat m)) = Ok out ∧ csrOf rows out (ids ++ ids') (parts ++ parts').
Proof.
  intros [L1 -> O1] [L2 -> O2] Hn Hle ->.
  destruct (rebaseShardOffsets_ok offs (zlen parts) offs' (u32 (zlen (concat parts)))) as (out & Hout & Hl & Ho); [lia|lia|].
  exists out. split; [done|]. split; [by rewrite Hl|by rewrite concat_app|]. intros k Hk. rewrite length_app in Hk. rewrite Ho, Nat2Z.id.
  destruct (decide (length parts ≤ k)%nat) as [Hge|Hlt].
  - rewrite bool_decide_eq_true_2 by lia. rewrite O2, u32_add_u32 by lia. rewrite take_app, (take_ge parts) by lia. rewrite concat_app, length_app. f_equal. lia.
  - rewrite bool_decide_eq_false_2 by lia. rewrite O1, take_app_le by lia. done.
Qed.

Lemma copyRows_ok dst start end_ src : 0 ≤ start → start + zlen src = end_ → end_ ≤ zlen dst →
  ∃ out, copyRows dst start end_ src = Ok out ∧ length out = length dst ∧
    ∀ i, out !!! i = if bool_decide (Z.to_nat start ≤ i < Z.to_nat end_)%nat then src !!! (i - Z.to_nat start)%nat else dst !!! i.
Proof.
  intros Hs He Hd. unfold copyRows, slice_. rewrite !(proj2 (Z.leb_le _ _)) by lia. cbn [andb].
  rewrite go_bind_Ok, length_take, length_drop. replace (Nat.min (Nat.min _ _) (length src)) with (length src) by lia.
  eexists; split; [done|]. rewrite (take_ge src) by lia. split; [rewrite !length_app, length_take, length_drop; lia|]. intros i.
  rewrite !list_lookup_total_alt. f_equal. destruct (decide (i < Z.to_nat start)%nat).
  - rewrite bool_decide_eq_false_2 by lia. rewrite lookup_app_l by (rewrite length_take; lia). rewrite lookup_take_lt by lia. by rewrite <-list_lookup_total_alt.
  - rewrite lookup_app_r by (rewrite length_take; lia). rewrite length_take. replace (i - Nat.min (Z.to_nat start) (length dst))%nat with (i - Z.to_nat start)%nat by lia.
    destruct (decide (i < Z.to_nat end_)%nat).
    + rewrite bool_decide_eq_true_2 by lia. rewrite lookup_app_l by lia. by rewrite <-list_lookup_total_alt.
    + rewrite bool_decide_eq_false_2 by lia. rewrite lookup_app_r, lookup_drop by lia. by replace (Z.to_nat start + length src + (i - Z.to_nat start - length src))%nat with i by lia.
Qed.

(** What [mergeResults] needs of one shard. *)
Record shardOf (s : rowRange * ResultBatch) (outs : list rowOut) : Prop := {
  so_count : zlen outs = rrEnd s.1 - rrStart s.1;
  so_encodes : encodes (length outs) outs s.2
}.

(** The edges of the merged rows, and that they fit 32-bit offsets. *)
Definition columnTotals (outs : list rowOut) : mergeTotals :=
  {| mtRequirements := zlen (concat (map roIDs outs)); mtDrivers := zlen (concat (map (driverPart ocNode) outs));
     mtEvidence := zlen (concat (map roEvidence outs)); mtReasons := zlen (concat (map (reasonPart (λ t, t.1.1.1)) outs));
     mtRemediations := zlen (concat (map remediationPart outs)) |}.

Record fits (t : mergeTotals) : Prop := {
  ft_requirements : mtRequirements t ≤ MaxUint32; ft_drivers : mtDrivers t ≤ MaxUint32; ft_evidence : mtEvidence t ≤ MaxUint32;
  ft_reasons : mtReasons t ≤ MaxUint32; ft_remediations : mtRemediations t ≤ MaxUint32
}.

Lemma zlen_concat_map_app {A} (f : A → list Z) l k : zlen (concat (map f (l ++ k))) = zlen (concat (map f l)) + zlen (concat (map f k)).
Proof. rewrite map_app, concat_app, length_app. lia. Qed.

Lemma length_concat_map {A} (f g : A → list Z) l : (∀ x, length (f x) = length (g x)) → length (concat (map f l)) = length (concat (map g l)).
Proof. intros Hfg. induction l as [|x l IH]; [done|]. simpl. rewrite !length_app. by rewrite Hfg, IH. Qed.

Lemma length_driverPart f g o : length (driverPart f o) = length (driverPart g o).
Proof. unfold driverPart. by destruct (_ =? 0). Qed.

Lemma length_reasonPart f g o : length (reasonPart f o) = length (reasonPart g o).
Proof. unfold reasonPart. by rewrite !length_map. Qed.

Lemma addMergeEdges_ok a b : 0 ≤ a → 0 ≤ b → a + b ≤ MaxUint32 → addMergeEdges a b = Some (a + b).
Proof.
  intros Ha Hb Hab. unfold addMergeEdges. change mergeEdgeLimit with MaxUint32.
  by rewrite (proj2 (Z.ltb_ge MaxUint32 a)), (proj2 (Z.ltb_ge (MaxUint32 - a) b)) by lia.
Qed.

Lemma encodes_csr n (outs : list rowOut) dst (f : rowOut → list Z) offs ids : csrOf n offs ids (map f outs) → length outs = n → zlen (concat (map f outs)) ≤ MaxUint32 →
  Z.of_nat n ≤ MaxUint32 → rbRows dst = Z.of_nat n → validShardCSR offs (zlen ids) (rbRows dst) = Some (zlen (concat (map f outs))).
Proof.
  intros Hc Hl Hmax Hn ->. rewrite <-(cs_ids _ _ _ _ Hc). apply validShardCSR_ok; [|done].
  eapply csrOf_offsets; [done|by rewrite length_map|done].
Qed.

Lemma checkShard_ok rows s outs outs' :
  shardOf s outs' → rrStart s.1 = zlen outs → rrEnd s.1 ≤ rows → rows ≤ MaxUint32 → fits (columnTotals (outs ++ outs')) →
  checkShard rows s (columnTotals outs, zlen outs) = Ok (columnTotals (outs ++ outs'), rrEnd s.1).
Proof.
  destruct s as [range shard]. cbn [fst snd]. intros [Hcount Henc] Hstart Hend Hrows [F1 F2 F3 F4 F5]. simpl in Hcount, Henc, F1, F2, F3, F4, F5.
  rewrite !zlen_concat_map_app in F1, F2, F3, F4, F5. unfold checkShard. pose proof (en_rows _ _ _ Henc) as Hn.
  destruct (en_outcomes _ _ _ Henc) as [Hol _]. assert (zlen outs' ≤ MaxUint32) as Hmax by lia. unfold MaxUint32 in Hrows.
  rewrite Hstart, Z.eqb_refl, (proj2 (Z.ltb_ge (rrEnd range) (zlen outs))), (proj2 (Z.ltb_ge rows (rrEnd range))) by lia.
  rewrite u64_small by (unfold is_u64; lia). rewrite (proj2 (Z.eqb_eq _ (rbRows shard))), (proj2 (Z.eqb_eq _ (rbRows shard))) by lia. simpl negb. cbn [orb check].
  rewrite go_bind_Ok. assert (∀ f, zlen (concat (map (driverPart f) outs')) = zlen (concat (map (driverPart ocNode) outs'))) as Hd.
  { intros f. f_equal. apply length_concat_map. intros o. apply length_driverPart. }
  assert (∀ f, zlen (concat (map (reasonPart f) outs')) = zlen (concat (map (reasonPart (λ t, t.1.1.1)) outs'))) as Hr.
  { intros f. f_equal. apply length_concat_map. intros o. apply length_reasonPart. }
  rewrite (encodes_csr _ outs' shard roIDs _ _ (en_requirements _ _ _ Henc)) by (done || lia). cbn [ofOption]. rewrite go_bind_Ok.
  rewrite (encodes_csr _ outs' shard (driverPart ocRequirement) _ _ (encodes_drivers _ _ _ _ _ Henc (en_driver_requirements _ _ _ Henc)))
    by (done || (rewrite ?Hd; lia)).
  cbn [ofOption]. rewrite go_bind_Ok.
  rewrite (en_driver_clauses _ _ _ Henc), (cs_ids _ _ _ _ (en_drivers _ _ _ Henc)), (en_driver_reasons _ _ _ Henc), (en_driver_explanations _ _ _ Henc).
  rewrite (Hd ocRequirement), (Hd ocClause), (Hd ocDriverReason), (Hd ocExplanation), !Z.eqb_refl. cbn [andb check]. rewrite go_bind_Ok.
  rewrite (encodes_csr _ outs' shard roEvidence _ _ (en_evidence _ _ _ Henc)) by (done || lia). cbn [ofOption]. rewrite go_bind_Ok.
  rewrite (encodes_csr _ outs' shard (reasonPart (λ t, t.1.1.1)) _ _ (en_reasons _ _ _ Henc)) by (done || lia). cbn [ofOption]. rewrite go_bind_Ok.
  rewrite (en_reason_nodes _ _ _ Henc), (en_reason_evidence _ _ _ Henc), (en_reason_states _ _ _ Henc).
  rewrite (Hr (λ t, t.1.1.2)), (Hr (λ t, t.1.2)), (Hr snd), !Z.eqb_refl. cbn [andb check]. rewrite go_bind_Ok.
  rewrite (encodes_csr _ outs' shard remediationPart _ _ (en_remediations _ _ _ Henc)) by (done || lia). cbn [ofOption]. rewrite go_bind_Ok.
  rewrite !addMergeEdges_ok by (simpl; lia). cbn [ofOption]. rewrite !go_bind_Ok. unfold columnTotals. by rewrite !zlen_concat_map_app.
Qed.

Lemma mergeShard_ok rows s dst outs outs' :
  encodes rows outs dst → shardOf s outs' → rrStart s.1 = zlen outs → (length outs + length outs' ≤ rows)%nat →
  ∃ dst', mergeShard s dst = Ok dst' ∧ encodes rows (outs ++ outs') dst'.
Proof.
  destruct s as [range shard]. cbn [fst snd]. intros Hdst [Hcount Hsh] Hstart Hle. simpl in Hcount, Hsh.
  destruct (en_outcomes _ _ _ Hdst) as [Hl Ho]. destruct (en_outcomes _ _ _ Hsh) as [Hl' Ho'].
  assert (∀ f offs ids offs' ids' m, csrOf rows offs ids (map f outs) → csrOf (length outs') offs' ids' (map f outs') → m = length ids →
    ∃ out, rebaseShardOffsets offs (zlen outs) offs' (u32 (Z.of_nat m)) = Ok out ∧ csrOf rows out (ids ++ ids') (map f (outs ++ outs'))) as Happ.
  { intros f offs ids offs' ids' m H1 H2 Hm. rewrite map_app, <-(length_map f outs). apply (csrOf_append rows (length outs')); rewrite ?length_map; done. }
  destruct (copyRows_ok (rbOutcomeIDs dst) (zlen outs) (rrEnd range) (rbOutcomeIDs shard)) as (oc & Hoc & Hocl & Hoci); [lia|lia|lia|].
  destruct (Happ roIDs _ _ _ _ _ (en_requirements _ _ _ Hdst) (en_requirements _ _ _ Hsh) eq_refl) as (o1 & E1 & C1).
  destruct (Happ (driverPart ocNode) _ _ _ _ (length (rbDriverRequirements dst)) (en_drivers _ _ _ Hdst) (en_drivers _ _ _ Hsh)) as (o2 & E2 & C2).
  { rewrite (en_driver_requirements _ _ _ Hdst), (cs_ids _ _ _ _ (en_drivers _ _ _ Hdst)). apply length_concat_map. intros o. apply length_driverPart. }
  destruct (Happ roEvidence _ _ _ _ _ (en_evidence _ _ _ Hdst) (en_evidence _ _ _ Hsh) eq_refl) as (o3 & E3 & C3).
  destruct (Happ (reasonPart (λ t, t.1.1.1)) _ _ _ _ _ (en_reasons _ _ _ Hdst) (en_reasons _ _ _ Hsh) eq_refl) as (o4 & E4 & C4).
  destruct (Happ remediationPart _ _ _ _ _ (en_remediations _ _ _ Hdst) (en_remediations _ _ _ Hsh) eq_refl) as (o5 & E5 & C5).
  unfold mergeShard. rewrite Hstart, Hoc, go_bind_Ok, E1, go_bind_Ok, E2, go_bind_Ok, E3, go_bind_Ok, E4, go_bind_Ok, E5, go_bind_Ok.
  eexists; split; [done|].
  destruct Hdst as [_ _ D1 D2 _ D3 D4 _ _ D5 D6 D7 _ D8]. destruct Hsh as [_ _ S1 S2 _ S3 S4 _ _ S5 S6 S7 _ _].
  split; simpl; rewrite ?map_app, ?concat_app; try done; try (by f_equal).
  - split; [by rewrite Hocl|]. intros r Hr. rewrite Hoci, Nat2Z.id, length_app. destruct (decide (r < length outs)%nat).
    + rewrite bool_decide_eq_false_2, decide_True by lia. rewrite Ho, decide_True, lookup_total_app_l by lia. done.
    + destruct (decide (r < length outs + length outs')%nat).
      * rewrite bool_decide_eq_true_2, Ho', decide_True, lookup_total_app_r by lia. done.
      * rewrite bool_decide_eq_false_2, Ho, decide_False by lia. done.
  - by rewrite <-map_app.
  - by rewrite <-map_app.
  - by rewrite <-map_app.
  - by rewrite <-map_app.
  - by rewrite <-map_app.
Qed.

Lemma fits_app outs k : fits (columnTotals (outs ++ k)) → fits (columnTotals outs).
Proof. intros [F1 F2 F3 F4 F5]. simpl in *. rewrite zlen_concat_map_app in F1, F2, F3, F4, F5. split; simpl; lia. Qed.

(** Reference rows of a batch whose sizes were checked. *)
Lemma rows_fit p b outs : is_u32 (Rows b) → sizes_ok p b → length outs = Z.to_nat (Rows b) → (usesEvidence p = true → evidence_ok b p) →
  (∀ r, (r < Z.to_nat (Rows b))%nat → rowRef p b (programReasons p) r (outs !!! r)) → fits (columnTotals outs).
Proof.
  intros. split; simpl.
  - by apply (total_requirements p b (programReasons p)).
  - by apply (total_drivers p b (programReasons p)).
  - by apply (total_evidence p b (programReasons p)).
  - by apply (total_reasons p b (programReasons p)).
  - by apply (total_remediations p b (programReasons p)).
Qed.

Lemma shards_fold rows ss outss : Forall2 shardOf ss outss → ∀ outs dst,
  tiles (zlen outs) (map fst ss) (Z.of_nat rows) → Z.of_nat rows ≤ MaxUint32 → fits (columnTotals (outs ++ concat outss)) → encodes rows outs dst →
  fold_go (checkShard (Z.of_nat rows)) ss (columnTotals outs, zlen outs) = Ok (columnTotals (outs ++ concat outss), Z.of_nat rows) ∧
  ∃ dst', fold_go mergeShard ss dst = Ok dst' ∧ encodes rows (outs ++ concat outss) dst'.
Proof.
  induction 1 as [|s outs' ss outss Hs Hss IH]; intros outs dst Ht Hmax Hfit Henc; simpl in *.
  { rewrite app_nil_r. split; [by rewrite Ht|by exists dst]. }
  destruct Ht as (Hstart & Hle & _ & _ & Ht). pose proof (so_count _ _ Hs) as Hc. rewrite app_assoc in Hfit.
  rewrite (checkShard_ok (Z.of_nat rows) s outs outs') by (done || lia || by eapply fits_app). rewrite go_bind_Ok.
  destruct (mergeShard_ok rows s dst outs outs' Henc Hs Hstart ltac:(lia)) as (dst' & -> & Henc'). rewrite go_bind_Ok.
  replace (rrEnd s.1) with (zlen (outs ++ outs')) in * by (rewrite length_app; lia). rewrite app_assoc. by apply IH.
Qed.

Lemma mergeResults_ok shards ranges rows outss :
  length shards = length ranges → shards ≠ [] → tiles 0 ranges (Z.of_nat rows) → is_u32 (Z.of_nat rows) →
  Forall2 shardOf (zip ranges shards) outss → fits (columnTotals (concat outss)) →
  ∃ out, mergeResults shards ranges (Z.of_nat rows) = Ok out ∧ encodes rows (concat outss) out.
Proof.
  intros Hlen Hne Ht Hu Hall Hfit. unfold mergeResults. rewrite bool_decide_eq_false_2 by (by destruct shards).
  rewrite bool_decide_eq_true_2 by done. simpl negb. cbn [orb check]. rewrite go_bind_Ok.
  destruct (Reset_total (Z.of_nat rows) Hu) as [dst Hdst]. pose proof (Reset_encodes rows dst Hdst) as Henc.
  destruct (shards_fold rows (zip ranges shards) outss Hall [] dst) as (Hc & out & Hm & Hout); [|unfold is_u32, MaxUint32 in *; lia|done|done|].
  { by rewrite fst_zip by lia. }
  change (columnTotals []) with zeroTotals in Hc. change (zlen []) with 0 in Hc. rewrite Hc, go_bind_Ok, Z.eqb_refl. cbn [check].
  rewrite go_bind_Ok, Hdst, go_bind_Ok. by exists out.
Qed.

(** ** Every shard runs *)

Section shards.
Context {ops : SimdOps} {laws : SimdLaws ops} (programs : Z → Program) (addr : Z) (b : Batch).
Local Abbreviation p := (programs addr).
Context (Hwf : program_wf p) (Hin : input_typed b) (Hv : validExecutionSemantics p = Ok true).
Context (Hvb : validBoundPolicy (ApplicabilityIndex p) = true) (Hacc : accepts p b).
Context (Hsource : rowStride b = 0 ∧ rowBase b = 0).

(** A consistent executor with room for the range's evidence offsets. *)
Definition leaseOk (range : rowRange) (lease : Executor * list Z) : Prop :=
  executor_ok programs lease.1 ∧ rrEnd range - rrStart range + 1 ≤ zlen lease.2.

Lemma executeShard_ok range lease c :
  leaseOk range lease → 0 ≤ c → rrStart range = c → c ≤ rrEnd range ≤ Rows b → c mod 64 = 0 → rrEnd range mod 64 = 0 ∨ rrEnd range = Rows b →
  ∃ out outs, (executeShard programs addr b range lease.2 lease.1).1 = Ok out ∧
    rowsFrom p b (Z.to_nat c) (Z.to_nat (rrEnd range - c)) outs out.
Proof.
  intros [He Hl] Hc Hs Hb Ha Hae. unfold executeShard. rewrite Hs.
  destruct ((c =? 0) && (rrEnd range =? Rows b)) eqn:Ew.
  - apply andb_true_iff in Ew as [->%Z.eqb_eq ->%Z.eqb_eq].
    destruct (executes programs lease.1 addr b executionAuto He Hwf Hin Hv Hvb Hacc) as (out & e' & outs & Hrun & _ & Href).
    exists out, outs. unfold Execute. rewrite Hrun. split; [done|]. rewrite Z.sub_0_r. split; apply Href.
  - destruct (executeRange_rows programs lease.1 addr b c (rrEnd range) (take (Z.to_nat (rrEnd range - c + 1)) lease.2) executionAuto)
      as (v & out & e' & outs & Hrun & _ & _ & _ & _ & Hrows); try done; try (by destruct Hsource); try lia.
    { rewrite length_take. lia. }
    exists out, outs. unfold ExecuteRange. by rewrite Hrun.
Qed.

Lemma runShards_ok ranges leases c :
  Forall2 leaseOk ranges leases → 0 ≤ c → tiles c ranges (Rows b) →
  ∃ results outss, runShards programs addr b ranges leases = Ok results ∧ length results = length ranges ∧
    Forall2 shardOf (zip ranges results) outss ∧
    zlen (concat outss) = Rows b - c ∧
    ∀ r, (r < length (concat outss))%nat → rowRef p b (programReasons p) (Z.to_nat c + r) (concat outss !!! r).
Proof.
  intros Hall. revert c. induction Hall as [|range lease ranges leases Hlease Hall IH]; intros c Hc Ht; simpl in Ht.
  { exists [], []. split; [done|]. split; [done|]. split; [constructor|]. simpl. split; [lia|]. intros r Hr. lia. }
  destruct Ht as (Hstart & Hend & Ha & Hae & Ht).
  destruct (executeShard_ok range lease c Hlease Hc Hstart Hend Ha Hae) as (out & outs & Hout & Hrows).
  destruct (IH (rrEnd range) ltac:(lia) Ht) as (results & outss & Hrun & Hlen & Hsh & Htot & Href).
  pose proof (rw_length _ _ _ _ _ _ Hrows) as Hl. exists (out :: results), (outs :: outss). simpl. destruct lease as [e scratch].
  cbn [fst snd] in Hout. rewrite Hout, go_bind_Ok, Hrun, go_bind_Ok. split; [done|]. split; [by rewrite Hlen|]. split; [|split].
  - constructor; [|done]. split; simpl; [lia|]. rewrite Hl. apply Hrows.
  - rewrite length_app. lia.
  - intros r Hr. rewrite length_app in Hr. destruct (decide (r < length outs)%nat).
    + rewrite lookup_total_app_l by done. apply (rw_rows _ _ _ _ _ _ Hrows). lia.
    + rewrite lookup_total_app_r by lia. specialize (Href (r - length outs)%nat ltac:(lia)).
      by replace (Z.to_nat (rrEnd range) + (r - length outs))%nat with (Z.to_nat c + r)%nat in Href by lia.
Qed.

Lemma schedulerExecute_ok workers acquired leases :
  workers ≠ 0%nat → Forall2 leaseOk (partitionRows workers (Rows b) acquired) leases →
  ∃ out outs, schedulerExecute programs addr b workers acquired leases = Ok out ∧ referenceResult p b outs out.
Proof.
  intros Hw Hleases. pose proof (bt_rows _ (it_batch _ Hin)) as Hu. unfold is_u32 in Hu.
  destruct (partitionRows_ok workers (Rows b) acquired Hu Hw) as [Ht Hcount]. destruct (partitionCount_ok workers (Rows b) acquired Hu Hw) as [Hc _].
  destruct (runShards_ok _ leases 0 Hleases ltac:(lia) Ht) as (results & outss & Hrun & Hlen & Hsh & Htot & Href).
  assert (usesEvidence p = true → evidence_ok b p) as Hev.
  { intros Hue. destruct Hacc as (_ & Hevb & _). rewrite Hue in Hevb. apply validEvidenceBatch_ok; [apply Hin|done]. }
  assert (sizes_ok p b) as Hsz.
  { destruct Hacc as (_ & _ & [[t r] Hsizes]). pose proof (executionSizes_ok p b (pg_sched _ (pw_typed _ Hwf)) Hu) as Hx. rewrite Hsizes in Hx. apply Hx. }
  assert (length (concat outss) = Z.to_nat (Rows b)) as Hl by lia.
  assert (∀ r, (r < Z.to_nat (Rows b))%nat → rowRef p b (programReasons p) r (concat outss !!! r)) as Hrows.
  { intros r Hr. apply (Href r). lia. }
  destruct (mergeResults_ok results (partitionRows workers (Rows b) acquired) (Z.to_nat (Rows b)) outss) as (out & Hm & Henc).
  - done.
  - intros ->. simpl in Hlen. lia.
  - rewrite Z2Nat.id by lia. done.
  - rewrite Z2Nat.id by lia. done.
  - done.
  - by apply (rows_fit p b).
  - exists out, (concat outss). unfold schedulerExecute. rewrite Hrun, go_bind_Ok. rewrite Z2Nat.id in Hm by lia. split; [done|]. by split.
Qed.
End shards.

(** ** Properties *)

(** The row ranges handed to the workers partition the batch for every batch
    size and worker count: they are consecutive from row 0 to the last row, start on
    64-row boundaries, and there is exactly one range per acquired work token, so
    no acquired token is lost and no row is evaluated twice or not at all. *)
Theorem partition_tiles_batch (workers : nat) (rows acquired parallelRows : Z) :
  is_u32 rows → workers ≠ 0%nat → 1 ≤ acquired ≤ desiredShards parallelRows (Z.of_nat workers) rows →
  tiles 0 (partitionRows workers rows acquired) rows ∧ zlen (partitionRows workers rows acquired) = acquired.
Proof.
  intros Hu Hw Ha. split; [by apply partitionRows_ok|]. by apply acquired_ranges with parallelRows.
Qed.


(** C5: sharded execution is serial execution: on an accepted batch, any number of
    acquired tokens and any consistent leased executors, the scheduler's result has
    the same outcome, requirement, driver, reason and evidence columns as one
    serial [Execute] of the whole batch, and both succeed. *)
Theorem sharded_execution_is_serial {ops : SimdOps} {laws : SimdLaws ops} (programs : Z → Program) (addr : Z) (b : Batch)
    (workers : nat) (acquired : Z) (leases : list (Executor * list Z)) (e : Executor) :
  let p := programs addr in
  program_wf p → input_typed b → validExecutionSemantics p = Ok true → validBoundPolicy (ApplicabilityIndex p) = true → accepts p b →
  rowStride b = 0 ∧ rowBase b = 0 → workers ≠ 0%nat → Forall2 (leaseOk programs) (partitionRows workers (Rows b) acquired) leases →
  executor_ok programs e →
  ∃ sharded serial e', schedulerExecute programs addr b workers acquired leases = Ok sharded ∧
    Execute programs addr b e = (Ok serial, e') ∧ sameDecisions sharded serial.
Proof.
  intros p Hwf Hin Hv Hvb Hacc Hsrc Hw Hleases He.
  destruct (schedulerExecute_ok programs addr b Hwf Hin Hv Hvb Hacc Hsrc workers acquired leases Hw Hleases) as (sharded & outs & Hrun & Href).
  destruct (executes programs e addr b executionAuto He Hwf Hin Hv Hvb Hacc) as (serial & e' & outs' & Hser & _ & Href').
  exists sharded, serial, e'. split; [done|]. split; [done|]. by eapply reference_unique.
Qed.
