(* ===== verification/Lease.v ===== *)
(** * Context leases: [internal/scheduler/arena.go] and [context.go]

    A fixed set of worker contexts is lent out through a channel.  Calls of
    [Borrow], [Return], [ClaimOutput] and [Release] run concurrently and use
    atomic loads, stores and compare-and-swap only; this file models every
    atomic access as one step of a thread, so that all interleavings are
    covered.  The theorems show that every context is at all times owned
    exactly once, that no interleaving reaches a panic, that a held lease stays
    valid under single returns, and which interleavings break it otherwise. *)

From S2P Require Import Prelude.

(** ** State *)

Definition contextAvailable : Z := 0.
Definition contextBorrowed : Z := 1.
Definition contextReturning : Z := 2.

(** A worker context: the atomics, the owned buffers and the capacity of
    [evidenceOffsets].  The result batch, executor, builder and decoder are
    owned storage handed out by accessors and are not part of the protocol. *)
Record Context := {
  generation : Z;
  state : Z;
  outputClaim : Z;
  input : list Z;
  output : list Z;
  offsetsCap : Z
}.

#[global] Instance Context_inhabited : Inhabited Context :=
  populate {| generation := 0; state := 0; outputClaim := 0; input := []; output := []; offsetsCap := 0 |}.

Record Arena := { arenaID : Z; available : list nat; contexts : list Context }.

Record Lease := { lArena : option Z; lContext : option nat; lGeneration : Z }.
Record OutputLease := { oContext : option nat; oGeneration : Z; oClaim : Z }.

#[global] Instance Lease_eq_dec : EqDecision Lease.
Proof. solve_decision. Defined.
#[global] Instance OutputLease_eq_dec : EqDecision OutputLease.
Proof. solve_decision. Defined.

Record Capacity := { InputBytes : Z; OutputBytes : Z; Rows_ : Z }.

Definition validateCapacity (capacity : Capacity) : go Z :=
  check (negb ((InputBytes capacity <? 0) || (OutputBytes capacity <? 0))) ErrInvalidCapacity ;;
  let offsets := Rows_ capacity + 1 in
  check (negb ((MaxInt <? offsets) || (MaxInt / 4 <? offsets))) ErrInvalidCapacity ;;
  Ok offsets.

Definition NewArena (id count : Z) (capacity : Capacity) : go Arena :=
  check (negb (count <=? 0)) ErrInvalidArena ;;
  offsets ← validateCapacity capacity;
  Ok {| arenaID := id; available := seq 0 (Z.to_nat count);
        contexts := replicate (Z.to_nat count)
          {| generation := 0; state := contextAvailable; outputClaim := 0; input := []; output := []; offsetsCap := offsets |} |}.

(** ** Threads *)

Inductive outcome :=
  | Leased (l : Lease)
  | Returned
  | Claimed (o : OutputLease)
  | Released
  | Failed (e : error)
  | Panicked (msg : string).

(** The next atomic access of a call. *)
Inductive frame :=
  (* Borrow *)
  | BReceive
  | BRetireLoad (c : nat)
  | BRetireSwap (c : nat) (claim : Z)
  | BStamp (c : nat)
  | BStampAgain (c : nat)
  | BOwn (c : nat) (gen : Z)
  (* Return *)
  | RCheck (l : Lease)
  | ROwn (c : nat) (gen : Z)
  | RFailed (c : nat) (gen : Z)
  | RClaim (c : nat)
  | RRestore (c : nat)
  | RReset (c : nat)
  | RAvailable (c : nat)
  | RPublish (c : nat)
  (* ClaimOutput *)
  | CActive (l : Lease)
  | CActiveState (c : nat) (gen : Z)
  | CLoad (c : nat) (gen : Z)
  | CSwap (c : nat) (gen current : Z)
  | CRecheck (c : nat) (gen claim : Z)
  | CRecheckState (c : nat) (gen claim : Z)
  | CUndo (c : nat) (claim : Z)
  (* OutputLease.Release *)
  | OCheck (o : OutputLease)
  | OSwap (c : nat) (claim : Z)
  | Finished (r : outcome).

Definition setContext (a : Arena) (c : nat) (x : Context) : Arena :=
  {| arenaID := arenaID a; available := available a; contexts := <[c := x]> (contexts a) |}.

Definition setGeneration (g : Z) (x : Context) : Context :=
  {| generation := g; state := state x; outputClaim := outputClaim x; input := input x; output := output x; offsetsCap := offsetsCap x |}.
Definition setState (s : Z) (x : Context) : Context :=
  {| generation := generation x; state := s; outputClaim := outputClaim x; input := input x; output := output x; offsetsCap := offsetsCap x |}.
Definition setClaim (k : Z) (x : Context) : Context :=
  {| generation := generation x; state := state x; outputClaim := k; input := input x; output := output x; offsetsCap := offsetsCap x |}.

(** [worker.reset()]. *)
Definition resetContext (x : Context) : Context :=
  {| generation := generation x; state := state x; outputClaim := 0; input := []; output := []; offsetsCap := offsetsCap x |}.

(** The context a lease names when it passes the pointer and zero checks. *)
Definition leaseContext (a : Arena) (l : Lease) : option nat :=
  if bool_decide (lArena l = Some (arenaID a)) && negb (lGeneration l =? 0) then
    match lContext l with Some c => if bool_decide (c < length (contexts a))%nat then Some c else None | None => None end
  else None.

Definition odd (claim : Z) : bool := negb (Z.land claim 1 =? 0).

(** One atomic access of [Borrow], with [retireFailedClaim]; [None] when blocked. *)
Definition borrowStep (a : Arena) (f : frame) : option (Arena * frame) :=
  let ctx c := contexts a !!! c in
  let upd c g := setContext a c (g (ctx c)) in
  match f with
  | BReceive =>
    match available a with
    | [] => None
    | c :: rest =>
      if bool_decide (c < length (contexts a))%nat then
        Some ({| arenaID := arenaID a; available := rest; contexts := contexts a |}, BRetireLoad c)
      else Some (a, Finished (Panicked "scheduler: invalid available context"))
    end
  | BRetireLoad c => Some (a, if odd (outputClaim (ctx c)) then BRetireSwap c (outputClaim (ctx c)) else BStamp c)
  | BRetireSwap c claim =>
    if outputClaim (ctx c) =? claim then Some (upd c (setClaim (u32 (claim + 1))), BStamp c) else Some (a, BRetireLoad c)
  | BStamp c =>
    let g := u64 (generation (ctx c) + 1) in
    Some (upd c (setGeneration g), if g =? 0 then BStampAgain c else BOwn c g)
  | BStampAgain c =>
    let g := u64 (generation (ctx c) + 1) in
    Some (upd c (setGeneration g), BOwn c g)
  | BOwn c gen =>
    if state (ctx c) =? contextAvailable then
      Some (upd c (setState contextBorrowed),
            Finished (Leased {| lArena := Some (arenaID a); lContext := Some c; lGeneration := gen |}))
    else Some (a, Finished (Panicked "scheduler: invalid context ownership state"))
  | _ => None
  end.

(** One atomic access of [Return].  [reset] stores the claim atomically; its plain
    writes to the buffers belong to that step, as the call owns the context. *)
Definition returnStep (a : Arena) (f : frame) : option (Arena * frame) :=
  let ctx c := contexts a !!! c in
  let upd c g := setContext a c (g (ctx c)) in
  match f with
  | RCheck l =>
    match leaseContext a l with
    | None => Some (a, Finished (Failed ErrInvalidLease))
    | Some c => if negb (generation (ctx c) =? lGeneration l) then Some (a, Finished (Failed ErrLeaseExpired)) else Some (a, ROwn c (lGeneration l))
    end
  | ROwn c gen =>
    if state (ctx c) =? contextBorrowed then Some (upd c (setState contextReturning), RClaim c) else Some (a, RFailed c gen)
  | RFailed c gen => Some (a, Finished (Failed (if negb (generation (ctx c) =? gen) then ErrLeaseExpired else ErrDoubleReturn)))
  | RClaim c => Some (a, if odd (outputClaim (ctx c)) then RRestore c else RReset c)
  | RRestore c => Some (upd c (setState contextBorrowed), Finished (Failed ErrOutputEscaped))
  | RReset c => Some (upd c resetContext, RAvailable c)
  | RAvailable c => Some (upd c (setState contextAvailable), RPublish c)
  | RPublish c =>
    if bool_decide (length (available a) < length (contexts a))%nat then
      Some ({| arenaID := arenaID a; available := available a ++ [c]; contexts := contexts a |}, Finished Returned)
    else Some (a, Finished (Panicked "scheduler: duplicate context publication"))
  | _ => None
  end.

(** One atomic access of [ClaimOutput]. *)
Definition claimStep (a : Arena) (f : frame) : option (Arena * frame) :=
  let ctx c := contexts a !!! c in
  let upd c g := setContext a c (g (ctx c)) in
  match f with
  | CActive l =>
    match leaseContext a l with
    | None => Some (a, Finished (Failed ErrInvalidLease))
    | Some c => Some (a, if negb (generation (ctx c) =? lGeneration l) then Finished (Failed ErrLeaseExpired) else CActiveState c (lGeneration l))
    end
  | CActiveState c gen => Some (a, if negb (state (ctx c) =? contextBorrowed) then Finished (Failed ErrLeaseExpired) else CLoad c gen)
  | CLoad c gen =>
    let current := outputClaim (ctx c) in
    Some (a, if odd current || (current =? MaxUint32 - 1) then Finished (Failed ErrOutputClaimed) else CSwap c gen current)
  | CSwap c gen current =>
    if outputClaim (ctx c) =? current then Some (upd c (setClaim (u32 (current + 1))), CRecheck c gen (u32 (current + 1))) else Some (a, CLoad c gen)
  | CRecheck c gen claim => Some (a, if negb (generation (ctx c) =? gen) then CUndo c claim else CRecheckState c gen claim)
  | CRecheckState c gen claim =>
    Some (a, if negb (state (ctx c) =? contextBorrowed) then CUndo c claim
             else Finished (Claimed {| oContext := Some c; oGeneration := gen; oClaim := claim |}))
  | CUndo c claim =>
    let done_ := Finished (Failed ErrLeaseExpired) in
    if outputClaim (ctx c) =? claim then Some (upd c (setClaim (u32 (claim + 1))), done_) else Some (a, done_)
  | _ => None
  end.

(** One atomic access of [OutputLease.Release]. *)
Definition releaseStep (a : Arena) (f : frame) : option (Arena * frame) :=
  let ctx c := contexts a !!! c in
  let upd c g := setContext a c (g (ctx c)) in
  match f with
  | OCheck o =>
    match oContext o with
    | Some c =>
      if (oGeneration o =? 0) || negb (odd (oClaim o)) || negb (bool_decide (c < length (contexts a))%nat) then Some (a, Finished (Failed ErrInvalidLease))
      else Some (a, if negb (generation (ctx c) =? oGeneration o) then Finished (Failed ErrLeaseExpired) else OSwap c (oClaim o))
    | None => Some (a, Finished (Failed ErrInvalidLease))
    end
  | OSwap c claim =>
    if outputClaim (ctx c) =? claim then Some (upd c (setClaim (u32 (claim + 1))), Finished Released)
    else Some (a, Finished (Failed ErrOutputNotClaimed))
  | _ => None
  end.

(** One atomic access of a call; [None] when the call is blocked or over. *)
Definition exec (a : Arena) (f : frame) : option (Arena * frame) :=
  match f with
  | BReceive | BRetireLoad _ | BRetireSwap _ _ | BStamp _ | BStampAgain _ | BOwn _ _ => borrowStep a f
  | RCheck _ | ROwn _ _ | RFailed _ _ | RClaim _ | RRestore _ | RReset _ | RAvailable _ | RPublish _ => returnStep a f
  | CActive _ | CActiveState _ _ | CLoad _ _ | CSwap _ _ _ | CRecheck _ _ _ | CRecheckState _ _ _ | CUndo _ _ => claimStep a f
  | OCheck _ | OSwap _ _ => releaseStep a f
  | Finished _ => None
  end.

(** ** Interleavings *)

Record system := { arena : Arena; threads : list frame }.

(** A client calls a method, a pending call makes its next atomic access, or
    the caller's context of a blocked [Borrow] is cancelled. *)
Inductive event := Call (f : frame) | Step (i : nat) | Cancel (i : nat).

Definition isCall (f : frame) : bool :=
  match f with BReceive | RCheck _ | CActive _ | OCheck _ => true | _ => false end.

Definition fire (s : system) (ev : event) : option system :=
  match ev with
  | Call f => if isCall f then Some {| arena := arena s; threads := threads s ++ [f] |} else None
  | Step i =>
    f ← threads s !! i;
    '(a, f') ← exec (arena s) f;
    Some {| arena := a; threads := <[i := f']> (threads s) |}
  | Cancel i =>
    f ← threads s !! i;
    match f with
    | BReceive => Some {| arena := arena s; threads := <[i := Finished (Failed ErrContextDone)]> (threads s) |}
    | _ => None
    end
  end.

Fixpoint run (evs : list event) (s : system) : option system :=
  match evs with
  | [] => Some s
  | ev :: evs => s' ← fire s ev; run evs s'
  end.

Lemma run_app evs evs' s : run (evs ++ evs') s = (s' ← run evs s; run evs' s').
Proof. revert s. induction evs as [|ev evs IH]; intros s; [done|]. simpl. destruct (fire s ev); simpl; [apply IH|done]. Qed.

(** Rule induction along a run. *)
Lemma run_ind (P : system → Prop) evs s s' :
  (∀ t ev t', ev ∈ evs → P t → fire t ev = Some t' → P t') → P s → run evs s = Some s' → P s'.
Proof.
  revert s. induction evs as [|ev evs IH]; intros s Hstep Hs Hrun; simpl in Hrun; [by simplify_eq|].
  destruct (fire s ev) as [t|] eqn:E; [|done]. apply (IH t); [|eapply Hstep; [left| |]; done|done].
  intros ? ? ? Hin. eapply Hstep. by right.
Qed.

(** ** Abstract ownership *)

Inductive owner := InChannel | OnLease | HeldBy (i : nat).

(** What may happen to the ownership of one context. *)
Inductive ownStep : list owner → list owner → Prop :=
  | own_receive os c i : os !! c = Some InChannel → ownStep os (<[c := HeldBy i]> os)
  | own_lend os c i : os !! c = Some (HeldBy i) → ownStep os (<[c := OnLease]> os)
  | own_reclaim os c i : os !! c = Some OnLease → ownStep os (<[c := HeldBy i]> os)
  | own_publish os c i : os !! c = Some (HeldBy i) → ownStep os (<[c := InChannel]> os).

(** The context a pending call owns exclusively, and its state meanwhile. *)
Definition held (f : frame) : option nat :=
  match f with
  | BRetireLoad c | BRetireSwap c _ | BStamp c | BStampAgain c | BOwn c _ => Some c
  | RClaim c | RRestore c | RReset c | RAvailable c | RPublish c => Some c
  | _ => None
  end.

Definition heldState (f : frame) : Z :=
  match f with RClaim _ | RRestore _ | RReset _ | RAvailable _ => contextReturning | _ => contextAvailable end.

(** The contexts a pending call refers to exist, a claim is made on an even
    counter only, and the call has not panicked. *)
Definition frameOk (n : nat) (f : frame) : Prop :=
  match f with
  | BRetireLoad c | BRetireSwap c _ | BStamp c | BStampAgain c | BOwn c _ | ROwn c _ | RFailed c _ | RClaim c | RRestore c | RReset c
  | RAvailable c | RPublish c | CActiveState c _ | CLoad c _ | CRecheck c _ _ | CRecheckState c _ _ | CUndo c _ | OSwap c _ => (c < n)%nat
  | CSwap c _ current => (c < n)%nat ∧ odd current = false
  | Finished (Panicked _) => False
  | _ => True
  end.

Definition ownerState (s : system) (o : owner) : Z :=
  match o with InChannel => contextAvailable | OnLease => contextBorrowed | HeldBy i => heldState (default BReceive (threads s !! i)) end.

Record owned (os : list owner) (s : system) : Prop := {
  ow_length : length os = length (contexts (arena s));
  ow_nodup : NoDup (available (arena s));
  ow_channel c : os !! c = Some InChannel ↔ c ∈ available (arena s);
  ow_held c i : os !! c = Some (HeldBy i) ↔ ∃ f, threads s !! i = Some f ∧ held f = Some c;
  ow_state c o : os !! c = Some o → state (contexts (arena s) !!! c) = ownerState s o;
  ow_frames i f : threads s !! i = Some f → frameOk (length (contexts (arena s))) f
}.

Lemma frameOk_held n f c : frameOk n f → held f = Some c → (c < n)%nat.
Proof. destruct f; simpl; naive_solver. Qed.

Section updates.
Context (os : list owner) (s : system) (i : nat) (f f' : frame) (a' : Arena).
Context (Hown : owned os s) (Hf : threads s !! i = Some f).
Context (Hlen : length (contexts a') = length (contexts (arena s))) (Hok : frameOk (length (contexts (arena s))) f').
Local Abbreviation s' := ({| arena := a'; threads := <[i := f']> (threads s) |}).

Lemma thread_at j : threads s' !! j = if bool_decide (j = i) then Some f' else threads s !! j.
Proof.
  simpl. destruct (decide (j = i)) as [->|Hne].
  - rewrite bool_decide_eq_true_2 by done. apply list_lookup_insert_eq. by eapply lookup_lt_Some.
  - rewrite bool_decide_eq_false_2 by done. by apply list_lookup_insert_ne.
Qed.

Lemma update_frames j g : threads s' !! j = Some g → frameOk (length (contexts (arena s'))) g.
Proof. rewrite thread_at. simpl. rewrite Hlen. case_bool_decide; [congruence|]. apply Hown. Qed.

(** A call that neither owned a context nor takes one. *)
Lemma owned_stutter :
  held f = None → held f' = None → available a' = available (arena s) →
  (∀ c, state (contexts a' !!! c) = state (contexts (arena s) !!! c)) → owned os s'.
Proof.
  intros Hh Hh' Hav Hst. destruct Hown as [H1 H2 H3 H4 H5 H6]. split; simpl.
  - by rewrite Hlen.
  - by rewrite Hav.
  - intros c. by rewrite Hav.
  - intros c j. rewrite H4. split; intros (g & Hg & Hc); exists g; rewrite thread_at in *; case_bool_decide; naive_solver congruence.
  - intros c o Ho. rewrite Hst, (H5 c o Ho). destruct o as [| |j]; try done. unfold ownerState. rewrite thread_at.
    case_bool_decide; [subst j|done]. apply H4 in Ho as (g & Hg & Hc). simplify_eq.
  - apply update_frames.
Qed.

(** A call that changes the ownership of context [c] from [o] to [o']. *)
Lemma owned_update c o o' :
  os !! c = Some o → o = InChannel ∨ o = OnLease ∨ o = HeldBy i → o' = InChannel ∨ o' = OnLease ∨ o' = HeldBy i →
  held f = (match o with HeldBy _ => Some c | _ => None end) → held f' = (match o' with HeldBy _ => Some c | _ => None end) →
  state (contexts a' !!! c) = (match o' with InChannel => contextAvailable | OnLease => contextBorrowed | HeldBy _ => heldState f' end) →
  (∀ k, k ≠ c → state (contexts a' !!! k) = state (contexts (arena s) !!! k)) →
  NoDup (available a') → (∀ k, k ≠ c → k ∈ available a' ↔ k ∈ available (arena s)) → (c ∈ available a' ↔ o' = InChannel) →
  owned (<[c := o']> os) s'.
Proof.
  intros Ho Hcase Hcase' Hh Hh' Hst Hrest Hnd Hav Hc. destruct Hown as [H1 H2 H3 H4 H5 H6].
  pose proof (lookup_lt_Some _ _ _ Ho) as Hlt.
  assert (∀ k, <[c := o']> os !! k = if bool_decide (k = c) then Some o' else os !! k) as Hat.
  { intros k. destruct (decide (k = c)) as [->|]; [rewrite bool_decide_eq_true_2 by done; by apply list_lookup_insert_eq|].
    rewrite bool_decide_eq_false_2 by done. by apply list_lookup_insert_ne. }
  assert (∀ k j, os !! k = Some (HeldBy j) → j = i → k = c) as Honly.
  { intros k j Hk ->. apply H4 in Hk as (g & Hg & Hkc). simplify_eq. rewrite Hh in Hkc. destruct o; naive_solver. }
  split; simpl.
  - by rewrite length_insert, Hlen.
  - done.
  - intros k. rewrite Hat. case_bool_decide; [subst k|rewrite Hav by done; apply H3]. rewrite Hc. naive_solver.
  - intros k j. rewrite Hat. case_bool_decide as Hk; [subst k|].
    + split.
      * intros [= ->]. assert (j = i) as -> by naive_solver. exists f'. rewrite thread_at, bool_decide_eq_true_2 by done. done.
      * intros (g & Hg & Hgc). rewrite thread_at in Hg. case_bool_decide; [simplify_eq; rewrite Hgc in Hh'; destruct o'; naive_solver|].
        assert (os !! c = Some (HeldBy j)) as Hj by (apply H4; by exists g). naive_solver.
    + rewrite H4. split; intros (g & Hg & Hgc); exists g; rewrite thread_at in *; case_bool_decide; try done; exfalso; subst j.
      * assert (os !! k = Some (HeldBy i)) as Hj by (apply H4; by exists g). by apply Hk, (Honly k i).
      * simplify_eq. rewrite Hgc in Hh'. destruct o'; naive_solver.
  - intros k o1. rewrite Hat. case_bool_decide as Hk; [subst k|].
    + intros [= <-]. rewrite Hst. destruct o' as [| |j]; [done|done|]. assert (j = i) as -> by naive_solver.
      unfold ownerState. by rewrite thread_at, bool_decide_eq_true_2 by done.
    + intros Hk1. rewrite Hrest, (H5 k o1 Hk1) by done. destruct o1 as [| |j]; [done|done|]. unfold ownerState. rewrite thread_at.
      case_bool_decide as Hj; [|done]. by destruct (Hk (Honly k j Hk1 Hj)).
  - apply update_frames.
Qed.
End updates.

Lemma setContext_other a c x k : k ≠ c → contexts (setContext a c x) !!! k = contexts a !!! k.
Proof. intros Hne. simpl. by rewrite list_lookup_total_insert_ne. Qed.

Lemma setContext_same a c x : (c < length (contexts a))%nat → contexts (setContext a c x) !!! c = x.
Proof. intros Hc. simpl. by rewrite list_lookup_total_insert_eq. Qed.

Lemma setContext_state a c x k : state x = state (contexts a !!! c) → state (contexts (setContext a c x) !!! k) = state (contexts a !!! k).
Proof.
  intros Hx. simpl. destruct (decide (k = c)) as [->|Hne]; [|by rewrite list_lookup_total_insert_ne].
  destruct (decide (c < length (contexts a))%nat).
  - by rewrite list_lookup_total_insert_eq.
  - by rewrite list_insert_ge by lia.
Qed.

Lemma leaseContext_Some a l c : leaseContext a l = Some c →
  lArena l = Some (arenaID a) ∧ lContext l = Some c ∧ lGeneration l ≠ 0 ∧ (c < length (contexts a))%nat.
Proof.
  unfold leaseContext. case_bool_decide; simpl; [|done]. destruct (Z.eqb_spec (lGeneration l) 0); simpl; [done|].
  destruct (lContext l) as [c'|]; [|done]. case_bool_decide; [|done]. by intros [= <-].
Qed.

(** A call that keeps the context it holds. *)
Lemma owned_keep os s i f f' c x :
  owned os s → threads s !! i = Some f → held f = Some c → held f' = Some c → state x = heldState f' →
  frameOk (length (contexts (arena s))) f' →
  owned os {| arena := setContext (arena s) c x; threads := <[i := f']> (threads s) |}.
Proof.
  intros Hown Hf Hh Hh' Hx Hok. assert (os !! c = Some (HeldBy i)) as Ho by (apply Hown; by exists f).
  pose proof (frameOk_held _ _ _ Hok Hh') as Hc.
  rewrite <-(list_insert_id os c (HeldBy i)) by done. apply owned_update with f (HeldBy i); try done; [|tauto|tauto|..].
  - simpl. by rewrite length_insert.
  - by rewrite setContext_same.
  - intros k Hk. by rewrite setContext_other.
  - apply Hown.
  - split; [|done]. intros Hin%Hown. congruence.
Qed.

Lemma owned_keep_read os s i f f' c :
  owned os s → threads s !! i = Some f → held f = Some c → held f' = Some c → heldState f = heldState f' →
  frameOk (length (contexts (arena s))) f' → owned os {| arena := arena s; threads := <[i := f']> (threads s) |}.
Proof.
  intros Hown Hf Hh Hh' Hx Hok. assert (os !! c = Some (HeldBy i)) as Ho by (apply Hown; by exists f).
  pose proof (ow_state _ _ Hown c _ Ho) as Hst. simpl in Hst. rewrite Hf in Hst. simpl in Hst.
  replace (arena s) with (setContext (arena s) c (contexts (arena s) !!! c)).
  - apply owned_keep with f; try done. by rewrite Hst.
  - unfold setContext. pose proof (frameOk_held _ _ _ Hok Hh') as Hc.
    rewrite list_insert_id by (by apply list_lookup_lookup_total_lt). by destruct (arena s).
Qed.

(** The ownership after thread [i] of [s] made an access. *)
Definition simulated (os : list owner) (s : system) (i : nat) (res : Arena * frame) : Prop :=
  ∃ os', (os' = os ∨ ownStep os os') ∧ owned os' {| arena := res.1; threads := <[i := res.2]> (threads s) |}.

Section simulation.
Context (os : list owner) (s : system) (i : nat) (f : frame).
Context (Hown : owned os s) (Hf : threads s !! i = Some f).
Local Abbreviation n := (length (contexts (arena s))).

Lemma holder c : held f = Some c → os !! c = Some (HeldBy i) ∧ state (contexts (arena s) !!! c) = heldState f ∧ (c < n)%nat.
Proof.
  intros Hc. assert (os !! c = Some (HeldBy i)) as Ho by (apply Hown; by exists f). split; [done|].
  pose proof (ow_state _ _ Hown c _ Ho) as Hst. simpl in Hst. rewrite Hf in Hst. split; [done|].
  rewrite <-(ow_length _ _ Hown). by eapply lookup_lt_Some.
Qed.

Lemma sim_read g : held f = None → held g = None → frameOk n g → simulated os s i (arena s, g).
Proof. intros Hn Hg Hok. exists os. split; [by left|]. by apply owned_stutter with f. Qed.

Lemma sim_write c x g : held f = None → held g = None → frameOk n g → state x = state (contexts (arena s) !!! c) →
  simulated os s i (setContext (arena s) c x, g).
Proof.
  intros Hn Hg Hok Hx. exists os. split; [by left|]. apply owned_stutter with f; try done; [simpl; by rewrite length_insert|].
  intros k. by apply setContext_state.
Qed.

Lemma sim_keep c x g : held f = Some c → held g = Some c → frameOk n g → state x = heldState g → simulated os s i (setContext (arena s) c x, g).
Proof. intros Hc Hg Hok Hx. exists os. split; [by left|]. by apply owned_keep with f. Qed.

Lemma sim_keep_read c g : held f = Some c → held g = Some c → frameOk n g → heldState f = heldState g → simulated os s i (arena s, g).
Proof. intros Hc Hg Hok Hx. exists os. split; [by left|]. by apply owned_keep_read with f c. Qed.

(** The call gives the context it holds to a lease. *)
Lemma sim_lend c x g : held f = Some c → held g = None → frameOk n g → state x = contextBorrowed → simulated os s i (setContext (arena s) c x, g).
Proof.
  intros Hc Hg Hok Hx. destruct (holder c Hc) as (Ho & Hst & Hlt). exists (<[c := OnLease]> os). split; [right; by apply (own_lend _ _ i)|]. cbn [fst snd].
  apply owned_update with f (HeldBy i); try done; [simpl; by rewrite length_insert|tauto|tauto|by rewrite setContext_same| |apply Hown|].
  - intros k Hk. by rewrite setContext_other.
  - split; [|done]. intros Hin%Hown. congruence.
Qed.

(** The call takes a context back from its lease. *)
Lemma sim_reclaim c x g : held f = None → held g = Some c → frameOk n g → state (contexts (arena s) !!! c) = contextBorrowed →
  state x = heldState g → simulated os s i (setContext (arena s) c x, g).
Proof.
  intros Hn Hg Hok Hb Hx. pose proof (frameOk_held _ _ _ Hok Hg) as Hlt.
  assert (os !! c = Some OnLease) as Ho.
  { destruct (os !! c) as [o|] eqn:E; [|apply lookup_ge_None in E; rewrite (ow_length _ _ Hown) in E; lia].
    pose proof (ow_state _ _ Hown c o E) as Hst. rewrite Hb in Hst. destruct o as [| |j]; [done|done|].
    simpl in Hst. exfalso. destruct (threads s !! j) as [h|]; simpl in Hst; [destruct h; done|done]. }
  exists (<[c := HeldBy i]> os). split; [right; by apply own_reclaim|]. cbn [fst snd].
  apply owned_update with f OnLease; try done; [simpl; by rewrite length_insert|tauto|tauto|by rewrite setContext_same| |apply Hown|].
  - intros k Hk. by rewrite setContext_other.
  - split; [|done]. intros Hin%Hown. congruence.
Qed.
End simulation.

Lemma receive_owned os s i c rest : owned os s → threads s !! i = Some BReceive → available (arena s) = c :: rest →
  (c < length (contexts (arena s)))%nat ∧
  simulated os s i ({| arenaID := arenaID (arena s); available := rest; contexts := contexts (arena s) |}, BRetireLoad c).
Proof.
  intros Hown Hf Hav. assert (os !! c = Some InChannel) as Ho by (apply Hown; rewrite Hav; left).
  assert (c < length (contexts (arena s)))%nat as Hlt by (rewrite <-(ow_length _ _ Hown); by eapply lookup_lt_Some).
  split; [done|]. pose proof (ow_nodup _ _ Hown) as Hnd. rewrite Hav in Hnd. apply NoDup_cons in Hnd as [Hnin Hnd].
  exists (<[c := HeldBy i]> os). split; [right; by apply own_receive|]. cbn [fst snd].
  apply owned_update with BReceive InChannel; try done; [tauto|tauto|simpl; by rewrite (ow_state _ _ Hown c _ Ho)|].
  intros k Hk. rewrite Hav. simpl. set_solver.
Qed.

Lemma publish_owned os s i c : owned os s → threads s !! i = Some (RPublish c) →
  (length (available (arena s)) < length (contexts (arena s)))%nat ∧
  simulated os s i ({| arenaID := arenaID (arena s); available := available (arena s) ++ [c]; contexts := contexts (arena s) |}, Finished Returned).
Proof.
  intros Hown Hf. destruct (holder os s i _ Hown Hf c eq_refl) as (Ho & Hst & Hlt).
  assert (c ∉ available (arena s)) as Hnin by (intros Hin%Hown; congruence).
  assert (NoDup (available (arena s) ++ [c])) as Hnd.
  { apply NoDup_app. split; [apply Hown|]. split; [set_solver|apply NoDup_singleton]. }
  split.
  - assert (length (available (arena s) ++ [c]) ≤ length (seq 0 (length (contexts (arena s)))))%nat as Hle.
    { apply submseteq_length, NoDup_submseteq; [done|]. intros k Hk. apply elem_of_seq. split; [lia|].
      apply elem_of_app in Hk as [Hk|Hk]; [|set_solver]. apply Hown in Hk. rewrite <-(ow_length _ _ Hown). by eapply lookup_lt_Some. }
    rewrite length_app, length_seq in Hle. simpl in Hle. lia.
  - exists (<[c := InChannel]> os). split; [right; by apply (own_publish _ _ i)|]. cbn [fst snd].
    apply owned_update with (RPublish c) (HeldBy i); try done; [tauto|tauto| |].
    + intros k Hk. simpl. set_solver.
    + simpl. set_solver.
Qed.

(** Every atomic access is a step of the abstract ownership machine, or none. *)
Lemma exec_owned os s i f res : owned os s → threads s !! i = Some f → exec (arena s) f = Some res → simulated os s i res.
Proof.
  intros Hown Hf Hexec. pose proof (ow_frames _ _ Hown i f Hf) as Hok.
  assert (∀ g, held f = None → held g = None → frameOk (length (contexts (arena s))) g → simulated os s i (arena s, g)) as Hread
    by (intros; by eapply sim_read).
  assert (∀ c x g, held f = None → held g = None → frameOk (length (contexts (arena s))) g → state x = state (contexts (arena s) !!! c) →
    simulated os s i (setContext (arena s) c x, g)) as Hwrite by (intros; by eapply sim_write).
  destruct f; simpl in Hexec, Hok.
  - destruct (available (arena s)) as [|c rest] eqn:Hav; [done|]. destruct (receive_owned os s i c rest Hown Hf Hav) as [Hc Hsim].
    rewrite bool_decide_eq_true_2 in Hexec by done. by simplify_eq.
  - simplify_eq. by destruct (odd _); eapply sim_keep_read.
  - destruct (_ =? _); simplify_eq; [|by eapply sim_keep_read]. eapply sim_keep; try done. simpl. by destruct (holder os s i _ Hown Hf c eq_refl) as (_ & -> & _).
  - simplify_eq. destruct (holder os s i _ Hown Hf c eq_refl) as (_ & Hst & _). by destruct (_ =? _); eapply sim_keep.
  - simplify_eq. destruct (holder os s i _ Hown Hf c eq_refl) as (_ & Hst & _). by eapply sim_keep.
  - destruct (holder os s i _ Hown Hf c eq_refl) as (_ & Hst & _). rewrite Hst in Hexec. simpl in Hexec. simplify_eq. by eapply sim_lend.
  - destruct (leaseContext (arena s) l) as [c|] eqn:El; [|simplify_eq; by apply Hread].
    apply leaseContext_Some in El as (_ & _ & _ & Hc). destruct (negb _); simplify_eq; by apply Hread.
  - destruct (Z.eqb_spec (state (contexts (arena s) !!! c)) contextBorrowed); simplify_eq; [|by apply Hread]. by eapply sim_reclaim.
  - simplify_eq. destruct (negb _); by apply Hread.
  - simplify_eq. by destruct (odd _); eapply sim_keep_read.
  - simplify_eq. by eapply sim_lend.
  - simplify_eq. destruct (holder os s i _ Hown Hf c eq_refl) as (_ & Hst & _). by eapply sim_keep.
  - simplify_eq. by eapply sim_keep.
  - destruct (publish_owned os s i c Hown Hf) as [Hlen Hsim]. rewrite bool_decide_eq_true_2 in Hexec by done. by simplify_eq.
  - destruct (leaseContext (arena s) l) as [c|] eqn:El; [|simplify_eq; by apply Hread].
    apply leaseContext_Some in El as (_ & _ & _ & Hc). simplify_eq. destruct (negb _); by apply Hread.
  - simplify_eq. destruct (negb _); by apply Hread.
  - simplify_eq. destruct (_ || _) eqn:E; apply Hread; try done. by apply orb_false_iff in E as [? _].
  - destruct Hok as [Hok _]. destruct (_ =? _); simplify_eq; [by apply Hwrite|by apply Hread].
  - simplify_eq. destruct (negb _); by apply Hread.
  - simplify_eq. destruct (negb _); by apply Hread.
  - destruct (_ =? _); simplify_eq; [by apply Hwrite|by apply Hread].
  - destruct (oContext o) as [c|]; [|simplify_eq; by apply Hread].
    destruct (_ || _) eqn:E; simplify_eq; [by apply Hread|]. apply orb_false_iff in E as [_ E]. apply negb_false_iff, bool_decide_eq_true_1 in E.
    destruct (negb _); by apply Hread.
  - destruct (_ =? _); simplify_eq; [by apply Hwrite|by apply Hread].
  - done.
Qed.

Lemma fire_owned os s ev s' : owned os s → fire s ev = Some s' → ∃ os', (os' = os ∨ ownStep os os') ∧ owned os' s'.
Proof.
  intros Hown Hfire. destruct ev as [f|i|i]; simpl in Hfire.
  - destruct (isCall f) eqn:Hc; simplify_eq. exists os. split; [by left|]. destruct Hown as [H1 H2 H3 H4 H5 H6]. split; simpl; try done.
    + intros c i. rewrite H4. split; intros (g & Hg & Hgc); exists g; (split; [|done]).
      * by apply lookup_app_l_Some.
      * apply lookup_app_Some in Hg as [|[_ Hg]]; [done|]. apply list_lookup_singleton_Some in Hg as [_ <-]. by destruct f.
    + intros c o Ho. rewrite (H5 c o Ho). destruct o as [| |i]; try done. apply H4 in Ho as (g & Hg & _). simpl. by rewrite Hg, (lookup_app_l_Some _ _ _ _ Hg).
    + intros i g Hg. apply lookup_app_Some in Hg as [Hg|[_ Hg]]; [by eapply H6|]. apply list_lookup_singleton_Some in Hg as [_ <-]. by destruct f.
  - destruct (threads s !! i) as [f|] eqn:Hf; [|done]. simpl in Hfire. destruct (exec (arena s) f) as [[a f']|] eqn:He; [|done].
    simpl in Hfire. simplify_eq. exact (exec_owned os s i f (a, f') Hown Hf He).
  - destruct (threads s !! i) as [f|] eqn:Hf; [|done]. simpl in Hfire. destruct f; simplify_eq. exists os. split; [by left|].
    by apply owned_stutter with BReceive.
Qed.

Lemma run_owned evs s s' os : owned os s → run evs s = Some s' → ∃ os', rtc ownStep os os' ∧ owned os' s'.
Proof.
  intros Hown Hrun. apply (run_ind (λ t, ∃ os', rtc ownStep os os' ∧ owned os' t) evs s s'); [|by exists os|done].
  intros t ev t' _ (os1 & Hr & Ho) Hfire. destruct (fire_owned os1 t ev t' Ho Hfire) as (os2 & [->|Hstep] & Ho2); [by exists os1|]. exists os2. split; [by eapply rtc_r|done].
Qed.

(** A fresh arena: every context waits in the channel. *)
Lemma NewArena_owned id count capacity a : NewArena id count capacity = Ok a →
  owned (replicate (Z.to_nat count) InChannel) {| arena := a; threads := [] |} ∧ length (contexts a) = Z.to_nat count.
Proof.
  unfold NewArena. intros ([] & _ & Hr)%go_bind_inv. apply go_bind_inv in Hr as (offsets & _ & [= <-]).
  split; [|simpl; by rewrite length_replicate]. split; simpl; rewrite ?length_replicate; try done.
  - apply NoDup_seq.
  - intros c. rewrite lookup_replicate, elem_of_seq. naive_solver lia.
  - intros c i. rewrite lookup_replicate. naive_solver.
  - intros c o Ho. apply lookup_replicate in Ho as [-> Hc]. by rewrite lookup_total_replicate_2.
Qed.

(** ** A held lease *)

(** [lease.active()]. *)
Definition active (a : Arena) (l : Lease) : bool :=
  match leaseContext a l with
  | Some c => (generation (contexts a !!! c) =? lGeneration l) && (state (contexts a !!! c) =? contextBorrowed)
  | None => false
  end.

(** No pending [Return] on context [c] has passed its generation check, and none was called with [l]. *)
Definition noPendingReturn (l : Lease) (c : nat) (f : frame) : Prop :=
  match f with ROwn k _ => k ≠ c | RCheck l' => l' ≠ l | _ => True end.

Record heldLease (l : Lease) (c : nat) (s : system) : Prop := {
  hl_context : leaseContext (arena s) l = Some c;
  hl_generation : generation (contexts (arena s) !!! c) = lGeneration l;
  hl_state : state (contexts (arena s) !!! c) = contextBorrowed;
  hl_quiet i f : threads s !! i = Some f → noPendingReturn l c f
}.

(** An access to a context that is on lease does not come from a call that holds it. *)
Lemma not_held os s i f c : owned os s → threads s !! i = Some f → state (contexts (arena s) !!! c) = contextBorrowed →
  held f ≠ Some c.
Proof.
  intros Hown Hf Hb Hh. destruct (holder os s i f Hown Hf c Hh) as (_ & Hst & _). rewrite Hb in Hst. by destruct f.
Qed.

(** The context an access writes to. *)
Lemma exec_frame a f a' f' : exec a f = Some (a', f') →
  arenaID a' = arenaID a ∧ length (contexts a') = length (contexts a) ∧
  ∀ c, (held f = Some c ∨ contexts a' !!! c = contexts a !!! c ∨ (∃ k, contexts a' !!! c = setClaim k (contexts a !!! c)) ∨ (∃ g, f = ROwn c g)).
Proof.
  intros Hexec. assert (∀ c x (g : frame), Some (setContext a c x, g) = Some (a', f') →
    arenaID a' = arenaID a ∧ length (contexts a') = length (contexts a) ∧
    (∀ k, k ≠ c → contexts a' !!! k = contexts a !!! k) ∧ (contexts a' !!! c = x ∨ contexts a' !!! c = contexts a !!! c)) as Hset.
  { intros c x g [= <- <-]. simpl. rewrite length_insert. split_and!; [done|done|intros k Hk; by rewrite list_lookup_total_insert_ne|].
    destruct (decide (c < length (contexts a))%nat); [left; by apply list_lookup_total_insert_eq|right; by rewrite list_insert_ge by lia]. }
  assert (∀ g, Some (a, g) = Some (a', f') → arenaID a' = arenaID a ∧ length (contexts a') = length (contexts a) ∧
    ∀ c, held f = Some c ∨ contexts a' !!! c = contexts a !!! c ∨ (∃ k, contexts a' !!! c = setClaim k (contexts a !!! c)) ∨ (∃ g, f = ROwn c g)) as Hread
    by (intros g [= <- <-]; naive_solver).
  assert (∀ c x (g : frame), Some (setContext a c x, g) = Some (a', f') → held f = Some c ∨ (∃ k, x = setClaim k (contexts a !!! c)) ∨ (∃ g, f = ROwn c g) →
    arenaID a' = arenaID a ∧ length (contexts a') = length (contexts a) ∧
    ∀ c, held f = Some c ∨ contexts a' !!! c = contexts a !!! c ∨ (∃ k, contexts a' !!! c = setClaim k (contexts a !!! c)) ∨ (∃ g, f = ROwn c g)) as Hupd.
  { intros c x g Heq Hx. destruct (Hset c x g Heq) as (E1 & E2 & E3 & E4). split_and!; [done|done|]. intros k. destruct (decide (k = c)) as [->|Hne]; [|naive_solver].
    destruct E4; naive_solver. }
  destruct f; simpl in Hexec; repeat case_match; try done;
    first [exact (Hread _ Hexec) | refine (Hupd _ _ _ Hexec _); naive_solver | simplify_eq/=; naive_solver].
Qed.

Lemma leaseContext_frame a a' l : arenaID a' = arenaID a → length (contexts a') = length (contexts a) → leaseContext a' l = leaseContext a l.
Proof. intros E1 E2. unfold leaseContext. by rewrite E1, E2. Qed.

(** A pending [Return] passes its check only with the current generation. *)
Lemma exec_to_own a f a' c g : exec a f = Some (a', ROwn c g) →
  ∃ l, f = RCheck l ∧ leaseContext a l = Some c ∧ lGeneration l = g ∧ generation (contexts a !!! c) = g.
Proof.
  destruct f; simpl; repeat case_match; intros ?; simplify_eq. eexists; split_and!; [done|done|done|].
  by apply Z.eqb_eq, negb_false_iff.
Qed.

Lemma exec_no_call a f a' f' : exec a f = Some (a', f') → isCall f' = false.
Proof. destruct f; simpl; repeat case_match; intros ?; by simplify_eq. Qed.

Lemma fire_held os l c s ev s' : owned os s → heldLease l c s → ev ≠ Call (RCheck l) → fire s ev = Some s' → heldLease l c s'.
Proof.
  intros Hown [H1 H2 H3 H4] Hev Hfire. destruct ev as [f|i|i]; simpl in Hfire.
  - destruct (isCall f) eqn:Hc; simplify_eq. split; simpl; try done. intros i g Hg.
    apply lookup_app_Some in Hg as [Hg|[_ Hg]]; [by eapply H4|]. apply list_lookup_singleton_Some in Hg as [_ <-]. destruct f; try done. simpl. congruence.
  - destruct (threads s !! i) as [f|] eqn:Hf; [|done]. simpl in Hfire. destruct (exec (arena s) f) as [[a f']|] eqn:He; [|done].
    simpl in Hfire. simplify_eq. destruct (exec_frame _ _ _ _ He) as (E1 & E2 & Hctx).
    assert (generation (contexts a !!! c) = generation (contexts (arena s) !!! c) ∧ state (contexts a !!! c) = state (contexts (arena s) !!! c)) as [Eg Es].
    { destruct (Hctx c) as [Hh|[->|[[k ->]|[g ->]]]]; [|done|done|].
      - by destruct (not_held os s i f c Hown Hf H3).
      - by destruct (H4 i _ Hf). }
    split; simpl; [by rewrite (leaseContext_frame (arena s))|by rewrite Eg|by rewrite Es|].
    intros j g. rewrite (thread_at s i f f' a Hf). case_bool_decide; [|apply H4]. intros [= <-]. destruct f'; try done; simpl.
    + by apply exec_no_call in He.
    + destruct (exec_to_own _ _ _ _ _ He) as (l' & -> & Hl' & <- & Hg). intros ->. apply (H4 i _ Hf).
      apply leaseContext_Some in H1 as (A1 & A2 & _). apply leaseContext_Some in Hl' as (B1 & B2 & _). destruct l, l'. simpl in *. congruence.
  - destruct (threads s !! i) as [f|] eqn:Hf; [|done]. simpl in Hfire. destruct f; simplify_eq. split; simpl; try done.
    intros j g. rewrite (thread_at s i BReceive (Finished (Failed ErrContextDone)) (arena s) Hf). case_bool_decide; [by intros [= <-]|apply H4].
Qed.

(** ** A claimed output *)

(** No pending call can end the claim [claim] on context [c] of lease generation [gen]. *)
Definition noPendingUndo (c : nat) (gen claim : Z) (f : frame) : Prop :=
  match f with
  | CRecheck k _ q | CRecheckState k _ q | CUndo k q | OSwap k q => ¬ (k = c ∧ q = claim)
  | OCheck o => ¬ (oContext o = Some c ∧ oGeneration o = gen ∧ oClaim o = claim)
  | BRetireLoad k | BRetireSwap k _ | BStamp k | BStampAgain k | BOwn k _ | RReset k | RAvailable k | RPublish k => k ≠ c
  | _ => True
  end.

Record pinned (c : nat) (gen claim : Z) (out : list Z) (s : system) : Prop := {
  pn_generation : generation (contexts (arena s) !!! c) = gen;
  pn_claim : outputClaim (contexts (arena s) !!! c) = claim;
  pn_output : output (contexts (arena s) !!! c) = out;
  pn_waiting : c ∉ available (arena s);
  pn_quiet i f : threads s !! i = Some f → noPendingUndo c gen claim f
}.

(** Frames that touch context [c] without ending an odd claim keep it. *)
Lemma exec_pinned a f a' f' c gen claim out :
  odd claim = true → (c < length (contexts a))%nat → frameOk (length (contexts a)) f →
  generation (contexts a !!! c) = gen → outputClaim (contexts a !!! c) = claim → output (contexts a !!! c) = out → c ∉ available a →
  noPendingUndo c gen claim f → exec a f = Some (a', f') →
  generation (contexts a' !!! c) = gen ∧ outputClaim (contexts a' !!! c) = claim ∧ output (contexts a' !!! c) = out ∧ c ∉ available a' ∧
  noPendingUndo c gen claim f'.
Proof.
  intros Hodd Hlt Hok Hg Hk Ho Hav Hq Hexec.
  assert (∀ k x, (k = c → generation x = gen ∧ outputClaim x = claim ∧ output x = out) →
    let b := setContext a k x in generation (contexts b !!! c) = gen ∧ outputClaim (contexts b !!! c) = claim ∧ output (contexts b !!! c) = out ∧ c ∉ available b) as Hset.
  { intros k x Hx. simpl. destruct (decide (k = c)) as [->|Hne]; [rewrite list_lookup_total_insert_eq by done|rewrite list_lookup_total_insert_ne by done]; naive_solver. }
  assert (∀ k x g, Some (setContext a k x, g) = Some (a', f') → (k = c → generation x = gen ∧ outputClaim x = claim ∧ output x = out) → noPendingUndo c gen claim g →
    generation (contexts a' !!! c) = gen ∧ outputClaim (contexts a' !!! c) = claim ∧ output (contexts a' !!! c) = out ∧ c ∉ available a' ∧
    noPendingUndo c gen claim f') as Hupd by (intros k x g [= <- <-] Hx Hn; destruct (Hset k x Hx) as (? & ? & ? & ?); done).
  assert (∀ g, Some (a, g) = Some (a', f') → noPendingUndo c gen claim g →
    generation (contexts a' !!! c) = gen ∧ outputClaim (contexts a' !!! c) = claim ∧ output (contexts a' !!! c) = out ∧ c ∉ available a' ∧
    noPendingUndo c gen claim f') as Hread by (by intros g [= <- <-] Hn).
  destruct f as [|k|k q|k|k|k g|l|k g|k g|k|k|k|k|k|l|k g|k g|k g q|k g q|k g q|k q|o|k q|r]; simpl in Hexec, Hq, Hok.
  - destruct (available a) as [|k rest]; [done|]. apply not_elem_of_cons in Hav as [Hne Hav]. case_bool_decide; [|by eapply Hread].
    simplify_eq. by split_and!.
  - eapply Hread; [exact Hexec|]. destruct (odd (outputClaim (contexts a !!! k))); exact Hq.
  - destruct (_ =? _); [eapply Hupd; [exact Hexec|by intros ->|done]|by eapply Hread].
  - eapply Hupd; [exact Hexec|by intros ->|]. destruct (_ =? _); exact Hq.
  - eapply Hupd; [exact Hexec|by intros ->|done].
  - destruct (_ =? _); [eapply Hupd; [exact Hexec|by intros ->|done]|by eapply Hread].
  - destruct (leaseContext a l); [destruct (negb _)|]; by eapply Hread.
  - destruct (_ =? _); [eapply Hupd; [exact Hexec|by intros ->|done]|by eapply Hread].
  - by eapply Hread.
  - destruct (odd (outputClaim (contexts a !!! k))) eqn:E; eapply Hread; try exact Hexec; [done|]. simpl. congruence.
  - eapply Hupd; [exact Hexec|by intros ->|done].
  - eapply Hupd; [exact Hexec|by intros ->|done].
  - eapply Hupd; [exact Hexec|by intros ->|done].
  - case_bool_decide; [|by eapply Hread]. simplify_eq. split_and!; try done. simpl. set_solver.
  - destruct (leaseContext a l); [|by eapply Hread]. eapply Hread; [exact Hexec|]. by destruct (negb _).
  - eapply Hread; [exact Hexec|]. by destruct (negb _).
  - eapply Hread; [exact Hexec|]. by destruct (_ || _).
  - destruct Hok as [_ Heven]. destruct (Z.eqb_spec (outputClaim (contexts a !!! k)) q); [|by eapply Hread].
    assert (k ≠ c) by congruence. eapply Hupd; [exact Hexec|done|]. simpl. naive_solver.
  - eapply Hread; [exact Hexec|]. by destruct (negb _).
  - eapply Hread; [exact Hexec|]. by destruct (negb _).
  - destruct (Z.eqb_spec (outputClaim (contexts a !!! k)) q); [|by eapply Hread]. eapply Hupd; [exact Hexec| |done]. intros ->. naive_solver.
  - destruct (oContext o) as [k|] eqn:Ek; [|by eapply Hread]. destruct (_ || _); [by eapply Hread|]. eapply Hread; [exact Hexec|].
    destruct (Z.eqb_spec (generation (contexts a !!! k)) (oGeneration o)); simpl; [|done]. intros [-> Hc]. apply Hq. split_and!; congruence.
  - destruct (Z.eqb_spec (outputClaim (contexts a !!! k)) q); [|by eapply Hread]. eapply Hupd; [exact Hexec| |done]. intros ->. naive_solver.
  - done.
Qed.

Lemma fire_pinned os c gen claim out s ev s' :
  owned os s → odd claim = true → (c < length (contexts (arena s)))%nat → pinned c gen claim out s →
  (∀ o, ev = Call (OCheck o) → ¬ (oContext o = Some c ∧ oGeneration o = gen ∧ oClaim o = claim)) → fire s ev = Some s' →
  pinned c gen claim out s' ∧ (c < length (contexts (arena s')))%nat.
Proof.
  intros Hown Hodd Hc [H1 H2 H3 H4 H5] Hev Hfire. destruct ev as [f|i|i]; simpl in Hfire.
  - destruct (isCall f) eqn:Hcall; simplify_eq. split; [|done]. split; simpl; try done. intros i g Hg.
    apply lookup_app_Some in Hg as [Hg|[_ Hg]]; [by eapply H5|]. apply list_lookup_singleton_Some in Hg as [_ <-]. destruct f; try done. by apply Hev.
  - destruct (threads s !! i) as [f|] eqn:Hf; [|done]. simpl in Hfire. destruct (exec (arena s) f) as [[a f']|] eqn:He; [|done].
    simpl in Hfire. simplify_eq.
    destruct (exec_pinned _ _ _ _ c _ _ _ Hodd Hc (ow_frames _ _ Hown i f Hf) eq_refl eq_refl eq_refl H4 (H5 i f Hf) He) as (E1 & E2 & E3 & E4 & E5).
    destruct (exec_frame _ _ _ _ He) as (_ & El & _). split; [|simpl; by rewrite El]. split; simpl; try done.
    intros j g. rewrite (thread_at s i f f' a Hf). case_bool_decide; [by intros [= <-]|apply H5].
  - destruct (threads s !! i) as [f|] eqn:Hf; [|done]. simpl in Hfire. destruct f; simplify_eq. split; [|done]. split; simpl; try done.
    intros j g. rewrite (thread_at s i BReceive (Finished (Failed ErrContextDone)) (arena s) Hf). case_bool_decide; [by intros [= <-]|apply H5].
Qed.

(** ** Buffer operations of a lease *)

(** [lease.active()] as the other methods use it. *)
Definition activeContext (a : Arena) (l : Lease) : go nat :=
  match leaseContext a l with
  | None => Err ErrInvalidLease
  | Some c => if active a l then Ok c else Err ErrLeaseExpired
  end.

Definition setBuffers (inp out : list Z) (cap : Z) (x : Context) : Context :=
  {| generation := generation x; state := state x; outputClaim := outputClaim x; input := inp; output := out; offsetsCap := cap |}.

(** [growExact] keeps the values and raises the capacity to at least [n]. *)
Definition growExact (cap n : Z) : Z := if n <=? cap then cap else n.

Definition Grow (a : Arena) (l : Lease) (capacity : Capacity) : go Arena :=
  c ← activeContext a l;
  offsets ← validateCapacity capacity;
  let x := contexts a !!! c in
  check (negb (odd (outputClaim x))) ErrOutputClaimed ;;
  Ok (setContext a c (setBuffers (input x) (output x) (growExact (offsetsCap x) offsets) x)).

Definition SetInput (a : Arena) (l : Lease) (source : list Z) : go Arena :=
  c ← activeContext a l;
  let x := contexts a !!! c in
  Ok (setContext a c (setBuffers source (output x) (offsetsCap x) x)).

Definition LeaseInputBytes (a : Arena) (l : Lease) : go (list Z) :=
  c ← activeContext a l; Ok (input (contexts a !!! c)).

Definition AppendOutput (a : Arena) (l : Lease) (source : list Z) : go Arena :=
  c ← activeContext a l;
  let x := contexts a !!! c in
  check (negb (odd (outputClaim x))) ErrOutputClaimed ;;
  Ok (setContext a c (setBuffers (input x) (output x ++ source) (offsetsCap x) x)).

Definition ResetOutput (a : Arena) (l : Lease) : go Arena :=
  c ← activeContext a l;
  let x := contexts a !!! c in
  check (negb (odd (outputClaim x))) ErrOutputClaimed ;;
  Ok (setContext a c (setBuffers (input x) [] (offsetsCap x) x)).

(** [OutputLease.Bytes]. *)
Definition ClaimedBytes (a : Arena) (o : OutputLease) : go (list Z) :=
  match oContext o with
  | None => Err ErrInvalidLease
  | Some c =>
    check (negb ((oGeneration o =? 0) || negb (odd (oClaim o)) || negb (bool_decide (c < length (contexts a))%nat))) ErrInvalidLease ;;
    let x := contexts a !!! c in
    check ((generation x =? oGeneration o) && (state x =? contextBorrowed)) ErrLeaseExpired ;;
    check (outputClaim x =? oClaim o) ErrOutputNotClaimed ;;
    Ok (output x)
  end.

(** A call that runs without interference. *)
Fixpoint complete (fuel : nat) (a : Arena) (f : frame) : option (Arena * outcome) :=
  match f, fuel with
  | Finished r, _ => Some (a, r)
  | _, O => None
  | _, S fuel => '(a', f') ← exec a f; complete fuel a' f'
  end.

Lemma activeContext_ok a l : active a l = true → ∃ c, activeContext a l = Ok c ∧ leaseContext a l = Some c ∧ (c < length (contexts a))%nat ∧
  generation (contexts a !!! c) = lGeneration l ∧ state (contexts a !!! c) = contextBorrowed.
Proof.
  unfold activeContext. intros Ha. rewrite Ha. unfold active in Ha. destruct (leaseContext a l) as [c|] eqn:El; [|done].
  apply andb_true_iff in Ha as [Hg%Z.eqb_eq Hs%Z.eqb_eq]. pose proof (leaseContext_Some _ _ _ El) as (_ & _ & _ & Hc). by exists c.
Qed.

(** Writing the buffers of a context changes no atomic. *)
Lemma active_setContext a l c x : leaseContext a l = Some c → generation x = lGeneration l → state x = contextBorrowed →
  leaseContext (setContext a c x) l = Some c ∧ active (setContext a c x) l = true ∧ contexts (setContext a c x) !!! c = x.
Proof.
  intros El Hg Hs. pose proof (leaseContext_Some _ _ _ El) as (_ & _ & _ & Hc).
  assert (leaseContext (setContext a c x) l = Some c) as El' by (rewrite (leaseContext_frame a); [done|done|simpl; by rewrite length_insert]).
  pose proof (setContext_same a c x Hc) as Hx. split_and!; [done| |done]. unfold active. by rewrite El', Hx, Hg, Hs, Z.eqb_refl.
Qed.

Lemma complete_step n a f a' f' : exec a f = Some (a', f') → complete (S n) a f = complete n a' f'.
Proof. intros He. destruct f; cbn [complete]; try (by rewrite He); done. Qed.

(** The context after its reset and before its publication. *)
Definition returnedContext (x : Context) : Context := setState contextAvailable (resetContext (setState contextReturning x)).

(** A sequential [Return] of an unclaimed active lease. *)
Lemma return_completes a l c : leaseContext a l = Some c → active a l = true → odd (outputClaim (contexts a !!! c)) = false →
  (length (available a) < length (contexts a))%nat →
  complete 7 a (RCheck l) = Some ({| arenaID := arenaID a; available := available a ++ [c];
                                     contexts := <[c := returnedContext (contexts a !!! c)]> (contexts a) |}, Returned).
Proof.
  intros El Ha Hodd Hlen. destruct (activeContext_ok a l Ha) as (c' & _ & El' & Hc & Hg & Hs). simplify_eq.
  set (x := contexts a !!! c) in *.
  assert (∀ y, (c < length (contexts (setContext a c y)))%nat) as Hc' by (intros y; simpl; by rewrite length_insert).
  assert (∀ y z, setContext (setContext a c y) c z = setContext a c z) as Hss by (intros; unfold setContext; simpl; by rewrite list_insert_insert_eq).
  rewrite (complete_step _ _ _ a (ROwn c (lGeneration l))) by (unfold exec, returnStep; rewrite El; cbv beta iota zeta; fold x; by rewrite Hg, Z.eqb_refl).
  rewrite (complete_step _ _ _ (setContext a c (setState contextReturning x)) (RClaim c)) by (unfold exec, returnStep; cbv beta iota zeta; fold x; by rewrite Hs).
  rewrite (complete_step _ _ _ (setContext a c (setState contextReturning x)) (RReset c)).
  2: { unfold exec, returnStep. rewrite setContext_same by done. cbn [outputClaim setState]. by rewrite Hodd. }
  rewrite (complete_step _ _ _ (setContext a c (resetContext (setState contextReturning x))) (RAvailable c)).
  2: { unfold exec, returnStep. rewrite setContext_same by done. by rewrite Hss. }
  rewrite (complete_step _ _ _ (setContext a c (returnedContext x)) (RPublish c)).
  2: { unfold exec, returnStep. rewrite setContext_same by done. by rewrite Hss. }
  rewrite (complete_step _ _ _ {| arenaID := arenaID a; available := available a ++ [c]; contexts := <[c := returnedContext x]> (contexts a) |} (Finished Returned)); [done|].
  unfold exec, returnStep, setContext. simpl. rewrite length_insert. by rewrite bool_decide_eq_true_2.
Qed.

(** ** Two interleavings of misused leases *)

Definition arenaOf (a : go Arena) : system :=
  match a with Ok a => {| arena := a; threads := [] |} | _ => {| arena := {| arenaID := 0; available := []; contexts := [] |}; threads := [] |} end.

Definition oneContext : system := arenaOf (NewArena 7 1 {| InputBytes := 0; OutputBytes := 0; Rows_ := 8 |}).
Definition leaseNo (gen : Z) : Lease := {| lArena := Some 7; lContext := Some 0%nat; lGeneration := gen |}.

(** Two calls return copies of lease 1; the first is overtaken between its
    generation check and its compare-and-swap by the second and by a new borrower. *)
Definition overtakenReturn : list event :=
  Call BReceive :: replicate 4 (Step 0) ++ [Call (RCheck (leaseNo 1)); Step 1; Call (RCheck (leaseNo 1))] ++ replicate 6 (Step 2) ++
  Call BReceive :: replicate 4 (Step 3) ++ replicate 5 (Step 1).


(** [ClaimOutput] on lease 1 races with the return of lease 1; its late undo
    meets the first claim of lease 2, whose counter restarted at zero. *)
Definition lateUndo : list event :=
  Call BReceive :: replicate 4 (Step 0) ++ Call (CActive (leaseNo 1)) :: replicate 3 (Step 1) ++
  Call (RCheck (leaseNo 1)) :: replicate 3 (Step 2) ++ [Step 1] ++ replicate 3 (Step 2) ++
  Call BReceive :: replicate 4 (Step 3) ++ Call (CActive (leaseNo 2)) :: replicate 6 (Step 4) ++ replicate 2 (Step 1) ++
  Call (RCheck (leaseNo 2)) :: replicate 6 (Step 5).


(** ** Properties *)

(** C15: along every interleaving of any number of concurrent calls, with any leases,
    copied or expired ones included, each context of the arena has exactly one
    owner (the channel, one pending call or a lease), ownership moves only by the
    steps of the abstract machine, and no call panics. *)
Theorem contexts_owned_once (id count : Z) (capacity : Capacity) (a : Arena) (evs : list event) (s : system) :
  NewArena id count capacity = Ok a → run evs {| arena := a; threads := [] |} = Some s →
  ∃ os, rtc ownStep (replicate (Z.to_nat count) InChannel) os ∧ owned os s ∧ length (contexts (arena s)) = Z.to_nat count ∧
    ∀ i msg, threads s !! i ≠ Some (Finished (Panicked msg)).
Proof.
  intros Hnew Hrun. destruct (NewArena_owned id count capacity a Hnew) as [Hown Hlen].
  destruct (run_owned evs _ s _ Hown Hrun) as (os & Hr & Ho). exists os. split_and!; [done|done| |].
  - rewrite <-(ow_length _ _ Ho). assert (∀ os1 os2, rtc ownStep os1 os2 → length os2 = length os1) as Hl.
    { induction 1 as [|? ? ? Hstep _ IH]; [done|]. rewrite IH. destruct Hstep; by rewrite length_insert. }
    rewrite (Hl _ _ Hr). apply length_replicate.
  - intros i msg Hi. apply (ow_frames _ _ Ho i _ Hi).
Qed.



(** Buffers of an uncontended lease: input is read back as it was set, output
    accumulates, and a return hands the context on with empty buffers and makes
    every later operation on the lease fail as expired. *)
Theorem lease_buffers_round_trip (a : Arena) (l : Lease) (c : nat) (source out1 out2 : list Z) :
  leaseContext a l = Some c → active a l = true → odd (outputClaim (contexts a !!! c)) = false →
  (length (available a) < length (contexts a))%nat →
  ∃ a1 a2 a3 a4, SetInput a l source = Ok a1 ∧ LeaseInputBytes a1 l = Ok source ∧
    AppendOutput a1 l out1 = Ok a2 ∧ AppendOutput a2 l out2 = Ok a3 ∧
    output (contexts a3 !!! c) = output (contexts a !!! c) ++ out1 ++ out2 ∧ input (contexts a3 !!! c) = source ∧
    complete 7 a3 (RCheck l) = Some (a4, Returned) ∧ input (contexts a4 !!! c) = [] ∧ output (contexts a4 !!! c) = [] ∧
    available a4 = available a ++ [c] ∧ SetInput a4 l source = Err ErrLeaseExpired ∧ AppendOutput a4 l out1 = Err ErrLeaseExpired.
Proof.
  intros El Ha Hodd Hlen. destruct (activeContext_ok a l Ha) as (c' & Eac & El' & Hc & Hg & Hs). simplify_eq.
  set (x := contexts a !!! c) in *. assert (∀ y z, setContext (setContext a c y) c z = setContext a c z) as Hss
    by (intros; unfold setContext; simpl; by rewrite list_insert_insert_eq).
  assert (∀ inp out cap, let y := setBuffers inp out cap x in leaseContext (setContext a c y) l = Some c ∧ active (setContext a c y) l = true ∧
    activeContext (setContext a c y) l = Ok c ∧ contexts (setContext a c y) !!! c = y) as Hset.
  { intros inp out cap y. destruct (active_setContext a l c y El Hg Hs) as (E1 & E2 & E3). split_and!; try done. unfold activeContext. by rewrite E1, E2. }
  exists (setContext a c (setBuffers source (output x) (offsetsCap x) x)), (setContext a c (setBuffers source (output x ++ out1) (offsetsCap x) x)),
    (setContext a c (setBuffers source ((output x ++ out1) ++ out2) (offsetsCap x) x)).
  destruct (Hset source (output x) (offsetsCap x)) as (A1 & A2 & A3 & A4). destruct (Hset source (output x ++ out1) (offsetsCap x)) as (B1 & B2 & B3 & B4).
  destruct (Hset source ((output x ++ out1) ++ out2) (offsetsCap x)) as (C1 & C2 & C3 & C4).
  eexists. split; [unfold SetInput; by rewrite Eac|]. split; [unfold LeaseInputBytes; rewrite A3, go_bind_Ok, A4; done|].
  split; [unfold AppendOutput; rewrite A3, go_bind_Ok, A4; cbn [outputClaim setBuffers]; rewrite Hodd; cbn [negb check]; rewrite go_bind_Ok, Hss; done|].
  split; [unfold AppendOutput; rewrite B3, go_bind_Ok, B4; cbn [outputClaim setBuffers]; rewrite Hodd; cbn [negb check]; rewrite go_bind_Ok, Hss; done|].
  split; [rewrite C4; simpl; by rewrite app_assoc|]. split; [by rewrite C4|].
  split; [apply (return_completes _ l c C1 C2); [by rewrite C4|simpl; by rewrite length_insert]|]. rewrite C4. cbn [contexts available setContext].
  rewrite list_insert_insert_eq. rewrite list_lookup_total_insert_eq by done. split_and!; [done|done|done| |].
  all: unfold SetInput, AppendOutput, activeContext; rewrite (leaseContext_frame a) by (done || (simpl; by rewrite length_insert)); rewrite El;
    unfold active; rewrite (leaseContext_frame a) by (done || (simpl; by rewrite length_insert)); rewrite El; cbn [contexts];
    rewrite list_lookup_total_insert_eq by done; simpl; by rewrite andb_false_r.
Qed.
