(* ===== verification/Admission.v ===== *)
(** * Admission, work tokens and shutdown: [internal/scheduler/scheduler.go], [worker.go]

    [Scheduler.Execute] admits a call with a batch state, reserves work tokens,
    hands one shard per token to the workers (or runs a single shard itself),
    waits for its shards and gives the state back; [CloseContext] drains the
    states, closes the job channel and joins the workers.  Every channel
    operation and every choice of a [select] is one step of the model, so all
    interleavings of callers, workers, cancellation and shutdown are covered.
    The theorems show that tokens, batch states and contexts are conserved,
    that no send blocks or hits a closed channel, that the system never
    deadlocks, and that a closed scheduler is drained. *)

From S2P Require Import Prelude Execute Shard Lease.

Local Open Scope nat_scope.

(** ** State *)

(** [executeShard] and the end of [runShard]. *)
Inductive shardFrame :=
  | SBorrow  (** waiting for a context of the arena *)
  | SRun     (** evaluating with a borrowed context *)
  | SToken   (** the context is returned; the token is not yet *)
  | SDone.   (** [state.done.Done()] is left *)

(** The next channel operation of a call of [Execute]. *)
Inductive callFrame :=
  | XEnter
  | XAdmit
  | XAdmitted
  | XAcquire
  | XAcquired
  | XReserve (acquired : nat)
  | XShard (shard : shardFrame)
  | XSubmit (total submitted : nat)
  | XUnsent (remaining : nat)
  | XUnsentDone (remaining : nat)
  | XWait
  | XFinish
  | XGiveToken (err : error)
  | XGiveState (err : error)
  | XDone (err : option error).  (** the error of a return before the shards; [None] after them,
                                     where the result is that of [schedulerExecute] or the caller's cancellation *)

(** A call: the rows of its batch and the counter of its wait group. *)
Record callState := { xRows : Z; xPending : nat; xFrame : callFrame }.

Inductive workerFrame := WIdle | WShard (call : nat) (shard : shardFrame) | WExit.
Inductive shutdownFrame := DNone | DDrain (drained : nat) | DJoin | DClosed.

Record sched := {
  workers : nat;
  queueDepth : nat;
  parallelRows : Z;
  freeStates : nat;      (** [available] *)
  workTokens : nat;
  freeContexts : nat;    (** contexts in the arena's channel *)
  jobs : list nat;       (** the calls whose shards are queued *)
  jobsClosed : bool;
  stopping : bool;
  shutdown : shutdownFrame;
  calls : list callState;
  pool : list workerFrame
}.

#[global] Instance callState_inhabited : Inhabited callState := populate {| xRows := 0; xPending := 0; xFrame := XEnter |}.

(** Admission states, tokens, contexts and idle workers of a new scheduler. *)
Definition newSched (w q : nat) (rows : Z) : sched := {|
  workers := w; queueDepth := q; parallelRows := rows; freeStates := q; workTokens := w; freeContexts := w; jobs := []; jobsClosed := false;
  stopping := false; shutdown := DNone; calls := []; pool := replicate w WIdle
|}.

Record Config := { cfgCapacity : Capacity; Workers : Z; QueueDepth : Z; ParallelRows : Z }.

Definition NewScheduler (config : Config) : go sched :=
  check (negb ((Workers config <=? 0) || (QueueDepth config <=? 0)))%Z ErrInvalidScheduler ;;
  _ ← orElse (validateCapacity (cfgCapacity config)) ErrInvalidScheduler;
  check (negb (MaxInt / Workers config <? QueueDepth config))%Z ErrInvalidScheduler ;;
  _ ← orElse (NewArena 0 (Workers config) (cfgCapacity config)) ErrInvalidScheduler;
  Ok (newSched (Z.to_nat (Workers config)) (Z.to_nat (QueueDepth config)) (ParallelRows config)).

(** ** Steps *)

(** Field updates. *)
Definition withStates (n : nat) (s : sched) : sched :=
  {| workers := workers s; queueDepth := queueDepth s; parallelRows := parallelRows s; freeStates := n; workTokens := workTokens s;
     freeContexts := freeContexts s; jobs := jobs s; jobsClosed := jobsClosed s; stopping := stopping s; shutdown := shutdown s; calls := calls s; pool := pool s |}.
Definition withTokens (n : nat) (s : sched) : sched :=
  {| workers := workers s; queueDepth := queueDepth s; parallelRows := parallelRows s; freeStates := freeStates s; workTokens := n;
     freeContexts := freeContexts s; jobs := jobs s; jobsClosed := jobsClosed s; stopping := stopping s; shutdown := shutdown s; calls := calls s; pool := pool s |}.
Definition withContexts (n : nat) (s : sched) : sched :=
  {| workers := workers s; queueDepth := queueDepth s; parallelRows := parallelRows s; freeStates := freeStates s; workTokens := workTokens s;
     freeContexts := n; jobs := jobs s; jobsClosed := jobsClosed s; stopping := stopping s; shutdown := shutdown s; calls := calls s; pool := pool s |}.
Definition withJobs (l : list nat) (s : sched) : sched :=
  {| workers := workers s; queueDepth := queueDepth s; parallelRows := parallelRows s; freeStates := freeStates s; workTokens := workTokens s;
     freeContexts := freeContexts s; jobs := l; jobsClosed := jobsClosed s; stopping := stopping s; shutdown := shutdown s; calls := calls s; pool := pool s |}.
Definition withCalls (l : list callState) (s : sched) : sched :=
  {| workers := workers s; queueDepth := queueDepth s; parallelRows := parallelRows s; freeStates := freeStates s; workTokens := workTokens s;
     freeContexts := freeContexts s; jobs := jobs s; jobsClosed := jobsClosed s; stopping := stopping s; shutdown := shutdown s; calls := l; pool := pool s |}.
Definition withPool (l : list workerFrame) (s : sched) : sched :=
  {| workers := workers s; queueDepth := queueDepth s; parallelRows := parallelRows s; freeStates := freeStates s; workTokens := workTokens s;
     freeContexts := freeContexts s; jobs := jobs s; jobsClosed := jobsClosed s; stopping := stopping s; shutdown := shutdown s; calls := calls s; pool := l |}.
Definition withShutdown (stop closed : bool) (d : shutdownFrame) (s : sched) : sched :=
  {| workers := workers s; queueDepth := queueDepth s; parallelRows := parallelRows s; freeStates := freeStates s; workTokens := workTokens s;
     freeContexts := freeContexts s; jobs := jobs s; jobsClosed := closed; stopping := stop; shutdown := d; calls := calls s; pool := pool s |}.

Definition setFrame (i : nat) (f : callFrame) (s : sched) : sched :=
  withCalls (alter (λ x, {| xRows := xRows x; xPending := xPending x; xFrame := f |}) i (calls s)) s.
Definition setPending (i : nat) (n : nat) (s : sched) : sched :=
  withCalls (alter (λ x, {| xRows := xRows x; xPending := n; xFrame := xFrame x |}) i (calls s)) s.

(** [c <- x] on a buffered channel holding [n] of [cap] elements: blocked when full. *)
Definition send (n cap : nat) : option nat := if n <? cap then Some (S n) else None.
(** [<-c]: blocked when empty. *)
Definition receive (n : nat) : option nat := match n with O => None | S n => Some n end.

(** After the reservation loop: partition, start the wait group, dispatch. *)
Definition launch (i acquired : nat) (x : callState) (s : sched) : sched :=
  let n := length (partitionRows (workers s) (xRows x) (Z.of_nat acquired)) in
  setFrame i (if n =? 1 then XShard SBorrow else XSubmit n 0) (setPending i n s).

(** One step of a shard of call [i]; the second component is [None] when the shard is over.
    [state.done.Done()] of a zero counter would panic: the step is then refused. *)
Definition shardStep (i : nat) (f : shardFrame) (s : sched) : option (sched * option shardFrame) :=
  match f with
  | SBorrow => n ← receive (freeContexts s); Some (withContexts n s, Some SRun)
  | SRun => n ← send (freeContexts s) (workers s); Some (withContexts n s, Some SToken)
  | SToken => n ← send (workTokens s) (workers s); Some (withTokens n s, Some SDone)
  | SDone => p ← receive (default 0 (xPending <$> calls s !! i)); Some (setPending i p s, None)
  end.

(** The next step of call [i] whose caller has not been cancelled. *)
Definition callStep (i : nat) (x : callState) (s : sched) : option sched :=
  match xFrame x with
  | XEnter => Some (setFrame i (if stopping s then XDone (Some ErrSchedulerClosed) else XAdmit) s)
  | XAdmit => n ← receive (freeStates s); Some (setFrame i XAdmitted (withStates n s))
  | XAdmitted => Some (setFrame i (if stopping s then XGiveState ErrSchedulerClosed else XAcquire) s)
  | XAcquire => n ← receive (workTokens s); Some (setFrame i XAcquired (withTokens n s))
  | XAcquired => Some (setFrame i (XReserve 1) s)
  | XReserve acquired =>
    if (Z.of_nat acquired <? desiredShards (parallelRows s) (Z.of_nat (workers s)) (xRows x))%Z then
      match receive (workTokens s) with
      | Some n => Some (setFrame i (XReserve (S acquired)) (withTokens n s))
      | None => Some (launch i acquired x s)
      end
    else Some (launch i acquired x s)
  | XShard f =>
    '(s, f) ← shardStep i f s;
    Some (setFrame i (match f with Some f => XShard f | None => XWait end) s)
  | XSubmit total submitted =>
    if submitted <? total then
      (* a send on the closed channel panics *)
      if jobsClosed s then None else
      _ ← send (length (jobs s)) (workers s);
      Some (setFrame i (XSubmit total (S submitted)) (withJobs (jobs s ++ [i]) s))
    else Some (setFrame i XWait s)
  | XUnsent remaining =>
    match remaining with
    | O => Some (setFrame i XWait s)
    | S remaining => n ← send (workTokens s) (workers s); Some (setFrame i (XUnsentDone remaining) (withTokens n s))
    end
  | XUnsentDone remaining => p ← receive (xPending x); Some (setFrame i (XUnsent remaining) (setPending i p s))
  | XWait => match xPending x with O => Some (setFrame i XFinish s) | S _ => None end
  | XFinish => n ← send (freeStates s) (queueDepth s); Some (setFrame i (XDone None) (withStates n s))
  | XGiveToken err => n ← send (workTokens s) (workers s); Some (setFrame i (XGiveState err) (withTokens n s))
  | XGiveState err => n ← send (freeStates s) (queueDepth s); Some (setFrame i (XDone (Some err)) (withStates n s))
  | XDone _ => None
  end.

(** The branch a cancelled caller takes where the code looks at its context. *)
Definition cancelStep (i : nat) (x : callState) (s : sched) : option sched :=
  match xFrame x with
  | XEnter | XAdmit => Some (setFrame i (XDone (Some ErrContextDone)) s)
  | XAdmitted | XAcquire => Some (setFrame i (XGiveState ErrContextDone) s)
  | XAcquired => Some (setFrame i (XGiveToken ErrContextDone) s)
  | XShard SBorrow => Some (setFrame i (XShard SToken) s)
  | XSubmit total submitted => if submitted <? total then Some (setFrame i (XUnsent (total - submitted)) s) else None
  | _ => None
  end.

(** The [stopping] branch of the admission [select]. *)
Definition stopStep (i : nat) (x : callState) (s : sched) : option sched :=
  match xFrame x with
  | XAdmit => if stopping s then Some (setFrame i (XDone (Some ErrSchedulerClosed)) s) else None
  | _ => None
  end.

(** [for job := range scheduler.jobs { runShard }]. *)
Definition workerStep (w : nat) (f : workerFrame) (s : sched) : option sched :=
  match f with
  | WIdle =>
    match jobs s with
    | i :: rest => Some (withPool (<[w := WShard i SBorrow]> (pool s)) (withJobs rest s))
    | [] => if jobsClosed s then Some (withPool (<[w := WExit]> (pool s)) s) else None
    end
  | WShard i f =>
    '(s, f) ← shardStep i f s;
    Some (withPool (<[w := match f with Some f => WShard i f | None => WIdle end]> (pool s)) s)
  | WExit => None
  end.

(** The goroutine started by [CloseContext]. *)
Definition shutdownStep (s : sched) : option sched :=
  match shutdown s with
  | DDrain drained =>
    if drained <? queueDepth s then
      n ← receive (freeStates s); Some (withShutdown (stopping s) (jobsClosed s) (DDrain (S drained)) (withStates n s))
    else Some (withShutdown (stopping s) true DJoin s)
  | DJoin => if forallb (λ f, match f with WExit => true | _ => false end) (pool s)
             then Some (withShutdown (stopping s) (jobsClosed s) DClosed s) else None
  | DNone | DClosed => None
  end.

(** [CloseContext]: [closeOnce] closes [stopping] and starts the shutdown.  The caller then waits
    for [closed], that is for [DClosed], or for its own cancellation, and changes nothing. *)
Definition CloseContext (s : sched) : sched := if stopping s then s else withShutdown true (jobsClosed s) (DDrain 0) s.

Inductive event :=
  | Call (rows : Z)      (** a client calls [Execute] *)
  | CloseCall            (** a client calls [CloseContext] *)
  | Step (i : nat) | Cancel (i : nat) | Stop (i : nat) | Worker (w : nat) | WorkerCancel (w : nat) | Shutdown.

Definition fire (s : sched) (ev : event) : option sched :=
  match ev with
  | Call rows =>
    if bool_decide (0 ≤ rows < 2 ^ 32)%Z then Some (withCalls (calls s ++ [{| xRows := rows; xPending := 0; xFrame := XEnter |}]) s) else None
  | CloseCall => Some (CloseContext s)
  | Step i => x ← calls s !! i; callStep i x s
  | Cancel i => x ← calls s !! i; cancelStep i x s
  | Stop i => x ← calls s !! i; stopStep i x s
  | Worker w => f ← pool s !! w; workerStep w f s
  | WorkerCancel w =>
    f ← pool s !! w;
    match f with WShard i SBorrow => Some (withPool (<[w := WShard i SToken]> (pool s)) s) | _ => None end
  | Shutdown => shutdownStep s
  end.

Fixpoint run (evs : list event) (s : sched) : option sched :=
  match evs with
  | [] => Some s
  | ev :: evs => s' ← fire s ev; run evs s'
  end.

Lemma sched_ind (P : sched → Prop) evs s s' :
  (∀ t ev t', P t → fire t ev = Some t' → P t') → P s → run evs s = Some s' → P s'.
Proof.
  intros Hstep. revert s. induction evs as [|ev evs IH]; intros s Hs Hrun; simpl in Hrun; [by simplify_eq|].
  destruct (fire s ev) as [t|] eqn:E; [|done]. apply (IH t); [by eapply Hstep|done].
Qed.

(** ** Conservation *)

Lemma sum_insert {A} (g : A → nat) l i x y : l !! i = Some x → sum_list_with g (<[i := y]> l) + g x = sum_list_with g l + g y.
Proof. revert i. induction l as [|z l IH]; intros [|i] Hi; simplify_eq/=; [lia|]. specialize (IH i Hi). lia. Qed.

Lemma sum_app {A} (g : A → nat) l k : sum_list_with g (l ++ k) = sum_list_with g l + sum_list_with g k.
Proof. induction l as [|x l IH]; simpl; [done|]. rewrite IH. lia. Qed.

Lemma sum_le {A} (g : A → nat) l i x : l !! i = Some x → g x ≤ sum_list_with g l.
Proof. revert i. induction l as [|z l IH]; intros [|i] Hi; simplify_eq/=; [lia|]. specialize (IH i Hi). lia. Qed.

Lemma sum_pos {A} (g : A → nat) l : 0 < sum_list_with g l → ∃ i x, l !! i = Some x ∧ 0 < g x.
Proof.
  induction l as [|z l IH]; simpl; [lia|]. intros Hs. destruct (decide (0 < g z)); [by exists 0, z|].
  destruct IH as (i & x & Hi & Hx); [lia|]. by exists (S i), x.
Qed.

Definition shardTokens (f : shardFrame) : nat := match f with SDone => 0 | _ => 1 end.
Definition shardContexts (f : shardFrame) : nat := match f with SRun => 1 | _ => 0 end.

(** What a pending call holds. *)
Definition callTokens (x : callState) : nat :=
  match xFrame x with
  | XAcquired | XGiveToken _ => 1
  | XReserve acquired => acquired
  | XShard f => shardTokens f
  | XSubmit total submitted => total - submitted
  | XUnsent remaining | XUnsentDone remaining => remaining
  | _ => 0
  end.
Definition callStates (x : callState) : nat := match xFrame x with XEnter | XAdmit | XDone _ => 0 | _ => 1 end.
Definition callContexts (x : callState) : nat := match xFrame x with XShard f => shardContexts f | _ => 0 end.

(** The shards of a call that are neither queued nor with a worker. *)
Definition callShards (x : callState) : nat :=
  match xFrame x with
  | XShard _ => 1
  | XSubmit total submitted => total - submitted
  | XUnsent remaining => remaining
  | XUnsentDone remaining => S remaining
  | _ => 0
  end.

Definition workerTokens (f : workerFrame) : nat := match f with WShard _ f => shardTokens f | _ => 0 end.
Definition workerContexts (f : workerFrame) : nat := match f with WShard _ f => shardContexts f | _ => 0 end.
Definition jobOf (i j : nat) : nat := if j =? i then 1 else 0.
Definition workerOf (i : nat) (f : workerFrame) : nat := match f with WShard j _ => jobOf i j | _ => 0 end.
Definition drainedStates (q : nat) (d : shutdownFrame) : nat := match d with DNone => 0 | DDrain k => k | _ => q end.

(** The wait group counts only while shards are out. *)
Definition frameGood (s : sched) (x : callState) : Prop :=
  is_u32 (xRows x) ∧
  match xFrame x with
  | XReserve acquired => xPending x = 0 ∧ (1 ≤ Z.of_nat acquired ≤ desiredShards (parallelRows s) (Z.of_nat (workers s)) (xRows x))%Z
  | XSubmit total submitted => submitted ≤ total
  | XShard _ | XUnsent _ | XUnsentDone _ | XWait => True
  | _ => xPending x = 0
  end.

Record inv (s : sched) : Prop := {
  in_workers : 0 < workers s ∧ length (pool s) = workers s ∧ 0 < queueDepth s;
  in_states : freeStates s + sum_list_with callStates (calls s) + drainedStates (queueDepth s) (shutdown s) = queueDepth s;
  in_tokens : workTokens s + sum_list_with callTokens (calls s) + length (jobs s) + sum_list_with workerTokens (pool s) = workers s;
  in_contexts : freeContexts s + sum_list_with callContexts (calls s) + sum_list_with workerContexts (pool s) = workers s;
  in_pending i x : calls s !! i = Some x →
    xPending x = callShards x + sum_list_with (jobOf i) (jobs s) + sum_list_with (workerOf i) (pool s) ∧ frameGood s x;
  in_jobs : Forall (λ i, i < length (calls s)) (jobs s) ∧ Forall (λ f, match f with WShard i _ => i < length (calls s) | _ => True end) (pool s);
  in_stopping : stopping s = false ↔ shutdown s = DNone;
  in_closed : jobsClosed s = true ↔ shutdown s = DJoin ∨ shutdown s = DClosed;
  in_exit w : pool s !! w = Some WExit → jobsClosed s = true ∧ jobs s = [];
  in_joined : shutdown s = DClosed → Forall (λ f, f = WExit) (pool s)
}.

Lemma sum_queued k i (queued : bool) : sum_list_with (jobOf k) (if queued then [i] else []) = if queued && (i =? k) then 1 else 0.
Proof. destruct queued; simpl; [|done]. unfold jobOf. by destruct (i =? k). Qed.

(** The fields that only shutdown changes. *)
Record same (s s' : sched) : Prop := {
  sm_config : workers s' = workers s ∧ queueDepth s' = queueDepth s ∧ parallelRows s' = parallelRows s;
  sm_shutdown : shutdown s' = shutdown s ∧ stopping s' = stopping s ∧ jobsClosed s' = jobsClosed s
}.

Lemma frameGood_same s s' x : same s s' → frameGood s x → frameGood s' x.
Proof. intros [(E1 & E2 & E3) _]. unfold frameGood. by rewrite E1, E3. Qed.

(** A step of call [i]: it may queue one shard. *)
Lemma inv_call s s' i x x' (queued : bool) :
  inv s → calls s !! i = Some x → same s s' → calls s' = <[i := x']> (calls s) → pool s' = pool s →
  jobs s' = jobs s ++ (if queued then [i] else []) → (queued = true → jobsClosed s = false) →
  freeStates s' + callStates x' = freeStates s + callStates x →
  workTokens s' + callTokens x' + (if queued then 1 else 0) = workTokens s + callTokens x →
  freeContexts s' + callContexts x' = freeContexts s + callContexts x →
  xPending x' + callShards x = xPending x + callShards x' + (if queued then 1 else 0) →
  frameGood s x' → inv s'.
Proof.
  intros [Hw Hst Htk Hcx Hp [Hj1 Hj2] Hsp Hcl Hex Hjn] Hi Hsame Hcalls Hpool Hjobs Hq Bst Btk Bcx Bp Hgood.
  pose proof (sum_insert callStates _ i x x' Hi) as S1. pose proof (sum_insert callTokens _ i x x' Hi) as S2.
  pose proof (sum_insert callContexts _ i x x' Hi) as S3. pose proof Hsame as [(E1 & E2 & E3) (E4 & E5 & E6)].
  assert (length (jobs s') = length (jobs s) + (if queued then 1 else 0)) as Hlj by (rewrite Hjobs, length_app; by destruct queued).
  split; rewrite ?Hcalls, ?Hpool, ?E1, ?E2, ?E4, ?E5, ?E6, ?Hlj; try done; try lia.
  - intros k y Hk. destruct (decide (k = i)) as [->|Hne].
    + rewrite list_lookup_insert_eq in Hk by (by eapply lookup_lt_Some). simplify_eq. destruct (Hp i x Hi) as [Hpx _]. split; [|by eapply frameGood_same].
      rewrite Hjobs, sum_app, sum_queued, Nat.eqb_refl. destruct queued; cbn [andb] in *; lia.
    + rewrite list_lookup_insert_ne in Hk by done. destruct (Hp k y Hk) as [Hpy Hgy]. split; [|by eapply frameGood_same].
      rewrite Hjobs, sum_app, sum_queued, (proj2 (Nat.eqb_neq i k)) by done. destruct queued; cbn [andb] in *; lia.
  - rewrite length_insert. split; [|done]. rewrite Hjobs. apply Forall_app. split; [done|]. destruct queued; [|done].
    apply Forall_singleton. by eapply lookup_lt_Some.
  - intros w Hx. destruct (Hex w Hx) as [Hc He]. split; [done|]. rewrite Hjobs, He. destruct queued; [|done]. by rewrite Hq in Hc.
Qed.

(** A step of worker [w] that queues and takes no job; it may finish a shard of call [i]. *)
Lemma inv_worker s s' w f f' (finished : option nat) :
  inv s → pool s !! w = Some f → same s s' → pool s' = <[w := f']> (pool s) → jobs s' = jobs s → freeStates s' = freeStates s →
  workTokens s' + workerTokens f' = workTokens s + workerTokens f → freeContexts s' + workerContexts f' = freeContexts s + workerContexts f →
  (match f' with WShard i _ => ∃ g, f = WShard i g | WExit => jobsClosed s = true ∧ jobs s = [] | WIdle => True end) →
  shutdown s ≠ DClosed →
  match finished with
  | None => calls s' = calls s ∧ ∀ i, workerOf i f' = workerOf i f
  | Some i => f' = WIdle ∧ workerOf i f = 1 ∧ (∀ k, k ≠ i → workerOf k f = 0) ∧
      ∃ x p, calls s !! i = Some x ∧ xPending x = S p ∧ calls s' = <[i := {| xRows := xRows x; xPending := p; xFrame := xFrame x |}]> (calls s)
  end → inv s'.
Proof.
  intros [Hw Hst Htk Hcx Hp [Hj1 Hj2] Hsp Hcl Hex Hjn] Hf Hsame Hpool Hjobs Hstates Btk Bcx Hf' Hnc Hfin.
  pose proof (sum_insert workerTokens _ w f f' Hf) as S2. pose proof (sum_insert workerContexts _ w f f' Hf) as S3.
  pose proof Hsame as [(E1 & E2 & E3) (E4 & E5 & E6)].
  assert (∀ g : callState → nat, (∀ x p, g {| xRows := xRows x; xPending := p; xFrame := xFrame x |} = g x) →
    sum_list_with g (calls s') = sum_list_with g (calls s)) as Hsum.
  { intros g Hg. destruct finished as [i|]; [|by destruct Hfin as [-> _]]. destruct Hfin as (_ & _ & _ & x & p & Hi & _ & ->).
    pose proof (sum_insert g _ i x {| xRows := xRows x; xPending := p; xFrame := xFrame x |} Hi) as Hs. rewrite Hg in Hs. lia. }
  assert (length (calls s') = length (calls s)) as Hlc.
  { destruct finished as [i|]; [destruct Hfin as (_ & _ & _ & x & p & _ & _ & ->); apply length_insert|by destruct Hfin as [-> _]]. }
  split; rewrite ?Hpool, ?Hjobs, ?Hstates, ?E1, ?E2, ?E4, ?E5, ?E6, ?Hlc, ?Hsum by done; try done; try (rewrite ?length_insert; lia).
  - intros k y Hk. pose proof (sum_insert (workerOf k) _ w f f' Hf) as S4. destruct finished as [i|].
    + destruct Hfin as (-> & H1 & H2 & x & p & Hi & Hpx & Hc). rewrite Hc in Hk. destruct (decide (k = i)) as [->|Hne].
      * rewrite list_lookup_insert_eq in Hk by (by eapply lookup_lt_Some). simplify_eq. destruct (Hp i x Hi) as [Hpi Hgi]. simpl in S4.
        split; [|unfold frameGood in *; simpl; rewrite ?E1, ?E3; destruct (xFrame x); try done; destruct_and?; lia].
        change (callShards {| xRows := xRows x; xPending := p; xFrame := xFrame x |}) with (callShards x). simpl. lia.
      * rewrite list_lookup_insert_ne in Hk by done. destruct (Hp k y Hk) as [Hpk Hgk]. split; [|by eapply frameGood_same].
        rewrite (H2 k Hne) in S4. simpl in S4. lia.
    + destruct Hfin as [Hc Hwo]. rewrite Hc in Hk. destruct (Hp k y Hk) as [Hpk Hgk]. split; [|by eapply frameGood_same]. rewrite Hwo in S4. lia.
  - split; [done|]. apply Forall_insert; [done|]. destruct f' as [|i g|]; try done. destruct Hf' as [g' ->]. rewrite Forall_lookup in Hj2. by apply (Hj2 w _ Hf).
  - intros v Hv. destruct (decide (v = w)) as [->|Hne].
    + rewrite list_lookup_insert_eq in Hv by (by eapply lookup_lt_Some). by simplify_eq.
    + rewrite list_lookup_insert_ne in Hv by done. by apply (Hex v).
Qed.

Lemma alter_Some {A} (h : A → A) (l : list A) (i : nat) x : l !! i = Some x → alter h i l = <[i := h x]> l.
Proof. revert i. induction l as [|y l IH]; intros [|i] Hi; simplify_eq/=; [done|]. f_equal. by apply IH. Qed.

Section calls.
Context (s s1 : sched) (i : nat) (x : callState) (queued : bool).
Context (Hinv : inv s) (Hi : calls s !! i = Some x).
Context (Hsame : same s s1) (Hcalls : calls s1 = calls s) (Hpool : pool s1 = pool s).
Context (Hjobs : jobs s1 = jobs s ++ (if queued then [i] else [])) (Hq : queued = true → jobsClosed s = false).

(** Moving call [i] to [f] with a wait group of [p] balances what it holds. *)
Lemma step_call p f :
  let x' := {| xRows := xRows x; xPending := p; xFrame := f |} in
  freeStates s1 + callStates x' = freeStates s + callStates x →
  workTokens s1 + callTokens x' + (if queued then 1 else 0) = workTokens s + callTokens x →
  freeContexts s1 + callContexts x' = freeContexts s + callContexts x →
  p + callShards x = xPending x + callShards x' + (if queued then 1 else 0) →
  frameGood s x' → inv (setFrame i f (setPending i p s1)).
Proof.
  intros x' B1 B2 B3 B4 Hg. eapply (inv_call s _ i x x' queued); try done; simpl; rewrite ?Hcalls.
  - destruct Hsame as [(?&?&?) (?&?&?)]. split; simpl; done.
  - rewrite (alter_Some _ (calls s) i x Hi). erewrite alter_Some; [|apply list_lookup_insert_eq; by eapply lookup_lt_Some].
    by rewrite list_insert_insert_eq.
Qed.

Lemma step_frame f :
  let x' := {| xRows := xRows x; xPending := xPending x; xFrame := f |} in
  freeStates s1 + callStates x' = freeStates s + callStates x →
  workTokens s1 + callTokens x' + (if queued then 1 else 0) = workTokens s + callTokens x →
  freeContexts s1 + callContexts x' = freeContexts s + callContexts x →
  callShards x = callShards x' + (if queued then 1 else 0) → frameGood s x' → inv (setFrame i f s1).
Proof.
  intros x' B1 B2 B3 B4 Hg. eapply (inv_call s _ i x x' queued); try done; simpl; rewrite ?Hcalls; try lia.
  - destruct Hsame as [(?&?&?) (?&?&?)]. split; simpl; done.
  - by rewrite (alter_Some _ (calls s) i x Hi).
Qed.
End calls.

Lemma receive_Some n m : receive n = Some m → n = S m.
Proof. destruct n; simpl; congruence. Qed.

Lemma send_Some n cap m : send n cap = Some m → m = S n ∧ n < cap.
Proof. unfold send. destruct (Nat.ltb_spec n cap); [|done]. by intros [= <-]. Qed.

Lemma launch_inv s i x acquired : inv s → calls s !! i = Some x → xFrame x = XReserve acquired → inv (launch i acquired x s).
Proof.
  intros Hinv Hi Hf. destruct (in_pending s Hinv i x Hi) as [Hp [Hu Hg]]. rewrite Hf in Hg. destruct Hg as [Hz Ha].
  pose proof (in_workers s Hinv) as (Hw & _). pose proof (acquired_ranges (workers s) (xRows x) (Z.of_nat acquired) (parallelRows s) Hu ltac:(lia) Ha) as Hl.
  unfold launch. replace (length (partitionRows (workers s) (xRows x) (Z.of_nat acquired))) with acquired by lia.
  apply step_call with s x false; try done; simpl; rewrite ?app_nil_r; try done; unfold callStates, callTokens, callContexts, callShards, frameGood; rewrite ?Hf; simpl.
  - by destruct (acquired =? 1).
  - destruct (Nat.eqb_spec acquired 1); simpl; lia.
  - by destruct (acquired =? 1).
  - destruct (Nat.eqb_spec acquired 1); simpl; lia.
  - split; [done|]. destruct (acquired =? 1); simpl; [done|lia].
Qed.

Lemma same_refl s : same s s.
Proof. by split. Qed.

Ltac held_by_call := unfold callStates, callTokens, callContexts, callShards, frameGood in *; simpl in *.

(** Close the balance equations of one step of call [i]. *)
Ltac balance Hf Hg := try (by split); try done; simpl; rewrite ?app_nil_r; held_by_call; rewrite ?Hf in *; simpl in *; try done;
  try (split; [apply Hg|]); destruct_and?; try done; try lia.

Lemma callStep_inv s i x s' : inv s → calls s !! i = Some x → callStep i x s = Some s' → inv s'.
Proof.
  intros Hinv Hi Hstep. destruct (in_pending s Hinv i x Hi) as [Hp Hg]. pose proof (in_workers s Hinv) as (Hw & _).
  unfold callStep in Hstep. destruct (xFrame x) as [| | | | |acquired|f|total submitted|remaining|remaining| | |err|err|err] eqn:Hf.
  - simplify_eq. destruct (stopping s); apply step_frame with s x false; balance Hf Hg.
  - destruct (receive (freeStates s)) as [n|] eqn:E; simplify_eq/=. apply receive_Some in E. apply step_frame with s x false; balance Hf Hg.
  - simplify_eq. destruct (stopping s); apply step_frame with s x false; balance Hf Hg.
  - destruct (receive (workTokens s)) as [n|] eqn:E; simplify_eq/=. apply receive_Some in E. apply step_frame with s x false; balance Hf Hg.
  - simplify_eq. pose proof (desiredShards_pos (parallelRows s) (Z.of_nat (workers s)) (xRows x) ltac:(apply Hg) ltac:(lia)).
    apply step_frame with s x false; balance Hf Hg.
  - destruct (Z.ltb_spec (Z.of_nat acquired) (desiredShards (parallelRows s) (Z.of_nat (workers s)) (xRows x))).
    + destruct (receive (workTokens s)) as [n|] eqn:E; simplify_eq; [|by apply launch_inv]. apply receive_Some in E.
      apply step_frame with s x false; balance Hf Hg.
    + simplify_eq. by apply launch_inv.
  - destruct f; simpl in Hstep.
    + destruct (receive (freeContexts s)) as [n|] eqn:E; simplify_eq/=. apply receive_Some in E. apply step_frame with s x false; balance Hf Hg.
    + destruct (send (freeContexts s) (workers s)) as [n|] eqn:E; simplify_eq/=. apply send_Some in E. apply step_frame with s x false; balance Hf Hg.
    + destruct (send (workTokens s) (workers s)) as [n|] eqn:E; simplify_eq/=. apply send_Some in E. apply step_frame with s x false; balance Hf Hg.
    + rewrite Hi in Hstep. simpl in Hstep. destruct (receive (xPending x)) as [p|] eqn:E; simplify_eq/=. apply receive_Some in E.
      apply step_call with s x false; balance Hf Hg.
  - destruct (Nat.ltb_spec submitted total); [|simplify_eq; apply step_frame with s x false; balance Hf Hg].
    destruct (jobsClosed s) eqn:Ec; [done|]. destruct (send (length (jobs s)) (workers s)) as [n|] eqn:E; simplify_eq/=.
    apply step_frame with s x true; balance Hf Hg.
  - destruct remaining as [|remaining]; [simplify_eq; apply step_frame with s x false; balance Hf Hg|].
    destruct (send (workTokens s) (workers s)) as [n|] eqn:E; simplify_eq/=. apply send_Some in E. apply step_frame with s x false; balance Hf Hg.
  - destruct (receive (xPending x)) as [p|] eqn:E; simplify_eq/=. apply receive_Some in E. apply step_call with s x false; balance Hf Hg.
  - destruct (xPending x) eqn:Ep; simplify_eq. apply step_frame with s x false; balance Hf Hg.
  - destruct (send (freeStates s) (queueDepth s)) as [n|] eqn:E; simplify_eq/=. apply send_Some in E. apply step_frame with s x false; balance Hf Hg.
  - destruct (send (workTokens s) (workers s)) as [n|] eqn:E; simplify_eq/=. apply send_Some in E. apply step_frame with s x false; balance Hf Hg.
  - destruct (send (freeStates s) (queueDepth s)) as [n|] eqn:E; simplify_eq/=. apply send_Some in E. apply step_frame with s x false; balance Hf Hg.
  - done.
Qed.

Lemma cancelStep_inv s i x s' : inv s → calls s !! i = Some x → cancelStep i x s = Some s' → inv s'.
Proof.
  intros Hinv Hi Hstep. destruct (in_pending s Hinv i x Hi) as [Hp Hg]. unfold cancelStep in Hstep.
  destruct (xFrame x) as [| | | | |acquired|f|total submitted|remaining|remaining| | |err|err|err] eqn:Hf; simplify_eq;
    try (apply step_frame with s x false; by balance Hf Hg).
  - destruct f; simplify_eq. apply step_frame with s x false; balance Hf Hg.
  - destruct (Nat.ltb_spec submitted total); simplify_eq. apply step_frame with s x false; balance Hf Hg.
Qed.

Lemma stopStep_inv s i x s' : inv s → calls s !! i = Some x → stopStep i x s = Some s' → inv s'.
Proof.
  intros Hinv Hi Hstep. destruct (in_pending s Hinv i x Hi) as [Hp Hg]. unfold stopStep in Hstep.
  destruct (xFrame x) eqn:Hf; simplify_eq. destruct (stopping s); simplify_eq. apply step_frame with s x false; balance Hf Hg.
Qed.

(** A worker that has not exited keeps the scheduler from being closed. *)
Lemma not_closed s w f : inv s → pool s !! w = Some f → f ≠ WExit → shutdown s ≠ DClosed.
Proof. intros Hinv Hf Hne Hd. pose proof (in_joined s Hinv Hd) as Hall. rewrite Forall_lookup in Hall. by apply Hne, (Hall w). Qed.

Lemma take_job_inv s w i rest : inv s → pool s !! w = Some WIdle → jobs s = i :: rest →
  inv (withPool (<[w := WShard i SBorrow]> (pool s)) (withJobs rest s)).
Proof.
  intros Hinv Hf Hj. pose proof (not_closed s w _ Hinv Hf ltac:(done)) as Hnc. destruct Hinv as [Hw Hst Htk Hcx Hp [Hj1 Hj2] Hsp Hcl Hex Hjn].
  rewrite Hj in *. pose proof (sum_insert workerTokens _ w _ (WShard i SBorrow) Hf) as S2. pose proof (sum_insert workerContexts _ w _ (WShard i SBorrow) Hf) as S3.
  simpl in *. apply Forall_cons in Hj1 as [Hi Hj1]. split; simpl; try done; try lia.
  - by rewrite length_insert.
  - intros k y Hk. destruct (Hp k y Hk) as [Hpk Hgk]. split; [|done].
    pose proof (sum_insert (workerOf k) _ w _ (WShard i SBorrow) Hf) as S4. simpl in S4, Hpk. lia.
  - split; [done|]. by apply Forall_insert.
  - intros v Hv. destruct (decide (v = w)) as [->|Hne].
    + rewrite list_lookup_insert_eq in Hv by (by eapply lookup_lt_Some). done.
    + rewrite list_lookup_insert_ne in Hv by done. by destruct (Hex v Hv).
Qed.

Lemma workerStep_inv s w f s' : inv s → pool s !! w = Some f → workerStep w f s = Some s' → inv s'.
Proof.
  intros Hinv Hf Hstep. destruct f as [|i f|]; simpl in Hstep; [| |done].
  - destruct (jobs s) as [|i rest] eqn:Hj; [|simplify_eq; by apply take_job_inv]. destruct (jobsClosed s) eqn:Hc; simplify_eq.
    apply inv_worker with s w WIdle WExit None; try done; try (by split). by eapply not_closed.
  - pose proof (not_closed s w _ Hinv Hf ltac:(done)) as Hnc. destruct f; simpl in Hstep.
    + destruct (receive (freeContexts s)) as [n|] eqn:E; simplify_eq/=. apply receive_Some in E.
      apply inv_worker with s w (WShard i SBorrow) (WShard i SRun) None; simpl; try done; try lia; try (by split); by eexists.
    + destruct (send (freeContexts s) (workers s)) as [n|] eqn:E; simplify_eq/=. apply send_Some in E.
      apply inv_worker with s w (WShard i SRun) (WShard i SToken) None; simpl; try done; try lia; try (by split); by eexists.
    + destruct (send (workTokens s) (workers s)) as [n|] eqn:E; simplify_eq/=. apply send_Some in E.
      apply inv_worker with s w (WShard i SToken) (WShard i SDone) None; simpl; try done; try lia; try (by split); by eexists.
    + destruct (in_jobs s Hinv) as [_ Hlt]. rewrite Forall_lookup in Hlt. specialize (Hlt w _ Hf). simpl in Hlt.
      destruct (calls s !! i) as [x|] eqn:Hi; [|apply lookup_ge_None in Hi; lia]. simpl in Hstep.
      destruct (receive (xPending x)) as [p|] eqn:E; simplify_eq/=. apply receive_Some in E.
      apply inv_worker with s w (WShard i SDone) WIdle (Some i); simpl; try done; try lia; try (by split).
      split; [done|]. unfold jobOf. rewrite Nat.eqb_refl. split; [done|]. split; [intros k Hk; by rewrite (proj2 (Nat.eqb_neq i k))|].
      exists x, p. split_and!; [done|done|]. by rewrite (alter_Some _ _ _ _ Hi).
Qed.

Lemma workerCancel_inv s w i : inv s → pool s !! w = Some (WShard i SBorrow) → inv (withPool (<[w := WShard i SToken]> (pool s)) s).
Proof.
  intros Hinv Hf. apply inv_worker with s w (WShard i SBorrow) (WShard i SToken) None; simpl; try done; try (by split); [by eexists|by eapply not_closed].
Qed.

(** When the job channel is closed no call holds a batch state or a shard. *)
Lemma closed_idle s : inv s → jobsClosed s = true → freeStates s = 0 ∧ sum_list_with callStates (calls s) = 0.
Proof.
  intros Hinv Hc. apply (in_closed s Hinv) in Hc. pose proof (in_states s Hinv) as Hs. destruct Hc as [E|E]; rewrite E in Hs; simpl in Hs; lia.
Qed.

Lemma shutdownStep_inv s s' : inv s → shutdownStep s = Some s' → inv s'.
Proof.
  intros Hinv Hstep. pose proof Hinv as [Hw Hst Htk Hcx Hp Hj Hsp Hcl Hex Hjn]. unfold shutdownStep in Hstep.
  destruct (shutdown s) as [|k| |] eqn:Hd; [done| | |done]; simpl in *.
  - assert (jobsClosed s = false) as Hc by (destruct (jobsClosed s) eqn:E; [|done]; destruct (proj1 Hcl eq_refl); congruence).
    assert (stopping s = true) as Hs by (destruct (stopping s) eqn:E; [done|]; discriminate (proj1 Hsp eq_refl)).
    destruct (Nat.ltb_spec k (queueDepth s)).
    + destruct (receive (freeStates s)) as [n|] eqn:E; simplify_eq/=. apply receive_Some in E.
      split; simpl; try done; try lia; [by rewrite Hs|]. rewrite Hc. naive_solver.
    + simplify_eq/=. split; simpl; try done; try lia; [by rewrite Hs|naive_solver|]. intros v Hv. destruct (Hex v Hv). congruence.
  - destruct (forallb _ (pool s)) eqn:Hall; simplify_eq/=. split; simpl; try done; [naive_solver|naive_solver|].
    intros _. apply Forall_forall. intros f Hin. rewrite forallb_forall in Hall. specialize (Hall f). rewrite <-list_elem_of_In in Hall. specialize (Hall Hin). by destruct f.
Qed.

Lemma fire_inv s ev s' : inv s → fire s ev = Some s' → inv s'.
Proof.
  intros Hinv Hfire. destruct ev as [rows| |i|i|i|w|w|]; simpl in Hfire.
  - case_bool_decide as Hr; simplify_eq. destruct Hinv as [Hw Hst Htk Hcx Hp [Hj1 Hj2] Hsp Hcl Hex Hjn].
    split; simpl; rewrite ?sum_app; simpl; rewrite ?Nat.add_0_r; try done.
    + intros i x Hx. apply lookup_app_Some in Hx as [Hx|[Hge Hx]]; [by apply Hp|]. apply list_lookup_singleton_Some in Hx as [Hi <-].
      split; [|split; [exact Hr|done]]. simpl. assert (∀ l, Forall (λ j, j < length (calls s)) l → sum_list_with (jobOf i) l = 0) as Hz.
      { induction 1 as [|j l Hj _ IH]; simpl; [done|]. unfold jobOf at 1. rewrite (proj2 (Nat.eqb_neq j i)) by lia. exact IH. }
      assert (sum_list_with (workerOf i) (pool s) = 0) as Hz'; [|rewrite (Hz _ Hj1), Hz'; done].
      clear -Hj2 Hge. induction Hj2 as [|f l Hf _ IH]; simpl; [done|]. rewrite IH. destruct f as [|j g|]; simpl; try done.
      unfold jobOf. by rewrite (proj2 (Nat.eqb_neq j i)) by lia.
    + rewrite length_app. split; (eapply Forall_impl; [done|]); [intros j; simpl; lia|]. intros [|j g|]; simpl; try done. lia.
  - simplify_eq. unfold CloseContext. destruct (stopping s) eqn:Hs; [done|]. destruct Hinv as [Hw Hst Htk Hcx Hp Hj Hsp Hcl Hex Hjn].
    pose proof (proj1 Hsp Hs) as Hd. rewrite Hd in *. split; simpl in *; try done. rewrite Hcl. naive_solver.
  - destruct (calls s !! i) as [x|] eqn:Hi; [|done]. by eapply callStep_inv.
  - destruct (calls s !! i) as [x|] eqn:Hi; [|done]. by eapply cancelStep_inv.
  - destruct (calls s !! i) as [x|] eqn:Hi; [|done]. by eapply stopStep_inv.
  - destruct (pool s !! w) as [f|] eqn:Hf; [|done]. by eapply workerStep_inv.
  - destruct (pool s !! w) as [[|i []|]|] eqn:Hf; simplify_eq/=. by apply workerCancel_inv.
  - by eapply shutdownStep_inv.
Qed.

Lemma newSched_inv w q rows : 0 < w → 0 < q → inv (newSched w q rows).
Proof.
  intros Hw Hq. assert (∀ (g : workerFrame → nat) n, g WIdle = 0 → sum_list_with g (replicate n WIdle) = 0) as Hz
    by (intros g n Hg; induction n as [|n IH]; simpl; [done|]; by rewrite Hg).
  split; simpl; rewrite ?Hz, ?length_replicate by done; try done; try lia.
  - split; [done|]. by apply Forall_replicate.
  - split; [done|naive_solver].
  - intros v Hv. by apply lookup_replicate in Hv as [? _].
Qed.

Lemma NewScheduler_inv config s : NewScheduler config = Ok s → inv s.
Proof.
  unfold NewScheduler. intros ([] & Hc%check_inv & Hr)%go_bind_inv. apply go_bind_inv in Hr as (? & _ & Hr). apply go_bind_inv in Hr as (? & _ & Hr).
  apply go_bind_inv in Hr as (? & _ & [= <-]). apply negb_true_iff, orb_false_iff in Hc as [H1%Z.leb_gt H2%Z.leb_gt].
  apply newSched_inv; lia.
Qed.

(** Every reachable state of a new scheduler. *)
Definition reachable (s : sched) : Prop := ∃ config s0 evs, NewScheduler config = Ok s0 ∧ run evs s0 = Some s.

Lemma reachable_inv s : reachable s → inv s.
Proof.
  intros (config & s0 & evs & Hnew & Hrun). apply (sched_ind inv evs s0 s); [|by eapply NewScheduler_inv|done].
  intros t ev t' Ht Hfire. by eapply fire_inv.
Qed.

(** ** Channel operations that never block *)

(** The points of a call that are not a wait by design. *)
Definition waits (f : callFrame) : bool := match f with XAdmit | XAcquire | XWait | XDone _ => true | _ => false end.

Lemma sum_strict {A} (g h : A → nat) l i x : (∀ y, g y ≤ h y) → l !! i = Some x → sum_list_with g l + (h x - g x) ≤ sum_list_with h l.
Proof.
  intros Hgh. revert i. induction l as [|y l IH]; intros [|i] Hi; simplify_eq/=.
  - assert (sum_list_with g l ≤ sum_list_with h l) by (clear -Hgh; induction l as [|z l IH]; simpl; [lia|]; specialize (Hgh z); lia). specialize (Hgh x). lia.
  - specialize (IH i Hi). specialize (Hgh y). lia.
Qed.

Lemma sum_mono {A} (g h : A → nat) l : (∀ y, g y ≤ h y) → sum_list_with g l ≤ sum_list_with h l.
Proof. intros Hgh. induction l as [|y l IH]; simpl; [lia|]. specialize (Hgh y). lia. Qed.

Lemma shardContexts_le f : shardContexts f ≤ shardTokens f.
Proof. destruct f; simpl; lia. Qed.

Lemma callContexts_le x : callContexts x ≤ callTokens x.
Proof. unfold callContexts, callTokens. destruct (xFrame x); try lia. apply shardContexts_le. Qed.

Lemma workerContexts_le f : workerContexts f ≤ workerTokens f.
Proof. destruct f; simpl; try lia. apply shardContexts_le. Qed.

Lemma send_free n cap : n < cap → send n cap = Some (S n).
Proof. intros Hn. unfold send. by rewrite (proj2 (Nat.ltb_lt _ _)). Qed.

Lemma receive_free n : 0 < n → receive n = Some (n - 1).
Proof. destruct n; simpl; [lia|]. intros _. by rewrite Nat.sub_0_r. Qed.

(** A shard that holds its token runs to its end without waiting. *)
Lemma shard_runs s i f : 
  (f = SBorrow → 0 < freeContexts s) → (f = SRun → freeContexts s < workers s) → (f = SToken → workTokens s < workers s) →
  (f = SDone → 0 < default 0 (xPending <$> calls s !! i)) → is_Some (shardStep i f s).
Proof.
  intros H1 H2 H3 H4. destruct f; simpl.
  - rewrite receive_free by (by apply H1). by eexists.
  - rewrite send_free by (by apply H2). by eexists.
  - rewrite send_free by (by apply H3). by eexists.
  - rewrite receive_free by (by apply H4). by eexists.
Qed.

Lemma call_runs s i x : inv s → calls s !! i = Some x → waits (xFrame x) = false → is_Some (callStep i x s).
Proof.
  intros Hinv Hi Hwait. destruct (in_pending s Hinv i x Hi) as [Hp Hg]. pose proof (in_states s Hinv) as Hst. pose proof (in_tokens s Hinv) as Htk.
  pose proof (in_contexts s Hinv) as Hcx. pose proof (sum_le callStates _ i x Hi) as L1. pose proof (sum_le callTokens _ i x Hi) as L2.
  pose proof (sum_le callContexts _ i x Hi) as L3. pose proof (sum_strict _ _ _ i x callContexts_le Hi) as L4.
  pose proof (sum_mono _ _ (pool s) workerContexts_le) as L5. pose proof (closed_idle s Hinv) as Hidle.
  destruct x as [rows pending frame]. unfold callStep. simpl in Hwait, Hp |- *.
  destruct frame as [| | | | |acquired|f|total submitted|remaining|remaining| | |err|err|err]; try done; unfold callStates at 1 in L1; unfold callTokens at 1 in L2;
    unfold callContexts at 1 in L3; unfold callShards in Hp; simpl in L1, L2, L3, Hp.
  - destruct (Z.ltb _ _); [|by eexists]. destruct (receive _); by eexists.
  - destruct (shard_runs s i f) as [[s1 f1] ->]; [intros ->..|by eexists]; simpl in *; try lia.
    rewrite Hi. simpl. lia.
  - destruct (Nat.ltb_spec submitted total); [|by eexists]. destruct (jobsClosed s); [destruct (Hidle eq_refl); lia|].
    rewrite send_free by lia. by eexists.
  - destruct remaining as [|remaining]; [by eexists|]. rewrite send_free by lia. by eexists.
  - rewrite receive_free by lia. by eexists.
  - rewrite send_free by lia. by eexists.
  - rewrite send_free by lia. by eexists.
  - rewrite send_free by lia. by eexists.
Qed.

Lemma worker_runs s w i f : inv s → pool s !! w = Some (WShard i f) → is_Some (workerStep w (WShard i f) s).
Proof.
  intros Hinv Hf. pose proof (in_tokens s Hinv) as Htk. pose proof (in_contexts s Hinv) as Hcx.
  pose proof (sum_le workerTokens _ w _ Hf) as L2. pose proof (sum_le workerContexts _ w _ Hf) as L3.
  pose proof (sum_strict _ _ _ w _ workerContexts_le Hf) as L4. pose proof (sum_mono _ _ (calls s) callContexts_le) as L5.
  destruct (in_jobs s Hinv) as [_ Hlt]. rewrite Forall_lookup in Hlt. specialize (Hlt w _ Hf). simpl in Hlt.
  destruct (calls s !! i) as [x|] eqn:Hi; [|apply lookup_ge_None in Hi; lia]. destruct (in_pending s Hinv i x Hi) as [Hp _].
  pose proof (sum_le (workerOf i) _ w _ Hf) as L6. simpl in L6. unfold jobOf in L6. rewrite Nat.eqb_refl in L6.
  simpl workerStep. destruct (shard_runs s i f) as [[s1 f1] ->]; [intros ->..|by eexists]; simpl in *; try lia. rewrite Hi. simpl. lia.
Qed.

(** ** Progress *)

(** Steps of the code itself: no new call and no cancellation. *)
Definition internal (ev : event) : bool := match ev with Step _ | Stop _ | Worker _ | Shutdown => true | _ => false end.
Definition progresses (s : sched) : Prop := ∃ ev, internal ev = true ∧ is_Some (fire s ev).

Lemma step_progresses s i x : calls s !! i = Some x → is_Some (callStep i x s) → progresses s.
Proof. intros Hi Hs. exists (Step i). split; [done|]. simpl. by rewrite Hi. Qed.

Lemma worker_progresses s w f : inv s → pool s !! w = Some f → f ≠ WExit → f ≠ WIdle ∨ jobs s ≠ [] ∨ jobsClosed s = true → progresses s.
Proof.
  intros Hinv Hf Hne Hcase. exists (Worker w). split; [done|]. simpl. rewrite Hf. simpl. destruct f as [|i f|]; [|by apply worker_runs|done].
  simpl. destruct (jobs s) as [|i rest]; [|by eexists]. destruct Hcase as [|[|Hc]]; [done|done|]. rewrite Hc. by eexists.
Qed.

Lemma jobs_progress s : inv s → jobs s ≠ [] → progresses s.
Proof.
  intros Hinv Hj. destruct (in_workers s Hinv) as (Hw & Hl & _). destruct (pool s !! 0) as [f|] eqn:Hf; [|apply lookup_ge_None in Hf; lia].
  apply worker_progresses with 0 f; [done|done| |tauto]. intros ->. by destruct (in_exit s Hinv 0 Hf).
Qed.

Lemma tokens_progress s : inv s → workTokens s < workers s → progresses s.
Proof.
  intros Hinv Hlt. pose proof (in_tokens s Hinv) as Htk. destruct (jobs s) as [|j rest] eqn:Hj; [|apply jobs_progress; [done|by rewrite Hj]]. simpl in Htk.
  destruct (decide (0 < sum_list_with callTokens (calls s))) as [Hc|Hc].
  - apply sum_pos in Hc as (i & x & Hi & Hx). apply (step_progresses s i x Hi), call_runs; [done|done|].
    unfold callTokens in Hx. destruct (xFrame x); simpl in *; try done; lia.
  - destruct (sum_pos workerTokens (pool s)) as (w & f & Hf & Hx); [lia|].
    apply worker_progresses with w f; [done|done|by destruct f; simpl in Hx; [lia| |lia]|]. left. intros ->. simpl in Hx. lia.
Qed.

Lemma pending_progress s i x : inv s → calls s !! i = Some x → 0 < xPending x → progresses s.
Proof.
  intros Hinv Hi Hpos. destruct (in_pending s Hinv i x Hi) as [Hp _].
  destruct (decide (0 < callShards x)) as [Hc|Hc].
  - apply (step_progresses s i x Hi), call_runs; [done|done|]. unfold callShards in Hc. destruct (xFrame x); simpl in *; try done; lia.
  - destruct (jobs s) as [|j rest] eqn:Hj; [|apply jobs_progress; [done|by rewrite Hj]]. simpl in Hp.
    destruct (sum_pos (workerOf i) (pool s)) as (w & f & Hf & Hx); [lia|].
    apply worker_progresses with w f; [done|done|by destruct f; simpl in Hx; [lia| |lia]|]. left. intros ->. simpl in Hx. lia.
Qed.

Lemma states_progress s : inv s → 0 < sum_list_with callStates (calls s) → progresses s.
Proof.
  intros Hinv (i & x & Hi & Hx)%sum_pos. destruct (waits (xFrame x)) eqn:Hw; [|by apply (step_progresses s i x Hi), call_runs].
  unfold callStates in Hx. destruct (xFrame x) eqn:Hf; try done; try lia.
  - destruct (decide (0 < workTokens s)) as [Ht|Ht]; [|apply tokens_progress; [done|destruct (in_workers s Hinv); lia]].
    apply (step_progresses s i x Hi). unfold callStep. rewrite Hf, receive_free by done. by eexists.
  - destruct (decide (0 < xPending x)) as [Ht|Ht]; [by eapply pending_progress|].
    apply (step_progresses s i x Hi). unfold callStep. rewrite Hf. replace (xPending x) with 0 by lia. by eexists.
Qed.

Lemma call_progress s i x : inv s → calls s !! i = Some x → (∀ r, xFrame x ≠ XDone r) → progresses s.
Proof.
  intros Hinv Hi Hnd. destruct (waits (xFrame x)) eqn:Hw; [|by apply (step_progresses s i x Hi), call_runs].
  pose proof (sum_le callStates _ i x Hi) as L1. unfold callStates at 1 in L1. destruct (xFrame x) eqn:Hf; try done; try (apply states_progress; [done|lia]); [|by destruct (Hnd err)].
  destruct (decide (0 < freeStates s)) as [Hfree|Hfree].
  { apply (step_progresses s i x Hi). unfold callStep. rewrite Hf, receive_free by done. by eexists. }
  destruct (decide (0 < sum_list_with callStates (calls s))); [by apply states_progress|].
  pose proof (in_states s Hinv) as Hst. destruct (in_workers s Hinv) as (_ & _ & Hq).
  exists (Stop i). split; [done|]. simpl. rewrite Hi. simpl. unfold stopStep. rewrite Hf.
  destruct (stopping s) eqn:Hs; [by eexists|]. apply (in_stopping s Hinv) in Hs. rewrite Hs in Hst. simpl in Hst. lia.
Qed.

Lemma shutdown_progress s : inv s → stopping s = true → shutdown s ≠ DClosed → progresses s.
Proof.
  intros Hinv Hs Hd. pose proof (in_states s Hinv) as Hst.
  destruct (shutdown s) as [|k| |] eqn:E; [apply (in_stopping s Hinv) in E; congruence| | |done]; simpl in Hst.
  - destruct (decide (k < queueDepth s ∧ freeStates s = 0)) as [[Hk Hf]|Hn]; [apply states_progress; [done|lia]|].
    exists Shutdown. split; [done|]. simpl. unfold shutdownStep. rewrite E. destruct (Nat.ltb_spec k (queueDepth s)); [|by eexists].
    rewrite receive_free by lia. by eexists.
  - assert (jobsClosed s = true) as Hc by (apply (in_closed s Hinv); by left).
    destruct (forallb (λ f, match f with WExit => true | _ => false end) (pool s)) eqn:Hall.
    + exists Shutdown. split; [done|]. simpl. unfold shutdownStep. rewrite E, Hall. by eexists.
    + assert (∃ w f, pool s !! w = Some f ∧ f ≠ WExit) as (w & f & Hf & Hne).
      { clear -Hall. induction (pool s) as [|f l IH]; simpl in Hall; [done|]. destruct f as [|i g|]; [by exists 0, WIdle|by exists 0, (WShard i g)|].
        destruct IH as (w & f & Hf & Hne); [done|]. by exists (S w), f. }
      apply worker_progresses with w f; [done|done|done|tauto].
Qed.

(** ** Termination *)

(** Steps left to a shard, a call, a worker and the shutdown, at most. *)
Definition shardSteps (f : shardFrame) : nat := match f with SBorrow => 4 | SRun => 3 | SToken => 2 | SDone => 1 end.
Definition callSteps (w : nat) (x : callState) : nat :=
  match xFrame x with
  | XEnter => 9 * w + 9
  | XAdmit => 9 * w + 8
  | XAdmitted => 9 * w + 7
  | XAcquire => 9 * w + 6
  | XAcquired => 9 * w + 5
  | XReserve acquired => 8 * w + (w - acquired) + 4
  | XShard f => shardSteps f + 2
  | XSubmit total submitted => 8 * (total - submitted) + 3
  | XUnsent remaining => 2 * remaining + 3
  | XUnsentDone remaining => 2 * remaining + 4
  | XWait | XGiveToken _ => 2
  | XFinish | XGiveState _ => 1
  | XDone _ => 0
  end.
Definition workerSteps (f : workerFrame) : nat := match f with WIdle => 1 | WShard _ f => shardSteps f + 1 | WExit => 0 end.
Definition shutdownSteps (q : nat) (d : shutdownFrame) : nat :=
  match d with DNone => q + 3 | DDrain k => q - k + 2 | DJoin => 1 | DClosed => 0 end.
Definition stepsLeft (s : sched) : nat :=
  sum_list_with (callSteps (workers s)) (calls s) + 6 * length (jobs s) + sum_list_with workerSteps (pool s) + shutdownSteps (queueDepth s) (shutdown s).

(** Everything but a new call and a repeated close. *)
Definition bounded (ev : event) : bool := match ev with Call _ | CloseCall => false | _ => true end.

Lemma internal_bounded ev : internal ev = true → bounded ev = true.
Proof. by destruct ev. Qed.

Lemma sum_alter {A} (g : A → nat) (h : A → A) l i x : l !! i = Some x → sum_list_with g (alter h i l) + g x = sum_list_with g l + g (h x).
Proof. intros Hi. rewrite (alter_Some h l i x Hi). by apply sum_insert. Qed.

(** A step that only moves call [i], from [x], to the frame [f]. *)
Lemma setFrame_less s s1 i x f :
  calls s !! i = Some x → workers s1 = workers s → queueDepth s1 = queueDepth s → shutdown s1 = shutdown s → calls s1 = calls s → pool s1 = pool s →
  6 * length (jobs s1) + callSteps (workers s) {| xRows := xRows x; xPending := xPending x; xFrame := f |} < 6 * length (jobs s) + callSteps (workers s) x →
  stepsLeft (setFrame i f s1) < stepsLeft s.
Proof.
  intros Hi E1 E2 E3 E4 E5 Hlt. unfold stepsLeft. simpl. rewrite E1, E2, E3, E4, E5.
  pose proof (sum_alter (callSteps (workers s)) (λ x, {| xRows := xRows x; xPending := xPending x; xFrame := f |}) _ i x Hi) as Hs. simpl in Hs. lia.
Qed.

(** The wait group does not count as work. *)
Lemma setPending_steps s i p : stepsLeft (setPending i p s) = stepsLeft s.
Proof.
  unfold stepsLeft. simpl. do 3 f_equal. generalize (calls s) as l. intros l. revert i. induction l as [|x l IH]; intros [|i]; simpl; try done. f_equal. apply IH.
Qed.

Lemma setPending_less s s1 i x f p :
  calls s !! i = Some x → workers s1 = workers s → queueDepth s1 = queueDepth s → shutdown s1 = shutdown s → calls s1 = calls s → pool s1 = pool s →
  6 * length (jobs s1) + callSteps (workers s) {| xRows := xRows x; xPending := xPending x; xFrame := f |} < 6 * length (jobs s) + callSteps (workers s) x →
  stepsLeft (setFrame i f (setPending i p s1)) < stepsLeft s.
Proof.
  intros Hi E1 E2 E3 E4 E5 Hlt. replace (setFrame i f (setPending i p s1)) with (setPending i p (setFrame i f s1)).
  - rewrite setPending_steps. by apply setFrame_less with x.
  - unfold setFrame, setPending, withCalls. simpl. f_equal. rewrite E4, !(alter_Some _ (calls s) i x Hi).
    erewrite !alter_Some by (apply list_lookup_insert_eq; by eapply lookup_lt_Some). by rewrite !list_insert_insert_eq.
Qed.

Ltac fewer Hf := simpl; try done; unfold callSteps; simpl; rewrite ?Hf; simpl; try lia.

Lemma launch_less s i x acquired : inv s → calls s !! i = Some x → xFrame x = XReserve acquired → stepsLeft (launch i acquired x s) < stepsLeft s.
Proof.
  intros Hinv Hi Hf. destruct (in_pending s Hinv i x Hi) as [_ [Hu Hg]]. rewrite Hf in Hg. destruct Hg as [_ Ha].
  pose proof (in_workers s Hinv) as (Hw & _). pose proof (acquired_ranges (workers s) (xRows x) (Z.of_nat acquired) (parallelRows s) Hu ltac:(lia) Ha) as Hl.
  pose proof (desiredShards_le (parallelRows s) (Z.of_nat (workers s)) (xRows x) ltac:(lia)) as Hd.
  unfold launch. replace (length (partitionRows (workers s) (xRows x) (Z.of_nat acquired))) with acquired by lia.
  apply setPending_less with x; fewer Hf. destruct (Nat.eqb_spec acquired 1); simpl; lia.
Qed.

Lemma callStep_less s i x s' : inv s → calls s !! i = Some x → callStep i x s = Some s' → stepsLeft s' < stepsLeft s.
Proof.
  intros Hinv Hi Hstep. destruct (in_pending s Hinv i x Hi) as [_ [_ Hg]].
  unfold callStep in Hstep. destruct (xFrame x) as [| | | | |acquired|f|total submitted|remaining|remaining| | |err|err|err] eqn:Hf.
  - simplify_eq. destruct (stopping s); apply setFrame_less with x; fewer Hf.
  - destruct (receive (freeStates s)); simplify_eq/=. apply setFrame_less with x; fewer Hf.
  - simplify_eq. destruct (stopping s); apply setFrame_less with x; fewer Hf.
  - destruct (receive (workTokens s)); simplify_eq/=. apply setFrame_less with x; fewer Hf.
  - simplify_eq. apply setFrame_less with x; fewer Hf.
  - destruct (Z.ltb_spec (Z.of_nat acquired) (desiredShards (parallelRows s) (Z.of_nat (workers s)) (xRows x))) as [Hlt|Hlt];
      [|simplify_eq; by apply launch_less].
    destruct (receive (workTokens s)); simplify_eq; [|by apply launch_less].
    destruct (in_workers s Hinv) as (Hw & _). pose proof (desiredShards_le (parallelRows s) (Z.of_nat (workers s)) (xRows x) ltac:(lia)) as Hd.
    apply setFrame_less with x; fewer Hf.
  - destruct f; simpl in Hstep.
    + destruct (receive (freeContexts s)); simplify_eq/=. apply setFrame_less with x; fewer Hf.
    + destruct (send (freeContexts s) (workers s)); simplify_eq/=. apply setFrame_less with x; fewer Hf.
    + destruct (send (workTokens s) (workers s)); simplify_eq/=. apply setFrame_less with x; fewer Hf.
    + rewrite Hi in Hstep. simpl in Hstep. destruct (receive (xPending x)); simplify_eq/=. apply setPending_less with x; fewer Hf.
  - destruct (Nat.ltb_spec submitted total); [|simplify_eq; apply setFrame_less with x; fewer Hf].
    destruct (jobsClosed s); [done|]. destruct (send (length (jobs s)) (workers s)); simplify_eq/=.
    apply setFrame_less with x; fewer Hf. rewrite length_app. simpl. lia.
  - destruct remaining as [|remaining]; [simplify_eq; apply setFrame_less with x; fewer Hf|].
    destruct (send (workTokens s) (workers s)); simplify_eq/=. apply setFrame_less with x; fewer Hf.
  - destruct (receive (xPending x)); simplify_eq/=. apply setPending_less with x; fewer Hf.
  - destruct (xPending x); simplify_eq. apply setFrame_less with x; fewer Hf.
  - destruct (send (freeStates s) (queueDepth s)); simplify_eq/=. apply setFrame_less with x; fewer Hf.
  - destruct (send (workTokens s) (workers s)); simplify_eq/=. apply setFrame_less with x; fewer Hf.
  - destruct (send (freeStates s) (queueDepth s)); simplify_eq/=. apply setFrame_less with x; fewer Hf.
  - done.
Qed.

Lemma cancelStep_less s i x s' : calls s !! i = Some x → cancelStep i x s = Some s' → stepsLeft s' < stepsLeft s.
Proof.
  intros Hi Hstep. unfold cancelStep in Hstep.
  destruct (xFrame x) as [| | | | |acquired|f|total submitted|remaining|remaining| | |err|err|err] eqn:Hf; simplify_eq;
    try (apply setFrame_less with x; by fewer Hf).
  - destruct f; simplify_eq. apply setFrame_less with x; fewer Hf.
  - destruct (Nat.ltb_spec submitted total); simplify_eq. apply setFrame_less with x; fewer Hf.
Qed.

Lemma withPool_less s s1 w f f' :
  pool s !! w = Some f → workers s1 = workers s → queueDepth s1 = queueDepth s → shutdown s1 = shutdown s →
  sum_list_with (callSteps (workers s)) (calls s1) = sum_list_with (callSteps (workers s)) (calls s) →
  6 * length (jobs s1) + workerSteps f' < 6 * length (jobs s) + workerSteps f → stepsLeft (withPool (<[w := f']> (pool s)) s1) < stepsLeft s.
Proof.
  intros Hf E1 E2 E3 E4 Hlt. unfold stepsLeft. simpl. rewrite E1, E2, E3, E4. pose proof (sum_insert workerSteps _ w f f' Hf). lia.
Qed.

Lemma workerStep_less s w f s' : pool s !! w = Some f → workerStep w f s = Some s' → stepsLeft s' < stepsLeft s.
Proof.
  intros Hf Hstep. destruct f as [|i f|]; simpl in Hstep; [| |done].
  - destruct (jobs s) as [|i rest] eqn:Hj; [destruct (jobsClosed s); simplify_eq|simplify_eq]; apply withPool_less with WIdle; simpl; try done; rewrite Hj; simpl; lia.
  - destruct f; simpl in Hstep.
    + destruct (receive (freeContexts s)); simplify_eq/=. apply withPool_less with (WShard i SBorrow); simpl; try done. lia.
    + destruct (send (freeContexts s) (workers s)); simplify_eq/=. apply withPool_less with (WShard i SRun); simpl; try done. lia.
    + destruct (send (workTokens s) (workers s)); simplify_eq/=. apply withPool_less with (WShard i SToken); simpl; try done. lia.
    + destruct (receive _) as [p|]; simplify_eq/=. apply withPool_less with (WShard i SDone); simpl; try done; [|lia].
      pose proof (setPending_steps s i p) as Hs. unfold stepsLeft in Hs. simpl in Hs. lia.
Qed.

Lemma shutdownStep_less s s' : shutdownStep s = Some s' → stepsLeft s' < stepsLeft s.
Proof.
  unfold shutdownStep, stepsLeft. destruct (shutdown s) as [|k| |] eqn:Hd; intros Hs; [done| | |done].
  - destruct (Nat.ltb_spec k (queueDepth s)); [destruct (receive (freeStates s))|]; simplify_eq/=; lia.
  - destruct (forallb _ _); simplify_eq/=. lia.
Qed.

Lemma fire_less s ev s' : inv s → bounded ev = true → fire s ev = Some s' → stepsLeft s' < stepsLeft s.
Proof.
  intros Hinv Hb Hfire. destruct ev as [rows| |i|i|i|w|w|]; simpl in Hfire; [done|done| | | | | |by apply shutdownStep_less].
  - destruct (calls s !! i) as [x|] eqn:Hi; [|done]. by apply callStep_less with i x.
  - destruct (calls s !! i) as [x|] eqn:Hi; [|done]. by apply cancelStep_less with i x.
  - destruct (calls s !! i) as [x|] eqn:Hi; [|done]. simpl in Hfire. unfold stopStep in Hfire. destruct (xFrame x) eqn:Hf; try done.
    destruct (stopping s); simplify_eq. apply setFrame_less with x; fewer Hf.
  - destruct (pool s !! w) as [f|] eqn:Hf; [|done]. by apply workerStep_less with w f.
  - destruct (pool s !! w) as [[|i []|]|] eqn:Hf; simplify_eq/=. apply withPool_less with (WShard i SBorrow); simpl; try done. lia.
Qed.

Lemma run_bounded evs s s' : inv s → Forall (λ ev, bounded ev = true) evs → run evs s = Some s' → length evs + stepsLeft s' ≤ stepsLeft s.
Proof.
  revert s. induction evs as [|ev evs IH]; intros s Hinv Hall Hrun; simpl in *; [by simplify_eq|]. apply Forall_cons in Hall as [Hb Hall].
  destruct (fire s ev) as [t|] eqn:E; [|done]. pose proof (fire_less s ev t Hinv Hb E). specialize (IH t (fire_inv _ _ _ Hinv E) Hall Hrun). lia.
Qed.

(** All calls have returned and a shutdown that has begun is complete. *)
Definition quiet (s : sched) : Prop := (∀ i x, calls s !! i = Some x → ∃ r, xFrame x = XDone r) ∧ (stopping s = true → shutdown s = DClosed).
Definition unfinished (s : sched) : Prop :=
  (∃ i x, calls s !! i = Some x ∧ ∀ r, xFrame x ≠ XDone r) ∨ (stopping s = true ∧ shutdown s ≠ DClosed).

Lemma unfinished_progress s : inv s → unfinished s → progresses s.
Proof. intros Hinv [(i & x & Hi & Hnd)|[Hs Hd]]; [by eapply call_progress|by apply shutdown_progress]. Qed.

Definition returned (x : callState) : bool := match xFrame x with XDone _ => true | _ => false end.

Lemma quiet_or_unfinished s : quiet s ∨ unfinished s.
Proof.
  destruct (decide (Forall (λ x, returned x = true) (calls s))) as [Hall|Hn].
  - destruct (stopping s) eqn:Hs; [destruct (shutdown s) eqn:Hd|]; try (right; right; split; [done|by rewrite Hd]).
    all: left; split; [|by rewrite ?Hs]; intros i x Hi; rewrite Forall_lookup in Hall; specialize (Hall i x Hi);
      unfold returned in Hall; destruct (xFrame x); try done; by eexists.
  - right. left. apply not_Forall_Exists in Hn; [|apply _]. apply Exists_exists in Hn as (x & [i Hi]%list_elem_of_lookup & Hx). exists i, x. split; [done|].
    intros r E. apply Hx. unfold returned. by rewrite E.
Qed.

(** Running internal steps as long as there are any reaches a quiet state. *)
Lemma reaches_quiet s : inv s → ∃ evs s', Forall (λ ev, internal ev = true) evs ∧ run evs s = Some s' ∧ quiet s'.
Proof.
  remember (stepsLeft s) as n eqn:En. revert s En. induction (lt_wf n) as [n _ IH]. intros s -> Hinv.
  destruct (quiet_or_unfinished s) as [Hq|Hu]; [by exists [], s|]. destruct (unfinished_progress s Hinv Hu) as (ev & Hi & [t Et]).
  destruct (IH (stepsLeft t) (fire_less s ev t Hinv (internal_bounded _ Hi) Et) t eq_refl (fire_inv _ _ _ Hinv Et)) as (evs & s' & Hall & Hrun & Hq).
  exists (ev :: evs), s'. split_and!; [by constructor|simpl; by rewrite Et|done].
Qed.

(** ** Properties *)

(** C14: in every reachable state of the scheduler, whatever the interleaving of
    callers, cancellations, workers and shutdown, work tokens, batch states and
    contexts are conserved, and no operation that gives one back, starts or ends a
    shard waits: sends on full or closed channels and wait groups below zero
    do not happen. *)
Theorem scheduler_resources (s : sched) :
  reachable s →
  workTokens s + sum_list_with callTokens (calls s) + length (jobs s) + sum_list_with workerTokens (pool s) = workers s ∧
  freeStates s + sum_list_with callStates (calls s) + drainedStates (queueDepth s) (shutdown s) = queueDepth s ∧
  freeContexts s + sum_list_with callContexts (calls s) + sum_list_with workerContexts (pool s) = workers s ∧
  (∀ i x, calls s !! i = Some x → waits (xFrame x) = false → is_Some (callStep i x s)) ∧
  (∀ w i f, pool s !! w = Some (WShard i f) → is_Some (workerStep w (WShard i f) s)).
Proof.
  intros Hinv%reachable_inv. split_and!; [apply Hinv|apply Hinv|apply Hinv| |].
  - intros i x Hi Hw. by apply call_runs.
  - intros w i f Hf. by apply worker_runs.
Qed.

(** C13: every call returns: from any reachable state, the callers, workers,
    cancellations and the shutdown can take at most [stepsLeft] steps between two
    new calls, and when no internal step is left every call has returned and a shutdown
    that has begun is complete; such a state is always reachable without cancelling
    anybody. *)
Theorem every_call_returns (s : sched) :
  reachable s →
  (∀ evs s', Forall (λ ev, bounded ev = true) evs → run evs s = Some s' → length evs ≤ stepsLeft s ∧ (quiet s' ∨ progresses s')) ∧
  ∃ evs s', Forall (λ ev, internal ev = true) evs ∧ run evs s = Some s' ∧ quiet s'.
Proof.
  intros Hinv%reachable_inv. split; [|by apply reaches_quiet]. intros evs s' Hall Hrun. pose proof (run_bounded evs s s' Hinv Hall Hrun). split; [lia|].
  destruct (quiet_or_unfinished s') as [Hq|Hu]; [by left|right]. apply unfinished_progress; [|done].
  apply (sched_ind inv evs s s'); [|done|done]. intros t ev t' Ht Hf. by eapply fire_inv.
Qed.

(** C37: when [CloseContext] reports completion, every admitted call is over, no
    shard is queued or running, all workers have exited and all work tokens and
    contexts are back in their channels. *)
Theorem closed_scheduler_is_drained (s : sched) :
  reachable s → shutdown s = DClosed →
  (∀ i x, calls s !! i = Some x → xFrame x = XEnter ∨ xFrame x = XAdmit ∨ ∃ r, xFrame x = XDone r) ∧
  jobs s = [] ∧ Forall (λ f, f = WExit) (pool s) ∧ workTokens s = workers s ∧ freeContexts s = workers s.
Proof.
  intros Hinv%reachable_inv Hd. assert (jobsClosed s = true) as Hc by (apply (in_closed s Hinv); by right).
  destruct (closed_idle s Hinv Hc) as [_ Hz]. pose proof (in_joined s Hinv Hd) as Hall.
  assert (∀ i x, calls s !! i = Some x → callStates x = 0) as Hcs by (intros i x Hi; pose proof (sum_le callStates _ i x Hi); lia).
  assert (∀ g : callState → nat, (∀ x, callStates x = 0 → g x = 0) → sum_list_with g (calls s) = 0) as Hsum.
  { intros g Hg. clear -Hcs Hg. induction (calls s) as [|x l IH]; simpl; [done|]. rewrite (Hg x (Hcs 0 x eq_refl)), IH; [done|]. intros i y Hi. by apply (Hcs (S i)). }
  assert (∀ g : workerFrame → nat, g WExit = 0 → sum_list_with g (pool s) = 0) as Hpool.
  { intros g Hg. clear -Hall Hg. induction Hall as [|f l -> _ IH]; simpl; [done|]. by rewrite Hg, IH. }
  assert (jobs s = []) as Hj.
  { destruct (in_workers s Hinv) as (Hw & Hl & _). destruct (pool s !! 0) as [f|] eqn:Hf; [|apply lookup_ge_None in Hf; lia].
    rewrite Forall_lookup in Hall. rewrite (Hall 0 f Hf) in Hf. by destruct (in_exit s Hinv 0 Hf). }
  pose proof (in_tokens s Hinv) as Htk. pose proof (in_contexts s Hinv) as Hcx.
  rewrite Hj, Hpool, Hsum in Htk by (done || (intros x; unfold callStates, callTokens; destruct (xFrame x); simpl; lia)).
  rewrite Hpool, Hsum in Hcx by (done || (intros x; unfold callStates, callContexts; destruct (xFrame x); simpl; lia)).
  split_and!; [|done|done|simpl in Htk; lia|lia]. intros i x Hi. specialize (Hcs i x Hi). unfold callStates in Hcs.
  destruct (xFrame x); try lia; [by left|right; by left|]. right. right. by eexists.
Qed.
