(* ===== verification/Liveness.v ===== *)
(** * Scratch-slot planning: [internal/compile/liveness.go]

    The compiler computes the last consumer of every instruction, then walks
    the schedule once, returning the slots of dead values to a bitmap free set
    and giving each instruction the lowest free slot.  The file models both
    passes with their linked release lists and free-word cursor, and proves the
    contract the executor relies on: no slot is overwritten before its last
    consumer has run ([noninterfering]) and root slots survive to the end. *)

From S2P Require Import Prelude Store Truth Schema Result Program Batch Predicate Simd FactIndex Evidence Executor PolicyIndex Finalize Execute.

Definition knownRootFlags : Z := Z.lor RootApplicability (Z.lor RootAssertion RootEvidence).

Inductive slotMode := slotReuse | slotRetainAll.

(** [optionalScheduleColumn] and [validateScheduleColumns] (schedule.go). *)
Definition optionalScheduleColumn (length_ rows : nat) : bool := bool_decide (length_ = 0%nat) || bool_decide (length_ = rows).

Definition validateScheduleColumns (p : Program) : go unit :=
  let n := length (Opcodes p) in
  check (bool_decide (length (Fields p) = n ∧ length (Values p) = n ∧ length (ListStarts p) = n ∧ length (ListCounts p) = n ∧
           length (OperandStarts p) = n ∧ length (OperandCounts p) = n ∧ length (EvidenceKinds p) = n ∧ length (EvidenceStates p) = n) &&
         optionalScheduleColumn (length (EvidenceSubjects p)) n && optionalScheduleColumn (length (EvidenceScopes p)) n &&
         optionalScheduleColumn (length (EvidenceTimings p)) n &&
         bool_decide (length (RootFlags p) = n ∧ length (InstructionNodes p) = n ∧ length (InstructionSourceStarts p) = n ∧
           length (InstructionSourceEnds p) = n)) ErrInvalidGeneratedProgram ;;
  check (forallb (λ i, negb (negb (OpcodeValid (Opcodes p !!! i)) ||
           (zlen (ListValues p) <? u64 (ListStarts p !!! i + ListCounts p !!! i)) ||
           (zlen (Operands p) <? u64 (OperandStarts p !!! i + OperandCounts p !!! i)))) (seq 0 n)) ErrInvalidGeneratedProgram ;;
  check (forallb (λ id, negb ((id =? 0) || (Z.of_nat n <? id))) (NodeInstructionIDs p)) ErrInvalidGeneratedProgram.

Definition validateSlotRow (p : Program) (row : nat) : bool :=
  let start := OperandStarts p !!! row in
  let count := OperandCounts p !!! row in
  negb (negb (Z.ldiff (RootFlags p !!! row) knownRootFlags =? 0)) &&
  negb (zlen (Operands p) <? u64 (start + count)) &&
  forallb (λ operand, negb ((operand =? 0) || (Z.of_nat row + 1 <=? operand))) (operandsOf p row).

Definition validateSlotProgram (p : Program) : go unit :=
  check (negb (MaxUint32 <? zlen (Opcodes p))) ErrProgramTooLarge ;;
  validateScheduleColumns p ;;
  check (forallb (validateSlotRow p) (seq 0 (length (Opcodes p)))) ErrInvalidGeneratedProgram.

Definition computeLastUses (p : Program) : go (list Z) :=
  validateSlotProgram p ;;
  let n := length (Opcodes p) in
  uses ← for_range n (λ consumer uses,
    start ← at_ (OperandStarts p) (Z.of_nat consumer);
    count ← at_ (OperandCounts p) (Z.of_nat consumer);
    operands ← slice_ (Operands p) start (start + count);
    fold_go (λ operand uses, put_ uses (operand - 1) (Z.of_nat consumer)) operands uses) (map Z.of_nat (seq 0 n));
  for_range (length (RootFlags p)) (λ row uses,
    flags ← at_ (RootFlags p) (Z.of_nat row);
    if negb (flags =? 0) then put_ uses (Z.of_nat row) (Z.of_nat n) else Ok uses) uses.

(** ** The free set *)

Definition slotWordCount (n : nat) : nat := (n `div` 64 + (if bool_decide (n `mod` 64 = 0) then 0 else 1))%nat.

(** [bits.TrailingZeros64]: the first set bit from [i] on. *)
Fixpoint firstBit (w : Z) (fuel i : nat) : nat :=
  match fuel with O => i | S f => if Z.testbit w (Z.of_nat i) then i else firstBit w f (S i) end.
Definition TrailingZeros64 (w : Z) : nat := firstBit w 64 0.

(** [markSlotFree]: the words and the first possibly non-empty word. *)
Definition markSlotFree (words : list Z) (slot : Z) (firstFreeWord : nat) : go (list Z * nat) :=
  check (negb (slot =? 0)) ErrInvalidGeneratedProgram ;;
  let bitIndex := slot - 1 in
  let word := Z.shiftr bitIndex 6 in
  check (negb (zlen words <=? word)) ErrInvalidGeneratedProgram ;;
  let mask := bit64 (Z.land bitIndex 63) in
  w ← at_ words word;
  check (Z.land w mask =? 0) ErrInvalidGeneratedProgram ;;
  words ← put_ words word (Z.lor w mask);
  Ok (words, if word <? Z.of_nat firstFreeWord then Z.to_nat word else firstFreeWord).

Fixpoint skipEmpty (fuel : nat) (words : list Z) (word : nat) : nat :=
  match fuel with
  | O => word
  | S f => if bool_decide (word < length words)%nat && (words !!! word =? 0) then skipEmpty f words (S word) else word
  end.

(** [takeLowestFreeSlot]: slot, words, cursor; the skip loop runs at most
    [length words] times. *)
Definition takeLowestFreeSlot (words : list Z) (firstFreeWord : nat) : option Z * list Z * nat :=
  let word := skipEmpty (length words) words firstFreeWord in
  if bool_decide (word = length words) then (None, words, word) else
  let w := words !!! word in
  let bit := TrailingZeros64 w in
  let w' := Z.ldiff w (bit64 (Z.of_nat bit)) in
  (Some (Z.of_nat word * 64 + Z.of_nat bit + 1), <[word := w']> words, if w' =? 0 then S word else word).

(** ** Allocation *)

Definition isLive (live : option (list Z)) (row : nat) : bool :=
  match live with None => true | Some l => negb (l !!! row =? 0) end.

(** One iteration of the loop that threads rows into release lists. *)
Definition threadRelease (lastUses : list Z) (live : option (list Z)) (n row : nat) (st : list Z * list Z) : go (list Z * list Z) :=
  let '(head, next) := st in
  let lastUse := lastUses !!! row in
  if negb (isLive live row) then Ok st else
  check (negb ((lastUse <? Z.of_nat row) || (Z.of_nat n <? lastUse))) ErrInvalidGeneratedProgram ;;
  if (Z.of_nat row <? lastUse) && (lastUse <? Z.of_nat n) then
    h ← at_ head lastUse;
    next ← put_ next (Z.of_nat row) h;
    head ← put_ head lastUse (Z.of_nat row + 1);
    Ok (head, next)
  else Ok st.

(** The release loop of one row: [for id := head; id != 0; id = next[id-1]]. *)
Fixpoint releaseLoop (fuel : nat) (live : option (list Z)) (next dst : list Z) (id : Z) (st : list Z * nat) : go (list Z * nat) :=
  if id =? 0 then Ok st else
  match fuel with
  | O => Panic "release list does not end"
  | S f =>
    check (negb ((zlen dst <? id) || negb (isLive live (Z.to_nat (id - 1))))) ErrInvalidGeneratedProgram ;;
    slot ← at_ dst (id - 1);
    st ← markSlotFree st.1 slot st.2;
    id ← at_ next (id - 1);
    releaseLoop f live next dst id st
  end.

Record allocState := { aWords : list Z; aFirst : nat; aPeak : Z; aDst : list Z }.

(** One row of the reuse walk; a release list has at most [length dst] entries. *)
Definition allocateRow (lastUses : list Z) (live : option (list Z)) (head next : list Z) (row : nat) (st : allocState) : go allocState :=
  h ← at_ head (Z.of_nat row);
  '(words, first) ← releaseLoop (length (aDst st)) live next (aDst st) h (aWords st, aFirst st);
  if negb (isLive live row) then Ok {| aWords := words; aFirst := first; aPeak := aPeak st; aDst := aDst st |} else
  let '(taken, words, first) := takeLowestFreeSlot words first in
  '(slot, peak) ← (match taken with
    | Some slot => Ok (slot, aPeak st)
    | None => check (negb (aPeak st =? MaxUint32)) ErrProgramTooLarge ;; Ok (aPeak st + 1, aPeak st + 1)
    end);
  dst ← put_ (aDst st) (Z.of_nat row) slot;
  if lastUses !!! row =? Z.of_nat row then
    '(words, first) ← markSlotFree words slot first;
    Ok {| aWords := words; aFirst := first; aPeak := peak; aDst := dst |}
  else Ok {| aWords := words; aFirst := first; aPeak := peak; aDst := dst |}.

(** [allocateSlots]: the peak and the slot column. *)
Definition allocateSlots (lastUses : list Z) (live : option (list Z)) (dst : list Z) (mode : slotMode) : go (Z * list Z) :=
  let n := length lastUses in
  check (bool_decide (length dst = n) && match live with None => true | Some l => bool_decide (length l = n) end) ErrInvalidGeneratedProgram ;;
  match mode with
  | slotRetainAll =>
    for_range n (λ row st,
      let '(peak, dst) := st in
      if negb (isLive live row) then Ok st else
      check (negb (peak =? MaxUint32)) ErrProgramTooLarge ;;
      dst ← put_ dst (Z.of_nat row) (peak + 1);
      Ok (peak + 1, dst)) (0, dst)
  | slotReuse =>
    '(head, next) ← for_range n (threadRelease lastUses live n) (make_ (Z.of_nat n), make_ (Z.of_nat n));
    let words := make_ (Z.of_nat (slotWordCount n)) in
    st ← for_range n (allocateRow lastUses live head next) {| aWords := words; aFirst := length words; aPeak := 0; aDst := dst |};
    Ok (aPeak st, aDst st)
  end.

Definition computeReasonLive (p : Program) : go (list Z) :=
  let n := length (Opcodes p) in
  let live := map (λ row, if negb (RootFlags p !!! row =? 0) then 1 else 0) (seq 0 n) in
  for_range n (λ i live,
    let row := (n - 1 - i)%nat in
    l ← at_ live (Z.of_nat row);
    if l =? 0 then Ok live else
    let opcode := Opcodes p !!! row in
    if IsGroup opcode || (opcode =? OpcodeNot) then
      start ← at_ (OperandStarts p) (Z.of_nat row);
      count ← at_ (OperandCounts p) (Z.of_nat row);
      operands ← slice_ (Operands p) start (start + count);
      fold_go (λ operand live, put_ live (operand - 1) 1) operands live
    else Ok live) live.

(** [assignSlots]: the slot columns are replaced only when both plans exist. *)
Definition assignSlots (p : Program) (mode : slotMode) : go SlotColumns :=
  let zero := make_ (zlen (Opcodes p)) in
  lastUses ← computeLastUses p;
  '(truthPeak, truth) ← allocateSlots lastUses None zero mode;
  live ← computeReasonLive p;
  '(reasonPeak, reason) ← allocateSlots lastUses (Some live) zero mode;
  Ok {| TruthSlots := truth; ReasonSlots := reason; TruthSlotCount := truthPeak; ReasonSlotCount := reasonPeak |}.

(** ** The free set is a set of slots with a lowest-first cursor *)

(** Slot [s] (one-based) is free. *)
Definition isFree (words : list Z) (s : Z) : bool := rowBit words (Z.to_nat (s - 1)).

Record freeOk (words : list Z) (first : nat) : Prop := {
  fo_words : Forall is_u64 words;
  fo_first : (first ≤ length words)%nat;
  fo_cursor k : (k < 64 * first)%nat → rowBit words k = false
}.

Lemma TrailingZeros64_ok w : is_u64 w → w ≠ 0 →
  (TrailingZeros64 w < 64)%nat ∧ Z.testbit w (Z.of_nat (TrailingZeros64 w)) = true ∧
  ∀ j, (j < TrailingZeros64 w)%nat → Z.testbit w (Z.of_nat j) = false.
Proof.
  intros Hw Hne. unfold TrailingZeros64. set (go := firstBit w).
  assert (∃ i, (i < 64)%nat ∧ Z.testbit w (Z.of_nat i) = true) as (i0 & Hi0 & Hb0).
  { exists (Z.to_nat (Z.log2 w)). unfold is_u64 in Hw. pose proof (Z.log2_nonneg w).
    assert (Z.log2 w < 64) by (apply Z.log2_lt_pow2; lia). split; [lia|]. rewrite Z2Nat.id by done. apply Z.bit_log2. lia. }
  assert (∀ fuel i, (i ≤ i0)%nat → (i0 < i + fuel)%nat → (∀ j, (j < i)%nat → Z.testbit w (Z.of_nat j) = false) →
    (go fuel i ≤ i0)%nat ∧ Z.testbit w (Z.of_nat (go fuel i)) = true ∧ ∀ j, (j < go fuel i)%nat → Z.testbit w (Z.of_nat j) = false) as Hgo.
  { induction fuel as [|fuel IH]; intros i Hle Hlt Hlow; [lia|]. unfold go. simpl. fold go. destruct (Z.testbit w (Z.of_nat i)) eqn:Eb; [done|].
    apply IH; [|lia|].
    - destruct (decide (i = i0)); [congruence|lia].
    - intros j Hj. destruct (decide (j = i)) as [->|]; [done|]. apply Hlow. lia. }
  destruct (Hgo 64%nat 0%nat) as (H1 & H2 & H3); [lia|lia|intros; lia|]. split; [lia|done].
Qed.

Lemma skipEmpty_ok fuel words word :
  (word ≤ length words)%nat → (length words ≤ word + fuel)%nat →
  let w := skipEmpty fuel words word in
  (word ≤ w ≤ length words)%nat ∧ (∀ j, (word ≤ j < w)%nat → words !!! j = 0) ∧ ((w < length words)%nat → words !!! w ≠ 0).
Proof.
  revert word. induction fuel as [|fuel IH]; intros word Hle Hf; simpl.
  { split_and!; [lia|lia|intros; lia|intros; lia]. }
  destruct (bool_decide_reflect (word < length words)%nat) as [Hlt|Hge]; simpl.
  2: { split_and!; [lia|lia|intros; lia|intros; lia]. }
  destruct (Z.eqb_spec (words !!! word) 0) as [Hz|Hnz].
  - destruct (IH (S word)) as (H1 & H2 & H3); [lia|lia|]. split_and!; [lia|lia| |done].
    intros j Hj. destruct (decide (j = word)) as [->|]; [done|]. apply H2. lia.
  - split_and!; [lia|lia|intros; lia|done].
Qed.

Lemma rowBit_zero words k : words !!! (k `div` 64)%nat = 0 → rowBit words k = false.
Proof. intros E. unfold rowBit. rewrite E. apply Z.testbit_0_l. Qed.

(** Taking: the lowest free slot, or none is free. *)
Lemma takeLowestFreeSlot_ok words first : freeOk words first →
  let '(taken, words', first') := takeLowestFreeSlot words first in
  freeOk words' first' ∧ length words' = length words ∧
  match taken with
  | None => words' = words ∧ ∀ k, (k < 64 * length words)%nat → rowBit words k = false
  | Some s => 1 ≤ s ≤ 64 * zlen words ∧ isFree words s = true ∧ (∀ k, (k < Z.to_nat (s - 1))%nat → rowBit words k = false) ∧
      ∀ k, rowBit words' k = rowBit words k && negb (bool_decide (k = Z.to_nat (s - 1)))
  end.
Proof.
  intros [Hu Hf Hc]. unfold takeLowestFreeSlot.
  destruct (skipEmpty_ok (length words) words first Hf ltac:(lia)) as (Hw & Hz & Hnz).
  set (w := skipEmpty (length words) words first) in *.
  assert (∀ k, (k < 64 * w)%nat → rowBit words k = false) as Hlow.
  { intros k Hk. pose proof (row_split k). destruct (decide (k < 64 * first)%nat); [by apply Hc|]. apply rowBit_zero, Hz. lia. }
  destruct (bool_decide_reflect (w = length words)) as [Heq|Hne].
  { split; [split; [done|lia|done]|]. split; [done|]. split; [done|]. intros k Hk. apply Hlow. lia. }
  assert (is_u64 (words !!! w)) as Hwu by (apply Forall_lookup_total_1; [done|lia]).
  destruct (TrailingZeros64_ok (words !!! w) Hwu ltac:(apply Hnz; lia)) as (Hb & Hset & Hclear).
  set (bit := TrailingZeros64 (words !!! w)) in *. set (w' := Z.ldiff _ _).
  replace (Z.to_nat (Z.of_nat w * 64 + Z.of_nat bit + 1 - 1)) with (64 * w + bit)%nat by lia.
  destruct (row_of_word w bit Hb) as [Hd Hm].
  assert (∀ k, rowBit (<[w := w']> words) k = rowBit words k && negb (bool_decide (k = (64 * w + bit)%nat))) as Hbits.
  { intros k. rewrite rowBit_insert by lia. unfold rowBit. pose proof (row_split k) as [Ek Hk].
    destruct (bool_decide_reflect (k `div` 64 = w)%nat) as [E|E].
    - unfold w'. rewrite Z.ldiff_spec, testbit_bit64, E by lia. f_equal. f_equal. apply bool_decide_ext. lia.
    - rewrite bool_decide_eq_false_2, andb_true_r by (intros ->; lia). done. }
  assert (∀ k, (k < 64 * w + bit)%nat → rowBit words k = false) as Hlowest.
  { intros k Hk. pose proof (row_split k) as [Ek Hk']. destruct (decide (k < 64 * w)%nat); [by apply Hlow|].
    assert (k `div` 64 = w)%nat as E by lia. unfold rowBit. rewrite E. apply Hclear. lia. }
  split; [|split; [by rewrite length_insert|]].
  - split; [| |].
    + apply Forall_insert; [done|]. by apply is_u64_ldiff.
    + rewrite length_insert. destruct (_ =? 0); lia.
    + intros k Hk. rewrite Hbits. destruct (Z.eqb_spec w' 0) as [E0|].
      * destruct (decide (k < 64 * w)%nat); [by rewrite Hlow|]. pose proof (row_split k).
        assert (k `div` 64 = w)%nat as E by lia. rewrite <-Hbits. rewrite rowBit_insert, bool_decide_eq_true_2, E0 by (done || lia). apply Z.testbit_0_l.
      * by rewrite Hlow.
  - split; [lia|]. split; [|done]. unfold isFree.
    replace (Z.to_nat (Z.of_nat w * 64 + Z.of_nat bit + 1 - 1)) with (64 * w + bit)%nat by lia.
    unfold rowBit. by rewrite Hd, Hm.
Qed.

(** Marking a used slot adds exactly that slot. *)
Lemma markSlotFree_ok words slot first :
  freeOk words first → 1 ≤ slot ≤ 64 * zlen words → isFree words slot = false →
  ∃ words' first', markSlotFree words slot first = Ok (words', first') ∧ freeOk words' first' ∧ length words' = length words ∧
    ∀ k, rowBit words' k = rowBit words k || bool_decide (k = Z.to_nat (slot - 1)).
Proof.
  intros [Hu Hf Hc] Hs Hfree. set (r := Z.to_nat (slot - 1)). pose proof (row_split r) as [Er Hr]. unfold markSlotFree, check.
  rewrite (proj2 (Z.eqb_neq slot 0)) by lia. simpl.
  rewrite (row_word (slot - 1)), (row_bit (slot - 1)) by lia. fold r.
  rewrite (proj2 (Z.leb_gt (zlen words) (Z.of_nat (r `div` 64)))) by lia. simpl.
  rewrite at_total by lia. rewrite Nat2Z.id, go_bind_Ok.
  assert (Z.land (words !!! (r `div` 64)%nat) (bit64 (Z.of_nat (r `mod` 64))) =? 0 = true) as ->.
  { pose proof (land_bit64_ne0 (words !!! (r `div` 64)%nat) (Z.of_nat (r `mod` 64)) ltac:(lia)) as Hb.
    unfold isFree, rowBit in Hfree. fold r in Hfree. rewrite Hfree in Hb. by apply negb_false_iff in Hb. }
  rewrite go_bind_Ok, put_Ok, go_bind_Ok, Nat2Z.id by lia. eexists _, _. split; [done|].
  assert (∀ k, rowBit (<[(r `div` 64)%nat := Z.lor (words !!! (r `div` 64)%nat) (bit64 (Z.of_nat (r `mod` 64)))]> words) k =
            rowBit words k || bool_decide (k = r)) as Hbits by (intros k; rewrite setRow_insert by lia; apply rowBit_setRow; lia).
  split; [|split; [by rewrite length_insert|done]]. split.
  - apply Forall_insert; [done|]. apply is_u64_lor; [apply Forall_lookup_total_1; [done|lia]|apply is_u64_bit64; lia].
  - rewrite length_insert. destruct (Z.ltb_spec (Z.of_nat (r `div` 64)) (Z.of_nat first)); lia.
  - intros k Hk. rewrite Hbits. destruct (Z.ltb_spec (Z.of_nat (r `div` 64)) (Z.of_nat first)).
    + rewrite Hc, bool_decide_eq_false_2 by lia. done.
    + rewrite Hc, bool_decide_eq_false_2 by lia. done.
Qed.

(** ** Release lists *)

(** The linked list from [id] through [next] visits the rows [l]. *)
Inductive chain (next : list Z) : Z → list nat → Prop :=
  | chain_nil : chain next 0 []
  | chain_cons k l : chain next (next !!! k) l → chain next (Z.of_nat k + 1) (k :: l).

Lemma chain_frame next i x id l : chain next id l → Forall (λ k, k ≠ i) l → chain (<[i := x]> next) id l.
Proof.
  induction 1 as [|k l Hc IH]; intros Hl; [constructor|]. apply Forall_cons in Hl as [Hk Hl].
  constructor. rewrite list_lookup_total_insert_ne by done. by apply IH.
Qed.

Lemma releaseLoop_ok live next dst l : ∀ fuel id words first,
  chain next id l → (length l ≤ fuel)%nat → length next = length dst → freeOk words first →
  (∀ k, k ∈ l → (k < length dst)%nat ∧ isLive live k = true ∧ 1 ≤ dst !!! k ≤ 64 * zlen words ∧ isFree words (dst !!! k) = false) →
  NoDup (map (λ k, dst !!! k) l) →
  ∃ words' first', releaseLoop fuel live next dst id (words, first) = Ok (words', first') ∧ freeOk words' first' ∧
    length words' = length words ∧ ∀ j, rowBit words' j = rowBit words j || existsb (λ k, bool_decide (j = Z.to_nat (dst !!! k - 1))) l.
Proof.
  induction l as [|k l IH]; intros fuel id words first Hch Hfuel Hlen Hfree Hl Hnd.
  - inversion Hch; subst. exists words, first. split; [by destruct fuel|]. split_and!; [done..|]. intros j. by rewrite orb_false_r.
  - inversion Hch as [|k' l' Hch']; subst. destruct fuel as [|fuel]; [simpl in Hfuel; lia|].
    destruct (Hl k ltac:(set_solver)) as (Hk & Hlive & Hs & Hnf). simpl in Hnd. apply NoDup_cons in Hnd as [Hni Hnd].
    cbn [releaseLoop]. rewrite (proj2 (Z.eqb_neq _ 0)) by lia. rewrite Z.add_simpl_r, Nat2Z.id, Hlive.
    rewrite (proj2 (Z.ltb_ge (zlen dst) (Z.of_nat k + 1))) by lia. simpl.
    rewrite (at_total dst) by lia. rewrite Nat2Z.id, go_bind_Ok.
    destruct (markSlotFree_ok words (dst !!! k) first Hfree Hs Hnf) as (w1 & f1 & -> & Hf1 & Hl1 & Hb1). rewrite go_bind_Ok.
    rewrite (at_total next) by lia. rewrite Nat2Z.id, go_bind_Ok.
    destruct (IH fuel (next !!! k) w1 f1 Hch') as (w2 & f2 & Hrun & Hf2 & Hl2 & Hb2); [simpl in Hfuel; lia|done|done| |done|].
    + intros q Hq. destruct (Hl q ltac:(set_solver)) as (Hq1 & Hq2 & Hq3 & Hq4). rewrite Hl1. split_and!; [done|done|lia|lia|].
      unfold isFree in *. rewrite Hb1, Hq4. simpl. apply bool_decide_eq_false. intros E.
      apply Hni. apply list_elem_of_In, in_map_iff. exists q. rewrite <-list_elem_of_In. split; [lia|done].
    + exists w2, f2. split; [exact Hrun|]. split; [done|]. split; [lia|]. intros j. by rewrite Hb2, Hb1, <-orb_assoc.
Qed.

Section allocate.
Context (lastUses : list Z) (live : option (list Z)).
Local Abbreviation n := (length lastUses).
Local Abbreviation use k := (lastUses !!! k).
Context (Huse : ∀ k, (k < n)%nat → isLive live k = true → Z.of_nat k ≤ use k ≤ Z.of_nat n).
Context (Hn : Z.of_nat n ≤ MaxUint32).

(** The rows below [i] whose slots row [u] releases, latest first. *)
Definition released (u : nat) (k : nat) : bool :=
  isLive live k && (Z.of_nat k <? use k) && (use k =? Z.of_nat u).
Definition releases (u i : nat) : list nat := rev (List.filter (released u) (seq 0 i)).

Lemma releases_S u i : releases u (S i) = if released u i then i :: releases u i else releases u i.
Proof. unfold releases. rewrite seq_S, List.filter_app, rev_app_distr. simpl. by destruct (released u i). Qed.

Lemma releases_elem u i k : k ∈ releases u i ↔ (k < i)%nat ∧ released u k = true.
Proof. unfold releases. rewrite list_elem_of_In, <-in_rev, filter_In, in_seq. split; intros [? ?]; split; auto; lia. Qed.

Lemma releases_NoDup u i : NoDup (releases u i).
Proof. unfold releases. apply NoDup_ListNoDup, List.NoDup_rev, List.NoDup_filter, List.seq_NoDup. Qed.

Lemma threadReleases_ok :
  ∃ head next, for_range n (threadRelease lastUses live n) (make_ (Z.of_nat n), make_ (Z.of_nat n)) = Ok (head, next) ∧
    length head = n ∧ length next = n ∧ ∀ u, (u < n)%nat → chain next (head !!! u) (releases u n).
Proof.
  destruct (for_range_total (λ i st, length st.1 = n ∧ length st.2 = n ∧ ∀ u, (u < n)%nat → chain st.2 (st.1 !!! u) (releases u i))
    n (threadRelease lastUses live n) (make_ (Z.of_nat n), make_ (Z.of_nat n))) as ([head next] & Hrun & Hh & Hnx & Hch).
  - unfold make_. simpl. rewrite !length_replicate, Nat2Z.id. split_and!; [done|done|]. intros u Hu.
    rewrite lookup_total_replicate_2 by done. apply chain_nil.
  - intros i [head next] Hi (Hh & Hnx & Hch). simpl in Hh, Hnx, Hch. unfold threadRelease.
    assert (∀ u, releases u (S i) = releases u i ∨ released u i = true) as Hrel.
    { intros u. rewrite releases_S. destruct (released u i); auto. }
    destruct (isLive live i) eqn:Hl; simpl.
    2: { eexists; split; [done|]. simpl. split_and!; [done|done|]. intros u Hu. rewrite releases_S. unfold released. rewrite Hl. simpl. auto. }
    destruct (Huse i Hi Hl) as [Hu1 Hu2]. rewrite (proj2 (Z.ltb_ge (use i) (Z.of_nat i))), (proj2 (Z.ltb_ge (Z.of_nat n) (use i))) by lia. simpl.
    destruct (Z.ltb_spec (Z.of_nat i) (use i)) as [Hlt|Hge]; simpl.
    2: { eexists; split; [done|]. simpl. split_and!; [done|done|]. intros u Hu. rewrite releases_S. unfold released.
         rewrite (proj2 (Z.ltb_ge (Z.of_nat i) (use i))), andb_false_r by lia. simpl. auto. }
    destruct (Z.ltb_spec (use i) (Z.of_nat n)) as [Hltn|Hgen].
    2: { eexists; split; [done|]. simpl. split_and!; [done|done|]. intros u Hu. rewrite releases_S. unfold released.
         rewrite (proj2 (Z.eqb_neq (use i) (Z.of_nat u))), andb_false_r by lia. auto. }
    rewrite at_total by lia. simpl. rewrite put_Ok by lia. simpl. rewrite put_Ok by lia. simpl. rewrite Nat2Z.id.
    eexists; split; [done|]. simpl. rewrite !length_insert. split_and!; [done|done|]. intros u Hu. rewrite releases_S.
    assert (∀ x, chain (<[i := x]> next) (head !!! u) (releases u i)) as Hfr.
    { intros x. apply chain_frame; [by apply Hch|]. apply Forall_forall. intros k [Hk _]%releases_elem. lia. }
    destruct (decide (use i = Z.of_nat u)) as [E|E].
    + unfold released. rewrite Hl, (proj2 (Z.ltb_lt (Z.of_nat i) (use i))), (proj2 (Z.eqb_eq (use i) _) E) by lia. simpl.
      rewrite E, Nat2Z.id. rewrite list_lookup_total_insert_eq by lia. constructor. rewrite list_lookup_total_insert_eq by lia. apply Hfr.
    + unfold released. rewrite (proj2 (Z.eqb_neq (use i) (Z.of_nat u)) E), andb_false_r. rewrite list_lookup_total_insert_ne by lia. apply Hfr.
  - exists head, next. done.
Qed.

Lemma slotWordCount_ok : (n ≤ 64 * slotWordCount n)%nat.
Proof. unfold slotWordCount. pose proof (row_split n). destruct (bool_decide_reflect (n `mod` 64 = 0)%nat); lia. Qed.

(** The walk before row [row]: [bound] is the first use a held slot must still have. *)
Record walk (row : nat) (bound : Z) (words : list Z) (first : nat) (peak : Z) (dst : list Z) : Prop := {
  wk_dst : length dst = n;
  wk_words : length words = slotWordCount n;
  wk_free : freeOk words first;
  wk_peak : 0 ≤ peak ≤ Z.of_nat row;
  wk_slots k : (k < row)%nat → isLive live k = true → 1 ≤ dst !!! k ≤ peak;
  wk_zero k : (k < n)%nat → (row ≤ k)%nat ∨ isLive live k = false → dst !!! k = 0;
  wk_bound k : (k < 64 * length words)%nat → rowBit words k = true → Z.of_nat k < peak;
  wk_used k : (k < row)%nat → isLive live k = true → bound ≤ use k → isFree words (dst !!! k) = false;
  wk_distinct i k : (i < k)%nat → (k < row)%nat → isLive live i = true → isLive live k = true → Z.of_nat k < use i → dst !!! i ≠ dst !!! k
}.

Lemma slot_word slot : 1 ≤ slot ≤ Z.of_nat n → (Z.to_nat (slot - 1) < 64 * slotWordCount n)%nat.
Proof. pose proof slotWordCount_ok. lia. Qed.

(** Releasing the rows last used at [row]. *)
Lemma walk_release row words first peak dst head next :
  (row < n)%nat → walk row (Z.of_nat row) words first peak dst → length head = n → length next = n →
  chain next (head !!! row) (releases row n) →
  ∃ words' first', releaseLoop (length dst) live next dst (head !!! row) (words, first) = Ok (words', first') ∧
    walk row (Z.of_nat row + 1) words' first' peak dst.
Proof.
  intros Hrow [Hd Hw Hf Hp Hs Hz Hb Hu Hdist] Hh Hnx Hch.
  assert (∀ k, k ∈ releases row n → (k < row)%nat ∧ isLive live k = true ∧ use k = Z.of_nat row) as Hrel.
  { intros k [_ Hk]%releases_elem. unfold released in Hk. rewrite !andb_true_iff, Z.ltb_lt, Z.eqb_eq in Hk. split_and!; [lia|tauto|tauto]. }
  pose proof slotWordCount_ok as Hwc.
  assert (∀ i k, (i < row)%nat → (k < row)%nat → i ≠ k → isLive live i = true → isLive live k = true → Z.of_nat row ≤ use i →
    Z.of_nat row ≤ use k → dst !!! i ≠ dst !!! k) as Hpair.
  { intros i k Hi Hk Hne Hli Hlk Hui Huk. destruct (decide (i < k)%nat); [apply Hdist; done || lia|].
    apply not_eq_sym, Hdist; done || lia. }
  destruct (releaseLoop_ok live next dst (releases row n) (length dst) (head !!! row) words first)
    as (w1 & f1 & Hrun & Hf1 & Hl1 & Hb1); try done; try congruence.
  - rewrite Hd. unfold releases. rewrite length_rev. etransitivity; [apply List.filter_length_le|]. by rewrite length_seq.
  - intros k Hk. destruct (Hrel k Hk) as (Hk1 & Hk2 & Hk3). specialize (Hs k Hk1 Hk2). split_and!; [lia|done|lia|rewrite Hw; lia|].
    apply Hu; [done|done|lia].
  - apply NoDup_fmap_2_strong; [|apply releases_NoDup]. intros i k Hi Hk E. destruct (decide (i = k)); [done|].
    destruct (Hrel i Hi) as (? & ? & ?), (Hrel k Hk) as (? & ? & ?). destruct (Hpair i k); done || lia.
  - exists w1, f1. split; [done|]. split; try done; try congruence.
    + intros k Hk. rewrite Hl1 in Hk. rewrite Hb1, orb_true_iff. intros [Hbk|Hex]; [by apply Hb|].
      apply existsb_exists in Hex as (q & Hq & E). apply bool_decide_eq_true in E. rewrite <-list_elem_of_In in Hq.
      destruct (Hrel q Hq) as (Hq1 & Hq2 & _). specialize (Hs q Hq1 Hq2). lia.
    + intros k Hk Hlk Huk. unfold isFree. rewrite Hb1. fold (isFree words (dst !!! k)). rewrite Hu by (done || lia). simpl.
      destruct (existsb _ _) eqn:Hex; [|done]. apply existsb_exists in Hex as (q & Hq & E). apply bool_decide_eq_true in E.
      rewrite <-list_elem_of_In in Hq. destruct (Hrel q Hq) as (Hq1 & Hq2 & Hq3).
      pose proof (Hs q Hq1 Hq2). pose proof (Hs k Hk Hlk). destruct (Hpair k q); try done; try lia. intros ->. lia.
Qed.

(** Giving the live row [row] a slot that nothing else holds. *)
Lemma walk_assign row words first peak dst words' first' slot peak' :
  (row < n)%nat → isLive live row = true → walk row (Z.of_nat row + 1) words first peak dst →
  peak ≤ peak' ≤ Z.of_nat row + 1 → 1 ≤ slot ≤ peak' → freeOk words' first' → length words' = length words →
  (∀ k, (k < row)%nat → isLive live k = true → Z.of_nat row < use k → dst !!! k ≠ slot) →
  (∀ k, (k < 64 * length words)%nat → rowBit words' k = true → rowBit words k = true ∨ (k = Z.to_nat (slot - 1) ∧ use row = Z.of_nat row)) →
  (Z.of_nat row < use row → isFree words' slot = false) →
  walk (S row) (Z.of_nat (S row)) words' first' peak' (<[row := slot]> dst).
Proof.
  intros Hrow Hlive [Hd Hw Hf Hp Hs Hz Hb Hu Hdist] Hp' Hslot Hf' Hl' Hfresh Hbits Hown. pose proof slotWordCount_ok as Hwc.
  assert (∀ k, k ≠ row → <[row := slot]> dst !!! k = dst !!! k) as Hne by (intros; by rewrite list_lookup_total_insert_ne by done).
  assert (<[row := slot]> dst !!! row = slot) as Heq by (by rewrite list_lookup_total_insert_eq by lia).
  split; try done; try congruence; try lia.
  - by rewrite length_insert.
  - intros k Hk Hlk. destruct (decide (k = row)) as [->|]; [by rewrite Heq|]. rewrite Hne by done. specialize (Hs k ltac:(lia) Hlk). lia.
  - intros k Hk Hor. destruct (decide (k = row)) as [->|]; [destruct Hor; [lia|congruence]|]. rewrite Hne by done. apply Hz; [done|].
    destruct Hor; [left; lia|by right].
  - intros k Hk Hbk. rewrite Hl' in Hk. destruct (Hbits k Hk Hbk) as [Hbk'|[-> _]]; [|lia]. specialize (Hb k Hk Hbk'). lia.
  - intros k Hk Hlk Huk. destruct (decide (k = row)) as [->|Hkr]; [rewrite Heq; apply Hown; lia|]. rewrite Hne by done.
    specialize (Hs k ltac:(lia) Hlk). specialize (Hu k ltac:(lia) Hlk ltac:(lia)).
    destruct (isFree words' (dst !!! k)) eqn:E; [|done]. exfalso. unfold isFree in *.
    destruct (Hbits (Z.to_nat (dst !!! k - 1)) ltac:(lia) E) as [E'|[E' _]]; [congruence|].
    apply (Hfresh k); try done; lia.
  - intros i k Hik Hk Hli Hlk Hui. destruct (decide (k = row)) as [->|].
    + rewrite Heq, Hne by lia. apply Hfresh; done || lia.
    + rewrite !Hne by lia. apply Hdist; done || lia.
Qed.

Definition walkSt (row : nat) (st : allocState) : Prop := walk row (Z.of_nat row) (aWords st) (aFirst st) (aPeak st) (aDst st).

(** A dead row takes nothing. *)
Lemma walk_skip row words first peak dst :
  (row < n)%nat → isLive live row = false → walk row (Z.of_nat row + 1) words first peak dst →
  walk (S row) (Z.of_nat (S row)) words first peak dst.
Proof.
  intros Hrow Hdead [Hd Hw Hf Hp Hs Hz Hb Hu Hdist].
  assert (∀ k, (k < S row)%nat → isLive live k = true → (k < row)%nat) as Hlt.
  { intros k Hk Hlk. destruct (decide (k = row)) as [->|]; [congruence|lia]. }
  split; try done; try lia; auto.
  - intros k Hk Hor. apply Hz; [done|]. destruct Hor; [left; lia|by right].
  - intros k Hk Hlk Huk. apply Hu; [auto|done|lia].
Qed.

Lemma allocateRow_ok head next row st :
  (row < n)%nat → walkSt row st → length head = n → length next = n → chain next (head !!! row) (releases row n) →
  ∃ st', allocateRow lastUses live head next row st = Ok st' ∧ walkSt (S row) st'.
Proof.
  intros Hrow Hwk Hh Hnx Hch. unfold allocateRow. rewrite at_total by lia. rewrite go_bind_Ok, Nat2Z.id.
  destruct (walk_release row _ _ _ _ head next Hrow Hwk Hh Hnx Hch) as (words & first & -> & Hmid). rewrite go_bind_Ok.
  destruct (isLive live row) eqn:Hlive; simpl.
  2: { eexists; split; [done|]. by apply walk_skip. }
  destruct (Huse row Hrow Hlive) as [Hu1 Hu2]. pose proof slotWordCount_ok as Hwc.
  pose proof (takeLowestFreeSlot_ok words first (wk_free _ _ _ _ _ _ Hmid)) as Htake.
  destruct (takeLowestFreeSlot words first) as [[taken w2] f2]. destruct Htake as (Hf2 & Hl2 & Htake).
  pose proof Hmid as [Hd Hw Hf Hp Hs Hz Hb Hu Hdist].
  assert (∃ slot peak', (match taken with
    | Some slot => Ok (slot, aPeak st)
    | None => check (negb (aPeak st =? MaxUint32)) ErrProgramTooLarge ;; Ok (aPeak st + 1, aPeak st + 1) end) = Ok (slot, peak') ∧
    aPeak st ≤ peak' ≤ Z.of_nat row + 1 ∧ 1 ≤ slot ≤ peak' ∧
    (∀ k, (k < row)%nat → isLive live k = true → Z.of_nat row < use k → aDst st !!! k ≠ slot) ∧
    (∀ k, (k < 64 * length words)%nat → rowBit w2 k = true → rowBit words k = true) ∧ isFree w2 slot = false)
    as (slot & peak' & -> & Hpk & Hslot & Hfresh & Hsub & Hnf).
  { destruct taken as [s|].
    - destruct Htake as (Hs1 & Hs2 & _ & Hs4). exists s, (aPeak st). split; [done|]. unfold isFree in Hs2.
      pose proof (Hb (Z.to_nat (s - 1)) ltac:(lia) Hs2). split; [lia|]. split; [lia|]. split_and!.
      + intros k Hk Hlk Huk E. rewrite <-E in Hs2. specialize (Hu k Hk Hlk ltac:(lia)). unfold isFree in Hu. congruence.
      + intros k _. rewrite Hs4, andb_true_iff. tauto.
      + unfold isFree. rewrite Hs4, Hs2, bool_decide_eq_true_2 by done. done.
    - destruct Htake as [-> Hnone]. exists (aPeak st + 1), (aPeak st + 1). unfold check.
      rewrite (proj2 (Z.eqb_neq (aPeak st) MaxUint32)) by lia. split; [done|]. split; [lia|]. split; [lia|]. split_and!.
      + intros k Hk Hlk _. specialize (Hs k Hk Hlk). lia.
      + done.
      + unfold isFree. apply Hnone. lia. }
  rewrite go_bind_Ok, put_Ok, go_bind_Ok, Nat2Z.id by lia.
  destruct (Z.eqb_spec (use row) (Z.of_nat row)) as [Eu|Eu].
  - destruct (markSlotFree_ok w2 slot f2 Hf2 ltac:(lia) Hnf) as (w3 & f3 & -> & Hf3 & Hl3 & Hb3). rewrite go_bind_Ok.
    eexists; split; [done|]. eapply walk_assign; try done; simpl; [congruence| |lia].
    intros k Hk. rewrite Hb3, orb_true_iff, bool_decide_eq_true. intros [?|?]; auto.
  - eexists; split; [done|]. eapply walk_assign; try done. intros k Hk Hbk. left. auto.
Qed.

(** Slots in [1..peak] for live rows, none for dead rows, and a slot is
    reassigned only at or after its last use. *)
Definition planned (peak : Z) (dst : list Z) : Prop :=
  length dst = n ∧ 0 ≤ peak ≤ Z.of_nat n ∧
  (∀ k, (k < n)%nat → isLive live k = true → 1 ≤ dst !!! k ≤ peak) ∧
  (∀ k, (k < n)%nat → isLive live k = false → dst !!! k = 0) ∧
  (∀ i k, (i < k)%nat → (k < n)%nat → isLive live i = true → isLive live k = true → Z.of_nat k < use i → dst !!! i ≠ dst !!! k).

Lemma live_shape : match live with None => true | Some l => bool_decide (length l = n) end = true →
  ∀ dst mode, length dst = n → allocateSlots lastUses live dst mode =
  match mode with
  | slotRetainAll => for_range n (λ row st,
      let '(peak, dst) := st in
      if negb (isLive live row) then Ok st else
      check (negb (peak =? MaxUint32)) ErrProgramTooLarge ;;
      dst ← put_ dst (Z.of_nat row) (peak + 1);
      Ok (peak + 1, dst)) (0, dst)
  | slotReuse =>
    '(head, next) ← for_range n (threadRelease lastUses live n) (make_ (Z.of_nat n), make_ (Z.of_nat n));
    let words := make_ (Z.of_nat (slotWordCount n)) in
    st ← for_range n (allocateRow lastUses live head next) {| aWords := words; aFirst := length words; aPeak := 0; aDst := dst |};
    Ok (aPeak st, aDst st)
  end.
Proof. intros Hl dst mode Hd. unfold allocateSlots. rewrite Hl, bool_decide_eq_true_2 by done. done. Qed.

Lemma allocateSlots_reuse :
  match live with None => true | Some l => bool_decide (length l = n) end = true →
  ∃ peak dst, allocateSlots lastUses live (make_ (Z.of_nat n)) slotReuse = Ok (peak, dst) ∧ planned peak dst.
Proof.
  intros Hl. assert (length (make_ (Z.of_nat n)) = n) as Hmk by (unfold make_; rewrite length_replicate; lia).
  rewrite live_shape by done. destruct threadReleases_ok as (head & next & -> & Hh & Hnx & Hch). rewrite go_bind_Ok. cbv zeta.
  set (words := make_ (Z.of_nat (slotWordCount n))). assert (length words = slotWordCount n) as Hlw by (unfold words, make_; rewrite length_replicate; lia).
  assert (∀ k, (k < 64 * length words)%nat → rowBit words k = false) as Hzero.
  { intros k Hk. unfold words, make_ in *. rewrite length_replicate in Hk. by apply rowBit_replicate0. }
  destruct (for_range_total walkSt n (allocateRow lastUses live head next)
    {| aWords := words; aFirst := length words; aPeak := 0; aDst := make_ (Z.of_nat n) |}) as (st & -> & Hwk).
  - split; simpl; try done; try lia.
    + split; [|lia|done]. unfold words, make_. apply Forall_replicate. by vm_compute.
    + intros k Hk _. unfold make_. apply lookup_total_replicate_2. lia.
    + intros k Hk Hbk. by rewrite Hzero in Hbk.
  - intros row st Hrow Hst. apply allocateRow_ok; try done. by apply Hch.
  - rewrite go_bind_Ok. exists (aPeak st), (aDst st). split; [done|]. destruct Hwk as [Hd Hw Hf Hp Hs Hz Hb Hu Hdist].
    split; [done|]. split; [lia|]. split; [done|]. split; [intros k Hk Hdead; apply Hz; auto|done].
Qed.

Lemma allocateSlots_retain :
  match live with None => true | Some l => bool_decide (length l = n) end = true →
  ∃ peak dst, allocateSlots lastUses live (make_ (Z.of_nat n)) slotRetainAll = Ok (peak, dst) ∧ planned peak dst.
Proof.
  intros Hl. assert (length (make_ (Z.of_nat n)) = n) as Hmk by (unfold make_; rewrite length_replicate; lia).
  rewrite live_shape by done.
  edestruct (for_range_total (λ i st, length st.2 = n ∧ 0 ≤ st.1 ≤ Z.of_nat i ∧
      (∀ k, (k < i)%nat → isLive live k = true → 1 ≤ st.2 !!! k ≤ st.1) ∧
      (∀ k, (k < n)%nat → (i ≤ k)%nat ∨ isLive live k = false → st.2 !!! k = 0) ∧
      (∀ a k, (a < k)%nat → (k < i)%nat → isLive live a = true → isLive live k = true → st.2 !!! a ≠ st.2 !!! k)) n)
    as ([peak dst] & -> & Hd & Hp & Hs & Hz & Hdist).
  3: { exists peak, dst. split; [done|]. simpl in *. split_and!; try done; try lia; auto. }
  - simpl. split_and!; try done; try lia.
    + intros k Hk _. unfold make_. apply lookup_total_replicate_2. lia.
  - intros i [peak dst] Hi (Hd & Hp & Hs & Hz & Hdist). simpl in *. destruct (isLive live i) eqn:Hli; simpl.
    + rewrite (proj2 (Z.eqb_neq peak MaxUint32)) by lia. simpl. rewrite put_Ok by lia. simpl. rewrite Nat2Z.id.
      assert (∀ k, k ≠ i → <[i := peak + 1]> dst !!! k = dst !!! k) as Hne by (intros; by rewrite list_lookup_total_insert_ne by done).
      assert (<[i := peak + 1]> dst !!! i = peak + 1) as Heq by (by rewrite list_lookup_total_insert_eq by lia).
      eexists; split; [done|]. simpl. split_and!; try lia; [by rewrite length_insert| | |].
      * intros k Hk Hlk. destruct (decide (k = i)) as [->|]; [rewrite Heq; lia|]. rewrite Hne by done. specialize (Hs k ltac:(lia) Hlk). lia.
      * intros k Hk Hor. destruct (decide (k = i)) as [->|]; [destruct Hor; [lia|congruence]|]. rewrite Hne by done. apply Hz; [done|].
        destruct Hor; [left; lia|by right].
      * intros a k Hak Hk Hla Hlk. destruct (decide (k = i)) as [->|].
        -- rewrite Heq, Hne by lia. specialize (Hs a ltac:(lia) Hla). lia.
        -- rewrite !Hne by lia. apply Hdist; done || lia.
    + assert (∀ k, (k < S i)%nat → isLive live k = true → (k < i)%nat) as Hlt.
      { intros k Hk Hlk. destruct (decide (k = i)) as [->|]; [congruence|lia]. }
      eexists; split; [done|]. simpl. split_and!; try done; try lia; auto.
      intros k Hk Hor. apply Hz; [done|]. destruct Hor; [left; lia|by right].
Qed.

Lemma allocateSlots_ok mode :
  match live with None => true | Some l => bool_decide (length l = n) end = true →
  ∃ peak dst, allocateSlots lastUses live (make_ (Z.of_nat n)) mode = Ok (peak, dst) ∧ planned peak dst.
Proof. destruct mode; [apply allocateSlots_reuse|apply allocateSlots_retain]. Qed.
End allocate.

(** ** Last uses and reason liveness *)

Record slots_typed (p : Program) : Prop := {
  ly_starts : Forall is_u32 (OperandStarts p);
  ly_counts : Forall is_u32 (OperandCounts p);
  ly_operands : Forall is_u32 (Operands p)
}.

(** The validated instruction graph: operands are in range and precede their consumer. *)
Record graph_ok (p : Program) : Prop := {
  gk_size : zlen (Opcodes p) ≤ MaxUint32;
  gk_lens : length (OperandStarts p) = length (Opcodes p) ∧ length (OperandCounts p) = length (Opcodes p) ∧
    length (RootFlags p) = length (Opcodes p);
  gk_range row : (row < length (Opcodes p))%nat → 0 ≤ OperandStarts p !!! row ∧ 0 ≤ OperandCounts p !!! row ∧
    OperandStarts p !!! row + OperandCounts p !!! row ≤ zlen (Operands p);
  gk_earlier row o : (row < length (Opcodes p))%nat → o ∈ operandsOf p row → 1 ≤ o ≤ Z.of_nat row
}.

Lemma validateSlotProgram_ok p : slots_typed p → validateSlotProgram p = Ok tt → graph_ok p.
Proof.
  intros [Hs Hc Ho]. unfold validateSlotProgram. intros ([] & Hsz%check_inv & Hv)%go_bind_inv.
  apply go_bind_inv in Hv as ([] & Hcols & Hrows%check_inv). unfold validateScheduleColumns in Hcols.
  apply go_bind_inv in Hcols as ([] & Hlens%check_inv & _). rewrite !andb_true_iff, !bool_decide_eq_true in Hlens.
  rewrite negb_true_iff, Z.ltb_ge in Hsz.
  assert (∀ row, (row < length (Opcodes p))%nat → is_u32 (OperandStarts p !!! row) ∧ is_u32 (OperandCounts p !!! row)) as Hu.
  { intros row Hr. split; apply Forall_lookup_total_1; try done; lia. }
  assert (∀ row, (row < length (Opcodes p))%nat → OperandStarts p !!! row + OperandCounts p !!! row ≤ zlen (Operands p) ∧
    ∀ o, o ∈ operandsOf p row → 1 ≤ o ≤ Z.of_nat row) as Hrow.
  { intros row Hr. pose proof (forallb_seq _ _ row Hrows Hr) as Hv. unfold validateSlotRow in Hv. destruct (Hu row Hr) as [U1 U2].
    unfold is_u32 in U1, U2. rewrite u64_small in Hv by (unfold is_u64; lia).
    rewrite !andb_true_iff, (negb_true_iff (_ <? _)), Z.ltb_ge, forallb_forall in Hv. destruct Hv as [[_ Hend] Hall]. split; [done|].
    intros o Hin. pose proof (csr_elem _ _ _ _ Hin) as Hin'. rewrite Forall_forall in Ho. specialize (Ho o Hin').
    rewrite list_elem_of_In in Hin. specialize (Hall o Hin). rewrite negb_true_iff, orb_false_iff, Z.eqb_neq, Z.leb_gt in Hall.
    unfold is_u32 in Ho. lia. }
  split; [done|tauto| |].
  - intros row Hr. destruct (Hu row Hr), (Hrow row Hr). unfold is_u32 in *. lia.
  - intros row o Hr. apply (Hrow row Hr).
Qed.

Section graph.
Context (p : Program) (Hg : graph_ok p).
Local Abbreviation n := (length (Opcodes p)).

Lemma operands_read row : (row < n)%nat →
  at_ (OperandStarts p) (Z.of_nat row) = Ok (OperandStarts p !!! row) ∧ at_ (OperandCounts p) (Z.of_nat row) = Ok (OperandCounts p !!! row) ∧
  slice_ (Operands p) (OperandStarts p !!! row) (OperandStarts p !!! row + OperandCounts p !!! row) = Ok (operandsOf p row).
Proof.
  intros Hr. destruct (gk_lens _ Hg) as (H1 & H2 & _). destruct (gk_range _ Hg row Hr) as (? & ? & ?).
  rewrite !at_total by lia. rewrite Nat2Z.id. split_and!; [done|done|]. by apply slice_csr.
Qed.

(** [uses] bounds every consumer seen so far. *)
Definition usesOk (i : nat) (uses : list Z) : Prop :=
  length uses = n ∧ (∀ k, (k < n)%nat → Z.of_nat k ≤ uses !!! k ≤ Z.of_nat n) ∧
  (∀ j o, (j < i)%nat → o ∈ operandsOf p j → Z.of_nat j ≤ uses !!! Z.to_nat (o - 1)).

Lemma usesOk_consumer i uses : (i < n)%nat → usesOk i uses →
  ∃ uses', fold_go (λ operand uses, put_ uses (operand - 1) (Z.of_nat i)) (operandsOf p i) uses = Ok uses' ∧ usesOk (S i) uses'.
Proof.
  intros Hi Hu. pose proof (gk_earlier _ Hg i) as He.
  destruct (fold_go_total (λ pre u, usesOk i u ∧ ∀ o, o ∈ pre → u !!! Z.to_nat (o - 1) = Z.of_nat i)
    (λ operand uses, put_ uses (operand - 1) (Z.of_nat i)) (operandsOf p i) uses) as (uses' & -> & (Hl & Hb & Hops) & Hset).
  - split; [done|]. intros o Ho. set_solver.
  - intros pre o post u Hsplit [(Hl & Hb & Hops) Hset]. specialize (He o Hi ltac:(rewrite Hsplit; set_solver)).
    rewrite put_Ok by lia. eexists; split; [done|].
    assert (∀ k, k ≠ Z.to_nat (o - 1) → <[Z.to_nat (o - 1) := Z.of_nat i]> u !!! k = u !!! k) as Hne by (intros; by rewrite list_lookup_total_insert_ne by done).
    assert (<[Z.to_nat (o - 1) := Z.of_nat i]> u !!! Z.to_nat (o - 1) = Z.of_nat i) as Heq by (by rewrite list_lookup_total_insert_eq by lia).
    split; [split; [by rewrite length_insert|split]|].
    + intros k Hk. destruct (decide (k = Z.to_nat (o - 1))) as [->|]; [rewrite Heq; lia|]. rewrite Hne by done. by apply Hb.
    + intros j q Hj Hq. destruct (decide (Z.to_nat (q - 1) = Z.to_nat (o - 1))) as [->|]; [rewrite Heq; lia|]. rewrite Hne by done. by apply Hops.
    + intros q [Hq|Hq]%elem_of_app; [|apply list_elem_of_singleton in Hq as ->; done].
      destruct (decide (Z.to_nat (q - 1) = Z.to_nat (o - 1))) as [->|]; [done|]. rewrite Hne by done. by apply Hset.
  - exists uses'. split; [done|]. split; [done|]. split; [done|]. intros j o Hj Ho. destruct (decide (j = i)) as [->|].
    + rewrite Hset by done. lia.
    + apply Hops; [lia|done].
Qed.

Lemma computeLastUses_ok : validateSlotProgram p = Ok tt →
  ∃ uses, computeLastUses p = Ok uses ∧ usesOk n uses ∧ ∀ k, (k < n)%nat → RootFlags p !!! k ≠ 0 → uses !!! k = Z.of_nat n.
Proof.
  intros Hv. destruct (gk_lens _ Hg) as (_ & _ & Hlr). unfold computeLastUses. rewrite Hv, go_bind_Ok. cbv zeta.
  edestruct (for_range_total usesOk n (λ consumer uses,
      start ← at_ (OperandStarts p) (Z.of_nat consumer);
      count ← at_ (OperandCounts p) (Z.of_nat consumer);
      operands ← slice_ (Operands p) start (start + count);
      fold_go (λ operand uses, put_ uses (operand - 1) (Z.of_nat consumer)) operands uses) (map Z.of_nat (seq 0 n))) as (uses & -> & Hu).
  - split; [by rewrite length_map, length_seq|]. split; [|intros; lia]. intros k Hk. rewrite map_seq_lookup_total by done. lia.
  - intros i u Hi Hui. destruct (operands_read i Hi) as (-> & -> & E). rewrite !go_bind_Ok, E, go_bind_Ok. by apply usesOk_consumer.
  - rewrite go_bind_Ok, Hlr. destruct (for_range_total (λ i u, usesOk n u ∧ ∀ k, (k < i)%nat → RootFlags p !!! k ≠ 0 → u !!! k = Z.of_nat n)
      n (λ row uses, flags ← at_ (RootFlags p) (Z.of_nat row);
        if negb (flags =? 0) then put_ uses (Z.of_nat row) (Z.of_nat n) else Ok uses) uses) as (uses' & -> & Hu' & Hroot).
    + split; [done|]. intros; lia.
    + intros i u Hi [(Hl & Hb & Hops) Hroot]. rewrite at_total by lia. rewrite go_bind_Ok, Nat2Z.id.
      destruct (Z.eqb_spec (RootFlags p !!! i) 0) as [E|E]; simpl.
      * eexists; split; [done|]. split; [done|]. intros k Hk Hne. destruct (decide (k = i)) as [->|]; [done|]. apply Hroot; [lia|done].
      * rewrite put_Ok by lia. eexists; split; [done|]. rewrite Nat2Z.id.
        assert (∀ k, k ≠ i → <[i := Z.of_nat n]> u !!! k = u !!! k) as Hne by (intros; by rewrite list_lookup_total_insert_ne by done).
        assert (<[i := Z.of_nat n]> u !!! i = Z.of_nat n) as Heq by (by rewrite list_lookup_total_insert_eq by lia).
        split; [split; [by rewrite length_insert|split]|].
        -- intros k Hk. destruct (decide (k = i)) as [->|]; [rewrite Heq; lia|]. rewrite Hne by done. by apply Hb.
        -- intros j o Hj Ho. destruct (decide (Z.to_nat (o - 1) = i)) as [->|]; [rewrite Heq; lia|]. rewrite Hne by done. by apply Hops.
        -- intros k Hk Hf. destruct (decide (k = i)) as [->|]; [done|]. rewrite Hne by done. apply Hroot; [lia|done].
    + by exists uses'.
Qed.

Definition carriesReasons (row : nat) : bool := IsGroup (Opcodes p !!! row) || (Opcodes p !!! row =? OpcodeNot).

(** Every instruction is a semantic root or feeds a later connective. *)
Definition noDeadCode : Prop := ∀ k, (k < n)%nat →
  RootFlags p !!! k ≠ 0 ∨ ∃ j, (j < n)%nat ∧ carriesReasons j = true ∧ Z.of_nat k + 1 ∈ operandsOf p j.

(** Roots are live and liveness flows from connectives to operands. *)
Lemma computeReasonLive_ok :
  ∃ live, computeReasonLive p = Ok live ∧ length live = n ∧
    (∀ k, (k < n)%nat → RootFlags p !!! k ≠ 0 → live !!! k ≠ 0) ∧
    (∀ j o, (j < n)%nat → live !!! j ≠ 0 → carriesReasons j = true → o ∈ operandsOf p j → live !!! Z.to_nat (o - 1) ≠ 0).
Proof.
  unfold computeReasonLive. cbv zeta.
  edestruct (for_range_total (λ i live, length live = n ∧ (∀ k, (k < n)%nat → RootFlags p !!! k ≠ 0 → live !!! k ≠ 0) ∧
      (∀ j o, (n - i ≤ j < n)%nat → live !!! j ≠ 0 → carriesReasons j = true → o ∈ operandsOf p j → live !!! Z.to_nat (o - 1) ≠ 0)) n)
    as (live & -> & Hl & Hr & Hc).
  3: { exists live. split; [done|]. split; [done|]. split; [done|]. intros j o Hj. apply Hc. lia. }
  - split; [by rewrite length_map, length_seq|]. split; [|intros; lia].
    intros k Hk Hf. rewrite map_seq_lookup_total by done. by rewrite (proj2 (Z.eqb_neq _ 0)).
  - intros i live Hi (Hl & Hr & Hc). set (row := (n - 1 - i)%nat). assert (row < n)%nat as Hrow by lia.
    rewrite (at_total live) by lia. rewrite go_bind_Ok, Nat2Z.id.
    assert (∀ j, (n - S i ≤ j < n)%nat → j = row ∨ (n - i ≤ j < n)%nat) as Hcases by lia.
    destruct (Z.eqb_spec (live !!! row) 0) as [E|E].
    { eexists; split; [done|]. split_and!; [done|done|]. intros j o [->|Hj]%Hcases; [done|]. by apply Hc. }
    fold (carriesReasons row). destruct (carriesReasons row) eqn:Ecr.
    2: { eexists; split; [done|]. split_and!; [done|done|]. intros j o [->|Hj]%Hcases; [congruence|]. by apply Hc. }
    destruct (operands_read row Hrow) as (-> & -> & Eo). rewrite !go_bind_Ok, Eo, go_bind_Ok.
    pose proof (gk_earlier _ Hg row) as He.
    destruct (fold_go_total (λ pre u, length u = n ∧ (∀ k, (k < n)%nat → live !!! k ≠ 0 → u !!! k ≠ 0) ∧
        (∀ k, (row ≤ k < n)%nat → u !!! k = live !!! k) ∧ ∀ o, o ∈ pre → u !!! Z.to_nat (o - 1) ≠ 0)
      (λ operand live, put_ live (operand - 1) 1) (operandsOf p row) live) as (u & -> & Hlu & Hmono & Hsame & Hset).
    + split_and!; try done. intros o Ho. set_solver.
    + intros pre o post u Hsplit (Hlu & Hmono & Hsame & Hset). specialize (He o Hrow ltac:(rewrite Hsplit; set_solver)).
      rewrite put_Ok by lia. eexists; split; [done|].
      assert (∀ k, k ≠ Z.to_nat (o - 1) → <[Z.to_nat (o - 1) := 1]> u !!! k = u !!! k) as Hne by (intros; by rewrite list_lookup_total_insert_ne by done).
      assert (<[Z.to_nat (o - 1) := 1]> u !!! Z.to_nat (o - 1) = 1) as Heq by (by rewrite list_lookup_total_insert_eq by lia).
      split_and!; [by rewrite length_insert| | |].
      * intros k Hk Hlk. destruct (decide (k = Z.to_nat (o - 1))) as [->|]; [by rewrite Heq|]. rewrite Hne by done. by apply Hmono.
      * intros k Hk. rewrite Hne by lia. by apply Hsame.
      * intros q Hq. destruct (decide (Z.to_nat (q - 1) = Z.to_nat (o - 1))) as [->|]; [by rewrite Heq|]. rewrite Hne by done.
        apply elem_of_app in Hq as [Hq|Hq]; [by apply Hset|]. apply list_elem_of_singleton in Hq as ->. done.
    + eexists; split; [done|]. split_and!; [done|intros; apply Hmono; auto|].
      intros j o Hj Hlj Hcj Ho. destruct (Hcases j Hj) as [->|Hj']; [by apply Hset|].
      rewrite Hsame in Hlj by lia. pose proof (gk_earlier _ Hg j o ltac:(lia) Ho). apply Hmono; [lia|]. by apply (Hc j).
Qed.

Lemma noDeadCode_live (live : list Z) : noDeadCode →
  (∀ k, (k < n)%nat → RootFlags p !!! k ≠ 0 → live !!! k ≠ 0) →
  (∀ j o, (j < n)%nat → live !!! j ≠ 0 → carriesReasons j = true → o ∈ operandsOf p j → live !!! Z.to_nat (o - 1) ≠ 0) →
  ∀ k, (k < n)%nat → live !!! k ≠ 0.
Proof.
  intros Hnd Hr Hc. assert (∀ d k, (n - k ≤ d)%nat → (k < n)%nat → live !!! k ≠ 0) as Hall; [|intros k; by apply (Hall (n - k)%nat)].
  induction d as [|d IH]; intros k Hd Hk; [lia|]. destruct (Hnd k Hk) as [Hf|(j & Hj & Hcj & Hin)]; [by apply Hr|].
  pose proof (gk_earlier _ Hg j _ Hj Hin). replace k with (Z.to_nat (Z.of_nat k + 1 - 1)) by lia.
  apply (Hc j); [done|apply IH; lia|done|done].
Qed.
End graph.

(** ** The slot contract *)

Definition with_slots (p : Program) (s : SlotColumns) : Program :=
  {| instr := instr p; slots := s; symbols := symbols p; values := values p; semantics := semantics p;
     Explanations := Explanations p; Outcomes_ := Outcomes_ p; RemediationRows := RemediationRows p; Resolutions := Resolutions p;
     resolver := resolver p; ApplicabilityIndex := ApplicabilityIndex p; FactIndexSpec := FactIndexSpec p; FieldIndex := FieldIndex p;
     FieldKinds := FieldKinds p |}.

(** A plan in which every row is live keeps each value until its last use. *)
Lemma planned_keeps uses live peak dst i m :
  planned uses live peak dst → (∀ k, (k < length uses)%nat → isLive live k = true) →
  (i < m)%nat → (m ≤ length uses)%nat → Z.of_nat m ≤ uses !!! i → keeps dst i m.
Proof.
  intros (Hl & _ & _ & _ & Hdist) Hlive Hi Hm Hu k Hik Hkm. apply not_eq_sym, Hdist; try apply Hlive; lia.
Qed.

(** What a slot assignment provides the executor. *)
Record assigned (p : Program) (s : SlotColumns) : Prop := {
  as_lens : length (TruthSlots s) = length (Opcodes p) ∧ length (ReasonSlots s) = length (Opcodes p);
  as_counts : 0 ≤ TruthSlotCount s ≤ zlen (Opcodes p) ∧ 0 ≤ ReasonSlotCount s ≤ zlen (Opcodes p);
  as_ranges k : (k < length (Opcodes p))%nat →
    1 ≤ TruthSlots s !!! k ≤ TruthSlotCount s ∧ 1 ≤ ReasonSlots s !!! k ≤ ReasonSlotCount s;
  as_operands : noninterfering (with_slots p s);
  as_roots k : (k < length (Opcodes p))%nat → RootFlags p !!! k ≠ 0 →
    keeps (TruthSlots s) k (length (Opcodes p)) ∧ keeps (ReasonSlots s) k (length (Opcodes p))
}.

Lemma assignSlots_ok p mode :
  slots_typed p → validateSlotProgram p = Ok tt → noDeadCode p →
  ∃ s, assignSlots p mode = Ok s ∧ assigned p s.
Proof.
  intros Hty Hv Hnd. pose proof (validateSlotProgram_ok p Hty Hv) as Hg. unfold assignSlots. cbv zeta.
  destruct (computeLastUses_ok p Hg Hv) as (uses & -> & (Hl & Hb & Hops) & Hroot). rewrite go_bind_Ok.
  assert (zlen (Opcodes p) = Z.of_nat (length uses)) as Hn by lia. pose proof (gk_size _ Hg) as Hsz.
  destruct (allocateSlots_ok uses None ltac:(intros; rewrite Hl; apply Hb; lia) ltac:(lia) mode) as (tp & td & Ht & Htp); [done|].
  rewrite Hn, Ht, go_bind_Ok. destruct (computeReasonLive_ok p Hg) as (live & -> & Hll & Hlr & Hlc). rewrite go_bind_Ok.
  pose proof (noDeadCode_live p Hg live Hnd Hlr Hlc) as Hlive.
  assert (∀ k, (k < length uses)%nat → isLive (Some live) k = true) as Hall.
  { intros k Hk. simpl. apply negb_true_iff, Z.eqb_neq, Hlive. lia. }
  destruct (allocateSlots_ok uses (Some live) ltac:(intros; rewrite Hl; apply Hb; lia) ltac:(lia) mode) as (rp & rd & Hr & Hrp);
    [apply bool_decide_eq_true_2; lia|].
  rewrite Hr, go_bind_Ok. eexists; split; [done|].
  pose proof Htp as (Htl & Htc & Hts & _). pose proof Hrp as (Hrl & Hrc & Hrs & _).
  split; simpl; [lia|lia| | |].
  - intros k Hk. split; [apply Hts; [lia|done]|apply Hrs; [lia|apply Hall; lia]].
  - intros j o Hj Ho. simpl in Hj. change (operandsOf (with_slots p _) j) with (operandsOf p j) in Ho.
    pose proof (gk_earlier _ Hg j o Hj Ho). pose proof (Hops j o Hj Ho).
    split; [eapply planned_keeps; [exact Htp|done|lia|lia|done]|eapply planned_keeps; [exact Hrp|exact Hall|lia|lia|done]].
  - intros k Hk Hf. specialize (Hroot k Hk Hf).
    split; [eapply planned_keeps; [exact Htp|done|lia|lia|lia]|eapply planned_keeps; [exact Hrp|exact Hall|lia|lia|lia]].
Qed.

(** ** Assigned programs are executable *)

(** What the other compilation passes guarantee, slots aside. *)
Record compiled_ok (p : Program) : Prop := {
  cp_slots : slots_typed p;
  cp_sem : sem_typed p;
  cp_policy : policy_typed (ApplicabilityIndex p);
  cp_spec : FactIndex.spec_typed (FactIndexSpec p);
  cp_symbols : is_u32 (ProgramSymbolCount p);
  cp_schema : schema_typed (FieldIndex p);
  cp_instructions row : (row < length (Opcodes p))%nat → instructionOk p row = true;
  cp_evidence root : root ∈ ClauseEvidenceIDs p → 1 ≤ root ≤ zlen (Opcodes p) → Opcodes p !!! Z.to_nat (root - 1) = OpcodeEvidence;
  cp_tables : outcomes (resolver p) = Outcomes_ p ∧ rules (resolver p) = Resolutions p;
  cp_resolver : Resolve.resolver_ok (resolver p) ∧ Resolve.resolver_typed (resolver p)
}.

Lemma assigned_typed p s : graph_ok p → slots_typed p → assigned p s → sched_typed (with_slots p s).
Proof.
  intros Hg [H1 H2 H3] [[L1 L2] [C1 C2] Hr _ _]. pose proof (gk_size _ Hg). unfold MaxUint32 in *.
  assert (∀ l, length l = length (Opcodes p) → (∀ k, (k < length (Opcodes p))%nat → is_u32 (l !!! k)) → Forall is_u32 l) as Hall.
  { intros l Hl Hk. apply Forall_lookup. intros i x Hi. pose proof (lookup_lt_Some _ _ _ Hi). apply list_lookup_total_correct in Hi as <-. apply Hk. lia. }
  split; try done; simpl; try (apply Hall; [done|]; intros k Hk; destruct (Hr k Hk) as [? ?]); unfold is_u32; lia.
Qed.

Lemma assigned_wf p s : graph_ok p → compiled_ok p → assigned p s → program_wf (with_slots p s).
Proof.
  intros Hg [Hst [] Hpol Hspec Hsym Hsch Hins Hevi Htab [Hres Hrt]] Has. split.
  - split; try done; by apply assigned_typed.
  - exact Hins.
  - apply Has.
  - split; try done. intros root [Hroot Hflag]. apply (as_roots _ _ Has (Z.to_nat (root - 1))); [simpl in *; lia|done].
Qed.

(** ** Properties *)

(** C28: on an instruction graph that passes validation and has no dead code, slot
    assignment succeeds in both modes, and the slots it returns are in range, never
    overwritten between an operand's definition and its last consumer, and kept
    to the end of the schedule for every root. *)
Theorem assigned_slots_safe (p : Program) (mode : slotMode) :
  slots_typed p → validateSlotProgram p = Ok tt → noDeadCode p →
  ∃ s, assignSlots p mode = Ok s ∧
    (∀ k, (k < length (Opcodes p))%nat → 1 ≤ TruthSlots s !!! k ≤ TruthSlotCount s ∧ 1 ≤ ReasonSlots s !!! k ≤ ReasonSlotCount s) ∧
    TruthSlotCount s ≤ zlen (Opcodes p) ∧ ReasonSlotCount s ≤ zlen (Opcodes p) ∧
    (∀ j o, (j < length (Opcodes p))%nat → o ∈ operandsOf p j →
       keeps (TruthSlots s) (Z.to_nat (o - 1)) j ∧ keeps (ReasonSlots s) (Z.to_nat (o - 1)) j) ∧
    (∀ k, (k < length (Opcodes p))%nat → RootFlags p !!! k ≠ 0 →
       keeps (TruthSlots s) k (length (Opcodes p)) ∧ keeps (ReasonSlots s) k (length (Opcodes p))).
Proof.
  intros Ht Hv Hnd. destruct (assignSlots_ok p mode Ht Hv Hnd) as (s & Hs & [_ [[_ ?] [_ ?]] Hr Ho Hroots]).
  exists s. split; [done|]. split; [done|]. split; [done|]. split; [done|]. split; [exact Ho|done].
Qed.

(** The compiler's slot pass establishes what the executor needs: a program whose
    other columns are well formed becomes, with the assigned slots, a program on
    which every execution in any mode returns reference outcomes or a documented
    error and never panics. *)
Theorem assigned_programs_execute {ops : SimdOps} {laws : SimdLaws ops} (p : Program) (mode : slotMode) (b : Batch) (xmode : executionMode) :
  compiled_ok p → validateSlotProgram p = Ok tt → noDeadCode p → input_typed b →
  ∃ s, assignSlots p mode = Ok s ∧
    match (executeMode (λ _, with_slots p s) 0 b xmode zeroExecutor).1 with
    | Ok out => length (rbOutcomeIDs out) = Z.to_nat (Rows b) ∧
        ∀ r, (r < Z.to_nat (Rows b))%nat → rbOutcomeIDs out !!! r = rowOutcome (with_slots p s) b (programReasons p) r
    | Err x => x = ErrInvalidProgram ∨ x = ErrBatchTooLarge
    | Panic _ => False
    end.
Proof.
  intros Hc Hv Hnd Hin. destruct (assignSlots_ok p mode (cp_slots _ Hc) Hv Hnd) as (s & Hs & Has). exists s. split; [done|].
  pose proof (assigned_wf p s (validateSlotProgram_ok p (cp_slots _ Hc) Hv) Hc Has) as Hwf.
  set (q := with_slots p s). pose proof (executeMode_ok (λ _, q) zeroExecutor 0 b xmode (zeroExecutor_ok _) Hwf Hin) as Hok. cbv zeta in Hok.
  destruct (executeMode (λ _, q) 0 b xmode zeroExecutor) as [[out|x|m] e']; [|by destruct Hok as (_ & ? & _)|done].
  destruct Hok as (_ & _ & _ & _ & _ & outs & st & Hl & Henc & Hre & Hspec). destruct (en_outcomes _ _ _ Henc) as [Hlo Ho]. simpl.
  split; [done|]. intros r Hr. rewrite Ho, decide_True by lia. pose proof (rs_best _ _ _ _ _ _ (Hspec r Hr)) as Hb.
  destruct (bestOf_outcome _ _ _ _ _ _ _ Hb) as [-> _]. rewrite Hre. done.
Qed.

(** The free set of slots hands out the lowest free slot and nothing else, and
    returning that slot restores exactly the set before: allocation order is
    deterministic and a slot is never lost or handed out twice. *)
Theorem free_set_lowest_first (words : list Z) (first : nat) :
  freeOk words first →
  match takeLowestFreeSlot words first with
  | (Some s, words', first') =>
      isFree words s = true ∧ isFree words' s = false ∧
      (∀ t, 1 ≤ t → isFree words t = true → s ≤ t) ∧ (∀ t, 1 ≤ t → t ≠ s → isFree words' t = isFree words t) ∧
      ∃ words'' first'', markSlotFree words' s first' = Ok (words'', first'') ∧ freeOk words'' first'' ∧
        ∀ t, 1 ≤ t → isFree words'' t = isFree words t
  | (None, words', _) => words' = words ∧ ∀ t, 1 ≤ t ≤ 64 * zlen words → isFree words t = false
  end.
Proof.
  intros Hf. pose proof (takeLowestFreeSlot_ok words first Hf) as Hok.
  destruct (takeLowestFreeSlot words first) as [[[s|] words'] first']; destruct Hok as (Hf' & Hl & Hok).
  2: { destruct Hok as [-> Hz]. split; [done|]. intros t Ht. apply Hz. lia. }
  destruct Hok as (Hs & Hfree & Hmin & Hbits). unfold isFree in *.
  assert (isFree words' s = false) as Hgone by (unfold isFree; rewrite Hbits, bool_decide_eq_true_2 by done; by rewrite andb_false_r).
  split; [done|]. split; [done|]. split.
  { intros t Ht Hft. destruct (decide (s ≤ t)); [done|]. rewrite Hmin in Hft by lia. done. }
  assert (∀ t, 1 ≤ t → t ≠ s → rowBit words' (Z.to_nat (t - 1)) = rowBit words (Z.to_nat (t - 1))) as Hother.
  { intros t Ht Hne. rewrite Hbits, bool_decide_eq_false_2 by lia. by rewrite andb_true_r. }
  split; [done|].
  destruct (markSlotFree_ok words' s first' Hf' ltac:(lia) Hgone) as (w2 & f2 & -> & Hf2 & _ & Hb2).
  exists w2, f2. split; [done|]. split; [done|]. intros t Ht. rewrite Hb2. destruct (decide (t = s)) as [->|Hne].
  - by rewrite bool_decide_eq_true_2, orb_true_r, Hfree.
  - rewrite bool_decide_eq_false_2 by lia. rewrite orb_false_r. by apply Hother.
Qed.
