(* ===== verification/Schedule.v ===== *)
(** * Instruction scheduling: [internal/compile/schedule.go]

    After instruction selection the compiler reorders the instruction columns:
    a counting sort builds the consumers of every instruction, a ready set of
    one bitmap per opcode drives a topological sort that emits instructions in
    runs of equal opcodes, and all columns are permuted and their operand IDs
    renamed.  The file models the passes with their bitmaps, counters and
    cursors, and proves that on a graph in definition order scheduling succeeds,
    keeps the meaning of every instruction and establishes what slot planning
    and the executor check. *)

From S2P Require Import Prelude Store Truth Schema Result Program Batch Predicate Simd FactIndex Evidence Executor PolicyIndex Finalize Execute Liveness.

Definition scheduleOpcodeCount : Z := OpcodeDefined + 1.

(** ** The ready set *)

(** [scheduleReadyBits], [scheduleReadyCount] and [scheduleReadyCursor]. *)
Record readySet := { readyBits : list Z; readyCount : list Z; readyCursor : list Z }.

Definition setScheduleReady (opcode oldID words : Z) (s : readySet) : go readySet :=
  check (OpcodeValid opcode && negb (scheduleOpcodeCount <=? opcode)) ErrInvalidGeneratedProgram ;;
  let word := Z.shiftr oldID 6 in
  let bit := bit64 (Z.land oldID 63) in
  let index := opcode * words + word in
  check (negb ((index <? 0) || (zlen (readyBits s) <=? index))) ErrInvalidGeneratedProgram ;;
  value ← at_ (readyBits s) index;
  check (Z.land value bit =? 0) ErrInvalidGeneratedProgram ;;
  bits ← put_ (readyBits s) index (Z.lor value bit);
  count ← at_ (readyCount s) opcode;
  counts ← put_ (readyCount s) opcode (u32 (count + 1));
  Ok {| readyBits := bits; readyCount := counts; readyCursor := readyCursor s |}.

(** The word loop of [popScheduleReady]; it runs at most [words] times. *)
Fixpoint popLoop (fuel : nat) (opcode words word : Z) (s : readySet) : go (option Z * readySet) :=
  if words <=? word then Ok (None, s) else
  match fuel with
  | O => Panic "word loop does not end"
  | S f =>
    let index := opcode * words + word in
    value ← at_ (readyBits s) index;
    if value =? 0 then
      cursor ← put_ (readyCursor s) opcode (word + 1);
      popLoop f opcode words (word + 1) {| readyBits := readyBits s; readyCount := readyCount s; readyCursor := cursor |}
    else
      let bit := Z.of_nat (TrailingZeros64 value) in
      bits ← put_ (readyBits s) index (Z.ldiff value (bit64 bit));
      count ← at_ (readyCount s) opcode;
      counts ← put_ (readyCount s) opcode (u32 (count - 1));
      cursor ← put_ (readyCursor s) opcode word;
      Ok (Some (word * 64 + bit), {| readyBits := bits; readyCount := counts; readyCursor := cursor |})
  end.

Definition popScheduleReady (opcode words : Z) (s : readySet) : go (option Z * readySet) :=
  word ← at_ (readyCursor s) opcode;
  popLoop (Z.to_nat words) opcode words word s.

(** ** Consumers of an instruction *)

(** [p.Operands[start : start+uint32(count)]] of a row. *)
Definition rowOperands (p : Program) (row : nat) : go (list Z) :=
  start ← at_ (OperandStarts p) (Z.of_nat row);
  count ← at_ (OperandCounts p) (Z.of_nat row);
  slice_ (Operands p) start (u32 (start + count)).

(** The graph columns of [buildScheduleUsers]. *)
Record scheduleUsers := { indegree : list Z; userStarts : list Z; users : list Z }.

(** The first loop: operand counts, in-degrees and their total. *)
Definition countUsers (p : Program) (n : nat) : go (Z * list Z * list Z) :=
  for_range n (λ consumer st,
    let '(edges, degree, starts) := st in
    count ← at_ (OperandCounts p) (Z.of_nat consumer);
    let edges := u64 (edges + count) in
    check (negb ((MaxInt <? edges) || (MaxUint32 <? edges))) ErrProgramTooLarge ;;
    degree ← put_ degree (Z.of_nat consumer) count;
    operands ← rowOperands p consumer;
    starts ← fold_go (λ operand starts,
      check (negb ((operand =? 0) || (Z.of_nat n <? operand))) ErrInvalidGeneratedProgram ;;
      c ← at_ starts operand;
      put_ starts operand (u32 (c + 1))) operands starts;
    Ok (edges, degree, starts)) (0, make_ (Z.of_nat n), make_ (Z.of_nat n + 1)).

(** The prefix sums. *)
Definition sumStarts (n : nat) (starts : list Z) : go (list Z) :=
  for_range n (λ i starts,
    c ← at_ starts (Z.of_nat i + 1);
    before ← at_ starts (Z.of_nat i);
    put_ starts (Z.of_nat i + 1) (u32 (c + before))) starts.

(** The second loop: every consumer is stored at the next free position of each operand. *)
Definition fillUsers (p : Program) (n : nat) (edges : Z) (starts : list Z) : go (list Z) :=
  '(_, us) ← for_range n (λ consumer st,
    operands ← rowOperands p consumer;
    fold_go (λ operand st,
      let '(fill, us) := st in
      position ← at_ fill (operand - 1);
      us ← put_ us position (Z.of_nat consumer);
      fill ← put_ fill (operand - 1) (u32 (position + 1));
      Ok (fill, us)) operands st) (take n starts, make_ edges);
  Ok us.

Definition buildScheduleUsers (p : Program) : go scheduleUsers :=
  let n := length (Opcodes p) in
  '(edges, degree, starts) ← countUsers p n;
  starts ← sumStarts n starts;
  us ← fillUsers p n edges starts;
  Ok {| indegree := degree; userStarts := starts; users := us |}.

(** ** The order *)

Definition scheduleWordCount (n : Z) : Z := n `div` 64 + (if n mod 64 =? 0 then 0 else 1).

Record orderState := {
  oDegree : list Z;
  oReady : readySet;
  scheduleOrder : list Z;
  oldToNew : list Z;
  runOpcodes : list Z;
  runStarts : list Z;
  runCounts : list Z
}.

Definition withReady (s : readySet) (st : orderState) : orderState :=
  {| oDegree := oDegree st; oReady := s; scheduleOrder := scheduleOrder st; oldToNew := oldToNew st;
     runOpcodes := runOpcodes st; runStarts := runStarts st; runCounts := runCounts st |}.
Definition withDegree (d : list Z) (st : orderState) : orderState :=
  {| oDegree := d; oReady := oReady st; scheduleOrder := scheduleOrder st; oldToNew := oldToNew st;
     runOpcodes := runOpcodes st; runStarts := runStarts st; runCounts := runCounts st |}.

(** One consumer of the instruction just ordered. *)
Definition releaseUser (p : Program) (words user : Z) (st : orderState) : go orderState :=
  d ← at_ (oDegree st) user;
  check (negb (d =? 0)) ErrInvalidGeneratedProgram ;;
  degree ← put_ (oDegree st) user (d - 1);
  if d - 1 =? 0 then
    opcode ← at_ (Opcodes p) user;
    ready ← setScheduleReady opcode user words (oReady st);
    Ok (withReady ready (withDegree degree st))
  else Ok (withDegree degree st).

(** One iteration of the run loop: pop, append, release the consumers. *)
Definition orderNext (p : Program) (g : scheduleUsers) (n words opcode : Z) (st : orderState) : go orderState :=
  '(popped, ready) ← popScheduleReady opcode words (oReady st);
  match popped with
  | None => Err ErrInvalidGeneratedProgram
  | Some oldID =>
    check (negb (n <=? oldID)) ErrInvalidGeneratedProgram ;;
    let order := scheduleOrder st ++ [oldID] in
    new ← put_ (oldToNew st) oldID (zlen order);
    start ← at_ (userStarts g) oldID;
    end_ ← at_ (userStarts g) (oldID + 1);
    us ← slice_ (users g) start end_;
    fold_go (releaseUser p words) us
      {| oDegree := oDegree st; oReady := ready; scheduleOrder := order; oldToNew := new;
         runOpcodes := runOpcodes st; runStarts := runStarts st; runCounts := runCounts st |}
  end.

(** [for l.scheduleReadyCount[opcode] != 0]; every iteration orders one instruction. *)
Fixpoint orderRun (fuel : nat) (p : Program) (g : scheduleUsers) (n words opcode : Z) (st : orderState) : go orderState :=
  count ← at_ (readyCount (oReady st)) opcode;
  if count =? 0 then Ok st else
  match fuel with
  | O => Panic "run loop does not end"
  | S f => st ← orderNext p g n words opcode st; orderRun f p g n words opcode st
  end.

(** The lowest opcode with a ready instruction. *)
Definition pickOpcode (counts : list Z) : option Z :=
  List.find (λ opcode, negb (counts !!! Z.to_nat opcode =? 0)) (seqZ OpcodeEqual (OpcodeDefined - OpcodeEqual + 1)).

Fixpoint orderLoop (fuel : nat) (p : Program) (g : scheduleUsers) (n words : Z) (st : orderState) : go orderState :=
  if n <=? zlen (scheduleOrder st) then Ok st else
  match fuel with
  | O => Panic "order loop does not end"
  | S f =>
    match pickOpcode (readyCount (oReady st)) with
    | None => Err ErrInvalidDocument
    | Some opcode =>
      let runStart := zlen (scheduleOrder st) in
      cursor ← put_ (readyCursor (oReady st)) opcode 0;
      st ← orderRun (Z.to_nat n) p g n words opcode
        (withReady {| readyBits := readyBits (oReady st); readyCount := readyCount (oReady st); readyCursor := cursor |} st);
      orderLoop f p g n words
        {| oDegree := oDegree st; oReady := oReady st; scheduleOrder := scheduleOrder st; oldToNew := oldToNew st;
           runOpcodes := runOpcodes st ++ [opcode]; runStarts := runStarts st ++ [u32 runStart];
           runCounts := runCounts st ++ [u32 (zlen (scheduleOrder st) - runStart)] |}
    end
  end.

Definition buildScheduleOrder (p : Program) (g : scheduleUsers) : go orderState :=
  let n := zlen (Opcodes p) in
  let words := scheduleWordCount n in
  let start := {| readyBits := make_ (scheduleOpcodeCount * words); readyCount := make_ scheduleOpcodeCount; readyCursor := make_ scheduleOpcodeCount |} in
  ready ← for_range (length (indegree g)) (λ oldID s,
    d ← at_ (indegree g) (Z.of_nat oldID);
    if d =? 0 then opcode ← at_ (Opcodes p) (Z.of_nat oldID); setScheduleReady opcode (Z.of_nat oldID) words s else Ok s) start;
  orderLoop (length (Opcodes p)) p g n words
    {| oDegree := indegree g; oReady := ready; scheduleOrder := []; oldToNew := make_ n; runOpcodes := []; runStarts := []; runCounts := [] |}.

(** ** The permutation *)

(** [copy(dst[at:], src)]. *)
Definition copyAt (dst : list Z) (at_pos : Z) (src : list Z) : go (list Z) :=
  rest ← slice_ dst at_pos (zlen dst);
  Ok (take (Z.to_nat at_pos) dst ++ take (length rest) src ++ drop (length src) rest).

(** A column read through the order; an absent optional column stays absent. *)
Definition gather (col order : list Z) : go (list Z) := map_go (at_ col) order.
Definition gatherOptional (col order : list Z) : go (list Z) := if bool_decide (col = []) then Ok [] else gather col order.

(** The CSR columns under construction. *)
Record packState := { kListStarts : list Z; kListValues : list Z; kListPos : Z; kOperandStarts : list Z; kOperands : list Z; kOperandPos : Z }.

(** The list and operand ranges of one new row. *)
Definition packRow (p : Program) (new : list Z) (newRow : nat) (oldRow : Z) (st : packState) : go packState :=
  listStart ← at_ (ListStarts p) oldRow;
  listCount ← at_ (ListCounts p) oldRow;
  '(listStarts, listValues, listPos) ← (if negb (listCount =? 0) then
      starts ← put_ (kListStarts st) (Z.of_nat newRow) (kListPos st);
      src ← slice_ (ListValues p) listStart (u32 (listStart + listCount));
      vals ← copyAt (kListValues st) (kListPos st) src;
      Ok (starts, vals, u32 (kListPos st + listCount))
    else Ok (kListStarts st, kListValues st, kListPos st));
  operandStart ← at_ (OperandStarts p) oldRow;
  operandCount ← at_ (OperandCounts p) oldRow;
  operandStarts ← (if negb (operandCount =? 0) then put_ (kOperandStarts st) (Z.of_nat newRow) (kOperandPos st) else Ok (kOperandStarts st));
  operands ← slice_ (Operands p) operandStart (u32 (operandStart + operandCount));
  '(packed, operandPos) ← fold_go (λ oldOperand acc,
    let '(packed, pos) := acc in
    check (negb ((oldOperand =? 0) || (zlen new <? oldOperand))) ErrInvalidGeneratedProgram ;;
    newOperand ← at_ new (oldOperand - 1);
    check (negb ((newOperand =? 0) || (Z.of_nat newRow + 1 <=? newOperand))) ErrInvalidGeneratedProgram ;;
    packed ← put_ packed pos newOperand;
    Ok (packed, u32 (pos + 1))) operands (kOperands st, kOperandPos st);
  Ok {| kListStarts := listStarts; kListValues := listValues; kListPos := listPos;
        kOperandStarts := operandStarts; kOperands := packed; kOperandPos := operandPos |}.

Definition renameNode (new : list Z) (old : Z) : go Z :=
  check (negb ((old =? 0) || (zlen new <? old))) ErrInvalidGeneratedProgram ;;
  at_ new (old - 1).

(** A program with other instruction columns. *)
Definition with_instr (p : Program) (c : InstructionColumns) : Program :=
  {| instr := c; slots := slots p; symbols := symbols p; values := values p; semantics := semantics p;
     Explanations := Explanations p; Outcomes_ := Outcomes_ p; RemediationRows := RemediationRows p; Resolutions := Resolutions p;
     resolver := resolver p; ApplicabilityIndex := ApplicabilityIndex p; FactIndexSpec := FactIndexSpec p; FieldIndex := FieldIndex p;
     FieldKinds := FieldKinds p |}.

Definition permuteScheduledInstructions (p : Program) (st : orderState) : go Program :=
  let n := zlen (Opcodes p) in
  let order := scheduleOrder st in
  let new := oldToNew st in
  opcodes ← gather (Opcodes p) order;
  fields ← gather (Fields p) order;
  vals ← gather (Values p) order;
  evidenceKinds ← gather (EvidenceKinds p) order;
  evidenceStates ← gather (EvidenceStates p) order;
  subjects ← gatherOptional (EvidenceSubjects p) order;
  scopes ← gatherOptional (EvidenceScopes p) order;
  timings ← gatherOptional (EvidenceTimings p) order;
  rootFlags ← gather (RootFlags p) order;
  nodes ← gather (InstructionNodes p) order;
  sourceStarts ← gather (InstructionSourceStarts p) order;
  sourceEnds ← gather (InstructionSourceEnds p) order;
  listCounts ← gather (ListCounts p) order;
  operandCounts ← gather (OperandCounts p) order;
  k ← for_range (length order) (λ newRow k, packRow p new newRow (order !!! newRow) k)
    {| kListStarts := make_ n; kListValues := make_ (zlen (ListValues p)); kListPos := 0;
       kOperandStarts := make_ n; kOperands := make_ (zlen (Operands p)); kOperandPos := 0 |};
  nodeIDs ← map_go (renameNode new) (NodeInstructionIDs p);
  Ok (with_instr p {|
    Opcodes := opcodes; Fields := fields; Values := vals; ListStarts := kListStarts k; ListCounts := listCounts;
    OperandStarts := kOperandStarts k; OperandCounts := operandCounts; EvidenceKinds := evidenceKinds; EvidenceStates := evidenceStates;
    EvidenceSubjects := subjects; EvidenceScopes := scopes; EvidenceTimings := timings; RootFlags := rootFlags; InstructionNodes := nodes;
    InstructionSourceStarts := sourceStarts; InstructionSourceEnds := sourceEnds; ListValues := kListValues k; Operands := kOperands k;
    NodeInstructionStarts := NodeInstructionStarts p; NodeInstructionCounts := NodeInstructionCounts p; NodeInstructionIDs := nodeIDs;
    OpcodeRunOpcodes := runOpcodes st; OpcodeRunStarts := runStarts st; OpcodeRunCounts := runCounts st |}).

Definition scheduleInstructions (p : Program) : go Program :=
  check (negb (MaxUint32 <=? zlen (Opcodes p))) ErrInvalidGeneratedProgram ;;
  validateScheduleColumns p ;;
  if bool_decide (Opcodes p = []) then
    Ok (with_instr p {|
      Opcodes := Opcodes p; Fields := Fields p; Values := Values p; ListStarts := ListStarts p; ListCounts := ListCounts p;
      OperandStarts := OperandStarts p; OperandCounts := OperandCounts p; EvidenceKinds := EvidenceKinds p; EvidenceStates := EvidenceStates p;
      EvidenceSubjects := EvidenceSubjects p; EvidenceScopes := EvidenceScopes p; EvidenceTimings := EvidenceTimings p; RootFlags := RootFlags p;
      InstructionNodes := InstructionNodes p; InstructionSourceStarts := InstructionSourceStarts p; InstructionSourceEnds := InstructionSourceEnds p;
      ListValues := ListValues p; Operands := Operands p; NodeInstructionStarts := NodeInstructionStarts p;
      NodeInstructionCounts := NodeInstructionCounts p; NodeInstructionIDs := NodeInstructionIDs p;
      OpcodeRunOpcodes := []; OpcodeRunStarts := []; OpcodeRunCounts := [] |})
  else
    g ← buildScheduleUsers p;
    st ← buildScheduleOrder p g;
    permuteScheduledInstructions p st.

(** ** Consumers *)

(** The Go types of the columns and the sizes of the CSR arrays. *)
Record schedule_typed (p : Program) : Prop := {
  sy_slots : slots_typed p;
  sy_lists : Forall is_u32 (ListStarts p) ∧ Forall is_u32 (ListCounts p);
  sy_operands : total (OperandCounts p) ≤ zlen (Operands p) ≤ MaxUint32;
  sy_values : total (ListCounts p) ≤ zlen (ListValues p) ≤ MaxUint32;
  sy_nodes : Forall is_u32 (NodeInstructionIDs p)
}.

Lemma total_nonneg l : Forall is_u32 l → 0 ≤ total l.
Proof. induction 1 as [|x l Hx _ IH]; unfold total, is_u32 in *; simpl; lia. Qed.

Lemma total_take l i : Forall is_u32 l → total (take i l) ≤ total l.
Proof. intros Hl. rewrite <-(take_drop i l) at 2. rewrite total_app. pose proof (total_nonneg (drop i l) (Forall_drop _ i _ Hl)). lia. Qed.

Section users.
Context (p : Program) (Hg : graph_ok p) (Ht : schedule_typed p).
Local Abbreviation n := (length (Opcodes p)).

Lemma rowOperands_ok row : (row < n)%nat → rowOperands p row = Ok (operandsOf p row).
Proof.
  intros Hr. destruct (operands_read p Hg row Hr) as (E1 & E2 & E3). unfold rowOperands. rewrite E1, go_bind_Ok, E2, go_bind_Ok.
  destruct (gk_range _ Hg row Hr) as (? & ? & ?). pose proof (sy_operands _ Ht). unfold MaxUint32 in *. rewrite u32_small by (unfold is_u32; lia). done.
Qed.

Lemma length_operands row : (row < n)%nat → zlen (operandsOf p row) = OperandCounts p !!! row.
Proof. intros Hr. destruct (gk_range _ Hg row Hr) as (? & ? & ?). unfold operandsOf. rewrite length_csr by lia. lia. Qed.

(** The edges (operand, consumer) of the first [i] consumers, in program order. *)
Definition edgesOf (j : nat) : list (Z * nat) := map (λ o, (o, j)) (operandsOf p j).
Definition edgeList (i : nat) : list (Z * nat) := flat_map edgesOf (seq 0 i).
(** The consumers of operand [o] among the edges. *)
Definition sel (o : Z) (l : list (Z * nat)) : list nat := map snd (List.filter (λ e, e.1 =? o) l).

Lemma sel_app o l k : sel o (l ++ k) = sel o l ++ sel o k.
Proof. unfold sel. by rewrite List.filter_app, map_app. Qed.

Lemma sel_one o e : sel o [e] = if e.1 =? o then [e.2] else [].
Proof. unfold sel. simpl. by destruct (e.1 =? o). Qed.

Lemma edgeList_S i : edgeList (S i) = edgeList i ++ edgesOf i.
Proof. unfold edgeList. by rewrite seq_S, flat_map_app; simpl; rewrite app_nil_r. Qed.

Lemma counts_S i : (i < n)%nat → total (take (S i) (OperandCounts p)) = total (take i (OperandCounts p)) + OperandCounts p !!! i.
Proof.
  intros Hi. destruct (gk_lens _ Hg) as (_ & Hl & _). erewrite take_S_r by (apply list_lookup_lookup_total_lt; lia).
  rewrite total_app. unfold total at 2. simpl. lia.
Qed.

Lemma length_edgeList i : (i ≤ n)%nat → zlen (edgeList i) = total (take i (OperandCounts p)).
Proof.
  induction i as [|i IH]; intros Hi; [done|]. rewrite edgeList_S, length_app, Nat2Z.inj_add, IH by lia. unfold edgesOf.
  rewrite length_map, length_operands, counts_S by lia. lia.
Qed.

Lemma edges_fit i : (i ≤ n)%nat → 0 ≤ zlen (edgeList i) ≤ MaxUint32.
Proof.
  intros Hi. split; [lia|]. rewrite length_edgeList by done. destruct Ht as [[_ Hc _] _ [? ?] _ _]. pose proof (total_take _ i Hc). lia.
Qed.

Lemma length_sel o l : (length (sel o l) ≤ length l)%nat.
Proof. unfold sel. rewrite length_map. induction l as [|e l IH]; simpl; [done|]. destruct (e.1 =? o); simpl; lia. Qed.

Lemma edge_inv e i : (i ≤ n)%nat → e ∈ edgeList i → 1 ≤ e.1 ≤ Z.of_nat e.2 ∧ (e.2 < i)%nat ∧ e.1 ∈ operandsOf p e.2.
Proof.
  intros Hi. unfold edgeList. rewrite list_elem_of_In, in_flat_map. intros (j & Hj & He). apply in_seq in Hj. unfold edgesOf in He.
  apply in_map_iff in He as (o & <- & Ho). rewrite <-list_elem_of_In in Ho. simpl. pose proof (gk_earlier _ Hg j o ltac:(lia) Ho). split_and!; [lia|lia|lia|done].
Qed.

(** Counting: [starts[o]] is the number of consumers of [o]. *)
Definition counted (l : list (Z * nat)) (starts : list Z) : Prop :=
  length starts = S n ∧ ∀ k, (k ≤ n)%nat → starts !!! k = zlen (sel (Z.of_nat k) l).

Lemma countUsers_ok : ∃ degree starts, countUsers p n = Ok (zlen (edgeList n), degree, starts) ∧
  length degree = n ∧ (∀ j, (j < n)%nat → degree !!! j = OperandCounts p !!! j) ∧ counted (edgeList n) starts.
Proof.
  pose proof (gk_size _ Hg) as Hsz. destruct (gk_lens _ Hg) as (L1 & L2 & _).
  unfold countUsers. for_loop (λ i st, let '(e, degree, starts) := st in e = zlen (edgeList i) ∧ length degree = n ∧
    (∀ j, (j < i)%nat → degree !!! j = OperandCounts p !!! j) ∧ counted (edgeList i) starts) as ([[e degree] starts] & E & He & Hd).
  - split; [done|]. split; [unfold make_; rewrite length_replicate; lia|]. split; [lia|]. split; [unfold make_; rewrite length_replicate; lia|].
    intros k Hk. unfold make_. rewrite lookup_total_replicate_2 by lia. done.
  - intros i [[e degree] starts] Hi (-> & Hl & Hdeg & Hcnt). simpl. pose proof (edges_fit i ltac:(lia)). pose proof (edges_fit (S i) ltac:(lia)) as Hfit.
    rewrite (at_nat _ _ (OperandCounts p !!! i)), go_bind_Ok by (apply list_lookup_lookup_total_lt; lia).
    assert (zlen (edgeList i) + OperandCounts p !!! i = zlen (edgeList (S i))) as Hsum.
    { rewrite !length_edgeList, counts_S by lia. lia. }
    rewrite Hsum, u64_small by (unfold is_u64, MaxUint32 in *; lia).
    rewrite (proj2 (Z.ltb_ge _ _)), (proj2 (Z.ltb_ge MaxUint32 _)) by (unfold MaxInt, MaxUint32 in *; lia). cbn [orb negb check]. rewrite go_bind_Ok.
    rewrite put_Ok, go_bind_Ok, rowOperands_ok, go_bind_Ok by lia. rewrite Nat2Z.id.
    fold_loop (λ pre starts, counted (edgeList i ++ map (λ o, (o, i)) pre) starts) as (starts' & E & Hc').
    + by rewrite app_nil_r.
    + intros pre o post t Hsplit [Hlt Hct]. destruct (gk_earlier _ Hg i o Hi) as [Ho1 Ho2]; [rewrite Hsplit; set_solver|].
      rewrite (proj2 (Z.eqb_neq o 0)), (proj2 (Z.ltb_ge _ o)) by lia. cbn [orb negb check]. rewrite go_bind_Ok, at_total, go_bind_Ok by lia.
      rewrite put_Ok by lia. eexists. split; [done|]. split; [by rewrite length_insert|]. intros k Hk. rewrite map_app, app_assoc, sel_app. simpl. rewrite sel_one. simpl.
      pose proof (length_sel o (edgeList i ++ map (λ o, (o, i)) pre)) as Hle. rewrite length_app, length_map in Hle.
      assert (length pre < length (operandsOf p i))%nat by (rewrite Hsplit, length_app; simpl; lia).
      assert (Z.of_nat (length (edgeList i) + length pre) < MaxUint32) as Hlt'.
      { rewrite edgeList_S, length_app in Hfit. unfold edgesOf in Hfit. rewrite length_map in Hfit. lia. }
      destruct (Z.eqb_spec o (Z.of_nat k)) as [->|Hne].
      * rewrite Nat2Z.id, lookup_total_insert_eq, Hct, length_app by lia. simpl. unfold MaxUint32 in *. rewrite u32_small; unfold is_u32; lia.
      * rewrite lookup_total_insert_ne, Hct, app_nil_r by lia. done.
    + rewrite E, go_bind_Ok. eexists. split; [done|]. split; [done|]. split; [by rewrite length_insert|]. split.
      * intros j Hj. destruct (decide (j = i)) as [->|Hne]; [by rewrite lookup_total_insert_eq by lia|]. rewrite lookup_total_insert_ne by done. apply Hdeg. lia.
      * rewrite edgeList_S. exact Hc'.
  - subst e. destruct Hd as (H1 & H2 & H3). exists degree, starts. done.
Qed.

(** The number of edges to operands up to [k]. *)
Definition base (k : nat) : nat := length (List.filter (λ e, e.1 <=? Z.of_nat k) (edgeList n)).

Lemma base_S k : base (S k) = (base k + length (sel (Z.of_nat k + 1) (edgeList n)))%nat.
Proof.
  unfold base, sel. rewrite length_map. induction (edgeList n) as [|e l IH]; simpl; [done|].
  destruct (Z.leb_spec e.1 (Z.of_nat (S k))), (Z.leb_spec e.1 (Z.of_nat k)), (Z.eqb_spec e.1 (Z.of_nat k + 1)); simpl; lia.
Qed.

Lemma base_mono i j : (i ≤ j)%nat → (base i ≤ base j)%nat.
Proof. induction 1 as [|j _ IH]; [done|]. rewrite base_S. lia. Qed.

Lemma base_0 : base 0 = 0%nat.
Proof.
  unfold base. assert (∀ e, e ∈ edgeList n → 1 ≤ e.1) as Hpos by (intros e He; apply (edge_inv e n) in He; [lia|done]).
  induction (edgeList n) as [|e l IH]; [done|]. simpl. pose proof (Hpos e ltac:(left)). rewrite (proj2 (Z.leb_gt e.1 _)) by lia.
  apply IH. intros e' He'. apply Hpos. by right.
Qed.

Lemma base_le k : (base k ≤ length (edgeList n))%nat.
Proof. unfold base. induction (edgeList n) as [|e l IH]; simpl; [done|]. destruct (e.1 <=? _); simpl; lia. Qed.

Lemma sumStarts_ok starts : counted (edgeList n) starts →
  ∃ sums, sumStarts n starts = Ok sums ∧ length sums = S n ∧ ∀ k, (k ≤ n)%nat → sums !!! k = Z.of_nat (base k).
Proof.
  intros [Hl Hc]. pose proof (edges_fit n ltac:(lia)) as Hfit. unfold sumStarts.
  for_loop (λ i st, length st = S n ∧ (∀ k, (k ≤ i)%nat → st !!! k = Z.of_nat (base k)) ∧ ∀ k, (i < k ≤ n)%nat → st !!! k = zlen (sel (Z.of_nat k) (edgeList n)))
    as (sums & E & Hls & Hs & _).
  - split; [done|]. split; [|intros k Hk; apply Hc; lia]. intros k Hk. assert (k = 0%nat) as -> by lia. rewrite Hc, base_0 by lia.
    pose proof base_0 as Hb. unfold sel. rewrite length_map. unfold base in Hb.
    replace (List.filter (λ e, e.1 =? Z.of_nat 0) (edgeList n)) with ([] : list (Z * nat)); [done|].
    symmetry. assert (∀ e, e ∈ edgeList n → 1 ≤ e.1) as Hpos by (intros e He; apply (edge_inv e n) in He; [lia|done]).
    clear -Hpos. induction (edgeList n) as [|e l IH]; [done|]. simpl. pose proof (Hpos e ltac:(left)). rewrite (proj2 (Z.eqb_neq e.1 _)) by lia.
    apply IH. intros e' He'. apply Hpos. by right.
  - intros i t Hi (Hlt & Hlow & Hhigh). rewrite !at_total, !go_bind_Ok by lia. rewrite put_Ok by lia. eexists. split; [done|].
    split; [by rewrite length_insert|]. replace (Z.to_nat (Z.of_nat i + 1)) with (S i) by lia. rewrite Nat2Z.id.
    pose proof (base_le (S i)) as Hle. rewrite base_S in Hle. split.
    + intros k Hk. destruct (decide (k = S i)) as [->|Hne].
      * rewrite lookup_total_insert_eq, (Hlow i), (Hhigh (S i)), base_S by lia. unfold MaxUint32 in *.
        replace (Z.of_nat (S i)) with (Z.of_nat i + 1) by lia. rewrite u32_small; unfold is_u32; lia.
      * rewrite lookup_total_insert_ne by done. apply Hlow. lia.
    + intros k Hk. rewrite lookup_total_insert_ne by lia. apply Hhigh. lia.
  - exists sums. split_and!; done.
Qed.

(** The consumers stored so far, each at the next free position of its operand. *)
Definition filled (l : list (Z * nat)) (st : list Z * list Z) : Prop :=
  length st.1 = n ∧ length st.2 = length (edgeList n) ∧
  (∀ k, (k < n)%nat → st.1 !!! k = Z.of_nat (base k + length (sel (Z.of_nat k + 1) l))) ∧
  (∀ k t, (k < n)%nat → (t < length (sel (Z.of_nat k + 1) l))%nat → st.2 !!! (base k + t)%nat = Z.of_nat (sel (Z.of_nat k + 1) l !!! t)).

Lemma filled_step l e post st : edgeList n = l ++ e :: post → filled l st →
  ∃ st', (let '(fill, us) := st in
     position ← at_ fill (e.1 - 1); us ← put_ us position (Z.of_nat e.2); fill ← put_ fill (e.1 - 1) (u32 (position + 1)); Ok (fill, us)) = Ok st' ∧
    filled (l ++ [e]) st'.
Proof.
  intros Hsplit (Hf & Hu & Hpos & Hval). destruct st as [fill us]. simpl in *. destruct (edge_inv e n) as (H1 & H2 & _); [done|rewrite Hsplit; set_solver|].
  set (k0 := Z.to_nat (e.1 - 1)). assert (e.1 = Z.of_nat k0 + 1) as He by lia. assert (k0 < n)%nat as Hk0 by lia.
  rewrite at_total, go_bind_Ok by lia. fold k0. rewrite (Hpos k0 Hk0). set (q := (base k0 + length (sel (Z.of_nat k0 + 1) l))%nat).
  assert (q < base (S k0))%nat as Hq.
  { rewrite base_S, Hsplit, sel_app, length_app. subst q. unfold sel at 3. simpl. rewrite He, Z.eqb_refl. simpl. lia. }
  pose proof (base_le (S k0)) as Hble. pose proof (edges_fit n ltac:(lia)) as Hfit. unfold MaxUint32 in Hfit.
  rewrite !put_Ok by lia. rewrite !go_bind_Ok. eexists. split; [done|]. fold k0. rewrite Nat2Z.id.
  assert (∀ k, (k < n)%nat → sel (Z.of_nat k + 1) (l ++ [e]) = sel (Z.of_nat k + 1) l ++ if bool_decide (k = k0) then [e.2] else []) as Hsel.
  { intros k Hk. rewrite sel_app, sel_one. destruct (Z.eqb_spec e.1 (Z.of_nat k + 1)); [rewrite bool_decide_eq_true_2 by lia|rewrite bool_decide_eq_false_2 by lia]; done. }
  split; [simpl; by rewrite length_insert|]. split; [simpl; by rewrite length_insert|]. split; simpl.
  - intros k Hk. rewrite Hsel, length_app by done. case_bool_decide as Hkk.
    + subst k. rewrite lookup_total_insert_eq by lia. simpl. subst q. rewrite u32_small; unfold is_u32; lia.
    + rewrite lookup_total_insert_ne by done. rewrite Hpos by done. simpl. by rewrite Nat.add_0_r.
  - intros k t Hk. rewrite Hsel, length_app by done. intros Hlt.
    assert (base k + length (sel (Z.of_nat k + 1) l) ≤ base (S k))%nat as Hseg.
    { rewrite base_S, Hsplit, sel_app, length_app. lia. }
    destruct (decide (t < length (sel (Z.of_nat k + 1) l))%nat) as [Ht'|Ht'].
    + rewrite lookup_total_insert_ne; [rewrite Hval by done; by rewrite lookup_total_app_l|].
      destruct (decide (k = k0)) as [->|Hne]; [subst q; lia|]. destruct (decide (k < k0)%nat).
      * pose proof (base_mono (S k) k0 ltac:(lia)). subst q. lia.
      * pose proof (base_mono (S k0) k ltac:(lia)). lia.
    + case_bool_decide as Hkk; [|simpl in Hlt; lia]. subst k. simpl in Hlt. assert (t = length (sel (Z.of_nat k0 + 1) l)) as -> by lia.
      rewrite lookup_total_app_r, Nat.sub_diag by lia. fold q. rewrite lookup_total_insert_eq by lia. done.
Qed.

Lemma fillUsers_ok sums : length sums = S n → (∀ k, (k ≤ n)%nat → sums !!! k = Z.of_nat (base k)) →
  ∃ us, fillUsers p n (zlen (edgeList n)) sums = Ok us ∧ length us = length (edgeList n) ∧
    ∀ k t, (k < n)%nat → (t < length (sel (Z.of_nat k + 1) (edgeList n)))%nat →
      us !!! (base k + t)%nat = Z.of_nat (sel (Z.of_nat k + 1) (edgeList n) !!! t).
Proof.
  intros Hls Hs. unfold fillUsers. for_loop (λ i st, filled (edgeList i) st) as ([fill us] & E & Hf & Hu & _ & Hval).
  - split; [simpl; rewrite length_take; lia|]. split; [simpl; unfold make_; rewrite length_replicate; lia|]. split; simpl; [|lia].
    intros k Hk. rewrite lookup_total_take, Hs by lia. rewrite decide_True by done. lia.
  - intros i st Hi Hst. simpl. rewrite rowOperands_ok, go_bind_Ok by done.
    fold_loop (λ pre st, filled (edgeList i ++ map (λ o, (o, i)) pre) st) as (st' & E & Hst').
    + by rewrite app_nil_r.
    + intros pre o post t Hsplit Ht'. destruct (filled_step (edgeList i ++ map (λ o, (o, i)) pre) (o, i)
        (map (λ o, (o, i)) post ++ flat_map edgesOf (seq (S i) (n - S i))) t) as (t' & E & Hf).
      * unfold edgeList at 1. replace n with (i + (1 + (n - S i)))%nat at 1 by lia. rewrite seq_app, flat_map_app. simpl. unfold edgesOf at 2.
        rewrite Hsplit, map_app. simpl. fold (edgeList i). rewrite <-!app_assoc. simpl. done.
      * done.
      * exists t'. split; [exact E|]. rewrite map_app, app_assoc. exact Hf.
    + exists st'. split; [exact E|]. rewrite edgeList_S. exact Hst'.
  - rewrite E, go_bind_Ok. exists us. split_and!; done.
Qed.

(** What the order loop uses of the graph. *)
Record usersOf (g : scheduleUsers) : Prop := {
  uo_degree : length (indegree g) = n;
  uo_degrees j : (j < n)%nat → indegree g !!! j = zlen (operandsOf p j);
  uo_users k : (k < n)%nat → ∃ s e, at_ (userStarts g) (Z.of_nat k) = Ok s ∧ at_ (userStarts g) (Z.of_nat k + 1) = Ok e ∧
    slice_ (users g) s e = Ok (map Z.of_nat (sel (Z.of_nat k + 1) (edgeList n)))
}.

Lemma buildScheduleUsers_ok : ∃ g, buildScheduleUsers p = Ok g ∧ usersOf g.
Proof.
  destruct countUsers_ok as (degree & starts & E1 & Hd & Hdeg & Hc). destruct (sumStarts_ok starts Hc) as (sums & E2 & Hl & Hs).
  destruct (fillUsers_ok sums Hl Hs) as (us & E3 & Hlu & Hus). unfold buildScheduleUsers. rewrite E1, go_bind_Ok, E2, go_bind_Ok, E3, go_bind_Ok.
  eexists. split; [done|]. split; simpl; [done|intros j Hj; by rewrite Hdeg, length_operands|]. intros k Hk.
  exists (Z.of_nat (base k)), (Z.of_nat (base (S k))). rewrite !at_total by lia. replace (Z.to_nat (Z.of_nat k + 1)) with (S k) by lia.
  rewrite Nat2Z.id, !Hs by lia. split; [done|]. split; [done|]. apply slice_Ok. pose proof (base_le (S k)). rewrite base_S in *. split; [lia|]. split; [lia|].
  replace (Z.to_nat (Z.of_nat (base k + length (sel (Z.of_nat k + 1) (edgeList n))) - Z.of_nat (base k))) with (length (sel (Z.of_nat k + 1) (edgeList n))) by lia.
  rewrite Nat2Z.id. apply list_eq_same_length with (length (sel (Z.of_nat k + 1) (edgeList n))).
  - by rewrite length_take, length_drop; lia.
  - by rewrite length_map.
  - intros t x y Ht' Hx Hy. rewrite lookup_take_lt, lookup_drop in Hy by done. apply list_lookup_total_correct in Hy as <-. rewrite Hus by done.
    apply list_lookup_fmap_Some in Hx as (z & -> & Hz). f_equal. symmetry. by apply list_lookup_total_correct.
Qed.
End users.

(** ** The ready set is a set of rows per opcode *)

(** Setting one member of a counted set. *)
Lemma count_add (f g : nat → bool) n i :
  (i < n)%nat → f i = false → g i = true → (∀ k, k ≠ i → g k = f k) →
  length (List.filter g (seq 0 n)) = S (length (List.filter f (seq 0 n))).
Proof.
  intros Hi Hf Hg Hk. assert (∃ m, n = i + (1 + m))%nat as [m ->] by (exists (n - S i)%nat; lia).
  rewrite !seq_app, !List.filter_app, !length_app. simpl. rewrite Hf, Hg. simpl.
  rewrite (List.filter_ext_in g f (seq 0 i)), (List.filter_ext_in g f (seq (i + 1) m)); [lia| |];
    intros k Hin; apply in_seq in Hin; apply Hk; lia.
Qed.

Lemma count_pos (f : nat → bool) n : length (List.filter f (seq 0 n)) ≠ 0%nat ↔ ∃ i, (i < n)%nat ∧ f i = true.
Proof.
  split.
  - intros Hl. destruct (List.filter f (seq 0 n)) as [|i l] eqn:E; [done|]. exists i.
    assert (In i (List.filter f (seq 0 n))) as Hin by (rewrite E; by left). apply filter_In in Hin as [Hs Hf]. apply in_seq in Hs. split; [lia|done].
  - intros (i & Hi & Hf) Hl. assert (In i (List.filter f (seq 0 n))) as Hin by (apply filter_In; split; [apply in_seq; lia|done]).
    by destruct (List.filter f (seq 0 n)).
Qed.

Lemma scheduleWordCount_ok n : let w := scheduleWordCount (Z.of_nat n) in 0 ≤ w ∧ (n ≤ 64 * Z.to_nat w)%nat ∧ w ≤ Z.of_nat n.
Proof.
  unfold scheduleWordCount. pose proof (Z.div_mod (Z.of_nat n) 64 ltac:(lia)). pose proof (Z.mod_pos_bound (Z.of_nat n) 64 ltac:(lia)).
  pose proof (Z.div_pos (Z.of_nat n) 64 ltac:(lia) ltac:(lia)). destruct (Z.eqb_spec (Z.of_nat n mod 64) 0); lia.
Qed.

Section ready.
Context (p : Program).
Local Abbreviation n := (length (Opcodes p)).
Local Abbreviation words := (scheduleWordCount (zlen (Opcodes p))).
Local Abbreviation W := (Z.to_nat words).
Context (Hsize : zlen (Opcodes p) < MaxUint32).
Context (Hvalid : ∀ i, (i < n)%nat → OpcodeValid (Opcodes p !!! i) = true).

Definition readyIn (R : nat → bool) (opcode : Z) (i : nat) : bool := (Opcodes p !!! i =? opcode) && R i.

Record readyOk (R : nat → bool) (s : readySet) : Prop := {
  ro_bits : length (readyBits s) = (15 * W)%nat ∧ Forall is_u64 (readyBits s);
  ro_lens : length (readyCount s) = 15%nat ∧ length (readyCursor s) = 15%nat;
  ro_rows (op i : nat) : (1 ≤ op ≤ 14)%nat → (i < 64 * W)%nat →
    rowBit (readyBits s) (64 * (op * W) + i) = bool_decide (i < n)%nat && readyIn R (Z.of_nat op) i;
  ro_count (op : nat) : (1 ≤ op ≤ 14)%nat → readyCount s !!! op = zlen (List.filter (readyIn R (Z.of_nat op)) (seq 0 n))
}.

Lemma readyOk_ext R R' s : (∀ i, (i < n)%nat → R' i = R i) → readyOk R s → readyOk R' s.
Proof.
  intros HR [H1 H2 H3 H4]. split; try done.
  - intros op i Ho Hi. rewrite H3 by done. case_bool_decide as Hn; [|done]. unfold readyIn. by rewrite HR.
  - intros op Ho. rewrite H4 by done. f_equal. f_equal. apply List.filter_ext_in. intros i Hin. apply in_seq in Hin. unfold readyIn. by rewrite HR by lia.
Qed.

Lemma opcode_nat i : (i < n)%nat → ∃ op : nat, Opcodes p !!! i = Z.of_nat op ∧ (1 ≤ op ≤ 14)%nat.
Proof.
  intros Hi. specialize (Hvalid i Hi). unfold OpcodeValid, OpcodeEqual, OpcodeDefined in Hvalid.
  apply andb_true_iff in Hvalid as [H1%Z.leb_le H2%Z.leb_le]. exists (Z.to_nat (Opcodes p !!! i)). lia.
Qed.

Lemma count_small R op : 0 ≤ zlen (List.filter (readyIn R op) (seq 0 n)) < MaxUint32.
Proof. pose proof (List.filter_length_le (readyIn R op) (seq 0 n)) as Hl. rewrite length_seq in Hl. lia. Qed.

Lemma row_index i : (i < n)%nat → Z.shiftr (Z.of_nat i) 6 = Z.of_nat (i `div` 64) ∧ Z.land (Z.of_nat i) 63 = Z.of_nat (i `mod` 64) ∧ (i `div` 64 < W)%nat.
Proof.
  intros Hi. destruct (scheduleWordCount_ok n) as (_ & Hw & _). split; [|split].
  - rewrite Z.shiftr_div_pow2 by lia. change (2 ^ 6) with 64. by rewrite Nat2Z.inj_div.
  - change 63 with (Z.ones 6). rewrite Z.land_ones by lia. change (2 ^ 6) with 64. by rewrite Nat2Z.inj_mod.
  - apply Nat.Div0.div_lt_upper_bound. lia.
Qed.

Lemma setScheduleReady_ok R s i : readyOk R s → (i < n)%nat → R i = false →
  ∃ s', setScheduleReady (Opcodes p !!! i) (Z.of_nat i) words s = Ok s' ∧ readyOk (λ k, R k || bool_decide (k = i)) s' ∧ readyCursor s' = readyCursor s.
Proof.
  intros [[Hb Hu] [Hc Hr] Hrows Hcount] Hi HR. destruct (opcode_nat i Hi) as (op & Eop & Hop). destruct (row_index i Hi) as (E1 & E2 & Hiw).
  pose proof (Hvalid i Hi) as Hv. rewrite Eop in *. destruct (scheduleWordCount_ok n) as (Hw0 & Hw & _).
  unfold setScheduleReady. rewrite Hv. change scheduleOpcodeCount with 15. rewrite (proj2 (Z.leb_gt 15 _)) by lia. cbn [negb andb check]. rewrite go_bind_Ok.
  rewrite E1, E2. assert (Z.of_nat op * words + Z.of_nat (i `div` 64) = Z.of_nat (op * W + i `div` 64)) as -> by lia.
  assert (op * W + i `div` 64 < length (readyBits s))%nat as Hin by (rewrite Hb; nia).
  rewrite (proj2 (Z.ltb_ge _ 0)), (proj2 (Z.leb_gt _ _)) by lia. cbn [orb negb check]. rewrite go_bind_Ok, (at_total (readyBits s)), go_bind_Ok, Nat2Z.id by lia.
  set (k := (op * W + i `div` 64)%nat) in *. pose proof (Hrows op i Hop ltac:(lia)) as Hbit. unfold readyIn in Hbit. rewrite HR, !andb_false_r in Hbit.
  unfold rowBit in Hbit. destruct (plane_index W op i) as [P1 P2]. rewrite P1, P2 in Hbit. fold k in Hbit.
  assert (Z.land (readyBits s !!! k) (bit64 (Z.of_nat (i `mod` 64))) =? 0 = true) as ->.
  { apply negb_false_iff. rewrite land_bit64_ne0 by lia. exact Hbit. }
  cbn [check]. rewrite go_bind_Ok, (put_Ok (readyBits s)), go_bind_Ok, at_total, go_bind_Ok, put_Ok, go_bind_Ok, !Nat2Z.id by lia.
  eexists. split; [done|]. split; [|done]. split; simpl.
  - split; [by rewrite length_insert|]. apply Forall_insert; [done|]. apply is_u64_lor; [|apply is_u64_bit64; destruct (row_split i); lia].
    rewrite Forall_lookup in Hu. apply (Hu k). by apply list_lookup_lookup_total_lt.
  - by rewrite length_insert.
  - intros op' i' Hop' Hi'. subst k. rewrite (rowBit_setPlane _ W op i) by (done || lia). rewrite Hrows by done. unfold readyIn.
    destruct (decide (i' = i)) as [->|Hne].
    + rewrite (bool_decide_eq_true_2 (i < n)%nat), (bool_decide_eq_true_2 (i = i)) by done. rewrite HR, Eop. simpl. rewrite andb_false_r, andb_true_r. simpl.
      rewrite andb_true_r. destruct (Z.eqb_spec (Z.of_nat op) (Z.of_nat op')), (decide (op' = op)); case_bool_decide; done || lia.
    + rewrite (bool_decide_eq_false_2 (i' = i)) by done. by rewrite andb_false_r, !orb_false_r.
  - intros op' Hop'. destruct (decide (op' = op)) as [->|Hne].
    + rewrite lookup_total_insert_eq, Hcount by lia. pose proof (count_small R (Z.of_nat op)). unfold MaxUint32 in *. rewrite u32_small by (unfold is_u32; lia).
      rewrite (count_add (readyIn R (Z.of_nat op)) (readyIn (λ k, R k || bool_decide (k = i)) (Z.of_nat op)) n i Hi); [lia| | |].
      * unfold readyIn. by rewrite HR, andb_false_r.
      * unfold readyIn. rewrite Eop, Z.eqb_refl, (bool_decide_eq_true_2 (i = i)) by done. by rewrite orb_true_r.
      * intros j Hj. unfold readyIn. rewrite (bool_decide_eq_false_2 (j = i)) by done. by rewrite orb_false_r.
    + rewrite lookup_total_insert_ne, Hcount by lia. f_equal. f_equal. apply List.filter_ext. intros j. unfold readyIn.
      destruct (decide (j = i)) as [->|Hj]; [|rewrite (bool_decide_eq_false_2 (j = i)) by done; by rewrite orb_false_r].
      rewrite Eop, (proj2 (Z.eqb_neq _ _)) by lia. done.
Qed.

(** The ready rows of an opcode start at word [c]. *)
Definition readyFrom (R : nat → bool) (op c : nat) : Prop := ∀ i, (i < n)%nat → readyIn R (Z.of_nat op) i = true → (c ≤ i `div` 64)%nat.

Lemma removed_ok R s op i bits counts cursor :
  readyOk R s → (i < n)%nat → Opcodes p !!! i = Z.of_nat op → (1 ≤ op ≤ 14)%nat → R i = true → length cursor = 15%nat →
  bits = <[(op * W + i `div` 64)%nat := Z.ldiff (readyBits s !!! (op * W + i `div` 64)%nat) (bit64 (Z.of_nat (i `mod` 64)))]> (readyBits s) →
  counts = <[op := u32 (readyCount s !!! op - 1)]> (readyCount s) →
  readyOk (λ k, R k && negb (bool_decide (k = i))) {| readyBits := bits; readyCount := counts; readyCursor := cursor |}.
Proof.
  intros [[Hb Hu] [Hc Hr] Hrows Hcount] Hi Eop Hop HR Hcur -> ->. destruct (row_index i Hi) as (_ & _ & Hiw). destruct (scheduleWordCount_ok n) as (_ & Hw & _).
  assert (op * W + i `div` 64 < length (readyBits s))%nat as Hin by (rewrite Hb; nia).
  split; simpl.
  - split; [by rewrite length_insert|]. apply Forall_insert; [done|]. apply is_u64_ldiff.
    rewrite Forall_lookup in Hu. eapply Hu. by apply list_lookup_lookup_total_lt.
  - by rewrite length_insert.
  - intros op' i' Hop' Hi'. rewrite rowBit_clearPlane by (done || lia). rewrite Hrows by done. unfold readyIn. destruct (decide (i' = i)) as [->|Hne].
    + rewrite (bool_decide_eq_true_2 (i = i)), Eop by done. simpl. rewrite !andb_false_r, andb_true_r.
      destruct (Z.eqb_spec (Z.of_nat op) (Z.of_nat op')) as [E|E]; [|by rewrite andb_false_r]. rewrite (bool_decide_eq_true_2 (op' = op)) by lia. by rewrite andb_false_r.
    + rewrite (bool_decide_eq_false_2 (i' = i)) by done. by rewrite andb_false_r, !andb_true_r.
  - intros op' Hop'. destruct (decide (op' = op)) as [->|Hne].
    + rewrite lookup_total_insert_eq, Hcount by lia.
      pose proof (count_small R (Z.of_nat op)) as Hsmall.
      assert (length (List.filter (readyIn R (Z.of_nat op)) (seq 0 n)) = S (length (List.filter (readyIn (λ k, R k && negb (bool_decide (k = i))) (Z.of_nat op)) (seq 0 n)))) as Hadd.
      1: apply (count_add _ _ n i Hi).
      * unfold readyIn. rewrite (bool_decide_eq_true_2 (i = i)) by done. simpl. by rewrite !andb_false_r.
      * unfold readyIn. by rewrite Eop, Z.eqb_refl.
      * intros j Hj. unfold readyIn. rewrite (bool_decide_eq_false_2 (j = i)) by done. by rewrite andb_true_r.
      * unfold MaxUint32 in *. rewrite u32_small by (unfold is_u32; lia). lia.
    + rewrite lookup_total_insert_ne, Hcount by lia. f_equal. f_equal. apply List.filter_ext. intros j. unfold readyIn.
      destruct (decide (j = i)) as [->|Hj]; [|rewrite (bool_decide_eq_false_2 (j = i)) by done; by rewrite andb_true_r].
      rewrite Eop, (proj2 (Z.eqb_neq _ _)) by lia. done.
Qed.

Lemma word_value R s (op c : nat) : readyOk R s → (1 ≤ op ≤ 14)%nat → (c < W)%nat →
  at_ (readyBits s) (Z.of_nat op * words + Z.of_nat c) = Ok (readyBits s !!! (op * W + c)%nat) ∧ is_u64 (readyBits s !!! (op * W + c)%nat) ∧
  ∀ j, (j < 64)%nat → Z.testbit (readyBits s !!! (op * W + c)%nat) (Z.of_nat j) = bool_decide (64 * c + j < n)%nat && readyIn R (Z.of_nat op) (64 * c + j).
Proof.
  intros [[Hb Hu] _ Hrows _] Hop Hc. destruct (scheduleWordCount_ok n) as (Hw0 & Hw & _).
  assert (op * W + c < length (readyBits s))%nat as Hin by (rewrite Hb; nia).
  split; [|split].
  - rewrite at_total by nia. do 2 f_equal. nia.
  - rewrite Forall_lookup in Hu. eapply Hu. by apply list_lookup_lookup_total_lt.
  - intros j Hj. rewrite <-Hrows by lia. unfold rowBit. destruct (plane_index W op (64 * c + j)) as [-> ->]. by destruct (row_of_word c j Hj) as [-> ->].
Qed.

Lemma popLoop_ok R op : (1 ≤ op ≤ 14)%nat → (∃ i, (i < n)%nat ∧ readyIn R (Z.of_nat op) i = true) →
  ∀ fuel c s, (W ≤ c + fuel)%nat → readyOk R s → readyFrom R op c →
  ∃ i s', popLoop fuel (Z.of_nat op) words (Z.of_nat c) s = Ok (Some (Z.of_nat i), s') ∧ (i < n)%nat ∧ readyIn R (Z.of_nat op) i = true ∧
    readyOk (λ k, R k && negb (bool_decide (k = i))) s' ∧ readyCursor s' !!! op = Z.of_nat (i `div` 64) ∧ readyFrom R op (i `div` 64).
Proof.
  intros Hop [i0 [Hi0 Hr0]]. destruct (scheduleWordCount_ok n) as (Hw0 & Hw & _). induction fuel as [|fuel IH]; intros c s Hfuel Hs Hfrom.
  { pose proof (Hfrom i0 Hi0 Hr0). destruct (row_index i0 Hi0) as (_ & _ & ?). lia. }
  assert (c < W)%nat as Hc by (pose proof (Hfrom i0 Hi0 Hr0); destruct (row_index i0 Hi0) as (_ & _ & ?); lia).
  destruct (word_value R s op c Hs Hop Hc) as (E & Hu & Hbits). cbn [popLoop]. rewrite (proj2 (Z.leb_gt words _)) by lia. rewrite E, go_bind_Ok.
  destruct (ro_lens _ _ Hs) as [Hlc Hlr].
  destruct (Z.eqb_spec (readyBits s !!! (op * W + c)%nat) 0) as [Hz|Hnz].
  - rewrite put_Ok, go_bind_Ok, Nat2Z.id by lia. replace (Z.of_nat c + 1) with (Z.of_nat (S c)) by lia. apply IH; [lia| |].
    + destruct Hs as [H1 H2 H3 H4]. split; simpl; try done. by rewrite length_insert.
    + intros i Hi Hri. pose proof (Hfrom i Hi Hri) as Hle. destruct (decide (c = i `div` 64)%nat) as [->|]; [|lia].
      destruct (row_split i) as [Hsp Hm]. specialize (Hbits (i `mod` 64)%nat Hm). rewrite Hz, Z.testbit_0_l, <-Hsp, Hri, bool_decide_eq_true_2 in Hbits by done. done.
  - destruct (TrailingZeros64_ok _ Hu Hnz) as (Hb & Hset & _). set (b := TrailingZeros64 (readyBits s !!! (op * W + c)%nat)) in *.
    rewrite (Hbits b Hb) in Hset. apply andb_true_iff in Hset as [Hin%bool_decide_eq_true Hri]. set (i := (64 * c + b)%nat) in *.
    destruct (row_of_word c b Hb) as [Hd Hm]. fold i in Hd, Hm.
    assert (readyIn R (Z.of_nat op) i = true) as Hri' by done. unfold readyIn in Hri'. apply andb_true_iff in Hri' as [Eop%Z.eqb_eq HR].
    rewrite (put_Ok (readyBits s)), go_bind_Ok by (destruct Hs as [[Hbl _] _ _ _]; rewrite Hbl; nia).
    rewrite at_total, go_bind_Ok, (put_Ok (readyCount s)), go_bind_Ok, put_Ok, go_bind_Ok, !Nat2Z.id by lia.
    exists i. eexists. split; [f_equal; f_equal; f_equal; unfold i; lia|]. split; [done|]. split; [done|]. split; [|split].
    + eapply removed_ok; try done; [by rewrite length_insert|]. rewrite Hd, Hm. f_equal. nia.
    + simpl. rewrite lookup_total_insert_eq by lia. by rewrite Hd.
    + rewrite Hd. exact Hfrom.
Qed.

Lemma popScheduleReady_ok R op s c : (1 ≤ op ≤ 14)%nat → readyOk R s → readyCount s !!! op ≠ 0 →
  readyCursor s !!! op = Z.of_nat c → readyFrom R op c →
  ∃ i s', popScheduleReady (Z.of_nat op) words s = Ok (Some (Z.of_nat i), s') ∧ (i < n)%nat ∧ readyIn R (Z.of_nat op) i = true ∧
    readyOk (λ k, R k && negb (bool_decide (k = i))) s' ∧ readyCursor s' !!! op = Z.of_nat (i `div` 64) ∧ readyFrom R op (i `div` 64).
Proof.
  intros Hop Hs Hc Hcur Hfrom. destruct (ro_lens _ _ Hs) as [_ Hl]. unfold popScheduleReady. rewrite at_total, go_bind_Ok, Nat2Z.id, Hcur by lia.
  apply popLoop_ok; [done| |lia|done|done]. rewrite (ro_count _ _ Hs) in Hc by done. apply count_pos. lia.
Qed.
End ready.

(** ** The order is a topological permutation in opcode runs *)

(** Occurrences of a row in a list of consumers. *)
Definition occ (j : nat) (l : list nat) : nat := length (List.filter (Nat.eqb j) l).

Lemma occ_cons j k l : occ j (k :: l) = ((if decide (j = k) then 1 else 0) + occ j l)%nat.
Proof. unfold occ. simpl. destruct (Nat.eqb_spec j k); [rewrite decide_True by done|rewrite decide_False by done]; done. Qed.

Lemma occ_app j l k : occ j (l ++ k) = (occ j l + occ j k)%nat.
Proof. unfold occ. by rewrite List.filter_app, length_app. Qed.

Lemma occ_edgesOf p o j m : occ j (sel o (edgesOf p m)) = if decide (j = m) then length (List.filter (Z.eqb o) (operandsOf p m)) else 0%nat.
Proof.
  unfold edgesOf, sel. induction (operandsOf p m) as [|x l IH]; simpl; [by destruct (decide (j = m))|].
  rewrite (Z.eqb_sym o x). destruct (x =? o); simpl; [|exact IH]. rewrite occ_cons, IH. by destruct (decide (j = m)).
Qed.

Lemma occ_users p o j m : occ j (sel o (edgeList p m)) = if decide (j < m)%nat then length (List.filter (Z.eqb o) (operandsOf p j)) else 0%nat.
Proof.
  induction m as [|m IH]; [done|]. rewrite edgeList_S, sel_app, occ_app, IH, occ_edgesOf.
  destruct (decide (j < m)%nat), (decide (j = m)) as [->|]; [lia|rewrite decide_True by lia; lia|rewrite decide_True by lia; lia|by rewrite decide_False by lia].
Qed.

(** A duplicate-free list of rows has at most as many elements as there are rows. *)
Lemma rows_length n (l : list nat) : NoDup l → Forall (λ i, (i < n)%nat) l → (length l ≤ n)%nat.
Proof.
  intros Hnd Hall. rewrite <-(length_seq n 0). apply submseteq_length, NoDup_submseteq; [done|].
  intros i Hi. rewrite Forall_forall in Hall. apply elem_of_seq. specialize (Hall i Hi). lia.
Qed.

Section order.
Context (p : Program) (Hg : graph_ok p) (Hsize : zlen (Opcodes p) < MaxUint32).
Context (Hvalid : ∀ i, (i < length (Opcodes p))%nat → OpcodeValid (Opcodes p !!! i) = true).
Context (g : scheduleUsers) (Husers : usersOf p g).
Local Abbreviation n := (length (Opcodes p)).
Local Abbreviation words := (scheduleWordCount (zlen (Opcodes p))).

(** Operand edges of [j] that are not ordered yet. *)
Definition left (ord : list nat) (j : nat) : nat := length (List.filter (λ o, bool_decide (Z.to_nat (o - 1) ∉ ord)) (operandsOf p j)).
Definition isReady (ord : list nat) (deg : nat → nat) (i : nat) : bool := bool_decide (deg i = 0%nat) && bool_decide (i ∉ ord).

Record orderInv (ord : list nat) (deg : nat → nat) (st : orderState) : Prop := {
  oi_order : scheduleOrder st = map Z.of_nat ord;
  oi_nodup : NoDup ord;
  oi_range : Forall (λ i, (i < n)%nat) ord;
  oi_degree : length (oDegree st) = n ∧ ∀ j, (j < n)%nat → oDegree st !!! j = Z.of_nat (deg j);
  oi_done i : i ∈ ord → deg i = 0%nat;
  oi_ready : readyOk p (isReady ord deg) (oReady st);
  oi_new : length (oldToNew st) = n ∧ ∀ k i, ord !! k = Some i → oldToNew st !!! i = Z.of_nat k + 1;
  oi_topo k j o : ord !! k = Some j → o ∈ operandsOf p j → ∃ k', (k' < k)%nat ∧ ord !! k' = Some (Z.to_nat (o - 1))
}.

(** The fields a release does not touch. *)
Definition sameRun (st st' : orderState) : Prop :=
  readyCursor (oReady st') = readyCursor (oReady st) ∧ runOpcodes st' = runOpcodes st ∧ runStarts st' = runStarts st ∧ runCounts st' = runCounts st.

Lemma releaseUser_ok ord deg deg' st j :
  orderInv ord deg st → (j < n)%nat → deg j ≠ 0%nat → (∀ k, deg' k = (deg k - if decide (k = j) then 1 else 0)%nat) →
  ∃ st', releaseUser p words (Z.of_nat j) st = Ok st' ∧ orderInv ord deg' st' ∧ sameRun st st'.
Proof.
  intros [H1 H2 H3 [Hl Hd] Hdone Hready H7 H8] Hj Hpos Hdeg. unfold releaseUser.
  rewrite (at_total (oDegree st)), go_bind_Ok, Nat2Z.id, Hd by lia. rewrite (proj2 (Z.eqb_neq (Z.of_nat (deg j)) 0)) by lia. cbn [negb check]. rewrite go_bind_Ok.
  rewrite put_Ok, go_bind_Ok, Nat2Z.id by lia.
  assert (j ∉ ord) as Hjo by (intros Hin; by apply Hpos, Hdone).
  assert (length (<[j := Z.of_nat (deg j) - 1]> (oDegree st)) = n ∧ ∀ k, (k < n)%nat → <[j := Z.of_nat (deg j) - 1]> (oDegree st) !!! k = Z.of_nat (deg' k)) as Hd'.
  { split; [by rewrite length_insert|]. intros k Hk. rewrite Hdeg. destruct (decide (k = j)) as [->|Hne];
      [rewrite lookup_total_insert_eq by lia; lia|]. rewrite lookup_total_insert_ne, Hd by done. f_equal. lia. }
  assert (∀ i, i ∈ ord → deg' i = 0%nat) as Hdone' by (intros i Hi; rewrite Hdeg; pose proof (Hdone i Hi); destruct (decide (i = j)); lia).
  destruct (Z.eqb_spec (Z.of_nat (deg j) - 1) 0) as [Hz|Hnz].
  - rewrite at_total, go_bind_Ok, Nat2Z.id by lia.
    destruct (setScheduleReady_ok p Hsize Hvalid (isReady ord deg) (oReady st) j Hready Hj) as (s' & E & Hs' & Hcur).
    { unfold isReady. by rewrite (bool_decide_eq_false_2 (deg j = 0%nat)). }
    rewrite E, go_bind_Ok. eexists. split; [done|]. split; [|done]. split; simpl; try done.
    apply (readyOk_ext p (λ k, isReady ord deg k || bool_decide (k = j))); [|done]. intros k Hk. unfold isReady. rewrite Hdeg.
    destruct (decide (k = j)) as [->|Hne].
    + rewrite (bool_decide_eq_true_2 (j = j)), orb_true_r by done. by rewrite !bool_decide_eq_true_2 by (done || lia).
    + rewrite (bool_decide_eq_false_2 (k = j)), orb_false_r by done. by rewrite Nat.sub_0_r.
  - eexists. split; [done|]. split; [|done]. split; simpl; try done.
    apply (readyOk_ext p (isReady ord deg)); [|done]. intros k Hk. unfold isReady. rewrite Hdeg. destruct (decide (k = j)) as [->|Hne]; [|by rewrite Nat.sub_0_r].
    by rewrite !(bool_decide_eq_false_2 (_ = 0%nat)) by lia.
Qed.

Lemma releaseUsers_ok ord us : ∀ deg st, orderInv ord deg st → Forall (λ j, (j < n)%nat) us → (∀ j, (occ j us ≤ deg j)%nat) →
  ∃ st', fold_go (releaseUser p words) (map Z.of_nat us) st = Ok st' ∧ orderInv ord (λ k, deg k - occ k us)%nat st' ∧ sameRun st st'.
Proof.
  induction us as [|j us IH]; intros deg st Hinv Hall Hocc; simpl.
  - exists st. split; [done|]. split; [|done]. destruct Hinv as [H1 H2 H3 [Hl Hd] Hdone Hready H7 H8]. split; try done.
    + split; [done|]. intros k Hk. rewrite Hd by done. unfold occ. simpl. lia.
    + intros i Hi. rewrite Hdone by done. done.
    + eapply readyOk_ext; [|done]. intros k Hk. unfold isReady, occ. simpl. by rewrite Nat.sub_0_r.
  - apply Forall_cons in Hall as [Hj Hall]. pose proof (Hocc j) as Hj1. rewrite occ_cons, decide_True in Hj1 by done.
    destruct (releaseUser_ok ord deg (λ k, deg k - if decide (k = j) then 1 else 0)%nat st j Hinv Hj) as (st1 & E1 & Hinv1 & S1); [lia|done|].
    destruct (IH _ st1 Hinv1 Hall) as (st2 & E2 & Hinv2 & S2). { intros k. specialize (Hocc k). rewrite occ_cons in Hocc. destruct (decide (k = j)); lia. }
    exists st2. rewrite E1. simpl. split; [exact E2|]. split; [|destruct S1 as (?&?&?&?), S2 as (?&?&?&?); split_and!; congruence].
    destruct Hinv2 as [H1 H2 H3 [Hl Hd] Hdone Hready H7 H8]. assert (∀ k, (deg k - (if decide (k = j) then 1 else 0) - occ k us = deg k - occ k (j :: us))%nat) as Heq
      by (intros k; rewrite occ_cons; lia).
    split; try done.
    + split; [done|]. intros k Hk. rewrite <-Heq. by apply Hd.
    + intros i Hi. rewrite <-Heq. by apply Hdone.
    + eapply readyOk_ext; [|done]. intros k Hk. unfold isReady. by rewrite <-Heq.
Qed.

Lemma operands_pos j : (j < n)%nat → Forall (λ o, 1 ≤ o ≤ Z.of_nat j) (operandsOf p j).
Proof. intros Hj. apply Forall_forall. intros o Ho. by apply (gk_earlier _ Hg). Qed.

(** Ordering [i] takes its occurrences off the open operands. *)
Lemma left_snoc ord i j : (j < n)%nat → i ∉ ord → left ord j = (left (ord ++ [i]) j + length (List.filter (Z.eqb (Z.of_nat i + 1)) (operandsOf p j)))%nat.
Proof.
  intros Hj Hi. unfold left. induction (operands_pos j Hj) as [|o l Ho _ IH]; simpl; [done|].
  destruct (decide (o = Z.of_nat i + 1)) as [->|Hne].
  - rewrite Z.eqb_refl. replace (Z.to_nat (Z.of_nat i + 1 - 1)) with i by lia. rewrite (bool_decide_eq_true_2 (i ∉ ord)), (bool_decide_eq_false_2 (i ∉ ord ++ [i])) by set_solver.
    simpl. lia.
  - rewrite (proj2 (Z.eqb_neq _ o)) by lia. assert (Z.to_nat (o - 1) ≠ i) as Hni by lia.
    rewrite (bool_decide_ext (Z.to_nat (o - 1) ∉ ord ++ [i]) (Z.to_nat (o - 1) ∉ ord)) by (rewrite not_elem_of_app, list_elem_of_singleton; naive_solver).
    case_bool_decide; simpl; lia.
Qed.

Lemma left_zero ord j o : left ord j = 0%nat → o ∈ operandsOf p j → Z.to_nat (o - 1) ∈ ord.
Proof.
  unfold left. intros Hz%nil_length_inv Ho. destruct (decide (Z.to_nat (o - 1) ∈ ord)) as [|Hn]; [done|]. exfalso.
  assert (In o (List.filter (λ o, bool_decide (Z.to_nat (o - 1) ∉ ord)) (operandsOf p j))) as Hin; [|by rewrite Hz in Hin].
  apply filter_In. split; [by apply list_elem_of_In|by apply bool_decide_eq_true].
Qed.

Lemma left_ready ord j : (∀ o, o ∈ operandsOf p j → Z.to_nat (o - 1) ∈ ord) → left ord j = 0%nat.
Proof.
  unfold left. intros Hall. destruct (List.filter _ _) as [|o l] eqn:E; [done|]. exfalso.
  assert (In o (List.filter (λ o, bool_decide (Z.to_nat (o - 1) ∉ ord)) (operandsOf p j))) as Hin by (rewrite E; by left).
  apply filter_In in Hin as [Ho Hn%bool_decide_eq_true]. apply Hn, Hall. by apply list_elem_of_In.
Qed.

Definition ready (ord : list nat) : nat → bool := isReady ord (left ord).
(** The ready rows of the run's opcode are at or after its cursor. *)
Definition cursorOk (ord : list nat) (op : nat) (st : orderState) : Prop :=
  ∃ c : nat, readyCursor (oReady st) !!! op = Z.of_nat c ∧ readyFrom p (ready ord) op c.

Lemma users_bounded i : Forall (λ j, (j < n)%nat ∧ (i < j)%nat) (sel (Z.of_nat i + 1) (edgeList p n)).
Proof.
  apply Forall_forall. intros j Hj. unfold sel in Hj. apply list_elem_of_fmap in Hj as (e & -> & He). apply list_elem_of_In, filter_In in He as [He Ho%Z.eqb_eq].
  apply list_elem_of_In in He. apply (edge_inv p Hg e n) in He as (? & ? & _); [|done]. lia.
Qed.

Lemma orderNext_ok ord st op :
  orderInv ord (left ord) st → (1 ≤ op ≤ 14)%nat → readyCount (oReady st) !!! op ≠ 0 → cursorOk ord op st →
  ∃ i st', orderNext p g (zlen (Opcodes p)) words (Z.of_nat op) st = Ok st' ∧ orderInv (ord ++ [i]) (left (ord ++ [i])) st' ∧
    Opcodes p !!! i = Z.of_nat op ∧ cursorOk (ord ++ [i]) op st' ∧
    runOpcodes st' = runOpcodes st ∧ runStarts st' = runStarts st ∧ runCounts st' = runCounts st.
Proof.
  intros [H1 H2 H3 Hdeg Hdone Hready [Hnl Hnew] Htopo] Hop Hcount (c & Hcur & Hfrom).
  destruct (popScheduleReady_ok p Hsize (isReady ord (left ord)) op (oReady st) c Hop Hready Hcount Hcur Hfrom) as (i & s' & E & Hi & Hri & Hs' & Hcur' & Hfrom').
  unfold readyIn in Hri. apply andb_true_iff in Hri as [Eop%Z.eqb_eq Hri]. apply andb_true_iff in Hri as [Hz%bool_decide_eq_true Hio%bool_decide_eq_true].
  destruct (uo_users _ _ Husers i Hi) as (a & b & Ea & Eb & Eu).
  unfold orderNext. rewrite E, go_bind_Ok. rewrite (proj2 (Z.leb_gt _ (Z.of_nat i))) by lia. cbn [negb check]. rewrite go_bind_Ok, put_Ok, go_bind_Ok by lia.
  rewrite Ea, go_bind_Ok, Eb, go_bind_Ok, Eu, go_bind_Ok, Nat2Z.id, H1.
  pose proof (users_bounded i) as Hub.
  match goal with |- context [fold_go _ _ ?st0] => destruct (releaseUsers_ok (ord ++ [i]) (sel (Z.of_nat i + 1) (edgeList p n)) (left ord) st0) as (st' & E' & Hinv' & Hsr) end.
  - split; simpl.
    + by rewrite map_app.
    + apply NoDup_app. split; [done|]. split; [set_solver|]. apply NoDup_singleton.
    + apply Forall_app. split; [done|]. by apply Forall_singleton.
    + done.
    + intros k [Hk|Hk]%elem_of_app; [by apply Hdone|]. by apply list_elem_of_singleton in Hk as ->.
    + apply (readyOk_ext p (λ k, isReady ord (left ord) k && negb (bool_decide (k = i)))); [|done]. intros k Hk. unfold isReady. rewrite <-andb_assoc. f_equal.
      rewrite (bool_decide_ext (k ∉ ord ++ [i]) (k ∉ ord ∧ k ≠ i)) by (rewrite not_elem_of_app, list_elem_of_singleton; naive_solver).
      destruct (decide (k ∈ ord)), (decide (k = i)); repeat case_bool_decide; naive_solver.
    + split; [by rewrite length_insert|]. intros k j Hk. destruct (decide (j = i)) as [->|Hne].
      * rewrite lookup_total_insert_eq by lia. rewrite length_app, length_map. simpl. apply lookup_app_Some in Hk as [Hk|[Hge Hk]].
        -- exfalso. apply Hio. by apply (list_elem_of_lookup_2 _ k).
        -- apply list_lookup_singleton_Some in Hk as [Hk _]. lia.
      * rewrite lookup_total_insert_ne by done. apply Hnew. apply lookup_app_Some in Hk as [Hk|[_ Hk]]; [done|]. apply list_lookup_singleton_Some in Hk as [_ <-]. done.
    + intros k j o Hk Ho. apply lookup_app_Some in Hk as [Hk|[Hge Hk]].
      * destruct (Htopo k j o Hk Ho) as (k' & Hlt & Hk'). exists k'. split; [done|]. apply lookup_app_Some. by left.
      * apply list_lookup_singleton_Some in Hk as [Hk <-]. pose proof (left_zero ord i o Hz Ho) as [k' Hk']%list_elem_of_lookup.
        exists k'. pose proof (lookup_lt_Some _ _ _ Hk'). split; [lia|]. apply lookup_app_Some. by left.
  - eapply Forall_impl; [exact Hub|]. by intros j [].
  - intros j. rewrite occ_users. destruct (decide (j < n)%nat) as [Hj|]; [|lia]. rewrite (left_snoc ord i j Hj Hio). lia.
  - exists i, st'. split; [exact E'|]. assert (∀ k, (k < n)%nat → (left ord k - occ k (sel (Z.of_nat i + 1) (edgeList p n)) = left (ord ++ [i]) k)%nat) as Hleft.
    { intros k Hk. rewrite occ_users, decide_True by done. rewrite (left_snoc ord i k Hk Hio). lia. }
    destruct Hsr as (Hc' & R1 & R2 & R3). simpl in *. split; [|split; [done|split; [|done]]].
    + destruct Hinv' as [K1 K2 K3 [K4 K4'] K5 K6 K7 K8]. split; try done.
      * split; [done|]. intros k Hk. rewrite <-Hleft by done. by apply K4'.
      * intros k Hk. rewrite <-Hleft; [by apply K5|]. rewrite Forall_forall in K3. by apply K3.
      * eapply readyOk_ext; [|done]. intros k Hk. unfold isReady. by rewrite Hleft.
    + exists (i `div` 64)%nat. rewrite Hc'. split; [done|]. intros k Hk Hrk. unfold readyIn, ready, isReady in Hrk.
      apply andb_true_iff in Hrk as [Ek Hrk]. apply andb_true_iff in Hrk as [Hlz%bool_decide_eq_true Hnin%bool_decide_eq_true].
      destruct (decide (left ord k = 0%nat)) as [Hl0|Hl0].
      * apply Hfrom'; [done|]. unfold readyIn, isReady. rewrite Ek. simpl. rewrite !bool_decide_eq_true_2; [done| |done]. set_solver.
      * rewrite (left_snoc ord i k Hk Hio), Hlz in Hl0. apply Nat.Div0.div_le_mono.
        destruct (List.filter (Z.eqb (Z.of_nat i + 1)) (operandsOf p k)) as [|o l] eqn:Ef; [simpl in Hl0; lia|].
        assert (In o (List.filter (Z.eqb (Z.of_nat i + 1)) (operandsOf p k))) as Hin by (rewrite Ef; by left).
        apply filter_In in Hin as [Ho <-%Z.eqb_eq]. apply list_elem_of_In in Ho. pose proof (gk_earlier _ Hg k _ Hk Ho). lia.
Qed.

(** A ready row is one more element of the order. *)
Lemma ready_room ord i st deg : orderInv ord deg st → (i < n)%nat → i ∉ ord → (length ord < n)%nat.
Proof.
  intros Hinv Hi Hni. assert (length (i :: ord) ≤ n)%nat as Hl; [|simpl in Hl; lia]. apply rows_length; constructor; try done; apply Hinv.
Qed.

Lemma count_ready ord st op : orderInv ord (left ord) st → (1 ≤ op ≤ 14)%nat →
  readyCount (oReady st) !!! op ≠ 0 ↔ ∃ i, (i < n)%nat ∧ Opcodes p !!! i = Z.of_nat op ∧ ready ord i = true.
Proof.
  intros Hinv Hop. rewrite (ro_count _ _ _ (oi_ready _ _ _ Hinv)) by done.
  transitivity (length (List.filter (readyIn p (isReady ord (left ord)) (Z.of_nat op)) (seq 0 n)) ≠ 0%nat); [lia|]. rewrite count_pos. unfold readyIn, ready.
  split; intros (i & Hi & Hri); exists i; (split; [done|]); [apply andb_true_iff in Hri as [E%Z.eqb_eq R]; done|destruct Hri as [-> ->]; by rewrite Z.eqb_refl].
Qed.

Lemma orderRun_ok op : (1 ≤ op ≤ 14)%nat → ∀ fuel ord st, (n ≤ length ord + fuel)%nat → orderInv ord (left ord) st → cursorOk ord op st →
  ∃ ext st', orderRun fuel p g (zlen (Opcodes p)) words (Z.of_nat op) st = Ok st' ∧ orderInv (ord ++ ext) (left (ord ++ ext)) st' ∧
    Forall (λ i, Opcodes p !!! i = Z.of_nat op) ext ∧ readyCount (oReady st') !!! op = 0 ∧ (readyCount (oReady st) !!! op ≠ 0 → ext ≠ []) ∧
    runOpcodes st' = runOpcodes st ∧ runStarts st' = runStarts st ∧ runCounts st' = runCounts st.
Proof.
  intros Hop. induction fuel as [|fuel IH]; intros ord st Hfuel Hinv Hcur; cbn [orderRun];
    destruct (ro_lens _ _ _ (oi_ready _ _ _ Hinv)) as [Hlc _]; rewrite at_total, go_bind_Ok, Nat2Z.id by lia;
    destruct (Z.eqb_spec (readyCount (oReady st) !!! op) 0) as [Hz|Hnz].
  - exists [], st. rewrite app_nil_r. split_and!; done.
  - apply (count_ready ord st op Hinv Hop) in Hnz as (i & Hi & _ & Hri). apply andb_true_iff in Hri as [_ Hni%bool_decide_eq_true].
    pose proof (ready_room ord i st _ Hinv Hi Hni). lia.
  - exists [], st. rewrite app_nil_r. split_and!; done.
  - destruct (orderNext_ok ord st op Hinv Hop Hnz Hcur) as (i & st1 & E & Hinv1 & Eop & Hcur1 & R1 & R2 & R3). rewrite E, go_bind_Ok.
    destruct (IH (ord ++ [i]) st1) as (ext & st2 & E2 & Hinv2 & Hall & Hz2 & _ & R4 & R5 & R6); [rewrite length_app; simpl; lia|done|done|].
    exists (i :: ext), st2. rewrite <-app_assoc in Hinv2. split_and!; [done|done|by constructor|done|done|congruence|congruence|congruence].
Qed.

Lemma pickOpcode_Some counts op : pickOpcode counts = Some op → ∃ k : nat, op = Z.of_nat k ∧ (1 ≤ k ≤ 14)%nat ∧ counts !!! k ≠ 0.
Proof.
  unfold pickOpcode. intros [Hin Hc]%find_some. apply list_elem_of_In, elem_of_seqZ in Hin. unfold OpcodeEqual, OpcodeDefined in Hin.
  exists (Z.to_nat op). apply negb_true_iff, Z.eqb_neq in Hc. split_and!; [lia|lia|lia|done].
Qed.

Lemma pickOpcode_None counts (k : nat) : pickOpcode counts = None → (1 ≤ k ≤ 14)%nat → counts !!! k = 0.
Proof.
  unfold pickOpcode. intros Hf Hk. assert (In (Z.of_nat k) (seqZ OpcodeEqual (OpcodeDefined - OpcodeEqual + 1))) as Hin.
  { apply list_elem_of_In, elem_of_seqZ. unfold OpcodeEqual, OpcodeDefined. lia. }
  pose proof (find_none _ _ Hf _ Hin) as Hc. apply negb_false_iff, Z.eqb_eq in Hc. by rewrite Nat2Z.id in Hc.
Qed.

(** The first row not ordered yet is ready. *)
Lemma some_ready ord : NoDup ord → Forall (λ i, (i < n)%nat) ord → (length ord < n)%nat → ∃ i, (i < n)%nat ∧ ready ord i = true.
Proof.
  intros Hnd Hall Hlt. assert (∃ i, (i < n)%nat ∧ i ∉ ord ∧ ∀ j, (j < i)%nat → j ∈ ord) as (i & Hi & Hni & Hmin).
  { destruct (List.find (λ i, bool_decide (i ∉ ord)) (seq 0 n)) as [i|] eqn:E.
    - apply find_some in E as [Hin%in_seq Hni%bool_decide_eq_true]. induction i as [i IH] using lt_wf_ind.
      destruct (decide (Exists (λ j, j ∉ ord) (seq 0 i))) as [(j & Hj%elem_of_seq & Hjo)%Exists_exists|Hn]; [apply (IH j); [lia|lia|done]|].
      exists i. split; [lia|]. split; [done|]. intros j Hj. destruct (decide (j ∈ ord)) as [|Hjo]; [done|]. exfalso. apply Hn, Exists_exists. exists j.
      split; [apply elem_of_seq; lia|done].
    - exfalso. assert (length (seq 0 n) ≤ length ord)%nat as Hle; [|rewrite length_seq in Hle; lia].
      apply submseteq_length, NoDup_submseteq; [apply NoDup_seq|]. intros i Hi. destruct (decide (i ∈ ord)) as [|Hni]; [done|].
      pose proof (find_none _ _ E i ltac:(by apply list_elem_of_In)) as Hb. by apply bool_decide_eq_false in Hb. }
  exists i. split; [done|]. unfold ready, isReady. rewrite !bool_decide_eq_true_2; [done|done|]. apply left_ready. intros o Ho.
  pose proof (gk_earlier _ Hg i o Hi Ho). apply Hmin. lia.
Qed.

(** The opcode runs [rs] as opcodes with their rows: they make up the order,
    and neighbours differ. *)
Record runsOk (rs : list (Z * list nat)) (ord : list nat) (opcodes starts counts : list Z) : Prop := {
  rk_order : ord = concat (map snd rs);
  rk_opcodes : opcodes = map fst rs;
  rk_counts : counts = map (λ r, zlen r.2) rs;
  rk_starts : starts = map (λ k, zlen (concat (map snd (take k rs)))) (seq 0 (length rs));
  rk_rows : Forall (λ r, r.2 ≠ [] ∧ Forall (λ i, Opcodes p !!! i = r.1) r.2) rs;
  rk_maximal k r r' : rs !! k = Some r → rs !! S k = Some r' → r.1 ≠ r'.1
}.

Lemma runsOk_snoc rs ord opcodes starts counts op ext :
  runsOk rs ord opcodes starts counts → ext ≠ [] → Forall (λ i, Opcodes p !!! i = op) ext → (∀ r, last rs = Some r → r.1 ≠ op) →
  runsOk (rs ++ [(op, ext)]) (ord ++ ext) (opcodes ++ [op]) (starts ++ [zlen ord]) (counts ++ [zlen ext]).
Proof.
  intros [-> -> -> -> Hrows Hmax] Hne Hall Hlast. split.
  - by rewrite map_app, concat_app; simpl; rewrite app_nil_r.
  - by rewrite map_app.
  - by rewrite map_app.
  - rewrite length_app, seq_app, map_app. simpl. rewrite take_app_length. f_equal. apply map_ext_in. intros k Hk%in_seq. by rewrite take_app_le by lia.
  - apply Forall_app. split; [done|]. by apply Forall_singleton.
  - intros k r r' Hk Hk'. apply lookup_app_Some in Hk' as [Hk'|[Hge Hk']].
    + apply lookup_app_Some in Hk as [Hk|[Hge Hk]]; [by eapply Hmax|]. apply lookup_lt_Some in Hk'. lia.
    + apply list_lookup_singleton_Some in Hk' as [Hz <-]. simpl. rewrite lookup_app_l in Hk by lia. apply Hlast. rewrite last_lookup. by replace (pred (length rs)) with k by lia.
Qed.

Lemma orderLoop_ok : ∀ fuel ord rs st, (n ≤ length ord + fuel)%nat → orderInv ord (left ord) st →
  runsOk rs ord (runOpcodes st) (runStarts st) (runCounts st) →
  (∀ r i, last rs = Some r → (i < n)%nat → Opcodes p !!! i = r.1 → ready ord i = false) →
  ∃ ord' rs' st', orderLoop fuel p g (zlen (Opcodes p)) words st = Ok st' ∧ orderInv ord' (left ord') st' ∧
    runsOk rs' ord' (runOpcodes st') (runStarts st') (runCounts st') ∧ length ord' = n.
Proof.
  induction fuel as [|fuel IH]; intros ord rs st Hfuel Hinv Hruns Hlast; cbn [orderLoop]; rewrite (oi_order _ _ _ Hinv), length_map;
    pose proof (rows_length n ord (oi_nodup _ _ _ Hinv) (oi_range _ _ _ Hinv)) as Hle.
  { rewrite (proj2 (Z.leb_le _ _)) by lia. exists ord, rs, st. split_and!; [done|done|done|lia]. }
  destruct (Z.leb_spec (zlen (Opcodes p)) (zlen ord)) as [|Hlt]; [exists ord, rs, st; split_and!; [done|done|done|lia]|].
  destruct (pickOpcode _) as [opcode|] eqn:Epick.
  - destruct (pickOpcode_Some _ _ Epick) as (op & -> & Hop & Hcount). pose proof (oi_ready _ _ _ Hinv) as Hready. destruct (ro_lens _ _ _ Hready) as [_ Hlr].
    rewrite put_Ok, go_bind_Ok, Nat2Z.id by lia.
    match goal with |- context [orderRun _ _ _ _ _ _ ?st0] => destruct (orderRun_ok op Hop n ord st0) as (ext & st1 & E & Hinv1 & Hall & Hz & Hne & R1 & R2 & R3) end; [lia| | |].
    + destruct Hinv. split; try done. destruct Hready as [? [? ?] ? ?]. split; simpl; try done. by rewrite length_insert.
    + exists 0%nat. simpl. rewrite Nat2Z.id, lookup_total_insert_eq by lia. split; [done|]. intros i _ _. lia.
    + replace (Z.to_nat (zlen (Opcodes p))) with n by lia. rewrite E, go_bind_Ok. simpl in R1, R2, R3. rewrite R1, R2, R3, (oi_order _ _ _ Hinv1), length_map.
      specialize (Hne Hcount). pose proof (rows_length n _ (oi_nodup _ _ _ Hinv1) (oi_range _ _ _ Hinv1)) as Hle1. rewrite length_app in *.
      assert (1 ≤ length ext)%nat by (destruct ext; [done|simpl; lia]).
      eapply (IH (ord ++ ext) (rs ++ [(Z.of_nat op, ext)])); [rewrite length_app; lia| | |].
      * destruct Hinv1. by split.
      * simpl. unfold MaxUint32 in Hsize. rewrite !u32_small by (unfold is_u32; lia). replace (Z.of_nat (length ord + length ext) - zlen ord) with (zlen ext) by lia.
        apply runsOk_snoc; [done|done|done|]. intros r Hr E1. apply (count_ready ord st op Hinv Hop) in Hcount as (i & Hi & Eop & Hri).
        rewrite (Hlast r i Hr Hi) in Hri by congruence. done.
      * intros r i Hr Hi Eop. rewrite last_snoc in Hr. simplify_eq/=. destruct (ready (ord ++ ext) i) eqn:Hri; [|done]. exfalso.
        apply (proj2 (count_ready (ord ++ ext) st1 op Hinv1 Hop)); [by exists i|done].
  - exfalso. destruct (some_ready ord (oi_nodup _ _ _ Hinv) (oi_range _ _ _ Hinv)) as (i & Hi & Hri); [lia|].
    destruct (opcode_nat p Hvalid i Hi) as (op & Eop & Hop). apply (proj2 (count_ready ord st op Hinv Hop)); [by exists i|]. by apply pickOpcode_None.
Qed.

Lemma buildScheduleOrder_ok : ∃ ord rs st, buildScheduleOrder p g = Ok st ∧ orderInv ord (left ord) st ∧
  runsOk rs ord (runOpcodes st) (runStarts st) (runCounts st) ∧ length ord = n.
Proof.
  destruct Husers as [Hl Hd _]. destruct (scheduleWordCount_ok n) as (Hw0 & Hw & _). unfold buildScheduleOrder. rewrite Hl.
  for_loop (λ i s, readyOk p (λ k, bool_decide (k < i)%nat && bool_decide (operandsOf p k = [])) s ∧ length (readyCursor s) = 15%nat) as (s & E & Hs & Hls).
  - split; [|done]. split; simpl.
    + unfold make_. rewrite length_replicate. change scheduleOpcodeCount with 15. split; [lia|]. apply Forall_replicate, is_u64_0.
    + done.
    + intros op i Hop Hi. unfold make_. change scheduleOpcodeCount with 15. rewrite rowBit_replicate0 by nia. unfold readyIn. simpl. by rewrite !andb_false_r.
    + intros op Hop. unfold make_. rewrite lookup_total_replicate_2 by (change scheduleOpcodeCount with 15; lia).
      match goal with |- _ = zlen (List.filter ?f ?l) => destruct (decide (length (List.filter f l) = 0%nat)) as [->|Hn]; [done|] end.
      apply count_pos in Hn as (i & _ & Hr). unfold readyIn in Hr. simpl in Hr. by rewrite andb_false_r in Hr.
  - intros i s Hi [Hs Hls]. rewrite (at_total (indegree g)), go_bind_Ok, Nat2Z.id, Hd by lia. destruct (Z.eqb_spec (zlen (operandsOf p i)) 0) as [Hz|Hz].
    + rewrite at_total, go_bind_Ok, Nat2Z.id by lia. destruct (setScheduleReady_ok p Hsize Hvalid _ s i Hs Hi) as (s' & E & Hs' & Hc).
      { by rewrite (bool_decide_eq_false_2 (i < i)%nat) by lia. }
      exists s'. split; [exact E|]. split; [|congruence]. eapply readyOk_ext; [|exact Hs']. intros k Hk. simpl.
      destruct (decide (k = i)) as [->|Hne].
      * rewrite (bool_decide_eq_true_2 (i = i)), orb_true_r by done. rewrite !bool_decide_eq_true_2; [done|by apply length_zero_iff_nil; lia|lia].
      * rewrite (bool_decide_eq_false_2 (k = i)), orb_false_r by done. f_equal. apply bool_decide_ext. lia.
    + exists s. split; [done|]. split; [|done]. eapply readyOk_ext; [|exact Hs]. intros k Hk. simpl. destruct (decide (k = i)) as [->|Hne].
      * rewrite (bool_decide_eq_false_2 (operandsOf p i = [])); [by rewrite !andb_false_r|]. intros E. rewrite E in Hz. done.
      * f_equal. apply bool_decide_ext. lia.
  - rewrite E, go_bind_Ok.
    match goal with |- context [orderLoop _ _ _ _ _ ?st0] => destruct (orderLoop_ok n [] [] st0) as (ord & rs & st & E' & Hinv & Hruns & Hlen) end.
    + simpl. lia.
    + split; simpl; try done.
      * constructor.
      * split; [done|]. intros j Hj. rewrite Hd by done. unfold left. f_equal. f_equal. symmetry.
        assert (∀ l : list Z, List.filter (λ o, bool_decide (Z.to_nat (o - 1) ∉ ([] : list nat))) l = l) as Hid.
        { intros l. induction l as [|o l IHl]; cbn [List.filter]; [done|]. rewrite bool_decide_eq_true_2 by set_solver. by rewrite IHl. }
        apply Hid.
      * intros i Hi. set_solver.
      * eapply readyOk_ext; [|exact Hs]. intros k Hk. unfold isReady. rewrite (bool_decide_eq_true_2 (k ∉ [])) by set_solver.
        rewrite (bool_decide_eq_true_2 (k < n)%nat), andb_true_r by done. simpl. apply bool_decide_ext. split.
        -- intros Hz. destruct (operandsOf p k) as [|o l] eqn:Eo; [done|]. pose proof (left_zero [] k o Hz) as Hin. rewrite Eo in Hin. set_solver.
        -- intros E0. unfold left. by rewrite E0.
      * unfold make_. rewrite length_replicate. split; [lia|]. intros k i Hk. done.
    + by split.
    + done.
    + exists ord, rs, st. split_and!; done.
Qed.
End order.
