(* ===== verification/ScheduleMeaning.v ===== *)
(** * What scheduling preserves

    The permutation pass of [internal/compile/schedule.go] applied to the order
    of [Schedule]: every new row holds the columns of its old row, its list
    and its operands under their new IDs.  The properties state that scheduling
    succeeds on graphs in definition order, keeps the denotation of every
    instruction, groups equal opcodes into maximal runs and hands slot planning
    a graph it accepts. *)

From S2P Require Import Prelude Store Truth Schema Result Program Batch Predicate Simd FactIndex Evidence Executor PolicyIndex Finalize Execute Liveness Schedule.

(** ** Writing a CSR array front to back *)

Lemma put_next (A : list Z) r x : put_ (A ++ replicate (S r) 0) (zlen A) x = Ok ((A ++ [x]) ++ replicate r 0).
Proof.
  rewrite put_Ok by (rewrite length_app, length_replicate; lia). f_equal. rewrite Nat2Z.id, insert_app_r_alt, Nat.sub_diag by done.
  simpl. by rewrite <-app_assoc.
Qed.

Lemma copyAt_next (A src : list Z) r : (length src ≤ r)%nat →
  copyAt (A ++ replicate r 0) (zlen A) src = Ok ((A ++ src) ++ replicate (r - length src) 0).
Proof.
  intros Hl. unfold copyAt. assert (slice_ (A ++ replicate r 0) (zlen A) (zlen (A ++ replicate r 0)) = Ok (replicate r 0)) as ->.
  { apply slice_Ok. rewrite length_app, length_replicate. split; [lia|]. split; [lia|]. rewrite Nat2Z.id, drop_app_length, take_ge; [done|rewrite length_replicate; lia]. }
  rewrite go_bind_Ok, Nat2Z.id, take_app_length, length_replicate, take_ge by done. by rewrite drop_replicate, app_assoc.
Qed.

(** A loop that writes one entry per element behind what is written. *)
Lemma write_all (body : Z → list Z * Z → go (list Z * Z)) (h : Z → Z) ops (A : list Z) (T : nat) :
  (∀ o B r, o ∈ ops → zlen B < MaxUint32 → body o (B ++ replicate (S r) 0, zlen B) = Ok ((B ++ [h o]) ++ replicate r 0, zlen B + 1)) →
  (length A + length ops ≤ T)%nat → Z.of_nat T ≤ MaxUint32 →
  fold_go body ops (A ++ replicate (T - length A) 0, zlen A) = Ok ((A ++ map h ops) ++ replicate (T - length (A ++ map h ops)) 0, zlen (A ++ map h ops)).
Proof.
  intros Hbody HT Hmax. revert A HT. induction ops as [|o ops IH]; intros A HT; [simpl; by rewrite app_nil_r|]. cbn [fold_go map]. simpl in HT.
  replace (T - length A)%nat with (S (T - length (A ++ [h o]))) by (rewrite length_app; simpl; lia).
  rewrite Hbody by (by left || lia). rewrite go_bind_Ok. replace (zlen A + 1) with (zlen (A ++ [h o])) by (rewrite length_app; simpl; lia).
  rewrite IH; [by rewrite <-!app_assoc|intros; apply Hbody; [by right|done]|rewrite length_app; simpl; lia].
Qed.

Lemma total_perm l k : l ≡ₚ k → total l = total k.
Proof. unfold total. induction 1; simpl; lia. Qed.

Section packing.
Context (ord : list nat) (f : nat → list Z).

(** The contents written for the first [m] rows. *)
Definition packed (m : nat) : list Z := concat (map f (take m ord)).

Lemma packed_S m i : ord !! m = Some i → packed (S m) = packed m ++ f i.
Proof. intros Hm. unfold packed. erewrite take_S_r by done. rewrite map_app, concat_app. simpl. by rewrite app_nil_r. Qed.

Lemma packed_mono m m' : (m ≤ m')%nat → ∃ rest, packed m' = packed m ++ rest.
Proof.
  intros Hm. exists (concat (map f (drop m (take m' ord)))). unfold packed. rewrite <-concat_app, <-map_app.
  replace (take m ord) with (take m (take m' ord)) by (rewrite take_take; f_equal; lia). by rewrite take_drop.
Qed.

Lemma packed_row m k i z : ord !! k = Some i → (k < m)%nat → csr (packed m ++ z) (zlen (packed k)) (zlen (f i)) = f i.
Proof.
  intros Hk Hlt. destruct (packed_mono (S k) m) as [rest ->]; [lia|]. rewrite (packed_S k i Hk), <-!app_assoc. unfold csr. rewrite !Nat2Z.id.
  by rewrite drop_app_length, take_app_length.
Qed.

Lemma packed_total n (counts : list Z) : (∀ i, i ∈ ord → zlen (f i) = counts !!! i) → length ord = n → ord ≡ₚ seq 0 n → length counts = n →
  Forall is_u32 counts → ∀ m, zlen (packed m) ≤ total counts.
Proof.
  intros Hf Hl Hp Hlc Hu m. assert (zlen (packed n) = total counts) as Hn.
  { transitivity (total (map (λ i, counts !!! i) ord)).
    - unfold packed. rewrite take_ge by lia. clear Hl Hp. unfold total. induction ord as [|i l IH]; simpl; [done|]. rewrite length_app.
      rewrite <-IH by (intros j Hj; apply Hf; by right). rewrite <-(Hf i) by by left. lia.
    - rewrite (total_perm _ _ (Permutation_map _ Hp)). f_equal. apply list_eq_same_length with n; [done|by rewrite length_map, length_seq|].
      intros i x y Hi Hx Hy. rewrite map_seq_lookup in Hx by done. simplify_eq. by apply list_lookup_total_correct. }
  destruct (decide (m ≤ n)%nat) as [Hm|Hm]; [destruct (packed_mono m n Hm) as [rest E]; rewrite E, length_app in Hn; lia|].
  replace (packed m) with (packed n); [lia|]. unfold packed. by rewrite !take_ge by lia.
Qed.
End packing.

(** The starts of rows written one after the other. *)
Section starts.
Context (ord : list nat) (n : nat) (Hlen : length ord = n).

(** The start of row [j], that of old row [i], after [m] rows: empty ranges keep zero. *)
Definition startOf (f : nat → list Z) (m j i : nat) : Z :=
  if bool_decide (j < m)%nat && negb (bool_decide (f i = [])) then zlen (packed ord f j) else 0.

(** The state after [m] rows: lists [f] and operands [g] are written front to back
    into arrays of [TL] and [TO] entries. *)
Record packInv (f g : nat → list Z) (TL TO : nat) (m : nat) (k : packState) : Prop := {
  pi_lists : kListValues k = packed ord f m ++ replicate (TL - length (packed ord f m)) 0;
  pi_listPos : kListPos k = zlen (packed ord f m);
  pi_listStarts : length (kListStarts k) = n ∧ ∀ j i, ord !! j = Some i → kListStarts k !!! j = startOf f m j i;
  pi_operands : kOperands k = packed ord g m ++ replicate (TO - length (packed ord g m)) 0;
  pi_operandPos : kOperandPos k = zlen (packed ord g m);
  pi_operandStarts : length (kOperandStarts k) = n ∧ ∀ j i, ord !! j = Some i → kOperandStarts k !!! j = startOf g m j i;
  pi_starts_u32 : Forall is_u32 (kListStarts k) ∧ Forall is_u32 (kOperandStarts k)
}.

(** Fresh arrays. *)
Lemma packInv_fresh f g (TL TO : nat) :
  packInv f g TL TO 0 {| kListStarts := make_ (Z.of_nat n); kListValues := make_ (Z.of_nat TL); kListPos := 0;
                         kOperandStarts := make_ (Z.of_nat n); kOperands := make_ (Z.of_nat TO); kOperandPos := 0 |}.
Proof.
  unfold make_. split; simpl; rewrite ?Nat2Z.id, ?length_replicate; try done.
  - unfold packed. simpl. by rewrite Nat.sub_0_r.
  - split; [done|]. intros j i Hj%lookup_lt_Some. by rewrite lookup_total_replicate_2 by lia.
  - unfold packed. simpl. by rewrite Nat.sub_0_r.
  - split; [done|]. intros j i Hj%lookup_lt_Some. by rewrite lookup_total_replicate_2 by lia.
  - split; apply Forall_replicate; unfold is_u32; lia.
Qed.

(** The list and operand starts of row [m]. *)
Lemma starts_step (f : nat → list Z) (starts : list Z) m i :
  ord !! m = Some i → length starts = n → (∀ j i, ord !! j = Some i → starts !!! j = startOf f m j i) →
  Forall is_u32 starts → is_u32 (zlen (packed ord f m)) →
  ∃ starts', (if negb (zlen (f i) =? 0) then put_ starts (Z.of_nat m) (zlen (packed ord f m)) else Ok starts) = Ok starts' ∧ length starts' = n ∧
    (∀ j i, ord !! j = Some i → starts' !!! j = startOf f (S m) j i) ∧ Forall is_u32 starts'.
Proof.
  intros Hm Hl Hs Hu Hum. pose proof (lookup_lt_Some _ _ _ Hm) as Hmn. rewrite Hlen in Hmn.
  assert (∀ j i', j ≠ m → startOf f (S m) j i' = startOf f m j i') as Hrest.
  { intros j i' Hj. unfold startOf. by rewrite (bool_decide_ext (j < S m)%nat (j < m)%nat) by lia. }
  destruct (Z.eqb_spec (zlen (f i)) 0) as [Hz|Hnz]; cbn [negb].
  - exists starts. split_and!; try done. intros j i' Hj. rewrite (Hs j i' Hj). destruct (decide (j = m)) as [->|]; [|by rewrite Hrest].
    simplify_eq. unfold startOf. rewrite (bool_decide_eq_true_2 (f i = [])) by (apply nil_length_inv; lia). by rewrite !andb_false_r.
  - rewrite put_Ok, Nat2Z.id by lia. eexists. split; [done|]. split; [by rewrite length_insert|]. split; [|by apply Forall_insert].
    intros j i' Hj. destruct (decide (j = m)) as [->|Hjm]; [|by rewrite lookup_total_insert_ne, Hrest by done; apply Hs].
    rewrite lookup_total_insert_eq by lia. simplify_eq. unfold startOf. rewrite bool_decide_eq_true_2 by lia.
    by rewrite bool_decide_eq_false_2 by (intros E; rewrite E in Hnz; done).
Qed.

Lemma row_at (col : list Z) k i : ord !! k = Some i → map (λ i, col !!! i) ord !!! k = col !!! i.
Proof. intros Hk. apply list_lookup_total_correct. apply list_lookup_fmap_Some. by exists i. Qed.

(** One row of a packed CSR array. *)
Lemma packed_range (f : nat → list Z) (s c limit : Z) z k i :
  ord !! k = Some i → s = startOf f n k i → c = zlen (f i) → zlen (packed ord f (S k)) ≤ limit → 0 ≤ limit →
  csr (packed ord f n ++ z) s c = f i ∧ s + c ≤ limit.
Proof.
  intros Hk -> -> Hfit Hl. pose proof (lookup_lt_Some _ _ _ Hk) as Hkn. rewrite Hlen in Hkn. unfold startOf. rewrite (bool_decide_eq_true_2 (k < n)%nat) by done. case_bool_decide as E.
  - rewrite E. simpl. done.
  - simpl. split; [by apply packed_row|]. rewrite (packed_S ord f k i Hk), length_app in Hfit. lia.
Qed.

End starts.

(** ** The permuted columns *)

Lemma gather_ok (col : list Z) ord : Forall (λ i, (i < length col)%nat) ord → gather col (map Z.of_nat ord) = Ok (map (λ i, col !!! i) ord).
Proof.
  intros Hall. unfold gather. rewrite (map_go_Ok _ (λ z, col !!! Z.to_nat z)).
  - f_equal. rewrite map_map. apply map_ext. intros i. by rewrite Nat2Z.id.
  - intros z Hz. apply list_elem_of_fmap in Hz as (i & -> & Hi). rewrite Forall_forall in Hall. specialize (Hall i Hi). apply at_total. lia.
Qed.

(** An optional column follows the order when it is present. *)
Definition reordered (ord : list nat) (col : list Z) : list Z := if bool_decide (col = []) then [] else map (λ i, col !!! i) ord.

Lemma gatherOptional_ok (col : list Z) n ord : Forall (λ i, (i < n)%nat) ord → length col = 0%nat ∨ length col = n →
  gatherOptional col (map Z.of_nat ord) = Ok (reordered ord col).
Proof.
  intros Hall Hl. unfold gatherOptional, reordered. case_bool_decide as Hc; [done|]. apply gather_ok. destruct Hl as [Hl|Hl]; [|by rewrite Hl].
  by apply nil_length_inv in Hl.
Qed.

(** The lengths and list ranges that [validateScheduleColumns] checks. *)
Record columnsOk (p : Program) : Prop := {
  co_lens : let n := length (Opcodes p) in length (Fields p) = n ∧ length (Values p) = n ∧ length (ListStarts p) = n ∧ length (ListCounts p) = n ∧
    length (EvidenceKinds p) = n ∧ length (EvidenceStates p) = n ∧ length (RootFlags p) = n ∧ length (InstructionNodes p) = n ∧
    length (InstructionSourceStarts p) = n ∧ length (InstructionSourceEnds p) = n;
  co_optional : let n := length (Opcodes p) in (length (EvidenceSubjects p) = 0%nat ∨ length (EvidenceSubjects p) = n) ∧
    (length (EvidenceScopes p) = 0%nat ∨ length (EvidenceScopes p) = n) ∧ (length (EvidenceTimings p) = 0%nat ∨ length (EvidenceTimings p) = n);
  co_rows i : (i < length (Opcodes p))%nat → OpcodeValid (Opcodes p !!! i) = true ∧ 0 ≤ ListStarts p !!! i ∧ 0 ≤ ListCounts p !!! i ∧
    ListStarts p !!! i + ListCounts p !!! i ≤ zlen (ListValues p);
  co_nodes : Forall (λ id, id ≠ 0 ∧ id ≤ zlen (Opcodes p)) (NodeInstructionIDs p)
}.

Lemma total_u32 (l : list Z) i : Forall is_u32 l → (i < length l)%nat → is_u32 (l !!! i).
Proof. intros Hl Hi. rewrite Forall_lookup in Hl. eapply Hl. by apply list_lookup_lookup_total_lt. Qed.

Lemma validateScheduleColumns_ok p : schedule_typed p → validateScheduleColumns p = Ok tt → columnsOk p.
Proof.
  intros Ht Hv. unfold validateScheduleColumns in Hv. apply go_bind_inv in Hv as ([] & H1%check_inv & Hv). apply go_bind_inv in Hv as ([] & H2%check_inv & H3%check_inv).
  repeat (apply andb_true_iff in H1 as [H1 ?]). repeat match goal with H : bool_decide _ = true |- _ => apply bool_decide_eq_true in H end. destruct_and!.
  assert (∀ len n, optionalScheduleColumn len n = true → len = 0%nat ∨ len = n) as Hopt.
  { intros len n. unfold optionalScheduleColumn. rewrite orb_true_iff, !bool_decide_eq_true. done. }
  split.
  - simpl. split_and!; done.
  - simpl. split_and!; by apply Hopt.
  - intros i Hi. pose proof (forallb_seq _ _ i H2 Hi) as Hr. simpl in Hr. apply negb_true_iff in Hr. apply orb_false_iff in Hr as [Hr _].
    apply orb_false_iff in Hr as [Hop%negb_false_iff Hl%Z.ltb_ge]. destruct (sy_lists _ Ht) as [Hs Hc].
    pose proof (total_u32 _ i Hs ltac:(lia)) as Us. pose proof (total_u32 _ i Hc ltac:(lia)) as Uc. unfold is_u32 in Us, Uc.
    rewrite u64_small in Hl by (unfold is_u64; lia). split_and!; [done|lia|lia|lia].
  - apply Forall_forall. intros id Hid. rewrite forallb_forall in H3. specialize (H3 id ltac:(by apply list_elem_of_In)).
    apply negb_true_iff, orb_false_iff in H3 as [Hz%Z.eqb_neq Hl%Z.ltb_ge]. done.
Qed.

Section permute.
Context (p : Program) (Hg : graph_ok p) (Ht : schedule_typed p) (Hcols : columnsOk p) (Hsize : zlen (Opcodes p) < MaxUint32).
Context (st : orderState) (ord : list nat) (Hinv : orderInv p ord (left p ord) st) (Hlen : length ord = length (Opcodes p)).
Local Abbreviation n := (length (Opcodes p)).

(** The new ID of an old operand. *)
Definition rename (o : Z) : Z := oldToNew st !!! Z.to_nat (o - 1).
Definition renamedOperands (i : nat) : list Z := map rename (operandsOf p i).

Lemma order_perm : ord ≡ₚ seq 0 n.
Proof.
  apply submseteq_length_Permutation; [|rewrite length_seq; lia]. apply NoDup_submseteq; [apply Hinv|].
  intros i Hi. pose proof (oi_range _ _ _ _ Hinv) as Hr. rewrite Forall_forall in Hr. specialize (Hr i Hi). apply elem_of_seq. simpl in Hr. lia.
Qed.

Lemma order_row k i : ord !! k = Some i → (k < n)%nat ∧ (i < n)%nat.
Proof.
  intros Hk. split; [rewrite <-Hlen; by eapply lookup_lt_Some|]. pose proof (oi_range _ _ _ _ Hinv) as Hr. rewrite Forall_lookup in Hr. by apply (Hr k).
Qed.

(** Operands are renamed to earlier rows. *)
Lemma rename_ok k i o : ord !! k = Some i → o ∈ operandsOf p i → 1 ≤ rename o ≤ Z.of_nat k ∧ ord !! Z.to_nat (rename o - 1) = Some (Z.to_nat (o - 1)).
Proof.
  intros Hk Ho. destruct (oi_topo _ _ _ _ Hinv k i o Hk Ho) as (k' & Hlt & Hk'). destruct (oi_new _ _ _ _ Hinv) as [_ Hnew]. unfold rename.
  rewrite (Hnew k' _ Hk'). split; [lia|]. by replace (Z.to_nat (Z.of_nat k' + 1 - 1)) with k' by lia.
Qed.

Lemma literals_length i : (i < n)%nat → zlen (inLiterals p i) = ListCounts p !!! i.
Proof. intros Hi. destruct (co_rows _ Hcols i Hi) as (_ & ? & ? & ?). unfold inLiterals. rewrite length_csr by lia. lia. Qed.

Lemma literals_fit m : zlen (packed ord (inLiterals p) m) ≤ zlen (ListValues p).
Proof.
  destruct Ht as [_ [_ Hc] _ [Hv _] _]. destruct (co_lens _ Hcols) as (_ & _ & _ & Hl & _).
  pose proof (packed_total ord (inLiterals p) n (ListCounts p)) as Hp. etransitivity; [apply Hp|exact Hv]; try done; [|apply order_perm].
  intros i [k Hk]%list_elem_of_lookup. apply literals_length. by eapply order_row.
Qed.

Lemma operands_fit m : zlen (packed ord renamedOperands m) ≤ zlen (Operands p).
Proof.
  destruct Ht as [[_ Hc _] _ [Hv _] _ _]. destruct (gk_lens _ Hg) as (_ & Hl & _).
  pose proof (packed_total ord renamedOperands n (OperandCounts p)) as Hp. etransitivity; [apply Hp|exact Hv]; try done; [|apply order_perm].
  intros i [k Hk]%list_elem_of_lookup. unfold renamedOperands. rewrite length_map. apply length_operands; [done|]. by eapply order_row.
Qed.

Local Abbreviation packing := (packInv ord n (inLiterals p) renamedOperands (length (ListValues p)) (length (Operands p))).

(** The operand loop of one row. *)
Lemma packOperands_ok m i : ord !! m = Some i →
  fold_go (λ oldOperand acc,
    let '(packed, pos) := acc in
    check (negb ((oldOperand =? 0) || (zlen (oldToNew st) <? oldOperand))) ErrInvalidGeneratedProgram ;;
    newOperand ← at_ (oldToNew st) (oldOperand - 1);
    check (negb ((newOperand =? 0) || (Z.of_nat m + 1 <=? newOperand))) ErrInvalidGeneratedProgram ;;
    packed ← put_ packed pos newOperand;
    Ok (packed, u32 (pos + 1))) (operandsOf p i)
    (packed ord renamedOperands m ++ replicate (length (Operands p) - length (packed ord renamedOperands m)) 0, zlen (packed ord renamedOperands m)) =
  Ok (packed ord renamedOperands (S m) ++ replicate (length (Operands p) - length (packed ord renamedOperands (S m))) 0, zlen (packed ord renamedOperands (S m))).
Proof.
  intros Hm. destruct (order_row m i Hm) as [_ Hi]. pose proof (operands_fit (S m)) as Hfit. rewrite (packed_S ord _ m i Hm) in Hfit |- *. rewrite length_app in Hfit.
  destruct (sy_operands _ Ht) as [_ Hmax]. unfold renamedOperands at 3 6 9. unfold renamedOperands in Hfit at 2. rewrite length_map in Hfit.
  apply write_all; [|lia|lia]. intros o B r Ho HB. destruct (rename_ok m i o Hm Ho) as [Hr Hat]. destruct (gk_earlier _ Hg i o Hi Ho) as [Ho1 Ho2].
  destruct (oi_new _ _ _ _ Hinv) as [Hnl _]. unfold MaxUint32 in HB.
  rewrite (proj2 (Z.eqb_neq o 0)), (proj2 (Z.ltb_ge _ o)) by lia. cbn [orb negb check]. rewrite go_bind_Ok, at_total, go_bind_Ok by lia. fold (rename o).
  rewrite (proj2 (Z.eqb_neq (rename o) 0)), (proj2 (Z.leb_gt _ (rename o))) by lia. cbn [orb negb check]. rewrite go_bind_Ok.
  rewrite put_next, go_bind_Ok, u32_small by (unfold is_u32; lia). done.
Qed.

Lemma packRow_ok m i k : ord !! m = Some i → packing m k → ∃ k', packRow p (oldToNew st) m (Z.of_nat i) k = Ok k' ∧ packing (S m) k'.
Proof.
  intros Hm [L1 L2 [L3 L4] O1 O2 [O3 O4] [U1 U2]]. destruct (order_row m i Hm) as [Hmn Hi].
  destruct (co_lens _ Hcols) as (_ & _ & Hls & Hlc & _). destruct (gk_lens _ Hg) as (Hos & Hoc & _).
  destruct (co_rows _ Hcols i Hi) as (_ & A1 & A2 & A3). destruct (gk_range _ Hg i Hi) as (B1 & B2 & B3).
  destruct (sy_operands _ Ht) as [_ Hmo]. destruct (sy_values _ Ht) as [_ Hml]. unfold MaxUint32 in Hmo, Hml.
  pose proof (literals_fit m) as F1. pose proof (literals_fit (S m)) as F2. pose proof (operands_fit m) as F3. rewrite (packed_S ord _ m i Hm), length_app in F2.
  destruct (starts_step ord n Hlen (inLiterals p) (kListStarts k) m i Hm L3 L4 U1) as (ls & E1 & S1 & S2 & S3); [unfold is_u32; lia|].
  destruct (starts_step ord n Hlen renamedOperands (kOperandStarts k) m i Hm O3 O4 U2) as (os & E2 & S4 & S5 & S6); [unfold is_u32; lia|].
  unfold packRow. rewrite !at_total, !go_bind_Ok, !Nat2Z.id by lia.
  rewrite <-literals_length by done.
  assert ((if negb (zlen (inLiterals p i) =? 0) then
      starts ← put_ (kListStarts k) (Z.of_nat m) (kListPos k);
      src ← slice_ (ListValues p) (ListStarts p !!! i) (u32 (ListStarts p !!! i + zlen (inLiterals p i)));
      vals ← copyAt (kListValues k) (kListPos k) src;
      Ok (starts, vals, u32 (kListPos k + zlen (inLiterals p i)))
    else Ok (kListStarts k, kListValues k, kListPos k)) =
    Ok (ls, packed ord (inLiterals p) (S m) ++ replicate (length (ListValues p) - length (packed ord (inLiterals p) (S m))) 0, zlen (packed ord (inLiterals p) (S m)))) as ->.
  { rewrite (packed_S ord _ m i Hm), L1, L2. destruct (negb _) eqn:Ez.
    - rewrite E1, go_bind_Ok. rewrite (literals_length i Hi), (u32_small (ListStarts p !!! i + _)) by (unfold is_u32; lia). rewrite slice_csr, go_bind_Ok by lia. fold (inLiterals p i).
      rewrite copyAt_next, go_bind_Ok by lia. rewrite (length_app _ (inLiterals p i)). rewrite <-(literals_length i Hi).
      rewrite u32_small by (unfold is_u32; lia). do 3 f_equal; [|lia]. f_equal. f_equal. lia.
    - simplify_eq. apply negb_false_iff, Z.eqb_eq in Ez. assert (inLiterals p i = []) as -> by (apply nil_length_inv; lia). by rewrite app_nil_r. }
  rewrite !go_bind_Ok. unfold renamedOperands at 1 in E2. rewrite length_map, (length_operands p Hg i Hi) in E2. rewrite O2, E2, go_bind_Ok.
  rewrite u32_small by (unfold is_u32; lia). rewrite slice_csr, go_bind_Ok by lia. fold (operandsOf p i). rewrite O1, packOperands_ok, go_bind_Ok by done.
  eexists. split; [done|]. by split.
Qed.

(** A program whose instruction columns are those of [p] in the order [ord]. *)
Record reorders (p' : Program) : Prop := {
  rd_columns : let by_order col := map (λ i, col !!! i) ord in
    Opcodes p' = by_order (Opcodes p) ∧ Fields p' = by_order (Fields p) ∧ Values p' = by_order (Values p) ∧ ListCounts p' = by_order (ListCounts p) ∧
    OperandCounts p' = by_order (OperandCounts p) ∧ EvidenceKinds p' = by_order (EvidenceKinds p) ∧ EvidenceStates p' = by_order (EvidenceStates p) ∧
    RootFlags p' = by_order (RootFlags p) ∧ InstructionNodes p' = by_order (InstructionNodes p) ∧
    InstructionSourceStarts p' = by_order (InstructionSourceStarts p) ∧ InstructionSourceEnds p' = by_order (InstructionSourceEnds p);
  rd_optional : EvidenceSubjects p' = reordered ord (EvidenceSubjects p) ∧ EvidenceScopes p' = reordered ord (EvidenceScopes p) ∧
    EvidenceTimings p' = reordered ord (EvidenceTimings p);
  rd_starts : length (ListStarts p') = n ∧ length (OperandStarts p') = n ∧ Forall is_u32 (ListStarts p') ∧ Forall is_u32 (OperandStarts p');
  rd_lists k i : ord !! k = Some i → inLiterals p' k = inLiterals p i ∧ ListStarts p' !!! k + ListCounts p' !!! k ≤ zlen (ListValues p');
  rd_operands k i : ord !! k = Some i → operandsOf p' k = renamedOperands i ∧ OperandStarts p' !!! k + OperandCounts p' !!! k ≤ zlen (Operands p');
  rd_sizes : zlen (Operands p') = zlen (Operands p) ∧ zlen (ListValues p') = zlen (ListValues p) ∧ Forall is_u32 (Operands p');
  rd_nodes : NodeInstructionIDs p' = map rename (NodeInstructionIDs p);
  rd_ranges : NodeInstructionStarts p' = NodeInstructionStarts p ∧ NodeInstructionCounts p' = NodeInstructionCounts p;
  rd_runs : OpcodeRunOpcodes p' = runOpcodes st ∧ OpcodeRunStarts p' = runStarts st ∧ OpcodeRunCounts p' = runCounts st;
  rd_rest : p' = with_instr p (instr p')
}.

Lemma rows_below (col : list Z) : length col = n → Forall (λ i, (i < length col)%nat) ord.
Proof. intros ->. apply Hinv. Qed.

Lemma renameNode_ok id : id ≠ 0 ∧ id ≤ zlen (Opcodes p) → is_u32 id → renameNode (oldToNew st) id = Ok (rename id).
Proof.
  intros [Hz Hl] Hu. unfold renameNode. destruct (oi_new _ _ _ _ Hinv) as [Hnl _]. unfold is_u32 in Hu.
  rewrite (proj2 (Z.eqb_neq id 0)), (proj2 (Z.ltb_ge _ id)) by lia. cbn [orb negb check]. rewrite go_bind_Ok. apply at_total. lia.
Qed.

Lemma rename_u32 i : (i < n)%nat → Forall is_u32 (renamedOperands i).
Proof.
  intros Hi. apply Forall_forall. intros o' (o & -> & Ho)%list_elem_of_fmap.
  assert (∃ k, ord !! k = Some i) as [k Hk] by (apply list_elem_of_lookup; rewrite order_perm; apply elem_of_seq; lia).
  destruct (rename_ok k i o Hk Ho) as [Hr _]. destruct (order_row k i Hk). unfold MaxUint32, is_u32 in *. lia.
Qed.

Lemma permuteScheduledInstructions_ok : ∃ p', permuteScheduledInstructions p st = Ok p' ∧ reorders p'.
Proof.
  pose proof (sy_nodes _ Ht) as Hnodes. destruct (co_lens _ Hcols) as (C1 & C2 & C3 & C4 & C5 & C6 & C7 & C8 & C9 & C10). destruct (co_optional _ Hcols) as (P1 & P2 & P3).
  destruct (gk_lens _ Hg) as (G1 & G2 & _). unfold permuteScheduledInstructions. rewrite (oi_order _ _ _ _ Hinv).
  rewrite !gather_ok by (apply rows_below; done). rewrite !(gatherOptional_ok _ n) by (done || apply Hinv). rewrite !go_bind_Ok.
  for_loop (λ m k, packing m k) as (k & E & Hk).
  - by apply packInv_fresh.
  - intros m k Hm Hpk. rewrite length_map in Hm. destruct (lookup_lt_is_Some_2 ord m Hm) as [i Hi].
    assert (map Z.of_nat ord !!! m = Z.of_nat i) as -> by (apply list_lookup_total_correct, list_lookup_fmap_Some; by exists i). by apply packRow_ok.
  - rewrite E, go_bind_Ok. rewrite length_map, Hlen in Hk. destruct Hk as [L1 L2 [L3 L4] O1 O2 [O3 O4] [U1 U2]].
    rewrite (map_go_Ok _ rename).
    2: { intros id Hid. pose proof (co_nodes _ Hcols) as Hc. rewrite Forall_forall in Hc, Hnodes. apply renameNode_ok; [by apply Hc|by apply Hnodes]. }
    rewrite go_bind_Ok. eexists. split; [done|].
    assert (zlen (kListValues k) = zlen (ListValues p)) as Hzl by (rewrite L1, length_app, length_replicate; pose proof (literals_fit n); lia).
    assert (zlen (kOperands k) = zlen (Operands p)) as Hzo by (rewrite O1, length_app, length_replicate; pose proof (operands_fit n); lia).
    split; simpl; try done.
    + intros j i Hj. destruct (order_row j i Hj) as [Hjn Hi]. rewrite Hzl. unfold inLiterals at 1. simpl. rewrite L1.
      apply (packed_range ord n Hlen) with j; [done|by apply L4|by rewrite (row_at ord _ _ _ Hj), literals_length|apply literals_fit|lia].
    + intros j i Hj. destruct (order_row j i Hj) as [Hjn Hi]. rewrite Hzo. unfold operandsOf at 1. simpl. rewrite O1.
      apply (packed_range ord n Hlen) with j; [done|by apply O4| |apply operands_fit|lia]. rewrite (row_at ord _ _ _ Hj). unfold renamedOperands. by rewrite length_map, length_operands.
    + split; [done|]. split; [done|]. rewrite O1. apply Forall_app. split; [|apply Forall_replicate; unfold is_u32; lia].
      unfold packed. apply Forall_concat, Forall_forall. intros l (i & <- & Hi%list_elem_of_In)%list_elem_of_In%in_map_iff. apply elem_of_take in Hi as (j & Hj & _).
      apply rename_u32. by eapply order_row.
Qed.
End permute.

(** ** Meaning *)

Section meaning.
Context (p : Program) (Hg : graph_ok p) (Hcols : columnsOk p).
Context (st : orderState) (ord : list nat) (Hinv : orderInv p ord (left p ord) st) (Hlen : length ord = length (Opcodes p)).
Context (p' : Program) (Hr : reorders p st ord p').
Local Abbreviation n := (length (Opcodes p)).

Lemma at_reordered (col : list Z) k i : ord !! k = Some i → (i < length col)%nat → at_ (map (λ i, col !!! i) ord) (Z.of_nat k) = at_ col (Z.of_nat i).
Proof.
  intros Hk Hi. rewrite (at_nat _ k (col !!! i)) by (apply list_lookup_fmap_Some; by exists i). symmetry. apply at_nat. by apply list_lookup_lookup_total_lt.
Qed.

Lemma qualifier_reordered (col : list Z) k i : ord !! k = Some i → (i < n)%nat → length col = 0%nat ∨ length col = n →
  evidenceQualifier (reordered ord col) (Z.of_nat k) = evidenceQualifier col (Z.of_nat i).
Proof.
  intros Hk Hi Hl. unfold evidenceQualifier, reordered. destruct (decide (col = [])) as [->|Hc].
  - by rewrite (bool_decide_eq_true_2 (([] : list Z) = [])).
  - rewrite (bool_decide_eq_false_2 (col = [])) by done.
    assert (length col ≠ 0%nat) as Hc' by (intros ?%nil_length_inv; done).
    assert (length (map (λ i, col !!! i) ord) ≠ 0%nat) as Hm by (rewrite length_map; apply lookup_lt_Some in Hk; lia).
    rewrite (bool_decide_eq_false_2 (length col = 0%nat)), (bool_decide_eq_false_2 (length (map _ ord) = 0%nat)) by done. apply at_reordered; [done|lia].
Qed.

Lemma predicateAt_reordered k i : ord !! k = Some i → predicateAt p' k = predicateAt p i.
Proof.
  intros Hk. destruct (order_row p st ord Hinv Hlen k i Hk) as [_ Hi]. destruct (rd_columns _ _ _ _ Hr) as (_ & _ & _ & _ & _ & E1 & E2 & _).
  destruct (rd_optional _ _ _ _ Hr) as (E3 & E4 & E5). destruct (co_lens _ Hcols) as (_ & _ & _ & _ & C1 & C2 & _). destruct (co_optional _ Hcols) as (P1 & P2 & P3).
  unfold predicateAt, instructionPredicate. rewrite E1, E2, E3, E4, E5. rewrite !at_reordered with (i := i) by (done || lia).
  by rewrite !(qualifier_reordered _ k i Hk Hi).
Qed.

Lemma predicateRow_reordered k i b r : ord !! k = Some i → predicateRow p' b k r = predicateRow p b i r.
Proof.
  intros Hk. destruct (rd_columns _ _ _ _ Hr) as (E1 & E2 & E3 & _). destruct (rd_lists _ _ _ _ Hr k i Hk) as [E4 _].
  unfold predicateRow, predicateMatches. rewrite E4, E1, E2, E3, !(row_at ord _ k i Hk). by rewrite (rd_rest _ _ _ _ Hr).
Qed.

Lemma reorders_denote b reasons r : ∀ k i, ord !! k = Some i → denote p' b reasons k r = denote p b reasons i r.
Proof.
  induction k as [k IH] using lt_wf_ind. intros i Hk. destruct (rd_columns _ _ _ _ Hr) as (E1 & _ & E3 & _).
  unfold denote, instrValue. rewrite E1, E3, !(row_at ord _ k i Hk).
  assert (map (λ o, denoteAll p' b reasons k r !!! Z.to_nat (o - 1)) (operandsOf p' k) = map (λ o, denoteAll p b reasons i r !!! Z.to_nat (o - 1)) (operandsOf p i)) as ->.
  { destruct (rd_operands _ _ _ _ Hr k i Hk) as [-> _]. unfold renamedOperands. rewrite map_map. apply map_ext_in. intros o Ho%list_elem_of_In.
    destruct (rename_ok p st ord Hinv Hlen k i o Hk Ho) as [Hro Hat].
    destruct (order_row p st ord Hinv Hlen k i Hk) as [_ Hi]. pose proof (gk_earlier _ Hg i o Hi Ho).
    rewrite !denoteAll_lookup.
    - apply IH; [lia|exact Hat].
    - lia.
    - lia. }
  rewrite (predicateAt_reordered k i Hk), (predicateRow_reordered k i b r Hk). by rewrite (rd_rest _ _ _ _ Hr).
Qed.

(** Every old row has a new one, and its renamed ID is that row. *)
Lemma new_row i : (i < n)%nat → ∃ k, ord !! k = Some i ∧ (k < n)%nat ∧ rename st (Z.of_nat i + 1) = Z.of_nat k + 1.
Proof.
  intros Hi. assert (i ∈ ord) as [k Hk]%list_elem_of_lookup by (rewrite (order_perm p st ord Hinv Hlen); apply elem_of_seq; lia).
  exists k. split; [done|]. split; [apply (order_row p st ord Hinv Hlen k i Hk)|]. unfold rename. replace (Z.to_nat (Z.of_nat i + 1 - 1)) with i by lia. by apply (oi_new _ _ _ _ Hinv).
Qed.

Lemma old_row k : (k < n)%nat → ∃ i, ord !! k = Some i ∧ (i < n)%nat.
Proof. intros Hk. destruct (lookup_lt_is_Some_2 ord k) as [i Hi]; [lia|]. exists i. split; [done|]. apply (order_row p st ord Hinv Hlen k i Hi). Qed.

Context (Ht : schedule_typed p) (Hsize : zlen (Opcodes p) < MaxUint32).

Lemma reorders_slots_typed : slots_typed p'.
Proof.
  destruct (rd_columns _ _ _ _ Hr) as (_ & _ & _ & _ & E & _). split; [apply Hr| |apply Hr]. rewrite E. apply Forall_forall.
  intros c (i & -> & Hi)%list_elem_of_fmap. destruct (sy_slots _ Ht) as [_ Hc _]. apply total_u32; [done|]. destruct (gk_lens _ Hg) as (_ & -> & _).
  pose proof (oi_range _ _ _ _ Hinv) as Hall. rewrite Forall_forall in Hall. by apply Hall.
Qed.

Lemma check_true {A} b e (k : unit → go A) : b = true → (check b e ≫= k) = k tt.
Proof. by intros ->. Qed.

Lemma check_Ok b e : b = true → check b e = Ok tt.
Proof. by intros ->. Qed.

Lemma reorders_columns_valid : validateScheduleColumns p' = Ok tt.
Proof.
  destruct (rd_columns _ _ _ _ Hr) as (E1 & E2 & E3 & E4 & E5 & E6 & E7 & E8 & E9 & E10 & E11). destruct (rd_optional _ _ _ _ Hr) as (P1 & P2 & P3).
  destruct (rd_starts _ _ _ _ Hr) as (S1 & S2 & U1 & U2). destruct (rd_sizes _ _ _ _ Hr) as (Z1 & Z2 & _).
  destruct (sy_operands _ Ht) as [_ M1]. destruct (sy_values _ Ht) as [_ M2]. unfold MaxUint32 in M1, M2.
  assert (length (Opcodes p') = n) as En by (by rewrite E1, length_map).
  assert (∀ col : list Z, optionalScheduleColumn (length (reordered ord col)) n = true) as Hopt.
  { intros col. unfold optionalScheduleColumn, reordered. destruct (decide (col = [])) as [->|Hc]; [by rewrite (bool_decide_eq_true_2 (([] : list Z) = []))|].
    rewrite (bool_decide_eq_false_2 (col = [])), length_map, Hlen by done. by rewrite (bool_decide_eq_true_2 (n = n)), orb_true_r. }
  unfold validateScheduleColumns. rewrite En. rewrite check_true.
  - rewrite check_true.
    + apply check_Ok, forallb_forall. intros id' Hid. rewrite (rd_nodes _ _ _ _ Hr) in Hid.
      apply in_map_iff in Hid as (id & <- & Hin). pose proof (co_nodes _ Hcols) as Hc. rewrite Forall_forall in Hc. destruct (Hc id) as [Hnz Hle]; [by apply list_elem_of_In|].
      pose proof (sy_nodes _ Ht) as Hu. rewrite Forall_forall in Hu. specialize (Hu id ltac:(by apply list_elem_of_In)). unfold is_u32 in Hu.
      destruct (new_row (Z.to_nat (id - 1))) as (k & _ & Hk & Ek); [lia|]. replace (Z.of_nat (Z.to_nat (id - 1)) + 1) with id in Ek by lia.
      rewrite Ek, (proj2 (Z.eqb_neq _ 0)), (proj2 (Z.ltb_ge _ _)) by lia. done.
    + apply forallb_forall. intros k Hk%in_seq. destruct (old_row k) as (i & Hi & Hin); [lia|]. destruct (rd_lists _ _ _ _ Hr k i Hi) as [_ L1].
      destruct (rd_operands _ _ _ _ Hr k i Hi) as [_ L2]. destruct (co_rows _ Hcols i Hin) as (Hv & _ & Hlc & _). destruct (gk_range _ Hg i Hin) as (_ & Hoc & _).
      pose proof (total_u32 _ k U1 ltac:(lia)) as X1. pose proof (total_u32 _ k U2 ltac:(lia)) as X2. unfold is_u32 in X1, X2.
      assert (ListCounts p' !!! k = ListCounts p !!! i) as EL by (rewrite E4; by apply row_at). assert (OperandCounts p' !!! k = OperandCounts p !!! i) as EO by (rewrite E5; by apply row_at).
      rewrite !u64_small by (unfold is_u64; lia). rewrite !(proj2 (Z.ltb_ge _ _)) by lia. rewrite E1, (row_at ord _ k i Hi), Hv. done.
  - rewrite P1, P2, P3, !Hopt. rewrite E2, E3, E4, E5, E6, E7, E8, E9, E10, E11, !length_map. by rewrite !bool_decide_eq_true_2 by (split_and!; done).
Qed.

Lemma reorders_valid : (∀ i, (i < n)%nat → Z.ldiff (RootFlags p !!! i) knownRootFlags = 0) → validateSlotProgram p' = Ok tt.
Proof.
  intros Hflags. destruct (rd_columns _ _ _ _ Hr) as (E1 & _ & _ & _ & E5 & _ & _ & E8 & _). assert (length (Opcodes p') = n) as En by (by rewrite E1, length_map).
  destruct (rd_starts _ _ _ _ Hr) as (_ & S2 & _ & U2). destruct (rd_sizes _ _ _ _ Hr) as (Z1 & _). destruct (sy_operands _ Ht) as [_ M1]. unfold MaxUint32 in M1.
  unfold validateSlotProgram. rewrite check_true by (rewrite En; unfold MaxUint32 in *; apply negb_true_iff, Z.ltb_ge; lia).
  rewrite reorders_columns_valid, go_bind_Ok, En. apply check_Ok, forallb_forall. intros k Hk%in_seq. destruct (old_row k) as (i & Hi & Hin); [lia|].
  destruct (rd_operands _ _ _ _ Hr k i Hi) as [Eo L2]. destruct (gk_range _ Hg i Hin) as (_ & Hoc & _).
  pose proof (total_u32 _ k U2 ltac:(lia)) as X2. unfold is_u32 in X2.
  assert (OperandCounts p' !!! k = OperandCounts p !!! i) as EO by (rewrite E5; by apply row_at).
  unfold validateSlotRow. rewrite E8, (row_at ord _ k i Hi), (Hflags i Hin). rewrite u64_small by (unfold is_u64; lia). rewrite (proj2 (Z.ltb_ge _ _)) by lia. simpl.
  rewrite Eo. apply forallb_forall. intros o' Ho'. unfold renamedOperands in Ho'. apply in_map_iff in Ho' as (o & <- & Ho%list_elem_of_In).
  destruct (rename_ok p st ord Hinv Hlen k i o Hi Ho) as [Hro _]. by rewrite (proj2 (Z.eqb_neq _ 0)), (proj2 (Z.leb_gt _ _)) by lia.
Qed.

Lemma reorders_noDeadCode : noDeadCode p → noDeadCode p'.
Proof.
  destruct (rd_columns _ _ _ _ Hr) as (E1 & _ & _ & _ & _ & _ & _ & E8 & _). intros Hlive k Hk. assert (length (Opcodes p') = n) as En by (by rewrite E1, length_map).
  rewrite En in *. destruct (old_row k Hk) as (i & Hi & Hin). destruct (new_row i Hin) as (k' & Hk' & _ & Erk).
  assert (k' = k) as -> by (eapply NoDup_lookup; [apply Hinv|done|done]).
  destruct (Hlive i Hin) as [Hf|(j & Hj & Hc & Ho)]; [left; by rewrite E8, (row_at ord _ k i Hi)|]. right.
  destruct (new_row j Hj) as (kj & Hkj & Hkn & _). exists kj. split; [done|]. split.
  - unfold carriesReasons in *. by rewrite E1, (row_at ord _ kj j Hkj).
  - destruct (rd_operands _ _ _ _ Hr kj j Hkj) as [-> _]. rewrite <-Erk. unfold renamedOperands. by apply list_elem_of_fmap_2.
Qed.
End meaning.

(** ** Scheduling succeeds *)

Lemma validateSlotProgram_inv p : validateSlotProgram p = Ok tt →
  validateScheduleColumns p = Ok tt ∧ ∀ i, (i < length (Opcodes p))%nat → Z.ldiff (RootFlags p !!! i) knownRootFlags = 0.
Proof.
  unfold validateSlotProgram. intros ([] & _ & Hv)%go_bind_inv. apply go_bind_inv in Hv as ([] & Hc & Hrows%check_inv). split; [done|].
  intros i Hi. pose proof (forallb_seq _ _ i Hrows Hi) as Hr. unfold validateSlotRow in Hr. apply andb_true_iff in Hr as [Hr _]. apply andb_true_iff in Hr as [Hr _].
  by rewrite negb_involutive in Hr; apply Z.eqb_eq in Hr.
Qed.

Lemma scheduleInstructions_ok p :
  schedule_typed p → validateSlotProgram p = Ok tt → zlen (Opcodes p) < MaxUint32 → Opcodes p ≠ [] →
  ∃ p' st ord rs, scheduleInstructions p = Ok p' ∧ orderInv p ord (left p ord) st ∧ length ord = length (Opcodes p) ∧ reorders p st ord p' ∧
    runsOk p rs ord (runOpcodes st) (runStarts st) (runCounts st).
Proof.
  intros Ht Hv Hsize Hne. pose proof (validateSlotProgram_ok p (sy_slots _ Ht) Hv) as Hg. destruct (validateSlotProgram_inv p Hv) as [Hc _].
  pose proof (validateScheduleColumns_ok p Ht Hc) as Hcols. unfold scheduleInstructions. rewrite check_true by (apply negb_true_iff, Z.leb_gt; lia).
  rewrite Hc, go_bind_Ok, bool_decide_eq_false_2 by done. destruct (buildScheduleUsers_ok p Hg Ht) as (g & -> & Hu). rewrite go_bind_Ok.
  destruct (buildScheduleOrder_ok p Hg Hsize (λ i Hi, proj1 (co_rows _ Hcols i Hi)) g Hu) as (ord & rs & st & -> & Hinv & Hruns & Hlen). rewrite go_bind_Ok.
  destruct (permuteScheduledInstructions_ok p Hg Ht Hcols Hsize st ord Hinv Hlen) as (p' & E & Hr). by exists p', st, ord, rs.
Qed.

(** Slots have no meaning. *)
Lemma denoteAll_slots p s b reasons n r : denoteAll (with_slots p s) b reasons n r = denoteAll p b reasons n r.
Proof. induction n as [|n IH]; simpl; [done|]. by rewrite IH. Qed.

Lemma denote_slots p s b reasons i r : denote (with_slots p s) b reasons i r = denote p b reasons i r.
Proof. unfold denote. by rewrite denoteAll_slots. Qed.

(** The program of an empty schedule keeps its columns. *)
Lemma scheduleInstructions_nil p : validateScheduleColumns p = Ok tt → Opcodes p = [] →
  ∃ p', scheduleInstructions p = Ok p' ∧ validateSlotProgram p' = validateSlotProgram p ∧ Opcodes p' = [] ∧ NodeInstructionIDs p' = NodeInstructionIDs p ∧
    (slots_typed p → slots_typed p') ∧ (noDeadCode p → noDeadCode p') ∧ OpcodeRunOpcodes p' = [] ∧ OpcodeRunStarts p' = [] ∧ OpcodeRunCounts p' = [] ∧
    NodeInstructionStarts p' = NodeInstructionStarts p ∧ NodeInstructionCounts p' = NodeInstructionCounts p.
Proof.
  intros Hc He. unfold scheduleInstructions. rewrite check_true by (rewrite He; done). rewrite Hc, go_bind_Ok, bool_decide_eq_true_2 by done.
  eexists. split; [done|]. split; [done|]. split; [exact He|]. split; [done|]. split; [intros []; by split|]. split_and!; done.
Qed.

(** ** The node map *)

Lemma node_id_row p : schedule_typed p → columnsOk p → ∀ j id, NodeInstructionIDs p !! j = Some id →
  (Z.to_nat (id - 1) < length (Opcodes p))%nat ∧ id = Z.of_nat (Z.to_nat (id - 1)) + 1.
Proof.
  intros Ht Hcols j id Hj. pose proof (co_nodes _ Hcols) as Hn. pose proof (sy_nodes _ Ht) as Hu. rewrite Forall_lookup in Hn, Hu.
  destruct (Hn j id Hj). specialize (Hu j id Hj). unfold is_u32 in Hu. lia.
Qed.

Lemma reorders_nodes p st ord : orderInv p ord (left p ord) st → length ord = length (Opcodes p) → ∀ p', reorders p st ord p' → schedule_typed p → columnsOk p →
  ∀ j id, NodeInstructionIDs p !! j = Some id → ∃ k, NodeInstructionIDs p' !! j = Some (Z.of_nat k + 1) ∧ ord !! k = Some (Z.to_nat (id - 1)).
Proof.
  intros Hinv Hlen p' Hr Ht Hcols j id Hj. destruct (node_id_row p Ht Hcols j id Hj) as [Hlt Eid]. destruct (new_row p st ord Hinv Hlen _ Hlt) as (k & Hk & _ & Ek).
  rewrite <-Eid in Ek. exists k. split; [|done]. rewrite (rd_nodes _ _ _ _ Hr), <-Ek. apply list_lookup_fmap_Some. by exists id.
Qed.

(** ** Scheduling, slots and execution composed *)

Lemma backend_ok {ops : SimdOps} {laws : SimdLaws ops} (p : Program) (mode : slotMode) :
  schedule_typed p → validateSlotProgram p = Ok tt → zlen (Opcodes p) < MaxUint32 → noDeadCode p →
  ∃ p' ord s, scheduleInstructions p = Ok p' ∧ ord ≡ₚ seq 0 (length (Opcodes p)) ∧ assignSlots p' mode = Ok s ∧
    (NodeInstructionStarts p' = NodeInstructionStarts p ∧ NodeInstructionCounts p' = NodeInstructionCounts p ∧
      length (NodeInstructionIDs p') = length (NodeInstructionIDs p)) ∧
    (∀ j id, NodeInstructionIDs p !! j = Some id → ∃ k, NodeInstructionIDs p' !! j = Some (Z.of_nat k + 1) ∧ ord !! k = Some (Z.to_nat (id - 1))) ∧
    ∀ b env xmode st, exec_ok (with_slots p' s) b env →
      truthGood (with_slots p' s) (Rows b) (truthWords st) → reasonGood (with_slots p' s) (Rows b) (reasonWords st) →
      ∃ st', executeScheduleMode env (with_slots p' s) b xmode st = Ok st' ∧
        ∀ k i r, ord !! k = Some i → RootFlags p !!! i ≠ 0 → Z.of_nat r < Rows b →
          let v := denote p b (stateReasons (states env)) i r in
          readTruth (Rows b) (truthWords st') (TruthSlots s !!! k) r = v.1 ∧
          ∀ reason, Reason.validReason reason → readReason (Rows b) (reasonWords st') (ReasonSlots s !!! k) (reason, r) = Reason.Has v.2 reason.
Proof.
  intros Ht Hv Hsize Hlive. destruct (validateSlotProgram_inv p Hv) as [Hc Hflags]. pose proof (validateScheduleColumns_ok p Ht Hc) as Hcols.
  pose proof (validateSlotProgram_ok p (sy_slots _ Ht) Hv) as Hg. destruct (decide (Opcodes p = [])) as [He|Hne].
  - destruct (scheduleInstructions_nil p Hc He) as (p' & E & Ev & Eo & En0 & Es & El & _ & _ & _ & En1 & En2). rewrite <-Ev in Hv.
    destruct (assignSlots_ok p' mode) as (s & Ea & Has); [apply Es, Ht|done|by apply El|]. exists p', [], s. rewrite He. split_and!; try done.
    { by rewrite En0. }
    { intros j id Hj. destruct (node_id_row p Ht Hcols j id Hj) as [Hlt _]. rewrite He in Hlt. simpl in Hlt. lia. }
    intros b env xmode st Hx Htg Hrg. destruct (executeSchedule_inv (with_slots p' s) b env xmode Hx st (as_operands _ _ Has) ltac:(by split)) as (st' & HE & _).
    exists st'. split; [done|]. intros k i r Hk. by rewrite lookup_nil in Hk.
  - destruct (scheduleInstructions_ok p Ht Hv Hsize Hne) as (p' & st & ord & rs & E & Hinv & Hlen & Hr & _). destruct (rd_columns _ _ _ _ Hr) as (E1 & _ & _ & _ & _ & _ & _ & E8 & _).
    destruct (assignSlots_ok p' mode) as (s & Ea & Has);
      [by apply (reorders_slots_typed p Hg st ord Hinv p' Hr Ht)|by apply (reorders_valid p Hg Hcols st ord Hinv Hlen p' Hr Ht Hsize)|by apply (reorders_noDeadCode p st ord Hinv Hlen p' Hr)|].
    exists p', ord, s. split; [done|]. split; [by apply (order_perm p st)|]. split; [done|].
    split; [destruct (rd_ranges _ _ _ _ Hr) as [-> ->]; by rewrite (rd_nodes _ _ _ _ Hr), length_map|].
    split; [by apply (reorders_nodes p st ord Hinv Hlen p' Hr Ht Hcols)|]. intros b env xmode xs Hx Htg Hrg.
    destruct (executeSchedule_inv (with_slots p' s) b env xmode Hx xs (as_operands _ _ Has) ltac:(by split)) as (st' & HE & _ & Hit & Hir).
    exists st'. split; [done|]. intros k i r Hk Hroot Hrow v. destruct (order_row p st ord Hinv Hlen k i Hk) as [Hkn _].
    assert (length (Opcodes p') = length (Opcodes p)) as En by (by rewrite E1, length_map).
    destruct (as_roots _ _ Has k) as [K1 K2]; [lia|by rewrite E8, (row_at ord _ k i Hk)|].
    assert (denote (with_slots p' s) b (stateReasons (states env)) k r = v) as Hd.
    { rewrite denote_slots. by apply (reorders_denote p Hg Hcols st ord Hinv Hlen p' Hr). }
    rewrite <-Hd. split; [by apply Hit; [simpl; lia|done..]|]. intros reason Hre. by apply (Hir k ltac:(simpl; lia) K2 (reason, r)).
Qed.

(** ** Properties *)

(** C17: scheduling preserves meaning: on a validated graph in definition order it
    succeeds; the new rows are a permutation of the old ones with the same opcode,
    root flags and source node, operands stand before their consumers, every node
    is mapped to the new row of its instruction, and on every batch and
    request row each instruction denotes the same truth value and reasons. *)
Theorem scheduling_preserves_meaning (p : Program) :
  schedule_typed p → validateSlotProgram p = Ok tt → zlen (Opcodes p) < MaxUint32 →
  ∃ p' ord, scheduleInstructions p = Ok p' ∧ ord ≡ₚ seq 0 (length (Opcodes p)) ∧ validateSlotProgram p' = Ok tt ∧
    (∀ k i, ord !! k = Some i →
       Opcodes p' !!! k = Opcodes p !!! i ∧ RootFlags p' !!! k = RootFlags p !!! i ∧ InstructionNodes p' !!! k = InstructionNodes p !!! i ∧
       (∀ o, o ∈ operandsOf p' k → 1 ≤ o ≤ Z.of_nat k) ∧ ∀ b reasons r, denote p' b reasons k r = denote p b reasons i r) ∧
    (∀ j id, NodeInstructionIDs p !! j = Some id → ∃ k, NodeInstructionIDs p' !! j = Some (Z.of_nat k + 1) ∧ ord !! k = Some (Z.to_nat (id - 1))).
Proof.
  intros Ht Hv Hsize. destruct (validateSlotProgram_inv p Hv) as [Hc Hflags]. pose proof (validateScheduleColumns_ok p Ht Hc) as Hcols.
  pose proof (node_id_row p Ht Hcols) as Hnode.
  destruct (decide (Opcodes p = [])) as [He|Hne].
  - destruct (scheduleInstructions_nil p Hc He) as (p' & E & Ev & _). exists p', []. rewrite He, Ev. split_and!; [done|done|done| |].
    + intros k i Hk. by rewrite lookup_nil in Hk.
    + intros j id Hj. destruct (Hnode j id Hj) as [Hlt _]. rewrite He in Hlt. simpl in Hlt. lia.
  - destruct (scheduleInstructions_ok p Ht Hv Hsize Hne) as (p' & st & ord & rs & E & Hinv & Hlen & Hr & _).
    pose proof (validateSlotProgram_ok p (sy_slots _ Ht) Hv) as Hg. exists p', ord. split; [done|]. split; [by apply (order_perm p st)|].
    split; [by apply (reorders_valid p Hg Hcols st ord Hinv Hlen p' Hr Ht Hsize)|]. destruct (rd_columns _ _ _ _ Hr) as (E1 & _ & _ & _ & _ & _ & _ & E8 & E9 & _). split.
    + intros k i Hk. rewrite E1, E8, E9, !(row_at ord _ k i Hk). split_and!; [done|done|done| |].
      * intros o' Ho'. destruct (rd_operands _ _ _ _ Hr k i Hk) as [Eo _]. rewrite Eo in Ho'. apply list_elem_of_fmap in Ho' as (o & -> & Ho).
        by destruct (rename_ok p st ord Hinv Hlen k i o Hk Ho).
      * intros b reasons r. by apply (reorders_denote p Hg Hcols st ord Hinv Hlen p' Hr).
    + by apply (reorders_nodes p st ord Hinv Hlen p' Hr Ht Hcols).
Qed.

(** The opcode runs of a scheduled program tile its rows: they are not empty, each
    starts where the one before ends, all rows of a run have its opcode, and
    neighbouring runs have different opcodes, so no run could be longer. *)
Theorem scheduled_opcode_runs (p : Program) :
  schedule_typed p → validateSlotProgram p = Ok tt → zlen (Opcodes p) < MaxUint32 →
  ∃ p', scheduleInstructions p = Ok p' ∧ total (OpcodeRunCounts p') = zlen (Opcodes p') ∧
    length (OpcodeRunStarts p') = length (OpcodeRunOpcodes p') ∧ length (OpcodeRunCounts p') = length (OpcodeRunOpcodes p') ∧
    ∀ k, (k < length (OpcodeRunOpcodes p'))%nat →
      OpcodeRunStarts p' !!! k = total (take k (OpcodeRunCounts p')) ∧ 0 < OpcodeRunCounts p' !!! k ∧
      (∀ row : nat, OpcodeRunStarts p' !!! k ≤ Z.of_nat row < OpcodeRunStarts p' !!! k + OpcodeRunCounts p' !!! k → Opcodes p' !!! row = OpcodeRunOpcodes p' !!! k) ∧
      ((S k < length (OpcodeRunOpcodes p'))%nat → OpcodeRunOpcodes p' !!! S k ≠ OpcodeRunOpcodes p' !!! k).
Proof.
  intros Ht Hv Hsize. destruct (validateSlotProgram_inv p Hv) as [Hc _]. destruct (decide (Opcodes p = [])) as [He|Hne].
  { destruct (scheduleInstructions_nil p Hc He) as (p' & E & _ & Eo & _ & _ & _ & R1 & R2 & R3 & _). exists p'. rewrite Eo, R1, R2, R3. split_and!; try done. intros k Hk. simpl in Hk. lia. }
  destruct (scheduleInstructions_ok p Ht Hv Hsize Hne) as (p' & st & ord & rs & E & Hinv & Hlen & Hr & [-> Ro Rc Rs Hrows Hmax]).
  destruct (rd_runs _ _ _ _ Hr) as (F1 & F2 & F3). destruct (rd_columns _ _ _ _ Hr) as (E1 & _). exists p'. split; [done|]. rewrite F1, F2, F3, Ro, Rc, Rs.
  assert (∀ l : list (Z * list nat), total (map (λ r, zlen r.2) l) = zlen (concat (map snd l))) as Htot.
  { induction l as [|r l IH]; [done|]. unfold total in *. simpl. rewrite length_app, IH. lia. }
  split; [rewrite Htot, E1, length_map; done|]. rewrite !length_map, length_seq. split; [done|]. split; [done|]. intros k Hk.
  destruct (lookup_lt_is_Some_2 rs k Hk) as [[op rows] Ek]. rewrite Forall_lookup in Hrows. destruct (Hrows k _ Ek) as [Hnil Hall]. simpl in Hnil, Hall.
  assert (map fst rs !!! k = op) as -> by (apply list_lookup_total_correct, list_lookup_fmap_Some; by exists (op, rows)).
  assert (map (λ r, zlen r.2) rs !!! k = zlen rows) as -> by (apply list_lookup_total_correct, list_lookup_fmap_Some; by exists (op, rows)).
  rewrite map_seq_lookup_total by done. split; [by rewrite firstn_map, Htot|]. split; [destruct rows; [done|simpl; lia]|]. split.
  - intros row Hrow. rewrite E1. destruct (lookup_lt_is_Some_2 rows (row - length (concat (map snd (take k rs))))) as [i Hi]; [lia|].
    erewrite row_at; [apply (proj1 (Forall_lookup _ _) Hall _ i Hi)|]. rewrite <-(take_drop_middle rs k _ Ek) at 1.
    rewrite map_app, concat_app, lookup_app_r by lia. simpl. rewrite lookup_app_l by lia. exact Hi.
  - intros HS. destruct (lookup_lt_is_Some_2 rs (S k) HS) as [r' Ek']. assert (map fst rs !!! S k = r'.1) as -> by (apply list_lookup_total_correct, list_lookup_fmap_Some; by exists r').
    intros Heq. by apply (Hmax k _ _ Ek Ek').
Qed.

(** C16: the compiler's back end is correct: a validated graph without dead code is
    scheduled and given slots, and executing the result, in any mode and with any
    lawful SIMD backend, leaves in the slots of every root, on every request row, the
    truth value and the reasons that the root denotes in the graph before scheduling. *)
Theorem backend_preserves_meaning {ops : SimdOps} {laws : SimdLaws ops} (p : Program) (mode : slotMode) :
  schedule_typed p → validateSlotProgram p = Ok tt → zlen (Opcodes p) < MaxUint32 → noDeadCode p →
  ∃ p' ord s, scheduleInstructions p = Ok p' ∧ ord ≡ₚ seq 0 (length (Opcodes p)) ∧ assignSlots p' mode = Ok s ∧
    ∀ b env xmode st, exec_ok (with_slots p' s) b env →
      truthGood (with_slots p' s) (Rows b) (truthWords st) → reasonGood (with_slots p' s) (Rows b) (reasonWords st) →
      ∃ st', executeScheduleMode env (with_slots p' s) b xmode st = Ok st' ∧
        ∀ k i r, ord !! k = Some i → RootFlags p !!! i ≠ 0 → Z.of_nat r < Rows b →
          let v := denote p b (stateReasons (states env)) i r in
          readTruth (Rows b) (truthWords st') (TruthSlots s !!! k) r = v.1 ∧
          ∀ reason, Reason.validReason reason → readReason (Rows b) (reasonWords st') (ReasonSlots s !!! k) (reason, r) = Reason.Has v.2 reason.
Proof.
  intros Ht Hv Hsize Hlive. destruct (backend_ok p mode Ht Hv Hsize Hlive) as (p' & ord & s & E & Hp & Ea & _ & _ & Hx). by exists p', ord, s.
Qed.
