(* ===== verification/SymbolTable.v ===== *)
(** * Open-address symbol tables

    Three tables of the repository share one hash and one probe sequence: the
    interner of schema/symbols.go, the frozen table of a program
    (program/program.go, compile/normalize.go) and the lowering table of
    compile/normalize.go.  This file holds the hash, the probe loop and the
    invariant of a table, [table_ok], with what a probe concludes from it, and
    [SymbolSpace], the interface the batch builder sees. *)

From S2P Require Import Prelude Program.

Abbreviation bytes := (list Z).

(** ** HashSymbol *)

Definition fnvOffset : Z := 14695981039346656037.
Definition fnvPrime : Z := 1099511628211.

Definition HashSymbol (b : bytes) : Z := foldl (λ h c, u64 (Z.lxor h c * fnvPrime)) fnvOffset b.

(** ** The probe loop

    [for { id := ids[slot]; if id == 0 { break }; if hit { return id };
    slot = (slot + 1) & mask }], over at most [fuel] slots. *)

Inductive probe := Found (id : Z) | Empty (slot : Z) | Full.

Fixpoint probeFrom (ids : list Z) (hit : Z → Z → go bool) (fuel : nat) (slot : Z) : go probe :=
  match fuel with
  | O => Ok Full
  | S fuel =>
      id ← at_ ids slot;
      if id =? 0 then Ok (Empty slot) else
      found ← (hit slot id : go bool);
      if (found : bool) then Ok (Found id) else
      probeFrom ids hit fuel (Z.land (slot + 1) (zlen ids - 1))
  end.

(** ** Slots of a power-of-two table *)

(** [n & (n-1) == 0] is the test for a power of two. *)
Lemma pow2_log2 n : 0 < n → Z.land n (n - 1) = 0 → n = 2 ^ Z.log2 n.
Proof.
  intros Hn Hp. destruct (Z.log2_spec n Hn) as [Hlo Hhi].
  destruct (decide (n = 2 ^ Z.log2 n)) as [|Hne]; [done|exfalso].
  assert (Z.testbit (Z.land n (n - 1)) (Z.log2 n) = true) as Hb; [|by rewrite Hp, Z.testbit_0_l in Hb].
  rewrite Z.land_spec, Z.bit_log2 by done. simpl. pose proof (Z.log2_nonneg n).
  pose proof (Z.pow_pos_nonneg 2 (Z.log2 n)).
  assert (Z.log2 (n - 1) = Z.log2 n) as <-; [apply Z.log2_unique; lia|apply Z.bit_log2; lia].
Qed.

Lemma land_pow2 n x : Z.land n (n - 1) = 0 → 0 < n → Z.land x (n - 1) = x mod n.
Proof.
  intros Hp Hn. rewrite (pow2_log2 n) by done. pose proof (Z.log2_nonneg n).
  replace (2 ^ Z.log2 n - 1) with (Z.ones (Z.log2 n)) by (rewrite Z.ones_equiv; lia).
  by apply Z.land_ones.
Qed.

Lemma pow2_land k : 0 ≤ k → Z.land (2 ^ k) (2 ^ k - 1) = 0.
Proof.
  intros Hk. replace (2 ^ k - 1) with (Z.ones k) by (rewrite Z.ones_equiv; lia).
  rewrite Z.land_ones by done. apply Z.mod_same. pose proof (Z.pow_pos_nonneg 2 k). lia.
Qed.

Lemma pow2_double n : 0 < n → Z.land n (n - 1) = 0 → Z.land (n * 2) (n * 2 - 1) = 0.
Proof.
  intros Hn Hp. rewrite (pow2_log2 n) by done. pose proof (Z.log2_nonneg n).
  replace (2 ^ Z.log2 n * 2) with (2 ^ (Z.log2 n + 1)) by (rewrite Z.pow_add_r; lia). apply pow2_land. lia.
Qed.

Lemma pow2_even n : 1 < n → Z.land n (n - 1) = 0 → ∃ m, n = 2 * m.
Proof.
  intros Hn Hp. pose proof (Z.log2_pos n Hn). exists (2 ^ (Z.log2 n - 1)).
  rewrite <-Z.pow_succ_r by lia. rewrite (pow2_log2 n) at 1 by (done || lia). f_equal. lia.
Qed.

(** A table of a power-of-two number of slots. *)
Definition pow2_table (ids : list Z) : Prop := 0 < zlen ids ∧ Z.land (zlen ids) (zlen ids - 1) = 0.

(** The [d]-th slot of the probe sequence of hash [h]. *)
Definition slotAt (ids : list Z) (h : Z) (d : nat) : nat := Z.to_nat ((h + Z.of_nat d) mod zlen ids).

(** Every slot probed before the [d]-th is occupied. *)
Definition crowded (ids : list Z) (h : Z) (d : nat) : Prop :=
  ∀ j, (j < d)%nat → ∃ id, ids !! slotAt ids h j = Some id ∧ id ≠ 0.

Definition reachable (ids : list Z) (h : Z) (s : nat) : Prop :=
  ∃ d, (d < length ids)%nat ∧ s = slotAt ids h d ∧ crowded ids h d.

Lemma slotAt_lt ids h d : 0 < zlen ids → (slotAt ids h d < length ids)%nat.
Proof. intros. unfold slotAt. pose proof (Z.mod_pos_bound (h + Z.of_nat d) (zlen ids)). lia. Qed.

Lemma slotAt_next ids h d :
  pow2_table ids → Z.land (Z.of_nat (slotAt ids h d) + 1) (zlen ids - 1) = Z.of_nat (slotAt ids h (S d)).
Proof.
  intros [Hn Hp]. rewrite land_pow2 by done. unfold slotAt.
  rewrite !Z2Nat.id by (apply Z.mod_pos_bound; lia).
  rewrite Zplus_mod_idemp_l. f_equal. lia.
Qed.

Lemma slotAt_home ids h : pow2_table ids → Z.land h (zlen ids - 1) = Z.of_nat (slotAt ids h 0).
Proof.
  intros [Hn Hp]. rewrite land_pow2 by done. unfold slotAt.
  rewrite Z2Nat.id by (apply Z.mod_pos_bound; lia). f_equal. lia.
Qed.

(** A probe sequence visits every slot. *)
Lemma slotAt_onto ids h s : (s < length ids)%nat → ∃ d, (d < length ids)%nat ∧ s = slotAt ids h d.
Proof.
  intros Hs. set (n := zlen ids).
  exists (Z.to_nat ((Z.of_nat s - h) mod n)). pose proof (Z.mod_pos_bound (Z.of_nat s - h) n ltac:(lia)).
  split; [lia|]. unfold slotAt. fold n. rewrite Z2Nat.id by lia.
  rewrite Zplus_mod_idemp_r. replace (h + (Z.of_nat s - h)) with (Z.of_nat s) by lia.
  rewrite Z.mod_small by lia. lia.
Qed.

(** Positions of the sequence that share a slot are a whole table apart. *)
Lemma slotAt_near ids h a b :
  (b < length ids)%nat → (a < 2 * length ids)%nat → slotAt ids h a = slotAt ids h b → a = b ∨ a = (b + length ids)%nat.
Proof.
  unfold slotAt. intros Hb Ha E. set (n := zlen ids) in *.
  pose proof (Z.mod_pos_bound (h + Z.of_nat a) n ltac:(lia)). pose proof (Z.mod_pos_bound (h + Z.of_nat b) n ltac:(lia)).
  assert ((h + Z.of_nat a) mod n = (h + Z.of_nat b) mod n) as E' by lia.
  pose proof (Z.div_mod (h + Z.of_nat a) n). pose proof (Z.div_mod (h + Z.of_nat b) n).
  set (q := (h + Z.of_nat a) / n) in *. set (q' := (h + Z.of_nat b) / n) in *.
  assert (Z.of_nat a - Z.of_nat b = n * (q - q')) as Hd by lia.
  assert (q - q' = 0 ∨ q - q' = 1) as [Hq|Hq]; [nia|left|right]; rewrite Hq in Hd; lia.
Qed.

Lemma slotAt_shift ids h k j : 0 < zlen ids → slotAt ids (h + Z.of_nat k) j = slotAt ids h (k + j).
Proof. intros. unfold slotAt. do 2 f_equal. lia. Qed.

(** What the loop concludes: the first slot that is empty or hit, or none. *)
Lemma probeFrom_spec ids hit P h fuel d :
  pow2_table ids → (∀ s id, ids !! s = Some id → id ≠ 0 → ∃ b, hit (Z.of_nat s) id = Ok b ∧ (b = true ↔ P id)) →
  crowded ids h d → (∀ j id, (j < d)%nat → ids !! slotAt ids h j = Some id → ¬ P id) →
  ∃ e r, probeFrom ids hit fuel (Z.of_nat (slotAt ids h d)) = Ok r ∧ (d ≤ e ≤ d + fuel)%nat ∧ crowded ids h e ∧
    (∀ j id, (j < e)%nat → ids !! slotAt ids h j = Some id → ¬ P id) ∧
    match r with
    | Full => e = (d + fuel)%nat
    | Empty s => s = Z.of_nat (slotAt ids h e) ∧ (e < d + fuel)%nat ∧ ids !! slotAt ids h e = Some 0
    | Found id => (e < d + fuel)%nat ∧ ids !! slotAt ids h e = Some id ∧ id ≠ 0 ∧ P id
    end.
Proof.
  intros Ht Hhit. revert d. induction fuel as [|fuel IH]; intros d Hc Hn.
  { exists d, Full. simpl. split_and!; try done; lia. }
  destruct (lookup_lt_is_Some_2 ids (slotAt ids h d)) as [id Hid]; [by apply slotAt_lt, Ht|].
  simpl. rewrite (at_nat _ _ _ Hid). simpl. destruct (Z.eqb_spec id 0) as [->|Hne].
  { exists d, (Empty (Z.of_nat (slotAt ids h d))). split_and!; try done; lia. }
  destruct (Hhit _ _ Hid Hne) as ([] & -> & Hb); simpl.
  { exists d, (Found id). split_and!; try done; [lia..|]. by apply Hb. }
  rewrite slotAt_next by done. destruct (IH (S d)) as (e & r & Hr & He & Hce & Hne' & Hm).
  - intros j Hj. destruct (decide (j = d)) as [->|]; [by exists id|]. apply Hc. lia.
  - intros j id' Hj. destruct (decide (j = d)) as [->|]; [|apply Hn; lia].
    rewrite Hid. intros [= <-] HP. apply Hb in HP. done.
  - exists e, r. split; [done|]. split; [lia|]. split; [done|]. split; [done|].
    destruct r; naive_solver lia.
Qed.

(** ** The table invariant

    Keys of any type with a hash: spellings here, literals and instruction
    candidates in the lowering tables. *)

Class Hashed (K : Type) := hash_of : K → Z.
#[global] Instance bytes_hashed : Hashed bytes := HashSymbol.

Section table.
Context {K : Type} `{EqDecision K} {hashed : Hashed K}.

(** Occupied slots hold known, pairwise distinct IDs, each on its key's probe
    sequence behind occupied slots only; every known ID has a slot. *)
Record table_ok (ids : list Z) (key : Z → option K) : Prop := {
  tb_pow2 : pow2_table ids;
  tb_reach s id : ids !! s = Some id → id ≠ 0 → ∃ b, key id = Some b ∧ reachable ids (hash_of b) s;
  tb_cover id b : key id = Some b → id ≠ 0 ∧ ∃ s, ids !! s = Some id;
  tb_inj s s' id : ids !! s = Some id → ids !! s' = Some id → id ≠ 0 → s = s'
}.

#[global] Instance table_ok_proper ids : Proper (pointwise_relation Z (=) ==> iff) (table_ok ids).
Proof.
  assert (∀ k k', pointwise_relation Z (=) k k' → table_ok ids k → table_ok ids k') as Hgen.
  { intros k k' E [Hp Hr Hc Hi]. split; [done| | |done].
    - intros s id. rewrite <-(E id). apply Hr.
    - intros id b. rewrite <-(E id). apply Hc. }
  intros k k' E. split; apply Hgen; [done|]. intros id. symmetry. apply E.
Qed.

(** [hit] decides whether the key of an occupied slot is [b]. *)
Definition hits (ids : list Z) (key : Z → option K) (b : K) (hit : Z → Z → go bool) : Prop :=
  ∀ s id, ids !! s = Some id → id ≠ 0 → hit (Z.of_nat s) id = Ok (bool_decide (key id = Some b)).

(** A probe of the whole table decides membership. *)
Lemma probe_table ids key b hit :
  table_ok ids key → hits ids key b hit →
  ∃ r, probeFrom ids hit (length ids) (Z.land (hash_of b) (zlen ids - 1)) = Ok r ∧
    match r with
    | Found id => key id = Some b
    | Empty s => ∃ s', s = Z.of_nat s' ∧ ids !! s' = Some 0 ∧ reachable ids (hash_of b) s' ∧ ∀ id, key id ≠ Some b
    | Full => 0 ∉ ids ∧ ∀ id, key id ≠ Some b
    end.
Proof.
  intros Ht Hhit. pose proof (tb_pow2 _ _ Ht) as Hp. rewrite slotAt_home by done.
  destruct (probeFrom_spec ids hit (λ id, key id = Some b) (hash_of b) (length ids) 0) as (e & r & Hr & He & Hc & Hn & Hm);
    [done| |intros ?; lia|intros ??; lia|].
  { intros s id Hs Hid. eexists. rewrite (Hhit s id) by done. split; [done|]. apply bool_decide_eq_true. }
  (* a known key equal to [b] would have been hit before the probe stopped *)
  assert (∀ id, key id = Some b → ∃ d, (e ≤ d < length ids)%nat ∧ ids !! slotAt ids (hash_of b) d = Some id ∧
            id ≠ 0 ∧ crowded ids (hash_of b) d) as Hfar.
  { intros id Hk. destruct (tb_cover _ _ Ht id b Hk) as (Hid & s & Hs).
    destruct (tb_reach _ _ Ht s id Hs Hid) as (b' & Hk' & d & Hd & -> & Hcd). simplify_eq.
    exists d. split_and!; try done. destruct (decide (d < e)%nat); [|lia]. by destruct (Hn d id). }
  exists r. split; [done|]. destruct r as [id|s|]; [by apply Hm| |].
  - destruct Hm as (-> & Hlt & H0). eexists. split_and!; [done|done|by exists e; split_and!|].
    intros id (d & Hd & Hs & Hid & Hcd)%Hfar. destruct (decide (d = e)) as [->|]; [congruence|].
    destruct (Hcd e) as (? & ? & ?); [lia|congruence].
  - simpl in Hm. subst e. split.
    + intros [s H0]%list_elem_of_lookup. destruct (slotAt_onto ids (hash_of b) s) as (d & Hd & ->).
      { by eapply lookup_lt_Some. }
      destruct (Hc d) as (? & ? & ?); [lia|congruence].
    + intros id (d & Hd & _)%Hfar. lia.
Qed.

(** A table with more slots than known IDs has an empty slot. *)
Lemma table_has_empty ids key (known : list Z) :
  table_ok ids key → (∀ id b, key id = Some b → id ∈ known) → (length known < length ids)%nat → 0 ∈ ids.
Proof.
  intros Ht Hk Hlen. destruct (decide (0 ∈ ids)) as [|Hno]; [done|exfalso].
  assert (NoDup ids) as Hnd.
  { apply NoDup_alt. intros i j x Hi Hj. eapply (tb_inj _ _ Ht); [done..|]. intros ->. apply Hno. by eapply list_elem_of_lookup_2. }
  assert (ids ⊆ known) as Hsub.
  { intros id Hid. pose proof Hid as [s Hs]%list_elem_of_lookup.
    destruct (tb_reach _ _ Ht s id Hs) as (b & Hb & _); [by intros ->|]. by eapply Hk. }
  pose proof (submseteq_length _ _ (NoDup_submseteq ids known Hnd Hsub)). lia.
Qed.

Lemma table_has_room ids key n :
  table_ok ids key → (∀ id b, key id = Some b → 1 ≤ id ≤ n) → n < zlen ids → 0 ∈ ids.
Proof.
  intros Ht Hk Hn. eapply (table_has_empty _ _ (map Z.of_nat (seq 1 (Z.to_nat n)))); [done| |].
  - intros id b E%Hk. apply list_elem_of_fmap. exists (Z.to_nat id). rewrite elem_of_seq. lia.
  - rewrite length_map, length_seq. destruct (tb_pow2 _ _ Ht). lia.
Qed.

(** ** Growing a table *)

Lemma table_ok_empty n : 0 < Z.of_nat n → Z.land (Z.of_nat n) (Z.of_nat n - 1) = 0 → table_ok (replicate n 0) (λ _, None).
Proof.
  intros Hn Hp. split; [by split; rewrite length_replicate| |done|].
  - by intros s id [-> _]%lookup_replicate.
  - by intros s s' id [-> _]%lookup_replicate.
Qed.

Lemma slotAt_insert ids s id h d : slotAt (<[s := id]> ids) h d = slotAt ids h d.
Proof. unfold slotAt. by rewrite length_insert. Qed.

(** Filling an empty slot keeps every probe sequence crowded. *)
Lemma crowded_insert ids s id h d : id ≠ 0 → crowded ids h d → crowded (<[s := id]> ids) h d.
Proof.
  intros Hid Hc j Hj. rewrite slotAt_insert. destruct (Hc j Hj) as (id' & Hl & Hne).
  destruct (decide (s = slotAt ids h j)) as [->|].
  - exists id. split; [|done]. apply list_lookup_insert_eq. by eapply lookup_lt_Some.
  - exists id'. split; [|done]. by rewrite list_lookup_insert_ne.
Qed.

Lemma reachable_insert ids s id h s' : id ≠ 0 → reachable ids h s' → reachable (<[s := id]> ids) h s'.
Proof.
  intros Hid (d & Hd & -> & Hc). exists d. rewrite length_insert, slotAt_insert.
  split_and!; [done..|by apply crowded_insert].
Qed.

(** Storing a new ID in an empty slot its key's probe sequence reaches. *)
Lemma table_insert ids key key' b s id :
  table_ok ids key → id ≠ 0 → key id = None → ids !! s = Some 0 → reachable ids (hash_of b) s →
  key' id = Some b → (∀ id', id' ≠ id → key' id' = key id') → table_ok (<[s := id]> ids) key'.
Proof.
  intros Ht Hid Hnew Hs Hr Hk Hk'. split.
  - unfold pow2_table. rewrite length_insert. apply Ht.
  - intros s' id' [(-> & <- & _)|(Hne & Hs')]%list_lookup_insert_Some Hid'.
    { exists b. split; [done|]. by apply reachable_insert. }
    destruct (tb_reach _ _ Ht s' id' Hs' Hid') as (b' & Hb' & Hr').
    exists b'. split; [|by apply reachable_insert]. rewrite Hk'; [done|]. congruence.
  - intros id' b' Hb'. destruct (decide (id' = id)) as [->|Hne].
    { split; [done|]. exists s. apply list_lookup_insert_eq. by eapply lookup_lt_Some. }
    rewrite Hk' in Hb' by done. destruct (tb_cover _ _ Ht id' b' Hb') as (H0 & s' & Hs'). split; [done|].
    exists s'. rewrite list_lookup_insert_ne; [done|]. congruence.
  - assert (∀ s', ids !! s' = Some id → False) as Hfresh.
    { intros s' Hs'. destruct (tb_reach _ _ Ht s' id Hs' Hid) as (? & ? & _). congruence. }
    intros s1 s2 id' [(<- & <- & _)|(? & H1)]%list_lookup_insert_Some [(<- & E & _)|(? & H2)]%list_lookup_insert_Some ?;
      simplify_eq; try done; [by destruct (Hfresh s2)|by destruct (Hfresh s1)|by eapply (tb_inj _ _ Ht)].
Qed.
End table.

(** The probe of a spelling. *)
Lemma probe_symbols ids key (b : bytes) hit :
  table_ok ids key → hits ids key b hit →
  ∃ r, probeFrom ids hit (length ids) (Z.land (HashSymbol b) (zlen ids - 1)) = Ok r ∧
    match r with
    | Found id => key id = Some b
    | Empty s => ∃ s', s = Z.of_nat s' ∧ ids !! s' = Some 0 ∧ reachable ids (HashSymbol b) s' ∧ ∀ id, key id ≠ Some b
    | Full => 0 ∉ ids ∧ ∀ id, key id ≠ Some b
    end.
Proof. apply probe_table. Qed.

(** ** What a symbol namespace promises its clients

    [find] is defined exactly on the spellings of the IDs [1..n], and inverts
    [text]. *)
Class SymbolSpace (find : bytes → option Z) (text : Z → option bytes) (n : Z) : Prop := {
  space_ids id : 0 ≤ id → is_Some (text id) ↔ 1 ≤ id ≤ n;
  space_find b id : find b = Some id ↔ 0 ≤ id ∧ text id = Some b
}.

Section space.
Context {find : bytes → option Z} {text : Z → option bytes} {n : Z} {space : SymbolSpace find text n}.

Lemma space_inj b id id' : 0 ≤ id → 0 ≤ id' → text id = Some b → text id' = Some b → id = id'.
Proof.
  intros H H' E E'. assert (find b = Some id ∧ find b = Some id') as [Hf Hf'] by (by rewrite !space_find). congruence.
Qed.

Lemma space_range b id : find b = Some id → 1 ≤ id ≤ n ∧ text id = Some b.
Proof. rewrite space_find. intros [H E]. split; [|done]. apply space_ids; [done|]. by exists b. Qed.

Lemma space_absent b id : find b = None → 0 ≤ id → text id ≠ Some b.
Proof. intros Hf Hid E. assert (find b = Some id) by (by apply space_find). congruence. Qed.
End space.

(** ** Keys numbered from one

    The IDs of a list of distinct keys. *)

Section numbered.
Context {K : Type} `{EqDecision K} {hashed : Hashed K}.

Definition nth_symbol (ks : list K) (id : Z) : option K := if id <=? 0 then None else ks !! Z.to_nat (id - 1).

Lemma nth_symbol_Some ks id b : nth_symbol ks id = Some b ↔ 1 ≤ id ∧ ks !! Z.to_nat (id - 1) = Some b.
Proof. unfold nth_symbol. destruct (Z.leb_spec id 0); naive_solver lia. Qed.

Lemma nth_symbol_range ks id b : nth_symbol ks id = Some b → 1 ≤ id ≤ zlen ks.
Proof. intros [? ?%lookup_lt_Some]%nth_symbol_Some. lia. Qed.

Lemma nth_symbol_app ks b id :
  nth_symbol (ks ++ [b]) id = if bool_decide (id = zlen ks + 1) then Some b else nth_symbol ks id.
Proof.
  unfold nth_symbol. destruct (Z.leb_spec id 0); [by rewrite bool_decide_eq_false_2 by lia|].
  case_bool_decide as E.
  - subst. apply list_lookup_middle. lia.
  - destruct (decide (id ≤ zlen ks)); [by rewrite lookup_app_l by lia|].
    rewrite !lookup_ge_None_2; [done|lia|]. rewrite length_app. simpl. lia.
Qed.

Lemma nth_symbol_inj ks id id' b : NoDup ks → nth_symbol ks id = Some b → nth_symbol ks id' = Some b → id = id'.
Proof.
  intros Hnd [? H1]%nth_symbol_Some [? H2]%nth_symbol_Some. pose proof (NoDup_lookup _ _ _ _ Hnd H1 H2). lia.
Qed.

Lemma nth_symbol_is_Some ks id : is_Some (nth_symbol ks id) ↔ 1 ≤ id ≤ zlen ks.
Proof.
  split; [intros [b Hb]; by eapply nth_symbol_range|]. intros Hid.
  destruct (lookup_lt_is_Some_2 ks (Z.to_nat (id - 1))) as [b Hb]; [lia|]. exists b. apply nth_symbol_Some. split; [lia|done].
Qed.

Lemma nth_symbol_absent ks b : (∀ id, nth_symbol ks id ≠ Some b) → b ∉ ks.
Proof.
  intros Hno [k Hk]%list_elem_of_lookup. apply (Hno (Z.of_nat k + 1)), nth_symbol_Some.
  split; [lia|]. by replace (Z.to_nat (Z.of_nat k + 1 - 1)) with k by lia.
Qed.

Lemma NoDup_snoc (ks : list K) b : NoDup ks → b ∉ ks → NoDup (ks ++ [b]).
Proof.
  intros Hd Hb. apply NoDup_app. split_and!; [done| |apply NoDup_singleton]. by intros x Hx ->%list_elem_of_singleton.
Qed.

(** Storing the next ID for a new spelling. *)
Lemma table_append ids ks b s :
  table_ok ids (nth_symbol ks) → ids !! s = Some 0 → reachable ids (hash_of b) s →
  table_ok (<[s := zlen ks + 1]> ids) (nth_symbol (ks ++ [b])).
Proof.
  intros Ht H0 Hre.
  eapply (table_insert _ (nth_symbol ks) _ b); [done|lia| |done|done|by rewrite nth_symbol_app, bool_decide_eq_true_2|].
  - destruct (nth_symbol ks (zlen ks + 1)) eqn:E; [|done]. apply nth_symbol_range in E. lia.
  - intros id' Hne. by rewrite nth_symbol_app, bool_decide_eq_false_2.
Qed.

Lemma table_ok_fresh n : 0 < n → Z.land n (n - 1) = 0 → table_ok (make_ n) (nth_symbol []).
Proof.
  intros Hn Hp. eapply table_ok_proper; [|apply (table_ok_empty (Z.to_nat n)); rewrite ?Z2Nat.id by lia; done].
  intros id. unfold nth_symbol. by destruct (_ <=? _).
Qed.
End numbered.
