(* ===== verification/Interner.v ===== *)
(** * Byte arena and symbol interner

    arena/bytes.go and schema/symbols.go.  An interner keeps the bytes of its
    symbols in one arena and finds them through an open-address table that
    doubles when half full.  The file shows that it implements the list of
    distinct spellings in order of first sight, with IDs numbered from one. *)

From S2P Require Import Prelude Program SymbolTable.

Definition is_byte (x : Z) : Prop := 0 ≤ x < 256.

(** ** Package [internal/arena] *)

Module Arena.
Record Ref := MkRef { Offset : Z; Length : Z }.
#[global] Instance Ref_inhabited : Inhabited Ref := populate (MkRef 0 0).

(** [buf] is [None] for a nil slice: slicing it gives nil again. *)
Record ByteArena := { buf : option bytes; maxBytes : Z }.

Definition committed (a : ByteArena) : bytes := default [] (buf a).

Definition limit (a : ByteArena) : Z := if maxBytes a =? 0 then MaxUint32 else maxBytes a.

(** The hint of [New] only reserves capacity. *)
Definition New : ByteArena := {| buf := Some []; maxBytes := MaxUint32 |}.

Definition Append (a : ByteArena) (p : bytes) : go Ref * ByteArena :=
  let off := u32 (zlen (committed a)) in
  if zlen p =? 0 then (Ok (MkRef off 0), {| buf := Some (committed a); maxBytes := maxBytes a |})
  else if limit a <? u64 (zlen (committed a) + zlen p) then (Err ErrTooLarge, a)
  else (Ok (MkRef off (u32 (zlen p))), {| buf := Some (committed a ++ p); maxBytes := maxBytes a |}).

(** [None] is a nil result. *)
Definition Bytes (a : ByteArena) (r : Ref) : option bytes :=
  if zlen (committed a) <? u64 (Offset r + Length r) then None
  else (λ l, csr l (Offset r) (Length r)) <$> buf a.

Definition Len (a : ByteArena) : Z := u32 (zlen (committed a)).

Definition Reset (a : ByteArena) : ByteArena := {| buf := (λ _, []) <$> buf a; maxBytes := maxBytes a |}.
End Arena.
Import Arena (MkRef, Ref, ByteArena).

(** ** [schema.Interner] *)

Module Interner.

Definition bitsLen (x : Z) : Z := if x =? 0 then 0 else Z.log2 x + 1.
Definition nextPow2 (n : Z) : Z := if n <=? 1 then 1 else Z.shiftl 1 (bitsLen (n - 1)).

Record Interner := {
  arena : option ByteArena;
  ids : list Z;
  refs : list Ref;
  starts : list Z;
  lengths : list Z;
  count : Z;
  nextID : Z
}.

Definition zeroInterner : Interner :=
  {| arena := None; ids := []; refs := []; starts := []; lengths := []; count := 0; nextID := 0 |}.

Definition NewSymbolInterner (hint : Z) : Interner :=
  let hint := if hint <? 0 then 0 else hint in
  let size := nextPow2 (2 * hint) in
  let size := if size <? 4 then 4 else size in
  {| arena := Some Arena.New; ids := make_ size; refs := replicate (Z.to_nat size) (MkRef 0 0);
     starts := []; lengths := []; count := 0; nextID := 1 |}.

Definition ensureArena (i : Interner) : Interner :=
  match arena i with
  | Some _ => i
  | None => {| arena := Some Arena.New; ids := ids i; refs := refs i; starts := starts i; lengths := lengths i;
               count := count i; nextID := nextID i |}
  end.

Definition initTable (size : Z) (i : Interner) : Interner :=
  {| arena := arena i; ids := make_ size; refs := replicate (Z.to_nat size) (MkRef 0 0); starts := starts i; lengths := lengths i;
     count := count i; nextID := 1 |}.

Definition Len (i : Interner) : Z := count i.
Definition ByteLen (i : Interner) : Z := match arena i with Some a => Arena.Len a | None => 0 end.

(** A method call on the arena pointer. *)
Definition deref (i : Interner) : go ByteArena :=
  match arena i with Some a => Ok a | None => Panic "nil pointer dereference" end.

(** [bytes.Equal(in.arena.Bytes(in.refs[slot]), b)]; a nil slice equals the empty one. *)
Definition slotHit (i : Interner) (b : bytes) (slot id : Z) : go bool :=
  a ← deref i;
  ref ← at_ (refs i) slot;
  Ok (bytes_eqb (default [] (Arena.Bytes a ref)) b).

(** The probe loops of [Intern], [Lookup] and [grow] run until they meet an empty
    slot.  In a table without one they would not return: [endless]. *)
Definition endless {A} : go A := Panic "probe loop does not terminate".

Definition probeSlot (i : Interner) (b : bytes) : go probe :=
  probeFrom (ids i) (slotHit i b) (length (ids i)) (Z.land (HashSymbol b) (zlen (ids i) - 1)).

Definition Lookup (i : Interner) (b : bytes) : go (option Z) :=
  if zlen (ids i) =? 0 then Ok None else
  r ← probeSlot i b;
  match r with Found id => Ok (Some id) | Empty _ => Ok None | Full => endless end.

(** One iteration of the reinsertion loop, on the new table. *)
Definition regrow (a : ByteArena) (oldIDs : list Z) (oldRefs : list Ref) (k : nat) (t : list Z * list Ref) : go (list Z * list Ref) :=
  id ← at_ oldIDs (Z.of_nat k);
  if id =? 0 then Ok t else
  ref ← at_ oldRefs (Z.of_nat k);
  let b := default [] (Arena.Bytes a ref) in
  r ← probeFrom t.1 (λ _ _, Ok false) (length t.1) (Z.land (HashSymbol b) (zlen t.1 - 1));
  match r with
  | Empty slot => ids ← put_ t.1 slot id; refs ← put_ t.2 slot ref; Ok (ids, refs)
  | _ => endless
  end.

Definition grow (i : Interner) : go Interner :=
  let newSize := zlen (ids i) * 2 in
  a ← deref i;
  '(ids', refs') ← for_range (length (ids i)) (regrow a (ids i) (refs i))
                     (make_ newSize, replicate (Z.to_nat newSize) (MkRef 0 0));
  Ok {| arena := arena i; ids := ids'; refs := refs'; starts := starts i; lengths := lengths i;
        count := count i; nextID := nextID i |}.

(** The assignments of a new symbol in slot [slot]. *)
Definition store (i : Interner) (a : ByteArena) (slot : Z) (ref : Ref) : go Interner :=
  ids' ← put_ (ids i) slot (nextID i);
  refs' ← put_ (refs i) slot ref;
  Ok {| arena := Some a; ids := ids'; refs := refs'; starts := starts i ++ [Arena.Offset ref];
        lengths := lengths i ++ [Arena.Length ref]; count := count i + 1; nextID := u32 (nextID i + 1) |}.

(** A panic keeps the state the call started from; the theorems exclude it. *)
Definition withState {A} (i : Interner) (c : go A) (k : A → go Z * Interner) : go Z * Interner :=
  match c with Ok x => k x | Err e => (Err e, i) | Panic s => (Panic s, i) end.

(** The outer loop of [Intern]: probe, then store or grow and probe again. *)
Fixpoint internLoop (fuel : nat) (i : Interner) (b : bytes) : go Z * Interner :=
  match fuel with
  | O => (endless, i)
  | S fuel =>
      withState i (probeSlot i b) (λ r,
      match r with
      | Found id => (Ok id, i)
      | Full => (endless, i)
      | Empty slot =>
          if count i * 2 <? zlen (ids i) then
            withState i (deref i) (λ a,
            match Arena.Append a b with
            | (Ok ref, a') => withState i (store i a' slot ref) (λ i', (Ok (nextID i), i'))
            | (Err e, _) => (Err e, i)
            | (Panic s, _) => (Panic s, i)
            end)
          else withState i (grow i) (λ i', internLoop fuel i' b)
      end)
  end.

(** After one doubling the table is at most a quarter full, so two rounds suffice. *)
Definition Intern (b : bytes) (i : Interner) : go Z * Interner :=
  let i := if zlen (ids i) =? 0 then initTable 4 i else i in
  internLoop 2 (ensureArena i) b.

Definition Bytes (i : Interner) (id : Z) : option bytes :=
  if (id <=? 0) || (zlen (starts i) <? id) then None else
  a ← arena i;
  Arena.Bytes a (MkRef (starts i !!! Z.to_nat (id - 1)) (lengths i !!! Z.to_nat (id - 1))).

Definition Reset (i : Interner) : Interner :=
  {| arena := Arena.Reset <$> arena i; ids := make_ (zlen (ids i)); refs := refs i; starts := []; lengths := [];
     count := 0; nextID := 1 |}.

(** ** Spellings in an arena *)

(** The reference of the [i]-th of the spellings [ks], appended in order. *)
Definition refOf (ks : list bytes) (i : nat) : Ref := MkRef (zlen (concat (take i ks))) (zlen (ks !!! i)).

Definition arena_holds (a : ByteArena) (ks : list bytes) : Prop :=
  Arena.buf a = Some (concat ks) ∧ Arena.maxBytes a = MaxUint32 ∧ zlen (concat ks) ≤ MaxUint32.

Lemma refOf_app ks b i : (i < length ks)%nat → refOf (ks ++ [b]) i = refOf ks i.
Proof. intros. unfold refOf. by rewrite take_app_le, lookup_total_app_l by lia. Qed.

Lemma refOf_last ks b : refOf (ks ++ [b]) (length ks) = MkRef (zlen (concat ks)) (zlen b).
Proof. unfold refOf. by rewrite take_app_length, list_lookup_total_middle. Qed.

Lemma refs_app (f : Ref → Z) ks b :
  map (λ k, f (refOf (ks ++ [b]) k)) (seq 0 (length (ks ++ [b]))) =
  map (λ k, f (refOf ks k)) (seq 0 (length ks)) ++ [f (refOf (ks ++ [b]) (length ks))].
Proof.
  rewrite length_app, Nat.add_1_r, seq_S, map_app. f_equal.
  apply map_ext_in. intros k Hk%in_seq. by rewrite refOf_app by lia.
Qed.

Lemma concat_split (ks : list bytes) i :
  (i < length ks)%nat → concat ks = concat (take i ks) ++ ks !!! i ++ concat (drop (S i) ks).
Proof.
  intros Hi. rewrite <-(take_drop_middle ks i (ks !!! i)) at 1 by (by apply list_lookup_lookup_total_lt).
  by rewrite concat_app.
Qed.

Lemma arena_read a ks i : arena_holds a ks → (i < length ks)%nat → Arena.Bytes a (refOf ks i) = Some (ks !!! i).
Proof.
  intros (Hb & _ & Hl) Hi. unfold Arena.Bytes, Arena.committed, refOf. rewrite Hb. simpl.
  rewrite (concat_split ks i Hi) in *. rewrite !length_app in *.
  rewrite u64_small by (unfold is_u64, MaxUint32 in *; lia).
  rewrite (proj2 (Z.ltb_ge _ _)) by lia. f_equal. unfold csr.
  by rewrite !Nat2Z.id, drop_app_length, take_app_length.
Qed.

Lemma arena_append a ks b :
  arena_holds a ks → zlen b ≤ MaxInt →
  match Arena.Append a b with
  | (Ok ref, a') => ref = refOf (ks ++ [b]) (length ks) ∧ arena_holds a' (ks ++ [b])
  | (Err e, a') => e = ErrTooLarge ∧ a' = a ∧ MaxUint32 < zlen (concat ks) + zlen b
  | (Panic _, _) => False
  end.
Proof.
  intros (Hb & Hm & Hl) Hz. rewrite refOf_last. unfold Arena.Append, Arena.committed, arena_holds. rewrite Hb. simpl.
  rewrite concat_app. simpl. rewrite app_nil_r, length_app. unfold MaxInt, MaxUint32 in *.
  rewrite (u32_small (zlen (concat ks))) by (unfold is_u32; lia).
  destruct (Z.eqb_spec (zlen b) 0) as [E|]; simpl.
  { destruct b; [|done]. simpl. rewrite app_nil_r. split_and!; done || lia. }
  unfold Arena.limit. rewrite Hm. simpl. rewrite u64_small by (unfold is_u64; lia).
  destruct (Z.ltb_spec 4294967295 (zlen (concat ks) + zlen b)); [done|].
  rewrite u32_small by (unfold is_u32; lia). split_and!; done || lia.
Qed.

(** ** How many distinct spellings an arena holds *)

Lemma short_spellings (ks : list bytes) :
  NoDup ks → Forall (Forall is_byte) ks → Forall (λ b, zlen b ≤ 1) ks → zlen ks ≤ 257.
Proof.
  intros Hnd Hb Hs. set (all := [] :: map (λ c, [Z.of_nat c]) (seq 0 256)).
  assert (length ks ≤ length all)%nat as Hl; [|by unfold all in Hl; rewrite length_cons, length_map, length_seq in Hl; lia].
  apply submseteq_length, NoDup_submseteq; [done|]. intros b Hin.
  rewrite Forall_forall in Hb, Hs. specialize (Hb b Hin). specialize (Hs b Hin). simpl in Hs.
  destruct b as [|c [|]]; simpl in Hs; [by left|right|lia].
  apply Forall_inv in Hb. apply list_elem_of_fmap. exists (Z.to_nat c). unfold is_byte in Hb.
  split; [by rewrite Z2Nat.id by lia|]. apply elem_of_seq. lia.
Qed.

Lemma long_spellings (ks : list bytes) : Forall (λ b, ¬ zlen b ≤ 1) ks → 2 * zlen ks ≤ zlen (concat ks).
Proof. induction 1 as [|b ks Hb _ IH]; [done|]. simpl. rewrite length_app. lia. Qed.

Lemma concat_filter_le P `{∀ x, Decision (P x)} (ks : list bytes) : zlen (concat (filter P ks)) ≤ zlen (concat ks).
Proof.
  induction ks as [|b ks IH]; [done|]. rewrite filter_cons. destruct (decide (P b)); simpl; rewrite ?length_app; lia.
Qed.

(** Only 257 spellings are shorter than two bytes, so IDs do not wrap. *)
Lemma spellings_bound (ks : list bytes) :
  NoDup ks → Forall (Forall is_byte) ks → zlen (concat ks) ≤ MaxUint32 → zlen ks + 1 < MaxUint32.
Proof.
  intros Hnd Hb Hl.
  pose proof (short_spellings (filter (λ b, zlen b ≤ 1) ks)) as Hs.
  pose proof (long_spellings (filter (λ b, ¬ zlen b ≤ 1) ks)) as Hg.
  pose proof (concat_filter_le (λ b, ¬ zlen b ≤ 1) ks) as Hc.
  assert (zlen (filter (λ b, zlen b ≤ 1) ks) ≤ 257) as ?.
  { apply Hs; [by apply NoDup_filter|apply Forall_forall; intros b [_ Hin]%list_elem_of_filter; rewrite Forall_forall in Hb; by apply Hb|]. apply Forall_forall. by intros b [? _]%list_elem_of_filter. }
  assert (2 * zlen (filter (λ b, ¬ zlen b ≤ 1) ks) ≤ zlen (concat (filter (λ b, ¬ zlen b ≤ 1) ks))) as ?.
  { apply Hg, Forall_forall. by intros b [? _]%list_elem_of_filter. }
  pose proof (Permutation_length (filter_app_complement (λ b, zlen b ≤ 1) ks)) as Hp.
  rewrite length_app in Hp. unfold MaxUint32 in *. lia.
Qed.

(** ** The representation invariant *)

(** The interner holds the distinct spellings [ks] under IDs [1..length ks]. *)
Record interns (i : Interner) (ks : list bytes) : Prop := {
  in_distinct : NoDup ks;
  in_bytes : Forall (Forall is_byte) ks;
  in_arena : match arena i with Some a => arena_holds a ks | None => ks = [] end;
  in_starts : starts i = map (λ k, Arena.Offset (refOf ks k)) (seq 0 (length ks));
  in_lengths : lengths i = map (λ k, Arena.Length (refOf ks k)) (seq 0 (length ks));
  in_count : count i = zlen ks;
  in_table : ids i = [] ∧ ks = [] ∨
    table_ok (ids i) (nth_symbol ks) ∧ 2 * zlen ks ≤ zlen (ids i) ∧ 4 ≤ zlen (ids i) ∧ length (refs i) = length (ids i) ∧
    nextID i = zlen ks + 1 ∧ is_Some (arena i);
  in_refs s id : ids i !! s = Some id → id ≠ 0 → refs i !! s = Some (refOf ks (Z.to_nat (id - 1)))
}.

Lemma interns_bound i ks : interns i ks → zlen ks + 1 < MaxUint32 ∧ zlen (concat ks) ≤ MaxUint32.
Proof.
  intros [Hd Hb Ha _ _ _ _ _].
  assert (zlen (concat ks) ≤ MaxUint32) as Hl by (destruct (arena i); [apply Ha|by subst]).
  split; [by apply spellings_bound|done].
Qed.

Lemma interns_zero : interns zeroInterner [].
Proof. split; try done; [constructor|by left]. Qed.

(** An empty table of a power-of-two size at least four. *)
Lemma interns_fresh (i : Interner) n a :
  4 ≤ n → Z.land n (n - 1) = 0 → ids i = make_ n → length (refs i) = Z.to_nat n → starts i = [] → lengths i = [] →
  count i = 0 → nextID i = 1 → arena i = Some a → Arena.buf a = Some [] → Arena.maxBytes a = MaxUint32 → interns i [].
Proof.
  intros Hn Hp Hi Hr Hs Hl Hc Hx Ha Hb Hm. split; try done; [constructor|by rewrite Ha| |].
  - right. rewrite Hi. unfold make_. rewrite length_replicate. simpl. split_and!; try (done || lia). apply table_ok_fresh; [lia|done].
  - rewrite Hi. by intros s id [-> _]%lookup_replicate.
Qed.

Lemma nextPow2_pow2 n : ∃ k, 0 ≤ k ∧ nextPow2 n = 2 ^ k.
Proof.
  unfold nextPow2, bitsLen. destruct (n <=? 1); [by exists 0|].
  destruct (n - 1 =? 0); rewrite Z.shiftl_1_l; [by exists 0|].
  eexists. split; [|done]. pose proof (Z.log2_nonneg (n - 1)). lia.
Qed.

Lemma interns_new hint : interns (NewSymbolInterner hint) [].
Proof.
  unfold NewSymbolInterner. set (h := if hint <? 0 then 0 else hint).
  set (size := if nextPow2 (2 * h) <? 4 then 4 else nextPow2 (2 * h)).
  assert (4 ≤ size ∧ Z.land size (size - 1) = 0) as [H4 Hp].
  { unfold size. destruct (Z.ltb_spec (nextPow2 (2 * h)) 4); [done|]. split; [done|].
    destruct (nextPow2_pow2 (2 * h)) as (k & Hk & ->). by apply pow2_land. }
  eapply (interns_fresh _ size Arena.New); try done. simpl. by rewrite length_replicate.
Qed.

Lemma interns_reset i ks : interns i ks → interns (Reset i) [].
Proof.
  intros H. destruct (in_table _ _ H) as [[Hi ->]|(Ht & _ & H4 & Hr & _ & [a Ha])].
  - split; try done; [constructor| | |]; unfold Reset; simpl.
    + destruct (arena i) as [a|] eqn:Ea; [|done]. pose proof (in_arena _ _ H) as Hx. rewrite Ea in Hx. simpl.
      destruct Hx as (Hb & Hm & _). unfold arena_holds. simpl. by rewrite Hb.
    + left. by rewrite Hi.
    + rewrite Hi. by intros s id [-> _]%lookup_replicate.
  - pose proof (in_arena _ _ H) as Hx. rewrite Ha in Hx. destruct Hx as (Hb & Hm & _).
    eapply (interns_fresh _ (zlen (ids i)) (Arena.Reset a)); try done.
    + apply Ht.
    + simpl. lia.
    + simpl. by rewrite Ha.
    + simpl. by rewrite Hb.
Qed.

Lemma slotHit_hits i ks b : interns i ks → is_Some (arena i) → hits (ids i) (nth_symbol ks) b (slotHit i b).
Proof.
  intros H [a Ha] s id Hs Hid. unfold slotHit, deref. rewrite Ha. simpl.
  rewrite (at_nat _ _ _ (in_refs _ _ H s id Hs Hid)). simpl. f_equal.
  pose proof (in_arena _ _ H) as Hx. rewrite Ha in Hx.
  destruct (in_table _ _ H) as [[Hi _]|(Ht & _)]; [by rewrite Hi, lookup_nil in Hs|].
  destruct (tb_reach _ _ Ht s id Hs Hid) as (b' & Hb' & _).
  pose proof (nth_symbol_range _ _ _ Hb') as Hrg. apply nth_symbol_Some in Hb' as [_ Hb'].
  rewrite (arena_read a ks) by (done || lia). simpl. unfold bytes_eqb. apply bool_decide_ext.
  rewrite nth_symbol_Some, Hb', (list_lookup_total_correct _ _ _ Hb'). naive_solver lia.
Qed.

(** [Lookup]'s probe on an interner with a table. *)
Lemma probeSlot_ok i ks b :
  interns i ks → ids i ≠ [] →
  ∃ r, probeSlot i b = Ok r ∧
    match r with
    | Found id => nth_symbol ks id = Some b
    | Empty s => ∃ s', s = Z.of_nat s' ∧ ids i !! s' = Some 0 ∧ reachable (ids i) (HashSymbol b) s' ∧ b ∉ ks
    | Full => False
    end.
Proof.
  intros H Hne. destruct (in_table _ _ H) as [[? _]|(Ht & Hc & H4 & Hr & _ & Ha)]; [done|].
  destruct (probe_symbols _ _ b (slotHit i b) Ht) as (r & Hr' & Hm); [by apply slotHit_hits|].
  pose proof (nth_symbol_absent ks b) as Habs.
  exists r. split; [done|]. destruct r as [id|s|]; [done|naive_solver|]. destruct Hm as [H0 _]. apply H0.
  eapply (table_has_room _ _ (zlen ks)); [done|apply nth_symbol_range|lia].
Qed.

(** ** Doubling the table *)

(** The symbols whose old slots are among the first [k]. *)
Definition moved (ks : list bytes) (old : list Z) (k : nat) (id : Z) : option bytes :=
  if bool_decide (id ∈ take k old) then nth_symbol ks id else None.

Lemma moved_Some ks old k id b : moved ks old k id = Some b ↔ id ∈ take k old ∧ nth_symbol ks id = Some b.
Proof. unfold moved. case_bool_decide; naive_solver. Qed.

Lemma moved_S ks old k id' id : old !! k = Some id' → id ≠ id' → moved ks old (S k) id = moved ks old k id.
Proof.
  intros Hk Hne. unfold moved. rewrite (take_S_r _ _ _ Hk).
  by rewrite (bool_decide_ext (id ∈ take k old ++ [id']) (id ∈ take k old)) by set_solver.
Qed.

Lemma moved_all ks old : table_ok old (nth_symbol ks) → pointwise_relation Z (=) (moved ks old (length old)) (nth_symbol ks).
Proof.
  intros Ht id. unfold moved. rewrite firstn_all. case_bool_decide as Hin; [done|].
  destruct (nth_symbol ks id) as [b|] eqn:E; [|done]. exfalso. apply Hin.
  destruct (tb_cover _ _ Ht id b E) as (_ & s & Hs). by eapply list_elem_of_lookup_2.
Qed.

(** The state of the reinsertion loop after [k] old slots. *)
Definition regrown (ks : list bytes) (old : list Z) (k : nat) (t : list Z * list Ref) : Prop :=
  table_ok t.1 (moved ks old k) ∧ zlen t.1 = zlen old * 2 ∧ length t.2 = length t.1 ∧
  ∀ s id, t.1 !! s = Some id → id ≠ 0 → t.2 !! s = Some (refOf ks (Z.to_nat (id - 1))).

Lemma regrown_store ks old k t id b s :
  regrown ks old k t → old !! k = Some id → id ≠ 0 → nth_symbol ks id = Some b → moved ks old k id = None →
  t.1 !! s = Some 0 → reachable t.1 (HashSymbol b) s →
  regrown ks old (S k) (<[s := id]> t.1, <[s := refOf ks (Z.to_nat (id - 1))]> t.2).
Proof.
  intros (Ht & Hz & Hr & Hrefs) Hk Hid Hb Hnew Hs Hre. unfold regrown. simpl. rewrite !length_insert.
  split_and!; try done.
  - eapply table_insert; try done.
    + apply moved_Some. split; [|done]. rewrite (take_S_r _ _ _ Hk). set_solver.
    + intros id' Hne. by apply (moved_S _ _ _ id).
  - intros s' id' [(<- & <- & ?)|(Hne & Hs')]%list_lookup_insert_Some Hid'.
    + apply list_lookup_insert_eq. lia.
    + rewrite list_lookup_insert_ne by done. by apply Hrefs.
Qed.

Lemma regrow_ok i ks a k t :
  interns i ks → arena i = Some a → (k < length (ids i))%nat → regrown ks (ids i) k t →
  ∃ t', regrow a (ids i) (refs i) k t = Ok t' ∧ regrown ks (ids i) (S k) t'.
Proof.
  intros H Ha Hlt Hg. pose proof Hg as (Ht & Hz & Hr & Hrefs).
  destruct (in_table _ _ H) as [[Hi _]|(Hold & Hhalf & H4 & _)]; [by rewrite Hi in Hlt; simpl in Hlt; lia|].
  destruct (lookup_lt_is_Some_2 (ids i) k Hlt) as [id Hid]. unfold regrow. rewrite (at_nat _ _ _ Hid). simpl.
  destruct (Z.eqb_spec id 0) as [->|Hne].
  { exists t. split; [done|]. split; [|done]. eapply table_ok_proper; [|apply Ht]. intros id.
    destruct (decide (id = 0)) as [->|]; [|by apply (moved_S _ _ _ 0)].
    unfold moved, nth_symbol. simpl. by destruct (bool_decide _), (bool_decide _). }
  rewrite (at_nat _ _ _ (in_refs _ _ H k id Hid Hne)). simpl.
  destruct (tb_reach _ _ Hold k id Hid Hne) as (b & Hb & _). pose proof (nth_symbol_range _ _ _ Hb) as Hrg.
  pose proof (in_arena _ _ H) as Hx. rewrite Ha in Hx. rewrite (arena_read a ks) by (done || lia). simpl.
  pose proof Hb as [_ Hbk]%nth_symbol_Some. rewrite (list_lookup_total_correct _ _ _ Hbk).
  assert (moved ks (ids i) k id = None) as Hnew.
  { destruct (moved _ _ _ _) eqn:E; [|done]. apply moved_Some in E as [[j Hj]%list_elem_of_lookup _].
    apply lookup_take_Some in Hj as [Hj ?]. pose proof (tb_inj _ _ Hold _ _ _ Hj Hid Hne). lia. }
  assert (∀ id', moved ks (ids i) k id' ≠ Some b) as Habs.
  { intros id' E. pose proof E as [_ E']%moved_Some. rewrite (nth_symbol_inj ks id' id b (in_distinct _ _ H) E' Hb) in E. congruence. }
  destruct (probe_symbols t.1 _ b (λ _ _, Ok false) Ht) as (r & -> & Hm).
  { intros s id' _ _. f_equal. symmetry. by apply bool_decide_eq_false_2. }
  simpl. destruct r as [id'|s|]; [by destruct (Habs id')| |].
  - destruct Hm as (s' & -> & H0 & Hre & _). pose proof (lookup_lt_Some _ _ _ H0).
    rewrite (put_Ok t.1) by lia. simpl. rewrite (put_Ok t.2) by lia. simpl. rewrite Nat2Z.id.
    eexists. split; [done|]. by apply (regrown_store _ _ _ _ _ b).
  - exfalso. destruct Hm as [Hm _]. apply Hm.
    eapply (table_has_empty _ _ (ids i)); [done| |lia]. intros id' b' [Hin _]%moved_Some.
    rewrite <-(take_drop k (ids i)). set_solver.
Qed.

Lemma grow_ok i ks :
  interns i ks → ids i ≠ [] → ∃ i', grow i = Ok i' ∧ interns i' ks ∧ zlen (ids i') = zlen (ids i) * 2 ∧ count i' = count i.
Proof.
  intros H Hne. destruct (in_table _ _ H) as [[? _]|(Ht & Hhalf & H4 & Hr & Hx & [a Ha])]; [done|].
  unfold grow, deref. rewrite Ha. simpl.
  for_loop (regrown ks (ids i)) as ((ids' & refs') & -> & Hg).
  { split_and!; simpl.
    - eapply table_ok_proper; [|apply (table_ok_fresh (zlen (ids i) * 2)); [lia|]].
      + intros id. unfold moved, nth_symbol. rewrite lookup_nil. by destruct (_ <=? _).
      + apply pow2_double; apply (tb_pow2 _ _ Ht).
    - unfold make_. rewrite length_replicate. lia.
    - unfold make_. by rewrite !length_replicate.
    - by intros s id [-> _]%lookup_replicate. }
  { intros k t Hk Hg. by apply regrow_ok. }
  destruct Hg as (Ht' & Hz & Hr' & Hrefs). simpl in *. eexists. split; [done|]. split; [|done].
  destruct H as [Hd Hb Har Hst Hle Hc _ _]. split; try done; simpl; [by rewrite Ha in Har|].
  right. split_and!; try done; lia || idtac.
  eapply table_ok_proper; [|exact Ht']. symmetry. by apply moved_all.
Qed.

(** ** Interning *)

Lemma store_ok i ks b a' s :
  interns i ks → ids i !! s = Some 0 → reachable (ids i) (HashSymbol b) s → b ∉ ks → Forall is_byte b →
  count i * 2 < zlen (ids i) → arena_holds a' (ks ++ [b]) →
  ∃ i', store i a' (Z.of_nat s) (refOf (ks ++ [b]) (length ks)) = Ok i' ∧ interns i' (ks ++ [b]) ∧ nextID i = zlen ks + 1.
Proof.
  intros H H0 Hre Hb Hby Hroom Ha'. destruct (interns_bound _ _ H) as [Hid _]. unfold MaxUint32 in Hid.
  pose proof (lookup_lt_Some _ _ _ H0) as Hs. destruct H as [Hd Hbs _ Hst Hle Hc [[Hi _]|(Ht & _ & H4 & Hr & Hx & _)] Hrefs];
    [by rewrite Hi, lookup_nil in H0|].
  unfold store. rewrite put_Ok by lia. simpl. rewrite put_Ok by lia. simpl. rewrite Nat2Z.id.
  eexists. split; [done|]. split; [|done]. split; simpl.
  - by apply NoDup_snoc.
  - apply Forall_app. by rewrite Forall_singleton.
  - done.
  - rewrite Hst. symmetry. by apply (refs_app Arena.Offset).
  - rewrite Hle. symmetry. by apply (refs_app Arena.Length).
  - rewrite Hc, length_app. simpl. lia.
  - right. destruct (pow2_even (zlen (ids i))) as [m Hm]; [lia|apply (tb_pow2 _ _ Ht)|].
    rewrite length_app, !length_insert. simpl. rewrite Hx, u32_small by (unfold is_u32; lia).
    split_and!; try (done || lia).
    by apply table_append.
  - intros s' id [(<- & <- & ?)|(Hne & Hs')]%list_lookup_insert_Some Hid'.
    + rewrite list_lookup_insert_eq, Hx by lia. do 2 f_equal. lia.
    + rewrite list_lookup_insert_ne, (Hrefs _ _ Hs' Hid') by done.
      destruct (tb_reach _ _ Ht s' id Hs' Hid') as (b' & Hb' & _). apply nth_symbol_range in Hb'.
      by rewrite refOf_app by lia.
Qed.

(** The abstract interner: a list of distinct spellings. *)
Definition position (ks : list bytes) (b : bytes) : option Z := (λ p, Z.of_nat p.1 + 1) <$> list_find (b =.) ks.

Definition internSpec (b : bytes) (ks : list bytes) : go Z * list bytes :=
  match position ks b with
  | Some id => (Ok id, ks)
  | None => if MaxUint32 <? zlen (concat ks) + zlen b then (Err ErrTooLarge, ks) else (Ok (zlen ks + 1), ks ++ [b])
  end.

Lemma position_Some ks b id : NoDup ks → position ks b = Some id ↔ nth_symbol ks id = Some b.
Proof.
  intros Hnd. unfold position. rewrite fmap_Some, nth_symbol_Some. split.
  - intros ([k x] & (Hk & -> & _)%list_find_Some & ->). simpl. split; [lia|].
    by replace (Z.to_nat (Z.of_nat k + 1 - 1)) with k by lia.
  - intros (Hid & Hk). exists (Z.to_nat (id - 1), b). simpl. split; [|lia]. apply list_find_Some.
    split_and!; [done..|]. intros j y Hj Hlt ->. pose proof (NoDup_lookup _ _ _ _ Hnd Hj Hk). lia.
Qed.

Lemma position_None ks b : position ks b = None ↔ b ∉ ks.
Proof.
  unfold position. rewrite fmap_None, list_find_None, Forall_forall. split.
  - intros Hno Hin. by apply (Hno b).
  - intros Hno x Hx ->. done.
Qed.

Lemma internLoop_ok fuel i ks b :
  interns i ks → ids i ≠ [] → Forall is_byte b → zlen b ≤ MaxInt →
  (2 ≤ fuel)%nat ∨ (fuel = 1%nat ∧ count i * 2 < zlen (ids i)) →
  ∃ i', internLoop fuel i b = ((internSpec b ks).1, i') ∧ interns i' (internSpec b ks).2.
Proof.
  revert i. induction fuel as [|fuel IH]; intros i H Hne Hby Hz Hf; [lia|].
  pose proof (in_distinct _ _ H) as Hnd. simpl.
  destruct (probeSlot_ok i ks b H Hne) as (r & -> & Hr). simpl. unfold internSpec. destruct r as [id|s|]; [| |done].
  { apply position_Some in Hr; [|done]. rewrite Hr. by exists i. }
  destruct Hr as (s' & -> & H0 & Hre & Hb). rewrite (proj2 (position_None ks b) Hb).
  destruct (in_table _ _ H) as [[? _]|(_ & Hhalf & H4 & _ & Hx & [a Ha])]; [done|].
  destruct (Z.ltb_spec (count i * 2) (zlen (ids i))) as [Hroom|Hfull].
  - pose proof (in_arena _ _ H) as Har. rewrite Ha in Har. unfold deref. rewrite Ha. simpl.
    pose proof (arena_append a ks b Har Hz) as Happ. destruct (Arena.Append a b) as [[ref|e|m] a']; [| |done].
    + destruct Happ as (-> & Ha'). pose proof Ha' as (_ & _ & Hl). rewrite concat_app in Hl. simpl in Hl. rewrite app_nil_r, length_app in Hl.
      destruct (store_ok i ks b a' s') as (i' & -> & Hi' & Hid); [done..|]. simpl. exists i'.
      rewrite (proj2 (Z.ltb_ge _ _)), Hid by lia. done.
    + destruct Happ as (-> & -> & Hl). exists i. by rewrite (proj2 (Z.ltb_lt _ _)).
  - destruct (grow_ok i ks H Hne) as (i' & -> & Hi' & Hz' & Hc'). simpl. pose proof (in_count _ _ H) as Hc.
    destruct (IH i') as (i'' & -> & Hi''); [done| |done..| |].
    + intros E. rewrite E in Hz'. simpl in Hz'. lia.
    + destruct (decide (2 ≤ fuel)%nat); [by left|]. right. lia.
    + exists i''. unfold internSpec in *. by rewrite (proj2 (position_None ks b) Hb) in *.
Qed.

Lemma interns_prepared i ks :
  interns i ks → let i' := ensureArena (if zlen (ids i) =? 0 then initTable 4 i else i) in interns i' ks ∧ ids i' ≠ [].
Proof.
  intros H i'. subst i'. destruct (in_table _ _ H) as [[Hi ->]|(_ & _ & H4 & _ & _ & [a Ha])].
  - rewrite Hi. simpl. unfold ensureArena. simpl. pose proof (in_arena _ _ H) as Hx.
    pose proof (in_starts _ _ H) as Hst. pose proof (in_lengths _ _ H) as Hle. pose proof (in_count _ _ H) as Hc.
    destruct (arena i) as [a|] eqn:Ea; (split; [|done]).
    + destruct Hx as (Hb & Hm & _). by eapply (interns_fresh _ 4 a).
    + by eapply (interns_fresh _ 4 Arena.New).
  - rewrite (proj2 (Z.eqb_neq _ _)) by lia. unfold ensureArena. rewrite Ha. split; [done|]. intros E. rewrite E in H4. simpl in H4. lia.
Qed.

Lemma Intern_ok i ks b :
  interns i ks → Forall is_byte b → zlen b ≤ MaxInt →
  ∃ i', Intern b i = ((internSpec b ks).1, i') ∧ interns i' (internSpec b ks).2.
Proof.
  intros H Hby Hz. destruct (interns_prepared i ks H) as [H' Hne]. apply internLoop_ok; [done..|]. lia.
Qed.

Lemma Lookup_ok i ks b : interns i ks → Lookup i b = Ok (position ks b).
Proof.
  intros H. pose proof (in_distinct _ _ H) as Hnd. unfold Lookup. destruct (Z.eqb_spec (zlen (ids i)) 0) as [E|Hne].
  { destruct (in_table _ _ H) as [[_ ->]|(_ & _ & H4 & _)]; [done|lia]. }
  destruct (probeSlot_ok i ks b H) as (r & -> & Hr); [intros E; by rewrite E in Hne|]. simpl.
  destruct r as [id|s|]; [| |done].
  - f_equal. symmetry. by apply position_Some.
  - destruct Hr as (_ & _ & _ & _ & Hb). f_equal. symmetry. by apply position_None.
Qed.

Lemma Bytes_ok i ks id : interns i ks → Bytes i id = nth_symbol ks id.
Proof.
  intros H. unfold Bytes. rewrite (in_starts _ _ H), (in_lengths _ _ H), length_map, length_seq.
  destruct (Z.leb_spec id 0); simpl; [unfold nth_symbol; by rewrite (proj2 (Z.leb_le _ _)) by lia|].
  destruct (Z.ltb_spec (zlen ks) id); simpl.
  { destruct (nth_symbol ks id) eqn:E; [|done]. apply nth_symbol_range in E. lia. }
  pose proof (in_arena _ _ H) as Ha. destruct (arena i) as [a|]; simpl; [|subst ks; simpl in *; lia].
  rewrite !map_seq_lookup_total by lia.
  change (MkRef _ _) with (refOf ks (Z.to_nat (id - 1))). rewrite (arena_read a ks) by (done || lia).
  symmetry. apply nth_symbol_Some. split; [lia|]. apply list_lookup_lookup_total_lt. lia.
Qed.

(** An interner is a symbol namespace. *)
Definition find (i : Interner) (b : bytes) : option Z := match Lookup i b with Ok o => o | _ => None end.

Lemma interner_space i ks : interns i ks → SymbolSpace (find i) (Bytes i) (Len i).
Proof.
  intros H. unfold Len. rewrite (in_count _ _ H). split.
  - intros id _. rewrite (Bytes_ok i ks) by done. apply nth_symbol_is_Some.
  - intros b id. unfold find. rewrite (Lookup_ok i ks), (Bytes_ok i ks), position_Some by (done || apply H).
    split; [|naive_solver]. intros E. split; [|done]. apply nth_symbol_range in E. lia.
Qed.

(** ** Sessions *)

Inductive call := CallIntern (b : bytes) | CallLookup (b : bytes) | CallBytes (id : Z) | CallLen | CallReset.
Inductive answer := GotID (r : go Z) | GotLookup (r : go (option Z)) | GotBytes (r : option bytes) | GotLen (n : Z) | GotNothing.

Definition step (c : call) (i : Interner) : answer * Interner :=
  match c with
  | CallIntern b => let (r, i) := Intern b i in (GotID r, i)
  | CallLookup b => (GotLookup (Lookup i b), i)
  | CallBytes id => (GotBytes (Bytes i id), i)
  | CallLen => (GotLen (Len i), i)
  | CallReset => (GotNothing, Reset i)
  end.

Definition stepSpec (c : call) (ks : list bytes) : answer * list bytes :=
  match c with
  | CallIntern b => let (r, ks) := internSpec b ks in (GotID r, ks)
  | CallLookup b => (GotLookup (Ok (position ks b)), ks)
  | CallBytes id => (GotBytes (nth_symbol ks id), ks)
  | CallLen => (GotLen (zlen ks), ks)
  | CallReset => (GotNothing, [])
  end.

Fixpoint session {S} (next : call → S → answer * S) (cs : list call) (s : S) : list answer :=
  match cs with [] => [] | c :: cs => let (a, s) := next c s in a :: session next cs s end.

(** The arguments are byte slices. *)
Definition call_typed (c : call) : Prop :=
  match c with CallIntern b => Forall is_byte b ∧ zlen b ≤ MaxInt | _ => True end.

Lemma step_ok c i ks :
  interns i ks → call_typed c → (step c i).1 = (stepSpec c ks).1 ∧ interns (step c i).2 (stepSpec c ks).2.
Proof.
  intros H Hc. destruct c as [b|b|id| |]; simpl in *.
  - destruct Hc as [Hb Hz]. destruct (Intern_ok i ks b H Hb Hz) as (i' & -> & Hi'). by destruct (internSpec b ks).
  - by rewrite (Lookup_ok i ks).
  - by rewrite (Bytes_ok i ks).
  - split; [|done]. f_equal. apply H.
  - split; [done|]. by eapply interns_reset.
Qed.

Lemma interner_session_ok cs i ks : interns i ks → Forall call_typed cs → session step cs i = session stepSpec cs ks.
Proof.
  intros H Hcs. revert i ks H. induction Hcs as [|c cs Hc _ IH]; intros i ks H; [done|]. simpl.
  destruct (step_ok c i ks H Hc) as [Ha Hi]. destruct (step c i), (stepSpec c ks). simpl in *. subst. f_equal. by apply IH.
Qed.

(** C23: an interner behaves, over any sequence of calls on a new or zero value, as
    the list of distinct spellings in order of first sight: [Intern] returns the
    position of a known spelling or appends it, [Lookup] and [Bytes] are inverse
    on it, an arena overflow is reported and changes no later answer, [Reset]
    starts again from one, and no call panics or probes without end although the
    table is doubled under way. *)
Theorem interner_sessions (hint : Z) (cs : list call) :
  Forall call_typed cs →
  session step cs (NewSymbolInterner hint) = session stepSpec cs [] ∧ session step cs zeroInterner = session stepSpec cs [].
Proof. intros Hcs. split; apply interner_session_ok; auto using interns_new, interns_zero. Qed.

End Interner.
