(* ===== verification/Frozen.v ===== *)
(** * Frozen program symbols

    compile/normalize.go interns the spellings of a policy document into the
    symbol slab of a program ([internSymbol]) and freezes a probe table over it
    ([freezeSymbolSlots]); program/program.go looks symbols up in that table
    ([LookupSymbol]).  The file shows that lowering and freezing give a table in
    which the bounded probe of [LookupSymbol] decides membership. *)

From S2P Require Import Prelude Program SymbolTable Interner.

(** ** Lookup *)

Definition frozenHit (p : SymbolColumns) (value : bytes) (h slot id : Z) : go bool :=
  hash ← at_ (SymbolHashes p) slot;
  Ok ((hash =? h) && match Symbol p id with Some b => bytes_eqb b value | None => false end).

Definition LookupSymbol (p : SymbolColumns) (value : bytes) : go (option Z) :=
  let n := zlen (SymbolHashes p) in
  if (n =? 0) || negb (n =? zlen (SymbolIDs p)) || negb (Z.land n (n - 1) =? 0) then Ok None else
  let h := HashSymbol value in
  r ← probeFrom (SymbolIDs p) (frozenHit p value h) (Z.to_nat n) (Z.land h (n - 1));
  Ok (match r with Found id => Some id | _ => None end).

(** ** Lowering *)

(** The loop of [slotSize] doubles at most 61 times before the overflow guard. *)
Fixpoint slotSizeFrom (fuel : nat) (size n : Z) : Z :=
  match fuel with
  | O => 0
  | S fuel => if size <? u64 (2 * n) then if MaxInt / 2 <? size then 0 else slotSizeFrom fuel (size * 2) n else size
  end.
Definition slotSize (n : Z) : Z := slotSizeFrom 64 4 n.

(** The symbol half of a lowerer: its probe table and the destination columns. *)
Record Lowering := { symIDs : list Z; dst : SymbolColumns }.

Definition existingHit (p : SymbolColumns) (b : bytes) (slot id : Z) : go bool :=
  match Symbol p id with Some existing => Ok (bytes_eqb existing b) | None => Err ErrInvalidDocument end.

Definition appendSymbol (p : SymbolColumns) (b : bytes) : SymbolColumns :=
  {| SymbolBytes := SymbolBytes p ++ b; SymbolStarts := SymbolStarts p ++ [u32 (zlen (SymbolBytes p))];
     SymbolLengths := SymbolLengths p ++ [u32 (zlen b)]; SymbolHashes := SymbolHashes p; SymbolIDs := SymbolIDs p;
     ProgramSymbolCount := ProgramSymbolCount p |}.

Definition internSymbol (b : bytes) (l : Lowering) : go (Z * Lowering) :=
  let n := zlen (symIDs l) in
  check (negb (n =? 0)) ErrProgramTooLarge ;;
  r ← probeFrom (symIDs l) (existingHit (dst l) b) (length (symIDs l)) (Z.land (HashSymbol b) (n - 1));
  match r with
  | Found id => Ok (id, l)
  | Full => Err ErrProgramTooLarge
  | Empty slot =>
      check (zlen (SymbolStarts (dst l)) <? MaxUint32) ErrProgramTooLarge ;;
      check (u64 (zlen (SymbolBytes (dst l)) + zlen b) <=? MaxUint32) ErrProgramTooLarge ;;
      let id := u32 (zlen (SymbolStarts (dst l)) + 1) in
      symIDs' ← put_ (symIDs l) slot id;
      Ok (id, {| symIDs := symIDs'; dst := appendSymbol (dst l) b |})
  end.

(** One iteration of the freezing loop, for ID [k + 1]. *)
Definition freezeSlot (p : SymbolColumns) (k : nat) (t : list Z * list Z) : go (list Z * list Z) :=
  let id := Z.of_nat k + 1 in
  b ← (match Symbol p id with Some b => Ok b | None => Err ErrInvalidDocument end);
  let h := HashSymbol b in
  r ← probeFrom t.1 (λ _ _, Ok false) (length t.1) (Z.land h (zlen t.1 - 1));
  match r with
  | Empty slot => hashes ← put_ t.2 slot h; ids ← put_ t.1 slot id; Ok (ids, hashes)
  | _ => Err ErrProgramTooLarge
  end.

Definition freezeSymbolSlots (p : SymbolColumns) : go SymbolColumns :=
  let count := length (SymbolStarts p) in
  check (Z.of_nat count <? MaxUint32) ErrProgramTooLarge ;;
  let size := slotSize (Z.of_nat count) in
  check (negb (size =? 0)) ErrProgramTooLarge ;;
  '(ids, hashes) ← for_range count (freezeSlot p) (make_ size, make_ size);
  Ok {| SymbolBytes := SymbolBytes p; SymbolStarts := SymbolStarts p; SymbolLengths := SymbolLengths p;
        SymbolHashes := hashes; SymbolIDs := ids; ProgramSymbolCount := u32 (Z.of_nat count) |}.

(** ** Lookups in a well-formed table *)

Definition frozenKey (p : SymbolColumns) (id : Z) : option bytes := if id <=? 0 then None else Symbol p id.

(** The probe table covers the symbols of the slab, with their hashes. *)
Definition frozen_ok (p : SymbolColumns) : Prop :=
  length (SymbolHashes p) = length (SymbolIDs p) ∧
  (SymbolIDs p = [] ∧ (∀ id, frozenKey p id = None) ∨
   table_ok (SymbolIDs p) (frozenKey p) ∧
   ∀ s id b, SymbolIDs p !! s = Some id → id ≠ 0 → frozenKey p id = Some b → SymbolHashes p !! s = Some (HashSymbol b)).

Lemma frozenKey_Some p id b : frozenKey p id = Some b ↔ 0 ≤ id ∧ Symbol p id = Some b.
Proof.
  unfold frozenKey. destruct (Z.leb_spec id 0); [|naive_solver lia].
  destruct (decide (id = 0)) as [->|]; [by split; [|intros [_ ?]]|]. naive_solver lia.
Qed.

Lemma frozenHit_hits p b :
  table_ok (SymbolIDs p) (frozenKey p) →
  (∀ s id b, SymbolIDs p !! s = Some id → id ≠ 0 → frozenKey p id = Some b → SymbolHashes p !! s = Some (HashSymbol b)) →
  hits (SymbolIDs p) (frozenKey p) b (frozenHit p b (HashSymbol b)).
Proof.
  intros Ht Hh s id Hs Hid. destruct (tb_reach _ _ Ht s id Hs Hid) as (b' & Hb' & _).
  unfold frozenHit. rewrite (at_nat _ _ _ (Hh s id b' Hs Hid Hb')). simpl. f_equal.
  rewrite Hb'. apply frozenKey_Some in Hb' as [_ ->]. unfold bytes_eqb.
  destruct (decide (b' = b)) as [->|Hne].
  - rewrite Z.eqb_refl. by rewrite !bool_decide_eq_true_2.
  - rewrite (bool_decide_eq_false_2 (b' = b)) by done. rewrite andb_false_r. symmetry. apply bool_decide_eq_false_2. congruence.
Qed.

Lemma LookupSymbol_ok p b :
  frozen_ok p →
  ∃ r, LookupSymbol p b = Ok r ∧
    match r with Some id => frozenKey p id = Some b | None => ∀ id, frozenKey p id ≠ Some b end.
Proof.
  intros (Hl & [[Hi Hk]|[Ht Hh]]); unfold LookupSymbol.
  - rewrite Hi in Hl. destruct (SymbolHashes p); [|done]. simpl. exists None. split; [done|]. intros id. by rewrite Hk.
  - destruct (tb_pow2 _ _ Ht) as [Hn Hp]. rewrite Hl.
    rewrite (proj2 (Z.eqb_neq _ 0)), Z.eqb_refl, Hp by lia. simpl. rewrite Nat2Z.id.
    destruct (probe_symbols _ _ b _ Ht (frozenHit_hits p b Ht Hh)) as (r & -> & Hm). simpl.
    eexists. split; [done|]. destruct r; naive_solver.
Qed.

Definition findSymbol (p : SymbolColumns) (b : bytes) : option Z := match LookupSymbol p b with Ok o => o | _ => None end.

(** A well-formed table over distinct spellings is a symbol namespace. *)
Lemma frozen_space p n :
  frozen_ok p → (∀ id, is_Some (frozenKey p id) ↔ 1 ≤ id ≤ n) →
  (∀ id id' b, frozenKey p id = Some b → frozenKey p id' = Some b → id = id') → SymbolSpace (findSymbol p) (Symbol p) n.
Proof.
  intros Hf Hn Hinj. split.
  - intros id Hid. rewrite <-Hn. split; intros [b Hb]; exists b; by apply frozenKey_Some.
  - intros b id. rewrite <-frozenKey_Some. unfold findSymbol.
    destruct (LookupSymbol_ok p b Hf) as (r & -> & Hr). destruct r as [id'|]; [|naive_solver].
    split; [naive_solver|]. intros Hb. f_equal. by eapply Hinj.
Qed.

(** ** Sizing and freezing *)

Lemma slotSizeFrom_ok n fuel j :
  0 ≤ n < 2 ^ 32 → 2 ≤ j ≤ 33 → 34 - j ≤ Z.of_nat fuel →
  ∃ k, j ≤ k ≤ 33 ∧ slotSizeFrom fuel (2 ^ j) n = 2 ^ k ∧ 2 * n ≤ 2 ^ k.
Proof.
  intros Hn. revert j. induction fuel as [|fuel IH]; intros j Hj Hf; [lia|]. simpl.
  rewrite u64_small by (unfold is_u64; lia). destruct (Z.ltb_spec (2 ^ j) (2 * n)) as [Hlt|Hge]; [|by exists j; split_and!; lia || done].
  assert (j < 33) as Hj'.
  { destruct (decide (j = 33)) as [->|]; [|lia]. lia. }
  assert (2 ^ j ≤ 2 ^ 32) by (apply Z.pow_le_mono_r; lia).
  rewrite (proj2 (Z.ltb_ge _ _)) by (change (MaxInt / 2) with 4611686018427387903; lia).
  replace (2 ^ j * 2) with (2 ^ (j + 1)) by (rewrite Z.pow_add_r; lia).
  destruct (IH (j + 1)) as (k & ? & ? & ?); [lia..|]. exists k. split_and!; [lia|lia|done..].
Qed.

Lemma slotSize_ok n :
  0 ≤ n < MaxUint32 → 4 ≤ slotSize n ≤ 2 ^ 33 ∧ 2 * n ≤ slotSize n ∧ Z.land (slotSize n) (slotSize n - 1) = 0.
Proof.
  unfold MaxUint32, slotSize. intros Hn. change 4 with (2 ^ 2) at 2 3 4 5 6.
  destruct (slotSizeFrom_ok n 64 2) as (k & Hk & -> & H2); [lia..|]. split_and!; [|by apply Z.pow_le_mono_r; lia|done|by apply pow2_land; lia].
  change 4 with (2 ^ 2). apply Z.pow_le_mono_r; lia.
Qed.

(** The first [k] symbols. *)
Definition firstKeys (p : SymbolColumns) (k : nat) (id : Z) : option bytes :=
  if id <=? Z.of_nat k then frozenKey p id else None.

Lemma firstKeys_Some p k id b : firstKeys p k id = Some b ↔ id ≤ Z.of_nat k ∧ frozenKey p id = Some b.
Proof. unfold firstKeys. destruct (Z.leb_spec id (Z.of_nat k)); naive_solver lia. Qed.

(** The state of the freezing loop after [k] symbols. *)
Definition freezing (p : SymbolColumns) (size : Z) (k : nat) (t : list Z * list Z) : Prop :=
  table_ok t.1 (firstKeys p k) ∧ zlen t.1 = size ∧ length t.2 = length t.1 ∧
  (∀ s id b, t.1 !! s = Some id → id ≠ 0 → frozenKey p id = Some b → t.2 !! s = Some (HashSymbol b)) ∧
  (∀ s, t.1 !! s = Some 0 → t.2 !! s = Some 0).

Section freeze.
Context (p : SymbolColumns) (n : nat).
Context (Hkeys : ∀ id, is_Some (frozenKey p id) ↔ 1 ≤ id ≤ Z.of_nat n).
Context (Hinj : ∀ id id' b, frozenKey p id = Some b → frozenKey p id' = Some b → id = id').

Lemma firstKeys_range k id b : firstKeys p k id = Some b → 1 ≤ id ≤ Z.of_nat k.
Proof. intros [Hle Hb]%firstKeys_Some. split; [|done]. apply Hkeys. by exists b. Qed.

Lemma freezing_store size k t b s :
  freezing p size k t → frozenKey p (Z.of_nat k + 1) = Some b → t.1 !! s = Some 0 → reachable t.1 (HashSymbol b) s →
  freezing p size (S k) (<[s := Z.of_nat k + 1]> t.1, <[s := HashSymbol b]> t.2).
Proof.
  intros (Ht & Hz & Hl & Hh & H0) Hb Hs Hre. pose proof (lookup_lt_Some _ _ _ Hs).
  unfold freezing. simpl. rewrite !length_insert. split_and!; [|done|done| |].
  - eapply (table_insert _ _ _ b); try done; [lia| | |].
    + destruct (firstKeys p k _) eqn:E; [|done]. apply firstKeys_range in E. lia.
    + apply firstKeys_Some. split; [lia|done].
    + intros id Hne. unfold firstKeys. destruct (Z.leb_spec id (Z.of_nat k)), (Z.leb_spec id (Z.of_nat (S k))); done || lia.
  - intros s' id b' [(<- & <- & ?)|(Hne & Hs')]%list_lookup_insert_Some Hid' Hb'.
    + rewrite list_lookup_insert_eq by lia. congruence.
    + rewrite list_lookup_insert_ne by done. by eapply Hh.
  - intros s' [(_ & ? & _)|(Hne & Hs')]%list_lookup_insert_Some; [lia|]. rewrite list_lookup_insert_ne by done. by apply H0.
Qed.

Lemma freezeSlot_ok size k t :
  (k < n)%nat → Z.of_nat n < size → freezing p size k t → ∃ t', freezeSlot p k t = Ok t' ∧ freezing p size (S k) t'.
Proof.
  intros Hk Hn Hf. pose proof Hf as (Ht & Hz & Hl & _ & _). destruct (proj2 (Hkeys (Z.of_nat k + 1))) as [b Hb]; [lia|].
  unfold freezeSlot. pose proof Hb as [_ ->]%frozenKey_Some. simpl.
  assert (∀ id, firstKeys p k id ≠ Some b) as Habs.
  { intros id E. pose proof E as [_ E']%firstKeys_Some. apply firstKeys_range in E. pose proof (Hinj _ _ _ E' Hb). lia. }
  destruct (probe_symbols t.1 _ b (λ _ _, Ok false) Ht) as (r & -> & Hm).
  { intros s id _ _. f_equal. symmetry. by apply bool_decide_eq_false_2. }
  simpl. destruct r as [id|s|]; [by destruct (Habs id)| |].
  - destruct Hm as (s' & -> & H0 & Hre & _). pose proof (lookup_lt_Some _ _ _ H0).
    rewrite (put_Ok t.2) by lia. simpl. rewrite (put_Ok t.1) by lia. simpl. rewrite Nat2Z.id.
    eexists. split; [done|]. by apply freezing_store.
  - exfalso. destruct Hm as [Hm _]. apply Hm.
    eapply (table_has_room _ _ (Z.of_nat k)); [done|apply firstKeys_range|lia].
Qed.

Lemma freezeSlots_ok size :
  Z.of_nat n < size → 0 < size → Z.land size (size - 1) = 0 →
  ∃ t, for_range n (freezeSlot p) (make_ size, make_ size) = Ok t ∧ freezing p size n t.
Proof.
  intros Hn Hs Hp. apply (for_range_total (freezing p size)).
  - split_and!; simpl.
    + eapply table_ok_proper; [|apply (table_ok_empty (Z.to_nat size)); rewrite Z2Nat.id by lia; done].
      intros id. destruct (firstKeys p 0 id) eqn:E; [|done]. apply firstKeys_range in E. lia.
    + unfold make_. rewrite length_replicate. lia.
    + done.
    + by intros s id b [-> _]%lookup_replicate.
    + done.
  - intros k t Hk Hf. by apply freezeSlot_ok.
Qed.
End freeze.

Lemma freezeSymbolSlots_ok p :
  let n := length (SymbolStarts p) in
  Z.of_nat n < MaxUint32 → (∀ id, is_Some (frozenKey p id) ↔ 1 ≤ id ≤ Z.of_nat n) →
  (∀ id id' b, frozenKey p id = Some b → frozenKey p id' = Some b → id = id') →
  ∃ p', freezeSymbolSlots p = Ok p' ∧ frozen_ok p' ∧ ProgramSymbolCount p' = Z.of_nat n ∧
    (∀ s, SymbolIDs p' !! s = Some 0 → SymbolHashes p' !! s = Some 0) ∧ 2 * Z.of_nat n ≤ zlen (SymbolIDs p') ∧
    0 < zlen (SymbolIDs p') ≤ 2 ^ 33 ∧
    SymbolBytes p' = SymbolBytes p ∧ SymbolStarts p' = SymbolStarts p ∧ SymbolLengths p' = SymbolLengths p.
Proof.
  intros n Hn Hkeys Hinj. destruct (slotSize_ok (Z.of_nat n)) as ([H4 H33] & H2 & Hp); [lia|].
  unfold freezeSymbolSlots. fold n. rewrite (proj2 (Z.ltb_lt _ _)), (proj2 (Z.eqb_neq _ _)) by lia. simpl.
  destruct (freezeSlots_ok p n Hkeys Hinj (slotSize (Z.of_nat n))) as ((ids & hashes) & -> & Ht & Hz & Hl & Hh & H0); [lia|lia|done|].
  simpl in *. eexists. split; [done|]. unfold frozen_ok. simpl.
  rewrite u32_small by (unfold is_u32, MaxUint32 in *; lia). split_and!; try (done || lia). right. split; [|done].
  eapply table_ok_proper; [|exact Ht]. intros id. change (frozenKey p id = firstKeys p n id).
  unfold firstKeys. destruct (Z.leb_spec id (Z.of_nat n)); [done|].
  destruct (frozenKey p id) eqn:E; [|done]. assert (1 ≤ id ≤ Z.of_nat n); [|lia]. apply Hkeys. by rewrite E.
Qed.

(** ** Lowering the spellings of a document *)

(** The slab holds the spellings [ks] back to back. *)
Record slab (p : SymbolColumns) (ks : list bytes) : Prop := {
  sl_bytes : SymbolBytes p = concat ks;
  sl_starts : SymbolStarts p = map (λ k, Arena.Offset (Interner.refOf ks k)) (seq 0 (length ks));
  sl_lengths : SymbolLengths p = map (λ k, Arena.Length (Interner.refOf ks k)) (seq 0 (length ks));
  sl_limit : zlen (concat ks) ≤ MaxUint32
}.

Lemma slab_key p ks id : slab p ks → frozenKey p id = nth_symbol ks id.
Proof.
  intros [Hb Hs Hl Hm]. unfold frozenKey, nth_symbol, Symbol. destruct (Z.leb_spec id 0); [done|].
  rewrite (proj2 (Z.eqb_neq id 0)), Hs, Hl, !length_map, !length_seq, orb_diag by lia.
  destruct (Z.leb_spec (zlen ks) (id - 1)); [by rewrite lookup_ge_None_2 by lia|].
  rewrite !map_seq_lookup_total, Hb by lia. simpl.
  rewrite (Interner.concat_split ks (Z.to_nat (id - 1))) in * by lia. rewrite !length_app in *.
  rewrite u64_small by (unfold is_u64, MaxUint32 in *; lia). rewrite (proj2 (Z.ltb_ge _ _)) by lia.
  unfold csr. rewrite !Nat2Z.id, drop_app_length, take_app_length. symmetry. apply list_lookup_lookup_total_lt. lia.
Qed.

Lemma slab_append p ks b : slab p ks → zlen (concat ks) + zlen b ≤ MaxUint32 → slab (appendSymbol p b) (ks ++ [b]).
Proof.
  intros [Hb Hs Hl Hm] Hfit. unfold MaxUint32 in *. split; cbn [appendSymbol SymbolBytes SymbolStarts SymbolLengths].
  - rewrite Hb, concat_app. simpl. by rewrite app_nil_r.
  - rewrite (Interner.refs_app Arena.Offset), Hs, Interner.refOf_last, Hb. simpl.
    by rewrite u32_small by (unfold is_u32; lia).
  - rewrite (Interner.refs_app Arena.Length), Hl, Interner.refOf_last. simpl.
    by rewrite u32_small by (unfold is_u32; lia).
  - rewrite concat_app, length_app. simpl. rewrite app_nil_r. unfold MaxUint32. lia.
Qed.

Record lowers (l : Lowering) (ks : list bytes) : Prop := {
  lw_distinct : NoDup ks;
  lw_slab : slab (dst l) ks;
  lw_table : table_ok (symIDs l) (nth_symbol ks)
}.

Lemma existingHit_hits l ks b : lowers l ks → hits (symIDs l) (nth_symbol ks) b (existingHit (dst l) b).
Proof.
  intros [_ Hs Ht] s id Hl Hid. destruct (tb_reach _ _ Ht s id Hl Hid) as (b' & Hb' & _).
  unfold existingHit. rewrite Hb'. rewrite <-(slab_key _ _ _ Hs) in Hb'. apply frozenKey_Some in Hb' as [_ ->].
  f_equal. apply bool_decide_ext. naive_solver.
Qed.

(** Interning one spelling while the table has room. *)
Lemma internSymbol_ok l ks b :
  lowers l ks → zlen ks < MaxUint32 → zlen ks < zlen (symIDs l) → zlen b ≤ MaxInt →
  match internSymbol b l with
  | Ok (id, l') => ∃ ks', lowers l' ks' ∧ nth_symbol ks' id = Some b ∧ zlen (symIDs l') = zlen (symIDs l) ∧
      (ks' = ks ∨ b ∉ ks ∧ ks' = ks ++ [b])
  | Err e => e = ErrProgramTooLarge ∧ MaxUint32 < zlen (concat ks) + zlen b
  | Panic _ => False
  end.
Proof.
  intros H Hn Hroom Hz. pose proof H as [Hd Hs Ht]. unfold internSymbol.
  rewrite (proj2 (Z.eqb_neq _ _)) by lia. simpl.
  destruct (probe_symbols _ _ b _ Ht (existingHit_hits l ks b H)) as (r & -> & Hm). simpl.
  pose proof (sl_starts _ _ Hs) as Hst. pose proof (sl_limit _ _ Hs) as Hlim.
  assert (zlen (SymbolStarts (dst l)) = zlen ks) as Hlen by (rewrite Hst, length_map, length_seq; done).
  destruct r as [id|s|]; [by exists ks; auto| |].
  - destruct Hm as (s' & -> & H0 & Hre & Habs). pose proof (lookup_lt_Some _ _ _ H0). rewrite Hlen, (sl_bytes _ _ Hs).
    rewrite (proj2 (Z.ltb_lt _ _)) by lia. simpl. unfold MaxInt, MaxUint32 in *.
    rewrite u64_small by (unfold is_u64; lia).
    destruct (Z.leb_spec (zlen (concat ks) + zlen b) 4294967295); simpl; [|by split].
    rewrite u32_small, put_Ok by (unfold is_u32; lia). simpl. rewrite Nat2Z.id. exists (ks ++ [b]).
    pose proof (nth_symbol_absent ks b Habs) as Hb.
    split_and!; [|by rewrite nth_symbol_app, bool_decide_eq_true_2|simpl; by rewrite length_insert|by right].
    split; [by apply NoDup_snoc|by apply slab_append|by apply table_append].
  - exfalso. destruct Hm as [Hm _]. apply Hm.
    eapply (table_has_room _ _ (zlen ks)); [done|apply nth_symbol_range|lia].
Qed.
