(* ===== verification/SymbolCheck.v ===== *)
(** * Validation of program symbols

    eval/builder.go re-validates the symbol columns of a program it is handed
    ([validateProgramSymbols]): the spellings tile the slab, and one circular scan
    of the probe table checks IDs, hashes and that no entry lies behind an empty
    slot of its probe sequence.  The file shows that the check is exact: it accepts
    what lowering and freezing produce, and what it accepts [LookupSymbol] reads
    correctly. *)

From S2P Require Import Prelude Store Truth Program SymbolTable Interner Frozen.

(** ** Validation

    [Builder.validateProgramSymbols]; the result [false] is the error
    [ErrInvalidProgram] its caller returns for it. *)

Definition reject (ok : bool) : go unit := check ok ErrInvalidProgram.

(** The spellings tile the slab. *)
Definition validateSlab (p : SymbolColumns) : go unit :=
  let count := ProgramSymbolCount p in
  reject ((count =? zlen (SymbolStarts p)) && (count =? zlen (SymbolLengths p)) &&
          (zlen (SymbolHashes p) =? zlen (SymbolIDs p)) && (zlen (SymbolBytes p) <=? MaxUint32)) ;;
  end_ ← for_range (length (SymbolStarts p)) (λ row end_,
    start ← at_ (SymbolStarts p) (Z.of_nat row);
    reject (start =? end_) ;;
    length_ ← at_ (SymbolLengths p) (Z.of_nat row);
    let end_ := u64 (end_ + length_) in
    reject (end_ <=? zlen (SymbolBytes p)) ;;
    Ok end_) 0;
  reject (end_ =? zlen (SymbolBytes p)).

(** The state of the table scan: IDs seen, start of the current cluster, entries. *)
Record scanned := { seen : list Z; clusterStart : Z; nonzero : Z }.

Definition scanSlot (p : SymbolColumns) (start mask : Z) (k : nat) (st : scanned) : go scanned :=
  let logical := Z.of_nat k in
  let slot := Z.land (u64 (start + logical)) mask in
  id ← at_ (SymbolIDs p) slot;
  if id =? 0 then
    hash ← at_ (SymbolHashes p) slot;
    reject (hash =? 0) ;;
    Ok {| seen := seen st; clusterStart := logical + 1; nonzero := nonzero st |}
  else
    let id0 := u32 (id - 1) in
    reject (id0 <? ProgramSymbolCount p) ;;
    let word := Z.shiftr id0 6 in
    let bit := bit64 (Z.land id0 63) in
    w ← at_ (seen st) word;
    reject (Z.land w bit =? 0) ;;
    seen' ← put_ (seen st) word (Z.lor w bit);
    valueStart ← at_ (SymbolStarts p) id0;
    length_ ← at_ (SymbolLengths p) id0;
    value ← slice_ (SymbolBytes p) valueStart (u64 (valueStart + length_));
    hash ← at_ (SymbolHashes p) slot;
    reject (hash =? HashSymbol value) ;;
    let homeLogical := Z.land (u64 (Z.land (HashSymbol value) mask - start)) mask in
    reject (negb ((homeLogical <? clusterStart st) || (logical <? homeLogical))) ;;
    Ok {| seen := seen'; clusterStart := clusterStart st; nonzero := nonzero st + 1 |}.

Definition validateTable (p : SymbolColumns) : go unit :=
  let count := ProgramSymbolCount p in
  let slots := zlen (SymbolIDs p) in
  if slots =? 0 then reject (count =? 0) else
  reject ((Z.land slots (slots - 1) =? 0) && (u64 (2 * count) <=? slots)) ;;
  if count =? 0 then
    reject (forallb (λ id, id =? 0) (SymbolIDs p) && forallb (λ h, h =? 0) (SymbolHashes p))
  else
    match list_find (0 =.) (SymbolIDs p) with
    | None => reject false
    | Some (empty, _) =>
        let mask := slots - 1 in
        let start := Z.land (u64 (Z.of_nat empty + 1)) mask in
        st ← for_range (length (SymbolIDs p)) (scanSlot p start mask)
               {| seen := make_ (Z.shiftr (u64 (count + 63)) 6); clusterStart := 0; nonzero := 0 |};
        reject (nonzero st =? count)
    end.

Definition validateProgramSymbols (p : SymbolColumns) : go unit := validateSlab p ;; validateTable p.

(** ** Validation of the slab *)

(** The Go types of the symbol columns. *)
Record symbols_typed (p : SymbolColumns) : Prop := {
  ty_starts : Forall is_u32 (SymbolStarts p);
  ty_lengths : Forall is_u32 (SymbolLengths p);
  ty_ids : Forall is_u32 (SymbolIDs p);
  ty_count : is_u32 (ProgramSymbolCount p);
  ty_slots : zlen (SymbolIDs p) ≤ MaxInt
}.

(** Every symbol has a range inside the slab. *)
Record tiled (p : SymbolColumns) : Prop := {
  ti_starts : zlen (SymbolStarts p) = ProgramSymbolCount p;
  ti_lengths : zlen (SymbolLengths p) = ProgramSymbolCount p;
  ti_hashes : length (SymbolHashes p) = length (SymbolIDs p);
  ti_bytes : zlen (SymbolBytes p) ≤ MaxUint32;
  ti_range i : (i < Z.to_nat (ProgramSymbolCount p))%nat →
    0 ≤ SymbolStarts p !!! i ∧ 0 ≤ SymbolLengths p !!! i ∧ SymbolStarts p !!! i + SymbolLengths p !!! i ≤ zlen (SymbolBytes p)
}.

(** The spelling of a symbol inside the count. *)
Definition spelling (p : SymbolColumns) (id : Z) : bytes :=
  csr (SymbolBytes p) (SymbolStarts p !!! Z.to_nat (id - 1)) (SymbolLengths p !!! Z.to_nat (id - 1)).

Lemma tiled_key p id :
  tiled p → frozenKey p id = if (1 <=? id) && (id <=? ProgramSymbolCount p) then Some (spelling p id) else None.
Proof.
  intros [Hs Hl _ Hb Hr]. unfold frozenKey, Symbol. destruct (Z.leb_spec id 0), (Z.leb_spec 1 id); try lia; [done|]. simpl.
  rewrite (proj2 (Z.eqb_neq id 0)), Hs, Hl, orb_diag by lia.
  destruct (Z.leb_spec (ProgramSymbolCount p) (id - 1)), (Z.leb_spec id (ProgramSymbolCount p)); try lia; [done|].
  destruct (Hr (Z.to_nat (id - 1))) as (? & ? & ?); [lia|]. unfold MaxUint32 in *.
  rewrite u64_small by (unfold is_u64; lia). by rewrite (proj2 (Z.ltb_ge _ _)) by lia.
Qed.

Lemma reject_inv b u : reject b = Ok u → b = true.
Proof. apply check_inv. Qed.

Lemma validateSlab_sound p : symbols_typed p → validateSlab p = Ok tt → tiled p.
Proof.
  intros Hty. unfold validateSlab. intros ([] & H & Hrest)%go_bind_inv. apply reject_inv in H.
  apply andb_prop in H as [[[Hc1 Hc2]%andb_prop Hc3]%andb_prop Hc4].
  rewrite Z.eqb_eq in Hc1, Hc2, Hc3. rewrite Z.leb_le in Hc4.
  apply go_bind_inv in Hrest as (end_ & Hloop & _).
  apply (for_range_ind (λ k e, is_u64 e ∧ ∀ i, (i < k)%nat → SymbolStarts p !!! i + SymbolLengths p !!! i ≤ zlen (SymbolBytes p)))
    in Hloop as [_ Hr]; [|by split; [done|lia]|].
  - split; [done|done|lia|done|]. intros i Hi. pose proof (Forall_lookup_total_1 _ _ i (ty_starts p Hty)) as Hs.
    pose proof (Forall_lookup_total_1 _ _ i (ty_lengths p Hty)) as Hl. unfold is_u32 in Hs, Hl.
    split_and!; [apply Hs; lia|apply Hl; lia|apply Hr; lia].
  - intros k e e' Hk [He Hr]. rewrite (at_total (SymbolStarts p)) by lia. rewrite Nat2Z.id. simpl.
    intros ([] & Hse%reject_inv & H)%go_bind_inv. rewrite Z.eqb_eq in Hse. revert H. rewrite (at_total (SymbolLengths p)) by lia.
    rewrite Nat2Z.id. simpl. intros ([] & Hle%reject_inv & [= <-])%go_bind_inv. rewrite Z.leb_le in Hle.
    pose proof (Forall_lookup_total_1 _ _ k (ty_starts p Hty) Hk) as Hs. simpl in Hs.
    pose proof (Forall_lookup_total_1 _ _ k (ty_lengths p Hty) ltac:(lia)) as Hl. simpl in Hl. unfold is_u32 in Hs, Hl.
    rewrite u64_small in * by (unfold is_u64; lia). split; [unfold is_u64; lia|]. intros i Hi.
    destruct (decide (i = k)) as [->|]; [lia|apply Hr; lia].
Qed.

Lemma validateSlab_complete p ks :
  slab p ks → ProgramSymbolCount p = zlen ks → length (SymbolHashes p) = length (SymbolIDs p) → validateSlab p = Ok tt.
Proof.
  intros [Hb Hs Hl Hm] Hc Hh. unfold validateSlab.
  assert (length (SymbolStarts p) = length ks ∧ length (SymbolLengths p) = length ks) as [Hsn Hln].
  { by rewrite Hs, Hl, !length_map, !length_seq. }
  rewrite Hsn, Hln, Hc, Hh, Hb, !Z.eqb_refl, (proj2 (Z.leb_le _ _)) by done. simpl.
  for_loop (λ k e, e = zlen (concat (take k ks))) as (end_ & -> & ->); [done| |simpl; by rewrite firstn_all, Z.eqb_refl].
  intros k e Hk ->. rewrite (at_total (SymbolStarts p)) by lia. rewrite Nat2Z.id, Hs, map_seq_lookup_total by done. simpl. rewrite Z.eqb_refl. simpl.
  rewrite (at_total (SymbolLengths p)) by lia. rewrite Nat2Z.id, Hl, map_seq_lookup_total by done. simpl.
  rewrite (take_S_r ks k (ks !!! k)) by (by apply list_lookup_lookup_total_lt).
  rewrite (Interner.concat_split ks k Hk) in *. rewrite concat_app, !length_app in *. simpl. rewrite app_nil_r.
  unfold MaxUint32 in *. rewrite u64_small by (unfold is_u64; lia).
  rewrite (proj2 (Z.leb_le _ _)) by lia. simpl. eexists. split; [done|lia].
Qed.

(** ** Validation of the table *)

Lemma land_wrapped (ids : list Z) x : pow2_table ids → zlen ids ≤ MaxInt → Z.land (u64 x) (zlen ids - 1) = x mod zlen ids.
Proof.
  intros [Hn Hp] Hle. rewrite land_pow2 by done. unfold u64. symmetry. apply Znumtheory.Zmod_div_mod; [done|done|].
  rewrite (pow2_log2 (zlen ids)) by done. exists (2 ^ (64 - Z.log2 (zlen ids))).
  assert (Z.log2 (zlen ids) ≤ 64).
  { transitivity (Z.log2 MaxInt); [by apply Z.log2_le_mono|done]. }
  rewrite <-Z.pow_add_r by (pose proof (Z.log2_nonneg (zlen ids)); lia). f_equal. lia.
Qed.

Section table.
Context (p : SymbolColumns) (start : Z).
Context (Hty : symbols_typed p) (Htile : tiled p) (Hpow : pow2_table (SymbolIDs p)).

Abbreviation ids := (SymbolIDs p).
Abbreviation at_logical k := (slotAt ids start k).

(** The logical position of the home slot of a spelling. *)
Definition home (b : bytes) : nat := slotAt ids (HashSymbol b - start) 0.

Lemma logical_slot k : Z.land (u64 (start + Z.of_nat k)) (zlen ids - 1) = Z.of_nat (at_logical k).
Proof.
  rewrite land_wrapped by (done || apply Hty). unfold slotAt. rewrite Z2Nat.id; [done|]. apply Z.mod_pos_bound, Hpow.
Qed.

Lemma logical_home b : Z.land (u64 (Z.land (HashSymbol b) (zlen ids - 1) - start)) (zlen ids - 1) = Z.of_nat (home b).
Proof.
  rewrite land_wrapped by (done || apply Hty). destruct Hpow as [Hn Hp]. rewrite land_pow2 by done.
  unfold home, slotAt. rewrite Z2Nat.id by (apply Z.mod_pos_bound, Hn). rewrite Zminus_mod_idemp_l. f_equal. lia.
Qed.

(** An entry of the table, as the scan judges it. *)
Definition entryOk (k : nat) (st : scanned) (id h : Z) : bool :=
  (id <=? ProgramSymbolCount p) && negb (rowBit (seen st) (Z.to_nat (id - 1))) && (h =? HashSymbol (spelling p id)) &&
  (clusterStart st <=? Z.of_nat (home (spelling p id))) && (Z.of_nat (home (spelling p id)) <=? Z.of_nat k).

Lemma scanSlot_empty k st h :
  ids !! at_logical k = Some 0 → SymbolHashes p !! at_logical k = Some h →
  scanSlot p start (zlen ids - 1) k st =
  if h =? 0 then Ok {| seen := seen st; clusterStart := Z.of_nat k + 1; nonzero := nonzero st |} else Err ErrInvalidProgram.
Proof.
  intros Hid Hh. unfold scanSlot. rewrite logical_slot, (at_nat _ _ _ Hid). simpl. rewrite (at_nat _ _ _ Hh). simpl. by destruct (h =? 0).
Qed.

Lemma scanSlot_entry k st id h :
  ids !! at_logical k = Some id → id ≠ 0 → SymbolHashes p !! at_logical k = Some h → ProgramSymbolCount p ≤ 64 * zlen (seen st) →
  scanSlot p start (zlen ids - 1) k st =
  if entryOk k st id h
  then Ok {| seen := setRow (seen st) (Z.to_nat (id - 1)); clusterStart := clusterStart st; nonzero := nonzero st + 1 |}
  else Err ErrInvalidProgram.
Proof.
  intros Hid Hne Hh Hseen. unfold scanSlot, entryOk, reject, check. rewrite logical_slot, (at_nat _ _ _ Hid). simpl.
  pose proof (proj1 (Forall_lookup _ _) (ty_ids p Hty) _ _ Hid) as Hu. simpl in Hu. unfold is_u32 in Hu.
  rewrite (proj2 (Z.eqb_neq id 0)), u32_small by (done || unfold is_u32; lia).
  destruct (Z.leb_spec id (ProgramSymbolCount p)) as [Hc|Hc]; [|by rewrite (proj2 (Z.ltb_ge _ _)) by lia].
  rewrite (proj2 (Z.ltb_lt _ _)) by lia. simpl. set (r := Z.to_nat (id - 1)). pose proof (row_split r) as [Er Hr].
  rewrite (row_word (id - 1)), (row_bit (id - 1)) by lia. fold r.
  rewrite (at_total (seen st)) by lia. rewrite Nat2Z.id. simpl.
  pose proof (land_bit64_ne0 (seen st !!! (r `div` 64)%nat) (Z.of_nat (r `mod` 64)) ltac:(lia)) as Hbit.
  unfold rowBit. rewrite <-Hbit. destruct (Z.land _ _ =? 0); simpl; [|done]. rewrite put_Ok by lia. rewrite Nat2Z.id. simpl.
  destruct (ti_range p Htile r) as (? & ? & ?); [lia|]. pose proof (ti_bytes p Htile). unfold MaxUint32 in *.
  rewrite (at_total (SymbolStarts p)) by (pose proof (ti_starts p Htile); lia). simpl.
  rewrite (at_total (SymbolLengths p)) by (pose proof (ti_lengths p Htile); lia). simpl. fold r.
  rewrite u64_small by (unfold is_u64; lia). rewrite slice_csr by lia. simpl. rewrite (at_nat _ _ _ Hh). simpl.
  change (csr _ _ _) with (spelling p id). destruct (h =? HashSymbol (spelling p id)); simpl; [|done].
  rewrite logical_home, setRow_insert by lia.
  rewrite (Z.ltb_antisym (clusterStart st)), (Z.ltb_antisym (Z.of_nat (home _))).
  by destruct (clusterStart st <=? _), (_ <=? Z.of_nat k).
Qed.

Definition occupied (l : nat) : Prop := ∃ id, ids !! at_logical l = Some id ∧ id ≠ 0.

(** The scan's state after [k] slots. *)
Record scan_inv (k : nat) (st : scanned) : Prop := {
  sc_size : ProgramSymbolCount p ≤ 64 * zlen (seen st);
  sc_seen x : (x < Z.to_nat (ProgramSymbolCount p))%nat → rowBit (seen st) x = true ↔ ∃ l, (l < k)%nat ∧ ids !! at_logical l = Some (Z.of_nat x + 1);
  sc_cluster : 0 ≤ clusterStart st ≤ Z.of_nat k;
  sc_crowd l : clusterStart st ≤ Z.of_nat l → (l < k)%nat → occupied l;
  sc_gap : clusterStart st = 0 ∨ ids !! at_logical (Z.to_nat (clusterStart st - 1)) = Some 0;
  sc_count : nonzero st = zlen (filter (λ id, id ≠ 0) (map (λ l, ids !!! at_logical l) (seq 0 k)))
}.

(** What the scan requires of the slot at logical position [k]. *)
Definition slot_fact (k : nat) : Prop :=
  ∀ id h, ids !! at_logical k = Some id → SymbolHashes p !! at_logical k = Some h →
    if decide (id = 0) then h = 0 else
    id ≤ ProgramSymbolCount p ∧ (∀ l, (l < k)%nat → ids !! at_logical l ≠ Some id) ∧ h = HashSymbol (spelling p id) ∧
    (home (spelling p id) ≤ k)%nat ∧ ∀ l, (home (spelling p id) ≤ l < k)%nat → occupied l.

Lemma entryOk_iff k st id h :
  scan_inv k st → 0 < id →
  entryOk k st id h = true ↔
    id ≤ ProgramSymbolCount p ∧ (∀ l, (l < k)%nat → ids !! at_logical l ≠ Some id) ∧ h = HashSymbol (spelling p id) ∧
    (home (spelling p id) ≤ k)%nat ∧ ∀ l, (home (spelling p id) ≤ l < k)%nat → occupied l.
Proof.
  intros [_ Hseen Hcl Hcr Hgap _] Hid. unfold entryOk.
  destruct (decide (id ≤ ProgramSymbolCount p)) as [Hle|]; [|rewrite (proj2 (Z.leb_gt _ _)) by lia; split; [done|lia]].
  rewrite !andb_true_iff, negb_true_iff, !Z.leb_le, Z.eqb_eq, <-not_true_iff_false, Hseen by lia.
  assert ((∃ l, (l < k)%nat ∧ ids !! at_logical l = Some (Z.of_nat (Z.to_nat (id - 1)) + 1)) ↔
          ∃ l, (l < k)%nat ∧ ids !! at_logical l = Some id) as ->.
  { by replace (Z.of_nat (Z.to_nat (id - 1)) + 1) with id by lia. }
  split.
  - intros ((((? & Hno) & ?) & Hc) & ?). split_and!; [done| |done|lia|]; [naive_solver|]. intros l Hl. apply Hcr; lia.
  - intros (? & Hno & ? & ? & Hocc). split_and!; try (done || lia); [naive_solver|].
    destruct (decide (clusterStart st ≤ Z.of_nat (home (spelling p id)))) as [|Hlt]; [done|exfalso].
    destruct Hgap as [|Hz]; [lia|]. destruct (Hocc (Z.to_nat (clusterStart st - 1))) as (id' & ? & ?); [lia|]. congruence.
Qed.

Lemma logical_lookup k : ∃ id h, ids !! at_logical k = Some id ∧ SymbolHashes p !! at_logical k = Some h ∧ is_u32 id.
Proof.
  assert (at_logical k < length ids)%nat as Hlt by (apply slotAt_lt, Hpow).
  destruct (lookup_lt_is_Some_2 ids _ Hlt) as [id Hid].
  destruct (lookup_lt_is_Some_2 (SymbolHashes p) (at_logical k)) as [h Hh]; [by rewrite (ti_hashes p Htile)|].
  exists id, h. split_and!; [done..|]. by apply (proj1 (Forall_lookup _ _) (ty_ids p Hty) _ _ Hid).
Qed.

Lemma filter_snoc k id :
  ids !! at_logical k = Some id →
  filter (λ id, id ≠ 0) (map (λ l, ids !!! at_logical l) (seq 0 (S k))) =
  filter (λ id, id ≠ 0) (map (λ l, ids !!! at_logical l) (seq 0 k)) ++ (if decide (id ≠ 0) then [id] else []).
Proof.
  intros Hid. rewrite seq_S, map_app, filter_app. simpl. rewrite filter_cons, filter_nil.
  by rewrite (list_lookup_total_correct _ _ _ Hid).
Qed.

Lemma scan_inv_empty k st : scan_inv k st → ids !! at_logical k = Some 0 →
  scan_inv (S k) {| seen := seen st; clusterStart := Z.of_nat k + 1; nonzero := nonzero st |}.
Proof.
  intros [Hsz Hseen Hcl Hcr Hgap Hct] H0. split; cbn [seen clusterStart nonzero]; [done| |lia|intros; lia| |].
  - intros x Hx. rewrite Hseen by done. split; [intros (l & ? & ?); exists l; split; [lia|done]|].
    intros (l & Hl & E). exists l. split; [|done]. destruct (decide (l = k)) as [->|]; [|lia]. rewrite H0 in E. simplify_eq. lia.
  - right. by replace (Z.to_nat (Z.of_nat k + 1 - 1)) with k by lia.
  - rewrite (filter_snoc k 0), app_nil_r by done. done.
Qed.

Lemma scan_inv_entry k st id : scan_inv k st → ids !! at_logical k = Some id → 0 < id ≤ ProgramSymbolCount p →
  scan_inv (S k) {| seen := setRow (seen st) (Z.to_nat (id - 1)); clusterStart := clusterStart st; nonzero := nonzero st + 1 |}.
Proof.
  intros [Hsz Hseen Hcl Hcr Hgap Hct] H0 Hid. split; cbn [seen clusterStart nonzero]; [by rewrite length_setRow| |lia| |done|].
  - intros x Hx. pose proof (row_split (Z.to_nat (id - 1))) as [Er Hr].
    rewrite rowBit_setRow, orb_true_iff, Hseen, bool_decide_eq_true by lia. split.
    + intros [(l & ? & ?)| ->]; [exists l; split; [lia|done]|]. exists k. split; [lia|]. rewrite H0. f_equal. lia.
    + intros (l & Hl & E). destruct (decide (l = k)) as [->|]; [right|left; exists l; split; [lia|done]].
      rewrite H0 in E. simplify_eq. lia.
  - intros l Hl Hlt. destruct (decide (l = k)) as [->|]; [exists id; split; [done|lia]|]. apply Hcr; lia.
  - rewrite (filter_snoc k id), decide_True, length_app by (done || lia). simpl. lia.
Qed.

(** One slot: the scan goes on exactly if the slot is as required. *)
Lemma scanSlot_step k st :
  scan_inv k st →
  (slot_fact k ∧ ∃ st', scanSlot p start (zlen ids - 1) k st = Ok st' ∧ scan_inv (S k) st') ∨
  (¬ slot_fact k ∧ scanSlot p start (zlen ids - 1) k st = Err ErrInvalidProgram).
Proof.
  intros Hinv. destruct (logical_lookup k) as (id & h & Hid & Hh & Hu). unfold is_u32 in Hu.
  assert (slot_fact k ↔ if decide (id = 0) then h = 0 else entryOk k st id h = true) as Hfact.
  { split.
    - intros Hf. specialize (Hf id h Hid Hh). destruct (decide (id = 0)); [done|]. apply entryOk_iff; [done|lia|done].
    - intros Hok id' h' Hid' Hh'. simplify_eq. destruct (decide (id = 0)); [done|]. apply entryOk_iff in Hok; [done|done|lia]. }
  destruct (decide (id = 0)) as [->|Hne].
  - rewrite (scanSlot_empty k st h) by done. destruct (Z.eqb_spec h 0) as [->|].
    + left. split; [by apply Hfact|]. eexists. split; [done|]. by apply scan_inv_empty.
    + right. split; [|done]. by rewrite Hfact.
  - rewrite (scanSlot_entry k st id h) by (done || apply Hinv). destruct (entryOk k st id h) eqn:E.
    + left. split; [by apply Hfact|]. eexists. split; [done|]. apply scan_inv_entry; [done..|].
      apply entryOk_iff in E; [|done|lia]. lia.
    + right. split; [|done]. rewrite Hfact. done.
Qed.

Lemma home_lt b : (home b < length ids)%nat.
Proof. apply slotAt_lt, Hpow. Qed.

(** The probe sequence of a spelling in logical positions. *)
Lemma home_shift b j : slotAt ids (HashSymbol b) j = at_logical (home b + j).
Proof.
  destruct Hpow as [Hn _]. unfold home, slotAt. f_equal.
  pose proof (Z.mod_pos_bound (HashSymbol b - start + 0) (zlen ids) Hn).
  rewrite Nat2Z.inj_add, Z2Nat.id by (simpl; lia). rewrite Z.add_assoc, Z.add_shuffle0, Zplus_mod_idemp_r. f_equal. simpl. lia.
Qed.

(** *** What an accepted table gives *)

Lemma slot_fact_entry l id :
  slot_fact l → ids !! at_logical l = Some id → id ≠ 0 →
  0 < id ≤ ProgramSymbolCount p ∧ frozenKey p id = Some (spelling p id) ∧
  (∀ l', (l' < l)%nat → ids !! at_logical l' ≠ Some id) ∧ SymbolHashes p !! at_logical l = Some (HashSymbol (spelling p id)) ∧
  (home (spelling p id) ≤ l)%nat ∧ ∀ l', (home (spelling p id) ≤ l' < l)%nat → occupied l'.
Proof.
  intros Hf Hs Hid. destruct (logical_lookup l) as (id' & h & Hid' & Hh & Hu). unfold is_u32 in Hu. simplify_eq.
  specialize (Hf _ h Hs Hh). rewrite decide_False in Hf by done. destruct Hf as (? & ? & -> & ? & ?).
  split_and!; try (done || lia). rewrite (tiled_key p) by done.
  by rewrite (proj2 (Z.leb_le 1 _)), (proj2 (Z.leb_le _ (ProgramSymbolCount p))) by lia.
Qed.

Abbreviation entriesTo k := (filter (λ id, id ≠ 0) (map (λ l, ids !!! at_logical l) (seq 0 k))).

Lemma entriesTo_elem k id : id ∈ entriesTo k ↔ id ≠ 0 ∧ ∃ l, (l < k)%nat ∧ ids !! at_logical l = Some id.
Proof.
  rewrite list_elem_of_filter, list_elem_of_fmap. apply and_iff_compat_l. split.
  - intros (l & -> & Hl%elem_of_seq). exists l. split; [lia|]. apply list_lookup_lookup_total_lt, slotAt_lt, Hpow.
  - intros (l & Hl & Hid). exists l. rewrite elem_of_seq, (list_lookup_total_correct _ _ _ Hid). split; [done|lia].
Qed.

Lemma entries_distinct k : (∀ l, (l < k)%nat → slot_fact l) → NoDup (entriesTo k).
Proof.
  induction k as [|k IH]; intros Hf; [constructor|].
  destruct (logical_lookup k) as (id & _ & Hid & _). rewrite (filter_snoc k id Hid).
  apply NoDup_app. split; [apply IH; intros; apply Hf; lia|]. destruct (decide (id ≠ 0)) as [Hne|]; [|split; [set_solver|constructor]].
  split; [|apply NoDup_singleton]. intros x (_ & l & Hl & Hx)%entriesTo_elem ->%list_elem_of_singleton.
  destruct (slot_fact_entry k id (Hf k ltac:(lia)) Hid Hne) as (_ & _ & Hno & _). by apply (Hno l).
Qed.

(** As many distinct entries as symbols: every symbol has an entry. *)
Lemma entries_cover id :
  (∀ l, (l < length ids)%nat → slot_fact l) → zlen (entriesTo (length ids)) = ProgramSymbolCount p →
  1 ≤ id ≤ ProgramSymbolCount p → ∃ s, ids !! s = Some id.
Proof.
  intros Hf Hcount Hid. set (symbols := map Z.of_nat (seq 1 (Z.to_nat (ProgramSymbolCount p)))).
  assert (entriesTo (length ids) ≡ₚ symbols) as Hperm.
  { apply submseteq_length_Permutation; [|unfold symbols; rewrite length_map, length_seq; lia].
    apply NoDup_submseteq; [by apply entries_distinct|]. intros x (Hx & l & Hl & Hxl)%entriesTo_elem.
    destruct (slot_fact_entry l x (Hf l Hl) Hxl Hx) as (? & _). apply list_elem_of_fmap. exists (Z.to_nat x).
    rewrite elem_of_seq. lia. }
  assert (id ∈ entriesTo (length ids)) as (_ & l & _ & Hl)%entriesTo_elem; [|by eexists].
  rewrite Hperm. apply list_elem_of_fmap. exists (Z.to_nat id). rewrite elem_of_seq. lia.
Qed.

Lemma facts_table :
  (∀ l, (l < length ids)%nat → slot_fact l) → zlen (entriesTo (length ids)) = ProgramSymbolCount p →
  table_ok ids (frozenKey p) ∧
  ∀ s id b, ids !! s = Some id → id ≠ 0 → frozenKey p id = Some b → SymbolHashes p !! s = Some (HashSymbol b).
Proof.
  intros Hf Hcount.
  assert (∀ s id, ids !! s = Some id → ∃ l, (l < length ids)%nat ∧ s = at_logical l) as Hpos.
  { intros s id Hs. apply slotAt_onto. by eapply lookup_lt_Some. }
  split; [split|].
  - done.
  - intros s id Hs Hid. destruct (Hpos s id Hs) as (l & Hl & ->).
    destruct (slot_fact_entry l id (Hf l Hl) Hs Hid) as (_ & Hk & _ & _ & Hle & Hocc).
    exists (spelling p id). split; [done|]. exists (l - home (spelling p id))%nat. split; [lia|]. split.
    + rewrite home_shift. f_equal. lia.
    + intros j Hj. rewrite home_shift. apply Hocc. lia.
  - intros id b Hb. rewrite (tiled_key p) in Hb by done.
    destruct (Z.leb_spec 1 id), (Z.leb_spec id (ProgramSymbolCount p)); try done. split; [lia|]. by apply entries_cover.
  - intros s s' id Hs Hs' Hid. destruct (Hpos s id Hs) as (l & Hl & ->), (Hpos s' id Hs') as (l' & Hl' & ->).
    destruct (slot_fact_entry l id (Hf l Hl) Hs Hid) as (_ & _ & Hno & _).
    destruct (slot_fact_entry l' id (Hf l' Hl') Hs' Hid) as (_ & _ & Hno' & _).
    destruct (decide (l < l')%nat); [by destruct (Hno' l)|]. destruct (decide (l' < l)%nat); [by destruct (Hno l')|].
    f_equal. lia.
  - intros s id b Hs Hid Hb. destruct (Hpos s id Hs) as (l & Hl & ->).
    destruct (slot_fact_entry l id (Hf l Hl) Hs Hid) as (_ & Hk & _ & Hh & _). congruence.
Qed.

(** *** What a well-formed table passes *)

(** The position before the first logical one is empty. *)
Context (Hgap : ids !! at_logical (length ids - 1) = Some 0).

Lemma table_home id l :
  table_ok ids (frozenKey p) → (l < length ids)%nat → ids !! at_logical l = Some id → id ≠ 0 →
  frozenKey p id = Some (spelling p id) ∧ id ≤ ProgramSymbolCount p ∧ (home (spelling p id) ≤ l)%nat ∧
  ∀ l', (home (spelling p id) ≤ l' < l)%nat → occupied l'.
Proof.
  intros Ht Hl Hid Hne. destruct (tb_reach _ _ Ht _ _ Hid Hne) as (b & Hb & d & Hd & E & Hc).
  pose proof Hb as Hb'. rewrite (tiled_key p) in Hb' by done.
  destruct (Z.leb_spec 1 id), (Z.leb_spec id (ProgramSymbolCount p)); try done. simpl in Hb'. injection Hb' as <-.
  pose proof (home_lt (spelling p id)) as Hh. rewrite home_shift in E.
  destruct (slotAt_near ids start (home (spelling p id) + d) l) as [Hd'|Hd']; [done|lia|done| |exfalso].
  - split_and!; [done|done|lia|]. intros l' Hl'. destruct (Hc (l' - home (spelling p id))%nat) as (id' & Hid' & Hne'); [lia|].
    rewrite home_shift in Hid'. exists id'. split; [|done]. rewrite <-Hid'. do 2 f_equal. lia.
  - destruct (Hc (length ids - 1 - home (spelling p id))%nat) as (id' & Hid' & Hne'); [lia|].
    rewrite home_shift in Hid'. replace (home (spelling p id) + _)%nat with (length ids - 1)%nat in Hid' by lia. congruence.
Qed.

Lemma table_facts l :
  table_ok ids (frozenKey p) → (∀ s, ids !! s = Some 0 → SymbolHashes p !! s = Some 0) →
  (∀ s id b, ids !! s = Some id → id ≠ 0 → frozenKey p id = Some b → SymbolHashes p !! s = Some (HashSymbol b)) →
  (l < length ids)%nat → slot_fact l.
Proof.
  intros Ht H0 Hh Hl id h Hid Hhs. destruct (decide (id = 0)) as [->|Hne]; [specialize (H0 _ Hid); congruence|].
  destruct (table_home id l Ht Hl Hid Hne) as (Hk & Hc & Hle & Hocc).
  split_and!; [done| |by specialize (Hh _ _ _ Hid Hne Hk); simplify_eq|done|done].
  intros l' Hl' E. pose proof (tb_inj _ _ Ht _ _ _ Hid E Hne) as Es.
  destruct (slotAt_near ids start l l') as [?|?]; [lia|lia|done|lia|lia].
Qed.

Lemma table_entries :
  (∀ l, (l < length ids)%nat → slot_fact l) → table_ok ids (frozenKey p) → zlen (entriesTo (length ids)) = ProgramSymbolCount p.
Proof.
  intros Hf Ht. set (symbols := map Z.of_nat (seq 1 (Z.to_nat (ProgramSymbolCount p)))).
  assert (zlen symbols = ProgramSymbolCount p) as <-.
  { unfold symbols. rewrite length_map, length_seq. pose proof (ty_count p Hty). unfold is_u32 in *. lia. }
  f_equal. apply Permutation_length, NoDup_Permutation; [by apply entries_distinct| |].
  { unfold symbols. apply (NoDup_fmap_2 Z.of_nat), NoDup_seq. }
  intros x. unfold symbols. rewrite entriesTo_elem, list_elem_of_fmap. split.
  - intros (Hx & l & Hl & Hxl). destruct (slot_fact_entry l x (Hf l Hl) Hxl Hx) as (? & _). exists (Z.to_nat x).
    rewrite elem_of_seq. lia.
  - intros (k & -> & Hk%elem_of_seq). split; [lia|].
    destruct (tb_cover _ _ Ht (Z.of_nat k) (spelling p (Z.of_nat k))) as (_ & s & Hs).
    { rewrite (tiled_key p) by done. by rewrite (proj2 (Z.leb_le 1 _)), (proj2 (Z.leb_le _ (ProgramSymbolCount p))) by lia. }
    destruct (slotAt_onto ids start s) as (l & Hl & ->); [by eapply lookup_lt_Some|]. by exists l.
Qed.
End table.

Lemma scan_inv_init p start :
  symbols_typed p → scan_inv p start 0 {| seen := make_ (Z.shiftr (u64 (ProgramSymbolCount p + 63)) 6); clusterStart := 0; nonzero := 0 |}.
Proof.
  intros Hty. pose proof (ty_count p Hty) as Hc. destruct (WordCount_bounds _ Hc) as (? & ? & ?). fold (WordCount (ProgramSymbolCount p)).
  split; simpl; try done; [unfold make_; rewrite length_replicate; lia| |lia|by left].
  intros x Hx. unfold make_. rewrite rowBit_replicate0 by lia. naive_solver lia.
Qed.

Lemma scan_start p e :
  pow2_table (SymbolIDs p) → zlen (SymbolIDs p) ≤ MaxInt → SymbolIDs p !! e = Some 0 →
  let start := Z.land (u64 (Z.of_nat e + 1)) (zlen (SymbolIDs p) - 1) in
  SymbolIDs p !! slotAt (SymbolIDs p) start (length (SymbolIDs p) - 1) = Some 0.
Proof.
  intros Hpow Hle He. simpl. rewrite land_wrapped by done. rewrite <-He. f_equal. unfold slotAt.
  pose proof (lookup_lt_Some _ _ _ He) as Hlt. rewrite Zplus_mod_idemp_l.
  replace (Z.of_nat e + 1 + Z.of_nat (length (SymbolIDs p) - 1)) with (Z.of_nat e + 1 * zlen (SymbolIDs p)) by lia.
  rewrite Z_mod_plus_full, Z.mod_small by lia. lia.
Qed.

(** ** The validation is exact *)

Lemma validateTable_sound p : symbols_typed p → tiled p → validateTable p = Ok tt → frozen_ok p.
Proof.
  intros Hty Htile. unfold validateTable. pose proof (ti_hashes p Htile) as Hl. pose proof (ty_count p Hty) as Hc. unfold is_u32 in Hc.
  assert (ProgramSymbolCount p = 0 → ∀ id, frozenKey p id = None) as Hnone.
  { intros E id. rewrite (tiled_key p), E by done. by destruct (Z.leb_spec 1 id), (Z.leb_spec id 0); try lia. }
  destruct (Z.eqb_spec (zlen (SymbolIDs p)) 0) as [E|Hn].
  { intros H%reject_inv%Z.eqb_eq. split; [done|left]. split; [by destruct (SymbolIDs p)|by apply Hnone]. }
  intros ([] & Hr%reject_inv & H)%go_bind_inv. apply andb_prop in Hr as [Hp _]. rewrite Z.eqb_eq in Hp.
  assert (pow2_table (SymbolIDs p)) as Hpow by (split; [lia|done]). split; [done|right]. revert H.
  destruct (Z.eqb_spec (ProgramSymbolCount p) 0) as [E|_].
  { intros [Hz _]%reject_inv%andb_prop. rewrite forallb_forall in Hz.
    assert (∀ s id, SymbolIDs p !! s = Some id → id = 0) as H0.
    { intros s id Hs. by apply Z.eqb_eq, Hz, list_elem_of_In, (list_elem_of_lookup_2 _ s). }
    split; [|intros s id b Hs Hid; by apply H0 in Hs]. split; [done| | |].
    - intros s id Hs Hid. by apply H0 in Hs.
    - intros id b Hb. by rewrite Hnone in Hb.
    - intros s s' id Hs _ Hid. by apply H0 in Hs. }
  destruct (list_find (0 =.) (SymbolIDs p)) as [[e x]|] eqn:Hf; [|done].
  set (start := Z.land _ _). intros (st & Hloop & Hcnt)%go_bind_inv. apply reject_inv, Z.eqb_eq in Hcnt.
  apply (for_range_ind (λ k st, scan_inv p start k st ∧ ∀ l, (l < k)%nat → slot_fact p start l)) in Hloop as [Hinv Hfacts].
  - apply (facts_table p start); try done. rewrite <-Hcnt. symmetry. apply Hinv.
  - split; [by apply scan_inv_init|lia].
  - intros k t t' Hk [Hi Hfs] Hs. destruct (scanSlot_step p start Hty Htile Hpow k t Hi) as [(Hfk & t'' & E & Hi')|(_ & E)];
      [|congruence]. rewrite E in Hs. injection Hs as <-. split; [done|]. intros l Hlt.
    destruct (decide (l = k)) as [->|]; [done|]. apply Hfs. lia.
Qed.

Lemma validateTable_complete p :
  symbols_typed p → tiled p → frozen_ok p → SymbolIDs p ≠ [] →
  (∀ s, SymbolIDs p !! s = Some 0 → SymbolHashes p !! s = Some 0) → 2 * ProgramSymbolCount p ≤ zlen (SymbolIDs p) →
  validateTable p = Ok tt.
Proof.
  intros Hty Htile (Hl & [[? _]|[Ht Hh]]) Hne H0 H2; [done|]. pose proof (tb_pow2 _ _ Ht) as Hpow. pose proof Hpow as [Hn Hp].
  pose proof (ty_count p Hty) as Hc. unfold is_u32 in Hc.
  unfold validateTable. rewrite (proj2 (Z.eqb_neq _ _)), Hp, Z.eqb_refl, (u64_small (2 * ProgramSymbolCount p)) by (done || unfold is_u64; lia).
  rewrite (proj2 (Z.leb_le (2 * ProgramSymbolCount p) _) H2). simpl. destruct (Z.eqb_spec (ProgramSymbolCount p) 0) as [E|Hc0].
  { assert (∀ s id, SymbolIDs p !! s = Some id → id = 0) as Hz.
    { intros s id Hs. destruct (decide (id = 0)) as [|Hid]; [done|]. destruct (tb_reach _ _ Ht _ _ Hs Hid) as (b & Hb & _).
      rewrite (tiled_key p), E in Hb by done. destruct (Z.leb_spec 1 id), (Z.leb_spec id 0); done || lia. }
    rewrite (proj2 (forallb_forall _ (SymbolIDs p))), (proj2 (forallb_forall _ (SymbolHashes p))); [done| |].
    - intros h [s Hs]%list_elem_of_In%list_elem_of_lookup. apply Z.eqb_eq.
      destruct (lookup_lt_is_Some_2 (SymbolIDs p) s) as [id Hid]; [rewrite <-Hl; by eapply lookup_lt_Some|].
      rewrite (Hz _ _ Hid) in Hid. specialize (H0 _ Hid). congruence.
    - intros id [s Hs]%list_elem_of_In%list_elem_of_lookup. apply Z.eqb_eq. by eapply Hz. }
  assert (0 ∈ SymbolIDs p) as H0in.
  { eapply (table_has_room _ _ (ProgramSymbolCount p)); [done| |lia]. intros id b. rewrite (tiled_key p) by done.
    destruct (Z.leb_spec 1 id), (Z.leb_spec id (ProgramSymbolCount p)); done || lia. }
  destruct (list_find (0 =.) (SymbolIDs p)) as [[e x]|] eqn:Hf; [|by apply list_find_None, Forall_forall with (x := 0) in Hf].
  apply list_find_Some in Hf as (He & <- & _). set (start := Z.land _ _).
  pose proof (scan_start p e Hpow (ty_slots p Hty) He) as Hgap. fold start in Hgap.
  assert (∀ l, (l < length (SymbolIDs p))%nat → slot_fact p start l) as Hfacts by (intros; by apply table_facts).
  for_loop (scan_inv p start) as (st & -> & Hinv); [by apply scan_inv_init| |].
  - intros k st Hk Hi. destruct (scanSlot_step p start Hty Htile Hpow k st Hi) as [(_ & ?)|(Hno & _)]; [done|]. by destruct Hno; apply Hfacts.
  - simpl. rewrite (sc_count _ _ _ _ Hinv), table_entries, Z.eqb_refl by done. done.
Qed.

(** ** Properties *)

Lemma validated_frozen p : symbols_typed p → validateProgramSymbols p = Ok tt → tiled p ∧ frozen_ok p.
Proof.
  intros Hty ([] & Hs & Ht)%go_bind_inv. apply validateSlab_sound in Hs; [|done]. split; [done|]. by apply validateTable_sound.
Qed.

(** C22: on symbol columns that [validateProgramSymbols] accepts, [LookupSymbol] is
    exact: it never panics, a hit is an ID of the program with those bytes, and a
    miss means that no symbol of the program has them.  The check of cluster starts
    is what makes the bounded probe find every entry. *)
Theorem validated_symbols_exact (p : SymbolColumns) (b : bytes) :
  symbols_typed p → validateProgramSymbols p = Ok tt →
  ∃ r, LookupSymbol p b = Ok r ∧
    match r with
    | Some id => 1 ≤ id ≤ ProgramSymbolCount p ∧ Symbol p id = Some b
    | None => ∀ id, 0 ≤ id → Symbol p id ≠ Some b
    end.
Proof.
  intros Hty [Htile Hf]%validated_frozen; [|done]. destruct (LookupSymbol_ok p b Hf) as (r & -> & Hr). exists r. split; [done|].
  destruct r as [id|].
  - pose proof Hr as Hr'. rewrite (tiled_key p) in Hr' by done. apply frozenKey_Some in Hr as [_ ->].
    destruct (Z.leb_spec 1 id), (Z.leb_spec id (ProgramSymbolCount p)); done.
  - intros id Hid E. apply (Hr id), frozenKey_Some. done.
Qed.

(** Interning the spellings of a document in order. *)
Fixpoint internAll (bs : list bytes) (l : Lowering) : go (list Z * Lowering) :=
  match bs with
  | [] => Ok ([], l)
  | b :: bs => '(id, l) ← internSymbol b l; '(ids, l) ← internAll bs l; Ok (id :: ids, l)
  end.

(** The lowerer before the first symbol: a clear table for [n] symbols, no columns. *)
Definition freshLowering (n : Z) : Lowering :=
  {| symIDs := make_ (slotSize n);
     dst := {| SymbolBytes := []; SymbolStarts := []; SymbolLengths := []; SymbolHashes := []; SymbolIDs := []; ProgramSymbolCount := 0 |} |}.

Lemma internAll_ok bs l ks :
  lowers l ks → zlen ks + zlen bs < MaxUint32 → zlen ks + zlen bs < zlen (symIDs l) → zlen (concat ks) + zlen (concat bs) ≤ MaxUint32 →
  ∃ ids l' ks', internAll bs l = Ok (ids, l') ∧ lowers l' ks' ∧ zlen ks' ≤ zlen ks + zlen bs ∧
    (∀ id b, nth_symbol ks id = Some b → nth_symbol ks' id = Some b) ∧ Forall2 (λ b id, nth_symbol ks' id = Some b) bs ids.
Proof.
  revert l ks. induction bs as [|b bs IH]; intros l ks Hl Hn Hroom Hfit; simpl in *.
  { exists [], l, ks. split_and!; done || lia. }
  rewrite length_app in Hfit. unfold MaxUint32 in *.
  pose proof (internSymbol_ok l ks b Hl ltac:(unfold MaxUint32; lia) ltac:(lia) ltac:(unfold MaxInt; lia)) as Hi.
  destruct (internSymbol b l) as [[id l1]|e|m]; [|unfold MaxUint32 in Hi; lia|done]. simpl.
  destruct Hi as (ks1 & Hl1 & Hid & Hz & Hks1).
  assert (zlen ks1 ≤ zlen ks + 1 ∧ zlen (concat ks1) ≤ zlen (concat ks) + zlen b) as [Hn1 Hc1].
  { destruct Hks1 as [->|(_ & ->)]; [lia|]. rewrite concat_app, !length_app. simpl. rewrite app_nil_r. lia. }
  assert (∀ id b', nth_symbol ks id = Some b' → nth_symbol ks1 id = Some b') as Hkeep.
  { destruct Hks1 as [->|(_ & ->)]; [done|]. intros id' b' E. pose proof (nth_symbol_range _ _ _ E).
    by rewrite nth_symbol_app, bool_decide_eq_false_2 by lia. }
  destruct (IH l1 ks1) as (ids & l2 & ks2 & -> & Hl2 & Hn2 & Hkeep2 & Hids); [done|lia..|]. simpl.
  exists (id :: ids), l2, ks2. split_and!; [done|done|lia|auto|]. constructor; auto.
Qed.

Lemma freshLowering_ok n : 0 ≤ n < MaxUint32 → lowers (freshLowering n) [] ∧ n < zlen (symIDs (freshLowering n)).
Proof.
  intros Hn. destruct (slotSize_ok n Hn) as ([H4 _] & H2 & Hp). split; [split; simpl|].
  - constructor.
  - by split.
  - apply table_ok_fresh; [lia|done].
  - simpl. unfold make_. rewrite length_replicate. lia.
Qed.

(** The columns of a frozen slab have their Go types. *)
Lemma slab_typed p ks :
  slab p ks → zlen ks < MaxUint32 → ProgramSymbolCount p = zlen ks → frozen_ok p → zlen (SymbolIDs p) ≤ MaxInt → symbols_typed p.
Proof.
  intros Hs Hn Hc Hf Hm. pose proof Hs as [_ Hst Hle Hlim]. unfold MaxUint32 in *. split; [| | |unfold is_u32; lia|done].
  - rewrite Hst. apply Forall_forall. intros x (k & -> & Hk%elem_of_seq)%list_elem_of_fmap. simpl.
    rewrite (Interner.concat_split ks k) in Hlim by lia. rewrite !length_app in Hlim. unfold is_u32. lia.
  - rewrite Hle. apply Forall_forall. intros x (k & -> & Hk%elem_of_seq)%list_elem_of_fmap. simpl.
    rewrite (Interner.concat_split ks k) in Hlim by lia. rewrite !length_app in Hlim. unfold is_u32. lia.
  - apply Forall_forall. intros id [s Hid]%list_elem_of_lookup. destruct (decide (id = 0)) as [->|Hne]; [done|].
    destruct Hf as (_ & [[Hi _]|[Ht _]]); [by rewrite Hi, lookup_nil in Hid|].
    destruct (tb_reach _ _ Ht _ _ Hid Hne) as (b & Hb & _). rewrite (slab_key _ _ _ Hs) in Hb.
    apply nth_symbol_range in Hb. unfold is_u32. lia.
Qed.

Lemma slab_tiled p ks : slab p ks → ProgramSymbolCount p = zlen ks → length (SymbolHashes p) = length (SymbolIDs p) → tiled p.
Proof.
  intros [Hb Hst Hle Hlim] Hc Hh. split; [by rewrite Hst, length_map, length_seq|by rewrite Hle, length_map, length_seq|done|by rewrite Hb|].
  intros i Hi. rewrite Hst, Hle, !map_seq_lookup_total, Hb by lia. simpl.
  rewrite (Interner.concat_split ks i) by lia. rewrite !length_app. lia.
Qed.

(** Freezing a slab of distinct spellings. *)
Lemma frozen_slab (p : SymbolColumns) ks :
  NoDup ks → slab p ks → zlen ks < MaxUint32 →
  ∃ p', freezeSymbolSlots p = Ok p' ∧ SymbolSpace (findSymbol p') (Symbol p') (ProgramSymbolCount p') ∧ symbols_typed p' ∧ validateProgramSymbols p' = Ok tt ∧
    ProgramSymbolCount p' = zlen ks ∧ (∀ id, frozenKey p' id = nth_symbol ks id) ∧ ∀ id b, nth_symbol ks id = Some b → findSymbol p' b = Some id.
Proof.
  intros Hd Hs Hn. assert (length (SymbolStarts p) = length ks) as Hlen by (rewrite (sl_starts _ _ Hs), length_map, length_seq; done).
  destruct (freezeSymbolSlots_ok p) as (p' & Hfz & Hf & Hcnt & H0 & H2 & Hsz & Eb & Es & El).
  { by rewrite Hlen. }
  { intros id. rewrite (slab_key _ ks), Hlen by done. apply nth_symbol_is_Some. }
  { intros id id' b. rewrite !(slab_key _ ks) by done. by apply nth_symbol_inj. }
  rewrite Hlen in *. assert (slab p' ks) as Hsp by (destruct Hs; split; congruence).
  assert (SymbolSpace (findSymbol p') (Symbol p') (ProgramSymbolCount p')) as Hspace.
  { rewrite Hcnt. apply frozen_space; [done| |].
    - intros id. rewrite (slab_key _ ks) by done. apply nth_symbol_is_Some.
    - intros id id' b. rewrite !(slab_key _ ks) by done. by apply nth_symbol_inj. }
  assert (symbols_typed p') as Hty by (apply (slab_typed p' ks); unfold MaxInt; done || lia).
  exists p'. split_and!; [done|done|done| |done|by intros id; apply slab_key|].
  - unfold validateProgramSymbols. destruct Hf as [Hh Hf'] eqn:Ef. rewrite (validateSlab_complete p' ks) by (done || lia). simpl.
    apply validateTable_complete; [done|by eapply slab_tiled|done| |done|lia]. intros E. rewrite E in Hsz. simpl in Hsz. lia.
  - intros id b E. rewrite <-(slab_key p') in E by done. apply frozenKey_Some in E. by apply (space_find (SymbolSpace := Hspace)).
Qed.

(** Lowering and freezing the spellings of a document: with a probe table sized by
    [slotSize] no intern call fails, the frozen program maps every spelling to the ID
    it was interned under and back, distinct spellings to distinct IDs, and the
    columns pass the validation of the batch builder. *)
Theorem lowered_symbols_round_trip (bs : list bytes) :
  zlen bs < MaxUint32 → zlen (concat bs) ≤ MaxUint32 →
  ∃ ids l p, internAll bs (freshLowering (zlen bs)) = Ok (ids, l) ∧ freezeSymbolSlots (dst l) = Ok p ∧
    SymbolSpace (findSymbol p) (Symbol p) (ProgramSymbolCount p) ∧ Forall2 (λ b id, findSymbol p b = Some id) bs ids ∧
    symbols_typed p ∧ validateProgramSymbols p = Ok tt.
Proof.
  intros Hn Hb. destruct (freshLowering_ok (zlen bs)) as [Hl Hr]; [lia|].
  destruct (internAll_ok bs _ [] Hl) as (ids & l & ks & Hi & [Hd Hs Ht] & Hk & _ & Hids); [cbn [length concat]; lia..|].
  destruct (frozen_slab (dst l) ks) as (p & Hfz & Hspace & Hty & Hval & _ & _ & Hfind); [done|done|simpl in Hk; lia|].
  exists ids, l, p. split_and!; try done. eapply Forall2_impl; [exact Hids|]. intros b id. apply Hfind.
Qed.
