(* ===== verification/Ast.v ===== *)
(** * Package [internal/ast]: policy documents

    kind.go, source.go, document.go and value.go.  A document is a set of parallel
    columns: node [n] is row [n-1] of the node columns, whose reference selects a
    row of the payload table of its kind.  Every accessor checks its ranges and
    reports failure as [None].  A document's columns have fewer than 2^32 entries,
    as the builder of the package ensures, so the 32-bit sum of a checked start
    and count does not wrap. *)

From S2P Require Import Prelude Store Truth Schema Result Program Batch Predicate Evidence SymbolTable.

(** ** Node kinds and comparison operations (kind.go) *)

Definition NodeKindInvalid : Z := 0.
Definition NodeKindCompare : Z := 1.
Definition NodeKindAll : Z := 2.
Definition NodeKindAny : Z := 3.
Definition NodeKindNot : Z := 4.
Definition NodeKindEvidence : Z := 5.
Definition NodeKindBoolean : Z := 6.

Definition isGroupKind (k : Z) : bool := (k =? NodeKindAll) || (k =? NodeKindAny).

Definition CompareOpInvalid : Z := 0.
Definition CompareOpEqual : Z := 1.
Definition CompareOpNotEqual : Z := 2.
Definition CompareOpIn : Z := 3.
Definition CompareOpExists : Z := 4.
Definition CompareOpLess : Z := 5.
Definition CompareOpLessEqual : Z := 6.
Definition CompareOpGreater : Z := 7.
Definition CompareOpGreaterEqual : Z := 8.
Definition CompareOpDefined : Z := 9.

Definition CompareOpValid (op : Z) : bool := (CompareOpEqual <=? op) && (op <=? CompareOpDefined).
Definition RequiresValue (op : Z) : bool := CompareOpValid op && negb (op =? CompareOpExists) && negb (op =? CompareOpDefined).

(** ** Documents *)

Record NodeColumns := {
  dNodeKinds : list Z;
  dNodeRefs : list Z;
  dCompareFields : list Z;
  dCompareOps : list Z;
  dCompareValues : list Z;
  dCompareListStarts : list Z;
  dCompareListCounts : list Z;
  dListValueIDs : list Z;
  dGroupChildStarts : list Z;
  dGroupChildCounts : list Z;
  dChildNodeIDs : list Z;
  dNotChildren : list Z;
  dEvidenceKinds : list Z;
  dEvidenceStates : list Z;
  dEvidenceSubjects : list Z;
  dEvidenceScopes : list Z;
  dEvidenceTimings : list Z;
  dSourceStarts : list Z;
  dSourceEnds : list Z;
  dInputBytes : list Z
}.

Record LiteralColumns := {
  dValueKinds : list Z;
  dValueRefs : list Z;
  dSymbolStarts : list Z;
  dSymbolLengths : list Z;
  dSymbolBytes : list Z;
  dIntegerValues : list Z;
  dBooleanValues : list Z;
  dTimestampValues : list Z
}.

(** Evidence catalogs and the identity of the policy. *)
Record CatalogColumns := {
  dEvidenceKindNames : list Z;
  dEvidenceKindSourceStarts : list Z;
  dEvidenceKindSourceEnds : list Z;
  dEvidenceStateNames : list Z;
  dEvidenceStateSourceStarts : list Z;
  dEvidenceStateSourceEnds : list Z;
  dPolicyName : Z;
  dPolicyVersion : Z;
  dContentHash : list Z;
  dSourceSet : bool
}.

(** The columns that name the semantic roots. *)
Record RootColumns := {
  dRequirementApplicabilityRoots : list Z;
  dClauseAssertionRoots : list Z;
  dClauseEvidenceNodeIDs : list Z
}.

(** Outcomes, remediations, requirements and clauses. *)
Record SemanticTables := {
  dOutcomeNames : list Z; dOutcomePrecedence : list Z; dOutcomeTerminal : list bool; dOutcomeSourceStarts : list Z; dOutcomeSourceEnds : list Z;
  dRemediationKinds : list Z; dRemediationFields : list Z; dRemediationValues : list Z; dRemediationEvidenceKinds : list Z;
  dRemediationSourceStarts : list Z; dRemediationSourceEnds : list Z;
  dRequirementIDs : list Z; dRequirementClauseStarts : list Z; dRequirementClauseCounts : list Z; dRequirementClauseIDs : list Z;
  dRequirementSourceStarts : list Z; dRequirementSourceEnds : list Z;
  dClauseEvidenceStarts : list Z; dClauseEvidenceCounts : list Z;
  dClauseRemediationStarts : list Z; dClauseRemediationCounts : list Z; dClauseRemediationIDs : list Z;
  dClauseOnSatisfied : list Z; dClauseOnFalse : list Z; dClauseOnMissing : list Z; dClauseOnStale : list Z; dClauseOnUnclear : list Z;
  dClauseOnUnverifiable : list Z; dClauseOnConflict : list Z; dClauseExplanationIDs : list Z;
  dClauseSourceStarts : list Z; dClauseSourceEnds : list Z
}.

(** Templates and explanations. *)
Record TemplateColumns := {
  dTemplateBytes : list Z; dTemplateOpStarts : list Z; dTemplateOpCounts : list Z; dTemplateLiteralStarts : list Z; dTemplateMaxBytes : list Z;
  dTemplateContexts : list Z; dTemplateOps : list Z; dTemplateArgs : list Z; dAssumptionTemplateIDs : list Z;
  dExplanationRationaleIDs : list Z; dExplanationUncertaintyStarts : list Z; dExplanationUncertaintyCounts : list Z; dExplanationUncertaintyIDs : list Z;
  dEvidenceIssueTemplateIDs : list Z; dAssumptionsSet : list Z
}.

Record Document := {
  nodes :> NodeColumns;
  literals :> LiteralColumns;
  catalogs :> CatalogColumns;
  roots :> RootColumns;
  tables :> SemanticTables;
  templates :> TemplateColumns
}.

Definition DocLen (d : NodeColumns) : Z := zlen (dNodeKinds d).

(** ** Node accessors (document.go) *)

Definition nodeIndex (d : NodeColumns) (id : Z) : option nat :=
  if id =? 0 then None else
  let i := id - 1 in
  if (zlen (dNodeKinds d) <=? i) || (zlen (dNodeRefs d) <=? i) then None else Some (Z.to_nat i).

Definition Kind (d : NodeColumns) (id : Z) : option Z := i ← nodeIndex d id; Some (dNodeKinds d !!! i).

(** The payload row of a node of the wanted kind. *)
Definition payload (d : NodeColumns) (id : Z) (want : Z → bool) : option Z :=
  i ← nodeIndex d id; if want (dNodeKinds d !!! i) then Some (dNodeRefs d !!! i) else None.

(** [r < len(col)] for every column. *)
Definition covers (r : Z) (cols : list (list Z)) : bool := forallb (λ col, r <? zlen col) cols.

Definition Compare (d : NodeColumns) (id : Z) : option (Z * Z * Z) :=
  r ← payload d id (Z.eqb NodeKindCompare);
  if covers r [dCompareFields d; dCompareOps d; dCompareValues d]
  then Some (dCompareFields d !!! Z.to_nat r, dCompareOps d !!! Z.to_nat r, dCompareValues d !!! Z.to_nat r) else None.

Definition CompareListRange (d : NodeColumns) (id : Z) : option (Z * Z) :=
  r ← payload d id (Z.eqb NodeKindCompare);
  if negb (covers r [dCompareListStarts d; dCompareListCounts d]) then None else
  let start := dCompareListStarts d !!! Z.to_nat r in
  let count := dCompareListCounts d !!! Z.to_nat r in
  if zlen (dListValueIDs d) <? u64 (start + count) then None else Some (start, count).

Definition InValues (d : NodeColumns) (id : Z) : option (list Z) :=
  r ← payload d id (Z.eqb NodeKindCompare);
  if (zlen (dCompareOps d) <=? r) || negb (dCompareOps d !!! Z.to_nat r =? CompareOpIn) then None else
  '(start, count) ← CompareListRange d id;
  Some (csr (dListValueIDs d) start count).

Definition GroupRange (d : NodeColumns) (id : Z) : option (Z * Z) :=
  r ← payload d id isGroupKind;
  if negb (covers r [dGroupChildStarts d; dGroupChildCounts d]) then None else
  let start := dGroupChildStarts d !!! Z.to_nat r in
  let count := dGroupChildCounts d !!! Z.to_nat r in
  if zlen (dChildNodeIDs d) <? u64 (start + count) then None else Some (start, count).

Definition GroupChildren (d : NodeColumns) (id : Z) : option (list Z) :=
  '(start, count) ← GroupRange d id;
  Some (csr (dChildNodeIDs d) start count).

Definition NotChild (d : NodeColumns) (id : Z) : option Z :=
  r ← payload d id (Z.eqb NodeKindNot);
  if zlen (dNotChildren d) <=? r then None else Some (dNotChildren d !!! Z.to_nat r).

(** An optional qualifier column: empty means unused. *)
Definition qualifier (col : list Z) (r : Z) : option Z :=
  if bool_decide (col = []) then Some 0 else if zlen col <=? r then None else Some (col !!! Z.to_nat r).

Record EvidenceQuery := { qKind : Z; qState : Z; qSubject : Z; qScope : Z; qTiming : Z }.

Definition EvidenceMatch (d : NodeColumns) (id : Z) : option EvidenceQuery :=
  r ← payload d id (Z.eqb NodeKindEvidence);
  if negb (covers r [dEvidenceKinds d; dEvidenceStates d]) then None else
  subject ← qualifier (dEvidenceSubjects d) r;
  scope ← qualifier (dEvidenceScopes d) r;
  timing ← qualifier (dEvidenceTimings d) r;
  Some {| qKind := dEvidenceKinds d !!! Z.to_nat r; qState := dEvidenceStates d !!! Z.to_nat r;
          qSubject := subject; qScope := scope; qTiming := timing |}.

(** [SourceSpan.valid] and [Document.Span]. *)
Definition spanValid (start end_ inputLen : Z) : bool := (start <=? end_) && (end_ <=? inputLen).

Definition Span (d : NodeColumns) (id : Z) : option (Z * Z) :=
  i ← nodeIndex d id;
  if (zlen (dSourceStarts d) <=? Z.of_nat i) || (zlen (dSourceEnds d) <=? Z.of_nat i) then None else
  let start := dSourceStarts d !!! i in
  let end_ := dSourceEnds d !!! i in
  if spanValid start end_ (zlen (dInputBytes d)) then Some (start, end_) else None.

(** ** Literals (value.go) *)

Definition valueIndex (d : LiteralColumns) (id : Z) : option nat :=
  if id =? 0 then None else
  let i := id - 1 in
  if (zlen (dValueKinds d) <=? i) || (zlen (dValueRefs d) <=? i) then None else Some (Z.to_nat i).

Definition DocValueKind (d : LiteralColumns) (id : Z) : option Z := i ← valueIndex d id; Some (dValueKinds d !!! i).

(** The payload row of a literal of the wanted kind. *)
Definition literalRow (d : LiteralColumns) (id kind : Z) : option Z :=
  i ← valueIndex d id; if dValueKinds d !!! i =? kind then Some (dValueRefs d !!! i) else None.

Definition SymbolValue (d : LiteralColumns) (id : Z) : option bytes :=
  r ← literalRow d id ValueKindSymbol;
  if negb (covers r [dSymbolStarts d; dSymbolLengths d]) then None else
  let start := dSymbolStarts d !!! Z.to_nat r in
  let length_ := dSymbolLengths d !!! Z.to_nat r in
  if zlen (dSymbolBytes d) <? u64 (start + length_) then None else Some (csr (dSymbolBytes d) start length_).

Definition IntegerValue (d : LiteralColumns) (id : Z) : option Z :=
  r ← literalRow d id ValueKindInteger;
  if zlen (dIntegerValues d) <=? r then None else Some (dIntegerValues d !!! Z.to_nat r).

Definition BooleanValue (d : LiteralColumns) (id : Z) : option bool :=
  r ← literalRow d id ValueKindBoolean;
  if (zlen (dBooleanValues d) <=? r) || (1 <? dBooleanValues d !!! Z.to_nat r) then None
  else Some (dBooleanValues d !!! Z.to_nat r =? 1).

Definition TimestampValue (d : LiteralColumns) (id : Z) : option Z :=
  r ← literalRow d id ValueKindTimestamp;
  if zlen (dTimestampValues d) <=? r then None else Some (dTimestampValues d !!! Z.to_nat r).

(** [Document.Boolean]: the literal of a constant node. *)
Definition Boolean (d : Document) (id : Z) : option Z :=
  value ← payload d id (Z.eqb NodeKindBoolean);
  _ ← BooleanValue d value;
  Some value.

(** [Document.PolicyMetadata] (semantic.go): name, version and content hash. *)
Definition PolicyMetadata (d : CatalogColumns) : option (Z * Z * list Z) :=
  if (dPolicyName d =? 0) || (dPolicyVersion d =? 0) || negb (dSourceSet d) then None
  else Some (dPolicyName d, dPolicyVersion d, dContentHash d).

(** ** Literals as data *)

Inductive literal := LSymbol (b : bytes) | LInteger (z : Z) | LBoolean (b : bool) | LTimestamp (z : Z).

#[global] Instance literal_eq_dec : EqDecision literal.
Proof. solve_decision. Defined.

Definition literalKind (l : literal) : Z :=
  match l with
  | LSymbol _ => ValueKindSymbol | LInteger _ => ValueKindInteger | LBoolean _ => ValueKindBoolean | LTimestamp _ => ValueKindTimestamp
  end.

(** The literal a value ID of the document stands for. *)
Definition literalOf (d : LiteralColumns) (id : Z) : option literal :=
  kind ← DocValueKind d id;
  if kind =? ValueKindSymbol then LSymbol <$> SymbolValue d id
  else if kind =? ValueKindInteger then LInteger <$> IntegerValue d id
  else if kind =? ValueKindBoolean then LBoolean <$> BooleanValue d id
  else if kind =? ValueKindTimestamp then LTimestamp <$> TimestampValue d id
  else None.

(** ** Clauses and requirements (semantic.go) *)

Definition ResolutionBranchCount : Z := 7.
Definition RemediationKindSetField : Z := 1.
Definition RemediationKindAddEvidence : Z := 2.

Record Resolution := {
  OnSatisfied : Z; OnFalse : Z; OnMissing : Z; OnStale : Z; OnUnclear : Z; OnUnverifiable : Z; OnConflict : Z;
  OnSatisfiedExplanation : Z; OnFalseExplanation : Z; OnMissingExplanation : Z; OnStaleExplanation : Z; OnUnclearExplanation : Z;
  OnUnverifiableExplanation : Z; OnConflictExplanation : Z
}.

Definition clauseIndex (d : Document) (id : Z) : option nat :=
  if id =? 0 then None else if zlen (dClauseAssertionRoots d) <=? id - 1 then None else Some (Z.to_nat (id - 1)).

Definition Clause (d : Document) (id : Z) : option (Z * Resolution) :=
  match clauseIndex d id with
  | None => None
  | Some i =>
      let short (l : list Z) := bool_decide (length l ≤ i)%nat in
      if short (dClauseOnSatisfied d) || short (dClauseOnFalse d) || short (dClauseOnMissing d) || short (dClauseOnStale d) ||
         short (dClauseOnUnclear d) || short (dClauseOnUnverifiable d) || short (dClauseOnConflict d) then None else
      let start := u64 (Z.of_nat i * ResolutionBranchCount) in
      if zlen (dClauseExplanationIDs d) <? u64 (start + ResolutionBranchCount) then None else
      let explanation k := dClauseExplanationIDs d !!! Z.to_nat (start + k) in
      Some (dClauseAssertionRoots d !!! i,
        {| OnSatisfied := dClauseOnSatisfied d !!! i; OnFalse := dClauseOnFalse d !!! i; OnMissing := dClauseOnMissing d !!! i;
           OnStale := dClauseOnStale d !!! i; OnUnclear := dClauseOnUnclear d !!! i; OnUnverifiable := dClauseOnUnverifiable d !!! i;
           OnConflict := dClauseOnConflict d !!! i; OnSatisfiedExplanation := explanation 0; OnFalseExplanation := explanation 1;
           OnMissingExplanation := explanation 2; OnStaleExplanation := explanation 3; OnUnclearExplanation := explanation 4;
           OnUnverifiableExplanation := explanation 5; OnConflictExplanation := explanation 6 |})
  end.

Definition rangeAt (starts counts : list Z) (index : nat) (total : Z) : option (Z * Z) :=
  if bool_decide (length starts ≤ index ∨ length counts ≤ index)%nat then None else
  let start := starts !!! index in
  let count := counts !!! index in
  if total <? u64 (start + count) then None else Some (start, count).

Definition ClauseEvidence (d : Document) (id : Z) : option (list Z) :=
  match clauseIndex d id with
  | None => None
  | Some i =>
      match rangeAt (dClauseEvidenceStarts d) (dClauseEvidenceCounts d) i (zlen (dClauseEvidenceNodeIDs d)) with
      | None => None
      | Some (start, count) => Some (csr (dClauseEvidenceNodeIDs d) start count)
      end
  end.

Definition ClauseRemediations (d : Document) (id : Z) : option (list Z) :=
  match clauseIndex d id with
  | None => None
  | Some i =>
      match rangeAt (dClauseRemediationStarts d) (dClauseRemediationCounts d) i (zlen (dClauseRemediationIDs d)) with
      | None => None
      | Some (start, count) => Some (csr (dClauseRemediationIDs d) start count)
      end
  end.
