(* ===== verification/Traversal.v ===== *)
(** * Depth-first traversals

    The measure that bounds the iterative traversals of compile/validate.go and
    compile/lower.go: an unvisited node still costs one iteration and one per edge, a
    frame of the stack one iteration and one per edge it has not followed yet. *)

From S2P Require Import Prelude.

Section measure.
Context (white : Z → bool) (edges : Z → nat).

(** One iteration per node [1..n] and one per edge. *)
Definition allCost (n : nat) : nat := foldr (λ i m, S (edges (Z.of_nat i + 1)) + m)%nat 0%nat (seq 0 n).

Definition whites (states : list Z) : nat :=
  foldr (λ i m, (if white (states !!! i) then S (edges (Z.of_nat i + 1)) else 0) + m)%nat 0%nat (seq 0 (length states)).
Definition frameCost (f : Z * Z) : nat := (S (edges f.1) - Z.to_nat f.2)%nat.
Definition cost (stack : list (Z * Z)) : nat := foldr (λ f m, (frameCost f + m)%nat) 0%nat stack.

Definition frame_ok (f : Z * Z) : Prop := 0 ≤ f.2 ≤ Z.of_nat (edges f.1).

Lemma cost_cons node next stack : cost ((node, next) :: stack) = (S (edges node) - Z.to_nat next + cost stack)%nat.
Proof. done. Qed.

(** Colouring a node. *)
Lemma whites_set states i x : (i < length states)%nat → white x = false →
  (whites (<[i := x]> states) + (if white (states !!! i) then S (edges (Z.of_nat i + 1)) else 0) = whites states)%nat.
Proof.
  intros Hi Hx. unfold whites. rewrite length_insert.
  pose proof (sum_update (λ j, if white (<[i := x]> states !!! j) then S (edges (Z.of_nat j + 1)) else 0%nat)
    (λ j, if white (states !!! j) then S (edges (Z.of_nat j + 1)) else 0%nat) (length states) i Hi) as E. simpl in E.
  rewrite list_lookup_total_insert_eq, Hx in E by done. rewrite E; [lia|]. intros j Hj Hne. by rewrite list_lookup_total_insert_ne.
Qed.

Lemma whites_bound states i : (i < length states)%nat → white (states !!! i) = false →
  (whites states + S (edges (Z.of_nat i + 1)) ≤ allCost (length states))%nat.
Proof.
  intros Hi Hw. unfold whites, allCost.
  pose proof (sum_update (λ j, if bool_decide (j = i) then 0%nat else S (edges (Z.of_nat j + 1))) (λ j, S (edges (Z.of_nat j + 1))) (length states) i Hi) as E.
  cbv beta in E. rewrite bool_decide_eq_true_2 in E by done. rewrite Nat.add_0_r in E. rewrite <-E by (intros; by rewrite bool_decide_eq_false_2).
  apply Nat.add_le_mono_r. clear E. induction (seq 0 (length states)) as [|j l IH]; simpl; [lia|]. apply Nat.add_le_mono; [|done].
  case_bool_decide as Hj; [subst; rewrite Hw; lia|]. case_match; lia.
Qed.
End measure.
