(* ===== verification/Diagnostic.v ===== *)
(** * Diagnostics: [internal/compile/diagnostic.go]
    One record per defect that the validator reports: a code, the table and row it
    is about, the member of the record, a source span and the identifiers involved. *)

From S2P Require Import Prelude.
#[local] Open Scope Z_scope.

Inductive DiagnosticCode :=
  | CodeInvalidDocument | CodeColumnLength | CodeInvalidSourceSpan | CodeInvalidNodeKind | CodeInvalidPayloadRef | CodeInvalidCSRRange
  | CodeInvalidNodeReference | CodeInvalidField | CodeInvalidValue | CodeTypeMismatch | CodeInvalidArity | CodeInvalidEvidence
  | CodeInvalidOutcome | CodeMissingResolution | CodeInvalidRemediation | CodeDuplicateID | CodeDuplicateName | CodeCycle
  | CodeUnreachableNode | CodeInvalidID | CodeInvalidTemplate | CodeInvalidExplanation | CodeMissingExplanation.

Inductive TableKind :=
  | TableInvalid | TableDocument | TableNode | TableCompare | TableGroup | TableNot | TableEvidenceNode | TableValue | TableEvidenceKind
  | TableEvidenceState | TableOutcome | TableRemediation | TableClause | TableRequirement | TableTemplate | TableExplanation.

Inductive MemberKind :=
  | MemberInvalid | MemberID | MemberName | MemberRecordKind | MemberPayload | MemberSpan | MemberField | MemberOperation | MemberValue
  | MemberValues | MemberChildren | MemberChild | MemberEvidenceKind | MemberEvidenceState | MemberAssertion | MemberEvidence
  | MemberRemediations | MemberRemediation | MemberApplicability | MemberClauses | MemberClause | MemberOutcomeSatisfied
  | MemberOutcomeFalse | MemberOutcomeMissing | MemberOutcomeStale | MemberOutcomeUnclear | MemberOutcomeUnverifiable
  | MemberOutcomeConflict | MemberMetadataName | MemberMetadataVersion | MemberContext | MemberTemplate | MemberRationale
  | MemberUncertainty | MemberAssumptions | MemberExplanationSatisfied | MemberExplanationFalse | MemberExplanationMissing
  | MemberExplanationStale | MemberExplanationUnclear | MemberExplanationUnverifiable | MemberExplanationConflict.

Record Diagnostic := {
  dgCode : DiagnosticCode; dgTable : TableKind; dgMember : MemberKind; dgRow : Z; dgSpan : Z * Z; dgNode : Z; dgClause : Z; dgRequirement : Z;
  dgField : Z; dgValue : Z; dgOutcome : Z; dgRemediation : Z; dgEvidenceKind : Z; dgEvidenceState : Z
}.

(** ** Building records: the composite literals leave out zero members *)

Definition zeroSpan : Z * Z := (0, 0).

Definition diag (code : DiagnosticCode) (table : TableKind) : Diagnostic :=
  {| dgCode := code; dgTable := table; dgMember := MemberInvalid; dgRow := 0; dgSpan := zeroSpan; dgNode := 0; dgClause := 0; dgRequirement := 0;
     dgField := 0; dgValue := 0; dgOutcome := 0; dgRemediation := 0; dgEvidenceKind := 0; dgEvidenceState := 0 |}.

Definition onMember (m : MemberKind) (g : Diagnostic) : Diagnostic :=
  {| dgCode := dgCode g; dgTable := dgTable g; dgMember := m; dgRow := dgRow g; dgSpan := dgSpan g; dgNode := dgNode g; dgClause := dgClause g;
     dgRequirement := dgRequirement g; dgField := dgField g; dgValue := dgValue g; dgOutcome := dgOutcome g; dgRemediation := dgRemediation g;
     dgEvidenceKind := dgEvidenceKind g; dgEvidenceState := dgEvidenceState g |}.

Definition onRow (row : Z) (g : Diagnostic) : Diagnostic :=
  {| dgCode := dgCode g; dgTable := dgTable g; dgMember := dgMember g; dgRow := row; dgSpan := dgSpan g; dgNode := dgNode g; dgClause := dgClause g;
     dgRequirement := dgRequirement g; dgField := dgField g; dgValue := dgValue g; dgOutcome := dgOutcome g; dgRemediation := dgRemediation g;
     dgEvidenceKind := dgEvidenceKind g; dgEvidenceState := dgEvidenceState g |}.

Definition onSpan (span : Z * Z) (g : Diagnostic) : Diagnostic :=
  {| dgCode := dgCode g; dgTable := dgTable g; dgMember := dgMember g; dgRow := dgRow g; dgSpan := span; dgNode := dgNode g; dgClause := dgClause g;
     dgRequirement := dgRequirement g; dgField := dgField g; dgValue := dgValue g; dgOutcome := dgOutcome g; dgRemediation := dgRemediation g;
     dgEvidenceKind := dgEvidenceKind g; dgEvidenceState := dgEvidenceState g |}.

Definition onNode (node : Z) (g : Diagnostic) : Diagnostic :=
  {| dgCode := dgCode g; dgTable := dgTable g; dgMember := dgMember g; dgRow := dgRow g; dgSpan := dgSpan g; dgNode := node; dgClause := dgClause g;
     dgRequirement := dgRequirement g; dgField := dgField g; dgValue := dgValue g; dgOutcome := dgOutcome g; dgRemediation := dgRemediation g;
     dgEvidenceKind := dgEvidenceKind g; dgEvidenceState := dgEvidenceState g |}.

Definition onClause (clause : Z) (g : Diagnostic) : Diagnostic :=
  {| dgCode := dgCode g; dgTable := dgTable g; dgMember := dgMember g; dgRow := dgRow g; dgSpan := dgSpan g; dgNode := dgNode g; dgClause := clause;
     dgRequirement := dgRequirement g; dgField := dgField g; dgValue := dgValue g; dgOutcome := dgOutcome g; dgRemediation := dgRemediation g;
     dgEvidenceKind := dgEvidenceKind g; dgEvidenceState := dgEvidenceState g |}.

Definition onRequirement (requirement : Z) (g : Diagnostic) : Diagnostic :=
  {| dgCode := dgCode g; dgTable := dgTable g; dgMember := dgMember g; dgRow := dgRow g; dgSpan := dgSpan g; dgNode := dgNode g; dgClause := dgClause g;
     dgRequirement := requirement; dgField := dgField g; dgValue := dgValue g; dgOutcome := dgOutcome g; dgRemediation := dgRemediation g;
     dgEvidenceKind := dgEvidenceKind g; dgEvidenceState := dgEvidenceState g |}.

Definition onField (field : Z) (g : Diagnostic) : Diagnostic :=
  {| dgCode := dgCode g; dgTable := dgTable g; dgMember := dgMember g; dgRow := dgRow g; dgSpan := dgSpan g; dgNode := dgNode g; dgClause := dgClause g;
     dgRequirement := dgRequirement g; dgField := field; dgValue := dgValue g; dgOutcome := dgOutcome g; dgRemediation := dgRemediation g;
     dgEvidenceKind := dgEvidenceKind g; dgEvidenceState := dgEvidenceState g |}.

Definition onValue (value : Z) (g : Diagnostic) : Diagnostic :=
  {| dgCode := dgCode g; dgTable := dgTable g; dgMember := dgMember g; dgRow := dgRow g; dgSpan := dgSpan g; dgNode := dgNode g; dgClause := dgClause g;
     dgRequirement := dgRequirement g; dgField := dgField g; dgValue := value; dgOutcome := dgOutcome g; dgRemediation := dgRemediation g;
     dgEvidenceKind := dgEvidenceKind g; dgEvidenceState := dgEvidenceState g |}.

Definition onOutcome (outcome : Z) (g : Diagnostic) : Diagnostic :=
  {| dgCode := dgCode g; dgTable := dgTable g; dgMember := dgMember g; dgRow := dgRow g; dgSpan := dgSpan g; dgNode := dgNode g; dgClause := dgClause g;
     dgRequirement := dgRequirement g; dgField := dgField g; dgValue := dgValue g; dgOutcome := outcome; dgRemediation := dgRemediation g;
     dgEvidenceKind := dgEvidenceKind g; dgEvidenceState := dgEvidenceState g |}.

Definition onRemediation (remediation : Z) (g : Diagnostic) : Diagnostic :=
  {| dgCode := dgCode g; dgTable := dgTable g; dgMember := dgMember g; dgRow := dgRow g; dgSpan := dgSpan g; dgNode := dgNode g; dgClause := dgClause g;
     dgRequirement := dgRequirement g; dgField := dgField g; dgValue := dgValue g; dgOutcome := dgOutcome g; dgRemediation := remediation;
     dgEvidenceKind := dgEvidenceKind g; dgEvidenceState := dgEvidenceState g |}.

Definition onEvidenceKind (kind : Z) (g : Diagnostic) : Diagnostic :=
  {| dgCode := dgCode g; dgTable := dgTable g; dgMember := dgMember g; dgRow := dgRow g; dgSpan := dgSpan g; dgNode := dgNode g; dgClause := dgClause g;
     dgRequirement := dgRequirement g; dgField := dgField g; dgValue := dgValue g; dgOutcome := dgOutcome g; dgRemediation := dgRemediation g;
     dgEvidenceKind := kind; dgEvidenceState := dgEvidenceState g |}.

Definition onEvidenceState (state : Z) (g : Diagnostic) : Diagnostic :=
  {| dgCode := dgCode g; dgTable := dgTable g; dgMember := dgMember g; dgRow := dgRow g; dgSpan := dgSpan g; dgNode := dgNode g; dgClause := dgClause g;
     dgRequirement := dgRequirement g; dgField := dgField g; dgValue := dgValue g; dgOutcome := dgOutcome g; dgRemediation := dgRemediation g;
     dgEvidenceKind := dgEvidenceKind g; dgEvidenceState := state |}.

Declare Scope diag_scope.
Delimit Scope diag_scope with diag.
Notation "g ▷ f" := (f g) (at level 37, left associativity, only parsing) : diag_scope.
Open Scope diag_scope.

(** [if b { dst = append(dst, g) }]. *)
Definition emit (b : bool) (g : Diagnostic) : list Diagnostic := if b then [g] else [].

Lemma emit_nil b g : emit b g = [] → b = false.
Proof. by destruct b. Qed.

(** A loop whose iterations append diagnostics. *)
Definition collect {A} (f : A → go (list Diagnostic)) (l : list A) : go (list Diagnostic) :=
  fold_go (λ x dst, ds ← f x; Ok (dst ++ ds)) l [].

Lemma collect_acc {A} (f : A → go (list Diagnostic)) l dst : fold_go (λ x dst, ds ← f x; Ok (dst ++ ds)) l dst = ds ← collect f l; Ok (dst ++ ds).
Proof.
  unfold collect. assert (∀ l a b, fold_go (λ x dst, ds ← f x; Ok (dst ++ ds)) l (a ++ b) = ds ← fold_go (λ x dst, ds ← f x; Ok (dst ++ ds)) l b; Ok (a ++ ds)) as H.
  { clear l dst. induction l as [|x l IH]; intros a b; simpl; [done|]. destruct (f x) as [ds|e|m]; simpl; [|done..]. by rewrite <-app_assoc, IH. }
  rewrite <-(app_nil_r dst) at 1. apply H.
Qed.

Lemma collect_cons {A} (f : A → go (list Diagnostic)) x l : collect f (x :: l) = (ds ← f x; rest ← collect f l; Ok (ds ++ rest)).
Proof. unfold collect at 1. simpl. destruct (f x) as [ds|e|m]; simpl; [|done..]. apply collect_acc. Qed.

(** A loop that reports nothing reports nothing in any iteration. *)
Lemma collect_nil {A} (f : A → go (list Diagnostic)) l : collect f l = Ok [] → Forall (λ x, f x = Ok []) l.
Proof.
  induction l as [|x l IH]; [constructor|]. rewrite collect_cons. intros (ds & Hx & (rest & Hl & [= E])%go_bind_inv)%go_bind_inv.
  apply app_nil in E as [-> ->]. constructor; [done|by apply IH].
Qed.

Lemma collect_total {A} (f : A → go (list Diagnostic)) l : (∀ x, x ∈ l → ∃ ds, f x = Ok ds) → ∃ ds, collect f l = Ok ds.
Proof.
  induction l as [|x l IH]; intros H; [by eexists|]. rewrite collect_cons. destruct (H x) as [ds ->]; [by left|]. simpl.
  destruct IH as [rest ->]; [intros y Hy; apply H; by right|]. by eexists.
Qed.

Lemma collect_pure {A} (f : A → go (list Diagnostic)) g l : (∀ x, x ∈ l → f x = Ok (g x)) → collect f l = Ok (flat_map g l).
Proof.
  induction l as [|x l IH]; intros H; [done|]. rewrite collect_cons, (H x) by (by left). simpl. rewrite IH by (intros y Hy; apply H; by right). done.
Qed.

Lemma elem_of_emit b g h : g ∈ emit b h ↔ b = true ∧ g = h.
Proof. destruct b; simpl; rewrite ?list_elem_of_singleton, ?elem_of_nil; intuition congruence. Qed.

Lemma elem_of_flat_map {A B} (f : A → list B) l y : y ∈ flat_map f l ↔ ∃ x, x ∈ l ∧ y ∈ f x.
Proof.
  induction l as [|x l IH]; simpl; [split; [by intros ?%elem_of_nil|by intros (x & ?%elem_of_nil & _)]|]. rewrite elem_of_app, IH. setoid_rewrite elem_of_cons. naive_solver.
Qed.

Lemma flat_map_nil {A B} (f : A → list B) l : flat_map f l = [] → Forall (λ x, f x = []) l.
Proof. induction l as [|x l IH]; simpl; [constructor|]. intros [H1 H2]%app_nil. constructor; [done|by apply IH]. Qed.
