(* ===== verification/Validate.v ===== *)
(** * Validation: [internal/compile/validate.go], [validate_explanation.go]
    The three phases that a document passes before it is compiled: structure,
    semantics and graph.  Columns of a corrupt document can have any length; accesses
    whose bound is checked in the same function read total columns, the others keep
    Go's run-time index check. *)

From S2P Require Import Prelude Schema Templates SymbolTable Ast Diagnostic.
#[local] Open Scope Z_scope.

(** ** Constants of the ast package *)

Definition MaxTemplateBytes : Z := 512.
Definition MaxTemplateOps : Z := 32.
Definition MaxUncertainty : Z := 8.
Definition EvidenceIssueMissing : Z := 0.
Definition EvidenceIssueReasonCount : Z := 9.

Definition TemplateContextInvalid : Z := 0.
Definition TemplateContextAssumption : Z := 1.
Definition TemplateContextDecision : Z := 2.
Definition TemplateContextUnresolved : Z := 3.
Definition TemplateContextEvidenceMissing : Z := 4.
Definition TemplateContextEvidencePresent : Z := 5.

Definition TemplateContextValid (c : Z) : bool := (TemplateContextAssumption <=? c) && (c <=? TemplateContextEvidencePresent).

Definition templateOpAllowed (op context : Z) : bool :=
  if (op =? TemplateOpPolicyName) || (op =? TemplateOpPolicyVersion) || (op =? TemplateOpRequestID) then true
  else if (op =? TemplateOpOutcome) || (op =? TemplateOpRequirementID) || (op =? TemplateOpClauseID) || (op =? TemplateOpNodeID)
       then TemplateContextDecision <=? context
  else if op =? TemplateOpReason then TemplateContextUnresolved <=? context
  else if (op =? TemplateOpEvidenceKind) || (op =? TemplateOpRequiredEvidenceState) then TemplateContextEvidenceMissing <=? context
  else if (op =? TemplateOpEvidenceState) || (op =? TemplateOpEvidenceID) then context =? TemplateContextEvidencePresent
  else false.

Definition AllowedIn (op context : Z) : bool := if op =? TemplateOpLiteral then TemplateContextValid context else templateOpAllowed op context.

Definition NodeKindValid (k : Z) : bool := (NodeKindCompare <=? k) && (k <=? NodeKindBoolean).
Definition RemediationKindValid (k : Z) : bool := (RemediationKindSetField <=? k) && (k <=? RemediationKindAddEvidence).

(** ** Validator state *)

Definition nodeStateUnsafe : Z := 1.
Definition nodeStateGray : Z := 2.
Definition nodeStateBlack : Z := 4.
Definition nodeStateReachable : Z := 8.
Definition clauseStateUnsafe : Z := 1.
Definition clauseStateReferenced : Z := 2.

(** ** Helpers *)

Definition validRange (start count total : Z) : bool := (start <=? total) && (count <=? total - start).

Definition safeMin (vals : list nat) : nat := foldl (λ m n, if (n <? m)%nat then n else m) (hd 0%nat vals) (tl vals).

Definition validOwnerSpan (start end_ inputBytes : Z) : (Z * Z) * bool :=
  if negb ((start <=? end_) && (end_ <=? inputBytes)) then (zeroSpan, false) else ((start, end_), true).

Definition rowID (i : nat) : Z := u32 (Z.of_nat i + 1).

(** A nonzero identifier of a table with [n] rows. *)
Definition inTable (id n : Z) : bool := negb ((id =? 0) || (n <? id)).

(** The node states and the diagnostics so far. *)
Abbreviation graphState := (list Z * list Diagnostic)%type.

Section document.
Context (d : Document) (fields : FieldTable).
Local Abbreviation input := (zlen (dInputBytes d)).
Local Abbreviation nodeMax := (zlen (dNodeKinds d)).

Definition literalKind (k : Z) : bool := (ValueKindSymbol <=? k) && (k <=? ValueKindTimestamp).
Definition ordered (k : Z) : bool := (k =? ValueKindInteger) || (k =? ValueKindTimestamp).

Definition valueRefValid (kind ref : Z) : bool :=
  if kind =? ValueKindSymbol then
    if (zlen (dSymbolStarts d) <=? ref) || (zlen (dSymbolLengths d) <=? ref) then false
    else validRange (dSymbolStarts d !!! Z.to_nat ref) (dSymbolLengths d !!! Z.to_nat ref) (zlen (dSymbolBytes d))
  else if kind =? ValueKindInteger then ref <? zlen (dIntegerValues d)
  else if kind =? ValueKindBoolean then (ref <? zlen (dBooleanValues d)) && (dBooleanValues d !!! Z.to_nat ref <=? 1)
  else if kind =? ValueKindTimestamp then ref <? zlen (dTimestampValues d)
  else false.

Definition literalValueKind (id : Z) : option Z :=
  if (id =? 0) || (zlen (dValueKinds d) <? id) || (zlen (dValueRefs d) <? id) then None else
  let kind := dValueKinds d !!! Z.to_nat (id - 1) in
  if literalKind kind then Some kind else None.

Definition structuralLiteralKind (id : Z) : option Z :=
  if (id =? 0) || (zlen (dValueKinds d) <? id) || (zlen (dValueRefs d) <? id) then None else
  let kind := dValueKinds d !!! Z.to_nat (id - 1) in
  if literalKind kind && valueRefValid kind (dValueRefs d !!! Z.to_nat (id - 1)) then Some kind else None.

Definition symbolBytes (id : Z) : go bytes :=
  ref ← at_ (dValueRefs d) (id - 1);
  s ← at_ (dSymbolStarts d) ref;
  l ← at_ (dSymbolLengths d) ref;
  slice_ (dSymbolBytes d) s (s + l).

Definition templateContextAt (id : Z) : option Z :=
  if (id =? 0) || (zlen (dTemplateContexts d) <? id) then None else Some (dTemplateContexts d !!! Z.to_nat (id - 1)).

Definition explanationContextAt (id : Z) : option Z :=
  if (id =? 0) || (zlen (dExplanationRationaleIDs d) <? id) then None else templateContextAt (dExplanationRationaleIDs d !!! Z.to_nat (id - 1)).

Definition validNodeSpan (i : nat) : Z * Z :=
  if (zlen (dSourceStarts d) <=? Z.of_nat i) || (zlen (dSourceEnds d) <=? Z.of_nat i) then zeroSpan else
  (validOwnerSpan (dSourceStarts d !!! i) (dSourceEnds d !!! i) input).1.

(** ** Structure: columns *)

Definition checkColumnLengths : list Diagnostic :=
  let n := length (dNodeKinds d) in
  let base := length (dCompareFields d) in
  let evidence := length (dEvidenceKinds d) in
  let clauses := length (dClauseAssertionRoots d) in
  let requirements := length (dRequirementIDs d) in
  let templates := length (dTemplateOpStarts d) in
  let explanations := length (dExplanationRationaleIDs d) in
  emit (negb (bool_decide (length (dNodeRefs d) = n ∧ length (dSourceStarts d) = n ∧ length (dSourceEnds d) = n))) (diag CodeColumnLength TableNode) ++
  emit (negb (bool_decide (length (dCompareOps d) = base ∧ length (dCompareValues d) = base ∧ length (dCompareListStarts d) = base ∧
                           length (dCompareListCounts d) = base))) (diag CodeColumnLength TableCompare) ++
  emit (negb (bool_decide (length (dGroupChildStarts d) = length (dGroupChildCounts d)))) (diag CodeColumnLength TableGroup) ++
  emit (negb (bool_decide (evidence = length (dEvidenceStates d))) ||
        (negb (bool_decide (length (dEvidenceSubjects d) = 0%nat)) && negb (bool_decide (evidence = length (dEvidenceSubjects d)))) ||
        (negb (bool_decide (length (dEvidenceScopes d) = 0%nat)) && negb (bool_decide (evidence = length (dEvidenceScopes d)))) ||
        (negb (bool_decide (length (dEvidenceTimings d) = 0%nat)) && negb (bool_decide (evidence = length (dEvidenceTimings d)))) ||
        negb (zlen (dEvidenceIssueTemplateIDs d) =? u64 (Z.of_nat evidence * EvidenceIssueReasonCount))) (diag CodeColumnLength TableEvidenceNode) ++
  emit (negb (bool_decide (length (dValueKinds d) = length (dValueRefs d) ∧ length (dSymbolStarts d) = length (dSymbolLengths d)))) (diag CodeColumnLength TableValue) ++
  emit (negb (bool_decide (length (dEvidenceKindNames d) = length (dEvidenceKindSourceStarts d) ∧
                           length (dEvidenceKindNames d) = length (dEvidenceKindSourceEnds d)))) (diag CodeColumnLength TableEvidenceKind) ++
  emit (negb (bool_decide (length (dEvidenceStateNames d) = length (dEvidenceStateSourceStarts d) ∧
                           length (dEvidenceStateNames d) = length (dEvidenceStateSourceEnds d)))) (diag CodeColumnLength TableEvidenceState) ++
  emit (negb (bool_decide (length (dOutcomeNames d) = length (dOutcomePrecedence d) ∧ length (dOutcomeNames d) = length (dOutcomeTerminal d) ∧
                           length (dOutcomeNames d) = length (dOutcomeSourceStarts d) ∧ length (dOutcomeNames d) = length (dOutcomeSourceEnds d))))
    (diag CodeColumnLength TableOutcome) ++
  emit (negb (bool_decide (length (dRemediationKinds d) = length (dRemediationFields d) ∧ length (dRemediationKinds d) = length (dRemediationValues d) ∧
                           length (dRemediationKinds d) = length (dRemediationEvidenceKinds d) ∧
                           length (dRemediationKinds d) = length (dRemediationSourceStarts d) ∧
                           length (dRemediationKinds d) = length (dRemediationSourceEnds d)))) (diag CodeColumnLength TableRemediation) ++
  emit (negb (bool_decide (length (dClauseEvidenceStarts d) = clauses ∧ length (dClauseEvidenceCounts d) = clauses ∧
                           length (dClauseRemediationStarts d) = clauses ∧ length (dClauseRemediationCounts d) = clauses ∧
                           length (dClauseOnSatisfied d) = clauses ∧ length (dClauseOnFalse d) = clauses ∧ length (dClauseOnMissing d) = clauses ∧
                           length (dClauseOnStale d) = clauses ∧ length (dClauseOnUnclear d) = clauses ∧ length (dClauseOnUnverifiable d) = clauses ∧
                           length (dClauseOnConflict d) = clauses)) ||
        negb (zlen (dClauseExplanationIDs d) =? u64 (Z.of_nat clauses * ResolutionBranchCount)) ||
        negb (bool_decide (length (dClauseSourceStarts d) = clauses ∧ length (dClauseSourceEnds d) = clauses))) (diag CodeColumnLength TableClause) ++
  emit (negb (bool_decide (length (dRequirementApplicabilityRoots d) = requirements ∧ length (dRequirementClauseStarts d) = requirements ∧
                           length (dRequirementClauseCounts d) = requirements ∧ length (dRequirementSourceStarts d) = requirements ∧
                           length (dRequirementSourceEnds d) = requirements))) (diag CodeColumnLength TableRequirement) ++
  emit (negb (bool_decide (length (dTemplateOpCounts d) = templates ∧ length (dTemplateLiteralStarts d) = templates ∧
                           length (dTemplateMaxBytes d) = templates ∧ length (dTemplateContexts d) = templates ∧
                           length (dTemplateOps d) = length (dTemplateArgs d)))) (diag CodeColumnLength TableTemplate) ++
  emit (negb (bool_decide (length (dExplanationUncertaintyStarts d) = explanations ∧ length (dExplanationUncertaintyCounts d) = explanations ∧
                           (length (dAssumptionsSet d) ≤ 1)%nat))) (diag CodeColumnLength TableExplanation).

(** ** Structure: templates and explanations *)

(** One operation: its diagnostics, whether it is an operation, and the literal bytes so far. *)
Definition checkTemplateOp (context row : Z) (op : Z * Z) (st : list Diagnostic * bool * Z) : list Diagnostic * bool * Z :=
  let '(dst, operationsValid, literalBytes) := st in
  if negb (TemplateOpValid op.1) then (dst ++ [diag CodeInvalidTemplate TableTemplate ▷ onMember MemberOperation ▷ onRow row], false, literalBytes)
  else
    let dst := dst ++ emit (TemplateContextValid context && negb (AllowedIn op.1 context))
                        (diag CodeInvalidTemplate TableTemplate ▷ onMember MemberContext ▷ onRow row) in
    if op.1 =? TemplateOpLiteral then (dst, operationsValid, u64 (literalBytes + op.2))
    else (dst ++ emit (negb (op.2 =? 0)) (diag CodeInvalidTemplate TableTemplate ▷ onMember MemberValue ▷ onRow row), operationsValid, literalBytes).

Definition checkTemplateRow (i : nat) : list Diagnostic :=
  let row := rowID i in
  let context := dTemplateContexts d !!! i in
  let start := dTemplateOpStarts d !!! i in
  let count := dTemplateOpCounts d !!! i in
  emit (negb (TemplateContextValid context)) (diag CodeInvalidTemplate TableTemplate ▷ onMember MemberContext ▷ onRow row) ++
  if (MaxTemplateOps <? count) || negb (validRange start count (Z.of_nat (min (length (dTemplateOps d)) (length (dTemplateArgs d))))) then
    [diag CodeInvalidCSRRange TableTemplate ▷ onMember MemberOperation ▷ onRow row]
  else
    let '(ds, operationsValid, literalBytes) :=
      foldl (λ st op, checkTemplateOp context row op st) ([], true, 0) (zip (csr (dTemplateOps d) start count) (csr (dTemplateArgs d) start count)) in
    ds ++
    if negb operationsValid then []
    else if (MaxUint32 <? literalBytes) || negb (validRange (dTemplateLiteralStarts d !!! i) (u32 literalBytes) (zlen (dTemplateBytes d))) then
      [diag CodeInvalidCSRRange TableTemplate ▷ onMember MemberPayload ▷ onRow row]
    else emit ((MaxTemplateBytes <? literalBytes) || negb (dTemplateMaxBytes d !!! i =? literalBytes))
           (diag CodeInvalidTemplate TableTemplate ▷ onMember MemberPayload ▷ onRow row).

Definition checkTemplateRows : list Diagnostic :=
  let base := length (dTemplateOpStarts d) in
  if negb (bool_decide (length (dTemplateOpCounts d) = base ∧ length (dTemplateLiteralStarts d) = base ∧ length (dTemplateMaxBytes d) = base ∧
                        length (dTemplateContexts d) = base ∧ length (dTemplateOps d) = length (dTemplateArgs d))) then []
  else flat_map checkTemplateRow (seq 0 (safeMin [length (dTemplateOpStarts d); length (dTemplateOpCounts d); length (dTemplateLiteralStarts d);
                                                  length (dTemplateMaxBytes d); length (dTemplateContexts d)])).

Definition explanationRows : nat :=
  safeMin [length (dExplanationRationaleIDs d); length (dExplanationUncertaintyStarts d); length (dExplanationUncertaintyCounts d)].

Definition checkExplanationRow (i : nat) : list Diagnostic :=
  let row := rowID i in
  let templateMax := zlen (dTemplateOpStarts d) in
  let rationale := dExplanationRationaleIDs d !!! i in
  let start := dExplanationUncertaintyStarts d !!! i in
  let count := dExplanationUncertaintyCounts d !!! i in
  emit (negb (rationale =? 0) && (templateMax <? rationale)) (diag CodeInvalidExplanation TableExplanation ▷ onMember MemberRationale ▷ onRow row) ++
  if (MaxUncertainty <? count) || negb (validRange start count (zlen (dExplanationUncertaintyIDs d))) then
    [diag CodeInvalidCSRRange TableExplanation ▷ onMember MemberUncertainty ▷ onRow row]
  else flat_map (λ id, emit (negb (id =? 0) && (templateMax <? id))
                         (diag CodeInvalidExplanation TableExplanation ▷ onMember MemberUncertainty ▷ onRow row))
         (csr (dExplanationUncertaintyIDs d) start count).

Definition checkExplanationRows : list Diagnostic :=
  flat_map (λ i, emit (negb (inTable (dAssumptionTemplateIDs d !!! i) (zlen (dTemplateOpStarts d))))
                   (diag CodeInvalidTemplate TableDocument ▷ onMember MemberAssumptions ▷ onRow (rowID i)))
    (seq 0 (length (dAssumptionTemplateIDs d))) ++
  flat_map checkExplanationRow (seq 0 explanationRows).

(** ** Structure: payload tables *)

Definition checkValueRow (i : nat) : list Diagnostic :=
  let kind := dValueKinds d !!! i in
  if negb (literalKind kind) then [diag CodeInvalidValue TableValue ▷ onRow (rowID i) ▷ onValue (rowID i)]
  else emit (negb (valueRefValid kind (dValueRefs d !!! i))) (diag CodeInvalidPayloadRef TableValue ▷ onRow (rowID i) ▷ onValue (rowID i)).

Definition checkValueRows : list Diagnostic := flat_map checkValueRow (seq 0 (min (length (dValueKinds d)) (length (dValueRefs d)))).

Definition compareRows : nat :=
  safeMin [length (dCompareFields d); length (dCompareOps d); length (dCompareValues d); length (dCompareListStarts d); length (dCompareListCounts d)].

Definition checkCompareRow (i : nat) : list Diagnostic :=
  let row := rowID i in
  let field := dCompareFields d !!! i in
  let value := dCompareValues d !!! i in
  let start := dCompareListStarts d !!! i in
  let count := dCompareListCounts d !!! i in
  emit (negb (inTable field (zlen (names fields)))) (diag CodeInvalidField TableCompare ▷ onRow row ▷ onField field) ++
  emit (negb (value =? 0) && (zlen (dValueKinds d) <? value)) (diag CodeInvalidValue TableCompare ▷ onRow row ▷ onValue value) ++
  if negb (validRange start count (zlen (dListValueIDs d))) then [diag CodeInvalidCSRRange TableCompare ▷ onRow row]
  else flat_map (λ v, emit (negb (inTable v (zlen (dValueKinds d)))) (diag CodeInvalidValue TableCompare ▷ onRow row ▷ onValue v))
         (csr (dListValueIDs d) start count).

Definition checkCompareRows : list Diagnostic := flat_map checkCompareRow (seq 0 compareRows).

Definition groupRows : nat := min (length (dGroupChildStarts d)) (length (dGroupChildCounts d)).

Definition checkGroupRow (i : nat) : list Diagnostic :=
  let row := rowID i in
  let start := dGroupChildStarts d !!! i in
  let count := dGroupChildCounts d !!! i in
  if negb (validRange start count (zlen (dChildNodeIDs d))) then [diag CodeInvalidCSRRange TableGroup ▷ onRow row]
  else flat_map (λ child, emit (negb (inTable child nodeMax)) (diag CodeInvalidNodeReference TableGroup ▷ onRow row ▷ onNode child))
         (csr (dChildNodeIDs d) start count).

Definition checkGroupRows : list Diagnostic := flat_map checkGroupRow (seq 0 groupRows).

Definition checkNotRows : list Diagnostic :=
  flat_map (λ i, emit (negb (inTable (dNotChildren d !!! i) nodeMax))
                   (diag CodeInvalidNodeReference TableNot ▷ onRow (rowID i) ▷ onNode (dNotChildren d !!! i))) (seq 0 (length (dNotChildren d))).

(** An optional qualifier column of an evidence row. *)
Definition qualifierAt (col : list Z) (i : nat) : Z := if (i <? length col)%nat then col !!! i else 0.

Definition checkEvidenceRow (i : nat) : list Diagnostic :=
  let row := rowID i in
  let kind := dEvidenceKinds d !!! i in
  let state := dEvidenceStates d !!! i in
  let issueStart := u64 (Z.of_nat i * EvidenceIssueReasonCount) in
  let issueEnd := u64 (issueStart + EvidenceIssueReasonCount) in
  emit (negb (inTable kind (zlen (dEvidenceKindNames d))))
    (diag CodeInvalidEvidence TableEvidenceNode ▷ onMember MemberEvidenceKind ▷ onRow row ▷ onEvidenceKind kind) ++
  emit (negb (inTable state (zlen (dEvidenceStateNames d))))
    (diag CodeInvalidEvidence TableEvidenceNode ▷ onMember MemberEvidenceState ▷ onRow row ▷ onEvidenceState state) ++
  flat_map (λ value, emit (negb (value =? 0) && negb (bool_decide (structuralLiteralKind value = Some ValueKindSymbol)))
                       (diag CodeInvalidValue TableEvidenceNode ▷ onRow row ▷ onValue value))
    [qualifierAt (dEvidenceSubjects d) i; qualifierAt (dEvidenceScopes d) i; qualifierAt (dEvidenceTimings d) i] ++
  emit ((issueEnd <=? zlen (dEvidenceIssueTemplateIDs d)) &&
        existsb (λ template, negb (template =? 0) && (zlen (dTemplateOpStarts d) <? template))
          (csr (dEvidenceIssueTemplateIDs d) issueStart (issueEnd - issueStart)))
    (diag CodeInvalidTemplate TableEvidenceNode ▷ onMember MemberTemplate ▷ onRow row).

Definition evidenceRows : nat := min (length (dEvidenceKinds d)) (length (dEvidenceStates d)).

Definition checkEvidenceRows : list Diagnostic := flat_map checkEvidenceRow (seq 0 evidenceRows).

(** ** Structure: nodes *)

Definition nodeRefValid (kind ref : Z) : bool :=
  if kind =? NodeKindBoolean then negb (ref =? 0) && (ref <=? zlen (dValueKinds d)) && (ref <=? zlen (dValueRefs d))
  else if kind =? NodeKindCompare then ref <? Z.of_nat compareRows
  else if isGroupKind kind then ref <? Z.of_nat groupRows
  else if kind =? NodeKindNot then ref <? zlen (dNotChildren d)
  else if kind =? NodeKindEvidence then ref <? Z.of_nat evidenceRows
  else false.

(** Row [i]: its diagnostics and whether it is unsafe for later phases. *)
Definition checkNodeRow (i : nat) : list Diagnostic * bool :=
  let id := rowID i in
  let hasRef := (i <? length (dNodeRefs d))%nat in
  let hasSpan := (i <? length (dSourceStarts d))%nat && (i <? length (dSourceEnds d))%nat in
  let missing := negb hasRef || negb hasSpan in
  let span := validOwnerSpan (dSourceStarts d !!! i) (dSourceEnds d !!! i) input in
  let attach := if hasSpan then span.1 else zeroSpan in
  let kind := dNodeKinds d !!! i in
  let ref := dNodeRefs d !!! i in
  let spanDiag := emit (hasSpan && negb span.2) (diag CodeInvalidSourceSpan TableNode ▷ onRow id ▷ onNode id) in
  if negb (NodeKindValid kind) then (spanDiag ++ [diag CodeInvalidNodeKind TableNode ▷ onRow id ▷ onNode id ▷ onSpan attach], true)
  else if hasRef && negb (nodeRefValid kind ref) then (spanDiag ++ [diag CodeInvalidPayloadRef TableNode ▷ onRow id ▷ onNode id ▷ onSpan attach], true)
  else (spanDiag, missing || (isGroupKind kind && hasRef &&
          negb (validRange (dGroupChildStarts d !!! Z.to_nat ref) (dGroupChildCounts d !!! Z.to_nat ref) (zlen (dChildNodeIDs d))))).

Definition checkNodeRows : list Diagnostic * list Z :=
  let rows := map checkNodeRow (seq 0 (length (dNodeKinds d))) in
  (concat (map fst rows), map (λ r : list Diagnostic * bool, if snd r then nodeStateUnsafe else 0) rows).

(** ** Structure: catalogs *)

Definition nameInValueKinds (name : Z) : bool := inTable name (zlen (dValueKinds d)).

(** The rows of a named table: the name, then the span; [owner] is the identifier. *)
Definition checkNamedRow (table : TableKind) (owner : Z → Diagnostic → Diagnostic) (names starts ends : list Z) (i : nat) : list Diagnostic :=
  let '(attach, spanOK) := validOwnerSpan (starts !!! i) (ends !!! i) input in
  emit (negb (nameInValueKinds (names !!! i)))
    (diag CodeInvalidValue table ▷ onMember MemberName ▷ onRow (rowID i) ▷ onSpan attach ▷ owner (rowID i) ▷ onValue (names !!! i)) ++
  emit (negb spanOK) (diag CodeInvalidSourceSpan table ▷ onMember MemberSpan ▷ onRow (rowID i) ▷ owner (rowID i)).

Definition checkEvidenceKindRows : list Diagnostic :=
  flat_map (checkNamedRow TableEvidenceKind onEvidenceKind (dEvidenceKindNames d) (dEvidenceKindSourceStarts d) (dEvidenceKindSourceEnds d))
    (seq 0 (safeMin [length (dEvidenceKindNames d); length (dEvidenceKindSourceStarts d); length (dEvidenceKindSourceEnds d)])).

Definition checkEvidenceStateRows : list Diagnostic :=
  flat_map (checkNamedRow TableEvidenceState onEvidenceState (dEvidenceStateNames d) (dEvidenceStateSourceStarts d) (dEvidenceStateSourceEnds d))
    (seq 0 (safeMin [length (dEvidenceStateNames d); length (dEvidenceStateSourceStarts d); length (dEvidenceStateSourceEnds d)])).

Definition checkOutcomeRows : list Diagnostic :=
  flat_map (checkNamedRow TableOutcome onOutcome (dOutcomeNames d) (dOutcomeSourceStarts d) (dOutcomeSourceEnds d))
    (seq 0 (safeMin [length (dOutcomeNames d); length (dOutcomePrecedence d); length (dOutcomeTerminal d); length (dOutcomeSourceStarts d);
                     length (dOutcomeSourceEnds d)])).

Definition remediationRows : nat :=
  safeMin [length (dRemediationKinds d); length (dRemediationFields d); length (dRemediationValues d); length (dRemediationEvidenceKinds d);
           length (dRemediationSourceStarts d); length (dRemediationSourceEnds d)].

Definition checkRemediationRow (i : nat) : list Diagnostic :=
  let id := rowID i in
  let '(attach, spanOK) := validOwnerSpan (dRemediationSourceStarts d !!! i) (dRemediationSourceEnds d !!! i) input in
  let field := dRemediationFields d !!! i in
  let value := dRemediationValues d !!! i in
  let kind := dRemediationEvidenceKinds d !!! i in
  let at_row g := g ▷ onRow id ▷ onSpan attach ▷ onRemediation id in
  emit (negb (field =? 0) && (zlen (names fields) <? field)) (at_row (diag CodeInvalidField TableRemediation) ▷ onMember MemberField ▷ onField field) ++
  emit (negb (value =? 0) && (zlen (dValueKinds d) <? value)) (at_row (diag CodeInvalidValue TableRemediation) ▷ onMember MemberValue ▷ onValue value) ++
  emit (negb (kind =? 0) && (zlen (dEvidenceKindNames d) <? kind))
    (at_row (diag CodeInvalidEvidence TableRemediation) ▷ onMember MemberEvidenceKind ▷ onEvidenceKind kind) ++
  emit (negb spanOK) (diag CodeInvalidSourceSpan TableRemediation ▷ onMember MemberSpan ▷ onRow id ▷ onRemediation id).

Definition checkRemediationRows : list Diagnostic := flat_map checkRemediationRow (seq 0 remediationRows).

(** ** Structure: clauses and requirements *)

Definition clauseRows : nat :=
  safeMin [length (dClauseAssertionRoots d); length (dClauseEvidenceStarts d); length (dClauseEvidenceCounts d); length (dClauseRemediationStarts d);
           length (dClauseRemediationCounts d); length (dClauseOnSatisfied d); length (dClauseOnFalse d); length (dClauseOnMissing d);
           length (dClauseOnStale d); length (dClauseOnUnclear d); length (dClauseOnUnverifiable d); length (dClauseOnConflict d);
           length (dClauseSourceStarts d); length (dClauseSourceEnds d)].

(** The seven branches of clause [i] with their members. *)
Definition clauseBranches (i : nat) : list (MemberKind * Z) :=
  [(MemberOutcomeSatisfied, dClauseOnSatisfied d !!! i); (MemberOutcomeFalse, dClauseOnFalse d !!! i); (MemberOutcomeMissing, dClauseOnMissing d !!! i);
   (MemberOutcomeStale, dClauseOnStale d !!! i); (MemberOutcomeUnclear, dClauseOnUnclear d !!! i);
   (MemberOutcomeUnverifiable, dClauseOnUnverifiable d !!! i); (MemberOutcomeConflict, dClauseOnConflict d !!! i)].

Definition evidenceRange (i : nat) : bool :=
  validRange (dClauseEvidenceStarts d !!! i) (dClauseEvidenceCounts d !!! i) (zlen (dClauseEvidenceNodeIDs d)).
Definition evidenceEdges (i : nat) : list Z := csr (dClauseEvidenceNodeIDs d) (dClauseEvidenceStarts d !!! i) (dClauseEvidenceCounts d !!! i).
Definition remediationRange (i : nat) : bool :=
  validRange (dClauseRemediationStarts d !!! i) (dClauseRemediationCounts d !!! i) (zlen (dClauseRemediationIDs d)).

Definition checkClauseRow (i : nat) : list Diagnostic * bool :=
  let id := rowID i in
  let '(attach, spanOK) := validOwnerSpan (dClauseSourceStarts d !!! i) (dClauseSourceEnds d !!! i) input in
  let at_row g := g ▷ onRow id ▷ onClause id ▷ onSpan attach in
  let assertion := dClauseAssertionRoots d !!! i in
  let explanationStart := u64 (Z.of_nat i * ResolutionBranchCount) in
  let explanationEnd := u64 (explanationStart + ResolutionBranchCount) in
  (emit (negb (inTable assertion nodeMax)) (at_row (diag CodeInvalidNodeReference TableClause) ▷ onMember MemberAssertion ▷ onNode assertion) ++
   (if negb (evidenceRange i) then [at_row (diag CodeInvalidCSRRange TableClause) ▷ onMember MemberEvidence]
    else flat_map (λ e, emit (negb (inTable e nodeMax)) (at_row (diag CodeInvalidNodeReference TableClause) ▷ onMember MemberEvidence ▷ onNode e))
           (evidenceEdges i)) ++
   (if negb (remediationRange i) then [at_row (diag CodeInvalidCSRRange TableClause) ▷ onMember MemberRemediations]
    else flat_map (λ r, emit (negb (inTable r (zlen (dRemediationKinds d))))
                          (at_row (diag CodeInvalidRemediation TableClause) ▷ onMember MemberRemediation ▷ onRemediation r))
           (csr (dClauseRemediationIDs d) (dClauseRemediationStarts d !!! i) (dClauseRemediationCounts d !!! i))) ++
   flat_map (λ b, emit (negb (b.2 =? 0) && (zlen (dOutcomeNames d) <? b.2))
                    (at_row (diag CodeInvalidOutcome TableClause) ▷ onMember b.1 ▷ onOutcome b.2)) (clauseBranches i) ++
   (if explanationEnd <=? zlen (dClauseExplanationIDs d) then
      flat_map (λ x, emit (negb (x =? 0) && (zlen (dExplanationRationaleIDs d) <? x))
                       (diag CodeInvalidExplanation TableClause ▷ onMember MemberTemplate ▷ onRow id ▷ onClause id))
        (csr (dClauseExplanationIDs d) explanationStart (explanationEnd - explanationStart))
    else []) ++
   emit (negb spanOK) (diag CodeInvalidSourceSpan TableClause ▷ onMember MemberSpan ▷ onRow id ▷ onClause id),
   negb (inTable assertion nodeMax) || negb (evidenceRange i) || negb (remediationRange i)).

(** The rows beyond the shortest column are unsafe. *)
Definition checkClauseRows : list Diagnostic * list Z :=
  let rows := map checkClauseRow (seq 0 clauseRows) in
  (concat (map fst rows),
   map (λ r : list Diagnostic * bool, if snd r then clauseStateUnsafe else 0) rows ++ replicate (length (dClauseAssertionRoots d) - clauseRows) clauseStateUnsafe).

Definition requirementRows : nat :=
  safeMin [length (dRequirementIDs d); length (dRequirementApplicabilityRoots d); length (dRequirementClauseStarts d); length (dRequirementClauseCounts d);
           length (dRequirementSourceStarts d); length (dRequirementSourceEnds d)].

Definition clauseRange (i : nat) : bool :=
  validRange (dRequirementClauseStarts d !!! i) (dRequirementClauseCounts d !!! i) (zlen (dRequirementClauseIDs d)).
Definition clauseEdges (i : nat) : list Z := csr (dRequirementClauseIDs d) (dRequirementClauseStarts d !!! i) (dRequirementClauseCounts d !!! i).

Definition checkRequirementRow (i : nat) : list Diagnostic :=
  let '(attach, spanOK) := validOwnerSpan (dRequirementSourceStarts d !!! i) (dRequirementSourceEnds d !!! i) input in
  let req := dRequirementIDs d !!! i in
  let at_row g := g ▷ onRow (rowID i) ▷ onRequirement req ▷ onSpan attach in
  let root := dRequirementApplicabilityRoots d !!! i in
  emit (negb (inTable root nodeMax)) (at_row (diag CodeInvalidNodeReference TableRequirement) ▷ onMember MemberApplicability ▷ onNode root) ++
  (if negb (clauseRange i) then [at_row (diag CodeInvalidCSRRange TableRequirement) ▷ onMember MemberClauses]
   else flat_map (λ c, emit (negb (inTable c (zlen (dClauseAssertionRoots d))))
                         (at_row (diag CodeInvalidPayloadRef TableRequirement) ▷ onMember MemberClause ▷ onClause c)) (clauseEdges i)) ++
  emit (negb spanOK) (diag CodeInvalidSourceSpan TableRequirement ▷ onMember MemberSpan ▷ onRow (rowID i) ▷ onRequirement req).

Definition checkRequirementRows : list Diagnostic := flat_map checkRequirementRow (seq 0 requirementRows).

(** The first phase, with the states of nodes and clauses it leaves. *)
Definition validateStructure : list Diagnostic * list Z * list Z :=
  let '(nodeDiags, nodeState) := checkNodeRows in
  let '(clauseDiags, clauseState) := checkClauseRows in
  (checkColumnLengths ++ checkTemplateRows ++ checkExplanationRows ++ checkValueRows ++ checkCompareRows ++ checkGroupRows ++ checkNotRows ++
   checkEvidenceRows ++ nodeDiags ++ checkEvidenceKindRows ++ checkEvidenceStateRows ++ checkOutcomeRows ++ checkRemediationRows ++ clauseDiags ++
   checkRequirementRows, nodeState, clauseState).

(** ** Graph edges of safe nodes *)

Definition graphEdgeCount (node : Z) : go Z :=
  kind ← at_ (dNodeKinds d) (node - 1);
  if kind =? NodeKindNot then Ok 1
  else if isGroupKind kind then ref ← at_ (dNodeRefs d) (node - 1); at_ (dGroupChildCounts d) ref
  else Ok 0.

Definition graphChild (node j : Z) : go Z :=
  kind ← at_ (dNodeKinds d) (node - 1);
  if kind =? NodeKindNot then ref ← at_ (dNodeRefs d) (node - 1); at_ (dNotChildren d) ref
  else if isGroupKind kind then
    ref ← at_ (dNodeRefs d) (node - 1);
    start ← at_ (dGroupChildStarts d) ref;
    at_ (dChildNodeIDs d) (start + j)
  else Ok 0.

(** ** Semantics: explanations *)

Definition isContext (id context : Z) : bool := bool_decide (templateContextAt id = Some context).
Definition hasContext (id : Z) : bool := bool_decide (is_Some (templateContextAt id)).

Definition checkAssumptions : list Diagnostic :=
  let policyPresent := negb (dPolicyName d =? 0) || negb (dPolicyVersion d =? 0) || negb (bool_decide (dTemplateOpStarts d = [])) ||
                       negb (bool_decide (dExplanationRationaleIDs d = [])) || negb (bool_decide (dRequirementIDs d = [])) in
  if policyPresent && negb (bool_decide (dAssumptionsSet d = [1])) then [diag CodeMissingExplanation TableDocument ▷ onMember MemberAssumptions]
  else if bool_decide (dAssumptionsSet d = [1]) then
    flat_map (λ i, emit (hasContext (dAssumptionTemplateIDs d !!! i) && negb (isContext (dAssumptionTemplateIDs d !!! i) TemplateContextAssumption))
                     (diag CodeInvalidTemplate TableDocument ▷ onMember MemberAssumptions ▷ onRow (rowID i))) (seq 0 (length (dAssumptionTemplateIDs d)))
  else [].

Definition checkExplanationContext (i : nat) : list Diagnostic :=
  let row := rowID i in
  let rationale := dExplanationRationaleIDs d !!! i in
  let start := dExplanationUncertaintyStarts d !!! i in
  let count := dExplanationUncertaintyCounts d !!! i in
  (if rationale =? 0 then [diag CodeMissingExplanation TableExplanation ▷ onMember MemberRationale ▷ onRow row]
   else emit (hasContext rationale && negb (isContext rationale TemplateContextDecision) && negb (isContext rationale TemplateContextUnresolved))
          (diag CodeInvalidExplanation TableExplanation ▷ onMember MemberRationale ▷ onRow row)) ++
  if negb (validRange start count (zlen (dExplanationUncertaintyIDs d))) then []
  else flat_map (λ id,
    if id =? 0 then [diag CodeMissingExplanation TableExplanation ▷ onMember MemberUncertainty ▷ onRow row]
    else emit (hasContext rationale && hasContext id && negb (bool_decide (templateContextAt id = templateContextAt rationale)))
           (diag CodeInvalidExplanation TableExplanation ▷ onMember MemberUncertainty ▷ onRow row)) (csr (dExplanationUncertaintyIDs d) start count).

(** The first issue template of an evidence row that is missing or of another context. *)
Fixpoint checkIssueTemplates (row : Z) (reason : Z) (ids : list Z) : list Diagnostic :=
  match ids with
  | [] => []
  | id :: ids =>
      if id =? 0 then [diag CodeMissingExplanation TableEvidenceNode ▷ onMember MemberTemplate ▷ onRow row]
      else if negb (hasContext id) then checkIssueTemplates row (reason + 1) ids
      else if negb (isContext id TemplateContextEvidenceMissing || (negb (reason =? EvidenceIssueMissing) && isContext id TemplateContextEvidencePresent))
           then [diag CodeInvalidTemplate TableEvidenceNode ▷ onMember MemberTemplate ▷ onRow row]
           else checkIssueTemplates row (reason + 1) ids
  end.

Definition checkEvidenceIssues (i : nat) : list Diagnostic :=
  let start := u64 (Z.of_nat i * EvidenceIssueReasonCount) in
  let end_ := u64 (start + EvidenceIssueReasonCount) in
  if zlen (dEvidenceIssueTemplateIDs d) <? end_ then []
  else checkIssueTemplates (rowID i) 0 (csr (dEvidenceIssueTemplateIDs d) start (end_ - start)).

Definition explanationMembers : list MemberKind :=
  [MemberExplanationSatisfied; MemberExplanationFalse; MemberExplanationMissing; MemberExplanationStale; MemberExplanationUnclear;
   MemberExplanationUnverifiable; MemberExplanationConflict].

Definition checkClauseExplanation (i : nat) (branch : nat) (member : MemberKind) (id : Z) : list Diagnostic :=
  if id =? 0 then [diag CodeMissingExplanation TableClause ▷ onMember member ▷ onRow (rowID i) ▷ onClause (rowID i)]
  else match explanationContextAt id with
       | None => []
       | Some context => emit (negb (context =? (if (branch <? 2)%nat then TemplateContextDecision else TemplateContextUnresolved)))
                           (diag CodeInvalidExplanation TableClause ▷ onMember member ▷ onRow (rowID i) ▷ onClause (rowID i))
       end.

Definition checkClauseExplanations (i : nat) : list Diagnostic :=
  let start := u64 (Z.of_nat i * ResolutionBranchCount) in
  let end_ := u64 (start + ResolutionBranchCount) in
  if zlen (dClauseExplanationIDs d) <? end_ then []
  else concat (imap (λ branch p, checkClauseExplanation i branch p.1 p.2) (zip explanationMembers (csr (dClauseExplanationIDs d) start (end_ - start)))).

Definition checkExplanationSemantics : list Diagnostic :=
  checkAssumptions ++ flat_map checkExplanationContext (seq 0 explanationRows) ++ flat_map checkEvidenceIssues (seq 0 (length (dEvidenceKinds d))) ++
  flat_map checkClauseExplanations (seq 0 (length (dClauseAssertionRoots d))).

(** ** Semantics: expressions *)

Definition checkCompareRowSemantics (id : Z) (ref : nat) (span : Z * Z) : list Diagnostic :=
  let at_row g := g ▷ onRow (rowID ref) ▷ onNode id ▷ onSpan span in
  let op := dCompareOps d !!! ref in
  let value := dCompareValues d !!! ref in
  let field := dCompareFields d !!! ref in
  let start := dCompareListStarts d !!! ref in
  let count := dCompareListCounts d !!! ref in
  let listOK := validRange start count (zlen (dListValueIDs d)) in
  if negb (CompareOpValid op) then [at_row (diag CodeInvalidArity TableCompare) ▷ onMember MemberOperation] else
  (if (op =? CompareOpExists) || (op =? CompareOpDefined) then
     emit (negb (value =? 0)) (at_row (diag CodeInvalidArity TableCompare) ▷ onMember MemberValue ▷ onValue value) ++
     emit (listOK && negb (count =? 0)) (at_row (diag CodeInvalidArity TableCompare) ▷ onMember MemberValues)
   else if op =? CompareOpIn then
     emit (negb (value =? 0)) (at_row (diag CodeInvalidArity TableCompare) ▷ onMember MemberValue ▷ onValue value) ++
     emit (listOK && (count =? 0)) (at_row (diag CodeInvalidArity TableCompare) ▷ onMember MemberValues)
   else
     emit (value =? 0) (at_row (diag CodeInvalidArity TableCompare) ▷ onMember MemberValue) ++
     emit (listOK && negb (count =? 0)) (at_row (diag CodeInvalidArity TableCompare) ▷ onMember MemberValues)) ++
  (if ((op =? CompareOpEqual) || (op =? CompareOpNotEqual)) && negb (value =? 0) && listOK && (count =? 0) then
     match Fields.KindOf fields field, literalValueKind value with
     | Some fieldKind, Some kind => emit (negb (kind =? fieldKind)) (at_row (diag CodeTypeMismatch TableCompare) ▷ onMember MemberValue ▷ onField field ▷ onValue value)
     | _, _ => []
     end
   else []) ++
  (if (op =? CompareOpIn) && (value =? 0) && listOK && (0 <? count) then
     match Fields.KindOf fields field with
     | Some fieldKind =>
         if fieldKind =? ValueKindPresence then [at_row (diag CodeTypeMismatch TableCompare) ▷ onMember MemberField ▷ onField field]
         else flat_map (λ e, match literalValueKind e with
                             | Some kind => emit (negb (kind =? fieldKind))
                                              (at_row (diag CodeTypeMismatch TableCompare) ▷ onMember MemberValues ▷ onField field ▷ onValue e)
                             | None => []
                             end) (csr (dListValueIDs d) start count)
     | None => []
     end
   else []) ++
  (if (CompareOpLess <=? op) && (op <=? CompareOpGreaterEqual) && negb (value =? 0) && listOK && (count =? 0) then
     match Fields.KindOf fields field with
     | Some fieldKind =>
         if negb (ordered fieldKind) then [at_row (diag CodeTypeMismatch TableCompare) ▷ onMember MemberField ▷ onField field]
         else match literalValueKind value with
              | Some kind => emit (negb (kind =? fieldKind)) (at_row (diag CodeTypeMismatch TableCompare) ▷ onMember MemberValue ▷ onField field ▷ onValue value)
              | None => []
              end
     | None => []
     end
   else []).

(** The rule of the payload of node [i]. *)
Definition checkNodePayload (i : nat) : list Diagnostic :=
  let id := rowID i in
  let span := validNodeSpan i in
  let kind := dNodeKinds d !!! i in
  let ref := dNodeRefs d !!! i in
  if kind =? NodeKindBoolean then
    emit (negb (bool_decide (literalValueKind ref = Some ValueKindBoolean)))
      (diag CodeInvalidValue TableNode ▷ onMember MemberValue ▷ onRow id ▷ onNode id ▷ onValue ref ▷ onSpan span)
  else if kind =? NodeKindCompare then
    if ref <? Z.of_nat compareRows then checkCompareRowSemantics id (Z.to_nat ref) span else []
  else if isGroupKind kind then
    if ref <? Z.of_nat groupRows then
      let count := dGroupChildCounts d !!! Z.to_nat ref in
      emit ((count =? 0) && validRange (dGroupChildStarts d !!! Z.to_nat ref) count (zlen (dChildNodeIDs d)))
        (diag CodeInvalidArity TableGroup ▷ onMember MemberChildren ▷ onRow (u32 (ref + 1)) ▷ onNode id ▷ onSpan span)
    else []
  else [].

(** Edges of expressions never lead to evidence nodes. *)
Definition isEvidenceNode (node : Z) : bool := inTable node nodeMax && (dNodeKinds d !!! Z.to_nat (node - 1) =? NodeKindEvidence).

Definition checkNodeEdge (i : nat) (edge : nat) : go (list Diagnostic) :=
  target ← graphChild (rowID i) (Z.of_nat edge);
  Ok (emit (isEvidenceNode target)
        (diag CodeInvalidEvidence TableNode ▷ onMember MemberChild ▷ onRow (rowID i) ▷ onNode target ▷ onSpan (validNodeSpan i))).

Definition checkNodeSemantics (nodeState : list Z) (i : nat) : go (list Diagnostic) :=
  state ← at_ nodeState (Z.of_nat i);
  if negb (Z.land state nodeStateUnsafe =? 0) then Ok [] else
  if (length (dNodeRefs d) <=? i)%nat then Ok [] else
  count ← graphEdgeCount (rowID i);
  edges ← collect (checkNodeEdge i) (seq 0 (Z.to_nat count));
  Ok (checkNodePayload i ++ edges).

Definition checkExpressionSemantics (nodeState : list Z) : go (list Diagnostic) := collect (checkNodeSemantics nodeState) (seq 0 (length (dNodeKinds d))).

(** ** Semantics: names *)

Definition checkIdentityValue (member : MemberKind) (value : Z) : go (list Diagnostic) :=
  match structuralLiteralKind value with
  | None => Ok (emit ((value =? 0) || (zlen (dValueKinds d) <? value)) (diag CodeInvalidValue TableDocument ▷ onMember member ▷ onValue value))
  | Some kind =>
      if negb (kind =? ValueKindSymbol) then Ok [diag CodeTypeMismatch TableDocument ▷ onMember member ▷ onValue value]
      else cur ← symbolBytes value; Ok (emit (bool_decide (cur = [])) (diag CodeInvalidValue TableDocument ▷ onMember member ▷ onValue value))
  end.

Definition checkPolicyIdentitySemantics : go (list Diagnostic) :=
  if (dPolicyName d =? 0) && (dPolicyVersion d =? 0) then Ok [] else
  collect (λ check, checkIdentityValue check.1 check.2) [(MemberMetadataName, dPolicyName d); (MemberMetadataVersion, dPolicyVersion d)].

(** Whether an earlier name is the same symbol. *)
Fixpoint duplicateName (name : Z) (cur : bytes) (previous : list Z) : go bool :=
  match previous with
  | [] => Ok false
  | prev :: previous =>
      if prev =? 0 then duplicateName name cur previous
      else
        equal ← (if prev =? name then Ok true
                 else if bool_decide (structuralLiteralKind prev = Some ValueKindSymbol)
                      then b ← symbolBytes prev; Ok (negb (bool_decide (b = [])) && bool_decide (b = cur))
                      else Ok false);
        if equal : bool then Ok true else duplicateName name cur previous
  end.

Definition catalogNameOwner (table : TableKind) (row : Z) (g : Diagnostic) : Diagnostic :=
  match table with
  | TableEvidenceKind => g ▷ onEvidenceKind row
  | TableEvidenceState => g ▷ onEvidenceState row
  | TableOutcome => g ▷ onOutcome row
  | _ => g
  end.

Definition checkCatalogName (table : TableKind) (names starts ends : list Z) (i : nat) : go (list Diagnostic) :=
  let attach := (validOwnerSpan (starts !!! i) (ends !!! i) input).1 in
  let name := names !!! i in
  let at_row g := catalogNameOwner table (rowID i) (g ▷ onMember MemberName ▷ onRow (rowID i) ▷ onSpan attach ▷ onValue name) in
  if name =? 0 then Ok [] else
  match structuralLiteralKind name with
  | None => Ok []
  | Some kind =>
      if negb (kind =? ValueKindSymbol) then Ok [at_row (diag CodeTypeMismatch table)] else
      cur ← symbolBytes name;
      if bool_decide (cur = []) then Ok [at_row (diag CodeInvalidValue table)] else
      duplicate ← duplicateName name cur (take i names);
      Ok (emit duplicate (at_row (diag CodeDuplicateName table)))
  end.

Definition checkCatalogNameSemantics (table : TableKind) (names starts ends : list Z) : go (list Diagnostic) :=
  collect (checkCatalogName table names starts ends) (seq 0 (safeMin [length names; length starts; length ends])).

(** ** Semantics: remediations, clauses and requirements *)

Definition checkRemediationSemanticsRow (i : nat) : list Diagnostic :=
  let id := rowID i in
  let attach := (validOwnerSpan (dRemediationSourceStarts d !!! i) (dRemediationSourceEnds d !!! i) input).1 in
  let at_row g := g ▷ onRow id ▷ onSpan attach ▷ onRemediation id in
  let kind := dRemediationKinds d !!! i in
  let field := dRemediationFields d !!! i in
  let value := dRemediationValues d !!! i in
  let evidence := dRemediationEvidenceKinds d !!! i in
  if negb (RemediationKindValid kind) then [at_row (diag CodeInvalidRemediation TableRemediation) ▷ onMember MemberRecordKind]
  else if kind =? RemediationKindSetField then
    emit (field =? 0) (at_row (diag CodeInvalidRemediation TableRemediation) ▷ onMember MemberField) ++
    emit (value =? 0) (at_row (diag CodeInvalidRemediation TableRemediation) ▷ onMember MemberValue) ++
    emit (negb (evidence =? 0)) (at_row (diag CodeInvalidRemediation TableRemediation) ▷ onMember MemberEvidenceKind ▷ onEvidenceKind evidence) ++
    (if negb (field =? 0) && negb (value =? 0) then
       match Fields.KindOf fields field, structuralLiteralKind value with
       | Some fieldKind, Some kind => emit (negb (kind =? fieldKind))
                                        (at_row (diag CodeTypeMismatch TableRemediation) ▷ onMember MemberValue ▷ onField field ▷ onValue value)
       | _, _ => []
       end
     else [])
  else
    emit (negb (field =? 0)) (at_row (diag CodeInvalidRemediation TableRemediation) ▷ onMember MemberField ▷ onField field) ++
    emit (negb (value =? 0)) (at_row (diag CodeInvalidRemediation TableRemediation) ▷ onMember MemberValue ▷ onValue value) ++
    emit (evidence =? 0) (at_row (diag CodeInvalidRemediation TableRemediation) ▷ onMember MemberEvidenceKind).

Definition checkRemediationSemantics : list Diagnostic := flat_map checkRemediationSemanticsRow (seq 0 remediationRows).

(** A target in the node table of a valid kind other than evidence. *)
Definition notEvidence (target : Z) : bool :=
  inTable target nodeMax && (let kind := dNodeKinds d !!! Z.to_nat (target - 1) in NodeKindValid kind && negb (kind =? NodeKindEvidence)).

Definition checkClauseSemanticsRow (i : nat) : list Diagnostic :=
  let id := rowID i in
  let attach := (validOwnerSpan (dClauseSourceStarts d !!! i) (dClauseSourceEnds d !!! i) input).1 in
  let at_row g := g ▷ onRow id ▷ onSpan attach ▷ onClause id in
  let assertion := dClauseAssertionRoots d !!! i in
  emit (isEvidenceNode assertion) (at_row (diag CodeInvalidEvidence TableClause) ▷ onMember MemberAssertion ▷ onNode assertion) ++
  (if evidenceRange i then
     flat_map (λ target, emit (notEvidence target) (at_row (diag CodeInvalidEvidence TableClause) ▷ onMember MemberEvidence ▷ onNode target)) (evidenceEdges i)
   else []) ++
  flat_map (λ b, emit (b.2 =? 0) (at_row (diag CodeMissingResolution TableClause) ▷ onMember b.1)) (clauseBranches i).

Definition checkClauseSemantics : list Diagnostic := flat_map checkClauseSemanticsRow (seq 0 clauseRows).

Definition checkRequirementSemanticsRow (i : nat) : list Diagnostic :=
  let attach := (validOwnerSpan (dRequirementSourceStarts d !!! i) (dRequirementSourceEnds d !!! i) input).1 in
  let at_row g := g ▷ onRow (rowID i) ▷ onSpan attach in
  let id := dRequirementIDs d !!! i in
  let root := dRequirementApplicabilityRoots d !!! i in
  emit (isEvidenceNode root) (at_row (diag CodeInvalidEvidence TableRequirement) ▷ onMember MemberApplicability ▷ onRequirement id ▷ onNode root) ++
  (if id =? 0 then [at_row (diag CodeInvalidID TableRequirement) ▷ onMember MemberID]
   else emit (existsb (λ prev, negb (prev =? 0) && (prev =? id)) (take i (dRequirementIDs d)))
          (at_row (diag CodeDuplicateID TableRequirement) ▷ onMember MemberID ▷ onRequirement id)) ++
  emit (clauseRange i && (dRequirementClauseCounts d !!! i =? 0)) (at_row (diag CodeInvalidArity TableRequirement) ▷ onMember MemberClauses ▷ onRequirement id).

Definition checkRequirementSemantics : list Diagnostic := flat_map checkRequirementSemanticsRow (seq 0 requirementRows).

(** The second phase. *)
Definition validateSemantics (nodeState : list Z) : go (list Diagnostic) :=
  expressions ← checkExpressionSemantics nodeState;
  identity ← checkPolicyIdentitySemantics;
  kindNames ← checkCatalogNameSemantics TableEvidenceKind (dEvidenceKindNames d) (dEvidenceKindSourceStarts d) (dEvidenceKindSourceEnds d);
  stateNames ← checkCatalogNameSemantics TableEvidenceState (dEvidenceStateNames d) (dEvidenceStateSourceStarts d) (dEvidenceStateSourceEnds d);
  outcomeNames ← checkCatalogNameSemantics TableOutcome (dOutcomeNames d) (dOutcomeSourceStarts d) (dOutcomeSourceEnds d);
  Ok (checkExplanationSemantics ++ expressions ++ identity ++ kindNames ++ stateNames ++ outcomeNames ++ checkRemediationSemantics ++
      checkClauseSemantics ++ checkRequirementSemantics).

(** ** Graph *)

Definition mark (reachable : bool) (state : Z) : Z :=
  let state := Z.lor state nodeStateGray in
  if reachable then Z.lor state nodeStateReachable else state.

Definition visited (state : Z) : bool := negb (Z.land state (Z.lor nodeStateGray nodeStateBlack) =? 0).
Definition unsafe (state : Z) : bool := negb (Z.land state nodeStateUnsafe =? 0).

(** One iteration on the frame [(node, next)] at the top of the stack. *)
Definition graphStep (reachable : bool) (frame : Z * Z) (rest : list (Z * Z)) (st : graphState) : go (list (Z * Z) * graphState) :=
  let '(node, next) := frame in
  let '(states, dst) := st in
  count ← graphEdgeCount node;
  if next <? count then
    target ← graphChild node next;
    let frame := (node, u32 (next + 1)) in
    if negb (inTable target nodeMax) then Ok (frame :: rest, st) else
    ts ← at_ states (target - 1);
    if unsafe ts then Ok (frame :: rest, st)
    else if negb (Z.land ts nodeStateGray =? 0) then
      Ok (frame :: rest, (states, dst ++ [diag CodeCycle TableNode ▷ onMember MemberChild ▷ onRow node ▷ onNode target ▷ onSpan (validNodeSpan (Z.to_nat (node - 1)))]))
    else if negb (Z.land ts nodeStateBlack =? 0) then Ok (frame :: rest, st)
    else
      states ← put_ states (target - 1) (mark reachable ts);
      Ok ((target, 0) :: frame :: rest, (states, dst))
  else
    s ← at_ states (node - 1);
    states ← put_ states (node - 1) (Z.ldiff (Z.lor s nodeStateBlack) nodeStateGray);
    Ok (rest, (states, dst)).

(** The loop; [None] when it takes more than [fuel] iterations. *)
Fixpoint graphLoop (fuel : nat) (reachable : bool) (stack : list (Z * Z)) (st : graphState) : option (go graphState) :=
  match stack with
  | [] => Some (Ok st)
  | frame :: rest =>
      match fuel with
      | O => None
      | S fuel =>
          match graphStep reachable frame rest st with
          | Ok (stack, st) => graphLoop fuel reachable stack st
          | Err e => Some (Err e)
          | Panic msg => Some (Panic msg)
          end
      end
  end.

(** The edges of a node, and the iterations a traversal can take: one per edge and
    one per node. *)
Definition graphEdges (node : Z) : nat := match graphEdgeCount node with Ok n => Z.to_nat n | _ => 0 end.
Definition graphFuel : nat := foldr (λ i n, S (graphEdges (Z.of_nat i + 1)) + n)%nat 0%nat (seq 0 (length (dNodeKinds d))).

Definition walkGraph (reachable : bool) (root : Z) (st : graphState) : go graphState :=
  let '(states, dst) := st in
  if negb (inTable root nodeMax) then Ok st else
  rs ← at_ states (root - 1);
  if unsafe rs || visited rs then Ok st else
  states ← put_ states (root - 1) (mark reachable rs);
  default (Panic "walk does not end") (graphLoop graphFuel reachable [(root, 0)] (states, dst)).

(** A requirement's root is walked and its clauses are marked as referenced. *)
Definition referenceClause (c : Z) (clauseState : list Z) : go (list Z) :=
  if negb (inTable c (zlen (dClauseAssertionRoots d))) then Ok clauseState else
  s ← at_ clauseState (c - 1);
  put_ clauseState (c - 1) (Z.lor s clauseStateReferenced).

Definition walkRequirement (i : nat) (st : list Z * graphState) : go (list Z * graphState) :=
  let '(clauseState, gs) := st in
  gs ← walkGraph true (dRequirementApplicabilityRoots d !!! i) gs;
  clauseState ← (if clauseRange i then fold_go referenceClause (clauseEdges i) clauseState else Ok clauseState);
  Ok (clauseState, gs).

(** The roots of a safe clause that a requirement references. *)
Definition walkClause (clauseState : list Z) (i : nat) (gs : graphState) : go graphState :=
  s ← at_ clauseState (Z.of_nat i);
  if negb (Z.land s (Z.lor clauseStateReferenced clauseStateUnsafe) =? clauseStateReferenced) then Ok gs else
  gs ← walkGraph true (dClauseAssertionRoots d !!! i) gs;
  if evidenceRange i then fold_go (walkGraph true) (evidenceEdges i) gs else Ok gs.

(** The components that no root reaches. *)
Definition walkOrphan (i : nat) (gs : graphState) : go graphState :=
  s ← at_ gs.1 (Z.of_nat i);
  if unsafe s || visited s then Ok gs else walkGraph false (rowID i) gs.

Definition unreachable (states : list Z) (i : nat) : go (list Diagnostic) :=
  s ← at_ states (Z.of_nat i);
  Ok (emit (negb (unsafe s || negb (Z.land s nodeStateReachable =? 0)))
        (diag CodeUnreachableNode TableNode ▷ onRow (rowID i) ▷ onNode (rowID i) ▷ onSpan (validNodeSpan i))).

(** The third phase. *)
Definition validateGraph (nodeState clauseState : list Z) : go (list Diagnostic) :=
  '(clauseState, gs) ← for_range requirementRows walkRequirement (clauseState, (nodeState, []));
  gs ← for_range (length (dClauseAssertionRoots d)) (walkClause clauseState) gs;
  gs ← for_range (length (dNodeKinds d)) walkOrphan gs;
  orphans ← collect (unreachable gs.1) (seq 0 (length (dNodeKinds d)));
  Ok (gs.2 ++ orphans).

Definition Validate : go (list Diagnostic) :=
  let '(structure, nodeState, clauseState) := validateStructure in
  semantics ← validateSemantics nodeState;
  graph ← validateGraph nodeState clauseState;
  Ok (structure ++ semantics ++ graph).
End document.
