(* ===== verification/GraphWalk.v ===== *)
(** * The validator's graph traversal

    The iterative tri-colour traversal of compile/validate.go on any document whose
    columns have their Go types: it never indexes out of range, ends, reports a cycle
    exactly when the graph of safe nodes has one, and marks what the roots reach. *)

From S2P Require Import Prelude Schema Templates SymbolTable Ast Diagnostic Validate Traversal.
#[local] Open Scope Z_scope.

(** ** Columns *)

Definition is_u16 (x : Z) : Prop := 0 ≤ x ≤ MaxUint16.

(** The Go types of the columns that graphs are read from; node identifiers are 32-bit. *)
Record graph_typed (d : Document) : Prop := {
  gt_nodes : zlen (dNodeKinds d) ≤ MaxUint32 ∧ Forall is_u32 (dNodeRefs d);
  gt_groups : Forall is_u32 (dGroupChildStarts d) ∧ Forall is_u16 (dGroupChildCounts d) ∧ Forall is_u32 (dChildNodeIDs d);
  gt_nots : Forall is_u32 (dNotChildren d);
  gt_requirements : Forall is_u32 (dRequirementApplicabilityRoots d) ∧ Forall is_u32 (dRequirementClauseIDs d);
  gt_clauses : Forall is_u32 (dClauseAssertionRoots d) ∧ Forall is_u32 (dClauseEvidenceNodeIDs d)
}.

Lemma Forall_total_Z (P : Z → Prop) l i : Forall P l → P inhabitant → P (l !!! i).
Proof.
  intros H H0. destruct (decide (i < length l)%nat); [by apply Forall_lookup_total_1|]. rewrite list_lookup_total_alt, lookup_ge_None_2 by lia. exact H0.
Qed.

Lemma safeMin_le l x : x ∈ l → (safeMin l ≤ x)%nat.
Proof.
  assert (∀ l m, let r := foldl (λ m n, if (n <? m)%nat then n else m) m l in (r ≤ m)%nat ∧ ∀ x, x ∈ l → (r ≤ x)%nat) as H.
  { clear l x. induction l as [|y l IH]; intros m; cbv zeta; cbn [foldl]; [split; [lia|by intros x ?%elem_of_nil]|].
    destruct (Nat.ltb_spec y m) as [Hy|Hy]; [destruct (IH y) as [H1 H2]|destruct (IH m) as [H1 H2]]; (split; [lia|]); intros x [->|Hx]%elem_of_cons;
      first [by apply H2|lia]. }
  unfold safeMin. destruct l as [|y l]; [by intros ?%elem_of_nil|]. simpl. destruct (H l y) as [H1 H2]. intros [->|Hx]%elem_of_cons; [done|by apply H2].
Qed.

Lemma safeMin_eq l n : l ≠ [] → Forall (eq n) l → safeMin l = n.
Proof.
  destruct l as [|y l]; [done|]. intros _ [<- H]%Forall_cons. unfold safeMin. simpl. induction H as [|z l <- _ IH]; [done|]. simpl. by rewrite Nat.ltb_irrefl.
Qed.

Lemma validRange_pool start count (pool : list Z) : is_u32 start → 0 ≤ count → validRange start count (zlen pool) = true ↔ 0 ≤ start ∧ 0 ≤ count ∧ start + count ≤ zlen pool.
Proof. unfold validRange, is_u32. rewrite andb_true_iff, !Z.leb_le. lia. Qed.

Lemma inTable_true id n : is_u32 id → inTable id n = true ↔ 1 ≤ id ≤ n.
Proof. unfold inTable, is_u32. rewrite negb_true_iff, orb_false_iff, Z.eqb_neq, Z.ltb_ge. lia. Qed.

Lemma rowID_small i n : (i < n)%nat → Z.of_nat n ≤ MaxUint32 → rowID i = Z.of_nat i + 1.
Proof. intros. unfold rowID, MaxUint32 in *. apply u32_small. unfold is_u32. lia. Qed.

(** ** Colours *)

Definition gray (s : Z) : bool := negb (Z.land s nodeStateGray =? 0).
Definition black (s : Z) : bool := negb (Z.land s nodeStateBlack =? 0).
Definition marked (s : Z) : bool := negb (Z.land s nodeStateReachable =? 0).
Definition finish (s : Z) : Z := Z.ldiff (Z.lor s nodeStateBlack) nodeStateGray.
Definition is_state (s : Z) : Prop := 0 ≤ s < 16.

Lemma state_cases s : is_state s → s ∈ [0; 1; 2; 3; 4; 5; 6; 7; 8; 9; 10; 11; 12; 13; 14; 15].
Proof. unfold is_state. intros. rewrite !elem_of_cons. lia. Qed.

Ltac each_state s := let H := fresh in
  assert (H := state_cases s ltac:(assumption)); repeat (apply elem_of_cons in H as [->|H]; [|]); [..|by apply elem_of_nil in H].

Lemma mark_spec reachable s : is_state s →
  is_state (mark reachable s) ∧ unsafe (mark reachable s) = unsafe s ∧ gray (mark reachable s) = true ∧ black (mark reachable s) = black s ∧
  marked (mark reachable s) = marked s || reachable.
Proof. intros Hs. destruct reachable; each_state s; by vm_compute. Qed.

Lemma finish_spec s : is_state s → is_state (finish s) ∧ unsafe (finish s) = unsafe s ∧ gray (finish s) = false ∧ black (finish s) = true ∧ marked (finish s) = marked s.
Proof. intros Hs. each_state s; by vm_compute. Qed.

Lemma visited_spec s : is_state s → visited s = gray s || black s.
Proof. intros Hs. each_state s; by vm_compute. Qed.

(** ** The graph of safe nodes *)

Section graph.
Context (d : Document) (Ht : graph_typed d).
Local Abbreviation n := (length (dNodeKinds d)).

Definition unsafeRow (i : nat) : bool := (checkNodeRow d i).2.
Definition safeNode (node : Z) : Prop := 1 ≤ node ≤ zlen (dNodeKinds d) ∧ unsafeRow (Z.to_nat (node - 1)) = false.

(** The targets of a node, and the edges between safe nodes. *)
Definition targets (node : Z) : list Z := map (λ j, match graphChild d node (Z.of_nat j) with Ok c => c | _ => 0 end) (seq 0 (graphEdges d node)).
Definition edge (u v : Z) : Prop := safeNode u ∧ safeNode v ∧ v ∈ targets u.

Lemma safe_row i : (i < n)%nat → unsafeRow i = false →
  (i < length (dNodeRefs d))%nat ∧ NodeKindValid (dNodeKinds d !!! i) = true ∧ nodeRefValid d (dNodeKinds d !!! i) (dNodeRefs d !!! i) = true ∧
  (isGroupKind (dNodeKinds d !!! i) = true → validRange (dGroupChildStarts d !!! Z.to_nat (dNodeRefs d !!! i)) (dGroupChildCounts d !!! Z.to_nat (dNodeRefs d !!! i))
    (zlen (dChildNodeIDs d)) = true) ∧ (i < length (dSourceStarts d))%nat ∧ (i < length (dSourceEnds d))%nat.
Proof.
  intros Hi. unfold unsafeRow, checkNodeRow. cbv zeta. destruct (NodeKindValid (dNodeKinds d !!! i)); [|done]. simpl.
  destruct (Nat.ltb_spec i (length (dNodeRefs d))); simpl; [|done].
  destruct (nodeRefValid d (dNodeKinds d !!! i) (dNodeRefs d !!! i)); simpl; [|done].
  destruct (Nat.ltb_spec i (length (dSourceStarts d))); simpl; [|done]. destruct (Nat.ltb_spec i (length (dSourceEnds d))); simpl; [|done].
  rewrite andb_true_r, andb_false_iff, negb_false_iff. intros Hg. split_and!; try done. intros E. rewrite E in Hg. by destruct Hg.
Qed.

Lemma node_ref i : is_u32 (dNodeRefs d !!! i).
Proof. destruct (gt_nodes _ Ht) as [_ H]. by apply Forall_total_Z. Qed.

(** The payload row of a group. *)
Lemma safe_group node : safeNode node → isGroupKind (dNodeKinds d !!! Z.to_nat (node - 1)) = true → let r := Z.to_nat (dNodeRefs d !!! Z.to_nat (node - 1)) in
  (r < length (dGroupChildStarts d))%nat ∧ (r < length (dGroupChildCounts d))%nat ∧ is_u32 (dGroupChildStarts d !!! r) ∧ is_u16 (dGroupChildCounts d !!! r) ∧
  dGroupChildStarts d !!! r + dGroupChildCounts d !!! r ≤ zlen (dChildNodeIDs d).
Proof.
  intros [Hn Hs] Hg r. destruct (safe_row (Z.to_nat (node - 1)) ltac:(lia) Hs) as (_ & _ & Hr & Hv & _). specialize (Hv Hg). fold r in Hv. destruct (gt_groups _ Ht) as (T1 & T2 & _).
  assert (is_u32 (dGroupChildStarts d !!! r)) as H1 by (by apply Forall_total_Z).
  assert (is_u16 (dGroupChildCounts d !!! r)) as H2 by (apply Forall_total_Z; [done|unfold is_u16, MaxUint16; simpl; lia]).
  unfold is_u16 in H2. apply validRange_pool in Hv; [|done|lia].
  unfold nodeRefValid in Hr. pose proof (node_ref (Z.to_nat (node - 1))) as Hu. unfold is_u32 in Hu.
  assert ((dNodeKinds d !!! Z.to_nat (node - 1) =? NodeKindBoolean) = false ∧ (dNodeKinds d !!! Z.to_nat (node - 1) =? NodeKindCompare) = false) as [E1 E2].
  { unfold isGroupKind in Hg. split; apply Z.eqb_neq; intros E; by rewrite E in Hg. }
  rewrite E1, E2, Hg, Z.ltb_lt in Hr. unfold groupRows in Hr. split_and!; [lia|lia|done|done..|lia].
Qed.

Lemma safe_not node : safeNode node → dNodeKinds d !!! Z.to_nat (node - 1) = NodeKindNot → dNodeRefs d !!! Z.to_nat (node - 1) < zlen (dNotChildren d).
Proof. intros [Hn Hs] Hk. destruct (safe_row (Z.to_nat (node - 1)) ltac:(lia) Hs) as (_ & _ & Hr & _). rewrite Hk in Hr. by apply Z.ltb_lt in Hr. Qed.

Lemma graphEdgeCount_ok node : safeNode node → graphEdgeCount d node = Ok (Z.of_nat (graphEdges d node)) ∧ Z.of_nat (graphEdges d node) ≤ MaxUint16.
Proof.
  intros Hs. pose proof Hs as [Hn Hrow]. unfold graphEdges. assert (∃ c, graphEdgeCount d node = Ok c ∧ is_u16 c) as (c & -> & Hc).
  2:{ unfold is_u16 in Hc. rewrite Z2Nat.id by lia. split; [done|lia]. }
  unfold graphEdgeCount. rewrite (at_total (dNodeKinds d)), go_bind_Ok by lia. pose proof (node_ref (Z.to_nat (node - 1))) as Hu. unfold is_u32 in Hu.
  destruct (Z.eqb_spec (dNodeKinds d !!! Z.to_nat (node - 1)) NodeKindNot); [eexists; split; [done|by vm_compute]|].
  destruct (isGroupKind _) eqn:Hg; [|eexists; split; [done|by vm_compute]]. destruct (safe_group node Hs Hg) as (_ & L & _ & H2 & _).
  destruct (safe_row (Z.to_nat (node - 1)) ltac:(lia) Hrow) as (Hl & _). rewrite (at_total (dNodeRefs d)), go_bind_Ok by lia. rewrite at_total by lia. by eexists.
Qed.

Lemma graphChild_ok node j : safeNode node → (j < graphEdges d node)%nat → graphChild d node (Z.of_nat j) = Ok (targets node !!! j) ∧ is_u32 (targets node !!! j).
Proof.
  intros Hs Hj. pose proof Hs as [Hn Hrow]. unfold targets. rewrite map_seq_lookup_total by done.
  assert (∃ c, graphChild d node (Z.of_nat j) = Ok c ∧ is_u32 c) as (c & -> & Hc); [|done].
  destruct (graphEdgeCount_ok node Hs) as [He _]. unfold graphEdgeCount in He. unfold graphChild. rewrite (at_total (dNodeKinds d)), go_bind_Ok in He |- * by lia.
  pose proof (node_ref (Z.to_nat (node - 1))) as Hu. unfold is_u32 in Hu. destruct (safe_row (Z.to_nat (node - 1)) ltac:(lia) Hrow) as (Hl & _).
  destruct (Z.eqb_spec (dNodeKinds d !!! Z.to_nat (node - 1)) NodeKindNot) as [Hk|Hk].
  { pose proof (safe_not node Hs Hk). rewrite (at_total (dNodeRefs d)), go_bind_Ok by lia. rewrite at_total by lia. eexists. split; [done|]. apply Forall_total_Z; [apply (gt_nots _ Ht)|done]. }
  destruct (isGroupKind _) eqn:Hg; [|exists 0; split; [done|unfold is_u32; lia]]. destruct (safe_group node Hs Hg) as (L1 & L2 & H1 & H2 & Hr).
  rewrite (at_total (dNodeRefs d)), go_bind_Ok in He |- * by lia. rewrite at_total in He by lia. injection He as He.
  rewrite (at_total (dGroupChildStarts d)), go_bind_Ok by lia. unfold is_u32, is_u16 in *. rewrite at_total by lia. eexists. split; [done|]. apply Forall_total_Z; [apply (gt_groups _ Ht)|done].
Qed.

(** ** The steps of a traversal *)

Local Abbreviation colour states node := (states !!! Z.to_nat (node - 1)).
Local Abbreviation frameOk := (λ f : Z * Z, safeNode f.1 ∧ frame_ok (graphEdges d) f).

(** The states agree with the structural phase on the unsafe rows. *)
Definition coloured (states : list Z) : Prop := length states = n ∧ ∀ i, (i < n)%nat → is_state (states !!! i) ∧ unsafe (states !!! i) = unsafeRow i.

Lemma coloured_node states node : coloured states → 1 ≤ node ≤ zlen (dNodeKinds d) →
  is_state (colour states node) ∧ unsafe (colour states node) = unsafeRow (Z.to_nat (node - 1)) ∧ (Z.to_nat (node - 1) < length states)%nat.
Proof. intros [Hl H] Hn. destruct (H (Z.to_nat (node - 1))); [lia|]. split_and!; [done..|lia]. Qed.

Lemma coloured_set states node x : coloured states → is_state x → unsafe x = unsafe (colour states node) → coloured (<[Z.to_nat (node - 1) := x]> states).
Proof.
  intros [Hl H] Hx Hu. split; [by rewrite length_insert|]. intros i Hi. destruct (decide (Z.to_nat (node - 1) = i)) as [<-|Hne].
  - rewrite list_lookup_total_insert_eq by lia. split; [done|]. rewrite Hu. by apply H.
  - rewrite list_lookup_total_insert_ne by done. by apply H.
Qed.

Lemma colour_set_eq (states : list Z) node (x : Z) : (Z.to_nat (node - 1) < length states)%nat → colour (<[Z.to_nat (node - 1) := x]> states) node = x.
Proof. intros. by apply list_lookup_total_insert_eq. Qed.

Lemma colour_set_ne (states : list Z) node m (x : Z) : 1 ≤ node → 1 ≤ m → node ≠ m → colour (<[Z.to_nat (node - 1) := x]> states) m = colour states m.
Proof. intros. apply list_lookup_total_insert_ne. lia. Qed.

Definition cycleAt (node target : Z) : Diagnostic :=
  diag CodeCycle TableNode ▷ onMember MemberChild ▷ onRow node ▷ onNode target ▷ onSpan (validNodeSpan d (Z.to_nat (node - 1))).

(** What one iteration does with the frame at the top of the stack: it skips an edge
    out of the graph or to a finished node, reports an edge to a node on the stack,
    enters an unvisited node, or finishes the node. *)
Inductive gstep (reachable : bool) : Z * Z → list (Z * Z) → graphState → list (Z * Z) * graphState → Prop :=
  | GSkip node next target rest states dst : targets node !! Z.to_nat next = Some target → ¬ safeNode target →
      gstep reachable (node, next) rest (states, dst) ((node, next + 1) :: rest, (states, dst))
  | GCycle node next target rest states dst : targets node !! Z.to_nat next = Some target → safeNode target → gray (colour states target) = true →
      gstep reachable (node, next) rest (states, dst) ((node, next + 1) :: rest, (states, dst ++ [cycleAt node target]))
  | GBlack node next target rest states dst : targets node !! Z.to_nat next = Some target → safeNode target → gray (colour states target) = false →
      black (colour states target) = true →
      gstep reachable (node, next) rest (states, dst) ((node, next + 1) :: rest, (states, dst))
  | GPush node next target rest states dst : targets node !! Z.to_nat next = Some target → safeNode target → gray (colour states target) = false →
      black (colour states target) = false →
      gstep reachable (node, next) rest (states, dst)
        ((target, 0) :: (node, next + 1) :: rest, (<[Z.to_nat (target - 1) := mark reachable (colour states target)]> states, dst))
  | GFinish node next rest states dst : next = Z.of_nat (graphEdges d node) →
      gstep reachable (node, next) rest (states, dst) (rest, (<[Z.to_nat (node - 1) := finish (colour states node)]> states, dst)).

Lemma length_targets node : length (targets node) = graphEdges d node.
Proof. unfold targets. by rewrite length_map, length_seq. Qed.

Lemma graphStep_ok reachable frame rest states dst : coloured states → frameOk frame →
  ∃ r, graphStep d reachable frame rest (states, dst) = Ok r ∧ gstep reachable frame rest (states, dst) r.
Proof.
  destruct frame as [node next]. intros Hc [Hs Hf]. cbn in Hs. unfold frame_ok in Hf. cbn in Hf. destruct (graphEdgeCount_ok node Hs) as [Ec Hmax].
  unfold graphStep. rewrite Ec, go_bind_Ok. destruct (Z.ltb_spec next (Z.of_nat (graphEdges d node))) as [Hlt|Hge].
  - destruct (graphChild_ok node (Z.to_nat next) Hs ltac:(lia)) as [Eg Hu]. rewrite Z2Nat.id in Eg by lia. rewrite Eg, go_bind_Ok.
    assert (targets node !! Z.to_nat next = Some (targets node !!! Z.to_nat next)) as Et by (apply list_lookup_lookup_total_lt; rewrite length_targets; lia).
    set (target := targets node !!! Z.to_nat next) in *. unfold MaxUint16 in Hmax. rewrite u32_small by (unfold is_u32; lia).
    destruct (inTable target (zlen (dNodeKinds d))) eqn:Hin; cbn [negb].
    2:{ eexists. split; [done|]. eapply GSkip; [done|]. intros [Hr _]. by rewrite (proj2 (inTable_true target _ Hu) Hr) in Hin. }
    apply inTable_true in Hin; [|done]. destruct (coloured_node states target Hc Hin) as (Hst & Hun & Hlen). rewrite at_total, go_bind_Ok by (destruct Hc; lia).
    destruct (unsafe (colour states target)) eqn:Hunsafe. { eexists. split; [done|]. eapply GSkip; [done|]. intros [_ H]. congruence. }
    assert (safeNode target) as Hsafe by (by split).
    change (negb (Z.land (colour states target) nodeStateGray =? 0)) with (gray (colour states target)).
    change (negb (Z.land (colour states target) nodeStateBlack =? 0)) with (black (colour states target)).
    destruct (gray (colour states target)) eqn:Hg. { eexists. split; [done|]. by eapply GCycle. }
    destruct (black (colour states target)) eqn:Hb. { eexists. split; [done|]. by eapply GBlack. }
    rewrite put_Ok, go_bind_Ok by lia. eexists. split; [done|]. by eapply GPush.
  - destruct Hs as [Hn Hs]. destruct (coloured_node states node Hc Hn) as (_ & _ & Hlen). rewrite at_total, go_bind_Ok by lia. rewrite put_Ok, go_bind_Ok by lia.
    eexists. split; [done|]. apply GFinish. lia.
Qed.

(** ** Invariants of the stack *)

(** The gray nodes are the stack, and no gray node is finished. *)
Record walking (stack : list (Z * Z)) (states : list Z) : Prop := {
  wk_coloured : coloured states;
  wk_frames : Forall frameOk stack;
  wk_nodup : NoDup stack.*1;
  wk_gray m : safeNode m → gray (colour states m) = true ↔ m ∈ stack.*1;
  wk_black m : safeNode m → gray (colour states m) = true → black (colour states m) = false
}.

Definition seen (states : list Z) (m : Z) : Prop := gray (colour states m) = true ∨ black (colour states m) = true.

(** The colour of a node after one node was recoloured. *)
Ltac recolour m node := destruct (decide (node = m)) as [<-|?];
  [rewrite !colour_set_eq by lia|rewrite !colour_set_ne by (unfold safeNode in *; lia)].

Ltac gcases H := inversion H as [node next target r0 s0 d0 Et Hns|node next target r0 s0 d0 Et Hsafe Eg|node next target r0 s0 d0 Et Hsafe Eg Eb
  |node next target r0 s0 d0 Et Hsafe Eg Eb|node next r0 s0 d0 En]; subst; clear H.

Section step.
Context (reachable : bool) (frame : Z * Z) (rest : list (Z * Z)) (states : list Z) (dst : list Diagnostic).
Context (stack' : list (Z * Z)) (states' : list Z) (dst' : list Diagnostic).
Context (Hw : walking (frame :: rest) states) (Hstep : gstep reachable frame rest (states, dst) (stack', (states', dst'))).

Lemma target_next node next target : targets node !! Z.to_nat next = Some target → frameOk (node, next) → frameOk (node, next + 1) ∧ target ∈ targets node ∧ (Z.to_nat next < graphEdges d node)%nat.
Proof.
  intros Ht' [Hs Hf]. unfold frame_ok in *. cbn in *. pose proof (lookup_lt_Some _ _ _ Ht') as Hl. rewrite length_targets in Hl.
  split_and!; [done|lia|lia|by eapply list_elem_of_lookup_2|done].
Qed.

Lemma step_walking : walking stack' states'.
Proof.
  destruct Hw as [Hc Hf Hnd Hg Hb]. apply Forall_cons in Hf as [Hf Hrest]. gcases Hstep; cbn in Hnd, Hg.
  - destruct (target_next _ _ _ Et Hf) as (Hf' & _). split; [done|by constructor|done..].
  - destruct (target_next _ _ _ Et Hf) as (Hf' & _). split; [done|by constructor|done..].
  - destruct (target_next _ _ _ Et Hf) as (Hf' & _). split; [done|by constructor|done..].
  - destruct (target_next _ _ _ Et Hf) as (Hf' & _). pose proof Hsafe as [Hn _]. destruct (coloured_node states target Hc Hn) as (Hst & _ & Hlen).
    destruct (mark_spec reachable _ Hst) as (M1 & M2 & M3 & M4 & _). split.
    + by apply coloured_set.
    + constructor; [split; [done|]; unfold frame_ok; cbn; lia|by constructor].
    + cbn. constructor; [|done]. rewrite <-(Hg target Hsafe). congruence.
    + intros m Hm. cbn. rewrite elem_of_cons. recolour m target; [naive_solver|]. rewrite (Hg m Hm). naive_solver.
    + intros m Hm. recolour m target; [congruence|by apply Hb].
  - pose proof Hf as [[Hn Hs] _]. cbn in Hn. destruct (coloured_node states node Hc Hn) as (Hst & _ & Hlen).
    destruct (finish_spec _ Hst) as (M1 & M2 & M3 & M4 & _). apply NoDup_cons in Hnd as [Hni Hnd]. split; [by apply coloured_set|done..| |].
    + intros m Hm. recolour m node; [split; [congruence|done]|]. rewrite (Hg m Hm), elem_of_cons. naive_solver.
    + intros m Hm. recolour m node; [congruence|by apply Hb].
Qed.

(** Visited, finished and marked nodes stay so. *)
Lemma step_mono m : safeNode m → (seen states m → seen states' m) ∧ (black (colour states m) = true → black (colour states' m) = true) ∧
  (marked (colour states m) = true → marked (colour states' m) = true).
Proof.
  intros Hm. destruct Hw as [Hc Hf _ _ _]. apply Forall_cons in Hf as [Hf _]. unfold seen. gcases Hstep; try done.
  - pose proof Hsafe as [Hn _]. destruct (coloured_node states target Hc Hn) as (Hst & _ & Hlen).
    destruct (mark_spec reachable _ Hst) as (_ & _ & M3 & M4 & M5). recolour m target; [|done]. rewrite M4, M5. split_and!; [by left|done|by intros ->].
  - pose proof Hf as [[Hn Hs] _]. cbn in Hn. destruct (coloured_node states node Hc Hn) as (Hst & _ & Hlen).
    destruct (finish_spec _ Hst) as (_ & _ & _ & M4 & M5). recolour m node; [|done]. rewrite M5. split_and!; [by right|done..].
Qed.
End step.

(** ** Paths *)

(** Every frame was entered from the one below it; [above] is the frame entered last. *)
Fixpoint linked (above : option Z) (stack : list (Z * Z)) : Prop :=
  match stack with
  | [] => True
  | f :: rest => (∀ m, above = Some m → edge f.1 m) ∧ linked (Some f.1) rest
  end.

Lemma linked_path m above stack : linked (Some above) stack → m ∈ stack.*1 → rtc edge m above.
Proof.
  revert above. induction stack as [|f rest IH]; intros above; cbn; [by intros _ ?%elem_of_nil|]. intros [He Hl] [->|Hm]%elem_of_cons.
  - apply rtc_once. by apply He.
  - eapply rtc_r; [by apply IH|by apply He].
Qed.

Lemma linked_above m stack : linked m stack → linked None stack.
Proof. destruct stack; [done|]. by intros [_ H]. Qed.

(** A reported edge closes a cycle. *)
Definition realCycle (g : Diagnostic) : Prop := ∃ node target, g = cycleAt node target ∧ edge node target ∧ rtc edge target node.

Section tracked.
Context (R : Z → Prop) (Hclosed : ∀ u v, R u → edge u v → R v).

(** The edges followed lead to visited nodes, reported cycles are cycles, and marked
    nodes satisfy [R]; a traversal that marks has marked every visited node. *)
Record tracked (reachable : bool) (stack : list (Z * Z)) (states : list Z) (dst : list Diagnostic) : Prop := {
  tr_linked : linked None stack;
  tr_seen : Forall (λ f, ∀ j m, (j < Z.to_nat f.2)%nat → targets f.1 !! j = Some m → safeNode m → seen states m) stack;
  tr_closed u v : edge u v → black (colour states u) = true → seen states v;
  tr_cycles : Forall realCycle dst;
  tr_marked m : safeNode m → marked (colour states m) = true → R m;
  tr_reach : reachable = true → Forall R stack.*1 ∧ ∀ m, safeNode m → seen states m → marked (colour states m) = true
}.

(** Following one more edge to a visited node. *)
Lemma seen_next (states : list Z) node next target j m : targets node !! Z.to_nat next = Some target → (safeNode target → seen states target) →
  (∀ j m, (j < Z.to_nat next)%nat → targets node !! j = Some m → safeNode m → seen states m) → 0 ≤ next →
  (j < Z.to_nat (next + 1))%nat → targets node !! j = Some m → safeNode m → seen states m.
Proof.
  intros Et Hseen H H0 Hj Em Hm. destruct (decide (j = Z.to_nat next)) as [->|]; [|apply (H j); [lia|done..]]. rewrite Et in Em. injection Em as <-. by apply Hseen.
Qed.

Lemma step_tracked reachable frame rest states dst stack' states' dst' :
  walking (frame :: rest) states → gstep reachable frame rest (states, dst) (stack', (states', dst')) → tracked reachable (frame :: rest) states dst →
  tracked reachable stack' states' dst'.
Proof.
  intros Hw Hstep. pose proof (λ m Hm, step_mono _ _ _ _ _ _ _ _ Hw Hstep m Hm) as Hmono. destruct Hw as [Hc Hf Hnd Hg Hb]. apply Forall_cons in Hf as [Hf _].
  intros [Hl [Hs Hsr]%Forall_cons Hcl Hcy Hm Hr]. gcases Hstep; cbn in Hl, Hs.
  - destruct (target_next _ _ _ Et Hf) as (_ & Hin & _). destruct Hf as [Hsn Hf]. unfold frame_ok in Hf. cbn in Hf.
    split; try done. constructor; [|done]. cbn. intros j m. apply (seen_next _ _ _ target); [done..|lia].
  - destruct (target_next _ _ _ Et Hf) as (_ & Hin & _). destruct Hf as [Hsn Hf]. unfold frame_ok in Hf. cbn in Hf. assert (edge node target) as He by (by split).
    split; try done.
    + constructor; [|done]. cbn. intros j m. apply (seen_next _ _ _ target); [done|by left|done|lia].
    + apply Forall_app. split; [done|]. constructor; [|constructor]. exists node, target. split; [done|]. split; [done|].
      apply (Hg target Hsafe) in Eg. cbn in Eg. apply elem_of_cons in Eg as [->|Eg]; [done|]. apply (linked_path target node rest); [apply Hl|done].
  - destruct (target_next _ _ _ Et Hf) as (_ & Hin & _). destruct Hf as [Hsn Hf]. unfold frame_ok in Hf. cbn in Hf.
    split; try done. constructor; [|done]. cbn. intros j m. apply (seen_next _ _ _ target); [done|by right|done|lia].
  - destruct (target_next _ _ _ Et Hf) as (_ & Hin & _). destruct Hf as [Hsn Hf]. unfold frame_ok in Hf. cbn in Hf. assert (edge node target) as He by (by split).
    pose proof Hsafe as [Hn _]. destruct (coloured_node states target Hc Hn) as (Hst & _ & Hlen). destruct (mark_spec reachable _ Hst) as (_ & _ & M3 & M4 & M5).
    assert (∀ m, safeNode m → seen states m → seen _ m) as Hseen by (intros m Hm'; exact (proj1 (Hmono m Hm'))). split; try done.
    + cbn. split; [done|]. split; [|apply Hl]. by intros m [= <-].
    + constructor; [cbn; lia|]. constructor; cbn.
      * intros j m Hj Em Hm'. eapply (seen_next _ node next target j m); [done| | |lia|done..].
        -- intros _. left. by rewrite colour_set_eq.
        -- intros j' m' Hj' Em' Hsm. apply Hseen; [done|]. by apply (Hs j').
      * eapply Forall_impl; [exact Hsr|]. intros f H j m Hj Em Hm'. apply Hseen; [done|]. by eapply H.
    + intros u v Huv. pose proof Huv as (Hu & Hv & _). recolour u target; [congruence|]. intros Hbl. apply Hseen; [done|]. by apply (Hcl u).
    + intros m Hm'. recolour m target; [|by apply Hm]. rewrite M5. intros [Hmk| ->]%orb_true_iff; [by apply Hm|].
      destruct (Hr eq_refl) as [[HR _]%Forall_cons _]. by apply (Hclosed node).
    + intros ->. destruct (Hr eq_refl) as [HR Hall]. apply Forall_cons in HR as [HR HRr]. split.
      * constructor; [cbn; by apply (Hclosed node)|by constructor].
      * intros m Hm'. unfold seen. recolour m target; [intros _; by rewrite M5, orb_true_r|]. by apply Hall.
  - pose proof Hf as [Hsn _]. cbn in Hsn. pose proof Hsn as [Hn _]. destruct (coloured_node states node Hc Hn) as (Hst & _ & Hlen).
    destruct (finish_spec _ Hst) as (_ & _ & M3 & M4 & M5).
    assert (∀ m, safeNode m → seen states m → seen _ m) as Hseen by (intros m Hm'; exact (proj1 (Hmono m Hm'))). split; try done.
    + apply (linked_above (Some node)). apply Hl.
    + eapply Forall_impl; [exact Hsr|]. intros f H j m Hj Em Hm'. apply Hseen; [done|]. by eapply H.
    + intros u v Huv. pose proof Huv as (Hu & Hv & Hin). intros Hbl. apply Hseen; [done|]. destruct (decide (node = u)) as [<-|].
      * apply list_elem_of_lookup in Hin as [j Hj]. pose proof (lookup_lt_Some _ _ _ Hj) as Hlt. rewrite length_targets in Hlt. apply (Hs j); [lia|done..].
      * rewrite colour_set_ne in Hbl by (unfold safeNode in *; lia). by apply (Hcl u).
    + intros m Hm'. recolour m node; [rewrite M5|]; by apply Hm.
    + intros ->. destruct (Hr eq_refl) as [HR Hall]. apply Forall_cons in HR as [HR HRr]. split; [done|]. intros m Hm'. unfold seen.
      recolour m node; [|by apply Hall]. intros _. rewrite M5. apply Hall; [done|]. left. apply (Hg node Hsn). by left.
Qed.
End tracked.

(** ** Finishing order *)

(** Nodes, each after all its targets (the list is in reverse order). *)
Inductive topo : list Z → Prop :=
  | TopoNil : topo []
  | TopoCons node fin : node ∉ fin → safeNode node → (∀ v, edge node v → v ∈ fin) → topo fin → topo (node :: fin).

Fixpoint rank (fin : list Z) (node : Z) : nat :=
  match fin with [] => 0 | x :: fin => if bool_decide (x = node) then length fin else rank fin node end.

Lemma topoRank_lt fin node : node ∈ fin → (rank fin node < length fin)%nat.
Proof.
  induction fin as [|x fin IH]; [by intros ?%elem_of_nil|]. intros [->|H]%elem_of_cons; cbn; [rewrite bool_decide_eq_true_2 by done; lia|].
  case_bool_decide; [lia|]. specialize (IH H). lia.
Qed.

Lemma topo_nodes fin : topo fin → NoDup fin ∧ Forall safeNode fin.
Proof. induction 1 as [|node fin Hni Hs He _ [IH1 IH2]]; [by split; constructor|]. split; by constructor. Qed.

Lemma topo_rank fin u v : topo fin → u ∈ fin → edge u v → v ∈ fin ∧ (rank fin v < rank fin u)%nat.
Proof.
  induction 1 as [|node fin Hni Hs He Ht' IH]; [by intros ?%elem_of_nil|]. intros Hu Huv. destruct (decide (node = u)) as [->|Hne].
  - pose proof (He v Huv) as Hv. split; [by right|]. cbn. rewrite (bool_decide_eq_true_2 (u = u)) by done. rewrite bool_decide_eq_false_2 by (intros ->; done).
    by apply topoRank_lt.
  - apply elem_of_cons in Hu as [->|Hu]; [done|]. destruct (IH Hu Huv) as [Hv Hlt]. split; [by right|]. cbn. rewrite (bool_decide_eq_false_2 (node = u)) by done.
    rewrite bool_decide_eq_false_2 by (intros ->; done). done.
Qed.

Lemma topo_acyclic fin : topo fin → (∀ u, safeNode u → u ∈ fin) → ∀ u, ¬ tc edge u u.
Proof.
  intros Ht' Hall. assert (∀ u v, tc edge u v → (rank fin v < rank fin u)%nat) as H; [|intros u Hu; specialize (H _ _ Hu); lia].
  induction 1 as [u v Huv|u v w Huv Hvw IH]; [|etrans; [exact IH|]]; (apply (topo_rank fin); [done|apply Hall, Huv|done]).
Qed.

(** The edges a frame has followed lead to finished nodes or to the frame above. *)
Fixpoint settled (fin : list Z) (above : option Z) (stack : list (Z * Z)) : Prop :=
  match stack with
  | [] => True
  | f :: rest => (∀ j m, (j < Z.to_nat f.2)%nat → targets f.1 !! j = Some m → safeNode m → m ∈ fin ∨ above = Some m) ∧ settled fin (Some f.1) rest
  end.

Lemma settled_mono fin above x stack : settled fin above stack → settled (x :: fin) above stack.
Proof.
  revert above. induction stack as [|f rest IH]; intros above; [done|]. cbn. intros [H1 H2]. split; [|by apply IH].
  intros j m Hj Em Hm. destruct (H1 j m Hj Em Hm); [left; by right|by right].
Qed.

Lemma settled_finish fin x stack : settled fin (Some x) stack → settled (x :: fin) None stack.
Proof.
  destruct stack as [|f rest]; [done|]. cbn. intros [H1 H2]. split; [|by apply settled_mono]. intros j m Hj Em Hm. left.
  destruct (H1 j m Hj Em Hm) as [H|[= ->]]; [by right|by left].
Qed.

(** While no cycle is reported, the finished nodes are in order. *)
Record sorted (stack : list (Z * Z)) (states fin : list Z) : Prop := {
  so_topo : topo fin;
  so_black m : safeNode m → black (colour states m) = true ↔ m ∈ fin;
  so_settled : settled fin None stack
}.

Lemma step_sorted reachable frame rest states stack' states' fin : walking (frame :: rest) states →
  gstep reachable frame rest (states, []) (stack', (states', [])) → sorted (frame :: rest) states fin → ∃ fin', sorted stack' states' fin'.
Proof.
  intros [Hc Hf _ Hg Hb] Hstep. apply Forall_cons in Hf as [Hf _]. intros [Hto Hbl [Hset Hrest]]. gcases Hstep; cbn in Hset.
  - destruct Hf as [_ Hf]. unfold frame_ok in Hf. cbn in Hf. exists fin. split; [done..|]. cbn. split; [|done]. intros j m Hj Em Hm.
    destruct (decide (j = Z.to_nat next)) as [->|]; [congruence|apply (Hset j); [lia|done..]].
  - destruct Hf as [_ Hf]. unfold frame_ok in Hf. cbn in Hf. exists fin. split; [done..|]. cbn. split; [|done]. intros j m Hj Em Hm.
    destruct (decide (j = Z.to_nat next)) as [->|]; [|apply (Hset j); [lia|done..]]. rewrite Et in Em. injection Em as <-. left. by apply Hbl.
  - destruct Hf as [_ Hf]. unfold frame_ok in Hf. cbn in Hf. pose proof Hsafe as [Hn _]. destruct (coloured_node states target Hc Hn) as (Hst & _ & Hlen).
    destruct (mark_spec reachable _ Hst) as (_ & _ & _ & M4 & _). exists fin. split; [done| |].
    + intros m Hm. rewrite <-(Hbl m Hm). recolour m target; [by rewrite M4|done].
    + cbn. split; [lia|]. split; [|done]. intros j m Hj Em Hm. destruct (decide (j = Z.to_nat next)) as [->|].
      * right. congruence.
      * destruct (Hset j m) as [H|H]; [lia|done..|by left|done].
  - pose proof Hf as [Hsn _]. cbn in Hsn. pose proof Hsn as [Hn _]. destruct (coloured_node states node Hc Hn) as (Hst & _ & Hlen).
    destruct (finish_spec _ Hst) as (_ & _ & _ & M4 & _). exists (node :: fin). split.
    + constructor; [|done| |done].
      * rewrite <-(Hbl node Hsn). rewrite (Hb node Hsn); [done|]. apply (Hg node Hsn). by left.
      * intros v (_ & Hv & Hin). apply list_elem_of_lookup in Hin as [j Hj]. pose proof (lookup_lt_Some _ _ _ Hj) as Hlt. rewrite length_targets in Hlt.
        destruct (Hset j v) as [H|H]; [lia|done..].
    + intros m Hm. rewrite elem_of_cons, <-(Hbl m Hm). recolour m node; [rewrite M4; naive_solver|naive_solver].
    + by apply settled_finish.
Qed.

(** ** The loop *)

Definition unvisited (s : Z) : bool := negb (gray s || black s).
Local Abbreviation whites := (Traversal.whites unvisited (graphEdges d)).
Local Abbreviation cost := (Traversal.cost (graphEdges d)).

(** Every iteration lowers the measure of [Traversal]. *)
Lemma step_measure reachable frame rest states dst stack' states' dst' : walking (frame :: rest) states →
  gstep reachable frame rest (states, dst) (stack', (states', dst')) → (whites states' + cost stack' < whites states + cost (frame :: rest))%nat.
Proof.
  intros [Hc Hf _ Hg _] Hstep. apply Forall_cons in Hf as [Hf _]. gcases Hstep; pose proof Hf as [Hsn Hfo]; unfold frame_ok in Hfo; cbn in Hsn, Hfo;
    try (destruct (target_next _ _ _ Et Hf) as (_ & _ & Hlt); rewrite !cost_cons; lia).
  - destruct (target_next _ _ _ Et Hf) as (_ & _ & Hlt). pose proof Hsafe as [Hn _]. destruct (coloured_node states target Hc Hn) as (Hst & _ & Hlen).
    destruct (mark_spec reachable _ Hst) as (_ & _ & M3 & _ & _).
    pose proof (whites_set unvisited (graphEdges d) states (Z.to_nat (target - 1)) (mark reachable (colour states target)) Hlen) as E.
    unfold unvisited in E at 1 3. rewrite M3, Eg, Eb in E. specialize (E eq_refl). cbn in E. replace (Z.of_nat (Z.to_nat (target - 1)) + 1) with target in E by lia.
    rewrite !cost_cons. lia.
  - pose proof Hsn as [Hn _]. destruct (coloured_node states node Hc Hn) as (Hst & _ & Hlen). destruct (finish_spec _ Hst) as (_ & _ & M3 & M4 & _).
    pose proof (whites_set unvisited (graphEdges d) states (Z.to_nat (node - 1)) (finish (colour states node)) Hlen) as E.
    specialize (E ltac:(unfold unvisited; by rewrite M3, M4)). rewrite !cost_cons. lia.
Qed.

(** An invariant of the steps holds when the loop ends, and it ends within the measure. *)
Lemma graphLoop_ok (I : list (Z * Z) → list Z → list Diagnostic → Prop) reachable fuel stack states dst :
  (∀ frame rest states dst stack' states' dst', walking (frame :: rest) states → gstep reachable frame rest (states, dst) (stack', (states', dst')) →
     I (frame :: rest) states dst → I stack' states' dst') →
  walking stack states → I stack states dst → (whites states + cost stack ≤ fuel)%nat →
  ∃ states' dst', graphLoop d fuel reachable stack (states, dst) = Some (Ok (states', dst')) ∧ walking [] states' ∧ I [] states' dst'.
Proof.
  intros Hstep. revert stack states dst. induction fuel as [|fuel IH]; intros stack states dst Hw HI Hm; (destruct stack as [|frame rest]; [by exists states, dst|]).
  - pose proof (wk_frames _ _ Hw) as [[_ Hf] _]%Forall_cons. unfold frame_ok in Hf. destruct frame. rewrite cost_cons in Hm. cbn in Hf. lia.
  - pose proof (wk_frames _ _ Hw) as [Hf _]%Forall_cons. destruct (graphStep_ok reachable frame rest states dst (wk_coloured _ _ Hw) Hf) as ([stack' [states' dst']] & E & Hs).
    cbn [graphLoop]. rewrite E. apply IH; [by eapply step_walking|by eapply Hstep|]. pose proof (step_measure _ _ _ _ _ _ _ _ Hw Hs). lia.
Qed.

Lemma step_unmarked frame rest states dst stack' states' dst' m : walking (frame :: rest) states →
  gstep false frame rest (states, dst) (stack', (states', dst')) → safeNode m → marked (colour states' m) = marked (colour states m).
Proof.
  intros [Hc Hf _ Hg _] Hstep Hm. apply Forall_cons in Hf as [Hf _]. gcases Hstep; try done.
  - pose proof Hsafe as [Hn _]. destruct (coloured_node states target Hc Hn) as (Hst & _ & Hlen). destruct (mark_spec false _ Hst) as (_ & _ & _ & _ & M5).
    recolour m target; [|done]. etrans; [exact M5|]. apply orb_false_r.
  - pose proof Hf as [Hsn _]. cbn in Hsn. pose proof Hsn as [Hn _]. destruct (coloured_node states node Hc Hn) as (Hst & _ & Hlen).
    destruct (finish_spec _ Hst) as (_ & _ & _ & _ & M5). by recolour m node.
Qed.

(** ** One traversal *)

Section roots.
Context (R : Z → Prop) (Hclosed : ∀ u v, R u → edge u v → R v).

(** Between traversals. *)
Record quiet (reachable : bool) (states : list Z) (dst : list Diagnostic) : Prop := {
  qu_walking : walking [] states;
  qu_tracked : tracked R reachable [] states dst;
  qu_sorted : dst = [] → ∃ fin, sorted [] states fin
}.

(** What a traversal keeps of the states before it. *)
Definition kept (reachable : bool) (states states' : list Z) : Prop :=
  ∀ m, safeNode m → (seen states m → seen states' m) ∧ (reachable = false → marked (colour states' m) = marked (colour states m)).

Lemma kept_refl reachable states : kept reachable states states.
Proof. by intros m Hm. Qed.

Lemma kept_trans reachable s1 s2 s3 : kept reachable s1 s2 → kept reachable s2 s3 → kept reachable s1 s3.
Proof. intros H1 H2 m Hm. destruct (H1 m Hm) as [A1 B1], (H2 m Hm) as [A2 B2]. split; [auto|]. intros Hr. by rewrite B2, B1. Qed.

(** The invariant of the loop of a traversal that began in [states0]. *)
Definition progress (reachable : bool) (states0 : list Z) (stack : list (Z * Z)) (states : list Z) (dst : list Diagnostic) : Prop :=
  tracked R reachable stack states dst ∧ (dst = [] → ∃ fin, sorted stack states fin) ∧ kept reachable states0 states.

Lemma step_progress reachable states0 frame rest states dst stack' states' dst' : walking (frame :: rest) states →
  gstep reachable frame rest (states, dst) (stack', (states', dst')) → progress reachable states0 (frame :: rest) states dst → progress reachable states0 stack' states' dst'.
Proof.
  intros Hw Hs (Ht' & Hso & Hk). split; [by eapply step_tracked|]. split.
  - intros ->. assert (dst = []) as -> by (inversion Hs; subst; try done; by destruct dst). destruct (Hso eq_refl) as [fin Hfin]. by eapply step_sorted.
  - eapply kept_trans; [exact Hk|]. intros m Hm. split; [apply (step_mono _ _ _ _ _ _ _ _ Hw Hs m Hm)|]. intros ->. by eapply step_unmarked.
Qed.

(** Entering a root. *)
Lemma enter_root reachable root states dst : quiet reachable states dst → safeNode root → gray (colour states root) = false → black (colour states root) = false →
  (reachable = true → R root) → let states' := <[Z.to_nat (root - 1) := mark reachable (colour states root)]> states in
  walking [(root, 0)] states' ∧ progress reachable states [(root, 0)] states' dst ∧ seen states' root ∧ (whites states' + cost [(root, 0%Z)] ≤ graphFuel d)%nat.
Proof.
  intros [[Hc _ _ Hg Hb] [_ _ Hcl Hcy Hm Hr] Hso] Hs Eg Eb HR states'. pose proof Hs as [Hn _]. destruct (coloured_node states root Hc Hn) as (Hst & _ & Hlen).
  destruct (mark_spec reachable _ Hst) as (M1 & M2 & M3 & M4 & M5).
  assert (∀ m, safeNode m → seen states m → seen states' m) as Hseen. { intros m Hm'. unfold seen, states'. recolour m root; [by left|done]. }
  split; [split|split; [split; [split|split]|split]].
  - by apply coloured_set.
  - constructor; [|constructor]. split; [done|]. unfold frame_ok. cbn. lia.
  - apply NoDup_singleton.
  - intros m Hm'. cbn. rewrite elem_of_cons. unfold states'. recolour m root; [naive_solver|]. rewrite (Hg m Hm'). cbn. naive_solver.
  - intros m Hm'. unfold states'. recolour m root; [congruence|by apply Hb].
  - done.
  - constructor; [cbn; lia|constructor].
  - intros u v Huv. pose proof Huv as (Hu & Hv & _). unfold states' at 1. recolour u root; [congruence|]. intros Hbl. apply Hseen; [done|]. by apply (Hcl u).
  - done.
  - intros m Hm'. unfold states'. recolour m root; [|by apply Hm]. rewrite M5. intros [Hmk| ->]%orb_true_iff; [by apply Hm|by apply HR].
  - intros ->. split; [constructor; [by apply HR|constructor]|]. intros m Hm'. unfold states', seen. recolour m root; [intros _; by rewrite M5, orb_true_r|]. by apply Hr.
  - intros Ed. destruct (Hso Ed) as [fin [Hto Hbl _]]. exists fin. split; [done| |split; [cbn; lia|done]].
    intros m Hm'. rewrite <-(Hbl m Hm'). unfold states'. recolour m root; [by rewrite M4|done].
  - intros m Hm'. split; [by apply Hseen|]. intros ->. unfold states'. recolour m root; [|done]. etrans; [exact M5|]. apply orb_false_r.
  - left. unfold states'. by rewrite colour_set_eq.
  - pose proof (whites_bound unvisited (graphEdges d) states' (Z.to_nat (root - 1))) as H. unfold states' in H at 1 2 4. rewrite length_insert, colour_set_eq in H by done.
    specialize (H Hlen). unfold unvisited in H at 1. rewrite M3 in H. specialize (H eq_refl). replace (Z.of_nat (Z.to_nat (root - 1)) + 1) with root in H by lia.
    rewrite (proj1 Hc) in H. change (graphFuel d) with (allCost (graphEdges d) n). rewrite cost_cons. cbn [Traversal.cost foldr]. lia.
Qed.

Lemma walkGraph_ok reachable root states dst : quiet reachable states dst → is_u32 root → (reachable = true → safeNode root → R root) →
  ∃ states' dst', walkGraph d reachable root (states, dst) = Ok (states', dst') ∧ quiet reachable states' dst' ∧ kept reachable states states' ∧
    (safeNode root → seen states' root).
Proof.
  intros Hq Hu HR. unfold walkGraph. destruct (inTable root (zlen (dNodeKinds d))) eqn:Hin; cbn [negb].
  2:{ exists states, dst. split_and!; [done..|]. intros [Hn _]. by rewrite (proj2 (inTable_true root _ Hu) Hn) in Hin. }
  apply inTable_true in Hin; [|done]. destruct (coloured_node states root (wk_coloured _ _ (qu_walking _ _ _ Hq)) Hin) as (Hst & Hun & Hlen).
  rewrite at_total, go_bind_Ok by lia. destruct (unsafe (colour states root)) eqn:Hunsafe; cbn [orb].
  { exists states, dst. split_and!; [done..|]. intros [_ H]. congruence. }
  assert (safeNode root) as Hs by (by split). rewrite visited_spec by done. destruct (gray (colour states root)) eqn:Eg.
  { exists states, dst. split_and!; [done..|]. intros _. by left. }
  destruct (black (colour states root)) eqn:Eb. { exists states, dst. split_and!; [done..|]. intros _. by right. }
  cbn [orb]. rewrite put_Ok, go_bind_Ok by lia. destruct (enter_root reachable root states dst Hq Hs Eg Eb (λ E, HR E Hs)) as (Hw & Hp & Hseen & Hm).
  set (states1 := <[Z.to_nat (root - 1) := mark reachable (colour states root)]> states) in *.
  destruct (graphLoop_ok (λ stack st dst, progress reachable states stack st dst ∧ kept reachable states1 st) reachable (graphFuel d) [(root, 0)] states1 dst)
    as (states' & dst' & E & Hw' & (Ht' & Hso & Hk) & Hk1); [|done|split; [done|apply kept_refl]|done|].
  - intros frame rest st ds stack' st' ds' Hwk Hstep [Hp1 Hp2]. split; [by eapply step_progress|]. eapply kept_trans; [exact Hp2|].
    intros m Hm'. split; [apply (step_mono _ _ _ _ _ _ _ _ Hwk Hstep m Hm')|]. intros ->. by eapply step_unmarked.
  - rewrite E. exists states', dst'. split; [done|]. split; [by split|]. split; [done|]. intros _. by apply Hk1.
Qed.
End roots.
End graph.
