(* ===== verification/GraphOk.v ===== *)
(** * The graph phase of the validator

    What [validateGraph] reports on any document whose columns have their Go types:
    the cycles of the graph of safe nodes and the safe nodes no root reaches. *)

From S2P Require Import Prelude Schema Templates SymbolTable Ast Diagnostic Validate Traversal GraphWalk.
#[local] Open Scope Z_scope.

Section document.
Context (d : Document) (Ht : graph_typed d).
Local Abbreviation clauses := (length (dClauseAssertionRoots d)).
Local Abbreviation colour states node := (states !!! Z.to_nat (node - 1)).

(** ** Roots *)

Definition referencedClause (c : nat) : Prop := ∃ i, (i < requirementRows d)%nat ∧ clauseRange d i = true ∧ Z.of_nat c + 1 ∈ clauseEdges d i.
Definition safeClause (c : nat) : Prop := (c < clauseRows d)%nat ∧ (checkClauseRow d c).2 = false.

(** The roots of the requirements and of the safe clauses they reference. *)
Inductive graphRoot : Z → Prop :=
  | ApplicabilityRoot i : (i < requirementRows d)%nat → graphRoot (dRequirementApplicabilityRoots d !!! i)
  | AssertionRoot c : safeClause c → referencedClause c → graphRoot (dClauseAssertionRoots d !!! c)
  | EvidenceRoot c node : safeClause c → referencedClause c → node ∈ evidenceEdges d c → graphRoot node.

Definition reachedNode (m : Z) : Prop := ∃ root, graphRoot root ∧ safeNode d root ∧ rtc (edge d) root m.

Lemma reachedNode_closed u v : reachedNode u → edge d u v → reachedNode v.
Proof. intros (root & H1 & H2 & H3) He. exists root. split_and!; [done..|]. by eapply rtc_r. Qed.

Lemma reachedNode_root root : graphRoot root → safeNode d root → reachedNode root.
Proof. intros. by exists root. Qed.

(** ** Clause states *)

Lemma checkClauseRow_safe c : (c < clauseRows d)%nat → (checkClauseRow d c).2 = false →
  inTable (dClauseAssertionRoots d !!! c) (zlen (dNodeKinds d)) = true ∧ evidenceRange d c = true ∧ remediationRange d c = true.
Proof.
  intros _. unfold checkClauseRow. destruct (validOwnerSpan _ _ _). cbv zeta. cbn [snd]. rewrite !orb_false_iff, !negb_false_iff. tauto.
Qed.

Lemma clauseRows_le : (clauseRows d ≤ clauses)%nat.
Proof. apply safeMin_le. by left. Qed.

Lemma requirementRows_le : (requirementRows d ≤ length (dRequirementApplicabilityRoots d))%nat.
Proof. apply safeMin_le. right. by left. Qed.

Definition clauseBase (c : nat) : Z := (checkClauseRows d).2 !!! c.

Lemma length_clauseState : length (checkClauseRows d).2 = clauses.
Proof. unfold checkClauseRows. cbn [snd]. rewrite length_app, !length_map, length_seq, length_replicate. pose proof clauseRows_le. lia. Qed.

Lemma clauseBase_safe c : (c < clauses)%nat → (safeClause c ∧ clauseBase c = 0) ∨ (¬ safeClause c ∧ clauseBase c = clauseStateUnsafe).
Proof.
  intros Hc. unfold clauseBase, checkClauseRows. cbn [snd]. rewrite map_map. destruct (decide (c < clauseRows d)%nat) as [Hlt|Hge].
  - rewrite lookup_total_app_l by (rewrite length_map, length_seq; done). rewrite map_seq_lookup_total by done.
    unfold safeClause. destruct (checkClauseRow d c).2; [right; split; [by intros []|done]|by left].
  - right. split; [unfold safeClause; lia|]. rewrite lookup_total_app_r by (rewrite length_map, length_seq; lia). apply lookup_total_replicate_2. rewrite length_map, length_seq. lia.
Qed.

(** The clauses of [P] are referenced. *)
Definition refState (P : nat → Prop) (cs : list Z) : Prop := length cs = clauses ∧
  ∀ c, (c < clauses)%nat → (P c ∧ cs !!! c = Z.lor (clauseBase c) clauseStateReferenced) ∨ (¬ P c ∧ cs !!! c = clauseBase c).

Lemma refState_ext P Q cs : (∀ c, P c ↔ Q c) → refState P cs → refState Q cs.
Proof. intros H [Hl Hc]. split; [done|]. intros c Hlt. destruct (Hc c Hlt) as [[? ?]|[? ?]]; [left|right]; split; try done; by rewrite <-H. Qed.

Lemma referenceClause_ok P id cs : is_u32 id → refState P cs → ∃ cs', referenceClause d id cs = Ok cs' ∧ refState (λ c, P c ∨ Z.of_nat c + 1 = id) cs'.
Proof.
  intros Hu [Hl Hc]. unfold referenceClause. destruct (inTable id (zlen (dClauseAssertionRoots d))) eqn:Hin; cbn [negb].
  - apply inTable_true in Hin; [|done]. rewrite at_total, go_bind_Ok by lia. rewrite put_Ok by lia. eexists. split; [done|]. split; [by rewrite length_insert|].
    intros c Hlt. destruct (decide (c = Z.to_nat (id - 1))) as [->|Hne].
    + rewrite list_lookup_total_insert_eq by lia. left. split; [right; lia|]. destruct (Hc (Z.to_nat (id - 1)) Hlt) as [[_ ->]|[_ ->]]; [|done].
      by rewrite <-Z.lor_assoc, Z.lor_diag.
    + rewrite list_lookup_total_insert_ne by done. destruct (Hc c Hlt) as [[? ?]|[? ?]]; [left; split; [by left|done]|right; split; [|done]]. intros [?|?]; [done|lia].
  - exists cs. split; [done|]. split; [done|]. intros c Hlt. destruct (Hc c Hlt) as [[? ?]|[? ?]]; [left; split; [by left|done]|right; split; [|done]].
    intros [?|E]; [done|]. rewrite <-E in Hin. assert (inTable (Z.of_nat c + 1) (zlen (dClauseAssertionRoots d)) = true); [|congruence].
    apply inTable_true; [by rewrite E|lia].
Qed.

Lemma referenceClauses_ok P ids cs : Forall is_u32 ids → refState P cs → ∃ cs', fold_go (referenceClause d) ids cs = Ok cs' ∧ refState (λ c, P c ∨ Z.of_nat c + 1 ∈ ids) cs'.
Proof.
  intros Hu H0. fold_loop (λ pre cs, refState (λ c, P c ∨ Z.of_nat c + 1 ∈ pre) cs) as (cs' & -> & H); [| |by exists cs'].
  - eapply refState_ext; [|exact H0]. intros c. rewrite elem_of_nil. tauto.
  - intros pre x post t -> Hp. apply Forall_app in Hu as [_ [Hx _]%Forall_cons]. destruct (referenceClause_ok _ x t Hx Hp) as (cs' & E & H). exists cs'. split; [done|].
    eapply refState_ext; [|exact H]. intros c. rewrite elem_of_app, list_elem_of_singleton. tauto.
Qed.

Definition referencedTo (k : nat) (c : nat) : Prop := ∃ i, (i < k)%nat ∧ clauseRange d i = true ∧ Z.of_nat c + 1 ∈ clauseEdges d i.

(** A clause passes the test of the second loop exactly when it is safe and referenced. *)
Lemma clauseState_test k cs c : refState (referencedTo k) cs → (c < clauses)%nat →
  (Z.land (cs !!! c) (Z.lor clauseStateReferenced clauseStateUnsafe) =? clauseStateReferenced) = true ↔ safeClause c ∧ referencedTo k c.
Proof.
  intros [_ H] Hc. destruct (H c Hc) as [[Hr ->]|[Hr ->]], (clauseBase_safe c Hc) as [[Hs ->]|[Hs ->]];
    match goal with |- ?b = true ↔ _ => let v := eval vm_compute in b in change b with v end; intuition discriminate.
Qed.

(** ** The three loops *)

Local Abbreviation quiet := (quiet d reachedNode).
Local Abbreviation walkGraph_ok := (walkGraph_ok d Ht reachedNode reachedNode_closed).

Definition nodeStates : list Z := (checkNodeRows d).2.

Lemma nodeStates_start i : (i < length (dNodeKinds d))%nat → nodeStates !!! i = if unsafeRow d i then nodeStateUnsafe else 0.
Proof. intros Hi. unfold nodeStates, checkNodeRows. cbn [snd]. rewrite map_map. by rewrite map_seq_lookup_total. Qed.

Lemma nodeStates_coloured : coloured d nodeStates.
Proof.
  split; [unfold nodeStates, checkNodeRows; cbn [snd]; by rewrite !length_map, length_seq|]. intros i Hi. rewrite nodeStates_start by done.
  by destruct (unsafeRow d i).
Qed.

Lemma nodeStates_white m : safeNode d m → colour nodeStates m = 0.
Proof. intros [Hn Hs]. rewrite nodeStates_start by lia. by rewrite Hs. Qed.

Lemma quiet_start : quiet true nodeStates [].
Proof.
  assert (∀ m, safeNode d m → gray (colour nodeStates m) = false ∧ black (colour nodeStates m) = false ∧ marked (colour nodeStates m) = false) as H.
  { intros m Hm. by rewrite nodeStates_white. }
  split.
  - split; [apply nodeStates_coloured|constructor|constructor| |].
    + intros m Hm. destruct (H m Hm) as (-> & _). split; [done|]. by intros ?%elem_of_nil.
    + intros m Hm. by destruct (H m Hm) as (-> & _).
  - split; [done|constructor| |constructor| |].
    + intros u v (Hu & _). by destruct (H u Hu) as (_ & -> & _).
    + intros m Hm. by destruct (H m Hm) as (_ & _ & ->).
    + intros _. split; [constructor|]. intros m Hm [E|E]; destruct (H m Hm) as (E1 & E2 & _); congruence.
  - intros _. exists []. split; [constructor| |done]. intros m Hm. destruct (H m Hm) as (_ & -> & _). split; [done|by intros ?%elem_of_nil].
Qed.

(** Traversals from a list of roots. *)
Lemma walks_ok roots states dst : quiet true states dst → Forall is_u32 roots → (∀ root, root ∈ roots → graphRoot root) →
  ∃ states' dst', fold_go (walkGraph d true) roots (states, dst) = Ok (states', dst') ∧ quiet true states' dst' ∧ kept d true states states' ∧
    ∀ root, root ∈ roots → safeNode d root → seen states' root.
Proof.
  intros Hq Hu Hr. fold_loop (λ pre gs, quiet true gs.1 gs.2 ∧ kept d true states gs.1 ∧ ∀ root, root ∈ pre → safeNode d root → seen gs.1 root)
    as ([states' dst'] & -> & H); [| |by exists states', dst'].
  - split; [done|]. split; [apply kept_refl|]. by intros root ?%elem_of_nil.
  - intros pre x post [st ds] -> (Hq' & Hk & Hs). apply Forall_app in Hu as [_ [Hx _]%Forall_cons].
    destruct (walkGraph_ok true x st ds Hq' Hx) as (st' & ds' & E & Hq2 & Hk2 & Hs2); [intros _; apply reachedNode_root, Hr; set_solver|].
    exists (st', ds'). split; [done|]. split; [done|]. split; [by eapply kept_trans|]. cbn.
    intros root [Hin| ->%list_elem_of_singleton]%elem_of_app Hsafe; [|by apply Hs2]. apply Hk2; [done|]. by apply Hs.
Qed.

(** The first loop: the roots of the requirements. *)
Lemma requirements_walked : ∃ cs states dst, for_range (requirementRows d) (walkRequirement d) ((checkClauseRows d).2, (nodeStates, [])) = Ok (cs, (states, dst)) ∧
  quiet true states dst ∧ refState referencedClause cs ∧
  ∀ i, (i < requirementRows d)%nat → let root := dRequirementApplicabilityRoots d !!! i in safeNode d root → seen states root.
Proof.
  for_loop (λ k st, quiet true st.2.1 st.2.2 ∧ refState (referencedTo k) st.1 ∧
    ∀ i, (i < k)%nat → let root := dRequirementApplicabilityRoots d !!! i in safeNode d root → seen st.2.1 root) as ([cs [states dst]] & -> & H); [| |by exists cs, states, dst].
  - split; [apply quiet_start|]. split; [|intros i Hi; lia]. split; [apply length_clauseState|]. intros c Hc. right. split; [|done]. intros (i & Hi & _). lia.
  - intros i [cs [states dst]] Hi (Hq & Hr & Hs). destruct (gt_requirements _ Ht) as [T1 T2]. pose proof requirementRows_le as Hle.
    destruct (walkGraph_ok true (dRequirementApplicabilityRoots d !!! i) states dst Hq) as (st' & ds' & E & Hq2 & Hk2 & Hs2).
    { apply Forall_lookup_total_1; [done|lia]. } { intros _. apply reachedNode_root. by constructor. }
    unfold walkRequirement. rewrite E, go_bind_Ok.
    assert (∃ cs', (if clauseRange d i then fold_go (referenceClause d) (clauseEdges d i) cs else Ok cs) = Ok cs' ∧ refState (referencedTo (S i)) cs') as (cs' & -> & Hcs).
    { destruct (clauseRange d i) eqn:Hrange.
      - destruct (referenceClauses_ok (referencedTo i) (clauseEdges d i) cs) as (cs' & Ecs & Hcs); [|done|].
        { apply Forall_forall. intros x Hx%csr_elem. by apply (proj1 (Forall_forall _ _) T2). }
        exists cs'. split; [done|]. eapply refState_ext; [|exact Hcs]. intros c. split.
        + intros [(j & Hj & H1 & H2)|H]; [exists j; split_and!; [lia|done..]|exists i; split_and!; [lia|done..]].
        + intros (j & Hj & H1 & H2). destruct (decide (j = i)) as [->|]; [by right|]. left. exists j. split_and!; [lia|done..].
      - exists cs. split; [done|]. eapply refState_ext; [|exact Hr]. intros c. split; intros (j & Hj & H1 & H2).
        + exists j. split_and!; [lia|done..].
        + exists j. split_and!; [|done..]. destruct (decide (j = i)) as [->|]; [congruence|lia]. }
    eexists. split; [done|]. cbn. split; [done|]. split; [done|]. intros j Hj Hsafe. destruct (decide (j = i)) as [->|]; [by apply Hs2|]. apply Hk2; [done|]. apply Hs; [lia|done].
Qed.

(** The second loop: the roots of the safe clauses that are referenced. *)
Lemma clauses_walked cs states dst : quiet true states dst → refState referencedClause cs →
  ∃ states' dst', for_range clauses (walkClause d cs) (states, dst) = Ok (states', dst') ∧ quiet true states' dst' ∧ kept d true states states' ∧
    ∀ c, safeClause c → referencedClause c →
      (safeNode d (dClauseAssertionRoots d !!! c) → seen states' (dClauseAssertionRoots d !!! c)) ∧
      ∀ root, root ∈ evidenceEdges d c → safeNode d root → seen states' root.
Proof.
  intros Hq Hcs. for_loop (λ k gs, quiet true gs.1 gs.2 ∧ kept d true states gs.1 ∧ ∀ c, (c < k)%nat → safeClause c → referencedClause c →
      (safeNode d (dClauseAssertionRoots d !!! c) → seen gs.1 (dClauseAssertionRoots d !!! c)) ∧
      ∀ root, root ∈ evidenceEdges d c → safeNode d root → seen gs.1 root) as ([states' dst'] & -> & (Hq' & Hk & H)).
  - split; [done|]. split; [apply kept_refl|]. intros c Hc. lia.
  - intros i [st ds] Hi (Hq' & Hk & Hs). unfold walkClause. rewrite at_nat with (x := cs !!! i), go_bind_Ok by (apply list_lookup_lookup_total_lt; by rewrite (proj1 Hcs)).
    pose proof (clauseState_test _ cs i Hcs Hi) as Htest. destruct (_ =? clauseStateReferenced); cbn [negb].
    2:{ eexists. split; [done|]. split; [done|]. split; [done|]. intros c Hc Hsc Hrc. destruct (decide (c = i)) as [->|]; [|apply Hs; [lia|done..]].
        by discriminate (proj2 Htest (Logic.conj Hsc Hrc)). }
    destruct (proj1 Htest eq_refl) as [Hsc Hrc]. destruct (gt_clauses _ Ht) as [T1 T2].
    destruct (walkGraph_ok true (dClauseAssertionRoots d !!! i) st ds Hq') as (st1 & ds1 & E1 & Hq1 & Hk1 & Hs1).
    { by apply Forall_lookup_total_1. } { intros _. apply reachedNode_root. by apply AssertionRoot. }
    rewrite E1, go_bind_Ok. destruct (checkClauseRow_safe i (proj1 Hsc) (proj2 Hsc)) as (_ & -> & _).
    destruct (walks_ok (evidenceEdges d i) st1 ds1 Hq1) as (st2 & ds2 & E2 & Hq2 & Hk2 & Hs2).
    { apply Forall_forall. intros x Hx%csr_elem. by apply (proj1 (Forall_forall _ _) T2). } { intros root Hr. by apply (EvidenceRoot i). }
    exists (st2, ds2). split; [done|]. split; [done|]. split; [eapply kept_trans; [exact Hk|]; by eapply kept_trans|]. cbn. intros c Hc Hsc' Hrc'.
    destruct (decide (c = i)) as [->|]; [split; [|by apply Hs2]; intros H; apply Hk2; [done|by apply Hs1]|].
    destruct (Hs c ltac:(lia) Hsc' Hrc') as [H1 H2]. split; [intros H|intros root Hr H]; (apply Hk2; [done|]; apply Hk1; [done|]); [by apply H1|by apply H2].
  - exists states', dst'. split; [done|]. split; [done|]. split; [done|]. intros c Hc. apply H; [|done]. pose proof clauseRows_le. destruct Hc. lia.
Qed.

(** The third loop: the components no root reaches. *)
Lemma orphans_walked states dst : quiet false states dst →
  ∃ states' dst', for_range (length (dNodeKinds d)) (walkOrphan d) (states, dst) = Ok (states', dst') ∧ quiet false states' dst' ∧ kept d false states states' ∧
    ∀ m, safeNode d m → seen states' m.
Proof.
  intros Hq. for_loop (λ k gs, quiet false gs.1 gs.2 ∧ kept d false states gs.1 ∧ ∀ m, safeNode d m → m ≤ Z.of_nat k → seen gs.1 m) as ([states' dst'] & -> & (Hq' & Hk & H)).
  - split; [done|]. split; [apply kept_refl|]. intros m [Hm _] Hle. lia.
  - intros i [st ds] Hi (Hq' & Hk & Hs). unfold walkOrphan. cbn [fst]. pose proof (wk_coloured _ _ _ (qu_walking _ _ _ _ _ Hq')) as Hc. cbn in Hc.
    destruct Hc as [Hl Hc]. rewrite at_nat with (x := st !!! i), go_bind_Ok by (apply list_lookup_lookup_total_lt; lia). destruct (Hc i Hi) as [Hst Hun].
    assert (∀ m, safeNode d m → m ≤ Z.of_nat (S i) → m ≤ Z.of_nat i ∨ m = Z.of_nat i + 1) as Hcase by (intros; lia).
    assert (∀ m, m = Z.of_nat i + 1 → safeNode d m → unsafe (st !!! i) = false) as Hsafe.
    { intros m -> [_ E]. rewrite Hun. by replace (Z.to_nat (Z.of_nat i + 1 - 1)) with i in E by lia. }
    destruct (unsafe (st !!! i) || visited (st !!! i)) eqn:Hskip.
    + eexists. split; [done|]. split; [done|]. split; [done|]. cbn. intros m Hm Hle. destruct (Hcase m Hm Hle) as [?|Em]; [by apply Hs|].
      rewrite (Hsafe m Em Hm), orb_false_l in Hskip. rewrite visited_spec in Hskip by done. subst m. unfold seen. replace (Z.to_nat (Z.of_nat i + 1 - 1)) with i by lia.
      by apply orb_true_iff in Hskip.
    + destruct (gt_nodes _ Ht) as [Hmax _]. rewrite (rowID_small i (length (dNodeKinds d))) by lia.
      destruct (walkGraph_ok false (Z.of_nat i + 1) st ds Hq') as (st' & ds' & E & Hq2 & Hk2 & Hs2); [unfold is_u32, MaxUint32 in *; lia|done|].
      exists (st', ds'). split; [done|]. split; [done|]. split; [by eapply kept_trans|]. cbn. intros m Hm Hle.
      destruct (Hcase m Hm Hle) as [?| ->]; [apply Hk2; [done|]; by apply Hs|by apply Hs2].
  - exists states', dst'. split; [done|]. split; [done|]. split; [done|]. intros m Hm. apply H; [done|]. destruct Hm as [[_ ?] _]. done.
Qed.

(** ** The report *)

Definition orphanAt (m : Z) : Diagnostic := diag CodeUnreachableNode TableNode ▷ onRow m ▷ onNode m ▷ onSpan (validNodeSpan d (Z.to_nat (m - 1))).

(** With nothing on the stack, visited nodes are finished. *)
Lemma quiet_seen reachable states dst m : quiet reachable states dst → safeNode d m → seen states m → black (colour states m) = true.
Proof.
  intros Hq Hm [Hg|Hb]; [|done]. apply (wk_gray _ _ _ (qu_walking _ _ _ _ _ Hq) m Hm) in Hg. by apply elem_of_nil in Hg.
Qed.

(** After the loops over the roots, the marked nodes are those the roots reach. *)
Lemma marked_reached states dst : quiet true states dst → (∀ root, graphRoot root → safeNode d root → seen states root) →
  ∀ m, safeNode d m → marked (colour states m) = true ↔ reachedNode m.
Proof.
  intros Hq Hroots m Hm. split; [by apply (tr_marked _ _ _ _ _ _ (qu_tracked _ _ _ _ _ Hq))|]. intros (root & Hr & Hs & Hpath).
  destruct (tr_reach _ _ _ _ _ _ (qu_tracked _ _ _ _ _ Hq) eq_refl) as [_ Hall]. apply Hall; [done|]. clear Hall Hm.
  revert m Hpath. apply rtc_ind_r; [by apply Hroots|]. intros u v _ Huv IH.
  apply (tr_closed _ _ _ _ _ _ (qu_tracked _ _ _ _ _ Hq) _ _ Huv). apply (quiet_seen true states dst); [done|apply Huv|done].
Qed.

Lemma unreachable_row states i : coloured d states → (i < length (dNodeKinds d))%nat → unreachable d states i =
  Ok (emit (negb (unsafeRow d i) && negb (marked (states !!! i))) (orphanAt (Z.of_nat i + 1))).
Proof.
  intros [Hl Hc] Hi. destruct (gt_nodes _ Ht) as [Hmax _]. unfold unreachable. rewrite at_nat with (x := states !!! i), go_bind_Ok by (apply list_lookup_lookup_total_lt; lia).
  rewrite (rowID_small i (length (dNodeKinds d))) by lia. destruct (Hc i Hi) as [_ ->]. unfold orphanAt. replace (Z.to_nat (Z.of_nat i + 1 - 1)) with i by lia.
  by rewrite negb_orb.
Qed.

Lemma validateGraph_ok : ∃ cycles orphans, validateGraph d nodeStates (checkClauseRows d).2 = Ok (cycles ++ orphans) ∧ Forall (realCycle d) cycles ∧
  (cycles = [] → ∃ fin, topo d fin ∧ ∀ m, safeNode d m → m ∈ fin) ∧ (∀ g, g ∈ orphans ↔ ∃ m, g = orphanAt m ∧ safeNode d m ∧ ¬ reachedNode m) ∧
  ∀ m, safeNode d m → reachedNode m ∨ ¬ reachedNode m.
Proof.
  unfold validateGraph. destruct requirements_walked as (cs & st1 & ds1 & -> & Hq1 & Hcs & Hs1). rewrite go_bind_Ok.
  destruct (clauses_walked cs st1 ds1 Hq1 Hcs) as (st2 & ds2 & -> & Hq2 & Hk2 & Hs2). rewrite go_bind_Ok.
  assert (∀ m, safeNode d m → marked (colour st2 m) = true ↔ reachedNode m) as Hmark.
  { apply (marked_reached st2 ds2 Hq2). intros root [i Hi|c Hc Hr|c node Hc Hr Hin] Hsafe; [apply Hk2; [done|]; by apply Hs1|by apply Hs2|by apply (Hs2 c)]. }
  destruct (orphans_walked st2 ds2) as (st3 & ds3 & -> & Hq3 & Hk3 & Hs3). { destruct Hq2 as [H1 [A1 A2 A3 A4 A5 _] H3]. by split. }
  rewrite go_bind_Ok. cbn [fst snd]. pose proof (wk_coloured _ _ _ (qu_walking _ _ _ _ _ Hq3)) as Hc3.
  rewrite (collect_pure _ (λ i, emit (negb (unsafeRow d i) && negb (marked (st3 !!! i))) (orphanAt (Z.of_nat i + 1)))), go_bind_Ok
    by (intros i Hi%elem_of_seq; apply unreachable_row; [done|lia]).
  exists ds3. eexists. split; [done|]. split; [apply (tr_cycles _ _ _ _ _ _ (qu_tracked _ _ _ _ _ Hq3))|]. split; [|split].
  - intros E. destruct (qu_sorted _ _ _ _ _ Hq3 E) as [fin [Hto Hbl _]]. exists fin. split; [done|]. intros m Hm. apply Hbl; [done|].
    apply (quiet_seen false st3 ds3); [done..|by apply Hs3].
  - intros g. rewrite elem_of_flat_map. setoid_rewrite elem_of_emit. setoid_rewrite elem_of_seq. split.
    + intros (i & Hi & [Hu Hm]%andb_true_iff & ->). apply negb_true_iff in Hu, Hm. exists (Z.of_nat i + 1). split; [done|].
      assert (safeNode d (Z.of_nat i + 1)) as Hs by (split; [lia|]; by replace (Z.to_nat (Z.of_nat i + 1 - 1)) with i by lia). split; [done|]. rewrite <-(Hmark _ Hs).
      rewrite <-(proj2 (Hk3 _ Hs) eq_refl). replace (Z.to_nat (Z.of_nat i + 1 - 1)) with i by lia. congruence.
    + intros (m & -> & Hs & Hm). pose proof Hs as [Hn Hu]. exists (Z.to_nat (m - 1)). split; [lia|]. rewrite Hu. replace (Z.of_nat (Z.to_nat (m - 1)) + 1) with m by lia.
      split; [|done]. cbn. rewrite (proj2 (Hk3 _ Hs) eq_refl). apply negb_true_iff. destruct (marked (colour st2 m)) eqn:E; [|done]. by apply (Hmark m Hs) in E.
  - intros m Hm. destruct (marked (colour st2 m)) eqn:E; [left; by apply Hmark|right]. rewrite <-(Hmark m Hm). congruence.
Qed.
End document.

(** ** Property *)

(** C7: the graph phase of the validator is exact.  On every document whose columns
    have their Go types, whatever else is wrong with it, the phase indexes no column
    out of range and ends within one iteration per node and edge; it reports a cycle
    exactly when the graph of structurally safe nodes has one, and it reports node
    [m] as unreachable exactly when [m] is safe and no path of safe nodes leads to
    it from an applicability root or a root of a safe clause that a requirement
    references. *)
Theorem graph_diagnostics_exact (d : Document) : graph_typed d →
  ∃ ds, validateGraph d (checkNodeRows d).2 (checkClauseRows d).2 = Ok ds ∧
    ((∃ g, g ∈ ds ∧ dgCode g = CodeCycle) ↔ ∃ u, tc (edge d) u u) ∧
    ∀ m, (∃ g, g ∈ ds ∧ dgCode g = CodeUnreachableNode ∧ dgNode g = m) ↔ safeNode d m ∧ ¬ reachedNode d m.
Proof.
  intros Ht. destruct (validateGraph_ok d Ht) as (cycles & orphans & E & Hreal & Hacyclic & Horphans & _). exists (cycles ++ orphans). split; [exact E|].
  assert (∀ g, g ∈ cycles → ∃ node target, g = cycleAt d node target ∧ edge d node target ∧ rtc (edge d) target node) as Hc by (intros g Hg; by apply (proj1 (Forall_forall _ _) Hreal)).
  split; [split|intros m; split].
  - intros (g & [Hg|Hg]%elem_of_app & Hcode); [|by apply Horphans in Hg as (m & -> & _)]. destruct (Hc g Hg) as (u & v & _ & Huv & Hp). exists u. by eapply tc_rtc_r; [apply tc_once|].
  - intros [u Hu]. destruct cycles as [|g cycles].
    + destruct (Hacyclic eq_refl) as (fin & Hto & Hall). by destruct (topo_acyclic d fin Hto Hall u).
    + exists g. split; [by left|]. destruct (Hc g ltac:(by left)) as (? & ? & -> & _). done.
  - intros (g & [Hg|Hg]%elem_of_app & Hcode & Hm); [by destruct (Hc g Hg) as (? & ? & -> & _)|]. apply Horphans in Hg as (m' & -> & Hs & Hr). cbn in Hm. by subst m'.
  - intros [Hs Hr]. exists (orphanAt d m). split; [|done]. apply elem_of_app. right. apply Horphans. by exists m.
Qed.
