(* ===== verification/ValidateOk.v ===== *)
(** * Validation returns
    On every document whose columns have their Go types the validator returns its
    diagnostics, and the compiler rejects the document when there are any. *)

From S2P Require Import Prelude Schema Templates SymbolTable Ast Diagnostic Validate Traversal GraphWalk GraphOk.
#[local] Open Scope Z_scope.

(** The Go types of the columns that the validator reads. *)
Record doc_typed (d : Document) : Prop := {
  ty_graph : graph_typed d;
  ty_compares : Forall is_u32 (dCompareFields d) ∧ Forall is_u32 (dCompareValues d) ∧ Forall is_u32 (dCompareListStarts d) ∧
    Forall is_u16 (dCompareListCounts d) ∧ Forall is_u32 (dListValueIDs d);
  ty_evidence : Forall is_u32 (dEvidenceKinds d) ∧ Forall is_u32 (dEvidenceStates d) ∧ Forall is_u32 (dEvidenceSubjects d) ∧
    Forall is_u32 (dEvidenceScopes d) ∧ Forall is_u32 (dEvidenceTimings d);
  ty_values : Forall is_u32 (dValueRefs d) ∧ Forall is_u32 (dSymbolStarts d) ∧ Forall is_u32 (dSymbolLengths d);
  ty_names : Forall is_u32 (dEvidenceKindNames d) ∧ Forall is_u32 (dEvidenceStateNames d) ∧ Forall is_u32 (dOutcomeNames d) ∧
    is_u32 (dPolicyName d) ∧ is_u32 (dPolicyVersion d);
  ty_clauses : Forall is_u32 (dClauseEvidenceStarts d) ∧ Forall is_u16 (dClauseEvidenceCounts d) ∧
    Forall is_u32 (dClauseRemediationStarts d) ∧ Forall is_u16 (dClauseRemediationCounts d);
  ty_requirements : Forall is_u32 (dRequirementClauseStarts d) ∧ Forall is_u16 (dRequirementClauseCounts d);
  ty_outcomes : Forall is_u32 (dClauseOnSatisfied d) ∧ Forall is_u32 (dClauseOnFalse d)
}.

Section document.
Context (d : Document) (fields : FieldTable) (Hty : doc_typed d).
Local Abbreviation Hgt := (ty_graph _ Hty).

(** ** Literals *)

Lemma structural_range id kind : is_u32 id → structuralLiteralKind d id = Some kind →
  1 ≤ id ≤ zlen (dValueKinds d) ∧ id ≤ zlen (dValueRefs d) ∧ dValueKinds d !!! Z.to_nat (id - 1) = kind ∧ literalKind kind = true ∧
  valueRefValid d kind (dValueRefs d !!! Z.to_nat (id - 1)) = true.
Proof.
  unfold structuralLiteralKind, is_u32. intros Hu. destruct (Z.eqb_spec id 0); [done|]. destruct (Z.ltb_spec (zlen (dValueKinds d)) id); [done|].
  destruct (Z.ltb_spec (zlen (dValueRefs d)) id); [done|]. cbn [orb]. cbv zeta.
  destruct (literalKind _) eqn:Hk; [|done]. destruct (valueRefValid _ _ _) eqn:Hv; [|done]. intros [= <-]. split_and!; [lia..|done|done|done].
Qed.

(** The payload of a symbol whose row was checked. *)
Lemma symbol_row ref : is_u32 ref → valueRefValid d ValueKindSymbol ref = true → ref < zlen (dSymbolStarts d) ∧ ref < zlen (dSymbolLengths d) ∧
  is_u32 (dSymbolStarts d !!! Z.to_nat ref) ∧ is_u32 (dSymbolLengths d !!! Z.to_nat ref) ∧
  dSymbolStarts d !!! Z.to_nat ref + dSymbolLengths d !!! Z.to_nat ref ≤ zlen (dSymbolBytes d).
Proof.
  intros Hu. unfold valueRefValid. rewrite Z.eqb_refl. destruct (Z.leb_spec (zlen (dSymbolStarts d)) ref); [done|]. destruct (Z.leb_spec (zlen (dSymbolLengths d)) ref); [done|].
  cbn [orb]. destruct (ty_values _ Hty) as (_ & T2 & T3).
  assert (is_u32 (dSymbolStarts d !!! Z.to_nat ref)) as H1 by (by apply Forall_total_Z). assert (is_u32 (dSymbolLengths d !!! Z.to_nat ref)) as H2 by (by apply Forall_total_Z).
  intros Hv. apply validRange_pool in Hv; [|done|unfold is_u32 in *; lia]. split_and!; [lia|lia|done|done|lia].
Qed.

Lemma symbolBytes_ok id : is_u32 id → structuralLiteralKind d id = Some ValueKindSymbol →
  let ref := Z.to_nat (dValueRefs d !!! Z.to_nat (id - 1)) in symbolBytes d id = Ok (csr (dSymbolBytes d) (dSymbolStarts d !!! ref) (dSymbolLengths d !!! ref)).
Proof.
  intros Hu Hk ref. destruct (structural_range id _ Hu Hk) as (Hid & Hr & _ & _ & Hv). destruct (ty_values _ Hty) as (T1 & _).
  assert (is_u32 (dValueRefs d !!! Z.to_nat (id - 1))) as Href by (by apply Forall_total_Z). destruct (symbol_row _ Href Hv) as (L1 & L2 & U1 & U2 & Hb).
  unfold is_u32 in *. unfold symbolBytes. rewrite (at_total (dValueRefs d)), go_bind_Ok by lia. rewrite (at_total (dSymbolStarts d)), go_bind_Ok by lia.
  rewrite (at_total (dSymbolLengths d)), go_bind_Ok by lia. fold ref in L1, L2, U1, U2, Hb |- *. rewrite slice_range by lia. do 2 f_equal. lia.
Qed.

(** ** The semantic phase returns *)

Lemma checkNodeSemantics_total i : (i < length (dNodeKinds d))%nat → ∃ ds, checkNodeSemantics d fields (nodeStates d) i = Ok ds.
Proof.
  intros Hi. destruct (nodeStates_coloured d) as [Hl Hc]. destruct (Hc i Hi) as [_ Hun]. destruct (gt_nodes _ Hgt) as [Hmax _].
  unfold checkNodeSemantics. rewrite at_nat with (x := nodeStates d !!! i), go_bind_Ok by (apply list_lookup_lookup_total_lt; lia).
  change (negb (Z.land (nodeStates d !!! i) nodeStateUnsafe =? 0)) with (unsafe (nodeStates d !!! i)). rewrite Hun.
  destruct (unsafeRow d i) eqn:Hrow; [by eexists|]. destruct (_ <=? i)%nat; [by eexists|]. rewrite (rowID_small i (length (dNodeKinds d))) by lia.
  assert (safeNode d (Z.of_nat i + 1)) as Hs by (split; [lia|]; by replace (Z.to_nat (Z.of_nat i + 1 - 1)) with i by lia).
  destruct (graphEdgeCount_ok d Hgt _ Hs) as [-> _]. rewrite go_bind_Ok, Nat2Z.id.
  destruct (collect_total (checkNodeEdge d i) (seq 0 (graphEdges d (Z.of_nat i + 1)))) as [ds ->]; [|by eexists].
  intros j Hj%elem_of_seq. unfold checkNodeEdge. rewrite (rowID_small i (length (dNodeKinds d))) by lia. destruct (graphChild_ok d Hgt _ j Hs ltac:(lia)) as [-> _]. by eexists.
Qed.

Lemma checkIdentityValue_total member value : is_u32 value → ∃ ds, checkIdentityValue d member value = Ok ds.
Proof.
  intros Hu. unfold checkIdentityValue. destruct (structuralLiteralKind d value) as [kind|] eqn:E; [|by eexists].
  destruct (Z.eqb_spec kind ValueKindSymbol) as [->|]; cbn [negb]; [|by eexists]. rewrite symbolBytes_ok by done. by eexists.
Qed.

Lemma duplicateName_total name cur previous : Forall is_u32 previous → ∃ b, duplicateName d name cur previous = Ok b.
Proof.
  induction 1 as [|prev previous Hu _ [b IH]]; [by eexists|]. cbn [duplicateName]. destruct (prev =? 0); [by eexists|]. destruct (prev =? name); [by eexists|].
  case_bool_decide as Hk; [rewrite symbolBytes_ok by done; rewrite !go_bind_Ok|rewrite go_bind_Ok]; rewrite ?IH; [destruct (_ && _)|]; by eexists.
Qed.

Lemma checkCatalogNameSemantics_total table names starts ends : Forall is_u32 names → ∃ ds, checkCatalogNameSemantics d table names starts ends = Ok ds.
Proof.
  intros Hn. apply collect_total. intros i _. unfold checkCatalogName. cbv zeta. destruct (_ =? 0); [by eexists|].
  assert (is_u32 (names !!! i)) as Hu by (by apply Forall_total_Z).
  destruct (structuralLiteralKind d (names !!! i)) as [kind|] eqn:E; [|by eexists]. destruct (Z.eqb_spec kind ValueKindSymbol) as [->|]; cbn [negb]; [|by eexists].
  rewrite symbolBytes_ok, go_bind_Ok by done. case_bool_decide; [by eexists|].
  edestruct duplicateName_total as [b ->]; [apply Forall_take; exact Hn|]. by eexists.
Qed.

Lemma validateSemantics_total : ∃ ds, validateSemantics d fields (nodeStates d) = Ok ds.
Proof.
  destruct (ty_names _ Hty) as (N1 & N2 & N3 & N4 & N5). unfold validateSemantics, checkExpressionSemantics.
  destruct (collect_total (checkNodeSemantics d fields (nodeStates d)) (seq 0 (length (dNodeKinds d)))) as [ds1 ->].
  { intros i Hi%elem_of_seq. apply checkNodeSemantics_total. lia. }
  rewrite go_bind_Ok. assert (∃ ds, checkPolicyIdentitySemantics d = Ok ds) as [ds2 ->].
  { unfold checkPolicyIdentitySemantics. destruct (_ && _); [by eexists|]. apply collect_total.
    intros x [->|[->|H%elem_of_nil]%elem_of_cons]%elem_of_cons; [by apply checkIdentityValue_total..|done]. }
  rewrite go_bind_Ok. destruct (checkCatalogNameSemantics_total TableEvidenceKind (dEvidenceKindNames d) (dEvidenceKindSourceStarts d) (dEvidenceKindSourceEnds d) N1) as [ds3 ->].
  rewrite go_bind_Ok. destruct (checkCatalogNameSemantics_total TableEvidenceState (dEvidenceStateNames d) (dEvidenceStateSourceStarts d) (dEvidenceStateSourceEnds d) N2) as [ds4 ->].
  rewrite go_bind_Ok. destruct (checkCatalogNameSemantics_total TableOutcome (dOutcomeNames d) (dOutcomeSourceStarts d) (dOutcomeSourceEnds d) N3) as [ds5 ->].
  rewrite go_bind_Ok. by eexists.
Qed.

(** The diagnostics are those of the three phases, in order. *)
Lemma Validate_ok : ∃ semantics graph, Validate d fields = Ok ((validateStructure d fields).1.1 ++ semantics ++ graph) ∧
  validateSemantics d fields (nodeStates d) = Ok semantics ∧ validateGraph d (nodeStates d) (checkClauseRows d).2 = Ok graph.
Proof.
  destruct validateSemantics_total as [semantics Es]. destruct (validateGraph_ok d Hgt) as (cycles & orphans & Eg & _).
  exists semantics, (cycles ++ orphans). split_and!; [|done..]. unfold Validate. 
  assert (validateStructure d fields = ((validateStructure d fields).1.1, nodeStates d, (checkClauseRows d).2)) as ->.
  { unfold validateStructure, nodeStates. destruct (checkNodeRows d), (checkClauseRows d). done. }
  rewrite Es, go_bind_Ok, Eg. done.
Qed.
End document.
