(* ===== verification/Constants.v ===== *)
(** * Lowering of constants

    The constant stage of compile/lower.go with compile/normalize.go: field names
    and symbol literals are interned into the program's symbol slab, every literal
    is given one canonical value row by kind and payload, and catalog and policy
    names are translated through the remap columns. *)

From S2P Require Import Prelude Store Truth Schema Result Program Batch Predicate Evidence SymbolTable Interner Frozen SymbolCheck Ast.

(** ** Canonical values (normalize.go) *)

Definition mixKindPayload (kind payload : Z) : Z :=
  let h := Z.lxor (u64 (kind * 0x9E3779B97F4A7C15)) payload in
  let h := Z.lxor h (Z.shiftr h 30) in
  let h := u64 (h * 0xBF58476D1CE4E5B9) in
  let h := Z.lxor h (Z.shiftr h 27) in
  let h := u64 (h * 0x94D049BB133111EB) in
  Z.lxor h (Z.shiftr h 31).

Definition valueHash (kind : Z) (symbol : bytes) (integer timestamp boolean : Z) : Z :=
  let payload :=
    if kind =? ValueKindSymbol then HashSymbol symbol
    else if kind =? ValueKindInteger then u64 integer
    else if kind =? ValueKindBoolean then boolean
    else if kind =? ValueKindTimestamp then u64 timestamp
    else 0 in
  mixKindPayload kind payload.

(** The arguments that describe a candidate value: its kind and one payload. *)
Record candidateValue := { vKind : Z; vSymbol : Z; vInteger : Z; vTimestamp : Z; vBoolean : Z }.

(** A one-based reference into a packed column holds [x]. *)
Definition refHolds (col : list Z) (ref x : Z) : bool := (1 <=? ref) && (ref - 1 <? zlen col) && (col !!! Z.to_nat (ref - 1) =? x).

Definition valueEqual (v : ValueColumns) (stored ref : Z) (c : candidateValue) : bool :=
  (stored =? vKind c) &&
  (if stored =? ValueKindSymbol then ref =? vSymbol c
   else if stored =? ValueKindInteger then refHolds (IntegerValues v) ref (vInteger c)
   else if stored =? ValueKindBoolean then refHolds (BooleanValues v) ref (vBoolean c)
   else if stored =? ValueKindTimestamp then refHolds (TimestampValues v) ref (vTimestamp c)
   else false).

Definition appendValuePayload (v : ValueColumns) (c : candidateValue) : go (Z * ValueColumns) :=
  if vKind c =? ValueKindSymbol then
    check (negb (vSymbol c =? 0)) ErrInvalidDocument ;;
    Ok (vSymbol c, v)
  else if vKind c =? ValueKindInteger then
    check (zlen (IntegerValues v) <? MaxUint32) ErrProgramTooLarge ;;
    Ok (u32 (zlen (IntegerValues v)) + 1,
        {| ValueKinds := ValueKinds v; ValueRefs := ValueRefs v; IntegerValues := IntegerValues v ++ [vInteger c];
           BooleanValues := BooleanValues v; TimestampValues := TimestampValues v |})
  else if vKind c =? ValueKindBoolean then
    check (zlen (BooleanValues v) <? MaxUint32) ErrProgramTooLarge ;;
    Ok (u32 (zlen (BooleanValues v)) + 1,
        {| ValueKinds := ValueKinds v; ValueRefs := ValueRefs v; IntegerValues := IntegerValues v;
           BooleanValues := BooleanValues v ++ [vBoolean c]; TimestampValues := TimestampValues v |})
  else if vKind c =? ValueKindTimestamp then
    check (zlen (TimestampValues v) <? MaxUint32) ErrProgramTooLarge ;;
    Ok (u32 (zlen (TimestampValues v)) + 1,
        {| ValueKinds := ValueKinds v; ValueRefs := ValueRefs v; IntegerValues := IntegerValues v;
           BooleanValues := BooleanValues v; TimestampValues := TimestampValues v ++ [vTimestamp c] |})
  else Err ErrInvalidDocument.

(** The value intern table of a lowerer, with the destination value columns. *)
Record valueTable := {
  valHashes : list Z;
  valKinds : list Z;
  valRefs : list Z;
  valIDs : list Z;
  vals : ValueColumns
}.

Definition valueHit (t : valueTable) (c : candidateValue) (slot id : Z) : go bool :=
  kind ← at_ (valKinds t) slot;
  ref ← at_ (valRefs t) slot;
  Ok (valueEqual (vals t) kind ref c).

Definition internValue (h : Z) (c : candidateValue) (t : valueTable) : go (Z * valueTable) :=
  let n := zlen (valIDs t) in
  check (negb (n =? 0)) ErrProgramTooLarge ;;
  r ← probeFrom (valIDs t) (valueHit t c) (length (valIDs t)) (Z.land h (n - 1));
  match r with
  | Found id => Ok (id, t)
  | Full => Err ErrProgramTooLarge
  | Empty slot =>
      check (zlen (ValueKinds (vals t)) <? MaxUint32) ErrProgramTooLarge ;;
      '(ref, v) ← appendValuePayload (vals t) c;
      let id := u32 (zlen (ValueKinds v) + 1) in
      hashes ← put_ (valHashes t) slot h;
      kinds ← put_ (valKinds t) slot (vKind c);
      refs ← put_ (valRefs t) slot ref;
      ids ← put_ (valIDs t) slot id;
      Ok (id, {| valHashes := hashes; valKinds := kinds; valRefs := refs; valIDs := ids;
                 vals := {| ValueKinds := ValueKinds v ++ [vKind c]; ValueRefs := ValueRefs v ++ [ref]; IntegerValues := IntegerValues v;
                            BooleanValues := BooleanValues v; TimestampValues := TimestampValues v |} |})
  end.

(** The scratch of the constant stage: both intern tables and the remap columns. *)
Record constState := {
  symbolHalf : Lowering;
  valueHalf : valueTable;
  valueRemap : list Z;
  symbolRemap : list Z
}.

(** One literal of the document: its hash, its candidate and the state after
    interning its spelling. *)
Definition canonicalLiteral (d : LiteralColumns) (i : nat) (st : constState) : go (Z * candidateValue * constState) :=
  let id := Z.of_nat i + 1 in
  let kind := dValueKinds d !!! i in
  if kind =? ValueKindSymbol then
    b ← orErr (SymbolValue d id) ErrInvalidDocument;
    '(sym, l) ← internSymbol b (symbolHalf st);
    remap ← put_ (symbolRemap st) (Z.of_nat i) sym;
    Ok (valueHash kind b 0 0 0, {| vKind := kind; vSymbol := sym; vInteger := 0; vTimestamp := 0; vBoolean := 0 |},
        {| symbolHalf := l; valueHalf := valueHalf st; valueRemap := valueRemap st; symbolRemap := remap |})
  else if kind =? ValueKindInteger then
    v ← orErr (IntegerValue d id) ErrInvalidDocument;
    Ok (valueHash kind [] v 0 0, {| vKind := kind; vSymbol := 0; vInteger := v; vTimestamp := 0; vBoolean := 0 |}, st)
  else if kind =? ValueKindBoolean then
    v ← orErr (BooleanValue d id) ErrInvalidDocument;
    let boolean := if (v : bool) then 1 else 0 in
    Ok (valueHash kind [] 0 0 boolean, {| vKind := kind; vSymbol := 0; vInteger := 0; vTimestamp := 0; vBoolean := boolean |}, st)
  else if kind =? ValueKindTimestamp then
    v ← orErr (TimestampValue d id) ErrInvalidDocument;
    Ok (valueHash kind [] 0 v 0, {| vKind := kind; vSymbol := 0; vInteger := 0; vTimestamp := v; vBoolean := 0 |}, st)
  else Err ErrInvalidDocument.

Definition canonicalizeStep (d : LiteralColumns) (i : nat) (st : constState) : go constState :=
  '(h, c, st) ← canonicalLiteral d i st;
  '(vid, t) ← internValue h c (valueHalf st);
  remap ← put_ (valueRemap st) (Z.of_nat i) vid;
  Ok {| symbolHalf := symbolHalf st; valueHalf := t; valueRemap := remap; symbolRemap := symbolRemap st |}.

Definition canonicalizeValues (d : LiteralColumns) (st : constState) : go constState :=
  for_range (length (dValueKinds d)) (canonicalizeStep d) st.

Definition canonicalValue (st : constState) (id : Z) : go Z :=
  check (negb ((id =? 0) || (zlen (valueRemap st) <? id))) ErrInvalidDocument ;;
  canonical ← at_ (valueRemap st) (id - 1);
  check (negb (canonical =? 0)) ErrInvalidDocument ;;
  Ok canonical.

(** ** Names (lower.go) *)

Definition symbolForValue (st : constState) (id : Z) : go Z :=
  check (negb ((id =? 0) || (zlen (valueRemap st) <? id))) ErrInvalidDocument ;;
  valueID ← at_ (valueRemap st) (id - 1);
  check (negb (valueID =? 0)) ErrInvalidDocument ;;
  kind ← orErr (ValueKindOf (vals (valueHalf st)) valueID) ErrInvalidDocument;
  check (kind =? ValueKindSymbol) ErrInvalidDocument ;;
  sym ← at_ (ValueRefs (vals (valueHalf st))) (valueID - 1);
  expected ← at_ (symbolRemap st) (id - 1);
  check (sym =? expected) ErrInvalidDocument ;;
  Ok sym.

Definition optionalSymbolForValue (st : constState) (id : Z) : go Z := if id =? 0 then Ok 0 else symbolForValue st id.

(** Field names, kinds and groups in field order. *)
Record schemaColumns := { FieldNames : list Z; fieldKinds : list Z; FieldGroups : list Z }.

Definition lowerField (fields : FieldTable) (source : Interner.Interner) (i : nat) (acc : schemaColumns * Lowering) : go (schemaColumns * Lowering) :=
  let '(c, l) := acc in
  let id := Z.of_nat i + 1 in
  name ← orErr (Fields.Name fields id) ErrInvalidDocument;
  b ← orErr (Interner.Bytes source name) ErrInvalidSymbols;
  check (negb (bool_decide (b = []))) ErrInvalidSymbols ;;
  '(sym, l) ← internSymbol b l;
  kind ← orErr (Fields.KindOf fields id) ErrInvalidDocument;
  group ← orErr (Fields.GroupOf fields id) ErrInvalidDocument;
  Ok ({| FieldNames := FieldNames c ++ [sym]; fieldKinds := fieldKinds c ++ [kind]; FieldGroups := FieldGroups c ++ [group] |}, l).

Definition lowerFieldSchema (fields : FieldTable) (source : Interner.Interner) (l : Lowering) : go (schemaColumns * Lowering) :=
  for_range (length (names fields)) (lowerField fields source) ({| FieldNames := []; fieldKinds := []; FieldGroups := [] |}, l).

(** One catalog: its names as symbols, and its source spans. *)
Record catalog := { catNames : list Z; catStarts : list Z; catEnds : list Z }.

Definition translateCatalogNames (st : constState) (names starts ends : list Z) : go catalog :=
  check (bool_decide (length starts = length names) && bool_decide (length ends = length names)) ErrInvalidDocument ;;
  check (zlen names <? MaxUint32) ErrProgramTooLarge ;;
  syms ← map_go (symbolForValue st) names;
  Ok {| catNames := syms; catStarts := starts; catEnds := ends |}.

Definition lowerCatalogNames (d : Document) (st : constState) : go (catalog * catalog) :=
  kinds ← translateCatalogNames st (dEvidenceKindNames d) (dEvidenceKindSourceStarts d) (dEvidenceKindSourceEnds d);
  states ← translateCatalogNames st (dEvidenceStateNames d) (dEvidenceStateSourceStarts d) (dEvidenceStateSourceEnds d);
  Ok (kinds, states).

Definition lowerPolicyIdentity (d : Document) (st : constState) : go (Z * Z * list Z) :=
  '(name, version, hash) ← orErr (PolicyMetadata d) ErrInvalidDocument;
  name ← symbolForValue st name;
  version ← symbolForValue st version;
  Ok (name, version, hash).

(** ** The stage *)

Definition addCounts (a b : Z) : go Z :=
  let sum := u64 (u64 a + u64 b) in
  check (negb ((MaxUint32 <=? sum) || (MaxInt32 / 4 <? sum))) ErrProgramTooLarge ;;
  Ok sum.

(** The constant columns of the destination program. *)
Record Constants := {
  cSymbols : SymbolColumns;
  cValues : ValueColumns;
  cFields : schemaColumns;
  cEvidenceKinds : catalog;
  cEvidenceStates : catalog;
  cIdentity : Z * Z * list Z;
  cInputBytes : list Z
}.

Definition noSymbols : SymbolColumns :=
  {| SymbolBytes := []; SymbolStarts := []; SymbolLengths := []; SymbolHashes := []; SymbolIDs := []; ProgramSymbolCount := 0 |}.
Definition noValues : ValueColumns :=
  {| ValueKinds := []; ValueRefs := []; IntegerValues := []; BooleanValues := []; TimestampValues := [] |}.

Definition freshTable (slots : Z) : valueTable :=
  {| valHashes := make_ slots; valKinds := make_ slots; valRefs := make_ slots; valIDs := make_ slots; vals := noValues |}.

(** [lowerConstants] on cleared scratch and columns. *)
Definition lowerConstants (d : Document) (fields : FieldTable) (source : Interner.Interner) : go (constState * Constants) :=
  let valueCount := zlen (dValueKinds d) in
  check (bool_decide (length (dValueRefs d) = length (dValueKinds d))) ErrInvalidDocument ;;
  symCap ← addCounts (zlen (names fields)) valueCount;
  let symSlots := slotSize symCap in
  let valSlots := slotSize valueCount in
  check (negb ((symSlots =? 0) || (valSlots =? 0))) ErrProgramTooLarge ;;
  '(columns, l) ← lowerFieldSchema fields source {| symIDs := make_ symSlots; dst := noSymbols |};
  st ← canonicalizeValues d
         {| symbolHalf := l; valueHalf := freshTable valSlots; valueRemap := make_ valueCount; symbolRemap := make_ valueCount |};
  '(kinds, states) ← lowerCatalogNames d st;
  identity ← lowerPolicyIdentity d st;
  frozen ← freezeSymbolSlots (dst (symbolHalf st));
  Ok (st, {| cSymbols := frozen; cValues := vals (valueHalf st); cFields := columns; cEvidenceKinds := kinds; cEvidenceStates := states;
             cIdentity := identity; cInputBytes := dInputBytes d |}).

(** ** Stored literals *)

Lemma nth_symbol_prefix {K} (ks ks' : list K) id b : ks `prefix_of` ks' → nth_symbol ks id = Some b → nth_symbol ks' id = Some b.
Proof. intros [more ->]. rewrite !nth_symbol_Some. intros [? ?]. split; [done|]. by apply lookup_app_l_Some. Qed.

Definition storedBoolean (x : Z) : option bool := if x =? 0 then Some false else if x =? 1 then Some true else None.

(** The literal a value row of some kind and reference stands for. *)
Definition decodeRef (ks : list bytes) (v : ValueColumns) (kind ref : Z) : option literal :=
  if kind =? ValueKindSymbol then LSymbol <$> nth_symbol ks ref
  else if kind =? ValueKindInteger then LInteger <$> nth_symbol (IntegerValues v) ref
  else if kind =? ValueKindBoolean then x ← nth_symbol (BooleanValues v) ref; LBoolean <$> storedBoolean x
  else if kind =? ValueKindTimestamp then LTimestamp <$> nth_symbol (TimestampValues v) ref
  else None.

#[global] Instance literal_hashed : Hashed literal := λ l,
  match l with
  | LSymbol b => valueHash ValueKindSymbol b 0 0 0
  | LInteger z => valueHash ValueKindInteger [] z 0 0
  | LBoolean b => valueHash ValueKindBoolean [] 0 0 (if b then 1 else 0)
  | LTimestamp z => valueHash ValueKindTimestamp [] 0 z 0
  end.

(** A candidate carries the payload of a literal whose spelling is interned. *)
Definition carries (ks : list bytes) (c : candidateValue) (l : literal) : Prop :=
  vKind c = literalKind l ∧
  match l with
  | LSymbol b => nth_symbol ks (vSymbol c) = Some b
  | LInteger z => vInteger c = z
  | LBoolean b => vBoolean c = if b then 1 else 0
  | LTimestamp z => vTimestamp c = z
  end.

Lemma refHolds_nth col ref x y : nth_symbol col ref = Some y → refHolds col ref x = (y =? x).
Proof.
  intros [Hr Hy]%nth_symbol_Some. unfold refHolds. pose proof (lookup_lt_Some _ _ _ Hy).
  rewrite (proj2 (Z.leb_le 1 ref)), (proj2 (Z.ltb_lt _ _)) by lia. by rewrite (list_lookup_total_correct _ _ _ Hy).
Qed.

Lemma valueEqual_decode ks v kind ref c l l' :
  NoDup ks → carries ks c l → decodeRef ks v kind ref = Some l' → valueEqual v kind ref c = bool_decide (l' = l).
Proof.
  intros Hnd [Hk Hc] Hd. unfold valueEqual. rewrite Hk. unfold decodeRef in Hd.
  destruct (Z.eqb_spec kind ValueKindSymbol) as [->|]; [|destruct (Z.eqb_spec kind ValueKindInteger) as [->|];
    [|destruct (Z.eqb_spec kind ValueKindBoolean) as [->|]; [|destruct (Z.eqb_spec kind ValueKindTimestamp) as [->|]; [|done]]]]; simpl.
  - apply fmap_Some in Hd as (b' & Hb' & ->). destruct l as [b| | |]; simpl; try first [done | symmetry; by apply bool_decide_eq_false_2].
    destruct (Z.eqb_spec ref (vSymbol c)) as [->|Hne].
    + rewrite Hc in Hb'. simplify_eq. symmetry. by apply bool_decide_eq_true_2.
    + symmetry. apply bool_decide_eq_false_2. intros [= ->]. by apply Hne, (nth_symbol_inj ks _ _ b).
  - apply fmap_Some in Hd as (z & Hz & ->). destruct l as [|z'| |]; simpl; try first [done | symmetry; by apply bool_decide_eq_false_2].
    rewrite (refHolds_nth _ _ _ _ Hz), Hc. destruct (Z.eqb_spec z z') as [->|]; symmetry; [by apply bool_decide_eq_true_2|apply bool_decide_eq_false_2; congruence].
  - apply bind_Some in Hd as (x & Hx & (b' & Hb' & ->)%fmap_Some). destruct l as [| |b|]; simpl; try first [done | symmetry; by apply bool_decide_eq_false_2].
    rewrite (refHolds_nth _ _ _ _ Hx), Hc. unfold storedBoolean in Hb'.
    destruct (Z.eqb_spec x 0) as [->|]; [|destruct (Z.eqb_spec x 1) as [->|]; [|done]]; simplify_eq; by destruct b.
  - apply fmap_Some in Hd as (z & Hz & ->). destruct l as [| | |z']; simpl; try first [done | symmetry; by apply bool_decide_eq_false_2].
    rewrite (refHolds_nth _ _ _ _ Hz), Hc. destruct (Z.eqb_spec z z') as [->|]; symmetry; [by apply bool_decide_eq_true_2|apply bool_decide_eq_false_2; congruence].
Qed.

(** Value columns only grow. *)
Definition values_extend (v v' : ValueColumns) : Prop :=
  ValueKinds v `prefix_of` ValueKinds v' ∧ ValueRefs v `prefix_of` ValueRefs v' ∧ IntegerValues v `prefix_of` IntegerValues v' ∧
  BooleanValues v `prefix_of` BooleanValues v' ∧ TimestampValues v `prefix_of` TimestampValues v'.

Lemma decodeRef_extend ks ks' v v' kind ref l :
  ks `prefix_of` ks' → values_extend v v' → decodeRef ks v kind ref = Some l → decodeRef ks' v' kind ref = Some l.
Proof.
  intros Hks (_ & _ & Hi & Hb & Ht). unfold decodeRef.
  assert (∀ (K B : Type) (f : K → B) (l l' : list K) y, l `prefix_of` l' → f <$> nth_symbol l ref = Some y → f <$> nth_symbol l' ref = Some y) as Hkeep.
  { intros K B f l1 l2 y Hp (x & Hx & ->)%fmap_Some. by rewrite (nth_symbol_prefix _ _ _ _ Hp Hx). }
  destruct (kind =? ValueKindSymbol); [by apply Hkeep|]. destruct (kind =? ValueKindInteger); [by apply Hkeep|].
  destruct (kind =? ValueKindBoolean); [|destruct (kind =? ValueKindTimestamp); [by apply Hkeep|done]].
  intros (x & Hx & E)%bind_Some. by rewrite (nth_symbol_prefix _ _ _ _ Hb Hx).
Qed.

(** ** The value table *)

Record valued (ks : list bytes) (t : valueTable) (lits : list literal) : Prop := {
  vd_distinct : NoDup lits;
  vd_table : table_ok (valIDs t) (nth_symbol lits);
  vd_lens : length (valKinds t) = length (valIDs t) ∧ length (valRefs t) = length (valIDs t) ∧ length (valHashes t) = length (valIDs t);
  vd_slots s id : valIDs t !! s = Some id → id ≠ 0 →
    valKinds t !! s = ValueKinds (vals t) !! Z.to_nat (id - 1) ∧ valRefs t !! s = ValueRefs (vals t) !! Z.to_nat (id - 1);
  vd_rows : length (ValueKinds (vals t)) = length lits ∧ length (ValueRefs (vals t)) = length lits;
  vd_stored i l : lits !! i = Some l → ∃ kind ref, ValueKinds (vals t) !! i = Some kind ∧ ValueRefs (vals t) !! i = Some ref ∧
    kind = literalKind l ∧ is_u32 ref ∧ decodeRef ks (vals t) kind ref = Some l;
  vd_packed : (length (IntegerValues (vals t)) ≤ length lits)%nat ∧ (length (BooleanValues (vals t)) ≤ length lits)%nat ∧
    (length (TimestampValues (vals t)) ≤ length lits)%nat
}.

Lemma valued_extend ks ks' t lits : ks `prefix_of` ks' → valued ks t lits → valued ks' t lits.
Proof.
  intros Hp [H1 H2 H3 H4 H5 H6 H7]. split; try done. intros i l Hl. destruct (H6 i l Hl) as (k & r & ? & ? & ? & ? & Hd).
  exists k, r. split_and!; try done. eapply decodeRef_extend; [done| |done]. by repeat split.
Qed.

Lemma valueHit_hits ks t lits c l :
  NoDup ks → valued ks t lits → carries ks c l → hits (valIDs t) (nth_symbol lits) l (valueHit t c).
Proof.
  intros Hnd Hv Hc s id Hs Hid. destruct (tb_reach _ _ (vd_table _ _ _ Hv) s id Hs Hid) as (l' & Hl' & _).
  pose proof Hl' as [_ Hi]%nth_symbol_Some. destruct (vd_stored _ _ _ Hv _ _ Hi) as (kind & ref & Hk & Hr & _ & _ & Hd).
  destruct (vd_slots _ _ _ Hv s id Hs Hid) as [Ek Er]. unfold valueHit.
  rewrite (at_nat (valKinds t) s kind) by congruence. simpl. rewrite (at_nat (valRefs t) s ref) by congruence. simpl. f_equal.
  rewrite (valueEqual_decode ks _ _ _ _ _ _ Hnd Hc Hd), Hl'. apply bool_decide_ext. naive_solver.
Qed.

(** The payload of a new literal is appended to the column of its kind. *)
Lemma appendValuePayload_ok ks v c l (n : nat) :
  carries ks c l → Z.of_nat n < MaxUint32 → zlen ks < MaxUint32 →
  (length (IntegerValues v) ≤ n)%nat ∧ (length (BooleanValues v) ≤ n)%nat ∧ (length (TimestampValues v) ≤ n)%nat →
  ∃ ref v', appendValuePayload v c = Ok (ref, v') ∧ values_extend v v' ∧ ValueKinds v' = ValueKinds v ∧ ValueRefs v' = ValueRefs v ∧
    is_u32 ref ∧ decodeRef ks v' (vKind c) ref = Some l ∧
    (length (IntegerValues v') ≤ S n)%nat ∧ (length (BooleanValues v') ≤ S n)%nat ∧ (length (TimestampValues v') ≤ S n)%nat.
Proof.
  intros [Hk Hc] Hn Hks (H1 & H2 & H3). unfold appendValuePayload, decodeRef. rewrite Hk. unfold MaxUint32 in *.
  assert (∀ (col : list Z) x, zlen col < 4294967295 → nth_symbol (col ++ [x]) (u32 (zlen col) + 1) = Some x) as Hlast.
  { intros col x Hlt. rewrite u32_small by (unfold is_u32; lia). by rewrite nth_symbol_app, bool_decide_eq_true_2. }
  destruct l as [b|z|b|z]; cbn [literalKind Z.eqb]; simpl.
  - pose proof (nth_symbol_range _ _ _ Hc) as Hr. rewrite (proj2 (Z.eqb_neq _ _)) by lia. simpl.
    eexists _, v. split; [done|]. rewrite Hc. split; [by repeat split|]. unfold is_u32. split_and!; done || lia.
  - rewrite (proj2 (Z.ltb_lt _ _)) by (unfold MaxUint32; lia). simpl. eexists _, _. split; [done|]. simpl. rewrite Hlast, Hc by lia.
    rewrite u32_small by (unfold is_u32; lia). unfold is_u32. rewrite length_app. simpl. split_and!; try done; try lia. repeat split; try done. by eexists.
  - rewrite (proj2 (Z.ltb_lt _ _)) by (unfold MaxUint32; lia). simpl. eexists _, _. split; [done|]. simpl. rewrite Hlast, Hc by lia.
    rewrite u32_small by (unfold is_u32; lia). unfold is_u32. rewrite length_app. simpl. split_and!; try done; try lia; [repeat split; try done; by eexists|by destruct b].
  - rewrite (proj2 (Z.ltb_lt _ _)) by (unfold MaxUint32; lia). simpl. eexists _, _. split; [done|]. simpl. rewrite Hlast, Hc by lia.
    rewrite u32_small by (unfold is_u32; lia). unfold is_u32. rewrite length_app. simpl. split_and!; try done; try lia. repeat split; try done. by eexists.
Qed.

(** Storing a new literal in the slot its probe sequence ends at. *)
Lemma valued_store ks t lits v' c l ref s h :
  valued ks t lits → carries ks c l → l ∉ lits → valIDs t !! s = Some 0 → reachable (valIDs t) (hash_of l) s →
  values_extend (vals t) v' → ValueKinds v' = ValueKinds (vals t) → ValueRefs v' = ValueRefs (vals t) → is_u32 ref →
  decodeRef ks v' (vKind c) ref = Some l →
  (length (IntegerValues v') ≤ S (length lits))%nat ∧ (length (BooleanValues v') ≤ S (length lits))%nat ∧ (length (TimestampValues v') ≤ S (length lits))%nat →
  valued ks {| valHashes := <[s := h]> (valHashes t); valKinds := <[s := vKind c]> (valKinds t); valRefs := <[s := ref]> (valRefs t);
               valIDs := <[s := zlen lits + 1]> (valIDs t);
               vals := {| ValueKinds := ValueKinds v' ++ [vKind c]; ValueRefs := ValueRefs v' ++ [ref]; IntegerValues := IntegerValues v';
                          BooleanValues := BooleanValues v'; TimestampValues := TimestampValues v' |} |} (lits ++ [l]).
Proof.
  intros [Hd Ht (L1 & L2 & L3) Hs [R1 R2] Hst Hp] Hc Hnew H0 Hr Hext Ek Er Hu Hdec Hlen.
  pose proof (lookup_lt_Some _ _ _ H0) as Hlt. rewrite Ek, Er. split; simpl.
  - by apply NoDup_snoc.
  - by apply table_append.
  - by rewrite !length_insert.
  - intros s' id [(-> & <- & _)|(Hne & Hs')]%list_lookup_insert_Some Hid.
    + rewrite !list_lookup_insert_eq by lia. replace (Z.to_nat (zlen lits + 1 - 1)) with (length lits) by lia.
      rewrite <-R1 at 1. rewrite <-R2. by rewrite !list_lookup_middle.
    + rewrite !list_lookup_insert_ne by done. destruct (Hs s' id Hs' Hid) as [E1 E2].
      destruct (tb_reach _ _ Ht s' id Hs' Hid) as (l' & Hl' & _). apply nth_symbol_range in Hl'.
      by rewrite E1, E2, !lookup_app_l by lia.
  - rewrite !length_app. simpl. lia.
  - intros i l' [Hi|[Hge Hi]]%lookup_app_Some.
    + destruct (Hst i l' Hi) as (kind & rf & K1 & K2 & K3 & K4 & K5). exists kind, rf.
      split_and!; [by apply lookup_app_l_Some|by apply lookup_app_l_Some|done|done|].
      exact (decodeRef_extend ks ks _ v' _ _ _ (reflexivity ks) Hext K5).
    + apply list_lookup_singleton_Some in Hi as [Hi0 ->]. assert (i = length lits) as -> by lia. exists (vKind c), ref.
      split_and!; [by rewrite <-R1, list_lookup_middle|by rewrite <-R2, list_lookup_middle|apply Hc|done|].
      exact Hdec.
  - rewrite length_app. simpl. lia.
Qed.

Lemma internValue_ok ks t lits c l :
  NoDup ks → valued ks t lits → carries ks c l → zlen ks < MaxUint32 → zlen lits < MaxUint32 → zlen lits < zlen (valIDs t) →
  ∃ id t' lits', internValue (hash_of l) c t = Ok (id, t') ∧ valued ks t' lits' ∧ nth_symbol lits' id = Some l ∧
    zlen (valIDs t') = zlen (valIDs t) ∧ lits `prefix_of` lits' ∧ zlen lits' ≤ zlen lits + 1.
Proof.
  intros Hnd Hv Hc Hks Hn Hroom. unfold internValue. rewrite (proj2 (Z.eqb_neq _ 0)) by lia. simpl.
  pose proof (vd_table _ _ _ Hv) as Ht.
  destruct (probe_table _ _ l _ Ht (valueHit_hits _ _ _ _ _ Hnd Hv Hc)) as (r & -> & Hm). simpl. destruct r as [id|slot|].
  - exists id, t, lits. split_and!; done || lia.
  - destruct Hm as (s & -> & H0 & Hr & Hnew). apply nth_symbol_absent in Hnew. destruct (vd_rows _ _ _ Hv) as [R1 R2].
    rewrite (proj2 (Z.ltb_lt _ _)) by lia. simpl.
    destruct (appendValuePayload_ok ks (vals t) c l (length lits)) as (ref & v' & -> & Hext & Ek & Er & Hu & Hdec & Hlen); [done|done|done|apply Hv|].
    simpl. destruct (vd_lens _ _ _ Hv) as (L1 & L2 & L3). pose proof (lookup_lt_Some _ _ _ H0).
    rewrite (put_Ok (valHashes t)), (put_Ok (valKinds t)), (put_Ok (valRefs t)), (put_Ok (valIDs t)) by lia. simpl. rewrite Nat2Z.id.
    replace (u32 (zlen (ValueKinds v') + 1)) with (zlen lits + 1) by (rewrite Ek, R1, u32_small by (unfold is_u32, MaxUint32 in *; lia); done).
    eexists _, _, (lits ++ [l]). split; [done|]. split_and!.
    + by apply valued_store.
    + by rewrite nth_symbol_app, bool_decide_eq_true_2.
    + simpl. by rewrite length_insert.
    + by eexists.
    + rewrite length_app. simpl. lia.
  - destruct Hm as [Hfull _]. exfalso. apply Hfull. apply (table_has_room _ _ (zlen lits) Ht); [|done]. intros id b. apply nth_symbol_range.
Qed.

(** ** Canonicalizing the literals of a document *)

(** Bytes of the spelling of literal [j], and of the first [i] literals. *)
Definition spelled (d : LiteralColumns) (j : nat) : Z :=
  match literalOf d (Z.of_nat j + 1) with Some (LSymbol b) => zlen b | _ => 0 end.
Definition spelledTo (d : LiteralColumns) (i : nat) : Z := foldr Z.add 0 (map (spelled d) (seq 0 i)).

Lemma spelledTo_S d i : spelledTo d (S i) = spelledTo d i + spelled d i.
Proof.
  unfold spelledTo. rewrite seq_S, map_app, foldr_app. simpl. generalize (map (spelled d) (seq 0 i)) as l.
  induction l as [|x l IH]; simpl; lia.
Qed.

Lemma spelled_nonneg d j : 0 ≤ spelled d j.
Proof. unfold spelled. repeat case_match; lia. Qed.

Lemma spelledTo_mono d i j : (i ≤ j)%nat → spelledTo d i ≤ spelledTo d j.
Proof. intros H. induction H as [|j _ IH]; [done|]. rewrite spelledTo_S. pose proof (spelled_nonneg d j). lia. Qed.

(** The state after the first [i] literals: interned spellings [ks], canonical
    literals [lits] and the remap columns of these literals. *)
Record canon (d : LiteralColumns) (ks0 : list bytes) (budget : Z) (slots : Z * Z) (i : nat) (st : constState) (ks : list bytes) (lits : list literal) : Prop := {
  cn_symbols : lowers (symbolHalf st) ks;
  cn_values : valued ks (valueHalf st) lits;
  cn_prefix : ks0 `prefix_of` ks;
  cn_sizes : zlen ks ≤ zlen ks0 + Z.of_nat i ∧ zlen lits ≤ Z.of_nat i ∧ zlen (concat ks) ≤ budget + spelledTo d i;
  cn_slots : (zlen (symIDs (symbolHalf st)), zlen (valIDs (valueHalf st))) = slots;
  cn_remaps : length (valueRemap st) = length (dValueKinds d) ∧ length (symbolRemap st) = length (dValueKinds d);
  cn_done j l : (j < i)%nat → literalOf d (Z.of_nat j + 1) = Some l →
    nth_symbol lits (valueRemap st !!! j) = Some l ∧ ∀ b, l = LSymbol b → nth_symbol ks (symbolRemap st !!! j) = Some b
}.

(** Every literal of the document decodes. *)
Definition literals_ok (d : LiteralColumns) : Prop :=
  length (dValueRefs d) = length (dValueKinds d) ∧ ∀ j, (j < length (dValueKinds d))%nat → is_Some (literalOf d (Z.of_nat j + 1)).

Lemma literalOf_kind d j l :
  length (dValueRefs d) = length (dValueKinds d) → (j < length (dValueKinds d))%nat → literalOf d (Z.of_nat j + 1) = Some l →
  dValueKinds d !!! j = literalKind l ∧
  match l with
  | LSymbol b => SymbolValue d (Z.of_nat j + 1) = Some b
  | LInteger z => IntegerValue d (Z.of_nat j + 1) = Some z
  | LBoolean b => BooleanValue d (Z.of_nat j + 1) = Some b
  | LTimestamp z => TimestampValue d (Z.of_nat j + 1) = Some z
  end.
Proof.
  intros Hl Hj. unfold literalOf, DocValueKind, valueIndex. rewrite (proj2 (Z.eqb_neq _ 0)) by lia.
  rewrite !(proj2 (Z.leb_gt _ _)) by lia. simpl. replace (Z.to_nat (Z.of_nat j + 1 - 1)) with j by lia.
  destruct (Z.eqb_spec (dValueKinds d !!! j) ValueKindSymbol) as [->|]; [by intros (x & E & ->)%fmap_Some|].
  destruct (Z.eqb_spec (dValueKinds d !!! j) ValueKindInteger) as [->|]; [by intros (x & E & ->)%fmap_Some|].
  destruct (Z.eqb_spec (dValueKinds d !!! j) ValueKindBoolean) as [->|]; [by intros (x & E & ->)%fmap_Some|].
  destruct (Z.eqb_spec (dValueKinds d !!! j) ValueKindTimestamp) as [->|]; [by intros (x & E & ->)%fmap_Some|done].
Qed.

Lemma put_remap (col : list Z) i x : (i < length col)%nat → put_ col (Z.of_nat i) x = Ok (<[i := x]> col).
Proof. intros. rewrite put_Ok by lia. by rewrite Nat2Z.id. Qed.

(** What one literal adds: its spelling is interned and the candidate carries it. *)
Record spelling_added (d : LiteralColumns) (i : nat) (l : literal) (c : candidateValue) (st st' : constState) (ks ks' : list bytes) : Prop := {
  sa_carries : carries ks' c l;
  sa_lowers : lowers (symbolHalf st') ks';
  sa_prefix : ks `prefix_of` ks';
  sa_sizes : zlen ks' ≤ zlen ks + 1 ∧ zlen (concat ks') ≤ zlen (concat ks) + spelled d i ∧
    zlen (symIDs (symbolHalf st')) = zlen (symIDs (symbolHalf st));
  sa_values : valueHalf st' = valueHalf st ∧ valueRemap st' = valueRemap st;
  sa_remap : ∃ x, symbolRemap st' = <[i := x]> (symbolRemap st) ∧ ∀ b, l = LSymbol b → nth_symbol ks' x = Some b
}.

Lemma canonicalLiteral_ok d i st ks l :
  length (dValueRefs d) = length (dValueKinds d) → (i < length (dValueKinds d))%nat → literalOf d (Z.of_nat i + 1) = Some l →
  lowers (symbolHalf st) ks → zlen ks < MaxUint32 → zlen ks < zlen (symIDs (symbolHalf st)) → zlen (concat ks) + spelled d i ≤ MaxUint32 →
  length (symbolRemap st) = length (dValueKinds d) →
  ∃ c st' ks', canonicalLiteral d i st = Ok (hash_of l, c, st') ∧ spelling_added d i l c st st' ks ks'.
Proof.
  intros Hl Hi Hlit Hlow Hn Hroom Hbytes Hremap. destruct (literalOf_kind d i l Hl Hi Hlit) as [Hk Hv].
  unfold canonicalLiteral. rewrite Hk. pose proof (spelled_nonneg d i) as Hnn.
  assert (<[i := symbolRemap st !!! i]> (symbolRemap st) = symbolRemap st) as Hsame.
  { apply list_insert_id, list_lookup_lookup_total_lt. lia. }
  destruct l as [b|z|b|z]; simpl; rewrite Hv; simpl.
  2-4: (eexists _, st, ks; split; [done|]; split; try done; [lia|]; exists (symbolRemap st !!! i); by rewrite Hsame).
  assert (spelled d i = zlen b) as Hs by (unfold spelled; by rewrite Hlit). rewrite Hs in *.
  pose proof (internSymbol_ok _ ks b Hlow Hn Hroom ltac:(unfold MaxInt, MaxUint32 in *; lia)) as Hin.
  destruct (internSymbol b (symbolHalf st)) as [[sym l']|e|m]; [|unfold MaxUint32 in *; lia|done]. simpl.
  destruct Hin as (ks' & Hlow' & Hsym & Hz & Hks'). rewrite put_remap by lia. simpl.
  eexists _, _, ks'. split; [done|].
  assert (ks `prefix_of` ks' ∧ zlen ks' ≤ zlen ks + 1 ∧ zlen (concat ks') ≤ zlen (concat ks) + zlen b) as (Hp & Hc1 & Hc2).
  { destruct Hks' as [->|(_ & ->)]; [split_and!; done || lia|]. rewrite concat_app, !length_app. simpl. rewrite app_nil_r. split_and!; [by eexists|lia..]. }
  split; simpl; [done|done|done|rewrite Hs; done|done|]. exists sym. split; [done|]. by intros ? [= <-].
Qed.

Lemma canonicalizeStep_ok d ks0 budget slots i st ks lits :
  literals_ok d → (i < length (dValueKinds d))%nat → canon d ks0 budget slots i st ks lits →
  zlen ks0 + zlen (dValueKinds d) < MaxUint32 → zlen ks0 + zlen (dValueKinds d) < slots.1 → zlen (dValueKinds d) < slots.2 →
  budget + spelledTo d (length (dValueKinds d)) ≤ MaxUint32 →
  ∃ st' ks' lits', canonicalizeStep d i st = Ok st' ∧ canon d ks0 budget slots (S i) st' ks' lits'.
Proof.
  intros [Hl Hall] Hi [Hlow Hval Hp (S1 & S2 & S3) Hslots [R1 R2] Hdone] Hn Hr1 Hr2 Hb. destruct (Hall i Hi) as [l Hlit]. subst slots. simpl in *.
  pose proof (spelledTo_mono d (S i) (length (dValueKinds d)) ltac:(lia)) as Hm. rewrite spelledTo_S in Hm.
  destruct (canonicalLiteral_ok d i st ks l Hl Hi Hlit Hlow) as (c & st1 & ks1 & E1 & [Hc Hlow1 Hp1 (T1 & T2 & T3) [V1 V2] (x & X1 & X2)]); [lia..|].
  unfold canonicalizeStep. rewrite E1. simpl. rewrite V1, V2.
  destruct (internValue_ok ks1 (valueHalf st) lits c l) as (vid & t & lits1 & -> & Hval1 & Hvid & Hz & Hpl & Hnl);
    [apply Hlow1|by eapply valued_extend|done|lia..|].
  simpl. rewrite put_remap by lia. simpl. eexists _, ks1, lits1. split; [done|]. split; simpl.
  - done.
  - done.
  - by etrans.
  - rewrite spelledTo_S. lia.
  - by rewrite T3, Hz.
  - rewrite X1, !length_insert. done.
  - intros j l' Hj Hl'. destruct (decide (j = i)) as [->|Hne].
    + rewrite X1, !list_lookup_total_insert_eq by lia. simplify_eq. done.
    + rewrite X1, !list_lookup_total_insert_ne by done. destruct (Hdone j l' ltac:(lia) Hl') as [D1 D2].
      split; [by eapply nth_symbol_prefix|]. intros b Hb'. by eapply nth_symbol_prefix; [|apply D2].
Qed.

Lemma canonicalizeValues_ok d ks0 budget slots st ks lits :
  literals_ok d → canon d ks0 budget slots 0 st ks lits →
  zlen ks0 + zlen (dValueKinds d) < MaxUint32 → zlen ks0 + zlen (dValueKinds d) < slots.1 → zlen (dValueKinds d) < slots.2 →
  budget + spelledTo d (length (dValueKinds d)) ≤ MaxUint32 →
  ∃ st' ks' lits', canonicalizeValues d st = Ok st' ∧ canon d ks0 budget slots (length (dValueKinds d)) st' ks' lits'.
Proof.
  intros Hok H0 Hn Hr1 Hr2 Hb. unfold canonicalizeValues.
  for_loop (λ i st, ∃ ks lits, canon d ks0 budget slots i st ks lits) as (st' & E & ks' & lits' & Hc).
  - by exists ks, lits.
  - intros i t Hi (ks1 & lits1 & Hc). destruct (canonicalizeStep_ok d ks0 budget slots i t ks1 lits1) as (t' & ks2 & lits2 & E & Hc'); [done..|].
    exists t'. split; [exact E|]. by exists ks2, lits2.
  - by exists st', ks', lits'.
Qed.

(** ** Field names *)

Definition nameBytes (source : Interner.Interner) (name : Z) : bytes := default [] (Interner.Bytes source name).
Definition namesSpelled (source : Interner.Interner) (ns : list Z) : Z := foldr (λ n acc, zlen (nameBytes source n) + acc) 0 ns.

Lemma namesSpelled_app source a b : namesSpelled source (a ++ b) = namesSpelled source a + namesSpelled source b.
Proof. unfold namesSpelled. induction a as [|x a IH]; simpl; lia. Qed.

Lemma namesSpelled_nonneg source a : 0 ≤ namesSpelled source a.
Proof. unfold namesSpelled. induction a as [|x a IH]; simpl; lia. Qed.

(** The state after the first [i] fields. *)
Record fielded (fields : FieldTable) (source : Interner.Interner) (slots : Z) (i : nat) (c : schemaColumns) (l : Lowering) (ks : list bytes) : Prop := {
  fd_lowers : lowers l ks;
  fd_columns : fieldKinds c = take i (kinds fields) ∧ FieldGroups c = take i (groups fields) ∧ length (FieldNames c) = i;
  fd_names j n : (j < i)%nat → names fields !! j = Some n → nth_symbol ks (FieldNames c !!! j) = Some (nameBytes source n);
  fd_sizes : zlen ks ≤ Z.of_nat i ∧ zlen (concat ks) ≤ namesSpelled source (take i (names fields)) ∧ zlen (symIDs l) = slots
}.

Lemma lowerField_ok fields source slots i c l ks :
  Fields.table_ok fields → (∀ n, n ∈ names fields → ∃ b, Interner.Bytes source n = Some b ∧ b ≠ []) →
  (i < length (names fields))%nat → zlen (names fields) < MaxUint32 → zlen (names fields) < slots →
  namesSpelled source (names fields) ≤ MaxUint32 →
  fielded fields source slots i c l ks → ∃ c' l' ks', lowerField fields source i (c, l) = Ok (c', l') ∧ fielded fields source slots (S i) c' l' ks'.
Proof.
  intros Ht Hn Hi Hlim Hslots Hb [Hl (C1 & C2 & C3) Hnames (S1 & S2 & S3)]. destruct (lookup_lt_is_Some_2 _ _ Hi) as [n En].
  destruct (lookup_lt_is_Some_2 (kinds fields) i) as [k Ek]; [by rewrite (Fields.tk_kinds _ Ht)|].
  destruct (lookup_lt_is_Some_2 (groups fields) i) as [g Eg]; [by rewrite (Fields.tk_groups _ Ht)|].
  assert (∀ (col : list Z) x, col !! i = Some x → Fields.column col (Z.of_nat i + 1) = Some x) as Hcol.
  { intros col x E. apply Fields.column_Some. replace (Z.to_nat (Z.of_nat i + 1 - 1)) with i by lia. split; [lia|done]. }
  destruct (Hn n) as (b & Eb & Hne); [by eapply list_elem_of_lookup_2|]. assert (nameBytes source n = b) as Enb by (unfold nameBytes; by rewrite Eb).
  assert (namesSpelled source (take (S i) (names fields)) = namesSpelled source (take i (names fields)) + zlen b) as Hspell.
  { rewrite (take_S_r _ _ _ En), namesSpelled_app. simpl. rewrite Enb. lia. }
  assert (namesSpelled source (take (S i) (names fields)) ≤ MaxUint32) as Hb'.
  { pose proof (namesSpelled_nonneg source (drop (S i) (names fields))). rewrite <-(take_drop (S i) (names fields)), namesSpelled_app in Hb. lia. }
  unfold lowerField, Fields.Name, Fields.KindOf, Fields.GroupOf. rewrite (Hcol _ _ En), (Hcol _ _ Ek), (Hcol _ _ Eg). simpl. rewrite Eb. simpl.
  rewrite bool_decide_eq_false_2 by done. simpl.
  pose proof (internSymbol_ok l ks b Hl ltac:(lia) ltac:(lia) ltac:(unfold MaxInt, MaxUint32 in *; lia)) as Hin.
  destruct (internSymbol b l) as [[sym l']|e|m]; [|lia|done]. simpl. destruct Hin as (ks' & Hl' & Hsym & Hz & Hks').
  assert (ks `prefix_of` ks' ∧ zlen ks' ≤ zlen ks + 1 ∧ zlen (concat ks') ≤ zlen (concat ks) + zlen b) as (Hp & Hc1 & Hc2).
  { destruct Hks' as [->|(_ & ->)]; [split_and!; done || lia|]. rewrite concat_app, !length_app. simpl. rewrite app_nil_r. split_and!; [by eexists|lia..]. }
  eexists _, l', ks'. split; [done|]. split; simpl; [done| | |lia].
  - rewrite C1, C2, length_app, C3, <-!take_S_r by done. simpl. split_and!; done || lia.
  - intros j n' Hj Hn'. destruct (decide (j = i)) as [->|Hne'].
    + assert (n' = n) as -> by congruence. rewrite (list_lookup_total_correct _ _ sym); [by rewrite Enb|]. by rewrite <-C3, list_lookup_middle.
    + rewrite lookup_total_app_l by lia. eapply nth_symbol_prefix; [done|]. apply Hnames; [lia|done].
Qed.

Lemma lowerFieldSchema_ok fields source slots :
  Fields.table_ok fields → (∀ n, n ∈ names fields → ∃ b, Interner.Bytes source n = Some b ∧ b ≠ []) →
  zlen (names fields) < MaxUint32 → zlen (names fields) < slots → 0 < slots → Z.land slots (slots - 1) = 0 →
  namesSpelled source (names fields) ≤ MaxUint32 →
  ∃ c l ks, lowerFieldSchema fields source {| symIDs := make_ slots; dst := noSymbols |} = Ok (c, l) ∧
    fielded fields source slots (length (names fields)) c l ks.
Proof.
  intros Ht Hn Hlim Hslots Hpos Hp2 Hb. unfold lowerFieldSchema.
  for_loop (λ i cl, ∃ ks, fielded fields source slots i cl.1 cl.2 ks) as ([c l] & E & ks & Hc).
  - exists []. split; simpl; [|done|intros; lia|].
    + split; [constructor|by split|]. apply table_ok_fresh; [lia|done].
    + unfold make_. rewrite length_replicate. lia.
  - intros i [c l] Hi (ks & Hc). destruct (lowerField_ok fields source slots i c l ks) as (c' & l' & ks' & E & Hc'); [done..|].
    exists (c', l'). split; [done|]. by exists ks'.
  - by exists c, l, ks.
Qed.
