(* ===== verification/ConstantsMeaning.v ===== *)
(** * What constant lowering preserves

    The constant stage of [Constants] on a document whose literals decode and whose
    names are spelled: it succeeds, every literal is decoded back from its canonical
    value row, equal literals share a row, and every name keeps its spelling. *)

From S2P Require Import Prelude Store Truth Schema Result Program Batch Predicate Evidence SymbolTable Interner Frozen SymbolCheck Ast Constants.

(** The operand of a predicate that a literal stands for, in the symbol namespace
    [find]. *)
Definition literalValue (find : bytes → option Z) (l : literal) : predicateValue :=
  match l with
  | LSymbol b => {| integer := 0; timestamp := 0; symbol := default 0 (find b); boolean := false |}
  | LInteger z => {| integer := z; timestamp := 0; symbol := 0; boolean := false |}
  | LBoolean b => {| integer := 0; timestamp := 0; symbol := 0; boolean := b |}
  | LTimestamp z => {| integer := 0; timestamp := z; symbol := 0; boolean := false |}
  end.

(** A name of a catalog or of the policy: a symbol literal. *)
Definition symbolName (d : LiteralColumns) (id : Z) (b : bytes) : Prop := 0 ≤ id ∧ literalOf d id = Some (LSymbol b).

(** What validation and the builders of documents and schemas establish. *)
Record source_ok (d : Document) (fields : FieldTable) (source : Interner.Interner) : Prop := {
  so_literals : literals_ok d;
  so_fields : Fields.table_ok fields;
  so_names n : n ∈ names fields → ∃ b, Interner.Bytes source n = Some b ∧ b ≠ [];
  so_kinds : length (dEvidenceKindSourceStarts d) = length (dEvidenceKindNames d) ∧ length (dEvidenceKindSourceEnds d) = length (dEvidenceKindNames d) ∧
    zlen (dEvidenceKindNames d) < MaxUint32 ∧ Forall (λ id, ∃ b, symbolName d id b) (dEvidenceKindNames d);
  so_states : length (dEvidenceStateSourceStarts d) = length (dEvidenceStateNames d) ∧ length (dEvidenceStateSourceEnds d) = length (dEvidenceStateNames d) ∧
    zlen (dEvidenceStateNames d) < MaxUint32 ∧ Forall (λ id, ∃ b, symbolName d id b) (dEvidenceStateNames d);
  so_identity : ∃ name version hash, PolicyMetadata d = Some (name, version, hash) ∧ (∃ b, symbolName d name b) ∧ ∃ b, symbolName d version b;
  so_counts : zlen (names fields) + zlen (dValueKinds d) ≤ MaxInt32 / 4;
  so_bytes : namesSpelled source (names fields) + spelledTo d (length (dValueKinds d)) ≤ MaxUint32
}.

(** A value ID of the document in range. *)
Lemma literalOf_range d id l : 0 ≤ id → literalOf d id = Some l → ∃ j, id = Z.of_nat j + 1 ∧ (j < length (dValueKinds d))%nat ∧ (j < length (dValueRefs d))%nat.
Proof.
  intros H0. unfold literalOf, DocValueKind, valueIndex. destruct (Z.eqb_spec id 0); [done|].
  destruct (Z.leb_spec (zlen (dValueKinds d)) (id - 1)); [done|]. destruct (Z.leb_spec (zlen (dValueRefs d)) (id - 1)); [done|].
  intros _. exists (Z.to_nat (id - 1)). lia.
Qed.

Section lowered.
Context (d : Document) (ks0 : list bytes) (budget : Z) (slots : Z * Z) (st : constState) (ks : list bytes) (lits : list literal).
Context (Hc : canon d ks0 budget slots (length (dValueKinds d)) st ks lits) (Hsmall : zlen lits < MaxUint32).

Lemma canonicalValue_ok id l : 0 ≤ id → literalOf d id = Some l →
  ∃ vid, canonicalValue st id = Ok vid ∧ at_ (valueRemap st) (id - 1) = Ok vid ∧ nth_symbol lits vid = Some l.
Proof.
  intros H0 Hl. destruct (literalOf_range d id l H0 Hl) as (j & -> & Hj & _). destruct (cn_remaps _ _ _ _ _ _ _ _ Hc) as [R1 _].
  destruct (cn_done _ _ _ _ _ _ _ _ Hc j l Hj Hl) as [Hv _]. pose proof (nth_symbol_range _ _ _ Hv) as Hr.
  exists (valueRemap st !!! j). replace (Z.of_nat j + 1 - 1) with (Z.of_nat j) by lia.
  assert (at_ (valueRemap st) (Z.of_nat j) = Ok (valueRemap st !!! j)) as Ea by (apply at_nat, list_lookup_lookup_total_lt; lia).
  split; [|done]. unfold canonicalValue. replace (Z.of_nat j + 1 - 1) with (Z.of_nat j) by lia.
  rewrite Ea, (proj2 (Z.eqb_neq _ 0)), (proj2 (Z.ltb_ge _ _)) by lia. simpl. by rewrite (proj2 (Z.eqb_neq _ 0)) by lia.
Qed.

(** The row of a canonical value. *)
Lemma value_row vid l : nth_symbol lits vid = Some l → let v := vals (valueHalf st) in
  1 ≤ vid ≤ zlen (ValueKinds v) ∧ length (ValueRefs v) = length (ValueKinds v) ∧
  ∃ ref, ValueKinds v !! Z.to_nat (vid - 1) = Some (literalKind l) ∧ ValueRefs v !! Z.to_nat (vid - 1) = Some ref ∧ decodeRef ks v (literalKind l) ref = Some l.
Proof.
  intros [H1 Hi]%nth_symbol_Some. simpl. pose proof (cn_values _ _ _ _ _ _ _ _ Hc) as Hv. destruct (vd_rows _ _ _ Hv) as [R1 R2].
  pose proof (lookup_lt_Some _ _ _ Hi). destruct (vd_stored _ _ _ Hv _ _ Hi) as (kind & ref & K1 & K2 & -> & _ & K5).
  split; [lia|]. split; [lia|]. by exists ref.
Qed.

Lemma symbolForValue_ok id b : symbolName d id b → ∃ sym, symbolForValue st id = Ok sym ∧ nth_symbol ks sym = Some b.
Proof.
  intros [H0 Hl]. destruct (canonicalValue_ok id _ H0 Hl) as (vid & _ & Ea & Hv). destruct (value_row vid _ Hv) as (Hr & Hlen & ref & K1 & K2 & K5).
  destruct (literalOf_range d id _ H0 Hl) as (j & -> & Hj & _). destruct (cn_remaps _ _ _ _ _ _ _ _ Hc) as [R1 R2].
  destruct (cn_done _ _ _ _ _ _ _ _ Hc j _ Hj Hl) as [_ Hs]. specialize (Hs b eq_refl).
  unfold decodeRef in K5. simpl in K5. apply fmap_Some in K5 as (b' & Hb & [= <-]).
  assert (ref = symbolRemap st !!! j) as ->.
  { eapply (nth_symbol_inj ks); [apply (lw_distinct _ _ (cn_symbols _ _ _ _ _ _ _ _ Hc))|done|done]. }
  exists (symbolRemap st !!! j). split; [|done]. unfold symbolForValue. rewrite Ea, (proj2 (Z.eqb_neq (Z.of_nat j + 1) 0)), (proj2 (Z.ltb_ge _ _)) by lia.
  simpl. rewrite (proj2 (Z.eqb_neq vid 0)) by lia. simpl. unfold ValueKindOf. rewrite (proj2 (Z.eqb_neq vid 0)) by lia.
  rewrite !(proj2 (Z.leb_gt _ _)) by lia. simpl. rewrite (list_lookup_total_correct _ _ _ K1). simpl.
  assert (at_ (ValueRefs (vals (valueHalf st))) (vid - 1) = Ok (symbolRemap st !!! j)) as -> by (apply at_Ok; split; [lia|done]). simpl. replace (Z.of_nat j + 1 - 1) with (Z.of_nat j) by lia.
  rewrite (at_nat (symbolRemap st) j (symbolRemap st !!! j)) by (apply list_lookup_lookup_total_lt; lia). simpl. by rewrite Z.eqb_refl.
Qed.

Lemma translateCatalogNames_ok ns starts ends :
  length starts = length ns → length ends = length ns → zlen ns < MaxUint32 → Forall (λ id, ∃ b, symbolName d id b) ns →
  ∃ c, translateCatalogNames st ns starts ends = Ok c ∧ catStarts c = starts ∧ catEnds c = ends ∧
    Forall2 (λ id sym, ∃ b, symbolName d id b ∧ nth_symbol ks sym = Some b) ns (catNames c).
Proof.
  intros H1 H2 H3 Hall. unfold translateCatalogNames. rewrite !bool_decide_eq_true_2, (proj2 (Z.ltb_lt _ _)) by done. simpl.
  assert (∃ syms, map_go (symbolForValue st) ns = Ok syms ∧ Forall2 (λ id sym, ∃ b, symbolName d id b ∧ nth_symbol ks sym = Some b) ns syms) as (syms & -> & Hs).
  { clear H1 H2 H3. induction Hall as [|id ns (b & Hb) _ (syms & E & IH)]; [by exists []|]. simpl.
    destruct (symbolForValue_ok id b Hb) as (sym & -> & Hsym). simpl. rewrite E. simpl. exists (sym :: syms). split; [done|]. constructor; [by exists b|done]. }
  simpl. eexists. split; [done|]. done.
Qed.
End lowered.

(** ** Decoding canonical values *)

(** The operand read back from a value row. *)
Lemma decoded_value (p : Program) ks vid l ref (find : bytes → option Z) :
  1 ≤ vid ≤ zlen (ValueKinds p) → length (ValueRefs p) = length (ValueKinds p) →
  ValueKinds p !! Z.to_nat (vid - 1) = Some (literalKind l) → ValueRefs p !! Z.to_nat (vid - 1) = Some ref →
  decodeRef ks p (literalKind l) ref = Some l → (∀ id, frozenKey p id = nth_symbol ks id) → zlen ks = ProgramSymbolCount p →
  (∀ id b, nth_symbol ks id = Some b → find b = Some id) →
  programPredicateValue p vid (literalKind l) = Ok (literalValue find l).
Proof.
  intros Hr Hlen K1 K2 Hd Hkey Hn Hfind. unfold programPredicateValue. rewrite (proj2 (Z.eqb_neq vid 0)) by lia. simpl.
  rewrite !(proj2 (Z.leb_gt _ _)) by lia. rewrite (list_lookup_total_correct _ _ _ K1), Z.eqb_refl. simpl.
  assert (at_ (ValueRefs p) (vid - 1) = Ok ref) as -> by (apply at_Ok; split; [lia|done]). simpl.
  assert (∀ (col : list Z) x, nth_symbol col ref = Some x → (ref =? 0) = false ∧ (zlen col <=? ref - 1) = false ∧ at_ col (ref - 1) = Ok x) as Hcol.
  { intros col x Hx. pose proof (nth_symbol_range _ _ _ Hx). apply nth_symbol_Some in Hx as [? Hx].
    rewrite Z.eqb_neq, Z.leb_gt. split_and!; [lia|lia|]. apply at_Ok. split; [lia|done]. }
  destruct l as [b|z|b|z]; unfold decodeRef in Hd; simpl in Hd |- *.
  - apply fmap_Some in Hd as (b' & Hb & [= <-]). pose proof (nth_symbol_range _ _ _ Hb) as Hrg. rewrite (proj2 (Z.eqb_neq ref 0)) by lia. simpl.
    rewrite (proj2 (Z.ltb_ge _ _)) by lia. simpl. rewrite (Hfind _ _ Hb). simpl.
    pose proof Hb as Hs. rewrite <-Hkey in Hs. apply frozenKey_Some in Hs as [_ ->]. done.
  - apply fmap_Some in Hd as (z' & Hz & [= <-]). destruct (Hcol _ _ Hz) as (-> & -> & ->). done.
  - apply bind_Some in Hd as (x & Hx & (b' & Hb & [= <-])%fmap_Some). destruct (Hcol _ _ Hx) as (-> & -> & E). simpl.
    pose proof E as [_ El]%at_Ok. rewrite (list_lookup_total_correct _ _ _ El), E. unfold storedBoolean in Hb.
    destruct (Z.eqb_spec x 0) as [->|]; [|destruct (Z.eqb_spec x 1) as [->|]; [|done]]; by simplify_eq.
  - apply fmap_Some in Hd as (z' & Hz & [= <-]). destruct (Hcol _ _ Hz) as (-> & -> & ->). done.
Qed.

(** ** The lowered constants *)

Record constants_of (d : Document) (fields : FieldTable) (source : Interner.Interner) (st : constState) (c : Constants) : Prop := {
  co_space : SymbolSpace (findSymbol (cSymbols c)) (Symbol (cSymbols c)) (ProgramSymbolCount (cSymbols c));
  co_valid : symbols_typed (cSymbols c) ∧ validateProgramSymbols (cSymbols c) = Ok tt;
  co_values id l : 0 ≤ id → literalOf d id = Some l → ∃ vid, canonicalValue st id = Ok vid ∧ 1 ≤ vid < MaxUint32 ∧
    ∀ p : Program, symbols p = cSymbols c → values p = cValues c → programPredicateValue p vid (literalKind l) = Ok (literalValue (findSymbol (cSymbols c)) l);
  co_canonical id id' l l' vid vid' : 0 ≤ id → 0 ≤ id' → literalOf d id = Some l → literalOf d id' = Some l' →
    canonicalValue st id = Ok vid → canonicalValue st id' = Ok vid' → (vid = vid' ↔ l = l');
  co_symbols id b : symbolName d id b → ∃ sym, symbolForValue st id = Ok sym ∧ findSymbol (cSymbols c) b = Some sym;
  co_fields : fieldKinds (cFields c) = kinds fields ∧ FieldGroups (cFields c) = groups fields ∧
    Forall2 (λ n sym, ∃ b, Interner.Bytes source n = Some b ∧ findSymbol (cSymbols c) b = Some sym) (names fields) (FieldNames (cFields c));
  co_catalogs : let named id sym := ∃ b, symbolName d id b ∧ findSymbol (cSymbols c) b = Some sym in
    Forall2 named (dEvidenceKindNames d) (catNames (cEvidenceKinds c)) ∧ Forall2 named (dEvidenceStateNames d) (catNames (cEvidenceStates c));
  co_columns : length (ValueRefs (cValues c)) = length (ValueKinds (cValues c)) ∧ Forall is_u32 (ValueRefs (cValues c)) ∧ zlen (ValueKinds (cValues c)) ≤ MaxUint32
}.

Lemma addCounts_ok a b : 0 ≤ a → 0 ≤ b → a + b ≤ MaxInt32 / 4 → addCounts a b = Ok (a + b).
Proof.
  intros Ha Hb Hs. assert (MaxInt32 / 4 < 2 ^ 32) by (by vm_compute). unfold addCounts, MaxUint32.
  rewrite !(u64_small a), !(u64_small b), !(u64_small (a + b)) by (unfold is_u64; lia).
  rewrite (proj2 (Z.leb_gt _ _)), (proj2 (Z.ltb_ge _ _)); [done|lia|]. assert (MaxInt32 / 4 < 4294967295) by (by vm_compute). lia.
Qed.

Lemma lowerConstants_ok d fields source : source_ok d fields source → ∃ st c, lowerConstants d fields source = Ok (st, c) ∧ constants_of d fields source st c.
Proof.
  intros [Hlit Hft Hnm (K1 & K2 & K3 & K4) (T1 & T2 & T3 & T4) (name & version & hash & Hmeta & (bn & Hbn) & (bv & Hbv)) Hcnt Hbytes].
  assert (MaxInt32 / 4 < MaxUint32) as Hq by (by vm_compute). unfold lowerConstants. rewrite bool_decide_eq_true_2 by apply Hlit. simpl.
  rewrite addCounts_ok by lia. simpl. destruct (slotSize_ok (zlen (names fields) + zlen (dValueKinds d)) ltac:(lia)) as ([Z1 _] & Z2 & Z3).
  destruct (slotSize_ok (zlen (dValueKinds d)) ltac:(lia)) as ([Y1 _] & Y2 & Y3).
  set (symSlots := slotSize (zlen (names fields) + zlen (dValueKinds d))) in *. set (valSlots := slotSize (zlen (dValueKinds d))) in *.
  rewrite !(proj2 (Z.eqb_neq _ 0)) by lia. simpl. pose proof (spelledTo_mono d 0 (length (dValueKinds d)) ltac:(lia)) as Hsp0. cbn in Hsp0.
  destruct (lowerFieldSchema_ok fields source symSlots Hft Hnm) as (cols & l & ks0 & -> & [Hl0 (C1 & C2 & C3) Hfn (F1 & F2 & F3)]); [lia..|done|lia|]. simpl.
  rewrite firstn_all in F2. rewrite take_ge in C1, C2 by (rewrite ?(Fields.tk_kinds _ Hft), ?(Fields.tk_groups _ Hft); lia).
  destruct (canonicalizeValues_ok d ks0 (namesSpelled source (names fields)) (symSlots, valSlots)
    {| symbolHalf := l; valueHalf := freshTable valSlots; valueRemap := make_ (zlen (dValueKinds d)); symbolRemap := make_ (zlen (dValueKinds d)) |} ks0 [])
    as (st & ks & lits & -> & Hc); simpl; [done| |lia..|].
  { split; simpl; [done| |done|cbn; lia|unfold make_; rewrite F3, length_replicate; f_equal; lia|unfold make_; rewrite length_replicate, Nat2Z.id; done|intros; lia].
    split; simpl; [apply NoDup_nil_2|apply table_ok_fresh; [lia|done]|done| |done|intros i ?; by rewrite lookup_nil|lia].
    unfold make_. intros s id [-> _]%lookup_replicate. done. }
  destruct (cn_sizes _ _ _ _ _ _ _ _ Hc) as (S1 & S2 & S3).
  destruct (translateCatalogNames_ok d _ _ _ _ _ _ Hc _ _ _ K1 K2 K3 K4) as (ck & Eck & _ & _ & Hck).
  destruct (translateCatalogNames_ok d _ _ _ _ _ _ Hc _ _ _ T1 T2 T3 T4) as (cs & Ecs & _ & _ & Hcs).
  unfold lowerCatalogNames. rewrite Eck. simpl. rewrite Ecs. simpl. unfold lowerPolicyIdentity. rewrite Hmeta. simpl.
  destruct (symbolForValue_ok d _ _ _ _ _ _ Hc _ _ Hbn) as (sn & -> & _). simpl.
  destruct (symbolForValue_ok d _ _ _ _ _ _ Hc _ _ Hbv) as (sv & -> & _). simpl.
  pose proof (cn_symbols _ _ _ _ _ _ _ _ Hc) as Hlow.
  destruct (frozen_slab (dst (symbolHalf st)) ks) as (fz & -> & Hspace & Hty & Hval & Hpc & Hkey & Hfind); [apply Hlow|apply Hlow|lia|]. simpl.
  eexists st, _. split; [done|]. split; simpl; [done|done| | | | | |].
  - intros id lt H0 Hl. destruct (canonicalValue_ok d _ _ _ _ _ _ Hc id lt H0 Hl) as (vid & Ev & _ & Hv).
    destruct (value_row d _ _ _ _ _ _ Hc vid lt Hv) as (Hr & Hlen & ref & V1 & V2 & V3). pose proof (nth_symbol_range _ _ _ Hv).
    exists vid. split_and!; [done|lia|lia|]. intros p Es Evs. eapply (decoded_value p ks vid lt ref); rewrite ?Es, ?Evs; done.
  - intros id id' lt lt' vid vid' H0 H0' Hl Hl' Ev Ev'. destruct (canonicalValue_ok d _ _ _ _ _ _ Hc id lt H0 Hl) as (v1 & E1 & _ & N1).
    destruct (canonicalValue_ok d _ _ _ _ _ _ Hc id' lt' H0' Hl') as (v2 & E2 & _ & N2).
    assert (v1 = vid) as -> by congruence. assert (v2 = vid') as -> by congruence. split; [intros ->; congruence|].
    intros ->. by eapply (nth_symbol_inj lits); [apply (vd_distinct _ _ _ (cn_values _ _ _ _ _ _ _ _ Hc))|..].
  - intros id b Hb. destruct (symbolForValue_ok d _ _ _ _ _ _ Hc _ _ Hb) as (sym & E & Hsym). exists sym. split; [done|]. by apply Hfind.
  - split; [done|]. split; [done|]. apply Forall2_same_length_lookup. split; [lia|]. intros i n sym En Esym.
    destruct (Hnm n) as (b & Eb & _); [by eapply list_elem_of_lookup_2|]. exists b. split; [done|]. apply Hfind.
    pose proof (Hfn i n ltac:(by eapply lookup_lt_Some) En) as Hi. rewrite (list_lookup_total_correct _ _ _ Esym) in Hi. unfold nameBytes in Hi. rewrite Eb in Hi.
    eapply nth_symbol_prefix; [|exact Hi]. apply Hc.
  - split; (eapply Forall2_impl; [eassumption|]; intros id sym (b & Hb & Hsym); exists b; split; [done|]; by apply Hfind).
  - destruct (cn_values _ _ _ _ _ _ _ _ Hc) as [_ _ _ _ [V1 V2] Vs _]. split; [lia|]. split; [|lia].
    apply Forall_lookup. intros i ref Hi. destruct (lookup_lt_is_Some_2 lits i) as [lt Hl]; [apply lookup_lt_Some in Hi; lia|].
    destruct (Vs i lt Hl) as (kind & ref' & _ & Hr & _ & Hu & _). congruence.
Qed.

(** ** Property *)

