(* ===== verification/Normalize.v ===== *)
(** * Instruction lowering

    compile/normalize_instructions.go and the instruction stage of compile/lower.go.
    A depth-first walk over the expression graph of a document interns one candidate
    instruction per distinct expression: nested groups of one kind are flattened and
    structurally equal candidates share a row.  Rows that no root reaches are then
    dropped, the rest is compacted, and the map from source nodes to instructions is
    built.  Candidate columns are the instruction columns of a program under
    construction. *)

From S2P Require Import Prelude Store Truth Schema Result Program Batch Predicate Evidence Executor PolicyIndex Finalize Execute.
From S2P Require Import Liveness Schedule SymbolTable Interner Frozen SymbolCheck Ast Constants.

(** ** Candidates *)

Record instructionCandidate := {
  xOpcode : Z; xField : Z; xValue : Z; xListStart : Z; xListCount : Z; xOperandStart : Z; xOperandCount : Z;
  xEvidenceKind : Z; xEvidenceState : Z; xEvidenceSubject : Z; xEvidenceScope : Z; xEvidenceTiming : Z
}.

Definition blankCandidate (opcode : Z) : instructionCandidate :=
  {| xOpcode := opcode; xField := 0; xValue := 0; xListStart := 0; xListCount := 0; xOperandStart := 0; xOperandCount := 0;
     xEvidenceKind := 0; xEvidenceState := 0; xEvidenceSubject := 0; xEvidenceScope := 0; xEvidenceTiming := 0 |}.

Definition mixInstructionHash (hash value : Z) : Z :=
  let hash := Z.lxor hash (u64 (value + 0x9e3779b97f4a7c15 + u64 (Z.shiftl hash 6) + Z.shiftr hash 2)) in
  let hash := Z.lxor hash (Z.shiftr hash 30) in
  let hash := u64 (hash * 0xbf58476d1ce4e5b9) in
  Z.lxor hash (Z.shiftr hash 27).

(** Mixing the entries [values[start .. start+count)]. *)
Definition mixRange (values : list Z) (start count hash : Z) : go Z :=
  fold_go (λ i hash, v ← at_ values (u32 (start + Z.of_nat i)); Ok (mixInstructionHash hash v)) (seq 0 (Z.to_nat count)) hash.

Definition candidateHash (c : InstructionColumns) (x : instructionCandidate) : go Z :=
  let hash := foldl mixInstructionHash 0x6a09e667f3bcc909
    [xOpcode x; xField x; xValue x; xEvidenceKind x; xEvidenceState x; xEvidenceSubject x; xEvidenceScope x; xEvidenceTiming x; xListCount x] in
  hash ← mixRange (ListValues c) (xListStart x) (xListCount x) hash;
  mixRange (Operands c) (xOperandStart x) (xOperandCount x) (mixInstructionHash hash (xOperandCount x)).

(** [equalValueRange] and [equalInstructionRange]. *)
Fixpoint equalFrom (values : list Z) (a b : Z) (n : nat) : go bool :=
  match n with
  | O => Ok true
  | S n => x ← at_ values a; y ← at_ values b; if x =? y then equalFrom values (u32 (a + 1)) (u32 (b + 1)) n else Ok false
  end.

Definition equalRange (values : list Z) (a ac b bc : Z) : go bool := if negb (ac =? bc) then Ok false else equalFrom values a b (Z.to_nat ac).

(** Go's [&&] on operands that may panic. *)
Definition andThen (a b : go bool) : go bool := x ← a; if (x : bool) then b else Ok false.

Definition candidateEqual (c : InstructionColumns) (id : Z) (x : instructionCandidate) : go bool :=
  let index := id - 1 in
  let same col want := got ← at_ col index; Ok (got =? want) in
  if (index <? 0) || (zlen (Opcodes c) <=? index) then Ok false else
  andThen (same (Opcodes c) (xOpcode x)) (andThen (same (Fields c) (xField x)) (andThen (same (Values c) (xValue x))
    (andThen (same (EvidenceKinds c) (xEvidenceKind x)) (andThen (same (EvidenceStates c) (xEvidenceState x))
    (andThen (same (EvidenceSubjects c) (xEvidenceSubject x)) (andThen (same (EvidenceScopes c) (xEvidenceScope x))
    (andThen (same (EvidenceTimings c) (xEvidenceTiming x))
    (andThen
      (start ← at_ (ListStarts c) index; count ← at_ (ListCounts c) index; equalRange (ListValues c) start count (xListStart x) (xListCount x))
      (start ← at_ (OperandStarts c) index; count ← at_ (OperandCounts c) index;
       equalRange (Operands c) start count (xOperandStart x) (xOperandCount x)))))))))).

(** ** The lowerer's instruction scratch *)

Record Normalizer := {
  nodeCanon : list Z;
  nodeState : list Z;
  nodeRoots : list Z;
  nodeFlatStart : list Z;
  nodeFlatCount : list Z;
  cand : InstructionColumns;
  candidateHashes : list Z;
  candidateIDs : list Z
}.

Definition with_cand (st : Normalizer) (c : InstructionColumns) : Normalizer :=
  {| nodeCanon := nodeCanon st; nodeState := nodeState st; nodeRoots := nodeRoots st; nodeFlatStart := nodeFlatStart st;
     nodeFlatCount := nodeFlatCount st; cand := c; candidateHashes := candidateHashes st; candidateIDs := candidateIDs st |}.

Definition with_state (st : Normalizer) (states : list Z) : Normalizer :=
  {| nodeCanon := nodeCanon st; nodeState := states; nodeRoots := nodeRoots st; nodeFlatStart := nodeFlatStart st;
     nodeFlatCount := nodeFlatCount st; cand := cand st; candidateHashes := candidateHashes st; candidateIDs := candidateIDs st |}.

(** A new candidate row. *)
Definition appendRow (c : InstructionColumns) (x : instructionCandidate) (flags node start end_ : Z) : InstructionColumns :=
  {| Opcodes := Opcodes c ++ [xOpcode x]; Fields := Fields c ++ [xField x]; Values := Values c ++ [xValue x];
     ListStarts := ListStarts c ++ [xListStart x]; ListCounts := ListCounts c ++ [xListCount x];
     OperandStarts := OperandStarts c ++ [xOperandStart x]; OperandCounts := OperandCounts c ++ [xOperandCount x];
     EvidenceKinds := EvidenceKinds c ++ [xEvidenceKind x]; EvidenceStates := EvidenceStates c ++ [xEvidenceState x];
     EvidenceSubjects := EvidenceSubjects c ++ [xEvidenceSubject x]; EvidenceScopes := EvidenceScopes c ++ [xEvidenceScope x];
     EvidenceTimings := EvidenceTimings c ++ [xEvidenceTiming x]; RootFlags := RootFlags c ++ [flags];
     InstructionNodes := InstructionNodes c ++ [node]; InstructionSourceStarts := InstructionSourceStarts c ++ [start];
     InstructionSourceEnds := InstructionSourceEnds c ++ [end_]; ListValues := ListValues c; Operands := Operands c;
     NodeInstructionStarts := NodeInstructionStarts c; NodeInstructionCounts := NodeInstructionCounts c; NodeInstructionIDs := NodeInstructionIDs c;
     OpcodeRunOpcodes := OpcodeRunOpcodes c; OpcodeRunStarts := OpcodeRunStarts c; OpcodeRunCounts := OpcodeRunCounts c |}.

(** Columns with other lists, operands and root flags. *)
Definition with_pools (c : InstructionColumns) (lists operands flags : list Z) : InstructionColumns :=
  {| Opcodes := Opcodes c; Fields := Fields c; Values := Values c; ListStarts := ListStarts c; ListCounts := ListCounts c;
     OperandStarts := OperandStarts c; OperandCounts := OperandCounts c; EvidenceKinds := EvidenceKinds c; EvidenceStates := EvidenceStates c;
     EvidenceSubjects := EvidenceSubjects c; EvidenceScopes := EvidenceScopes c; EvidenceTimings := EvidenceTimings c; RootFlags := flags;
     InstructionNodes := InstructionNodes c; InstructionSourceStarts := InstructionSourceStarts c; InstructionSourceEnds := InstructionSourceEnds c;
     ListValues := lists; Operands := operands; NodeInstructionStarts := NodeInstructionStarts c;
     NodeInstructionCounts := NodeInstructionCounts c; NodeInstructionIDs := NodeInstructionIDs c;
     OpcodeRunOpcodes := OpcodeRunOpcodes c; OpcodeRunStarts := OpcodeRunStarts c; OpcodeRunCounts := OpcodeRunCounts c |}.

Definition candidateHit (st : Normalizer) (hash : Z) (x : instructionCandidate) (slot id : Z) : go bool :=
  stored ← at_ (candidateHashes st) slot;
  if stored =? hash then candidateEqual (cand st) id x else Ok false.

Definition appendCandidate (node : Z) (span : Z * Z) (x : instructionCandidate) (st : Normalizer) : go (Z * Normalizer) :=
  let c := cand st in
  let n := zlen (candidateIDs st) in
  check (negb ((n =? 0) || (MaxUint32 <=? zlen (Opcodes c)))) ErrProgramTooLarge ;;
  hash ← candidateHash c x;
  r ← probeFrom (candidateIDs st) (candidateHit st hash x) (length (candidateIDs st)) (Z.land hash (n - 1));
  match r with
  | Full => Err ErrProgramTooLarge
  | Empty slot =>
      let id := u32 (zlen (Opcodes c) + 1) in
      flags ← at_ (nodeRoots st) (node - 1);
      hashes ← put_ (candidateHashes st) slot hash;
      ids ← put_ (candidateIDs st) slot id;
      Ok (id, {| nodeCanon := nodeCanon st; nodeState := nodeState st; nodeRoots := nodeRoots st; nodeFlatStart := nodeFlatStart st;
                 nodeFlatCount := nodeFlatCount st; cand := appendRow c x flags node span.1 span.2; candidateHashes := hashes; candidateIDs := ids |})
  | Found id =>
      flags ← at_ (nodeRoots st) (node - 1);
      old ← at_ (RootFlags c) (id - 1);
      all ← put_ (RootFlags c) (id - 1) (Z.lor old flags);
      Ok (id, with_cand st (with_pools c (ListValues c) (Operands c) all))
  end.

(** ** Candidates of nodes *)

Definition compareOpcode (op : Z) : option Z :=
  if op =? CompareOpEqual then Some OpcodeEqual
  else if op =? CompareOpNotEqual then Some OpcodeNotEqual
  else if op =? CompareOpIn then Some OpcodeIn
  else if op =? CompareOpExists then Some OpcodeExists
  else if op =? CompareOpLess then Some OpcodeLess
  else if op =? CompareOpLessEqual then Some OpcodeLessEqual
  else if op =? CompareOpGreater then Some OpcodeGreater
  else if op =? CompareOpGreaterEqual then Some OpcodeGreaterEqual
  else if op =? CompareOpDefined then Some OpcodeDefined
  else None.

Section stage.
Context (k : constState) (d : Document).

Definition appendCanonicalList (node : Z) (st : Normalizer) : go (Z * Z * Normalizer) :=
  let c := cand st in
  vs ← orErr (InValues d node) ErrInvalidDocument;
  check (zlen vs <=? MaxUint16) ErrProgramTooLarge ;;
  check (u64 (zlen (ListValues c) + zlen vs) <=? MaxUint32) ErrProgramTooLarge ;;
  canonical ← map_go (canonicalValue k) vs;
  Ok (u32 (zlen (ListValues c)), zlen vs, with_cand st (with_pools c (ListValues c ++ canonical) (Operands c) (RootFlags c))).

(** One child of a group: the operands of a child group of the same kind, or the
    child's instruction. *)
Definition appendChild (st : Normalizer) (kind child : Z) (acc : Z * list Z) : go (Z * list Z) :=
  let '(count, operands) := acc in
  childKind ← orErr (Kind d child) ErrInvalidDocument;
  if childKind =? kind then
    childStart ← at_ (nodeFlatStart st) (child - 1);
    childCount ← at_ (nodeFlatCount st) (child - 1);
    check (negb ((childCount =? 0) || (zlen operands <? u64 (childStart + childCount)))) ErrInvalidDocument ;;
    let count := u64 (count + childCount) in
    check (negb ((MaxUint16 <? count) || (MaxUint32 <? u64 (zlen operands + childCount)))) ErrProgramTooLarge ;;
    flat ← slice_ operands childStart (u32 (childStart + childCount));
    Ok (count, operands ++ flat)
  else
    canonical ← at_ (nodeCanon st) (child - 1);
    check (negb (canonical =? 0)) ErrInvalidDocument ;;
    let count := u64 (count + 1) in
    check (negb ((MaxUint16 <? count) || (MaxUint32 <? u64 (zlen operands + 1)))) ErrProgramTooLarge ;;
    Ok (count, operands ++ [canonical]).

Definition appendGroupOperands (node kind : Z) (st : Normalizer) : go (Z * Z * Normalizer) :=
  let c := cand st in
  children ← orErr (GroupChildren d node) ErrInvalidDocument;
  check (negb (bool_decide (children = []))) ErrInvalidDocument ;;
  check (zlen (Operands c) <=? MaxUint32) ErrProgramTooLarge ;;
  '(count, operands) ← fold_go (appendChild st kind) children (0, Operands c);
  Ok (u32 (zlen (Operands c)), count, with_cand st (with_pools c (ListValues c) operands (RootFlags c))).

Definition with_flat (st : Normalizer) (starts counts : list Z) : Normalizer :=
  {| nodeCanon := nodeCanon st; nodeState := nodeState st; nodeRoots := nodeRoots st; nodeFlatStart := starts;
     nodeFlatCount := counts; cand := cand st; candidateHashes := candidateHashes st; candidateIDs := candidateIDs st |}.

(** The candidate of a node, with its list values or operands appended. *)
Definition candidateOf (node kind : Z) (st : Normalizer) : go (instructionCandidate * Normalizer) :=
  let c := cand st in
  if kind =? NodeKindBoolean then
    value ← orErr (Boolean d node) ErrInvalidDocument;
    canonical ← canonicalValue k value;
    let x := blankCandidate OpcodeBoolean in
    Ok ({| xOpcode := xOpcode x; xField := 0; xValue := canonical; xListStart := 0; xListCount := 0; xOperandStart := 0; xOperandCount := 0;
           xEvidenceKind := 0; xEvidenceState := 0; xEvidenceSubject := 0; xEvidenceScope := 0; xEvidenceTiming := 0 |}, st)
  else if kind =? NodeKindCompare then
    '(field, op, value) ← orErr (Compare d node) ErrInvalidDocument;
    opcode ← orErr (compareOpcode op) ErrInvalidDocument;
    if op =? CompareOpIn then
      '(start, count, st) ← appendCanonicalList node st;
      Ok ({| xOpcode := opcode; xField := field; xValue := 0; xListStart := start; xListCount := count; xOperandStart := 0; xOperandCount := 0;
             xEvidenceKind := 0; xEvidenceState := 0; xEvidenceSubject := 0; xEvidenceScope := 0; xEvidenceTiming := 0 |}, st)
    else
      canonical ← (if negb (value =? 0) then canonicalValue k value else Ok 0);
      Ok ({| xOpcode := opcode; xField := field; xValue := canonical; xListStart := 0; xListCount := 0; xOperandStart := 0; xOperandCount := 0;
             xEvidenceKind := 0; xEvidenceState := 0; xEvidenceSubject := 0; xEvidenceScope := 0; xEvidenceTiming := 0 |}, st)
  else if isGroupKind kind then
    '(start, count, st) ← appendGroupOperands node kind st;
    starts ← put_ (nodeFlatStart st) (node - 1) start;
    counts ← put_ (nodeFlatCount st) (node - 1) count;
    Ok ({| xOpcode := if kind =? NodeKindAll then OpcodeAll else OpcodeAny; xField := 0; xValue := 0; xListStart := 0; xListCount := 0;
           xOperandStart := start; xOperandCount := count;
           xEvidenceKind := 0; xEvidenceState := 0; xEvidenceSubject := 0; xEvidenceScope := 0; xEvidenceTiming := 0 |}, with_flat st starts counts)
  else if kind =? NodeKindNot then
    child ← orErr (NotChild d node) ErrInvalidDocument;
    check (u64 (zlen (Operands c) + 1) <=? MaxUint32) ErrProgramTooLarge ;;
    operand ← at_ (nodeCanon st) (child - 1);
    check (negb (operand =? 0)) ErrInvalidDocument ;;
    Ok ({| xOpcode := OpcodeNot; xField := 0; xValue := 0; xListStart := 0; xListCount := 0; xOperandStart := u32 (zlen (Operands c)); xOperandCount := 1;
           xEvidenceKind := 0; xEvidenceState := 0; xEvidenceSubject := 0; xEvidenceScope := 0; xEvidenceTiming := 0 |},
        with_cand st (with_pools c (ListValues c) (Operands c ++ [operand]) (RootFlags c)))
  else if kind =? NodeKindEvidence then
    q ← orErr (EvidenceMatch d node) ErrInvalidDocument;
    subject ← optionalSymbolForValue k (qSubject q);
    scope ← optionalSymbolForValue k (qScope q);
    timing ← optionalSymbolForValue k (qTiming q);
    Ok ({| xOpcode := OpcodeEvidence; xField := 0; xValue := 0; xListStart := 0; xListCount := 0; xOperandStart := 0; xOperandCount := 0;
           xEvidenceKind := qKind q; xEvidenceState := qState q; xEvidenceSubject := subject; xEvidenceScope := scope; xEvidenceTiming := timing |}, st)
  else Err ErrInvalidDocument.

Definition internInstructionCandidate (node : Z) (st : Normalizer) : go Normalizer :=
  kind ← orErr (Kind d node) ErrInvalidDocument;
  span ← orErr (Span d node) ErrInvalidDocument;
  '(x, st) ← candidateOf node kind st;
  '(id, st) ← appendCandidate node span x st;
  canon ← put_ (nodeCanon st) (node - 1) id;
  Ok {| nodeCanon := canon; nodeState := nodeState st; nodeRoots := nodeRoots st; nodeFlatStart := nodeFlatStart st;
        nodeFlatCount := nodeFlatCount st; cand := cand st; candidateHashes := candidateHashes st; candidateIDs := candidateIDs st |}.

(** ** The walk (lower.go) *)

Definition nodeGray : Z := 1.
Definition nodeBlack : Z := 2.

Definition edgeCount (node : Z) : go Z :=
  kind ← orErr (Kind d node) ErrInvalidDocument;
  if kind =? NodeKindNot then Ok 1
  else if isGroupKind kind then '(_, count) ← orErr (GroupRange d node) ErrInvalidDocument; Ok count
  else Ok 0.

Definition childAt (node j : Z) : go Z :=
  kind ← orErr (Kind d node) ErrInvalidDocument;
  if kind =? NodeKindNot then orErr (NotChild d node) ErrInvalidDocument
  else if isGroupKind kind then
    children ← orErr (GroupChildren d node) ErrInvalidDocument;
    check (j <? zlen children) ErrInvalidDocument ;;
    at_ children j
  else Err ErrInvalidDocument.

(** One iteration on the frame [(node, next)] at the top of the stack. *)
Definition walkStep (frame : Z * Z) (rest : list (Z * Z)) (st : Normalizer) : go (list (Z * Z) * Normalizer) :=
  let '(node, next) := frame in
  count ← edgeCount node;
  if next <? count then
    child ← childAt node next;
    let frame := (node, u32 (next + 1)) in
    state ← at_ (nodeState st) (child - 1);
    check (Z.land state nodeGray =? 0) ErrInvalidDocument ;;
    if Z.land state nodeBlack =? 0 then
      states ← put_ (nodeState st) (child - 1) (Z.lor state nodeGray);
      Ok ((child, 0) :: frame :: rest, with_state st states)
    else Ok (frame :: rest, st)
  else
    st ← internInstructionCandidate node st;
    states ← put_ (nodeState st) (node - 1) nodeBlack;
    Ok (rest, with_state st states).

(** The loop; [None] when it takes more than [fuel] iterations. *)
Fixpoint walk (fuel : nat) (stack : list (Z * Z)) (st : Normalizer) : option (go Normalizer) :=
  match stack with
  | [] => Some (Ok st)
  | frame :: rest =>
      match fuel with
      | O => None
      | S fuel =>
          match walkStep frame rest st with
          | Ok (stack, st) => walk fuel stack st
          | Err e => Some (Err e)
          | Panic msg => Some (Panic msg)
          end
      end
  end.

(** The edges of a node, and the iterations a walk can take: one per edge and one
    per node. *)
Definition edges (node : Z) : nat := match edgeCount node with Ok n => Z.to_nat n | _ => 0 end.
Definition walkFuel : nat := foldr (λ i n, S (edges (Z.of_nat i + 1)) + n)%nat 0%nat (seq 0 (length (dNodeKinds d))).

Definition walkRoot (root : Z) (st : Normalizer) : go Normalizer :=
  state ← at_ (nodeState st) (root - 1);
  if negb (Z.land state nodeBlack =? 0) then Ok st else
  states ← put_ (nodeState st) (root - 1) (Z.lor state nodeGray);
  default (Panic "walk does not end") (walk walkFuel [(root, 0)] (with_state st states)).

(** ** Roots *)

Definition markRoots (nodeCount flag : Z) (roots : list Z) (flags : list Z) : go (list Z) :=
  fold_go (λ root flags,
    check (negb ((root =? 0) || (nodeCount <? root))) ErrInvalidDocument ;;
    old ← at_ flags (root - 1);
    put_ flags (root - 1) (Z.lor old flag)) roots flags.

Definition markRootFlags (nodeCount : Z) (flags : list Z) : go (list Z) :=
  flags ← markRoots nodeCount RootApplicability (dRequirementApplicabilityRoots d) flags;
  flags ← markRoots nodeCount RootAssertion (dClauseAssertionRoots d) flags;
  markRoots nodeCount RootEvidence (dClauseEvidenceNodeIDs d) flags.

(** The insertion sort: [x] goes behind the entries of the sorted prefix that are
    not larger. *)
Fixpoint insertRoot (x : Z) (sorted : list Z) : list Z :=
  match sorted with
  | [] => [x]
  | y :: sorted => if x <? y then x :: y :: sorted else y :: insertRoot x sorted
  end.

(** Dropping an entry equal to its predecessor. *)
Fixpoint compactRoots (l : list Z) : list Z :=
  match l with
  | x :: ((y :: _) as rest) => if x =? y then compactRoots rest else x :: compactRoots rest
  | l => l
  end.

Definition collectRoots : list Z :=
  compactRoots (foldl (λ sorted x, insertRoot x sorted) []
    (dRequirementApplicabilityRoots d ++ dClauseAssertionRoots d ++ dClauseEvidenceNodeIDs d)).
End stage.
