(* ===== verification/Compact.v ===== *)
(** * Compaction of candidate instructions

    The second half of compile/normalize_instructions.go: liveness from the roots,
    compaction of the live candidates in their topological order, and the map from
    source nodes to instructions; then the whole stage [lowerInstructions]. *)

From S2P Require Import Prelude Store Truth Schema Result Program Batch Predicate Evidence Executor PolicyIndex Finalize Execute.
From S2P Require Import Liveness Schedule SymbolTable Interner Frozen SymbolCheck Ast Constants Normalize.

(** ** Liveness *)

(** One candidate, visited from the last to the first. *)
Definition markCandidate (c : InstructionColumns) (i : nat) (live : list Z) : go (list Z) :=
  let count := zlen (Opcodes c) in
  l ← at_ live (Z.of_nat i);
  if l =? 0 then Ok live else
  start ← at_ (OperandStarts c) (Z.of_nat i);
  n ← at_ (OperandCounts c) (Z.of_nat i);
  let end_ := u64 (start + n) in
  check (end_ <=? zlen (Operands c)) ErrInvalidDocument ;;
  operands ← slice_ (Operands c) start (u32 end_);
  fold_go (λ operand live,
    check (negb ((operand =? 0) || (count <? operand))) ErrInvalidDocument ;;
    put_ live (operand - 1) 1) operands live.

Definition markLiveCandidates (c : InstructionColumns) : go (list Z) :=
  let count := length (Opcodes c) in
  live ← for_range (length (RootFlags c)) (λ i live,
    flags ← at_ (RootFlags c) (Z.of_nat i);
    if negb (flags =? 0) then put_ live (Z.of_nat i) 1 else Ok live) (make_ (Z.of_nat count));
  for_range count (λ j live, markCandidate c (count - 1 - j) live) live.

(** ** Numbering and packing of the live rows *)

Record numbering := { toFinal : list Z; liveCount : Z; listTotal : Z; operandTotal : Z }.

Definition numberRow (c : InstructionColumns) (live : list Z) (i : nat) (s : numbering) : go numbering :=
  l ← at_ live (Z.of_nat i);
  if l =? 0 then Ok s else
  final ← put_ (toFinal s) (Z.of_nat i) (u32 (liveCount s + 1));
  lists ← at_ (ListCounts c) (Z.of_nat i);
  operands ← at_ (OperandCounts c) (Z.of_nat i);
  Ok {| toFinal := final; liveCount := liveCount s + 1; listTotal := u64 (listTotal s + lists); operandTotal := u64 (operandTotal s + operands) |}.

Definition numberRows (c : InstructionColumns) (live : list Z) : go numbering :=
  for_range (length (Opcodes c)) (numberRow c live)
    {| toFinal := make_ (zlen (Opcodes c)); liveCount := 0; listTotal := 0; operandTotal := 0 |}.

(** The operands of one row under their final IDs. *)
Definition finalOperand (final : list Z) (old : Z) : go Z :=
  check (negb ((old =? 0) || (zlen final <? old))) ErrInvalidDocument ;;
  id ← at_ final (old - 1);
  check (negb (id =? 0)) ErrInvalidDocument ;;
  Ok id.

(** The list and operand ranges of live candidate [i], written as row [row]. *)
Definition compactRow (c : InstructionColumns) (final : list Z) (row : nat) (i : Z) (st : packState) : go packState :=
  listStart ← at_ (ListStarts c) i;
  listCount ← at_ (ListCounts c) i;
  check (u64 (listStart + listCount) <=? zlen (ListValues c)) ErrInvalidDocument ;;
  '(listStarts, listValues, listPos) ← (if negb (listCount =? 0) then
      starts ← put_ (kListStarts st) (Z.of_nat row) (kListPos st);
      src ← slice_ (ListValues c) listStart (u32 (listStart + listCount));
      vals ← copyAt (kListValues st) (kListPos st) src;
      Ok (starts, vals, u32 (kListPos st + listCount))
    else Ok (kListStarts st, kListValues st, kListPos st));
  operandStart ← at_ (OperandStarts c) i;
  operandCount ← at_ (OperandCounts c) i;
  check (u64 (operandStart + operandCount) <=? zlen (Operands c)) ErrInvalidDocument ;;
  operandStarts ← (if negb (operandCount =? 0) then put_ (kOperandStarts st) (Z.of_nat row) (kOperandPos st) else Ok (kOperandStarts st));
  operands ← slice_ (Operands c) operandStart (u32 (operandStart + operandCount));
  '(packed, operandPos) ← fold_go (λ old acc,
    let '(packed, pos) := acc in
    id ← finalOperand final old;
    packed ← put_ packed pos id;
    Ok (packed, u32 (pos + 1))) operands (kOperands st, kOperandPos st);
  Ok {| kListStarts := listStarts; kListValues := listValues; kListPos := listPos;
        kOperandStarts := operandStarts; kOperands := packed; kOperandPos := operandPos |}.

(** The live candidates in order. *)
Definition liveRows (live : list Z) : list nat := filter (λ i, live !!! i ≠ 0) (seq 0 (length live)).

(** The compacted columns. *)
Definition compactColumns (c : InstructionColumns) (live : list Z) (s : numbering) : go InstructionColumns :=
  let rows := map Z.of_nat (liveRows live) in
  let n := zlen rows in
  opcodes ← gather (Opcodes c) rows;
  fields ← gather (Fields c) rows;
  vals ← gather (Values c) rows;
  evidenceKinds ← gather (EvidenceKinds c) rows;
  evidenceStates ← gather (EvidenceStates c) rows;
  subjects ← gather (EvidenceSubjects c) rows;
  scopes ← gather (EvidenceScopes c) rows;
  timings ← gather (EvidenceTimings c) rows;
  rootFlags ← gather (RootFlags c) rows;
  nodes ← gather (InstructionNodes c) rows;
  sourceStarts ← gather (InstructionSourceStarts c) rows;
  sourceEnds ← gather (InstructionSourceEnds c) rows;
  listCounts ← gather (ListCounts c) rows;
  operandCounts ← gather (OperandCounts c) rows;
  k ← for_range (length rows) (λ row k, compactRow c (toFinal s) row (rows !!! row) k)
    {| kListStarts := make_ n; kListValues := make_ (listTotal s); kListPos := 0;
       kOperandStarts := make_ n; kOperands := make_ (operandTotal s); kOperandPos := 0 |};
  Ok {| Opcodes := opcodes; Fields := fields; Values := vals; ListStarts := kListStarts k; ListCounts := listCounts;
        OperandStarts := kOperandStarts k; OperandCounts := operandCounts; EvidenceKinds := evidenceKinds; EvidenceStates := evidenceStates;
        EvidenceSubjects := subjects; EvidenceScopes := scopes; EvidenceTimings := timings; RootFlags := rootFlags; InstructionNodes := nodes;
        InstructionSourceStarts := sourceStarts; InstructionSourceEnds := sourceEnds; ListValues := kListValues k; Operands := kOperands k;
        NodeInstructionStarts := []; NodeInstructionCounts := []; NodeInstructionIDs := [];
        OpcodeRunOpcodes := []; OpcodeRunStarts := []; OpcodeRunCounts := [] |}.

(** ** The node map *)

(** The ranges of the map: a live node has its instruction, a dead one, a flattened
    group, the operands it contributed. *)
Definition nodeRange (st : Normalizer) (final : list Z) (i : nat) (acc : list Z * list Z * Z) : go (list Z * list Z * Z) :=
  let '(starts, counts, total) := acc in
  canonical ← at_ (nodeCanon st) (Z.of_nat i);
  check (negb ((canonical =? 0) || (zlen final <? canonical))) ErrInvalidDocument ;;
  id ← at_ final (canonical - 1);
  count ← (if id =? 0 then
             count ← at_ (nodeFlatCount st) (Z.of_nat i);
             check (negb (count =? 0)) ErrInvalidDocument ;;
             Ok count
           else Ok 1);
  starts ← put_ starts (Z.of_nat i) (u32 total);
  counts ← put_ counts (Z.of_nat i) count;
  let total := u64 (total + count) in
  check (total <=? MaxUint32) ErrProgramTooLarge ;;
  Ok (starts, counts, total).

Definition nodeEntries (st : Normalizer) (final : list Z) (i : nat) (acc : list Z * Z) : go (list Z * Z) :=
  let '(ids, position) := acc in
  canonical ← at_ (nodeCanon st) (Z.of_nat i);
  id ← at_ final (canonical - 1);
  if negb (id =? 0) then ids ← put_ ids position id; Ok (ids, u32 (position + 1)) else
  start ← at_ (nodeFlatStart st) (Z.of_nat i);
  count ← at_ (nodeFlatCount st) (Z.of_nat i);
  check (u64 (start + count) <=? zlen (Operands (cand st))) ErrInvalidDocument ;;
  operands ← slice_ (Operands (cand st)) start (u32 (start + count));
  fold_go (λ old acc,
    let '(ids, position) := acc in
    id ← finalOperand final old;
    ids ← put_ ids position id;
    Ok (ids, u32 (position + 1))) operands (ids, position).

Definition with_nodes (c : InstructionColumns) (starts counts ids : list Z) : InstructionColumns :=
  {| Opcodes := Opcodes c; Fields := Fields c; Values := Values c; ListStarts := ListStarts c; ListCounts := ListCounts c;
     OperandStarts := OperandStarts c; OperandCounts := OperandCounts c; EvidenceKinds := EvidenceKinds c; EvidenceStates := EvidenceStates c;
     EvidenceSubjects := EvidenceSubjects c; EvidenceScopes := EvidenceScopes c; EvidenceTimings := EvidenceTimings c; RootFlags := RootFlags c;
     InstructionNodes := InstructionNodes c; InstructionSourceStarts := InstructionSourceStarts c; InstructionSourceEnds := InstructionSourceEnds c;
     ListValues := ListValues c; Operands := Operands c; NodeInstructionStarts := starts; NodeInstructionCounts := counts; NodeInstructionIDs := ids;
     OpcodeRunOpcodes := OpcodeRunOpcodes c; OpcodeRunStarts := OpcodeRunStarts c; OpcodeRunCounts := OpcodeRunCounts c |}.

Definition buildNodeInstructionMap (d : Document) (st : Normalizer) (final : list Z) (c : InstructionColumns) : go InstructionColumns :=
  let n := length (dNodeKinds d) in
  '(starts, counts, total) ← for_range n (nodeRange st final) (make_ (Z.of_nat n), make_ (Z.of_nat n), 0);
  '(ids, _) ← for_range n (nodeEntries st final) (make_ total, 0);
  Ok (with_nodes c starts counts ids).

Definition compactInstructions (d : Document) (st : Normalizer) : go InstructionColumns :=
  live ← markLiveCandidates (cand st);
  s ← numberRows (cand st) live;
  check (negb ((MaxUint32 <? listTotal s) || (MaxUint32 <? operandTotal s))) ErrProgramTooLarge ;;
  c ← compactColumns (cand st) live s;
  buildNodeInstructionMap d st (toFinal s) c.

(** ** The stage *)

Definition noColumns : InstructionColumns :=
  {| Opcodes := []; Fields := []; Values := []; ListStarts := []; ListCounts := []; OperandStarts := []; OperandCounts := [];
     EvidenceKinds := []; EvidenceStates := []; EvidenceSubjects := []; EvidenceScopes := []; EvidenceTimings := []; RootFlags := [];
     InstructionNodes := []; InstructionSourceStarts := []; InstructionSourceEnds := []; ListValues := []; Operands := [];
     NodeInstructionStarts := []; NodeInstructionCounts := []; NodeInstructionIDs := [];
     OpcodeRunOpcodes := []; OpcodeRunStarts := []; OpcodeRunCounts := [] |}.

(** [prepareCandidateScratch] and the cleared node columns. *)
Definition freshNormalizer (nodeCount : Z) (roots : list Z) : Normalizer :=
  let slots := slotSize nodeCount in
  {| nodeCanon := make_ nodeCount; nodeState := make_ nodeCount; nodeRoots := roots; nodeFlatStart := make_ nodeCount;
     nodeFlatCount := make_ nodeCount; cand := noColumns; candidateHashes := make_ slots; candidateIDs := make_ slots |}.

Definition normalize (k : constState) (d : Document) : go InstructionColumns :=
  let nodeCount := DocLen d in
  check (nodeCount <? MaxUint32) ErrProgramTooLarge ;;
  check (negb ((MaxUint32 <=? zlen (dListValueIDs d)) || (MaxUint32 <=? u64 (zlen (dChildNodeIDs d) + zlen (dNotChildren d))))) ErrProgramTooLarge ;;
  flags ← markRootFlags d nodeCount (make_ nodeCount);
  st ← fold_go (walkRoot k d) (collectRoots d) (freshNormalizer nodeCount flags);
  compactInstructions d st.

Definition lowerInstructions (k : constState) (d : Document) (p : Program) : go Program :=
  c ← normalize k d;
  scheduleInstructions (with_instr p c).
