(* ===== verification/DocMeaning.v ===== *)
(** * The meaning of policy expressions

    The reference semantics of the expression graph of a document: every node
    denotes, on a request row, a four-valued truth value and reasons.  It reads the
    document's own literals and nesting; the instruction graph of a program is
    related to it through the structural keys of its rows. *)

From S2P Require Import Prelude Store Truth Schema Result Program Batch Predicate Evidence Executor PolicyIndex Finalize Execute.
From S2P Require Import Liveness Schedule SymbolTable Interner Frozen SymbolCheck Ast Constants ConstantsMeaning Normalize.

(** Sums over lists of nodes, and the nodes [1..n]. *)
Definition sumOver (f : Z → Z) (l : list Z) : Z := foldr (λ x s, f x + s) 0 l.
Definition nodesTo (n : nat) : list Z := map (λ i, Z.of_nat i + 1) (seq 0 n).

(** ** Documents *)

Section document.
Context (d : Document) (find : bytes → option Z) (schema : IndexSchema).

(** The operand a value ID stands for, and the symbol of an optional qualifier. *)
Definition docValue (id : Z) : predicateValue := match literalOf d id with Some l => literalValue find l | None => zeroValue end.
Definition docSymbol (id : Z) : Z := if id =? 0 then 0 else symbol (docValue id).

Definition docPredicate (q : EvidenceQuery) : EvidencePredicate :=
  {| epKind := qKind q; epState := qState q; epSubject := docSymbol (qSubject q); epScope := docSymbol (qScope q); epTiming := docSymbol (qTiming q) |}.

(** A comparison of field [field] with a literal or a list of literals. *)
Definition compareRow (b : Batch) (field op value : Z) (list_ : list Z) (r : nat) : tv * Z :=
  let '(kind, column) := default (0, 0) (SchemaLookup schema field) in
  let present := colBit b (PresenceMasks b) (field - 1) r in
  let missing := if present then 0 else Reason.ReasonBit Reason.ReasonMissing in
  if op =? CompareOpDefined then ((present, negb present), 0)
  else if op =? CompareOpExists then ((present, false), missing)
  else
    let m := if op =? CompareOpIn then existsb (λ v, literalMatches b kind column (docValue v) r) list_
             else comparisonMatches b (default 0 (compareOpcode op)) kind column (docValue value) r in
    ((present && m, present && negb m), missing).

(** Groups combine truth values by their connective and collect all reasons. *)
Definition groupValue (kind : Z) (vs : list (tv * Z)) : tv * Z :=
  (if kind =? NodeKindAll then foldr tv_and tv_true (map fst vs) else foldr tv_or tv_false (map fst vs), foldr Z.lor 0 (map snd vs)).

Fixpoint nodeValue (b : Batch) (reasons : list Z) (r : nat) (fuel : nat) (node : Z) : option (tv * Z) :=
  match fuel with
  | O => None
  | S fuel =>
      kind ← Kind d node;
      if kind =? NodeKindBoolean then
        value ← Boolean d node;
        let v := boolean (docValue value) in Some ((v, negb v), 0)
      else if kind =? NodeKindCompare then
        '(field, op, value) ← Compare d node;
        Some (compareRow b field op value (default [] (InValues d node)) r)
      else if kind =? NodeKindEvidence then
        q ← EvidenceMatch d node;
        Some (evidenceRow b reasons (docPredicate q) r)
      else if kind =? NodeKindNot then
        child ← NotChild d node;
        v ← nodeValue b reasons r fuel child;
        Some (tv_not v.1, v.2)
      else if isGroupKind kind then
        children ← GroupChildren d node;
        vs ← mapM (nodeValue b reasons r fuel) children;
        Some (groupValue kind vs)
      else None
  end.

(** More fuel does not change a value. *)
Lemma nodeValue_S b reasons r fuel node v : nodeValue b reasons r fuel node = Some v → nodeValue b reasons r (S fuel) node = Some v.
Proof.
  revert node v. induction fuel as [|fuel IH]; intros node v; [done|]. intros H. cbn [nodeValue] in H |- *.
  destruct (Kind d node) as [kind|]; [|done]. simpl in H |- *.
  destruct (kind =? NodeKindBoolean); [done|]. destruct (kind =? NodeKindCompare); [done|]. destruct (kind =? NodeKindEvidence); [done|].
  destruct (kind =? NodeKindNot).
  - destruct (NotChild d node) as [child|]; [|done]. simpl in H |- *. apply bind_Some in H as (w & Hw & E).
    apply IH in Hw. cbn [nodeValue] in Hw. rewrite Hw. done.
  - destruct (isGroupKind kind); [|done]. destruct (GroupChildren d node) as [children|]; [|done]. simpl in H |- *.
    apply bind_Some in H as (vs & Hvs & E). apply bind_Some. exists vs. split; [|done]. apply mapM_Some in Hvs. apply mapM_Some.
    eapply Forall2_impl; [exact Hvs|]. intros c w Hw. by apply (IH c w).
Qed.

Lemma nodeValue_mono b reasons r fuel fuel' node v :
  (fuel ≤ fuel')%nat → nodeValue b reasons r fuel node = Some v → nodeValue b reasons r fuel' node = Some v.
Proof. intros H Hv. induction H as [|m _ IH]; [done|]. by apply nodeValue_S. Qed.

(** The children of a node, as the walk enumerates them. *)
Definition childrenOf (node : Z) : list Z :=
  match Kind d node with
  | Some kind => if kind =? NodeKindNot then match NotChild d node with Some c => [c] | None => [] end
                 else if isGroupKind kind then default [] (GroupChildren d node) else []
  | None => []
  end.

(** A document whose nodes are well-formed, acyclic and all reached from the roots:
    what the compiler's validator accepts. *)
Definition valueOk (kind id : Z) : Prop := 0 ≤ id ∧ ∃ l, literalOf d id = Some l ∧ literalKind l = kind.
Definition nameOk (id : Z) : Prop := id = 0 ∨ ∃ b, symbolName d id b.

Inductive node_ok (node : Z) : Prop :=
  | BooleanOk value : Kind d node = Some NodeKindBoolean → Boolean d node = Some value → valueOk ValueKindBoolean value → node_ok node
  | CompareOk field op value kind column : Kind d node = Some NodeKindCompare → Compare d node = Some (field, op, value) →
      CompareOpValid op = true → op ≠ CompareOpIn → SchemaLookup schema field = Some (kind, column) →
      (if RequiresValue op then valueOk kind value ∧ value ≠ 0 else value = 0) → node_ok node
  | InOk field kind column vs : Kind d node = Some NodeKindCompare → Compare d node = Some (field, CompareOpIn, 0) →
      InValues d node = Some vs → zlen vs ≤ MaxUint16 → SchemaLookup schema field = Some (kind, column) → Forall (valueOk kind) vs → node_ok node
  | GroupOk kind children : Kind d node = Some kind → isGroupKind kind = true → GroupChildren d node = Some children → children ≠ [] →
      zlen children ≤ MaxUint16 → Forall (λ c, 1 ≤ c ≤ DocLen d) children → node_ok node
  | NotOk child : Kind d node = Some NodeKindNot → NotChild d node = Some child → 1 ≤ child ≤ DocLen d → node_ok node
  | EvidenceOk q : Kind d node = Some NodeKindEvidence → EvidenceMatch d node = Some q → nameOk (qSubject q) → nameOk (qScope q) → nameOk (qTiming q) →
      node_ok node.

Definition rootNodes : list Z := dRequirementApplicabilityRoots d ++ dClauseAssertionRoots d ++ dClauseEvidenceNodeIDs d.

(** Nodes below a root. *)
Inductive reached : Z → Prop :=
  | ReachedRoot node : node ∈ rootNodes → reached node
  | ReachedChild parent node : reached parent → node ∈ childrenOf parent → reached node.

Record doc_ok : Prop := {
  dk_size : DocLen d < MaxUint32 ∧ zlen (dListValueIDs d) < MaxUint32 ∧ zlen (dChildNodeIDs d) + zlen (dNotChildren d) < MaxUint32;
  dk_node node : 1 ≤ node ≤ DocLen d → node_ok node ∧ is_Some (Span d node);
  dk_typed : Forall is_u32 (dGroupChildStarts d) ∧ Forall is_u32 (dGroupChildCounts d);
  dk_rank : ∃ rank : Z → nat, ∀ node, 1 ≤ node ≤ DocLen d → (rank node < length (dNodeKinds d))%nat ∧ ∀ child, child ∈ childrenOf node → (rank child < rank node)%nat;
  dk_roots : Forall (λ node, 1 ≤ node ≤ DocLen d) rootNodes;
  dk_reached node : 1 ≤ node ≤ DocLen d → reached node
}.

(** The operands a child contributes to a group, for widths [w] of the groups, and
    the literals of a node. *)
Definition arity (w : Z → Z) (kind child : Z) : Z := if bool_decide (Kind d child = Some kind) then w child else 1.
Definition listLen (node : Z) : Z := zlen (default [] (InValues d node)).

(** [w] bounds the flattened width of every group; the widths and lists of all nodes
    fit the 32-bit pools, and an instruction has at most [MaxUint16] operands. *)
Record width_ok (w : Z → Z) : Prop := {
  wo_range node : 0 ≤ w node ≤ MaxUint16;
  wo_group node kind children : 1 ≤ node ≤ DocLen d → Kind d node = Some kind → isGroupKind kind = true → GroupChildren d node = Some children →
    sumOver (arity w kind) children ≤ w node;
  wo_not node : 1 ≤ node ≤ DocLen d → Kind d node = Some NodeKindNot → 1 ≤ w node;
  wo_operands : DocLen d + sumOver w (nodesTo (length (dNodeKinds d))) ≤ MaxUint32;
  wo_lists : sumOver listLen (nodesTo (length (dNodeKinds d))) ≤ MaxUint32
}.
End document.

(** ** Structural keys of instructions *)

Record ikey := {
  kOpcode : Z; kField : Z; kValue : Z; kEvidence : EvidencePredicate; kLiterals : list Z; kArgs : list Z
}.

#[global] Instance EvidencePredicate_eq_dec : EqDecision EvidencePredicate.
Proof. solve_decision. Defined.
#[global] Instance ikey_eq_dec : EqDecision ikey.
Proof. solve_decision. Defined.
#[global] Instance EvidencePredicate_inhabited : Inhabited EvidencePredicate :=
  populate {| epKind := 0; epState := 0; epSubject := 0; epScope := 0; epTiming := 0 |}.

Definition keyOf (c : InstructionColumns) (i : nat) : ikey :=
  {| kOpcode := Opcodes c !!! i; kField := Fields c !!! i; kValue := Values c !!! i;
     kEvidence := {| epKind := EvidenceKinds c !!! i; epState := EvidenceStates c !!! i; epSubject := EvidenceSubjects c !!! i;
                     epScope := EvidenceScopes c !!! i; epTiming := EvidenceTimings c !!! i |};
     kLiterals := csr (ListValues c) (ListStarts c !!! i) (ListCounts c !!! i);
     kArgs := csr (Operands c) (OperandStarts c !!! i) (OperandCounts c !!! i) |}.

(** The columns of a row all reach it. *)
Definition evidence_columns (c : InstructionColumns) : Prop :=
  let n := length (Opcodes c) in
  length (EvidenceKinds c) = n ∧ length (EvidenceStates c) = n ∧ length (EvidenceSubjects c) = n ∧ length (EvidenceScopes c) = n ∧
  length (EvidenceTimings c) = n.

(** The value of an instruction from its key and the values of its arguments. *)
Definition keyValue (p : Program) (b : Batch) (reasons : list Z) (r : nat) (key : ikey) (args : list (tv * Z)) : tv * Z :=
  if kOpcode key =? OpcodeBoolean then
    let v := boolean (valueOf p (kValue key) ValueKindBoolean) in ((v, negb v), 0)
  else if kOpcode key =? OpcodeEvidence then evidenceRow b reasons (kEvidence key) r
  else if kOpcode key =? OpcodeAll then (foldr tv_and tv_true (map fst args), foldr Z.lor 0 (map snd args))
  else if kOpcode key =? OpcodeAny then (foldr tv_or tv_false (map fst args), foldr Z.lor 0 (map snd args))
  else if kOpcode key =? OpcodeNot then (tv_not (args !!! 0%nat).1, (args !!! 0%nat).2)
  else
    let '(kind, column) := default (0, 0) (SchemaLookup (FieldIndex p) (kField key)) in
    let present := colBit b (PresenceMasks b) (kField key - 1) r in
    let missing := if present then 0 else Reason.ReasonBit Reason.ReasonMissing in
    if kOpcode key =? OpcodeDefined then ((present, negb present), 0)
    else if kOpcode key =? OpcodeExists then ((present, false), missing)
    else
      let m := if kOpcode key =? OpcodeIn then existsb (λ vid, literalMatches b kind column (valueOf p vid kind) r) (kLiterals key)
               else comparisonMatches b (kOpcode key) kind column (valueOf p (kValue key) kind) r in
      ((present && m, present && negb m), missing).

Lemma instrValue_key p c b reasons vs i r : evidence_columns c → (i < length (Opcodes c))%nat →
  instrValue (with_instr p c) b reasons vs i r = keyValue p b reasons r (keyOf c i) (map (λ o, vs !!! Z.to_nat (o - 1)) (kArgs (keyOf c i))).
Proof.
  intros (L1 & L2 & L3 & L4 & L5) Hi.
  assert (predicateAt (with_instr p c) i = kEvidence (keyOf c i)) as Hp.
  { unfold predicateAt, instructionPredicate, evidenceQualifier. simpl. rewrite !bool_decide_eq_false_2 by lia.
    rewrite (at_total (EvidenceKinds c)), (at_total (EvidenceStates c)), (at_total (EvidenceSubjects c)), (at_total (EvidenceScopes c)), (at_total (EvidenceTimings c)) by lia.
    simpl. rewrite !Nat2Z.id. done. }
  unfold instrValue. rewrite Hp. reflexivity.
Qed.

(** The rows [k] of [c'] and [i] of [c] related by [R] have equal keys up to related
    arguments: they denote the same values. *)
Lemma denote_related p c c' (R : nat → nat → Prop) b reasons r :
  evidence_columns c → evidence_columns c' →
  (∀ k i, R k i → (k < length (Opcodes c'))%nat ∧ (i < length (Opcodes c))%nat ∧
     (∀ args, keyValue p b reasons r (keyOf c' k) args = keyValue p b reasons r (keyOf c i) args) ∧
     Forall2 (λ o' o, 1 ≤ o' ≤ Z.of_nat k ∧ 1 ≤ o ≤ Z.of_nat i ∧ R (Z.to_nat (o' - 1)) (Z.to_nat (o - 1))) (kArgs (keyOf c' k)) (kArgs (keyOf c i))) →
  ∀ k i, R k i → denote (with_instr p c') b reasons k r = denote (with_instr p c) b reasons i r.
Proof.
  intros He He' Hrel. induction k as [k IH] using lt_wf_ind. intros i HR. destruct (Hrel k i HR) as (Hk & Hi & Hkey & Hargs).
  unfold denote. rewrite !instrValue_key, Hkey by done. f_equal. clear Hkey.
  induction Hargs as [|o' o l' l (Ho' & Ho & Hr) _ IHl]; [done|]. simpl. f_equal; [|exact IHl].
  rewrite !denoteAll_lookup by lia. apply IH; [lia|done].
Qed.

(** The value of a row whose arguments are earlier rows. *)
Lemma denote_key p c b reasons r i : evidence_columns c → (i < length (Opcodes c))%nat →
  Forall (λ o, 1 ≤ o ≤ Z.of_nat i) (kArgs (keyOf c i)) →
  denote (with_instr p c) b reasons i r =
    keyValue p b reasons r (keyOf c i) (map (λ o, denote (with_instr p c) b reasons (Z.to_nat (o - 1)) r) (kArgs (keyOf c i))).
Proof.
  intros He Hi Hargs. unfold denote at 1. rewrite instrValue_key by done. f_equal. apply map_ext_in. intros o Ho%list_elem_of_In.
  rewrite Forall_forall in Hargs. specialize (Hargs o Ho). by rewrite denoteAll_lookup by lia.
Qed.
