(* ===== verification/WalkEnd.v ===== *)
(** * The walk ends

    On every document, valid or not, the depth-first walk of compile/lower.go takes
    at most one iteration per node and per edge: nodes on the stack and finished
    nodes are never entered again. *)

From S2P Require Import Prelude Store Truth Schema Result Program Batch Predicate Evidence Executor PolicyIndex Finalize Execute.
From S2P Require Import Liveness Schedule SymbolTable Interner Frozen SymbolCheck Ast Constants ConstantsMeaning Normalize Traversal.

(** Inverting a run that returned: its binds succeeded and its branches are known. *)
Ltac inv_run H :=
  repeat match type of H with
  | (_ ≫= _) = Ok _ => let x := fresh "x" in let E := fresh "E" in apply go_bind_inv in H as (x & E & H); cbv beta in H
  | context [let '(_, _) := ?x in _] => destruct x
  | (if ?b then _ else _) = _ => destruct b
  | Ok _ = Ok _ => injection H as H; try subst
  | _ => discriminate H
  end.

Section ends.
Context (k : constState) (d : Document) (Hcounts : Forall is_u32 (dGroupChildCounts d)).

(** ** Interning does not colour nodes *)

Lemma appendCanonicalList_state node st s n st' : appendCanonicalList k d node st = Ok (s, n, st') → nodeState st' = nodeState st.
Proof. unfold appendCanonicalList. intros H. inv_run H. simplify_eq. done. Qed.

Lemma appendGroupOperands_state node kind st s n st' : appendGroupOperands d node kind st = Ok (s, n, st') → nodeState st' = nodeState st.
Proof. unfold appendGroupOperands. intros H. inv_run H. simplify_eq. done. Qed.

Lemma candidateOf_state node kind st x st' : candidateOf k d node kind st = Ok (x, st') → nodeState st' = nodeState st.
Proof.
  unfold candidateOf. intros H. inv_run H; simplify_eq; try done.
  - by eapply appendCanonicalList_state.
  - simpl. by eapply appendGroupOperands_state.
Qed.

Lemma appendCandidate_state node span x st id st' : appendCandidate node span x st = Ok (id, st') → nodeState st' = nodeState st.
Proof. unfold appendCandidate. intros H. inv_run H. case_match; inv_run H; by simplify_eq. Qed.

Lemma intern_state node st st' : internInstructionCandidate k d node st = Ok st' → nodeState st' = nodeState st.
Proof.
  unfold internInstructionCandidate. intros H. inv_run H. simpl. etrans; [by eapply appendCandidate_state|by eapply candidateOf_state].
Qed.

(** ** The measure *)

Definition white (s : Z) : bool := Z.land s (Z.lor nodeGray nodeBlack) =? 0.

Local Abbreviation whites := (Traversal.whites white (edges d)).
Local Abbreviation cost := (Traversal.cost (edges d)).
Local Abbreviation frame_ok := (Traversal.frame_ok (edges d)).

Lemma edgeCount_range node count : edgeCount d node = Ok count → edges d node = Z.to_nat count ∧ is_u32 count.
Proof.
  intros H. unfold edges. rewrite H. split; [done|]. unfold edgeCount, GroupRange in H. inv_run H; [done| |done].
  match goal with E : orErr (payload _ _ _ ≫= _) _ = _ |- _ => destruct (payload d node isGroupKind) as [r|]; [|done]; simpl in E; repeat case_match; [done..|]; injection E as _ <- end.
  destruct (decide (Z.to_nat r < length (dGroupChildCounts d))%nat) as [|Hge]; [by apply Forall_lookup_total_1|].
  rewrite list_lookup_total_alt, lookup_ge_None_2 by lia. done.
Qed.

Lemma white_gray s : white (Z.lor s nodeGray) = false.
Proof.
  apply Z.eqb_neq. intros E. apply (f_equal (λ z, Z.testbit z 0)) in E. by rewrite Z.land_spec, !Z.lor_spec, !orb_true_r in E.
Qed.

Lemma white_clear s : Z.land s nodeGray = 0 → Z.land s nodeBlack = 0 → white s = true.
Proof. intros H1 H2. apply Z.eqb_eq. rewrite Z.land_lor_distr_r, H1, H2. done. Qed.

(** Every iteration lowers the measure. *)
Lemma walkStep_measure frame rest st stack' st' :
  Forall frame_ok (frame :: rest) → walkStep k d frame rest st = Ok (stack', st') →
  Forall frame_ok stack' ∧ length (nodeState st') = length (nodeState st) ∧
  (whites (nodeState st') + cost stack' < whites (nodeState st) + cost (frame :: rest))%nat.
Proof.
  intros [Hf Hrest]%Forall_cons H. destruct frame as [node next]. unfold frame_ok in Hf. simpl in Hf. unfold walkStep in H.
  apply go_bind_inv in H as (count & Hcount & H). destruct (edgeCount_range node count Hcount) as [He Hu]. unfold is_u32 in Hu.
  destruct (Z.ltb_spec next count) as [Hlt|Hge].
  - apply go_bind_inv in H as (child & _ & H). apply go_bind_inv in H as (state & Hstate & H). apply go_bind_inv in H as ([] & Hgray%check_inv%Z.eqb_eq & H).
    apply at_Ok in Hstate as [Hc0 Hs]. pose proof (lookup_lt_Some _ _ _ Hs) as Hlen. apply list_lookup_total_correct in Hs.
    assert (u32 (next + 1) = next + 1) as Eu by (apply u32_small; unfold is_u32; lia). rewrite Eu in H.
    assert (frame_ok (node, next + 1)) as Hf' by (unfold frame_ok; simpl; lia).
    destruct (Z.eqb_spec (Z.land state nodeBlack) 0) as [Hb|Hb].
    + rewrite put_Ok in H by lia. simpl in H. injection H as <- <-. simpl. rewrite length_insert. split_and!; [|done|].
      * repeat constructor; [simpl; lia|simpl; lia|by apply Hf'..|done].
      * pose proof (whites_set white (edges d) (nodeState st) (Z.to_nat (child - 1)) (Z.lor state nodeGray) Hlen (white_gray state)) as E.
        rewrite Hs, (white_clear state Hgray Hb) in E. replace (Z.of_nat (Z.to_nat (child - 1)) + 1) with child in E by lia.
        unfold frameCost. simpl. lia.
    + injection H as <- <-. split_and!; [by constructor|done|]. simpl. unfold frameCost. simpl. lia.
  - apply go_bind_inv in H as (st1 & Hi%intern_state & H). apply go_bind_inv in H as (states & Hput & H). injection H as <- <-. simpl.
    unfold put_ in Hput. destruct ((0 <=? node - 1) && (node - 1 <? zlen (nodeState st1))) eqn:Hin; [|done]. injection Hput as <-.
    rewrite andb_true_iff, Z.leb_le, Z.ltb_lt, Hi in Hin. rewrite Hi, length_insert. split_and!; [done|done|].
    pose proof (whites_set white (edges d) (nodeState st) (Z.to_nat (node - 1)) nodeBlack ltac:(lia) eq_refl). unfold frameCost. simpl. lia.
Qed.

Lemma walk_ends fuel stack st : Forall frame_ok stack → (whites (nodeState st) + cost stack ≤ fuel)%nat → walk k d fuel stack st ≠ None.
Proof.
  revert stack st. induction fuel as [|fuel IH]; intros stack st Hf Hm; (destruct stack as [|frame rest]; [done|]).
  - simpl in Hm. apply Forall_cons in Hf as [Hf _]. unfold frame_ok in Hf. unfold frameCost in Hm. lia.
  - cbn [walk]. destruct (walkStep k d frame rest st) as [[stack' st']|e|m] eqn:E; [|done|done].
    destruct (walkStep_measure _ _ _ _ _ Hf E) as (Hf' & _ & Hlt). apply IH; [done|lia].
Qed.

Lemma walkRoot_ends root state st : length (nodeState st) = length (dNodeKinds d) → 1 ≤ root ≤ DocLen d →
  walk k d (walkFuel d) [(root, 0)] (with_state st (<[Z.to_nat (root - 1) := Z.lor state nodeGray]> (nodeState st))) ≠ None.
Proof.
  unfold DocLen. intros Hl Hr. apply walk_ends.
  - constructor; [|constructor]. unfold frame_ok. simpl. lia.
  - simpl. pose proof (whites_bound white (edges d) (<[Z.to_nat (root - 1) := Z.lor state nodeGray]> (nodeState st)) (Z.to_nat (root - 1))) as H.
    rewrite length_insert in H. specialize (H ltac:(lia)). rewrite list_lookup_total_insert_eq in H by lia. specialize (H (white_gray state)). rewrite Hl in H. change (allCost (edges d) (length (dNodeKinds d))) with (walkFuel d) in H.
    replace (Z.of_nat (Z.to_nat (root - 1)) + 1) with root in H by lia. unfold frameCost. simpl. lia.
Qed.
End ends.

(** ** Property *)

(** C21: the walk over the expression graph ends.  On every document with 32-bit child
    counts, cyclic, dangling or otherwise invalid ones included, a walk from any root
    takes at most one iteration per node and one per edge, whatever the colours left
    by earlier walks: it returns a scratch or an error within that bound. *)
Theorem walk_terminates (k : constState) (d : Document) (root state : Z) (st : Normalizer) :
  Forall is_u32 (dGroupChildCounts d) → length (nodeState st) = length (dNodeKinds d) → 1 ≤ root ≤ DocLen d →
  ∃ r, walk k d (walkFuel d) [(root, 0)] (with_state st (<[Z.to_nat (root - 1) := Z.lor state nodeGray]> (nodeState st))) = Some r.
Proof.
  intros Hc Hl Hr. pose proof (walkRoot_ends k d Hc root state st Hl Hr). by destruct (walk _ _ _ _ _) as [r|]; [exists r|].
Qed.
