(* ===== verification/NormalizeOk.v ===== *)
(** * Interning candidate instructions

    The structural intern table of [Normalize]: candidate rows have pairwise distinct
    keys, [appendCandidate] finds the row of an equal candidate or appends one, and
    growing columns keeps every key and every denotation. *)

From S2P Require Import Prelude Store Truth Schema Result Program Batch Predicate Evidence Executor PolicyIndex Finalize Execute.
From S2P Require Import Liveness Schedule SymbolTable Interner Frozen SymbolCheck Ast Constants ConstantsMeaning Normalize DocMeaning.

(** ** Hashes and comparison of candidates *)

#[global] Instance ikey_hashed : Hashed ikey := λ key,
  let e := kEvidence key in
  foldl mixInstructionHash
    (mixInstructionHash
      (foldl mixInstructionHash
        (foldl mixInstructionHash 0x6a09e667f3bcc909
          [kOpcode key; kField key; kValue key; epKind e; epState e; epSubject e; epScope e; epTiming e; zlen (kLiterals key)])
        (kLiterals key))
      (zlen (kArgs key)))
    (kArgs key).

(** The key of a candidate whose ranges point into the pools of [c]. *)
Definition candKey (c : InstructionColumns) (x : instructionCandidate) : ikey :=
  {| kOpcode := xOpcode x; kField := xField x; kValue := xValue x;
     kEvidence := {| epKind := xEvidenceKind x; epState := xEvidenceState x; epSubject := xEvidenceSubject x; epScope := xEvidenceScope x;
                     epTiming := xEvidenceTiming x |};
     kLiterals := csr (ListValues c) (xListStart x) (xListCount x); kArgs := csr (Operands c) (xOperandStart x) (xOperandCount x) |}.

(** A range of a pool. *)
Definition in_pool (pool : list Z) (start count : Z) : Prop := 0 ≤ start ∧ 0 ≤ count ∧ start + count ≤ zlen pool.

Definition cand_ok (c : InstructionColumns) (x : instructionCandidate) : Prop :=
  in_pool (ListValues c) (xListStart x) (xListCount x) ∧ in_pool (Operands c) (xOperandStart x) (xOperandCount x).

Lemma csr_S (l : list Z) s n : (s + n < length l)%nat → csr l (Z.of_nat s) (Z.of_nat (S n)) = csr l (Z.of_nat s) (Z.of_nat n) ++ [l !!! (s + n)%nat].
Proof.
  intros H. unfold csr. rewrite !Nat2Z.id. rewrite (take_S_r _ n (l !!! (s + n)%nat)); [done|].
  rewrite lookup_drop. by apply list_lookup_lookup_total_lt.
Qed.

Lemma csr_cons (l : list Z) s n : (s < length l)%nat → csr l (Z.of_nat s) (Z.of_nat (S n)) = l !!! s :: csr l (Z.of_nat (S s)) (Z.of_nat n).
Proof.
  intros H. unfold csr. rewrite !Nat2Z.id. rewrite (drop_S l (l !!! s) s) by (by apply list_lookup_lookup_total_lt). done.
Qed.

Lemma mixRange_ok pool start count hash :
  in_pool pool start count → zlen pool ≤ MaxUint32 → mixRange pool start count hash = Ok (foldl mixInstructionHash hash (csr pool start count)).
Proof.
  unfold MaxUint32. intros (H0 & Hc & Hs) Hm. unfold mixRange. fold (for_range (Z.to_nat count) (λ i hash, v ← at_ pool (u32 (start + Z.of_nat i)); Ok (mixInstructionHash hash v)) hash).
  for_loop (λ i h, h = foldl mixInstructionHash hash (csr pool start (Z.of_nat i))) as (h & -> & ->); [done| |by rewrite Z2Nat.id by lia].
  intros i h Hi ->. rewrite u32_small by (unfold is_u32; lia). rewrite at_total by lia. simpl. eexists. split; [done|].
  replace start with (Z.of_nat (Z.to_nat start)) by lia. rewrite csr_S by lia. rewrite foldl_snoc. do 2 f_equal. lia.
Qed.

Lemma candidateHash_ok c x :
  cand_ok c x → zlen (ListValues c) ≤ MaxUint32 → zlen (Operands c) ≤ MaxUint32 → candidateHash c x = Ok (hash_of (candKey c x)).
Proof.
  intros [Hl Ho] H1 H2. unfold candidateHash. rewrite mixRange_ok by done. simpl. rewrite mixRange_ok by done.
  unfold hash_of, ikey_hashed. simpl. destruct Hl as (? & ? & ?), Ho as (? & ? & ?).
  rewrite !length_csr by lia. by rewrite !Z2Nat.id by lia.
Qed.

Lemma equalFrom_ok pool a b n :
  (a + n ≤ length pool)%nat → (b + n ≤ length pool)%nat → zlen pool ≤ MaxUint32 →
  equalFrom pool (Z.of_nat a) (Z.of_nat b) n = Ok (bool_decide (csr pool (Z.of_nat a) (Z.of_nat n) = csr pool (Z.of_nat b) (Z.of_nat n))).
Proof.
  unfold MaxUint32. revert a b. induction n as [|n IH]; intros a b Ha Hb Hm; simpl; [done|].
  rewrite !at_total by lia. simpl. rewrite !Nat2Z.id.
  rewrite (csr_cons pool a), (csr_cons pool b) by lia. destruct (Z.eqb_spec (pool !!! a) (pool !!! b)) as [E|Hne].
  - rewrite !u32_small by (unfold is_u32; lia). replace (Z.of_nat a + 1) with (Z.of_nat (S a)) by lia. replace (Z.of_nat b + 1) with (Z.of_nat (S b)) by lia.
    rewrite IH by lia. rewrite E. f_equal. apply bool_decide_ext. split; [by intros ->|by intros [= ?]].
  - f_equal. symmetry. apply bool_decide_eq_false_2. congruence.
Qed.

Lemma equalRange_ok pool a ac b bc :
  in_pool pool a ac → in_pool pool b bc → zlen pool ≤ MaxUint32 → equalRange pool a ac b bc = Ok (bool_decide (csr pool a ac = csr pool b bc)).
Proof.
  intros (A0 & A1 & A2) (B0 & B1 & B2) Hm. unfold equalRange. destruct (Z.eqb_spec ac bc) as [->|Hne]; simpl.
  - replace a with (Z.of_nat (Z.to_nat a)) by lia. replace b with (Z.of_nat (Z.to_nat b)) by lia.
    rewrite equalFrom_ok by (done || lia). by rewrite (Z2Nat.id bc) by lia.
  - f_equal. symmetry. apply bool_decide_eq_false_2. intros E%(f_equal length). rewrite !length_csr in E by lia. lia.
Qed.

(** Candidate columns of [n] rows. *)
Definition columns_len (c : InstructionColumns) (n : nat) : Prop :=
  length (Opcodes c) = n ∧ length (Fields c) = n ∧ length (Values c) = n ∧ length (ListStarts c) = n ∧ length (ListCounts c) = n ∧
  length (OperandStarts c) = n ∧ length (OperandCounts c) = n ∧ evidence_columns c ∧ length (RootFlags c) = n ∧
  length (InstructionNodes c) = n ∧ length (InstructionSourceStarts c) = n ∧ length (InstructionSourceEnds c) = n.

(** The flags the semantic roots set. *)
Definition flags_ok (f : Z) : Prop := 0 ≤ f ∧ Z.ldiff f knownRootFlags = 0.

(** The opcodes with operands. *)
Definition connective (opcode : Z) : bool := IsGroup opcode || (opcode =? OpcodeNot).

(** Row [i]: ranges inside the pools, arguments among the rows before. *)
Record row_ok (c : InstructionColumns) (i : nat) : Prop := {
  ro_opcode : OpcodeValid (Opcodes c !!! i) = true;
  ro_list : in_pool (ListValues c) (ListStarts c !!! i) (ListCounts c !!! i);
  ro_operands : in_pool (Operands c) (OperandStarts c !!! i) (OperandCounts c !!! i);
  ro_args : Forall (λ o, 1 ≤ o ≤ Z.of_nat i) (kArgs (keyOf c i));
  ro_connective : kArgs (keyOf c i) ≠ [] → connective (Opcodes c !!! i) = true;
  ro_flags : flags_ok (RootFlags c !!! i);
  ro_source : 1 ≤ InstructionNodes c !!! i ∧ InstructionSourceStarts c !!! i ≤ InstructionSourceEnds c !!! i
}.

Lemma candidateEqual_ok c n id x :
  columns_len c n → 1 ≤ id ≤ Z.of_nat n → row_ok c (Z.to_nat (id - 1)) → cand_ok c x → zlen (ListValues c) ≤ MaxUint32 → zlen (Operands c) ≤ MaxUint32 →
  candidateEqual c id x = Ok (bool_decide (keyOf c (Z.to_nat (id - 1)) = candKey c x)).
Proof.
  intros (L1 & L2 & L3 & L4 & L5 & L6 & L7 & (E1 & E2 & E3 & E4 & E5) & _) Hid [_ Hl Ho _ _ _] [Xl Xo] M1 M2. unfold candidateEqual.
  rewrite (proj2 (Z.ltb_ge _ _)), (proj2 (Z.leb_gt _ _)) by lia. simpl.
  rewrite (at_total (Opcodes c)), (at_total (Fields c)), (at_total (Values c)), (at_total (EvidenceKinds c)), (at_total (EvidenceStates c)),
    (at_total (EvidenceSubjects c)), (at_total (EvidenceScopes c)), (at_total (EvidenceTimings c)), (at_total (ListStarts c)), (at_total (ListCounts c)),
    (at_total (OperandStarts c)), (at_total (OperandCounts c)) by lia. simpl.
  rewrite !equalRange_ok by done. unfold keyOf, candKey.
  repeat match goal with |- context [?a =? ?b] =>
    destruct (Z.eqb_spec a b); simpl; [|f_equal; symmetry; apply bool_decide_eq_false_2; congruence] end.
  case_bool_decide; simpl; f_equal; [apply bool_decide_ext; split; congruence|symmetry; apply bool_decide_eq_false_2; congruence].
Qed.

(** ** Keys of growing columns *)

Definition keysOf (c : InstructionColumns) : list ikey := map (keyOf c) (seq 0 (length (Opcodes c))).

Lemma keysOf_lookup c i : (i < length (Opcodes c))%nat → keysOf c !! i = Some (keyOf c i).
Proof. apply map_seq_lookup. Qed.

Lemma keysOf_Some c id key : nth_symbol (keysOf c) id = Some key ↔ 1 ≤ id ≤ zlen (Opcodes c) ∧ key = keyOf c (Z.to_nat (id - 1)).
Proof.
  rewrite nth_symbol_Some. unfold keysOf. split.
  - intros [H1 H]. pose proof (lookup_lt_Some _ _ _ H) as Hlt. rewrite length_map, length_seq in Hlt.
    rewrite map_seq_lookup in H by done. split; [lia|congruence].
  - intros [H ->]. split; [lia|]. apply map_seq_lookup. lia.
Qed.

Lemma csr_app_l (l k : list Z) s n : in_pool l s n → csr (l ++ k) s n = csr l s n.
Proof. intros (H0 & Hn & Hs). unfold csr. rewrite drop_app_le by lia. rewrite take_app_le; [done|]. rewrite length_drop. lia. Qed.

Lemma csr_app_r (l k : list Z) : csr (l ++ k) (zlen l) (zlen k) = k.
Proof. unfold csr. by rewrite !Nat2Z.id, drop_app_length, firstn_all. Qed.

Lemma csr_nil (l : list Z) s : csr l s 0 = [].
Proof. done. Qed.

Lemma in_pool_app l k s n : in_pool l s n → in_pool (l ++ k) s n.
Proof. unfold in_pool. rewrite length_app. lia. Qed.

Lemma in_pool_new (l k : list Z) : in_pool (l ++ k) (zlen l) (zlen k).
Proof. unfold in_pool. rewrite length_app. lia. Qed.

Lemma in_pool_0 (l : list Z) : in_pool l 0 0.
Proof. unfold in_pool. lia. Qed.

Lemma keyOf_pools c lists ops flags i : row_ok c i → keyOf (with_pools c (ListValues c ++ lists) (Operands c ++ ops) flags) i = keyOf c i.
Proof. intros [_ Hl Ho _ _ _]. unfold keyOf. simpl. by rewrite !csr_app_l. Qed.

Lemma keyOf_flags c flags i : keyOf (with_pools c (ListValues c) (Operands c) flags) i = keyOf c i.
Proof. done. Qed.

Lemma lookup_total_snoc_l (l : list Z) x i : (i < length l)%nat → (l ++ [x]) !!! i = l !!! i.
Proof. intros. by rewrite lookup_total_app_l. Qed.

Lemma lookup_total_snoc (l : list Z) x n : length l = n → (l ++ [x]) !!! n = x.
Proof. intros <-. by rewrite lookup_total_app_r, Nat.sub_diag. Qed.

Lemma keyOf_row c n x f node a b i : columns_len c n → (i < n)%nat → keyOf (appendRow c x f node a b) i = keyOf c i.
Proof.
  intros (L1 & L2 & L3 & L4 & L5 & L6 & L7 & (E1 & E2 & E3 & E4 & E5) & _) Hi. unfold keyOf. simpl. by rewrite !lookup_total_snoc_l by lia.
Qed.

Lemma keyOf_new c n x f node a b : columns_len c n → keyOf (appendRow c x f node a b) n = candKey c x.
Proof.
  intros (L1 & L2 & L3 & L4 & L5 & L6 & L7 & (E1 & E2 & E3 & E4 & E5) & _). rewrite L1 in *. unfold keyOf, candKey. simpl.
  rewrite (lookup_total_snoc (Opcodes c)), (lookup_total_snoc (Fields c)), (lookup_total_snoc (Values c)), (lookup_total_snoc (EvidenceKinds c)),
    (lookup_total_snoc (EvidenceStates c)), (lookup_total_snoc (EvidenceSubjects c)), (lookup_total_snoc (EvidenceScopes c)),
    (lookup_total_snoc (EvidenceTimings c)), (lookup_total_snoc (ListStarts c)), (lookup_total_snoc (ListCounts c)),
    (lookup_total_snoc (OperandStarts c)), (lookup_total_snoc (OperandCounts c)) by done. done.
Qed.

Lemma keysOf_row c n x f node a b : columns_len c n → keysOf (appendRow c x f node a b) = keysOf c ++ [candKey c x].
Proof.
  intros H. unfold keysOf. simpl. rewrite length_app. simpl. rewrite Nat.add_comm. simpl Nat.add. rewrite seq_S, map_app. simpl.
  destruct H as [L1 Hrest] eqn:EH. f_equal.
  - apply map_ext_in. intros i Hi%in_seq. apply (keyOf_row c n); [done|lia].
  - f_equal. rewrite L1. by apply keyOf_new.
Qed.

Lemma columns_len_row c n x f node a b : columns_len c n → columns_len (appendRow c x f node a b) (S n).
Proof.
  unfold columns_len, evidence_columns. simpl. rewrite !length_app. simpl. intros (L1 & L2 & L3 & L4 & L5 & L6 & L7 & (E1 & E2 & E3 & E4 & E5) & L8 & L9 & L10 & L11). lia.
Qed.

(** ** The interned rows *)

Record interned (st : Normalizer) : Prop := {
  in_len : columns_len (cand st) (length (Opcodes (cand st)));
  in_keys : NoDup (keysOf (cand st));
  in_table : table_ok (candidateIDs st) (nth_symbol (keysOf (cand st)));
  in_hashes : length (candidateHashes st) = length (candidateIDs st) ∧
    ∀ s id key, candidateIDs st !! s = Some id → nth_symbol (keysOf (cand st)) id = Some key → candidateHashes st !! s = Some (hash_of key);
  in_rows i : (i < length (Opcodes (cand st)))%nat → row_ok (cand st) i;
  in_pools : zlen (ListValues (cand st)) ≤ MaxUint32 ∧ zlen (Operands (cand st)) ≤ MaxUint32
}.

(** Columns that keep the rows, the pools and the root flags of [c]. *)
Record grows (c c' : InstructionColumns) : Prop := {
  gr_keys : keysOf c `prefix_of` keysOf c';
  gr_lists : ListValues c `prefix_of` ListValues c';
  gr_operands : Operands c `prefix_of` Operands c';
  gr_flags i : (i < length (Opcodes c))%nat → Z.ldiff (RootFlags c !!! i) (RootFlags c' !!! i) = 0
}.

Lemma ldiff_trans a b c : Z.ldiff a b = 0 → Z.ldiff b c = 0 → Z.ldiff a c = 0.
Proof.
  intros F1 F2. apply Z.bits_inj'. intros j Hj. apply (f_equal (λ z, Z.testbit z j)) in F1, F2. rewrite Z.ldiff_spec, Z.testbit_0_l in *.
  destruct (Z.testbit a j), (Z.testbit b j), (Z.testbit c j); done.
Qed.

#[global] Instance grows_preorder : PreOrder grows.
Proof.
  split.
  - intros c. split; try done. intros i _. apply Z.ldiff_diag.
  - intros c1 c2 c3 [K1 L1 O1 F1] [K2 L2 O2 F2]. split; [by etrans..|]. intros i Hi.
    assert (i < length (Opcodes c2))%nat as Hi2.
    { apply prefix_length in K1. unfold keysOf in K1. rewrite !length_map, !length_seq in K1. lia. }
    exact (ldiff_trans _ _ _ (F1 i Hi) (F2 i Hi2)).
Qed.

Lemma grows_key c c' id key : grows c c' → nth_symbol (keysOf c) id = Some key → nth_symbol (keysOf c') id = Some key.
Proof. intros [[k K] _ _ _] [H1 H]%nth_symbol_Some. apply nth_symbol_Some. split; [done|]. rewrite K. by apply lookup_app_l_Some. Qed.

Lemma grows_rows c c' : grows c c' → (length (Opcodes c) ≤ length (Opcodes c'))%nat.
Proof. intros [K _ _ _]. apply prefix_length in K. unfold keysOf in K. by rewrite !length_map, !length_seq in K. Qed.

Lemma ldiff_lor_l a b : Z.ldiff a (Z.lor a b) = 0.
Proof. apply Z.bits_inj'. intros j Hj. rewrite Z.ldiff_spec, Z.lor_spec, Z.testbit_0_l. by destruct (Z.testbit a j), (Z.testbit b j). Qed.

Lemma ldiff_lor_r a b : Z.ldiff b (Z.lor a b) = 0.
Proof. rewrite Z.lor_comm. apply ldiff_lor_l. Qed.

Lemma flags_ok_lor a b : flags_ok a → flags_ok b → flags_ok (Z.lor a b).
Proof.
  intros [A0 A1] [B0 B1]. split; [by apply Z.lor_nonneg|]. apply Z.bits_inj'. intros j Hj.
  apply (f_equal (λ z, Z.testbit z j)) in A1, B1. rewrite Z.ldiff_spec, ?Z.lor_spec, Z.testbit_0_l in *.
  destruct (Z.testbit a j), (Z.testbit b j), (Z.testbit knownRootFlags j); done.
Qed.

(** Appending to the pools. *)
Lemma grows_pools st lists ops :
  interned st → zlen (ListValues (cand st) ++ lists) ≤ MaxUint32 → zlen (Operands (cand st) ++ ops) ≤ MaxUint32 →
  let c' := with_pools (cand st) (ListValues (cand st) ++ lists) (Operands (cand st) ++ ops) (RootFlags (cand st)) in
  interned (with_cand st c') ∧ keysOf c' = keysOf (cand st) ∧ grows (cand st) c'.
Proof.
  intros [Hl Hk Ht Hh Hr Hp] P1 P2 c'.
  assert (keysOf c' = keysOf (cand st)) as E.
  { apply map_ext_in. intros i Hi%in_seq. apply keyOf_pools, Hr. lia. }
  split_and!; [|done|].
  - split; simpl; rewrite ?E; try done. intros i Hi. destruct (Hr i Hi) as [? ? ? Ha Hc ?]. split; try done; try by apply in_pool_app.
    + unfold c'. by rewrite keyOf_pools by (by apply Hr).
    + unfold c'. by rewrite keyOf_pools by (by apply Hr).
  - split; simpl; [by rewrite E|by eexists|by eexists|]. intros. apply Z.ldiff_diag.
Qed.

Lemma candidateHit_hits st x :
  interned st → cand_ok (cand st) x →
  hits (candidateIDs st) (nth_symbol (keysOf (cand st))) (candKey (cand st) x) (candidateHit st (hash_of (candKey (cand st) x)) x).
Proof.
  intros Hin Hx s id Hs Hid. destruct (tb_reach _ _ (in_table _ Hin) s id Hs Hid) as (key & Hkey & _).
  destruct (in_hashes _ Hin) as [_ Hh]. unfold candidateHit. rewrite (at_nat _ _ _ (Hh s id key Hs Hkey)). simpl. rewrite Hkey.
  apply keysOf_Some in Hkey as [Hr ->]. destruct (Z.eqb_spec (hash_of (keyOf (cand st) (Z.to_nat (id - 1)))) (hash_of (candKey (cand st) x))) as [E|Hne].
  - rewrite (candidateEqual_ok (cand st) (length (Opcodes (cand st)))); [|apply Hin|done|apply Hin; lia|done|apply Hin|apply Hin].
    f_equal. apply bool_decide_ext. split; congruence.
  - f_equal. symmetry. apply bool_decide_eq_false_2. congruence.
Qed.

(** What storing candidate [x] of a node with root flags [f] gives: row [id] has its
    key and flags. *)
Record stored (st : Normalizer) (x : instructionCandidate) (f id : Z) (st' : Normalizer) : Prop := {
  sd_interned : interned st';
  sd_key : nth_symbol (keysOf (cand st')) id = Some (candKey (cand st) x);
  sd_grows : grows (cand st) (cand st');
  sd_pools : ListValues (cand st') = ListValues (cand st) ∧ Operands (cand st') = Operands (cand st);
  sd_size : zlen (candidateIDs st') = zlen (candidateIDs st) ∧ zlen (Opcodes (cand st')) ≤ zlen (Opcodes (cand st)) + 1;
  sd_totals : total (ListCounts (cand st')) ≤ total (ListCounts (cand st)) + xListCount x ∧
    total (OperandCounts (cand st')) ≤ total (OperandCounts (cand st)) + xOperandCount x;
  sd_new i : (length (Opcodes (cand st)) ≤ i < length (Opcodes (cand st')))%nat → id = Z.of_nat i + 1;
  sd_flags : Z.ldiff f (RootFlags (cand st') !!! Z.to_nat (id - 1)) = 0;
  sd_nodes : nodeCanon st' = nodeCanon st ∧ nodeState st' = nodeState st ∧ nodeRoots st' = nodeRoots st ∧
    nodeFlatStart st' = nodeFlatStart st ∧ nodeFlatCount st' = nodeFlatCount st
}.

Lemma stored_found st x f id all :
  interned st → flags_ok f → cand_ok (cand st) x → nth_symbol (keysOf (cand st)) id = Some (candKey (cand st) x) →
  all = <[Z.to_nat (id - 1) := Z.lor (RootFlags (cand st) !!! Z.to_nat (id - 1)) f]> (RootFlags (cand st)) →
  stored st x f id (with_cand st (with_pools (cand st) (ListValues (cand st)) (Operands (cand st)) all)).
Proof.
  intros Hin Hf [(_ & X1 & _) (_ & X2 & _)] Hkey ->. pose proof Hkey as [Hid _]%keysOf_Some.
  pose proof (in_len _ Hin) as (L1 & L2 & L3 & L4 & L5 & L6 & L7 & E & L8 & Lrest).
  assert (∀ i, Z.ldiff (RootFlags (cand st) !!! i) (<[Z.to_nat (id - 1) := Z.lor (RootFlags (cand st) !!! Z.to_nat (id - 1)) f]> (RootFlags (cand st)) !!! i) = 0) as Hmono.
  { intros i. destruct (decide (i = Z.to_nat (id - 1))) as [->|Hne].
    - rewrite list_lookup_total_insert_eq by lia. apply ldiff_lor_l.
    - rewrite list_lookup_total_insert_ne by done. apply Z.ldiff_diag. }
  split; simpl; try done.
  - split; simpl; try apply Hin.
    + unfold columns_len. simpl. rewrite length_insert. done.
    + intros i Hi. destruct (in_rows _ Hin i Hi) as [? ? ? ? ? Hfi ?]. split; try done. simpl. destruct (decide (i = Z.to_nat (id - 1))) as [->|Hne].
      * rewrite list_lookup_total_insert_eq by lia. by apply flags_ok_lor.
      * by rewrite list_lookup_total_insert_ne.
  - lia.
  - lia.
  - intros i Hi. lia.
  - rewrite list_lookup_total_insert_eq by lia. apply ldiff_lor_r.
Qed.

Lemma stored_new st x f node a b s :
  interned st → flags_ok f → cand_ok (cand st) x → OpcodeValid (xOpcode x) = true →
  Forall (λ o, 1 ≤ o ≤ zlen (Opcodes (cand st))) (kArgs (candKey (cand st) x)) → (kArgs (candKey (cand st) x) ≠ [] → connective (xOpcode x) = true) →
  candKey (cand st) x ∉ keysOf (cand st) → 1 ≤ node → a ≤ b →
  candidateIDs st !! s = Some 0 → reachable (candidateIDs st) (hash_of (candKey (cand st) x)) s →
  stored st x f (zlen (Opcodes (cand st)) + 1)
    {| nodeCanon := nodeCanon st; nodeState := nodeState st; nodeRoots := nodeRoots st; nodeFlatStart := nodeFlatStart st;
       nodeFlatCount := nodeFlatCount st; cand := appendRow (cand st) x f node a b;
       candidateHashes := <[s := hash_of (candKey (cand st) x)]> (candidateHashes st);
       candidateIDs := <[s := zlen (Opcodes (cand st)) + 1]> (candidateIDs st) |}.
Proof.
  intros Hin Hf [Xl Xo] Hop Hargs Hcon Hnew Hnode Hab H0 Hreach. pose proof (in_len _ Hin) as Hlen. set (c := cand st) in *. set (n := length (Opcodes c)) in *.
  pose proof (keysOf_row c n x f node a b Hlen) as Ek. assert (zlen (keysOf c) = Z.of_nat n) as Hn by (unfold keysOf; by rewrite length_map, length_seq).
  pose proof Hlen as (L1 & L2 & L3 & L4 & L5 & L6 & L7 & (E1 & E2 & E3 & E4 & E5) & L8 & L9 & L10 & L11).
  split; simpl; try done.
  - split; simpl; rewrite ?Ek, ?length_app; simpl.
    + rewrite Nat.add_1_r. by apply columns_len_row.
    + apply NoDup_snoc; [apply Hin|done].
    + rewrite <-Hn. by apply table_append; [apply Hin| |].
    + rewrite !length_insert. destruct (in_hashes _ Hin) as [Hlh Hh]. split; [done|]. pose proof (lookup_lt_Some _ _ _ H0).
      intros s' id key [(-> & <- & _)|(Hne & Hs')]%list_lookup_insert_Some.
      * rewrite nth_symbol_app, bool_decide_eq_true_2 by lia. intros [= <-]. by rewrite list_lookup_insert_eq by lia.
      * rewrite list_lookup_insert_ne by done. rewrite nth_symbol_app. case_bool_decide as Hid; [|by apply Hh].
        exfalso. destruct (tb_reach _ _ (in_table _ Hin) s' id Hs' ltac:(lia)) as (key' & Hkey' & _).
        apply nth_symbol_range in Hkey'. fold c in Hkey'. lia.
    + intros i Hi. destruct (decide (i = n)) as [->|Hne].
      * split; simpl.
        -- by rewrite lookup_total_snoc.
        -- by rewrite !lookup_total_snoc by done.
        -- by rewrite !lookup_total_snoc by done.
        -- by rewrite !lookup_total_snoc by done.
        -- by rewrite !lookup_total_snoc by done.
        -- by rewrite lookup_total_snoc.
        -- by rewrite !lookup_total_snoc by done.
      * assert (i < n)%nat as Hlt by lia. destruct (in_rows _ Hin i Hlt) as [R1 R2 R3 R4 R5 R6 R7].
        split; simpl; rewrite ?lookup_total_snoc_l by (done || lia); done.
    + apply Hin.
  - simpl. rewrite Ek, nth_symbol_app. by rewrite bool_decide_eq_true_2 by lia.
  - split; simpl; [rewrite Ek; by eexists|done|done|]. intros i Hi. fold n in Hi. rewrite lookup_total_snoc_l by (rewrite L8; exact Hi). apply Z.ldiff_diag.
  - rewrite length_insert, length_app. simpl. fold c. lia.
  - rewrite !total_app. simpl. fold c. unfold total. simpl. lia.
  - intros i. rewrite length_app. simpl. fold c. lia.
  - rewrite lookup_total_snoc by (fold c; lia). apply Z.ldiff_diag.
Qed.

Lemma appendCandidate_ok node span x st f :
  interned st → nodeRoots st !! Z.to_nat (node - 1) = Some f → 1 ≤ node → span.1 ≤ span.2 → flags_ok f → cand_ok (cand st) x → OpcodeValid (xOpcode x) = true →
  Forall (λ o, 1 ≤ o ≤ zlen (Opcodes (cand st))) (kArgs (candKey (cand st) x)) → (kArgs (candKey (cand st) x) ≠ [] → connective (xOpcode x) = true) →
  zlen (Opcodes (cand st)) < MaxUint32 → zlen (Opcodes (cand st)) < zlen (candidateIDs st) →
  ∃ id st', appendCandidate node span x st = Ok (id, st') ∧ stored st x f id st'.
Proof.
  intros Hin Hroot Hnode Hspan Hf Hx Hop Hargs Hcon Hmax Hroom. unfold appendCandidate. unfold MaxUint32 in Hmax.
  rewrite (proj2 (Z.eqb_neq _ 0)), (proj2 (Z.leb_gt _ _)) by (unfold MaxUint32; lia). simpl.
  rewrite candidateHash_ok by (done || apply Hin). simpl.
  assert (at_ (nodeRoots st) (node - 1) = Ok f) as Hat by (apply at_Ok; split; [lia|done]).
  destruct (probe_table _ _ _ _ (in_table _ Hin) (candidateHit_hits st x Hin Hx)) as (r & -> & Hm). simpl. destruct r as [id|slot|].
  - rewrite Hat. simpl. pose proof Hm as [Hid _]%keysOf_Some. pose proof (in_len _ Hin) as (_ & _ & _ & _ & _ & _ & _ & _ & L8 & _).
    rewrite (at_total (RootFlags (cand st))) by lia. simpl. rewrite (put_Ok (RootFlags (cand st))) by lia. simpl. eexists _, _. split; [done|]. by apply stored_found.
  - destruct Hm as (s & -> & H0 & Hr & Hnew%nth_symbol_absent). rewrite Hat. simpl. pose proof (lookup_lt_Some _ _ _ H0) as Hlt.
    destruct (in_hashes _ Hin) as [Hlh _]. rewrite (put_Ok (candidateHashes st)) by lia. simpl. rewrite (put_Ok (candidateIDs st)) by lia. simpl. rewrite Nat2Z.id.
    rewrite u32_small by (unfold is_u32; lia). eexists _, _. split; [done|]. by apply stored_new.
  - exfalso. apply (proj1 Hm). apply (table_has_room _ _ (zlen (Opcodes (cand st))) (in_table _ Hin)); [|done].
    intros id b [H _]%keysOf_Some. lia.
Qed.
