(* ===== verification/WalkOk.v ===== *)
(** * The walk over the expression graph

    The depth-first walk of compile/lower.go, with the candidates of
    compile/normalize_instructions.go: every node below a root is finished exactly
    once, after its children, and its canonical instruction has the key the node
    prescribes; groups hold the operands of nested groups of their own kind.  The
    walk ends within its fuel on every document. *)

From S2P Require Import Prelude Store Truth Schema Result Program Batch Predicate Evidence Executor PolicyIndex Finalize Execute.
From S2P Require Import Liveness Schedule SymbolTable Interner Frozen SymbolCheck Ast Constants ConstantsMeaning Normalize WalkEnd DocMeaning NormalizeOk Compact.

(** ** Sums over the nodes of a document *)

Lemma sumOver_app f l k : sumOver f (l ++ k) = sumOver f l + sumOver f k.
Proof. induction l as [|x l IH]; simpl; lia. Qed.

Lemma sumOver_nonneg f l : (∀ x, 0 ≤ f x) → 0 ≤ sumOver f l.
Proof. intros H. induction l as [|x l IH]; simpl; [lia|]. specialize (H x). lia. Qed.

Lemma sumOver_prefix f l k : (∀ x, 0 ≤ f x) → l `prefix_of` k → sumOver f l ≤ sumOver f k.
Proof. intros H [m ->]. rewrite sumOver_app. pose proof (sumOver_nonneg f m H). lia. Qed.

Lemma sumOver_le f g l : (∀ x, x ∈ l → f x ≤ g x) → sumOver f l ≤ sumOver g l.
Proof.
  induction l as [|x l IH]; simpl; intros H; [lia|]. pose proof (H x (list_elem_of_here _ _)).
  assert (sumOver f l ≤ sumOver g l) by (apply IH; intros y Hy; apply H; by right). lia.
Qed.

Lemma zlen_concat_map (f : Z → list Z) l : zlen (concat (map f l)) = sumOver (λ x, zlen (f x)) l.
Proof. induction l as [|x l IH]; simpl; [done|]. rewrite length_app. lia. Qed.

(** The sum of [f] over the black nodes. *)
Definition blackSum (f : Z → Z) (states : list Z) : Z :=
  sumOver (λ node, if states !!! Z.to_nat (node - 1) =? nodeBlack then f node else 0) (nodesTo (length states)).

Lemma blackSum_le f states : (∀ x, 0 ≤ f x) → 0 ≤ blackSum f states ≤ sumOver f (nodesTo (length states)).
Proof. intros H. split; [apply sumOver_nonneg|apply sumOver_le]; intros x; specialize (H x); case_match; lia. Qed.

Lemma sumOver_update (f g : Z → Z) n i : (i < n)%nat → (∀ j, (j < n)%nat → j ≠ i → f (Z.of_nat j + 1) = g (Z.of_nat j + 1)) →
  sumOver f (nodesTo n) - f (Z.of_nat i + 1) = sumOver g (nodesTo n) - g (Z.of_nat i + 1).
Proof.
  induction n as [|n IH]; intros Hi H; [lia|]. unfold nodesTo in *. rewrite seq_S, map_app, !sumOver_app. simpl.
  destruct (decide (i = n)) as [->|Hne].
  - assert (∀ m, (m ≤ n)%nat → sumOver f (map (λ i, Z.of_nat i + 1) (seq 0 m)) = sumOver g (map (λ i, Z.of_nat i + 1) (seq 0 m))) as E.
    { induction m as [|m IHm]; intros Hm; [done|]. rewrite seq_S, map_app, !sumOver_app. simpl. rewrite IHm, H by lia. done. }
    rewrite (E n) by lia. lia.
  - rewrite (H n) by lia. assert (sumOver f (map (λ i, Z.of_nat i + 1) (seq 0 n)) - f (Z.of_nat i + 1) = sumOver g (map (λ i, Z.of_nat i + 1) (seq 0 n)) - g (Z.of_nat i + 1)).
    { apply IH; [lia|]. intros j Hj Hji. apply H; lia. }
    lia.
Qed.

(** Blackening a node adds its term; another colour adds nothing. *)
Lemma blackSum_set f states i x : (i < length states)%nat → states !!! i ≠ nodeBlack →
  blackSum f (<[i := x]> states) = blackSum f states + if x =? nodeBlack then f (Z.of_nat i + 1) else 0.
Proof.
  intros Hi Hb. unfold blackSum. rewrite length_insert.
  pose proof (sumOver_update (λ node, if <[i := x]> states !!! Z.to_nat (node - 1) =? nodeBlack then f node else 0)
    (λ node, if states !!! Z.to_nat (node - 1) =? nodeBlack then f node else 0) (length states) i Hi) as E. simpl in E.
  rewrite !(Z.add_simpl_r _ 1), !Nat2Z.id, list_lookup_total_insert_eq, (proj2 (Z.eqb_neq (states !!! i) _)) in E by done.
  enough (sumOver (λ node, if <[i := x]> states !!! Z.to_nat (node - 1) =? nodeBlack then f node else 0) (nodesTo (length states)) -
    (if x =? nodeBlack then f (Z.of_nat i + 1) else 0) = sumOver (λ node, if states !!! Z.to_nat (node - 1) =? nodeBlack then f node else 0) (nodesTo (length states)) - 0) by lia.
  apply E. intros j Hj Hji. rewrite !(Z.add_simpl_r _ 1), !Nat2Z.id. by rewrite list_lookup_total_insert_ne.
Qed.

(** ** The key a node prescribes *)

Definition noPredicate : EvidencePredicate := {| epKind := 0; epState := 0; epSubject := 0; epScope := 0; epTiming := 0 |}.

Lemma compareOp_cases op : CompareOpValid op = true → op ∈ [1; 2; 3; 4; 5; 6; 7; 8; 9].
Proof.
  unfold CompareOpValid, CompareOpEqual, CompareOpDefined. rewrite andb_true_iff, !Z.leb_le. intros H.
  assert (op = 1 ∨ op = 2 ∨ op = 3 ∨ op = 4 ∨ op = 5 ∨ op = 6 ∨ op = 7 ∨ op = 8 ∨ op = 9) by lia. set_solver.
Qed.

Lemma compareOpcode_ok op : CompareOpValid op = true → ∃ opcode, compareOpcode op = Some opcode ∧ OpcodeValid opcode = true.
Proof.
  intros Hin%compareOp_cases. repeat (apply elem_of_cons in Hin as [->|Hin]; [by eexists|]). by apply elem_of_nil in Hin.
Qed.

Section walk.
Context (k : constState) (d : Document).

Definition canonOf (id : Z) : Z := match canonicalValue k id with Ok v => v | _ => 0 end.
Definition symOf (id : Z) : Z := match optionalSymbolForValue k id with Ok s => s | _ => 0 end.

(** The columns of a node in the scratch. *)
Definition canonAt (st : Normalizer) (node : Z) : Z := nodeCanon st !!! Z.to_nat (node - 1).
Definition stateAt (st : Normalizer) (node : Z) : Z := nodeState st !!! Z.to_nat (node - 1).
Definition flatStartAt (st : Normalizer) (node : Z) : Z := nodeFlatStart st !!! Z.to_nat (node - 1).
Definition flatCountAt (st : Normalizer) (node : Z) : Z := nodeFlatCount st !!! Z.to_nat (node - 1).
Definition flatArgs (st : Normalizer) (node : Z) : list Z := csr (Operands (cand st)) (flatStartAt st node) (flatCountAt st node).

(** The operands a child contributes to a group of kind [kind], and the arguments
    of a node. *)
Definition childArgs (st : Normalizer) (kind child : Z) : list Z :=
  if bool_decide (Kind d child = Some kind) then flatArgs st child else [canonAt st child].

Definition nodeArgs (st : Normalizer) (node : Z) : list Z :=
  match Kind d node with
  | Some kind => if kind =? NodeKindNot then map (canonAt st) (childrenOf d node) else concat (map (childArgs st kind) (childrenOf d node))
  | None => []
  end.

Definition queryPredicate (q : EvidenceQuery) : EvidencePredicate :=
  {| epKind := qKind q; epState := qState q; epSubject := symOf (qSubject q); epScope := symOf (qScope q); epTiming := symOf (qTiming q) |}.

Definition mkKey (opcode field value : Z) (e : EvidencePredicate) (lits args : list Z) : ikey :=
  {| kOpcode := opcode; kField := field; kValue := value; kEvidence := e; kLiterals := lits; kArgs := args |}.

Definition nodeKey (node : Z) (args : list Z) : ikey :=
  match Kind d node with
  | None => mkKey 0 0 0 noPredicate [] []
  | Some kind =>
      if kind =? NodeKindBoolean then mkKey OpcodeBoolean 0 (canonOf (default 0 (Boolean d node))) noPredicate [] []
      else if kind =? NodeKindCompare then
        let '(field, op, value) := default (0, 0, 0) (Compare d node) in
        mkKey (default 0 (compareOpcode op)) field (if (op =? CompareOpIn) || (value =? 0) then 0 else canonOf value) noPredicate
          (if op =? CompareOpIn then map canonOf (default [] (InValues d node)) else []) []
      else if isGroupKind kind then mkKey (if kind =? NodeKindAll then OpcodeAll else OpcodeAny) 0 0 noPredicate [] args
      else if kind =? NodeKindNot then mkKey OpcodeNot 0 0 noPredicate [] args
      else match EvidenceMatch d node with Some q => mkKey OpcodeEvidence 0 0 (queryPredicate q) [] [] | None => mkKey 0 0 0 noPredicate [] [] end
  end.

Context (w : Z → Z).

(** A finished node: its canonical row has the node's key and flags, and a group's
    flat range holds its arguments. *)
Record finished (st : Normalizer) (node : Z) : Prop := {
  fn_key : nth_symbol (keysOf (cand st)) (canonAt st node) = Some (nodeKey node (nodeArgs st node));
  fn_flags : Z.ldiff (nodeRoots st !!! Z.to_nat (node - 1)) (RootFlags (cand st) !!! Z.to_nat (canonAt st node - 1)) = 0;
  fn_flat kind : Kind d node = Some kind → isGroupKind kind = true →
    in_pool (Operands (cand st)) (flatStartAt st node) (flatCountAt st node) ∧ flatArgs st node = nodeArgs st node ∧
    0 < flatCountAt st node ≤ w node
}.

Definition node_columns (st : Normalizer) : Prop :=
  let n := length (dNodeKinds d) in
  length (nodeCanon st) = n ∧ length (nodeState st) = n ∧ length (nodeRoots st) = n ∧ length (nodeFlatStart st) = n ∧ length (nodeFlatCount st) = n.

(** The semantic roots of each flag. *)
Definition marked (node flag : Z) : Prop :=
  (flag = RootApplicability ∧ node ∈ dRequirementApplicabilityRoots d) ∨ (flag = RootAssertion ∧ node ∈ dClauseAssertionRoots d) ∨
  (flag = RootEvidence ∧ node ∈ dClauseEvidenceNodeIDs d).

Record walking (st : Normalizer) : Prop := {
  wk_interned : interned st;
  wk_columns : node_columns st;
  wk_slots : DocLen d < zlen (candidateIDs st);
  wk_roots : Forall flags_ok (nodeRoots st) ∧ ∀ node flag, marked node flag → Z.ldiff flag (nodeRoots st !!! Z.to_nat (node - 1)) = 0;
  wk_states : Forall (λ s, s = 0 ∨ s = nodeGray ∨ s = nodeBlack) (nodeState st);
  wk_black node : 1 ≤ node ≤ DocLen d → stateAt st node = nodeBlack → finished st node ∧ Forall (λ c, stateAt st c = nodeBlack) (childrenOf d node);
  wk_sizes : zlen (Opcodes (cand st)) ≤ blackSum (λ _, 1) (nodeState st) ∧ zlen (Operands (cand st)) ≤ blackSum w (nodeState st) ∧
    zlen (ListValues (cand st)) ≤ blackSum (listLen d) (nodeState st);
  wk_origin i : (i < length (Opcodes (cand st)))%nat → ∃ node, 1 ≤ node ≤ DocLen d ∧ stateAt st node = nodeBlack ∧ canonAt st node = Z.of_nat i + 1;
  wk_totals : total (OperandCounts (cand st)) ≤ blackSum w (nodeState st) ∧ total (ListCounts (cand st)) ≤ blackSum (listLen d) (nodeState st)
}.

(** ** The candidate of a node *)

Context (schema : IndexSchema) (Hdoc : doc_ok d schema) (Hw : width_ok d w).
Context (Hval : ∀ id l, 0 ≤ id → literalOf d id = Some l → canonicalValue k id = Ok (canonOf id)).
Context (Hsym : ∀ id, nameOk d id → optionalSymbolForValue k id = Ok (symOf id)).

Lemma listLen_nonneg node : 0 ≤ listLen d node.
Proof. unfold listLen. lia. Qed.

(** A node that is not black has room for its own term. *)
Lemma black_room f st node : (∀ x, 0 ≤ f x) → node_columns st → 1 ≤ node ≤ DocLen d → stateAt st node ≠ nodeBlack →
  blackSum f (nodeState st) + f node ≤ sumOver f (nodesTo (length (dNodeKinds d))).
Proof.
  unfold DocLen. intros Hf (_ & L & _) Hn Hb. pose proof (blackSum_set f (nodeState st) (Z.to_nat (node - 1)) nodeBlack ltac:(lia) Hb) as E.
  rewrite Z.eqb_refl in E. replace (Z.of_nat (Z.to_nat (node - 1)) + 1) with node in E by lia. rewrite <-E.
  pose proof (blackSum_le f (<[Z.to_nat (node - 1) := nodeBlack]> (nodeState st)) Hf) as H. rewrite length_insert, L in H. lia.
Qed.

Record prepared (node : Z) (st : Normalizer) (x : instructionCandidate) (st' : Normalizer) : Prop := {
  pp_interned : interned st';
  pp_grows : grows (cand st) (cand st') ∧ keysOf (cand st') = keysOf (cand st) ∧ Opcodes (cand st') = Opcodes (cand st);
  pp_cand : cand_ok (cand st') x ∧ OpcodeValid (xOpcode x) = true;
  pp_key : candKey (cand st') x = nodeKey node (nodeArgs st node);
  pp_args : Forall (λ o, 1 ≤ o ≤ zlen (Opcodes (cand st))) (kArgs (candKey (cand st') x)) ∧ (kArgs (candKey (cand st') x) ≠ [] → connective (xOpcode x) = true);
  pp_sizes : zlen (Operands (cand st')) ≤ zlen (Operands (cand st)) + w node ∧ zlen (ListValues (cand st')) ≤ zlen (ListValues (cand st)) + listLen d node;
  pp_counts : ListCounts (cand st') = ListCounts (cand st) ∧ OperandCounts (cand st') = OperandCounts (cand st) ∧
    xListCount x ≤ listLen d node ∧ xOperandCount x ≤ w node;
  pp_same : nodeCanon st' = nodeCanon st ∧ nodeState st' = nodeState st ∧ nodeRoots st' = nodeRoots st ∧ candidateIDs st' = candidateIDs st;
  pp_flat : ∃ s c, nodeFlatStart st' = <[Z.to_nat (node - 1) := s]> (nodeFlatStart st) ∧ nodeFlatCount st' = <[Z.to_nat (node - 1) := c]> (nodeFlatCount st) ∧
    ∀ kind, Kind d node = Some kind → isGroupKind kind = true →
      in_pool (Operands (cand st')) s c ∧ csr (Operands (cand st')) s c = nodeArgs st node ∧ 0 < c ≤ w node
}.

(** Candidates of nodes that are not groups leave the flat columns alone. *)
Lemma flat_same st node kind (P : Z → Z → Prop) : node_columns st → 1 ≤ node ≤ DocLen d → Kind d node = Some kind → isGroupKind kind = false →
  ∃ s c, nodeFlatStart st = <[Z.to_nat (node - 1) := s]> (nodeFlatStart st) ∧ nodeFlatCount st = <[Z.to_nat (node - 1) := c]> (nodeFlatCount st) ∧
    ∀ kind, Kind d node = Some kind → isGroupKind kind = true → P s c.
Proof.
  unfold DocLen. intros (_ & _ & _ & L1 & L2) Hn Hk Hg. exists (flatStartAt st node), (flatCountAt st node).
  split_and!; [symmetry; apply list_insert_id, list_lookup_lookup_total_lt; lia..|]. intros kind' E. congruence.
Qed.

Lemma prepared_leaf node st x kind :
  walking st → 1 ≤ node ≤ DocLen d → Kind d node = Some kind → isGroupKind kind = false →
  (xListStart x, xListCount x, xOperandStart x, xOperandCount x) = (0, 0, 0, 0) → OpcodeValid (xOpcode x) = true →
  candKey (cand st) x = nodeKey node (nodeArgs st node) → prepared node st x st.
Proof.
  intros Hst Hn Hk Hg [= E1 E2 E3 E4] Hop Hkey. pose proof (wo_range _ _ Hw node). pose proof (listLen_nonneg node). split; try done.
  - apply Hst.
  - split; [|done]. split; rewrite ?E1, ?E2, ?E3, ?E4; apply in_pool_0.
  - simpl. rewrite E3, E4. by split; [constructor|].
  - lia.
  - rewrite E2, E4. split_and!; done || lia.
  - apply (flat_same _ _ kind); [apply Hst|done..].
Qed.

Lemma Hval_map kind vs : Forall (valueOk d kind) vs → map_go (canonicalValue k) vs = Ok (map canonOf vs).
Proof. intros H. apply map_go_Ok. intros x Hx. rewrite Forall_forall in H. destruct (H x Hx) as (H0 & l & Hl & _). by apply (Hval x l). Qed.

(** What a finished child contributes to a group. *)
Lemma childArgs_ok st kind child :
  walking st → 1 ≤ child ≤ DocLen d → stateAt st child = nodeBlack → isGroupKind kind = true →
  zlen (childArgs st kind child) ≤ arity d w kind child ∧ Forall (λ o, 1 ≤ o ≤ zlen (Opcodes (cand st))) (childArgs st kind child) ∧ childArgs st kind child ≠ [].
Proof.
  intros Hst Hc Hb Hg. destruct (wk_black _ Hst child Hc Hb) as [[Hkey _ Hflat] _]. unfold childArgs, arity.
  case_bool_decide as Hk.
  - destruct (Hflat kind Hk Hg) as ((P0 & P1 & P2) & E & Hpos). unfold flatArgs in *. rewrite length_csr by lia. split_and!; [lia| |].
    + rewrite E. pose proof Hkey as [Hid Ek]%keysOf_Some. pose proof (ro_args _ _ (in_rows _ (wk_interned _ Hst) (Z.to_nat (canonAt st child - 1)) ltac:(lia))) as Ha.
      rewrite <-Ek in Ha. unfold nodeKey in Ha. rewrite Hk in Ha.
      rewrite (proj2 (Z.eqb_neq kind NodeKindBoolean)), (proj2 (Z.eqb_neq kind NodeKindCompare)), Hg in Ha by (intros ->; done). simpl in Ha.
      eapply Forall_impl; [exact Ha|]. simpl. lia.
    + intros E'%(f_equal length). rewrite length_csr in E' by lia. simpl in E'. lia.
  - apply keysOf_Some in Hkey as [Hid _]. split_and!; [done| |done]. by constructor; [|constructor].
Qed.

Lemma appendChild_ok st kind child acc :
  walking st → 1 ≤ child ≤ DocLen d → stateAt st child = nodeBlack → isGroupKind kind = true →
  zlen acc + arity d w kind child ≤ MaxUint16 → zlen (Operands (cand st)) + zlen acc + arity d w kind child ≤ MaxUint32 →
  appendChild d st kind child (zlen acc, Operands (cand st) ++ acc) =
    Ok (zlen (acc ++ childArgs st kind child), Operands (cand st) ++ acc ++ childArgs st kind child).
Proof.
  unfold MaxUint16, MaxUint32. intros Hst Hc Hb Hg H16 H32. pose proof (wk_columns _ Hst) as (C1 & C2 & C3 & C4 & C5). unfold DocLen in Hc.
  destruct (wk_black _ Hst child Hc Hb) as [[Hkey _ Hflat] _]. destruct (childArgs_ok st kind child Hst Hc Hb Hg) as (Hlen & _ & Hne).
  destruct (dk_node _ _ Hdoc child Hc) as [Hok _]. assert (∃ ck, Kind d child = Some ck) as [ck Hck] by (destruct Hok; eauto).
  unfold appendChild. rewrite Hck. simpl. unfold childArgs, arity in *. rewrite Hck in *. destruct (Z.eqb_spec ck kind) as [->|Hd].
  - rewrite bool_decide_eq_true_2 in * by done. destruct (Hflat kind eq_refl Hg) as ((P0 & P1 & P2) & E & Hpos).
    rewrite (at_total (nodeFlatStart st)), (at_total (nodeFlatCount st)) by lia. simpl. fold (flatStartAt st child) (flatCountAt st child).
    unfold flatArgs in *. rewrite length_csr in Hlen by lia. rewrite Z2Nat.id in Hlen by lia. rewrite length_app.
    rewrite !u64_small by (unfold is_u64; lia). rewrite (proj2 (Z.eqb_neq _ 0)) by lia. rewrite !(proj2 (Z.ltb_ge _ _)) by (unfold MaxUint16, MaxUint32; lia). simpl.
    rewrite u32_small by (unfold is_u32; lia). rewrite slice_csr by (rewrite ?length_app; lia). simpl. rewrite csr_app_l by done.
    rewrite !length_app, length_csr by lia. rewrite <-app_assoc. do 2 f_equal. lia.
  - rewrite bool_decide_eq_false_2 in * by congruence. rewrite (at_total (nodeCanon st)) by lia. simpl. fold (canonAt st child).
    apply keysOf_Some in Hkey as [Hid _]. rewrite (proj2 (Z.eqb_neq _ 0)) by lia. simpl. rewrite length_app.
    rewrite !u64_small by (unfold is_u64; lia). rewrite !(proj2 (Z.ltb_ge _ _)) by (unfold MaxUint16, MaxUint32; lia). simpl.
    rewrite length_app. simpl. rewrite <-app_assoc. do 2 f_equal. lia.
Qed.

Lemma arity_nonneg kind child : 0 ≤ arity d w kind child.
Proof. unfold arity. pose proof (wo_range _ _ Hw child). case_match; lia. Qed.

Lemma appendChildren_ok st kind children :
  walking st → isGroupKind kind = true → Forall (λ c, 1 ≤ c ≤ DocLen d) children → Forall (λ c, stateAt st c = nodeBlack) children →
  sumOver (arity d w kind) children ≤ MaxUint16 → zlen (Operands (cand st)) + sumOver (arity d w kind) children ≤ MaxUint32 →
  let args := concat (map (childArgs st kind) children) in
  fold_go (appendChild d st kind) children (0, Operands (cand st)) = Ok (zlen args, Operands (cand st) ++ args) ∧
  zlen args ≤ sumOver (arity d w kind) children ∧ Forall (λ o, 1 ≤ o ≤ zlen (Opcodes (cand st))) args ∧ (children ≠ [] → args ≠ []).
Proof.
  intros Hst Hg Hr Hb H16 H32 args. rewrite Forall_forall in Hr, Hb.
  assert (∀ pre, pre `prefix_of` children → zlen (concat (map (childArgs st kind) pre)) ≤ sumOver (arity d w kind) pre ∧
    sumOver (arity d w kind) pre ≤ sumOver (arity d w kind) children) as Hpre.
  { intros pre Hp. split; [|by apply sumOver_prefix; [apply arity_nonneg|]]. rewrite zlen_concat_map. apply sumOver_le. intros c Hc.
    assert (c ∈ children) as Hc' by (destruct Hp as [post ->]; apply elem_of_app; by left). apply childArgs_ok; [done|by apply Hr|by apply Hb|done]. }
  split_and!.
  - fold_loop (λ pre acc, acc = (zlen (concat (map (childArgs st kind) pre)), Operands (cand st) ++ concat (map (childArgs st kind) pre))) as (acc & -> & ->).
    + simpl. by rewrite app_nil_r.
    + intros pre c post acc E ->. eexists. rewrite map_app, concat_app. cbn [map concat]. rewrite app_nil_r.
      assert (c ∈ children) as Hc by (rewrite E; set_solver).
      destruct (Hpre pre) as [P1 P2]; [by exists (c :: post)|]. destruct (Hpre (pre ++ [c])) as [_ P3]; [exists post; by rewrite <-app_assoc|].
      rewrite sumOver_app in P3. simpl in P3. rewrite (appendChild_ok st kind c); [done|done|by apply Hr|by apply Hb|done|lia|lia].
    + done.
  - apply Hpre. done.
  - apply Forall_concat, Forall_map, Forall_forall. intros c Hc. apply childArgs_ok; [done|by apply Hr|by apply Hb|done].
  - intros Hne E. destruct children as [|c children]; [done|]. unfold args in E. simpl in E. apply app_nil in E as [E _].
    revert E. apply childArgs_ok; [done|apply Hr; by left|apply Hb; by left|done].
Qed.

Lemma group_not_leaf kind : isGroupKind kind = true → (kind =? NodeKindBoolean) = false ∧ (kind =? NodeKindCompare) = false ∧ (kind =? NodeKindNot) = false.
Proof. intros H. split_and!; apply Z.eqb_neq; by intros ->. Qed.

Lemma pool_room st node : walking st → 1 ≤ node ≤ DocLen d → stateAt st node ≠ nodeBlack →
  zlen (Operands (cand st)) + w node ≤ MaxUint32 ∧ zlen (ListValues (cand st)) + listLen d node ≤ MaxUint32 ∧ zlen (Opcodes (cand st)) < DocLen d.
Proof.
  intros Hst Hn Hb. destruct (wk_sizes _ Hst) as (S1 & S2 & S3). pose proof (wk_columns _ Hst) as Hc.
  pose proof (black_room w st node (λ x, proj1 (wo_range _ _ Hw x)) Hc Hn Hb). pose proof (black_room (listLen d) st node listLen_nonneg Hc Hn Hb).
  pose proof (black_room (λ _, 1) st node ltac:(intros; lia) Hc Hn Hb) as H1. pose proof (wo_operands _ _ Hw). pose proof (wo_lists _ _ Hw).
  assert (∀ n, sumOver (λ _, 1) (nodesTo n) = Z.of_nat n) as E.
  { intros n. unfold nodesTo. induction n as [|n IH]; [done|]. rewrite seq_S, map_app, sumOver_app, IH. simpl. lia. }
  rewrite E in H1. unfold DocLen in *. split_and!; lia.
Qed.

Lemma prepare_group node st kind children :
  walking st → 1 ≤ node ≤ DocLen d → stateAt st node ≠ nodeBlack → Kind d node = Some kind → isGroupKind kind = true →
  GroupChildren d node = Some children → children ≠ [] → Forall (λ c, 1 ≤ c ≤ DocLen d) children → Forall (λ c, stateAt st c = nodeBlack) children →
  ∃ x st', candidateOf k d node kind st = Ok (x, st') ∧ prepared node st x st'.
Proof.
  intros Hst Hn Hnb Hk Hg Hch Hne Hr Hb. destruct (group_not_leaf kind Hg) as (G1 & G2 & G3). pose proof (wk_columns _ Hst) as (C1 & C2 & C3 & C4 & C5).
  destruct (pool_room st node Hst Hn Hnb) as (P1 & P2 & _). pose proof (wo_range _ _ Hw node) as W16. pose proof (wo_group _ _ Hw _ _ _ Hn Hk Hg Hch) as Ww.
  destruct (appendChildren_ok st kind children Hst Hg Hr Hb) as (Hfold & Hlen & Hargs & Hpos); [lia|lia|]. unfold DocLen in Hn. specialize (Hpos Hne).
  assert (nodeArgs st node = concat (map (childArgs st kind) children)) as Ea by (unfold nodeArgs, childrenOf; rewrite Hk, G3, Hg, Hch; done).
  set (args := concat (map (childArgs st kind) children)) in *.
  unfold candidateOf. rewrite G1, G2, Hg. unfold appendGroupOperands. rewrite Hch. simpl. rewrite bool_decide_eq_false_2 by done. simpl.
  rewrite (proj2 (Z.leb_le _ _)) by lia. simpl. rewrite Hfold. simpl. rewrite u32_small by (unfold is_u32, MaxUint32 in *; lia).
  rewrite (put_Ok (nodeFlatStart st)) by lia. simpl. rewrite (put_Ok (nodeFlatCount st)) by lia. simpl. eexists _, _. split; [done|].
  destruct (grows_pools st [] args) as (Hin & Ek & Hgr); [apply Hst|rewrite app_nil_r; apply Hst|rewrite length_app; lia|]. rewrite !app_nil_r in *.
  pose proof (listLen_nonneg node).
  assert (candKey (with_pools (cand st) (ListValues (cand st)) (Operands (cand st) ++ args) (RootFlags (cand st)))
    {| xOpcode := if kind =? NodeKindAll then OpcodeAll else OpcodeAny; xField := 0; xValue := 0; xListStart := 0; xListCount := 0;
       xOperandStart := zlen (Operands (cand st)); xOperandCount := zlen args; xEvidenceKind := 0; xEvidenceState := 0; xEvidenceSubject := 0;
       xEvidenceScope := 0; xEvidenceTiming := 0 |} = nodeKey node args) as Ekey.
  { unfold candKey, nodeKey. simpl. rewrite csr_app_r, Hk, G1, G2, Hg. done. }
  split; simpl; try done.
  - destruct Hin as [I1 I2 I3 I4 I5 I6]. by split.
  - split; [split; [apply in_pool_0|apply in_pool_new]|]. by destruct (kind =? NodeKindAll).
  - by rewrite Ea.
  - rewrite csr_app_r. split; [done|]. by destruct (kind =? NodeKindAll).
  - rewrite length_app. lia.
  - split_and!; done || lia.
  - eexists _, _. split_and!; [done|done|]. intros _ _ _. rewrite csr_app_r. split_and!; [apply in_pool_new|done| |lia].
    destruct args; [done|simpl; lia].
Qed.

Lemma prepare_not node st child :
  walking st → 1 ≤ node ≤ DocLen d → stateAt st node ≠ nodeBlack → Kind d node = Some NodeKindNot → NotChild d node = Some child →
  1 ≤ child ≤ DocLen d → stateAt st child = nodeBlack → ∃ x st', candidateOf k d node NodeKindNot st = Ok (x, st') ∧ prepared node st x st'.
Proof.
  intros Hst Hn Hnb Hk Hch Hr Hb. pose proof (wk_columns _ Hst) as (C1 & C2 & C3 & C4 & C5).
  destruct (pool_room st node Hst Hn Hnb) as (P1 & P2 & _). pose proof (wo_not _ _ Hw node Hn Hk) as W1.
  destruct (wk_black _ Hst child Hr Hb) as [[Hkey _ _] _]. apply keysOf_Some in Hkey as [Hid _].
  assert (nodeArgs st node = [canonAt st child]) as Ea by (unfold nodeArgs, childrenOf; rewrite Hk, Hch; done).
  unfold candidateOf. simpl. rewrite Hch. simpl. unfold MaxUint32 in *. rewrite u64_small by (unfold is_u64; lia).
  rewrite (proj2 (Z.leb_le _ _)) by (unfold MaxUint32; lia). simpl. unfold DocLen in Hr. rewrite (at_total (nodeCanon st)) by lia. simpl.
  fold (canonAt st child). rewrite (proj2 (Z.eqb_neq _ 0)) by lia. simpl. rewrite u32_small by (unfold is_u32; lia). eexists _, _. split; [done|].
  destruct (grows_pools st [] [canonAt st child]) as (Hin & Ek & Hgr);
    [apply Hst|rewrite app_nil_r; apply Hst|rewrite length_app; simpl; unfold MaxUint32; lia|]. rewrite !app_nil_r in *.
  pose proof (listLen_nonneg node). split; simpl; try done.
  - split; [|done]. split; [apply in_pool_0|]. apply (in_pool_new _ [_]).
  - rewrite Ea. unfold candKey, nodeKey. simpl. rewrite Hk. simpl. by rewrite (csr_app_r _ [_]).
  - rewrite (csr_app_r _ [_]). split; [by constructor; [|constructor]|done].
  - rewrite length_app. simpl. lia.
  - apply (flat_same _ _ NodeKindNot); [apply Hst|done..].
Qed.

Lemma prepare_in node st field kind vs :
  walking st → 1 ≤ node ≤ DocLen d → stateAt st node ≠ nodeBlack → Kind d node = Some NodeKindCompare → Compare d node = Some (field, CompareOpIn, 0) →
  InValues d node = Some vs → zlen vs ≤ MaxUint16 → Forall (valueOk d kind) vs →
  ∃ x st', candidateOf k d node NodeKindCompare st = Ok (x, st') ∧ prepared node st x st'.
Proof.
  intros Hst Hn Hnb Hk Hc Hvs Hlen Hok. destruct (pool_room st node Hst Hn Hnb) as (P1 & P2 & _). unfold listLen in P2. rewrite Hvs in P2. simpl in P2.
  unfold candidateOf. simpl. rewrite Hc. simpl. unfold appendCanonicalList. rewrite Hvs. simpl. rewrite (proj2 (Z.leb_le (zlen vs) _)) by lia. simpl.
  unfold MaxUint32 in P2. rewrite u64_small by (unfold is_u64; lia). rewrite (proj2 (Z.leb_le _ _)) by (unfold MaxUint32; lia). simpl.
  rewrite (Hval_map _ _ Hok). simpl. rewrite u32_small by (unfold is_u32; lia). eexists _, _. split; [done|].
  destruct (grows_pools st (map canonOf vs) []) as (Hin & Ek & Hgr);
    [apply Hst|rewrite length_app, length_map; unfold MaxUint32; lia|rewrite app_nil_r; apply Hst|]. rewrite !app_nil_r in *.
  pose proof (csr_app_r (ListValues (cand st)) (map canonOf vs)) as Ecsr. rewrite length_map in Ecsr.
  pose proof (in_pool_new (ListValues (cand st)) (map canonOf vs)) as Hp. rewrite length_map in Hp.
  pose proof (wo_range _ _ Hw node). split; simpl; try done.
  - split; [split; [exact Hp|apply in_pool_0]|done].
  - unfold candKey, nodeKey. simpl. rewrite Hk, Hc, Hvs, Ecsr. done.
  - unfold listLen. rewrite Hvs, length_app, length_map. simpl. lia.
  - unfold listLen. rewrite Hvs. simpl. split_and!; done || lia.
  - apply (flat_same _ _ NodeKindCompare); [apply Hst|done..].
Qed.

Lemma candidateOf_ok node st :
  walking st → 1 ≤ node ≤ DocLen d → stateAt st node ≠ nodeBlack → Forall (λ c, stateAt st c = nodeBlack) (childrenOf d node) →
  ∃ kind span x st', Kind d node = Some kind ∧ Span d node = Some span ∧ candidateOf k d node kind st = Ok (x, st') ∧ prepared node st x st'.
Proof.
  intros Hst Hn Hnb Hch. destruct (dk_node _ _ Hdoc node Hn) as [Hok [span Hs]].
  enough (∃ kind x st', Kind d node = Some kind ∧ candidateOf k d node kind st = Ok (x, st') ∧ prepared node st x st') as (kind & x & st' & ? & ? & ?) by eauto 10.
  destruct Hok as [value Hk Hv (V0 & l & Hl & _)|field op value kind column Hk Hc Hop Hin _ Hv|field kind column vs Hk Hc Hvs Hlen _ Hok
    |kind children Hk Hg Hc Hne _ Hr|child Hk Hc Hr|q Hk Hq Q1 Q2 Q3].
  - eexists _, _, st. split; [done|]. unfold candidateOf. simpl. rewrite Hv. simpl. rewrite (Hval _ _ V0 Hl). simpl. split; [done|].
    apply (prepared_leaf _ _ _ NodeKindBoolean); try done. unfold candKey, nodeKey. by rewrite Hk, Hv.
  - destruct (compareOpcode_ok op Hop) as (opcode & Hopc & Hvalid).
    assert ((if negb (value =? 0) then canonicalValue k value else Ok 0) = Ok (if value =? 0 then 0 else canonOf value)) as Ev.
    { destruct (Z.eqb_spec value 0) as [|Hne]; [done|]. simpl. destruct (RequiresValue op); [|done]. destruct Hv as [(V0 & l & Hl & _) _]. by apply (Hval value l). }
    eexists _, _, st. split; [done|]. unfold candidateOf. simpl. rewrite Hc. simpl. rewrite Hopc. simpl. rewrite (proj2 (Z.eqb_neq op CompareOpIn)) by done.
    rewrite Ev. simpl. split; [done|].
    apply (prepared_leaf _ _ _ NodeKindCompare); try done. unfold candKey, nodeKey. rewrite Hk, Hc. simpl. rewrite Hopc. simpl.
    by rewrite (proj2 (Z.eqb_neq op CompareOpIn)).
  - destruct (prepare_in node st field kind vs) as (x & st' & ? & ?); [done..|]. eexists _, _, _. eauto.
  - unfold childrenOf in Hch. rewrite Hk, Hc, Hg, (proj2 (proj2 (group_not_leaf kind Hg))) in Hch. simpl in Hch.
    destruct (prepare_group node st kind children) as (x & st' & ? & ?); eauto 10.
  - unfold childrenOf in Hch. rewrite Hk, Hc in Hch. simpl in Hch. apply Forall_cons in Hch as [Hch _].
    destruct (prepare_not node st child) as (x & st' & ? & ?); eauto 10.
  - eexists _, _, st. split; [done|]. unfold candidateOf. simpl. rewrite Hq. simpl. rewrite !Hsym by done. simpl. split; [done|].
    apply (prepared_leaf _ _ _ NodeKindEvidence); try done. unfold candKey, nodeKey. by rewrite Hk, Hq.
Qed.

(** ** Finishing a node *)

Lemma children_range node : 1 ≤ node ≤ DocLen d → Forall (λ c, 1 ≤ c ≤ DocLen d) (childrenOf d node).
Proof.
  intros Hn. destruct (dk_node _ _ Hdoc node Hn) as [Hok _]. unfold childrenOf.
  destruct Hok as [value Hk ? ?|field op value kind column Hk ? ? ? ? ?|field kind column vs Hk ? ? ? ? ?
    |kind children Hk Hg Hc Hne _ Hr|child Hk Hc Hr|q Hk ? ? ? ?]; rewrite Hk; simpl; try constructor.
  - rewrite (proj2 (proj2 (group_not_leaf kind Hg))), Hg, Hc. done.
  - rewrite Hc. by constructor; [|constructor].
Qed.

(** A later scratch that changed the columns of [node] only. *)
Record keeps (node : Z) (st st' : Normalizer) : Prop := {
  kp_canon c : 1 ≤ c ≤ DocLen d → c ≠ node → canonAt st' c = canonAt st c;
  kp_flat c : 1 ≤ c ≤ DocLen d → c ≠ node → flatStartAt st' c = flatStartAt st c ∧ flatCountAt st' c = flatCountAt st c;
  kp_grows : grows (cand st) (cand st');
  kp_roots : nodeRoots st' = nodeRoots st
}.

Section keep.
Context (node : Z) (st st' : Normalizer) (Hst : walking st) (Hkeep : keeps node st st') (Hnode : stateAt st node ≠ nodeBlack).

Lemma pool_prefix (l l' : list Z) s n : l `prefix_of` l' → in_pool l s n → in_pool l' s n ∧ csr l' s n = csr l s n.
Proof. intros [m ->] H. split; [by apply in_pool_app|by apply csr_app_l]. Qed.

Lemma childArgs_keeps kind c : isGroupKind kind = true → 1 ≤ c ≤ DocLen d → stateAt st c = nodeBlack → childArgs st' kind c = childArgs st kind c.
Proof.
  intros Hg Hc Hb. assert (c ≠ node) as Hne by (intros ->; done). unfold childArgs. rewrite (kp_canon _ _ _ Hkeep) by done.
  case_bool_decide as Hk; [|done]. destruct (wk_black _ Hst c Hc Hb) as [[_ _ Hflat] _]. destruct (Hflat kind Hk Hg) as (Hp & _ & _).
  unfold flatArgs. destruct (kp_flat _ _ _ Hkeep c Hc Hne) as [-> ->]. by apply pool_prefix; [apply Hkeep|].
Qed.

Lemma nodeArgs_keeps m : 1 ≤ m ≤ DocLen d → Forall (λ c, stateAt st c = nodeBlack) (childrenOf d m) → nodeArgs st' m = nodeArgs st m.
Proof.
  intros Hm Hb. pose proof (children_range m Hm) as Hr. rewrite Forall_forall in Hb, Hr. unfold nodeArgs. destruct (Kind d m) as [kind|] eqn:Hk; [|done].
  destruct (Z.eqb_spec kind NodeKindNot) as [->|Hn].
  - apply map_ext_in. intros c Hc%list_elem_of_In. apply (kp_canon _ _ _ Hkeep); [by apply Hr|]. intros ->. by apply Hnode, Hb.
  - destruct (isGroupKind kind) eqn:Hg.
    + f_equal. apply map_ext_in. intros c Hc%list_elem_of_In. apply childArgs_keeps; [done|by apply Hr|by apply Hb].
    + unfold childrenOf. by rewrite Hk, Hg, (proj2 (Z.eqb_neq kind NodeKindNot)).
Qed.

Lemma finished_keeps m : 1 ≤ m ≤ DocLen d → stateAt st m = nodeBlack → finished st' m.
Proof.
  intros Hm Hb. assert (m ≠ node) as Hne by (intros ->; done). destruct (wk_black _ Hst m Hm Hb) as [[Hkey Hfl Hflat] Hch].
  pose proof (nodeArgs_keeps m Hm Hch) as Ea. pose proof (kp_canon _ _ _ Hkeep m Hm Hne) as Ec. destruct (kp_flat _ _ _ Hkeep m Hm Hne) as [Es En].
  pose proof Hkey as [Hid _]%keysOf_Some. split.
  - rewrite Ec, Ea. by apply (grows_key (cand st)); [apply Hkeep|].
  - rewrite Ec, (kp_roots _ _ _ Hkeep). apply (ldiff_trans _ _ _ Hfl). apply (gr_flags _ _ (kp_grows _ _ _ Hkeep)). lia.
  - intros kind Hk Hg. destruct (Hflat kind Hk Hg) as (Hp & E & Hpos). rewrite Es, En, Ea. unfold flatArgs in *. rewrite Es, En.
    destruct (pool_prefix _ (Operands (cand st')) _ _ (gr_operands _ _ (kp_grows _ _ _ Hkeep)) Hp) as [Hp' ->]. done.
Qed.
End keep.

(** The scratch after interning a node. *)
Definition with_canon (st : Normalizer) (canon : list Z) : Normalizer :=
  {| nodeCanon := canon; nodeState := nodeState st; nodeRoots := nodeRoots st; nodeFlatStart := nodeFlatStart st;
     nodeFlatCount := nodeFlatCount st; cand := cand st; candidateHashes := candidateHashes st; candidateIDs := candidateIDs st |}.

Lemma at_insert (l : list Z) i c x : 1 ≤ c → 1 ≤ i → c ≠ i → <[Z.to_nat (i - 1) := x]> l !!! Z.to_nat (c - 1) = l !!! Z.to_nat (c - 1).
Proof. intros. apply list_lookup_total_insert_ne. lia. Qed.

Lemma walking_finish node st x st1 id st2 f :
  walking st → 1 ≤ node ≤ DocLen d → stateAt st node ≠ nodeBlack → Forall (λ c, stateAt st c = nodeBlack) (childrenOf d node) →
  nodeRoots st !! Z.to_nat (node - 1) = Some f → prepared node st x st1 → stored st1 x f id st2 →
  walking (with_state (with_canon st2 (<[Z.to_nat (node - 1) := id]> (nodeCanon st2))) (<[Z.to_nat (node - 1) := nodeBlack]> (nodeState st2))).
Proof.
  intros Hst Hn Hnb Hch Hf [P1 (P2 & P3 & P3') [P4 P5] P6 [P7 P7'] [P8 P8'] (T1 & T2 & T3 & T4) (Q1 & Q2 & Q3 & Q4) (s & c & F1 & F2 & Hflat)] [D1 D2 D3 [D4 D4'] [D5 D5'] [U1 U2] Dn D6 (E1 & E2 & E3 & E4 & E5)].
  pose proof (wk_columns _ Hst) as (C1 & C2 & C3 & C4 & C5). set (st3 := with_state _ _).
  assert (1 ≤ node ≤ zlen (dNodeKinds d)) as Hn' by done.
  assert (keeps node st st3) as Hkeep.
  { split.
    - intros m Hm Hne. unfold canonAt. simpl. rewrite E1, Q1. apply at_insert; lia.
    - intros m Hm Hne. unfold flatStartAt, flatCountAt. simpl. rewrite E4, E5, F1, F2. split; apply at_insert; lia.
    - simpl. by transitivity (cand st1).
    - simpl. congruence. }
  assert (canonAt st3 node = id) as Ec by (unfold canonAt; simpl; rewrite E1, Q1; apply list_lookup_total_insert_eq; lia).
  assert (nodeArgs st3 node = nodeArgs st node) as Ea by (by apply (nodeArgs_keeps node)).
  assert (nodeState st3 = <[Z.to_nat (node - 1) := nodeBlack]> (nodeState st)) as Es by (simpl; by rewrite E2, Q2).
  assert (∀ m, 1 ≤ m → stateAt st3 m = nodeBlack ↔ m = node ∨ stateAt st m = nodeBlack) as Hstate.
  { intros m Hm. unfold stateAt. rewrite Es. destruct (decide (m = node)) as [->|Hne].
    - rewrite list_lookup_total_insert_eq by lia. naive_solver.
    - rewrite at_insert by lia. naive_solver. }
  split.
  - simpl. destruct D1 as [I1 I2 I3 I4 I5 I6]. by split.
  - unfold node_columns. simpl. rewrite !length_insert, E1, E2, E3, E4, E5, Q1, Q2, Q3, F1, F2, !length_insert. done.
  - simpl. rewrite D5, Q4. apply Hst.
  - simpl. rewrite E3, Q3. apply Hst.
  - rewrite Es. apply Forall_insert; [apply Hst|]. by right; right.
  - intros m Hm Hb. apply Hstate in Hb as [->|Hb]; [| |lia].
    + split; [|eapply Forall_impl; [apply Forall_and; split; [exact Hch|by apply children_range]|]; intros ? [? ?]; apply Hstate; [lia|by right]].
      split.
      * rewrite Ec, Ea, <-P6. exact D2.
      * rewrite Ec. simpl. rewrite E3, Q3, (list_lookup_total_correct _ _ _ Hf). done.
      * intros kind Hk Hg. destruct (Hflat kind Hk Hg) as (G1 & G2 & G3). rewrite Ea. unfold flatArgs, flatStartAt, flatCountAt. simpl.
        rewrite E4, E5, F1, F2, !list_lookup_total_insert_eq, D4' by lia. done.
    + split; [by apply (finished_keeps node st)|]. destruct (wk_black _ Hst m Hm Hb) as [_ Hcm].
      eapply Forall_impl; [apply Forall_and; split; [exact Hcm|by apply children_range]|]. intros ? [? ?]. apply Hstate; [lia|by right].
  - rewrite Es, !blackSum_set by (done || lia). rewrite Z.eqb_refl. simpl. destruct (wk_sizes _ Hst) as (S1 & S2 & S3). rewrite D4, D4', P3' in *.
    replace (Z.of_nat (Z.to_nat (node - 1)) + 1) with node by lia. lia.
  - intros i Hi. destruct (decide (i < length (Opcodes (cand st)))%nat) as [Hlt|Hge].
    + destruct (wk_origin _ Hst i Hlt) as (m & Hm & Hb & Em). exists m. split; [done|]. split; [apply Hstate; [lia|by right]|].
      rewrite <-Em. apply (kp_canon _ _ _ Hkeep); [done|]. intros ->. done.
    + exists node. split; [done|]. split; [apply Hstate; [lia|by left]|]. rewrite Ec. apply Dn. simpl in Hi. rewrite P3'. lia.
  - rewrite Es, !blackSum_set by (done || lia). rewrite Z.eqb_refl. simpl. destruct (wk_totals _ Hst) as (S1 & S2). rewrite T1, T2 in *.
    replace (Z.of_nat (Z.to_nat (node - 1)) + 1) with node by lia. lia.
Qed.

Lemma span_ordered node span : Span d node = Some span → span.1 ≤ span.2.
Proof.
  unfold Span. destruct (nodeIndex d node) as [i|]; [|done]. simpl. destruct (_ || _); [done|]. destruct (spanValid _ _ _) eqn:E; [|done].
  intros [= <-]. unfold spanValid in E. simpl. lia.
Qed.

Lemma intern_ok node st :
  walking st → 1 ≤ node ≤ DocLen d → stateAt st node ≠ nodeBlack → Forall (λ c, stateAt st c = nodeBlack) (childrenOf d node) →
  ∃ st', internInstructionCandidate k d node st = Ok st' ∧ nodeState st' = nodeState st ∧
    walking (with_state st' (<[Z.to_nat (node - 1) := nodeBlack]> (nodeState st'))).
Proof.
  intros Hst Hn Hnb Hch. destruct (candidateOf_ok node st Hst Hn Hnb Hch) as (kind & span & x & st1 & Hk & Hs & Hc & Hp).
  pose proof (wk_columns _ Hst) as (C1 & C2 & C3 & C4 & C5). destruct (pool_room st node Hst Hn Hnb) as (_ & _ & Hroom).
  destruct (dk_size _ _ Hdoc) as (Hmax & _). destruct Hp as [P1 (P2 & P3 & P3') [P4 P5] P6 [P7 P7'] P8 T (Q1 & Q2 & Q3 & Q4) F] eqn:EP.
  destruct (lookup_lt_is_Some_2 (nodeRoots st) (Z.to_nat (node - 1))) as [f Hf]; [unfold DocLen in Hn; lia|].
  destruct (appendCandidate_ok node span x st1 f) as (id & st2 & Ha & Hd); [done|by rewrite Q3|lia|by apply (span_ordered node)|by apply (Forall_lookup_1 _ _ _ _ (proj1 (wk_roots _ Hst)) Hf)|done|done|by rewrite P3'|done| | |].
  { rewrite P3'. lia. }
  { rewrite P3', Q4. pose proof (wk_slots _ Hst). lia. }
  unfold internInstructionCandidate. rewrite Hk, Hs. simpl. rewrite Hc. simpl. rewrite Ha. simpl.
  destruct (sd_nodes _ _ _ _ _ Hd) as (E1 & E2 & _). unfold DocLen in Hn. rewrite put_Ok by (rewrite E1, Q1; lia). simpl.
  eexists. split; [done|]. simpl. split; [by rewrite E2, Q2|]. by apply (walking_finish node st x st1 id st2 f).
Qed.

(** ** Edges *)

Lemma edges_ok node : 1 ≤ node ≤ DocLen d →
  edgeCount d node = Ok (zlen (childrenOf d node)) ∧ zlen (childrenOf d node) ≤ MaxUint16 ∧
  ∀ j, (j < length (childrenOf d node))%nat → childAt d node (Z.of_nat j) = Ok (childrenOf d node !!! j).
Proof.
  intros Hn. destruct (dk_node _ _ Hdoc node Hn) as [Hok _]. unfold edgeCount, childAt, childrenOf.
  destruct Hok as [value Hk ? ?|field op value kind column Hk ? ? ? ? ?|field kind column vs Hk ? ? ? ? ?
    |kind children Hk Hg Hc Hne Hlen Hr|child Hk Hc Hr|q Hk ? ? ? ?]; rewrite Hk; simpl.
  1-3, 6: (split_and!; [done|done|]; intros; lia).
  - rewrite (proj2 (proj2 (group_not_leaf kind Hg))), Hg, Hc. simpl. split_and!; [|done|].
    + unfold GroupChildren, GroupRange in Hc |- *. destruct (payload d node isGroupKind) as [r|]; [|done]. simpl in Hc |- *.
      match type of Hc with context [if negb ?b then _ else _] => destruct (negb b); [done|] end.
      destruct (Z.ltb_spec (zlen (dChildNodeIDs d)) (u64 (dGroupChildStarts d !!! Z.to_nat r + dGroupChildCounts d !!! Z.to_nat r))) as [|Hle]; [done|].
      simpl in Hc |- *. injection Hc as <-. f_equal. destruct (dk_typed _ _ Hdoc) as [T1 T2].
      assert (∀ l : list Z, Forall is_u32 l → is_u32 (l !!! Z.to_nat r)) as Hu.
      { intros l Hl. destruct (decide (Z.to_nat r < length l)%nat) as [|Hge]; [by apply Forall_lookup_total_1|].
        rewrite list_lookup_total_alt, lookup_ge_None_2 by lia. done. }
      pose proof (Hu _ T1) as U1. pose proof (Hu _ T2) as U2. unfold is_u32 in U1, U2. rewrite u64_small in Hle by (unfold is_u64; lia).
      rewrite length_csr by lia. lia.
    + intros j Hj. rewrite (proj2 (Z.ltb_lt _ _)) by lia. simpl. rewrite at_total by lia. by rewrite Nat2Z.id.
  - rewrite Hc. simpl. split_and!; [done|done|]. intros j Hj. by destruct j; [|lia].
Qed.

(** ** The stack *)

(** The frames below the frame of [child]: each waits for the child it entered last. *)
Fixpoint suspended (st : Normalizer) (child : Z) (rest : list (Z * Z)) : Prop :=
  match rest with
  | [] => True
  | (node, next) :: rest =>
      1 ≤ node ≤ DocLen d ∧ stateAt st node = nodeGray ∧ 1 ≤ next ∧ childrenOf d node !! Z.to_nat (next - 1) = Some child ∧
      Forall (λ c, stateAt st c = nodeBlack) (take (Z.to_nat (next - 1)) (childrenOf d node)) ∧ suspended st node rest
  end.

(** The scratch and stack during the walk; the nodes of [entered] are on the stack or
    finished. *)
Record stack_ok (entered : list Z) (st : Normalizer) (stack : list (Z * Z)) : Prop := {
  sk_walking : walking st;
  sk_entered c : c ∈ entered → c ∈ stack.*1 ∨ stateAt st c = nodeBlack;
  sk_gray c : 1 ≤ c ≤ DocLen d → stateAt st c = nodeGray → c ∈ stack.*1;
  sk_top node next rest : stack = (node, next) :: rest →
    1 ≤ node ≤ DocLen d ∧ stateAt st node = nodeGray ∧ 0 ≤ next ≤ zlen (childrenOf d node) ∧
    Forall (λ c, stateAt st c = nodeBlack) (take (Z.to_nat next) (childrenOf d node)) ∧ suspended st node rest
}.

Lemma suspended_mono st st' child rest :
  (∀ c, stateAt st c = nodeBlack → stateAt st' c = nodeBlack) → (∀ c, c ∈ rest.*1 → stateAt st c = nodeGray → stateAt st' c = nodeGray) →
  suspended st child rest → suspended st' child rest.
Proof.
  intros Hb. revert child. induction rest as [|[node next] rest IH]; intros child Hg; [done|]. simpl in *. intros (H1 & H2 & H3 & H4 & H5 & H6).
  split_and!; try done || lia.
  - apply Hg; [by left|done].
  - eapply Forall_impl; [exact H5|]. intros c. apply Hb.
  - apply IH; [|done]. intros c Hc. apply Hg. by right.
Qed.

(** Ranks grow towards the bottom of the stack. *)
Lemma suspended_rank (rank : Z → nat) st child rest :
  (∀ node, 1 ≤ node ≤ DocLen d → ∀ c, c ∈ childrenOf d node → (rank c < rank node)%nat) →
  suspended st child rest → ∀ node, node ∈ rest.*1 → (rank child < rank node)%nat.
Proof.
  intros Hr. revert child. induction rest as [|[m next] rest IH]; intros child H node Hin; simpl in *; [by apply elem_of_nil in Hin|].
  destruct H as (Hm & _ & _ & Hc & _ & Hs). apply list_elem_of_lookup_2 in Hc. pose proof (Hr m Hm child Hc).
  apply elem_of_cons in Hin as [->|Hin]; [done|]. pose proof (IH m Hs node Hin). lia.
Qed.

Lemma states_cases st node : walking st → 1 ≤ node ≤ DocLen d → stateAt st node = 0 ∨ stateAt st node = nodeGray ∨ stateAt st node = nodeBlack.
Proof.
  unfold DocLen. intros Hst Hn. pose proof (wk_columns _ Hst) as (C1 & C2 & _). apply (Forall_lookup_total_1 _ _ _ (wk_states _ Hst)). lia.
Qed.

(** Entering a white node. *)
Lemma walking_enter st node : walking st → 1 ≤ node ≤ DocLen d → stateAt st node = 0 →
  let st' := with_state st (<[Z.to_nat (node - 1) := nodeGray]> (nodeState st)) in
  walking st' ∧ stateAt st' node = nodeGray ∧ ∀ c, 1 ≤ c → c ≠ node → stateAt st' c = stateAt st c.
Proof.
  intros Hst Hn H0 st'. unfold DocLen in Hn. pose proof (wk_columns _ Hst) as (C1 & C2 & C3 & C4 & C5).
  assert (stateAt st' node = nodeGray) as Hg by (unfold stateAt; simpl; rewrite list_lookup_total_insert_eq by lia; done).
  assert (∀ c, 1 ≤ c → c ≠ node → stateAt st' c = stateAt st c) as Ho by (intros; unfold stateAt; simpl; apply at_insert; lia).
  split_and!; [|done|done]. split; [destruct (wk_interned _ Hst); by split| |apply (wk_slots _ Hst)|apply (wk_roots _ Hst)| | | | |].
  - unfold node_columns. simpl. by rewrite length_insert.
  - apply Forall_insert; [apply Hst|]. by right; left.
  - intros m Hm Hb. assert (m ≠ node) as Hne by (intros ->; by rewrite Hg in Hb). rewrite Ho in Hb by lia.
    destruct (wk_black _ Hst m Hm Hb) as [[F1 F2 F3] Hch]. split; [by split|].
    pose proof (children_range m Hm) as Hr. rewrite Forall_forall in *. intros c Hc. specialize (Hr c Hc). specialize (Hch c Hc).
    rewrite Ho; [done|lia|]. intros ->. by rewrite H0 in Hch.
  - simpl. rewrite !blackSum_set by (lia || (fold (stateAt st node); by rewrite H0)). simpl. pose proof (wk_sizes _ Hst). rewrite !Z.add_0_r. done.
  - intros i Hi. destruct (wk_origin _ Hst i Hi) as (m & Hm & Hb & Em). exists m. split; [done|]. split; [|done].
    rewrite Ho; [done|lia|]. intros ->. by rewrite H0 in Hb.
  - simpl. rewrite !blackSum_set by (lia || (fold (stateAt st node); by rewrite H0)). simpl. pose proof (wk_totals _ Hst). rewrite !Z.add_0_r. done.
Qed.

(** ** The walk *)

Lemma take_black (st : Normalizer) l j c : l !! j = Some c → Forall (λ c, stateAt st c = nodeBlack) (take j l) → stateAt st c = nodeBlack →
  Forall (λ c, stateAt st c = nodeBlack) (take (S j) l).
Proof. intros Hl Ht Hc. rewrite (take_S_r _ _ _ Hl). apply Forall_app. split; [done|]. by constructor; [|constructor]. Qed.

(** One iteration on the next child of the top frame. *)
Lemma walkStep_child entered st node next rest :
  stack_ok entered st ((node, next) :: rest) → next < zlen (childrenOf d node) →
  ∃ stack' st', walkStep k d (node, next) rest st = Ok (stack', st') ∧ stack_ok entered st' stack'.
Proof.
  intros [Hst Hent Hgray Htop] Hlt. destruct (Htop node next rest eq_refl) as (Hn & Hg & Hnext & Hpre & Hsus). destruct (dk_rank _ _ Hdoc) as [rank Hrank].
  destruct (edges_ok node Hn) as (Hedge & H16 & Hat). unfold walkStep. rewrite Hedge. simpl. rewrite (proj2 (Z.ltb_lt _ _)) by done.
  destruct (lookup_lt_is_Some_2 (childrenOf d node) (Z.to_nat next)) as [child Hch]; [lia|].
  assert (childAt d node next = Ok child) as ->.
  { replace next with (Z.of_nat (Z.to_nat next)) by lia. rewrite Hat by lia. by rewrite (list_lookup_total_correct _ _ _ Hch). }
  simpl. pose proof (wk_columns _ Hst) as (C1 & C2 & _).
  pose proof (list_elem_of_lookup_2 _ _ _ Hch) as Hin. pose proof (proj1 (Forall_forall _ _) (children_range node Hn) child Hin) as Hc.
  rewrite (at_total (nodeState st)) by (unfold DocLen in Hc; lia). simpl. fold (stateAt st child).
  assert (u32 (next + 1) = next + 1) as Eu by (apply u32_small; unfold is_u32, MaxUint16 in *; lia).
  assert (rank child < rank node)%nat as Hrk by (by apply (Hrank node Hn)).
  assert (∀ m, m ∈ rest.*1 → (rank node < rank m)%nat) as Hrest by (apply (suspended_rank rank st node rest); [|done]; intros; by apply Hrank).
  destruct (states_cases st child Hst Hc) as [E|[E|E]].
  - rewrite E. simpl. rewrite put_Ok by (unfold DocLen in Hc; lia). simpl.
    destruct (walking_enter st child Hst Hc E) as (Hst' & Hg' & Ho). set (st' := with_state st _) in *. eexists _, _. split; [done|].
    assert (∀ c, stateAt st c = nodeBlack → stateAt st' c = nodeBlack) as Hb.
    { intros c Hb. unfold stateAt in *. simpl. destruct (decide (Z.to_nat (c - 1) = Z.to_nat (child - 1))) as [Ec|Hne].
      - rewrite Ec in Hb. by rewrite E in Hb.
      - by rewrite list_lookup_total_insert_ne. }
    split.
    + done.
    + intros c Hc'. destruct (Hent c Hc') as [Hs|Hs]; [left; by right|right; by apply Hb].
    + intros c Hr' Hgc. destruct (decide (c = child)) as [->|Hne]; [by left|]. rewrite Ho in Hgc by lia. right. exact (Hgray c Hr' Hgc).
    + intros ? ? ? [= <- <- <-]. rewrite Eu. do 2 (split; [done|]). split; [lia|]. split; [constructor|]. cbn [suspended].
      replace (next + 1 - 1) with next by lia. split_and!; try done || lia.
      * rewrite Ho; [done|lia|]. intros ->. lia.
      * eapply Forall_impl; [exact Hpre|]. intros c. apply Hb.
      * apply (suspended_mono st); [done| |done]. intros c Hcr Hcg. unfold stateAt. simpl. pose proof (Hrest c Hcr).
        destruct (decide (Z.to_nat (c - 1) = Z.to_nat (child - 1))) as [Ec|Hne]; [|by rewrite list_lookup_total_insert_ne].
        unfold stateAt in Hcg, E. rewrite Ec in Hcg. by rewrite E in Hcg.
  - exfalso. pose proof (Hgray child Hc E) as Hon. simpl in Hon. apply elem_of_cons in Hon as [->|Hon]; [lia|]. pose proof (Hrest child Hon). lia.
  - rewrite E. simpl. rewrite Eu. eexists _, _. split; [done|]. split; [done|..].
    + intros c Hc'. destruct (Hent c Hc') as [Hs|Hs]; [by left|by right].
    + intros c Hr' Hgc. exact (Hgray c Hr' Hgc).
    + intros ? ? ? [= <- <- <-]. split_and!; try done || lia.
      replace (Z.to_nat (next + 1)) with (S (Z.to_nat next)) by lia. by apply (take_black st _ _ child).
Qed.

(** The iteration that finishes the top frame. *)
Lemma walkStep_finish entered st node next rest :
  stack_ok entered st ((node, next) :: rest) → zlen (childrenOf d node) ≤ next →
  ∃ st', walkStep k d (node, next) rest st = Ok (rest, st') ∧ stack_ok entered st' rest.
Proof.
  intros [Hst Hent Hgray Htop] Hge. destruct (Htop node next rest eq_refl) as (Hn & Hg & Hnext & Hpre & Hsus). destruct (dk_rank _ _ Hdoc) as [rank Hrank].
  destruct (edges_ok node Hn) as (Hedge & H16 & Hat). unfold walkStep. rewrite Hedge. simpl. rewrite (proj2 (Z.ltb_ge _ _)) by done.
  rewrite take_ge in Hpre by lia. pose proof (wk_columns _ Hst) as (C1 & C2 & _).
  destruct (intern_ok node st) as (st' & -> & Es & Hst'); [done|done|by rewrite Hg|done|]. simpl. unfold DocLen in Hn.
  rewrite put_Ok by (rewrite Es; lia). simpl. eexists. split; [done|]. set (st'' := with_state st' _) in *.
  assert (∀ m, m ∈ rest.*1 → (rank node < rank m)%nat) as Hrest by (apply (suspended_rank rank st node rest); [|done]; intros; by apply Hrank).
  assert (stateAt st'' node = nodeBlack) as Hnb by (unfold stateAt; simpl; rewrite Es; rewrite list_lookup_total_insert_eq by lia; done).
  assert (∀ c, Z.to_nat (c - 1) ≠ Z.to_nat (node - 1) → stateAt st'' c = stateAt st c) as Ho.
  { intros c Hne. unfold stateAt. simpl. rewrite Es. by rewrite list_lookup_total_insert_ne. }
  assert (∀ c, stateAt st c = nodeBlack → stateAt st'' c = nodeBlack) as Hb.
  { intros c Hb. destruct (decide (Z.to_nat (c - 1) = Z.to_nat (node - 1))) as [Ec|Hne]; [|by rewrite Ho]. unfold stateAt in *. by rewrite Ec. }
  assert (∀ m, 1 ≤ m ≤ DocLen d → m ∈ rest.*1 → stateAt st m = nodeGray → stateAt st'' m = nodeGray) as Hgr.
  { intros m Hm Hin Hmg. rewrite Ho; [done|]. intros Ec. assert (m = node) as -> by lia. pose proof (Hrest node Hin). lia. }
  assert (∀ child, suspended st child rest → suspended st'' child rest) as Hsus'.
  { clear Hsus Hent Hgray Htop. revert Hrest Hgr. clear -Hb. induction rest as [|[m j] rest IH]; intros Hrest Hgr child; [done|].
    simpl. intros (M1 & M2 & M3 & M4 & M5 & M6). split_and!; try done || lia.
    - apply Hgr; [done|by left|done].
    - eapply Forall_impl; [exact M5|]. intros c. apply Hb.
    - apply IH; [| |done]; intros m' **; [apply Hrest|apply Hgr]; try done; by right. }
  split; [done|..].
  - intros c Hc. destruct (Hent c Hc) as [Hs|Hs]; [|right; by apply Hb]. simpl in Hs. apply elem_of_cons in Hs as [->|Hs]; [by right|by left].
  - intros c Hc Hcg. destruct (decide (c = node)) as [->|Hne]; [by rewrite Hnb in Hcg|]. rewrite Ho in Hcg by lia.
    pose proof (Hgray c Hc Hcg) as Hs. simpl in Hs. by apply elem_of_cons in Hs as [->|Hs].
  - intros m j rest' ->. apply Hsus' in Hsus. simpl in Hsus. destruct Hsus as (M1 & M2 & M3 & M4 & M5 & M6).
    pose proof (lookup_lt_Some _ _ _ M4). split_and!; try done || lia.
    replace (Z.to_nat j) with (S (Z.to_nat (j - 1))) by lia. by apply (take_black st'' _ _ node).
Qed.

(** A walk that ends succeeds. *)
Lemma walk_ok entered fuel stack st : stack_ok entered st stack → walk k d fuel stack st ≠ None →
  ∃ st', walk k d fuel stack st = Some (Ok st') ∧ stack_ok entered st' [].
Proof.
  revert stack st. induction fuel as [|fuel IH]; intros stack st Hs Hne; (destruct stack as [|[node next] rest]; [by eexists|]); [done|].
  simpl in Hne |- *. destruct (Z.lt_ge_cases next (zlen (childrenOf d node))) as [Hlt|Hge].
  - destruct (walkStep_child _ _ _ _ _ Hs Hlt) as (stack' & st' & E & Hs'). unfold walkStep in *. rewrite E in *. by apply IH.
  - destruct (walkStep_finish _ _ _ _ _ Hs Hge) as (st' & E & Hs'). unfold walkStep in *. rewrite E in *. by apply IH.
Qed.

(** ** All roots *)

Lemma walkRoot_ok entered st root : stack_ok entered st [] → 1 ≤ root ≤ DocLen d →
  ∃ st', walkRoot k d root st = Ok st' ∧ stack_ok (root :: entered) st' [].
Proof.
  intros [Hst Hent Hgray _] Hr. pose proof (wk_columns _ Hst) as (C1 & C2 & _). unfold walkRoot.
  rewrite (at_total (nodeState st)) by (unfold DocLen in Hr; lia). simpl. fold (stateAt st root).
  assert (∀ c, c ∈ entered → stateAt st c = nodeBlack) as Hdone by (intros c Hc; destruct (Hent c Hc) as [H|H]; [by apply elem_of_nil in H|done]).
  destruct (states_cases st root Hst Hr) as [E|[E|E]]; rewrite E; simpl.
  - rewrite put_Ok by (unfold DocLen in Hr; lia). simpl. destruct (walking_enter st root Hst Hr E) as (Hst' & Hg' & Ho).
    pose proof (walkRoot_ends k d (proj2 (dk_typed _ _ Hdoc)) root 0 st C2 Hr) as Hends. change (Z.lor 0 nodeGray) with nodeGray in *.
    destruct (walk_ok (root :: entered) (walkFuel d) [(root, 0)] (with_state st (<[Z.to_nat (root - 1) := nodeGray]> (nodeState st)))) as (st' & -> & Hs'); [|done|by exists st'].
    split; [done|..].
    + intros c [->|Hc]%elem_of_cons; [left; by left|]. right. unfold stateAt. simpl. pose proof (Hdone c Hc) as Hb. unfold stateAt in *.
      destruct (decide (Z.to_nat (c - 1) = Z.to_nat (root - 1))) as [Ec|Hne]; [|by rewrite list_lookup_total_insert_ne]. rewrite Ec in Hb. by rewrite E in Hb.
    + intros c Hc Hcg. destruct (decide (c = root)) as [->|Hne]; [by left|]. rewrite Ho in Hcg by lia. apply Hgray in Hcg; [by apply elem_of_nil in Hcg|done].
    + intros ? ? ? [= <- <- <-]. do 2 (split; [done|]). split; [lia|]. by split; [constructor|].
  - exfalso. by apply Hgray in E; [apply elem_of_nil in E|].
  - exists st. split; [done|]. split; try done. intros c [->|Hc]%elem_of_cons; [by right|]. right. by apply Hdone.
Qed.

Lemma elem_of_insertRoot x y l : x ∈ insertRoot y l ↔ x = y ∨ x ∈ l.
Proof. induction l as [|z l IH]; simpl; [set_solver|]. case_match; set_solver. Qed.

Lemma elem_of_compactRoots x l : x ∈ compactRoots l ↔ x ∈ l.
Proof.
  induction l as [|y l IH]; [done|]. destruct l as [|z l]; [done|]. cbn [compactRoots].
  destruct (Z.eqb_spec y z) as [->|Hne]; [rewrite IH; set_solver|]. rewrite !elem_of_cons, IH. set_solver.
Qed.

Lemma elem_of_collectRoots x : x ∈ collectRoots d ↔ x ∈ rootNodes d.
Proof.
  unfold collectRoots. rewrite elem_of_compactRoots. fold (rootNodes d).
  assert (∀ l acc, x ∈ foldl (λ sorted x, insertRoot x sorted) acc l ↔ x ∈ acc ∨ x ∈ l) as H.
  { induction l as [|y l IH]; intros acc; simpl; [set_solver|]. rewrite IH, elem_of_insertRoot. set_solver. }
  rewrite H. set_solver.
Qed.

Lemma markRoots_ok flag rs flags :
  flags_ok flag → Forall (λ r, 1 ≤ r ≤ DocLen d) rs → length flags = length (dNodeKinds d) → Forall flags_ok flags →
  ∃ flags', markRoots (DocLen d) flag rs flags = Ok flags' ∧ length flags' = length (dNodeKinds d) ∧ Forall flags_ok flags' ∧
    (∀ i, Z.ldiff (flags !!! i) (flags' !!! i) = 0) ∧ ∀ r, r ∈ rs → Z.ldiff flag (flags' !!! Z.to_nat (r - 1)) = 0.
Proof.
  intros Hflag Hrs Hl Hf. unfold markRoots. rewrite Forall_forall in Hrs.
  fold_loop (λ pre flags', length flags' = length (dNodeKinds d) ∧ Forall flags_ok flags' ∧ (∀ i, Z.ldiff (flags !!! i) (flags' !!! i) = 0) ∧
    ∀ r, r ∈ pre → Z.ldiff flag (flags' !!! Z.to_nat (r - 1)) = 0) as (flags' & -> & ? & ? & ? & ?); [| |by eexists].
  - split_and!; [done|done|intros; apply Z.ldiff_diag|]. intros r Hr. by apply elem_of_nil in Hr.
  - intros pre r post fl E (Hl' & Hf' & Hm & Hd). assert (1 ≤ r ≤ DocLen d) as Hr by (apply Hrs; rewrite E; set_solver).
    rewrite (proj2 (Z.eqb_neq r 0)), (proj2 (Z.ltb_ge _ _)) by lia. simpl. unfold DocLen in Hr. rewrite at_total by lia. simpl. rewrite put_Ok by lia.
    eexists. split; [done|]. rewrite length_insert.
    assert (∀ i, Z.ldiff (fl !!! i) (<[Z.to_nat (r - 1) := Z.lor (fl !!! Z.to_nat (r - 1)) flag]> fl !!! i) = 0) as Hstep.
    { intros i. destruct (decide (i = Z.to_nat (r - 1))) as [->|Hne].
      - rewrite list_lookup_total_insert_eq by lia. apply ldiff_lor_l.
      - rewrite list_lookup_total_insert_ne by done. apply Z.ldiff_diag. }
    split_and!; [done| | |].
    + apply Forall_insert; [done|]. apply flags_ok_lor; [|done]. apply Forall_lookup_total_1; [done|lia].
    + intros i. exact (ldiff_trans _ _ _ (Hm i) (Hstep i)).
    + intros r' [Hr'|Hr'%list_elem_of_singleton]%elem_of_app; [exact (ldiff_trans _ _ _ (Hd r' Hr') (Hstep _))|]. subst r'.
      rewrite list_lookup_total_insert_eq by lia. apply ldiff_lor_r.
Qed.

Lemma markRootFlags_ok : ∃ flags, markRootFlags d (DocLen d) (make_ (DocLen d)) = Ok flags ∧ length flags = length (dNodeKinds d) ∧ Forall flags_ok flags ∧
  ∀ node flag, marked node flag → Z.ldiff flag (flags !!! Z.to_nat (node - 1)) = 0.
Proof.
  pose proof (dk_roots _ _ Hdoc) as Hr. unfold rootNodes in Hr. apply Forall_app in Hr as [R1 [R2 R3]%Forall_app]. unfold markRootFlags.
  destruct (markRoots_ok RootApplicability _ (make_ (DocLen d)) ltac:(done) R1) as (f1 & -> & L1 & F1 & _ & D1);
    [unfold make_, DocLen; rewrite length_replicate; lia|by apply Forall_replicate|]. simpl.
  destruct (markRoots_ok RootAssertion _ f1 ltac:(done) R2 L1 F1) as (f2 & -> & L2 & F2 & M2 & D2). simpl.
  destruct (markRoots_ok RootEvidence _ f2 ltac:(done) R3 L2 F2) as (f3 & -> & L3 & F3 & M3 & D3). exists f3. split_and!; try done.
  intros node flag [[-> H]|[[-> H]|[-> H]]]; [|exact (ldiff_trans _ _ _ (D2 _ H) (M3 _))|by apply D3].
  exact (ldiff_trans _ _ _ (ldiff_trans _ _ _ (D1 _ H) (M2 _)) (M3 _)).
Qed.

Lemma fresh_walking flags : length flags = length (dNodeKinds d) → Forall flags_ok flags →
  (∀ node flag, marked node flag → Z.ldiff flag (flags !!! Z.to_nat (node - 1)) = 0) → stack_ok [] (freshNormalizer (DocLen d) flags) [].
Proof.
  intros Hl Hf Hm. destruct (dk_size _ _ Hdoc) as (Hsize & _). destruct (slotSize_ok (DocLen d)) as ([S1 _] & S2 & S3); [unfold DocLen in *; lia|].
  assert (∀ c, 1 ≤ c ≤ DocLen d → stateAt (freshNormalizer (DocLen d) flags) c = 0) as H0.
  { intros c Hc. unfold stateAt. simpl. unfold make_. by rewrite lookup_total_replicate_2 by lia. }
  split; [|intros c Hc; by apply elem_of_nil in Hc|intros c Hr Hc; by rewrite H0 in Hc by done|done]. split.
  - split; simpl.
    + done.
    + constructor.
    + apply table_ok_fresh; [lia|done].
    + split; [done|]. intros s id key _ [H _]%keysOf_Some. simpl in H. lia.
    + intros i Hi. lia.
    + unfold MaxUint32. lia.
  - unfold node_columns, freshNormalizer, make_. simpl. by rewrite !length_replicate, Hl; unfold DocLen; rewrite Nat2Z.id.
  - simpl. unfold make_. rewrite length_replicate. unfold DocLen in *. lia.
  - done.
  - simpl. apply Forall_replicate. by left.
  - intros node Hr Hb. by rewrite H0 in Hb by done.
  - simpl. assert (∀ f, (∀ x, 0 ≤ f x) → 0 ≤ blackSum f (make_ (DocLen d))) as Hb by (intros f Hnn; by apply blackSum_le).
    split_and!; apply Hb; [lia|intros x; apply Hw|apply listLen_nonneg].
  - simpl. intros i Hi. lia.
  - simpl. assert (∀ f, (∀ x, 0 ≤ f x) → 0 ≤ blackSum f (make_ (DocLen d))) as Hb by (intros f Hnn; by apply blackSum_le).
    split; apply Hb; [intros x; apply Hw|apply listLen_nonneg].
Qed.

Lemma reached_range node : reached d node → 1 ≤ node ≤ DocLen d.
Proof.
  induction 1 as [node Hroot|parent node Hp IH Hc]; [by apply (proj1 (Forall_forall _ _) (dk_roots _ _ Hdoc))|].
  by apply (proj1 (Forall_forall _ _) (children_range parent IH)).
Qed.

(** The stage up to compaction: every node is finished. *)
Lemma walkAll_ok : ∃ flags st, markRootFlags d (DocLen d) (make_ (DocLen d)) = Ok flags ∧
  fold_go (walkRoot k d) (collectRoots d) (freshNormalizer (DocLen d) flags) = Ok st ∧ walking st ∧ ∀ node, 1 ≤ node ≤ DocLen d → stateAt st node = nodeBlack.
Proof.
  destruct markRootFlags_ok as (flags & Hm & Hl & Hf & Hmark). exists flags.
  destruct (fold_go_total (λ pre st, stack_ok pre st []) (λ r st, walkRoot k d r st) (collectRoots d) (freshNormalizer (DocLen d) flags)) as (st & Hfold & Hs).
  - by apply fresh_walking.
  - intros pre r post st E Hs. destruct (walkRoot_ok pre st r Hs) as (st' & Hr & Hs').
    { apply (proj1 (Forall_forall _ _) (dk_roots _ _ Hdoc)), elem_of_collectRoots. rewrite E. set_solver. }
    exists st'. split; [done|]. destruct Hs' as [W E' G T]. split; try done. intros c Hc. apply E'. set_solver.
  - exists st. split_and!; [done|done|apply Hs|]. intros node Hn. pose proof (dk_reached _ _ Hdoc node Hn) as Hr. destruct Hs as [W E' _ _].
    induction Hr as [node Hroot|parent node Hp IH Hc].
    + destruct (E' node) as [H|H]; [by apply elem_of_collectRoots|by apply elem_of_nil in H|done].
    + pose proof (reached_range parent Hp) as Hpr.
      destruct (wk_black _ W parent Hpr (IH Hpr)) as [_ Hb]. by apply (proj1 (Forall_forall _ _) Hb).
Qed.
End walk.
