(* ===== verification/WalkMeaning.v ===== *)
(** * Candidate instructions denote what their nodes mean

    On the scratch a walk leaves behind, every node of the document is finished: the
    canonical instruction of a node denotes, on every request row, the value the node
    has in the document.  Flattening is associativity of the connectives, sharing is
    equality of structural keys. *)

From S2P Require Import Prelude Store Truth Schema Result Program Batch Predicate Evidence Executor PolicyIndex Finalize Execute.
From S2P Require Import Liveness Schedule SymbolTable Interner Frozen SymbolCheck Ast Constants ConstantsMeaning Normalize WalkEnd DocMeaning NormalizeOk WalkOk.

(** ** Flattening *)

Lemma foldr_concat {A} (op : A → A → A) e (ls : list (list A)) :
  (∀ x y z, op x (op y z) = op (op x y) z) → (∀ x, op e x = x) →
  foldr op e (concat ls) = foldr op e (map (foldr op e) ls).
Proof.
  intros Hassoc He. assert (∀ l k, foldr op e (l ++ k) = op (foldr op e l) (foldr op e k)) as Happ.
  { induction l as [|x l IH]; intros k; simpl; [by rewrite He|]. by rewrite IH, Hassoc. }
  induction ls as [|l ls IH]; simpl; [done|]. by rewrite Happ, IH.
Qed.

Lemma tv_and_true_l a : tv_and tv_true a = a.
Proof. by destruct a. Qed.
Lemma tv_or_false_l a : tv_or tv_false a = a.
Proof. by destruct a. Qed.

(** A group of groups of its own kind is one group. *)
Lemma groupValue_concat kind (ls : list (list (tv * Z))) : groupValue kind (concat ls) = groupValue kind (map (groupValue kind) ls).
Proof.
  unfold groupValue. rewrite !concat_map. rewrite (foldr_concat Z.lor 0); [|apply Z.lor_assoc|apply Z.lor_0_l].
  destruct (kind =? NodeKindAll).
  - rewrite (foldr_concat tv_and tv_true) by auto using tv_and_assoc, tv_and_true_l. by rewrite !map_map.
  - rewrite (foldr_concat tv_or tv_false) by auto using tv_or_assoc, tv_or_false_l. by rewrite !map_map.
Qed.

Lemma groupValue_singleton kind v : groupValue kind [v] = v.
Proof.
  destruct v as [[a b] m]. unfold groupValue. simpl. rewrite Z.lor_0_r. unfold tv_and, tv_or. simpl.
  destruct (kind =? NodeKindAll); by rewrite ?andb_true_r, ?orb_false_r.
Qed.

Lemma mapM_map {A B} (f : A → option B) (g : A → B) l : (∀ x, x ∈ l → f x = Some (g x)) → mapM f l = Some (map g l).
Proof.
  intros H. apply mapM_Some. induction l as [|x l IH]; simpl; constructor; [apply H; by left|]. apply IH. intros y Hy. apply H. by right.
Qed.

Section meaning.
Context (d : Document) (fields : FieldTable) (source : Interner.Interner) (k : constState) (c : Constants) (Hcon : constants_of d fields source k c).
Context (p : Program) (Hsyms : symbols p = cSymbols c) (Hvals : values p = cValues c).
Local Abbreviation find := (findSymbol (cSymbols c)).
Local Abbreviation schema := (FieldIndex p).

(** ** Constants *)

Lemma value_canonical id l : 0 ≤ id → literalOf d id = Some l → canonicalValue k id = Ok (canonOf k id).
Proof. intros H0 Hl. destruct (co_values _ _ _ _ _ Hcon id l H0 Hl) as (vid & E & _). unfold canonOf. by rewrite E. Qed.

Lemma valueOf_canon kind id : valueOk d kind id → valueOf p (canonOf k id) kind = docValue d find id.
Proof.
  intros (H0 & l & Hl & <-). destruct (co_values _ _ _ _ _ Hcon id l H0 Hl) as (vid & E & _ & Hv). unfold canonOf. rewrite E.
  unfold valueOf. rewrite (Hv p Hsyms Hvals). unfold docValue. by rewrite Hl.
Qed.

Lemma name_symbol id : nameOk d id → optionalSymbolForValue k id = Ok (symOf k id).
Proof.
  intros [->|[b Hb]]; [done|]. destruct (co_symbols _ _ _ _ _ Hcon id b Hb) as (sym & E & _). unfold symOf, optionalSymbolForValue. case_match; [done|]. by rewrite E.
Qed.

Lemma symOf_doc id : nameOk d id → symOf k id = docSymbol d find id.
Proof.
  unfold symOf, docSymbol, optionalSymbolForValue. destruct (Z.eqb_spec id 0) as [->|Hne]; [done|]. intros [|[b Hb]]; [done|].
  destruct (co_symbols _ _ _ _ _ Hcon id b Hb) as (sym & E & Hf). rewrite E. unfold docValue. destruct Hb as [_ ->]. simpl. by rewrite Hf.
Qed.

(** ** Leaves *)

(** The tests of a comparison on opcodes and on operators agree. *)
Lemma compare_key op opcode field value lits b reasons r kind column id ids :
  CompareOpValid op = true → compareOpcode op = Some opcode → SchemaLookup schema field = Some (kind, column) →
  (op = CompareOpIn → map (λ v, valueOf p v kind) lits = map (docValue d find) ids) →
  (op ≠ CompareOpIn → RequiresValue op = true → valueOf p value kind = docValue d find id) →
  keyValue p b reasons r (mkKey opcode field value noPredicate lits []) [] = compareRow d find schema b field op id ids r.
Proof.
  intros Hop Hopc Hs Hin Hv. unfold keyValue, compareRow. simpl. rewrite Hs. simpl.
  pose proof (compareOp_cases op Hop) as He.
  repeat (apply elem_of_cons in He as [->|He]; [injection Hopc as <-; simpl; rewrite ?Hv by done; try done|]); [|by apply elem_of_nil in He].
  assert (existsb (λ vid, literalMatches b kind column (valueOf p vid kind) r) lits = existsb (λ v, literalMatches b kind column (docValue d find v) r) ids) as E; [|by rewrite E].
  specialize (Hin eq_refl). clear -Hin. revert ids Hin. induction lits as [|x lits IH]; intros [|y ids] H; try done. simpl in *. injection H as -> H. by rewrite (IH ids H).
Qed.

(** ** The meaning of every node *)

Context (w : Z → Z) (Hdoc : doc_ok d schema) (Hw : width_ok d w) (st : Normalizer).
Context (Hst : walking k d w st) (Hall : ∀ node, 1 ≤ node ≤ DocLen d → stateAt st node = nodeBlack).

Lemma all_finished node : 1 ≤ node ≤ DocLen d → finished k d w st node.
Proof. intros Hn. by apply (wk_black _ _ _ _ Hst node Hn), Hall. Qed.

(** The value of the canonical instruction of a node. *)
Definition canonValue (b : Batch) (reasons : list Z) (r : nat) (node : Z) : tv * Z :=
  denote (with_instr p (cand st)) b reasons (Z.to_nat (canonAt st node - 1)) r.
Definition argValue (b : Batch) (reasons : list Z) (r : nat) (o : Z) : tv * Z := denote (with_instr p (cand st)) b reasons (Z.to_nat (o - 1)) r.

Lemma canonValue_key b reasons r node : 1 ≤ node ≤ DocLen d →
  let key := nodeKey k d node (nodeArgs d st node) in
  canonValue b reasons r node = keyValue p b reasons r key (map (argValue b reasons r) (kArgs key)).
Proof.
  intros Hn key. destruct (all_finished node Hn) as [Hkey _ _]. apply keysOf_Some in Hkey as [Hid Ek]. fold key in Ek. unfold canonValue.
  pose proof (wk_interned _ _ _ _ Hst) as Hin. destruct (in_len _ Hin) as (_ & _ & _ & _ & _ & _ & _ & He & _).
  rewrite denote_key; [|done|lia|apply (in_rows _ Hin); lia]. by rewrite <-Ek.
Qed.

(** A group's instruction combines its flattened arguments. *)
Lemma group_args b reasons r node kind : 1 ≤ node ≤ DocLen d → Kind d node = Some kind → isGroupKind kind = true →
  canonValue b reasons r node = groupValue kind (map (argValue b reasons r) (nodeArgs d st node)).
Proof.
  intros Hn Hk Hg. rewrite canonValue_key by done. destruct (group_not_leaf kind Hg) as (G1 & G2 & _). unfold nodeKey. rewrite Hk, G1, G2, Hg. simpl.
  unfold groupValue. by destruct (kind =? NodeKindAll).
Qed.

Lemma child_value b reasons r kind child : 1 ≤ child ≤ DocLen d → isGroupKind kind = true →
  groupValue kind (map (argValue b reasons r) (childArgs d st kind child)) = canonValue b reasons r child.
Proof.
  intros Hc Hg. unfold childArgs. case_bool_decide as Hk; [|apply groupValue_singleton].
  destruct (fn_flat _ _ _ _ _ (all_finished child Hc) kind Hk Hg) as (_ & -> & _). by rewrite (group_args _ _ _ child kind).
Qed.

Lemma group_value b reasons r node kind children :
  1 ≤ node ≤ DocLen d → Kind d node = Some kind → isGroupKind kind = true → childrenOf d node = children →
  canonValue b reasons r node = groupValue kind (map (canonValue b reasons r) children).
Proof.
  intros Hn Hk Hg Hch. rewrite (group_args b reasons r node kind) by done. unfold nodeArgs. rewrite Hk, (proj2 (proj2 (group_not_leaf kind Hg))), Hch.
  rewrite concat_map, groupValue_concat, !map_map. f_equal. apply map_ext_in. intros child Hin%list_elem_of_In. apply child_value; [|done].
  rewrite <-Hch in Hin. exact (proj1 (Forall_forall _ _) (children_range d schema Hdoc node Hn) child Hin).
Qed.

Lemma node_meaning_rank (rank : Z → nat) b reasons r :
  (∀ node, 1 ≤ node ≤ DocLen d → ∀ child, child ∈ childrenOf d node → (rank child < rank node)%nat) →
  ∀ fuel node, 1 ≤ node ≤ DocLen d → (rank node < fuel)%nat → nodeValue d find schema b reasons r fuel node = Some (canonValue b reasons r node).
Proof.
  intros Hrank. induction fuel as [|fuel IH]; intros node Hn Hr; [lia|]. cbn [nodeValue].
  assert (∀ child, child ∈ childrenOf d node → nodeValue d find schema b reasons r fuel child = Some (canonValue b reasons r child)) as Hchild.
  { intros child Hin. pose proof (Hrank node Hn child Hin). apply IH; [|lia]. by apply (proj1 (Forall_forall _ _) (children_range d schema Hdoc node Hn)). }
  pose proof (canonValue_key b reasons r node Hn) as Hkey. cbv zeta in Hkey. unfold nodeKey in Hkey. destruct (dk_node _ _ Hdoc node Hn) as [Hok _].
  destruct Hok as [value Hk Hv Hval|field op value kind column Hk Hc Hop Hin Hs Hv|field kind column vs Hk Hc Hvs Hlen Hs Hok
    |kind children Hk Hg Hc Hne _ Hcr|child Hk Hc Hcr|q Hk Hq Q1 Q2 Q3]; rewrite Hk in Hkey |- *; simpl in Hkey |- *.
  - rewrite Hv in Hkey |- *. simpl in Hkey |- *. rewrite Hkey. unfold keyValue. simpl. by rewrite (valueOf_canon _ _ Hval).
  - rewrite Hc in Hkey |- *. simpl in Hkey |- *. f_equal. rewrite Hkey. destruct (compareOpcode_ok op Hop) as (opcode & Hopc & _). rewrite Hopc. simpl.
    rewrite (proj2 (Z.eqb_neq op CompareOpIn)) by done. simpl. symmetry. apply (compare_key op opcode field _ _ b reasons r kind column); try done.
    intros _ Hreq. rewrite Hreq in Hv. destruct Hv as [Hv Hne]. rewrite (proj2 (Z.eqb_neq value 0)) by done. by apply valueOf_canon.
  - rewrite Hc in Hkey |- *. simpl in Hkey |- *. f_equal. rewrite Hkey, Hvs. simpl. symmetry.
    apply (compare_key CompareOpIn OpcodeIn field _ _ b reasons r kind column); try done. intros _. rewrite map_map. apply map_ext_in. intros v Hin%list_elem_of_In.
    apply valueOf_canon. by apply (proj1 (Forall_forall _ _) Hok).
  - destruct (group_not_leaf kind Hg) as (G1 & G2 & G3). rewrite G1, G2, G3, Hg.
    assert (kind =? NodeKindEvidence = false) as G4 by (apply Z.eqb_neq; by intros ->). rewrite G4, Hc. simpl.
    assert (childrenOf d node = children) as Hch by (unfold childrenOf; by rewrite Hk, G3, Hg, Hc). rewrite Hch in Hchild.
    rewrite (mapM_map _ _ _ Hchild). simpl. by rewrite (group_value b reasons r node kind children).
  - rewrite Hc. simpl. assert (childrenOf d node = [child]) as Hch by (unfold childrenOf; by rewrite Hk, Hc). rewrite Hch in Hchild.
    rewrite (Hchild child (list_elem_of_here _ _)). simpl. rewrite Hkey. unfold nodeArgs. rewrite Hk, Hch. done.
  - rewrite Hq in Hkey |- *. simpl in Hkey |- *. rewrite Hkey. unfold keyValue, queryPredicate, docPredicate. simpl. by rewrite !symOf_doc by done.
Qed.

Lemma node_meaning b reasons r node : 1 ≤ node ≤ DocLen d →
  nodeValue d find schema b reasons r (length (dNodeKinds d)) node = Some (canonValue b reasons r node).
Proof.
  intros Hn. destruct (dk_rank _ _ Hdoc) as [rank Hrank]. apply (node_meaning_rank rank); [intros m Hm; by apply Hrank|done|by apply Hrank].
Qed.
End meaning.
