(* ===== verification/CompactOk.v ===== *)
(** * Compaction keeps the live instructions

    Liveness, numbering and packing of compile/normalize_instructions.go on candidate
    rows whose operands precede them: exactly the rows that roots reach are kept, in
    their order, with their literals and with their operands renumbered. *)

From S2P Require Import Prelude Store Truth Schema Result Program Batch Predicate Evidence Executor PolicyIndex Finalize Execute.
From S2P Require Import Liveness Schedule ScheduleMeaning SymbolTable Interner Frozen SymbolCheck Ast Constants Normalize Compact DocMeaning NormalizeOk.

(** ** Filtered ranges *)

Section filtered.
Context (P : nat → Prop) `{Hdec : ∀ i, Decision (P i)}.

(** The number of kept indices below [i]. *)
Definition below (i : nat) : nat := length (filter P (seq 0 i)).

Lemma filter_seq_S i : filter P (seq 0 (S i)) = filter P (seq 0 i) ++ if decide (P i) then [i] else [].
Proof. rewrite seq_S, filter_app. done. Qed.

Lemma filter_seq_lookup n k i : filter P (seq 0 n) !! k = Some i ↔ (i < n)%nat ∧ P i ∧ k = below i.
Proof.
  assert (∀ i, (i < n)%nat → P i → filter P (seq 0 n) !! below i = Some i) as H.
  { intros j Hj HP. replace n with (j + (n - j))%nat by lia. rewrite seq_app, filter_app. unfold below. rewrite lookup_app_r, Nat.sub_diag by done.
    destruct (n - j)%nat as [|m] eqn:E; [lia|]. simpl. by rewrite filter_cons_True. }
  split; [|intros (Hi & HP & ->); by apply H]. intros Hk. pose proof (list_elem_of_lookup_2 _ _ _ Hk) as Hin.
  apply list_elem_of_filter in Hin as [HP Hin%elem_of_seq]. split_and!; [lia|done|].
  eapply NoDup_lookup; [apply (NoDup_filter P), NoDup_seq|exact Hk|apply H; [lia|done]].
Qed.

Lemma total_filter (col : list Z) : Forall is_u32 col → ∀ n, (n ≤ length col)%nat →
  0 ≤ total (map (λ i, col !!! i) (filter P (seq 0 n))) ≤ total (take n col).
Proof.
  intros Hu. induction n as [|n IH]; intros Hn; [done|]. rewrite filter_seq_S, map_app, total_app.
  rewrite (take_S_r col n (col !!! n)) by (apply list_lookup_lookup_total_lt; lia). rewrite total_app.
  assert (is_u32 (col !!! n)) as Hc by (apply Forall_lookup_total_1; [done|lia]). unfold is_u32 in Hc. specialize (IH ltac:(lia)).
  case_decide; unfold total in *; simpl; lia.
Qed.
End filtered.

Section compaction.
Context (c : InstructionColumns).
Local Abbreviation n := (length (Opcodes c)).
Context (Hlen : columns_len c n) (Hrows : ∀ i, (i < n)%nat → row_ok c i).
Context (Hpools : zlen (ListValues c) ≤ MaxUint32 ∧ zlen (Operands c) ≤ MaxUint32).
Context (Htotals : total (ListCounts c) ≤ MaxUint32 ∧ total (OperandCounts c) ≤ MaxUint32) (Hsize : Z.of_nat n < MaxUint32).

Definition argsOf (i : nat) : list Z := kArgs (keyOf c i).
Definition litsOf (i : nat) : list Z := kLiterals (keyOf c i).

(** ** Liveness *)

Lemma args_range i o : (i < n)%nat → o ∈ argsOf i → 1 ≤ o ≤ Z.of_nat i.
Proof. intros Hi Ho. exact (proj1 (Forall_forall _ _) (ro_args _ _ (Hrows i Hi)) o Ho). Qed.

Lemma args_slice i : (i < n)%nat → let s := OperandStarts c !!! i in let m := OperandCounts c !!! i in
  at_ (OperandStarts c) (Z.of_nat i) = Ok s ∧ at_ (OperandCounts c) (Z.of_nat i) = Ok m ∧ u64 (s + m) = s + m ∧ u32 (s + m) = s + m ∧
  s + m ≤ zlen (Operands c) ∧ slice_ (Operands c) s (s + m) = Ok (argsOf i) ∧ zlen (argsOf i) = m ∧ 0 ≤ m.
Proof.
  intros Hi s m. destruct Hlen as (L1 & L2 & L3 & L4 & L5 & L6 & L7 & _). destruct (ro_operands _ _ (Hrows i Hi)) as (P0 & P1 & P2). fold s m in P0, P1, P2.
  destruct Hpools as [_ Hp]. unfold MaxUint32 in Hp. unfold argsOf, keyOf. simpl. fold s m.
  rewrite !at_total, !Nat2Z.id, u64_small, u32_small, slice_csr, length_csr by (unfold is_u32, is_u64; lia). split_and!; done || lia.
Qed.

Lemma lits_slice i : (i < n)%nat → let s := ListStarts c !!! i in let m := ListCounts c !!! i in
  at_ (ListStarts c) (Z.of_nat i) = Ok s ∧ at_ (ListCounts c) (Z.of_nat i) = Ok m ∧ u64 (s + m) = s + m ∧ u32 (s + m) = s + m ∧
  s + m ≤ zlen (ListValues c) ∧ slice_ (ListValues c) s (s + m) = Ok (litsOf i) ∧ zlen (litsOf i) = m ∧ 0 ≤ m.
Proof.
  intros Hi s m. destruct Hlen as (L1 & L2 & L3 & L4 & L5 & L6 & L7 & _). destruct (ro_list _ _ (Hrows i Hi)) as (P0 & P1 & P2). fold s m in P0, P1, P2.
  destruct Hpools as [Hp _]. unfold MaxUint32 in Hp. unfold litsOf, keyOf. simpl. fold s m.
  rewrite !at_total, !Nat2Z.id, u64_small, u32_small, slice_csr, length_csr by (unfold is_u32, is_u64; lia). split_and!; done || lia.
Qed.

Lemma markCandidate_ok i live : (i < n)%nat → length live = n →
  ∃ live', markCandidate c i live = Ok live' ∧ length live' = n ∧
    ∀ j, (j < n)%nat → live' !!! j ≠ 0 ↔ live !!! j ≠ 0 ∨ (live !!! i ≠ 0 ∧ Z.of_nat j + 1 ∈ argsOf i).
Proof.
  intros Hi Hl. unfold markCandidate. rewrite (at_total live) by lia. simpl. rewrite Nat2Z.id. destruct (Z.eqb_spec (live !!! i) 0) as [E|Hne].
  { exists live. split_and!; [done|done|]. naive_solver. }
  destruct (args_slice i Hi) as (-> & -> & E1 & E2 & E3 & E4 & _). simpl. rewrite E1, E2, (proj2 (Z.leb_le _ _)) by done. simpl. rewrite E4. simpl.
  fold_loop (λ pre live', length live' = n ∧ ∀ j, (j < n)%nat → live' !!! j ≠ 0 ↔ live !!! j ≠ 0 ∨ Z.of_nat j + 1 ∈ pre) as (live' & -> & Hl' & Hm).
  - split; [done|]. intros j Hj. rewrite elem_of_nil. naive_solver.
  - intros pre o post l E (Hl' & Hm). assert (1 ≤ o ≤ Z.of_nat i) as Ho by (apply args_range; [done|]; rewrite E; set_solver).
    rewrite (proj2 (Z.eqb_neq o 0)), (proj2 (Z.ltb_ge _ o)) by lia. simpl. rewrite put_Ok by lia. eexists. split; [done|]. split; [by rewrite length_insert|].
    intros j Hj. rewrite elem_of_app, list_elem_of_singleton. destruct (decide (j = Z.to_nat (o - 1))) as [->|Hne'].
    + rewrite list_lookup_total_insert_eq by lia. split; [|done]. intros _. right. right. lia.
    + rewrite list_lookup_total_insert_ne by done. rewrite (Hm j Hj). split; [naive_solver|]. intros [?|[?|?]]; [by left|by right|]. exfalso. lia.
  - exists live'. split_and!; [done|done|]. intros j Hj. rewrite (Hm j Hj). naive_solver.
Qed.

Record live_ok (live : list Z) : Prop := {
  lv_len : length live = n;
  lv_roots i : (i < n)%nat → RootFlags c !!! i ≠ 0 → live !!! i ≠ 0;
  lv_args i o : (i < n)%nat → live !!! i ≠ 0 → o ∈ argsOf i → live !!! Z.to_nat (o - 1) ≠ 0;
  lv_used i : (i < n)%nat → live !!! i ≠ 0 → RootFlags c !!! i ≠ 0 ∨ ∃ j, (j < n)%nat ∧ live !!! j ≠ 0 ∧ Z.of_nat i + 1 ∈ argsOf j
}.

Lemma markRootRows_ok : ∃ live, for_range (length (RootFlags c)) (λ i live,
    flags ← at_ (RootFlags c) (Z.of_nat i);
    if negb (flags =? 0) then put_ live (Z.of_nat i) 1 else Ok live) (make_ (Z.of_nat n)) = Ok live ∧
  length live = n ∧ ∀ i, (i < n)%nat → live !!! i ≠ 0 ↔ RootFlags c !!! i ≠ 0.
Proof.
  destruct Hlen as (_ & _ & _ & _ & _ & _ & _ & _ & L8 & _). rewrite L8.
  for_loop (λ m live, length live = n ∧ ∀ i, (i < n)%nat → live !!! i ≠ 0 ↔ (i < m)%nat ∧ RootFlags c !!! i ≠ 0) as (live & -> & Hl & Hm).
  - unfold make_. rewrite length_replicate, Nat2Z.id. split; [done|]. intros i Hi. rewrite lookup_total_replicate_2 by done. split; [done|lia].
  - intros m live Hmn (Hl & Hm). rewrite at_total, Nat2Z.id by lia. simpl. destruct (Z.eqb_spec (RootFlags c !!! m) 0) as [E|Hne]; simpl.
    + exists live. split_and!; [done|done|]. intros i Hi. rewrite (Hm i Hi). split; [intros [? ?]; split; [lia|done]|].
      intros [H1 H2]. split; [|done]. destruct (decide (i = m)) as [->|]; [done|lia].
    + rewrite put_Ok, Nat2Z.id by lia. eexists. split_and!; [done|by rewrite length_insert|]. intros i Hi. destruct (decide (i = m)) as [->|Hd].
      * rewrite list_lookup_total_insert_eq by lia. split; [|done]. intros _. split; [lia|done].
      * rewrite list_lookup_total_insert_ne, (Hm i Hi) by done. split; intros [? ?]; (split; [lia|done]).
  - exists live. split_and!; [done|done|]. intros i Hi. rewrite (Hm i Hi). naive_solver.
Qed.

Lemma markLiveCandidates_ok : ∃ live, markLiveCandidates c = Ok live ∧ live_ok live.
Proof.
  unfold markLiveCandidates. destruct markRootRows_ok as (live0 & -> & Hl0 & H0). simpl.
  for_loop (λ m live, length live = n ∧ (∀ i, (i < n)%nat → RootFlags c !!! i ≠ 0 → live !!! i ≠ 0) ∧
    (∀ i o, (i < n)%nat → (n - m ≤ i)%nat → live !!! i ≠ 0 → o ∈ argsOf i → live !!! Z.to_nat (o - 1) ≠ 0) ∧
    (∀ i, (i < n)%nat → live !!! i ≠ 0 → RootFlags c !!! i ≠ 0 ∨ ∃ j, (j < n)%nat ∧ live !!! j ≠ 0 ∧ Z.of_nat i + 1 ∈ argsOf j)) as (live & -> & A & B & C & D).
  - split_and!; [done|intros i Hi; by apply H0|intros; lia|]. intros i Hi Hlive. left. by apply H0.
  - intros m live Hm (A & B & C & D). destruct (markCandidate_ok (n - 1 - m) live) as (live' & -> & Hl' & Hiff); [lia|done|]. exists live'. split; [done|].
    assert (∀ j, (j < n)%nat → live !!! j ≠ 0 → live' !!! j ≠ 0) as Hmono by (intros j Hj Hlj; apply Hiff; [done|by left]). split_and!.
    + done.
    + intros i Hi Hr. apply Hmono; [done|by apply B].
    + intros i o Hi Hge Hlive Ho. pose proof (args_range i o Hi Ho) as Hor. apply Hiff in Hlive as [Hlive|[Hlive Hin]]; [| |done].
      * destruct (decide (i = n - 1 - m)%nat) as [->|Hne]; [|apply Hmono; [lia|]; apply (C i o); try done; lia].
        apply Hiff; [lia|]. right. split; [done|]. by replace (Z.of_nat (Z.to_nat (o - 1)) + 1) with o by lia.
      * pose proof (args_range (n - 1 - m) _ ltac:(lia) Hin). lia.
    + intros i Hi Hlive. apply Hiff in Hlive as [Hlive|[Hlive Hin]]; [| |done].
      * destruct (D i Hi Hlive) as [?|(j & Hj & Hlj & Hin)]; [by left|]. right. exists j. split_and!; [done|by apply Hmono|done].
      * right. exists (n - 1 - m)%nat. split_and!; [lia|apply Hmono; [lia|done]|done].
  - exists live. split; [done|]. split; try done. intros i o Hi. apply (C i o Hi). lia.
Qed.

(** ** Numbering *)

Context (live : list Z) (Hlive : live_ok live).
Local Abbreviation ord := (liveRows live).
Local Abbreviation rank := (below (λ i, live !!! i ≠ 0%Z)).

Lemma live_row k i : ord !! k = Some i ↔ (i < n)%nat ∧ live !!! i ≠ 0 ∧ k = rank i.
Proof. unfold liveRows. rewrite (lv_len _ Hlive). apply filter_seq_lookup. Qed.

Lemma rank_S i : rank (S i) = (rank i + if decide (live !!! i ≠ 0%Z) then 1 else 0)%nat.
Proof. unfold below. rewrite filter_seq_S, length_app. by case_decide. Qed.

Lemma rank_lt i j : (i < j)%nat → live !!! i ≠ 0 → (rank i < rank j)%nat.
Proof.
  intros Hij Hi. induction Hij as [|j _ IH]; rewrite rank_S; [|lia]. by rewrite decide_True by done; lia.
Qed.

Lemma rank_le i : (rank i ≤ i)%nat.
Proof. induction i as [|i IH]; [done|]. rewrite rank_S. case_decide; lia. Qed.

Lemma ord_length : length ord = rank n.
Proof. unfold liveRows, below. by rewrite (lv_len _ Hlive). Qed.

Lemma row_counts_u32 : Forall is_u32 (ListCounts c) ∧ Forall is_u32 (OperandCounts c).
Proof.
  destruct Hlen as (L1 & L2 & L3 & L4 & L5 & L6 & L7 & _). destruct Hpools as [P1 P2]. unfold MaxUint32 in *.
  split; apply Forall_lookup; intros i x Hx; pose proof (lookup_lt_Some _ _ _ Hx) as Hi; apply list_lookup_total_correct in Hx; unfold is_u32.
  - destruct (ro_list _ _ (Hrows i ltac:(lia))) as (? & ? & ?). rewrite Hx in *. lia.
  - destruct (ro_operands _ _ (Hrows i ltac:(lia))) as (? & ? & ?). rewrite Hx in *. lia.
Qed.

Lemma live_total (col : list Z) : Forall is_u32 col → length col = n → ∀ i, (i ≤ n)%nat →
  0 ≤ total (map (λ j, col !!! j) (filter (λ j, live !!! j ≠ 0) (seq 0 i))) ≤ total col.
Proof.
  intros Hu Hl i Hi. pose proof (total_filter (λ j, live !!! j ≠ 0) col Hu i ltac:(lia)). pose proof (total_take col i Hu). lia.
Qed.

Record numbered (s : numbering) : Prop := {
  nb_len : length (toFinal s) = n;
  nb_final i : (i < n)%nat → toFinal s !!! i = if decide (live !!! i ≠ 0) then Z.of_nat (rank i) + 1 else 0;
  nb_lists : listTotal s = total (map (λ i, ListCounts c !!! i) ord);
  nb_operands : operandTotal s = total (map (λ i, OperandCounts c !!! i) ord);
  nb_fits : 0 ≤ listTotal s ≤ MaxUint32 ∧ 0 ≤ operandTotal s ≤ MaxUint32
}.

Lemma numberRows_ok : ∃ s, numberRows c live = Ok s ∧ numbered s.
Proof.
  pose proof Hlen as (L1 & L2 & L3 & L4 & L5 & L6 & L7 & _). destruct row_counts_u32 as [U1 U2]. destruct Htotals as [T1 T2]. pose proof (lv_len _ Hlive) as Ll.
  unfold numberRows. unfold MaxUint32 in *.
  for_loop (λ m s, length (toFinal s) = n ∧ liveCount s = Z.of_nat (rank m) ∧
    (∀ i, (i < n)%nat → toFinal s !!! i = if decide ((i < m)%nat ∧ live !!! i ≠ 0) then Z.of_nat (rank i) + 1 else 0) ∧
    listTotal s = total (map (λ j, ListCounts c !!! j) (filter (λ j, live !!! j ≠ 0) (seq 0 m))) ∧
    operandTotal s = total (map (λ j, OperandCounts c !!! j) (filter (λ j, live !!! j ≠ 0) (seq 0 m)))) as (s & -> & A & B & C & D & E).
  - unfold make_. cbn [toFinal liveCount listTotal operandTotal]. rewrite length_replicate. split_and!; try done; [lia|].
    intros i Hi. rewrite lookup_total_replicate_2 by lia. by rewrite decide_False by (intros [? _]; lia).
  - intros m s Hm (A & B & C & D & E). unfold numberRow. rewrite (at_total live), Nat2Z.id, go_bind_Ok by lia.
    pose proof (rank_le m) as Hrm. pose proof (live_total (ListCounts c) U1 L5 (S m) ltac:(lia)) as B1. pose proof (live_total (OperandCounts c) U2 L7 (S m) ltac:(lia)) as B2.
    rewrite filter_seq_S, map_app, total_app in B1, B2. rewrite !filter_seq_S, !map_app, !total_app, rank_S.
    assert (∀ x, total [x] = x) as Et by (intros; unfold total; simpl; lia). destruct (Z.eqb_spec (live !!! m) 0) as [E0|Hne].
    + exists s. rewrite !decide_False by (intros H; by apply H). cbn [map]. change (total []) with 0. rewrite !Z.add_0_r, Nat.add_0_r. split_and!; try done.
      intros i Hi. rewrite (C i Hi). apply decide_ext. split; intros [? ?]; (split; [|done]); [lia|]. destruct (decide (i = m)) as [->|]; [done|lia].
    + rewrite !decide_True in * by done. cbn [map] in *. rewrite put_Ok by lia. rewrite go_bind_Ok, (at_total (ListCounts c)) by lia.
      rewrite go_bind_Ok, (at_total (OperandCounts c)), go_bind_Ok by lia. rewrite !Nat2Z.id, B, D, E, !Et in *.
      rewrite !u64_small by (unfold is_u64; lia). rewrite u32_small by (unfold is_u32; lia).
      eexists. split; [done|]. cbn [toFinal liveCount listTotal operandTotal]. rewrite length_insert. split_and!; try done; try lia.
      intros i Hi. destruct (decide (i = m)) as [->|Hd].
      * rewrite list_lookup_total_insert_eq by lia. rewrite decide_True by (split; [lia|done]). done.
      * rewrite list_lookup_total_insert_ne, (C i Hi) by done. apply decide_ext. split; intros [? ?]; (split; [lia|done]).
  - exists s. split; [done|]. pose proof (live_total (ListCounts c) U1 L5 n ltac:(lia)). pose proof (live_total (OperandCounts c) U2 L7 n ltac:(lia)).
    assert (ord = filter (λ j, live !!! j ≠ 0) (seq 0 n)) as Eo by (unfold liveRows; by rewrite Ll). split; rewrite ?Eo; try done.
    + intros i Hi. rewrite (C i Hi). apply decide_ext. naive_solver.
    + unfold MaxUint32. rewrite D, E. lia.
Qed.

(** ** Packing *)

Context (s : numbering) (Hs : numbered s).

(** The final ID of a live candidate, and the operands of a row under final IDs. *)
Definition finalID (o : Z) : Z := toFinal s !!! Z.to_nat (o - 1).
Definition finalArgs (i : nat) : list Z := map finalID (argsOf i).

Lemma finalID_row o : 1 ≤ o ≤ Z.of_nat n → live !!! Z.to_nat (o - 1) ≠ 0 →
  ord !! Z.to_nat (finalID o - 1) = Some (Z.to_nat (o - 1)) ∧ 1 ≤ finalID o ≤ zlen ord ∧ finalOperand (toFinal s) o = Ok (finalID o).
Proof.
  intros Ho Hl. pose proof (nb_final _ Hs (Z.to_nat (o - 1)) ltac:(lia)) as E. rewrite decide_True in E by done. fold (finalID o) in E.
  assert (ord !! Z.to_nat (finalID o - 1) = Some (Z.to_nat (o - 1))) as Hrow by (apply live_row; split_and!; [lia|done|lia]).
  pose proof (lookup_lt_Some _ _ _ Hrow). split_and!; [done|lia|lia|]. unfold finalOperand. pose proof (nb_len _ Hs).
  rewrite (proj2 (Z.eqb_neq o 0)), (proj2 (Z.ltb_ge _ o)) by lia. simpl. rewrite at_total by lia. simpl. fold (finalID o).
  by rewrite (proj2 (Z.eqb_neq _ 0)) by lia.
Qed.

(** Operands of a live row are renamed to earlier rows. *)
Lemma finalArgs_ok k i o : ord !! k = Some i → o ∈ argsOf i →
  1 ≤ finalID o ≤ Z.of_nat k ∧ ord !! Z.to_nat (finalID o - 1) = Some (Z.to_nat (o - 1)) ∧ finalOperand (toFinal s) o = Ok (finalID o) ∧ 1 ≤ o ≤ Z.of_nat i.
Proof.
  intros (Hi & Hl & ->)%live_row Ho. pose proof (args_range i o Hi Ho) as Hr. pose proof (lv_args _ Hlive i o Hi Hl Ho) as Hlo.
  destruct (finalID_row o) as (Hrow & H1 & Hf); [lia|done|]. split_and!; [lia| |done|done|lia|lia].
  apply live_row in Hrow as (_ & _ & E). pose proof (rank_lt (Z.to_nat (o - 1)) i ltac:(lia) Hlo). lia.
Qed.

Lemma packed_length (f : nat → list Z) (col : list Z) : (∀ i, (i < n)%nat → zlen (f i) = col !!! i) →
  zlen (packed ord f (length ord)) = total (map (λ i, col !!! i) ord).
Proof.
  intros Hf. unfold packed. rewrite firstn_all. assert (∀ i, i ∈ ord → (i < n)%nat) as Ho by (intros i [k Hk]%list_elem_of_lookup; by apply live_row in Hk as [? _]).
  induction (liveRows live) as [|i l IH]; [done|]. simpl. rewrite length_app. unfold total in *. simpl.
  rewrite <-Hf by (apply Ho; by left). rewrite <-IH by (intros j Hj; apply Ho; by right). lia.
Qed.

Lemma packed_fits (f : nat → list Z) (T : Z) m : zlen (packed ord f (length ord)) = T → zlen (packed ord f m) ≤ T.
Proof.
  intros <-. destruct (decide (m ≤ length ord)%nat) as [Hm|Hm].
  - destruct (packed_mono ord f m (length ord) Hm) as [rest ->]. rewrite length_app. lia.
  - unfold packed. by rewrite !take_ge by lia.
Qed.

Lemma lists_length : zlen (packed ord litsOf (length ord)) = listTotal s.
Proof. rewrite (nb_lists _ Hs). apply packed_length. intros i Hi. by destruct (lits_slice i Hi) as (_ & _ & _ & _ & _ & _ & -> & _). Qed.

Lemma operands_length : zlen (packed ord finalArgs (length ord)) = operandTotal s.
Proof.
  rewrite (nb_operands _ Hs). apply packed_length. intros i Hi. unfold finalArgs. rewrite length_map. by destruct (args_slice i Hi) as (_ & _ & _ & _ & _ & _ & -> & _).
Qed.

Local Abbreviation compacting := (packInv ord (length ord) litsOf finalArgs (Z.to_nat (listTotal s)) (Z.to_nat (operandTotal s))).

Lemma compactRow_ok m i k : ord !! m = Some i → compacting m k → ∃ k', compactRow c (toFinal s) m (Z.of_nat i) k = Ok k' ∧ compacting (S m) k'.
Proof.
  intros Hm [L1 L2 [L3 L4] O1 O2 [O3 O4] [U1 U2]]. pose proof (proj1 (live_row m i) Hm) as (Hi & _ & _). destruct (nb_fits _ Hs) as [F1 F2]. unfold MaxUint32 in F1, F2.
  pose proof (packed_fits litsOf _ m lists_length) as G1. pose proof (packed_fits litsOf _ (S m) lists_length) as G2.
  pose proof (packed_fits finalArgs _ m operands_length) as G3. pose proof (packed_fits finalArgs _ (S m) operands_length) as G4.
  rewrite (packed_S ord _ m i Hm), length_app in G2. rewrite (packed_S ord _ m i Hm), length_app in G4.
  destruct (starts_step ord _ eq_refl litsOf (kListStarts k) m i Hm L3 L4 U1) as (ls & E1 & S1 & S2 & S3); [unfold is_u32; lia|].
  destruct (starts_step ord _ eq_refl finalArgs (kOperandStarts k) m i Hm O3 O4 U2) as (os & E2 & S4 & S5 & S6); [unfold is_u32; lia|].
  destruct (lits_slice i Hi) as (R1 & R2 & R3 & R4 & R5 & R6 & R7 & R8). destruct (args_slice i Hi) as (A1 & A2 & A3 & A4 & A5 & A6 & A7 & A8).
  unfold compactRow. rewrite R1, go_bind_Ok, R2, go_bind_Ok, R3, (proj2 (Z.leb_le _ _)) by done. cbn [check]. rewrite go_bind_Ok.
  assert ((if negb (ListCounts c !!! i =? 0) then
      starts ← put_ (kListStarts k) (Z.of_nat m) (kListPos k);
      src ← slice_ (ListValues c) (ListStarts c !!! i) (u32 (ListStarts c !!! i + ListCounts c !!! i));
      vals ← copyAt (kListValues k) (kListPos k) src;
      Ok (starts, vals, u32 (kListPos k + ListCounts c !!! i))
    else Ok (kListStarts k, kListValues k, kListPos k)) =
    Ok (ls, packed ord litsOf (S m) ++ replicate (Z.to_nat (listTotal s) - length (packed ord litsOf (S m))) 0, zlen (packed ord litsOf (S m)))) as ->.
  { rewrite (packed_S ord _ m i Hm), L1, L2. rewrite R7 in E1. destruct (negb _) eqn:Ez.
    - rewrite E1, go_bind_Ok, R4, R6, go_bind_Ok, copyAt_next, go_bind_Ok by lia. rewrite (length_app _ (litsOf i)).
      rewrite u32_small by (unfold is_u32; lia). do 3 f_equal; [|lia]. f_equal. f_equal. lia.
    - simplify_eq. apply negb_false_iff, Z.eqb_eq in Ez. assert (litsOf i = []) as -> by (apply nil_length_inv; lia). by rewrite app_nil_r. }
  rewrite go_bind_Ok. cbv beta iota. rewrite A1, go_bind_Ok, A2, go_bind_Ok, A3, (proj2 (Z.leb_le _ _)) by done. cbn [check]. rewrite go_bind_Ok.
  unfold finalArgs at 1 in E2. rewrite length_map, A7 in E2. rewrite O2, E2, go_bind_Ok, A4, A6, go_bind_Ok, O1.
  unfold finalArgs in G4 at 2. rewrite length_map in G4.
  rewrite (write_all _ finalID); [|intros o B r Ho HB|lia|unfold MaxUint32; lia].
  - rewrite go_bind_Ok. eexists. split; [done|]. split; cbn [kListValues kListPos kListStarts kOperands kOperandPos kOperandStarts]; try done.
    + by rewrite (packed_S ord _ m i Hm).
    + by rewrite (packed_S ord _ m i Hm).
  - destruct (finalArgs_ok m i o Hm Ho) as (_ & _ & -> & _). rewrite go_bind_Ok, put_next, go_bind_Ok. unfold MaxUint32 in HB. by rewrite u32_small by (unfold is_u32; lia).
Qed.

(** The compacted columns: row [k] is the live candidate [i] with renamed operands. *)
Record compacted (c' : InstructionColumns) : Prop := {
  cp_columns : let kept col := map (λ i, col !!! i) ord in
    Opcodes c' = kept (Opcodes c) ∧ Fields c' = kept (Fields c) ∧ Values c' = kept (Values c) ∧ ListCounts c' = kept (ListCounts c) ∧
    OperandCounts c' = kept (OperandCounts c) ∧ EvidenceKinds c' = kept (EvidenceKinds c) ∧ EvidenceStates c' = kept (EvidenceStates c) ∧
    EvidenceSubjects c' = kept (EvidenceSubjects c) ∧ EvidenceScopes c' = kept (EvidenceScopes c) ∧ EvidenceTimings c' = kept (EvidenceTimings c) ∧
    RootFlags c' = kept (RootFlags c) ∧ InstructionNodes c' = kept (InstructionNodes c) ∧ InstructionSourceStarts c' = kept (InstructionSourceStarts c) ∧
    InstructionSourceEnds c' = kept (InstructionSourceEnds c);
  cp_keys k i : ord !! k = Some i → keyOf c' k =
    {| kOpcode := kOpcode (keyOf c i); kField := kField (keyOf c i); kValue := kValue (keyOf c i); kEvidence := kEvidence (keyOf c i);
       kLiterals := kLiterals (keyOf c i); kArgs := finalArgs i |};
  cp_ranges k : (k < length ord)%nat →
    in_pool (ListValues c') (ListStarts c' !!! k) (ListCounts c' !!! k) ∧ in_pool (Operands c') (OperandStarts c' !!! k) (OperandCounts c' !!! k);
  cp_starts : length (ListStarts c') = length ord ∧ length (OperandStarts c') = length ord ∧ Forall is_u32 (ListStarts c') ∧ Forall is_u32 (OperandStarts c');
  cp_operands : Forall is_u32 (Operands c');
  cp_sizes : zlen (ListValues c') = listTotal s ∧ zlen (Operands c') = operandTotal s
}.

Lemma kept_below (col : list Z) : length col = n → Forall (λ i, (i < length col)%nat) ord.
Proof. intros ->. apply Forall_forall. intros i [k Hk]%list_elem_of_lookup. by apply live_row in Hk as [? _]. Qed.

Lemma compactColumns_ok : ∃ c', compactColumns c live s = Ok c' ∧ compacted c'.
Proof.
  destruct Hlen as (L1 & L2 & L3 & L4 & L5 & L6 & L7 & (E1 & E2 & E3 & E4 & E5) & L8 & L9 & L10 & L11). destruct (nb_fits _ Hs) as [F1 F2]. unfold MaxUint32 in F1, F2.
  unfold compactColumns. rewrite !gather_ok by (by apply kept_below). rewrite !go_bind_Ok.
  for_loop (λ m k, compacting m k) as (k & E & Hk).
  - rewrite length_map. replace (make_ (listTotal s)) with (make_ (Z.of_nat (Z.to_nat (listTotal s)))) by (f_equal; lia).
    replace (make_ (operandTotal s)) with (make_ (Z.of_nat (Z.to_nat (operandTotal s)))) by (f_equal; lia). by apply packInv_fresh.
  - intros m k Hm Hpk. rewrite length_map in Hm. destruct (lookup_lt_is_Some_2 ord m Hm) as [i Hi].
    assert (map Z.of_nat ord !!! m = Z.of_nat i) as -> by (apply list_lookup_total_correct, list_lookup_fmap_Some; by exists i). by apply compactRow_ok.
  - rewrite E, go_bind_Ok. eexists. split; [done|]. rewrite length_map in Hk. destruct Hk as [V1 V2 [V3 V4] O1 O2 [O3 O4] [U1 U2]].
    pose proof lists_length as Hl. pose proof operands_length as Ho.
    assert (zlen (kListValues k) = listTotal s) as Hzl by (rewrite V1, length_app, length_replicate; lia).
    assert (zlen (kOperands k) = operandTotal s) as Hzo by (rewrite O1, length_app, length_replicate; lia).
    assert (∀ j i, ord !! j = Some i → csr (kListValues k) (kListStarts k !!! j) (ListCounts c !!! i) = litsOf i ∧ kListStarts k !!! j + ListCounts c !!! i ≤ listTotal s) as HL.
    { intros j i Hj. rewrite V1. destruct (proj1 (live_row j i) Hj) as (Hi & _). destruct (lits_slice i Hi) as (_ & _ & _ & _ & _ & _ & R7 & _).
      apply (packed_range ord (length ord) eq_refl) with j; [done|by apply V4|done|by apply packed_fits|lia]. }
    assert (∀ j i, ord !! j = Some i → csr (kOperands k) (kOperandStarts k !!! j) (OperandCounts c !!! i) = finalArgs i ∧ kOperandStarts k !!! j + OperandCounts c !!! i ≤ operandTotal s) as HO.
    { intros j i Hj. rewrite O1. destruct (proj1 (live_row j i) Hj) as (Hi & _). destruct (args_slice i Hi) as (_ & _ & _ & _ & _ & _ & A7 & _).
      apply (packed_range ord (length ord) eq_refl) with j; [done|by apply O4|unfold finalArgs; by rewrite length_map|by apply packed_fits|lia]. }
    split; cbn [Opcodes Fields Values ListStarts ListCounts OperandStarts OperandCounts EvidenceKinds EvidenceStates EvidenceSubjects EvidenceScopes EvidenceTimings
      RootFlags InstructionNodes InstructionSourceStarts InstructionSourceEnds ListValues Operands]; try done.
    + intros j i Hj. unfold keyOf. cbn [Opcodes Fields Values ListStarts ListCounts OperandStarts OperandCounts EvidenceKinds EvidenceStates EvidenceSubjects
        EvidenceScopes EvidenceTimings ListValues Operands kOpcode kField kValue kEvidence kLiterals]. rewrite !(row_at ord _ j i Hj).
      destruct (HL j i Hj) as [-> _]. destruct (HO j i Hj) as [-> _]. done.
    + intros j Hj. destruct (lookup_lt_is_Some_2 ord j Hj) as [i Hi]. rewrite !(row_at ord _ j i Hi). destruct (HL j i Hi) as [_ HLi], (HO j i Hi) as [_ HOi].
      destruct (proj1 (live_row j i) Hi) as (Hin & _). destruct (lits_slice i Hin) as (_ & _ & _ & _ & _ & _ & _ & R8). destruct (args_slice i Hin) as (_ & _ & _ & _ & _ & _ & _ & A8).
      assert (is_u32 (kListStarts k !!! j)) as [? _] by (apply Forall_lookup_total_1; [done|lia]).
      assert (is_u32 (kOperandStarts k !!! j)) as [? _] by (apply Forall_lookup_total_1; [done|lia]). unfold in_pool. rewrite Hzl, Hzo. done.
    + rewrite O1. apply Forall_app. split; [|apply Forall_replicate; unfold is_u32; lia]. unfold packed. apply Forall_concat, Forall_forall.
      intros l (i & <- & Hi%list_elem_of_In)%list_elem_of_In%in_map_iff. apply elem_of_take in Hi as (j & Hj & _). apply Forall_forall.
      intros o' (o & -> & Ho')%list_elem_of_fmap. destruct (finalArgs_ok j i o Hj Ho') as (Hr & _). destruct (proj1 (live_row j i) Hj) as (Hin & _ & ->).
      pose proof (rank_le i). unfold is_u32, MaxUint32 in *. lia.
Qed.

(** ** The program of compacted columns *)

Section compacted.
Context (c' : InstructionColumns) (Hc : compacted c').

Lemma compacted_length : length (Opcodes c') = length ord.
Proof. destruct (cp_columns _ Hc) as (-> & _). by rewrite length_map. Qed.

Lemma compacted_evidence : evidence_columns c'.
Proof.
  destruct (cp_columns _ Hc) as (E1 & _ & _ & _ & _ & E2 & E3 & E4 & E5 & E6 & _). unfold evidence_columns. rewrite E1, E2, E3, E4, E5, E6. by rewrite !length_map.
Qed.

Lemma compacted_denote p b reasons r k i : ord !! k = Some i → denote (with_instr p c') b reasons k r = denote (with_instr p c) b reasons i r.
Proof.
  intros Hk. apply (denote_related p c c' (λ k i, ord !! k = Some i)); [apply Hlen|apply compacted_evidence| |done]. clear k i Hk. intros k i Hk.
  destruct (proj1 (live_row k i) Hk) as (Hi & _). rewrite (cp_keys _ Hc k i Hk). split_and!; [rewrite compacted_length; by eapply lookup_lt_Some|done|done|].
  simpl. unfold finalArgs. rewrite Forall2_fmap_l. apply Forall_Forall2_diag, Forall_forall. intros o Ho.
  destruct (finalArgs_ok k i o Hk Ho) as (F1 & F2 & _ & F3). done.
Qed.

Lemma compacted_operands p k i : ord !! k = Some i → operandsOf (with_instr p c') k = finalArgs i.
Proof. intros Hk. exact (f_equal kArgs (cp_keys _ Hc k i Hk)). Qed.

Lemma compacted_typed p : Forall (λ id, 1 ≤ id ≤ zlen ord) (NodeInstructionIDs c') → schedule_typed (with_instr p c').
Proof.
  intros Hn. destruct (cp_columns _ Hc) as (_ & _ & _ & C4 & C5 & _). destruct (cp_starts _ Hc) as (S1 & S2 & S3 & S4). destruct (cp_sizes _ Hc) as [Z1 Z2].
  destruct row_counts_u32 as [U1 U2]. destruct (nb_fits _ Hs) as [F1 F2]. pose proof (nb_lists _ Hs) as N1. pose proof (nb_operands _ Hs) as N2.
  assert (∀ col : list Z, Forall is_u32 col → length col = n → Forall is_u32 (map (λ i, col !!! i) ord)) as Hmap.
  { intros col Hu Hl. apply Forall_map, Forall_forall. intros i Hi. pose proof (proj1 (Forall_forall _ _) (kept_below col Hl) i Hi). by apply Forall_lookup_total_1. }
  destruct Hlen as (_ & _ & _ & _ & L5 & _ & L7 & _). split; simpl.
  - split; simpl; [done|rewrite C5; by apply Hmap|apply Hc].
  - split; [done|]. rewrite C4. by apply Hmap.
  - rewrite C5, Z2, N2. lia.
  - rewrite C4, Z1, N1. lia.
  - eapply Forall_impl; [exact Hn|]. intros id Hid. pose proof ord_length. pose proof (rank_le n). unfold is_u32, MaxUint32 in *. lia.
Qed.

Lemma compacted_valid p : Forall (λ id, 1 ≤ id ≤ zlen ord) (NodeInstructionIDs c') → validateSlotProgram (with_instr p c') = Ok tt.
Proof.
  intros Hn. destruct (cp_columns _ Hc) as (C1 & C2 & C3 & C4 & C5 & C6 & C7 & C8 & C9 & C10 & C11 & C12 & C13 & C14).
  destruct (cp_starts _ Hc) as (S1 & S2 & _). pose proof compacted_length as Hl. pose proof ord_length. pose proof (rank_le n). destruct (cp_sizes _ Hc) as [Z1 Z2].
  destruct (nb_fits _ Hs) as [F1 F2]. unfold validateSlotProgram. cbn [with_instr instr].
  rewrite (check_true (negb _)) by (rewrite negb_true_iff, Z.ltb_ge, Hl; unfold MaxUint32 in *; lia).
  assert (validateScheduleColumns (with_instr p c') = Ok tt) as ->.
  { unfold validateScheduleColumns. cbn [with_instr instr].
    rewrite (check_true (_ && _)) by (unfold optionalScheduleColumn; rewrite !andb_true_iff, !orb_true_iff, !bool_decide_eq_true, ?S1, ?S2, ?C1, ?C2, ?C3, ?C4, ?C5, ?C6, ?C7, ?C8, ?C9, ?C10, ?C11, ?C12, ?C13, ?C14, ?length_map; naive_solver).
    rewrite check_true.
    - apply check_Ok, forallb_forall. intros id Hid%list_elem_of_In. pose proof (proj1 (Forall_forall _ _) Hn id Hid) as Hr. cbv beta in Hr.
      rewrite negb_true_iff, orb_false_iff, Z.eqb_neq, Z.ltb_ge, Hl. lia.
    - apply forallb_forall. intros k Hk%in_seq. destruct (lookup_lt_is_Some_2 ord k) as [i Hi]; [lia|]. destruct (cp_ranges _ Hc k ltac:(lia)) as [(? & ? & ?) (? & ? & ?)].
      unfold MaxUint32 in *. rewrite !u64_small by (unfold is_u64; lia). destruct (proj1 (live_row k i) Hi) as (Hin & _).
      rewrite C1, (row_at ord _ k i Hi), (ro_opcode _ _ (Hrows i Hin)). rewrite negb_true_iff, !orb_false_iff, !Z.ltb_ge. done. }
  rewrite go_bind_Ok. apply check_Ok, forallb_forall. intros k Hk%in_seq. destruct (lookup_lt_is_Some_2 ord k) as [i Hi]; [lia|].
  destruct (cp_ranges _ Hc k ltac:(lia)) as [_ (? & ? & ?)]. unfold validateSlotRow. cbn [with_instr instr]. unfold MaxUint32 in *. rewrite u64_small by (unfold is_u64; lia).
  destruct (proj1 (live_row k i) Hi) as (Hin & _). rewrite C11, (row_at ord _ k i Hi), (proj2 (ro_flags _ _ (Hrows i Hin))). simpl.
  rewrite (proj2 (Z.ltb_ge _ _)) by done. simpl. apply forallb_forall. intros o Ho%list_elem_of_In. change (o ∈ operandsOf (with_instr p c') k) in Ho.
  rewrite (compacted_operands p k i Hi) in Ho. apply list_elem_of_fmap in Ho as (o' & -> & Ho'). destruct (finalArgs_ok k i o' Hi Ho') as (F3 & _).
  rewrite negb_true_iff, orb_false_iff, Z.eqb_neq, Z.leb_gt. lia.
Qed.

Lemma compacted_noDeadCode p : noDeadCode (with_instr p c').
Proof.
  destruct (cp_columns _ Hc) as (C1 & _ & _ & _ & _ & _ & _ & _ & _ & _ & C11 & _). intros k Hk. cbn [with_instr instr] in *. rewrite compacted_length in Hk |- *.
  destruct (lookup_lt_is_Some_2 ord k Hk) as [i Hi]. destruct (proj1 (live_row k i) Hi) as (Hin & Hl & Ek).
  rewrite C11, (row_at ord _ k i Hi). destruct (lv_used _ Hlive i Hin Hl) as [?|(j & Hj & Hlj & Hu)]; [by left|right].
  assert (ord !! rank j = Some j) as Hjr by (by apply live_row). exists (rank j). split; [by eapply lookup_lt_Some|]. split.
  - unfold carriesReasons. cbn [with_instr instr]. rewrite C1, (row_at ord _ _ j Hjr). apply (ro_connective _ _ (Hrows j Hj)). intros E. unfold argsOf in Hu. rewrite E in Hu. by apply elem_of_nil in Hu.
  - rewrite (compacted_operands p _ j Hjr). apply list_elem_of_fmap. exists (Z.of_nat i + 1). split; [|done]. unfold finalID.
    rewrite Z.add_simpl_r, Nat2Z.id. rewrite (nb_final _ Hs i Hin), decide_True by done. by rewrite Ek.
Qed.

(** Compaction keeps structurally distinct rows distinct. *)
Lemma finalArgs_inj k i k' i' : ord !! k = Some i → ord !! k' = Some i' → finalArgs i = finalArgs i' → argsOf i = argsOf i'.
Proof.
  intros Hk Hk'. unfold finalArgs. assert (∀ o, o ∈ argsOf i → 1 ≤ o ∧ ord !! Z.to_nat (finalID o - 1) = Some (Z.to_nat (o - 1))) as H1.
  { intros o Ho. destruct (finalArgs_ok k i o Hk Ho) as (_ & ? & _ & ?). split; [lia|done]. }
  assert (∀ o, o ∈ argsOf i' → 1 ≤ o ∧ ord !! Z.to_nat (finalID o - 1) = Some (Z.to_nat (o - 1))) as H2.
  { intros o Ho. destruct (finalArgs_ok k' i' o Hk' Ho) as (_ & ? & _ & ?). split; [lia|done]. }
  revert H1 H2. generalize (argsOf i) (argsOf i'). clear. induction l as [|o l IH]; intros [|o' l'] H1 H2; try done. simpl. intros [= E El].
  destruct (H1 o (list_elem_of_here _ _)) as [O1 O2]. destruct (H2 o' (list_elem_of_here _ _)) as [O3 O4]. rewrite E, O4 in O2. injection O2 as O2.
  f_equal; [lia|]. apply IH; [intros; apply H1; by right|intros; apply H2; by right|done].
Qed.

Lemma compacted_nodup : NoDup (keysOf c) → NoDup (keysOf c').
Proof.
  rewrite !NoDup_alt. intros Hnd k k' key Hk Hk'. pose proof (lookup_lt_Some _ _ _ Hk) as Lk. pose proof (lookup_lt_Some _ _ _ Hk') as Lk'.
  unfold keysOf in Lk, Lk'. rewrite length_map, length_seq, compacted_length in Lk, Lk'. rewrite keysOf_lookup in Hk, Hk' by (by rewrite compacted_length).
  destruct (lookup_lt_is_Some_2 ord k Lk) as [i Hi], (lookup_lt_is_Some_2 ord k' Lk') as [i' Hi'].
  destruct (proj1 (live_row k i) Hi) as (Hin & _ & Ek), (proj1 (live_row k' i') Hi') as (Hin' & _ & Ek').
  rewrite (cp_keys _ Hc k i Hi) in Hk. rewrite (cp_keys _ Hc k' i' Hi') in Hk'. rewrite <-Hk in Hk'. injection Hk' as E1 E2 E3 E4 E5 E6 E7 E8 E9 E10.
  assert (i = i') as ->; [|congruence]. apply (Hnd i i' (keyOf c i)); rewrite keysOf_lookup by done; [done|]. f_equal.
  pose proof (finalArgs_inj k i k' i' Hi Hi' (eq_sym E10)) as Ea. unfold argsOf, keyOf in *. simpl in Ea. congruence.
Qed.
End compacted.
End compaction.
