(* ===== verification/NodeMapOk.v ===== *)
(** * The map from source nodes to instructions

    [buildNodeInstructionMap] of compile/normalize_instructions.go: when every node's
    canonical candidate is live, or the node is a group whose operands are, the map
    holds for every node exactly its live instruction or its operands' instructions. *)

From S2P Require Import Prelude Store Truth Schema Result Program Batch Predicate Evidence Executor PolicyIndex Finalize Execute.
From S2P Require Import Liveness Schedule ScheduleMeaning SymbolTable Interner Frozen SymbolCheck Ast Constants Normalize Compact DocMeaning NormalizeOk.

Section nodemap.
Context (d : Document) (st : Normalizer) (final : list Z) (ids : nat → list Z).
Local Abbreviation n := (length (dNodeKinds d)).
Local Abbreviation flat i := (csr (Operands (cand st)) (nodeFlatStart st !!! i) (nodeFlatCount st !!! i)).
Context (Hcols : length (nodeCanon st) = n ∧ length (nodeFlatStart st) = n ∧ length (nodeFlatCount st) = n).
Context (Hpool : zlen (Operands (cand st)) ≤ MaxUint32) (Hbound : zlen (concat (map ids (seq 0 n))) ≤ MaxUint32).

(** The entries of node [i]: its live instruction, or the operands of a dead group. *)
Inductive node_entries (i : nat) : Prop :=
  | EntryLive id : 1 ≤ nodeCanon st !!! i ≤ zlen final → final !!! Z.to_nat (nodeCanon st !!! i - 1) = id → id ≠ 0 → ids i = [id] → node_entries i
  | EntryGroup : 1 ≤ nodeCanon st !!! i ≤ zlen final → final !!! Z.to_nat (nodeCanon st !!! i - 1) = 0 →
      in_pool (Operands (cand st)) (nodeFlatStart st !!! i) (nodeFlatCount st !!! i) → nodeFlatCount st !!! i ≠ 0 →
      (∀ o, o ∈ flat i → finalOperand final o = Ok (final !!! Z.to_nat (o - 1))) → ids i = map (λ o, final !!! Z.to_nat (o - 1)) (flat i) → node_entries i.

Context (Hnodes : ∀ i, (i < n)%nat → node_entries i).
Local Abbreviation written m := (packed (seq 0 n) ids m).

Lemma written_S m : (m < n)%nat → written (S m) = written m ++ ids m.
Proof. intros Hm. apply packed_S. by apply lookup_seq_lt. Qed.

Lemma written_all : written n = concat (map ids (seq 0 n)).
Proof. unfold packed. by rewrite take_ge by (rewrite length_seq; lia). Qed.

Lemma written_fits m : (m ≤ n)%nat → zlen (written m) ≤ zlen (concat (map ids (seq 0 n))).
Proof. intros Hm. destruct (packed_mono (seq 0 n) ids m n Hm) as [rest E]. rewrite <-written_all, E, length_app. lia. Qed.

Lemma nodeRanges_ok : ∃ starts counts, for_range n (nodeRange st final) (make_ (Z.of_nat n), make_ (Z.of_nat n), 0) = Ok (starts, counts, zlen (written n)) ∧
  length starts = n ∧ length counts = n ∧ ∀ i, (i < n)%nat → starts !!! i = zlen (written i) ∧ counts !!! i = zlen (ids i).
Proof.
  destruct Hcols as (K1 & K2 & K3). unfold MaxUint32 in *.
  for_loop (λ m acc, acc.2 = zlen (written m) ∧ length acc.1.1 = n ∧ length acc.1.2 = n ∧
    ∀ i, (i < m)%nat → acc.1.1 !!! i = zlen (written i) ∧ acc.1.2 !!! i = zlen (ids i)) as ([[starts counts] t] & E & H1 & H2 & H3 & H4).
  - unfold make_. simpl. rewrite !length_replicate, Nat2Z.id. split_and!; try done. intros; lia.
  - intros m [[starts counts] t] Hm (H1 & H2 & H3 & H4). cbn [fst snd] in *. subst t. unfold nodeRange. rewrite (at_total (nodeCanon st)), go_bind_Ok, Nat2Z.id by lia.
    assert (1 ≤ nodeCanon st !!! m ≤ zlen final ∧ (if final !!! Z.to_nat (nodeCanon st !!! m - 1) =? 0 then
      count ← at_ (nodeFlatCount st) (Z.of_nat m); check (negb (count =? 0)) ErrInvalidDocument ;; Ok count else Ok 1) = Ok (zlen (ids m))) as [Hr Hcount].
    { destruct (Hnodes m Hm) as [id Hr <- Hne ->|Hr E0 (P0 & P1 & P2) Hc _ ->]; (split; [done|]).
      - by rewrite (proj2 (Z.eqb_neq _ 0)).
      - rewrite E0. simpl. rewrite at_total by lia. simpl. rewrite Nat2Z.id, (proj2 (Z.eqb_neq _ 0)) by done. simpl. rewrite length_map, length_csr by lia. f_equal. lia. }
    rewrite (proj2 (Z.eqb_neq _ 0)), (proj2 (Z.ltb_ge _ _)) by lia. cbn [orb negb check]. rewrite go_bind_Ok, (at_total final), go_bind_Ok by lia. rewrite Hcount, go_bind_Ok.
    rewrite (put_Ok starts), go_bind_Ok, (put_Ok counts), go_bind_Ok, !Nat2Z.id by lia. pose proof (written_fits (S m) ltac:(lia)) as Hf. rewrite (written_S m Hm), length_app in Hf.
    rewrite u64_small by (unfold is_u64; lia). rewrite (proj2 (Z.leb_le _ _)) by (unfold MaxUint32; lia). cbn [check]. rewrite go_bind_Ok.
    eexists. split; [done|]. cbn [fst snd]. rewrite (written_S m Hm), length_app, !length_insert. split_and!; [lia|done|done|]. intros i Hi.
    destruct (decide (i = m)) as [->|Hd].
    + rewrite !list_lookup_total_insert_eq by lia. rewrite u32_small by (unfold is_u32; lia). done.
    + rewrite !list_lookup_total_insert_ne by done. apply H4. lia.
  - exists starts, counts. cbn [fst snd] in *. subst t. done.
Qed.

Lemma nodeEntries_ok : for_range n (nodeEntries st final) (make_ (zlen (written n)), 0) = Ok (written n, zlen (written n)).
Proof.
  destruct Hcols as (K1 & K2 & K3). unfold MaxUint32 in *. pose proof written_all as Hall.
  for_loop (λ m acc, acc = (written m ++ replicate (length (written n) - length (written m)) 0, zlen (written m))) as (acc & -> & ->).
  - unfold make_. rewrite Nat2Z.id. unfold packed at 2 3 4. simpl. by rewrite Nat.sub_0_r.
  - intros m acc Hm ->. eexists. split; [|done]. pose proof (written_fits (S m) ltac:(lia)) as Hf. rewrite <-Hall, (written_S m Hm), length_app in Hf. rewrite <-Hall in Hbound.
    unfold nodeEntries. rewrite (at_total (nodeCanon st)), go_bind_Ok, Nat2Z.id by lia. rewrite (written_S m Hm).
    destruct (Hnodes m Hm) as [id Hr E0 Hne Eids|Hr E0 (P0 & P1 & P2) Hc Hfin Eids]; rewrite (at_total final), go_bind_Ok, E0 by lia; rewrite Eids in Hf |- *.
    + rewrite (proj2 (Z.eqb_neq id 0)) by done. cbn [negb]. simpl in Hf.
      replace (length (written n) - length (written m))%nat with (S (length (written n) - length (written m ++ [id]))) by (rewrite length_app; simpl; lia).
      rewrite put_next, go_bind_Ok, u32_small by (unfold is_u32; lia). do 2 f_equal. rewrite length_app. simpl. lia.
    + simpl (negb _). rewrite (at_total (nodeFlatStart st)), go_bind_Ok, (at_total (nodeFlatCount st)), go_bind_Ok, !Nat2Z.id by lia.
      rewrite u64_small, (proj2 (Z.leb_le _ _)) by (unfold is_u64; lia). cbn [check]. rewrite go_bind_Ok, u32_small, slice_csr, go_bind_Ok by (unfold is_u32; lia).
      rewrite length_map in Hf. apply write_all; [|lia|unfold MaxUint32; lia]. intros o B r Ho HB. unfold MaxUint32 in HB.
      by rewrite (Hfin o Ho), go_bind_Ok, put_next, go_bind_Ok, u32_small by (unfold is_u32; lia).
  - rewrite Nat.sub_diag. simpl. by rewrite app_nil_r.
Qed.

Lemma buildNodeInstructionMap_ok c : ∃ starts counts, buildNodeInstructionMap d st final c = Ok (with_nodes c starts counts (concat (map ids (seq 0 n)))) ∧
  length starts = n ∧ length counts = n ∧ ∀ i, (i < n)%nat → csr (concat (map ids (seq 0 n))) (starts !!! i) (counts !!! i) = ids i.
Proof.
  destruct nodeRanges_ok as (starts & counts & E & L1 & L2 & H). exists starts, counts. unfold buildNodeInstructionMap. rewrite E, go_bind_Ok. cbv beta iota.
  rewrite nodeEntries_ok, go_bind_Ok. cbv beta iota. rewrite written_all. split_and!; try done. intros i Hi. destruct (H i Hi) as [-> ->].
  rewrite <-written_all, <-(app_nil_r (written n)). apply packed_row; [by apply lookup_seq_lt|done].
Qed.
End nodemap.
