(* ===== verification/LowerMeaning.v ===== *)
(** * Instruction lowering preserves the meaning of a policy

    The stage [normalize] of compile/lower.go composed: on a document whose constants
    were lowered, the walk, liveness, compaction and the node map succeed; the
    instructions of every node denote what the node means in the document, and the
    program they form is one the compiler's back end accepts.  With the back end, the
    executed program computes the meaning of the policy's roots. *)

From S2P Require Import Prelude Store Truth Schema Result Program Batch Predicate Simd FactIndex Evidence Executor PolicyIndex Finalize Execute.
From S2P Require Import Liveness Schedule ScheduleMeaning SymbolTable Interner Frozen SymbolCheck Ast Constants ConstantsMeaning Normalize Compact.
From S2P Require Import WalkEnd DocMeaning NormalizeOk WalkOk WalkMeaning CompactOk NodeMapOk.

(** The instructions that the node map holds for a node. *)
Definition nodeEntriesOf (c : InstructionColumns) (node : Z) : list Z :=
  csr (NodeInstructionIDs c) (NodeInstructionStarts c !!! Z.to_nat (node - 1)) (NodeInstructionCounts c !!! Z.to_nat (node - 1)).

(** Renaming the arguments of a node's key. *)
Lemma nodeKey_map k d node args (f : Z → Z) :
  {| kOpcode := kOpcode (nodeKey k d node args); kField := kField (nodeKey k d node args); kValue := kValue (nodeKey k d node args);
     kEvidence := kEvidence (nodeKey k d node args); kLiterals := kLiterals (nodeKey k d node args); kArgs := map f (kArgs (nodeKey k d node args)) |} =
  nodeKey k d node (map f args).
Proof.
  unfold nodeKey. destruct (Kind d node) as [kind|]; [|done]. destruct (kind =? NodeKindBoolean); [done|]. destruct (kind =? NodeKindCompare).
  { by destruct (default _ _) as [[? ?] ?]. }
  destruct (isGroupKind kind); [done|]. destruct (kind =? NodeKindNot); [done|]. by destruct (EvidenceMatch d node).
Qed.

Section lowered.
Context (d : Document) (fields : FieldTable) (source : Interner.Interner) (k : constState) (con : Constants) (Hcon : constants_of d fields source k con).
Context (p : Program) (Hsyms : symbols p = cSymbols con) (Hvals : values p = cValues con).
Context (w : Z → Z) (Hdoc : doc_ok d (FieldIndex p)) (Hw : width_ok d w) (st : Normalizer).
Context (Hst : walking k d w st) (Hall : ∀ node, 1 ≤ node ≤ DocLen d → stateAt st node = nodeBlack).
Local Abbreviation c := (cand st).
Local Abbreviation n := (length (dNodeKinds d)).

(** ** The scratch is ready for compaction *)

Lemma sums_fit : total (ListCounts c) ≤ MaxUint32 ∧ total (OperandCounts c) ≤ MaxUint32 ∧ zlen (Opcodes c) ≤ DocLen d.
Proof.
  destruct (wk_totals _ _ _ _ Hst) as [T1 T2]. destruct (wk_sizes _ _ _ _ Hst) as (S1 & _ & _). pose proof (wk_columns _ _ _ _ Hst) as (_ & C2 & _).
  pose proof (blackSum_le w (nodeState st) (λ x, proj1 (wo_range _ _ Hw x))) as B1. pose proof (blackSum_le (listLen d) (nodeState st) (listLen_nonneg d)) as B2.
  pose proof (blackSum_le (λ _, 1) (nodeState st) ltac:(intros; lia)) as B3. rewrite C2 in *. pose proof (wo_operands _ _ Hw). pose proof (wo_lists _ _ Hw).
  assert (∀ m, sumOver (λ _, 1) (nodesTo m) = Z.of_nat m) as E.
  { intros m. unfold nodesTo. induction m as [|m IH]; [done|]. rewrite seq_S, map_app, sumOver_app, IH. simpl. lia. }
  rewrite E in B3. unfold DocLen in *. lia.
Qed.

Lemma canon_row node : 1 ≤ node ≤ DocLen d → 1 ≤ canonAt st node ≤ zlen (Opcodes c) ∧
  keyOf c (Z.to_nat (canonAt st node - 1)) = nodeKey k d node (nodeArgs d st node).
Proof. intros Hn. destruct (all_finished d k w st Hst Hall node Hn) as [Hkey _ _]. by apply keysOf_Some in Hkey as [? <-]. Qed.

(** ** Every node is live or a flattened group *)

Context (live : list Z) (Hlive : live_ok c live).

Definition liveNode (node : Z) : Prop := live !!! Z.to_nat (canonAt st node - 1) ≠ 0.
#[local] Instance liveNode_dec node : Decision (liveNode node) := _.

Lemma root_live node : node ∈ rootNodes d → 1 ≤ node ≤ DocLen d → liveNode node.
Proof.
  intros Hr Hn. destruct (canon_row node Hn) as [Hid _]. destruct (all_finished d k w st Hst Hall node Hn) as [_ Hfl _].
  apply (lv_roots _ _ Hlive); [lia|]. intros E.
  assert (∃ flag, flag ≠ 0 ∧ marked d node flag) as (flag & Hne & Hm).
  { unfold rootNodes in Hr. rewrite !elem_of_app in Hr. unfold marked. destruct Hr as [H|[H|H]]; [exists RootApplicability|exists RootAssertion|exists RootEvidence]; naive_solver. }
  apply Hne. pose proof (ldiff_trans _ _ _ (proj2 (wk_roots _ _ _ _ Hst) node flag Hm) Hfl) as Hz. by rewrite E, Z.ldiff_0_r in Hz.
Qed.

Lemma group_key node kind : 1 ≤ node ≤ DocLen d → Kind d node = Some kind → isGroupKind kind = true →
  argsOf c (Z.to_nat (canonAt st node - 1)) = nodeArgs d st node ∧ flatArgs st node = nodeArgs d st node.
Proof.
  intros Hn Hk Hg. destruct (canon_row node Hn) as [_ E]. destruct (fn_flat _ _ _ _ _ (all_finished d k w st Hst Hall node Hn) kind Hk Hg) as (_ & Ef & _).
  split; [|done]. unfold argsOf. rewrite E. unfold nodeKey. rewrite Hk. destruct (group_not_leaf kind Hg) as (-> & -> & _). by rewrite Hg.
Qed.

(** The arguments of a group that is live or flattened into a live one. *)
Definition argsLive (node : Z) : Prop := ∃ kind, Kind d node = Some kind ∧ isGroupKind kind = true ∧ ∀ o, o ∈ flatArgs st node → live !!! Z.to_nat (o - 1) ≠ 0.

Lemma node_live node : reached d node → liveNode node ∨ argsLive node.
Proof.
  induction 1 as [node Hroot|parent node Hp IH Hc]; [left; apply root_live; [done|]; by apply (reached_range d (FieldIndex p)); [|constructor]|].
  pose proof (reached_range d (FieldIndex p) Hdoc parent Hp) as Hpr. destruct (canon_row parent Hpr) as [Hid Ekey].
  unfold childrenOf in Hc. destruct (Kind d parent) as [kind|] eqn:Hk; [|by apply elem_of_nil in Hc]. destruct (Z.eqb_spec kind NodeKindNot) as [->|Hnot].
  - destruct IH as [Hl|(kind & E & Hg & _)]; [|rewrite Hk in E; by injection E as <-]. destruct (NotChild d parent) as [child|] eqn:Hch; [|by apply elem_of_nil in Hc].
    apply list_elem_of_singleton in Hc as ->. left. apply (lv_args _ _ Hlive (Z.to_nat (canonAt st parent - 1))); [lia|done|].
    unfold argsOf. rewrite Ekey. unfold nodeKey, nodeArgs, childrenOf. rewrite Hk, Hch. simpl. by left.
  - destruct (isGroupKind kind) eqn:Hg; [|by apply elem_of_nil in Hc]. destruct (group_key parent kind Hpr Hk Hg) as [Ea Ef].
    assert (∀ o, o ∈ nodeArgs d st parent → live !!! Z.to_nat (o - 1) ≠ 0) as Hargs.
    { intros o Ho. destruct IH as [Hl|(kind' & _ & _ & Ha)]; [|apply Ha; by rewrite Ef]. apply (lv_args _ _ Hlive (Z.to_nat (canonAt st parent - 1))); [lia|done|by rewrite Ea]. }
    assert (∀ o, o ∈ childArgs d st kind node → live !!! Z.to_nat (o - 1) ≠ 0) as Hchild.
    { intros o Ho. apply Hargs. unfold nodeArgs, childrenOf. rewrite Hk, (proj2 (Z.eqb_neq kind NodeKindNot)), Hg by done.
      apply list_elem_of_In, in_concat. exists (childArgs d st kind node). split; [|by apply list_elem_of_In]. by apply in_map, list_elem_of_In. }
    unfold childArgs in Hchild. case_bool_decide as Hkn.
    + right. by exists kind.
    + left. apply Hchild. by left.
Qed.

(** ** The node map *)

Context (s : numbering) (Hs : numbered c live s).

Definition entries (i : nat) : list Z :=
  let node := Z.of_nat i + 1 in
  if decide (liveNode node) then [finalID s (canonAt st node)] else map (finalID s) (flatArgs st node).

Lemma compact_ready : columns_len c (length (Opcodes c)) ∧ (∀ i, (i < length (Opcodes c))%nat → row_ok c i) ∧
  (zlen (ListValues c) ≤ MaxUint32 ∧ zlen (Operands c) ≤ MaxUint32) ∧ (total (ListCounts c) ≤ MaxUint32 ∧ total (OperandCounts c) ≤ MaxUint32) ∧
  Z.of_nat (length (Opcodes c)) < MaxUint32.
Proof.
  pose proof (wk_interned _ _ _ _ Hst) as Hin. destruct sums_fit as (F1 & F2 & F3). destruct (dk_size _ _ Hdoc) as (Hsz & _).
  split_and!; try apply Hin; try done. lia.
Qed.

(** Arguments of a flattened group are live rows. *)
Lemma flat_live node o : 1 ≤ node ≤ DocLen d → ¬ liveNode node → o ∈ flatArgs st node → 1 ≤ o ≤ zlen (Opcodes c) ∧ live !!! Z.to_nat (o - 1) ≠ 0.
Proof.
  intros Hn Hdead Ho. destruct (node_live node) as [?|(kind & Hk & Hg & Ha)]; [by apply (dk_reached _ _ Hdoc)|done|]. split; [|by apply Ha].
  destruct (canon_row node Hn) as [Hid _]. destruct (group_key node kind Hn Hk Hg) as [Ea Ef]. rewrite Ef, <-Ea in Ho. destruct compact_ready as (_ & Hr & _).
  pose proof (args_range c Hr (Z.to_nat (canonAt st node - 1)) o ltac:(lia) Ho). lia.
Qed.

Lemma flat_group node : 1 ≤ node ≤ DocLen d → ¬ liveNode node → ∃ kind, Kind d node = Some kind ∧ isGroupKind kind = true ∧
  in_pool (Operands c) (flatStartAt st node) (flatCountAt st node) ∧ 0 < flatCountAt st node ≤ w node.
Proof.
  intros Hn Hdead. destruct (node_live node) as [?|(kind & Hk & Hg & _)]; [by apply (dk_reached _ _ Hdoc)|done|].
  destruct (fn_flat _ _ _ _ _ (all_finished d k w st Hst Hall node Hn) kind Hk Hg) as (Hp & _ & Hpos). by exists kind.
Qed.

Lemma entries_bound : zlen (concat (map entries (seq 0 n))) ≤ MaxUint32.
Proof.
  pose proof (wo_operands _ _ Hw) as Hb. unfold DocLen in Hb.
  assert (∀ m, (m ≤ n)%nat → zlen (concat (map entries (seq 0 m))) ≤ Z.of_nat m + sumOver w (nodesTo m)) as H; [|specialize (H n ltac:(lia)); lia].
  induction m as [|m IH]; intros Hm; [done|]. unfold nodesTo in *. rewrite seq_S, !map_app, concat_app, length_app, sumOver_app. simpl. specialize (IH ltac:(lia)).
  rewrite app_nil_r. pose proof (wo_range _ _ Hw (Z.of_nat m + 1)). unfold entries at 2. case_decide as Hl; simpl; [lia|].
  destruct (flat_group (Z.of_nat m + 1)) as (kind & _ & _ & (P0 & P1 & P2) & Hpos); [unfold DocLen; lia|done|]. rewrite length_map. unfold flatArgs. rewrite length_csr by lia. lia.
Qed.

Lemma entries_ok i : (i < n)%nat → node_entries st (toFinal s) entries i.
Proof.
  intros Hi. set (node := Z.of_nat i + 1). assert (1 ≤ node ≤ DocLen d) as Hn by (unfold DocLen, node; lia). destruct (canon_row node Hn) as [Hid _].
  destruct compact_ready as (R1 & R2 & R3 & R4 & R5). assert (Z.to_nat (node - 1) = i) as Ei by lia. pose proof (nb_len _ _ _ Hs) as Hfl.
  assert (nodeCanon st !!! i = canonAt st node) as Ec by (unfold canonAt; by rewrite Ei).
  assert (nodeFlatStart st !!! i = flatStartAt st node ∧ nodeFlatCount st !!! i = flatCountAt st node) as [Es En] by (unfold flatStartAt, flatCountAt; by rewrite Ei).
  destruct (decide (liveNode node)) as [Hl|Hl].
  - destruct (finalID_row c live Hlive s Hs (canonAt st node)) as (_ & Hf & _); [lia|done|]. apply EntryLive with (finalID s (canonAt st node)); rewrite ?Ec; [lia|done|lia|].
    unfold entries. fold node. by rewrite decide_True.
  - destruct (flat_group node Hn Hl) as (kind & _ & _ & Hp & Hpos). apply EntryGroup; rewrite ?Ec, ?Es, ?En; [lia| |done|lia| |].
    + rewrite (nb_final _ _ _ Hs) by lia. by rewrite decide_False.
    + intros o Ho. destruct (flat_live node o Hn Hl Ho) as [Hr Hlo]. by destruct (finalID_row c live Hlive s Hs o) as (_ & _ & ?); [lia|done|].
    + unfold entries. fold node. by rewrite decide_False.
Qed.

Lemma entries_range i : (i < n)%nat → Forall (λ id, 1 ≤ id ≤ zlen (liveRows live)) (entries i) ∧ entries i ≠ [].
Proof.
  intros Hi. unfold entries. set (node := Z.of_nat i + 1). assert (1 ≤ node ≤ DocLen d) as Hn by (unfold DocLen, node; lia).
  destruct (canon_row node Hn) as [Hid _]. destruct compact_ready as (R1 & R2 & R3 & R4 & R5). case_decide as Hl.
  - split; [|done]. destruct (finalID_row c live Hlive s Hs (canonAt st node)) as (_ & Hf & _); [lia|done|]. by constructor; [|constructor].
  - split.
    + apply Forall_map, Forall_forall. intros o Ho. destruct (flat_live node o Hn Hl Ho) as [Hr Hlo]. by destruct (finalID_row c live Hlive s Hs o) as (_ & ? & _); [lia|done|].
    + destruct (flat_group node Hn Hl) as (kind & _ & _ & (P0 & P1 & P2) & Hpos). intros E%(f_equal length). rewrite length_map in E. unfold flatArgs in E.
      rewrite length_csr in E by lia. simpl in E. lia.
Qed.

(** ** Meaning of the entries *)

Lemma entries_value b reasons r c' i node : compacted c live s c' → (i < n)%nat → node = Z.of_nat i + 1 →
  nodeValue d (findSymbol (cSymbols con)) (FieldIndex p) b reasons r n node =
    Some (groupValue (default 0 (Kind d node)) (map (λ id, denote (with_instr p c') b reasons (Z.to_nat (id - 1)) r) (entries i))).
Proof.
  intros Hc Hi ->. set (node := Z.of_nat i + 1). assert (1 ≤ node ≤ DocLen d) as Hn by (unfold DocLen, node; lia).
  rewrite (node_meaning d fields source k con Hcon p Hsyms Hvals w Hdoc st Hst Hall) by done. f_equal.
  destruct (canon_row node Hn) as [Hid _]. destruct compact_ready as (R1 & R2 & R3 & R4 & R5).
  assert (∀ o, 1 ≤ o ≤ zlen (Opcodes c) → live !!! Z.to_nat (o - 1) ≠ 0 →
    denote (with_instr p c') b reasons (Z.to_nat (finalID s o - 1)) r = argValue p st b reasons r o) as Hrow.
  { intros o Ho Hl. destruct (finalID_row c live Hlive s Hs o) as (Hrow & _); [lia|done|]. by apply (compacted_denote c R1 R2 live Hlive s Hs c' Hc). }
  unfold entries. fold node. case_decide as Hl.
  - simpl. rewrite groupValue_singleton. symmetry. by apply Hrow.
  - destruct (flat_group node Hn Hl) as (kind & Hk & Hg & _). destruct (group_key node kind Hn Hk Hg) as [_ Ef].
    rewrite (group_args d k p w st Hst Hall b reasons r node kind Hn Hk Hg), Hk, map_map, Ef. simpl. f_equal. apply map_ext_in. intros o Ho%list_elem_of_In.
    rewrite <-Ef in Ho. destruct (flat_live node o Hn Hl Ho) as [Hr Hlo]. symmetry. by apply Hrow.
Qed.

(** The entry of a root carries the root's flags. *)
Lemma root_entry c' i flag : compacted c live s c' → (i < n)%nat → marked d (Z.of_nat i + 1) flag →
  ∃ id args, entries i = [id] ∧ Z.ldiff flag (RootFlags c' !!! Z.to_nat (id - 1)) = 0 ∧ 1 ≤ id ≤ zlen (liveRows live) ∧
    keyOf c' (Z.to_nat (id - 1)) = nodeKey k d (Z.of_nat i + 1) args.
Proof.
  intros Hc Hi Hm. set (node := Z.of_nat i + 1) in *. assert (1 ≤ node ≤ DocLen d) as Hn by (unfold DocLen, node; lia). destruct (canon_row node Hn) as [Hid Hkey].
  assert (node ∈ rootNodes d) as Hroot by (unfold rootNodes; rewrite !elem_of_app; unfold marked in Hm; naive_solver).
  pose proof (root_live node Hroot Hn) as Hl. unfold entries. fold node. rewrite decide_True by done.
  exists (finalID s (canonAt st node)), (map (finalID s) (nodeArgs d st node)). split; [done|].
  destruct (finalID_row c live Hlive s Hs (canonAt st node)) as (Hrow & Hrange & _); [lia|done|]. split; [|split; [done|]].
  2: { rewrite (cp_keys _ _ _ _ Hc _ _ Hrow). unfold finalArgs, argsOf. rewrite Hkey. apply nodeKey_map. }
  destruct (cp_columns _ _ _ _ Hc) as (_ & _ & _ & _ & _ & _ & _ & _ & _ & _ & -> & _).
  rewrite (row_at _ _ _ _ Hrow). destruct (all_finished d k w st Hst Hall node Hn) as [_ Hfl _]. exact (ldiff_trans _ _ _ (proj2 (wk_roots _ _ _ _ Hst) node flag Hm) Hfl).
Qed.
End lowered.

(** ** The stage *)

(** What lowering promises of the instruction columns: a program the back end takes,
    and for every node entries that combine to its value. *)
(** ** Rows state nodes *)

(** Row [i] states a node of the document: its key is the node's, a group has at least
    one operand per child and a negation has one. *)
Definition row_from (k : constState) (d : Document) (c : InstructionColumns) (i : nat) : Prop :=
  ∃ node args, 1 ≤ node ≤ DocLen d ∧ keyOf c i = nodeKey k d node args ∧
    ∀ kind, Kind d node = Some kind → (isGroupKind kind = true → (length (childrenOf d node) ≤ length args)%nat) ∧ (kind = NodeKindNot → length args = 1%nat).

(** Renaming operands keeps what a row states. *)
Lemma row_from_renamed k d c c' i i' (f : Z → Z) :
  keyOf c' i' = {| kOpcode := kOpcode (keyOf c i); kField := kField (keyOf c i); kValue := kValue (keyOf c i); kEvidence := kEvidence (keyOf c i);
                   kLiterals := kLiterals (keyOf c i); kArgs := map f (kArgs (keyOf c i)) |} → row_from k d c i → row_from k d c' i'.
Proof.
  intros E (node & args & Hn & Ek & Hkind). exists node, (map f args). rewrite E, Ek, nodeKey_map, length_map. done.
Qed.

Lemma candidate_from k d w schema st i : doc_ok d schema → width_ok d w → walking k d w st → (i < length (Opcodes (cand st)))%nat → row_from k d (cand st) i.
Proof.
  intros Hdoc Hw Hst Hi. destruct (wk_origin _ _ _ _ Hst i Hi) as (node & Hn & Hb & Ec). destruct (wk_black _ _ _ _ Hst node Hn Hb) as [[Hkey _ _] Hch].
  apply keysOf_Some in Hkey as [_ Hkey]. rewrite Ec in Hkey. replace (Z.to_nat (Z.of_nat i + 1 - 1)) with i in Hkey by lia.
  exists node, (nodeArgs d st node). split; [done|]. split; [done|]. intros kind Hk. unfold nodeArgs. rewrite Hk. split.
  - intros Hg. destruct (group_not_leaf kind Hg) as (_ & _ & ->). pose proof (children_range d schema Hdoc node Hn) as Hr. clear -Hch Hr Hg Hst Hw Hdoc.
    induction (childrenOf d node) as [|child l IH]; simpl; [done|]. apply Forall_cons in Hch as [Hb Hch]. apply Forall_cons in Hr as [Hc Hr].
    destruct (childArgs_ok k d w st kind child Hst Hc Hb Hg) as (_ & _ & Hne). rewrite length_app. specialize (IH Hch Hr).
    destruct (childArgs d st kind child); [done|]. simpl. lia.
  - intros ->. rewrite Z.eqb_refl, length_map. unfold childrenOf. rewrite Hk. cbn. destruct (dk_node _ _ Hdoc node Hn) as [Hok _].
    destruct Hok as [? E|? ? ? ? ? E|? ? ? ? E|kind ? E Hg|? E Ech|? E]; rewrite Hk in E; try done; [injection E as <-; done|by rewrite Ech].
Qed.

Record lowers_document (d : Document) (find : bytes → option Z) (p : Program) (cols : InstructionColumns) : Prop := {
  ld_typed : schedule_typed (with_instr p cols);
  ld_valid : validateSlotProgram (with_instr p cols) = Ok tt;
  ld_live : noDeadCode (with_instr p cols);
  ld_size : zlen (Opcodes cols) < MaxUint32;
  ld_distinct : NoDup (keysOf cols);
  ld_ranges : length (NodeInstructionStarts cols) = length (dNodeKinds d) ∧ length (NodeInstructionCounts cols) = length (dNodeKinds d);
  ld_nodes node : 1 ≤ node ≤ DocLen d →
    nodeEntriesOf cols node ≠ [] ∧ Forall (λ id, 1 ≤ id ≤ zlen (Opcodes cols)) (nodeEntriesOf cols node) ∧
    ∀ b reasons r, nodeValue d find (FieldIndex p) b reasons r (length (dNodeKinds d)) node =
      Some (groupValue (default 0 (Kind d node)) (map (λ id, denote (with_instr p cols) b reasons (Z.to_nat (id - 1)) r) (nodeEntriesOf cols node)));
  ld_roots node flag : marked d node flag → ∃ id, nodeEntriesOf cols node = [id] ∧ Z.ldiff flag (RootFlags cols !!! Z.to_nat (id - 1)) = 0
}.

(** The rows of columns state nodes and carry a source span. *)
Record rows_from (k : constState) (d : Document) (cols : InstructionColumns) : Prop := {
  rw_root node flag : marked d node flag → ∃ id args, nodeEntriesOf cols node = [id] ∧ 1 ≤ id ≤ zlen (Opcodes cols) ∧
    keyOf cols (Z.to_nat (id - 1)) = nodeKey k d node args;
  rw_len : columns_len cols (length (Opcodes cols));
  rw_row i : (i < length (Opcodes cols))%nat → row_from k d cols i;
  rw_source i : (i < length (Opcodes cols))%nat → 1 ≤ InstructionNodes cols !!! i ∧ InstructionSourceStarts cols !!! i ≤ InstructionSourceEnds cols !!! i
}.

Lemma compacted_from k d w schema st live s c : doc_ok d schema → width_ok d w → walking k d w st → live_ok (cand st) live → numbered (cand st) live s →
  compacted (cand st) live s c →
  (∀ node flag, marked d node flag → ∃ id args, nodeEntriesOf c node = [id] ∧ 1 ≤ id ≤ zlen (Opcodes c) ∧ keyOf c (Z.to_nat (id - 1)) = nodeKey k d node args) →
  rows_from k d c.
Proof.
  intros Hdoc Hw Hst Hlive Hs Hc Hroot. pose proof (wk_interned _ _ _ _ Hst) as Hin. pose proof (compacted_length (cand st) live s c Hc) as El.
  assert (∀ k, (k < length (Opcodes c))%nat → ∃ i, liveRows live !! k = Some i ∧ (i < length (Opcodes (cand st)))%nat) as Hrow.
  { intros j Hj. rewrite El in Hj. destruct (lookup_lt_is_Some_2 _ _ Hj) as [i Hi]. exists i. split; [done|]. by apply (live_row (cand st) live Hlive) in Hi as [? _]. }
  destruct Hc as [(C1 & C2 & C3 & C4 & C5 & C6 & C7 & C8 & C9 & C10 & C11 & C12 & C13 & C14) Ck _ (S1 & S2 & _) _ _]. split; [done|..].
  - unfold columns_len, evidence_columns. rewrite !El, S1, S2, C2, C3, C4, C5, C6, C7, C8, C9, C10, C11, C12, C13, C14, !length_map. done.
  - intros j Hj. destruct (Hrow j Hj) as (i & Hi & Hlt). apply (row_from_renamed k d (cand st) c i j (finalID s)); [|by apply (candidate_from k d w schema)].
    rewrite (Ck j i Hi). done.
  - intros j Hj. destruct (Hrow j Hj) as (i & Hi & Hlt). rewrite C12, C13, C14, !(row_at _ _ j i Hi). exact (ro_source _ _ (in_rows _ Hin i Hlt)).
Qed.


Lemma compacted_nodes c live s c' starts counts ids : compacted c live s c' → compacted c live s (with_nodes c' starts counts ids).
Proof. intros [H1 H2 H3 H4 H5 H6]. by split. Qed.

Lemma normalize_ok d fields source k con p w :
  constants_of d fields source k con → symbols p = cSymbols con → values p = cValues con → doc_ok d (FieldIndex p) → width_ok d w →
  ∃ cols, normalize k d = Ok cols ∧ lowers_document d (findSymbol (cSymbols con)) p cols ∧ rows_from k d cols.
Proof.
  intros Hcon Hsyms Hvals Hdoc Hw. destruct (dk_size _ _ Hdoc) as (D1 & D2 & D3). unfold MaxUint32 in D1, D2, D3.
  destruct (walkAll_ok k d w (FieldIndex p) Hdoc Hw (value_canonical d fields source k con Hcon) (name_symbol d fields source k con Hcon)) as (flags & st & Hm & Hwalk & Hst & Hall).
  destruct (compact_ready d k p w Hdoc Hw st Hst) as (R1 & R2 & R3 & R4 & R5).
  destruct (markLiveCandidates_ok (cand st) R1 R2 R3 R4 R5) as (live & Elive & Hlive).
  destruct (numberRows_ok (cand st) R1 R2 R3 R4 R5 live Hlive) as (s & Es & Hs). destruct (nb_fits _ _ _ Hs) as [F1 F2].
  destruct (compactColumns_ok (cand st) R1 R2 R3 R5 live Hlive s Hs) as (c' & Ec & Hc).
  pose proof (wk_columns _ _ _ _ Hst) as (C1 & _ & _ & C4 & C5).
  destruct (buildNodeInstructionMap_ok d st (toFinal s) (entries st live s)) with (c := c') as (starts & counts & En & L1 & L2 & Hcsr);
    [done|apply R3|by apply (entries_bound d k p w Hdoc Hw st Hst Hall live Hlive)|by apply (entries_ok d k p w Hdoc Hw st Hst Hall live Hlive s Hs)|].
  set (ids := concat (map (entries st live s) (seq 0 (length (dNodeKinds d))))) in *. exists (with_nodes c' starts counts ids). split.
  { unfold normalize. unfold DocLen in *. rewrite (proj2 (Z.ltb_lt _ _)) by done. cbn [check]. rewrite go_bind_Ok. rewrite u64_small by (unfold is_u64; lia).
    rewrite !(proj2 (Z.leb_gt _ _)) by (unfold MaxUint32; lia). cbn [orb negb check]. rewrite go_bind_Ok, Hm, go_bind_Ok, Hwalk, go_bind_Ok. unfold compactInstructions.
    rewrite Elive, go_bind_Ok, Es, go_bind_Ok. rewrite !(proj2 (Z.ltb_ge _ _)) by lia. cbn [orb negb check]. by rewrite go_bind_Ok, Ec, go_bind_Ok. }
  pose proof (compacted_nodes _ _ _ _ starts counts ids Hc) as Hc'. pose proof (compacted_length (cand st) live s _ Hc') as Hlen.
  assert (Forall (λ id, 1 ≤ id ≤ zlen (liveRows live)) ids) as Hids.
  { apply Forall_concat, Forall_map, Forall_forall. intros i Hi%elem_of_seq. apply (entries_range d k p w Hdoc Hw st Hst Hall live Hlive s Hs). lia. }
  assert (∀ node, 1 ≤ node ≤ DocLen d → nodeEntriesOf (with_nodes c' starts counts ids) node = entries st live s (Z.to_nat (node - 1))) as He.
  { intros node Hn. apply Hcsr. unfold DocLen in Hn. lia. }
  assert (∀ node flag, marked d node flag → ∃ id args, nodeEntriesOf (with_nodes c' starts counts ids) node = [id] ∧
    Z.ldiff flag (RootFlags c' !!! Z.to_nat (id - 1)) = 0 ∧ 1 ≤ id ≤ zlen (Opcodes c') ∧ keyOf c' (Z.to_nat (id - 1)) = nodeKey k d node args) as Hentry.
  { intros node flag Hmark. assert (1 ≤ node ≤ DocLen d) as Hn.
    { apply (proj1 (Forall_forall _ _) (dk_roots _ _ Hdoc)). unfold rootNodes. rewrite !elem_of_app. unfold marked in Hmark. naive_solver. }
    rewrite He, (compacted_length (cand st) live s c' Hc) by done. unfold DocLen in Hn. assert (Z.of_nat (Z.to_nat (node - 1)) + 1 = node) as En' by lia.
    destruct (root_entry d k w st Hst Hall live Hlive s Hs c' (Z.to_nat (node - 1)) flag Hc) as (id & args & R6 & R7 & R8 & R9); [lia|by rewrite En'|].
    rewrite En' in R9. by exists id, args. }
  split; [|apply (compacted_from k d w (FieldIndex p) st live s); try done; intros node flag Hmark; destruct (Hentry node flag Hmark) as (id & args & ? & _ & ? & ?); by exists id, args].
  split.
  - by apply (compacted_typed (cand st) R1 R2 R3 R5 live Hlive s Hs).
  - by apply (compacted_valid (cand st) R2 R3 R4 R5 live Hlive s Hs).
  - by apply (compacted_noDeadCode (cand st) R2 live Hlive s Hs).
  - rewrite Hlen. pose proof (ord_length (cand st) live Hlive). pose proof (rank_le (cand st) live (length (Opcodes (cand st)))). lia.
  - apply (compacted_nodup (cand st) R2 live Hlive s Hs _ Hc'), (wk_interned _ _ _ _ Hst).
  - done.
  - intros node Hn. rewrite He by done. unfold DocLen in Hn. rewrite Hlen.
    destruct (entries_range d k p w Hdoc Hw st Hst Hall live Hlive s Hs (Z.to_nat (node - 1)) ltac:(lia)) as [Hr Hne]. split_and!; [done|done|].
    intros b reasons r. apply (entries_value d fields source k con Hcon p Hsyms Hvals w Hdoc Hw st Hst Hall live Hlive s Hs); [done|lia|lia].
  - intros node flag Hmark. destruct (Hentry node flag Hmark) as (id & args & ? & ? & _). by exists id.
Qed.

(** ** The whole pipeline *)

(** An entry of the node map that is one instruction stays one when the map's IDs
    are renamed. *)
Lemma csr_renamed (l l' : list Z) s c x x' : length l' = length l → csr l s c = [x] → l' !! Z.to_nat s = Some x' →
  csr l' s c = [x'] ∧ l !! Z.to_nat s = Some x.
Proof.
  unfold csr. intros Hl E Hx'. pose proof (f_equal length E) as El. rewrite length_take, length_drop in El. simpl in El. rewrite (drop_S _ _ _ Hx').
  destruct (Z.to_nat c) as [|m] eqn:Ec; [done|]. split.
  - simpl. f_equal. apply nil_length_inv. rewrite length_take, length_drop. lia.
  - pose proof (f_equal (λ l, l !! 0%nat) E) as E0. simpl in E0. rewrite lookup_take, lookup_drop, Nat.add_0_r in E0. by case_decide.
Qed.

Lemma lowered_backend {ops : SimdOps} {laws : SimdLaws ops} d find p cols mode :
  lowers_document d find p cols →
  ∃ p' s, scheduleInstructions (with_instr p cols) = Ok p' ∧ assignSlots p' mode = Ok s ∧
    ∀ b env xmode st, exec_ok (with_slots p' s) b env →
      truthGood (with_slots p' s) (Rows b) (truthWords st) → reasonGood (with_slots p' s) (Rows b) (reasonWords st) →
      ∃ st', executeScheduleMode env (with_slots p' s) b xmode st = Ok st' ∧
        ∀ node flag r, 1 ≤ node ≤ DocLen d → marked d node flag → Z.of_nat r < Rows b →
          ∃ row v, nodeEntriesOf p' node = [Z.of_nat row + 1] ∧
            nodeValue d find (FieldIndex p) b (stateReasons (states env)) r (length (dNodeKinds d)) node = Some v ∧
            readTruth (Rows b) (truthWords st') (TruthSlots s !!! row) r = v.1 ∧
            ∀ reason, Reason.validReason reason → readReason (Rows b) (reasonWords st') (ReasonSlots s !!! row) (reason, r) = Reason.Has v.2 reason.
Proof.
  intros [Ht Hv Hlive Hsize _ _ Hnodes Hroots]. destruct (backend_ok (with_instr p cols) mode Ht Hv Hsize Hlive) as (p' & ord & s & E & _ & Ea & (N1 & N2 & N3) & Hids & Hx).
  exists p', s. split_and!; [done|done|]. intros b env xmode st Hex Htg Hrg. destruct (Hx b env xmode st Hex Htg Hrg) as (st' & Hrun & Hread). exists st'. split; [done|].
  intros node flag r Hn Hm Hr. destruct (Hroots node flag Hm) as (id & Eid & Hflag). destruct (Hnodes node Hn) as (_ & Hrange & Hval). unfold nodeEntriesOf in *. cbn [with_instr instr] in *.
  assert (RootFlags cols !!! Z.to_nat (id - 1) ≠ 0) as Hroot.
  { intros E0. rewrite E0, Z.ldiff_0_r in Hflag. subst flag. by destruct Hm as [[? _]|[[? _]|[? _]]]. }
  set (j := Z.to_nat (NodeInstructionStarts cols !!! Z.to_nat (node - 1))) in *.
  assert (NodeInstructionIDs cols !! j = Some id) as Hid.
  { pose proof (f_equal (λ l, l !! 0%nat) Eid) as E0. unfold csr in E0. simpl in E0. rewrite lookup_take, lookup_drop, Nat.add_0_r in E0. fold j in E0. by case_decide. }
  destruct (Hids j id Hid) as (row & Hrow & Hord). exists row. eexists. rewrite N1, N2.
  split; [by apply (csr_renamed _ _ _ _ _ _ N3 Eid)|]. split; [apply Hval|]. rewrite Eid. cbn [map]. rewrite groupValue_singleton. by apply Hread.
Qed.

(** ** Properties *)

(** C10: instruction lowering preserves the meaning of a policy.  On a document whose
    nodes are well formed, acyclic and reached from the roots, with lowered constants,
    it succeeds; every node of the document has instructions whose values, combined by
    the node's connective, are the value the document gives the node on every request
    row; every semantic root has one instruction, which carries the root's flags; no
    two instructions are structurally equal, none is dead, and the program passes the
    validation of the compiler's back end. *)
Theorem lowering_preserves_meaning (d : Document) (fields : FieldTable) (source : Interner.Interner) (k : constState) (con : Constants) (p : Program) (w : Z → Z) :
  constants_of d fields source k con → symbols p = cSymbols con → values p = cValues con → doc_ok d (FieldIndex p) → width_ok d w →
  ∃ cols, normalize k d = Ok cols ∧
    (∀ node, 1 ≤ node ≤ DocLen d →
       nodeEntriesOf cols node ≠ [] ∧ Forall (λ id, 1 ≤ id ≤ zlen (Opcodes cols)) (nodeEntriesOf cols node) ∧
       ∀ b reasons r, nodeValue d (findSymbol (cSymbols con)) (FieldIndex p) b reasons r (length (dNodeKinds d)) node =
         Some (groupValue (default 0 (Kind d node)) (map (λ id, denote (with_instr p cols) b reasons (Z.to_nat (id - 1)) r) (nodeEntriesOf cols node)))) ∧
    (∀ node flag, marked d node flag → ∃ id, nodeEntriesOf cols node = [id] ∧ Z.ldiff flag (RootFlags cols !!! Z.to_nat (id - 1)) = 0) ∧
    NoDup (keysOf cols) ∧ noDeadCode (with_instr p cols) ∧ validateSlotProgram (with_instr p cols) = Ok tt.
Proof.
  intros Hcon Hs Hv Hdoc Hw. destruct (normalize_ok d fields source k con p w Hcon Hs Hv Hdoc Hw) as (cols & E & [H1 H2 H3 H4 H5 H6 H7 H8] & _). by exists cols.
Qed.

(** C9: the compiler is correct from policy expressions to executed slots.  Constants
    of a well-formed document are lowered, and for every program around them the
    instruction stage, scheduling and slot assignment succeed; executing the result
    in any mode with any lawful SIMD backend leaves, in the slots of the one
    instruction of every semantic root and on every request row, the truth value and
    the reasons that the root's expression means in the document. *)
Theorem compiled_policy_computes_document {ops : SimdOps} {laws : SimdLaws ops} (d : Document) (fields : FieldTable) (source : Interner.Interner)
    (schema : IndexSchema) (w : Z → Z) (mode : slotMode) :
  source_ok d fields source → doc_ok d schema → width_ok d w →
  ∃ k con, lowerConstants d fields source = Ok (k, con) ∧
    ∀ p : Program, symbols p = cSymbols con → values p = cValues con → FieldIndex p = schema →
    ∃ p' s, lowerInstructions k d p = Ok p' ∧ assignSlots p' mode = Ok s ∧
      ∀ b env xmode st, exec_ok (with_slots p' s) b env →
        truthGood (with_slots p' s) (Rows b) (truthWords st) → reasonGood (with_slots p' s) (Rows b) (reasonWords st) →
        ∃ st', executeScheduleMode env (with_slots p' s) b xmode st = Ok st' ∧
          ∀ node flag r, 1 ≤ node ≤ DocLen d → marked d node flag → Z.of_nat r < Rows b →
            ∃ row v, nodeEntriesOf p' node = [Z.of_nat row + 1] ∧
              nodeValue d (findSymbol (cSymbols con)) schema b (stateReasons (states env)) r (length (dNodeKinds d)) node = Some v ∧
              readTruth (Rows b) (truthWords st') (TruthSlots s !!! row) r = v.1 ∧
              ∀ reason, Reason.validReason reason → readReason (Rows b) (reasonWords st') (ReasonSlots s !!! row) (reason, r) = Reason.Has v.2 reason.
Proof.
  intros Hsrc Hdoc Hw. destruct (lowerConstants_ok d fields source Hsrc) as (k & con & Ec & Hcon). exists k, con. split; [done|]. intros p Hs Hv <-.
  destruct (normalize_ok d fields source k con p w Hcon Hs Hv Hdoc Hw) as (cols & En & Hl & _). unfold lowerInstructions. rewrite En, go_bind_Ok. by apply lowered_backend.
Qed.
