(* ===== verification/IndexLower.v ===== *)
(** * The index plan of a compiled policy: [internal/compile/index.go]
    For every requirement the compiler walks the conjunctions below its
    applicability root and collects, per symbol field, the values of a single
    equality or membership leaf: these are necessary conditions for the requirement
    to apply, and become the constraints of the applicability index.  Symbol fields
    that the schedule compares often get a fact bitmap per compared value. *)

From S2P Require Import Prelude Store Truth Schema Result Program Batch Predicate Simd FactIndex Evidence Executor PolicyIndex PolicyBuild Finalize Execute.
From S2P Require Import Liveness Schedule.

Definition indexFieldUnseen : Z := 0.
Definition indexFieldSingle : Z := 1.
Definition indexFieldAmbiguous : Z := 2.
Definition factIndexMinUses : Z := 96.

Definition validateApplicabilityProgram (p : Program) : go unit :=
  validateSlotProgram p ;;
  check (bool_decide (length (RequirementRoots p) = length (RequirementIDs p)) && (zlen (RequirementRoots p) <=? MaxUint32) &&
         bool_decide (length (ValueKinds p) = length (ValueRefs p)) && (zlen (FieldKinds p) <=? MaxUint32) &&
         (zlen (ValueKinds p) <=? MaxUint32)) ErrInvalidGeneratedProgram ;;
  check (forallb (λ root, negb ((root =? 0) || (zlen (Opcodes p) <? root) || negb (RootHas (RootFlags p !!! Z.to_nat (root - 1)) RootApplicability)))
           (RequirementRoots p)) ErrInvalidGeneratedProgram.

Definition compileIndexError {A} (r : go A) : go A :=
  match r with Err e => Err (if decide (e = ErrIndexTooLarge) then ErrProgramTooLarge else ErrInvalidGeneratedProgram) | _ => r end.

Definition selectorFieldKind (p : Program) (field : Z) : go Z :=
  check (negb ((field =? 0) || (zlen (FieldKinds p) <? field))) ErrInvalidGeneratedProgram ;;
  kind ← at_ (FieldKinds p) (field - 1);
  check (KindValid kind) ErrInvalidGeneratedProgram ;;
  Ok kind.

Definition selectorSymbol (p : Program) (value : Z) : go Z :=
  check (negb ((value =? 0) || (zlen (ValueKinds p) <? value) || (zlen (ValueRefs p) <? value) ||
               negb (ValueKinds p !!! Z.to_nat (value - 1) =? ValueKindSymbol))) ErrInvalidGeneratedProgram ;;
  symbol ← at_ (ValueRefs p) (value - 1);
  check (negb ((symbol =? 0) || (ProgramSymbolCount p <? symbol))) ErrInvalidGeneratedProgram ;;
  Ok symbol.

(** ** Applicability constraints *)

(** The scratch of one requirement. *)
Record selectorState := {
  indexVisited : list Z;
  indexFieldState : list Z;
  indexFieldValueStart : list Z;
  indexFieldValueCount : list Z;
  indexCandidateValue : list Z
}.

Section extract.
Context (p : Program).

(** The value operands of an equality or membership leaf. *)
Definition leafValues (row : Z) : go (list Z) :=
  opcode ← at_ (Opcodes p) row;
  if opcode =? OpcodeEqual then value ← at_ (Values p) row; Ok [value]
  else if opcode =? OpcodeIn then
    start ← at_ (ListStarts p) row;
    count ← at_ (ListCounts p) row;
    slice_ (ListValues p) start (start + count)
  else Ok [].

Definition appendSelectorValues (row field : Z) (st : selectorState) : go selectorState :=
  state ← at_ (indexFieldState st) (field - 1);
  let appendValues := state =? indexFieldUnseen in
  states ← (if state =? indexFieldSingle then put_ (indexFieldState st) (field - 1) indexFieldAmbiguous
            else if appendValues then
              check (zlen (indexCandidateValue st) <=? MaxUint32) ErrProgramTooLarge ;;
              put_ (indexFieldState st) (field - 1) indexFieldSingle
            else Ok (indexFieldState st));
  starts ← (if appendValues then put_ (indexFieldValueStart st) (field - 1) (u32 (zlen (indexCandidateValue st))) else Ok (indexFieldValueStart st));
  let startCount := zlen (indexCandidateValue st) in
  vs ← leafValues row;
  candidate ← fold_go (λ value candidate,
    symbol ← selectorSymbol p value;
    Ok (if appendValues then candidate ++ [symbol] else candidate)) vs (indexCandidateValue st);
  counts ← (if appendValues then
              let count := zlen candidate - startCount in
              check (negb (count =? 0)) ErrInvalidGeneratedProgram ;;
              check (negb ((MaxUint32 <? count) || (MaxUint32 <? zlen candidate))) ErrProgramTooLarge ;;
              put_ (indexFieldValueCount st) (field - 1) (u32 count)
            else Ok (indexFieldValueCount st));
  Ok {| indexVisited := indexVisited st; indexFieldState := states; indexFieldValueStart := starts; indexFieldValueCount := counts;
        indexCandidateValue := candidate |}.

Definition with_visited (st : selectorState) (visited : list Z) : selectorState :=
  {| indexVisited := visited; indexFieldState := indexFieldState st; indexFieldValueStart := indexFieldValueStart st;
     indexFieldValueCount := indexFieldValueCount st; indexCandidateValue := indexCandidateValue st |}.

(** One iteration: [id] is popped; operands are pushed last to first, so the first
    one is on top. *)
Definition selectorStep (id : Z) (rest : list Z) (st : selectorState) : go (list Z * selectorState) :=
  let row := u32 (id - 1) in
  v ← at_ (indexVisited st) row;
  if negb (v =? 0) then Ok (rest, st) else
  visited ← put_ (indexVisited st) row 1;
  let st := with_visited st visited in
  opcode ← at_ (Opcodes p) row;
  if opcode =? OpcodeAll then
    start ← at_ (OperandStarts p) row;
    count ← at_ (OperandCounts p) row;
    operands ← slice_ (Operands p) start (start + count);
    Ok (operands ++ rest, st)
  else if (opcode =? OpcodeEqual) || (opcode =? OpcodeIn) then
    field ← at_ (Fields p) row;
    kind ← selectorFieldKind p field;
    if negb (kind =? ValueKindSymbol) then Ok (rest, st) else
    st ← appendSelectorValues row field st;
    Ok (rest, st)
  else Ok (rest, st).

(** The loop; [None] when it takes more than [fuel] iterations. *)
Fixpoint selectorWalk (fuel : nat) (stack : list Z) (st : selectorState) : option (go selectorState) :=
  match stack with
  | [] => Some (Ok st)
  | id :: rest =>
      match fuel with
      | O => None
      | S fuel =>
          match selectorStep id rest st with
          | Ok (stack, st) => selectorWalk fuel stack st
          | Err e => Some (Err e)
          | Panic msg => Some (Panic msg)
          end
      end
  end.

(** Every iteration pops an ID, and a row pushes its operands at most once. *)
Definition selectorFuel : nat := S (foldr (λ i n, length (operandsOf p i) + n)%nat 0%nat (seq 0 (length (Opcodes p)))).

Definition freshSelectors : selectorState :=
  let fields := zlen (FieldKinds p) in
  {| indexVisited := make_ (zlen (Opcodes p)); indexFieldState := make_ fields; indexFieldValueStart := make_ fields;
     indexFieldValueCount := make_ fields; indexCandidateValue := [] |}.

(** The constraint of one field of a requirement, if it has a single leaf. *)
Definition emitConstraint (st : selectorState) (requirementRow : nat) (fieldRow : nat) (c : Constraints) : go Constraints :=
  state ← at_ (indexFieldState st) (Z.of_nat fieldRow);
  if negb (state =? indexFieldSingle) then Ok c else
  start ← at_ (indexFieldValueStart st) (Z.of_nat fieldRow);
  count ← at_ (indexFieldValueCount st) (Z.of_nat fieldRow);
  check (zlen (cnRows c) <? MaxUint32) ErrProgramTooLarge ;;
  let valueStart := zlen (cnValues c) in
  check (u64 (valueStart + count) <=? MaxUint32) ErrProgramTooLarge ;;
  vs ← slice_ (indexCandidateValue st) start (start + count);
  Ok {| cnRows := cnRows c ++ [u32 (Z.of_nat requirementRow)]; cnFields := cnFields c ++ [u32 (Z.of_nat fieldRow + 1)];
        cnValueStarts := cnValueStarts c ++ [u32 valueStart]; cnValueCounts := cnValueCounts c ++ [u32 count]; cnValues := cnValues c ++ vs |}.

Definition extractRequirement (requirementRow : nat) (c : Constraints) : go Constraints :=
  root ← at_ (RequirementRoots p) (Z.of_nat requirementRow);
  st ← default (Panic "selector walk does not end") (selectorWalk selectorFuel [root] freshSelectors);
  for_range (length (indexFieldState st)) (emitConstraint st requirementRow) c.

Definition noConstraints : Constraints := {| cnRows := []; cnFields := []; cnValueStarts := []; cnValueCounts := []; cnValues := [] |}.

Definition extractApplicabilityConstraints : go Constraints :=
  validateApplicabilityProgram p ;;
  for_range (length (RequirementRoots p)) extractRequirement noConstraints.
End extract.

(** ** Fact bitmaps *)

(** The columns of the specification under construction, with the fill position of
    every field and the next free value. *)
Record specLayout := {
  slFields : list Z; slColumns : list Z; slStarts : list Z; slCounts : list Z; slUses : list Z; factValueFill : list Z; slNext : Z
}.

Section facts.
Context (p : Program) (schema : IndexSchema).

Definition comparesValues (opcode : Z) : bool := (opcode =? OpcodeEqual) || (opcode =? OpcodeNotEqual) || (opcode =? OpcodeIn).

Definition factValues (row opcode : Z) : go (list Z) :=
  if opcode =? OpcodeIn then
    start ← at_ (ListStarts p) row;
    count ← at_ (ListCounts p) row;
    slice_ (ListValues p) start (start + count)
  else value ← at_ (Values p) row; Ok [value].

(** The values one row compares its field with are counted as uses of the field. *)
Definition countUse (row : nat) (counts : list Z) : go (list Z) :=
  let row := Z.of_nat row in
  opcode ← at_ (Opcodes p) row;
  if negb (comparesValues opcode) then Ok counts else
  uses ← (if opcode =? OpcodeIn then at_ (ListCounts p) row else Ok 1);
  field ← at_ (Fields p) row;
  check (negb ((field =? 0) || (zlen (FieldKinds p) <? field))) ErrInvalidGeneratedProgram ;;
  kind ← at_ (FieldKinds p) (field - 1);
  if negb (kind =? ValueKindSymbol) then Ok counts else
  vs ← factValues row opcode;
  _ ← map_go (selectorSymbol p) vs;
  current ← at_ counts (field - 1);
  check (negb (MaxUint32 - current <? uses)) ErrProgramTooLarge ;;
  put_ counts (field - 1) (current + uses).

Definition usedOften (uses : Z) : bool := factIndexMinUses <=? uses.

(** One field of the specification. *)
Definition layoutField (counts : list Z) (fieldOffset : nat) (l : specLayout) : go specLayout :=
  uses ← at_ counts (Z.of_nat fieldOffset);
  if negb (usedOften uses) then Ok l else
  let field := u32 (Z.of_nat fieldOffset + 1) in
  '(kind, column) ← orErr (SchemaLookup schema field) ErrInvalidGeneratedProgram;
  check (kind =? ValueKindSymbol) ErrInvalidGeneratedProgram ;;
  fill ← put_ (factValueFill l) (Z.of_nat fieldOffset) (slNext l);
  Ok {| slFields := slFields l ++ [field]; slColumns := slColumns l ++ [column]; slStarts := slStarts l ++ [slNext l];
        slCounts := slCounts l ++ [uses]; slUses := slUses l ++ [uses]; factValueFill := fill; slNext := u32 (slNext l + uses) |}.

(** The symbols one row compares are written at the fill position of its field. *)
Definition fillRow (counts : list Z) (row : nat) (st : list Z * list Z) : go (list Z * list Z) :=
  let row := Z.of_nat row in
  opcode ← at_ (Opcodes p) row;
  if negb (comparesValues opcode) then Ok st else
  field ← at_ (Fields p) row;
  uses ← at_ counts (field - 1);
  if negb (usedOften uses) then Ok st else
  vs ← factValues row opcode;
  fold_go (λ value st,
    let '(fill, values) := st in
    let symbol := match selectorSymbol p value with Ok s => s | _ => 0 end in
    f ← at_ fill (field - 1);
    values ← put_ values f symbol;
    fill ← put_ fill (field - 1) (u32 (f + 1));
    Ok (fill, values)) vs st.

(** The values of field row [row] are sorted in place and moved down without
    duplicates; reads see the array that is being written. *)
Definition compactValues (row : nat) (st : list Z * list Z * list Z * Z) : go (list Z * list Z * list Z * Z) :=
  let '(starts, counts, values, write) := st in
  start ← at_ starts (Z.of_nat row);
  count ← at_ counts (Z.of_nat row);
  segment ← slice_ values start (start + count);
  let values := take (Z.to_nat start) values ++ sortZ segment ++ drop (Z.to_nat (start + count)) values in
  '(values, next, _) ← for_range (Z.to_nat count) (λ i st,
    let '(values, write, previous) := st in
    value ← at_ values (start + Z.of_nat i);
    if value =? previous then Ok st else
    values ← put_ values write value;
    Ok (values, write + 1, value)) (values, write, 0);
  starts ← put_ starts (Z.of_nat row) (u32 write);
  counts ← put_ counts (Z.of_nat row) (u32 (u32 next - u32 write));
  Ok (starts, counts, values, next).

Definition noLayout : specLayout :=
  {| slFields := []; slColumns := []; slStarts := []; slCounts := []; slUses := []; factValueFill := make_ (zlen (FieldKinds p)); slNext := 0 |}.

Definition lowerFactIndexSpec : go FactSpec :=
  uses ← for_range (length (Opcodes p)) countUse (make_ (zlen (FieldKinds p)));
  let totalValues := foldl (λ t u, if usedOften u then u64 (t + u) else t) 0 uses in
  check (totalValues <=? MaxUint32) ErrProgramTooLarge ;;
  l ← for_range (length uses) (layoutField uses) noLayout;
  '(_, values) ← for_range (length (Opcodes p)) (fillRow uses) (factValueFill l, make_ totalValues);
  '(starts, counts, values, write) ← for_range (length (slFields l)) compactValues (slStarts l, slCounts l, values, 0);
  let spec := {| fFieldIDs := slFields l; fColumns := slColumns l; ValueStarts := starts; ValueCounts := counts; UseCounts := slUses l;
                 fValues := take (Z.to_nat write) values |} in
  check (FactIndex.Valid spec schema (ProgramSymbolCount p)) ErrInvalidGeneratedProgram ;;
  Ok spec.
End facts.

(** ** The stage *)

Definition with_indexes (p : Program) (policy : Policy) (spec : FactSpec) (schema : IndexSchema) : Program :=
  {| instr := instr p; slots := slots p; symbols := symbols p; values := values p; semantics := semantics p; Explanations := Explanations p;
     Outcomes_ := Outcomes_ p; RemediationRows := RemediationRows p; Resolutions := Resolutions p; resolver := resolver p;
     ApplicabilityIndex := policy; FactIndexSpec := spec; FieldIndex := schema; FieldKinds := FieldKinds p |}.

Definition lowerIndexes (p : Program) : go Program :=
  constraints ← extractApplicabilityConstraints p;
  schema ← compileIndexError (BuildSchema (FieldKinds p));
  policy ← compileIndexError (Build (u32 (zlen (RequirementIDs p))) constraints);
  spec ← lowerFactIndexSpec p schema;
  Ok (with_indexes p policy spec schema).
