(* ===== verification/IndexMeaning.v ===== *)
(** * The applicability index does not change decisions
    A leaf that is reached from a requirement's root through conjunctions only and
    is definitely false on a request makes the root definitely false.  The
    constraints extracted for the index are such leaves, so a requirement that the
    index filters out is one that would not have counted. *)

From S2P Require Import Prelude Store Truth Schema Result Program Batch Predicate Simd FactIndex Evidence Executor PolicyIndex PolicyBuild Finalize Execute.
From S2P Require Import Liveness Schedule IndexLower.
Import Reason.

(** ** Conjuncts *)

Definition definitelyFalse (v : tv * Z) : Prop := v.1 = tv_false.

Lemma all_false vs v : v ∈ vs → v = tv_false → foldr tv_and tv_true vs = tv_false.
Proof.
  intros Hin ->. induction vs as [|w vs IH]; [set_solver|]. simpl. apply elem_of_cons in Hin as [<-|Hin].
  - unfold tv_and. by destruct (foldr _ _ _).
  - rewrite (IH Hin). destruct w as [[] []]; done.
Qed.

Section meaning.
Context (p : Program) (Hg : graph_ok p).
Local Abbreviation n := (length (Opcodes p)).

(** Rows reached from [root] through conjunctions. *)
Inductive conjunct (root : nat) : nat → Prop :=
  | ConjunctRoot : conjunct root root
  | ConjunctOperand i o : conjunct root i → (i < n)%nat → Opcodes p !!! i = OpcodeAll → o ∈ operandsOf p i → conjunct root (Z.to_nat (o - 1)).

Lemma conjunct_lt root i : (root < n)%nat → conjunct root i → (i < n)%nat.
Proof. intros Hr. induction 1 as [|i o _ IH Hi _ Ho]; [done|]. pose proof (gk_earlier _ Hg i o Hi Ho). lia. Qed.

Lemma conjunct_false b reasons r root i :
  conjunct root i → definitelyFalse (denote p b reasons i r) → definitelyFalse (denote p b reasons root r).
Proof.
  induction 1 as [|i o _ IH Hi Hop Ho]; [done|]. intros Hf. apply IH. pose proof (gk_earlier _ Hg i o Hi Ho) as He.
  unfold definitelyFalse, denote, instrValue in *. rewrite Hop. simpl. apply (all_false _ (denote p b reasons (Z.to_nat (o - 1)) r).1).
  - apply list_elem_of_In, in_map. apply in_map_iff. exists o. split; [|by apply list_elem_of_In]. apply denoteAll_lookup. lia.
  - exact Hf.
Qed.

(** ** Selector leaves *)

Definition leafIDs (i : nat) : list Z := if Opcodes p !!! i =? OpcodeEqual then [Values p !!! i] else inLiterals p i.
Definition leafSymbols (i : nat) : list Z := map (λ v, symbol (valueOf p v ValueKindSymbol)) (leafIDs i).

(** An equality or membership leaf on a symbol field. *)
Definition selectorLeaf (i : nat) (field : Z) : Prop :=
  (i < n)%nat ∧ (Opcodes p !!! i = OpcodeEqual ∨ Opcodes p !!! i = OpcodeIn) ∧ Fields p !!! i = field ∧
  ∃ column, SchemaLookup (FieldIndex p) field = Some (ValueKindSymbol, column).

(** On a request whose field holds a symbol the leaf does not list, it is false. *)
Lemma selectorLeaf_false b reasons i field r :
  selectorLeaf i field → (selectorValue p b field r).2 ≠ 0 → (selectorValue p b field r).1 ∉ leafSymbols i →
  definitelyFalse (denote p b reasons i r).
Proof.
  intros (Hi & Hop & <- & column & Hl). unfold selectorValue. rewrite Hl. simpl.
  destruct (colBit b (PresenceMasks b) (Fields p !!! i - 1) r) eqn:Hp; [|done]. simpl. intros _ Hnot.
  assert (predicateMatches p b (Opcodes p !!! i) ValueKindSymbol column i r = false) as Hm.
  { unfold predicateMatches, leafSymbols, leafIDs in *. destruct Hop as [E|E]; rewrite E in *; simpl in *.
    - unfold comparisonMatches, literalMatches. simpl. apply Z.eqb_neq. set_solver.
    - apply not_true_iff_false. rewrite existsb_exists. intros (v & Hv & Heq). apply Hnot. apply list_elem_of_In, in_map_iff.
      exists v. split; [|done]. unfold literalMatches in Heq. simpl in Heq. apply Z.eqb_eq in Heq. done. }
  unfold definitelyFalse, denote, instrValue. destruct Hop as [E|E]; rewrite E in *; simpl; unfold predicateRow; rewrite Hl, E; simpl; by rewrite Hp, Hm.
Qed.

Context (Hkinds : sKinds (FieldIndex p) = FieldKinds p).
Context (Hleaf : ∀ row, (row < n)%nat → instructionOk p row = true).
Context (Hlists : ∀ row, (row < n)%nat → Opcodes p !!! row = OpcodeIn → inLiterals p row ≠ []).

Context (Hrefs : Forall is_u32 (ValueRefs p)) (Hcount : is_u32 (ProgramSymbolCount p)).

Lemma selectorSymbol_ok v : decodable p ValueKindSymbol v = true →
  selectorSymbol p v = Ok (symbol (valueOf p v ValueKindSymbol)) ∧ 1 ≤ symbol (valueOf p v ValueKindSymbol) ≤ ProgramSymbolCount p.
Proof.
  intros Hd. pose proof (decodable_Ok _ _ _ Hd) as E. revert E. generalize (valueOf p v ValueKindSymbol) as x. intros x E. unfold programPredicateValue in E.
  apply go_bind_inv in E as ([] & H1%require_inv & E). apply go_bind_inv in E as ([] & H2%require_inv & E).
  apply go_bind_inv in E as (ref & Href & E). apply go_bind_inv in E as ([] & H3%require_inv & E). simpl in E.
  apply go_bind_inv in E as ([] & H4%require_inv & E). destruct (Symbol p ref); [|done]. simplify_eq. simpl.
  rewrite !negb_true_iff, ?orb_false_iff, ?Z.eqb_neq, ?Z.ltb_ge, ?Z.leb_gt, ?negb_false_iff in *. destruct H2 as [[H2 H2'] Hk].
  apply at_Ok in Href as Hr. destruct Hr as [Hv0 Hr]. rewrite Forall_forall in Hrefs. specialize (Hrefs ref ltac:(by eapply list_elem_of_lookup_2)).
  unfold is_u32 in *. split; [|lia]. unfold selectorSymbol. rewrite Hk, Href.
  rewrite (proj2 (Z.eqb_neq v 0)), (proj2 (Z.ltb_ge (zlen (ValueKinds p)) v)), (proj2 (Z.ltb_ge (zlen (ValueRefs p)) v)) by lia. simpl.
  rewrite (proj2 (Z.eqb_neq ref 0)), (proj2 (Z.ltb_ge (ProgramSymbolCount p) ref)) by lia. done.
Qed.

(** What the checks of a leaf give for its selector. *)
Lemma selectorLeaf_values i field : selectorLeaf i field →
  leafValues p (Z.of_nat i) = Ok (leafIDs i) ∧ leafIDs i ≠ [] ∧ 1 ≤ field ≤ zlen (FieldKinds p) ∧ selectorFieldKind p field = Ok ValueKindSymbol ∧
  Forall (λ v, decodable p ValueKindSymbol v = true) (leafIDs i).
Proof.
  intros (Hi & Hop & <- & column & Hl). pose proof (Hleaf i Hi) as Hok.
  assert (predicateOk p i = true) as Hp by (unfold instructionOk in Hok; destruct Hop as [E|E]; rewrite E in Hok; exact Hok).
  destruct (predicateOk_inv p i Hp) as (kind & col & Hl' & (L1 & L2 & L3 & L4 & L5) & _ & Hf & _ & _ & Hv & _). rewrite Hl in Hl'. simplify_eq.
  unfold leafValues, leafIDs in *. rewrite (at_total (Opcodes p)) by lia. rewrite go_bind_Ok, Nat2Z.id.
  assert (1 ≤ Fields p !!! i ≤ zlen (FieldKinds p) ∧ FieldKinds p !!! Z.to_nat (Fields p !!! i - 1) = ValueKindSymbol) as [Hrange Hkind].
  { unfold SchemaLookup in Hl. rewrite Hkinds in Hl. destruct (Z.eqb_spec (Fields p !!! i) 0); [done|].
    destruct (Z.leb_spec (zlen (FieldKinds p)) (Fields p !!! i - 1)); [done|]. simpl in Hl. destruct (_ <=? _); [done|]. simplify_eq. split; [lia|done]. }
  assert (selectorFieldKind p (Fields p !!! i) = Ok ValueKindSymbol) as Hfk.
  { unfold selectorFieldKind. rewrite (proj2 (Z.eqb_neq (Fields p !!! i) 0)), (proj2 (Z.ltb_ge (zlen (FieldKinds p)) (Fields p !!! i))) by lia. simpl.
    rewrite (at_total (FieldKinds p)) by lia. by rewrite go_bind_Ok, Hkind. }
  destruct Hop as [E|E]; rewrite E in *; simpl in Hv |- *.
  - rewrite (at_total (Values p)) by lia. rewrite go_bind_Ok, Nat2Z.id. split; [done|]. split; [done|]. split; [done|]. split; [done|]. by constructor.
  - destruct Hv as (_ & H1 & H2 & H3 & _ & H4). rewrite (at_total (ListStarts p)), (at_total (ListCounts p)) by lia.
    rewrite !go_bind_Ok, Nat2Z.id, slice_csr by lia. split; [done|]. split; [by apply Hlists|]. split; [done|]. split; [done|].
    rewrite forallb_forall in H4. apply Forall_forall. intros v Hv. apply H4. by apply list_elem_of_In.
Qed.

(** A row that the walk takes for a selector is one. *)
Lemma selector_kind i : (i < n)%nat → Opcodes p !!! i = OpcodeEqual ∨ Opcodes p !!! i = OpcodeIn →
  at_ (Fields p) (Z.of_nat i) = Ok (Fields p !!! i) ∧
  ∃ kind, selectorFieldKind p (Fields p !!! i) = Ok kind ∧ (kind = ValueKindSymbol → selectorLeaf i (Fields p !!! i)).
Proof.
  intros Hi Hop. pose proof (Hleaf i Hi) as Hok.
  assert (predicateOk p i = true) as Hp by (unfold instructionOk in Hok; destruct Hop as [E|E]; rewrite E in Hok; exact Hok).
  destruct (predicateOk_inv p i Hp) as (kind & col & Hl & (_ & L2 & _) & _ & Hf & Hkv & _). split.
  { rewrite at_total by lia. by rewrite Nat2Z.id. }
  exists kind. pose proof Hl as Hl2. unfold SchemaLookup in Hl. rewrite Hkinds in Hl. destruct (Z.eqb_spec (Fields p !!! i) 0) as [|Hne]; [done|].
  destruct (Z.leb_spec (zlen (FieldKinds p)) (Fields p !!! i - 1)); [done|]. simpl in Hl. destruct (_ <=? _); [done|]. simplify_eq. split.
  - unfold selectorFieldKind. rewrite (proj2 (Z.eqb_neq (Fields p !!! i) 0)), (proj2 (Z.ltb_ge (zlen (FieldKinds p)) (Fields p !!! i))) by lia. simpl.
    rewrite (at_total (FieldKinds p)) by lia. by rewrite go_bind_Ok, Hkv.
  - intros E. split; [done|]. split; [done|]. split; [done|]. eexists. by rewrite Hl2, E.
Qed.

(** ** The walk *)

(** A sum over the rows that are not visited yet. *)
Definition pending (f : nat → nat) (visited : list Z) : nat :=
  foldr (λ i m, (if (visited !!! i =? 0)%Z then f i else 0) + m)%nat 0%nat (seq 0 n).

Lemma pending_visit f visited i : (i < n)%nat → length visited = n → visited !!! i = 0 →
  (pending f (<[i := 1%Z]> visited) + f i = pending f visited)%nat.
Proof.
  intros Hi Hl Hv. unfold pending.
  pose proof (sum_update (λ j, if <[i := 1]> visited !!! j =? 0 then f j else 0%nat) (λ j, if visited !!! j =? 0 then f j else 0%nat) n i Hi) as E.
  cbv beta in E. rewrite list_lookup_total_insert_eq, Hv in E by lia. simpl in E. rewrite E; [lia|]. intros j Hj Hne. by rewrite list_lookup_total_insert_ne.
Qed.

Lemma pending_fresh f : pending f (make_ (Z.of_nat n)) = foldr (λ i m, f i + m)%nat 0%nat (seq 0 n).
Proof.
  unfold pending, make_. rewrite Nat2Z.id. assert (Forall (λ i, (i < n)%nat) (seq 0 n)) as H by (apply Forall_forall; intros i; rewrite elem_of_seq; lia).
  induction H as [|i l Hi _ IH]; [done|]. simpl. rewrite IH, lookup_total_replicate_2 by done. done.
Qed.

Lemma pending_le f visited : (pending f visited ≤ foldr (λ i m, f i + m) 0 (seq 0 n))%nat.
Proof. unfold pending. induction (seq 0 n) as [|i l IH]; simpl; [lia|]. case_match; lia. Qed.

(** The values of all leaves. *)
Definition leafTotal : nat := foldr (λ i m, length (leafIDs i) + m)%nat 0%nat (seq 0 n).

Context (Hfit : Z.of_nat leafTotal ≤ MaxUint32).

Local Abbreviation nf := (length (FieldKinds p)).

Record walkInv (root : nat) (st : selectorState) : Prop := {
  wi_lens : length (indexVisited st) = n ∧ length (indexFieldState st) = nf ∧ length (indexFieldValueStart st) = nf ∧ length (indexFieldValueCount st) = nf;
  wi_symbols : Forall (λ v, 1 ≤ v ≤ ProgramSymbolCount p) (indexCandidateValue st);
  wi_total : total (indexFieldValueCount st) = zlen (indexCandidateValue st) ∧ Forall is_u32 (indexFieldValueCount st);
  wi_unseen f : (f < nf)%nat → indexFieldState st !!! f = indexFieldUnseen → indexFieldValueCount st !!! f = 0;
  wi_single f : (f < nf)%nat → indexFieldState st !!! f = indexFieldSingle →
    ∃ i, conjunct root i ∧ selectorLeaf i (Z.of_nat f + 1) ∧ 0 ≤ indexFieldValueStart st !!! f ∧
      indexFieldValueCount st !!! f = zlen (leafSymbols i) ∧ indexFieldValueStart st !!! f + zlen (leafSymbols i) ≤ zlen (indexCandidateValue st) ∧
      csr (indexCandidateValue st) (indexFieldValueStart st !!! f) (zlen (leafSymbols i)) = leafSymbols i;
  wi_size : (length (indexCandidateValue st) + pending (λ i, length (leafIDs i)) (indexVisited st) ≤ leafTotal)%nat
}.

Lemma total_insert (l : list Z) k x : (k < length l)%nat → total (<[k := x]> l) = total l - l !!! k + x.
Proof.
  intros Hk. rewrite <-(take_drop_middle l k (l !!! k)) at 2 by (by apply list_lookup_lookup_total_lt).
  rewrite insert_take_drop by done. rewrite !total_app. unfold total. simpl. lia.
Qed.

(** The symbols of a leaf, appended to what is collected. *)
Lemma appendSymbols_ok (app : bool) i cand : Forall (λ v, decodable p ValueKindSymbol v = true) (leafIDs i) →
  fold_go (λ value candidate, symbol ← selectorSymbol p value; Ok (if app then candidate ++ [symbol] else candidate)) (leafIDs i) cand =
  Ok (if app then cand ++ leafSymbols i else cand).
Proof.
  intros Hd. unfold leafSymbols. revert cand. induction Hd as [|v vs Hv _ IH]; intros cand; simpl; [by destruct app; rewrite ?app_nil_r|].
  destruct (selectorSymbol_ok v Hv) as [-> _]. simpl. rewrite IH. destruct app; [|done]. by rewrite <-app_assoc.
Qed.

Lemma leafSymbols_ok i : Forall (λ v, decodable p ValueKindSymbol v = true) (leafIDs i) → Forall (λ v, 1 ≤ v ≤ ProgramSymbolCount p) (leafSymbols i).
Proof. intros Hd. unfold leafSymbols. apply Forall_map. eapply Forall_impl; [exact Hd|]. intros v Hv. by apply selectorSymbol_ok. Qed.

(** A field seen for the first time gets the symbols of the leaf. *)
Lemma wi_first root st i f : walkInv root st → conjunct root i → selectorLeaf i (Z.of_nat f + 1) → (f < nf)%nat →
  indexFieldState st !!! f = indexFieldUnseen → Forall (λ v, 1 ≤ v ≤ ProgramSymbolCount p) (leafSymbols i) →
  (length (indexCandidateValue st) + length (leafIDs i) + pending (λ i, length (leafIDs i)) (indexVisited st) ≤ leafTotal)%nat →
  walkInv root {| indexVisited := indexVisited st; indexFieldState := <[f := indexFieldSingle]> (indexFieldState st);
    indexFieldValueStart := <[f := zlen (indexCandidateValue st)]> (indexFieldValueStart st);
    indexFieldValueCount := <[f := zlen (leafSymbols i)]> (indexFieldValueCount st); indexCandidateValue := indexCandidateValue st ++ leafSymbols i |}.
Proof.
  intros [(L1 & L2 & L3 & L4) Hsy [Htot Hu] Hun Hsi Hsz] Hc Hl Hf Hst Hd Hroom.
  assert (length (leafSymbols i) = length (leafIDs i)) as El by (unfold leafSymbols; apply length_map).
  split; simpl; rewrite ?length_insert, ?length_app; try done; [by apply Forall_app|..|lia].
  - rewrite total_insert, (Hun f Hf Hst) by lia. split; [lia|]. apply Forall_insert; [done|]. unfold is_u32, MaxUint32 in *. lia.
  - intros g Hg'. destruct (decide (g = f)) as [->|Hne]; [by rewrite list_lookup_total_insert_eq by lia|]. rewrite !list_lookup_total_insert_ne by done. by apply Hun.
  - intros g Hg'. destruct (decide (g = f)) as [->|Hne].
    + intros _. rewrite !list_lookup_total_insert_eq by lia. exists i. split; [done|]. split; [done|]. split; [lia|]. split; [done|]. split; [lia|].
      unfold csr. rewrite !Nat2Z.id, drop_app_length. by apply take_ge.
    + rewrite !list_lookup_total_insert_ne by done. intros Hs. destruct (Hsi g Hg' Hs) as (j & H1 & H2 & H3 & H4 & H5 & H6).
      exists j. split; [done|]. split; [done|]. split; [done|]. split; [done|]. split; [lia|]. rewrite <-H6 at 2. unfold csr.
      rewrite drop_app_le by lia. apply take_app_le. rewrite length_drop. lia.
Qed.

Lemma appendSelectorValues_ok root st i field : walkInv root st → conjunct root i → selectorLeaf i field →
  (length (indexCandidateValue st) + length (leafIDs i) + pending (λ i, length (leafIDs i)) (indexVisited st) ≤ leafTotal)%nat →
  ∃ st', appendSelectorValues p (Z.of_nat i) field st = Ok st' ∧ indexVisited st' = indexVisited st ∧ walkInv root st'.
Proof.
  intros Hinv Hc Hl Hroom. destruct (selectorLeaf_values i field Hl) as (Hv & Hne & Hrange & _ & Hd).
  pose proof (leafSymbols_ok i Hd) as Hsy. destruct (wi_lens _ _ Hinv) as (L1 & L2 & L3 & L4). unfold appendSelectorValues.
  replace (field - 1) with (Z.of_nat (Z.to_nat (field - 1))) by lia. set (f := Z.to_nat (field - 1)).
  assert (field = Z.of_nat f + 1) as Ef by lia. assert (f < nf)%nat as Hf by lia.
  assert (length (leafSymbols i) = length (leafIDs i)) as El by (unfold leafSymbols; apply length_map).
  assert (length (leafIDs i) ≠ 0)%nat by (by intros ?%length_zero_iff_nil).
  rewrite (at_total (indexFieldState st)) by lia. rewrite go_bind_Ok, Nat2Z.id, Hv.
  destruct (Z.eqb_spec (indexFieldState st !!! f) indexFieldSingle) as [Es|Es].
  - rewrite (proj2 (Z.eqb_neq (indexFieldState st !!! f) indexFieldUnseen)) by (by rewrite Es). cbn iota. rewrite put_Ok by lia.
    rewrite !go_bind_Ok, (appendSymbols_ok false i (indexCandidateValue st) Hd), Nat2Z.id, !go_bind_Ok. eexists; split; [done|]. split; [done|].
    destruct Hinv as [_ H2 H3 H4 H5 H6]. split; simpl; rewrite ?length_insert; try done.
    + intros g Hg'. destruct (decide (g = f)) as [->|]; [by rewrite list_lookup_total_insert_eq by lia|]. rewrite list_lookup_total_insert_ne by done. by apply H4.
    + intros g Hg'. destruct (decide (g = f)) as [->|]; [by rewrite list_lookup_total_insert_eq by lia|]. rewrite list_lookup_total_insert_ne by done. by apply H5.
  - destruct (Z.eqb_spec (indexFieldState st !!! f) indexFieldUnseen) as [Eu|Eu].
    + cbn iota. rewrite (proj2 (Z.leb_le (zlen (indexCandidateValue st)) MaxUint32)) by lia. cbn [check]. rewrite go_bind_Ok, !put_Ok by lia. rewrite !go_bind_Ok.
      rewrite (appendSymbols_ok true i (indexCandidateValue st) Hd), go_bind_Ok.
      replace (zlen (indexCandidateValue st ++ leafSymbols i) - zlen (indexCandidateValue st)) with (zlen (leafSymbols i)) by (rewrite length_app; lia).
      rewrite length_app, (proj2 (Z.eqb_neq (zlen (leafSymbols i)) 0)) by lia. unfold MaxUint32 in *. cbn [negb check]. rewrite go_bind_Ok.
      rewrite (proj2 (Z.ltb_ge (2 ^ 32 - 1) _)), (proj2 (Z.ltb_ge (2 ^ 32 - 1) _)) by lia. cbn [orb negb check].
      rewrite go_bind_Ok, put_Ok, go_bind_Ok, !Nat2Z.id by lia. rewrite !u32_small by (unfold is_u32; lia).
      eexists; split; [done|]. split; [done|]. apply wi_first; try done. by rewrite <-Ef.
    + cbn iota. rewrite !go_bind_Ok. rewrite (appendSymbols_ok false i (indexCandidateValue st) Hd), !go_bind_Ok. eexists; split; [done|]. split; [done|].
      destruct Hinv as [H1 H2 H3 H4 H5 H6]. by split.
Qed.

Local Abbreviation visits := (pending (λ i, length (operandsOf p i))).
Definition stack_ok (root : nat) (stack : list Z) : Prop := Forall (λ id, 1 ≤ id ≤ Z.of_nat n ∧ conjunct root (Z.to_nat (id - 1))) stack.

(** One iteration: it succeeds, keeps the invariant and lowers the measure. *)
Lemma selectorStep_ok root id rest st : walkInv root st → stack_ok root (id :: rest) →
  ∃ stack' st', selectorStep p id rest st = Ok (stack', st') ∧ walkInv root st' ∧ stack_ok root stack' ∧
    (length stack' + visits (indexVisited st') < S (length rest) + visits (indexVisited st))%nat.
Proof.
  intros Hinv [[Hid Hc] Hrest]%Forall_cons. destruct (wi_lens _ _ Hinv) as (L1 & L2 & L3 & L4). destruct (gk_lens _ Hg) as (G1 & G2 & _).
  pose proof (gk_size _ Hg) as Gs. unfold MaxUint32 in Gs. unfold selectorStep. rewrite u32_small by (unfold is_u32; lia).
  replace (id - 1) with (Z.of_nat (Z.to_nat (id - 1))) by lia. set (i := Z.to_nat (id - 1)) in *. assert (i < n)%nat as Hi by lia.
  rewrite (at_total (indexVisited st)) by lia. rewrite go_bind_Ok, Nat2Z.id.
  destruct (Z.eqb_spec (indexVisited st !!! i) 0) as [Ev|Ev]; cbn [negb].
  2:{ eexists _, _; split; [done|]. split; [done|]. split; [done|]. lia. }
  rewrite put_Ok by lia. rewrite go_bind_Ok, Nat2Z.id.
  pose proof (pending_visit (λ i, length (operandsOf p i)) _ i Hi L1 Ev) as Hvis.
  pose proof (pending_visit (λ i, length (leafIDs i)) _ i Hi L1 Ev) as Hsz. simpl in Hvis, Hsz.
  assert (walkInv root (with_visited st (<[i := 1]> (indexVisited st)))) as Hinv'.
  { destruct Hinv as [_ H2 H3 H4 H5 H6]. split; simpl; rewrite ?length_insert; try done. lia. }
  rewrite (at_total (Opcodes p)) by lia. rewrite go_bind_Ok, Nat2Z.id.
  destruct (Z.eqb_spec (Opcodes p !!! i) OpcodeAll) as [Eall|Eall].
  - rewrite (at_total (OperandStarts p)), (at_total (OperandCounts p)) by lia. rewrite !go_bind_Ok, Nat2Z.id.
    destruct (gk_range _ Hg i Hi) as (R1 & R2 & R3). rewrite slice_csr by lia. rewrite go_bind_Ok. fold (operandsOf p i).
    eexists _, _; split; [done|]. split; [done|]. split; [|rewrite length_app; simpl; lia].
    apply Forall_app. split; [|done]. apply Forall_forall. intros o Ho. pose proof (gk_earlier _ Hg i o Hi Ho). split; [lia|]. by eapply ConjunctOperand.
  - destruct ((Opcodes p !!! i =? OpcodeEqual) || (Opcodes p !!! i =? OpcodeIn)) eqn:Esel.
    2:{ eexists _, _; split; [done|]. split; [done|]. split; [done|]. simpl. lia. }
    rewrite orb_true_iff, !Z.eqb_eq in Esel. destruct (selector_kind i Hi Esel) as (-> & kind & Hk & Hl). rewrite go_bind_Ok, Hk, go_bind_Ok.
    destruct (Z.eqb_spec kind ValueKindSymbol) as [->|]; cbn [negb].
    2:{ eexists _, _; split; [done|]. split; [done|]. split; [done|]. simpl. lia. }
    destruct (appendSelectorValues_ok root _ i (Fields p !!! i) Hinv' Hc (Hl eq_refl)) as (st' & -> & Hv' & Hi').
    { pose proof (wi_size _ _ Hinv). simpl. lia. }
    rewrite go_bind_Ok. eexists _, _; split; [done|]. split; [done|]. split; [done|]. rewrite Hv'. simpl. lia.
Qed.

Lemma selectorWalk_ok root fuel stack st : walkInv root st → stack_ok root stack → (length stack + visits (indexVisited st) ≤ fuel)%nat →
  ∃ st', selectorWalk p fuel stack st = Some (Ok st') ∧ walkInv root st'.
Proof.
  revert stack st. induction fuel as [|fuel IH]; intros stack st Hinv Hst Hm; (destruct stack as [|id rest]; [by exists st|]); [simpl in Hm; lia|].
  cbn [selectorWalk]. destruct (selectorStep_ok root id rest st Hinv Hst) as (stack' & st' & -> & Hinv' & Hst' & Hlt). apply IH; [done|done|]. simpl in Hm. lia.
Qed.

Lemma freshSelectors_ok root : walkInv root (freshSelectors p).
Proof.
  unfold freshSelectors, make_. rewrite !Nat2Z.id. split; simpl; rewrite ?length_replicate; try done.
  - split; [|apply Forall_replicate; done]. induction nf as [|k IH]; [done|]. simpl. unfold total in *. simpl. rewrite IH. done.
  - intros f Hf. by rewrite lookup_total_replicate_2.
  - pose proof (pending_le (λ i, length (leafIDs i)) (replicate n 0)). unfold leafTotal. lia.
Qed.

(** The walk of one requirement ends with the selectors of its conjuncts. *)
Lemma selectors_ok root : 1 ≤ root ≤ Z.of_nat n →
  ∃ st, selectorWalk p (selectorFuel p) [root] (freshSelectors p) = Some (Ok st) ∧ walkInv (Z.to_nat (root - 1)) st.
Proof.
  intros Hr. apply selectorWalk_ok; [apply freshSelectors_ok|constructor; [split; [done|constructor]|done]|].
  unfold selectorFuel, freshSelectors. simpl. apply le_n_S. apply pending_le.
Qed.

(** ** The constraints *)

Local Abbreviation nreq := (length (RequirementRoots p)).

Definition addConstraint (c : Constraints) (row field : Z) (vs : list Z) : Constraints :=
  {| cnRows := cnRows c ++ [row]; cnFields := cnFields c ++ [field]; cnValueStarts := cnValueStarts c ++ [zlen (cnValues c)];
     cnValueCounts := cnValueCounts c ++ [zlen vs]; cnValues := cnValues c ++ vs |}.

(** A constraint is the symbols of a leaf that the requirement's root conjoins. *)
Definition necessary (row field : Z) (vs : list Z) : Prop :=
  ∃ i, conjunct (Z.to_nat (RequirementRoots p !!! Z.to_nat row - 1)) i ∧ selectorLeaf i field ∧ vs = leafSymbols i.

Record consInv (c : Constraints) : Prop := {
  ci_lens : length (cnFields c) = length (cnRows c) ∧ length (cnValueStarts c) = length (cnRows c) ∧ length (cnValueCounts c) = length (cnRows c);
  ci_row k : (k < length (cnRows c))%nat → 0 ≤ cnRows c !!! k < Z.of_nat nreq ∧ 1 ≤ cnFields c !!! k ≤ Z.of_nat nf ∧
    0 ≤ cnValueStarts c !!! k ∧ 0 < cnValueCounts c !!! k ∧ cnValueStarts c !!! k + cnValueCounts c !!! k ≤ zlen (cnValues c);
  ci_once i j : (i < length (cnRows c))%nat → (j < length (cnRows c))%nat → cnFields c !!! i = cnFields c !!! j → cnRows c !!! i = cnRows c !!! j → i = j;
  ci_sum : list_sum (map (λ k, length (constraintValues c k)) (seq 0 (length (cnRows c)))) = length (cnValues c);
  ci_values : Forall (λ v, 1 ≤ v ≤ ProgramSymbolCount p) (cnValues c);
  ci_size : (length (cnRows c) ≤ length (cnValues c))%nat;
  ci_necessary k : (k < length (cnRows c))%nat → necessary (cnRows c !!! k) (cnFields c !!! k) (constraintValues c k)
}.

Lemma snoc_at (l : list Z) x k m : length l = m → (k < S m)%nat → (l ++ [x]) !!! k = if bool_decide (k < m)%nat then l !!! k else x.
Proof.
  intros Hl Hk. case_bool_decide as Hlt; [by rewrite lookup_total_app_l by lia|].
  rewrite lookup_total_app_r by lia. by replace (k - length l)%nat with 0%nat by lia.
Qed.

Lemma addConstraint_values c row field vs k : consInv c → (k < S (length (cnRows c)))%nat →
  constraintValues (addConstraint c row field vs) k = if bool_decide (k < length (cnRows c))%nat then constraintValues c k else vs.
Proof.
  intros [(L1 & L2 & L3) Hrow _ _ _ _] Hk. unfold constraintValues, addConstraint. simpl.
  rewrite (snoc_at (cnValueStarts c) _ k _ L2 Hk), (snoc_at (cnValueCounts c) _ k _ L3 Hk). case_bool_decide as Hlt.
  - destruct (Hrow k Hlt) as (_ & _ & H1 & H2 & H3). unfold csr. rewrite drop_app_le by lia. apply take_app_le. rewrite length_drop. lia.
  - unfold csr. rewrite !Nat2Z.id, drop_app_length. by apply take_ge.
Qed.

Lemma consInv_add c row field vs : consInv c → 0 ≤ row < Z.of_nat nreq → 1 ≤ field ≤ Z.of_nat nf → vs ≠ [] →
  Forall (λ v, 1 ≤ v ≤ ProgramSymbolCount p) vs → necessary row field vs →
  (∀ k, (k < length (cnRows c))%nat → cnRows c !!! k = row → cnFields c !!! k ≠ field) → consInv (addConstraint c row field vs).
Proof.
  intros Hc Hr Hf Hne Hv Hnec Hnew. pose proof (addConstraint_values c row field vs) as Hvals. pose proof Hc as [(L1 & L2 & L3) Hrow Hon Hsum Hval Hsz Hn].
  assert (length vs ≠ 0)%nat by (by intros ?%length_zero_iff_nil).
  assert (length (cnRows (addConstraint c row field vs)) = S (length (cnRows c))) as El by (simpl; rewrite length_app; simpl; lia).
  assert (∀ k, (k < S (length (cnRows c)))%nat →
    cnRows (addConstraint c row field vs) !!! k = (if bool_decide (k < length (cnRows c))%nat then cnRows c !!! k else row) ∧
    cnFields (addConstraint c row field vs) !!! k = if bool_decide (k < length (cnRows c))%nat then cnFields c !!! k else field) as Hat.
  { intros k Hk. split; by apply snoc_at. }
  split; try rewrite El.
  - simpl. rewrite !length_app. simpl. lia.
  - intros k Hk. destruct (Hat k Hk) as [-> ->]. simpl. rewrite (snoc_at (cnValueStarts c) _ k _ L2 Hk), (snoc_at (cnValueCounts c) _ k _ L3 Hk), length_app.
    case_bool_decide as Hlt; [destruct (Hrow k Hlt) as (? & ? & ? & ? & ?)|]; repeat split; lia.
  - intros i j Hi Hj. destruct (Hat i Hi) as [-> ->], (Hat j Hj) as [-> ->]. do 2 case_bool_decide; intros Ef Er; [by apply Hon| | |lia].
    + by destruct (Hnew i).
    + by destruct (Hnew j).
  - rewrite seq_S, map_app, list_sum_app. simpl. rewrite Hvals, bool_decide_eq_false_2 by (done || lia). rewrite length_app, <-Hsum.
    rewrite Nat.add_0_r. f_equal. f_equal. apply map_ext_in. intros k Hk%in_seq. rewrite Hvals, bool_decide_eq_true_2 by (done || lia). done.
  - by apply Forall_app.
  - simpl. rewrite length_app. lia.
  - intros k Hk. destruct (Hat k Hk) as [-> ->]. rewrite (Hvals k Hc Hk). case_bool_decide as Hlt; [by apply Hn|done].
Qed.

Context (Hroots : Forall (λ root, 1 ≤ root ≤ Z.of_nat n) (RequirementRoots p)).
Context (Hsizes : Z.of_nat nreq ≤ MaxUint32 ∧ Z.of_nat nf < MaxUint32 ∧ Z.of_nat (nreq * leafTotal) ≤ MaxUint32).

(** Constraints of the requirements up to [q], of [q] only on the first [f] fields. *)
Definition emittedTo (q f : nat) (c : Constraints) : Prop :=
  consInv c ∧ ∀ k, (k < length (cnRows c))%nat → cnRows c !!! k ≤ Z.of_nat q ∧ (cnRows c !!! k = Z.of_nat q → cnFields c !!! k ≤ Z.of_nat f).

Lemma total_take_S (l : list Z) k : (k < length l)%nat → total (take (S k) l) = total (take k l) + l !!! k.
Proof. intros Hk. rewrite (take_S_r _ _ (l !!! k)) by (by apply list_lookup_lookup_total_lt). rewrite total_app. unfold total. simpl. lia. Qed.

Lemma emitConstraint_ok st q f c limit : walkInv (Z.to_nat (RequirementRoots p !!! q - 1)) st → (q < nreq)%nat → (f < nf)%nat →
  emittedTo q f c → zlen (cnValues c) + indexFieldValueCount st !!! f ≤ limit → limit ≤ MaxUint32 →
  ∃ c', emitConstraint st q f c = Ok c' ∧ emittedTo q (S f) c' ∧ zlen (cnValues c') ≤ zlen (cnValues c) + indexFieldValueCount st !!! f.
Proof.
  intros Hw Hq Hf [Hc Hlast] Hlim Hmax. destruct (wi_lens _ _ Hw) as (L1 & L2 & L3 & L4). unfold emitConstraint.
  destruct (wi_total _ _ Hw) as [Htot Hu]. pose proof (Forall_lookup_total_1 _ _ f Hu ltac:(lia)) as Hcu. unfold is_u32 in Hcu.
  rewrite (at_total (indexFieldState st)) by lia. rewrite go_bind_Ok, Nat2Z.id.
  destruct (Z.eqb_spec (indexFieldState st !!! f) indexFieldSingle) as [Es|Es]; cbn [negb].
  2:{ exists c. split; [done|]. split; [|lia]. split; [done|]. intros k Hk. destruct (Hlast k Hk) as [? Hle]. split; [done|]. intros E. specialize (Hle E). lia. }
  destruct (wi_single _ _ Hw f Hf Es) as (i & Hcj & Hl & H0 & Ecount & Hend & Evs).
  rewrite (at_total (indexFieldValueStart st)), (at_total (indexFieldValueCount st)) by lia. rewrite !go_bind_Ok, Nat2Z.id, Ecount in *.
  destruct (selectorLeaf_values i _ Hl) as (_ & Hne & _ & _ & Hd). pose proof (leafSymbols_ok i Hd) as Hsy.
  assert (leafSymbols i ≠ []) as Hne' by (unfold leafSymbols; by destruct (leafIDs i)).
  assert (length (leafSymbols i) ≠ 0)%nat by (by intros ?%length_zero_iff_nil). pose proof (ci_size _ Hc).
  rewrite (proj2 (Z.ltb_lt (zlen (cnRows c)) MaxUint32)) by lia. cbn [check]. rewrite go_bind_Ok, u64_small by (unfold is_u64, MaxUint32 in *; lia).
  rewrite (proj2 (Z.leb_le _ MaxUint32)) by lia. cbn [check]. rewrite go_bind_Ok, slice_csr, Evs by lia. rewrite go_bind_Ok.
  rewrite !u32_small by (unfold is_u32, MaxUint32 in *; lia). eexists; split; [done|]. fold (addConstraint c (Z.of_nat q) (Z.of_nat f + 1) (leafSymbols i)).
  split; [|simpl; rewrite length_app; lia]. split.
  - apply consInv_add; try done; [lia|lia| |].
    + exists i. by rewrite Nat2Z.id.
    + intros k Hk Er Ef. destruct (Hlast k Hk) as [_ Hle]. specialize (Hle Er). lia.
  - simpl. rewrite length_app. simpl. intros k Hk. destruct (ci_lens _ Hc) as (F1 & _).
    rewrite (snoc_at (cnRows c) _ k _ eq_refl ltac:(lia)), (snoc_at (cnFields c) _ k _ F1 ltac:(lia)). case_bool_decide as Hlt; [|lia].
    destruct (Hlast k Hlt) as [? Hle]. split; [done|]. intros E. specialize (Hle E). lia.
Qed.

Lemma extractRequirement_ok q c : (q < nreq)%nat → consInv c → (∀ k, (k < length (cnRows c))%nat → cnRows c !!! k < Z.of_nat q) →
  zlen (cnValues c) ≤ Z.of_nat (q * leafTotal) →
  ∃ c', extractRequirement p q c = Ok c' ∧ consInv c' ∧ (∀ k, (k < length (cnRows c'))%nat → cnRows c' !!! k < Z.of_nat (S q)) ∧
    zlen (cnValues c') ≤ Z.of_nat (S q * leafTotal).
Proof.
  intros Hq Hc Hlt Hsz. unfold extractRequirement. rewrite (at_total (RequirementRoots p)) by lia. rewrite go_bind_Ok, Nat2Z.id.
  pose proof (Forall_lookup_total_1 _ _ q Hroots Hq) as Hr. cbv beta in Hr.
  destruct (selectors_ok _ Hr) as (st & -> & Hw). cbn [default from_option id]. rewrite go_bind_Ok.
  destruct (wi_lens _ _ Hw) as (L1 & L2 & L3 & L4). destruct (wi_total _ _ Hw) as [Htot Hu]. pose proof (wi_size _ _ Hw) as Hws.
  assert (Z.of_nat (S q * leafTotal) ≤ MaxUint32) as Hmax by (destruct Hsizes as (_ & _ & ?); nia).
  for_loop (λ f c', emittedTo q f c' ∧ zlen (cnValues c') ≤ zlen (cnValues c) + total (take f (indexFieldValueCount st))) as (c' & -> & [Hc' Hlast] & Hv).
  - split; [split; [done|]|unfold total; simpl; lia]. intros k Hk. specialize (Hlt k Hk). lia.
  - intros f c' Hf [He Hv]. pose proof (total_take _ (S f) Hu) as Ht. rewrite total_take_S in Ht by lia.
    destruct (emitConstraint_ok st q f c' (zlen (cnValues c) + Z.of_nat leafTotal) Hw Hq ltac:(lia) He ltac:(lia) ltac:(lia)) as (c'' & -> & He' & Hv').
    eexists; split; [done|]. split; [done|]. rewrite total_take_S by lia. lia.
  - rewrite take_ge in Hv by lia. exists c'. split; [done|]. split; [done|]. split; [intros k Hk; destruct (Hlast k Hk); lia|]. lia.
Qed.

Lemma noConstraints_ok : consInv noConstraints.
Proof. split; simpl; try done; intros; lia. Qed.

(** Extraction succeeds on a validated program; its constraints are necessary
    conditions that the index builder accepts. *)
Lemma extract_ok : validateApplicabilityProgram p = Ok tt → ∃ c, extractApplicabilityConstraints p = Ok c ∧ consInv c ∧ zlen (cnValues c) ≤ MaxUint32.
Proof.
  intros Hval. unfold extractApplicabilityConstraints. rewrite Hval, go_bind_Ok.
  for_loop (λ q c, consInv c ∧ (∀ k, (k < length (cnRows c))%nat → cnRows c !!! k < Z.of_nat q) ∧ zlen (cnValues c) ≤ Z.of_nat (q * leafTotal)) as (c & -> & Hc & _ & Hv).
  - split; [apply noConstraints_ok|]. simpl. split; [intros; lia|lia].
  - intros q c Hq (Hc & Hlt & Hv). by apply extractRequirement_ok.
  - exists c. split; [done|]. split; [done|]. lia.
Qed.

Lemma consInv_valid c : consInv c → zlen (cnValues c) ≤ MaxUint32 →
  constraints_typed (Z.of_nat nreq) c ∧ validateConstraints (Z.of_nat nreq) c = Ok tt ∧ constraints_apart c.
Proof.
  intros [(L1 & L2 & L3) Hrow Hon Hsum Hval Hsz Hn] Hmax. destruct Hsizes as (S1 & S2 & _). unfold MaxUint32, is_u32 in *.
  assert (∀ l, length l = length (cnRows c) → (∀ k, (k < length (cnRows c))%nat → is_u32 (l !!! k)) → Forall is_u32 l) as Hall.
  { intros l Hl Hk. apply Forall_lookup. intros i x Hi. pose proof (lookup_lt_Some _ _ _ Hi). apply list_lookup_total_correct in Hi as <-. apply Hk. lia. }
  split; [|split].
  - split; try (apply Hall; [done|]; intros k Hk; destruct (Hrow k Hk) as (? & ? & ? & ? & ?)); unfold is_u32 in *; try lia.
    eapply Forall_impl; [exact Hval|]. intros v ?. simpl in *. lia.
  - unfold validateConstraints. rewrite bool_decide_eq_true_2 by done. cbn [check]. rewrite go_bind_Ok.
    rewrite (proj2 (Z.ltb_ge MaxUint32 _)), (proj2 (Z.ltb_ge MaxUint32 _)), (proj2 (Z.ltb_ge MaxInt _)) by (unfold MaxUint32, MaxInt in *; lia).
    cbn [orb negb check]. rewrite go_bind_Ok. rewrite (proj2 (forallb_forall _ _)); [done|]. intros k Hk%in_seq.
    destruct (Hrow k ltac:(lia)) as (? & ? & ? & ? & ?). unfold validConstraint. rewrite u64_small by (unfold is_u64; lia).
    rewrite (proj2 (Z.leb_gt (Z.of_nat nreq) _)), (proj2 (Z.eqb_neq (cnFields c !!! k) 0)), (proj2 (Z.eqb_neq (cnValueCounts c !!! k) 0)) by lia.
    rewrite (proj2 (Z.ltb_ge (zlen (cnValues c)) _)) by lia. cbn [orb negb andb]. apply forallb_forall. intros v Hv%list_elem_of_In%csr_elem.
    rewrite Forall_forall in Hval. specialize (Hval v Hv). apply negb_true_iff, Z.eqb_neq. lia.
  - split; [done|]. by rewrite Hsum.
Qed.
End meaning.
