(* ===== verification/FactLower.v ===== *)
(** * The field schema and the fact bitmap plan
    [BuildSchema] of index/schema.go numbers the fields of each kind, and
    [lowerFactIndexSpec] of compile/index.go lists, for every symbol field that the
    schedule compares often enough, the symbols it is compared with.  The plan
    passes its own validation, and every comparison of a listed field is answered by
    it. *)

From stdpp Require Import sorting.
From S2P Require Import Prelude Store Truth Schema Result Program Batch Predicate Simd FactIndex Evidence Executor PolicyIndex PolicyBuild Finalize Execute.
From S2P Require Import Liveness Schedule IndexLower.
#[local] Open Scope Z_scope.

(** ** Field schema *)

Definition countKind (kind : Z) (l : list Z) : nat := length (filter (λ x, x = kind) l).

Lemma countKind_snoc kind l x : countKind kind (l ++ [x]) = (countKind kind l + if bool_decide (x = kind) then 1 else 0)%nat.
Proof.
  unfold countKind. rewrite filter_app, length_app. f_equal. case_bool_decide as E.
  - by rewrite filter_cons_True.
  - by rewrite filter_cons_False.
Qed.

Lemma countKind_le kind l : (countKind kind l ≤ length l)%nat.
Proof. apply length_filter. Qed.

(** The table of counts after some fields. *)
Definition counted (pre counts : list Z) : Prop := length counts = 6%nat ∧ ∀ k, 0 ≤ k < 6 → counts !!! Z.to_nat k = Z.of_nat (countKind k pre).

Lemma counted_0 : counted [] (make_ 6).
Proof. split; [done|]. intros k Hk. unfold make_, countKind. simpl. assert (k = 0 ∨ k = 1 ∨ k = 2 ∨ k = 3 ∨ k = 4 ∨ k = 5) as H by lia. by repeat destruct H as [->|H]; [..|subst]. Qed.

Lemma counted_step pre counts kind : counted pre counts → 1 ≤ kind ≤ 5 → Z.of_nat (length pre) < MaxUint32 →
  counted (pre ++ [kind]) (<[Z.to_nat kind := u32 (counts !!! Z.to_nat kind + 1)]> counts).
Proof.
  intros [Hl Hc] Hk Hlen. split; [by rewrite length_insert|]. intros k Hk6. rewrite countKind_snoc. case_bool_decide as E.
  - subst. rewrite list_lookup_total_insert_eq, Hc by lia. pose proof (countKind_le k pre). rewrite u32_small by (unfold is_u32, MaxUint32 in *; lia). lia.
  - rewrite list_lookup_total_insert_ne, Hc by lia. lia.
Qed.

Record schema_built (kinds : list Z) (s : IndexSchema) : Prop := {
  sb_kinds : sKinds s = kinds;
  sb_columns : length (sColumns s) = length kinds;
  sb_counts : counted kinds (sCounts s);
  sb_column i : (i < length kinds)%nat → sColumns s !!! i = Z.of_nat (countKind (kinds !!! i) (take i kinds))
}.

Lemma BuildSchema_ok kinds : Forall (λ k, KindValid k = true) kinds → zlen kinds ≤ MaxUint32 → ∃ s, BuildSchema kinds = Ok s ∧ schema_built kinds s.
Proof.
  intros Hk Hlen. assert (∀ k, k ∈ kinds → 1 ≤ k ≤ 5) as Hrange.
  { intros k Hin. rewrite Forall_forall in Hk. specialize (Hk k Hin). unfold KindValid, ValueKindSymbol, ValueKindPresence in Hk. lia. }
  unfold BuildSchema. rewrite (proj2 (Z.leb_le _ _)) by done. cbn [check]. rewrite go_bind_Ok.
  fold_loop (λ pre counts, counted pre counts) as (counts & -> & Hc); [apply counted_0| |].
  { intros pre kind post counts E Hc. pose proof (Hrange kind ltac:(rewrite E; set_solver)) as Hr.
    rewrite Forall_forall in Hk. rewrite (Hk kind) by (rewrite E; set_solver). cbn [check]. rewrite go_bind_Ok.
    rewrite (at_total counts) by (destruct Hc; lia). rewrite go_bind_Ok. eexists; split; [done|]. apply counted_step; [done|done|].
    rewrite E, length_app in Hlen. simpl in Hlen. lia. }
  rewrite go_bind_Ok.
  fold_loop (λ pre st, counted pre st.2 ∧ length st.1 = length pre ∧ ∀ i, (i < length pre)%nat → st.1 !!! i = Z.of_nat (countKind (kinds !!! i) (take i kinds)))
    as ([columns next] & -> & _ & Hcl & Hcol).
  { split; [apply counted_0|]. split; [done|]. simpl. intros; lia. }
  { intros pre kind post [columns next] E (Hn & Hl & Hcol). pose proof (Hrange kind ltac:(rewrite E; set_solver)) as Hr.
    rewrite (at_total next) by (destruct Hn; simpl in *; lia). rewrite go_bind_Ok. eexists; split; [done|]. simpl in *. rewrite !length_app. simpl.
    split; [apply counted_step; [done|done|rewrite E, length_app in Hlen; simpl in Hlen; lia]|]. split; [lia|]. intros i Hi.
    destruct (decide (i < length pre)%nat) as [Hlt|].
    - rewrite lookup_total_app_l by lia. by apply Hcol.
    - replace i with (length pre) by lia. rewrite <-Hl at 1. rewrite lookup_total_app_r by lia. rewrite Nat.sub_diag. simpl.
      rewrite E, lookup_total_app_r, Nat.sub_diag, take_app_length by lia. simpl. by apply Hn; lia. }
  rewrite go_bind_Ok. eexists; split; [done|]. by split.
Qed.

Section schema.
Context (kinds : list Z) (s : IndexSchema) (Hs : schema_built kinds s) (Hk : Forall (λ k, KindValid k = true) kinds).

(** Columns of one kind are numbered in field order below their count. *)
Lemma schema_column i : (i < length kinds)%nat → 0 ≤ sColumns s !!! i < sCounts s !!! Z.to_nat (kinds !!! i).
Proof.
  intros Hi. pose proof (Forall_lookup_total_1 _ _ i Hk Hi) as Hv. unfold KindValid, ValueKindSymbol, ValueKindPresence in Hv.
  rewrite (sb_column _ _ Hs), (proj2 (sb_counts _ _ Hs)) by lia. split; [lia|].
  rewrite <-(take_drop_middle kinds i (kinds !!! i)) at 4 by (by apply list_lookup_lookup_total_lt).
  unfold countKind. rewrite filter_app, length_app, filter_cons_True by done. simpl. lia.
Qed.

Lemma schema_column_mono i j : (i < j)%nat → (j < length kinds)%nat → kinds !!! i = kinds !!! j → sColumns s !!! i < sColumns s !!! j.
Proof.
  intros Hij Hj E. rewrite !(sb_column _ _ Hs), <-E by lia.
  rewrite <-(take_drop i (take j kinds)), take_take, Nat.min_l by lia.
  rewrite (drop_S _ (kinds !!! i)) by (rewrite lookup_take_lt by lia; apply list_lookup_lookup_total_lt; lia).
  unfold countKind. rewrite filter_app, length_app, filter_cons_True by done. simpl. lia.
Qed.

Lemma schema_lookup field : 1 ≤ field ≤ zlen kinds → SchemaLookup s field = Some (kinds !!! Z.to_nat (field - 1), sColumns s !!! Z.to_nat (field - 1)).
Proof.
  intros Hf. unfold SchemaLookup. rewrite (sb_kinds _ _ Hs), (sb_columns _ _ Hs), (proj2 (Z.eqb_neq field 0)), (proj2 (Z.leb_gt _ _)) by lia. done.
Qed.

Lemma schema_typed_ok : zlen kinds ≤ MaxUint32 → schema_typed s.
Proof.
  intros Hlen. destruct (sb_counts _ _ Hs) as [Hl Hc]. split; [done| |rewrite (sb_kinds _ _ Hs); unfold MaxUint32 in *; lia].
  apply Forall_lookup. intros i x Hx. pose proof (lookup_lt_Some _ _ _ Hx). apply list_lookup_total_correct in Hx as <-.
  specialize (Hc (Z.of_nat i) ltac:(lia)). rewrite Nat2Z.id in Hc. rewrite Hc. pose proof (countKind_le (Z.of_nat i) kinds). unfold is_u32, MaxUint32 in *. lia.
Qed.

Lemma schema_columns_u32 : zlen kinds ≤ MaxUint32 → Forall is_u32 (sColumns s).
Proof.
  intros Hlen. apply Forall_lookup. intros i x Hx. pose proof (lookup_lt_Some _ _ _ Hx) as Hi. rewrite (sb_columns _ _ Hs) in Hi.
  apply list_lookup_total_correct in Hx as <-. rewrite (sb_column _ _ Hs) by done. pose proof (countKind_le (kinds !!! i) (take i kinds)) as Hc.
  rewrite length_take in Hc. unfold is_u32, MaxUint32 in *. lia.
Qed.
End schema.

(** ** Uses of symbol fields *)

Section facts.
Context (p : Program).
Local Abbreviation n := (length (Opcodes p)).
Local Abbreviation nf := (length (FieldKinds p)).

(** The values row [i] compares its field with, and their symbols. *)
Definition factIDs (i : nat) : list Z := if Opcodes p !!! i =? OpcodeIn then inLiterals p i else [Values p !!! i].
Definition factSymbols (i : nat) : list Z := map (λ v, symbol (valueOf p v ValueKindSymbol)) (factIDs i).

(** Row [i] compares symbol field [field]. *)
Definition comparesSymbol (i : nat) (field : Z) : bool :=
  comparesValues (Opcodes p !!! i) && (Fields p !!! i =? field) && (FieldKinds p !!! Z.to_nat (field - 1) =? ValueKindSymbol).

Lemma comparesSymbol_inj i f g : comparesSymbol i f = true → comparesSymbol i g = true → f = g.
Proof. unfold comparesSymbol. rewrite !andb_true_iff, !Z.eqb_eq. intros [[_ <-] _] [[_ <-] _]. done. Qed.

(** All symbols the rows below [m] compare [field] with. *)
Definition gathered : Z → nat → list Z := keyed comparesSymbol factSymbols.

(** What the checks of compiled instructions give for the comparing rows. *)
Record facts_ok : Prop := {
  fk_lens : length (Fields p) = n ∧ length (Values p) = n ∧ length (ListStarts p) = n ∧ length (ListCounts p) = n;
  fk_lists i : (i < n)%nat → Opcodes p !!! i = OpcodeIn → 0 ≤ ListStarts p !!! i ∧ 0 ≤ ListCounts p !!! i ∧
    ListStarts p !!! i + ListCounts p !!! i ≤ zlen (ListValues p);
  fk_fields i : (i < n)%nat → comparesValues (Opcodes p !!! i) = true → 1 ≤ Fields p !!! i ≤ Z.of_nat nf;
  fk_symbols i v : (i < n)%nat → comparesSymbol i (Fields p !!! i) = true → v ∈ factIDs i →
    selectorSymbol p v = Ok (symbol (valueOf p v ValueKindSymbol)) ∧ 1 ≤ symbol (valueOf p v ValueKindSymbol) ≤ ProgramSymbolCount p;
  fk_count : is_u32 (ProgramSymbolCount p);
  fk_fit : Z.of_nat (list_sum (map (λ i, length (factIDs i)) (seq 0 n))) ≤ MaxUint32 ∧ Z.of_nat nf < MaxUint32
}.

Context (Hok : facts_ok).

Lemma length_factSymbols i : length (factSymbols i) = length (factIDs i).
Proof. apply length_map. Qed.

Lemma factValues_ok i : (i < n)%nat → factValues p (Z.of_nat i) (Opcodes p !!! i) = Ok (factIDs i).
Proof.
  intros Hi. destruct (fk_lens Hok) as (L1 & L2 & L3 & L4). unfold factValues, factIDs. destruct (Z.eqb_spec (Opcodes p !!! i) OpcodeIn) as [E|E].
  - destruct (fk_lists Hok i Hi E) as (? & ? & ?). rewrite (at_total (ListStarts p)), (at_total (ListCounts p)) by lia.
    by rewrite !go_bind_Ok, Nat2Z.id, slice_csr by lia.
  - rewrite (at_total (Values p)) by lia. by rewrite go_bind_Ok, Nat2Z.id.
Qed.

(** A field is used at most as often as all rows compare values. *)
Lemma gathered_fits field m : (m ≤ n)%nat → Z.of_nat (length (gathered field m)) ≤ MaxUint32.
Proof.
  intros Hm. pose proof (keyed_sum comparesSymbol factSymbols [field] m comparesSymbol_inj ltac:(apply NoDup_singleton)) as Hs. simpl in Hs.
  destruct (fk_fit Hok) as [Hf _]. unfold gathered.
  assert (list_sum (map (λ k, length (factSymbols k)) (seq 0 m)) ≤ list_sum (map (λ i, length (factIDs i)) (seq 0 n)))%nat; [|lia].
  rewrite (map_ext _ (λ i, length (factIDs i))) by apply length_factSymbols.
  replace n with (m + (n - m))%nat by lia. rewrite seq_app, map_app, list_sum_app. lia.
Qed.

Lemma gathered_mono field m m' : (m ≤ m')%nat → (length (gathered field m) ≤ length (gathered field m'))%nat.
Proof. induction 1 as [|m' _ IH]; [done|]. unfold gathered in *. rewrite keyed_S, length_app. lia. Qed.

Definition usesInv (m : nat) (counts : list Z) : Prop :=
  length counts = nf ∧ ∀ f, (f < nf)%nat → counts !!! f = Z.of_nat (length (gathered (Z.of_nat f + 1) m)).

Lemma countUse_ok i counts : (i < n)%nat → usesInv i counts → ∃ counts', countUse p i counts = Ok counts' ∧ usesInv (S i) counts'.
Proof.
  intros Hi [Hl Hc]. destruct (fk_lens Hok) as (L1 & L2 & L3 & L4). unfold countUse. rewrite (at_total (Opcodes p)) by lia. rewrite go_bind_Ok, Nat2Z.id.
  assert (∀ counts', length counts' = nf → (∀ f, (f < nf)%nat → counts' !!! f = counts !!! f + if comparesSymbol i (Z.of_nat f + 1) then zlen (factIDs i) else 0) →
    usesInv (S i) counts') as Hstep.
  { intros counts' Hl' Hc'. split; [done|]. intros f Hf. rewrite Hc', Hc by done. unfold gathered. rewrite keyed_S, length_app.
    destruct (comparesSymbol i (Z.of_nat f + 1)); [rewrite length_factSymbols|simpl]; lia. }
  destruct (comparesValues (Opcodes p !!! i)) eqn:Ecv; cbn [negb].
  2:{ exists counts. split; [done|]. apply Hstep; [done|]. intros f _. unfold comparesSymbol. rewrite Ecv. simpl. lia. }
  pose proof (fk_fields Hok i Hi Ecv) as Hf.
  assert ((if Opcodes p !!! i =? OpcodeIn then at_ (ListCounts p) (Z.of_nat i) else Ok 1) = Ok (zlen (factIDs i))) as ->.
  { unfold factIDs. destruct (Z.eqb_spec (Opcodes p !!! i) OpcodeIn) as [E|E]; [|done]. destruct (fk_lists Hok i Hi E) as (? & ? & ?).
    rewrite (at_total (ListCounts p)) by lia. rewrite Nat2Z.id. unfold inLiterals. rewrite length_csr by lia. f_equal. lia. }
  rewrite go_bind_Ok, (at_total (Fields p)) by lia. rewrite go_bind_Ok, Nat2Z.id.
  rewrite (proj2 (Z.eqb_neq (Fields p !!! i) 0)), (proj2 (Z.ltb_ge _ _)) by lia. cbn [orb negb check]. rewrite go_bind_Ok.
  rewrite (at_total (FieldKinds p)) by lia. rewrite go_bind_Ok.
  destruct (Z.eqb_spec (FieldKinds p !!! Z.to_nat (Fields p !!! i - 1)) ValueKindSymbol) as [Ek|Ek]; cbn [negb].
  2:{ exists counts. split; [done|]. apply Hstep; [done|]. intros f _. unfold comparesSymbol. destruct (Z.eqb_spec (Fields p !!! i) (Z.of_nat f + 1)) as [E|]; [|rewrite andb_false_r; simpl; lia].
      rewrite E in Ek. rewrite (proj2 (Z.eqb_neq _ _) Ek), andb_false_r. lia. }
  assert (comparesSymbol i (Fields p !!! i) = true) as Hcs by (unfold comparesSymbol; rewrite Ecv, Z.eqb_refl; simpl; by apply Z.eqb_eq).
  rewrite factValues_ok, go_bind_Ok by done.
  rewrite (map_go_Ok _ (λ v, symbol (valueOf p v ValueKindSymbol))) by (intros v Hv; by apply (fk_symbols Hok i v)). rewrite go_bind_Ok.
  set (f := Z.to_nat (Fields p !!! i - 1)) in *. assert (Fields p !!! i = Z.of_nat f + 1) as Ef by lia.
  rewrite (at_total counts) by lia. rewrite go_bind_Ok. fold f.
  pose proof (gathered_fits (Z.of_nat f + 1) (S i) ltac:(lia)) as Hfit. unfold gathered in Hfit. rewrite keyed_S, <-Ef, Hcs, length_app, length_factSymbols in Hfit.
  rewrite Hc by lia. unfold gathered. rewrite <-Ef. rewrite (proj2 (Z.ltb_ge _ _)) by lia. cbn [negb check]. rewrite go_bind_Ok, put_Ok by lia. fold f.
  eexists; split; [done|]. apply Hstep; [by rewrite length_insert|]. intros g Hg. destruct (decide (g = f)) as [->|Hne].
  - rewrite list_lookup_total_insert_eq, Hc, <-Ef, Hcs by lia. done.
  - rewrite list_lookup_total_insert_ne by done. destruct (comparesSymbol i (Z.of_nat g + 1)) eqn:E; [|lia].
    pose proof (comparesSymbol_inj _ _ _ Hcs E). lia.
Qed.

Lemma countUses_ok : ∃ counts, for_range n (countUse p) (make_ (zlen (FieldKinds p))) = Ok counts ∧ usesInv n counts.
Proof.
  for_loop (λ i counts, usesInv i counts) as (counts & -> & Hinv); [| |by eexists].
  - unfold make_. rewrite Nat2Z.id. split; [apply length_replicate|]. intros f Hf. by rewrite lookup_total_replicate_2.
  - intros i counts Hi Hinv. by apply countUse_ok.
Qed.

(** ** The layout of the specification *)

(** The symbols of a field over the whole schedule; often used fields below [m]. *)
Definition fieldSymbols (field : Z) : list Z := gathered field n.
Definition often (f : nat) : bool := usedOften (zlen (fieldSymbols (Z.of_nat f + 1))).
Definition listedFields (m : nat) : list Z := map (λ f, Z.of_nat f + 1) (List.filter often (seq 0 m)).

Lemma listedFields_S m : listedFields (S m) = listedFields m ++ (if often m then [Z.of_nat m + 1] else []).
Proof. unfold listedFields. rewrite seq_S, List.filter_app, map_app. simpl. by destruct (often m). Qed.

Lemma listedFields_in m x : x ∈ listedFields m ↔ ∃ f, (f < m)%nat ∧ often f = true ∧ x = Z.of_nat f + 1.
Proof.
  unfold listedFields. rewrite list_elem_of_In, in_map_iff. split.
  - intros (f & <- & [?%in_seq ?]%List.filter_In). exists f. split; [lia|done].
  - intros (f & Hf & Ho & ->). exists f. split; [done|]. rewrite List.filter_In, in_seq. split; [lia|done].
Qed.

Lemma listedFields_increasing m : increasing (listedFields m).
Proof.
  induction m as [|m IH]; [intros i j _ Hj; simpl in Hj; lia|]. rewrite listedFields_S. destruct (often m); [|by rewrite app_nil_r].
  apply increasing_snoc; [done|]. intros x (f & Hf & _ & ->)%listedFields_in. lia.
Qed.

Local Abbreviation raw := (layout fieldSymbols).

(** Where the values of field offset [f] start. *)
Definition startAt (f : nat) : nat := length (raw (listedFields f)).

Lemma startAt_mono f m : (f ≤ m)%nat → (startAt f ≤ startAt m)%nat.
Proof. induction 1 as [|m _ IH]; [done|]. unfold startAt in *. rewrite listedFields_S, layout_app, length_app. lia. Qed.

Lemma startAt_S f : often f = true → startAt (S f) = (startAt f + length (fieldSymbols (Z.of_nat f + 1)))%nat.
Proof. intros Ho. unfold startAt. rewrite listedFields_S, Ho, layout_app, length_app. f_equal. unfold layout. simpl. by rewrite app_nil_r. Qed.

Lemma startAt_next f g : (f < g)%nat → often f = true → (startAt f + length (fieldSymbols (Z.of_nat f + 1)) ≤ startAt g)%nat.
Proof. intros Hlt Ho. rewrite <-startAt_S by done. by apply startAt_mono. Qed.

Lemma startAt_fits m : Z.of_nat (startAt m) ≤ MaxUint32.
Proof.
  unfold startAt. pose proof (keyed_sum comparesSymbol factSymbols (listedFields m) n comparesSymbol_inj (increasing_NoDup _ (listedFields_increasing m))) as Hs.
  destruct (fk_fit Hok) as [Hf _]. rewrite (map_ext (λ k, length (factSymbols k)) (λ i, length (factIDs i))) in Hs by apply length_factSymbols.
  assert (length (layout fieldSymbols (listedFields m)) = list_sum (map (λ f, length (keyed comparesSymbol factSymbols f n)) (listedFields m))) as ->; [|lia].
  unfold layout. generalize (listedFields m) as l. induction l as [|x l IH]; [done|]. simpl. by rewrite length_app, IH.
Qed.

Context (uses : list Z) (Huses : usesInv n uses).

Lemma uses_at f : (f < nf)%nat → uses !!! f = zlen (fieldSymbols (Z.of_nat f + 1)).
Proof. apply Huses. Qed.

Lemma totalValues_ok : foldl (λ t u, if usedOften u then u64 (t + u) else t) 0 uses = Z.of_nat (startAt nf).
Proof.
  assert (∀ m, (m ≤ nf)%nat → foldl (λ t u, if usedOften u then u64 (t + u) else t) 0 (take m uses) = Z.of_nat (startAt m)) as H.
  { destruct Huses as [Hl _]. induction m as [|m IH]; intros Hm; [done|].
    rewrite (take_S_r _ _ (uses !!! m)) by (apply list_lookup_lookup_total_lt; lia). rewrite foldl_app, IH by lia. simpl.
    rewrite uses_at by lia. fold (often m). destruct (often m) eqn:Ho; [|unfold startAt; by rewrite listedFields_S, Ho, app_nil_r].
    pose proof (startAt_fits (S m)) as Hf. rewrite (startAt_S m Ho) in *. rewrite u64_small by (unfold is_u64, MaxUint32 in *; lia). lia. }
  specialize (H nf ltac:(lia)). destruct Huses as [Hl _]. by rewrite take_ge in H by lia.
Qed.

Context (schema : IndexSchema) (Hschema : schema_built (FieldKinds p) schema) (Hkinds : Forall (λ k, KindValid k = true) (FieldKinds p)).

Definition columnOf (field : Z) : Z := sColumns schema !!! Z.to_nat (field - 1).

Record layoutInv (m : nat) (l : specLayout) : Prop := {
  li_fields : slFields l = listedFields m;
  li_columns : slColumns l = map columnOf (listedFields m);
  li_starts : slStarts l = startsOf fieldSymbols (listedFields m);
  li_counts : slCounts l = countsOf fieldSymbols (listedFields m) ∧ slUses l = countsOf fieldSymbols (listedFields m);
  li_next : slNext l = Z.of_nat (startAt m);
  li_fill : length (factValueFill l) = nf ∧ ∀ f, (f < m)%nat → often f = true → factValueFill l !!! f = Z.of_nat (startAt f)
}.

(** A field that is used often is a symbol field. *)
Lemma often_symbol f : often f = true → FieldKinds p !!! f = ValueKindSymbol.
Proof.
  unfold often, usedOften, factIndexMinUses. intros Hu%Z.leb_le. destruct (fieldSymbols (Z.of_nat f + 1)) as [|v l] eqn:E; [simpl in Hu; lia|].
  assert (v ∈ fieldSymbols (Z.of_nat f + 1)) as Hin by (rewrite E; set_solver). apply keyed_in in Hin as (k & _ & Hc & _).
  unfold comparesSymbol in Hc. rewrite !andb_true_iff, !Z.eqb_eq in Hc. destruct Hc as [_ <-]. f_equal. lia.
Qed.

Lemma startsOf_snoc seg fs f : startsOf seg (fs ++ [f]) = startsOf seg fs ++ [zlen (layout seg fs)].
Proof.
  unfold startsOf. rewrite length_app, seq_app, map_app. simpl. f_equal.
  - apply map_ext_in. intros i Hin%in_seq. by rewrite take_app_le by lia.
  - by rewrite take_app_length.
Qed.

Lemma layoutField_ok m l : (m < nf)%nat → layoutInv m l → ∃ l', layoutField schema uses m l = Ok l' ∧ layoutInv (S m) l'.
Proof.
  intros Hm [H1 H2 H3 [H4 H5] H6 [H7 H8]]. destruct Huses as [Hul _]. destruct (fk_fit Hok) as [_ Hnf]. unfold layoutField.
  rewrite (at_total uses) by lia. rewrite go_bind_Ok, Nat2Z.id, uses_at by done. fold (often m).
  destruct (often m) eqn:Ho; cbn [negb].
  2:{ exists l. split; [done|]. pose proof (listedFields_S m) as E. rewrite Ho, app_nil_r in E. split; rewrite ?E; try done.
      - unfold startAt. by rewrite E.
      - split; [done|]. intros f Hf Hof. apply H8; [|done]. destruct (decide (f = m)) as [->|]; [congruence|lia]. }
  rewrite u32_small by (unfold is_u32, MaxUint32 in *; lia). rewrite (schema_lookup _ _ Hschema) by lia. cbn [orErr]. rewrite go_bind_Ok.
  replace (Z.to_nat (Z.of_nat m + 1 - 1)) with m by lia. rewrite (often_symbol m Ho). cbn [check]. change (ValueKindSymbol =? ValueKindSymbol) with true.
  cbn [check]. rewrite go_bind_Ok, put_Ok, go_bind_Ok, Nat2Z.id by lia. pose proof (startAt_fits (S m)) as Hfit. rewrite (startAt_S m Ho) in Hfit.
  eexists; split; [done|]. pose proof (listedFields_S m) as E. rewrite Ho in E. split; simpl; rewrite ?E.
  - by rewrite H1.
  - rewrite H2, map_app. simpl. unfold columnOf at 3. by replace (Z.to_nat (Z.of_nat m + 1 - 1)) with m by lia.
  - rewrite H3, H6, startsOf_snoc. done.
  - rewrite H4, H5. unfold countsOf. by rewrite !map_app.
  - rewrite H6, (startAt_S m Ho). rewrite u32_small by (unfold is_u32, MaxUint32 in *; lia). lia.
  - rewrite length_insert. split; [done|]. intros f Hf Hof. destruct (decide (f = m)) as [->|].
    + rewrite list_lookup_total_insert_eq by lia. done.
    + rewrite list_lookup_total_insert_ne by done. apply H8; [lia|done].
Qed.

Lemma layout_ok : ∃ l, for_range (length uses) (layoutField schema uses) (noLayout p) = Ok l ∧ layoutInv nf l.
Proof.
  destruct Huses as [Hul _]. rewrite Hul. for_loop layoutInv as (l & -> & Hl); [| |by eexists].
  - split; try done. split; [unfold noLayout, make_; simpl; rewrite length_replicate; lia|intros; lia].
  - intros m l Hm Hl. by apply layoutField_ok.
Qed.

(** ** The values before they are compacted *)

(** [part f] are the symbols written for field offset [f] so far. *)
Record filled (part : nat → list Z) (st : list Z * list Z) : Prop := {
  fl_lens : length st.1 = nf ∧ length st.2 = startAt nf;
  fl_next f : (f < nf)%nat → often f = true → st.1 !!! f = Z.of_nat (startAt f + length (part f));
  fl_values f j : (f < nf)%nat → often f = true → (j < length (part f))%nat → st.2 !!! (startAt f + j)%nat = part f !!! j
}.

Definition extend (part : nat → list Z) (f : nat) (l : list Z) : nat → list Z := λ g, if decide (g = f) then part g ++ l else part g.

Lemma filled_ext part part' st : (∀ f, (f < nf)%nat → often f = true → part f = part' f) → filled part st → filled part' st.
Proof.
  intros E [H1 H2 H3]. split; [done| |].
  - intros f Hf Ho. rewrite <-E by done. by apply H2.
  - intros f j Hf Ho Hj. rewrite <-E in * by done. by apply H3.
Qed.

(** One more symbol of field offset [f]. *)
Lemma fill_step part fill vs f x :
  (f < nf)%nat → often f = true → (∀ g, (length (part g) ≤ length (fieldSymbols (Z.of_nat g + 1)))%nat) →
  (length (part f) < length (fieldSymbols (Z.of_nat f + 1)))%nat → filled part (fill, vs) →
  (startAt f + length (part f) < length vs)%nat ∧
  filled (extend part f [x]) (<[f := Z.of_nat (startAt f + S (length (part f)))]> fill, <[(startAt f + length (part f))%nat := x]> vs).
Proof.
  intros Hf Ho Hall Hlt [[H1 H2] H3 H4]. simpl in *. pose proof (startAt_next f nf Hf Ho) as Hnext. split; [lia|]. unfold extend.
  split; simpl; rewrite ?length_insert; [done| |].
  - intros g Hg Hog. destruct (decide (g = f)) as [->|].
    + rewrite list_lookup_total_insert_eq by lia. rewrite length_app. simpl. lia.
    + rewrite list_lookup_total_insert_ne by done. by apply H3.
  - intros g j Hg Hog Hj. destruct (decide (g = f)) as [->|Hne].
    + rewrite length_app in Hj. simpl in Hj. destruct (decide (j = length (part f))) as [->|].
      * rewrite list_lookup_total_insert_eq by lia. by rewrite lookup_total_app_r, Nat.sub_diag by lia.
      * rewrite list_lookup_total_insert_ne by lia. rewrite H4, lookup_total_app_l by (done || lia). done.
    + pose proof (Hall g). rewrite list_lookup_total_insert_ne; [by apply H4|].
      destruct (decide (g < f)%nat); [pose proof (startAt_next g f ltac:(lia) Hog)|pose proof (startAt_next f g ltac:(lia) Ho)]; lia.
Qed.

Lemma fillRow_ok i st : (i < n)%nat → filled (λ f, gathered (Z.of_nat f + 1) i) st →
  ∃ st', fillRow p uses i st = Ok st' ∧ filled (λ f, gathered (Z.of_nat f + 1) (S i)) st'.
Proof.
  intros Hi Hfill. destruct (fk_lens Hok) as (L1 & L2 & L3 & L4). destruct Huses as [Hul _]. unfold fillRow.
  rewrite (at_total (Opcodes p)) by lia. rewrite go_bind_Ok, Nat2Z.id.
  assert ((∀ f, (f < nf)%nat → often f = true → comparesSymbol i (Z.of_nat f + 1) = false) → filled (λ f, gathered (Z.of_nat f + 1) (S i)) st) as Hskip.
  { intros Hno. refine (filled_ext _ _ _ _ Hfill). intros f Hf Ho. unfold gathered. by rewrite keyed_S, Hno, app_nil_r by done. }
  destruct (comparesValues (Opcodes p !!! i)) eqn:Ecv; cbn [negb].
  2:{ exists st. split; [done|]. apply Hskip. intros f _ _. unfold comparesSymbol. by rewrite Ecv. }
  pose proof (fk_fields Hok i Hi Ecv) as Hf. rewrite (at_total (Fields p)) by lia. rewrite go_bind_Ok, Nat2Z.id, (at_total uses) by lia. rewrite go_bind_Ok.
  set (f := Z.to_nat (Fields p !!! i - 1)) in *. assert (Fields p !!! i = Z.of_nat f + 1) as Ef by lia. rewrite uses_at by lia. fold (often f).
  destruct (often f) eqn:Ho; cbn [negb].
  2:{ exists st. split; [done|]. apply Hskip. intros g _ Hog. unfold comparesSymbol.
      destruct (Z.eqb_spec (Fields p !!! i) (Z.of_nat g + 1)) as [E|]; [|by rewrite andb_false_r]. replace g with f in Hog by lia. congruence. }
  assert (comparesSymbol i (Z.of_nat f + 1) = true) as Hcs.
  { unfold comparesSymbol. rewrite Ecv, Ef, Z.eqb_refl. simpl. apply Z.eqb_eq. replace (Z.to_nat (Z.of_nat f + 1 - 1)) with f by lia. by apply often_symbol. }
  rewrite factValues_ok, go_bind_Ok by done.
  pose proof (gathered_mono (Z.of_nat f + 1) (S i) n ltac:(lia)) as Hroom. unfold gathered in Hroom at 1. rewrite keyed_S, Hcs, length_app, length_factSymbols in Hroom.
  fold (gathered (Z.of_nat f + 1) i) (fieldSymbols (Z.of_nat f + 1)) in Hroom.
  fold_loop (λ pre st, filled (extend (λ f, gathered (Z.of_nat f + 1) i) f (map (λ v, symbol (valueOf p v ValueKindSymbol)) pre)) st) as (st' & -> & Hst').
  - refine (filled_ext _ _ _ _ Hfill). intros g _ _. unfold extend. destruct (decide (g = f)); [by rewrite app_nil_r|done].
  - intros pre v post [fill vs] E Hst.
    assert (selectorSymbol p v = Ok (symbol (valueOf p v ValueKindSymbol))) as ->.
    { apply (fk_symbols Hok i v Hi); [by rewrite Ef|]. rewrite E. set_solver. }
    rewrite E, length_app in Hroom. simpl in Hroom.
    set (part := extend _ f _) in Hst. assert (length (part f) = length (gathered (Z.of_nat f + 1) i) + length pre)%nat as Hpart.
    { unfold part, extend. rewrite decide_True, length_app, length_map by done. done. }
    destruct (fill_step part fill vs f (symbol (valueOf p v ValueKindSymbol))) as [Hin Hnext]; [lia|done| |lia|done|].
    { intros g. destruct (decide (g = f)) as [->|Hne]; [lia|]. unfold part, extend. rewrite decide_False by done. apply gathered_mono. lia. }
    destruct Hst as [[Hl1 Hl2] Hst _]. simpl in *. rewrite (at_total fill) by lia. rewrite go_bind_Ok. fold f. rewrite Hst by (done || lia).
    rewrite (put_Ok vs) by lia. rewrite go_bind_Ok, put_Ok by lia. rewrite go_bind_Ok. eexists; split; [done|]. fold f.
    pose proof (startAt_fits nf). rewrite u32_small by (unfold is_u32, MaxUint32 in *; lia). rewrite Nat2Z.id.
    replace (Z.of_nat (startAt f + length (part f)) + 1) with (Z.of_nat (startAt f + S (length (part f)))) by lia.
    refine (filled_ext _ _ _ _ Hnext). intros g _ _. unfold part, extend. destruct (decide (g = f)) as [->|]; [|done].
    by rewrite map_app, app_assoc.
  - eexists; split; [done|]. refine (filled_ext _ _ _ _ Hst'). intros g _ _. unfold extend, gathered. rewrite keyed_S. destruct (decide (g = f)) as [->|Hne]; [by rewrite Hcs|].
    destruct (comparesSymbol i (Z.of_nat g + 1)) eqn:E; [|by rewrite app_nil_r]. pose proof (comparesSymbol_inj _ _ _ Hcs E). lia.
Qed.

(** The values are the segments of the listed fields, one after the other. *)
Lemma filled_layout st : filled (λ f, fieldSymbols (Z.of_nat f + 1)) st → st.2 = raw (listedFields nf).
Proof.
  intros [[_ Hl] _ Hv]. assert (∀ m, (m ≤ nf)%nat → take (startAt m) st.2 = raw (listedFields m)) as H.
  { induction m as [|m IH]; intros Hm; [done|]. destruct (often m) eqn:Ho.
    - pose proof (startAt_next m nf ltac:(lia) Ho). rewrite (startAt_S m Ho), <-take_take_drop, IH, listedFields_S, Ho, layout_app by lia. f_equal.
      unfold layout. simpl. rewrite app_nil_r. apply list_eq_same_length with (length (fieldSymbols (Z.of_nat m + 1))); [done| |].
      { rewrite length_take, length_drop. lia. }
      intros j x y Hj. rewrite lookup_take_lt, lookup_drop by done. intros <-%list_lookup_total_correct <-%list_lookup_total_correct. apply Hv; [lia|done|done].
    - pose proof (listedFields_S m) as E. rewrite Ho, app_nil_r in E. unfold startAt. rewrite E. apply IH. lia. }
  specialize (H nf ltac:(lia)). by rewrite take_ge in H by lia.
Qed.

Lemma fill_ok l : layoutInv nf l →
  ∃ fill, for_range n (fillRow p uses) (factValueFill l, make_ (Z.of_nat (startAt nf))) = Ok (fill, raw (listedFields nf)).
Proof.
  intros Hl. for_loop (λ i st, filled (λ f, gathered (Z.of_nat f + 1) i) st) as ([fill vs] & -> & Hst).
  - destruct (li_fill _ _ Hl) as [Hfl Hf]. unfold make_. rewrite Nat2Z.id. split; simpl; [by rewrite length_replicate| |].
    + intros f Hlt Ho. rewrite Hf by done. f_equal. unfold gathered, keyed. simpl. lia.
    + intros f j _ _ Hj. unfold gathered, keyed in Hj. simpl in Hj. lia.
  - intros i st Hi Hst. by apply fillRow_ok.
  - exists fill. do 2 f_equal. exact (filled_layout _ Hst).
Qed.

(** ** Sorting and compaction *)

Lemma compact_snoc l x : compact (l ++ [x]) = if bool_decide (last (compact l) = Some x) then compact l else compact l ++ [x].
Proof. destruct l as [|y l]; simpl; [done|]. by rewrite foldl_app. Qed.

Lemma length_compact l : (length (compact l) ≤ length l)%nat.
Proof.
  induction l as [|x l IH] using rev_ind; [done|]. rewrite compact_snoc, length_app. case_bool_decide; [lia|]. rewrite length_app. simpl. lia.
Qed.

Local Abbreviation sel := (listedFields nf).
Definition distinctSymbols (field : Z) : list Z := compact (sortZ (fieldSymbols field)).
Local Abbreviation packed := (layout distinctSymbols).

(** The inner loop: [vals] holds the written prefix, and from [a + i] on what is left to read. *)
Record packing (w : nat) (done sorted tail : list Z) (a i : nat) (st : list Z * Z * Z) : Prop := {
  pk_write : st.1.2 = Z.of_nat (w + length (compact (take i sorted)));
  pk_last : st.2 = default 0 (last (compact (take i sorted)));
  pk_done : take (w + length (compact (take i sorted))) st.1.1 = done ++ compact (take i sorted);
  pk_rest : drop (a + i) st.1.1 = drop i sorted ++ tail;
  pk_len : length st.1.1 = (a + length sorted + length tail)%nat
}.

Lemma packing_step w dn sorted tail a i st :
  length dn = w → (w ≤ a)%nat → (i < length sorted)%nat → (∀ x, x ∈ sorted → x ≠ 0) → packing w dn sorted tail a i st →
  ∃ st', (let '(values, write, previous) := st in
          value ← at_ values (Z.of_nat a + Z.of_nat i);
          if value =? previous then Ok st else
          values ← put_ values write value;
          Ok (values, write + 1, value)) = Ok st' ∧ packing w dn sorted tail a (S i) st'.
Proof.
  intros Hdn Hwa Hi Hpos [H1 H2 H3 H4 H5]. destruct st as [[vs write] previous]. simpl in *.
  pose proof (length_compact (take i sorted)) as Hlc. rewrite length_take in Hlc.
  assert (vs !! (a + i)%nat = Some (sorted !!! i)) as Hread.
  { rewrite <-(Nat.add_0_r (a + i)), <-lookup_drop, H4, (drop_S sorted (sorted !!! i) i) by (by apply list_lookup_lookup_total_lt). done. }
  replace (Z.of_nat a + Z.of_nat i) with (Z.of_nat (a + i)) by lia. rewrite (at_nat _ _ _ Hread), go_bind_Ok.
  assert (drop (a + S i) vs = drop (S i) sorted ++ tail) as Hrest.
  { replace (a + S i)%nat with (a + i + 1)%nat by lia. rewrite <-drop_drop, H4, (drop_S sorted (sorted !!! i) i) by (by apply list_lookup_lookup_total_lt). done. }
  assert (take (S i) sorted = take i sorted ++ [sorted !!! i]) as Etake by (apply take_S_r; by apply list_lookup_lookup_total_lt).
  assert (sorted !!! i ≠ 0) as Hne by (apply Hpos; by apply list_elem_of_lookup_total_2).
  destruct (Z.eqb_spec (sorted !!! i) previous) as [E|E].
  - eexists; split; [done|]. assert (compact (take (S i) sorted) = compact (take i sorted)) as Ec.
    { rewrite Etake, compact_snoc. rewrite bool_decide_eq_true_2; [done|]. rewrite H2 in E. destruct (last _); simpl in E; congruence. }
    split; simpl; rewrite ?Ec; done.
  - assert (compact (take (S i) sorted) = compact (take i sorted) ++ [sorted !!! i]) as Ec.
    { rewrite Etake, compact_snoc. rewrite bool_decide_eq_false_2; [done|]. intros El. rewrite H2, El in E. done. }
    rewrite put_Ok, go_bind_Ok by lia. eexists; split; [done|]. rewrite H1, Nat2Z.id. split; simpl; rewrite ?Ec, ?length_app, ?last_snoc, ?length_insert; simpl; [lia|done| |by rewrite drop_insert_lt by lia|done].
    rewrite Nat.add_1_r, Nat.add_succ_r. rewrite (take_S_r _ _ (sorted !!! i)) by (apply list_lookup_insert_eq; lia).
    by rewrite take_insert_ge, H3, app_assoc by lia.
Qed.

(** The columns when the rows below [r] are compacted. *)
Record packInv (r : nat) (st : list Z * list Z * list Z * Z) : Prop := {
  pi_starts : st.1.1.1 = startsOf distinctSymbols (take r sel) ++ drop r (startsOf fieldSymbols sel);
  pi_counts : st.1.1.2 = countsOf distinctSymbols (take r sel) ++ drop r (countsOf fieldSymbols sel);
  pi_write : st.2 = zlen (packed (take r sel));
  pi_done : take (length (packed (take r sel))) st.1.2 = packed (take r sel);
  pi_rest : drop (length (raw (take r sel))) st.1.2 = raw (drop r sel);
  pi_len : length st.1.2 = length (raw sel)
}.

Lemma length_packed fs : (length (packed fs) ≤ length (raw fs))%nat.
Proof.
  unfold layout. induction fs as [|f fs IH]; simpl; [lia|]. rewrite !length_app. unfold distinctSymbols at 1.
  pose proof (distinct_sorted (fieldSymbols f)) as (_ & _ & H). simpl in H. lia.
Qed.

Lemma length_starts seg fs : length (startsOf seg fs) = length fs.
Proof. unfold startsOf. by rewrite length_map, length_seq. Qed.
Lemma length_counts seg fs : length (countsOf seg fs) = length fs.
Proof. unfold countsOf. by rewrite length_map. Qed.

(** Writing entry [r] of columns whose first [r] entries are final. *)
Lemma insert_front (pre l : list Z) r x : length pre = r → (r < length l)%nat → <[r := x]> (pre ++ drop r l) = (pre ++ [x]) ++ drop (S r) l.
Proof.
  intros Hp Hr. rewrite (drop_S l (l !!! r)) by (by apply list_lookup_lookup_total_lt). subst r. rewrite insert_app_r_alt, Nat.sub_diag by lia. by rewrite <-app_assoc.
Qed.

Lemma front_lookup (pre l : list Z) r : length pre = r → (r < length l)%nat → (pre ++ drop r l) !!! r = l !!! r.
Proof. intros Hp Hr. rewrite lookup_total_app_r, Hp, Nat.sub_diag, lookup_total_drop, Nat.add_0_r by lia. done. Qed.

Lemma symbols_positive field x : x ∈ fieldSymbols field → 1 ≤ x ≤ ProgramSymbolCount p.
Proof.
  intros (k & Hk & Hc & Hin)%keyed_in. apply list_elem_of_In, in_map_iff in Hin as (v & <- & Hv).
  apply (fk_symbols Hok k v Hk); [|by apply list_elem_of_In]. unfold comparesSymbol in *. rewrite !andb_true_iff, !Z.eqb_eq in *. destruct Hc as [[H1 E] H2]. by rewrite E.
Qed.

Lemma compactValues_ok r st : (r < length sel)%nat → packInv r st → ∃ st', compactValues r st = Ok st' ∧ packInv (S r) st'.
Proof.
  intros Hr [H1 H2 H3 H4 H5 H6]. destruct st as [[[starts counts] vals] write]. simpl in *. unfold compactValues.
  set (f := sel !!! r). set (a := length (raw (take r sel))). set (w := length (packed (take r sel))).
  assert (length (take r sel) = r) as Hlr by (rewrite length_take; lia).
  assert (take (S r) sel = take r sel ++ [f]) as Etake by (apply take_S_r; by apply list_lookup_lookup_total_lt).
  assert (raw (drop r sel) = fieldSymbols f ++ raw (drop (S r) sel)) as Edrop.
  { rewrite (drop_S _ f) by (by apply list_lookup_lookup_total_lt). done. }
  assert (length vals = a + length (fieldSymbols f) + length (raw (drop (S r) sel)))%nat as Hlv.
  { rewrite H6, (layout_split r) by done. rewrite !length_app. fold f a. lia. }
  pose proof (length_packed (take r sel)) as Hwa. fold a w in Hwa.
  assert (starts !!! r = Z.of_nat a) as Es.
  { rewrite H1, front_lookup, start_at by (rewrite ?length_starts; lia). done. }
  assert (counts !!! r = zlen (fieldSymbols f)) as Ec.
  { rewrite H2, front_lookup, count_at by (rewrite ?length_counts; lia). done. }
  assert (length starts = length sel ∧ length counts = length sel) as [Hls Hlc].
  { rewrite H1, H2, !length_app, length_starts, length_counts, !length_drop, length_starts, length_counts. lia. }
  rewrite (at_total starts), (at_total counts) by lia. rewrite !go_bind_Ok, Nat2Z.id, Es, Ec, slice_csr by lia. rewrite go_bind_Ok.
  assert (csr vals (Z.of_nat a) (zlen (fieldSymbols f)) = fieldSymbols f) as ->.
  { unfold csr. rewrite !Nat2Z.id. fold a in H5. by rewrite H5, Edrop, take_app_length. }
  set (sorted := sortZ (fieldSymbols f)). pose proof (merge_sort_Permutation Z.le (fieldSymbols f)) as Hperm. fold (sortZ (fieldSymbols f)) sorted in Hperm.
  assert (length sorted = length (fieldSymbols f)) as Hlsorted by (by rewrite Hperm).
  rewrite <-Nat2Z.inj_add, !Nat2Z.id.
  assert (drop (a + length (fieldSymbols f)) vals = raw (drop (S r) sel)) as Htail.
  { rewrite <-drop_drop. fold a in H5. by rewrite H5, Edrop, drop_app_length. }
  rewrite Htail.
  for_loop (packing w (packed (take r sel)) sorted (raw (drop (S r) sel)) a) as ([[vals' next] prev] & -> & [P1 _ P3 P4 P5]).
  - split; simpl; rewrite ?Nat.add_0_r; [by rewrite H3|done| | |].
    + rewrite app_nil_r, take_app_le, take_take, Nat.min_l by (rewrite ?length_take; lia). done.
    + by rewrite drop_app_length' by (rewrite length_take; lia).
    + rewrite !length_app, length_take. lia.
  - intros i st Hi Hst. apply packing_step; [done|done|lia| |done]. intros x Hx. rewrite Hperm in Hx. apply symbols_positive in Hx. lia.
  - simpl in P1, P3, P4, P5. rewrite !(take_ge sorted) in P1, P3 by lia. rewrite (drop_ge sorted), app_nil_l in P4 by lia.
    pose proof (length_compact sorted) as Hcl. pose proof (startAt_fits nf) as Hfit. unfold startAt in Hfit. rewrite H6 in Hlv.
    rewrite go_bind_Ok, (put_Ok starts) by lia. rewrite go_bind_Ok, (put_Ok counts) by lia. rewrite go_bind_Ok. eexists; split; [done|]. rewrite Nat2Z.id, P1, H3.
    rewrite !u32_small by (unfold is_u32, MaxUint32 in *; rewrite ?u32_small; unfold is_u32; fold w; lia).
    assert (packed (take (S r) sel) = packed (take r sel) ++ compact sorted) as Epack.
    { rewrite Etake, layout_app. f_equal. unfold layout. simpl. by rewrite app_nil_r. }
    split; simpl.
    + rewrite H1, insert_front, Etake, startsOf_snoc by (rewrite ?length_starts; lia). done.
    + rewrite H2, insert_front, Etake by (rewrite ?length_counts; lia). unfold countsOf. rewrite map_app. simpl. do 3 f_equal.
      fold w. unfold distinctSymbols. fold sorted. lia.
    + rewrite Epack, length_app. done.
    + rewrite Epack, length_app. done.
    + assert (length (raw (take (S r) sel)) = (a + length (fieldSymbols f))%nat) as ->; [|done]. rewrite Etake, layout_app, length_app. fold a. unfold layout. simpl. by rewrite app_nil_r.
    + lia.
Qed.

Lemma compacted_ok : ∃ vals, for_range (length sel) compactValues (startsOf fieldSymbols sel, countsOf fieldSymbols sel, raw sel, 0) =
  Ok (startsOf distinctSymbols sel, countsOf distinctSymbols sel, vals, zlen (packed sel)) ∧ take (length (packed sel)) vals = packed sel.
Proof.
  for_loop packInv as ([[[starts counts] vals] write] & -> & [H1 H2 H3 H4 _ _]).
  - by split.
  - intros r st Hr Hst. by apply compactValues_ok.
  - simpl in *. rewrite firstn_all in *. rewrite drop_ge, app_nil_r in H1, H2 by (by rewrite ?length_starts, ?length_counts). exists vals. by subst.
Qed.

(** ** The specification is valid *)

Definition loweredSpec : FactSpec :=
  {| fFieldIDs := sel; fColumns := map columnOf sel; ValueStarts := startsOf distinctSymbols sel; ValueCounts := countsOf distinctSymbols sel;
     UseCounts := countsOf fieldSymbols sel; fValues := packed sel |}.

Lemma sel_at r : (r < length sel)%nat → ∃ f, (f < nf)%nat ∧ often f = true ∧ sel !!! r = Z.of_nat f + 1.
Proof. intros Hr. apply listedFields_in. by apply list_elem_of_lookup_total_2. Qed.

Lemma columns_at r : (r < length sel)%nat → map columnOf sel !!! r = columnOf (sel !!! r).
Proof. intros Hr. apply list_lookup_total_correct. by rewrite list_lookup_fmap, (list_lookup_lookup_total_lt sel). Qed.

Lemma distinct_ok field : let k := distinctSymbols field in
  increasing k ∧ (∀ x, x ∈ k ↔ x ∈ fieldSymbols field) ∧ (length k ≤ length (fieldSymbols field))%nat.
Proof. apply distinct_sorted. Qed.

Lemma distinct_nonempty f : often f = true → distinctSymbols (Z.of_nat f + 1) ≠ [].
Proof.
  unfold often, usedOften, factIndexMinUses. intros Ho%Z.leb_le E. destruct (distinct_ok (Z.of_nat f + 1)) as (_ & Hin & _). rewrite E in Hin.
  destruct (fieldSymbols (Z.of_nat f + 1)) as [|x l]; [simpl in Ho; lia|]. specialize (Hin x). set_solver.
Qed.

Lemma values_fit : zlen (packed sel) ≤ MaxUint32.
Proof. pose proof (length_packed sel). pose proof (startAt_fits nf) as H'. unfold startAt in H'. lia. Qed.

Lemma start_next r : (S r < length sel)%nat →
  startsOf distinctSymbols sel !!! S r = startsOf distinctSymbols sel !!! r + countsOf distinctSymbols sel !!! r.
Proof.
  intros Hr. rewrite !start_at, count_at by lia. rewrite (take_S_r _ _ (sel !!! r)) by (apply list_lookup_lookup_total_lt; lia).
  rewrite layout_app, length_app. unfold layout at 2. simpl. rewrite app_nil_r. lia.
Qed.

Lemma segment_range r : (r < length sel)%nat →
  let start := startsOf distinctSymbols sel !!! r in let count := countsOf distinctSymbols sel !!! r in
  0 ≤ start ∧ 0 < count ∧ start + count ≤ zlen (packed sel) ∧ (r = (length sel - 1)%nat → start + count = zlen (packed sel)).
Proof.
  intros Hr. cbn zeta. rewrite start_at, count_at by done. destruct (sel_at r Hr) as (f & Hf & Ho & Ef).
  pose proof (distinct_nonempty f Ho) as Hne. rewrite <-Ef in Hne. rewrite (layout_split (fields := sel) r) by done. rewrite !length_app.
  split; [lia|]. split; [destruct (distinctSymbols (sel !!! r)); [done|simpl; lia]|]. split; [lia|]. intros ->.
  rewrite drop_ge by lia. unfold layout at 3. simpl. lia.
Qed.

Lemma loweredSpec_field r : (r < length sel)%nat →
  FactIndex.validField loweredSpec (sCounts schema !!! Z.to_nat ValueKindSymbol) (ProgramSymbolCount p) r = true.
Proof.
  intros Hr. destruct (sel_at r Hr) as (f & Hf & Ho & Ef). destruct (segment_range r Hr) as (Hs & Hc & He & _). cbn zeta in *.
  pose proof values_fit as Hfit. unfold FactIndex.validField, FactIndex.fieldValues, loweredSpec. simpl.
  rewrite (segment_at (fields := sel)) by done. rewrite columns_at, (count_at (segment := fieldSymbols)) by done.
  assert (columnOf (sel !!! r) < sCounts schema !!! Z.to_nat ValueKindSymbol) as Hcol.
  { unfold columnOf. rewrite Ef. replace (Z.to_nat (Z.of_nat f + 1 - 1)) with f by lia. rewrite <-(often_symbol f Ho). by apply (schema_column _ _ Hschema Hkinds). }
  rewrite !andb_true_iff, !negb_true_iff, !orb_false_iff, !andb_false_iff, !negb_false_iff, !bool_decide_eq_true, !bool_decide_eq_false.
  rewrite u64_small by (unfold is_u64, MaxUint32 in *; lia). split_and!.
  - rewrite Ef. apply Z.eqb_neq. lia.
  - by apply Z.leb_gt.
  - apply Z.eqb_neq. unfold often, usedOften, factIndexMinUses in Ho. rewrite Ef. lia.
  - destruct r as [|r]; [by left|right]. replace (S r - 1)%nat with r by lia. destruct (sel_at r ltac:(lia)) as (g & Hg & Hog & Eg).
    pose proof (listedFields_increasing nf r (S r) ltac:(lia) Hr) as Hinc. apply orb_false_iff. split; [apply Z.leb_gt; lia|]. rewrite columns_at by lia. apply Z.leb_gt. unfold columnOf.
    rewrite Ef, Eg in *. replace (Z.to_nat (Z.of_nat f + 1 - 1)) with f by lia. replace (Z.to_nat (Z.of_nat g + 1 - 1)) with g by lia.
    apply (schema_column_mono _ _ Hschema); [lia|lia|]. by rewrite !often_symbol.
  - apply Z.eqb_neq. lia.
  - apply Z.ltb_ge. lia.
  - apply Z.ltb_ge. lia.
  - destruct (decide (r = 0%nat)) as [->|]; [right|by left]. apply Z.eqb_eq. by rewrite start_at.
  - destruct r as [|r]; [by left|right]. replace (S r - 1)%nat with r by lia. rewrite <-start_next by done. apply Z.eqb_eq.
    rewrite u64_small; [done|]. unfold is_u64, MaxUint32 in *. lia.
  - destruct (distinct_ok (sel !!! r)) as (Hinc & Hin & _). cbn zeta in *. apply forallb_forall. intros v Hv%in_seq.
    assert (distinctSymbols (sel !!! r) !!! v ∈ fieldSymbols (sel !!! r)) as Hval by (apply Hin; apply list_elem_of_lookup_total_2; lia).
    apply symbols_positive in Hval. rewrite negb_true_iff, !orb_false_iff, andb_false_iff, negb_false_iff, bool_decide_eq_true.
    split; [split; [apply Z.eqb_neq; lia|apply Z.ltb_ge; lia]|]. destruct v as [|v]; [by left|right]. replace (S v - 1)%nat with v by lia.
    apply Z.leb_gt. apply Hinc; lia.
Qed.

Lemma length_listedFields m : (length (listedFields m) ≤ m)%nat.
Proof. induction m as [|m IH]; [done|]. rewrite listedFields_S, length_app. destruct (often m); simpl; lia. Qed.

Lemma loweredSpec_valid : FactIndex.Valid loweredSpec schema (ProgramSymbolCount p) = true.
Proof.
  destruct (fk_fit Hok) as [_ Hnf]. pose proof (length_listedFields nf) as Hls. pose proof values_fit as Hfit. unfold FactIndex.Valid. rewrite !andb_true_iff. split_and!.
  - rewrite (sb_kinds _ _ Hschema), (sb_columns _ _ Hschema). by apply bool_decide_eq_true_2.
  - unfold FactIndex.validFactSpecShape. simpl. rewrite bool_decide_eq_true_2 by (by rewrite length_map, length_starts, !length_counts).
    rewrite (proj2 (Z.ltb_ge _ _)), (proj2 (Z.ltb_ge _ _)) by lia. cbn [negb orb]. case_bool_decide as Hz.
    { apply nil_length_inv in Hz. rewrite Hz. done. }
    rewrite andb_true_iff. split.
    + apply forallb_forall. intros r Hr%in_seq. apply loweredSpec_field. lia.
    + destruct (segment_range (length sel - 1) ltac:(lia)) as (? & ? & ? & E). cbn zeta in *. rewrite (E eq_refl). apply Z.eqb_eq.
      apply u64_small. unfold is_u64, MaxUint32 in *. lia.
  - apply forallb_forall. intros r Hr%in_seq. simpl in *. destruct (sel_at r ltac:(lia)) as (f & Hf & Ho & Ef).
    rewrite columns_at, Ef, (schema_lookup _ _ Hschema) by lia. unfold columnOf. replace (Z.to_nat (Z.of_nat f + 1 - 1)) with f by lia.
    rewrite (often_symbol f Ho), !Z.eqb_refl. done.
Qed.

Lemma loweredSpec_typed : FactIndex.spec_typed loweredSpec.
Proof.
  destruct (fk_fit Hok) as [_ Hnf]. pose proof values_fit as Hfit.
  assert (∀ (l : list Z), (∀ i, (i < length l)%nat → is_u32 (l !!! i)) → Forall is_u32 l) as Hall.
  { intros l Hl. apply Forall_lookup. intros i x Hx. pose proof (lookup_lt_Some _ _ _ Hx). apply list_lookup_total_correct in Hx as <-. by apply Hl. }
  split; simpl; apply Hall; intros i; rewrite ?length_starts, ?length_counts, ?length_map; intros Hi.
  - destruct (segment_range i Hi) as (? & ? & ? & _). unfold is_u32, MaxUint32 in *. lia.
  - destruct (segment_range i Hi) as (? & ? & ? & _). unfold is_u32, MaxUint32 in *. lia.
  - rewrite columns_at by done. destruct (sel_at i Hi) as (f & Hf & Ho & ->). unfold columnOf. replace (Z.to_nat (Z.of_nat f + 1 - 1)) with f by lia.
    rewrite (sb_column _ _ Hschema) by done. pose proof (countKind_le (FieldKinds p !!! f) (take f (FieldKinds p))) as H'. rewrite length_take in H'. unfold is_u32, MaxUint32 in *. lia.
  - assert (packed sel !!! i ∈ packed sel) as Hin by (by apply list_elem_of_lookup_total_2).
    unfold layout in Hin at 2. apply list_elem_of_In, in_concat in Hin as (l & Hl & Hx). apply in_map_iff in Hl as (f & <- & _).
    apply list_elem_of_In, (distinct_ok f), symbols_positive in Hx. pose proof (fk_count Hok). unfold is_u32 in *. lia.
  - destruct (sel_at i Hi) as (f & Hf & Ho & ->). unfold is_u32, MaxUint32 in *. lia.
Qed.
End facts.

(** ** The stage *)

Section lowered.
Context (p : Program) (schema : IndexSchema) (Hok : facts_ok p) (Hschema : schema_built (FieldKinds p) schema) (Hkinds : Forall (λ k, KindValid k = true) (FieldKinds p)).

Lemma lowerFactIndexSpec_ok : lowerFactIndexSpec p schema = Ok (loweredSpec p schema).
Proof.
  unfold lowerFactIndexSpec. destruct (countUses_ok p Hok) as (uses & -> & Huses). rewrite go_bind_Ok, (totalValues_ok p Hok uses Huses). cbn zeta.
  rewrite (proj2 (Z.leb_le _ _)) by (by apply startAt_fits). cbn [check]. rewrite go_bind_Ok.
  destruct (layout_ok p Hok uses Huses schema Hschema Hkinds) as (l & -> & Hl). rewrite go_bind_Ok.
  destruct (fill_ok p Hok uses Huses schema Hschema Hkinds l Hl) as (fill & ->). rewrite go_bind_Ok.
  destruct Hl as [H1 H2 H3 [H4 H5] _ _]. rewrite H1, H2, H3, H4, H5. destruct (compacted_ok p Hok) as (vals & -> & Hvals). rewrite go_bind_Ok, Nat2Z.id, Hvals.
  fold (loweredSpec p schema). by rewrite (loweredSpec_valid p Hok uses Huses schema Hschema Hkinds).
Qed.

Context (Hsymbols : ∀ s, 1 ≤ s ≤ ProgramSymbolCount p → is_Some (Symbol p s)).

Lemma selectorSymbol_query v s : selectorSymbol p v = Ok s → 1 ≤ s ≤ ProgramSymbolCount p → factIndexQuerySymbol p v = Some s.
Proof.
  intros H Hs. unfold selectorSymbol in H. apply go_bind_inv in H as (u & Hc%check_inv & H). apply go_bind_inv in H as (s' & Hat%at_Ok & H).
  apply go_bind_inv in H as (u' & Hr%check_inv & [= ->]). destruct Hat as [Hv0 Hat]. apply list_lookup_total_correct in Hat.
  rewrite negb_true_iff, !orb_false_iff, negb_false_iff in Hc. destruct Hc as [[[H1 H2] H3] H4]. unfold factIndexQuerySymbol.
  rewrite H1, H4, Hat. rewrite (proj2 (Z.leb_gt _ _)), (proj2 (Z.leb_gt _ _)) by lia. rewrite negb_true_iff in Hr. rewrite Hr. simpl.
  destruct (Hsymbols s Hs) as [bytes ->]. done.
Qed.

(** Every literal a listed field is compared with is one of its values. *)
Lemma literal_listed i v : (i < length (Opcodes p))%nat → comparesSymbol p i (Fields p !!! i) = true → v ∈ factIDs p i →
  queryContains p (distinctSymbols p (Fields p !!! i)) v = true.
Proof.
  intros Hi Hc Hv. destruct (fk_symbols p Hok i v Hi Hc Hv) as [Hsel Hs]. unfold queryContains. rewrite (selectorSymbol_query v _ Hsel Hs).
  destruct (distinct_ok p (Fields p !!! i)) as (Hinc & Hin & _). cbn zeta in *.
  destruct (BinarySearch _ _) as [k []] eqn:E; [done|]. apply BinarySearch_missing in E; [|done]. exfalso. apply E, Hin, keyed_in.
  exists i. split; [done|]. split; [done|]. unfold factSymbols. apply list_elem_of_In, in_map_iff. exists v. split; [done|]. by apply list_elem_of_In.
Qed.

Lemma lowered_query pol i : (i < length (Opcodes p))%nat → (Opcodes p !!! i = OpcodeIn → Values p !!! i = 0) →
  validFactIndexQuery (with_indexes p pol (loweredSpec p schema) schema) i = Ok true.
Proof.
  intros Hi Hin. destruct (fk_lens p Hok) as (L1 & L2 & L3 & L4). destruct (countUses_ok p Hok) as (uses & _ & Huses).
  unfold validFactIndexQuery. change (Opcodes (with_indexes p pol (loweredSpec p schema) schema)) with (Opcodes p).
  change (Fields (with_indexes p pol (loweredSpec p schema) schema)) with (Fields p). cbn [FactIndexSpec with_indexes loweredSpec fFieldIDs ValueStarts ValueCounts fValues].
  rewrite (at_total (Opcodes p)), (at_total (Fields p)) by lia. rewrite !go_bind_Ok, Nat2Z.id.
  destruct (BinarySearch _ _) as [r []] eqn:E; [|done]. cbn [negb]. apply BinarySearch_found in E as [Hr Er].
  destruct (segment_range p Hok uses Huses schema Hschema Hkinds r Hr) as (Hs & Hc & He & _). cbn zeta in *.
  rewrite (at_total (startsOf _ _)), (at_total (countsOf _ _)) by (rewrite ?length_starts, ?length_counts; lia). rewrite !go_bind_Ok, !Nat2Z.id.
  rewrite slice_csr, go_bind_Ok, segment_at, Er by (done || lia).
  destruct (sel_at p r Hr) as (f & Hf & Ho & Ef). rewrite Er in Ef.
  assert (comparesValues (Opcodes p !!! i) = true → comparesSymbol p i (Fields p !!! i) = true) as Hcs.
  { intros Hcv. unfold comparesSymbol. rewrite Hcv, Z.eqb_refl, Ef. simpl. apply Z.eqb_eq. replace (Z.to_nat (Z.of_nat f + 1 - 1)) with f by lia. by eapply often_symbol. }
  unfold comparesValues in Hcs. destruct ((Opcodes p !!! i =? OpcodeEqual) || (Opcodes p !!! i =? OpcodeNotEqual)) eqn:Ecmp.
  - change (Values (with_indexes p pol (loweredSpec p schema) schema)) with (Values p). rewrite (at_total (Values p)) by lia. rewrite go_bind_Ok, Nat2Z.id. f_equal.
    apply literal_listed; [done|by apply Hcs|]. unfold factIDs. destruct (Z.eqb_spec (Opcodes p !!! i) OpcodeIn) as [E'|]; [|set_solver].
    rewrite E' in Ecmp. done.
  - destruct (Z.eqb_spec (Opcodes p !!! i) OpcodeIn) as [E'|]; [|done].
    change (Values (with_indexes p pol (loweredSpec p schema) schema)) with (Values p).
    change (ListStarts (with_indexes p pol (loweredSpec p schema) schema)) with (ListStarts p).
    change (ListCounts (with_indexes p pol (loweredSpec p schema) schema)) with (ListCounts p).
    change (ListValues (with_indexes p pol (loweredSpec p schema) schema)) with (ListValues p).
    rewrite (at_total (Values p)), (at_total (ListStarts p)), (at_total (ListCounts p)) by lia. rewrite go_bind_Ok, Nat2Z.id, Hin by done. simpl.
    destruct (fk_lists p Hok i Hi E') as (? & ? & ?). rewrite slice_csr, go_bind_Ok by lia. f_equal.
    apply forallb_forall. intros v Hv%list_elem_of_In. apply literal_listed; [done|by apply Hcs|]. unfold factIDs. by rewrite (proj2 (Z.eqb_eq _ _) E').
Qed.

Lemma lowered_queries pol : (∀ i, (i < length (Opcodes p))%nat → Opcodes p !!! i = OpcodeIn → Values p !!! i = 0) →
  validFactIndexQueries (with_indexes p pol (loweredSpec p schema) schema) = Ok true.
Proof.
  intros Hin. unfold validFactIndexQueries. case_bool_decide; [done|].
  assert (forallb (λ s, match Symbol p s with Some _ => true | None => false end) (fValues (loweredSpec p schema)) = true) as Hall.
  { apply forallb_forall. intros s Hs. simpl in Hs. unfold layout in Hs. apply in_concat in Hs as (l & Hl & Hx). apply in_map_iff in Hl as (f & <- & _).
    apply list_elem_of_In, (distinct_ok p f), (symbols_positive p Hok) in Hx. by destruct (Hsymbols s Hx) as [bytes ->]. }
  simpl in *. rewrite Hall. cbn [negb].
  for_loop (λ _ (ok : bool), ok = true) as (ok & -> & ->); [done| |done]. intros i ok Hi ->. rewrite lowered_query by auto. by eexists.
Qed.
End lowered.
