(* ===== verification/IndexOk.v ===== *)
(** * Index lowering is transparent
    On a program whose instructions passed the compiler's checks, [lowerIndexes]
    succeeds, its indexes pass the executor's validation, and filtering requirements
    by the applicability index does not change which requirements count. *)

From S2P Require Import Prelude Store Truth Schema Result Program Batch Predicate Simd FactIndex Evidence Executor PolicyIndex PolicyBuild Finalize Execute.
From S2P Require Import Liveness Schedule IndexLower IndexMeaning FactLower.
#[local] Open Scope Z_scope.

(** The program with its field schema, before it has indexes. *)
Definition with_schema (p : Program) (schema : IndexSchema) : Program := with_indexes p (ApplicabilityIndex p) (FactIndexSpec p) schema.

(** A program ready for index lowering: what the earlier stages establish, and that
    its literals fit the index columns once per requirement. *)
Record index_ready (p : Program) : Prop := {
  ir_slots : slots_typed p;
  ir_valid : validateApplicabilityProgram p = Ok tt;
  ir_roots : Forall is_u32 (RequirementRoots p);
  ir_lens : let n := length (Opcodes p) in length (Fields p) = n ∧ length (Values p) = n ∧ length (ListStarts p) = n ∧ length (ListCounts p) = n;
  ir_kinds : Forall (λ k, KindValid k = true) (FieldKinds p);
  ir_rows schema row : BuildSchema (FieldKinds p) = Ok schema → (row < length (Opcodes p))%nat → instructionOk (with_schema p schema) row = true;
  ir_lists row : (row < length (Opcodes p))%nat → Opcodes p !!! row = OpcodeIn → inLiterals p row ≠ [];
  ir_refs : Forall is_u32 (ValueRefs p);
  ir_count : is_u32 (ProgramSymbolCount p) ∧ ∀ s, 1 ≤ s ≤ ProgramSymbolCount p → is_Some (Symbol p s);
  ir_fields : zlen (FieldKinds p) < MaxUint32;
  ir_literals : Z.of_nat (S (length (RequirementRoots p)) * (leafTotal p + list_sum (map (λ i, length (factIDs p i)) (seq 0 (length (Opcodes p)))))) ≤ MaxUint32
}.

(** What index lowering promises: indexes the executor accepts, and a requirement
    counts on a request row exactly when its condition is not definitely false. *)
Record indexed (p p' : Program) : Prop := {
  ix_rest : p' = with_indexes p (ApplicabilityIndex p') (FactIndexSpec p') (FieldIndex p');
  ix_schema : BuildSchema (FieldKinds p) = Ok (FieldIndex p');
  ix_facts : FactIndex.Valid (FactIndexSpec p') (FieldIndex p') (ProgramSymbolCount p') = true ∧ FactIndex.spec_typed (FactIndexSpec p') ∧ validFactIndexQueries p' = Ok true;
  ix_policy : policy_typed (ApplicabilityIndex p') ∧ validBoundPolicy (ApplicabilityIndex p') = true ∧
    forallb (validSelectorField p') (pFieldIDs (ApplicabilityIndex p')) = true;
  ix_shape : schema_built (FieldKinds p) (FieldIndex p') ∧ RequirementCount (ApplicabilityIndex p') = zlen (RequirementRoots p) ∧
    Forall is_u32 (pFieldIDs (ApplicabilityIndex p'));
  ix_counts b reasons q r : (q < length (RequirementRoots p))%nat →
    counts p' b reasons q r = negb (bool_decide (definitelyFalse (rootValue p' b reasons (RequirementRoots p !!! q) r)))
}.

Section index.
Context (p : Program) (Hr : index_ready p).
Local Abbreviation n := (length (Opcodes p)).
Local Abbreviation nreq := (length (RequirementRoots p)).

Lemma ready_valid : validateSlotProgram p = Ok tt ∧ length (RequirementIDs p) = nreq ∧ Z.of_nat nreq ≤ MaxUint32 ∧
  Forall (λ root, 1 ≤ root ≤ Z.of_nat n) (RequirementRoots p).
Proof.
  pose proof (ir_valid _ Hr) as Hv. unfold validateApplicabilityProgram in Hv. apply go_bind_inv in Hv as ([] & Hs & Hv).
  apply go_bind_inv in Hv as ([] & Hlens%check_inv & Hroots%check_inv).
  rewrite !andb_true_iff, !bool_decide_eq_true in Hlens. destruct Hlens as [[[[H1 H2] _] _] _]. split; [done|]. split; [done|]. split; [lia|].
  apply Forall_forall. intros root Hin. rewrite forallb_forall in Hroots. specialize (Hroots root (proj1 (list_elem_of_In _ _) Hin)).
  rewrite negb_true_iff, !orb_false_iff in Hroots. destruct Hroots as [[H3 H4] H5]. apply Z.eqb_neq in H3. apply Z.ltb_ge in H4.
  pose proof (ir_roots _ Hr) as Hu. rewrite Forall_forall in Hu. specialize (Hu root Hin). unfold is_u32 in Hu. lia.
Qed.

Context (schema : IndexSchema) (Hschema : BuildSchema (FieldKinds p) = Ok schema) (Hbuilt : schema_built (FieldKinds p) schema).
Local Abbreviation sp := (with_schema p schema).

Lemma ready_graph : graph_ok sp.
Proof. apply validateSlotProgram_ok; [destruct (ir_slots _ Hr); by split|]. exact (proj1 ready_valid). Qed.

Lemma ready_literals : Z.of_nat (leafTotal p) ≤ MaxUint32 ∧ Z.of_nat (nreq * leafTotal p) ≤ MaxUint32 ∧
  Z.of_nat (list_sum (map (λ i, length (factIDs p i)) (seq 0 n))) ≤ MaxUint32.
Proof. pose proof (ir_literals _ Hr). nia. Qed.

(** Comparing rows are checked predicates. *)
Lemma compares_ok i : (i < n)%nat → comparesValues (Opcodes p !!! i) = true → predicateOk sp i = true.
Proof.
  intros Hi Hc. pose proof (ir_rows _ Hr schema i Hschema Hi) as Hok. unfold instructionOk in Hok. change (Opcodes sp) with (Opcodes p) in Hok.
  unfold comparesValues in Hc. rewrite !orb_true_iff, !Z.eqb_eq in Hc. destruct Hc as [[E|E]|E]; rewrite E in Hok; exact Hok.
Qed.

Lemma facts_ready : facts_ok p.
Proof.
  assert (∀ i, (i < n)%nat → comparesValues (Opcodes p !!! i) = true → _) as Hrow by (intros i Hi Hc; exact (predicateOk_inv _ _ (compares_ok i Hi Hc))).
  split.
  - exact (ir_lens _ Hr).
  - intros i Hi E. destruct (Hrow i Hi) as (kind & col & _ & _ & _ & _ & _ & _ & Hv & _); [by rewrite E|]. change (Opcodes sp) with (Opcodes p) in Hv.
    rewrite E in Hv. simpl in Hv. tauto.
  - intros i Hi Hc. destruct (Hrow i Hi Hc) as (kind & col & Hl & _ & _ & Hf & _). destruct (SchemaLookup_inv _ _ _ _ Hl) as (_ & Hf1 & _).
    change (FieldIndex sp) with schema in Hf1. rewrite (sb_kinds _ _ Hbuilt) in Hf1. change (Fields sp) with (Fields p) in *. lia.
  - intros i v Hi Hc Hv. unfold comparesSymbol in Hc. rewrite !andb_true_iff, !Z.eqb_eq in Hc. destruct Hc as [[Hc _] Hk].
    apply (selectorSymbol_ok sp (ir_refs _ Hr)).
    destruct (Hrow i Hi Hc) as (kind & col & Hl & _ & _ & Hf & _ & _ & Hvals & _). destruct (SchemaLookup_inv _ _ _ _ Hl) as (_ & Hf1 & _).
    change (FieldIndex sp) with schema in *. change (Fields sp) with (Fields p) in *. rewrite (sb_kinds _ _ Hbuilt) in Hf1.
    rewrite (schema_lookup _ _ Hbuilt), Hk in Hl by lia. injection Hl as <- _. change (Opcodes sp) with (Opcodes p) in Hvals. unfold factIDs in Hv.
    unfold comparesValues in Hc. rewrite !orb_true_iff, !Z.eqb_eq in Hc. destruct Hc as [[E|E]|E]; rewrite E in Hvals, Hv; simpl in Hvals, Hv.
    + apply list_elem_of_singleton in Hv as ->. exact Hvals.
    + apply list_elem_of_singleton in Hv as ->. exact Hvals.
    + destruct Hvals as (_ & _ & _ & _ & _ & Hall). rewrite forallb_forall in Hall. apply Hall. by apply list_elem_of_In.
  - exact (proj1 (ir_count _ Hr)).
  - split; [apply ready_literals|exact (ir_fields _ Hr)].
Qed.

Lemma ready_extract : ∃ c, extractApplicabilityConstraints p = Ok c ∧ consInv sp c ∧ constraints_typed (Z.of_nat nreq) c ∧
  validateConstraints (Z.of_nat nreq) c = Ok tt ∧ constraints_apart c.
Proof.
  destruct ready_valid as (_ & _ & Hn & Hroots). destruct ready_literals as (Hfit & Hreq & _). pose proof (ir_fields _ Hr) as Hnf.
  destruct (extract_ok sp ready_graph) as (c & HE & Hc & Hsz); [exact (sb_kinds _ _ Hbuilt)|intros row; exact (ir_rows _ Hr schema row Hschema)|exact (ir_lists _ Hr)|
    exact (ir_refs _ Hr)|exact Hfit|exact Hroots|done|exact (ir_valid _ Hr)|].
  destruct (consInv_valid sp (proj1 (ir_count _ Hr)) (Logic.conj Hn (Logic.conj Hnf Hreq)) c Hc Hsz) as (Ht & Hv & Ha). by exists c.
Qed.

(** The value of an instruction does not depend on the indexes. *)
Lemma denote_indexes pol spec b reasons i r : denote (with_indexes p pol spec schema) b reasons i r = denote sp b reasons i r.
Proof.
  assert (∀ m, denoteAll (with_indexes p pol spec schema) b reasons m r = denoteAll sp b reasons m r) as H.
  { induction m as [|m IH]; [done|]. simpl. by rewrite IH. }
  unfold denote. by rewrite H.
Qed.

(** A selector that disagrees with a constraint makes the root definitely false. *)
Lemma filtered_false c pol spec b reasons q r : consInv sp c → exactIndex (Z.of_nat nreq) c pol → (q < nreq)%nat →
  selected (with_indexes p pol spec schema) b q r = false → definitelyFalse (rootValue (with_indexes p pol spec schema) b reasons (RequirementRoots p !!! q) r).
Proof.
  intros Hc He Hq Hsel. set (p' := with_indexes p pol spec schema) in *. set (root := RequirementRoots p !!! q).
  destruct (decide ((rootValue p' b reasons root r).1 = tv_false)) as [|Hnot]; [done|]. exfalso. apply not_true_iff_false in Hsel. apply Hsel.
  unfold selected. set (facts := map (λ f, selectorValue p' b f r) _). apply (ei_candidate _ _ _ He); [lia|]. intros k f Hk Erow Ef Hp.
  destruct (decide (map fst facts !!! f ∈ constraintValues c k)) as [|Hv]; [done|]. exfalso. apply Hnot.
  assert (facts !! f = Some (selectorValue p' b (cnFields c !!! k) r)) as Hfact.
  { unfold facts. rewrite list_lookup_fmap. change (pFieldIDs (ApplicabilityIndex p')) with (pFieldIDs pol). by rewrite Ef. }
  assert (map snd facts !!! f = (selectorValue p' b (cnFields c !!! k) r).2 ∧ map fst facts !!! f = (selectorValue p' b (cnFields c !!! k) r).1) as [E1 E2].
  { split; apply list_lookup_total_correct; by rewrite list_lookup_fmap, Hfact. }
  rewrite E1 in Hp. rewrite E2 in Hv. destruct (ci_necessary _ _ Hc k Hk) as (i & Hconj & Hleaf & Evs). rewrite Evs in Hv.
  rewrite Erow, Nat2Z.id in Hconj. unfold rootValue, root, p'. rewrite denote_indexes. exact (conjunct_false sp ready_graph b reasons r _ i Hconj (selectorLeaf_false sp ready_graph b reasons i _ r Hleaf Hp Hv)).
Qed.
End index.

Lemma lowerIndexes_ok p : index_ready p → ∃ p', lowerIndexes p = Ok p' ∧ indexed p p'.
Proof.
  intros Hr. pose proof (ir_fields _ Hr) as Hnf. pose proof (ir_kinds _ Hr) as Hkinds.
  destruct (BuildSchema_ok _ Hkinds ltac:(lia)) as (schema & Hschema & Hbuilt).
  destruct (ready_extract p Hr schema Hschema Hbuilt) as (c & HE & Hc & Ht & Hv & Ha). destruct (Build_exact _ c Ht Hv Ha) as (pol & HB & He).
  destruct (ready_valid p Hr) as (_ & Hids & Hn & _). pose proof (facts_ready p Hr schema Hschema Hbuilt) as Hfacts.
  unfold lowerIndexes. rewrite HE, go_bind_Ok, Hschema. cbn [compileIndexError]. rewrite go_bind_Ok, Hids.
  rewrite u32_small by (unfold is_u32, MaxUint32 in *; lia). rewrite HB. cbn [compileIndexError]. rewrite go_bind_Ok.
  rewrite (lowerFactIndexSpec_ok p schema Hfacts Hbuilt Hkinds), go_bind_Ok. eexists; split; [done|].
  destruct (countUses_ok p Hfacts) as (uses & _ & Huses). split.
  - done.
  - exact Hschema.
  - split; [exact (loweredSpec_valid p Hfacts uses Huses schema Hbuilt Hkinds)|]. split; [exact (loweredSpec_typed p Hfacts uses Huses schema Hbuilt Hkinds)|].
    apply (lowered_queries p schema Hfacts Hbuilt Hkinds (proj2 (ir_count _ Hr))). intros i Hi E.
    destruct (predicateOk_inv _ _ (compares_ok p Hr schema Hschema i Hi ltac:(by rewrite E))) as (kind & col & _ & _ & _ & _ & _ & _ & Hval & _).
    change (Opcodes (with_schema p schema)) with (Opcodes p) in Hval. rewrite E in Hval. apply Hval.
  - split; [apply He|]. split; [apply He|]. apply forallb_forall. intros field Hin%list_elem_of_In. simpl in Hin. apply (ei_fields _ _ _ He) in Hin.
    destruct (ci_lens _ _ Hc) as (Hl & _). apply list_elem_of_lookup_total in Hin as (k & Hk & <-).
    destruct (ci_necessary _ _ Hc k ltac:(lia)) as (i & _ & (_ & _ & _ & column & Hlk) & _). unfold validSelectorField.
    change (FieldIndex (with_schema p schema)) with schema in Hlk. cbn [FieldIndex with_indexes]. rewrite Hlk. change (ValueKindSymbol =? ValueKindSymbol) with true. cbn [andb].
    apply negb_true_iff, Z.leb_gt. destruct (ci_row _ _ Hc k ltac:(lia)) as (_ & Hf & _). change (FieldKinds (with_schema p schema)) with (FieldKinds p) in Hf.
    rewrite (schema_lookup _ _ Hbuilt) in Hlk by lia. injection Hlk as Hk0 <-. rewrite <-Hk0. apply (schema_column _ _ Hbuilt Hkinds). lia.
  - split; [done|]. split; [exact (ei_count _ _ _ He)|]. apply Forall_forall. intros field Hin. simpl in Hin. apply (ei_fields _ _ _ He) in Hin.
    destruct (ci_lens _ _ Hc) as (Hl & _). apply list_elem_of_lookup_total in Hin as (k & Hk & <-). destruct (ci_row _ _ Hc k ltac:(lia)) as (_ & Hf & _).
    change (FieldKinds (with_schema p schema)) with (FieldKinds p) in Hf. unfold is_u32, MaxUint32 in *. lia.
  - intros b reasons q r Hq. unfold counts. change (RequirementRoots (with_indexes p pol (loweredSpec p schema) schema)) with (RequirementRoots p).
    pose proof (filtered_false p Hr schema c pol (loweredSpec p schema) b reasons q r Hc He Hq) as Hfil. unfold definitelyFalse in *.
    destruct (selected _ _ _ _) eqn:Hsel.
    + destruct (rootValue _ _ _ _ _) as [[pos neg] m]. simpl. by destruct pos, neg.
    + rewrite Hfil by done. by rewrite bool_decide_eq_true_2.
Qed.

(** ** Properties *)

(** C11: the indexes of a compiled policy never change a decision.  On a program ready
    for it, index lowering succeeds; the program it returns differs only in its field
    schema and indexes, which pass the validation of the executor: the fact bitmap
    plan answers every comparison of a listed field and the applicability index binds;
    and although the index filters requirements by the request's symbols, a
    requirement counts on a row exactly when its applicability condition is not
    definitely false there. *)
Theorem indexes_never_change_decisions (p : Program) : index_ready p →
  ∃ p', lowerIndexes p = Ok p' ∧ p' = with_indexes p (ApplicabilityIndex p') (FactIndexSpec p') (FieldIndex p') ∧
    BuildSchema (FieldKinds p) = Ok (FieldIndex p') ∧
    FactIndex.Valid (FactIndexSpec p') (FieldIndex p') (ProgramSymbolCount p') = true ∧ validFactIndexQueries p' = Ok true ∧
    validBoundPolicy (ApplicabilityIndex p') = true ∧ forallb (validSelectorField p') (pFieldIDs (ApplicabilityIndex p')) = true ∧
    ∀ b reasons q r, (q < length (RequirementRoots p))%nat →
      counts p' b reasons q r = negb (bool_decide ((rootValue p' b reasons (RequirementRoots p !!! q) r).1 = tv_false)).
Proof.
  intros Hr. destruct (lowerIndexes_ok p Hr) as (p' & HL & [H1 H2 (H3 & _ & H4) (_ & H5 & H6) _ H7]). exists p'. done.
Qed.
