(* ===== verification/LowerRows.v ===== *)
(** * The rows of a lowered program
    What lowering and scheduling leave in every instruction row: the row states a
    node of the document, its operands come before it, and its literals and fields
    are those the executor's checks ask for. *)

From S2P Require Import Prelude Store Truth Schema Result Program Batch Predicate Simd FactIndex Evidence Executor PolicyIndex PolicyBuild Finalize Execute.
From S2P Require Import Liveness Schedule ScheduleMeaning SymbolTable Interner Frozen SymbolCheck Ast Constants ConstantsMeaning Normalize Compact.
From S2P Require Import WalkEnd DocMeaning NormalizeOk WalkOk WalkMeaning CompactOk NodeMapOk LowerMeaning IndexLower IndexMeaning FactLower IndexOk.
#[local] Open Scope Z_scope.

(** ** The scheduled program *)

(** Program [p'] is [p] with scheduled instructions that state the document. *)
Record lowered (k : constState) (d : Document) (find : bytes → option Z) (p p' : Program) : Prop := {
  lw_rest : p' = with_instr p (instr p');
  lw_typed : slots_typed p';
  lw_valid : validateSlotProgram p' = Ok tt;
  lw_live : noDeadCode p';
  lw_size : 0 < zlen (Opcodes p') < MaxUint32;
  lw_rows : rows_from k d p';
  lw_ranges i : (i < length (Opcodes p'))%nat →
    in_pool (ListValues p') (ListStarts p' !!! i) (ListCounts p' !!! i) ∧ in_pool (Operands p') (OperandStarts p' !!! i) (OperandCounts p' !!! i);
  lw_pools : zlen (ListValues p') ≤ MaxUint32 ∧ zlen (Operands p') ≤ MaxUint32;
  lw_root node flag : marked d node flag → ∃ id, nodeEntriesOf p' node = [id] ∧ 1 ≤ id ≤ zlen (Opcodes p') ∧
    Z.ldiff flag (RootFlags p' !!! Z.to_nat (id - 1)) = 0 ∧
    ∀ b reasons r, nodeValue d find (FieldIndex p) b reasons r (length (dNodeKinds d)) node = Some (denote p' b reasons (Z.to_nat (id - 1)) r)
}.

Lemma reordered_row (ord : list nat) (col : list Z) k i n : length col = n → (i < n)%nat → ord !! k = Some i → reordered ord col !!! k = col !!! i.
Proof.
  intros Hl Hi Hk. unfold reordered. rewrite bool_decide_eq_false_2 by (intros ->; simpl in Hl; lia). by apply row_at.
Qed.

Lemma length_reordered (ord : list nat) (col : list Z) n : length col = n → n ≠ 0%nat → length (reordered ord col) = length ord.
Proof. intros Hl Hn. unfold reordered. rewrite bool_decide_eq_false_2 by (intros ->; by rewrite <-Hl in Hn). apply length_map. Qed.

Lemma lowered_scheduled k d find p cols :
  doc_ok d (FieldIndex p) → lowers_document d find p cols → rows_from k d cols → Opcodes cols ≠ [] →
  ∃ p', scheduleInstructions (with_instr p cols) = Ok p' ∧ lowered k d find p p'.
Proof.
  intros Hdoc [Ht Hv Hlive Hsize _ _ Hnodes Hroots] [Rroot Rlen Rrow Rsrc] Hne. set (q := with_instr p cols) in *.
  destruct (scheduleInstructions_ok q Ht Hv Hsize Hne) as (p' & st & ord & rs & E & Hinv & Hlen & Hr & _). exists p'. split; [done|].
  pose proof (validateSlotProgram_ok q (sy_slots _ Ht) Hv) as Hg. destruct (validateSlotProgram_inv q Hv) as [Hc Hflags]. pose proof (validateScheduleColumns_ok q Ht Hc) as Hcols.
  destruct (rd_columns _ _ _ _ Hr) as (E1 & E2 & E3 & E4 & E5 & E6 & E7 & E8 & E9 & E10 & E11). destruct (rd_optional _ _ _ _ Hr) as (P1 & P2 & P3).
  destruct (rd_starts _ _ _ _ Hr) as (S1 & S2 & U1 & U2). destruct (rd_sizes _ _ _ _ Hr) as (Z1 & Z2 & _). pose proof (rd_ranges _ _ _ _ Hr) as [N1 N2].
  assert (length (Opcodes p') = length (Opcodes cols)) as En by (rewrite E1, length_map; exact Hlen).
  pose proof Rlen as (L1 & L2 & L3 & L4 & L5 & L6 & L7 & (V1 & V2 & V3 & V4 & V5) & L8 & L9 & L10 & L11).
  assert (∀ j, (j < length (Opcodes p'))%nat → ∃ i, ord !! j = Some i ∧ (i < length (Opcodes cols))%nat) as Hold.
  { intros j Hj. rewrite En in Hj. exact (old_row q st ord Hinv Hlen j Hj). }
  assert (∀ j, (j < length (Opcodes p'))%nat → in_pool (ListValues p') (ListStarts p' !!! j) (ListCounts p' !!! j) ∧
    in_pool (Operands p') (OperandStarts p' !!! j) (OperandCounts p' !!! j)) as Hpool.
  { intros j Hj. destruct (Hold j Hj) as (i & Hi & Hlt). destruct (rd_lists _ _ _ _ Hr j i Hi) as [_ Hl]. destruct (rd_operands _ _ _ _ Hr j i Hi) as [_ Ho].
    destruct (co_rows _ Hcols i Hlt) as (_ & _ & Hc1 & _). destruct (gk_range _ Hg i Hlt) as (_ & Hc2 & _).
    pose proof (Forall_lookup_total_1 _ _ j U1 ltac:(change (length (Opcodes q)) with (length (Opcodes cols)) in *; lia)) as W1.
    pose proof (Forall_lookup_total_1 _ _ j U2 ltac:(change (length (Opcodes q)) with (length (Opcodes cols)) in *; lia)) as W2. unfold is_u32 in W1, W2.
    unfold in_pool. rewrite E4, (row_at ord _ j i Hi) in Hl |- *. rewrite E5, (row_at ord _ j i Hi) in Ho |- *.
    lia. }
  assert (∀ j i, ord !! j = Some i → keyOf p' j = {| kOpcode := kOpcode (keyOf cols i); kField := kField (keyOf cols i); kValue := kValue (keyOf cols i);
    kEvidence := kEvidence (keyOf cols i); kLiterals := kLiterals (keyOf cols i); kArgs := map (rename st) (kArgs (keyOf cols i)) |}) as Hrename.
  { intros j i Hi. destruct (order_row q st ord Hinv Hlen j i Hi) as [_ Hlt].
    unfold keyOf at 1. destruct (rd_lists _ _ _ _ Hr j i Hi) as [Hl _]. destruct (rd_operands _ _ _ _ Hr j i Hi) as [Ho _].
    unfold inLiterals in Hl. unfold operandsOf in Ho. rewrite Hl, Ho. rewrite E1, E2, E3, E6, E7, !(row_at ord _ j i Hi), P1, P2, P3.
    rewrite !(reordered_row ord _ j i (length (Opcodes cols))) by done. done. }
  assert (∀ node id, nodeEntriesOf cols node = [id] → ∃ j, nodeEntriesOf p' node = [Z.of_nat j + 1] ∧ ord !! j = Some (Z.to_nat (id - 1))) as Hentry.
  { intros node id Eid.
    assert (NodeInstructionIDs cols !! Z.to_nat (NodeInstructionStarts cols !!! Z.to_nat (node - 1)) = Some id) as Hid.
    { pose proof (f_equal (λ l, l !! 0%nat) Eid) as E0. unfold nodeEntriesOf, csr in E0. simpl in E0. rewrite lookup_take, lookup_drop, Nat.add_0_r in E0. by case_decide. }
    destruct (reorders_nodes q st ord Hinv Hlen p' Hr Ht Hcols _ id Hid) as (j & Hj & Hord). exists j. split; [|done].
    unfold nodeEntriesOf in *. rewrite N1, N2. apply (csr_renamed (NodeInstructionIDs cols) _ _ _ id); [|done|done]. rewrite (rd_nodes _ _ _ _ Hr). apply length_map. }
  split.
  - exact (rd_rest _ _ _ _ Hr).
  - by apply (reorders_slots_typed q Hg st ord Hinv p' Hr Ht).
  - by apply (reorders_valid q Hg Hcols st ord Hinv Hlen p' Hr Ht Hsize).
  - by apply (reorders_noDeadCode q st ord Hinv Hlen p' Hr).
  - rewrite En. destruct (Opcodes cols); [done|]. simpl in *. lia.
  - split.
    + intros node flag Hm. destruct (Rroot node flag Hm) as (id & args & Eid & Hid & Hkey). destruct (Hentry node id Eid) as (j & Ej & Hord).
      exists (Z.of_nat j + 1), (map (rename st) args). split; [done|]. pose proof (lookup_lt_Some _ _ _ Hord) as Hlt.
      change (length (Opcodes q)) with (length (Opcodes cols)) in Hlen. split; [lia|]. replace (Z.to_nat (Z.of_nat j + 1 - 1)) with j by lia.
      rewrite (Hrename j _ Hord), Hkey. apply nodeKey_map.
    + unfold columns_len, evidence_columns. rewrite !En. rewrite E2, E3, E4, E5, E6, E7, E8, E9, E10, E11, P1, P2, P3, S1, S2, !length_map.
      rewrite !(length_reordered ord _ (length (Opcodes cols))) by (done || (intros Hz; by apply Hne, nil_length_inv)). rewrite !Hlen. done.
    + intros j Hj. destruct (Hold j Hj) as (i & Hi & Hlt). apply (row_from_renamed k d cols p' i j (rename st)); [by apply Hrename|by apply Rrow].
    + intros j Hj. destruct (Hold j Hj) as (i & Hi & Hlt). rewrite E9, E10, E11, !(row_at ord _ j i Hi). by apply Rsrc.
  - exact Hpool.
  - rewrite Z1, Z2. split; [apply (sy_values _ Ht)|apply (sy_operands _ Ht)].
  - intros node flag Hm. destruct (Hroots node flag Hm) as (id & Eid & Hflag).
    destruct (Hentry node id Eid) as (j & Ej & Hord).
    exists (Z.of_nat j + 1). replace (Z.to_nat (Z.of_nat j + 1 - 1)) with j by lia. pose proof (lookup_lt_Some _ _ _ Hord) as Hlt.
    split; [done|split; [|split]].
    + rewrite En. change (length (Opcodes q)) with (length (Opcodes cols)) in Hlen. lia.
    + rewrite E8, (row_at ord _ j _ Hord). done.
    + assert (1 ≤ node ≤ DocLen d) as Hn.
      { apply (proj1 (Forall_forall _ _) (dk_roots _ _ Hdoc)). unfold rootNodes. rewrite !elem_of_app. unfold marked in Hm. naive_solver. }
      intros b reasons r. destruct (Hnodes node Hn) as (_ & _ & ->). rewrite Eid. cbn [map]. rewrite groupValue_singleton. f_equal. symmetry.
      by apply (reorders_denote q Hg Hcols st ord Hinv Hlen p' Hr).
Qed.

(** ** The executor's checks on a row *)

(** What the policy validator checks of the payloads beyond the well-formedness of
    nodes, and that groups have the two children that the executor asks for. *)
Record doc_strict (d : Document) (schema : IndexSchema) : Prop := {
  ds_ordered node field op value kind column : 1 ≤ node ≤ DocLen d → Compare d node = Some (field, op, value) → CompareOpLess ≤ op ≤ CompareOpGreaterEqual →
    SchemaLookup schema field = Some (kind, column) → kind = ValueKindInteger ∨ kind = ValueKindTimestamp;
  ds_fields node field op value : 1 ≤ node ≤ DocLen d → Compare d node = Some (field, op, value) → 0 ≤ field;
  ds_lists node vs : 1 ≤ node ≤ DocLen d → InValues d node = Some vs → vs ≠ [];
  ds_evidence node q : 1 ≤ node ≤ DocLen d → EvidenceMatch d node = Some q → 1 ≤ qKind q ≤ zlen (dEvidenceKindNames d) ∧ 1 ≤ qState q ≤ zlen (dEvidenceStateNames d);
  ds_groups node children : 1 ≤ node ≤ DocLen d → GroupChildren d node = Some children → (2 ≤ length children)%nat
}.

Section rows.
Context (d : Document) (fields : FieldTable) (source : Interner.Interner) (k : constState) (con : Constants) (Hcon : constants_of d fields source k con).
Context (q : Program) (Hsyms : symbols q = cSymbols con) (Hvals : values q = cValues con).
Context (Hdoc : doc_ok d (FieldIndex q)) (Hstrict : doc_strict d (FieldIndex q)).
Context (Hschema : schema_built (kinds fields) (FieldIndex q)) (Hkinds : Forall (λ x, KindValid x = true) (kinds fields)).
Context (Hknames : length (EvidenceKindNames q) = length (dEvidenceKindNames d)) (Hsnames : length (EvidenceStateNames q) = length (dEvidenceStateNames d)).
Context (Hrows : rows_from k d q) (Hlists : zlen (ListValues q) ≤ MaxUint32).
Context (Hranges : ∀ i, (i < length (Opcodes q))%nat → in_pool (ListValues q) (ListStarts q !!! i) (ListCounts q !!! i)).

Lemma value_decodable kind id : valueOk d kind id → decodable q kind (canonOf k id) = true.
Proof.
  intros (H0 & l & Hl & <-). destruct (co_values _ _ _ _ _ Hcon id l H0 Hl) as (vid & Ev & _ & Hv). unfold decodable, canonOf. rewrite Ev.
  by rewrite (Hv q Hsyms Hvals).
Qed.

Lemma literal_not_presence l : literalKind l ≠ ValueKindPresence.
Proof. by destruct l. Qed.

(** A row of a comparison is a well-formed predicate. *)
Lemma compare_row row node field op value kind column lits : 1 ≤ node ≤ DocLen d →
  (row < length (Opcodes q))%nat → Compare d node = Some (field, op, value) → SchemaLookup (FieldIndex q) field = Some (kind, column) → CompareOpValid op = true →
  (if op =? CompareOpIn then Forall (valueOk d kind) lits ∧ lits ≠ [] else if RequiresValue op then valueOk d kind value ∧ value ≠ 0 else value = 0) →
  keyOf q row = mkKey (default 0 (compareOpcode op)) field (if (op =? CompareOpIn) || (value =? 0) then 0 else canonOf k value) noPredicate
    (if op =? CompareOpIn then map (canonOf k) lits else []) [] → predicateOk q row = true.
Proof.
  intros Hn Hrow Hc Hlk Hop Hval Hkey. pose proof (rw_len _ _ _ Hrows) as (_ & L2 & L3 & L4 & L5 & _).
  assert (Opcodes q !!! row = default 0 (compareOpcode op) ∧ Fields q !!! row = field ∧
    Values q !!! row = (if (op =? CompareOpIn) || (value =? 0) then 0 else canonOf k value) ∧
    inLiterals q row = (if op =? CompareOpIn then map (canonOf k) lits else [])) as (E1 & E2 & E3 & E4).
  { split_and!; [exact (f_equal kOpcode Hkey)|exact (f_equal kField Hkey)|exact (f_equal kValue Hkey)|exact (f_equal kLiterals Hkey)]. }
  destruct (SchemaLookup_inv _ _ _ _ Hlk) as (F1 & F2 & F3 & F4). pose proof (ds_fields _ _ Hstrict _ _ _ _ Hn Hc) as F0.
  rewrite (sb_kinds _ _ Hschema) in F2. pose proof (schema_lookup _ _ Hschema field ltac:(lia)) as Hlk'. rewrite Hlk in Hlk'. injection Hlk' as Ek Ec.
  pose proof (schema_column _ _ Hschema Hkinds (Z.to_nat (field - 1)) ltac:(lia)) as Hcol. rewrite <-Ek, <-Ec in Hcol.
  assert (KindValid kind = true) as Hkv by (rewrite Ek; apply (Forall_lookup_total_1 _ _ _ Hkinds); lia).
  destruct (Hranges row Hrow) as (P1 & P2 & P3).
  unfold predicateOk. rewrite E1, E2, Hlk, bool_decide_eq_true_2 by lia. rewrite Hkv, (proj2 (Z.leb_le 1 field)), (proj2 (Z.leb_le 0 column)), (proj2 (Z.ltb_lt _ _)) by lia.
  rewrite E3, E4, (proj2 (Z.leb_le 0 (ListStarts q !!! row))), (proj2 (Z.leb_le 0 (ListCounts q !!! row))), (proj2 (Z.leb_le _ (zlen (ListValues q)))), (proj2 (Z.leb_le _ MaxUint32)) by lia.
  assert (∀ id, valueOk d kind id → kind ≠ ValueKindPresence) as Hpres by (intros id (_ & l & _ & <-); apply literal_not_presence).
  pose proof (ds_ordered _ _ Hstrict node field op value kind column Hn Hc) as Hord.
  assert (∀ id, valueOk d kind id ∧ id ≠ 0 →
    decodable q kind (if id =? 0 then 0 else canonOf k id) && negb ((kind =? ValueKindPresence) && true && true) = true) as Hscalar.
  { intros id [Hid Hne]. rewrite (proj2 (Z.eqb_neq id 0)), (value_decodable kind id Hid), (proj2 (Z.eqb_neq kind _)) by eauto. done. }
  assert ((kind = ValueKindInteger ∨ kind = ValueKindTimestamp) → negb (negb (kind =? ValueKindInteger) && negb (kind =? ValueKindTimestamp)) = true) as Hkind
    by (intros [->| ->]; done).
  apply compareOp_cases in Hop. repeat (apply elem_of_cons in Hop as [->|Hop]; [|]); [..|by apply elem_of_nil in Hop]; cbn in Hval |- *.
  - by rewrite Hscalar.
  - by rewrite Hscalar.
  - destruct Hval as [Hval Hne]. rewrite (proj2 (forallb_forall _ _)), (proj2 (Z.eqb_neq kind _)); [done| |].
    + destruct lits as [|id lits]; [done|]. apply Forall_cons in Hval as [Hid _]. eauto.
    + intros x (id & <- & Hin)%in_map_iff. rewrite Forall_forall in Hval. apply value_decodable, Hval. by apply list_elem_of_In.
  - subst value. by rewrite andb_false_r.
  - rewrite Hscalar, Hkind by (done || (apply Hord; [unfold CompareOpLess, CompareOpGreaterEqual; lia|done])). done.
  - rewrite Hscalar, Hkind by (done || (apply Hord; [unfold CompareOpLess, CompareOpGreaterEqual; lia|done])). done.
  - rewrite Hscalar, Hkind by (done || (apply Hord; [unfold CompareOpLess, CompareOpGreaterEqual; lia|done])). done.
  - rewrite Hscalar, Hkind by (done || (apply Hord; [unfold CompareOpLess, CompareOpGreaterEqual; lia|done])). done.
  - subst value. by rewrite andb_false_r.
Qed.

Lemma row_checked row : (row < length (Opcodes q))%nat → instructionOk q row = true ∧ (Opcodes q !!! row = OpcodeIn → inLiterals q row ≠ []).
Proof.
  intros Hrow. destruct (rw_row _ _ _ Hrows row Hrow) as (node & args & Hn & Hkey & _). destruct (dk_node _ _ Hdoc node Hn) as [Hok _].
  pose proof (f_equal kOpcode Hkey) as Eop. pose proof (f_equal kValue Hkey) as Eval. pose proof (f_equal kEvidence Hkey) as Eev. pose proof (f_equal kLiterals Hkey) as Elits.
  change (kOpcode (keyOf q row)) with (Opcodes q !!! row) in Eop. change (kValue (keyOf q row)) with (Values q !!! row) in Eval.
  change (kLiterals (keyOf q row)) with (inLiterals q row) in Elits. unfold nodeKey in *.
  assert (∀ op, CompareOpValid op = true → predicateOk q row = true → Opcodes q !!! row = default 0 (compareOpcode op) → instructionOk q row = true) as Hcompare.
  { intros op Hop Hp E. unfold instructionOk. rewrite E. apply compareOp_cases in Hop.
    repeat (apply elem_of_cons in Hop as [->|Hop]; [exact Hp|]). by apply elem_of_nil in Hop. }
  destruct Hok as [value Hk Hb Hv|field op value kind column Hk Hc Hop Hin Hlk Hv|field kind column vs Hk Hc Hi Hlen Hlk Hv|kind children Hk Hg Hc Hne Hlen Hr|child Hk Hc Hr|e Hk He H1 H2 H3];
    rewrite Hk in *; cbn in Eop, Eval, Eev, Elits, Hkey.
  - rewrite Hb in *. simpl in Eval. unfold instructionOk. rewrite Eop, Eval. split; [by apply value_decodable|done].
  - rewrite Hc in *. cbn in Eop, Eval, Elits, Hkey. rewrite (proj2 (Z.eqb_neq op CompareOpIn)) in * by done. split.
    + apply (Hcompare op Hop); [|done]. apply (compare_row row node field op value kind column []); [done..| |].
      * by rewrite (proj2 (Z.eqb_neq op CompareOpIn)).
      * by rewrite (proj2 (Z.eqb_neq op CompareOpIn)).
    + intros E. exfalso. apply compareOp_cases in Hop. rewrite Eop in E.
      repeat (apply elem_of_cons in Hop as [->|Hop]; [done|]). by apply elem_of_nil in Hop.
  - rewrite Hc, Hi in *. cbn in Eop, Eval, Elits, Hkey. split.
    + apply (Hcompare CompareOpIn); [done| |done]. apply (compare_row row node field CompareOpIn 0 kind column vs); [done..| |done].
      cbn. split; [done|]. by apply (ds_lists _ _ Hstrict node vs Hn).
    + intros _. rewrite Elits. destruct vs; [|done]. by destruct (ds_lists _ _ Hstrict node [] Hn Hi).
  - destruct (group_not_leaf kind Hg) as (G1 & G2 & G3). rewrite G1, G2, Hg in Eop. cbn in Eop. unfold instructionOk. rewrite Eop.
    destruct (kind =? NodeKindAll); split; done.
  - unfold instructionOk. rewrite Eop. done.
  - rewrite He in *. cbn in Eop, Eev. unfold instructionOk. rewrite Eop. cbn. split; [|done].
    destruct (ds_evidence _ _ Hstrict node e Hn He) as [B1 B2]. injection Eev as X1 X2 _ _ _. rewrite X1, X2. unfold MaxUint32 in *. lia.
Qed.

(** The opcodes of the compiler are valid and have the operands their kind asks for. *)
Lemma row_arity row : (row < length (Opcodes q))%nat → let opcode := Opcodes q !!! row in let count := length (kArgs (keyOf q row)) in
  OpcodeValid opcode = true ∧ if IsGroup opcode then (2 ≤ count)%nat else if opcode =? OpcodeNot then count = 1%nat else count = 0%nat.
Proof.
  clear Hknames Hsnames Hlists Hranges Hschema Hkinds. intros Hrow opcode count. destruct (rw_row _ _ _ Hrows row Hrow) as (node & args & Hn & Hkey & Hargs). destruct (dk_node _ _ Hdoc node Hn) as [Hok _].
  assert (opcode = kOpcode (nodeKey k d node args)) as -> by (exact (f_equal kOpcode Hkey)). assert (count = length (kArgs (nodeKey k d node args))) as -> by (by rewrite <-Hkey).
  unfold nodeKey.
  assert (∀ op, CompareOpValid op = true → OpcodeValid (default 0 (compareOpcode op)) = true ∧ IsGroup (default 0 (compareOpcode op)) = false ∧
    (default 0 (compareOpcode op) =? OpcodeNot) = false) as Hcompare.
  { intros op Hop. apply compareOp_cases in Hop. repeat (apply elem_of_cons in Hop as [->|Hop]; [done|]). by apply elem_of_nil in Hop. }
  destruct Hok as [value Hk Hb Hv|field op value kind column Hk Hc Hop Hin Hlk Hv|field kind column vs Hk Hc Hi Hlen Hlk Hv|kind children Hk Hg Hc Hne Hlen Hr|child Hk Hc Hr|e Hk He H1 H2 H3];
    rewrite Hk in *; cbn.
  - done.
  - rewrite Hc. cbn. destruct (Hcompare op Hop) as (-> & -> & ->). done.
  - rewrite Hc. done.
  - destruct (group_not_leaf kind Hg) as (G1 & G2 & G3). rewrite G1, G2, Hg. cbn. destruct (Hargs kind eq_refl) as [Ha _]. specialize (Ha Hg).
    pose proof (ds_groups _ _ Hstrict node children Hn Hc) as Htwo. unfold childrenOf in Ha. rewrite Hk, G3, Hg, Hc in Ha. simpl in Ha.
    destruct (kind =? NodeKindAll); cbn; split; done || lia.
  - destruct (Hargs NodeKindNot eq_refl) as [_ Ha]. split; [done|]. by apply Ha.
  - rewrite He. done.
Qed.
End rows.
