(* ===== verification/Semantics.v ===== *)
(** * Semantic lowering: [internal/compile/lower_semantics.go], [lower_explanation.go]
    Outcomes, remediations, templates, requirements and clauses of a document become
    the columns that finalization and explanation read: roots are replaced by their
    instructions, every clause gets one resolution row per reason, and the result
    tables are validated ([internal/program/program.go], [freeze.go]).  The last
    section composes all stages of the compiler. *)

From S2P Require Import Prelude Store Truth Schema Result Program Templates Batch Predicate Evidence Executor PolicyIndex PolicyBuild Finalize Execute.
From S2P Require Import Liveness Schedule SymbolTable Interner Frozen SymbolCheck Ast Constants Normalize Compact IndexLower.
Import Reason.
#[local] Open Scope Z_scope.

(** ** Roots *)

Definition rootInstruction (c : InstructionColumns) (node sourceNodeCount : Z) : go Z :=
  check (negb (node =? 0)) ErrInvalidDocument ;;
  let index := node - 1 in
  check (index <? sourceNodeCount) ErrInvalidDocument ;;
  check (negb ((zlen (NodeInstructionStarts c) <=? index) || (zlen (NodeInstructionCounts c) <=? index))) ErrInvalidGeneratedProgram ;;
  start ← at_ (NodeInstructionStarts c) index;
  count ← at_ (NodeInstructionCounts c) index;
  check ((count =? 1) && (start <? zlen (NodeInstructionIDs c))) ErrInvalidGeneratedProgram ;;
  id ← at_ (NodeInstructionIDs c) start;
  check (negb ((id =? 0) || (zlen (Opcodes c) <? id))) ErrInvalidGeneratedProgram ;;
  Ok id.

(** ** Outcomes and remediations *)

(** A table with the source spans of its rows. *)
Record spanned (T : Type) := { spTable : T; spStarts : list Z; spEnds : list Z }.
Arguments spTable {T} s.
Arguments spStarts {T} s.
Arguments spEnds {T} s.

Definition lowerOutcomes (k : constState) (d : Document) : go (spanned OutcomeTable) :=
  let n := length (dOutcomeNames d) in
  check (bool_decide (length (dOutcomePrecedence d) = n ∧ length (dOutcomeTerminal d) = n ∧ length (dOutcomeSourceStarts d) = n ∧
                      length (dOutcomeSourceEnds d) = n)) ErrInvalidDocument ;;
  names ← map_go (symbolForValue k) (dOutcomeNames d);
  Ok {| spTable := {| Names := names; Precedence := dOutcomePrecedence d; Terminal := dOutcomeTerminal d |};
        spStarts := dOutcomeSourceStarts d; spEnds := dOutcomeSourceEnds d |}.

Definition runtimeRemediationKind (kind : Z) : option Z :=
  if kind =? RemediationKindSetField then Some RemediationSetField
  else if kind =? RemediationKindAddEvidence then Some RemediationAddEvidence
  else None.

(** One row: the payload of the other kind stays zero. *)
Definition lowerRemediation (k : constState) (d : Document) (i : nat) : go Remediation :=
  kind ← orErr (runtimeRemediationKind (dRemediationKinds d !!! i)) ErrInvalidDocument;
  if kind =? RemediationSetField then
    match canonicalValue k (dRemediationValues d !!! i) with
    | Ok value =>
        check (negb ((dRemediationFields d !!! i =? 0) || negb (dRemediationEvidenceKinds d !!! i =? 0))) ErrInvalidDocument ;;
        Ok {| Result.Kind := kind; rField := dRemediationFields d !!! i; rValue := value; rEvidenceKind := 0 |}
    | Err _ => Err ErrInvalidDocument
    | Panic msg => Panic msg
    end
  else
    check (negb (negb (dRemediationFields d !!! i =? 0) || negb (dRemediationValues d !!! i =? 0) || (dRemediationEvidenceKinds d !!! i =? 0)))
      ErrInvalidDocument ;;
    Ok {| Result.Kind := kind; rField := 0; rValue := 0; rEvidenceKind := dRemediationEvidenceKinds d !!! i |}.

Definition lowerRemediations (k : constState) (d : Document) : go (spanned RemediationTable) :=
  let n := length (dRemediationKinds d) in
  check (bool_decide (length (dRemediationFields d) = n ∧ length (dRemediationValues d) = n ∧ length (dRemediationEvidenceKinds d) = n ∧
                      length (dRemediationSourceStarts d) = n ∧ length (dRemediationSourceEnds d) = n)) ErrInvalidDocument ;;
  rows ← map_go (lowerRemediation k d) (seq 0 n);
  Ok {| spTable := {| Kinds := map Result.Kind rows; rFields := map rField rows; rValues := map rValue rows; rEvidenceKinds := map rEvidenceKind rows |};
        spStarts := dRemediationSourceStarts d; spEnds := dRemediationSourceEnds d |}.

(** ** Templates and explanations *)

Definition maxNamespacedUint32Bytes : Z := 11.

(** The operations of both packages have the same numbers. *)
Definition runtimeTemplateOp (op : Z) : option Z := if TemplateOpValid op then Some op else None.

Definition programSymbolLength (s : SymbolColumns) (id : Z) : option Z :=
  match Symbol s id with
  | Some value => if MaxUint32 <? zlen value then None else Some (zlen value)
  | None => None
  end.

Fixpoint maxSymbolLength (s : SymbolColumns) (ids : list Z) (maximum : Z) : option Z :=
  match ids with
  | [] => Some maximum
  | id :: ids => match programSymbolLength s id with
                 | Some length_ => maxSymbolLength s ids (if maximum <? length_ then length_ else maximum)
                 | None => None
                 end
  end.

Definition maxProgramSymbolLength (s : SymbolColumns) (ids : list Z) : option Z :=
  match maxSymbolLength s ids 0 with
  | Some maximum => if bool_decide (ids = []) then None else Some maximum
  | None => None
  end.

Definition templateOpMaximum (con : Constants) (outs : OutcomeTable) (op literal : Z) : option Z :=
  let '(name, version, _) := cIdentity con in
  if op =? TemplateOpLiteral then (if literal =? 0 then None else Some literal)
  else if op =? TemplateOpPolicyName then programSymbolLength (cSymbols con) name
  else if op =? TemplateOpPolicyVersion then programSymbolLength (cSymbols con) version
  else if (op =? TemplateOpRequestID) || (op =? TemplateOpRequirementID) || (op =? TemplateOpClauseID) || (op =? TemplateOpNodeID) ||
          (op =? TemplateOpEvidenceID) then Some maxNamespacedUint32Bytes
  else if op =? TemplateOpOutcome then maxProgramSymbolLength (cSymbols con) (Names outs)
  else if op =? TemplateOpReason then Some (zlen (Evidence.bytes "wrong_subject"))
  else if op =? TemplateOpEvidenceKind then maxProgramSymbolLength (cSymbols con) (catNames (cEvidenceKinds con))
  else if (op =? TemplateOpEvidenceState) || (op =? TemplateOpRequiredEvidenceState) then maxProgramSymbolLength (cSymbols con) (catNames (cEvidenceStates con))
  else None.

(** The rendered size of a row's operations, bounded at every step. *)
Definition addOpMaximum (con : Constants) (outs : OutcomeTable) (op : Z * Z) (maximum : Z) : go Z :=
  value ← orErr (templateOpMaximum con outs op.1 op.2) ErrInvalidGeneratedProgram;
  let maximum := u64 (maximum + value) in
  check (negb (MaxRenderedTemplateBytes <? maximum)) ErrProgramTooLarge ;;
  Ok maximum.

Definition templateRowMaximum (con : Constants) (outs : OutcomeTable) (ops : list Z) (d : Document) (row : nat) : go Z :=
  let start := dTemplateOpStarts d !!! row in
  let count := dTemplateOpCounts d !!! row in
  let end_ := u64 (start + count) in
  check (negb ((MaxTemplateOperations <? count) || (zlen ops <? end_))) ErrInvalidDocument ;;
  maximum ← fold_go (addOpMaximum con outs) (zip (csr ops start (end_ - start)) (csr (dTemplateArgs d) start (end_ - start))) 0;
  Ok (u32 maximum).

Definition lowerTemplates (con : Constants) (outs : OutcomeTable) (d : Document) : go TemplateTable :=
  let rows := length (dTemplateOpStarts d) in
  check (bool_decide (length (dTemplateOpCounts d) = rows ∧ length (dTemplateLiteralStarts d) = rows ∧ length (dTemplateMaxBytes d) = rows ∧
                      length (dTemplateContexts d) = rows ∧ length (dTemplateOps d) = length (dTemplateArgs d))) ErrInvalidDocument ;;
  ops ← map_go (λ op, orErr (runtimeTemplateOp op) ErrInvalidDocument) (dTemplateOps d);
  maxima ← map_go (templateRowMaximum con outs ops d) (seq 0 rows);
  Ok {| LiteralBytes := dTemplateBytes d; OpStarts := dTemplateOpStarts d; OpCounts := dTemplateOpCounts d;
        LiteralStarts := dTemplateLiteralStarts d; MaxBytes := maxima; Ops := ops; Args := dTemplateArgs d |}.

(** The evidence node rows in node order, with the nine issue templates of each. *)
Definition issueRow (d : Document) (nodeRow : nat) (st : list Z * list Z * Z) : go (list Z * list Z * Z) :=
  let '(issueNodes, issueTemplates, filled) := st in
  kind ← at_ (dNodeKinds d) (Z.of_nat nodeRow);
  if negb (kind =? NodeKindEvidence) then Ok st else
  let evidenceRows := zlen (dEvidenceKinds d) in
  check (negb (bool_decide (length (dNodeRefs d) ≤ nodeRow)%nat || (evidenceRows <=? filled))) ErrInvalidDocument ;;
  payload ← at_ (dNodeRefs d) (Z.of_nat nodeRow);
  let start := u64 (payload * EvidenceIssueTemplateCount) in
  let end_ := u64 (start + EvidenceIssueTemplateCount) in
  check (negb ((evidenceRows <=? payload) || (zlen (dEvidenceIssueTemplateIDs d) <? end_))) ErrInvalidDocument ;;
  issueNodes ← put_ issueNodes filled (u32 (Z.of_nat nodeRow + 1));
  src ← slice_ (dEvidenceIssueTemplateIDs d) start end_;
  issueTemplates ← copyAt issueTemplates (filled * EvidenceIssueTemplateCount) src;
  Ok (issueNodes, issueTemplates, filled + 1).

Record explanationColumns := {
  xTemplates : TemplateTable; xExplanations : ExplanationTable; EvidenceIssueNodeIDs : list Z; EvidenceIssueTemplateIDs : list Z
}.

Definition lowerExplanationTables (con : Constants) (outs : OutcomeTable) (d : Document) : go explanationColumns :=
  templates ← lowerTemplates con outs d;
  let explanations := length (dExplanationRationaleIDs d) in
  check (bool_decide (length (dExplanationUncertaintyStarts d) = explanations ∧ length (dExplanationUncertaintyCounts d) = explanations)) ErrInvalidDocument ;;
  let evidenceRows := zlen (dEvidenceKinds d) in
  check (u64 (evidenceRows * EvidenceIssueTemplateCount) =? zlen (dEvidenceIssueTemplateIDs d)) ErrInvalidDocument ;;
  '(issueNodes, issueTemplates, filled) ← for_range (length (dNodeKinds d)) (issueRow d) (make_ evidenceRows, make_ (zlen (dEvidenceIssueTemplateIDs d)), 0);
  check (filled =? evidenceRows) ErrInvalidDocument ;;
  Ok {| xTemplates := templates;
        xExplanations := {| RationaleTemplateIDs := dExplanationRationaleIDs d; UncertaintyStarts := dExplanationUncertaintyStarts d;
                            UncertaintyCounts := dExplanationUncertaintyCounts d; UncertaintyTemplateIDs := dExplanationUncertaintyIDs d;
                            AssumptionTemplateIDs := dAssumptionTemplateIDs d |};
        EvidenceIssueNodeIDs := issueNodes; EvidenceIssueTemplateIDs := issueTemplates |}.

(** ** Requirements and clauses *)

(** The instruction of one requirement; its other columns are copied. *)
Definition requirementRoot (c : InstructionColumns) (d : Document) (i : nat) : go Z :=
  check (negb (zlen (dRequirementClauseIDs d) <? u64 (dRequirementClauseStarts d !!! i + dRequirementClauseCounts d !!! i))) ErrInvalidDocument ;;
  rootInstruction c (dRequirementApplicabilityRoots d !!! i) (zlen (dNodeKinds d)).

Definition lowerRequirements (c : InstructionColumns) (d : Document) : go (list Z) :=
  let n := length (dRequirementIDs d) in
  check (bool_decide (length (dRequirementApplicabilityRoots d) = n ∧ length (dRequirementClauseStarts d) = n ∧ length (dRequirementClauseCounts d) = n ∧
                      length (dRequirementSourceStarts d) = n ∧ length (dRequirementSourceEnds d) = n)) ErrInvalidDocument ;;
  check (forallb (λ id, negb ((id =? 0) || (zlen (dClauseAssertionRoots d) <? id))) (dRequirementClauseIDs d)) ErrInvalidDocument ;;
  map_go (requirementRoot c d) (seq 0 n).

Record clauseColumns := { xAssertions : list Z; xEvidence : list Z; xEvidenceNodes : list Z }.

(** Evidence edge [edge]: its instruction and its source node. *)
Definition evidenceEdge (c : InstructionColumns) (d : Document) (edge : Z) (st : list Z * list Z) : go (list Z * list Z) :=
  sourceNode ← at_ (dClauseEvidenceNodeIDs d) edge;
  root ← rootInstruction c sourceNode (zlen (dNodeKinds d));
  evidence ← put_ st.1 edge root;
  evidenceNodes ← put_ st.2 edge sourceNode;
  Ok (evidence, evidenceNodes).

Definition lowerClause (c : InstructionColumns) (d : Document) (i : nat) (x : clauseColumns) : go clauseColumns :=
  assertion ← rootInstruction c (dClauseAssertionRoots d !!! i) (zlen (dNodeKinds d));
  let start := dClauseEvidenceStarts d !!! i in
  let count := dClauseEvidenceCounts d !!! i in
  check (negb (zlen (dClauseEvidenceNodeIDs d) <? u64 (start + count))) ErrInvalidDocument ;;
  '(evidence, evidenceNodes) ← for_range (Z.to_nat count) (λ j, evidenceEdge c d (u32 (start + Z.of_nat j))) (xEvidence x, xEvidenceNodes x);
  check (negb (zlen (dClauseRemediationIDs d) <? u64 (dClauseRemediationStarts d !!! i + dClauseRemediationCounts d !!! i))) ErrInvalidDocument ;;
  assertions ← put_ (xAssertions x) (Z.of_nat i) assertion;
  Ok {| xAssertions := assertions; xEvidence := evidence; xEvidenceNodes := evidenceNodes |}.

Definition lowerClauses (c : InstructionColumns) (d : Document) : go clauseColumns :=
  let n := length (dClauseAssertionRoots d) in
  check (bool_decide (length (dClauseEvidenceStarts d) = n ∧ length (dClauseEvidenceCounts d) = n ∧ length (dClauseRemediationStarts d) = n ∧
                      length (dClauseRemediationCounts d) = n ∧ length (dClauseOnSatisfied d) = n ∧ length (dClauseOnFalse d) = n ∧
                      length (dClauseOnMissing d) = n ∧ length (dClauseOnStale d) = n ∧ length (dClauseOnUnclear d) = n ∧
                      length (dClauseOnUnverifiable d) = n ∧ length (dClauseOnConflict d) = n) &&
         (zlen (dClauseExplanationIDs d) =? u64 (Z.of_nat n * ResolutionBranchCount)) &&
         bool_decide (length (dClauseSourceStarts d) = n ∧ length (dClauseSourceEnds d) = n)) ErrInvalidDocument ;;
  let edges := zlen (dClauseEvidenceNodeIDs d) in
  for_range n (lowerClause c d) {| xAssertions := make_ (Z.of_nat n); xEvidence := make_ edges; xEvidenceNodes := make_ edges |}.

(** ** Resolution rows *)

(** The branch of a clause that decides a reason. *)
Definition reasonOutcome (resolution : Ast.Resolution) (reason : Z) : Z :=
  if reason =? ReasonMissing then OnMissing resolution else if reason =? ReasonStale then OnStale resolution
  else if reason =? ReasonUnclear then OnUnclear resolution else if reason =? ReasonConflict then OnConflict resolution
  else OnUnverifiable resolution.

Definition reasonExplanation (resolution : Ast.Resolution) (reason : Z) : Z :=
  if reason =? ReasonMissing then OnMissingExplanation resolution else if reason =? ReasonStale then OnStaleExplanation resolution
  else if reason =? ReasonUnclear then OnUnclearExplanation resolution else if reason =? ReasonConflict then OnConflictExplanation resolution
  else OnUnverifiableExplanation resolution.

Record resolutionRow := { rrOutcome : Z; rrExplanation : Z; rrStart : Z; rrCount : Z }.

(** A terminal outcome has no remediations. *)
Definition reasonRow (outs : OutcomeTable) (d : Document) (resolution : Ast.Resolution) (i : nat) (reason : Z) : go resolutionRow :=
  outcome ← orErr (Outcomes.Lookup outs (reasonOutcome resolution reason)) ErrInvalidGeneratedProgram;
  Ok {| rrOutcome := reasonOutcome resolution reason; rrExplanation := reasonExplanation resolution reason;
        rrStart := if oTerminal outcome then 0 else dClauseRemediationStarts d !!! i;
        rrCount := if oTerminal outcome then 0 else dClauseRemediationCounts d !!! i |}.

Definition clauseRows (outs : OutcomeTable) (d : Document) (i : nat) : go (list resolutionRow) :=
  '(_, resolution) ← orErr (Clause d (u32 (Z.of_nat i + 1))) ErrInvalidDocument;
  map_go (reasonRow outs d resolution i) allReasons.

(** Row [base + reason] of clause [i] follows the rows of the clauses before it. *)
Definition resolutionTable (outs : OutcomeTable) (d : Document) : go ResolutionTable :=
  let clauses := length (dClauseAssertionRoots d) in
  check (negb (bool_decide (clauses = 0%nat) || (MaxInt / ReasonCount <? Z.of_nat clauses))) ErrInvalidDocument ;;
  blocks ← map_go (clauseRows outs d) (seq 0 clauses);
  let rows := concat blocks in
  Ok {| OutcomeIDs := map rrOutcome rows; ExplanationIDs := map rrExplanation rows; RemediationStarts := map rrStart rows;
        RemediationCounts := map rrCount rows; RemediationIDs := dClauseRemediationIDs d |}.

(** ** Validation of the result tables (program.go) *)

Fixpoint ascendingNodes (previous : Z) (l : list Z) : bool :=
  match l with
  | [] => true
  | node :: l => negb ((node =? 0) || (node <=? previous)) && ascendingNodes node l
  end.

Definition ValidateResultTables (x : explanationColumns) (outs : OutcomeTable) (rems : RemediationTable) (rs : ResolutionTable)
    (clauseExplanations : list Z) : go Resolver :=
  Templates.Validate (xTemplates x) ;;
  Explanation.Validate (xExplanations x) (xTemplates x) ;;
  resolver ← Resolve.NewResolver outs rems rs;
  check (u64 (zlen (EvidenceIssueNodeIDs x) * EvidenceIssueTemplateCount) =? zlen (EvidenceIssueTemplateIDs x)) ErrInvalidEvidenceIssueTable ;;
  check (ascendingNodes 0 (EvidenceIssueNodeIDs x)) ErrInvalidEvidenceIssueTable ;;
  check (forallb (λ id, bool_decide (is_Some (Templates.Lookup (xTemplates x) id))) (EvidenceIssueTemplateIDs x)) ErrInvalidTemplateReference ;;
  check (forallb (λ id, bool_decide (is_Some (ExplanationLookup (xExplanations x) id))) clauseExplanations) ErrInvalidExplanationReference ;;
  check (forallb (λ id, bool_decide (is_Some (ExplanationLookup (xExplanations x) id))) (ExplanationIDs rs)) ErrInvalidExplanationReference ;;
  Ok resolver.

(** ** The stage *)

(** A program with the columns that execution does not read. *)
Record Compiled := {
  cpProgram :> Program; cpConstants : Constants; cpExplanations : explanationColumns;
  cpOutcomeSpans : list Z * list Z; cpRemediationSpans : list Z * list Z; cpRequirementSpans : list Z * list Z; cpClauseSpans : list Z * list Z
}.

Definition loweredColumns (con : Constants) (d : Document) (roots : list Z) (x : clauseColumns) : SemanticColumns :=
  {| EvidenceKindNames := catNames (cEvidenceKinds con); EvidenceStateNames := catNames (cEvidenceStates con);
     RequirementIDs := dRequirementIDs d; RequirementRoots := roots; RequirementSourceNodeIDs := dRequirementApplicabilityRoots d;
     RequirementClauseStarts := dRequirementClauseStarts d; RequirementClauseCounts := dRequirementClauseCounts d;
     RequirementClauseIDs := dRequirementClauseIDs d; ClauseAssertionRoots := xAssertions x; ClauseAssertionSourceNodeIDs := dClauseAssertionRoots d;
     ClauseEvidenceStarts := dClauseEvidenceStarts d; ClauseEvidenceCounts := dClauseEvidenceCounts d; ClauseEvidenceIDs := xEvidence x;
     ClauseEvidenceSourceNodeIDs := xEvidenceNodes x; ClauseOnSatisfied := dClauseOnSatisfied d; ClauseOnFalse := dClauseOnFalse d;
     ClauseExplanationIDs := dClauseExplanationIDs d; ClauseRemediationStarts := dClauseRemediationStarts d;
     ClauseRemediationCounts := dClauseRemediationCounts d; ClauseRemediationIDs := dClauseRemediationIDs d |}.

Definition with_semantics (p : Program) (s : SemanticColumns) (e : ExplanationTable) (outs : OutcomeTable) (rems : RemediationTable)
    (rs : ResolutionTable) (r : Resolver) : Program :=
  {| instr := instr p; slots := slots p; symbols := symbols p; values := values p; semantics := s; Explanations := e; Outcomes_ := outs;
     RemediationRows := rems; Resolutions := rs; resolver := r; ApplicabilityIndex := ApplicabilityIndex p; FactIndexSpec := FactIndexSpec p;
     FieldIndex := FieldIndex p; FieldKinds := FieldKinds p |}.

(** The errors of the result tables become one error of the compiler. *)
Definition generated {A} (c : go A) : go A := match c with Err _ => Err ErrInvalidGeneratedProgram | r => r end.

Definition lowerSemantics (k : constState) (con : Constants) (d : Document) (p : Program) : go Compiled :=
  outs ← lowerOutcomes k d;
  rems ← lowerRemediations k d;
  x ← lowerExplanationTables con (spTable outs) d;
  roots ← lowerRequirements p d;
  clauses ← lowerClauses p d;
  rs ← resolutionTable (spTable outs) d;
  r ← generated (ValidateResultTables x (spTable outs) (spTable rems) rs (dClauseExplanationIDs d));
  Ok {| cpProgram := with_semantics p (loweredColumns con d roots clauses) (xExplanations x) (spTable outs) (spTable rems) rs r;
        cpConstants := con; cpExplanations := x; cpOutcomeSpans := (spStarts outs, spEnds outs); cpRemediationSpans := (spStarts rems, spEnds rems);
        cpRequirementSpans := (dRequirementSourceStarts d, dRequirementSourceEnds d); cpClauseSpans := (dClauseSourceStarts d, dClauseSourceEnds d) |}.

(** ** The compiler (lower.go) *)

Definition with_program (c : Compiled) (p : Program) : Compiled :=
  {| cpProgram := p; cpConstants := cpConstants c; cpExplanations := cpExplanations c; cpOutcomeSpans := cpOutcomeSpans c;
     cpRemediationSpans := cpRemediationSpans c; cpRequirementSpans := cpRequirementSpans c; cpClauseSpans := cpClauseSpans c |}.

(** [Freeze] copies every column, which a value model shares, and validates the
    copied result tables again; the resolver is the one over the copies. *)
Definition Freeze (c : Compiled) : go Compiled :=
  let p := cpProgram c in
  let rs := {| OutcomeIDs := OutcomeIDs (Resolutions p); ExplanationIDs := ExplanationIDs (Resolutions p);
               RemediationStarts := RemediationStarts (Resolutions p); RemediationCounts := RemediationCounts (Resolutions p);
               RemediationIDs := ClauseRemediationIDs p |} in
  r ← ValidateResultTables (cpExplanations c) (Outcomes_ p) (RemediationRows p) rs (ClauseExplanationIDs p);
  Ok (with_program c (with_semantics p (semantics p) (xExplanations (cpExplanations c)) (Outcomes_ p) (RemediationRows p) rs r)).

Definition emptySemantics (con : Constants) : SemanticColumns :=
  {| EvidenceKindNames := catNames (cEvidenceKinds con); EvidenceStateNames := catNames (cEvidenceStates con);
     RequirementIDs := []; RequirementRoots := []; RequirementSourceNodeIDs := []; RequirementClauseStarts := []; RequirementClauseCounts := [];
     RequirementClauseIDs := []; ClauseAssertionRoots := []; ClauseAssertionSourceNodeIDs := []; ClauseEvidenceStarts := []; ClauseEvidenceCounts := [];
     ClauseEvidenceIDs := []; ClauseEvidenceSourceNodeIDs := []; ClauseOnSatisfied := []; ClauseOnFalse := []; ClauseExplanationIDs := [];
     ClauseRemediationStarts := []; ClauseRemediationCounts := []; ClauseRemediationIDs := [] |}.

(** The program after the constant stage of a fresh lowerer. *)
Definition constantProgram (con : Constants) : Program :=
  {| instr := noColumns; slots := {| TruthSlots := []; ReasonSlots := []; TruthSlotCount := 0; ReasonSlotCount := 0 |};
     symbols := cSymbols con; values := cValues con; semantics := emptySemantics con;
     Explanations := {| RationaleTemplateIDs := []; UncertaintyStarts := []; UncertaintyCounts := []; UncertaintyTemplateIDs := []; AssumptionTemplateIDs := [] |};
     Outcomes_ := {| Names := []; Precedence := []; Terminal := [] |};
     RemediationRows := {| Kinds := []; rFields := []; rValues := []; rEvidenceKinds := [] |};
     Resolutions := {| OutcomeIDs := []; ExplanationIDs := []; RemediationStarts := []; RemediationCounts := []; RemediationIDs := [] |};
     resolver := {| outcomes := {| Names := []; Precedence := []; Terminal := [] |};
                    remediations := {| Kinds := []; rFields := []; rValues := []; rEvidenceKinds := [] |};
                    rules := {| OutcomeIDs := []; ExplanationIDs := []; RemediationStarts := []; RemediationCounts := []; RemediationIDs := [] |} |};
     ApplicabilityIndex := {| pFieldIDs := []; FieldValueStarts := []; FieldValueCounts := []; WildcardMasks := []; pValues := []; ValueMasks := [];
                              AllMask := []; RequirementCount := 0; pWordCount := 0 |};
     FactIndexSpec := {| fFieldIDs := []; fColumns := []; ValueStarts := []; ValueCounts := []; UseCounts := []; fValues := [] |};
     FieldIndex := {| sKinds := []; sColumns := []; sCounts := [] |}; FieldKinds := fieldKinds (cFields con) |}.

(** [Lower] on a document that passed validation. *)
Definition lowerDocument (d : Document) (fields : FieldTable) (source : Interner.Interner) : go Compiled :=
  check (negb (bool_decide (dRequirementIDs d = []) || bool_decide (dClauseAssertionRoots d = []))) ErrEmptyPolicy ;;
  '(k, con) ← lowerConstants d fields source;
  p ← lowerInstructions k d (constantProgram con);
  c ← lowerSemantics k con d p;
  s ← assignSlots c slotReuse;
  p ← lowerIndexes (with_slots c s);
  generated (Freeze (with_program c p)).
