(* ===== verification/SemanticsOk.v ===== *)
(** * What semantic lowering guarantees
    The columns that [lowerSemantics] returns: every requirement and clause holds the
    instruction of its root node, every evidence edge that of its evidence node, and
    the resolution rows of a clause hold its branches. *)

From S2P Require Import Prelude Store Truth Schema Result Program Templates Batch Predicate Simd FactIndex Evidence Executor PolicyIndex PolicyBuild Finalize Execute.
From S2P Require Import Liveness Schedule SymbolTable Interner Frozen SymbolCheck Ast Constants ConstantsMeaning Normalize Compact DocMeaning NormalizeOk WalkOk LowerMeaning.
From S2P Require Import IndexLower Semantics.
Import Reason.
#[local] Open Scope Z_scope.

(** A loop that fills one entry per index. *)
Lemma map_go_seq `{Inhabited B} (f : nat → go B) m ys : map_go f (seq 0 m) = Ok ys → length ys = m ∧ ∀ i, (i < m)%nat → f i = Ok (ys !!! i).
Proof.
  intros Hall%map_go_inv. pose proof (Forall2_length _ _ _ Hall) as El. rewrite length_seq in El. split; [done|]. intros i Hi.
  destruct (lookup_lt_is_Some_2 ys i) as [y Hy]; [lia|]. rewrite (list_lookup_total_correct _ _ _ Hy).
  exact (Forall2_lookup_lr _ _ _ i i y Hall (lookup_seq_lt _ _ _ Hi) Hy).
Qed.

(** ** Roots *)

Lemma rootInstruction_inv c node n id : rootInstruction c node n = Ok id → 1 ≤ node ≤ n ∧ nodeEntriesOf c node = [id] ∧ id ≠ 0 ∧ id ≤ zlen (Opcodes c).
Proof.
  unfold rootInstruction. intros H. apply go_bind_inv in H as ([] & H1%check_inv & H). apply go_bind_inv in H as ([] & H2%check_inv & H).
  apply go_bind_inv in H as ([] & H3%check_inv & H). apply go_bind_inv in H as (start & Hs%at_Ok & H). apply go_bind_inv in H as (count & Hc%at_Ok & H).
  apply go_bind_inv in H as ([] & H4%check_inv & H). apply go_bind_inv in H as (id' & Hid%at_Ok & H). apply go_bind_inv in H as ([] & H5%check_inv & [= ->]).
  rewrite andb_true_iff, Z.eqb_eq in H4. destruct H4 as [-> H4]. apply Z.ltb_lt in H2. destruct Hs as [H0 Hs]. split; [lia|].
  rewrite negb_true_iff, orb_false_iff, Z.eqb_neq, Z.ltb_ge in H5. split; [|lia]. unfold nodeEntriesOf.
  rewrite (list_lookup_total_correct _ _ _ Hs), (list_lookup_total_correct _ _ _ (proj2 Hc)). unfold csr. destruct Hid as [_ Hid].
  by rewrite (drop_S _ _ _ Hid).
Qed.

(** The value types of the semantic columns. *)
Record tables_typed (d : Document) : Prop := {
  tt_requirements : Forall is_u32 (dRequirementClauseStarts d) ∧ Forall is_u32 (dRequirementClauseCounts d) ∧ Forall is_u32 (dRequirementClauseIDs d);
  tt_evidence : Forall is_u32 (dClauseEvidenceStarts d) ∧ Forall is_u32 (dClauseEvidenceCounts d) ∧ zlen (dClauseEvidenceNodeIDs d) ≤ MaxUint32;
  tt_remediations : Forall is_u32 (dClauseRemediationStarts d) ∧ Forall (λ c, 0 ≤ c ≤ MaxUint16) (dClauseRemediationCounts d);
  tt_clauses : zlen (dClauseAssertionRoots d) < MaxUint32;
  tt_rows : zlen (dRequirementIDs d) ≤ MaxUint32
}.

Section lowered.
Context (c : InstructionColumns) (d : Document) (Ht : tables_typed d).
Local Abbreviation n := (zlen (dNodeKinds d)).

(** ** Requirements *)

Record requirements_of (roots : list Z) : Prop := {
  rq_lens : let m := length (dRequirementIDs d) in length roots = m ∧ length (dRequirementApplicabilityRoots d) = m ∧
    length (dRequirementClauseStarts d) = m ∧ length (dRequirementClauseCounts d) = m;
  rq_clauses : Forall (λ id, 1 ≤ id ≤ zlen (dClauseAssertionRoots d)) (dRequirementClauseIDs d);
  rq_root i : (i < length (dRequirementIDs d))%nat → rootInstruction c (dRequirementApplicabilityRoots d !!! i) n = Ok (roots !!! i);
  rq_range i : (i < length (dRequirementIDs d))%nat →
    in_pool (dRequirementClauseIDs d) (dRequirementClauseStarts d !!! i) (dRequirementClauseCounts d !!! i)
}.

Lemma lowerRequirements_inv roots : lowerRequirements c d = Ok roots → requirements_of roots.
Proof.
  unfold lowerRequirements. intros H. apply go_bind_inv in H as ([] & Hl%check_inv & H). apply go_bind_inv in H as ([] & Hids%check_inv & H%map_go_seq).
  apply bool_decide_eq_true in Hl as (L1 & L2 & L3 & _). destruct H as [El Hrow]. destruct (tt_requirements _ Ht) as (T1 & T2 & T3).
  split.
  - simpl. lia.
  - apply Forall_forall. intros id Hin. rewrite forallb_forall in Hids. specialize (Hids id (proj1 (list_elem_of_In _ _) Hin)).
    rewrite Forall_forall in T3. specialize (T3 id Hin). unfold is_u32 in T3. rewrite negb_true_iff, orb_false_iff, Z.eqb_neq, Z.ltb_ge in Hids. lia.
  - intros i Hi. specialize (Hrow i Hi). unfold requirementRoot in Hrow. by apply go_bind_inv in Hrow as ([] & _ & ?).
  - intros i Hi. specialize (Hrow i Hi). unfold requirementRoot in Hrow. apply go_bind_inv in Hrow as ([] & Hr%check_inv & _).
    pose proof (Forall_lookup_total_1 _ _ i T1 ltac:(lia)) as U1. pose proof (Forall_lookup_total_1 _ _ i T2 ltac:(lia)) as U2. unfold is_u32 in U1, U2.
    rewrite negb_true_iff, Z.ltb_ge, u64_small in Hr by (unfold is_u64; lia). unfold in_pool. lia.
Qed.

(** ** Clauses *)

(** Evidence edge [e] holds its node and the node's instruction. *)
Definition edgeWritten (evidence evidenceNodes : list Z) (e : nat) : Prop :=
  rootInstruction c (dClauseEvidenceNodeIDs d !!! e) n = Ok (evidence !!! e) ∧ evidenceNodes !!! e = dClauseEvidenceNodeIDs d !!! e.

Record clauses_of (m : nat) (x : clauseColumns) : Prop := {
  cl_lens : length (xAssertions x) = length (dClauseAssertionRoots d) ∧ length (xEvidence x) = length (dClauseEvidenceNodeIDs d) ∧
    length (xEvidenceNodes x) = length (dClauseEvidenceNodeIDs d);
  cl_assertion i : (i < m)%nat → rootInstruction c (dClauseAssertionRoots d !!! i) n = Ok (xAssertions x !!! i);
  cl_range i : (i < m)%nat → in_pool (dClauseEvidenceNodeIDs d) (dClauseEvidenceStarts d !!! i) (dClauseEvidenceCounts d !!! i) ∧
    in_pool (dClauseRemediationIDs d) (dClauseRemediationStarts d !!! i) (dClauseRemediationCounts d !!! i);
  cl_edges e : (e < length (dClauseEvidenceNodeIDs d))%nat → edgeWritten (xEvidence x) (xEvidenceNodes x) e ∨ xEvidence x !!! e = 0;
  cl_edge i j : (i < m)%nat → (j < Z.to_nat (dClauseEvidenceCounts d !!! i))%nat →
    edgeWritten (xEvidence x) (xEvidenceNodes x) (Z.to_nat (dClauseEvidenceStarts d !!! i) + j)
}.

Lemma put_inv {A} (l : list A) i x l' : put_ l i x = Ok l' → 0 ≤ i < zlen l ∧ l' = <[Z.to_nat i := x]> l.
Proof. unfold put_. destruct (Z.leb_spec 0 i), (Z.ltb_spec i (zlen l)); simpl; [|done..]. intros [= <-]. done. Qed.

Lemma written_insert evidence evidenceNodes e e' root node :
  (e < length evidence)%nat → (e < length evidenceNodes)%nat → node = dClauseEvidenceNodeIDs d !!! e → rootInstruction c node n = Ok root →
  edgeWritten evidence evidenceNodes e' ∨ e' = e → edgeWritten (<[e := root]> evidence) (<[e := node]> evidenceNodes) e'.
Proof.
  intros H1 H2 -> Hroot H. unfold edgeWritten. destruct (decide (e' = e)) as [->|Hne].
  - by rewrite !list_lookup_total_insert_eq by done.
  - rewrite !list_lookup_total_insert_ne by done. by destruct H.
Qed.
(** One edge. *)
Lemma evidenceEdge_inv e st st' : 0 ≤ e →
  evidenceEdge c d e st = Ok st' → length st'.1 = length st.1 ∧ length st'.2 = length st.2 ∧
  ∀ e', edgeWritten st.1 st.2 e' ∨ e' = Z.to_nat e → edgeWritten st'.1 st'.2 e'.
Proof.
  intros He. unfold evidenceEdge. intros H. apply go_bind_inv in H as (node & Hn%at_Ok & H). apply go_bind_inv in H as (root & Hr & H).
  apply go_bind_inv in H as (ev & [H1 ->]%put_inv & H). apply go_bind_inv in H as (evn & [H2 ->]%put_inv & [= <-]). simpl. rewrite !length_insert.
  split; [done|]. split; [done|]. intros e' Hw. apply written_insert; [lia|lia| |done|done]. symmetry. exact (list_lookup_total_correct _ _ _ (proj2 Hn)).
Qed.

(** An edge the loop does not reach keeps its zero. *)
Lemma evidenceEdge_other e st st' e' : 0 ≤ e → evidenceEdge c d e st = Ok st' → e' ≠ Z.to_nat e → st'.1 !!! e' = st.1 !!! e'.
Proof.
  intros He. unfold evidenceEdge. intros H Hne. apply go_bind_inv in H as (node & Hn%at_Ok & H). apply go_bind_inv in H as (root & Hr & H).
  apply go_bind_inv in H as (ev & [H1 ->]%put_inv & H). apply go_bind_inv in H as (evn & [H2 ->]%put_inv & [= <-]). simpl.
  by rewrite list_lookup_total_insert_ne.
Qed.

Lemma lowerClause_inv i x x' : (i < length (dClauseAssertionRoots d))%nat → length (dClauseEvidenceStarts d) = length (dClauseAssertionRoots d) →
  length (dClauseEvidenceCounts d) = length (dClauseAssertionRoots d) → length (dClauseRemediationStarts d) = length (dClauseAssertionRoots d) →
  length (dClauseRemediationCounts d) = length (dClauseAssertionRoots d) → clauses_of i x → lowerClause c d i x = Ok x' → clauses_of (S i) x'.
Proof.
  intros Hi L1 L2 L3 L4 [(Q1 & Q2 & Q3) Ha Hr He Hj]. unfold lowerClause. intros H. apply go_bind_inv in H as (assertion & Hroot & H).
  apply go_bind_inv in H as ([] & H1%check_inv & H). apply go_bind_inv in H as ([ev evn] & Hloop & H). apply go_bind_inv in H as ([] & H2%check_inv & H).
  apply go_bind_inv in H as (assertions & [_ ->]%put_inv & [= <-]). rewrite Nat2Z.id. destruct (tt_evidence _ Ht) as (T1 & T2 & T3). destruct (tt_remediations _ Ht) as (T4 & T5).
  pose proof (Forall_lookup_total_1 _ _ i T1 ltac:(lia)) as U1. pose proof (Forall_lookup_total_1 _ _ i T2 ltac:(lia)) as U2.
  pose proof (Forall_lookup_total_1 _ _ i T4 ltac:(lia)) as U4. pose proof (Forall_lookup_total_1 _ _ i T5 ltac:(lia)) as U5. unfold is_u32, MaxUint16, MaxUint32 in *.
  rewrite negb_true_iff, Z.ltb_ge, u64_small in H1, H2 by (unfold is_u64; lia).
  set (start := dClauseEvidenceStarts d !!! i) in *. set (count := dClauseEvidenceCounts d !!! i) in *.
  apply (for_range_ind (λ m st, length st.1 = length (xEvidence x) ∧ length st.2 = length (xEvidenceNodes x) ∧
    (∀ e', edgeWritten (xEvidence x) (xEvidenceNodes x) e' ∨ (Z.to_nat start ≤ e' < Z.to_nat start + m)%nat → edgeWritten st.1 st.2 e') ∧
    (∀ e', ¬ (Z.to_nat start ≤ e' < Z.to_nat start + m)%nat → st.1 !!! e' = xEvidence x !!! e'))) in Hloop as (R1 & R2 & R3 & R4).
  - simpl in R1, R2, R3, R4. split; simpl.
    + rewrite length_insert. lia.
    + intros i' Hi'. destruct (decide (i' = i)) as [->|Hne]; [by rewrite list_lookup_total_insert_eq by lia|]. rewrite list_lookup_total_insert_ne by done. apply Ha. lia.
    + intros i' Hi'. destruct (decide (i' = i)) as [->|Hne]; [|apply Hr; lia]. fold start count. unfold in_pool. lia.
    + intros e Hlt. destruct (decide (Z.to_nat start ≤ e < Z.to_nat start + Z.to_nat count)%nat) as [Hin|Hout]; [left; apply R3; by right|].
      rewrite (R4 e Hout). destruct (He e Hlt) as [Hw|Hz]; [left; apply R3; by left|by right].
    + intros i' j Hi' Hj'. apply R3. destruct (decide (i' = i)) as [->|Hne]; [right; fold start count in Hj' |- *; lia|]. left. apply Hj; [lia|done].
  - split; [done|]. split; [done|]. split; [intros e' [?|?]; [done|lia]|done].
  - intros j st st' Hlt (I1 & I2 & I3 & I4) Hb. assert (u32 (start + Z.of_nat j) = start + Z.of_nat j) as Eu by (apply u32_small; unfold is_u32; lia). rewrite Eu in Hb.
    destruct (evidenceEdge_inv (start + Z.of_nat j) st st' ltac:(lia) Hb) as (J1 & J2 & J3). split; [lia|]. split; [lia|]. split.
    + intros e' [Hw|Hrange]; apply J3; [left; apply I3; by left|]. destruct (decide (e' = Z.to_nat (start + Z.of_nat j))) as [|Hne]; [by right|]. left. apply I3. right. lia.
    + intros e' Hout. rewrite (evidenceEdge_other (start + Z.of_nat j) st st' e' ltac:(lia) Hb) by lia. apply I4. lia.
Qed.

Lemma lowerClauses_inv x : lowerClauses c d = Ok x → clauses_of (length (dClauseAssertionRoots d)) x ∧
  (let m := length (dClauseAssertionRoots d) in length (dClauseEvidenceStarts d) = m ∧ length (dClauseEvidenceCounts d) = m ∧
   length (dClauseRemediationStarts d) = m ∧ length (dClauseRemediationCounts d) = m ∧ length (dClauseOnSatisfied d) = m ∧ length (dClauseOnFalse d) = m) ∧
  zlen (dClauseExplanationIDs d) = zlen (dClauseAssertionRoots d) * ResolutionBranchCount.
Proof.
  unfold lowerClauses. intros H. apply go_bind_inv in H as ([] & Hl%check_inv & H). pose proof (tt_clauses _ Ht) as Hc. unfold MaxUint32 in Hc.
  rewrite !andb_true_iff, !bool_decide_eq_true, Z.eqb_eq in Hl. destruct Hl as [[(L1 & L2 & L3 & L4 & L5 & L6 & _) Le] _].
  rewrite u64_small in Le by (unfold is_u64, ResolutionBranchCount; lia). split; [|done].
  eapply (for_range_ind (λ i x, clauses_of i x)); [| |exact H].
  - split; simpl; unfold make_; rewrite ?length_replicate; [lia|intros; lia|intros; lia| |intros; lia].
    intros e He. right. by rewrite lookup_total_replicate_2 by lia.
  - intros i y y' Hi Hy Hb. by apply (lowerClause_inv i y y').
Qed.
End lowered.

(** ** Resolution rows *)

#[global] Instance resolutionRow_inhabited : Inhabited resolutionRow := populate {| rrOutcome := 0; rrExplanation := 0; rrStart := 0; rrCount := 0 |}.

Lemma concat_block `{Inhabited A} (blocks : list (list A)) m i j : Forall (λ b, length b = m) blocks → (i < length blocks)%nat → (j < m)%nat →
  concat blocks !!! (m * i + j)%nat = blocks !!! i !!! j.
Proof.
  intros Hall. revert i. induction Hall as [|b blocks Hb _ IH]; intros i Hi Hj; simpl in Hi; [lia|]. destruct i as [|i]; simpl.
  - rewrite lookup_total_app_l by lia. f_equal. lia.
  - rewrite lookup_total_app_r by lia. rewrite <-(IH i) by lia. f_equal. lia.
Qed.

Lemma length_concat_block {A} (blocks : list (list A)) m : Forall (λ b, length b = m) blocks → length (concat blocks) = (m * length blocks)%nat.
Proof. induction 1 as [|b blocks Hb _ IH]; simpl; [lia|]. rewrite length_app, Hb, IH. lia. Qed.

Lemma map_row (f : resolutionRow → Z) (l : list resolutionRow) i : (i < length l)%nat → map f l !!! i = f (l !!! i).
Proof. intros Hi. apply list_lookup_total_correct. rewrite list_lookup_fmap, (list_lookup_lookup_total_lt l i Hi). done. Qed.

(** The branches of clause [i], and the row of one reason. *)
Definition docResolution (d : Document) (i : nat) : Ast.Resolution :=
  match Clause d (Z.of_nat i + 1) with
  | Some (_, resolution) => resolution
  | None => {| OnSatisfied := 0; OnFalse := 0; OnMissing := 0; OnStale := 0; OnUnclear := 0; OnUnverifiable := 0; OnConflict := 0; OnSatisfiedExplanation := 0;
               OnFalseExplanation := 0; OnMissingExplanation := 0; OnStaleExplanation := 0; OnUnclearExplanation := 0; OnUnverifiableExplanation := 0;
               OnConflictExplanation := 0 |}
  end.

Definition rowsOf (outs : OutcomeTable) (d : Document) (i : nat) (reason : Z) (row : resolutionRow) : Prop :=
  rrOutcome row = reasonOutcome (docResolution d i) reason ∧ rrExplanation row = reasonExplanation (docResolution d i) reason ∧
  ∃ outcome, Outcomes.Lookup outs (rrOutcome row) = Some outcome ∧
    (rrStart row, rrCount row) = if oTerminal outcome then (0, 0) else (dClauseRemediationStarts d !!! i, dClauseRemediationCounts d !!! i).

Lemma reasonRow_inv outs d resolution i reason row : docResolution d i = resolution → reasonRow outs d resolution i reason = Ok row → rowsOf outs d i reason row.
Proof.
  intros <- H. unfold reasonRow in H. apply go_bind_inv in H as (outcome & Ho & [= <-]). unfold rowsOf. simpl. split; [done|]. split; [done|].
  destruct (Outcomes.Lookup outs _) as [o|] eqn:E; [|done]. injection Ho as ->. exists outcome. split; [done|]. by destruct (oTerminal outcome).
Qed.

Record resolutions_of (outs : OutcomeTable) (d : Document) (rs : ResolutionTable) : Prop := {
  rl_lens : let m := zlen (dClauseAssertionRoots d) * ReasonCount in zlen (OutcomeIDs rs) = m ∧ zlen (ExplanationIDs rs) = m ∧
    zlen (RemediationStarts rs) = m ∧ zlen (RemediationCounts rs) = m;
  rl_row i reason : (i < length (dClauseAssertionRoots d))%nat → validReason reason →
    let row := Resolve.ruleRow (Z.of_nat i + 1) reason in
    rowsOf outs d i reason {| rrOutcome := OutcomeIDs rs !!! row; rrExplanation := ExplanationIDs rs !!! row; rrStart := RemediationStarts rs !!! row;
                              rrCount := RemediationCounts rs !!! row |};
  rl_ids : RemediationIDs rs = dClauseRemediationIDs d
}.

Lemma resolutionTable_inv outs d rs : tables_typed d → resolutionTable outs d = Ok rs → resolutions_of outs d rs.
Proof.
  intros Ht. unfold resolutionTable. intros H. apply go_bind_inv in H as ([] & _ & H). apply go_bind_inv in H as (blocks & Hb & [= <-]). apply map_go_seq in Hb.
  destruct Hb as [El Hblock]. pose proof (tt_clauses _ Ht) as Hc. unfold MaxUint32 in Hc.
  assert (∀ i, (i < length blocks)%nat → length (blocks !!! i) = 9%nat ∧ ∀ reason, validReason reason → rowsOf outs d i reason (blocks !!! i !!! Z.to_nat (reason - 1))) as Hrows.
  { intros i Hi. specialize (Hblock i ltac:(lia)). unfold clauseRows in Hblock. rewrite u32_small in Hblock by (unfold is_u32; lia).
    apply go_bind_inv in Hblock as ([node resolution] & Hr & Hblock). destruct (Clause d (Z.of_nat i + 1)) as [x|] eqn:Ec; [|done]. injection Hr as ->.
    apply map_go_inv in Hblock. split; [by rewrite <-(Forall2_length _ _ _ Hblock)|]. intros reason Hv. unfold validReason in Hv.
    destruct (lookup_lt_is_Some_2 (blocks !!! i) (Z.to_nat (reason - 1))) as [row Hrow]; [rewrite <-(Forall2_length _ _ _ Hblock); simpl; unfold ReasonCount in *; lia|].
    rewrite (list_lookup_total_correct _ _ _ Hrow). eapply (reasonRow_inv outs d resolution); [unfold docResolution; by rewrite Ec|].
    apply (Forall2_lookup_lr _ _ _ (Z.to_nat (reason - 1)) reason row Hblock); [|done].
    assert (reason = 1 ∨ reason = 2 ∨ reason = 3 ∨ reason = 4 ∨ reason = 5 ∨ reason = 6 ∨ reason = 7 ∨ reason = 8 ∨ reason = 9) as Hcases by (unfold ReasonCount in *; lia).
    by repeat (destruct Hcases as [->|Hcases]); [..|subst]. }
  assert (Forall (λ b, length b = 9%nat) blocks) as Hall by (apply Forall_lookup; intros i b Hi; rewrite <-(list_lookup_total_correct _ _ _ Hi); by apply Hrows; eapply lookup_lt_Some).
  pose proof (length_concat_block blocks 9 Hall) as Hlen. split; simpl.
  - rewrite !length_map, Hlen, El. unfold ReasonCount. lia.
  - intros i reason Hi Hv. destruct (Hrows i ltac:(lia)) as [_ Hrow]. specialize (Hrow reason Hv). unfold validReason in Hv.
    assert (Resolve.ruleRow (Z.of_nat i + 1) reason = (9 * i + Z.to_nat (reason - 1))%nat) as Er by (unfold Resolve.ruleRow, ReasonCount; lia).
    rewrite Er. unfold ReasonCount in *. rewrite !map_row by lia. rewrite (concat_block blocks 9) by (done || lia). by destruct (blocks !!! i !!! _).
  - done.
Qed.

Lemma resolutions_typed outs d rs : tables_typed d → length (dClauseRemediationStarts d) = length (dClauseAssertionRoots d) →
  length (dClauseRemediationCounts d) = length (dClauseAssertionRoots d) → resolutions_of outs d rs →
  Forall is_u32 (RemediationStarts rs) ∧ Forall (λ n, 0 ≤ n ≤ MaxUint16) (RemediationCounts rs).
Proof.
  intros Ht L1 L2 [(_ & _ & Z3 & Z4) Hrow _]. destruct (tt_remediations _ Ht) as [T1 T2].
  assert (∀ i, (i < length (dClauseAssertionRoots d) * 9)%nat → is_u32 (RemediationStarts rs !!! i) ∧ 0 ≤ RemediationCounts rs !!! i ≤ MaxUint16) as Hall.
  { intros i Hi. destruct (Hrow (i / 9)%nat (Z.of_nat (i mod 9) + 1)) as (_ & _ & outcome & _ & E).
    - apply Nat.Div0.div_lt_upper_bound. lia.
    - unfold validReason, ReasonCount. pose proof (Nat.mod_upper_bound i 9). lia.
    - assert (Resolve.ruleRow (Z.of_nat (i / 9) + 1) (Z.of_nat (i mod 9) + 1) = i) as Er by (unfold Resolve.ruleRow, ReasonCount; pose proof (Nat.div_mod_eq i 9); lia).
      rewrite Er in E. simpl in E. assert (i / 9 < length (dClauseAssertionRoots d))%nat as Hd by (apply Nat.Div0.div_lt_upper_bound; lia).
      pose proof (Forall_lookup_total_1 _ _ (i / 9)%nat T1 ltac:(lia)). pose proof (Forall_lookup_total_1 _ _ (i / 9)%nat T2 ltac:(lia)).
      destruct (oTerminal outcome); injection E as -> ->; [unfold is_u32, MaxUint16; lia|done]. }
  unfold ReasonCount in *. split; apply Forall_lookup; intros i x Hi; pose proof (lookup_lt_Some _ _ _ Hi); apply list_lookup_total_correct in Hi as <-; apply Hall; lia.
Qed.

(** ** The stage *)

Lemma ValidateResultTables_inv x outs rems rs ids r : ValidateResultTables x outs rems rs ids = Ok r →
  Resolve.NewResolver outs rems rs = Ok r ∧ Forall (λ id, is_Some (ExplanationLookup (xExplanations x) id)) ids ∧
  Forall (λ id, is_Some (ExplanationLookup (xExplanations x) id)) (ExplanationIDs rs).
Proof.
  unfold ValidateResultTables. intros H. apply go_bind_inv in H as ([] & _ & H). apply go_bind_inv in H as ([] & _ & H). apply go_bind_inv in H as (r' & Hr & H).
  do 3 (apply go_bind_inv in H as ([] & _ & H)). apply go_bind_inv in H as ([] & H1%check_inv & H). apply go_bind_inv in H as ([] & H2%check_inv & [= ->]).
  rewrite forallb_forall in H1, H2. split; [done|].
  split; apply Forall_forall; intros id Hin%list_elem_of_In; [exact (bool_decide_eq_true_1 _ (H1 id Hin))|exact (bool_decide_eq_true_1 _ (H2 id Hin))].
Qed.

(** What the semantic stage adds to a program. *)
Record semantics_of (con : Constants) (d : Document) (p : Program) (c : Compiled) : Prop := {
  sf_program : ∃ x, clauses_of p d (length (dClauseAssertionRoots d)) x ∧ semantics c = loweredColumns con d (RequirementRoots c) x;
  sf_rest : cpProgram c = with_semantics p (semantics c) (Explanations c) (Outcomes_ c) (RemediationRows c) (Resolutions c) (resolver c);
  sf_requirements : requirements_of p d (RequirementRoots c);
  sf_columns : (let m := length (dClauseAssertionRoots d) in length (dClauseEvidenceStarts d) = m ∧ length (dClauseEvidenceCounts d) = m ∧
     length (dClauseRemediationStarts d) = m ∧ length (dClauseRemediationCounts d) = m ∧ length (dClauseOnSatisfied d) = m ∧ length (dClauseOnFalse d) = m) ∧
    zlen (dClauseExplanationIDs d) = zlen (dClauseAssertionRoots d) * ResolutionBranchCount;
  sf_outcomes : Precedence (Outcomes_ c) = dOutcomePrecedence d ∧ Terminal (Outcomes_ c) = dOutcomeTerminal d ∧
    length (Names (Outcomes_ c)) = length (dOutcomeNames d) ∧ length (dOutcomePrecedence d) = length (dOutcomeNames d) ∧ length (dOutcomeTerminal d) = length (dOutcomeNames d);
  sf_resolutions : resolutions_of (Outcomes_ c) d (Resolutions c);
  sf_tables : ValidateResultTables (cpExplanations c) (Outcomes_ c) (RemediationRows c) (Resolutions c) (dClauseExplanationIDs d) = Ok (resolver c) ∧
    Explanations c = xExplanations (cpExplanations c)
}.

Lemma lowerSemantics_inv k con d p c : tables_typed d → lowerSemantics k con d p = Ok c → semantics_of con d p c.
Proof.
  intros Ht. unfold lowerSemantics. intros H. apply go_bind_inv in H as (outs & Ho & H). apply go_bind_inv in H as (rems & _ & H).
  apply go_bind_inv in H as (x & _ & H). apply go_bind_inv in H as (roots & Hroots & H). apply go_bind_inv in H as (clauses & Hclauses & H).
  apply go_bind_inv in H as (rs & Hrs & H). apply go_bind_inv in H as (r & Hr & [= <-]). destruct (lowerClauses_inv p d Ht clauses Hclauses) as (Hcl & Hlens & Hex).
  unfold lowerOutcomes in Ho. apply go_bind_inv in Ho as ([] & Hl%check_inv & Ho). apply bool_decide_eq_true in Hl as (O1 & O2 & _).
  apply go_bind_inv in Ho as (names & Hn%map_go_inv%Forall2_length & [= <-]). split; simpl.
  - by exists clauses.
  - done.
  - by apply lowerRequirements_inv.
  - done.
  - done.
  - by apply resolutionTable_inv.
  - split; [|done]. unfold generated in Hr. simpl in Hr. by destruct (ValidateResultTables _ _ _ _ _).
Qed.

(** Freezing a lowered program whose semantic tables are unchanged returns it. *)
Lemma Freeze_ok con d p c p' : semantics_of con d p c → semantics p' = semantics c → Explanations p' = Explanations c → Outcomes_ p' = Outcomes_ c →
  RemediationRows p' = RemediationRows c → Resolutions p' = Resolutions c → resolver p' = resolver c → Freeze (with_program c p') = Ok (with_program c p').
Proof.
  intros Hs E1 E2 E3 E4 E5 E6. destruct (sf_tables _ _ _ _ Hs) as [Hv Hex]. unfold Freeze. simpl. rewrite E1, E3, E4, E5.
  destruct (sf_program _ _ _ _ Hs) as (x & _ & Ex). rewrite Ex. simpl. destruct (rl_ids _ _ _ (sf_resolutions _ _ _ _ Hs)).
  assert ({| OutcomeIDs := OutcomeIDs (Resolutions c); ExplanationIDs := ExplanationIDs (Resolutions c); RemediationStarts := RemediationStarts (Resolutions c);
             RemediationCounts := RemediationCounts (Resolutions c); RemediationIDs := RemediationIDs (Resolutions c) |} = Resolutions c) as Er by (by destruct (Resolutions c)).
  rewrite Er, Hv, go_bind_Ok. f_equal. unfold with_program. simpl. f_equal. rewrite <-Ex, <-Hex, <-E1, <-E2, <-E3, <-E4, <-E5, <-E6. by destruct p'.
Qed.
