(* ===== verification/Decision.v ===== *)
(** * The decision a document states
    The reference decision of a policy document on a request row, read from its own
    requirements, clauses and branches: every requirement that is not definitely
    inapplicable contributes one verdict per clause, and the preferred outcome of all
    verdicts is the decision.  The theorems show that a compiled document decides it. *)

From S2P Require Import Prelude Store Truth Schema Result Program Templates Batch Predicate Simd FactIndex Evidence Executor PolicyIndex PolicyBuild Finalize Execute ResultRows.
From S2P Require Import Liveness Schedule ScheduleMeaning SymbolTable Interner Frozen SymbolCheck Ast Constants ConstantsMeaning Normalize Compact DocMeaning NormalizeOk WalkOk LowerMeaning.
From S2P Require Import IndexLower IndexMeaning FactLower IndexOk LowerRows Semantics SemanticsOk.
Import Reason.
#[local] Open Scope Z_scope.

(** ** The reference *)

Section reference.
Context (d : Document) (find : bytes → option Z) (schema : IndexSchema) (b : Batch) (reasons : list Z).

(** The value of a node; a well-formed document gives every node one. *)
Definition docNode (r : nat) (node : Z) : tv * Z := default (tv_false, 0) (nodeValue d find schema b reasons r (length (dNodeKinds d)) node).

(** Assertion and evidence of clause [c] conjoined, with the union of their reasons. *)
Definition docEvidence (c : nat) : list Z := csr (dClauseEvidenceNodeIDs d) (dClauseEvidenceStarts d !!! c) (dClauseEvidenceCounts d !!! c).
Definition docClauseValue (c r : nat) : tv * Z := foldl (λ v e, conj v (docNode r e)) (docNode r (dClauseAssertionRoots d !!! c)) (docEvidence c).

(** The preferred outcome under the document's precedences. *)
Definition docBest : Z → Z → Z := Outcomes.best {| Names := []; Precedence := dOutcomePrecedence d; Terminal := dOutcomeTerminal d |}.

(** The branch of clause [c] for every reason in order: missing, stale, unclear,
    unverifiable, wrong scope, wrong subject, wrong timing, invalid and conflict. *)
Definition docBranch (c : nat) (reason : Z) : Z :=
  let x := docResolution d c in
  [OnMissing x; OnStale x; OnUnclear x; OnUnverifiable x; OnUnverifiable x; OnUnverifiable x; OnUnverifiable x; OnUnverifiable x; OnConflict x]
    !!! Z.to_nat (reason - 1).

(** The branches of clause [c] for the reasons of a mask, joined. *)
Definition docJoin (c : nat) (mask : Z) : Z := foldl docBest 0 (map (docBranch c) (List.filter (Has mask) allReasons)).

Definition docActive (requirement clause : Z) (r : nat) : verdict :=
  let c := Z.to_nat (clause - 1) in
  let '((positive, negative), mask) := docClauseValue c r in
  {| vRequirement := requirement; vClause := clause;
     vOutcome := if positive && negb negative then dClauseOnSatisfied d !!! c else if negb positive && negative then dClauseOnFalse d !!! c else docJoin c mask;
     vReasons := if Bool.eqb positive negative then mask else 0 |}.

(** A requirement whose applicability is not known resolves by its reasons. *)
Definition docUnresolved (requirement clause mask : Z) : verdict :=
  {| vRequirement := requirement; vClause := clause; vOutcome := docJoin (Z.to_nat (clause - 1)) mask; vReasons := mask |}.

Definition docClauses (q : nat) : list Z := csr (dRequirementClauseIDs d) (dRequirementClauseStarts d !!! q) (dRequirementClauseCounts d !!! q).

Definition docRequirement (q r : nat) : list verdict :=
  let '((positive, negative), mask) := docNode r (dRequirementApplicabilityRoots d !!! q) in
  map (λ clause, if positive && negb negative then docActive (dRequirementIDs d !!! q) clause r else docUnresolved (dRequirementIDs d !!! q) clause mask) (docClauses q).

(** The requirements that are not definitely inapplicable. *)
Definition docApplicable (r : nat) : list nat :=
  List.filter (λ q, negb (bool_decide ((docNode r (dRequirementApplicabilityRoots d !!! q)).1 = tv_false))) (seq 0 (length (dRequirementIDs d))).

Definition docVerdicts (r : nat) : list verdict := flat_map (λ q, docRequirement q r) (docApplicable r).
Definition docOutcome (r : nat) : Z := foldl docBest 0 (map vOutcome (docVerdicts r)).
Definition docRequirements (r : nat) : list Z := map (λ q, dRequirementIDs d !!! q) (docApplicable r).
End reference.

(** The reason of every evidence state the document names. *)
Definition docReasons (d : Document) : list Z :=
  map (λ id, match literalOf d id with Some (LSymbol name) => stateReason name | _ => 0 end) (dEvidenceStateNames d).

Lemma reasonOutcome_branch d c reason : validReason reason → reasonOutcome (docResolution d c) reason = docBranch d c reason.
Proof.
  unfold validReason, ReasonCount. intros Hr.
  assert (reason = 1 ∨ reason = 2 ∨ reason = 3 ∨ reason = 4 ∨ reason = 5 ∨ reason = 6 ∨ reason = 7 ∨ reason = 8 ∨ reason = 9) as Hcases by lia.
  by repeat (destruct Hcases as [->|Hcases]); [..|subst].
Qed.

(** ** A program that states a document *)

Section states.
Context (d : Document) (find : bytes → option Z) (p : Program).
Local Abbreviation schema := (FieldIndex p).
Local Abbreviation fuel := (length (dNodeKinds d)).

(** Instruction [root] has the value of node [node] on every row. *)
Definition holds (node root : Z) : Prop := ∀ b reasons r, nodeValue d find schema b reasons r fuel node = Some (rootValue p b reasons root r).

Record states_document : Prop := {
  st_requirements : RequirementIDs p = dRequirementIDs d;
  st_root q : (q < length (dRequirementIDs d))%nat → holds (dRequirementApplicabilityRoots d !!! q) (RequirementRoots p !!! q);
  st_clauses q : (q < length (dRequirementIDs d))%nat → requirementClauses p q = docClauses d q ∧ Forall (λ c, 1 ≤ c ≤ zlen (dClauseAssertionRoots d)) (docClauses d q);
  st_assertion c : (c < length (dClauseAssertionRoots d))%nat → holds (dClauseAssertionRoots d !!! c) (ClauseAssertionRoots p !!! c);
  st_evidence c : (c < length (dClauseAssertionRoots d))%nat → Forall2 holds (docEvidence d c) (clauseRoots p c);
  st_outcomes : ClauseOnSatisfied p = dClauseOnSatisfied d ∧ ClauseOnFalse p = dClauseOnFalse d;
  st_rules c reason : (c < length (dClauseAssertionRoots d))%nat → validReason reason →
    Resolve.ruleOutcome (resolver p) (Z.of_nat c + 1) reason = docBranch d c reason;
  st_precedence : Precedence (Outcomes_ p) = dOutcomePrecedence d ∧ outcomes (resolver p) = Outcomes_ p;
  st_counts b reasons q r : (q < length (dRequirementIDs d))%nat →
    counts p b reasons q r = negb (bool_decide ((rootValue p b reasons (RequirementRoots p !!! q) r).1 = tv_false))
}.

Context (Hst : states_document) (b : Batch) (reasons : list Z).

Lemma holds_node node root r : holds node root → docNode d find schema b reasons r node = rootValue p b reasons root r.
Proof. intros H. unfold docNode. by rewrite (H b reasons r). Qed.

Lemma best_precedence t t' x y : Precedence t = Precedence t' → Outcomes.best t x y = Outcomes.best t' x y.
Proof. intros E. unfold Outcomes.best, Outcomes.prec. by rewrite E. Qed.

Lemma foldl_best_precedence t t' l x : Precedence t = Precedence t' → foldl (Outcomes.best t) x l = foldl (Outcomes.best t') x l.
Proof. intros E. revert x. induction l as [|y l IH]; intros x; simpl; [done|]. by rewrite (best_precedence t t' x y E), IH. Qed.

Lemma clauseValue_doc c r : (c < length (dClauseAssertionRoots d))%nat → clauseValue p b reasons c r = docClauseValue d find schema b reasons c r.
Proof.
  intros Hc. unfold clauseValue, docClauseValue. rewrite (holds_node _ _ r (st_assertion Hst c Hc)). generalize (rootValue p b reasons (ClauseAssertionRoots p !!! c) r).
  induction (st_evidence Hst c Hc) as [|node root nodes roots Hh _ IH]; intros v; simpl; [done|]. by rewrite (holds_node _ _ r Hh), IH.
Qed.

Lemma join_doc clause mask : 1 ≤ clause ≤ zlen (dClauseAssertionRoots d) → ruleJoin (resolver p) clause mask = docJoin d (Z.to_nat (clause - 1)) mask.
Proof.
  intros Hc. unfold ruleJoin, docJoin, docBest. destruct (st_precedence Hst) as [Ep ->]. rewrite (foldl_best_precedence _ {| Names := []; Precedence := dOutcomePrecedence d; Terminal := dOutcomeTerminal d |}) by done.
  f_equal. apply map_ext_in. intros reason [Hin _]%filter_In. apply list_elem_of_In, allReasons_valid in Hin.
  rewrite <-(st_rules Hst (Z.to_nat (clause - 1)) reason) by (done || lia). f_equal. lia.
Qed.

Lemma active_doc requirement clause r : 1 ≤ clause ≤ zlen (dClauseAssertionRoots d) →
  activeVerdict p b reasons requirement clause r = docActive d find schema b reasons requirement clause r.
Proof.
  intros Hc. unfold activeVerdict, docActive. rewrite (clauseValue_doc (Z.to_nat (clause - 1)) r) by lia. destruct (docClauseValue _ _ _ _ _ _ _) as [[pos neg] mask].
  rewrite (join_doc clause mask Hc). by destruct (st_outcomes Hst) as [-> ->].
Qed.

Lemma requirement_doc q r : (q < length (dRequirementIDs d))%nat → requirementVerdicts p b reasons q r = docRequirement d find schema b reasons q r.
Proof.
  intros Hq. unfold requirementVerdicts, docRequirement. rewrite (holds_node _ _ r (st_root Hst q Hq)), (st_requirements Hst).
  destruct (rootValue p b reasons (RequirementRoots p !!! q) r) as [[pos neg] mask] eqn:Ev. simpl. destruct (st_clauses Hst q Hq) as [-> Hall].
  apply map_ext_in. intros clause Hin%list_elem_of_In. rewrite Forall_forall in Hall. specialize (Hall clause Hin).
  destruct (pos && negb neg); [by apply active_doc|]. unfold unresolvedVerdict, docUnresolved. by rewrite Ev, (join_doc clause) by done.
Qed.

Lemma applicable_doc r : countedTo p b reasons (length (RequirementIDs p)) r = docApplicable d find schema b reasons r.
Proof.
  unfold countedTo, docApplicable. rewrite (st_requirements Hst). apply filter_ext_in. intros q [_ Hq]%in_seq. simpl in Hq.
  rewrite (st_counts Hst), (holds_node _ _ r (st_root Hst q Hq)) by done. done.
Qed.

Lemma flat_map_ext_in {A B} (f g : A → list B) l : (∀ x, In x l → f x = g x) → flat_map f l = flat_map g l.
Proof. intros H. induction l as [|x l IH]; simpl; [done|]. rewrite (H x) by (by left). f_equal. apply IH. intros y Hy. apply H. by right. Qed.

Lemma decides r : rowVerdicts p b reasons r = docVerdicts d find schema b reasons r ∧ rowOutcome p b reasons r = docOutcome d find schema b reasons r ∧
  rowRequirements p b reasons r = docRequirements d find schema b reasons r.
Proof.
  assert (rowVerdicts p b reasons r = docVerdicts d find schema b reasons r) as Hv.
  { unfold rowVerdicts, docVerdicts. rewrite applicable_doc. apply flat_map_ext_in. intros q [Hq%in_seq _]%filter_In. apply requirement_doc. lia. }
  split; [done|]. split.
  - unfold rowOutcome, docOutcome. rewrite Hv. apply foldl_best_precedence. apply (st_precedence Hst).
  - unfold rowRequirements, docRequirements. by rewrite applicable_doc, (st_requirements Hst).
Qed.
End states.
