(* ===== verification/Compile.v ===== *)
(** * Compiled policies
    The stages of the compiler composed.  On a well-formed document that the compiler
    accepts, the compiled program satisfies what the executor relies on, passes the
    executor's validation, and states the document. *)

From S2P Require Import Prelude Store Truth Schema Result Program Templates Batch Predicate Simd FactIndex Evidence Executor PolicyIndex PolicyBuild Finalize Execute ResultRows.
From S2P Require Import Liveness Schedule ScheduleMeaning SymbolTable Interner Frozen SymbolCheck Ast Constants ConstantsMeaning Normalize Compact DocMeaning NormalizeOk WalkOk LowerMeaning.
From S2P Require Import IndexLower IndexMeaning FactLower IndexOk LowerRows Semantics SemanticsOk Decision.
Import Reason.
#[local] Open Scope Z_scope.

(** ** Stages do not depend on the columns of later ones *)

Lemma denote_ext p q b reasons i r : instr p = instr q → values p = values q → symbols p = symbols q → FieldIndex p = FieldIndex q →
  denote p b reasons i r = denote q b reasons i r.
Proof.
  intros E1 E2 E3 E4. destruct p, q. simpl in E1, E2, E3, E4. subst. unfold denote.
  match goal with |- instrValue ?p _ _ _ _ _ = instrValue ?q _ _ _ _ _ => assert (∀ m, denoteAll p b reasons m r = denoteAll q b reasons m r) as H end.
  { induction m as [|m IH]; [done|]. simpl. rewrite IH. done. }
  by rewrite H.
Qed.

Lemma orderRun_schema fuel p schema g n words opcode st : orderRun fuel (with_schema p schema) g n words opcode st = orderRun fuel p g n words opcode st.
Proof.
  revert st. induction fuel as [|fuel IH]; intros st; [done|]. cbn [orderRun]. change (orderNext (with_schema p schema)) with (orderNext p).
  destruct (at_ _ _); [|done..]. rewrite !go_bind_Ok. destruct (_ =? 0); [done|]. destruct (orderNext _ _ _ _ _ _); [|done..]. rewrite !go_bind_Ok. apply IH.
Qed.

Lemma orderLoop_schema fuel p schema g n words st : orderLoop fuel (with_schema p schema) g n words st = orderLoop fuel p g n words st.
Proof.
  revert st. induction fuel as [|fuel IH]; intros st; [done|]. cbn [orderLoop]. destruct (n <=? _); [done|]. destruct (pickOpcode _); [|done].
  destruct (put_ _ _ _); [|done..]. rewrite !go_bind_Ok, orderRun_schema. destruct (orderRun _ _ _ _ _ _ _); [|done..]. rewrite !go_bind_Ok. apply IH.
Qed.

Lemma schedule_schema p schema p' : scheduleInstructions p = Ok p' → scheduleInstructions (with_schema p schema) = Ok (with_schema p' schema).
Proof.
  unfold scheduleInstructions. change (validateScheduleColumns (with_schema p schema)) with (validateScheduleColumns p).
  change (Opcodes (with_schema p schema)) with (Opcodes p). intros H. apply go_bind_inv in H as ([] & -> & H). apply go_bind_inv in H as ([] & -> & H).
  rewrite !go_bind_Ok. case_bool_decide; [by injection H as <-|].
  change (buildScheduleUsers (with_schema p schema)) with (buildScheduleUsers p). apply go_bind_inv in H as (g & -> & H). rewrite go_bind_Ok.
  assert (buildScheduleOrder (with_schema p schema) g = buildScheduleOrder p g) as ->.
  { unfold buildScheduleOrder. change (instr (with_schema p schema)) with (instr p). destruct (for_range _ _ _); [|done..]. rewrite !go_bind_Ok. apply orderLoop_schema. }
  apply go_bind_inv in H as (st & -> & H). rewrite go_bind_Ok.
  unfold permuteScheduledInstructions in *. change (packRow (with_schema p schema)) with (packRow p). change (instr (with_schema p schema)) with (instr p).
  cbv zeta in *. repeat (apply go_bind_inv in H as (? & -> & H); rewrite go_bind_Ok). by injection H as <-.
Qed.

Lemma schedule_rest p p' : scheduleInstructions p = Ok p' → p' = with_instr p (instr p').
Proof.
  unfold scheduleInstructions. intros H. apply go_bind_inv in H as ([] & _ & H). apply go_bind_inv in H as ([] & _ & H).
  case_bool_decide; [by injection H as <-|]. apply go_bind_inv in H as (g & _ & H). apply go_bind_inv in H as (st & _ & H). unfold permuteScheduledInstructions in H.
  cbv zeta in H. repeat (apply go_bind_inv in H as (? & _ & H)). by injection H as <-.
Qed.

(** ** Policies *)

(** A well-formed policy: what the validator accepts, groups of two or more children,
    and the value types of the columns. *)
Record policy_ok (d : Document) (fields : FieldTable) (source : Interner.Interner) (schema : IndexSchema) (w : Z → Z) : Prop := {
  po_source : source_ok d fields source;
  po_doc : doc_ok d schema;
  po_width : width_ok d w;
  po_strict : doc_strict d schema;
  po_schema : BuildSchema (kinds fields) = Ok schema ∧ Forall (λ k, KindValid k = true) (kinds fields) ∧ zlen (kinds fields) < MaxUint32;
  po_typed : tables_typed d;
  po_requirements : Forall (λ id, id ≠ 0) (dRequirementIDs d) ∧ Forall (λ n, n ≠ 0) (dRequirementClauseCounts d);
  po_outcomes : Forall (λ o, 1 ≤ o ≤ zlen (dOutcomeNames d)) (dClauseOnSatisfied d) ∧ Forall (λ o, 1 ≤ o ≤ zlen (dOutcomeNames d)) (dClauseOnFalse d);
  po_evidence : Forall (λ node, Kind d node = Some NodeKindEvidence) (dClauseEvidenceNodeIDs d)
}.

(** The literals of a program fit its index columns once per requirement. *)
Definition literals_fit (p : Program) : Prop :=
  Z.of_nat (S (length (RequirementRoots p)) * (leafTotal p + list_sum (map (λ i, length (factIDs p i)) (seq 0 (length (Opcodes p)))))) ≤ MaxUint32.

(** The intermediate results of an accepted compilation. *)
Record stages (d : Document) (fields : FieldTable) (source : Interner.Interner) (schema : IndexSchema) (c : Compiled)
    (k : constState) (con : Constants) (p1 : Program) (c1 : Compiled) (s : SlotColumns) (p2 : Program) : Prop := {
  sg_constants : constants_of d fields source k con;
  sg_lowered : lowered k d (findSymbol (cSymbols con)) (with_schema (constantProgram con) schema) (with_schema p1 schema);
  sg_rest : p1 = with_instr (constantProgram con) (instr p1);
  sg_semantics : semantics_of con d p1 c1;
  sg_slots : assignSlots c1 slotReuse = Ok s;
  sg_indexes : lowerIndexes (with_slots c1 s) = Ok p2;
  sg_frozen : generated (Freeze (with_program c1 p2)) = Ok c;
  sg_nonempty : dRequirementIDs d ≠ [] ∧ dClauseAssertionRoots d ≠ []
}.

Lemma lowerDocument_stages d fields source schema w c : policy_ok d fields source schema w → lowerDocument d fields source = Ok c →
  ∃ k con p1 c1 s p2, stages d fields source schema c k con p1 c1 s p2.
Proof.
  intros [Hsrc Hdoc Hw _ _ Ht _ _ _] H. unfold lowerDocument in H. apply go_bind_inv in H as ([] & Hne%check_inv & H).
  rewrite negb_true_iff, orb_false_iff, !bool_decide_eq_false in Hne. destruct Hne as [Hne1 Hne2].
  destruct (lowerConstants_ok d fields source Hsrc) as (k & con & Ec & Hcon). rewrite Ec, go_bind_Ok in H.
  apply go_bind_inv in H as (p1 & Hp1 & H). apply go_bind_inv in H as (c1 & Hc1 & H). apply go_bind_inv in H as (s & Hs & H). apply go_bind_inv in H as (p2 & Hp2 & H).
  set (PS := with_schema (constantProgram con) schema).
  destruct (normalize_ok d fields source k con PS w Hcon eq_refl eq_refl Hdoc Hw) as (cols & En & Hl & Hrows).
  unfold lowerInstructions in Hp1. rewrite En, go_bind_Ok in Hp1. pose proof (schedule_schema _ schema _ Hp1) as Hsched.
  assert (Opcodes cols ≠ []) as Hopc.
  { destruct (dClauseAssertionRoots d) as [|node l] eqn:El; [done|]. destruct (rw_root _ _ _ Hrows node RootAssertion) as (id & args & _ & Hid & _).
    - right. left. rewrite El. split; [done|by left].
    - intros E. rewrite E in Hid. simpl in Hid. lia. }
  destruct (lowered_scheduled k d _ PS cols Hdoc Hl Hrows Hopc) as (pS & Hps & Hlow).
  change (with_instr PS cols) with (with_schema (with_instr (constantProgram con) cols) schema) in Hps. rewrite Hsched in Hps. injection Hps as <-.
  exists k, con, p1, c1, s, p2. split; try done.
  - exact (schedule_rest _ _ Hp1).
  - by apply (lowerSemantics_inv k).
Qed.

(** ** From instructions to columns that add nothing to them *)

Section instructions.
Context (p q : Program) (E : instr p = instr q).

Lemma slots_typed_instr : slots_typed p → slots_typed q.
Proof. intros [H1 H2 H3]. rewrite E in H1, H2, H3. by split. Qed.

Lemma validateSlotProgram_instr : validateSlotProgram p = validateSlotProgram q.
Proof. destruct p, q. simpl in E. by subst. Qed.

Lemma noDeadCode_instr : noDeadCode p → noDeadCode q.
Proof. destruct p, q. simpl in E. subst. intros H. exact H. Qed.
End instructions.

Lemma edgeRange_true start count (pool : list Z) : is_u32 start → is_u32 count → in_pool pool start count → edgeRange start count (zlen pool) = true.
Proof. unfold edgeRange, in_pool, is_u32. intros H1 H2 (_ & _ & H3). rewrite u64_small by (unfold is_u64; lia). lia. Qed.

Section compiled.
Context (d : Document) (fields : FieldTable) (source : Interner.Interner) (schema : IndexSchema) (w : Z → Z) (Hpol : policy_ok d fields source schema w).
Context (c : Compiled) (k : constState) (con : Constants) (p1 : Program) (c1 : Compiled) (s : SlotColumns) (p2 : Program).
Context (Hsg : stages d fields source schema c k con p1 c1 s p2).
Local Abbreviation find := (findSymbol (cSymbols con)).
Local Abbreviation PS := (with_schema p1 schema).
Local Abbreviation Q := (with_slots c1 s).
Local Abbreviation QS := (with_schema Q schema).

Lemma stage_columns : instr c1 = instr p1 ∧ symbols c1 = cSymbols con ∧ values c1 = cValues con ∧ FieldKinds c1 = kinds fields ∧
  RequirementIDs c1 = dRequirementIDs d.
Proof.
  pose proof (sf_rest _ _ _ _ (sg_semantics _ _ _ _ _ _ _ _ _ _ _ Hsg)) as E. pose proof (sg_rest _ _ _ _ _ _ _ _ _ _ _ Hsg) as E1.
  destruct (sf_program _ _ _ _ (sg_semantics _ _ _ _ _ _ _ _ _ _ _ Hsg)) as (x & _ & Ex). destruct (co_fields _ _ _ _ _ (sg_constants _ _ _ _ _ _ _ _ _ _ _ Hsg)) as (Ek & _).
  rewrite E. simpl. rewrite E1. simpl. rewrite Ex. done.
Qed.

Lemma stage_assigned : assigned c1 s.
Proof.
  destruct stage_columns as (E & _). destruct (sg_lowered _ _ _ _ _ _ _ _ _ _ _ Hsg) as [_ Ht Hv Hl _ _ _ _ _].
  assert (instr PS = instr c1) as E' by (by rewrite E).
  destruct (assignSlots_ok c1 slotReuse (slots_typed_instr _ _ E' Ht)) as (s' & Hs & Ha); [by rewrite <-(validateSlotProgram_instr _ _ E')|by apply (noDeadCode_instr _ _ E')|].
  rewrite (sg_slots _ _ _ _ _ _ _ _ _ _ _ Hsg) in Hs. by injection Hs as <-.
Qed.

(** The instruction of a marked node. *)
Lemma root_holds node flag id : marked d node flag → rootInstruction p1 node (zlen (dNodeKinds d)) = Ok id →
  1 ≤ id ≤ zlen (Opcodes c1) ∧ RootHas (RootFlags c1 !!! Z.to_nat (id - 1)) flag = true ∧
  ∀ b reasons r, nodeValue d find schema b reasons r (length (dNodeKinds d)) node = Some (rootValue PS b reasons id r).
Proof.
  intros Hm Hr. destruct stage_columns as (E & _). destruct (rootInstruction_inv _ _ _ _ Hr) as (_ & He & _).
  destruct (lw_root _ _ _ _ _ (sg_lowered _ _ _ _ _ _ _ _ _ _ _ Hsg) node flag Hm) as (id' & He' & Hid & Hf & Hv).
  change (nodeEntriesOf PS node) with (nodeEntriesOf p1 node) in He'. rewrite He in He'. injection He' as <-. rewrite E. split; [exact Hid|]. split; [|exact Hv].
  unfold RootHas. apply Z.eqb_eq. change (RootFlags PS) with (RootFlags p1) in Hf. rewrite Z.land_comm.
  apply Z.bits_inj'. intros i Hi. pose proof (f_equal (λ z, Z.testbit z i) Hf) as Hb. simpl in Hb. rewrite Z.ldiff_spec, Z.bits_0 in Hb. rewrite Z.land_spec.
  destruct (Z.testbit flag i), (Z.testbit (RootFlags p1 !!! Z.to_nat (id - 1)) i); done.
Qed.

(** ** Indexes *)

Lemma stage_semantics : semantics_of con d p1 c1.
Proof. apply Hsg. Qed.

Lemma stage_lowered : lowered k d find (with_schema (constantProgram con) schema) PS.
Proof. apply Hsg. Qed.

Lemma stage_constants : constants_of d fields source k con.
Proof. apply Hsg. Qed.

Lemma stage_schema : schema_built (kinds fields) schema ∧ Forall (λ k, KindValid k = true) (kinds fields) ∧ zlen (kinds fields) < MaxUint32.
Proof.
  destruct (po_schema _ _ _ _ _ Hpol) as (Hb & Hk & Hn). split; [|done]. destruct (BuildSchema_ok _ Hk ltac:(lia)) as (s' & Hs' & Hbuilt).
  rewrite Hb in Hs'. by injection Hs' as <-.
Qed.

(** Every row of the assigned program passes the checks of a predicate. *)
Lemma stage_row row : (row < length (Opcodes Q))%nat → instructionOk QS row = true ∧ (Opcodes Q !!! row = OpcodeIn → inLiterals Q row ≠ []).
Proof.
  destruct stage_columns as (Ei & Es & Ev & _). destruct stage_schema as (Hb & Hk & _). pose proof stage_lowered as Hl.
  destruct (sf_program _ _ _ _ stage_semantics) as (x & _ & Ex). destruct (co_catalogs _ _ _ _ _ stage_constants) as [Hkn Hsn].
  apply (row_checked d fields source k con stage_constants QS Es Ev (po_doc _ _ _ _ _ Hpol) (po_strict _ _ _ _ _ Hpol) Hb Hk).
  - change (EvidenceKindNames QS) with (EvidenceKindNames (semantics c1)). rewrite Ex. symmetry. exact (Forall2_length _ _ _ Hkn).
  - change (EvidenceStateNames QS) with (EvidenceStateNames (semantics c1)). rewrite Ex. symmetry. exact (Forall2_length _ _ _ Hsn).
  - change (instr QS) with (instr c1). rewrite Ei. exact (lw_rows _ _ _ _ _ Hl).
  - change (instr QS) with (instr c1). rewrite Ei. exact (proj1 (lw_pools _ _ _ _ _ Hl)).
  - change (instr QS) with (instr c1). rewrite Ei. intros i Hi. exact (proj1 (lw_ranges _ _ _ _ _ Hl i Hi)).
Qed.

Lemma requirement_marked q : (q < length (dRequirementIDs d))%nat → marked d (dRequirementApplicabilityRoots d !!! q) RootApplicability.
Proof.
  intros Hq. left. split; [done|]. destruct (rq_lens _ _ _ (sf_requirements _ _ _ _ stage_semantics)) as (_ & L & _). apply list_elem_of_lookup_total_2. lia.
Qed.

Lemma stage_requirement q : (q < length (dRequirementIDs d))%nat →
  1 ≤ RequirementRoots c1 !!! q ≤ zlen (Opcodes c1) ∧ RootHas (RootFlags c1 !!! Z.to_nat (RequirementRoots c1 !!! q - 1)) RootApplicability = true ∧
  ∀ b reasons r, nodeValue d find schema b reasons r (length (dNodeKinds d)) (dRequirementApplicabilityRoots d !!! q) = Some (rootValue PS b reasons (RequirementRoots c1 !!! q) r).
Proof. intros Hq. apply root_holds; [by apply requirement_marked|]. exact (rq_root _ _ _ (sf_requirements _ _ _ _ stage_semantics) q Hq). Qed.

Lemma stage_roots : Forall (λ root, 1 ≤ root ≤ zlen (Opcodes c1) ∧ RootHas (RootFlags c1 !!! Z.to_nat (root - 1)) RootApplicability = true) (RequirementRoots c1).
Proof.
  apply Forall_forall. intros root (q & Hq & <-)%list_elem_of_lookup_total. destruct (rq_lens _ _ _ (sf_requirements _ _ _ _ stage_semantics)) as (L & _).
  destruct (stage_requirement q) as (H1 & H2 & _); [lia|done].
Qed.

Context (Hlits : literals_fit Q).

Lemma stage_ready : index_ready Q.
Proof.
  destruct stage_columns as (Ei & Es & Ev & Ek & Er). destruct stage_schema as (Hb & Hk & Hn). pose proof stage_lowered as Hl. pose proof (lw_rows _ _ _ _ _ Hl) as Hrows.
  destruct (po_schema _ _ _ _ _ Hpol) as (HB & _). destruct (co_columns _ _ _ _ _ stage_constants) as (V1 & V2 & V3).
  destruct (rq_lens _ _ _ (sf_requirements _ _ _ _ stage_semantics)) as (L & _). pose proof (tt_rows _ (po_typed _ _ _ _ _ Hpol)) as Hrq.
  pose proof (lw_size _ _ _ _ _ Hl) as Hsz. change (Opcodes PS) with (Opcodes p1) in Hsz. pose proof stage_roots as Hroots. split.
  - apply (slots_typed_instr PS); [done|apply Hl].
  - unfold validateApplicabilityProgram. rewrite <-(validateSlotProgram_instr PS Q), (lw_valid _ _ _ _ _ Hl), go_bind_Ok by done.
    rewrite check_true; [apply check_Ok|].
    + apply forallb_forall. intros root Hin%list_elem_of_In. rewrite Forall_forall in Hroots. destruct (Hroots root Hin) as [H1 H2].
      change (Opcodes Q) with (Opcodes c1). change (RootFlags Q) with (RootFlags c1). rewrite H2. lia.
    + rewrite !andb_true_iff, !bool_decide_eq_true. change (RequirementRoots Q) with (RequirementRoots c1). change (RequirementIDs Q) with (RequirementIDs c1).
      change (values Q) with (values c1). change (FieldKinds Q) with (FieldKinds c1). rewrite Er, Ev, Ek. lia.
  - change (RequirementRoots Q) with (RequirementRoots c1). rewrite Ei in Hroots. eapply Forall_impl; [exact Hroots|]. intros root [H _]. unfold is_u32, MaxUint32 in *. lia.
  - change (instr Q) with (instr c1). rewrite Ei. destruct (rw_len _ _ _ Hrows) as (_ & L2 & L3 & L4 & L5 & _). simpl in *. lia.
  - change (FieldKinds Q) with (FieldKinds c1). by rewrite Ek.
  - intros schema' row HB' Hrow. change (FieldKinds Q) with (FieldKinds c1) in HB'. rewrite Ek, HB in HB'. injection HB' as <-. by apply stage_row.
  - intros row Hrow. by apply stage_row.
  - change (values Q) with (values c1). by rewrite Ev.
  - change (symbols Q) with (symbols c1). rewrite Es. split; [apply (co_valid _ _ _ _ _ stage_constants)|]. intros sym Hsym.
    apply (space_ids (SymbolSpace := co_space _ _ _ _ _ stage_constants)); lia.
  - change (FieldKinds Q) with (FieldKinds c1). by rewrite Ek.
  - exact Hlits.
Qed.

Lemma stage_indexed : indexed Q p2.
Proof. destruct (lowerIndexes_ok Q stage_ready) as (p' & E & Hi). rewrite (sg_indexes _ _ _ _ _ _ _ _ _ _ _ Hsg) in E. by injection E as <-. Qed.

Lemma stage_frozen : c = with_program c1 p2 ∧ FieldIndex p2 = schema.
Proof.
  pose proof stage_indexed as Hi. pose proof (ix_rest _ _ Hi) as E. destruct stage_columns as (_ & _ & _ & Ek & _). split.
  - pose proof (sg_frozen _ _ _ _ _ _ _ _ _ _ _ Hsg) as Hf. rewrite (Freeze_ok con d p1 c1 p2 stage_semantics) in Hf by (by rewrite E). by injection Hf as <-.
  - pose proof (ix_schema _ _ Hi) as Hs. change (FieldKinds Q) with (FieldKinds c1) in Hs. rewrite Ek, (proj1 (po_schema _ _ _ _ _ Hpol)) in Hs. by injection Hs as ->.
Qed.

(** The columns of the compiled program. *)
Lemma final_columns : instr p2 = instr c1 ∧ slots p2 = s ∧ symbols p2 = cSymbols con ∧ values p2 = cValues con ∧ semantics p2 = semantics c1 ∧
  Explanations p2 = Explanations c1 ∧ Outcomes_ p2 = Outcomes_ c1 ∧ Resolutions p2 = Resolutions c1 ∧ resolver p2 = resolver c1 ∧ FieldIndex p2 = schema.
Proof.
  destruct stage_columns as (_ & Es & Ev & _). destruct stage_frozen as [_ Ef]. pose proof (ix_rest _ _ stage_indexed) as E. rewrite <-Es, <-Ev.
  rewrite E at 1 2 3 4 5 6 7 8 9. done.
Qed.

(** Instructions mean the same in every stage. *)
Lemma final_value b reasons root r : rootValue p2 b reasons root r = rootValue PS b reasons root r.
Proof.
  destruct final_columns as (E1 & _ & E3 & E4 & _ & _ & _ & _ & _ & E10). destruct stage_columns as (E & _). pose proof (sg_rest _ _ _ _ _ _ _ _ _ _ _ Hsg) as Er.
  apply denote_ext; [by rewrite E1, E| | |done].
  - rewrite E4. change (values PS) with (values p1). by rewrite Er.
  - rewrite E3. change (symbols PS) with (symbols p1). by rewrite Er.
Qed.

Lemma final_root node flag root : marked d node flag → rootInstruction p1 node (zlen (dNodeKinds d)) = Ok root → holds d find p2 node root.
Proof.
  intros Hm Hr b reasons r. destruct (root_holds node flag root Hm Hr) as (_ & _ & Hv). destruct final_columns as (_ & _ & _ & _ & _ & _ & _ & _ & _ & ->).
  by rewrite Hv, final_value.
Qed.

Lemma final_resolver : outcomes (resolver p2) = Outcomes_ p2 ∧ rules (resolver p2) = Resolutions p2 ∧ Resolve.resolver_ok (resolver p2) ∧ Resolve.resolver_typed (resolver p2).
Proof.
  destruct final_columns as (_ & _ & _ & _ & _ & _ & -> & -> & -> & _). destruct (sf_tables _ _ _ _ stage_semantics) as [Hv _].
  destruct (ValidateResultTables_inv _ _ _ _ _ _ Hv) as (Hn & _).
  destruct (sf_columns _ _ _ _ stage_semantics) as ((_ & _ & C3 & C4 & _) & _).
  destruct (resolutions_typed _ d _ (po_typed _ _ _ _ _ Hpol) C3 C4 (sf_resolutions _ _ _ _ stage_semantics)) as [T1 T2].
  assert (outcomes (resolver c1) = Outcomes_ c1 ∧ rules (resolver c1) = Resolutions c1) as [E1 E2].
  { unfold Resolve.NewResolver in Hn. do 8 (apply go_bind_inv in Hn as ([] & _ & Hn)). by injection Hn as <-. }
  split; [done|]. split; [done|]. split; [by apply (Resolve.NewResolver_ok _ _ _ _ Hn)|]. unfold Resolve.resolver_typed. by rewrite E2.
Qed.

Lemma final_states : states_document d find p2.
Proof.
  destruct final_columns as (E1 & _ & _ & _ & E5 & _ & E7 & E8 & E9 & E10). pose proof stage_semantics as Hs. destruct (sf_program _ _ _ _ Hs) as (x & Hx & Ex).
  pose proof (sf_requirements _ _ _ _ Hs) as Hq. destruct (rq_lens _ _ _ Hq) as (L1 & _). destruct final_resolver as (R1 & R2 & _ & _).
  assert (semantics p2 = loweredColumns con d (RequirementRoots c1) x) as E by (by rewrite E5). destruct (sf_outcomes _ _ _ _ Hs) as (O1 & _). split.
  - by rewrite E.
  - intros q Hlt. rewrite E. apply final_root with RootApplicability; [by apply requirement_marked|]. by apply Hq.
  - intros q Hlt. unfold requirementClauses, docClauses. rewrite E. split; [done|]. apply Forall_forall. intros clause Hin%csr_elem.
    pose proof (rq_clauses _ _ _ Hq) as Hall. rewrite Forall_forall in Hall. by apply Hall.
  - intros i Hi. rewrite E. apply final_root with RootAssertion; [|by apply (cl_assertion _ _ _ _ Hx)]. right. left. split; [done|]. by apply list_elem_of_lookup_total_2.
  - intros i Hi. unfold docEvidence, clauseRoots. rewrite E. simpl. destruct (cl_range _ _ _ _ Hx i Hi) as [(P1 & P2 & P3) _]. destruct (cl_lens _ _ _ _ Hx) as (_ & X2 & _).
    apply Forall2_same_length_lookup. split; [rewrite !length_csr by lia; done|]. intros j node root Hnode Hroot.
    pose proof (lookup_lt_Some _ _ _ Hnode) as Hj. rewrite length_csr in Hj by lia. rewrite csr_lookup in Hnode, Hroot by done.
    apply list_lookup_total_correct in Hnode as En. apply list_lookup_total_correct in Hroot as <-. destruct (cl_edge _ _ _ _ Hx i j Hi Hj) as [Hr _]. rewrite En in Hr.
    apply final_root with RootEvidence; [|done]. right. right. split; [done|]. by apply list_elem_of_lookup_2 in Hnode.
  - by rewrite E.
  - intros i reason Hi Hv. unfold Resolve.ruleOutcome. rewrite R2, E8, <-reasonOutcome_branch by done. apply (rl_row _ _ _ (sf_resolutions _ _ _ _ Hs) i reason Hi Hv).
  - by rewrite R1, E7.
  - intros b reasons q r Hlt. rewrite (ix_counts _ _ stage_indexed b reasons q r) by (change (RequirementRoots Q) with (RequirementRoots c1); lia). by rewrite E5.
Qed.

Lemma final_reasons : programReasons p2 = docReasons d.
Proof.
  destruct final_columns as (_ & _ & E3 & _ & E5 & _). destruct (sf_program _ _ _ _ stage_semantics) as (x & _ & Ex). unfold programReasons, docReasons.
  rewrite E5, Ex, E3. simpl. destruct (co_catalogs _ _ _ _ _ stage_constants) as [_ Hn].
  induction Hn as [|id sym ids syms (b & Hb & Hf) _ IH]; simpl; [done|]. f_equal; [|done].
  apply (space_find (SymbolSpace := co_space _ _ _ _ _ stage_constants)) in Hf as [_ ->]. simpl. by destruct Hb as [_ ->].
Qed.

(** ** The compiled program is well formed *)

Lemma stage_assertion x i : clauses_of p1 d (length (dClauseAssertionRoots d)) x → (i < length (dClauseAssertionRoots d))%nat →
  1 ≤ xAssertions x !!! i ≤ zlen (Opcodes c1) ∧ RootHas (RootFlags c1 !!! Z.to_nat (xAssertions x !!! i - 1)) RootAssertion = true.
Proof.
  intros Hx Hi. destruct (root_holds (dClauseAssertionRoots d !!! i) RootAssertion (xAssertions x !!! i)) as (H1 & H2 & _); [|by apply Hx|done].
  right. left. split; [done|]. by apply list_elem_of_lookup_total_2.
Qed.

Lemma stage_edge x e : (e < length (dClauseEvidenceNodeIDs d))%nat → edgeWritten p1 d (xEvidence x) (xEvidenceNodes x) e →
  1 ≤ xEvidence x !!! e ≤ zlen (Opcodes c1) ∧ RootHas (RootFlags c1 !!! Z.to_nat (xEvidence x !!! e - 1)) RootEvidence = true ∧
  Opcodes c1 !!! Z.to_nat (xEvidence x !!! e - 1) = OpcodeEvidence.
Proof.
  intros He [Hr _]. set (node := dClauseEvidenceNodeIDs d !!! e) in *. assert (node ∈ dClauseEvidenceNodeIDs d) as Hin by (by apply list_elem_of_lookup_total_2).
  assert (marked d node RootEvidence) as Hm by (by right; right). destruct (root_holds node RootEvidence _ Hm Hr) as (H1 & H2 & _). split; [done|]. split; [done|].
  destruct stage_columns as (E & _). destruct (rw_root _ _ _ (lw_rows _ _ _ _ _ stage_lowered) node RootEvidence Hm) as (id & args & Eid & _ & Hkey).
  destruct (rootInstruction_inv _ _ _ _ Hr) as (Hn & Er & _). change (instr PS) with (instr p1) in Eid. rewrite Er in Eid. injection Eid as <-.
  rewrite E. apply (f_equal kOpcode) in Hkey. change (kOpcode (keyOf PS _)) with (Opcodes p1 !!! Z.to_nat (xEvidence x !!! e - 1)) in Hkey. rewrite Hkey.
  pose proof (po_evidence _ _ _ _ _ Hpol) as Hall. rewrite Forall_forall in Hall. specialize (Hall node Hin). unfold nodeKey. rewrite Hall.
  destruct (dk_node _ _ (po_doc _ _ _ _ _ Hpol) node ltac:(unfold DocLen; lia)) as [Hok _].
  destruct Hok as [? Ek|? ? ? ? ? Ek|? ? ? ? Ek|kind ? Ek Hg|? Ek|q Ek Eq]; rewrite Hall in Ek; try done; [injection Ek as <-; done|]. by rewrite Eq.
Qed.

Lemma stage_graph : slots_typed c1 ∧ graph_ok c1.
Proof.
  destruct stage_columns as (E & _). pose proof stage_lowered as Hl. assert (slots_typed c1) as Ht by (apply (slots_typed_instr PS); [by rewrite E|apply Hl]).
  split; [done|]. apply validateSlotProgram_ok; [done|]. rewrite <-(validateSlotProgram_instr PS c1) by (by rewrite E). apply Hl.
Qed.

Lemma final_typed : program_typed p2.
Proof.
  destruct final_columns as (E1 & E2 & E3 & E4 & E5 & E6 & E7 & E8 & E9 & E10). destruct (sf_program _ _ _ _ stage_semantics) as (x & Hx & Ex). pose proof (eq_trans E5 Ex) as Ex'.
  pose proof stage_lowered as Hl. destruct stage_columns as (E & _). destruct stage_schema as (Hb & Hk & Hn). destruct (po_typed _ _ _ _ _ Hpol) as [(T1 & T2 & T3) (T4 & T5 & _) (T6 & T7) _ _].
  pose proof (lw_size _ _ _ _ _ Hl) as Hsz. change (instr PS) with (instr p1) in Hsz. rewrite <-E in Hsz. unfold MaxUint32 in Hsz. split.
  - destruct stage_graph as [Hty Hg]. destruct (assigned_typed c1 s Hg Hty stage_assigned) as [S1 S2 S3 S4 S5 S6 S7]. split; rewrite ?E1, ?E2; done.
  - split; rewrite ?Ex', ?E10; simpl; try assumption.
    + eapply Forall_impl; [exact stage_roots|]. intros root [Hr _]. unfold is_u32. lia.
    + apply Forall_lookup. intros i root Hi. destruct (cl_lens _ _ _ _ Hx) as (X1 & _). pose proof (lookup_lt_Some _ _ _ Hi). apply list_lookup_total_correct in Hi as <-.
      destruct (stage_assertion x i Hx) as [Hr _]; [lia|]. unfold is_u32. lia.
    + apply Forall_lookup. intros e root He. destruct (cl_lens _ _ _ _ Hx) as (_ & X2 & _). pose proof (lookup_lt_Some _ _ _ He). apply list_lookup_total_correct in He as <-.
      destruct (cl_edges _ _ _ _ Hx e ltac:(lia)) as [Hw| ->]; [|done]. destruct (stage_edge x e ltac:(lia) Hw) as [H1 _]. unfold is_u32. lia.
    + eapply Forall_impl; [exact T7|]. intros n Hn'. unfold is_u32, MaxUint16 in *. simpl in *. lia.
    + apply (schema_columns_u32 _ _ Hb). lia.
    + exact (proj2 (proj2 (ix_shape _ _ stage_indexed))).
  - exact (proj1 (ix_policy _ _ stage_indexed)).
  - exact (proj1 (proj2 (ix_facts _ _ stage_indexed))).
  - rewrite E3. apply (co_valid _ _ _ _ _ stage_constants).
  - rewrite E10. apply (schema_typed_ok _ _ Hb). lia.
Qed.

Lemma final_wf : program_wf p2.
Proof.
  destruct final_columns as (E1 & E2 & E3 & E4 & E5 & E6 & E7 & E8 & E9 & E10). destruct (sf_program _ _ _ _ stage_semantics) as (x & Hx & Ex). pose proof (eq_trans E5 Ex) as Ex'.
  pose proof stage_assigned as Has. destruct final_resolver as (R1 & R2 & R3 & R4). split.
  - exact final_typed.
  - intros row Hrow. rewrite E1 in Hrow. rewrite <-(proj1 (stage_row row Hrow)). pose proof (ix_rest _ _ stage_indexed) as Er. rewrite Er, E10. done.
  - intros j o Hj Ho. rewrite E2. rewrite E1 in Hj. apply (as_operands _ _ Has); [done|]. unfold operandsOf in *. by rewrite E1 in Ho.
  - split; [| |done..].
    + intros root [Hroot Hflag]. rewrite E1 in Hroot, Hflag. rewrite E1, E2. apply (as_roots _ _ Has (Z.to_nat (root - 1))); [lia|done].
    + intros root Hin Hroot. rewrite Ex' in Hin. simpl in Hin. rewrite E1. apply list_elem_of_lookup_total in Hin as (e & He & <-). destruct (cl_lens _ _ _ _ Hx) as (_ & X2 & _).
      destruct (cl_edges _ _ _ _ Hx e ltac:(lia)) as [Hw|Hz]; [|lia]. apply (stage_edge x e); [lia|done].
Qed.

(** ** The compiled program passes the executor's validation *)

Lemma final_row row : (row < length (Opcodes p2))%nat → validExecutionRow p2 row = true.
Proof.
  destruct final_columns as (E1 & E2 & _ & _ & _ & _ & _ & _ & _ & E10). destruct stage_columns as (E & _). pose proof stage_lowered as Hl. rewrite E1. intros Hrow.
  pose proof (as_ranges _ _ stage_assigned row Hrow) as [R1 R2]. destruct stage_graph as [_ [_ _ Hg3 Hg4]]. destruct (Hg3 row Hrow) as (G1 & G2 & G3).
  assert (instr p1 = instr PS) as Ep by done.
  destruct (row_arity d k PS (po_doc _ _ _ _ _ Hpol) (po_strict _ _ _ _ _ Hpol) (lw_rows _ _ _ _ _ Hl) row) as [Hv Har]; [by rewrite <-Ep, <-E|].
  assert (length (kArgs (keyOf PS row)) = Z.to_nat (OperandCounts c1 !!! row)) as Ec by (rewrite <-Ep, <-E; simpl; apply length_csr; lia).
  rewrite Ec in Har. rewrite <-Ep, <-E in Hv, Har. destruct (validateSlotProgram_inv PS (lw_valid _ _ _ _ _ Hl)) as [_ Hflags].
  specialize (Hflags row ltac:(by rewrite <-Ep, <-E)). rewrite <-Ep, <-E in Hflags. destruct (rw_source _ _ _ (lw_rows _ _ _ _ _ Hl) row ltac:(by rewrite <-Ep, <-E)) as [N1 N2].
  rewrite <-Ep, <-E in N1, N2. destruct (lw_pools _ _ _ _ _ Hl) as [_ Hpool]. rewrite <-Ep, <-E in Hpool. unfold MaxUint32 in Hpool.
  unfold validExecutionRow. unfold operandsOf. rewrite E1, E2, Hv. change executorRootFlags with knownRootFlags. rewrite Hflags, u64_small by (unfold is_u64; lia).
  rewrite !andb_true_iff, forallb_forall. split_and!.
  - cbn [negb orb Z.eqb]. lia.
  - lia.
  - destruct (IsGroup _); [lia|]. destruct (_ =? OpcodeNot); lia.
  - intros o Ho%list_elem_of_In. specialize (Hg4 row o Hrow Ho). lia.
Qed.

Lemma final_schedule : validExecutionSchedule p2 = true.
Proof.
  destruct final_columns as (E1 & E2 & _). destruct stage_columns as (E & _). pose proof stage_lowered as Hl. pose proof (lw_size _ _ _ _ _ Hl) as Hsz.
  destruct (rw_len _ _ _ (lw_rows _ _ _ _ _ Hl)) as (_ & L2 & L3 & L4 & L5 & L6 & L7 & (V1 & V2 & V3 & V4 & V5) & L8 & L9 & L10 & L11).
  change (instr PS) with (instr p1) in *. rewrite <-E in *. destruct (as_lens _ _ stage_assigned) as [A1 A2].
  destruct (as_ranges _ _ stage_assigned 0%nat ltac:(lia)) as [R1 R2]. unfold validExecutionSchedule, optionalExecutionColumn.
  rewrite E1, E2, V3, V4, V5, !andb_true_iff, !orb_true_iff, !bool_decide_eq_true. split_and!; try lia.
  - apply negb_true_iff, bool_decide_eq_false. lia.
  - apply forallb_forall. intros row Hrow%in_seq. apply final_row. rewrite E1. lia.
Qed.

Lemma final_shape : validSemanticShape p2 = true.
Proof.
  destruct final_columns as (_ & _ & _ & _ & E5 & _ & _ & E8 & _). destruct (sf_program _ _ _ _ stage_semantics) as (x & Hx & Ex). pose proof (eq_trans E5 Ex) as Ex'.
  destruct (sf_columns _ _ _ _ stage_semantics) as [(C1 & C2 & C3 & C4 & C5 & C6) Ce]. destruct (rl_lens _ _ _ (sf_resolutions _ _ _ _ stage_semantics)) as (Z1 & Z2 & _).
  destruct (rq_lens _ _ _ (sf_requirements _ _ _ _ stage_semantics)) as (L1 & L2 & L3 & L4). destruct (cl_lens _ _ _ _ Hx) as (X1 & X2 & X3).
  destruct (sg_nonempty _ _ _ _ _ _ _ _ _ _ _ Hsg) as [Hn1 Hn2]. pose proof (tt_clauses _ (po_typed _ _ _ _ _ Hpol)) as Hc. pose proof (tt_rows _ (po_typed _ _ _ _ _ Hpol)) as Hr.
  pose proof (proj1 (proj2 (ix_shape _ _ stage_indexed))) as Hcount. change (RequirementRoots Q) with (RequirementRoots c1) in Hcount. unfold validSemanticShape. rewrite Hcount, E8, Ex'. simpl.
  unfold MaxUint32 in *. rewrite !u64_small, u32_small by (unfold is_u64, is_u32, ReasonCount, clauseExplanationBranchCount; lia).
  rewrite !andb_true_iff, !bool_decide_eq_true, negb_true_iff, !orb_false_iff, !bool_decide_eq_false.
  assert (length (dRequirementIDs d) ≠ 0%nat ∧ length (dClauseAssertionRoots d) ≠ 0%nat) as [N1 N2] by (split; by intros ?%nil_length_inv).
  unfold ReasonCount, clauseExplanationBranchCount, ResolutionBranchCount in *. split_and!; lia.
Qed.

Lemma final_root_valid root flag : 1 ≤ root ≤ zlen (Opcodes c1) → RootHas (RootFlags c1 !!! Z.to_nat (root - 1)) flag = true → validExecutionRoot p2 root flag = true.
Proof. destruct final_columns as (E1 & _). intros Hr Hf. unfold validExecutionRoot. rewrite E1, Hf. lia. Qed.

Lemma final_requirement q : (q < length (RequirementIDs p2))%nat → validRequirementRow p2 q = true.
Proof.
  destruct final_columns as (_ & _ & _ & _ & E5 & _). destruct (sf_program _ _ _ _ stage_semantics) as (x & Hx & Ex). pose proof (eq_trans E5 Ex) as Ex'.
  pose proof (sf_requirements _ _ _ _ stage_semantics) as Hq. destruct (rq_lens _ _ _ Hq) as (L1 & L2 & L3 & L4). destruct (cl_lens _ _ _ _ Hx) as (X1 & _).
  destruct (tt_requirements _ (po_typed _ _ _ _ _ Hpol)) as (T1 & T2 & _). destruct (po_requirements _ _ _ _ _ Hpol) as [P1 P2]. unfold validRequirementRow. rewrite Ex'. simpl. intros Hlt.
  pose proof (Forall_lookup_total_1 _ _ q P1 Hlt) as Hid. pose proof (Forall_lookup_total_1 _ _ q P2 ltac:(lia)) as Hne. destruct (stage_requirement q Hlt) as (H1 & H2 & _).
  destruct (rootInstruction_inv _ _ _ _ (rq_root _ _ _ Hq q Hlt)) as [Hnode _]. rewrite (final_root_valid _ _ H1 H2), (proj2 (Z.eqb_neq _ _) Hid), (proj2 (Z.eqb_neq _ _) Hne), (proj2 (Z.eqb_neq _ 0)) by lia.
  rewrite edgeRange_true; [|by apply Forall_lookup_total_1; [|lia]..|by apply Hq]. simpl. apply forallb_forall. intros clause Hin%list_elem_of_In%csr_elem.
  pose proof (rq_clauses _ _ _ Hq) as Hall. rewrite Forall_forall in Hall. specialize (Hall clause Hin). lia.
Qed.

Lemma final_explained id : is_Some (ExplanationLookup (xExplanations (cpExplanations c1)) id) → explained p2 id = true.
Proof.
  destruct final_columns as (_ & _ & _ & _ & _ & E6 & _). destruct (sf_tables _ _ _ _ stage_semantics) as [_ Ex]. unfold explained. rewrite E6, Ex. by intros [? ->].
Qed.

Lemma final_outcome o : 1 ≤ o ≤ zlen (dOutcomeNames d) → bool_decide (is_Some (Outcomes.Lookup (Outcomes_ p2) o)) = true.
Proof.
  destruct final_columns as (_ & _ & _ & _ & _ & _ & E7 & _). destruct (sf_outcomes _ _ _ _ stage_semantics) as (O1 & O2 & O3 & O4 & O5). intros Ho.
  apply bool_decide_eq_true_2, Outcomes.Lookup_known. unfold Outcomes.known. rewrite E7, O1, O2. lia.
Qed.

Lemma final_clause i : (i < length (ClauseAssertionRoots p2))%nat → validClauseRow p2 i = true.
Proof.
  destruct final_columns as (_ & _ & _ & _ & E5 & _). destruct (sf_program _ _ _ _ stage_semantics) as (x & Hx & Ex). pose proof (eq_trans E5 Ex) as Ex'.
  destruct (sf_columns _ _ _ _ stage_semantics) as [(C1 & C2 & C3 & C4 & C5 & C6) Ce]. destruct (cl_lens _ _ _ _ Hx) as (X1 & X2 & X3).
  destruct (po_typed _ _ _ _ _ Hpol) as [_ (T4 & T5 & _) (T6 & T7) _ _]. destruct (po_outcomes _ _ _ _ _ Hpol) as [P1 P2].
  destruct (sf_tables _ _ _ _ stage_semantics) as [Hv _]. destruct (ValidateResultTables_inv _ _ _ _ _ _ Hv) as (_ & Hexp & _).
  unfold validClauseRow. rewrite Ex'. simpl. intros Hi. rewrite X1 in Hi. destruct (stage_assertion x i Hx Hi) as [H1 H2]. destruct (cl_range _ _ _ _ Hx i Hi) as [R1 R2].
  destruct (rootInstruction_inv _ _ _ _ (cl_assertion _ _ _ _ Hx i Hi)) as [Hnode _].
  rewrite (final_root_valid _ _ H1 H2), (proj2 (Z.eqb_neq _ 0)) by lia.
  pose proof (Forall_lookup_total_1 _ _ i T7 ltac:(lia)) as U7. simpl in U7. unfold MaxUint16 in U7.
  rewrite (edgeRange_true _ _ (dClauseRemediationIDs d)); [|apply Forall_lookup_total_1; [done|lia]|unfold is_u32; lia|done].
  assert (in_pool (xEvidence x) (dClauseEvidenceStarts d !!! i) (dClauseEvidenceCounts d !!! i)) as R1' by (unfold in_pool in *; rewrite X2; exact R1).
  rewrite (edgeRange_true _ _ (xEvidence x)); [|by apply Forall_lookup_total_1; [|lia]..|done].
  rewrite (final_outcome _ (Forall_lookup_total_1 _ _ i P1 ltac:(lia))), (final_outcome _ (Forall_lookup_total_1 _ _ i P2 ltac:(lia))).
  cbn [negb orb andb]. rewrite !andb_true_r, andb_true_iff, !forallb_forall. destruct R1' as (R3 & R4 & R5). split.
  - intros j Hj%in_seq. rewrite length_csr in Hj by lia. simpl in Hj. rewrite csr_lookup_total by lia.
    pose proof (cl_edge _ _ _ _ Hx i j Hi ltac:(lia)) as Hw. destruct (stage_edge x (Z.to_nat (dClauseEvidenceStarts d !!! i) + j) ltac:(lia) Hw) as (G1 & G2 & _). destruct Hw as [Hroot Hn].
    destruct (rootInstruction_inv _ _ _ _ Hroot) as [Hnode' _]. rewrite (final_root_valid _ _ G1 G2), Hn, (proj2 (Z.eqb_neq _ 0)) by lia. done.
  - intros id Hin%list_elem_of_In%csr_elem. apply final_explained. rewrite Forall_forall in Hexp. by apply Hexp.
Qed.

Lemma final_valid : validExecutionSemantics p2 = Ok true.
Proof.
  destruct (ix_facts _ _ stage_indexed) as (F1 & _ & F3). destruct (ix_policy _ _ stage_indexed) as (_ & _ & F4). destruct final_columns as (_ & _ & E3 & _ & E5 & _ & _ & E8 & _).
  destruct (sf_program _ _ _ _ stage_semantics) as (x & Hx & Ex). destruct (sf_tables _ _ _ _ stage_semantics) as [Hv _]. destruct (ValidateResultTables_inv _ _ _ _ _ _ Hv) as (_ & _ & Hexp).
  unfold validExecutionSemantics. rewrite final_schedule, F1. cbn [negb orb]. rewrite F3, go_bind_Ok, final_shape, F4. f_equal. cbn [andb]. rewrite !andb_true_iff, !forallb_forall. split_and!.
  - intros id Hin%list_elem_of_In. rewrite E8 in Hin. apply final_explained. rewrite Forall_forall in Hexp. by apply Hexp.
  - intros sym Hin%list_elem_of_In. rewrite E5, Ex in Hin. simpl in Hin. rewrite E3. destruct (co_catalogs _ _ _ _ _ stage_constants) as [_ Hn].
    apply list_elem_of_lookup in Hin as (i & Hi). destruct (Forall2_lookup_r _ _ _ i sym Hn Hi) as (id & _ & b & _ & Hf).
    apply (space_find (SymbolSpace := co_space _ _ _ _ _ stage_constants)) in Hf as [_ Hf]. by rewrite Hf.
  - done.
  - intros q Hq%in_seq. apply final_requirement. lia.
  - intros i Hi%in_seq. apply final_clause. lia.
Qed.
End compiled.

(** ** The compiler's promise *)

Lemma lowerIndexes_rest p p' : lowerIndexes p = Ok p' → ∃ pol spec schema, p' = with_indexes p pol spec schema.
Proof.
  unfold lowerIndexes. intros H. repeat (apply go_bind_inv in H as (? & _ & H)). injection H as <-. by eexists _, _, _.
Qed.

Lemma Freeze_rest c c' : generated (Freeze c) = Ok c' → ∃ e outs rems rs r, cpProgram c' = with_semantics c (semantics c) e outs rems rs r.
Proof.
  unfold Freeze. destruct (ValidateResultTables _ _ _ _ _) as [r|e|msg]; simpl; [|done..]. intros [= <-]. simpl. by eexists _, _, _, _, _.
Qed.

Lemma compiled_policy d fields source schema w c : policy_ok d fields source schema w → lowerDocument d fields source = Ok c → literals_fit c →
  program_wf c ∧ validExecutionSemantics c = Ok true ∧ validBoundPolicy (ApplicabilityIndex c) = true ∧
  states_document d (findSymbol (symbols c)) c ∧ programReasons c = docReasons d ∧ FieldIndex c = schema.
Proof.
  intros Hpol Hc Hlits. destruct (lowerDocument_stages d fields source schema w c Hpol Hc) as (k & con & p1 & c1 & s & p2 & Hsg).
  assert (literals_fit (with_slots c1 s)) as Hfit.
  { destruct (lowerIndexes_rest _ _ (sg_indexes _ _ _ _ _ _ _ _ _ _ _ Hsg)) as (pol & spec & sch & E2).
    destruct (Freeze_rest _ _ (sg_frozen _ _ _ _ _ _ _ _ _ _ _ Hsg)) as (ex & outs & rems & rs & r & E). rewrite E in Hlits. simpl in Hlits. by rewrite E2 in Hlits. }
  destruct (stage_frozen d fields source schema w Hpol c k con p1 c1 s p2 Hsg Hfit) as [-> Ef]. simpl.
  destruct (final_columns d fields source schema w Hpol _ k con p1 c1 s p2 Hsg Hfit) as (_ & _ & Es & _). rewrite Es.
  split; [by apply (final_wf d fields source schema w Hpol _ k con p1 c1 s p2 Hsg Hfit)|].
  split; [by apply (final_valid d fields source schema w Hpol _ k con p1 c1 s p2 Hsg Hfit)|].
  split; [apply (ix_policy _ _ (stage_indexed d fields source schema w Hpol _ k con p1 c1 s p2 Hsg Hfit))|].
  split; [by apply (final_states d fields source schema w Hpol _ k con p1 c1 s p2 Hsg Hfit)|].
  split; [by apply (final_reasons d fields source schema w Hpol _ k con p1 c1 s p2 Hsg Hfit)|done].
Qed.

(** ** Decisions *)

(** The executor decides, for every request row, what a well-formed document states. *)
Lemma document_decides {ops : SimdOps} {laws : SimdLaws ops} (d : Document) (fields : FieldTable) (source : Interner.Interner)
    (schema : IndexSchema) (w : Z → Z) (c : Compiled) (programs : Z → Program) (e : Executor) (addr : Z) (b : Batch) (mode : executionMode) :
  policy_ok d fields source schema w → lowerDocument d fields source = Ok c → literals_fit c → programs addr = cpProgram c →
  executor_ok programs e → input_typed b → accepts c b →
  ∃ out e', executeMode programs addr b mode e = (Ok out, e') ∧ executor_ok programs e' ∧ length (rbOutcomeIDs out) = Z.to_nat (Rows b) ∧
  ∀ r, (r < Z.to_nat (Rows b))%nat →
    let outcome := docOutcome d (findSymbol (symbols c)) schema b (docReasons d) r in
    rbOutcomeIDs out !!! r = outcome ∧
    csrRow (rbRequirementOffsets out) (rbRequirementIDs out) r = docRequirements d (findSymbol (symbols c)) schema b (docReasons d) r ∧
    match List.find (λ v, vOutcome v =? outcome) (docVerdicts d (findSymbol (symbols c)) schema b (docReasons d) r) with
    | Some v => csrRow (rbDriverOffsets out) (rbDriverRequirements out) r = [vRequirement v] ∧
        csrRow (rbDriverOffsets out) (rbDriverClauses out) r = [vClause v] ∧
        csrRow (rbReasonOffsets out) (rbReasonIDs out) r = List.filter (Has (vReasons v)) allReasons
    | None => outcome = 0 ∧ csrRow (rbDriverOffsets out) (rbDriverRequirements out) r = []
    end.
Proof.
  intros Hpol Hc Hlits Ep He Hin Hacc. destruct (compiled_policy d fields source schema w c Hpol Hc Hlits) as (Hwf & Hv & Hb & Hst & Hre & Hf).
  rewrite <-Ep in *. destruct (executes programs e addr b mode He Hwf Hin Hv Hb Hacc) as (out & e' & outs & Hrun & He' & Href).
  exists out, e'. split; [done|]. split; [done|]. split; [apply (en_outcomes _ _ _ (rf_encodes _ _ _ _ Href))|]. intros r Hr.
  destruct (reference_row _ _ outs out (bt_rows _ (it_batch _ Hin)) Href r Hr) as (Ho & Hreq & H1 & H2 & H3 & H4).
  destruct (decides d _ _ Hst b (docReasons d) r) as (D1 & D2 & D3). rewrite Hre in *. rewrite Hf in *.
  rewrite <-D1, <-D2, <-D3. pose proof (rr_driver _ _ _ _ _ (rf_rows _ _ _ _ Href r Hr)) as Hd. rewrite Hre in Hd. split; [done|]. split; [done|].
  unfold driverReasons in H3. fold (rowDriver (programs addr) b (docReasons d) r). destruct (rowDriver _ _ _ _) as [v|]; [done|].
  destruct Hd as [_ Hnone]. split; [|done]. unfold rowOutcome. by rewrite Hnone.
Qed.
