(* ===== verification/ValidateAccepts.v ===== *)
(** * What an accepted document satisfies
    A document without diagnostics has columns of equal length, literals that decode,
    references inside their tables, comparisons of matching types and an acyclic graph
    that the roots reach: the facts that the compiler relies on. *)

From S2P Require Import Prelude Store Truth Schema Diagnostic Validate Traversal GraphWalk GraphOk ValidateOk.
From S2P Require Import Result Program Batch Predicate Evidence Executor PolicyIndex Finalize Execute Liveness Schedule SymbolTable Interner Frozen SymbolCheck.
From S2P Require Import Ast Constants ConstantsMeaning Normalize DocMeaning WalkOk FactLower LowerRows.
#[local] Open Scope Z_scope.

Section accepted.
Context (d : Document) (fields : FieldTable) (Hty : doc_typed d) (Hv : Validate d fields = Ok []).
Local Abbreviation Hgt := (ty_graph _ Hty).
Local Abbreviation n := (length (dNodeKinds d)).

(** ** The phases *)

Lemma accepted_phases : (validateStructure d fields).1.1 = [] ∧ validateSemantics d fields (nodeStates d) = Ok [] ∧
  validateGraph d (nodeStates d) (checkClauseRows d).2 = Ok [].
Proof.
  destruct (Validate_ok d fields Hty) as (s & g & E & Es & Eg). rewrite Hv in E. injection E as E. symmetry in E. apply app_nil in E as [E1 [-> ->]%app_nil]. done.
Qed.

Record structure_clean : Prop := {
  sc_lengths : checkColumnLengths d = [];
  sc_values : checkValueRows d = [];
  sc_compares : checkCompareRows d fields = [];
  sc_groups : checkGroupRows d = [];
  sc_nots : checkNotRows d = [];
  sc_evidence : checkEvidenceRows d = [];
  sc_nodes : (checkNodeRows d).1 = [];
  sc_kinds : checkEvidenceKindRows d = [];
  sc_states : checkEvidenceStateRows d = [];
  sc_clauses : (checkClauseRows d).1 = [];
  sc_requirements : checkRequirementRows d = []
}.

Lemma accepted_structure : structure_clean.
Proof.
  destruct accepted_phases as (E & _). unfold validateStructure in E. destruct (checkNodeRows d) as [ns st] eqn:En, (checkClauseRows d) as [cs ct] eqn:Ec. cbn [fst] in E.
  repeat (apply app_nil in E as [? E]). split; try done; [by rewrite En|by rewrite Ec].
Qed.

Record semantics_clean : Prop := {
  se_nodes : collect (checkNodeSemantics d fields (nodeStates d)) (seq 0 n) = Ok [];
  se_identity : checkPolicyIdentitySemantics d = Ok [];
  se_kinds : checkCatalogNameSemantics d TableEvidenceKind (dEvidenceKindNames d) (dEvidenceKindSourceStarts d) (dEvidenceKindSourceEnds d) = Ok [];
  se_states : checkCatalogNameSemantics d TableEvidenceState (dEvidenceStateNames d) (dEvidenceStateSourceStarts d) (dEvidenceStateSourceEnds d) = Ok [];
  se_clauses : checkClauseSemantics d = [];
  se_requirements : checkRequirementSemantics d = []
}.

Lemma accepted_semantics : semantics_clean.
Proof.
  destruct accepted_phases as (_ & E & _). unfold validateSemantics in E. apply go_bind_inv in E as (x1 & E1 & E). apply go_bind_inv in E as (x2 & E2 & E).
  apply go_bind_inv in E as (x3 & E3 & E). apply go_bind_inv in E as (x4 & E4 & E). apply go_bind_inv in E as (x5 & E5 & E). injection E as E.
  apply app_nil in E as [_ E]. apply app_nil in E as [-> E]. apply app_nil in E as [-> E]. apply app_nil in E as [-> E]. apply app_nil in E as [-> E].
  apply app_nil in E as [_ E]. apply app_nil in E as [_ E]. apply app_nil in E as [? E]. by split.
Qed.

(** ** Columns *)

Ltac clean_emits H := repeat match type of H with
  | emit _ _ ++ _ = [] => let H1 := fresh "L" in apply app_nil in H as [H1%emit_nil H]
  | emit _ _ = [] => apply emit_nil in H
  end.

Record columns_equal : Prop := {
  ce_nodes : length (dNodeRefs d) = n ∧ length (dSourceStarts d) = n ∧ length (dSourceEnds d) = n;
  ce_compares : let base := length (dCompareFields d) in length (dCompareOps d) = base ∧ length (dCompareValues d) = base ∧ length (dCompareListStarts d) = base ∧
    length (dCompareListCounts d) = base;
  ce_groups : length (dGroupChildStarts d) = length (dGroupChildCounts d);
  ce_evidence : length (dEvidenceKinds d) = length (dEvidenceStates d) ∧
    Forall (λ col, col = [] ∨ length col = length (dEvidenceKinds d)) [dEvidenceSubjects d; dEvidenceScopes d; dEvidenceTimings d];
  ce_values : length (dValueKinds d) = length (dValueRefs d) ∧ length (dSymbolStarts d) = length (dSymbolLengths d);
  ce_kinds : length (dEvidenceKindNames d) = length (dEvidenceKindSourceStarts d) ∧ length (dEvidenceKindNames d) = length (dEvidenceKindSourceEnds d);
  ce_states : length (dEvidenceStateNames d) = length (dEvidenceStateSourceStarts d) ∧ length (dEvidenceStateNames d) = length (dEvidenceStateSourceEnds d);
  ce_clauses : clauseRows d = length (dClauseAssertionRoots d) ∧ length (dClauseOnSatisfied d) = length (dClauseAssertionRoots d) ∧
    length (dClauseOnFalse d) = length (dClauseAssertionRoots d);
  ce_requirements : requirementRows d = length (dRequirementIDs d) ∧ length (dRequirementApplicabilityRoots d) = length (dRequirementIDs d) ∧
    length (dRequirementClauseCounts d) = length (dRequirementIDs d)
}.

Lemma qualifier_length (col : list Z) k : negb (bool_decide (length col = 0%nat)) && negb (bool_decide (k = length col)) = false → col = [] ∨ length col = k.
Proof.
  rewrite andb_false_iff, !negb_false_iff, !bool_decide_eq_true. intros [?%length_zero_iff_nil|?]; [by left|by right].
Qed.

Lemma accepted_columns : columns_equal.
Proof.
  pose proof (sc_lengths accepted_structure) as H. unfold checkColumnLengths in H. cbv zeta in H. clean_emits H.
  repeat match goal with E : _ || _ = false |- _ => apply orb_false_iff in E as [? ?] end.
  repeat match goal with E : negb (bool_decide (_ ∧ _)) = false |- _ => apply negb_false_iff, bool_decide_eq_true in E
                       | E : negb (bool_decide (_ = _)) = false |- _ => apply negb_false_iff, bool_decide_eq_true in E end.
  repeat match goal with E : negb _ && negb _ = false |- _ => apply qualifier_length in E end.
  destruct_and?. split; try (split_and?; done).
  - split; [done|]. repeat (apply Forall_cons; split; [done|]). constructor.
  - split; [|done]. apply safeMin_eq; [done|]. repeat constructor; done.
  - split; [|done]. apply safeMin_eq; [done|]. repeat constructor; done.
Qed.

(** ** Literals *)

Lemma value_ref i : is_u32 (dValueRefs d !!! i).
Proof. destruct (ty_values _ Hty) as [H _]. by apply Forall_total_Z. Qed.

Lemma literal_row i : (i < length (dValueKinds d))%nat → Validate.literalKind (dValueKinds d !!! i) = true ∧ valueRefValid d (dValueKinds d !!! i) (dValueRefs d !!! i) = true.
Proof.
  intros Hi. pose proof (flat_map_nil _ _ (sc_values accepted_structure)) as H. destruct (ce_values accepted_columns) as [E _].
  apply (proj1 (Forall_forall _ _)) with (x := i) in H; [|apply elem_of_seq; lia]. unfold checkValueRow in H. cbv zeta in H.
  destruct (Validate.literalKind _); [|done]. split; [done|]. apply emit_nil in H. by apply negb_false_iff in H.
Qed.

Lemma literalKind_cases k : Validate.literalKind k = true → k = ValueKindSymbol ∨ k = ValueKindInteger ∨ k = ValueKindBoolean ∨ k = ValueKindTimestamp.
Proof. unfold Validate.literalKind, ValueKindSymbol, ValueKindInteger, ValueKindBoolean, ValueKindTimestamp. rewrite andb_true_iff, !Z.leb_le. lia. Qed.

(** Every literal decodes to a literal of its kind. *)
Lemma accepted_literal id : 1 ≤ id ≤ zlen (dValueKinds d) → ∃ l, literalOf d id = Some l ∧ literalKind l = dValueKinds d !!! Z.to_nat (id - 1).
Proof.
  intros Hid. set (i := Z.to_nat (id - 1)). destruct (literal_row i ltac:(lia)) as [Hk Hr]. destruct (ce_values accepted_columns) as [El Es]. pose proof (value_ref i) as Hu.
  assert (valueIndex d id = Some i) as Ei.
  { unfold valueIndex. rewrite (proj2 (Z.eqb_neq _ _)), !(proj2 (Z.leb_gt _ _)) by lia. done. }
  unfold literalOf, DocValueKind. rewrite Ei. cbn -[Z.eqb]. assert (∀ k, dValueKinds d !!! i = k → literalRow d id k = Some (dValueRefs d !!! i)) as Hrow.
  { intros k Ek. unfold literalRow. rewrite Ei. cbn -[Z.eqb]. by rewrite Ek, Z.eqb_refl. }
  unfold SymbolValue, IntegerValue, BooleanValue, TimestampValue. unfold is_u32 in Hu. destruct (literalKind_cases _ Hk) as [Ek|[Ek|[Ek|Ek]]]; rewrite Ek in Hr |- *; rewrite (Hrow _ Ek); cbn.
  - destruct (symbol_row d Hty _ (value_ref i) Hr) as (L1 & L2 & U1 & U2 & Hb). unfold is_u32 in *. rewrite !(proj2 (Z.ltb_lt _ _)) by lia. cbn.
    rewrite u64_small by (unfold is_u64; lia). rewrite (proj2 (Z.ltb_ge _ _)) by lia. eexists. by split.
  - apply Z.ltb_lt in Hr. rewrite (proj2 (Z.leb_gt _ _)) by lia. eexists. by split.
  - apply andb_true_iff in Hr as [Hr%Z.ltb_lt Hb%Z.leb_le]. rewrite (proj2 (Z.leb_gt _ _)), (proj2 (Z.ltb_ge _ _)) by lia. eexists. by split.
  - apply Z.ltb_lt in Hr. rewrite (proj2 (Z.leb_gt _ _)) by lia. eexists. by split.
Qed.

Lemma accepted_literals : literals_ok d.
Proof.
  destruct (ce_values accepted_columns) as [El _]. split; [done|]. intros j Hj. destruct (accepted_literal (Z.of_nat j + 1)) as (l & -> & _); [lia|]. by eexists.
Qed.

(** The validator's reading of a literal is the document's. *)
Lemma literalValueKind_ok id kind : is_u32 id → literalValueKind d id = Some kind → valueOk d kind id.
Proof.
  unfold literalValueKind, is_u32. intros Hu. destruct (Z.eqb_spec id 0); [done|]. destruct (Z.ltb_spec (zlen (dValueKinds d)) id); [done|].
  destruct (Z.ltb_spec (zlen (dValueRefs d)) id); [done|]. cbn [orb]. cbv zeta. destruct (Validate.literalKind _); [|done]. intros [= <-].
  split; [lia|]. apply accepted_literal. lia.
Qed.

Lemma literalValueKind_some id : 1 ≤ id ≤ zlen (dValueKinds d) → literalValueKind d id = Some (dValueKinds d !!! Z.to_nat (id - 1)).
Proof.
  intros Hid. destruct (ce_values accepted_columns) as [El _]. unfold literalValueKind. rewrite (proj2 (Z.eqb_neq _ _)), !(proj2 (Z.ltb_ge _ _)) by lia. cbn [orb]. cbv zeta.
  by destruct (literal_row (Z.to_nat (id - 1)) ltac:(lia)) as [-> _].
Qed.

Lemma structural_value id kind : is_u32 id → structuralLiteralKind d id = Some kind → valueOk d kind id.
Proof. intros Hu H. destruct (structural_range d id kind Hu H) as (Hid & _ & <- & _). split; [lia|]. by apply accepted_literal. Qed.

Lemma structural_some id : 1 ≤ id ≤ zlen (dValueKinds d) → structuralLiteralKind d id = Some (dValueKinds d !!! Z.to_nat (id - 1)).
Proof.
  intros Hid. destruct (ce_values accepted_columns) as [El _]. unfold structuralLiteralKind. rewrite (proj2 (Z.eqb_neq _ _)), !(proj2 (Z.ltb_ge _ _)) by lia. cbn [orb]. cbv zeta.
  destruct (literal_row (Z.to_nat (id - 1)) ltac:(lia)) as [-> ->]. done.
Qed.

Lemma symbol_name id : valueOk d ValueKindSymbol id → ∃ b, symbolName d id b.
Proof. intros (H0 & l & Hl & Ek). destruct l; try done. by exists b. Qed.

(** ** Nodes *)

Lemma group_row i : (i < length (dGroupChildStarts d))%nat →
  validRange (dGroupChildStarts d !!! i) (dGroupChildCounts d !!! i) (zlen (dChildNodeIDs d)) = true ∧
  Forall (λ c, inTable c (zlen (dNodeKinds d)) = true) (csr (dChildNodeIDs d) (dGroupChildStarts d !!! i) (dGroupChildCounts d !!! i)).
Proof.
  intros Hi. pose proof (flat_map_nil _ _ (sc_groups accepted_structure)) as H. pose proof (ce_groups accepted_columns) as E.
  apply (proj1 (Forall_forall _ _)) with (x := i) in H; [|apply elem_of_seq; unfold groupRows; lia]. unfold checkGroupRow in H. cbv zeta in H.
  destruct (validRange _ _ _); [|done]. split; [done|]. eapply Forall_impl; [exact (flat_map_nil _ _ H)|]. intros c Hc%emit_nil. by apply negb_false_iff in Hc.
Qed.

Lemma node_row i : (i < n)%nat → NodeKindValid (dNodeKinds d !!! i) = true ∧ nodeRefValid d (dNodeKinds d !!! i) (dNodeRefs d !!! i) = true ∧
  spanValid (dSourceStarts d !!! i) (dSourceEnds d !!! i) (zlen (dInputBytes d)) = true.
Proof.
  intros Hi. destruct (ce_nodes accepted_columns) as (E1 & E2 & E3). pose proof (sc_nodes accepted_structure) as H. unfold checkNodeRows in H. cbn [fst] in H.
  assert ((checkNodeRow d i).1 = []) as Hrow.
  { rewrite map_map in H. apply concat_nil_Forall in H. apply (proj1 (Forall_forall _ _)) with (x := (checkNodeRow d i).1) in H; [done|].
    apply list_elem_of_fmap. exists i. split; [done|]. apply elem_of_seq. lia. }
  unfold checkNodeRow in Hrow. cbv zeta in Hrow. rewrite !(proj2 (Nat.ltb_lt _ _)) in Hrow by lia. cbn [andb orb negb] in Hrow.
  destruct (NodeKindValid _); cbn [negb] in Hrow; [|cbn [fst] in Hrow; by apply app_nil in Hrow as [_ ?]]. destruct (nodeRefValid _ _ _); cbn [negb] in Hrow; [|cbn [fst] in Hrow; by apply app_nil in Hrow as [_ ?]].
  split; [done|]. split; [done|]. cbn [fst] in Hrow. apply emit_nil, negb_false_iff in Hrow. unfold validOwnerSpan in Hrow. unfold spanValid.
  destruct ((_ <=? _) && (_ <=? _)); done.
Qed.

(** Every node is safe. *)
Lemma accepted_safe i : (i < n)%nat → unsafeRow d i = false.
Proof.
  intros Hi. destruct (node_row i Hi) as (Hk & Hr & _). destruct (ce_nodes accepted_columns) as (E1 & E2 & E3). unfold unsafeRow, checkNodeRow. cbv zeta.
  rewrite !(proj2 (Nat.ltb_lt _ _)) by lia. rewrite Hk, Hr. cbn [andb orb negb snd]. destruct (isGroupKind _) eqn:Hg; [|done]. cbn [andb].
  pose proof (node_ref d Hgt i) as Hu. unfold is_u32 in Hu. destruct (group_row (Z.to_nat (dNodeRefs d !!! i))) as [-> _]; [|done].
  unfold nodeRefValid in Hr. rewrite Hg in Hr. pose proof (ce_groups accepted_columns) as Eg.
  destruct (Z.eqb_spec (dNodeKinds d !!! i) NodeKindBoolean) as [E|_]; [by rewrite E in Hg|]. destruct (Z.eqb_spec (dNodeKinds d !!! i) NodeKindCompare) as [E|_]; [by rewrite E in Hg|].
  apply Z.ltb_lt in Hr. unfold groupRows in Hr. lia.
Qed.

Lemma accepted_safe_node node : 1 ≤ node ≤ DocLen d → safeNode d node.
Proof. unfold DocLen. intros Hn. split; [done|]. apply accepted_safe. lia. Qed.

Lemma node_index node : 1 ≤ node ≤ DocLen d → nodeIndex d node = Some (Z.to_nat (node - 1)).
Proof.
  unfold DocLen. intros Hn. destruct (ce_nodes accepted_columns) as (E1 & _). unfold nodeIndex. rewrite (proj2 (Z.eqb_neq _ _)), !(proj2 (Z.leb_gt _ _)) by lia. done.
Qed.

Lemma node_kind node : 1 ≤ node ≤ DocLen d → Kind d node = Some (dNodeKinds d !!! Z.to_nat (node - 1)).
Proof. intros Hn. unfold Kind. by rewrite node_index. Qed.

Lemma node_payload node want : 1 ≤ node ≤ DocLen d → want (dNodeKinds d !!! Z.to_nat (node - 1)) = true → payload d node want = Some (dNodeRefs d !!! Z.to_nat (node - 1)).
Proof. intros Hn Hw. unfold payload. rewrite node_index by done. cbn. by rewrite Hw. Qed.

Lemma node_span node : 1 ≤ node ≤ DocLen d → is_Some (Span d node).
Proof.
  intros Hn. unfold Span. rewrite node_index by done. unfold DocLen in Hn. destruct (node_row (Z.to_nat (node - 1)) ltac:(lia)) as (_ & _ & Hs).
  destruct (ce_nodes accepted_columns) as (E1 & E2 & E3). cbn -[Z.leb]. rewrite !(proj2 (Z.leb_gt _ _)) by lia. rewrite Hs. by eexists.
Qed.

(** ** Comparisons *)

(** A comparison row that the structural phase passed. *)
Lemma compare_row_structure r : (r < compareRows d)%nat → let field := dCompareFields d !!! r in let value := dCompareValues d !!! r in
  let start := dCompareListStarts d !!! r in let count := dCompareListCounts d !!! r in
  1 ≤ field ≤ zlen (names fields) ∧ 0 ≤ value ≤ zlen (dValueKinds d) ∧ validRange start count (zlen (dListValueIDs d)) = true ∧ is_u32 start ∧ is_u16 count ∧
  start + count ≤ zlen (dListValueIDs d) ∧ Forall (λ v, 1 ≤ v ≤ zlen (dValueKinds d)) (csr (dListValueIDs d) start count).
Proof.
  intros Hr field value start count. pose proof (flat_map_nil _ _ (sc_compares accepted_structure)) as H. destruct (ty_compares _ Hty) as (T1 & T2 & T3 & T4 & T5).
  apply (proj1 (Forall_forall _ _)) with (x := r) in H; [|apply elem_of_seq; lia]. unfold checkCompareRow in H. cbv zeta in H. fold field value start count in H.
  apply app_nil in H as [Hf%emit_nil H]. apply app_nil in H as [Hval%emit_nil H]. apply negb_false_iff, inTable_true in Hf; [|by apply Forall_total_Z].
  assert (is_u32 value) as Uv by (by apply Forall_total_Z). assert (is_u32 start) as Us by (by apply Forall_total_Z).
  assert (is_u16 count) as Uc by (apply Forall_total_Z; [done|unfold is_u16, MaxUint16; simpl; lia]).
  destruct (validRange start count _) eqn:Hrange; [|done]. cbn [negb] in H. pose proof Hrange as (R1 & R2 & R3)%validRange_pool; [|done|unfold is_u16 in Uc; lia].
  split; [done|]. split; [|split_and!; [done|done|done|done|]].
  - unfold is_u32 in Uv. apply andb_false_iff in Hval as [Hz|Hz]; [apply negb_false_iff, Z.eqb_eq in Hz; lia|apply Z.ltb_ge in Hz; lia].
  - apply Forall_forall. intros v Hin. apply (proj1 (Forall_forall _ _) (flat_map_nil _ _ H)) in Hin as Hv'. apply emit_nil, negb_false_iff, inTable_true in Hv'; [done|].
    apply csr_elem in Hin. by apply (proj1 (Forall_forall _ _) T5).
Qed.

(** What the semantic phase asks of each operation. *)
Lemma compare_row_semantics id r span : (r < compareRows d)%nat → checkCompareRowSemantics d fields id r span = [] →
  let op := dCompareOps d !!! r in let value := dCompareValues d !!! r in let field := dCompareFields d !!! r in
  let list_ := csr (dListValueIDs d) (dCompareListStarts d !!! r) (dCompareListCounts d !!! r) in
  CompareOpValid op = true ∧ ∀ kind, Fields.KindOf fields field = Some kind →
  if op =? CompareOpIn then value = 0 ∧ dCompareListCounts d !!! r ≠ 0 ∧ Forall (λ e, ∀ k, literalValueKind d e = Some k → k = kind) list_
  else if RequiresValue op then value ≠ 0 ∧ (∀ k, literalValueKind d value = Some k → k = kind) ∧ (CompareOpLess ≤ op ≤ CompareOpGreaterEqual → ordered kind = true)
  else value = 0.
Proof.
  intros Hr H op value field list_. destruct (compare_row_structure r Hr) as (_ & _ & Hrange & _ & Hc & _). unfold checkCompareRowSemantics in H. cbv zeta in H. fold op value field in H.
  rewrite Hrange in H. destruct (CompareOpValid op) eqn:Hop; cbn [negb] in H; [|done]. split; [done|]. intros kind Hkind. rewrite Hkind in H.
  apply app_nil in H as [Ha H]. apply app_nil in H as [He H]. apply app_nil in H as [Hi Ho]. unfold is_u16 in Hc.
  apply compareOp_cases in Hop. clearbody op.
  repeat (apply elem_of_cons in Hop as [->|Hop]; [|]); [..|by apply elem_of_nil in Hop]; cbn -[literalValueKind] in Ha, He, Hi, Ho |- *;
    apply app_nil in Ha as [A1%emit_nil A2%emit_nil]; try (by apply negb_false_iff, Z.eqb_eq in A1).
  1,2: rewrite A1, (proj1 (negb_false_iff _) A2) in He; cbn -[literalValueKind] in He; apply Z.eqb_neq in A1;
    (split; [done|]; split; [|unfold CompareOpLess, CompareOpGreaterEqual; lia]; intros k Ek; rewrite Ek in He; by apply emit_nil, negb_false_iff, Z.eqb_eq in He).
  2-5: rewrite A1, (proj1 (negb_false_iff _) A2) in Ho; cbn -[literalValueKind] in Ho; apply Z.eqb_neq in A1; destruct (ordered kind) eqn:Hord; [|done];
    (split; [done|]; split; [|done]; intros k Ek; rewrite Ek in Ho; by apply emit_nil, negb_false_iff, Z.eqb_eq in Ho).
  rewrite (proj1 (negb_false_iff _) A1) in Hi. cbn -[literalValueKind] in Hi. apply negb_false_iff, Z.eqb_eq in A1. apply Z.eqb_neq in A2.
  rewrite (proj2 (Z.ltb_lt _ _)) in Hi by lia. split; [done|]. split; [done|]. destruct (kind =? ValueKindPresence); [done|].
  eapply Forall_impl; [exact (flat_map_nil _ _ Hi)|]. intros e He' k Ek. cbv beta in He'. rewrite Ek in He'. by apply emit_nil, negb_false_iff, Z.eqb_eq in He'.
Qed.

Lemma payload_clean i : (i < n)%nat → checkNodePayload d fields i = [].
Proof.
  intros Hi. pose proof (collect_nil _ _ (se_nodes accepted_semantics)) as H. apply (proj1 (Forall_forall _ _)) with (x := i) in H; [|apply elem_of_seq; lia].
  destruct (nodeStates_coloured d) as [Hl Hc]. destruct (Hc i Hi) as [_ Hun]. unfold checkNodeSemantics in H.
  rewrite at_nat with (x := nodeStates d !!! i), go_bind_Ok in H by (apply list_lookup_lookup_total_lt; lia).
  change (negb (Z.land (nodeStates d !!! i) nodeStateUnsafe =? 0)) with (unsafe (nodeStates d !!! i)) in H. rewrite Hun, accepted_safe in H by done.
  destruct (ce_nodes accepted_columns) as (E1 & _). rewrite (proj2 (Nat.leb_gt _ _)) in H by lia.
  apply go_bind_inv in H as (c & _ & H). apply go_bind_inv in H as (es & _ & H). injection H as [H _]%app_nil. done.
Qed.

Lemma compareRows_eq : compareRows d = length (dCompareFields d).
Proof. destruct (ce_compares accepted_columns) as (E1 & E2 & E3 & E4). apply safeMin_eq; [done|]. repeat constructor; done. Qed.

(** The comparison of a node, as the document reads it and as the validator checked it. *)
Lemma accepted_compare node : 1 ≤ node ≤ DocLen d → dNodeKinds d !!! Z.to_nat (node - 1) = NodeKindCompare →
  ∃ r, (r < compareRows d)%nat ∧ Compare d node = Some (dCompareFields d !!! r, dCompareOps d !!! r, dCompareValues d !!! r) ∧
    (dCompareOps d !!! r = CompareOpIn → InValues d node = Some (csr (dListValueIDs d) (dCompareListStarts d !!! r) (dCompareListCounts d !!! r))) ∧
    (dCompareOps d !!! r ≠ CompareOpIn → InValues d node = None) ∧
    ∃ span, checkCompareRowSemantics d fields node r span = [].
Proof.
  intros Hn Hk. pose proof (node_payload node (Z.eqb NodeKindCompare) Hn ltac:(by rewrite Hk)) as Hp. unfold DocLen in Hn.
  destruct (node_row (Z.to_nat (node - 1)) ltac:(lia)) as (_ & Hr & _). rewrite Hk in Hr. change (nodeRefValid d NodeKindCompare ?r) with (r <? Z.of_nat (compareRows d)) in Hr.
  pose proof (node_ref d Hgt (Z.to_nat (node - 1))) as Hu. set (ref := dNodeRefs d !!! Z.to_nat (node - 1)) in *. unfold is_u32 in Hu. pose proof Hr as Hr'. apply Z.ltb_lt in Hr'.
  pose proof compareRows_eq as Ec. destruct (ce_compares accepted_columns) as (E1 & E2 & E3 & E4). exists (Z.to_nat ref). split; [lia|].
  destruct (compare_row_structure (Z.to_nat ref) ltac:(lia)) as (_ & _ & _ & P1 & P2 & P3 & _). unfold is_u16, MaxUint16 in P2. unfold is_u32 in P1. split; [|split; [|split]].
  - unfold Compare. rewrite Hp. cbn -[Z.ltb]. rewrite !(proj2 (Z.ltb_lt _ _)) by lia. done.
  - intros Eop. unfold InValues, CompareListRange. rewrite Hp. cbn -[Z.ltb Z.leb Z.eqb]. rewrite Eop, Z.eqb_refl, (proj2 (Z.leb_gt _ _)) by lia.
    cbn -[Z.ltb Z.leb]. rewrite !(proj2 (Z.ltb_lt _ _)) by lia. cbn -[Z.ltb]. rewrite u64_small by (unfold is_u64; lia). rewrite (proj2 (Z.ltb_ge _ _)) by lia. done.
  - intros Eop. unfold InValues. rewrite Hp. cbn -[Z.ltb Z.leb Z.eqb]. rewrite (proj2 (Z.eqb_neq _ _) Eop), orb_true_r. done.
  - pose proof (payload_clean (Z.to_nat (node - 1)) ltac:(lia)) as H. unfold checkNodePayload in H. cbv zeta in H. rewrite Hk in H. change (NodeKindCompare =? NodeKindBoolean) with false in H. rewrite Z.eqb_refl in H.
    fold ref in H. rewrite Hr in H. destruct (gt_nodes _ Hgt) as [Hmax _]. rewrite (rowID_small _ n) in H by lia.
    replace (Z.of_nat (Z.to_nat (node - 1)) + 1) with node in H by lia. by eexists.
Qed.

Lemma accepted_group node : 1 ≤ node ≤ DocLen d → isGroupKind (dNodeKinds d !!! Z.to_nat (node - 1)) = true →
  ∃ children, GroupChildren d node = Some children ∧ children ≠ [] ∧ zlen children ≤ MaxUint16 ∧ Forall (λ c, 1 ≤ c ≤ DocLen d) children ∧ children = targets d node.
Proof.
  intros Hn Hg. pose proof (node_payload node isGroupKind Hn Hg) as Hp. pose proof (accepted_safe_node node Hn) as Hs. unfold DocLen in Hn.
  destruct (safe_group d Hgt node Hs Hg) as (L1 & L2 & U1 & U2 & Hb). pose proof (node_ref d Hgt (Z.to_nat (node - 1))) as Hu.
  set (ref := dNodeRefs d !!! Z.to_nat (node - 1)) in *. unfold is_u32 in *. unfold is_u16 in U2.
  destruct (group_row (Z.to_nat ref) L1) as [_ Hch]. set (children := csr (dChildNodeIDs d) (dGroupChildStarts d !!! Z.to_nat ref) (dGroupChildCounts d !!! Z.to_nat ref)) in *.
  assert (length children = Z.to_nat (dGroupChildCounts d !!! Z.to_nat ref)) as Hlen by (apply length_csr; lia).
  destruct (graphEdgeCount_ok d Hgt node Hs) as [Hcount _]. unfold graphEdgeCount in Hcount. rewrite (at_total (dNodeKinds d)), go_bind_Ok in Hcount by lia.
  destruct (ce_nodes accepted_columns) as (E1 & _).
  destruct (Z.eqb_spec (dNodeKinds d !!! Z.to_nat (node - 1)) NodeKindNot) as [E|Hnot]; [by rewrite E in Hg|]. rewrite Hg in Hcount.
  rewrite (at_total (dNodeRefs d)), go_bind_Ok in Hcount by lia. fold ref in Hcount. rewrite at_total in Hcount by lia. injection Hcount as Hcount.
  exists children. split; [|split; [|split; [lia|split]]].
  - unfold GroupChildren, GroupRange. rewrite Hp. cbn -[Z.ltb]. rewrite !(proj2 (Z.ltb_lt _ _)) by lia. cbn -[Z.ltb]. rewrite u64_small by (unfold is_u64, MaxUint16 in *; lia).
    rewrite (proj2 (Z.ltb_ge _ _)) by lia. done.
  - pose proof (payload_clean (Z.to_nat (node - 1)) ltac:(lia)) as H. unfold checkNodePayload in H. cbv zeta in H.
    destruct (Z.eqb_spec (dNodeKinds d !!! Z.to_nat (node - 1)) NodeKindBoolean) as [E|_]; [by rewrite E in Hg|].
    destruct (Z.eqb_spec (dNodeKinds d !!! Z.to_nat (node - 1)) NodeKindCompare) as [E|_]; [by rewrite E in Hg|]. rewrite Hg in H. fold ref in H.
    pose proof (ce_groups accepted_columns) as Eg. rewrite (proj2 (Z.ltb_lt ref _)) in H by (unfold groupRows; lia). apply emit_nil in H.
    rewrite (proj1 (group_row (Z.to_nat ref) L1)), andb_true_r, Z.eqb_neq in H. intros E. rewrite E in Hlen. simpl in Hlen. lia.
  - apply Forall_forall. intros c Hc. apply (inTable_true c (zlen (dNodeKinds d))); [|by apply (proj1 (Forall_forall _ _) Hch)].
    apply csr_elem in Hc. apply (proj1 (Forall_forall _ _) (proj2 (proj2 (gt_groups _ Hgt))) c Hc).
  - unfold children, targets. rewrite csr_map_seq by lia. replace (Z.to_nat (dGroupChildCounts d !!! Z.to_nat ref)) with (graphEdges d node) by lia. apply map_ext_in.
    intros j Hj%in_seq. unfold graphChild. rewrite (at_total (dNodeKinds d)), go_bind_Ok, (proj2 (Z.eqb_neq _ _) Hnot), Hg by lia. rewrite (at_total (dNodeRefs d)), go_bind_Ok by lia.
    fold ref. rewrite (at_total (dGroupChildStarts d)), go_bind_Ok by lia. rewrite at_total by lia. f_equal. lia.
Qed.

(** ** The other nodes *)

Lemma accepted_not node : 1 ≤ node ≤ DocLen d → dNodeKinds d !!! Z.to_nat (node - 1) = NodeKindNot →
  ∃ child, NotChild d node = Some child ∧ 1 ≤ child ≤ DocLen d ∧ targets d node = [child].
Proof.
  intros Hn Hk. pose proof (node_payload node (Z.eqb NodeKindNot) Hn ltac:(by rewrite Hk)) as Hp. pose proof (accepted_safe_node node Hn) as Hs. unfold DocLen in Hn.
  pose proof (safe_not d node Hs Hk) as Hr. pose proof (node_ref d Hgt (Z.to_nat (node - 1))) as Hu. set (ref := dNodeRefs d !!! Z.to_nat (node - 1)) in *. unfold is_u32 in Hu.
  destruct (ce_nodes accepted_columns) as (E1 & _). exists (dNotChildren d !!! Z.to_nat ref). split; [|split].
  - unfold NotChild. rewrite Hp. cbn -[Z.leb]. rewrite (proj2 (Z.leb_gt _ _)) by lia. done.
  - pose proof (flat_map_nil _ _ (sc_nots accepted_structure)) as H. apply (proj1 (Forall_forall _ _)) with (x := Z.to_nat ref) in H; [|apply elem_of_seq; lia].
    apply emit_nil, negb_false_iff, inTable_true in H; [done|]. apply Forall_total_Z; [apply (gt_nots _ Hgt)|done].
  - unfold targets, graphEdges, graphEdgeCount, graphChild. rewrite (at_total (dNodeKinds d)) by lia. rewrite !go_bind_Ok, Hk, Z.eqb_refl. cbn -[at_].
    rewrite (at_total (dNodeRefs d)) by lia. rewrite !go_bind_Ok. fold ref. rewrite at_total by lia. done.
Qed.

Lemma accepted_leaf node : 1 ≤ node ≤ DocLen d → dNodeKinds d !!! Z.to_nat (node - 1) ≠ NodeKindNot → isGroupKind (dNodeKinds d !!! Z.to_nat (node - 1)) = false → targets d node = [].
Proof.
  unfold DocLen. intros Hn Hk Hg. unfold targets, graphEdges, graphEdgeCount. rewrite (at_total (dNodeKinds d)) by lia. rewrite !go_bind_Ok, (proj2 (Z.eqb_neq _ _) Hk), Hg. done.
Qed.

(** The children that the lowerer walks are the edges that the validator checked. *)
Lemma accepted_children node : 1 ≤ node ≤ DocLen d → childrenOf d node = targets d node.
Proof.
  intros Hn. unfold childrenOf. rewrite node_kind by done. destruct (Z.eqb_spec (dNodeKinds d !!! Z.to_nat (node - 1)) NodeKindNot) as [Hk|Hk].
  - destruct (accepted_not node Hn Hk) as (child & -> & _ & ->). done.
  - destruct (isGroupKind _) eqn:Hg; [|symmetry; by apply accepted_leaf]. destruct (accepted_group node Hn Hg) as (children & -> & _ & _ & _ & <-). done.
Qed.

Lemma accepted_boolean node : 1 ≤ node ≤ DocLen d → dNodeKinds d !!! Z.to_nat (node - 1) = NodeKindBoolean →
  ∃ value, Boolean d node = Some value ∧ valueOk d ValueKindBoolean value.
Proof.
  intros Hn Hk. pose proof (node_payload node (Z.eqb NodeKindBoolean) Hn ltac:(by rewrite Hk)) as Hp. unfold DocLen in Hn.
  pose proof (payload_clean (Z.to_nat (node - 1)) ltac:(lia)) as H. unfold checkNodePayload in H. cbv zeta in H. rewrite Hk, Z.eqb_refl in H.
  apply emit_nil, negb_false_iff, bool_decide_eq_true in H. apply literalValueKind_ok in H; [|apply (node_ref d Hgt)].
  eexists. split; [|exact H]. unfold Boolean. rewrite Hp. destruct H as (H0 & l & Hl & Ek). destruct l as [| |v|]; try done.
  destruct (literalOf_range d _ _ H0 Hl) as (j & Ej & Hj & _). rewrite Ej in Hl |- *.
  destruct (literalOf_kind d j _ (eq_sym (proj1 (ce_values accepted_columns))) Hj Hl) as [_ Hb]. cbn -[BooleanValue]. by rewrite Hb.
Qed.

Lemma evidence_row r : (r < length (dEvidenceKinds d))%nat → 1 ≤ dEvidenceKinds d !!! r ≤ zlen (dEvidenceKindNames d) ∧ 1 ≤ dEvidenceStates d !!! r ≤ zlen (dEvidenceStateNames d) ∧
  ∀ col, col ∈ [dEvidenceSubjects d; dEvidenceScopes d; dEvidenceTimings d] → qualifierAt col r = 0 ∨ structuralLiteralKind d (qualifierAt col r) = Some ValueKindSymbol.
Proof.
  intros Hr. pose proof (flat_map_nil _ _ (sc_evidence accepted_structure)) as H. destruct (ce_evidence accepted_columns) as [E _]. destruct (ty_evidence _ Hty) as (T1 & T2 & _).
  apply (proj1 (Forall_forall _ _)) with (x := r) in H; [|apply elem_of_seq; unfold evidenceRows; lia]. unfold checkEvidenceRow in H. cbv zeta in H.
  apply app_nil in H as [H1%emit_nil H]. apply app_nil in H as [H2%emit_nil H]. apply app_nil in H as [H3%flat_map_nil _].
  apply negb_false_iff, inTable_true in H1; [|by apply Forall_total_Z]. apply negb_false_iff, inTable_true in H2; [|by apply Forall_total_Z].
  split; [done|]. split; [done|]. intros col Hc. apply (proj1 (Forall_forall _ _)) with (x := qualifierAt col r) in H3.
  - apply emit_nil in H3. rewrite andb_false_iff, !negb_false_iff, Z.eqb_eq, bool_decide_eq_true in H3. done.
  - set_solver.
Qed.

Lemma qualifier_value (col : list Z) r : (r < length (dEvidenceKinds d))%nat → Forall is_u32 col → col ∈ [dEvidenceSubjects d; dEvidenceScopes d; dEvidenceTimings d] →
  qualifier col (Z.of_nat r) = Some (qualifierAt col r) ∧ nameOk d (qualifierAt col r).
Proof.
  intros Hr Hu Hc. destruct (ce_evidence accepted_columns) as [_ Hq]. apply (proj1 (Forall_forall _ _)) with (x := col) in Hq; [|done]. split.
  - unfold qualifier, qualifierAt. destruct Hq as [->|Hq]; [done|]. rewrite bool_decide_eq_false_2 by (intros ->; simpl in Hq; lia).
    rewrite (proj2 (Z.leb_gt _ _)), (proj2 (Nat.ltb_lt _ _)), Nat2Z.id by lia. done.
  - destruct (proj2 (proj2 (evidence_row r Hr)) col Hc) as [H|H]; [by left|]. right. apply symbol_name, structural_value; [|done].
    unfold qualifierAt. destruct (_ <? _)%nat; [by apply Forall_total_Z|done].
Qed.

Lemma accepted_evidence node : 1 ≤ node ≤ DocLen d → dNodeKinds d !!! Z.to_nat (node - 1) = NodeKindEvidence →
  ∃ q, EvidenceMatch d node = Some q ∧ nameOk d (qSubject q) ∧ nameOk d (qScope q) ∧ nameOk d (qTiming q) ∧
    1 ≤ qKind q ≤ zlen (dEvidenceKindNames d) ∧ 1 ≤ qState q ≤ zlen (dEvidenceStateNames d).
Proof.
  intros Hn Hk. pose proof (node_payload node (Z.eqb NodeKindEvidence) Hn ltac:(by rewrite Hk)) as Hp. unfold DocLen in Hn.
  destruct (node_row (Z.to_nat (node - 1)) ltac:(lia)) as (_ & Hr & _). rewrite Hk in Hr. change (nodeRefValid d NodeKindEvidence ?r) with (r <? Z.of_nat (evidenceRows d)) in Hr.
  apply Z.ltb_lt in Hr. pose proof (node_ref d Hgt (Z.to_nat (node - 1))) as Hu. set (ref := dNodeRefs d !!! Z.to_nat (node - 1)) in *. unfold is_u32 in Hu.
  destruct (ce_evidence accepted_columns) as [E _]. unfold evidenceRows in Hr. assert ((Z.to_nat ref < length (dEvidenceKinds d))%nat) as Hlt by lia.
  destruct (ty_evidence _ Hty) as (_ & _ & T3 & T4 & T5). destruct (evidence_row (Z.to_nat ref) Hlt) as (B1 & B2 & _).
  destruct (qualifier_value (dEvidenceSubjects d) (Z.to_nat ref) Hlt T3) as [Q1 N1]; [set_solver|].
  destruct (qualifier_value (dEvidenceScopes d) (Z.to_nat ref) Hlt T4) as [Q2 N2]; [set_solver|].
  destruct (qualifier_value (dEvidenceTimings d) (Z.to_nat ref) Hlt T5) as [Q3 N3]; [set_solver|]. rewrite Z2Nat.id in Q1, Q2, Q3 by lia.
  eexists. split; [unfold EvidenceMatch; rewrite Hp; cbn -[Z.ltb qualifier]; rewrite !(proj2 (Z.ltb_lt _ _)) by lia; cbn -[qualifier]; rewrite Q1, Q2, Q3; reflexivity|]. done.
Qed.

(** ** The graph *)

Lemma accepted_graph : (∃ fin, topo d fin ∧ ∀ m, safeNode d m → m ∈ fin) ∧ ∀ m, safeNode d m → reachedNode d m.
Proof.
  destruct (validateGraph_ok d Hgt) as (cycles & orphans & E & _ & Hac & Hor & Hdec). destruct accepted_phases as (_ & _ & Eg). rewrite Eg in E. injection E as E.
  symmetry in E. apply app_nil in E as [-> ->]. split; [by apply Hac|]. intros m Hm. destruct (Hdec m Hm) as [|Hno]; [done|].
  exfalso. apply (elem_of_nil (orphanAt d m)). apply Hor. by exists m.
Qed.

Lemma edge_children u v : edge d u v ↔ 1 ≤ u ≤ DocLen d ∧ 1 ≤ v ≤ DocLen d ∧ v ∈ childrenOf d u.
Proof.
  split.
  - intros ([Hu _] & [Hv' _] & Hin). split; [done|]. split; [done|]. by rewrite accepted_children.
  - intros (Hu & Hv' & Hin). rewrite accepted_children in Hin by done. split; [by apply accepted_safe_node|]. split; [by apply accepted_safe_node|done].
Qed.

Lemma child_range node c : 1 ≤ node ≤ DocLen d → c ∈ childrenOf d node → 1 ≤ c ≤ DocLen d.
Proof.
  intros Hn. rewrite accepted_children by done. destruct (Z.eqb_spec (dNodeKinds d !!! Z.to_nat (node - 1)) NodeKindNot) as [Hk|Hk].
  - destruct (accepted_not node Hn Hk) as (child & _ & Hr & ->). by intros ->%list_elem_of_singleton.
  - destruct (isGroupKind (dNodeKinds d !!! Z.to_nat (node - 1))) eqn:Hg; [|rewrite accepted_leaf by done; by intros ?%elem_of_nil].
    destruct (accepted_group node Hn Hg) as (children & _ & _ & _ & Hr & <-). intros Hc. by apply (proj1 (Forall_forall _ _) Hr).
Qed.

Lemma accepted_rank : ∃ rank : Z → nat, ∀ node, 1 ≤ node ≤ DocLen d → (rank node < n)%nat ∧ ∀ child, child ∈ childrenOf d node → (rank child < rank node)%nat.
Proof.
  destruct accepted_graph as [(fin & Hto & Hall) _]. destruct (topo_nodes d fin Hto) as [Hnd Hsafe]. exists (rank fin). intros node Hn.
  pose proof (Hall node (accepted_safe_node node Hn)) as Hin. split.
  - eapply Nat.lt_le_trans; [by apply topoRank_lt|]. replace n with (length (nodesTo n)) by (unfold nodesTo; by rewrite length_map, length_seq).
    apply submseteq_length, NoDup_submseteq; [done|]. intros m Hm. apply (proj1 (Forall_forall _ _) Hsafe) in Hm as [Hm _].
    apply list_elem_of_fmap. exists (Z.to_nat (m - 1)). split; [lia|]. apply elem_of_seq. lia.
  - intros child Hc. apply (topo_rank d fin node child Hto Hin). apply edge_children. split; [done|]. split; [by apply (child_range node)|done].
Qed.

Lemma graphRoot_root root : graphRoot d root → root ∈ rootNodes d.
Proof.
  unfold rootNodes. rewrite !elem_of_app. intros [i Hi|c [Hc _] _|c node _ _ Hin%csr_elem].
  - left. pose proof (requirementRows_le d). apply list_elem_of_lookup_total_2. lia.
  - right. left. pose proof (clauseRows_le d). apply list_elem_of_lookup_total_2. lia.
  - right. by right.
Qed.

Lemma accepted_reached node : 1 ≤ node ≤ DocLen d → reached d node.
Proof.
  intros Hn. destruct accepted_graph as [_ H]. destruct (H node (accepted_safe_node node Hn)) as (root & Hr & _ & Hp). clear Hn. revert node Hp.
  apply rtc_ind_r; [by apply ReachedRoot, graphRoot_root|]. intros u v _ Huv IH. apply edge_children in Huv as (_ & _ & Hc). by apply (ReachedChild d u).
Qed.

(** ** Clauses and requirements *)

Lemma clause_row c : (c < length (dClauseAssertionRoots d))%nat →
  1 ≤ dClauseAssertionRoots d !!! c ≤ DocLen d ∧ Forall (λ node, 1 ≤ node ≤ DocLen d ∧ Kind d node = Some NodeKindEvidence) (Validate.evidenceEdges d c) ∧
  1 ≤ dClauseOnSatisfied d !!! c ≤ zlen (dOutcomeNames d) ∧ 1 ≤ dClauseOnFalse d !!! c ≤ zlen (dOutcomeNames d).
Proof.
  intros Hc. destruct (ce_clauses accepted_columns) as (Er & _). destruct (gt_clauses _ Hgt) as [T1 T2].
  assert ((checkClauseRow d c).1 = []) as H.
  { pose proof (sc_clauses accepted_structure) as H. unfold checkClauseRows in H. cbn [fst] in H. rewrite map_map in H. apply concat_nil_Forall in H.
    apply (proj1 (Forall_forall _ _)) with (x := (checkClauseRow d c).1) in H; [done|]. apply list_elem_of_fmap. exists c. split; [done|]. apply elem_of_seq. lia. }
  pose proof (flat_map_nil _ _ (se_clauses accepted_semantics)) as Hs. apply (proj1 (Forall_forall _ _)) with (x := c) in Hs; [|apply elem_of_seq; lia].
  unfold checkClauseRow in H. destruct (validOwnerSpan _ _ _) as [attach ok]. cbv zeta in H. cbn [fst] in H. apply app_nil in H as [Ha%emit_nil H].
  apply app_nil in H as [He H]. apply app_nil in H as [_ H]. apply app_nil in H as [Hb%flat_map_nil _]. destruct (evidenceRange d c) eqn:Hrange; [|done]. cbn [negb] in He.
  apply flat_map_nil in He. unfold checkClauseSemanticsRow in Hs. cbv zeta in Hs. rewrite Hrange in Hs.
  apply app_nil in Hs as [_ Hs]. apply app_nil in Hs as [Hne%flat_map_nil Hz%flat_map_nil]. split; [|split].
  - by apply negb_false_iff, inTable_true in Ha; [|by apply Forall_total_Z].
  - apply Forall_forall. intros node Hin. apply (proj1 (Forall_forall _ _)) with (x := node) in He, Hne; [|done..].
    assert (is_u32 node) as Hu by (apply csr_elem in Hin; by apply (proj1 (Forall_forall _ _) T2)). apply emit_nil, negb_false_iff in He. apply emit_nil in Hne.
    unfold notEvidence in Hne. rewrite He in Hne. cbn [andb] in Hne. apply inTable_true in He; [|done]. split; [done|]. rewrite node_kind by done. f_equal.
    destruct (node_row (Z.to_nat (node - 1)) ltac:(lia)) as (Hk & _). cbv zeta in Hne. rewrite Hk in Hne. cbn [andb] in Hne. by apply negb_false_iff, Z.eqb_eq in Hne.
  - destruct (ty_outcomes _ Hty) as [U1 U2].
    assert (∀ m o, (m, o) ∈ clauseBranches d c → is_u32 o → 1 ≤ o ≤ zlen (dOutcomeNames d)) as Hbr.
    { intros m o Hin Hu. unfold is_u32 in Hu. pose proof (proj1 (Forall_forall _ _) Hb _ Hin) as B1%emit_nil. pose proof (proj1 (Forall_forall _ _) Hz _ Hin) as B2%emit_nil.
      cbn [snd] in B1, B2. rewrite B2 in B1. cbn [negb andb] in B1. apply Z.ltb_ge in B1. apply Z.eqb_neq in B2. lia. }
    split; [apply (Hbr MemberOutcomeSatisfied)|apply (Hbr MemberOutcomeFalse)]; [by left|by apply Forall_total_Z|right; by left|by apply Forall_total_Z].
Qed.

Lemma requirement_row i : (i < length (dRequirementIDs d))%nat →
  1 ≤ dRequirementApplicabilityRoots d !!! i ≤ DocLen d ∧ dRequirementIDs d !!! i ≠ 0 ∧ dRequirementClauseCounts d !!! i ≠ 0.
Proof.
  intros Hi. destruct (ce_requirements accepted_columns) as (Er & _). destruct (gt_requirements _ Hgt) as [T1 _].
  pose proof (flat_map_nil _ _ (sc_requirements accepted_structure)) as H. apply (proj1 (Forall_forall _ _)) with (x := i) in H; [|apply elem_of_seq; lia].
  pose proof (flat_map_nil _ _ (se_requirements accepted_semantics)) as Hs. apply (proj1 (Forall_forall _ _)) with (x := i) in Hs; [|apply elem_of_seq; lia].
  unfold checkRequirementRow in H. destruct (validOwnerSpan _ _ _) as [attach ok]. cbv zeta in H. apply app_nil in H as [Ha%emit_nil H]. apply app_nil in H as [Hc _].
  destruct (clauseRange d i) eqn:Hrange; [|done]. unfold checkRequirementSemanticsRow in Hs. cbv zeta in Hs. rewrite Hrange in Hs.
  apply app_nil in Hs as [_ Hs]. apply app_nil in Hs as [Hid Hs%emit_nil]. split; [|split].
  - by apply negb_false_iff, inTable_true in Ha; [|by apply Forall_total_Z].
  - destruct (Z.eqb_spec (dRequirementIDs d !!! i) 0); done.
  - by apply Z.eqb_neq in Hs.
Qed.

(** ** Names *)

Lemma catalog_names table (names starts ends : list Z) : Forall is_u32 names → length starts = length names → length ends = length names →
  (∀ i, (i < length names)%nat → nameInValueKinds d (names !!! i) = true) →
  checkCatalogNameSemantics d table names starts ends = Ok [] → Forall (λ id, ∃ b, symbolName d id b) names.
Proof.
  intros Hu E1 E2 Hin H. apply collect_nil in H. apply Forall_lookup. intros i id Hi. pose proof (lookup_lt_Some _ _ _ Hi) as Hlt.
  assert (safeMin [length names; length starts; length ends] = length names) as Em by (apply safeMin_eq; [done|]; by repeat constructor). rewrite Em in H.
  apply (proj1 (Forall_forall _ _)) with (x := i) in H; [|apply elem_of_seq; lia]. apply list_lookup_total_correct in Hi. specialize (Hin i Hlt). unfold checkCatalogName in H. cbv zeta in H.
  rewrite Hi in H, Hin. assert (is_u32 id) as Hid by (rewrite <-Hi; by apply Forall_total_Z). unfold nameInValueKinds in Hin. apply inTable_true in Hin; [|done].
  rewrite (proj2 (Z.eqb_neq _ _)) in H by lia. rewrite structural_some in H by done. apply symbol_name.
  destruct (Z.eqb_spec (dValueKinds d !!! Z.to_nat (id - 1)) ValueKindSymbol) as [Ek|]; [|done]. apply structural_value; [done|]. by rewrite structural_some, Ek.
Qed.

Lemma named_rows table owner (names starts ends : list Z) : Forall is_u32 names → length starts = length names → length ends = length names →
  flat_map (checkNamedRow d table owner names starts ends) (seq 0 (safeMin [length names; length starts; length ends])) = [] →
  ∀ i, (i < length names)%nat → nameInValueKinds d (names !!! i) = true.
Proof.
  intros Hu E1 E2 H i Hi. apply flat_map_nil in H. assert (safeMin [length names; length starts; length ends] = length names) as Em by (apply safeMin_eq; [done|]; by repeat constructor).
  rewrite Em in H. apply (proj1 (Forall_forall _ _)) with (x := i) in H; [|apply elem_of_seq; lia]. unfold checkNamedRow in H. destruct (validOwnerSpan _ _ _).
  apply app_nil in H as [H%emit_nil _]. by apply negb_false_iff in H.
Qed.

Lemma accepted_names : Forall (λ id, ∃ b, symbolName d id b) (dEvidenceKindNames d) ∧ Forall (λ id, ∃ b, symbolName d id b) (dEvidenceStateNames d).
Proof.
  destruct (ty_names _ Hty) as (N1 & N2 & _). destruct (ce_kinds accepted_columns) as [K1 K2], (ce_states accepted_columns) as [S1 S2].
  split.
  - apply (catalog_names TableEvidenceKind _ (dEvidenceKindSourceStarts d) (dEvidenceKindSourceEnds d)); [done..| |apply accepted_semantics].
    apply (named_rows TableEvidenceKind onEvidenceKind _ (dEvidenceKindSourceStarts d) (dEvidenceKindSourceEnds d)); [done..|apply accepted_structure].
  - apply (catalog_names TableEvidenceState _ (dEvidenceStateSourceStarts d) (dEvidenceStateSourceEnds d)); [done..| |apply accepted_semantics].
    apply (named_rows TableEvidenceState onEvidenceState _ (dEvidenceStateSourceStarts d) (dEvidenceStateSourceEnds d)); [done..|apply accepted_structure].
Qed.

Lemma accepted_identity : is_Some (PolicyMetadata d) → ∃ name version hash, PolicyMetadata d = Some (name, version, hash) ∧ (∃ b, symbolName d name b) ∧ ∃ b, symbolName d version b.
Proof.
  intros [[[name version] hash] E]. exists name, version, hash. split; [done|]. unfold PolicyMetadata in E. destruct (ty_names _ Hty) as (_ & _ & _ & U1 & U2).
  pose proof (se_identity accepted_semantics) as H. unfold checkPolicyIdentitySemantics in H.
  destruct (Z.eqb_spec (dPolicyName d) 0) as [|Hn]; [done|]. destruct (Z.eqb_spec (dPolicyVersion d) 0) as [|Hv']; [done|]. destruct (dSourceSet d); [|done].
  injection E as <- <- <-. cbn [andb] in H. apply collect_nil in H. apply Forall_cons in H as [H1 [H2 _]%Forall_cons].
  assert (∀ member id, is_u32 id → id ≠ 0 → checkIdentityValue d member id = Ok [] → ∃ b, symbolName d id b) as Hname; [|split; by eapply Hname].
  intros member id Hu Hne Hc. unfold checkIdentityValue in Hc. destruct (structuralLiteralKind d id) as [kind|] eqn:Ek.
  - destruct (Z.eqb_spec kind ValueKindSymbol) as [->|]; [|done]. by apply symbol_name, structural_value.
  - injection Hc as Hc%emit_nil%orb_false_iff. destruct Hc as [_ Hc%Z.ltb_ge]. unfold is_u32 in Hu. by rewrite structural_some in Ek by lia.
Qed.
End accepted.
