(* ===== verification/Validated.v ===== *)
(** * Compiling validated documents
    The public entry of the compiler (compile/lower.go): validation, then lowering.
    Accepted documents satisfy what lowering and execution rely on, so the program of
    a policy decides what the document states; rejected ones never reach lowering. *)

From S2P Require Import Prelude Store Truth Schema Diagnostic Validate Traversal GraphWalk GraphOk ValidateOk ValidateAccepts.
From S2P Require Import Result Program Templates Batch Predicate Simd FactIndex Evidence Executor PolicyIndex PolicyBuild Finalize Execute ResultRows Liveness Schedule.
From S2P Require Import ScheduleMeaning SymbolTable Interner Frozen SymbolCheck Ast Constants ConstantsMeaning Normalize Compact DocMeaning WalkOk.
From S2P Require Import FactLower LowerRows Semantics SemanticsOk Decision Compile.
Import Reason.
#[local] Open Scope Z_scope.

(** [Lowerer.Lower]: no program for a document with diagnostics. *)
Definition Lower (d : Document) (fields : FieldTable) (source : Interner.Interner) : go Compiled :=
  diagnostics ← Validate d fields;
  check (bool_decide (length diagnostics = 0%nat)) ErrInvalidDocument ;;
  lowerDocument d fields source.

(** ** Policies *)

(** What holds of a policy besides validation: the types of its columns, the tables
    the schema builder and the interner made, a source that was set, sizes within the
    32-bit columns of programs, groups of two or more children, and a pool of evidence
    edges that the clauses use up. *)
Record policy_fits (d : Document) (fields : FieldTable) (source : Interner.Interner) (schema : IndexSchema) (w : Z → Z) : Prop := {
  pf_typed : doc_typed d;
  pf_fields : Fields.table_ok fields;
  pf_names n : n ∈ names fields → ∃ b, Interner.Bytes source n = Some b ∧ b ≠ [];
  pf_schema : BuildSchema (kinds fields) = Ok schema;
  pf_metadata : is_Some (PolicyMetadata d);
  pf_groups node children : 1 ≤ node ≤ DocLen d → GroupChildren d node = Some children → (2 ≤ length children)%nat;
  pf_edges : Forall (λ node, ∃ c, (c < length (dClauseAssertionRoots d))%nat ∧ node ∈ Validate.evidenceEdges d c) (dClauseEvidenceNodeIDs d);
  pf_width : width_ok d w;
  pf_nodes : DocLen d < MaxUint32 ∧ zlen (dListValueIDs d) < MaxUint32 ∧ zlen (dChildNodeIDs d) + zlen (dNotChildren d) < MaxUint32;
  pf_catalogs : zlen (dEvidenceKindNames d) < MaxUint32 ∧ zlen (dEvidenceStateNames d) < MaxUint32 ∧ zlen (kinds fields) < MaxUint32;
  pf_rows : zlen (dClauseAssertionRoots d) < MaxUint32 ∧ zlen (dRequirementIDs d) ≤ MaxUint32 ∧ zlen (dClauseEvidenceNodeIDs d) ≤ MaxUint32;
  pf_symbols : zlen (names fields) + zlen (dValueKinds d) ≤ MaxInt32 / 4 ∧
    namesSpelled source (names fields) + spelledTo d (length (dValueKinds d)) ≤ MaxUint32
}.

Section accepted.
Context (d : Document) (fields : FieldTable) (source : Interner.Interner) (schema : IndexSchema) (w : Z → Z).
Context (Hfits : policy_fits d fields source schema w) (Hv : Validate d fields = Ok []).
Local Abbreviation Hty := (pf_typed _ _ _ _ _ Hfits).

Lemma fields_schema : schema_built (kinds fields) schema ∧ length (kinds fields) = length (names fields) ∧ Forall (λ k, KindValid k = true) (kinds fields).
Proof.
  destruct (pf_fields _ _ _ _ _ Hfits) as [Hk _ _ _ [Hval _]]. destruct (pf_catalogs _ _ _ _ _ Hfits) as (_ & _ & Hmax). destruct (BuildSchema_ok (kinds fields) Hval) as (s & E & Hs); [lia|].
  rewrite (pf_schema _ _ _ _ _ Hfits) in E. injection E as <-. done.
Qed.

Lemma field_kind field : 1 ≤ field ≤ zlen (names fields) → ∃ kind column, Fields.KindOf fields field = Some kind ∧ SchemaLookup schema field = Some (kind, column).
Proof.
  intros Hf. destruct fields_schema as (Hs & Hl & _). eexists _, _. split; [|apply (schema_lookup _ _ Hs); lia]. unfold Fields.KindOf, Fields.column. cbv zeta.
  rewrite (proj2 (Z.ltb_ge _ _)), (proj2 (Z.leb_gt _ _)) by lia. done.
Qed.

(** A comparison node is well-typed. *)
Lemma compare_ok node : 1 ≤ node ≤ DocLen d → dNodeKinds d !!! Z.to_nat (node - 1) = NodeKindCompare →
  node_ok d schema node ∧ (∀ field op value kind column, Compare d node = Some (field, op, value) → SchemaLookup schema field = Some (kind, column) →
    0 ≤ field ∧ (CompareOpLess ≤ op ≤ CompareOpGreaterEqual → kind = ValueKindInteger ∨ kind = ValueKindTimestamp)) ∧ ∀ vs, InValues d node = Some vs → vs ≠ [].
Proof.
  intros Hn Hk. destruct (accepted_compare d fields Hty Hv node Hn Hk) as (r & Hr & Hc & Hin & Hnin & span & Hsem).
  destruct (compare_row_structure d fields Hty Hv r Hr) as (Hfield & Hvalue & _ & Us & Uc & Hpool & Hlist).
  destruct (compare_row_semantics d fields Hty Hv node r span Hr Hsem) as [Hop Hrule]. destruct (field_kind _ Hfield) as (kind & column & Hkind & Hlk). specialize (Hrule kind Hkind).
  assert (∀ id, 1 ≤ id ≤ zlen (dValueKinds d) → (∀ k, literalValueKind d id = Some k → k = kind) → valueOk d kind id) as Hval.
  { intros id Hid Hlit. pose proof (literalValueKind_some d fields Hty Hv id Hid) as E. rewrite <-(Hlit _ E). split; [lia|]. by apply (accepted_literal d fields Hty Hv). }
  split; [|split].
  - destruct (Z.eqb_spec (dCompareOps d !!! r) CompareOpIn) as [Eop|Eop].
    + destruct Hrule as (Ez & _ & Hes). rewrite Eop, Ez in Hc. eapply (InOk _ _ _ _ kind column); [by rewrite (node_kind d fields Hty Hv node Hn), Hk|exact Hc|by apply Hin| |exact Hlk|].
      * unfold is_u16, is_u32 in *. rewrite length_csr by lia. lia.
      * apply Forall_forall. intros v Hin'. apply Hval; [by apply (proj1 (Forall_forall _ _) Hlist)|by apply (proj1 (Forall_forall _ _) Hes)].
    + eapply (CompareOk _ _ _ _ _ _ kind column); [by rewrite (node_kind d fields Hty Hv node Hn), Hk|exact Hc|done|done|exact Hlk|].
      destruct (RequiresValue (dCompareOps d !!! r)); [|done]. destruct Hrule as (Hne & Hk' & _). split; [|done]. apply Hval; [lia|done].
  - intros field op value kind' column' Hc' Hlk'. rewrite Hc in Hc'. injection Hc' as <- <- <-. rewrite Hlk in Hlk'. injection Hlk' as <- <-. split; [lia|]. intros Ho.
    rewrite (proj2 (Z.eqb_neq _ CompareOpIn)) in Hrule by (unfold CompareOpLess, CompareOpIn in *; lia).
    assert (RequiresValue (dCompareOps d !!! r) = true) as Er.
    { unfold RequiresValue. rewrite Hop, !(proj2 (Z.eqb_neq _ _)) by (unfold CompareOpLess, CompareOpGreaterEqual, CompareOpExists, CompareOpDefined in *; lia). done. }
    rewrite Er in Hrule. destruct Hrule as (_ & _ & Hord). specialize (Hord Ho). unfold ordered in Hord. rewrite orb_true_iff, !Z.eqb_eq in Hord. done.
  - intros vs Hvs. destruct (Z.eqb_spec (dCompareOps d !!! r) CompareOpIn) as [Eop|Eop]; [|by rewrite (Hnin Eop) in Hvs]. rewrite (Hin Eop) in Hvs. injection Hvs as <-.
    destruct Hrule as (_ & Hne & _). intros E. apply (f_equal length) in E. unfold is_u16, is_u32 in *. rewrite length_csr in E by lia. simpl in E. lia.
Qed.

Lemma nodeKind_cases k : NodeKindValid k = true → k = NodeKindCompare ∨ isGroupKind k = true ∨ k = NodeKindNot ∨ k = NodeKindEvidence ∨ k = NodeKindBoolean.
Proof.
  unfold NodeKindValid, isGroupKind, NodeKindCompare, NodeKindAll, NodeKindAny, NodeKindNot, NodeKindEvidence, NodeKindBoolean.
  rewrite andb_true_iff, !Z.leb_le, orb_true_iff, !Z.eqb_eq. lia.
Qed.

Lemma accepted_node node : 1 ≤ node ≤ DocLen d → node_ok d schema node.
Proof.
  intros Hn. destruct (node_row d fields Hty Hv (Z.to_nat (node - 1))) as (Hk & _); [unfold DocLen in Hn; lia|]. pose proof (node_kind d fields Hty Hv node Hn) as Hkind.
  destruct (nodeKind_cases _ Hk) as [E|[E|[E|[E|E]]]].
  - by apply compare_ok.
  - destruct (accepted_group d fields Hty Hv node Hn E) as (children & Hc & Hne & Hmax & Hr & _). by eapply GroupOk.
  - destruct (accepted_not d fields Hty Hv node Hn E) as (child & Hc & Hr & _). rewrite E in Hkind. by eapply NotOk.
  - destruct (accepted_evidence d fields Hty Hv node Hn E) as (q & Hq & N1 & N2 & N3 & _). rewrite E in Hkind. by eapply EvidenceOk.
  - destruct (accepted_boolean d fields Hty Hv node Hn E) as (value & Hb & Hval). rewrite E in Hkind. by eapply BooleanOk.
Qed.

Lemma accepted_roots : Forall (λ node, 1 ≤ node ≤ DocLen d) (rootNodes d).
Proof.
  destruct (ce_requirements _ (accepted_columns d fields Hty Hv)) as (_ & El & _). unfold rootNodes. rewrite !Forall_app. split_and!; apply Forall_forall; intros node Hin.
  - apply list_elem_of_lookup_total in Hin as (i & Hi & <-). apply (requirement_row d fields Hty Hv). lia.
  - apply list_elem_of_lookup_total in Hin as (c & Hc & <-). by apply (clause_row d fields Hty Hv).
  - apply (proj1 (Forall_forall _ _) (pf_edges _ _ _ _ _ Hfits)) in Hin as (c & Hc & Hin). destruct (clause_row d fields Hty Hv c Hc) as (_ & He & _).
    by apply (proj1 (Forall_forall _ _) He).
Qed.

Lemma accepted_doc : doc_ok d schema.
Proof.
  split.
  - apply Hfits.
  - intros node Hn. split; [by apply accepted_node|by apply (node_span d fields Hty Hv)].
  - destruct (gt_groups _ (ty_graph _ Hty)) as (T1 & T2 & _). split; [done|]. eapply Forall_impl; [exact T2|]. unfold is_u16, is_u32, MaxUint16. lia.
  - apply (accepted_rank d fields Hty Hv).
  - apply accepted_roots.
  - apply (accepted_reached d fields Hty Hv).
Qed.

(** The kind of a node that an accessor answers for. *)
Lemma payload_kind node want r : payload d node want = Some r → ∃ kind, Kind d node = Some kind ∧ want kind = true.
Proof. unfold payload, Kind. destruct (nodeIndex d node) as [i|]; [|done]. cbn. destruct (want _) eqn:E; [|done]. by eexists. Qed.

Lemma accepted_strict : doc_strict d schema.
Proof.
  assert (∀ node k r, 1 ≤ node ≤ DocLen d → payload d node (Z.eqb k) = Some r → dNodeKinds d !!! Z.to_nat (node - 1) = k) as Hkind.
  { intros node k r Hn Hp. destruct (payload_kind _ _ _ Hp) as (kind & Ek & Ew). apply Z.eqb_eq in Ew as <-. rewrite (node_kind d fields Hty Hv node Hn) in Ek. congruence. }
  assert (∀ node x, 1 ≤ node ≤ DocLen d → Compare d node = Some x → dNodeKinds d !!! Z.to_nat (node - 1) = NodeKindCompare) as Hcmp.
  { intros node x Hn H. unfold Compare in H. destruct (payload d node (Z.eqb NodeKindCompare)) as [r|] eqn:Hp; [|done]. by apply (Hkind node _ r). }
  split.
  - intros node field op value kind column Hn Hc Ho Hl. destruct (compare_ok node Hn (Hcmp node _ Hn Hc)) as (_ & H & _). by apply (H field op value kind column).
  - intros node field op value Hn Hc. destruct (compare_ok node Hn (Hcmp node _ Hn Hc)) as (Hok & H & _).
    destruct (accepted_compare d fields Hty Hv node Hn (Hcmp node _ Hn Hc)) as (r & Hr & Hc' & _). rewrite Hc in Hc'. injection Hc' as -> -> ->.
    destruct (compare_row_structure d fields Hty Hv r Hr) as (Hf & _). lia.
  - intros node vs Hn Hi. assert (dNodeKinds d !!! Z.to_nat (node - 1) = NodeKindCompare) as Hk.
    { unfold InValues in Hi. destruct (payload d node (Z.eqb NodeKindCompare)) as [r|] eqn:Hp; [|done]. by apply (Hkind node _ r). }
    by apply (compare_ok node Hn Hk).
  - intros node q Hn He. assert (dNodeKinds d !!! Z.to_nat (node - 1) = NodeKindEvidence) as Hk.
    { unfold EvidenceMatch in He. destruct (payload d node (Z.eqb NodeKindEvidence)) as [r|] eqn:Hp; [|done]. by apply (Hkind node _ r). }
    destruct (accepted_evidence d fields Hty Hv node Hn Hk) as (q' & E & _ & _ & _ & H1 & H2). rewrite He in E. injection E as <-. done.
  - apply Hfits.
Qed.

Lemma accepted_policy : policy_ok d fields source schema w.
Proof.
  destruct fields_schema as (_ & _ & Hkinds). destruct (accepted_columns d fields Hty Hv) as [_ _ _ _ _ Ek Es Ec Er]. destruct (accepted_names d fields Hty Hv) as [Hkn Hsn].
  destruct (pf_catalogs _ _ _ _ _ Hfits) as (S1 & S2 & S3). destruct (pf_rows _ _ _ _ _ Hfits) as (R1 & R2 & R3).
  destruct (ty_clauses _ Hty) as (C1 & C2 & C3 & C4). destruct (ty_requirements _ Hty) as [Q1 Q2].
  assert (∀ l, Forall is_u16 l → Forall is_u32 l) as H16 by (intros l Hl; eapply Forall_impl; [exact Hl|]; unfold is_u16, is_u32, MaxUint16; lia). split.
  - split; [by apply (accepted_literals d fields Hty Hv)|apply Hfits|apply Hfits| | |by apply (accepted_identity d fields Hty Hv), Hfits|apply Hfits|apply Hfits].
    + destruct Ek. by split_and!.
    + destruct Es. by split_and!.
  - apply accepted_doc.
  - apply Hfits.
  - apply accepted_strict.
  - split; [apply Hfits|]. done.
  - split; [|split_and!; auto|done|done|done]. split_and!; [done|by apply H16|apply (gt_requirements _ (ty_graph _ Hty))].
  - destruct Er as (_ & _ & El). split; apply Forall_forall; intros x Hin; apply list_elem_of_lookup_total in Hin as (i & Hi & <-); apply (requirement_row d fields Hty Hv); lia.
  - destruct Ec as (_ & E1 & E2). split; apply Forall_forall; intros x Hin; apply list_elem_of_lookup_total in Hin as (i & Hi & <-); apply (clause_row d fields Hty Hv); lia.
  - apply Forall_forall. intros node Hin. apply (proj1 (Forall_forall _ _) (pf_edges _ _ _ _ _ Hfits)) in Hin as (c & Hc & Hin).
    destruct (clause_row d fields Hty Hv c Hc) as (_ & He & _). by apply (proj1 (Forall_forall _ _) He).
Qed.
End accepted.

Lemma Lower_inv d fields source c : Lower d fields source = Ok c → Validate d fields = Ok [] ∧ lowerDocument d fields source = Ok c.
Proof.
  unfold Lower. intros (ds & Hds & (? & Hz%check_inv%bool_decide_eq_true & H)%go_bind_inv)%go_bind_inv. apply length_zero_iff_nil in Hz as ->. done.
Qed.

(** ** Properties *)


(** C8: invalid documents are rejected before lowering.  On every document whose
    columns have their Go types, validation returns its list of diagnostics without
    indexing out of range, and compilation fails with [ErrInvalidDocument] when the
    list is not empty: whenever the graph of safe nodes has a cycle, and whenever a
    safe node is reached from no root. *)
Theorem invalid_documents_rejected (d : Document) (fields : FieldTable) (source : Interner.Interner) : doc_typed d →
  ∃ ds, Validate d fields = Ok ds ∧ (ds ≠ [] → Lower d fields source = Err ErrInvalidDocument) ∧
    ((∃ u, tc (edge d) u u) → Lower d fields source = Err ErrInvalidDocument) ∧
    (∀ m, safeNode d m → ¬ reachedNode d m → Lower d fields source = Err ErrInvalidDocument).
Proof.
  intros Hty. destruct (Validate_ok d fields Hty) as (s & g & E & _ & Eg). destruct (validateGraph_ok d (ty_graph _ Hty)) as (cycles & orphans & Eg' & _ & Hac & Hor & _).
  rewrite Eg in Eg'. injection Eg' as ->. exists ((validateStructure d fields).1.1 ++ s ++ cycles ++ orphans).
  assert ((validateStructure d fields).1.1 ++ s ++ cycles ++ orphans ≠ [] → Lower d fields source = Err ErrInvalidDocument) as Hrej.
  { intros Hne. unfold Lower. rewrite E, go_bind_Ok, bool_decide_eq_false_2; [done|]. by intros ?%length_zero_iff_nil. }
  assert (cycles ++ orphans ≠ [] → Lower d fields source = Err ErrInvalidDocument) as Hrej'.
  { intros Hne. apply Hrej. by intros [_ [_ ?]%app_nil]%app_nil. }
  split; [done|]. split; [done|]. split.
  - intros [u Hu]. apply Hrej'. intros [Hc _]%app_nil. destruct (Hac Hc) as (fin & Hto & Hall). by apply (topo_acyclic d fin Hto Hall u).
  - intros m Hm Hno. apply Hrej'. intros [_ Ho]%app_nil. apply (elem_of_nil (orphanAt d m)). rewrite <-Ho. apply Hor. by exists m.
Qed.
