(* ===== verification/Builder.v ===== *)
(** * Batch builder

    eval/builder.go: one reusable builder validates a program's field and symbol
    metadata, sizes the columns of a batch, interns request symbols above the
    program's namespace, writes facts and evidence cell by cell, and seals the
    batch.  Programs are pointers, modelled as addresses into an immutable store
    as in the executor.  A method that only checks before it writes returns the
    new builder; its errors leave the builder as it was. *)

From S2P Require Import Prelude Store Truth Schema Program Batch Predicate Evidence SymbolTable Interner Frozen SymbolCheck.

(** ** Field metadata and column sizes *)

Definition checkedSliceLen (a b elementBytes : Z) : option Z :=
  let n := u64 (a * b) in
  if (MaxInt <? n) || (MaxInt / elementBytes <? n) then None else Some n.

(** The loop of [validateFieldIndex] over kinds and columns; [next] counts the
    columns handed out per kind. *)
Fixpoint fieldColumns (kinds columns next : list Z) : option (list Z) :=
  match kinds, columns with
  | kind :: kinds, column :: columns =>
      let n := next !!! Z.to_nat kind in
      if negb (KindValid kind) || negb (column =? n) || (n =? MaxUint32) then None
      else fieldColumns kinds columns (<[Z.to_nat kind := n + 1]> next)
  | _, _ => Some next
  end.

Definition validateFieldIndex (fields : IndexSchema) : bool :=
  bool_decide (length (sKinds fields) = length (sColumns fields)) && (zlen (sKinds fields) <=? MaxUint32) &&
  match fieldColumns (sKinds fields) (sColumns fields) (replicate 6 0) with
  | Some next => bool_decide (next = sCounts fields)
  | None => false
  end.

Record batchShape := {
  shSymbols : Z; shIntegers : Z; shTimestamps : Z; shBooleans : Z; shPresence : Z; shRows : Z; shOffsets : Z; shEvidence : Z; shRefs : Z
}.

Definition makeBatchShape (fields : IndexSchema) (rows evidenceRows evidenceRefs : Z) : option batchShape :=
  if negb (validateFieldIndex fields) || (rows =? MaxUint32) then None else
  let words := Z.shiftr (u64 (rows + 63)) 6 in
  let count kind := sCounts fields !!! Z.to_nat kind in
  symbols ← checkedSliceLen (count ValueKindSymbol) rows 4;
  integers ← checkedSliceLen (count ValueKindInteger) rows 8;
  timestamps ← checkedSliceLen (count ValueKindTimestamp) rows 8;
  booleans ← checkedSliceLen (count ValueKindBoolean) words 8;
  presence ← checkedSliceLen (zlen (sKinds fields)) words 8;
  rowIDs ← checkedSliceLen rows 1 4;
  offsets ← checkedSliceLen (rows + 1) 1 4;
  evidence ← checkedSliceLen evidenceRows 1 8;
  refs ← checkedSliceLen evidenceRefs 1 4;
  Some {| shSymbols := symbols; shIntegers := integers; shTimestamps := timestamps; shBooleans := booleans; shPresence := presence;
          shRows := rowIDs; shOffsets := offsets; shEvidence := evidence; shRefs := refs |}.

(** [resizeClear]: a column of [n] zero values, whether its storage is new or reused. *)
Definition resizeClear (n : Z) : list Z := make_ n.

Definition resizeEvidence (n : Z) : EvidenceBatch :=
  {| eIDs := resizeClear n; eKinds := resizeClear n; eStates := resizeClear n; eSubjects := resizeClear n;
     eScopes := resizeClear n; eReviewers := resizeClear n; eTimings := resizeClear n; eTimestamps := resizeClear n |}.

(** ** Builder state *)

Record Builder := {
  program : option Z;
  batch : Batch;
  extension : Interner.Interner;
  fields : IndexSchema;
  symbolBase : Z;
  csrReady : bool;
  active : bool
}.

Definition emptyBatch : Batch :=
  {| SymbolValues := []; bIntegerValues := []; bTimestampValues := []; bBooleanValues := []; PresenceMasks := []; RequestIDs := [];
     EvidenceOffsets := []; EvidenceRefs := []; Evidence := resizeEvidence 0; Rows := 0; rowBase := 0; rowStride := 0 |}.

Definition zeroBuilder : Builder :=
  {| program := None; batch := emptyBatch; extension := Interner.zeroInterner; fields := {| sKinds := []; sColumns := []; sCounts := replicate 6 0 |};
     symbolBase := 0; csrReady := false; active := false |}.

Definition setBatch (b : Builder) (batch' : Batch) : Builder :=
  {| program := program b; batch := batch'; extension := extension b; fields := fields b; symbolBase := symbolBase b;
     csrReady := csrReady b; active := active b |}.

Section builder.
Context (programs : Z → Program).

Definition Begin (p : option Z) (rows evidenceRows evidenceRefs : Z) (b : Builder) : go Builder :=
  match p with
  | None => Err ErrInvalidProgram
  | Some addr =>
      let pr := programs addr in
      (if negb (bool_decide (program b = Some addr)) || negb (ProgramSymbolCount pr =? symbolBase b)
       then validateProgramSymbols pr else Ok tt) ;;
      match makeBatchShape (FieldIndex pr) rows evidenceRows evidenceRefs with
      | None => Err (if validateFieldIndex (FieldIndex pr) then ErrBatchTooLarge else ErrInvalidProgram)
      | Some shape =>
          Ok {| program := Some addr;
                batch := {| SymbolValues := resizeClear (shSymbols shape); bIntegerValues := resizeClear (shIntegers shape);
                            bTimestampValues := resizeClear (shTimestamps shape); bBooleanValues := resizeClear (shBooleans shape);
                            PresenceMasks := resizeClear (shPresence shape); RequestIDs := resizeClear (shRows shape);
                            EvidenceOffsets := resizeClear (shOffsets shape); EvidenceRefs := resizeClear (shRefs shape);
                            Evidence := resizeEvidence (shEvidence shape); Rows := rows;
                            rowBase := rowBase (batch b); rowStride := rowStride (batch b) |};
                extension := Interner.Reset (extension b); fields := FieldIndex pr; symbolBase := ProgramSymbolCount pr;
                csrReady := evidenceRefs =? 0; active := true |}
      end
  end.

(** ** Symbols *)

Definition InternSymbol (value : bytes) (b : Builder) : go Z * Builder :=
  match program b with
  | Some addr =>
      if negb (active b) then (Err ErrInvalidBuilder, b) else
      match LookupSymbol (programs addr) value with
      | Ok (Some id) => ((if symbolBase b <? id then Err ErrInvalidProgram else Ok id), b)
      | Ok None =>
          match Interner.Lookup (extension b) value with
          | Ok (Some local) => let id := u64 (symbolBase b + local) in ((if MaxUint32 <? id then Err ErrBatchTooLarge else Ok id), b)
          | Ok None =>
              let next := u64 (Interner.Len (extension b) + 1) in
              if MaxUint32 <? u64 (symbolBase b + next) then (Err ErrBatchTooLarge, b) else
              let (r, extension') := Interner.Intern value (extension b) in
              let b' := {| program := program b; batch := batch b; extension := extension'; fields := fields b;
                           symbolBase := symbolBase b; csrReady := csrReady b; active := active b |} in
              (match r with
               | Ok local => Ok (u32 (u64 (symbolBase b + local)))
               | Err _ => Err ErrBatchTooLarge
               | Panic s => Panic s
               end, b')
          | Err e => (Err e, b)
          | Panic s => (Panic s, b)
          end
      | Err e => (Err e, b)
      | Panic s => (Panic s, b)
      end
  | None => (Err ErrInvalidBuilder, b)
  end.

(** [Builder.Symbol]. *)
Definition BuilderSymbol (b : Builder) (id : Z) : option bytes :=
  match program b with
  | None => None
  | Some addr =>
      if id =? 0 then None
      else if id <=? symbolBase b then Symbol (programs addr) id
      else Interner.Bytes (extension b) (id - symbolBase b)
  end.

End builder.

(** ** Facts *)

Definition SetRequestID (row id : Z) (b : Builder) : go Builder :=
  check (active b) ErrInvalidBuilder ;;
  check (row <? Rows (batch b)) ErrInvalidRow ;;
  check (negb (id =? 0)) ErrInvalidValue ;;
  ids ← put_ (RequestIDs (batch b)) row id;
  let t := batch b in
  Ok (setBatch b {| SymbolValues := SymbolValues t; bIntegerValues := bIntegerValues t; bTimestampValues := bTimestampValues t;
                    bBooleanValues := bBooleanValues t; PresenceMasks := PresenceMasks t; RequestIDs := ids;
                    EvidenceOffsets := EvidenceOffsets t; EvidenceRefs := EvidenceRefs t; Evidence := Evidence t;
                    Rows := Rows t; rowBase := rowBase t; rowStride := rowStride t |}).

Definition factColumn (b : Builder) (row field want : Z) : go Z :=
  check (active b) ErrInvalidBuilder ;;
  check (row <? Rows (batch b)) ErrInvalidRow ;;
  match SchemaLookup (fields b) field with
  | None => Err ErrInvalidField
  | Some (kind, column) => check (kind =? want) ErrValueKind ;; Ok column
  end.

(** The fact columns of a batch, by value kind. *)
Definition setFacts (b : Builder) (symbols integers timestamps booleans presence : list Z) : Builder :=
  let t := batch b in
  setBatch b {| SymbolValues := symbols; bIntegerValues := integers; bTimestampValues := timestamps; bBooleanValues := booleans;
                PresenceMasks := presence; RequestIDs := RequestIDs t; EvidenceOffsets := EvidenceOffsets t;
                EvidenceRefs := EvidenceRefs t; Evidence := Evidence t; Rows := Rows t; rowBase := rowBase t; rowStride := rowStride t |}.

(** The presence words after [setPresence(row, field)]. *)
Definition setPresence (t : Batch) (row field : Z) : go (list Z) :=
  let word := u64 ((field - 1) * BatchWordCount t + Z.shiftr row 6) in
  w ← at_ (PresenceMasks t) word;
  put_ (PresenceMasks t) word (Z.lor w (bit64 (Z.land row 63))).

(** The index of a cell in a row-major value column. *)
Definition cellIndex (t : Batch) (column row : Z) : Z := u64 (column * Rows t + row).

Definition SetSymbol (row field value : Z) (b : Builder) : go Builder :=
  let t := batch b in
  column ← factColumn b row field ValueKindSymbol;
  check (negb (value =? 0)) ErrInvalidValue ;;
  symbols ← put_ (SymbolValues t) (cellIndex t column row) value;
  presence ← setPresence t row field;
  Ok (setFacts b symbols (bIntegerValues t) (bTimestampValues t) (bBooleanValues t) presence).

Definition SetInteger (row field value : Z) (b : Builder) : go Builder :=
  let t := batch b in
  column ← factColumn b row field ValueKindInteger;
  integers ← put_ (bIntegerValues t) (cellIndex t column row) value;
  presence ← setPresence t row field;
  Ok (setFacts b (SymbolValues t) integers (bTimestampValues t) (bBooleanValues t) presence).

Definition SetTimestamp (row field value : Z) (b : Builder) : go Builder :=
  let t := batch b in
  column ← factColumn b row field ValueKindTimestamp;
  timestamps ← put_ (bTimestampValues t) (cellIndex t column row) value;
  presence ← setPresence t row field;
  Ok (setFacts b (SymbolValues t) (bIntegerValues t) timestamps (bBooleanValues t) presence).

Definition SetBoolean (row field : Z) (value : bool) (b : Builder) : go Builder :=
  let t := batch b in
  column ← factColumn b row field ValueKindBoolean;
  let word := u64 (column * BatchWordCount t + Z.shiftr row 6) in
  let bit := bit64 (Z.land row 63) in
  w ← at_ (bBooleanValues t) word;
  booleans ← put_ (bBooleanValues t) word (if value then Z.lor w bit else Z.ldiff w bit);
  presence ← setPresence t row field;
  Ok (setFacts b (SymbolValues t) (bIntegerValues t) (bTimestampValues t) booleans presence).

Definition SetPresent (row field : Z) (b : Builder) : go Builder :=
  let t := batch b in
  _ ← factColumn b row field ValueKindPresence;
  presence ← setPresence t row field;
  Ok (setFacts b (SymbolValues t) (bIntegerValues t) (bTimestampValues t) (bBooleanValues t) presence).

(** ** Evidence *)

Record EvidenceRecord := {
  rID : Z; rKind : Z; rState : Z; rSubject : Z; rScope : Z; rReviewer : Z; rTiming : Z; rTimestamp : Z
}.

Definition setEvidenceBatch (b : Builder) (offsets refs : list Z) (e : EvidenceBatch) : Builder :=
  let t := batch b in
  setBatch b {| SymbolValues := SymbolValues t; bIntegerValues := bIntegerValues t; bTimestampValues := bTimestampValues t;
                bBooleanValues := bBooleanValues t; PresenceMasks := PresenceMasks t; RequestIDs := RequestIDs t;
                EvidenceOffsets := offsets; EvidenceRefs := refs; Evidence := e;
                Rows := Rows t; rowBase := rowBase t; rowStride := rowStride t |}.

Definition SetEvidence (row : Z) (record : EvidenceRecord) (b : Builder) : go Builder :=
  let e := Evidence (batch b) in
  check (active b) ErrInvalidBuilder ;;
  check (row <? zlen (eIDs e)) ErrInvalidRow ;;
  check (negb ((rID record =? 0) || (rKind record =? 0) || (rState record =? 0))) ErrInvalidEvidence ;;
  ids ← put_ (eIDs e) row (rID record);
  kinds ← put_ (eKinds e) row (rKind record);
  states ← put_ (eStates e) row (rState record);
  subjects ← put_ (eSubjects e) row (rSubject record);
  scopes ← put_ (eScopes e) row (rScope record);
  reviewers ← put_ (eReviewers e) row (rReviewer record);
  timings ← put_ (eTimings e) row (rTiming record);
  timestamps ← put_ (eTimestamps e) row (rTimestamp record);
  Ok (setEvidenceBatch b (EvidenceOffsets (batch b)) (EvidenceRefs (batch b))
        {| eIDs := ids; eKinds := kinds; eStates := states; eSubjects := subjects; eScopes := scopes; eReviewers := reviewers;
           eTimings := timings; eTimestamps := timestamps |}).

(** [offsets[1:]] never decreases from zero and stays within the references. *)
Fixpoint csrOffsetsOk (previous limit : Z) (offsets : list Z) : bool :=
  match offsets with
  | [] => true
  | offset :: offsets => negb ((offset <? previous) || (limit <? offset)) && csrOffsetsOk offset limit offsets
  end.

Definition SetEvidenceCSR (offsets refs : list Z) (b : Builder) : go Builder :=
  let t := batch b in
  check (active b) ErrInvalidBuilder ;;
  check (bool_decide (length offsets = length (EvidenceOffsets t)) && bool_decide (length refs = length (EvidenceRefs t)) &&
         negb (bool_decide (length offsets = 0%nat)) && (offsets !!! 0%nat =? 0) &&
         (offsets !!! (length offsets - 1)%nat =? zlen refs)) ErrInvalidEvidence ;;
  check (csrOffsetsOk 0 (zlen refs) (drop 1 offsets)) ErrInvalidEvidence ;;
  check (forallb (λ ref, ref <? zlen (eIDs (Evidence t))) refs) ErrInvalidEvidence ;;
  let b' := setEvidenceBatch b offsets refs (Evidence t) in
  Ok {| program := program b'; batch := batch b'; extension := extension b'; fields := fields b'; symbolBase := symbolBase b';
        csrReady := true; active := active b' |}.

(** ** Sealing *)

Definition seal (b : Builder) : Builder :=
  {| program := program b; batch := batch b; extension := extension b; fields := fields b; symbolBase := symbolBase b;
     csrReady := csrReady b; active := false |}.

Definition Finish (b : Builder) : go (Batch * Builder) :=
  let e := Evidence (batch b) in
  let n := length (eIDs e) in
  check (active b) ErrInvalidBuilder ;;
  check (forallb (λ id, negb (id =? 0)) (RequestIDs (batch b))) ErrIncompleteBatch ;;
  check (bool_decide (length (eKinds e) = n ∧ length (eStates e) = n ∧ length (eSubjects e) = n ∧ length (eScopes e) = n ∧
                      length (eReviewers e) = n ∧ length (eTimings e) = n ∧ length (eTimestamps e) = n)) ErrIncompleteBatch ;;
  check (forallb (λ i, negb ((eIDs e !!! i =? 0) || (eKinds e !!! i =? 0) || (eStates e !!! i =? 0))) (seq 0 n)) ErrIncompleteBatch ;;
  check (csrReady b) ErrIncompleteBatch ;;
  Ok (batch b, seal b).

Definition AbortBuild (b : Builder) : Builder := seal b.

(** ** Field schemas *)

(** A validated schema gives every field a column of its kind that no other field has. *)
Record schema_ok (s : IndexSchema) : Prop := {
  sk_typed : schema_typed s;
  sk_columns : length (sColumns s) = length (sKinds s);
  sk_field i : (i < length (sKinds s))%nat →
    KindValid (sKinds s !!! i) = true ∧ 0 ≤ sColumns s !!! i < sCounts s !!! Z.to_nat (sKinds s !!! i);
  sk_inj i j : (i < length (sKinds s))%nat → (j < length (sKinds s))%nat →
    sKinds s !!! i = sKinds s !!! j → sColumns s !!! i = sColumns s !!! j → i = j
}.

Lemma KindValid_range k : KindValid k = true → 1 ≤ k ≤ 5.
Proof. unfold KindValid, ValueKindSymbol, ValueKindPresence. rewrite andb_true_iff, !Z.leb_le. done. Qed.

Lemma fieldColumns_spec kinds columns next next' :
  length kinds = length columns → length next = 6%nat → Forall is_u32 next → fieldColumns kinds columns next = Some next' →
  length next' = 6%nat ∧ Forall is_u32 next' ∧ (∀ k, next !!! k ≤ next' !!! k) ∧
  ∀ i, (i < length kinds)%nat →
    KindValid (kinds !!! i) = true ∧ next !!! Z.to_nat (kinds !!! i) ≤ columns !!! i < next' !!! Z.to_nat (kinds !!! i) ∧
    ∀ j, (j < i)%nat → kinds !!! j = kinds !!! i → columns !!! j < columns !!! i.
Proof.
  revert columns next. induction kinds as [|kind kinds IH]; intros [|column columns] next Hl Hn Hu; simpl; try done.
  { intros [= <-]. split_and!; [done|done|lia|lia]. }
  destruct (KindValid kind) eqn:Hk; simpl; [|done]. pose proof (KindValid_range _ Hk).
  destruct (Z.eqb_spec column (next !!! Z.to_nat kind)) as [->|]; simpl; [|done].
  destruct (Z.eqb_spec (next !!! Z.to_nat kind) MaxUint32) as [|Hmax]; simpl; [done|]. intros E.
  set (n := next !!! Z.to_nat kind) in *. assert (is_u32 n) as Hun by (apply Forall_lookup_total_1; [done|lia]).
  unfold is_u32, MaxUint32 in *. simpl in Hl.
  destruct (IH columns (<[Z.to_nat kind := n + 1]> next)) as (Hn' & Hu' & Hmono & Hi);
    [lia|by rewrite length_insert|apply Forall_insert; [done|lia]|done|].
  assert (∀ k, <[Z.to_nat kind := n + 1]> next !!! k = if decide (k = Z.to_nat kind) then n + 1 else next !!! k) as Hins.
  { intros k. case_decide as Ek; [subst; apply list_lookup_total_insert_eq; lia|by apply list_lookup_total_insert_ne]. }
  assert (∀ k, next !!! k ≤ <[Z.to_nat kind := n + 1]> next !!! k) as Hstep.
  { intros k. rewrite Hins. case_decide; subst; fold n; lia. }
  split_and!; [done|done|intros k; specialize (Hmono k); specialize (Hstep k); lia|].
  intros [|i] Hlt; simpl.
  - split_and!; [done|done| |lia]. specialize (Hmono (Z.to_nat kind)). rewrite Hins, decide_True in Hmono by done. lia.
  - destruct (Hi i) as (Hv & Hc & Hord); [simpl in Hlt; lia|]. split_and!; [done| |lia|].
    + specialize (Hstep (Z.to_nat (kinds !!! i))). lia.
    + intros [|j] Hj; simpl; [|apply Hord; lia]. intros Ek. rewrite <-Ek, Hins, decide_True in Hc by done. lia.
Qed.

Lemma validateFieldIndex_ok s : validateFieldIndex s = true → schema_ok s.
Proof.
  unfold validateFieldIndex. intros [[Hl Hn]%andb_prop Hf]%andb_prop. apply bool_decide_eq_true in Hl. rewrite Z.leb_le in Hn.
  destruct (fieldColumns _ _ _) as [next|] eqn:E; [|done]. apply bool_decide_eq_true in Hf as ->.
  apply fieldColumns_spec in E as (H6 & Hu & _ & Hi); [|done|done|by repeat constructor]. unfold MaxUint32 in *.
  split; [split; [done|done|lia]|done| |].
  - intros i Hlt. destruct (Hi i Hlt) as (Hv & Hc & _). split; [done|]. pose proof (KindValid_range _ Hv).
    rewrite lookup_total_replicate_2 in Hc by lia. done.
  - intros i j Hli Hlj Ek Ec. destruct (Hi i Hli) as (_ & _ & Hoi), (Hi j Hlj) as (_ & _ & Hoj).
    destruct (decide (i < j)%nat); [specialize (Hoj i ltac:(done) Ek); lia|].
    destruct (decide (j < i)%nat); [specialize (Hoi j ltac:(done) (eq_sym Ek)); lia|lia].
Qed.

Lemma checkedSliceLen_Some a b bytes n : is_u32 a → is_u32 b → checkedSliceLen a b bytes = Some n → n = a * b ∧ n ≤ MaxInt / bytes.
Proof.
  unfold checkedSliceLen, is_u32. intros Ha Hb. rewrite u64_small by (unfold is_u64; nia).
  destruct (Z.ltb_spec MaxInt (a * b)), (Z.ltb_spec (MaxInt / bytes) (a * b)); simpl; try done. intros [= <-]. lia.
Qed.

(** ** The shape of an open build *)

Record shaped (s : IndexSchema) (t : Batch) : Prop := {
  sh_rows : 0 ≤ Rows t < MaxUint32;
  sh_base : rowBase t = 0 ∧ rowStride t = 0;
  sh_symbols : zlen (SymbolValues t) = sCounts s !!! 1%nat * Rows t ∧ zlen (SymbolValues t) ≤ MaxInt / 4 ∧ Forall is_u32 (SymbolValues t);
  sh_integers : zlen (bIntegerValues t) = sCounts s !!! 2%nat * Rows t;
  sh_booleans : zlen (bBooleanValues t) = sCounts s !!! 3%nat * WordCount (Rows t);
  sh_timestamps : zlen (bTimestampValues t) = sCounts s !!! 4%nat * Rows t;
  sh_presence : zlen (PresenceMasks t) = zlen (sKinds s) * WordCount (Rows t);
  sh_requests : zlen (RequestIDs t) = Rows t;
  sh_offsets : zlen (EvidenceOffsets t) = Rows t + 1
}.

Lemma shaped_words s t : shaped s t → is_u32 (Rows t) ∧ sourceRows t = Rows t ∧ sourceWords t = WordCount (Rows t) ∧
  BatchWordCount t = WordCount (Rows t) ∧ wordBase t = 0 ∧ validPhysicalRange t = true.
Proof.
  intros [Hr [Hb Hs] _ _ _ _ _ _ _]. assert (is_u32 (Rows t)) as Hu by (unfold is_u32, MaxUint32 in *; lia).
  assert (batch_typed t) as Hbt by (split; [done|by rewrite Hb|by rewrite Hs]).
  assert (sourceRows t = Rows t) as Hsr by (unfold sourceRows; by rewrite Hs).
  split_and!; [done|done|by rewrite sourceWords_eq, Hsr|by apply BatchWordCount_eq|by unfold wordBase; rewrite Hb|].
  unfold validPhysicalRange. rewrite Hb, Hs. simpl. rewrite u64_small, Hsr by (unfold is_u64, is_u32 in *; lia).
  apply Z.leb_le. lia.
Qed.

(** ** Reading facts back *)

Inductive fact := FSymbol (v : Z) | FInteger (v : Z) | FBoolean (v : bool) | FTimestamp (v : Z) | FPresent.

Definition factKind (v : fact) : Z :=
  match v with FSymbol _ => 1 | FInteger _ => 2 | FBoolean _ => 3 | FTimestamp _ => 4 | FPresent => 5 end.

(** The value of a kind-local cell. *)
Definition valueAt (t : Batch) (kind column row : Z) : option fact :=
  if kind =? ValueKindSymbol then FSymbol <$> SymbolAt t column row
  else if kind =? ValueKindInteger then FInteger <$> IntegerAt t column row
  else if kind =? ValueKindBoolean then Some (FBoolean (BooleanAt t column row))
  else if kind =? ValueKindTimestamp then FTimestamp <$> TimestampAt t column row
  else Some FPresent.

(** The fact a reader of the batch finds for a field of a row. *)
Definition readFact (s : IndexSchema) (t : Batch) (row field : Z) : option fact :=
  match SchemaLookup s field with
  | Some (kind, column) => if Present t field row then valueAt t kind column row else None
  | None => None
  end.

(** ** Cells of a column *)

Lemma grid_inj n c r c' r' : 0 ≤ r < n → 0 ≤ r' < n → c * n + r = c' * n + r' → c = c' ∧ r = r'.
Proof. intros Hr Hr' E. apply (Z.div_mod_unique n); [lia..|]. lia. Qed.

Lemma grid_lt n c r columns : 0 ≤ c < columns → 0 ≤ r < n → 0 ≤ c * n + r < columns * n.
Proof. nia. Qed.

Section cells.
Context (s : IndexSchema) (t : Batch) (Hs : shaped s t).

Lemma cell_bound columns c r : is_u32 columns → 0 ≤ c < columns → 0 ≤ r < Rows t → 0 ≤ c * Rows t + r < columns * Rows t ∧ columns * Rows t < 2 ^ 64.
Proof.
  intros Hu Hc Hr. pose proof (sh_rows _ _ Hs). unfold is_u32, MaxUint32 in *. split; [by apply grid_lt|nia].
Qed.

Lemma rowValue_read (vs : list Z) columns c r :
  is_u32 columns → zlen vs = columns * Rows t → 0 ≤ c < columns → 0 ≤ r < Rows t →
  rowValue t vs c r = Some (vs !!! Z.to_nat (c * Rows t + r)).
Proof.
  intros Hu Hl Hc Hr. destruct (shaped_words s t Hs) as (_ & Hsr & _ & _ & _ & Hv). unfold rowValue.
  rewrite Hv, (proj1 (sh_base _ _ Hs)), Hsr, (proj2 (Z.leb_gt _ _)) by lia. simpl.
  destruct (cell_bound columns c r) as [Hb H64]; [done..|]. replace (c * Rows t + 0 + r) with (c * Rows t + r) by lia.
  rewrite u64_small by (unfold is_u64; lia). by rewrite (proj2 (Z.leb_gt _ _)) by lia.
Qed.

Lemma cell_write (vs : list Z) columns c r v :
  is_u32 columns → zlen vs = columns * Rows t → 0 ≤ c < columns → 0 ≤ r < Rows t →
  put_ vs (cellIndex t c r) v = Ok (<[Z.to_nat (c * Rows t + r) := v]> vs).
Proof.
  intros Hu Hl Hc Hr. destruct (cell_bound columns c r) as [Hb H64]; [done..|]. unfold cellIndex.
  rewrite u64_small by (unfold is_u64; lia). apply put_Ok. lia.
Qed.

Lemma cell_read_write (vs : list Z) columns c r v c' r' :
  zlen vs = columns * Rows t → 0 ≤ c < columns → 0 ≤ r < Rows t → 0 ≤ c' < columns → 0 ≤ r' < Rows t →
  <[Z.to_nat (c * Rows t + r) := v]> vs !!! Z.to_nat (c' * Rows t + r') =
  if bool_decide (c' = c ∧ r' = r) then v else vs !!! Z.to_nat (c' * Rows t + r').
Proof.
  intros Hl Hc Hr Hc' Hr'. pose proof (grid_lt (Rows t) c r columns Hc Hr). pose proof (grid_lt (Rows t) c' r' columns Hc' Hr').
  case_bool_decide as E.
  - destruct E as [-> ->]. apply list_lookup_total_insert_eq. lia.
  - apply list_lookup_total_insert_ne. intros Ei. apply E.
    destruct (grid_inj (Rows t) c r c' r') as [-> ->]; [done..| |done]. lia.
Qed.

(** Bit [r] of plane [q]. *)
Definition planeBit (vs : list Z) (q r : Z) : bool := rowBit vs (64 * (Z.to_nat q * nwords (Rows t)) + Z.to_nat r).

Lemma word_bound planes q r :
  is_u32 planes → 0 ≤ q < planes → 0 ≤ r < Rows t →
  Z.shiftr r 6 = Z.of_nat (Z.to_nat r `div` 64) ∧ Z.land r 63 = Z.of_nat (Z.to_nat r `mod` 64) ∧
  (Z.to_nat r `div` 64 < nwords (Rows t))%nat ∧ 0 ≤ WordCount (Rows t) < 2 ^ 32 ∧
  u64 (q * WordCount (Rows t) + Z.of_nat (Z.to_nat r `div` 64)) = Z.of_nat (Z.to_nat q * nwords (Rows t) + Z.to_nat r `div` 64)%nat ∧
  (Z.to_nat q * nwords (Rows t) + Z.to_nat r `div` 64 < Z.to_nat planes * nwords (Rows t))%nat.
Proof.
  intros Hu Hq Hr. destruct (shaped_words s t Hs) as (Hru & _). destruct (WordCount_bounds _ Hru) as (? & ? & ?).
  pose proof (row_split (Z.to_nat r)) as [Er Hm]. unfold is_u32 in *.
  assert (Z.to_nat r `div` 64 < nwords (Rows t))%nat as Hlt by lia. split_and!; [apply row_word; lia|apply row_bit; lia|done|lia|lia| |].
  - rewrite u64_small by (unfold is_u64; nia). rewrite Nat2Z.inj_add, Nat2Z.inj_mul, !Z2Nat.id by lia. done.
  - assert (Z.to_nat q + 1 ≤ Z.to_nat planes)%nat by lia. nia.
Qed.

Lemma wordBit_read (vs : list Z) planes q r :
  is_u32 planes → zlen vs = planes * WordCount (Rows t) → 0 ≤ q < planes → 0 ≤ r < Rows t →
  wordBit vs (u64 (q * sourceWords t + wordBase t + Z.shiftr r 6)) r = planeBit vs q r.
Proof.
  intros Hu Hl Hq Hr. destruct (shaped_words s t Hs) as (_ & _ & -> & _ & -> & _).
  destruct (word_bound planes q r) as (-> & Hb & Hlt & Hw & Hi & Hin); [done..|]. rewrite Z.add_0_r, Hi. unfold wordBit, planeBit, rowBit.
  rewrite Hb. destruct (plane_index (nwords (Rows t)) (Z.to_nat q) (Z.to_nat r)) as [-> ->].
  rewrite (proj2 (Z.leb_gt _ _)) by nia. rewrite Nat2Z.id. apply land_bit64_ne0. lia.
Qed.

(** Replacing a word that differs from the old one in one bit. *)
Lemma planeBit_insert (vs : list Z) planes q r q' r' w value :
  is_u32 planes → zlen vs = planes * WordCount (Rows t) → 0 ≤ q < planes → 0 ≤ r < Rows t → 0 ≤ q' < planes → 0 ≤ r' < Rows t →
  let k := (Z.to_nat q * nwords (Rows t) + Z.to_nat r `div` 64)%nat in
  (∀ j, 0 ≤ j → Z.testbit w j = if bool_decide (j = Z.of_nat (Z.to_nat r `mod` 64)) then value else Z.testbit (vs !!! k) j) →
  planeBit (<[k := w]> vs) q' r' = if bool_decide (q' = q ∧ r' = r) then value else planeBit vs q' r'.
Proof.
  intros Hu Hl Hq Hr Hq' Hr' k Hw.
  destruct (word_bound planes q r) as (_ & _ & Hlt & Hwc & _ & Hin); [done..|].
  destruct (word_bound planes q' r') as (_ & _ & Hlt' & _ & _ & Hin'); [done..|].
  unfold planeBit. rewrite rowBit_insert by nia. unfold rowBit.
  destruct (plane_index (nwords (Rows t)) (Z.to_nat q') (Z.to_nat r')) as [-> ->].
  pose proof (row_split (Z.to_nat r)) as [Er ?]. pose proof (row_split (Z.to_nat r')) as [Er' ?].
  destruct (bool_decide_reflect (Z.to_nat q' * nwords (Rows t) + Z.to_nat r' `div` 64 = k)%nat) as [Ek|Ek].
  - pose proof Ek as Ek'. unfold k in Ek'. apply plane_word_inj in Ek' as [Eq Ed]; [|done..]. rewrite Hw, Ek by lia.
    rewrite (bool_decide_ext (Z.of_nat (Z.to_nat r' `mod` 64) = _) (q' = q ∧ r' = r)); [done|]. lia.
  - rewrite bool_decide_eq_false_2; [done|]. intros [-> ->]. done.
Qed.

Lemma plane_write (vs : list Z) planes q r (f : Z → Z) value :
  is_u32 planes → zlen vs = planes * WordCount (Rows t) → 0 ≤ q < planes → 0 ≤ r < Rows t →
  (∀ w j, 0 ≤ j → Z.testbit (f w) j = if bool_decide (j = Z.of_nat (Z.to_nat r `mod` 64)) then value else Z.testbit w j) →
  ∃ vs', (w ← at_ vs (u64 (q * BatchWordCount t + Z.shiftr r 6)); put_ vs (u64 (q * BatchWordCount t + Z.shiftr r 6)) (f w)) = Ok vs' ∧
    length vs' = length vs ∧
    ∀ q' r', 0 ≤ q' < planes → 0 ≤ r' < Rows t → planeBit vs' q' r' = if bool_decide (q' = q ∧ r' = r) then value else planeBit vs q' r'.
Proof.
  intros Hu Hl Hq Hr Hf. destruct (shaped_words s t Hs) as (_ & _ & _ & -> & _).
  destruct (word_bound planes q r) as (-> & _ & Hlt & Hw & -> & Hin); [done..|].
  rewrite at_total by nia. rewrite Nat2Z.id. simpl. rewrite put_Ok by nia. rewrite Nat2Z.id.
  eexists. split; [done|]. split; [by rewrite length_insert|]. intros q' r' Hq' Hr'. apply (planeBit_insert vs planes); try done. intros j Hj. by apply Hf.
Qed.
End cells.

(** ** Writing one fact *)

(** The stored value of a cell, present or not. *)
Definition rawValue (t : Batch) (kind column row : Z) : fact :=
  let cell vs := vs !!! Z.to_nat (column * Rows t + row) in
  if kind =? ValueKindSymbol then FSymbol (cell (SymbolValues t))
  else if kind =? ValueKindInteger then FInteger (cell (bIntegerValues t))
  else if kind =? ValueKindBoolean then FBoolean (planeBit t (bBooleanValues t) column row)
  else if kind =? ValueKindTimestamp then FTimestamp (cell (bTimestampValues t))
  else FPresent.

Section write.
Context (s : IndexSchema) (Hok : schema_ok s).

(** The cell of a field. *)
Definition field_cell (field kind column : Z) : Prop := 0 ≤ field ∧ SchemaLookup s field = Some (kind, column).

Lemma field_cell_ok field kind column :
  field_cell field kind column →
  1 ≤ field ≤ zlen (sKinds s) ∧ KindValid kind = true ∧ 0 ≤ column < sCounts s !!! Z.to_nat kind.
Proof.
  intros [H0 Hl]. unfold SchemaLookup in Hl. destruct (Z.eqb_spec field 0); [done|].
  destruct (Z.leb_spec (zlen (sKinds s)) (field - 1)); simpl in Hl; [done|].
  destruct (Z.leb_spec (zlen (sColumns s)) (field - 1)); [done|]. injection Hl as <- <-.
  destruct (sk_field s Hok (Z.to_nat (field - 1))) as [Hv Hc]; [lia|]. split; [lia|done].
Qed.

Lemma field_cell_inj field field' kind column : field_cell field kind column → field_cell field' kind column → field = field'.
Proof.
  intros H H'. destruct (field_cell_ok _ _ _ H) as (Hf & _), (field_cell_ok _ _ _ H') as (Hf' & _).
  destruct H as [_ Hl], H' as [_ Hl']. unfold SchemaLookup in Hl, Hl'. pose proof (sk_columns s Hok).
  rewrite (proj2 (Z.eqb_neq _ _)), !(proj2 (Z.leb_gt _ _)) in Hl by lia. rewrite (proj2 (Z.eqb_neq _ _)), !(proj2 (Z.leb_gt _ _)) in Hl' by lia.
  simpl in *. simplify_eq. pose proof (sk_inj s Hok (Z.to_nat (field - 1)) (Z.to_nat (field' - 1))). lia.
Qed.

Lemma field_cell_exists field : 1 ≤ field ≤ zlen (sKinds s) → ∃ kind column, field_cell field kind column.
Proof.
  intros Hf. unfold field_cell, SchemaLookup. pose proof (sk_columns s Hok).
  rewrite (proj2 (Z.eqb_neq _ _)), !(proj2 (Z.leb_gt _ _)) by lia. simpl. eexists _, _. split; [lia|done].
Qed.

Lemma counts_u32 k : (k < 6)%nat → is_u32 (sCounts s !!! k).
Proof. intros Hk. destruct (sk_typed s Hok) as [Hl Hu _]. apply Forall_lookup_total_1; [done|lia]. Qed.

Lemma fields_u32 : is_u32 (zlen (sKinds s)).
Proof. destruct (sk_typed s Hok) as [_ _ Hf]. unfold is_u32. lia. Qed.

Lemma valueAt_raw t kind column row :
  shaped s t → KindValid kind = true → 0 ≤ column < sCounts s !!! Z.to_nat kind → 0 ≤ row < Rows t →
  valueAt t kind column row = Some (rawValue t kind column row).
Proof.
  intros Hs Hk Hc Hr. apply KindValid_range in Hk. unfold valueAt, rawValue, ValueKindSymbol, ValueKindInteger, ValueKindBoolean, ValueKindTimestamp.
  assert (kind = 1 ∨ kind = 2 ∨ kind = 3 ∨ kind = 4 ∨ kind = 5) as [-> | [-> | [-> | [-> | ->]]]] by lia; simpl in *.
  - unfold SymbolAt. by rewrite (rowValue_read s t Hs _ (sCounts s !!! 1%nat)) by first [apply counts_u32; lia | apply Hs | done].
  - unfold IntegerAt. by rewrite (rowValue_read s t Hs _ (sCounts s !!! 2%nat)) by first [apply counts_u32; lia | apply Hs | done].
  - unfold BooleanAt. destruct (shaped_words s t Hs) as (_ & _ & _ & _ & _ & ->). rewrite (proj2 (Z.leb_gt _ _)) by lia. simpl.
    by rewrite (wordBit_read s t Hs _ (sCounts s !!! 3%nat)) by first [apply counts_u32; lia | apply Hs | done].
  - unfold TimestampAt. by rewrite (rowValue_read s t Hs _ (sCounts s !!! 4%nat)) by first [apply counts_u32; lia | apply Hs | done].
  - done.
Qed.

Lemma readFact_raw t row field kind column :
  shaped s t → field_cell field kind column → 0 ≤ row < Rows t →
  readFact s t row field = if planeBit t (PresenceMasks t) (field - 1) row then Some (rawValue t kind column row) else None.
Proof.
  intros Hs Hf Hr. destruct (field_cell_ok _ _ _ Hf) as (Hfr & Hk & Hc). unfold readFact, Present. rewrite (proj2 Hf).
  destruct (shaped_words s t Hs) as (_ & _ & _ & _ & _ & Hv). rewrite (valueAt_raw t), Hv by done.
  rewrite (proj2 (Z.eqb_neq _ _)), (proj2 (Z.leb_gt _ _)) by lia. simpl.
  by rewrite (wordBit_read s t Hs _ (zlen (sKinds s))) by first [apply fields_u32 | apply Hs | lia].
Qed.

(** The batch [t'] differs from [t] in one cell, which holds [v] and is present. *)
Record wrote (t t' : Batch) (row field column : Z) (v : fact) : Prop := {
  wr_rows : Rows t' = Rows t;
  wr_value kind' column' row' : KindValid kind' = true → 0 ≤ column' < sCounts s !!! Z.to_nat kind' → 0 ≤ row' < Rows t →
    rawValue t' kind' column' row' =
    if bool_decide (kind' = factKind v ∧ column' = column ∧ row' = row) then v else rawValue t kind' column' row';
  wr_present field' row' : 0 ≤ field' - 1 < zlen (sKinds s) → 0 ≤ row' < Rows t →
    planeBit t' (PresenceMasks t') (field' - 1) row' =
    if bool_decide (field' - 1 = field - 1 ∧ row' = row) then true else planeBit t (PresenceMasks t) (field' - 1) row'
}.

Lemma readFact_wrote t t' row field column v row' field' :
  shaped s t → shaped s t' → field_cell field (factKind v) column → wrote t t' row field column v →
  1 ≤ field' ≤ zlen (sKinds s) → 0 ≤ row' < Rows t →
  readFact s t' row' field' = if bool_decide (field' = field ∧ row' = row) then Some v else readFact s t row' field'.
Proof.
  intros Hs Hs' Hf [Hr Hval Hpres] Hf' Hr'.
  destruct (field_cell_exists field' Hf') as (kind' & column' & Hc').
  destruct (field_cell_ok _ _ _ Hc') as (_ & Hk & Hcol).
  rewrite (readFact_raw t' row' field' kind' column'), (readFact_raw t row' field' kind' column') by (done || lia).
  rewrite Hval, Hpres by (done || lia). case_bool_decide as E1.
  - destruct E1 as [Ef ->]. assert (field' = field) as -> by lia. rewrite (bool_decide_eq_true_2 (field = field ∧ row = row)) by done.
    destruct Hf as [_ Hf], Hc' as [_ Hc']. rewrite Hf in Hc'. injection Hc' as <- <-. by rewrite bool_decide_eq_true_2.
  - rewrite (bool_decide_eq_false_2 (field' = field ∧ row' = row)) by (intros [-> ->]; by apply E1).
    rewrite bool_decide_eq_false_2; [done|]. intros (-> & -> & ->). apply E1.
    by rewrite (field_cell_inj field' field (factKind v) column) by done.
Qed.

Lemma setPresence_ok t row field :
  shaped s t → 1 ≤ field ≤ zlen (sKinds s) → 0 ≤ row < Rows t →
  ∃ pm, setPresence t row field = Ok pm ∧ length pm = length (PresenceMasks t) ∧
    ∀ field' row', 0 ≤ field' - 1 < zlen (sKinds s) → 0 ≤ row' < Rows t →
      planeBit t pm (field' - 1) row' =
      if bool_decide (field' - 1 = field - 1 ∧ row' = row) then true else planeBit t (PresenceMasks t) (field' - 1) row'.
Proof.
  intros Hs Hf Hr.
  destruct (plane_write s t Hs (PresenceMasks t) (zlen (sKinds s)) (field - 1) row (λ w, Z.lor w (bit64 (Z.land row 63))) true)
    as (pm & Hpm & Hl & Hbits); [apply fields_u32|apply Hs|lia|done| |].
  - intros w j Hj. rewrite row_bit, Z.lor_spec, testbit_bit64 by lia. case_bool_decide; [by rewrite orb_true_r|by rewrite orb_false_r].
  - exists pm. split_and!; [done|done|]. intros f r Hf' Hr'. by apply Hbits.
Qed.

Lemma wrote_intro t t' row field column v :
  Rows t' = Rows t →
  (∀ kind' c r, kind' ≠ factKind v → KindValid kind' = true → rawValue t' kind' c r = rawValue t kind' c r) →
  (∀ c r, 0 ≤ c < sCounts s !!! Z.to_nat (factKind v) → 0 ≤ r < Rows t →
     rawValue t' (factKind v) c r = if bool_decide (c = column ∧ r = row) then v else rawValue t (factKind v) c r) →
  (∀ field' row', 0 ≤ field' - 1 < zlen (sKinds s) → 0 ≤ row' < Rows t →
      planeBit t (PresenceMasks t') (field' - 1) row' =
      if bool_decide (field' - 1 = field - 1 ∧ row' = row) then true else planeBit t (PresenceMasks t) (field' - 1) row') →
  wrote t t' row field column v.
Proof.
  intros Hr Hother Hsame Hpres. split; [done| |].
  - intros kind' c r Hk Hc Hr'. destruct (decide (kind' = factKind v)) as [->|Hne].
    + rewrite Hsame by done. by rewrite (bool_decide_ext (factKind v = factKind v ∧ c = column ∧ r = row) (c = column ∧ r = row)) by naive_solver.
    + rewrite bool_decide_eq_false_2 by naive_solver. by apply Hother.
  - intros f r Hf Hr'. rewrite <-Hpres by done. unfold planeBit. by rewrite Hr.
Qed.

End write.

Definition setFact (row field : Z) (v : fact) (b : Builder) : go Builder :=
  match v with
  | FSymbol x => SetSymbol row field x b
  | FInteger x => SetInteger row field x b
  | FBoolean x => SetBoolean row field x b
  | FTimestamp x => SetTimestamp row field x b
  | FPresent => SetPresent row field b
  end.

Definition fact_typed (v : fact) : Prop := match v with FSymbol x => is_u32 x | _ => True end.

(** The parts of the builder a fact setter leaves alone. *)
Record same_build (b b' : Builder) : Prop := {
  sb_program : program b' = program b;
  sb_extension : extension b' = extension b;
  sb_fields : fields b' = fields b;
  sb_base : symbolBase b' = symbolBase b;
  sb_active : active b' = active b;
  sb_rows : Rows (batch b') = Rows (batch b)
}.

Definition same_evidence (b b' : Builder) : Prop :=
  csrReady b' = csrReady b ∧ EvidenceOffsets (batch b') = EvidenceOffsets (batch b) ∧ EvidenceRefs (batch b') = EvidenceRefs (batch b) ∧
  Evidence (batch b') = Evidence (batch b).

Lemma factColumn_inv b row field want column :
  factColumn b row field want = Ok column → active b = true ∧ row < Rows (batch b) ∧ SchemaLookup (fields b) field = Some (want, column).
Proof.
  unfold factColumn. intros ([] & Ha%check_inv & ([] & Hr%check_inv & H)%go_bind_inv)%go_bind_inv.
  destruct (SchemaLookup (fields b) field) as [[kind c]|]; [|done].
  apply go_bind_inv in H as ([] & Hk%check_inv & [= ->]). rewrite Z.eqb_eq in Hk. rewrite Z.ltb_lt in Hr. by subst.
Qed.

Lemma factColumn_total b row field want : ∃ r, factColumn b row field want = r ∧ match r with Panic _ => False | _ => True end.
Proof.
  eexists. split; [done|]. unfold factColumn, check. destruct (active b), (row <? Rows (batch b)); simpl; try done.
  destruct (SchemaLookup (fields b) field) as [[kind c]|]; [|done]. by destruct (kind =? want).
Qed.

Record fact_written (b b' : Builder) (row field : Z) (v : fact) : Prop := {
  fw_build : same_build b b';
  fw_evidence : same_evidence b b';
  fw_requests : RequestIDs (batch b') = RequestIDs (batch b);
  fw_shaped : shaped (fields b) (batch b');
  fw_active : active b = true;
  fw_cell : row < Rows (batch b) ∧ 1 ≤ field ≤ zlen (sKinds (fields b));
  fw_read row' field' : 1 ≤ field' ≤ zlen (sKinds (fields b)) → 0 ≤ row' < Rows (batch b) →
    readFact (fields b) (batch b') row' field' =
    if bool_decide (field' = field ∧ row' = row) then Some v else readFact (fields b) (batch b) row' field'
}.

Section setters.
Context (b : Builder) (row field : Z).
Context (Hok : schema_ok (fields b)) (Hs : shaped (fields b) (batch b)) (Hrow : 0 ≤ row) (Hfield : 0 ≤ field).

(** Columns of unchanged length, one cell written. *)
Lemma setFacts_written v column sy iv tv bv pm :
  active b = true → row < Rows (batch b) → SchemaLookup (fields b) field = Some (factKind v, column) →
  length sy = length (SymbolValues (batch b)) → Forall is_u32 sy → length iv = length (bIntegerValues (batch b)) →
  length tv = length (bTimestampValues (batch b)) → length bv = length (bBooleanValues (batch b)) → setPresence (batch b) row field = Ok pm →
  (∀ kind' c r, kind' ≠ factKind v → KindValid kind' = true →
     rawValue (batch (setFacts b sy iv tv bv pm)) kind' c r = rawValue (batch b) kind' c r) →
  (∀ c r, 0 ≤ c < sCounts (fields b) !!! Z.to_nat (factKind v) → 0 ≤ r < Rows (batch b) →
     rawValue (batch (setFacts b sy iv tv bv pm)) (factKind v) c r =
     if bool_decide (c = column ∧ r = row) then v else rawValue (batch b) (factKind v) c r) →
  fact_written b (setFacts b sy iv tv bv pm) row field v.
Proof.
  intros Ha Hr Hl Hsy Hu Hiv Htv Hbv Hpm Hother Hsame.
  assert (field_cell (fields b) field (factKind v) column) as Hcell by (by split).
  destruct (field_cell_ok _ Hok _ _ _ Hcell) as (Hf & _).
  destruct (setPresence_ok _ Hok (batch b) row field Hs Hf) as (pm' & Hpm' & Hlp & Hbits); [lia|]. rewrite Hpm in Hpm'. injection Hpm' as <-.
  assert (shaped (fields b) (batch (setFacts b sy iv tv bv pm))) as Hs'.
  { destruct Hs as [? ? (? & ? & ?) ? ? ? ? ? ?]. split; simpl; rewrite ?Hsy, ?Hiv, ?Htv, ?Hbv, ?Hlp; done. }
  split; [by split|by split_and!|done|done|done|lia|]. intros row' field' Hf' Hr'.
  eapply (readFact_wrote _ Hok); [done..| |done|done]. by apply wrote_intro.
Qed.

Lemma write_cell (vs : list Z) columns c v :
  row < Rows (batch b) → is_u32 columns → zlen vs = columns * Rows (batch b) → 0 ≤ c < columns →
  ∃ vs', put_ vs (cellIndex (batch b) c row) v = Ok vs' ∧ length vs' = length vs ∧ (is_u32 v → Forall is_u32 vs → Forall is_u32 vs') ∧
    ∀ c' r', 0 ≤ c' < columns → 0 ≤ r' < Rows (batch b) →
      vs' !!! Z.to_nat (c' * Rows (batch b) + r') =
      if bool_decide (c' = c ∧ r' = row) then v else vs !!! Z.to_nat (c' * Rows (batch b) + r').
Proof.
  intros Hr Hu Hl Hc. rewrite (cell_write _ _ Hs vs columns) by (done || lia). eexists. split; [done|].
  split; [by rewrite length_insert|]. split; [intros ? ?; by apply Forall_insert|].
  intros c' r' Hc' Hr'. by apply (cell_read_write (batch b) vs columns); try done.
Qed.

(** Every setter writes its cell or returns an error. *)
Definition setter_spec (v : fact) (r : go Builder) : Prop :=
  match r with Ok b' => fact_written b b' row field v | Err _ => True | Panic _ => False end.

Ltac kinds Hk := apply KindValid_range in Hk; unfold rawValue, ValueKindSymbol, ValueKindInteger, ValueKindBoolean, ValueKindTimestamp in *;
  match type of Hk with _ ≤ ?k ≤ _ => assert (k = 1 ∨ k = 2 ∨ k = 3 ∨ k = 4 ∨ k = 5) as [-> | [-> | [-> | [-> | ->]]]] by lia; try done end.

Lemma column_cases want :
  (∃ e, factColumn b row field want = Err e) ∨
  (∃ column, factColumn b row field want = Ok column ∧ active b = true ∧ row < Rows (batch b) ∧
     SchemaLookup (fields b) field = Some (want, column) ∧ 0 ≤ column < sCounts (fields b) !!! Z.to_nat want ∧
     ∃ pm, setPresence (batch b) row field = Ok pm).
Proof.
  destruct (factColumn_total b row field want) as ([column|e|m] & E & Hm); [right|left; by exists e|done].
  exists column. destruct (factColumn_inv _ _ _ _ _ E) as (Ha & Hr & Hl).
  destruct (field_cell_ok _ Hok field want column) as (Hf & _ & Hc); [by split|].
  destruct (setPresence_ok _ Hok (batch b) row field Hs Hf) as (pm & Hpm & _); [lia|]. split_and!; try done; [lia..|]. by exists pm.
Qed.

Lemma SetSymbol_ok x : is_u32 x → setter_spec (FSymbol x) (SetSymbol row field x b).
Proof.
  intros Hx. unfold SetSymbol. destruct (column_cases ValueKindSymbol) as [[e ->]|(column & -> & Ha & Hr & Hl & Hc & pm & Hpm)]; [done|].
  simpl. destruct (x =? 0); [done|]. simpl. pose proof (sh_symbols _ _ Hs) as (Hlen & _ & Hu).
  destruct (write_cell (SymbolValues (batch b)) _ column x Hr (counts_u32 _ Hok 1 ltac:(lia)) Hlen Hc) as (vs & -> & Hvl & Hvu & Hread). simpl.
  rewrite Hpm. simpl. apply (setFacts_written _ column); try done; [by apply Hvu| |].
  - intros kind' c r Hne Hk. kinds Hk.
  - intros c r Hc' Hr'. unfold rawValue. simpl. rewrite Hread by done. by case_bool_decide.
Qed.

Lemma SetInteger_ok x : setter_spec (FInteger x) (SetInteger row field x b).
Proof.
  unfold SetInteger. destruct (column_cases ValueKindInteger) as [[e ->]|(column & -> & Ha & Hr & Hl & Hc & pm & Hpm)]; [done|]. simpl.
  destruct (write_cell (bIntegerValues (batch b)) _ column x Hr (counts_u32 _ Hok 2 ltac:(lia)) (sh_integers _ _ Hs) Hc) as (vs & -> & Hvl & _ & Hread). simpl.
  rewrite Hpm. simpl. apply (setFacts_written _ column); try done; [apply Hs| |].
  - intros kind' c r Hne Hk. kinds Hk.
  - intros c r Hc' Hr'. unfold rawValue. simpl. rewrite Hread by done. by case_bool_decide.
Qed.

Lemma SetTimestamp_ok x : setter_spec (FTimestamp x) (SetTimestamp row field x b).
Proof.
  unfold SetTimestamp. destruct (column_cases ValueKindTimestamp) as [[e ->]|(column & -> & Ha & Hr & Hl & Hc & pm & Hpm)]; [done|]. simpl.
  destruct (write_cell (bTimestampValues (batch b)) _ column x Hr (counts_u32 _ Hok 4 ltac:(lia)) (sh_timestamps _ _ Hs) Hc) as (vs & -> & Hvl & _ & Hread). simpl.
  rewrite Hpm. simpl. apply (setFacts_written _ column); try done; [apply Hs| |].
  - intros kind' c r Hne Hk. kinds Hk.
  - intros c r Hc' Hr'. unfold rawValue. simpl. rewrite Hread by done. by case_bool_decide.
Qed.

Lemma SetBoolean_ok x : setter_spec (FBoolean x) (SetBoolean row field x b).
Proof.
  unfold SetBoolean. destruct (column_cases ValueKindBoolean) as [[e ->]|(column & -> & Ha & Hr & Hl & Hc & pm & Hpm)]; [done|]. rewrite go_bind_Ok.
  destruct (plane_write _ _ Hs (bBooleanValues (batch b)) _ column row
    (λ w, if x then Z.lor w (bit64 (Z.land row 63)) else Z.ldiff w (bit64 (Z.land row 63))) x (counts_u32 _ Hok 3 ltac:(lia)) (sh_booleans _ _ Hs) Hc)
    as (vs & Hvs & Hvl & Hread); [lia| |].
  { intros w j Hj. rewrite row_bit by lia.
    destruct x; [rewrite Z.lor_spec|rewrite Z.ldiff_spec]; rewrite testbit_bit64 by lia; case_bool_decide; simpl;
      rewrite ?orb_true_r, ?orb_false_r, ?andb_false_r, ?andb_true_r; done. }
  simpl. destruct (at_ _ _) as [w| |]; simpl in Hvs; [|done|done]. rewrite go_bind_Ok, Hvs, go_bind_Ok, Hpm, go_bind_Ok. simpl.
  apply (setFacts_written _ column); try done; [apply Hs| |].
  - intros kind' c r Hne Hk. kinds Hk.
  - intros c r Hc' Hr'. unfold rawValue. simpl. unfold planeBit at 1. simpl. change (rowBit vs _) with (planeBit (batch b) vs c r).
    rewrite Hread by done. by case_bool_decide.
Qed.

Lemma SetPresent_ok : setter_spec FPresent (SetPresent row field b).
Proof.
  unfold SetPresent. destruct (column_cases ValueKindPresence) as [[e ->]|(column & -> & Ha & Hr & Hl & Hc & pm & Hpm)]; [done|]. simpl.
  rewrite Hpm. simpl. apply (setFacts_written _ column); try done; [apply Hs|]. intros c r _ _. by case_bool_decide.
Qed.

Lemma setFact_ok v : fact_typed v → setter_spec v (setFact row field v b).
Proof.
  destruct v; intros Hv; simpl; auto using SetSymbol_ok, SetInteger_ok, SetBoolean_ok, SetTimestamp_ok, SetPresent_ok.
Qed.
End setters.
