(* ===== verification/BuilderSession.v ===== *)
(** * Builds as sequences of calls

    A build of eval/builder.go from [Begin] over any interleaving of setters,
    evidence writes and symbol lookups to [Finish]: calls that fail change nothing,
    the sealed batch holds exactly what the successful calls wrote, request symbols
    and program symbols share one namespace, and the executor accepts the batch. *)

From S2P Require Import Prelude Store Truth Schema Program Batch Predicate Simd Evidence Executor PolicyIndex Finalize Execute ResultRows SymbolTable Interner Frozen SymbolCheck Builder.

(** ** Evidence and request IDs *)

Definition evidenceRows (t : Batch) : nat := length (eIDs (Evidence t)).

Record evidence_shape (t : Batch) : Prop := {
  es_lengths : length (eKinds (Evidence t)) = evidenceRows t ∧ length (eStates (Evidence t)) = evidenceRows t ∧
    length (eSubjects (Evidence t)) = evidenceRows t ∧ length (eScopes (Evidence t)) = evidenceRows t ∧
    length (eReviewers (Evidence t)) = evidenceRows t ∧ length (eTimings (Evidence t)) = evidenceRows t ∧
    length (eTimestamps (Evidence t)) = evidenceRows t;
  es_states : Forall is_u32 (eStates (Evidence t))
}.

(** The request-to-evidence relation is a well-formed CSR. *)
Record csr_ok (t : Batch) : Prop := {
  cs_first : EvidenceOffsets t !!! 0%nat = 0;
  cs_last : EvidenceOffsets t !!! (length (EvidenceOffsets t) - 1)%nat = zlen (EvidenceRefs t);
  cs_order : csrOffsetsOk 0 (zlen (EvidenceRefs t)) (drop 1 (EvidenceOffsets t)) = true;
  cs_refs : forallb (λ ref, ref <? Z.of_nat (evidenceRows t)) (EvidenceRefs t) = true;
  cs_typed : Forall is_u32 (EvidenceRefs t)
}.

(** A build in progress for the program [pr]. *)
Record building (pr : Program) (b : Builder) : Prop := {
  bu_fields : fields b = FieldIndex pr;
  bu_schema : schema_ok (fields b);
  bu_shaped : shaped (fields b) (batch b);
  bu_evidence : evidence_shape (batch b);
  bu_csr : csrReady b = true → csr_ok (batch b)
}.

Lemma building_fact pr b b' row field v : building pr b → fact_written b b' row field v → building pr b'.
Proof.
  intros [Hf Hok Hs He Hc] [Hb (Hr & Ho & Hrf & Hev) _ Hs' _ _ _]. split.
  - by rewrite (sb_fields _ _ Hb).
  - by rewrite (sb_fields _ _ Hb).
  - by rewrite (sb_fields _ _ Hb).
  - destruct He. by split; unfold evidenceRows in *; rewrite Hev.
  - rewrite Hr. intros [H1 H2 H3 H4 H5]%Hc. split; unfold evidenceRows in *; rewrite ?Ho, ?Hrf, ?Hev; done.
Qed.

Lemma SetRequestID_ok pr b row id :
  building pr b → 0 ≤ row →
  match SetRequestID row id b with
  | Ok b' => building pr b' ∧ same_build b b' ∧ same_evidence b b' ∧ row < Rows (batch b) ∧
      RequestIDs (batch b') = <[Z.to_nat row := id]> (RequestIDs (batch b)) ∧
      ∀ row' field', readFact (fields b) (batch b') row' field' = readFact (fields b) (batch b) row' field'
  | Err _ => True
  | Panic _ => False
  end.
Proof.
  intros [Hf Hok Hs He Hc] Hrow. unfold SetRequestID, check. destruct (active b); [|done]. simpl.
  destruct (Z.ltb_spec row (Rows (batch b))); [|done]. simpl. destruct (id =? 0); [done|]. simpl.
  rewrite put_Ok by (rewrite (sh_requests _ _ Hs); lia). simpl.
  split; [|by split_and!]. split; [done|done| | |].
  - destruct Hs. split; simpl; rewrite ?length_insert; done.
  - destruct He. by split.
  - intros [H1 H2 H3 H4 H5]%Hc. by split.
Qed.

Lemma SetEvidence_ok pr b row record :
  building pr b → 0 ≤ row → is_u32 (rState record) →
  match SetEvidence row record b with
  | Ok b' => building pr b' ∧ same_build b b' ∧ RequestIDs (batch b') = RequestIDs (batch b) ∧
      ∀ row' field', readFact (fields b) (batch b') row' field' = readFact (fields b) (batch b) row' field'
  | Err _ => True
  | Panic _ => False
  end.
Proof.
  intros [Hf Hok Hs [(H1 & H2 & H3 & H4 & H5 & H6 & H7) Hst] Hc] Hrow Hu. unfold SetEvidence, check. destruct (active b); [|done]. simpl.
  unfold evidenceRows in *. destruct (Z.ltb_spec row (zlen (eIDs (Evidence (batch b))))); [|done]. simpl.
  destruct (_ || _ || _); [done|]. simpl. do 8 (rewrite put_Ok by lia; simpl).
  split; [|done]. split; [done|done| | |].
  - destruct Hs. by split.
  - split; unfold evidenceRows; simpl; [by rewrite !length_insert|by apply Forall_insert].
  - intros [G1 G2 G3 G4 G5]%Hc. split; try done. unfold evidenceRows in *. simpl. by rewrite length_insert.
Qed.

Lemma SetEvidenceCSR_ok pr b offsets refs :
  building pr b → Forall is_u32 refs →
  match SetEvidenceCSR offsets refs b with
  | Ok b' => building pr b' ∧ same_build b b' ∧ RequestIDs (batch b') = RequestIDs (batch b) ∧
      ∀ row' field', readFact (fields b) (batch b') row' field' = readFact (fields b) (batch b) row' field'
  | Err _ => True
  | Panic _ => False
  end.
Proof.
  intros [Hf Hok Hs He Hc] Hu. unfold SetEvidenceCSR, check. destruct (active b); [|done]. simpl.
  destruct (bool_decide_reflect (length offsets = length (EvidenceOffsets (batch b)))) as [Hl|]; [|done].
  destruct (bool_decide_reflect (length refs = length (EvidenceRefs (batch b)))) as [Hlr|]; [|done].
  destruct (bool_decide (length offsets = 0%nat)); [done|]. simpl.
  destruct (Z.eqb_spec (offsets !!! 0%nat) 0) as [H0|]; [|done]. simpl.
  destruct (Z.eqb_spec (offsets !!! (length offsets - 1)%nat) (zlen refs)) as [Hlast|]; [|done]. simpl.
  destruct (csrOffsetsOk 0 (zlen refs) (drop 1 offsets)) eqn:Hord; [|done]. simpl.
  destruct (forallb _ refs) eqn:Hrefs; [|done]. simpl. split; [|done]. split; [done|done| | |].
  - destruct Hs. split; simpl; rewrite ?Hl; done.
  - destruct He. by split.
  - intros _. by split.
Qed.

(** ** Opening a build *)

Lemma csrOffsetsOk_zeros limit n : 0 ≤ limit → csrOffsetsOk 0 limit (replicate n 0) = true.
Proof.
  intros Hl. induction n as [|n IH]; [done|]. simpl. by rewrite (proj2 (Z.ltb_ge _ _)), IH by lia.
Qed.

Lemma makeBatchShape_ok s rows er rr shape :
  0 ≤ rows < 2 ^ 32 → 0 ≤ er < 2 ^ 32 → 0 ≤ rr < 2 ^ 32 → makeBatchShape s rows er rr = Some shape →
  schema_ok s ∧ rows < MaxUint32 ∧
  (shSymbols shape = sCounts s !!! 1%nat * rows ∧ shSymbols shape ≤ MaxInt / 4) ∧ shIntegers shape = sCounts s !!! 2%nat * rows ∧
  shBooleans shape = sCounts s !!! 3%nat * WordCount rows ∧ shTimestamps shape = sCounts s !!! 4%nat * rows ∧
  shPresence shape = zlen (sKinds s) * WordCount rows ∧ shRows shape = rows ∧ shOffsets shape = rows + 1 ∧
  shEvidence shape = er ∧ shRefs shape = rr.
Proof.
  intros Hr He Hf. unfold makeBatchShape. destruct (validateFieldIndex s) eqn:Hv; [|done]. apply validateFieldIndex_ok in Hv. simpl.
  destruct (Z.eqb_spec rows MaxUint32) as [|Hne]; [done|]. fold (WordCount rows). unfold MaxUint32 in *.
  destruct (WordCount_bounds rows) as (? & ? & ?); [done|].
  pose proof (λ k H, counts_u32 s Hv k H) as Hc. pose proof (fields_u32 s Hv) as Hk.
  assert (is_u32 (WordCount rows)) as Hw by (unfold is_u32; lia).
  assert (∀ a, is_u32 a → 0 ≤ rows + 1 < 2 ^ 32) as Hr1 by (unfold is_u32; lia).
  intros Hb. repeat (apply bind_Some in Hb as (? & ?E & Hb)). injection Hb as <-. simpl.
  repeat match goal with E : checkedSliceLen ?a ?b ?n = Some _ |- _ =>
    apply checkedSliceLen_Some in E as [-> ?]; [|first [apply Hc; unfold ValueKindSymbol, ValueKindInteger, ValueKindBoolean, ValueKindTimestamp; lia
      | done | unfold is_u32; lia]..] end.
  split_and!; try (done || lia).
Qed.

Lemma length_resizeClear n : 0 ≤ n → zlen (resizeClear n) = n.
Proof. intros. unfold resizeClear, make_. rewrite length_replicate. lia. Qed.

Lemma Begin_ok programs addr rows er rr b b' :
  is_u32 rows → is_u32 er → is_u32 rr → rowBase (batch b) = 0 ∧ rowStride (batch b) = 0 →
  Begin programs (Some addr) rows er rr b = Ok b' →
  building (programs addr) b' ∧ active b' = true ∧ Rows (batch b') = rows ∧ program b' = Some addr ∧
  RequestIDs (batch b') = replicate (Z.to_nat rows) 0 ∧
  ∀ row field, 1 ≤ field ≤ zlen (sKinds (fields b')) → 0 ≤ row < rows → readFact (fields b') (batch b') row field = None.
Proof.
  unfold is_u32. intros Hr He Hf Hbase H. unfold Begin in H. apply go_bind_inv in H as ([] & _ & H).
  destruct (makeBatchShape _ rows er rr) as [shape|] eqn:E; [|done].
  apply makeBatchShape_ok in E as (Hok & Hlt & (Hsy & Hmax) & Hiv & Hbv & Htv & Hpm & Hrw & Hof & Hev & Hrf); [|done..].
  assert (is_u32 rows) as Hru by done. destruct (WordCount_bounds rows Hru) as (? & ? & ?).
  pose proof (λ k Hk, counts_u32 _ Hok k Hk) as Hc. unfold is_u32 in Hc.
  pose proof (Hc 1%nat ltac:(lia)). pose proof (Hc 2%nat ltac:(lia)). pose proof (Hc 3%nat ltac:(lia)). pose proof (Hc 4%nat ltac:(lia)).
  injection H as <-.
  assert (shaped (FieldIndex (programs addr))
    {| SymbolValues := resizeClear (shSymbols shape); bIntegerValues := resizeClear (shIntegers shape);
       bTimestampValues := resizeClear (shTimestamps shape); bBooleanValues := resizeClear (shBooleans shape);
       PresenceMasks := resizeClear (shPresence shape); RequestIDs := resizeClear (shRows shape);
       EvidenceOffsets := resizeClear (shOffsets shape); EvidenceRefs := resizeClear (shRefs shape);
       Evidence := resizeEvidence (shEvidence shape); Rows := rows; rowBase := rowBase (batch b); rowStride := rowStride (batch b) |}) as Hs.
  { split; simpl; rewrite ?length_resizeClear by nia; try (done || lia). split_and!; [done|done|]. by apply Forall_replicate. }
  split_and!; try done; simpl; [|by rewrite Hrw|].
  - split; simpl; [done|done|done| |].
    + split; unfold evidenceRows; simpl; [by split_and!|by apply Forall_replicate].
    + intros Hcsr%Z.eqb_eq. rewrite Hrf, Hcsr, Hof. unfold resizeClear, make_.
      split; simpl; rewrite ?length_replicate; try done.
      * by rewrite lookup_total_replicate_2 by lia.
      * by rewrite lookup_total_replicate_2 by lia.
      * rewrite drop_replicate. by apply csrOffsetsOk_zeros.
  - intros row field Hfd Hrow. set (t := {| SymbolValues := _ |}) in *.
    destruct (field_cell_exists _ Hok field Hfd) as (kind & column & Hcell).
    rewrite (readFact_raw _ Hok t row field kind column) by done.
    destruct (word_bound _ t Hs (zlen (sKinds (FieldIndex (programs addr)))) (field - 1) row) as (_ & _ & ? & _ & _ & Hin);
      [by apply fields_u32|lia|done|].
    assert (planeBit t (PresenceMasks t) (field - 1) row = false) as ->; [|done].
    unfold planeBit. change (PresenceMasks t) with (replicate (Z.to_nat (shPresence shape)) 0). apply rowBit_replicate0.
    pose proof (row_split (Z.to_nat row)) as [? ?]. change (Rows t) with rows in *. rewrite Hpm, Z2Nat.inj_mul, Nat2Z.id by lia. nia.
Qed.

(** ** A build as a sequence of calls *)

Inductive bcall :=
  | CallFact (row field : Z) (v : fact)
  | CallRequest (row id : Z)
  | CallEvidence (row : Z) (record : EvidenceRecord)
  | CallCSR (offsets refs : list Z)
  | CallSymbol (value : bytes).

Definition bcall_typed (c : bcall) : Prop :=
  match c with
  | CallFact row field v => 0 ≤ row ∧ 0 ≤ field ∧ fact_typed v
  | CallRequest row id => 0 ≤ row
  | CallEvidence row record => 0 ≤ row ∧ is_u32 (rState record)
  | CallCSR offsets refs => Forall is_u32 refs
  | CallSymbol value => Forall is_byte value ∧ zlen value ≤ MaxInt
  end.

(** The result of a call and the builder it leaves, also on an error. *)
Definition answered (b : Builder) (r : go Builder) : go unit * Builder :=
  match r with Ok b' => (Ok tt, b') | Err e => (Err e, b) | Panic m => (Panic m, b) end.

Definition bstep (programs : Z → Program) (c : bcall) (b : Builder) : go unit * Builder :=
  match c with
  | CallFact row field v => answered b (setFact row field v b)
  | CallRequest row id => answered b (SetRequestID row id b)
  | CallEvidence row record => answered b (SetEvidence row record b)
  | CallCSR offsets refs => answered b (SetEvidenceCSR offsets refs b)
  | CallSymbol value => let (r, b') := InternSymbol programs value b in ((λ _, tt) <$> r, b')
  end.

(** What was successfully written: the last fact per field and row, the last ID per row. *)
Record written := { facts : gmap (Z * Z) fact; requestIDs : gmap Z Z }.

Definition record_call (c : bcall) (r : go unit) (w : written) : written :=
  match r, c with
  | Ok _, CallFact row field v => {| facts := <[(field, row) := v]> (facts w); requestIDs := requestIDs w |}
  | Ok _, CallRequest row id => {| facts := facts w; requestIDs := <[row := id]> (requestIDs w) |}
  | _, _ => w
  end.

Fixpoint build (programs : Z → Program) (cs : list bcall) (b : Builder) (w : written) : list (go unit) * Builder * written :=
  match cs with
  | [] => ([], b, w)
  | c :: cs =>
      let (r, b') := bstep programs c b in
      let '(rs, b'', w') := build programs cs b' (record_call c r w) in (r :: rs, b'', w')
  end.

(** The batch under construction holds what was written. *)
Record reflects (rows : Z) (b : Builder) (w : written) : Prop := {
  rf_facts row field : 1 ≤ field ≤ zlen (sKinds (fields b)) → 0 ≤ row < rows → readFact (fields b) (batch b) row field = facts w !! (field, row);
  rf_requests row : 0 ≤ row < rows → RequestIDs (batch b) !! Z.to_nat row = Some (default 0 (requestIDs w !! row))
}.

(** ** Symbols of a build *)

(** The program's namespace, and above it the distinct request spellings [ks]
    the program does not know. *)
Record named (programs : Z → Program) (b : Builder) (ks : list bytes) : Prop := {
  nm_program addr : program b = Some addr → frozen_ok (programs addr) ∧
    SymbolSpace (findSymbol (programs addr)) (Symbol (programs addr)) (symbolBase b);
  nm_extension : Interner.interns (extension b) ks;
  nm_fresh addr k : program b = Some addr → k ∈ ks → findSymbol (programs addr) k = None;
  nm_bound : 0 ≤ symbolBase b ∧ symbolBase b + zlen ks ≤ MaxUint32
}.

Section symbols.
Context (programs : Z → Program).

(** The ID a spelling has in a build. *)
Definition builderFind (b : Builder) (v : bytes) : option Z :=
  match program b with
  | None => None
  | Some addr =>
      match findSymbol (programs addr) v with
      | Some id => Some id
      | None => (λ local, symbolBase b + local) <$> Interner.find (extension b) v
      end
  end.

(** The program's IDs and the extension's IDs above them form one namespace. *)
Lemma builder_space b ks addr :
  named programs b ks → program b = Some addr → SymbolSpace (builderFind b) (BuilderSymbol programs b) (symbolBase b + zlen ks).
Proof.
  intros [Hp He Hf [Hb0 Hb]] Ep. destruct (Hp addr Ep) as [_ Hsp]. pose proof (Interner.interner_space _ _ He) as Hse.
  unfold Interner.Len in Hse. rewrite (Interner.in_count _ _ He) in Hse.
  assert (∀ id, 0 ≤ id → BuilderSymbol programs b id =
    if id =? 0 then None else if id <=? symbolBase b then Symbol (programs addr) id else Interner.Bytes (extension b) (id - symbolBase b)) as Htext.
  { intros id _. unfold BuilderSymbol. by rewrite Ep. }
  split.
  - intros id Hid. rewrite Htext by done. destruct (Z.eqb_spec id 0) as [->|]; [split; [by intros []|lia]|].
    destruct (Z.leb_spec id (symbolBase b)).
    + rewrite (space_ids (SymbolSpace := Hsp)) by done. lia.
    + rewrite (space_ids (SymbolSpace := Hse)) by lia. lia.
  - intros v id. unfold builderFind. rewrite Ep. destruct (findSymbol (programs addr) v) as [pid|] eqn:Hpf.
    + destruct (space_range (space := Hsp) v pid Hpf) as [Hr Ht]. split.
      * intros [= <-]. split; [lia|]. rewrite Htext, (proj2 (Z.eqb_neq _ _)), (proj2 (Z.leb_le _ _)) by lia. done.
      * intros [Hid Hv]. rewrite Htext in Hv by done. destruct (Z.eqb_spec id 0); [done|]. destruct (Z.leb_spec id (symbolBase b)).
        -- f_equal. eapply (space_inj (space := Hsp)); [..|done|done]; lia.
        -- exfalso. rewrite (Interner.Bytes_ok _ _ _ He) in Hv. apply nth_symbol_Some in Hv as [_ Hv].
           rewrite (Hf addr v Ep) in Hpf; [done|]. by eapply list_elem_of_lookup_2.
    + rewrite fmap_Some. setoid_rewrite (space_find (SymbolSpace := Hse)). split.
      * intros (local & [Hl Ht] & ->). split; [lia|].
        assert (1 ≤ local ≤ zlen ks) by (apply (space_ids (SymbolSpace := Hse)); [done|by exists v]).
        rewrite Htext, (proj2 (Z.eqb_neq _ _)), (proj2 (Z.leb_gt _ _)) by lia. by replace (symbolBase b + local - symbolBase b) with local by lia.
      * intros [Hid Hv]. rewrite Htext in Hv by done. destruct (Z.eqb_spec id 0); [done|]. destruct (Z.leb_spec id (symbolBase b)).
        -- by destruct (space_absent (space := Hsp) v id Hpf Hid).
        -- exists (id - symbolBase b). split_and!; [lia|done|lia].
Qed.

Lemma InternSymbol_ok b ks addr v :
  named programs b ks → program b = Some addr → active b = true → Forall is_byte v → zlen v ≤ MaxInt →
  let (r, b') := InternSymbol programs v b in
  (∃ ks', named programs b' ks' ∧ ks `prefix_of` ks' ∧
    match r with
    | Ok id => builderFind b' v = Some id
    | Err e => e = ErrBatchTooLarge ∧ builderFind b v = None
    | Panic _ => False
    end) ∧ same_build {| program := program b; batch := batch b; extension := extension b'; fields := fields b; symbolBase := symbolBase b;
                         csrReady := csrReady b; active := active b |} b' ∧ batch b' = batch b ∧ csrReady b' = csrReady b.
Proof.
  intros Hn Ep Ha Hv Hz. pose proof Hn as [Hp He Hf [Hb0 Hb]]. destruct (Hp addr Ep) as [Hfz Hsp]. unfold InternSymbol. rewrite Ep, Ha. simpl.
  destruct (LookupSymbol_ok (programs addr) v Hfz) as (r & Hr & Hrm). rewrite Hr.
  assert (findSymbol (programs addr) v = r) as Hfind by (unfold findSymbol; by rewrite Hr). unfold MaxUint32 in Hb.
  destruct r as [id|].
  { split; [|by split_and!]. exists ks. split; [done|]. split; [done|].
    destruct (space_range (space := Hsp) v id Hfind) as [? _]. rewrite (proj2 (Z.ltb_ge _ _)) by lia. unfold builderFind. by rewrite Ep, Hfind. }
  rewrite (Interner.Lookup_ok _ _ v He). destruct (Interner.position ks v) as [local|] eqn:Epos.
  { split; [|by split_and!]. exists ks. split; [done|]. split; [done|].
    pose proof Epos as Hl. apply Interner.position_Some, nth_symbol_range in Hl; [|apply He].
    rewrite u64_small by (unfold is_u64; lia). rewrite (proj2 (Z.ltb_ge _ _)) by (unfold MaxUint32; lia).
    unfold builderFind, Interner.find. by rewrite Ep, Hfind, (Interner.Lookup_ok _ _ v He), Epos. }
  assert (builderFind b v = None) as Hnone.
  { unfold builderFind, Interner.find. by rewrite Ep, Hfind, (Interner.Lookup_ok _ _ v He), Epos. }
  unfold Interner.Len. rewrite (Interner.in_count _ _ He).
  rewrite (u64_small (zlen ks + 1)) by (unfold is_u64; lia). rewrite (u64_small (symbolBase b + (zlen ks + 1))) by (unfold is_u64; lia).
  destruct (Z.ltb_spec MaxUint32 (symbolBase b + (zlen ks + 1))) as [|Hroom]; [split; [by exists ks|by split_and!]|].
  destruct (Interner.Intern_ok _ _ v He Hv Hz) as (ext' & -> & He'). unfold Interner.internSpec in *. rewrite Epos in *.
  destruct (MaxUint32 <? zlen (concat ks) + zlen v); simpl in *; (split; [|by split_and!]).
  { exists ks. split; [|done]. split; simpl; [by intros ? [= <-]|done|intros ? k [= <-]; by apply Hf|unfold MaxUint32; lia]. }
  exists (ks ++ [v]). split; [|split; [by exists [v]|]].
  - split; simpl; [by intros ? [= <-]|done| |rewrite length_app; simpl; unfold MaxUint32 in *; lia].
    intros ? k [= <-] [Hk|Hk]%elem_of_app; [by apply Hf|]. by apply list_elem_of_singleton in Hk as ->.
  - unfold builderFind, Interner.find. simpl. rewrite Hfind, (Interner.Lookup_ok _ _ v He').
    assert (Interner.position (ks ++ [v]) v = Some (zlen ks + 1)) as ->.
    { apply Interner.position_Some; [apply He'|]. by rewrite nth_symbol_app, bool_decide_eq_true_2. }
    simpl. unfold MaxUint32 in *. rewrite u64_small by (unfold is_u64; lia). by rewrite u32_small by (unfold is_u32; lia).
Qed.
End symbols.

(** ** Invariant of a build *)

(** An open build of [rows] rows for the program at [addr]. *)
Record open_build (programs : Z → Program) (addr rows : Z) (b : Builder) (w : written) (ks : list bytes) : Prop := {
  ob_building : building (programs addr) b;
  ob_named : named programs b ks;
  ob_program : program b = Some addr;
  ob_active : active b = true;
  ob_rows : Rows (batch b) = rows;
  ob_reflects : reflects rows b w
}.

Definition not_panic {A} (r : go A) : Prop := match r with Panic _ => False | _ => True end.

Lemma named_same programs b b' ks : same_build b b' → named programs b ks → named programs b' ks.
Proof.
  intros [Hp He _ Hb _ _] [H1 H2 H3 H4]. by split; rewrite ?Hp, ?He, ?Hb.
Qed.

(** A call that keeps the build and what it reflects. *)
Lemma open_build_keep programs addr rows b b' w ks :
  open_build programs addr rows b w ks → same_build b b' → building (programs addr) b' → RequestIDs (batch b') = RequestIDs (batch b) →
  (∀ row field, readFact (fields b) (batch b') row field = readFact (fields b) (batch b) row field) → open_build programs addr rows b' w ks.
Proof.
  intros [Hb Hn Hp Ha Hr [Hf Hq]] Hsame Hb' Hreq Hread. pose proof Hsame as [Ep _ Ef _ Ea Er].
  split; [done|by eapply named_same|congruence|congruence|congruence|]. split; rewrite ?Ef, ?Hreq; [|done].
  intros row field. rewrite Hread. apply Hf.
Qed.

Lemma open_build_fact programs addr rows b b' w ks row field v :
  open_build programs addr rows b w ks → 0 ≤ row → fact_written b b' row field v →
  open_build programs addr rows b' {| facts := <[(field, row) := v]> (facts w); requestIDs := requestIDs w |} ks.
Proof.
  intros [Hb Hn Hp Ha Hr [Hf Hq]] Hrow Hw. pose proof Hw as [Hsame _ Hreq _ _ _ Hread]. pose proof Hsame as [Ep _ Ef _ Ea Er].
  split; [by eapply building_fact|by eapply named_same|congruence|congruence|congruence|].
  split; rewrite ?Ef, ?Hreq; simpl; [|done]. intros row' field' Hf' Hr'. rewrite Hread by (done || lia).
  case_bool_decide as E; [destruct E as [-> ->]; by rewrite lookup_insert_eq|].
  rewrite lookup_insert_ne by naive_solver. by apply Hf.
Qed.

Lemma open_build_request programs addr rows b b' w ks row id :
  open_build programs addr rows b w ks → 0 ≤ row → building (programs addr) b' → same_build b b' → row < Rows (batch b) →
  RequestIDs (batch b') = <[Z.to_nat row := id]> (RequestIDs (batch b)) →
  (∀ row field, readFact (fields b) (batch b') row field = readFact (fields b) (batch b) row field) →
  open_build programs addr rows b' {| facts := facts w; requestIDs := <[row := id]> (requestIDs w) |} ks.
Proof.
  intros [Hb Hn Hp Ha Hr [Hf Hq]] Hrow Hb' Hsame Hlt Hreq Hread. pose proof Hsame as [Ep _ Ef _ Ea Er].
  split; [done|by eapply named_same|congruence|congruence|congruence|]. split; rewrite ?Ef; simpl.
  - intros row' field'. rewrite Hread. apply Hf.
  - intros row' Hr'. rewrite Hreq. pose proof (sh_requests _ _ (bu_shaped _ _ Hb)). destruct (decide (row' = row)) as [->|Hne].
    + rewrite list_lookup_insert_eq, lookup_insert_eq by lia. done.
    + rewrite list_lookup_insert_ne, lookup_insert_ne by lia. by apply Hq.
Qed.

Lemma bstep_ok programs addr rows c b w ks :
  open_build programs addr rows b w ks → bcall_typed c →
  let (r, b') := bstep programs c b in
  not_panic r ∧ ∃ ks', open_build programs addr rows b' (record_call c r w) ks' ∧ ks `prefix_of` ks'.
Proof.
  intros Ho Hc. pose proof (ob_building _ _ _ _ _ _ Ho) as Hb.
  destruct c as [row field v|row id|row record|offsets refs|v]; simpl in *.
  - destruct Hc as (Hr & Hf & Hv). pose proof (setFact_ok b row field (bu_schema _ _ Hb) (bu_shaped _ _ Hb) Hr Hf v Hv) as Hset.
    destruct (setFact row field v b) as [b'|e|m]; simpl in *; [|by split; [|exists ks]|done]. split; [done|].
    exists ks. split; [by eapply open_build_fact|done].
  - pose proof (SetRequestID_ok _ _ row id Hb Hc) as Hset. destruct (SetRequestID row id b) as [b'|e|m]; simpl in *; [|by split; [|exists ks]|done].
    split; [done|]. destruct Hset as (Hb' & Hsame & _ & Hlt & Hreq & Hread). exists ks. split; [by eapply open_build_request|done].
  - destruct Hc as [Hr Hs]. pose proof (SetEvidence_ok _ _ row record Hb Hr Hs) as Hset.
    destruct (SetEvidence row record b) as [b'|e|m]; simpl in *; [|by split; [|exists ks]|done]. split; [done|]. destruct Hset as (? & ? & ? & ?).
    exists ks. split; [by eapply open_build_keep|done].
  - pose proof (SetEvidenceCSR_ok _ _ offsets refs Hb Hc) as Hset.
    destruct (SetEvidenceCSR offsets refs b) as [b'|e|m]; simpl in *; [|by split; [|exists ks]|done]. split; [done|]. destruct Hset as (? & ? & ? & ?).
    exists ks. split; [by eapply open_build_keep|done].
  - destruct Hc as [Hv Hz]. destruct Ho as [_ Hn Hp Ha Hr [Hf Hq]].
    pose proof (InternSymbol_ok programs b ks addr v Hn Hp Ha Hv Hz) as Hset.
    destruct (InternSymbol programs v b) as [r b']. destruct Hset as ((ks' & Hn' & Hpre & Hm) & [Ep _ Ef _ Ea _] & Eb & Ec). simpl in *.
    split; [by destruct r|]. exists ks'. split; [|done].
    assert (open_build programs addr rows b' w ks') as Ho'.
    { split; [|done|congruence|congruence|congruence|]; [|split; by rewrite Ef, Eb || rewrite Eb].
      destruct Hb as [H1 H2 H3 H4 H5]. split; rewrite ?Ef, ?Eb, ?Ec; done. }
    by destruct r.
Qed.

Lemma build_ok programs addr rows cs b w ks :
  open_build programs addr rows b w ks → Forall bcall_typed cs →
  let '(rs, b', w') := build programs cs b w in
  Forall not_panic rs ∧ ∃ ks', open_build programs addr rows b' w' ks' ∧ ks `prefix_of` ks'.
Proof.
  intros Ho Hcs. revert b w ks Ho. induction Hcs as [|c cs Hc _ IH]; intros b w ks Ho; simpl.
  { split; [constructor|]. by exists ks. }
  pose proof (bstep_ok programs addr rows c b w ks Ho Hc) as Hst. destruct (bstep programs c b) as [r b'].
  destruct Hst as (Hr & ks1 & Ho1 & Hp1). specialize (IH b' (record_call c r w) ks1 Ho1).
  destruct (build programs cs b' _) as [[rs b''] w']. destruct IH as (Hrs & ks2 & Ho2 & Hp2).
  split; [by constructor|]. exists ks2. split; [done|]. by etrans.
Qed.

(** ** From [Begin] to [Finish] *)

(** The symbol columns a compiled program has. *)
Record compiled_symbols (pr : Program) : Prop := {
  cy_frozen : frozen_ok pr;
  cy_space : SymbolSpace (findSymbol pr) (Symbol pr) (ProgramSymbolCount pr);
  cy_count : is_u32 (ProgramSymbolCount pr)
}.

(** A builder at rest: new, finished or aborted. *)
Definition reusable (b : Builder) : Prop :=
  (rowBase (batch b) = 0 ∧ rowStride (batch b) = 0) ∧ ∃ ks, Interner.interns (extension b) ks.

Lemma reusable_zero : reusable zeroBuilder.
Proof. split; [done|]. exists []. apply Interner.interns_zero. Qed.

Definition nothing : written := {| facts := ∅; requestIDs := ∅ |}.

Lemma Begin_opens programs addr rows er rr b b' :
  reusable b → compiled_symbols (programs addr) → is_u32 rows → is_u32 er → is_u32 rr →
  Begin programs (Some addr) rows er rr b = Ok b' → open_build programs addr rows b' nothing [].
Proof.
  intros [Hbase [ks Hks]] [Hf Hsp Hc] Hr He Hrf H.
  destruct (Begin_ok programs addr rows er rr b b' Hr He Hrf Hbase H) as (Hb & Ha & Hrows & Hp & Hreq & Hread).
  assert (extension b' = Interner.Reset (extension b) ∧ symbolBase b' = ProgramSymbolCount (programs addr)) as [Ee Es].
  { unfold Begin in H. apply go_bind_inv in H as ([] & _ & H). destruct (makeBatchShape _ _ _ _); [|done]. by injection H as <-. }
  unfold is_u32 in *. split; [done| |done|done|done|].
  - split; rewrite ?Ee, ?Es, ?Hp.
    + by intros ? [= <-].
    + by eapply Interner.interns_reset.
    + intros ? k _ Hk. by apply not_elem_of_nil in Hk.
    + simpl. unfold MaxUint32. lia.
  - split; simpl.
    + intros row field Hfd Hrow. rewrite Hread by done. by rewrite lookup_empty.
    + intros row Hrow. rewrite Hreq, lookup_replicate_2 by lia. by rewrite lookup_empty.
Qed.

Lemma Finish_ok pr b :
  building pr b → active b = true →
  match Finish b with
  | Ok (t, b') => t = batch b ∧ b' = seal b ∧ csr_ok t ∧ Forall (λ id, id ≠ 0) (RequestIDs t) ∧
      ∀ i, (i < evidenceRows t)%nat → eIDs (Evidence t) !!! i ≠ 0 ∧ eKinds (Evidence t) !!! i ≠ 0 ∧ eStates (Evidence t) !!! i ≠ 0
  | Err e => e = ErrIncompleteBatch
  | Panic _ => False
  end.
Proof.
  intros [_ _ _ He Hc] Ha. unfold Finish, check. rewrite Ha. simpl.
  destruct (forallb _ (RequestIDs (batch b))) eqn:Hreq; simpl; [|done]. case_bool_decide; simpl; [|done].
  destruct (forallb _ (seq 0 _)) eqn:Hev; simpl; [|done]. destruct (csrReady b) eqn:Hcsr; simpl; [|done].
  split_and!; [done|done|by apply Hc| |].
  - apply Forall_forall. intros id Hid. rewrite forallb_forall in Hreq. apply list_elem_of_In, Hreq in Hid.
    by apply Z.eqb_neq, negb_true_iff.
  - intros i Hi. apply (forallb_seq _ _ i) in Hev; [|done]. cbv beta in Hev. rewrite !negb_orb, !andb_true_iff, !negb_true_iff, !Z.eqb_neq in Hev. naive_solver.
Qed.

(** ** The executor's view *)

Lemma validExecutionColumnLength_ok n columns stride :
  is_u32 columns → is_u32 stride → n = columns * stride → validExecutionColumnLength n columns stride = true.
Proof.
  unfold is_u32, validExecutionColumnLength. intros Hc Hs ->. apply andb_true_intro. split.
  - destruct (Z.eqb_spec columns 0); [done|]. simpl. apply Z.leb_le, Z.div_le_lower_bound; [lia|]. unfold MaxUint64. nia.
  - rewrite u64_small by (unfold is_u64; nia). apply Z.eqb_refl.
Qed.

Lemma built_columns pr b : building pr b → validExecutionBatchColumns pr (batch b) = true.
Proof.
  intros [Hf Hok Hs _ _]. destruct (shaped_words _ _ Hs) as (Hu & Hsr & Hsw & _ & _ & Hv).
  destruct (WordCount_bounds _ Hu) as (? & ? & ?). pose proof (counts_u32 _ Hok) as Hc. pose proof (fields_u32 _ Hok) as Hk. rewrite Hf in *.
  assert (is_u32 (WordCount (Rows (batch b)))) by (unfold is_u32 in *; lia).
  unfold validExecutionBatchColumns. rewrite Hv, Hsr, Hsw. simpl. destruct Hs as [_ _ (? & _) ? ? ? ? _ _].
  rewrite !validExecutionColumnLength_ok by first [done | apply Hc; lia]. done.
Qed.

Lemma built_typed pr b : building pr b → csr_ok (batch b) → input_typed (batch b).
Proof.
  intros [_ _ Hs He _] Hc. destruct (shaped_words _ _ Hs) as (Hu & _). destruct Hs as [_ [Hb0 Hs0] (_ & Hm & Hsy) _ _ _ _ _ _].
  split; [split; rewrite ?Hb0, ?Hs0; done|done|done|]. split; [done|apply Hc|apply He].
Qed.

(** The kinds and states of the records are in the program's catalogs. *)
Definition in_catalog (pr : Program) (t : Batch) : Prop :=
  ∀ i, (i < evidenceRows t)%nat →
    eKinds (Evidence t) !!! i ≤ zlen (EvidenceKindNames pr) ∧ eStates (Evidence t) !!! i ≤ zlen (EvidenceStateNames pr).

Lemma csrOffsetsOk_row previous limit l i :
  csrOffsetsOk previous limit l = true → (i < length l)%nat → (previous :: l) !!! i ≤ l !!! i ≤ limit.
Proof.
  revert previous i. induction l as [|x l IH]; intros previous i; simpl; [lia|].
  rewrite andb_true_iff, negb_true_iff, orb_false_iff, !Z.ltb_ge. intros [[? ?] Hl] Hi.
  destruct i as [|i]; simpl; [done|]. apply (IH x); [done|lia].
Qed.

Lemma built_evidence pr t :
  is_u32 (Rows t) → zlen (RequestIDs t) = Rows t → zlen (EvidenceOffsets t) = Rows t + 1 → evidence_shape t → csr_ok t → in_catalog pr t →
  (∀ i, (i < evidenceRows t)%nat → eIDs (Evidence t) !!! i ≠ 0 ∧ eKinds (Evidence t) !!! i ≠ 0 ∧ eStates (Evidence t) !!! i ≠ 0) →
  validEvidenceBatch t pr = true.
Proof.
  unfold is_u32. intros Hu Hreq Hoff [Hlen _] [H0 Hlast Hord Hrefs _] Hcat Hnz. unfold validEvidenceBatch, in_catalog, evidenceRows in *.
  rewrite Hreq, Hoff, H0, Hlast, u64_small, !Z.eqb_refl by (unfold is_u64; lia).
  rewrite (bool_decide_eq_false_2 (length (EvidenceOffsets t) = 0%nat)) by lia.
  rewrite (bool_decide_eq_true_2 (length (eKinds (Evidence t)) = _ ∧ _)) by done. simpl.
  rewrite !andb_true_iff. split_and!; apply forallb_forall.
  - intros i Hi%in_seq. apply (csrOffsetsOk_row _ _ _ i) in Hord; [|rewrite length_drop; lia].
    rewrite lookup_total_drop in Hord. simpl in Hord.
    assert ((0 :: drop 1 (EvidenceOffsets t)) !!! i = if bool_decide (i = 0%nat) then 0 else EvidenceOffsets t !!! i) as E.
    { destruct i as [|i]; [done|]. simpl. by rewrite lookup_total_drop. }
    rewrite E in Hord. apply negb_true_iff, orb_false_iff. rewrite !Z.ltb_ge. lia.
  - intros ref Hin. rewrite forallb_forall in Hrefs. apply Hrefs, Z.ltb_lt in Hin. apply negb_true_iff, Z.leb_gt. done.
  - intros i Hi%in_seq. destruct (Hcat i) as [? ?]; [lia|]. destruct (Hnz i) as (? & ? & ?); [lia|].
    apply negb_true_iff. rewrite !orb_false_iff, !Z.eqb_neq, !Z.ltb_ge. done.
Qed.

(** ** Properties *)

(** Reading a sealed batch. *)
Record holds (pr : Program) (rows : Z) (t : Batch) (w : written) : Prop := {
  hd_rows : Rows t = rows;
  hd_facts row field : 1 ≤ field ≤ zlen (sKinds (FieldIndex pr)) → 0 ≤ row < rows → readFact (FieldIndex pr) t row field = facts w !! (field, row);
  hd_requests row : 0 ≤ row < rows → RequestIDs t !! Z.to_nat row = requestIDs w !! row
}.

Lemma finished_holds programs addr rows b w ks t b' :
  open_build programs addr rows b w ks → Finish b = Ok (t, b') → holds (programs addr) rows t w.
Proof.
  intros [Hb _ _ Ha Hr [Hf Hq]] E. pose proof (Finish_ok _ _ Hb Ha) as Hfin. rewrite E in Hfin. destruct Hfin as (-> & _ & _ & Hnz & _).
  split; [done|by rewrite <-(bu_fields _ _ Hb)|]. intros row Hrow. rewrite (Hq row Hrow).
  destruct (requestIDs w !! row) as [id|] eqn:Eid; [done|exfalso].
  apply (proj1 (Forall_lookup _ _) Hnz (Z.to_nat row) 0); [|done]. by rewrite (Hq row Hrow), Eid.
Qed.

(** C19: from a successful [Begin] over any sequence of setter, evidence, CSR and symbol
    calls, no call panics and failed calls change nothing; [Finish] either reports an
    incomplete batch or seals a batch whose accessors return, for every field and
    row, the last fact that was successfully set there, or absence, and for every row
    the last request ID set. *)
Theorem built_batch_reads_back (programs : Z → Program) (addr rows er rr : Z) (b b1 : Builder) (cs : list bcall) :
  reusable b → compiled_symbols (programs addr) → is_u32 rows → is_u32 er → is_u32 rr → Forall bcall_typed cs →
  Begin programs (Some addr) rows er rr b = Ok b1 →
  let '(rs, b2, w) := build programs cs b1 nothing in
  Forall not_panic rs ∧
  match Finish b2 with
  | Ok (t, b3) => holds (programs addr) rows t w ∧ reusable b3
  | Err e => e = ErrIncompleteBatch
  | Panic _ => False
  end.
Proof.
  intros Hb Hsy Hr He Hrf Hcs Hbegin. pose proof (Begin_opens _ _ _ _ _ _ _ Hb Hsy Hr He Hrf Hbegin) as Ho.
  pose proof (build_ok _ _ _ cs _ _ _ Ho Hcs) as Hbuild. destruct (build programs cs b1 nothing) as [[rs b2] w].
  destruct Hbuild as (Hrs & ks & Ho2 & _). split; [done|].
  pose proof (Finish_ok _ _ (ob_building _ _ _ _ _ _ Ho2) (ob_active _ _ _ _ _ _ Ho2)) as Hfin.
  destruct (Finish b2) as [[t b3]|e|m] eqn:E; [|done..]. split; [by eapply finished_holds|].
  destruct Hfin as (_ & -> & _). destruct Ho2 as [Hbd Hn _ _ _ _]. split; [apply (sh_base _ _ (bu_shaped _ _ Hbd))|]. by exists ks; apply Hn.
Qed.


(** The IDs of a sequence of spellings. *)
Fixpoint internValues (programs : Z → Program) (vs : list bytes) (b : Builder) : list (go Z) * Builder :=
  match vs with
  | [] => ([], b)
  | v :: vs => let (r, b') := InternSymbol programs v b in let (rs, b'') := internValues programs vs b' in (r :: rs, b'')
  end.

Lemma builderFind_prefix programs b b' ks ks' v id :
  named programs b ks → named programs b' ks' → program b' = program b → symbolBase b' = symbolBase b → ks `prefix_of` ks' →
  builderFind programs b v = Some id → builderFind programs b' v = Some id.
Proof.
  intros Hn Hn' Hp Hb [more ->]. unfold builderFind, Interner.find. rewrite Hp, Hb. destruct (program b) as [addr|]; [|done].
  destruct (findSymbol (programs addr) v); [done|]. pose proof (nm_extension _ _ _ Hn) as He. pose proof (nm_extension _ _ _ Hn') as He'.
  rewrite (Interner.Lookup_ok _ _ v He), (Interner.Lookup_ok _ _ v He'). intros (local & Hl & ->)%fmap_Some.
  apply Interner.position_Some in Hl; [|apply He].
  assert (Interner.position (ks ++ more) v = Some local) as ->; [|done]. apply Interner.position_Some; [apply He'|].
  apply nth_symbol_Some in Hl as [? Hl]. apply nth_symbol_Some. split; [done|]. by apply lookup_app_l_Some.
Qed.

Lemma internValues_ok programs addr vs b ks :
  named programs b ks → program b = Some addr → active b = true → Forall (λ v, Forall is_byte v ∧ zlen v ≤ MaxInt) vs →
  let (rs, b') := internValues programs vs b in
  ∃ ks', named programs b' ks' ∧ ks `prefix_of` ks' ∧ program b' = program b ∧ symbolBase b' = symbolBase b ∧
    Forall2 (λ v r, match r with Ok id => builderFind programs b' v = Some id | Err e => e = ErrBatchTooLarge | Panic _ => False end) vs rs.
Proof.
  intros Hn Hp Ha Hvs. revert b ks Hn Hp Ha. induction Hvs as [|v vs [Hv Hz] _ IH]; intros b ks Hn Hp Ha; simpl.
  { exists ks. split_and!; try done. }
  pose proof (InternSymbol_ok programs b ks addr v Hn Hp Ha Hv Hz) as Hi. destruct (InternSymbol programs v b) as [r b1].
  destruct Hi as ((ks1 & Hn1 & Hpre1 & Hr) & [Ep _ _ Eb Ea _] & _). simpl in *.
  specialize (IH b1 ks1 Hn1 ltac:(congruence) ltac:(congruence)). destruct (internValues programs vs b1) as [rs b2].
  destruct IH as (ks2 & Hn2 & Hpre2 & Ep2 & Eb2 & Hrs). exists ks2.
  split_and!; [done|by etrans|congruence|congruence|]. constructor; [|done].
  destruct r as [id|e|m]; [|naive_solver|done]. by eapply (builderFind_prefix programs b1 b2 ks1 ks2).
Qed.

(** C24: request symbols.  On an open build for a program with a symbol namespace, any
    sequence of [InternSymbol] calls returns IDs in one namespace that extends the
    program's: program spellings keep their program IDs, new spellings get IDs above
    them, [Symbol] returns the bytes of every returned ID, equal spellings have equal
    IDs and different ones different IDs, and the only error is a full namespace or
    arena. *)
Theorem request_symbols_extend_program (programs : Z → Program) (addr rows er rr : Z) (b b1 : Builder) (vs : list bytes) :
  reusable b → compiled_symbols (programs addr) → is_u32 rows → is_u32 er → is_u32 rr →
  Begin programs (Some addr) rows er rr b = Ok b1 → Forall (λ v, Forall is_byte v ∧ zlen v ≤ MaxInt) vs →
  let (rs, b2) := internValues programs vs b1 in
  (∃ n, SymbolSpace (builderFind programs b2) (BuilderSymbol programs b2) n) ∧
  Forall2 (λ v r, match r with
    | Ok id => builderFind programs b2 v = Some id ∧ BuilderSymbol programs b2 id = Some v ∧
        (∀ pid, LookupSymbol (programs addr) v = Ok (Some pid) → id = pid) ∧
        (LookupSymbol (programs addr) v = Ok None → ProgramSymbolCount (programs addr) < id)
    | Err e => e = ErrBatchTooLarge
    | Panic _ => False
    end) vs rs.
Proof.
  intros Hb Hsy Hr He Hrf Hbegin Hvs. pose proof (Begin_opens _ _ _ _ _ _ _ Hb Hsy Hr He Hrf Hbegin) as [_ Hn Hp Ha _ _].
  pose proof (internValues_ok programs addr vs b1 [] Hn Hp Ha Hvs) as Hi. destruct (internValues programs vs b1) as [rs b2].
  destruct Hi as (ks & Hn2 & _ & Ep & Eb & Hrs). rewrite Hp in Ep. pose proof (builder_space programs b2 ks addr Hn2 Ep) as Hspace.
  assert (symbolBase b1 = ProgramSymbolCount (programs addr)) as Ebase.
  { unfold Begin in Hbegin. apply go_bind_inv in Hbegin as ([] & _ & H). destruct (makeBatchShape _ _ _ _); [|done]. by injection H as <-. }
  split; [by eexists|]. eapply Forall2_impl; [exact Hrs|]. intros v [id|e|m]; [|done..]. intros Hf.
  destruct (space_range (space := Hspace) v id Hf) as [_ Ht]. split_and!; [done|done| |].
  - intros pid Hl. unfold builderFind, findSymbol in Hf. rewrite Ep, Hl in Hf. by injection Hf as <-.
  - intros Hl. unfold builderFind, findSymbol in Hf. rewrite Ep, Hl in Hf. apply fmap_Some in Hf as (local & Hl' & ->).
    pose proof (Interner.interner_space _ _ (nm_extension _ _ _ Hn2)) as Hse. apply (space_range (space := Hse)) in Hl' as [? _]. lia.
Qed.
