(* ===== verification/Sample.v ===== *)
(** * A concrete policy

    One small compiled policy and one request batch, on which the hypotheses
    of the general theorems hold.  Requirement 7 applies to gold requests; its
    clause asserts [age >= 18] and [approved] and asks for valid evidence.
    The lemmas at the end instantiate the properties of the other files. *)

From S2P Require Import Prelude Store Truth Schema Result Program Batch Predicate Simd FactIndex Evidence Executor PolicyIndex Finalize Execute ResultRows Range Shard Liveness Schedule SymbolTable Interner Frozen SymbolCheck ScheduleMeaning Admission Lease.
Import Reason.

(** ** The policy *)

Definition sampleInstructions : InstructionColumns := {|
  Opcodes := [OpcodeEqual; OpcodeGreaterEqual; OpcodeEvidence; OpcodeEqual; OpcodeAll];
  Fields := [1; 2; 0; 3; 0];
  Values := [1; 2; 0; 3; 0];
  ListStarts := [0; 0; 0; 0; 0];
  ListCounts := [0; 0; 0; 0; 0];
  OperandStarts := [0; 0; 0; 0; 0];
  OperandCounts := [0; 0; 0; 0; 2];
  EvidenceKinds := [0; 0; 1; 0; 0];
  EvidenceStates := [0; 0; 1; 0; 0];
  EvidenceSubjects := [];
  EvidenceScopes := [];
  EvidenceTimings := [];
  RootFlags := [RootApplicability; 0; RootEvidence; 0; RootAssertion];
  InstructionNodes := [1; 2; 3; 4; 5];
  InstructionSourceStarts := [0; 0; 0; 0; 0];
  InstructionSourceEnds := [0; 0; 0; 0; 0];
  ListValues := [];
  Operands := [2; 4];
  NodeInstructionStarts := [0; 1; 2; 3; 4];
  NodeInstructionCounts := [1; 1; 1; 1; 1];
  NodeInstructionIDs := [1; 2; 3; 4; 5];
  OpcodeRunOpcodes := [];
  OpcodeRunStarts := [];
  OpcodeRunCounts := []
|}.

Definition sampleSlots : SlotColumns :=
  {| TruthSlots := [1; 2; 3; 4; 2]; ReasonSlots := [1; 2; 3; 4; 2]; TruthSlotCount := 4; ReasonSlotCount := 4 |}.

(** Symbols: 1 gold, 2 stale, 3 valid, lowered and frozen as the compiler does. *)
Definition sampleSpellings : list SymbolTable.bytes := [Evidence.bytes "gold"; Evidence.bytes "stale"; Evidence.bytes "valid"].

Definition sampleSymbols : SymbolColumns := Eval vm_compute in
  match '(_, l) ← internAll sampleSpellings (freshLowering 3); freezeSymbolSlots (dst l) with
  | Ok p => p
  | _ => dst (freshLowering 3)
  end.

Definition sampleValues : ValueColumns := {|
  ValueKinds := [ValueKindSymbol; ValueKindInteger; ValueKindBoolean];
  ValueRefs := [1; 1; 1];
  IntegerValues := [18];
  BooleanValues := [1];
  TimestampValues := []
|}.

Definition sampleSemantics : SemanticColumns := {|
  EvidenceKindNames := [1];
  EvidenceStateNames := [3; 2];
  RequirementIDs := [7];
  RequirementRoots := [1];
  RequirementSourceNodeIDs := [1];
  RequirementClauseStarts := [0];
  RequirementClauseCounts := [1];
  RequirementClauseIDs := [1];
  ClauseAssertionRoots := [5];
  ClauseAssertionSourceNodeIDs := [5];
  ClauseEvidenceStarts := [0];
  ClauseEvidenceCounts := [1];
  ClauseEvidenceIDs := [3];
  ClauseEvidenceSourceNodeIDs := [3];
  ClauseOnSatisfied := [1];
  ClauseOnFalse := [2];
  ClauseExplanationIDs := replicate 7 1;
  ClauseRemediationStarts := [0];
  ClauseRemediationCounts := [1];
  ClauseRemediationIDs := [1]
|}.

(** Outcomes: 1 allow, 2 deny (terminal), 3 review. *)
Definition sampleOutcomes : OutcomeTable :=
  {| Names := [1; 2; 3]; Precedence := [1; 5; 3]; Terminal := [false; true; false] |}.

Definition sampleRemediations : RemediationTable :=
  {| Kinds := [RemediationAddEvidence]; rFields := [0]; rValues := [0]; rEvidenceKinds := [1] |}.

Definition sampleResolutions : ResolutionTable := {|
  OutcomeIDs := [3; 3; 3; 3; 3; 3; 3; 2; 2];
  ExplanationIDs := replicate 9 1;
  RemediationStarts := replicate 9 0;
  RemediationCounts := replicate 9 1;
  RemediationIDs := [1]
|}.

Definition sampleResolver : Resolver :=
  {| outcomes := sampleOutcomes; remediations := sampleRemediations; rules := sampleResolutions |}.

Definition samplePolicy : Policy := {|
  pFieldIDs := [1]; FieldValueStarts := [0]; FieldValueCounts := [1]; WildcardMasks := [0]; pValues := [1]; ValueMasks := [1];
  AllMask := [1]; RequirementCount := 1; pWordCount := 1
|}.

Definition sampleSpec : FactSpec :=
  {| fFieldIDs := [1]; fColumns := [0]; ValueStarts := [0]; ValueCounts := [1]; UseCounts := [1]; fValues := [1] |}.

Definition sampleSchema : IndexSchema :=
  {| sKinds := [ValueKindSymbol; ValueKindInteger; ValueKindBoolean]; sColumns := [0; 0; 0]; sCounts := [0; 1; 1; 1; 0; 0] |}.

Definition sampleProgram : Program := {|
  instr := sampleInstructions; slots := sampleSlots; symbols := sampleSymbols; values := sampleValues; semantics := sampleSemantics;
  Explanations := {| RationaleTemplateIDs := [1]; UncertaintyStarts := [0]; UncertaintyCounts := [0]; UncertaintyTemplateIDs := [];
                     AssumptionTemplateIDs := [] |};
  Outcomes_ := sampleOutcomes; RemediationRows := sampleRemediations; Resolutions := sampleResolutions; resolver := sampleResolver;
  ApplicabilityIndex := samplePolicy; FactIndexSpec := sampleSpec; FieldIndex := sampleSchema;
  FieldKinds := [ValueKindSymbol; ValueKindInteger; ValueKindBoolean]
|}.

(** ** Four requests: satisfied; age missing with stale evidence; not gold; under age *)

Definition sampleBatch : Batch := {|
  SymbolValues := [1; 1; 2; 1];
  bIntegerValues := [20; 0; 30; 10];
  bTimestampValues := [];
  bBooleanValues := [15];
  PresenceMasks := [15; 13; 15];
  RequestIDs := [101; 102; 103; 104];
  EvidenceOffsets := [0; 1; 2; 2; 2];
  EvidenceRefs := [0; 1];
  Evidence := {| eIDs := [11; 12]; eKinds := [1; 1]; eStates := [1; 2]; eSubjects := [0; 0]; eScopes := [0; 0]; eReviewers := [0; 0];
                 eTimings := [0; 0]; eTimestamps := [0; 0] |};
  Rows := 4; rowBase := 0; rowStride := 0
|}.

Definition sampleStore : Z → Program := λ _, sampleProgram.
#[global] Existing Instance purego_ops.

(** The policy runs: allow, review, none, deny. *)
Example sample_outcomes :
  match (executeMode sampleStore 0 sampleBatch executionAuto zeroExecutor).1 with
  | Ok out => rbOutcomeIDs out = [1; 3; 0; 2] ∧ rbReasonOffsets out = [0; 0; 2; 2; 2] ∧ rbReasonIDs out = [ReasonMissing; ReasonStale]
  | _ => False
  end.
Proof. vm_compute. done. Qed.

(** ** The hypotheses of the general theorems hold *)

(** Column types of concrete data. *)
Ltac typed := repeat first [done | apply Forall_cons; split | apply Forall_nil; exact I | split | (unfold is_u32, MaxUint16; lia)].

(** Enumerate a concrete index range. *)
Ltac rows i := repeat (destruct i as [|i]; [|try lia]).

Lemma sample_sched_typed : sched_typed sampleProgram.
Proof. split; simpl; typed. Qed.

Lemma sample_sem_typed : sem_typed sampleProgram.
Proof. split; simpl; typed. Qed.

Lemma sample_policy_typed : policy_typed samplePolicy.
Proof. split; simpl; typed; lia. Qed.

Lemma sample_spec_typed : FactIndex.spec_typed sampleSpec.
Proof. split; simpl; typed. Qed.

Lemma sample_schema_typed : schema_typed sampleSchema.
Proof. split; simpl; typed; lia. Qed.

Lemma sample_program_typed : program_typed sampleProgram.
Proof.
  split; [apply sample_sched_typed|apply sample_sem_typed|apply sample_policy_typed|apply sample_spec_typed| |apply sample_schema_typed].
  simpl. typed.
Qed.

Lemma sample_instructions row : (row < length (Opcodes sampleProgram))%nat → instructionOk sampleProgram row = true.
Proof. simpl. intros Hr. rows row; vm_compute; done. Qed.

Lemma sample_resolver_new : Resolve.NewResolver sampleOutcomes sampleRemediations sampleResolutions = Ok sampleResolver.
Proof. vm_compute. done. Qed.

Lemma sample_resolver_typed : Resolve.resolver_typed sampleResolver.
Proof. split; simpl; typed. Qed.

Lemma sample_resolver_ok : Resolve.resolver_ok sampleResolver.
Proof. apply (Resolve.NewResolver_ok _ _ _ _ sample_resolver_new); apply sample_resolver_typed. Qed.

Lemma sample_operands j o : (j < 5)%nat → o ∈ operandsOf sampleProgram j → j = 4%nat ∧ (o = 2 ∨ o = 4).
Proof. intros Hj Ho. rows j; vm_compute in Ho; set_unfold in Ho; [tauto..|]. split; [done|]. tauto. Qed.

Lemma sample_noninterfering : noninterfering sampleProgram.
Proof.
  intros j o Hj Ho. destruct (sample_operands j o Hj Ho) as [-> [-> | ->]]; split; intros k Hk1 Hk2; rows k;
    first [lia | vm_compute; done].
Qed.

Lemma sample_roots_ok : roots_ok sampleProgram.
Proof.
  split.
  - intros root [Hr Hf]. simpl in Hr. assert (root = 1 ∨ root = 2 ∨ root = 3 ∨ root = 4 ∨ root = 5) as Hc by lia.
    destruct_or! Hc; subst; try (vm_compute in Hf; done); split; intros k Hk1 Hk2; simpl in Hk2; rows k; first [lia | vm_compute; done].
  - intros root Hin Hr. simpl in Hin. set_unfold in Hin. destruct Hin as [-> |[]]. done.
  - done.
  - apply sample_resolver_ok.
  - apply sample_resolver_typed.
Qed.

Lemma sample_wf : program_wf sampleProgram.
Proof. split; [apply sample_program_typed|apply sample_instructions|apply sample_noninterfering|apply sample_roots_ok]. Qed.

Lemma sample_batch_typed : batch_typed sampleBatch.
Proof. split; simpl; typed. Qed.

Lemma sample_evidence_typed : evidence_typed sampleBatch.
Proof. split; simpl; typed. Qed.

Lemma sample_input : input_typed sampleBatch.
Proof. split; [apply sample_batch_typed|simpl; typed|vm_compute; done|apply sample_evidence_typed]. Qed.

Lemma sample_columns_ok : columns_ok sampleProgram sampleBatch.
Proof. apply columns_ok_intro; [apply sample_batch_typed|apply sample_schema_typed|vm_compute; done]. Qed.

Lemma sample_facts_typed : facts_typed sampleProgram sampleBatch.
Proof. split; [apply sample_spec_typed|simpl; typed|apply sample_input]. Qed.

Lemma sample_evidence_ok : evidence_ok sampleBatch sampleProgram.
Proof. apply validEvidenceBatch_ok; [apply sample_evidence_typed|vm_compute; done]. Qed.

Lemma sample_valid : validExecutionSemantics sampleProgram = Ok true.
Proof. vm_compute. done. Qed.

Lemma sample_accepts : accepts sampleProgram sampleBatch.
Proof. split; [vm_compute; done|]. split; [vm_compute; done|]. eexists. vm_compute. done. Qed.

Definition sampleEmpty : ResultBatch := {|
  rbOutcomeIDs := []; rbRequirementOffsets := []; rbRequirementIDs := []; rbDriverOffsets := []; rbDriverRequirements := []; rbDriverClauses := [];
  rbDriverNodes := []; rbDriverReasons := []; rbDriverExplanations := []; rbEvidenceOffsets := []; rbEvidenceIDs := []; rbReasonOffsets := [];
  rbReasonIDs := []; rbReasonNodes := []; rbReasonEvidenceIDs := []; rbReasonEvidenceStates := []; rbRemediationOffsets := [];
  rbRemediationIDs := []; rbRows := 0
|}.

Definition sampleResult : ResultBatch := Eval vm_compute in
  match (executeMode sampleStore 0 sampleBatch executionAuto zeroExecutor).1 with Ok out => out | _ => sampleEmpty end.

(** The executor after the run. *)
Definition sampleAfter (mode : executionMode) : Executor := (executeMode sampleStore 0 sampleBatch mode zeroExecutor).2.

Lemma sample_run mode : executeMode sampleStore 0 sampleBatch mode zeroExecutor = (Ok sampleResult, sampleAfter mode).
Proof. destruct mode; vm_compute; done. Qed.

(** ** Instances of the properties *)

(** Seventy rows in two words per plane; the destination is the left operand. *)
Definition samplePlanes (k : nat) : Planes := {| Positive := Slice (4 * k) 2; Negative := Slice (4 * k + 2) 2 |}.
Definition sampleWords : store := [5; 1; 2; 0; 7; 3; 8; 0].

Lemma samplePlanes_wf k : (k < 2)%nat → planes_wf sampleWords (samplePlanes k) 70.
Proof. intros Hk. unfold planes_wf, in_bounds, disjoint_slices. simpl. change (Z.to_nat (WordCount 70)) with 2%nat. lia. Qed.

Lemma samplePlanes_alias : alias_ok (samplePlanes 0) (samplePlanes 0) ∧ alias_ok (samplePlanes 0) (samplePlanes 1).
Proof. split; [by left|right]. unfold disjoint_planes, disjoint_slices. simpl. lia. Qed.

Lemma connectives_rowwise_witness :
  ∃ m, And (samplePlanes 0) (samplePlanes 0) (samplePlanes 1) 70 sampleWords = Ok m ∧
    planes_written sampleWords m (samplePlanes 0) 70
      (λ r, tv_and (planesRow sampleWords (samplePlanes 0) r) (planesRow sampleWords (samplePlanes 1) r)).
Proof.
  apply (connectives_rowwise 70 sampleWords (samplePlanes 0) (samplePlanes 0) (samplePlanes 1));
    [unfold is_u32; lia|apply samplePlanes_wf; lia..|apply samplePlanes_alias|apply samplePlanes_alias].
Defined.

Lemma reason_mask_is_a_set_witness : Has (With 1 ReasonStale) ReasonStale = Has 1 ReasonStale || true.
Proof. destruct (reason_mask_is_a_set 1 2 ReasonStale ReasonStale) as (E & _). rewrite E. reflexivity. Defined.

Definition sampleFields : FieldTable := {| names := [4; 9]; kinds := [ValueKindSymbol; ValueKindInteger]; groups := [1; 2] |}.

Lemma sampleFields_ok : Fields.table_ok sampleFields.
Proof. split; simpl; try done; typed; try lia; repeat constructor; set_solver. Qed.

Lemma AddField_extends_witness :
  Fields.Lookup {| names := [4; 9; 5]; kinds := [ValueKindSymbol; ValueKindInteger; ValueKindBoolean]; groups := [1; 2; 3] |} 5 = Some 3.
Proof. apply (Fields.AddField_extends sampleFields _ 5 ValueKindBoolean 3 3 sampleFields_ok). vm_compute. done. Defined.

Lemma Prefer_is_join_witness : Outcomes.Prefer sampleOutcomes 1 3 = Outcomes.Prefer sampleOutcomes 3 1.
Proof.
  apply (Outcomes.Prefer_is_join sampleOutcomes 1 3 2); right; unfold Outcomes.known; simpl; lia.
Defined.

Lemma Resolve_decisive_row_witness :
  ∃ reason, Resolve.decisive sampleResolver 1 3 reason ∧
    Resolve.Resolve sampleResolver 1 3 = Ok (Some (Resolve.resolution_of sampleResolver 1 reason)).
Proof.
  apply (Resolve.Resolve_decisive_row sampleOutcomes sampleRemediations sampleResolutions sampleResolver 1 3);
    [apply sample_resolver_new|apply sample_resolver_typed|apply sample_resolver_typed|vm_compute; done|lia|done|lia].
Defined.

Lemma purego_mask_kernels_witness :
  Simdops.CompressU32 [0; 0; 0; 9] [5; 6; 7] [true; false; true] = ([5; 7; 0; 9], 2%nat).
Proof. apply (purego_mask_kernels [0; 0; 0; 9] [5; 6; 7] [0] [true; false; true]). vm_compute. done. Defined.

Lemma simd_groups_rowwise_witness :
  match simdTruthAnd (samplePlanes 0) (samplePlanes 0) (samplePlanes 1) 70 sampleWords,
        And (samplePlanes 0) (samplePlanes 0) (samplePlanes 1) 70 sampleWords with
  | Ok m1, Ok m2 => planesRow m1 (samplePlanes 0) 3 = planesRow m2 (samplePlanes 0) 3
  | _, _ => False
  end.
Proof.
  destruct (simdTruthAnd _ _ _ _ _) as [m1| |] eqn:E1; [|vm_compute in E1; done..].
  destruct (And _ _ _ _ _) as [m2| |] eqn:E2; [|vm_compute in E2; done..].
  destruct (simd_groups_rowwise (ops := purego_ops) 70 sampleWords m1 m2 (samplePlanes 0) (samplePlanes 0) (samplePlanes 1) 3) as [HA _];
    [unfold is_u32; lia|apply samplePlanes_wf; lia..|apply samplePlanes_alias|apply samplePlanes_alias| |by apply HA].
  change (Z.to_nat (WordCount 70)) with 2%nat. lia.
Defined.

Lemma leaf_backends_agree_witness :
  ∃ out, evalPredicate {| Positive := Slice 0 1; Negative := Slice 1 1 |} (Slice 0 9) sampleBatch sampleProgram 1 = Ok out ∧
    leaf_spec 4 out (predicateRow sampleProgram sampleBatch 0).
Proof.
  destruct (leaf_backends_agree sampleProgram sampleBatch FactIndex.Reset 0 {| Positive := Slice 0 1; Negative := Slice 1 1 |} (Slice 0 9) []
    executionAuto sample_columns_ok sample_facts_typed ltac:(vm_compute; done) ltac:(by left) ltac:(vm_compute; done) ltac:(vm_compute; done)
    ltac:(vm_compute; done)) as (out & _ & _ & _ & E & _ & _ & S & _).
  by exists out.
Defined.

Lemma fact_index_exact_witness :
  match FactIndex.Build [] sampleSpec (symbolColumns sampleProgram sampleBatch) with
  | Ok (valueRows, _) => FactIndex.all_zero valueRows
  | _ => False
  end.
Proof.
  pose proof (fact_index_exact [] sampleSpec (symbolColumns sampleProgram sampleBatch) sample_spec_typed
    (proj1 (symbolColumns_typed _ _ sample_columns_ok sample_facts_typed)) ltac:(intros x Hx; simpl in Hx; lia)) as Hb.
  destruct (FactIndex.Build [] sampleSpec (symbolColumns sampleProgram sampleBatch)) as [[vr ix]|e|] eqn:E;
    [apply Hb|vm_compute in E; done|apply Hb].
Defined.

Definition samplePredicate : EvidencePredicate := {| epKind := 1; epState := 1; epSubject := 0; epScope := 0; epTiming := 0 |}.

Lemma evidence_leaf_rows_witness :
  ∃ out, evalEvidenceValidated {| Positive := Slice 0 1; Negative := Slice 1 1 |} (Slice 0 9) sampleBatch 0 sampleProgram
      {| boundProgram := Some 0; stateReasons := [0; ReasonStale] |} samplePredicate = Ok out ∧
    leaf_spec 4 out (evidenceRow sampleBatch [0; ReasonStale] samplePredicate).
Proof.
  apply (evidence_leaf_rows {| boundProgram := None; stateReasons := [] |} {| boundProgram := Some 0; stateReasons := [0; ReasonStale] |} 0 sampleProgram
    sampleBatch); [apply sample_evidence_typed|vm_compute; done|vm_compute; done|done|vm_compute; done|simpl; lia|simpl; lia].
Defined.

Lemma evidence_row_explained_witness : (evidenceRow sampleBatch [0; ReasonStale] samplePredicate 1).2 ≠ 0.
Proof.
  apply (evidence_row_explained sampleProgram sampleBatch [0; ReasonStale] samplePredicate 1 sample_evidence_ok); [|vm_compute; done].
  split; [done|typed].
Defined.

(** Scratch slabs of the sizes reserved for four rows and four slots. *)
Definition sampleTruth : store := replicate 8 0.
Definition sampleReason : store := replicate 36 0.

Lemma slot_windows_disjoint_witness :
  ∃ planes, truthSlot sampleProgram sampleTruth 2 4 = Ok planes ∧ planes_wf sampleTruth planes 4.
Proof.
  destruct (slot_windows_disjoint sampleProgram 4 sampleTruth sampleReason 2 3) as (Ht & _); try (vm_compute; done); try (unfold is_u32; simpl; lia).
  destruct Ht as (planes & E & Hwf & _); [vm_compute; done|]. by exists planes.
Defined.

Definition sampleEnv : ExecEnv :=
  {| programAddr := 0; states := {| boundProgram := Some 0; stateReasons := [0; ReasonStale] |}; factIndex := FactIndex.Reset |}.

Lemma sample_reasons_ok : reasons_ok sampleProgram [0; ReasonStale].
Proof. split; [done|typed]. Qed.

Lemma sample_exec_ok : exec_ok sampleProgram sampleBatch sampleEnv.
Proof.
  split; [apply validExecutionSchedule_ok; [apply sample_sched_typed|vm_compute; done]|apply sample_columns_ok|apply sample_facts_typed|by left
         |vm_compute; done|vm_compute; done| |intros _; apply sample_evidence_ok|apply sample_instructions].
  split; [done|apply sample_reasons_ok].
Qed.

Lemma schedule_computes_denotation_witness :
  ∃ st, executeScheduleMode sampleEnv sampleProgram sampleBatch executionSIMD
      {| truthWords := sampleTruth; reasonWords := sampleReason; compareMask := [] |} = Ok st ∧
    readTruth 4 (truthWords st) 2 3 = (denote sampleProgram sampleBatch [0; ReasonStale] 4 3).1.
Proof.
  destruct (schedule_computes_denotation sampleProgram sampleBatch sampleEnv executionSIMD
    {| truthWords := sampleTruth; reasonWords := sampleReason; compareMask := [] |} sample_exec_ok sample_noninterfering) as (st & E & Hd);
    [vm_compute; done|vm_compute; done|].
  exists st. split; [exact E|]. destruct (Hd 4%nat 3%nat) as [Ht _]; [simpl; lia|simpl; lia|]. apply Ht. intros k Hk1 Hk2. simpl in Hk2. lia.
Defined.

Lemma indefinite_values_have_reasons_witness : (denote sampleProgram sampleBatch [0; ReasonStale] 1 1).2 ≠ 0.
Proof.
  apply (indefinite_values_have_reasons sampleProgram sampleBatch [0; ReasonStale] 1 1);
    [apply sample_sched_typed|vm_compute; done|apply sample_reasons_ok|intros _; apply sample_evidence_ok|simpl; lia|right; vm_compute; done].
Defined.

Lemma candidates_exact_witness :
  ∃ out, Candidates samplePolicy [0] [1] [1] = Ok out ∧ rowBit out 0 = candidate samplePolicy [1] [1] 0.
Proof.
  destruct (candidates_exact samplePolicy [0] [1] [1] sample_policy_typed) as (out & E & _ & Hb); try (vm_compute; done).
  exists out. split; [done|]. apply Hb. change (Z.to_nat (WordCount (RequirementCount samplePolicy))) with 1%nat. lia.
Defined.

Lemma execute_outcomes_witness :
  rbOutcomeIDs sampleResult !!! 1%nat = rowOutcome sampleProgram sampleBatch (programReasons sampleProgram) 1 ∧
  csrRow (rbRequirementOffsets sampleResult) (rbRequirementIDs sampleResult) 1 =
    rowRequirements sampleProgram sampleBatch (programReasons sampleProgram) 1.
Proof.
  apply (execute_outcomes sampleStore zeroExecutor (sampleAfter executionAuto) 0 sampleBatch executionAuto sampleResult 1);
    [apply zeroExecutor_ok|apply sample_wf|apply sample_input|apply sample_run|simpl; lia].
Defined.

Lemma execute_drivers_witness :
  csrRow (rbEvidenceOffsets sampleResult) (rbEvidenceIDs sampleResult) 1 = evidenceOf sampleProgram sampleBatch 1.
Proof.
  apply (execute_drivers sampleStore zeroExecutor (sampleAfter executionScalar) 0 sampleBatch executionScalar sampleResult 1);
    [apply zeroExecutor_ok|apply sample_wf|apply sample_input|apply sample_run|simpl; lia].
Defined.

Lemma execute_offsets_witness : offsetsOk 4 (rbReasonOffsets sampleResult) (rbReasonIDs sampleResult).
Proof.
  apply (execute_offsets sampleStore zeroExecutor (sampleAfter executionAuto) 0 sampleBatch executionAuto sampleResult);
    [apply zeroExecutor_ok|apply sample_wf|apply sample_input|apply sample_run].
Defined.

Lemma terminal_outcomes_have_no_remediation_witness :
  csrRow (rbRemediationOffsets sampleResult) (rbRemediationIDs sampleResult) 3 = [].
Proof.
  apply (terminal_outcomes_have_no_remediation sampleStore zeroExecutor (sampleAfter executionAuto) 0 sampleBatch executionAuto sampleResult 3
    {| oName := 2; oPrecedence := 5; oTerminal := true |});
    [apply zeroExecutor_ok|apply sample_wf|apply sample_input|apply sample_run|simpl; lia|vm_compute; done|done].
Defined.

(** A refused batch, then an accepted one: a column is too short. *)
Definition shortBatch : Batch := {|
  SymbolValues := [1]; bIntegerValues := bIntegerValues sampleBatch; bTimestampValues := []; bBooleanValues := [15]; PresenceMasks := [15; 13; 15];
  RequestIDs := RequestIDs sampleBatch; EvidenceOffsets := EvidenceOffsets sampleBatch; EvidenceRefs := EvidenceRefs sampleBatch;
  Evidence := Evidence sampleBatch; Rows := 4; rowBase := 0; rowStride := 0
|}.

Lemma short_input : input_typed shortBatch.
Proof. split; [split; simpl; typed|simpl; typed|vm_compute; done|split; simpl; typed]. Qed.

Definition sampleCalls : list call :=
  [{| clProgram := 0; clBatch := shortBatch; clMode := executionAuto |}; {| clProgram := 0; clBatch := sampleBatch; clMode := executionIndex |}].

Lemma executor_sessions_witness :
  executor_ok sampleStore (session sampleStore sampleCalls zeroExecutor).2.
Proof.
  destruct (executor_sessions sampleStore sampleCalls) as [_ Hok]; [|exact Hok].
  apply Forall_cons; split; [split; [apply sample_wf|apply short_input]|].
  apply Forall_cons; split; [split; [apply sample_wf|apply sample_input]|]. by apply Forall_nil.
Defined.

Lemma execution_modes_agree_witness : sameDecisions sampleResult sampleResult.
Proof.
  exact (execution_modes_agree (ops1 := purego_ops) (ops2 := purego_ops) sampleStore zeroExecutor zeroExecutor _ _ 0 sampleBatch executionScalar
    executionIndex sampleResult sampleResult (zeroExecutor_ok _) (zeroExecutor_ok _) sample_wf sample_input (sample_run _) (sample_run _)).
Defined.

Lemma range_rows_are_source_rows_witness :
  ∃ out e, executeRangeMode sampleStore 0 sampleBatch 0 4 [0; 0; 0; 0; 0] executionAuto zeroExecutor = (Ok out, e) ∧ rbRows out = 4 - 0.
Proof.
  destruct (range_rows_are_source_rows sampleStore zeroExecutor 0 sampleBatch 0 4 [0; 0; 0; 0; 0] executionAuto) as (out & e & outs & E & _ & R & _);
    [apply zeroExecutor_ok|apply sample_wf|apply sample_input|apply sample_valid|vm_compute; done|apply sample_accepts|done|done
    |lia|simpl; lia|done|by right|done|].
  exists out, e. split; [exact E|exact R].
Defined.

(** *** Two shards: sixty-six requests, the last two not gold and under age *)

Definition wideBatch : Batch := {|
  SymbolValues := replicate 64 1 ++ [2; 1];
  bIntegerValues := replicate 64 20 ++ [30; 10];
  bTimestampValues := [];
  bBooleanValues := [MaxUint64; 3];
  PresenceMasks := [MaxUint64; 3; MaxUint64; 3; MaxUint64; 3];
  RequestIDs := map Z.of_nat (seq 200 66);
  EvidenceOffsets := 0 :: replicate 65 1 ++ [2];
  EvidenceRefs := [0; 1];
  Evidence := Evidence sampleBatch;
  Rows := 66; rowBase := 0; rowStride := 0
|}.

Lemma wide_input : input_typed wideBatch.
Proof. split; [split; simpl; typed| |vm_compute; done|split; simpl; typed]. apply Forall_app. split; [by apply Forall_replicate|typed]. Qed.

Lemma wide_accepts : accepts sampleProgram wideBatch.
Proof. split; [vm_compute; done|]. split; [vm_compute; done|]. eexists. vm_compute. done. Qed.

Lemma partition_tiles_batch_witness : tiles 0 (partitionRows 4 66 2) 66 ∧ zlen (partitionRows 4 66 2) = 2.
Proof. apply (partition_tiles_batch 4 66 2 1); [unfold is_u32; lia|done|]. vm_compute. done. Defined.

Definition wideLeases : list (Executor * list Z) := [(zeroExecutor, make_ 65); (sampleAfter executionAuto, make_ 65)].

Lemma sampleAfter_ok : executor_ok sampleStore (sampleAfter executionAuto).
Proof.
  pose proof (executeMode_ok sampleStore zeroExecutor 0 sampleBatch executionAuto (zeroExecutor_ok _) sample_wf sample_input) as Hok.
  rewrite sample_run in Hok. apply Hok.
Qed.

(** Rows without evidence need review; the second shard's rows are not applicable and denied. *)
Example wide_outcomes :
  match schedulerExecute sampleStore 0 wideBatch 4 2 wideLeases with
  | Ok out => drop 62 (rbOutcomeIDs out) = [3; 3; 0; 2] ∧ drop 63 (rbRequirementOffsets out) = [63; 64; 64; 65]
  | _ => False
  end.
Proof. vm_compute. done. Qed.

Lemma sharded_execution_is_serial_witness :
  ∃ sharded serial e', schedulerExecute sampleStore 0 wideBatch 4 2 wideLeases = Ok sharded ∧
    Execute sampleStore 0 wideBatch zeroExecutor = (Ok serial, e') ∧ sameDecisions sharded serial.
Proof.
  apply (sharded_execution_is_serial sampleStore 0 wideBatch 4 2 wideLeases zeroExecutor);
    [apply sample_wf|apply wide_input|apply sample_valid|vm_compute; done|apply wide_accepts|done|done| |apply zeroExecutor_ok].
  change (partitionRows 4 (Rows wideBatch) 2) with [{| rrStart := 0; rrEnd := 64 |}; {| rrStart := 64; rrEnd := 66 |}].
  constructor; [split; [apply zeroExecutor_ok|vm_compute; done]|]. constructor; [split; [apply sampleAfter_ok|vm_compute; done]|constructor].
Defined.


Lemma sample_slots_typed : slots_typed sampleProgram.
Proof. split; simpl; typed. Qed.

Lemma sample_no_dead_code : noDeadCode sampleProgram.
Proof.
  intros k Hk. simpl in Hk. rows k; try (left; vm_compute; done); right; exists 4%nat; (split; [simpl; lia|]); (split; [done|]); vm_compute; set_solver.
Qed.

Lemma assigned_slots_safe_witness : ∃ s, assignSlots sampleProgram slotReuse = Ok s ∧ TruthSlotCount s ≤ 5.
Proof.
  destruct (assigned_slots_safe sampleProgram slotReuse sample_slots_typed) as (s & E & _ & Hc & _); [vm_compute; done|apply sample_no_dead_code|].
  exists s. split; [exact E|exact Hc].
Defined.

Lemma sample_compiled : compiled_ok sampleProgram.
Proof.
  destruct sample_wf as [[] ? ? []]. split; try done; apply sample_slots_typed.
Qed.

Lemma assigned_programs_execute_witness : ∃ s, assignSlots sampleProgram slotRetainAll = Ok s.
Proof.
  destruct (assigned_programs_execute sampleProgram slotRetainAll sampleBatch executionAuto sample_compiled) as (s & E & _);
    [vm_compute; done|apply sample_no_dead_code|apply sample_input|]. exists s. exact E.
Defined.

Lemma free_set_lowest_first_witness : takeLowestFreeSlot [0; 20] 0 = (Some 67, [0; 16], 1%nat) ∧ isFree [0; 20] 67 = true.
Proof.
  pose proof (free_set_lowest_first [0; 20] 0) as Hf. assert (takeLowestFreeSlot [0; 20] 0 = (Some 67, [0; 16], 1%nat)) as E by (vm_compute; done).
  rewrite E in Hf. split; [exact E|]. apply Hf. split; [typed; unfold is_u64; lia|simpl; lia|intros; lia].
Defined.

(** *** Scheduling *)

Lemma sample_schedule_typed : schedule_typed sampleProgram.
Proof.
  split; [apply sample_slots_typed|split; simpl; typed|vm_compute; split; discriminate|vm_compute; split; discriminate|simpl; typed].
Qed.

Lemma scheduling_preserves_meaning_witness : ∃ p' k, scheduleInstructions sampleProgram = Ok p' ∧
  ∀ b reasons r, denote p' b reasons k r = denote sampleProgram b reasons 4 r.
Proof.
  destruct (scheduling_preserves_meaning sampleProgram sample_schedule_typed) as (p' & ord & E & Hp & _ & Hrows & _); [vm_compute; done|vm_compute; done|].
  assert (4%nat ∈ ord) as [k Hk]%list_elem_of_lookup by (rewrite Hp; apply elem_of_seq; simpl; lia).
  exists p', k. split; [exact E|]. apply (Hrows k 4%nat Hk).
Defined.

Lemma scheduled_opcode_runs_witness : ∃ p', scheduleInstructions sampleProgram = Ok p' ∧ total (OpcodeRunCounts p') = 5.
Proof.
  destruct (scheduled_opcode_runs sampleProgram sample_schedule_typed) as (p' & E & Ht & _); [vm_compute; done|vm_compute; done|].
  exists p'. split; [exact E|]. rewrite Ht. assert (match scheduleInstructions sampleProgram with Ok q => zlen (Opcodes q) = 5 | _ => False end) as Hq by (vm_compute; done).
  rewrite E in Hq. exact Hq.
Defined.

Definition scheduledColumns : InstructionColumns := Eval vm_compute in match scheduleInstructions sampleProgram with Ok p => instr p | _ => instr sampleProgram end.
Definition scheduledSample : Program := with_instr sampleProgram scheduledColumns.
Definition scheduledSlots : SlotColumns := Eval vm_compute in match assignSlots scheduledSample slotReuse with Ok s => s | _ => slots sampleProgram end.

Lemma sample_scheduled : scheduleInstructions sampleProgram = Ok scheduledSample ∧ assignSlots scheduledSample slotReuse = Ok scheduledSlots.
Proof. vm_compute. done. Qed.

Example scheduled_sample : Opcodes scheduledSample = [1; 1; 8; 9; 10] ∧ OpcodeRunCounts scheduledSample = [2; 1; 1; 1] ∧ Operands scheduledSample = [3; 2].
Proof. vm_compute. done. Qed.

Lemma scheduled_exec_ok : exec_ok (with_slots scheduledSample scheduledSlots) sampleBatch sampleEnv.
Proof.
  split; [apply validExecutionSchedule_ok; [split; simpl; typed|vm_compute; done]|by destruct sample_columns_ok; split|by destruct sample_facts_typed; split|by left
         |vm_compute; done|vm_compute; done| |intros _; by destruct sample_evidence_ok; split|].
  - split; [done|apply sample_reasons_ok].
  - intros row Hr. simpl in Hr. rows row; vm_compute; done.
Qed.

Definition scheduledScratch : ExecState :=
  {| truthWords := make_ (2 * TruthSlotCount scheduledSlots); reasonWords := make_ (9 * ReasonSlotCount scheduledSlots); compareMask := [] |}.

Lemma scheduled_truth : truthGood (with_slots scheduledSample scheduledSlots) (Rows sampleBatch) (truthWords scheduledScratch).
Proof. vm_compute. done. Qed.

Lemma scheduled_reason : reasonGood (with_slots scheduledSample scheduledSlots) (Rows sampleBatch) (reasonWords scheduledScratch).
Proof. vm_compute. done. Qed.

Lemma backend_preserves_meaning_witness :
  ∃ st' k, executeScheduleMode sampleEnv (with_slots scheduledSample scheduledSlots) sampleBatch executionAuto scheduledScratch = Ok st' ∧
    readTruth 4 (truthWords st') (TruthSlots scheduledSlots !!! k) 3 = (denote sampleProgram sampleBatch [0; ReasonStale] 4 3).1.
Proof.
  destruct (backend_preserves_meaning sampleProgram slotReuse sample_schedule_typed) as (p' & ord & s & E & Hp & Ea & Hx); [vm_compute; done|vm_compute; done|apply sample_no_dead_code|].
  destruct sample_scheduled as [E' Ea']. rewrite E in E'. injection E' as ->. rewrite Ea in Ea'. injection Ea' as ->.
  destruct (Hx sampleBatch sampleEnv executionAuto scheduledScratch scheduled_exec_ok scheduled_truth scheduled_reason) as (st' & Es & Hd).
  assert (4%nat ∈ ord) as [k Hk]%list_elem_of_lookup by (rewrite Hp; apply elem_of_seq; simpl; lia).
  exists st', k. split; [exact Es|]. apply (Hd k 4%nat 3%nat Hk); vm_compute; done.
Defined.

(** *** Context leases *)

Definition sampleArena : Arena := arena oneContext.

(** A borrow alone; a borrow, a claim and a refused return. *)
Definition borrowed : system := default oneContext (run (Call BReceive :: replicate 4 (Step 0)) oneContext).
Definition claimed : system := default oneContext (run (Call (CActive (leaseNo 1)) :: replicate 6 (Step 1)) borrowed).

Lemma oneContext_new : NewArena 7 1 {| InputBytes := 0; OutputBytes := 0; Rows_ := 8 |} = Ok sampleArena.
Proof. done. Qed.

Lemma contexts_owned_once_witness : threads borrowed !! 0%nat ≠ Some (Finished (Panicked "scheduler: duplicate context publication")).
Proof.
  destruct (contexts_owned_once 7 1 _ sampleArena (Call BReceive :: replicate 4 (Step 0)) borrowed oneContext_new) as (os & _ & _ & _ & H); [done|].
  exact (H 0%nat _).
Defined.

Lemma borrowed_owned : ∃ os, owned os borrowed.
Proof.
  destruct (NewArena_owned _ _ _ _ oneContext_new) as [H _].
  destruct (run_owned (Call BReceive :: replicate 4 (Step 0)) _ borrowed _ H) as (os & _ & Ho); [done|]. by exists os.
Qed.

Lemma claimed_owned : ∃ os, owned os claimed.
Proof.
  destruct borrowed_owned as [os H]. destruct (run_owned (Call (CActive (leaseNo 1)) :: replicate 6 (Step 1)) _ claimed _ H) as (os' & _ & Ho); [done|].
  by exists os'.
Qed.

(** A copy of an older lease is returned meanwhile, and output is claimed. *)
Definition otherCalls : list event := Call (RCheck (leaseNo 9)) :: Step 1 :: Call (CActive (leaseNo 1)) :: replicate 6 (Step 2).



Lemma lease_buffers_round_trip_witness : ∃ a, SetInput (arena borrowed) (leaseNo 1) [1; 2] = Ok a ∧ LeaseInputBytes a (leaseNo 1) = Ok [1; 2].
Proof.
  destruct (lease_buffers_round_trip (arena borrowed) (leaseNo 1) 0 [1; 2] [3] [4]) as (a & _ & _ & _ & E1 & E2 & _); [done|done|done|vm_compute; lia|].
  exists a. split; [exact E1|exact E2].
Defined.

(** *** Admission and shutdown *)

Definition twoWorkers : Config := {| cfgCapacity := {| InputBytes := 0; OutputBytes := 0; Rows_ := 8 |}; Workers := 2; QueueDepth := 1; ParallelRows := 64 |}.
Definition idleScheduler : sched := newSched 2 1 64.

(** A call of 128 rows submits two shards; worker 0 takes the first. *)
Definition shardedCall : list Admission.event := Admission.Call 128 :: replicate 9 (Admission.Step 0) ++ [Admission.Worker 0].
(** The shards run, the call returns, and the scheduler is closed. *)
Definition completion : list Admission.event :=
  replicate 4 (Admission.Worker 0) ++ replicate 5 (Admission.Worker 1) ++ replicate 3 (Admission.Step 0) ++
  [CloseCall; Shutdown; Shutdown; Admission.Worker 0; Admission.Worker 1; Shutdown].

Definition busy : sched := default idleScheduler (Admission.run shardedCall idleScheduler).
Definition shut : sched := default idleScheduler (Admission.run completion busy).

Example busy_state : jobs busy = [0%nat] ∧ pool busy = [WShard 0 SBorrow; WIdle] ∧ workTokens busy = 0%nat ∧ xPending <$> calls busy = [2%nat].
Proof. vm_compute. done. Qed.

Lemma busy_reachable : reachable busy.
Proof. exists twoWorkers, idleScheduler, shardedCall. split; vm_compute; done. Qed.

Lemma shut_reachable : reachable shut.
Proof. exists twoWorkers, idleScheduler, (shardedCall ++ completion). split; vm_compute; done. Qed.

Lemma scheduler_resources_witness : is_Some (workerStep 0 (WShard 0 SBorrow) busy).
Proof. destruct (scheduler_resources busy busy_reachable) as (_ & _ & _ & _ & Hw). apply Hw. vm_compute. done. Defined.

Lemma every_call_returns_witness : ∃ evs s', Admission.run evs busy = Some s' ∧ quiet s'.
Proof. destruct (every_call_returns busy busy_reachable) as (_ & evs & s' & _ & Hr & Hq). exists evs, s'. split; [exact Hr|exact Hq]. Defined.

Lemma closed_scheduler_is_drained_witness : workTokens shut = 2%nat ∧ freeContexts shut = 2%nat.
Proof.
  destruct (closed_scheduler_is_drained shut shut_reachable) as (_ & _ & _ & Ht & Hc); [vm_compute; done|].
  split; [exact Ht|exact Hc].
Defined.
