(* ===== verification/SampleBuild.v ===== *)
(** * Concrete builds

    The sample batch built call by call for the sample program, the symbol table of
    that program, and the instances of the properties of symbols and builds. *)

From S2P Require Import Prelude Store Truth Schema Result Program Batch Predicate Simd Evidence Executor PolicyIndex Finalize Execute ResultRows Sample.
From S2P Require Import SymbolTable Interner Frozen SymbolCheck Builder BuilderSession.

(** ** Symbols *)

(** Five spellings, so that the table of four slots is doubled twice. *)
Definition sampleSession : list Interner.call :=
  [Interner.CallIntern [97]; Interner.CallIntern []; Interner.CallIntern [98; 99]; Interner.CallIntern [97]; Interner.CallIntern [100];
   Interner.CallIntern [101]; Interner.CallLookup [98; 99]; Interner.CallLookup [98]; Interner.CallBytes 2; Interner.CallLen; Interner.CallReset;
   Interner.CallLookup [97]; Interner.CallIntern [100]].

Example sample_session_answers :
  Interner.session Interner.step sampleSession Interner.zeroInterner =
  [Interner.GotID (Ok 1); Interner.GotID (Ok 2); Interner.GotID (Ok 3); Interner.GotID (Ok 1); Interner.GotID (Ok 4); Interner.GotID (Ok 5);
   Interner.GotLookup (Ok (Some 3)); Interner.GotLookup (Ok None); Interner.GotBytes (Some []); Interner.GotLen 5; Interner.GotNothing;
   Interner.GotLookup (Ok None); Interner.GotID (Ok 1)].
Proof. vm_compute. done. Qed.

Ltac small_bytes := repeat first [done | apply Forall_cons; split | apply Forall_nil; exact I | split | (unfold is_byte, MaxInt; lia) | (unfold is_byte, MaxInt; simpl; lia)].

Lemma interner_sessions_witness :
  Interner.session Interner.step sampleSession Interner.zeroInterner = Interner.session Interner.stepSpec sampleSession [].
Proof. apply (Interner.interner_sessions 3 sampleSession). unfold sampleSession, Interner.call_typed. small_bytes. Defined.

Lemma sample_symbols_typed : symbols_typed sampleSymbols.
Proof. split; simpl; typed; vm_compute; done. Qed.

Lemma sample_symbols_valid : validateProgramSymbols sampleSymbols = Ok tt.
Proof. vm_compute. done. Qed.

Lemma validated_symbols_exact_witness :
  ∃ r, LookupSymbol sampleSymbols (Evidence.bytes "stale") = Ok r ∧
    match r with
    | Some id => 1 ≤ id ≤ 3 ∧ Symbol sampleSymbols id = Some (Evidence.bytes "stale")
    | None => ∀ id, 0 ≤ id → Symbol sampleSymbols id ≠ Some (Evidence.bytes "stale")
    end.
Proof. apply (validated_symbols_exact sampleSymbols (Evidence.bytes "stale")); [apply sample_symbols_typed|apply sample_symbols_valid]. Defined.

Lemma lowered_symbols_round_trip_witness :
  ∃ ids l p, internAll [[97]; [98]; [97]] (freshLowering 3) = Ok (ids, l) ∧ freezeSymbolSlots (dst l) = Ok p ∧
    SymbolSpace (findSymbol p) (Symbol p) (ProgramSymbolCount p) ∧ Forall2 (λ b id, findSymbol p b = Some id) [[97]; [98]; [97]] ids ∧
    symbols_typed p ∧ validateProgramSymbols p = Ok tt.
Proof. apply (lowered_symbols_round_trip [[97]; [98]; [97]]); vm_compute; done. Defined.

Lemma sample_compiled_symbols : compiled_symbols sampleProgram.
Proof.
  destruct (validated_frozen sampleSymbols sample_symbols_typed sample_symbols_valid) as [Htile Hf].
  split; [done| |simpl; typed]. apply frozen_space; [done| |].
  - intros id. rewrite (tiled_key sampleSymbols) by done. change (ProgramSymbolCount sampleSymbols) with 3.
    change (ProgramSymbolCount sampleProgram) with 3.
    destruct (Z.leb_spec 1 id), (Z.leb_spec id 3); simpl; (split; [intros [b Hb]; done || lia|intros ?; lia || by eexists]).
  - intros id id' b. rewrite !(tiled_key sampleSymbols) by done. change (ProgramSymbolCount sampleSymbols) with 3.
    destruct (Z.leb_spec 1 id), (Z.leb_spec id 3), (Z.leb_spec 1 id'), (Z.leb_spec id' 3); simpl; try (intros; discriminate).
    assert (id = 1 ∨ id = 2 ∨ id = 3) as Hid by lia. assert (id' = 1 ∨ id' = 2 ∨ id' = 3) as Hid' by lia.
    destruct_or! Hid; destruct_or! Hid'; subst; vm_compute; congruence.
Qed.

(** ** A build of the sample batch *)

Definition sampleRecord (id state : Z) : EvidenceRecord :=
  {| rID := id; rKind := 1; rState := state; rSubject := 0; rScope := 0; rReviewer := 0; rTiming := 0; rTimestamp := 0 |}.

(** Among the calls: an overwritten fact, a wrong kind, a row out of range. *)
Definition sampleCalls : list bcall :=
  [CallFact 0 1 (FSymbol 2); CallFact 0 1 (FSymbol 1); CallFact 1 1 (FSymbol 1); CallFact 2 1 (FSymbol 2); CallFact 3 1 (FSymbol 1);
   CallFact 0 2 (FBoolean true); CallFact 9 2 (FInteger 1);
   CallFact 0 2 (FInteger 20); CallFact 2 2 (FInteger 30); CallFact 3 2 (FInteger 10);
   CallFact 0 3 (FBoolean true); CallFact 1 3 (FBoolean true); CallFact 2 3 (FBoolean true); CallFact 3 3 (FBoolean true);
   CallRequest 0 101; CallRequest 1 102; CallRequest 2 103; CallRequest 3 104;
   CallEvidence 0 (sampleRecord 11 1); CallEvidence 1 (sampleRecord 12 2); CallCSR [0; 1; 2; 2; 2] [0; 1]].

Definition sampleBegun : Builder := Eval vm_compute in
  match Begin sampleStore (Some 0) 4 2 2 zeroBuilder with Ok b => b | _ => zeroBuilder end.

Lemma sample_begin : Begin sampleStore (Some 0) 4 2 2 zeroBuilder = Ok sampleBegun.
Proof. vm_compute. done. Qed.

Definition sampleBuilt : list (go unit) * Builder * written := Eval vm_compute in build sampleStore sampleCalls sampleBegun nothing.

Lemma sample_build : build sampleStore sampleCalls sampleBegun nothing = sampleBuilt.
Proof. vm_compute. done. Qed.

(** The calls build the sample batch. *)
Lemma sample_finish : Finish sampleBuilt.1.2 = Ok (sampleBatch, seal sampleBuilt.1.2).
Proof. vm_compute. done. Qed.

Lemma sample_calls_typed : Forall bcall_typed sampleCalls.
Proof. unfold sampleCalls. simpl. typed; lia. Qed.

Lemma built_batch_reads_back_witness :
  ∃ w, holds sampleProgram 4 sampleBatch w ∧ facts w !! (1, 0) = Some (FSymbol 1) ∧ facts w !! (2, 1) = None.
Proof.
  exists sampleBuilt.2.
  pose proof (built_batch_reads_back sampleStore 0 4 2 2 zeroBuilder sampleBegun sampleCalls reusable_zero sample_compiled_symbols
    ltac:(unfold is_u32; lia) ltac:(unfold is_u32; lia) ltac:(unfold is_u32; lia) sample_calls_typed sample_begin) as H.
  rewrite sample_build in H. cbv beta iota zeta delta [sampleBuilt] in H. destruct H as [_ H].
  split; [apply H|vm_compute; done].
Defined.

Lemma sample_in_catalog : in_catalog sampleProgram sampleBatch.
Proof. intros i Hi. unfold evidenceRows in Hi. simpl in Hi. rows i; vm_compute; done. Qed.


Lemma request_symbols_extend_program_witness :
  let values := [Evidence.bytes "stale"; Evidence.bytes "silver"; Evidence.bytes "silver"] in
  ∃ n, SymbolSpace (builderFind sampleStore (internValues sampleStore values sampleBegun).2)
         (BuilderSymbol sampleStore (internValues sampleStore values sampleBegun).2) n.
Proof.
  intros values.
  pose proof (request_symbols_extend_program sampleStore 0 4 2 2 zeroBuilder sampleBegun values reusable_zero sample_compiled_symbols
    ltac:(unfold is_u32; lia) ltac:(unfold is_u32; lia) ltac:(unfold is_u32; lia) sample_begin) as H.
  destruct (internValues sampleStore values sampleBegun) as [rs b2]. apply H. unfold values. simpl. small_bytes.
Defined.

(** A program spelling keeps its ID; a new one gets the next. *)
Example sample_request_symbols :
  (internValues sampleStore [Evidence.bytes "stale"; Evidence.bytes "silver"; Evidence.bytes "silver"] sampleBegun).1 = [Ok 2; Ok 4; Ok 4].
Proof. vm_compute. done. Qed.
