(* ===== verification/SampleLower.v ===== *)
(** * A concrete policy document

    The document of the sample policy, lowered: its expressions contain a nested group
    that is flattened, two literals with the same value and two equal comparisons that
    share an instruction.  The lemmas instantiate the properties of lowering. *)

From S2P Require Import Prelude Store Truth Schema Result Program Batch Predicate Simd FactIndex Evidence Executor PolicyIndex Finalize Execute Liveness Schedule ScheduleMeaning.
From S2P Require Import SymbolTable Interner Frozen SymbolCheck Ast Constants ConstantsMeaning Normalize Compact WalkEnd DocMeaning NormalizeOk WalkOk LowerMeaning Sample.
Import Reason.

(** ** The document *)

(** 1: tier = gold; 2: age >= 18; 3: evidence; 4: approved = true; 5: all(2, 6);
    6: all(4, 9, 7); 7: not 8; 8: age in (30); 9: approved = true. *)
Definition docNodes : NodeColumns := {|
  dNodeKinds := [NodeKindCompare; NodeKindCompare; NodeKindEvidence; NodeKindCompare; NodeKindAll; NodeKindAll; NodeKindNot; NodeKindCompare; NodeKindCompare];
  dNodeRefs := [0; 1; 0; 2; 0; 1; 0; 3; 4];
  dCompareFields := [1; 2; 3; 2; 3];
  dCompareOps := [CompareOpEqual; CompareOpGreaterEqual; CompareOpEqual; CompareOpIn; CompareOpEqual];
  dCompareValues := [1; 2; 3; 0; 4];
  dCompareListStarts := [0; 0; 0; 0; 1];
  dCompareListCounts := [0; 0; 0; 1; 0];
  dListValueIDs := [5];
  dGroupChildStarts := [0; 2];
  dGroupChildCounts := [2; 3];
  dChildNodeIDs := [2; 6; 4; 9; 7];
  dNotChildren := [8];
  dEvidenceKinds := [1]; dEvidenceStates := [1]; dEvidenceSubjects := []; dEvidenceScopes := []; dEvidenceTimings := [];
  dSourceStarts := replicate 9 0; dSourceEnds := replicate 9 1; dInputBytes := [123; 125]
|}.

Definition docLiterals : LiteralColumns := {|
  dValueKinds := [ValueKindSymbol; ValueKindInteger; ValueKindBoolean; ValueKindBoolean; ValueKindInteger; ValueKindSymbol; ValueKindSymbol];
  dValueRefs := [0; 0; 0; 1; 1; 1; 2];
  dSymbolStarts := [0; 4; 9]; dSymbolLengths := [4; 5; 5]; dSymbolBytes := Evidence.bytes "goldvalidstale";
  dIntegerValues := [18; 30]; dBooleanValues := [1; 1]; dTimestampValues := []
|}.

(** Three outcomes, one remediation, and one requirement with one clause.  The first
    template explains decisions, the second unresolved rows, the third evidence issues. *)
Definition docTables : SemanticTables := {|
  dOutcomeNames := [1; 6; 7]; dOutcomePrecedence := [1; 3; 2]; dOutcomeTerminal := [false; true; false];
  dOutcomeSourceStarts := [0; 0; 0]; dOutcomeSourceEnds := [1; 1; 1];
  dRemediationKinds := [RemediationKindSetField]; dRemediationFields := [3]; dRemediationValues := [4]; dRemediationEvidenceKinds := [0];
  dRemediationSourceStarts := [0]; dRemediationSourceEnds := [1];
  dRequirementIDs := [7]; dRequirementClauseStarts := [0]; dRequirementClauseCounts := [1]; dRequirementClauseIDs := [1];
  dRequirementSourceStarts := [0]; dRequirementSourceEnds := [1];
  dClauseEvidenceStarts := [0]; dClauseEvidenceCounts := [1]; dClauseRemediationStarts := [0]; dClauseRemediationCounts := [1]; dClauseRemediationIDs := [1];
  dClauseOnSatisfied := [1]; dClauseOnFalse := [2]; dClauseOnMissing := [3]; dClauseOnStale := [3]; dClauseOnUnclear := [3];
  dClauseOnUnverifiable := [2]; dClauseOnConflict := [2]; dClauseExplanationIDs := [1; 1; 2; 2; 2; 2; 2]; dClauseSourceStarts := [0]; dClauseSourceEnds := [1]
|}.

Definition docTemplates : TemplateColumns := {|
  dTemplateBytes := Evidence.bytes "by by by "; dTemplateOpStarts := [0; 2; 4]; dTemplateOpCounts := [2; 2; 2]; dTemplateLiteralStarts := [0; 3; 6];
  dTemplateMaxBytes := [3; 3; 3]; dTemplateContexts := [2; 3; 4]; dTemplateOps := [1; 6; 1; 6; 1; 6]; dTemplateArgs := [3; 0; 3; 0; 3; 0];
  dAssumptionTemplateIDs := [];
  dExplanationRationaleIDs := [1; 2]; dExplanationUncertaintyStarts := [0; 0]; dExplanationUncertaintyCounts := [0; 0]; dExplanationUncertaintyIDs := [];
  dEvidenceIssueTemplateIDs := replicate 9 3; dAssumptionsSet := [1]
|}.

Definition sampleDoc : Document := {|
  nodes := docNodes; literals := docLiterals;
  catalogs := {| dEvidenceKindNames := [6]; dEvidenceKindSourceStarts := [0]; dEvidenceKindSourceEnds := [1];
                 dEvidenceStateNames := [6; 7]; dEvidenceStateSourceStarts := [0; 0]; dEvidenceStateSourceEnds := [1; 1];
                 dPolicyName := 6; dPolicyVersion := 7; dContentHash := [9]; dSourceSet := true |};
  roots := {| dRequirementApplicabilityRoots := [1]; dClauseAssertionRoots := [5]; dClauseEvidenceNodeIDs := [3] |};
  tables := docTables; templates := docTemplates
|}.

Definition sampleFields : FieldTable := {| names := [1; 2; 3]; kinds := [ValueKindSymbol; ValueKindInteger; ValueKindBoolean]; groups := [1; 1; 1] |}.

Definition sampleSource : Interner.Interner := Eval vm_compute in
  foldl (λ i b, (Interner.Intern b i).2) Interner.zeroInterner
    [Evidence.bytes "tier"; Evidence.bytes "age"; Evidence.bytes "approved"].

(** Enumerate the nodes of the document. *)
Ltac each_node n := let H := fresh in
  assert (n = 1 ∨ n = 2 ∨ n = 3 ∨ n = 4 ∨ n = 5 ∨ n = 6 ∨ n = 7 ∨ n = 8 ∨ n = 9) as H by (unfold DocLen in *; simpl in *; lia);
  repeat (destruct H as [->|H]); [..|subst n].

Lemma sample_source_ok : source_ok sampleDoc sampleFields sampleSource.
Proof.
  split.
  - split; [done|]. intros j Hj. simpl in Hj. rows j; vm_compute; eauto.
  - split; simpl; try done; [|typed..]. repeat constructor; set_solver.
  - intros n Hn. simpl in Hn. repeat (apply elem_of_cons in Hn as [->|Hn]; [eexists; split; [vm_compute; reflexivity|done]|]). by apply elem_of_nil in Hn.
  - split_and!; try done. repeat constructor. eexists. split; [lia|reflexivity].
  - split_and!; try done. repeat constructor; (eexists; split; [lia|reflexivity]).
  - eexists _, _, _. split; [reflexivity|]. split; (eexists; split; [simpl; lia|reflexivity]).
  - vm_compute. done.
  - vm_compute. done.
Qed.

Definition sampleRank (node : Z) : nat := if node =? 5 then 3 else if node =? 6 then 2 else if node =? 7 then 1 else 0.
Definition sampleWidth (node : Z) : Z := if node =? 5 then 4 else if node =? 6 then 3 else if node =? 7 then 1 else 0.

Lemma sample_doc_ok : doc_ok sampleDoc sampleSchema.
Proof.
  assert (∀ kind id l, literalOf sampleDoc id = Some l → literalKind l = kind → 0 ≤ id → valueOk sampleDoc kind id) as Hv by (intros; split; eauto).
  assert (∀ kind id, 0 ≤ id → (∃ l, literalOf sampleDoc id = Some l ∧ literalKind l = kind) → valueOk sampleDoc kind id) as Hv' by (intros; by split).
  split.
  - vm_compute. done.
  - intros node Hn. split; [|each_node node; vm_compute; eauto]. each_node node.
    + eapply (CompareOk _ _ _ 1 CompareOpEqual 1); try reflexivity; [done|]. split; [apply Hv'; [lia|]; eexists; by split|done].
    + eapply (CompareOk _ _ _ 2 CompareOpGreaterEqual 2); try reflexivity; [done|]. split; [apply Hv'; [lia|]; eexists; by split|done].
    + eapply EvidenceOk; try reflexivity; by left.
    + eapply (CompareOk _ _ _ 3 CompareOpEqual 3); try reflexivity; [done|]. split; [apply Hv'; [lia|]; eexists; by split|done].
    + eapply GroupOk; try reflexivity; [done|vm_compute; done|typed; unfold DocLen; simpl; lia].
    + eapply GroupOk; try reflexivity; [done|vm_compute; done|typed; unfold DocLen; simpl; lia].
    + eapply NotOk; try reflexivity. unfold DocLen. simpl. lia.
    + eapply (InOk _ _ _ 2); try reflexivity; [vm_compute; done|]. constructor; [|constructor]. apply Hv'; [lia|]. eexists. by split.
    + eapply (CompareOk _ _ _ 3 CompareOpEqual 4); try reflexivity; [done|]. split; [apply Hv'; [lia|]; eexists; by split|done].
  - split; simpl; typed.
  - exists sampleRank. intros node Hn. each_node node; (split; [vm_compute; lia|]); intros child Hc; vm_compute in Hc;
      repeat (apply elem_of_cons in Hc as [->|Hc]; [vm_compute; lia|]); by apply elem_of_nil in Hc.
  - unfold rootNodes, DocLen. simpl. typed; lia.
  - assert (∀ n, n ∈ [1; 5; 3] → reached sampleDoc n) as Hroot by (intros; by constructor).
    assert (∀ n m, n ∈ childrenOf sampleDoc m → reached sampleDoc m → reached sampleDoc n) as Hch by (intros; by eapply ReachedChild).
    assert (reached sampleDoc 5) as H5 by (apply Hroot; set_solver).
    assert (reached sampleDoc 6) as H6 by (apply (Hch 6 5); [vm_compute; set_solver|done]).
    assert (reached sampleDoc 7) as H7 by (apply (Hch 7 6); [vm_compute; set_solver|done]).
    intros node Hn. each_node node; try done.
    + apply Hroot. by left.
    + apply (Hch 2 5); [vm_compute; set_solver|done].
    + apply Hroot. right. right. by left.
    + apply (Hch 4 6); [vm_compute; set_solver|done].
    + apply (Hch 8 7); [vm_compute; set_solver|done].
    + apply (Hch 9 6); [vm_compute; set_solver|done].
Qed.

Lemma sample_width_ok : width_ok sampleDoc sampleWidth.
Proof.
  split.
  - intros node. unfold sampleWidth, MaxUint16. repeat case_match; lia.
  - intros node kind children Hn Hk Hg Hc. each_node node; vm_compute in Hk; injection Hk as <-; try done; vm_compute in Hc; injection Hc as <-; vm_compute; done.
  - intros node Hn Hk. each_node node; vm_compute in Hk; try done; vm_compute; done.
  - vm_compute. done.
  - vm_compute. done.
Qed.

(** ** Lowering it *)

Definition noConstants : constState * Constants :=
  ({| symbolHalf := freshLowering 0; valueHalf := freshTable 0; valueRemap := []; symbolRemap := [] |},
   {| cSymbols := sampleSymbols; cValues := sampleValues; cFields := {| FieldNames := []; fieldKinds := []; FieldGroups := [] |};
      cEvidenceKinds := {| catNames := []; catStarts := []; catEnds := [] |}; cEvidenceStates := {| catNames := []; catStarts := []; catEnds := [] |};
      cIdentity := (0, 0, []); cInputBytes := [] |}).

Definition sampleConstants : constState * Constants := Eval vm_compute in
  match lowerConstants sampleDoc sampleFields sampleSource with Ok r => r | _ => noConstants end.
Abbreviation lowerState := (sampleConstants.1).
Abbreviation lowerCon := (sampleConstants.2).

Lemma sample_constants : lowerConstants sampleDoc sampleFields sampleSource = Ok (lowerState, lowerCon).
Proof. vm_compute. done. Qed.

Lemma Ok_inj {A} (x y : A) : Ok x = Ok y → x = y.
Proof. congruence. Qed.

Lemma sample_constants_of : constants_of sampleDoc sampleFields sampleSource lowerState lowerCon.
Proof.
  destruct (lowerConstants_ok _ _ _ sample_source_ok) as (k & con & Ec & Hcon). pose proof (Ok_inj _ _ (eq_trans (eq_sym Ec) sample_constants)) as E.
  pose proof (f_equal fst E) as E1. pose proof (f_equal snd E) as E2. cbn [fst snd] in E1, E2. rewrite <-E1, <-E2. exact Hcon.
Qed.

(** The nested group is flattened into its parent, the equal comparisons 4 and 9 share
    instruction 4, the dead group maps to its operands. *)
Example sample_lowered :
  match normalize lowerState sampleDoc with
  | Ok cols => Opcodes cols = [OpcodeEqual; OpcodeEvidence; OpcodeGreaterEqual; OpcodeEqual; OpcodeIn; OpcodeNot; OpcodeAll] ∧
      operandsOf (with_instr sampleProgram cols) 6 = [3; 4; 4; 6] ∧ RootFlags cols = [1; 4; 0; 0; 0; 0; 2] ∧
      nodeEntriesOf cols 4 = [4] ∧ nodeEntriesOf cols 9 = [4] ∧ nodeEntriesOf cols 6 = [4; 4; 6] ∧ nodeEntriesOf cols 5 = [7]
  | _ => False
  end.
Proof. vm_compute. done. Qed.


(** A document whose first node is its own child: the walk still ends. *)
Definition cyclicDoc : Document := {|
  nodes := {| dNodeKinds := [NodeKindNot]; dNodeRefs := [0]; dCompareFields := []; dCompareOps := []; dCompareValues := []; dCompareListStarts := [];
              dCompareListCounts := []; dListValueIDs := []; dGroupChildStarts := []; dGroupChildCounts := []; dChildNodeIDs := []; dNotChildren := [1];
              dEvidenceKinds := []; dEvidenceStates := []; dEvidenceSubjects := []; dEvidenceScopes := []; dEvidenceTimings := [];
              dSourceStarts := [0]; dSourceEnds := [0]; dInputBytes := [] |};
  literals := docLiterals; catalogs := sampleDoc; roots := {| dRequirementApplicabilityRoots := [1]; dClauseAssertionRoots := []; dClauseEvidenceNodeIDs := [] |};
  tables := docTables; templates := docTemplates
|}.

Lemma walk_terminates_witness :
  ∃ r, walk lowerState cyclicDoc (walkFuel cyclicDoc) [(1, 0)] (with_state (freshNormalizer 1 [1]) [nodeGray]) = Some r.
Proof. apply (walk_terminates lowerState cyclicDoc 1 0 (freshNormalizer 1 [1])); [simpl; typed|vm_compute; done|vm_compute; done]. Defined.

(** ** The lowered program *)

Definition lowerSpec : FactSpec := {| fFieldIDs := [1]; fColumns := [0]; ValueStarts := [0]; ValueCounts := [1]; UseCounts := [1]; fValues := [4] |}.

Definition lowerProgram : Program := {|
  instr := noColumns; slots := sampleSlots; symbols := cSymbols lowerCon; values := cValues lowerCon; semantics := sampleSemantics;
  Explanations := Explanations sampleProgram; Outcomes_ := sampleOutcomes; RemediationRows := sampleRemediations; Resolutions := sampleResolutions;
  resolver := sampleResolver; ApplicabilityIndex := samplePolicy; FactIndexSpec := lowerSpec; FieldIndex := sampleSchema;
  FieldKinds := FieldKinds sampleProgram
|}.

Lemma lowering_preserves_meaning_witness :
  ∃ cols, normalize lowerState sampleDoc = Ok cols ∧ validateSlotProgram (with_instr lowerProgram cols) = Ok tt ∧
    nodeValue sampleDoc (findSymbol (cSymbols lowerCon)) sampleSchema sampleBatch [0; ReasonStale] 0 9 6 =
      Some (groupValue NodeKindAll (map (λ id, denote (with_instr lowerProgram cols) sampleBatch [0; ReasonStale] (Z.to_nat (id - 1)) 0) (nodeEntriesOf cols 6))).
Proof.
  destruct (lowering_preserves_meaning sampleDoc sampleFields sampleSource lowerState lowerCon lowerProgram sampleWidth sample_constants_of eq_refl eq_refl sample_doc_ok sample_width_ok)
    as (cols & E & Hn & _ & _ & _ & Hv).
  destruct (Hn 6) as (_ & _ & Hval); [split; vm_compute; discriminate|]. exists cols. split; [exact E|]. split; [exact Hv|].
  exact (Hval sampleBatch [0; ReasonStale] 0%nat).
Defined.

(** ** Executing it *)

Definition lowerBatch : Batch := {|
  SymbolValues := [4; 4; 5; 4]; bIntegerValues := bIntegerValues sampleBatch; bTimestampValues := []; bBooleanValues := bBooleanValues sampleBatch;
  PresenceMasks := PresenceMasks sampleBatch; RequestIDs := RequestIDs sampleBatch; EvidenceOffsets := EvidenceOffsets sampleBatch;
  EvidenceRefs := EvidenceRefs sampleBatch; Evidence := Evidence sampleBatch; Rows := 4; rowBase := 0; rowStride := 0
|}.

Definition compiledProgram : Program := Eval vm_compute in match lowerInstructions lowerState sampleDoc lowerProgram with Ok p => p | _ => lowerProgram end.
Definition compiledSlots : SlotColumns := Eval vm_compute in match assignSlots compiledProgram slotReuse with Ok s => s | _ => sampleSlots end.
Abbreviation compiled := (with_slots compiledProgram compiledSlots).

Lemma sample_compiles : lowerInstructions lowerState sampleDoc lowerProgram = Ok compiledProgram ∧ assignSlots compiledProgram slotReuse = Ok compiledSlots.
Proof. split; vm_compute; done. Qed.

Lemma compiled_exec_ok : exec_ok compiled lowerBatch sampleEnv.
Proof.
  assert (batch_typed lowerBatch) as Hb by (split; simpl; typed). assert (evidence_typed lowerBatch) as He by (split; simpl; typed).
  split; [apply validExecutionSchedule_ok; [split; simpl; typed|vm_compute; done]|apply columns_ok_intro; [done|apply sample_schema_typed|vm_compute; done]| |by left
         |vm_compute; done|vm_compute; done| |intros _; apply validEvidenceBatch_ok; [done|vm_compute; done]|].
  - split; [split; simpl; typed|simpl; typed|simpl; typed].
  - split; [done|]. split; [done|typed].
  - intros row Hr. simpl in Hr. rows row; vm_compute; done.
Qed.

Definition compiledScratch : ExecState :=
  {| truthWords := make_ (2 * TruthSlotCount compiledSlots); reasonWords := make_ (9 * ReasonSlotCount compiledSlots); compareMask := [] |}.

Lemma compiled_scratch : truthGood compiled (Rows lowerBatch) (truthWords compiledScratch) ∧ reasonGood compiled (Rows lowerBatch) (reasonWords compiledScratch).
Proof. split; vm_compute; done. Qed.

(** On the first request, age 20, the assertion of the document holds, and so does the
    truth value in the slot of its instruction. *)
Lemma compiled_policy_computes_document_witness :
  ∃ st' row, executeScheduleMode sampleEnv compiled lowerBatch executionAuto compiledScratch = Ok st' ∧ nodeEntriesOf compiledProgram 5 = [Z.of_nat row + 1] ∧
    readTruth 4 (truthWords st') (TruthSlots compiledSlots !!! row) 0 = tv_true.
Proof.
  destruct (compiled_policy_computes_document sampleDoc sampleFields sampleSource sampleSchema sampleWidth slotReuse sample_source_ok sample_doc_ok sample_width_ok)
    as (k & con & Ec & Hp). pose proof (Ok_inj _ _ (eq_trans (eq_sym Ec) sample_constants)) as E.
  pose proof (f_equal fst E) as E1. pose proof (f_equal snd E) as E2. cbn [fst snd] in E1, E2. rewrite E1, E2 in Hp. clear E E1 E2 Ec.
  destruct (Hp lowerProgram eq_refl eq_refl eq_refl) as (p' & s & Hl & Ha & Hx). destruct sample_compiles as [Hl' Ha'].
  pose proof (Ok_inj _ _ (eq_trans (eq_sym Hl) Hl')) as Ep. rewrite Ep in Ha, Hx. pose proof (Ok_inj _ _ (eq_trans (eq_sym Ha) Ha')) as Es. rewrite Es in Hx.
  destruct (Hx lowerBatch sampleEnv executionAuto compiledScratch compiled_exec_ok (proj1 compiled_scratch) (proj2 compiled_scratch)) as (st' & Hrun & Hd).
  destruct (Hd 5 RootAssertion 0%nat) as (row & v & Hr & Hv & Ht & _); [split; vm_compute; discriminate|right; left; split; [done|by left]|vm_compute; done|].
  exists st', row. split; [exact Hrun|]. split; [exact Hr|]. vm_compute in Hv. apply Some_inj in Hv. rewrite <-Hv in Ht. exact Ht.
Defined.

(** ** A group with one child *)

(** 1: tier = gold; 2: age >= 18; 3: evidence; 4: all(2). *)
Definition oneChildDoc : Document := {|
  nodes := {| dNodeKinds := [NodeKindCompare; NodeKindCompare; NodeKindEvidence; NodeKindAll]; dNodeRefs := [0; 1; 0; 0]; dCompareFields := [1; 2];
              dCompareOps := [CompareOpEqual; CompareOpGreaterEqual]; dCompareValues := [1; 2]; dCompareListStarts := [0; 0]; dCompareListCounts := [0; 0];
              dListValueIDs := []; dGroupChildStarts := [0]; dGroupChildCounts := [1]; dChildNodeIDs := [2]; dNotChildren := [];
              dEvidenceKinds := [1]; dEvidenceStates := [1]; dEvidenceSubjects := []; dEvidenceScopes := []; dEvidenceTimings := [];
              dSourceStarts := replicate 4 0; dSourceEnds := replicate 4 1; dInputBytes := [123; 125] |};
  literals := docLiterals; catalogs := sampleDoc; roots := {| dRequirementApplicabilityRoots := [1]; dClauseAssertionRoots := [4]; dClauseEvidenceNodeIDs := [3] |};
  tables := docTables; templates := docTemplates
|}.

Lemma oneChild_source_ok : source_ok oneChildDoc sampleFields sampleSource.
Proof.
  destruct sample_source_ok as [H1 H2 H3 H4 H5 H6 H7 H8]. by split.
Qed.

Ltac each_small n := let H := fresh in
  assert (n = 1 ∨ n = 2 ∨ n = 3 ∨ n = 4) as H by (unfold DocLen in *; simpl in *; lia); destruct H as [->|[->|[->| ->]]].

Lemma oneChild_doc_ok : doc_ok oneChildDoc sampleSchema.
Proof.
  assert (∀ kind id, 0 ≤ id → (∃ l, literalOf oneChildDoc id = Some l ∧ literalKind l = kind) → valueOk oneChildDoc kind id) as Hv by (intros; by split).
  split.
  - vm_compute. done.
  - intros node Hn. split; [|each_small node; vm_compute; eauto]. each_small node.
    + eapply (CompareOk _ _ _ 1 CompareOpEqual 1); try reflexivity; [done|]. split; [apply Hv; [lia|]; eexists; by split|done].
    + eapply (CompareOk _ _ _ 2 CompareOpGreaterEqual 2); try reflexivity; [done|]. split; [apply Hv; [lia|]; eexists; by split|done].
    + eapply EvidenceOk; try reflexivity; by left.
    + eapply GroupOk; try reflexivity; [done|vm_compute; done|typed; unfold DocLen; simpl; lia].
  - split; simpl; typed.
  - exists (λ node, if node =? 4 then 1%nat else 0%nat). intros node Hn. each_small node; (split; [vm_compute; lia|]); intros child Hc; vm_compute in Hc;
      repeat (apply elem_of_cons in Hc as [->|Hc]; [vm_compute; lia|]); by apply elem_of_nil in Hc.
  - unfold rootNodes, DocLen. simpl. typed; lia.
  - assert (∀ n, n ∈ [1; 4; 3] → reached oneChildDoc n) as Hroot by (intros; by constructor).
    intros node Hn. each_small node; try (apply Hroot; set_solver).
    apply (ReachedChild _ 4 2); [apply Hroot; set_solver|vm_compute; set_solver].
Qed.

