(* ===== verification/SampleIndex.v ===== *)
(** * Indexes of concrete policies
    The constraints of two requirements on a symbol field, and a policy whose
    requirement applies to a list of tiers that is long enough for a fact bitmap.  The
    lemmas instantiate the properties of the index builder and of index lowering. *)

From S2P Require Import Prelude Store Truth Schema Result Program Batch Predicate Simd FactIndex Evidence Executor PolicyIndex PolicyBuild Finalize Execute.
From S2P Require Import Liveness Schedule IndexLower IndexMeaning FactLower IndexOk Sample.
#[local] Open Scope Z_scope.

(** ** Constraints *)

(** Requirement 0 asks field 1 to be 5 or 6; requirement 1 asks field 1 to be 6 and
    field 2 to be 9; requirement 2 is unconstrained. *)
Definition sampleConstraints : Constraints :=
  {| cnRows := [0; 1; 1]; cnFields := [1; 1; 2]; cnValueStarts := [0; 2; 3]; cnValueCounts := [2; 1; 1]; cnValues := [6; 5; 6; 9] |}.

Lemma built_index_exact_witness :
  ∃ p, Build 3 sampleConstraints = Ok p ∧ pFieldIDs p = [1; 2] ∧ pValues p = [5; 6; 9] ∧ candidate p [5; 9] [1; 1] 0 = true ∧
    candidate p [5; 9] [1; 1] 1 = false ∧ candidate p [5; 9] [1; 1] 2 = true.
Proof.
  destruct (built_index_exact 3 sampleConstraints) as (p & HB & _ & _ & _ & _ & _ & Hc).
  - split; [done|typed..].
  - vm_compute. done.
  - split; [|vm_compute; lia]. intros i j Hi Hj. simpl in Hi, Hj. rows i; rows j; vm_compute; try done; lia.
  - exists p. split; [done|]. pose proof HB as HB'. vm_compute in HB'. injection HB' as <-. split; [done|]. split; [done|].
    split; [|by vm_compute]. apply (Hc [5; 9] [1; 1] 0%nat); [done|]. intros k f Hk Er Ef _. simpl in Hk. rows k; try done.
    pose proof (lookup_lt_Some _ _ _ Ef) as Hf. simpl in Hf. rows f; [|done]. change (5 ∈ [6; 5]). right. by left.
Defined.

(** ** A policy with a long list *)

(** The sample policy with its first instruction replaced by a membership test. *)
Definition tierCount : nat := 96.
Definition tierInstructions : InstructionColumns :=
  {| Opcodes := [OpcodeIn; OpcodeGreaterEqual; OpcodeEvidence; OpcodeEqual; OpcodeAll]; Fields := Fields sampleInstructions; Values := [0; 2; 0; 3; 0];
     ListStarts := [0; 0; 0; 0; 0]; ListCounts := [Z.of_nat tierCount; 0; 0; 0; 0]; OperandStarts := OperandStarts sampleInstructions;
     OperandCounts := OperandCounts sampleInstructions; EvidenceKinds := EvidenceKinds sampleInstructions; EvidenceStates := EvidenceStates sampleInstructions;
     EvidenceSubjects := []; EvidenceScopes := []; EvidenceTimings := []; RootFlags := RootFlags sampleInstructions; InstructionNodes := [1; 2; 3; 4; 5];
     InstructionSourceStarts := [0; 0; 0; 0; 0]; InstructionSourceEnds := [0; 0; 0; 0; 0]; ListValues := 4 :: replicate (tierCount - 1) 1; Operands := [2; 4];
     NodeInstructionStarts := [0; 1; 2; 3; 4]; NodeInstructionCounts := [1; 1; 1; 1; 1]; NodeInstructionIDs := [1; 2; 3; 4; 5];
     OpcodeRunOpcodes := []; OpcodeRunStarts := []; OpcodeRunCounts := [] |}.
Definition tierValues : ValueColumns :=
  {| ValueKinds := [ValueKindSymbol; ValueKindInteger; ValueKindBoolean; ValueKindSymbol]; ValueRefs := [1; 1; 1; 2]; IntegerValues := [18];
     BooleanValues := [1]; TimestampValues := [] |}.
Definition tierProgram : Program :=
  {| instr := tierInstructions; slots := sampleSlots; symbols := sampleSymbols; values := tierValues; semantics := sampleSemantics;
     Explanations := Explanations sampleProgram; Outcomes_ := sampleOutcomes; RemediationRows := sampleRemediations; Resolutions := sampleResolutions;
     resolver := sampleResolver; ApplicabilityIndex := samplePolicy; FactIndexSpec := sampleSpec; FieldIndex := sampleSchema; FieldKinds := sKinds sampleSchema |}.

Lemma tier_ready : index_ready tierProgram.
Proof.
  split.
  - split; typed.
  - by vm_compute.
  - typed.
  - by vm_compute.
  - by repeat constructor.
  - intros schema row Hs Hrow. vm_compute in Hs. injection Hs as <-. simpl in Hrow. rows row; by vm_compute.
  - intros row Hrow E. simpl in Hrow. rows row; by vm_compute.
  - typed.
  - split; [vm_compute; done|]. intros s Hs. change (ProgramSymbolCount tierProgram) with 3 in Hs.
    assert (s = 1 ∨ s = 2 ∨ s = 3) as [->|[->| ->]] by lia; vm_compute; eauto.
  - vm_compute. done.
  - vm_compute. discriminate.
Qed.

(** The index restricts the requirement to its tiers, the fact bitmaps list them, and
    the third request (not gold) is filtered out. *)
Lemma indexes_never_change_decisions_witness :
  ∃ p', lowerIndexes tierProgram = Ok p' ∧ pFieldIDs (ApplicabilityIndex p') = [1] ∧ pValues (ApplicabilityIndex p') = [1; 2] ∧
    fFieldIDs (FactIndexSpec p') = [1] ∧ fValues (FactIndexSpec p') = [1; 2] ∧ validFactIndexQueries p' = Ok true ∧
    ∀ r, counts p' sampleBatch [] 0 r = negb (bool_decide ((rootValue p' sampleBatch [] 1 r).1 = tv_false)).
Proof.
  destruct (indexes_never_change_decisions tierProgram tier_ready) as (p' & HL & _ & _ & _ & Hq & _ & _ & Hc). exists p'. split; [done|].
  pose proof HL as HL'. vm_compute in HL'. injection HL' as <-. do 4 (split; [done|]). split; [exact Hq|].
  intros r. apply (Hc sampleBatch [] 0%nat r). simpl. lia.
Defined.

(** Two constraints of one requirement that share their values pass validation, and
    the builder, whose scratch holds as many values as are supplied, then misses one. *)
Example overlapping_constraints_panic :
  let c := {| cnRows := [0; 0]; cnFields := [1; 2]; cnValueStarts := [0; 0]; cnValueCounts := [2; 2]; cnValues := [5; 6] |} in
  validateConstraints 1 c = Ok tt ∧ Build 1 c = Panic "index: canonical value disappeared".
Proof. vm_compute. done. Qed.
