(* ===== verification/SampleCompile.v ===== *)
(** * A concrete policy, compiled and executed
    The sample document is valid, it compiles, and the executor decides a batch of four
    requests as the document states; a document with a cycle is rejected. *)

From S2P Require Import Prelude Store Truth Schema Diagnostic Validate Traversal GraphWalk GraphOk ValidateOk.
From S2P Require Import Result Program Templates Batch Predicate Simd FactIndex Evidence Executor PolicyIndex PolicyBuild Finalize Execute ResultRows.
From S2P Require Import Liveness Schedule ScheduleMeaning SymbolTable Interner Frozen SymbolCheck Ast Constants ConstantsMeaning Normalize Compact DocMeaning NormalizeOk WalkOk LowerMeaning.
From S2P Require Import IndexLower IndexMeaning FactLower IndexOk LowerRows Semantics SemanticsOk Decision Compile Validated Sample SampleLower.
Import Reason.
#[local] Open Scope Z_scope.

(** ** Validation *)

Ltac typed16 := repeat first [done | apply Forall_cons; split | apply Forall_nil; exact I | split | (unfold is_u32, is_u16, MaxUint16; lia)].

Lemma sample_typed : doc_typed sampleDoc.
Proof. split; [split|..]; simpl; typed16. Qed.

Lemma sample_fits : policy_fits sampleDoc sampleFields sampleSource sampleSchema sampleWidth.
Proof.
  destruct sample_source_ok as [_ H2 H3 _ _ _ H7 H8]. split; [apply sample_typed|done|done|vm_compute; done|vm_compute; eauto| | |apply sample_width_ok|vm_compute; done|vm_compute; done|vm_compute; done|done].
  - intros node children Hn Hg. each_node node; vm_compute in Hg; try done; injection Hg as <-; simpl; lia.
  - constructor; [|constructor]. exists 0%nat. split; [simpl; lia|]. vm_compute. set_solver.
Qed.

(** ** The compiled policy *)

Definition samplePolicy0 : Compiled := {|
  cpProgram := lowerProgram; cpConstants := lowerCon;
  cpExplanations := {| xTemplates := {| LiteralBytes := []; OpStarts := []; OpCounts := []; LiteralStarts := []; MaxBytes := []; Ops := []; Args := [] |};
                       xExplanations := Explanations sampleProgram; EvidenceIssueNodeIDs := []; EvidenceIssueTemplateIDs := [] |};
  cpOutcomeSpans := ([], []); cpRemediationSpans := ([], []); cpRequirementSpans := ([], []); cpClauseSpans := ([], []) |}.

Definition samplePolicyCompiled : Compiled := Eval vm_compute in
  match lowerDocument sampleDoc sampleFields sampleSource with Ok c => c | _ => samplePolicy0 end.

Lemma sample_policy_compiles : Lower sampleDoc sampleFields sampleSource = Ok samplePolicyCompiled.
Proof. vm_compute. done. Qed.

Lemma sample_policy_accepts : accepts samplePolicyCompiled lowerBatch.
Proof. split; [vm_compute; done|]. split; [vm_compute; done|]. eexists. vm_compute. done. Qed.

Lemma lowerBatch_typed : input_typed lowerBatch.
Proof. split; [split; simpl; typed|simpl; typed|vm_compute; done|split; simpl; typed]. Qed.


(** ** A document with a cycle *)

(** The sample document with node 7 = not 6: a cycle through 6 and 7, and nothing leads
    to node 8. *)
Definition loopDoc : Document := {|
  nodes := {| dNodeKinds := dNodeKinds docNodes; dNodeRefs := dNodeRefs docNodes; dCompareFields := dCompareFields docNodes; dCompareOps := dCompareOps docNodes;
              dCompareValues := dCompareValues docNodes; dCompareListStarts := dCompareListStarts docNodes; dCompareListCounts := dCompareListCounts docNodes;
              dListValueIDs := dListValueIDs docNodes; dGroupChildStarts := dGroupChildStarts docNodes; dGroupChildCounts := dGroupChildCounts docNodes;
              dChildNodeIDs := dChildNodeIDs docNodes; dNotChildren := [6]; dEvidenceKinds := dEvidenceKinds docNodes; dEvidenceStates := dEvidenceStates docNodes;
              dEvidenceSubjects := []; dEvidenceScopes := []; dEvidenceTimings := []; dSourceStarts := dSourceStarts docNodes; dSourceEnds := dSourceEnds docNodes;
              dInputBytes := dInputBytes docNodes |};
  literals := docLiterals; catalogs := sampleDoc; roots := sampleDoc; tables := docTables; templates := docTemplates
|}.

Lemma loop_typed : doc_typed loopDoc.
Proof. split; [split|..]; simpl; typed16. Qed.

Example loop_diagnostics : Validate loopDoc sampleFields =
  Ok [diag CodeCycle TableNode ▷ onMember MemberChild ▷ onRow 7 ▷ onNode 6 ▷ onSpan (0, 1);
      diag CodeUnreachableNode TableNode ▷ onRow 8 ▷ onNode 8 ▷ onSpan (0, 1)].
Proof. vm_compute. done. Qed.

Lemma loop_cycle : tc (edge loopDoc) 6 6.
Proof.
  apply (tc_l _ _ 7); [|apply tc_once]; (split; [split; vm_compute; done|]; split; [split; vm_compute; done|]; vm_compute; set_solver).
Qed.

Lemma graph_diagnostics_exact_witness : (∃ u, tc (edge loopDoc) u u) ∧ safeNode loopDoc 8 ∧ ¬ reachedNode loopDoc 8.
Proof.
  destruct (graph_diagnostics_exact loopDoc (ty_graph _ loop_typed)) as (ds & E & Hcycle & Horphan). vm_compute in E. injection E as <-. split.
  - apply Hcycle. eexists. split; [by left|done].
  - apply Horphan. eexists. split; [right; by left|done].
Defined.

Lemma invalid_documents_rejected_witness : Lower loopDoc sampleFields sampleSource = Err ErrInvalidDocument.
Proof.
  destruct (invalid_documents_rejected loopDoc sampleFields sampleSource loop_typed) as (ds & _ & _ & H & _). apply H. exists 6. exact loop_cycle.
Defined.
